(* ===== verification/_CoqProject ===== *)
-Q . S2P
Prelude.v
Mem.v
KList.v
Heap4.v
Heap4Rep.v
Heap4Proofs.v
Tasks.v
TasksInv.v
TasksOps.v
TasksProofs.v
TasksResume.v
Sched.v
SchedTasks.v
Queue.v
QueueProofs.v
QueueExamples.v
StreamBuffer.v
StreamBufferProofs.v
EventGroups.v
EventGroupsProofs.v
Timers.v
TimersProofs.v
Crc.v
CrcProofs.v
Xprintf.v
XprintfProofs.v
Ymodem.v
YmodemProofs.v
Shell.v
ShellProofs.v
Memp.v
MempProofs.v
LwipHeap.v
LwipHeapProofs.v
Pbuf.v
PbufProofs.v
PbufRefs.v
PbufHistory.v
PbufAlloc.v
LwipDef.v
LwipDefProofs.v
Chksum.v
ChksumProofs.v
Ethernet.v
EthernetProofs.v
EthernetExamples.v
IpAddr.v
IpAddrProofs.v
EthFrames.v
Etharp.v
EtharpTable.v
FrameLaws.v
EtharpInv.v
EtharpOps.v
EtharpSend.v
EtharpQuery.v
EtharpOutput.v
EtharpInput.v
PbufFrames.v
ArpPool.v
EtharpProofs.v
EtharpExamples.v
Ip4.v
Ip4Send.v
Ip4Receive.v
Ip4Proofs.v
Ip4Examples.v
Timeouts.v
TimeoutsQueue.v
TimeoutsProofs.v
