(* ===== verification/Prelude.v ===== *)
(** * SunWiseSpace: a verification library

    The repository holds the software of two boards: a real-time kernel
    (src/FreeRTOS/FreeRTOS-Kernel), a network stack (src/LwIP), and the two
    projects soc2022_project and xyp1022_project with their drivers, the shell,
    formatted output and file reception.  This library models the parts that
    carry the behaviour of the system and proves what makes them correct.  The
    configuration is that of the projects (FreeRTOSConfig.h): preemption, time
    slicing, seven priorities, mutexes, software timers, dynamic allocation from
    heap_4, no static allocation, 32-bit ticks, empty trace hooks, [char]
    unsigned.  [configASSERT] is live: in the ports (portmacro.h) it prints and
    halts.

    ** The model

    Stateful code is a function in the monad [prog] below: from a state to a
    result and a new state, or [None] for an access that the C code must never
    make (a wild pointer, an index out of range, a read of unmapped memory), for
    a [configASSERT] that fails, and for a wait that nothing ends.  So a theorem
    "the function returns [Some ...]" also says that the code does not go wrong
    and does not halt.  The assertions are written out in the order of the code;
    left out are those on pointers to objects that are part of the state of the
    model (a queue is there) and those on values that the types of the model
    exclude.  Unsigned words are integers in [0, 2^w) and every wrap-around is
    written out.  A loop of the code is a recursion on a fuel; the fuel is
    computed from the state where the function is defined (one more than the
    number of items of a list, of bytes of a buffer, and so on), and the theorems
    show that it never runs out, or else the fuel is an argument that counts
    external events (the packets of a transfer, the messages in a queue).  A
    function here is one atomic piece of the code: what it does in one critical
    section, or with the scheduler suspended, or in one interrupt.  A call that
    blocks is cut at the place where it blocks, and the theorems about
    interleavings let other tasks run there.

    ** The files

    - [Prelude]: words, bytes, C strings, the monad, the shared tactics.
    - [Mem]: byte memory (FreeRTOS raw storage, frames).
    - [KList] (list.c, list.h): the kernel lists.  [list_rep] relates the
      pointers to a sequence with the position of [pxIndex]; insertion, sorted
      insertion, removal and the round robin refine operations on the sequence.
    - [Heap4], [Heap4Rep], [Heap4Proofs] (heap_4.c): the allocator over byte
      memory.  The abstract heap is a tiling of the region into blocks; malloc
      and free refine it, allocations never overlap, nothing leaks, free blocks
      are merged, and malloc fails only when no block is large enough.
    - [Tasks] (tasks.c), [TasksInv] (the invariant of the task lists and the
      lemmas of the single steps), [TasksOps], [TasksProofs], [TasksResume] (the
      properties): which task is woken by a tick and when, that the running task
      has the highest priority, delays to the exact tick across the wrap of the
      counter, priority inheritance, event lists, timeouts, resuming the
      scheduler.
    - [Sched]: what tasks.c promises to its clients, as classes; [SchedTasks]:
      tasks.c is an instance.
    - [Queue], [QueueProofs], [QueueExamples] (queue.c): the ring of items against
      any [Scheduler]; sending and receiving from tasks and interrupts, the locks
      of a queue, and first-in first-out order under every interleaving.
    - [StreamBuffer], [StreamBufferProofs] (stream_buffer.c): one reader and one
      writer without mutual exclusion; the copying and the publication of an
      index are separate steps, and every interleaving delivers the bytes in
      order.
    - [EventGroups], [EventGroupsProofs] (event_groups.c): setting bits releases
      exactly the waiting tasks whose condition holds.
    - [Timers], [TimersProofs] (timers.c): the two lists of timers and the daemon;
      the comparison of tick counts agrees with true time, messages do what they
      say, and the switch of the lists at the wrap expires every timer in order.
    - [Crc], [CrcProofs] (drv_gmac_crc.c, drv_gmac.c, ymodem.c): the checksums are
      the shift registers of the standards; bursts of up to 32 bits are detected.
    - [Xprintf], [XprintfProofs] (xprintf.c): a printed number reads back.
    - [Ymodem], [YmodemProofs] (ymodem.c): the packet receiver stays in its buffer
      for any input; what a sender sends is what the file holds, if the disk took it all.
    - [Shell], [ShellProofs] (xshell.c, main.c): the line editor refines a text
      with a cursor, a line splits into its words, a typed command is run with its
      arguments.
    - [Memp], [MempProofs] (LwIP memp.c): the pools; an element is held by at most
      one user, and an allocation fails exactly when all elements are held.
    - [LwipHeap], [LwipHeapProofs] (LwIP mem.c): the heap of the network stack,
      first fit over a chain of headers; release and trim merge free neighbours,
      allocations never overlap and nothing leaks.
    - [Pbuf], [PbufProofs] (LwIP pbuf.c): packets as chains of buffers; copying in
      and out, between packets, and searching, whatever the sizes of the buffers.
    - [PbufRefs], [PbufHistory]: the reference counts of packet buffers over any
      history of calls, against the class [PbufMemoryOk] of what the memory
      promises; [PbufAlloc] shows that the pools and the heap keep the promises.
    - [LwipDef], [LwipDefProofs] (LwIP def.c): byte order, a parameter of what
      depends on it, since the two boards differ.
    - [Chksum], [ChksumProofs] (LwIP inet_chksum.c): the checksums of the protocols
      against the one's complement sum of RFC 1071.
    - [Ethernet], [EthernetProofs], [EthernetExamples] (drv_gmac.c, ethernetif.c): the
      rings of descriptors that the driver shares with the controller, which is
      the environment of the model; frames come in and go out in order and whole.
      The semaphore of the output is a binary one (sys_arch.c).
    - [IpAddr], [IpAddrProofs] (LwIP ip4_addr.c): addresses, masks and the dotted
      notation, which reads back on either byte order.
    - [EthFrames] (LwIP ethernet.c, the packets of etharp.c), [Etharp] (etharp.c): the
      table that maps addresses of the network to those of the hardware, with
      the packets that wait; [EtharpTable]: the search in the table;
      [FrameLaws]: what the packets promise, as a class; [EtharpInv]: the
      invariant of the table; [EtharpOps], [EtharpSend], [EtharpQuery],
      [EtharpOutput], [EtharpInput]: each operation and what it sends;
      [EtharpProofs]: any history of calls keeps the table well formed, waiting
      packets are sent in order, an unknown address is asked for, and entries
      that nobody renews expire.
    - [PbufFrames]: the packet buffers keep the promises of [FrameLaws], and
      [ArpPool] the pool of the queue elements those of [ArpQueueOk];
      [EtharpExamples] puts the parts together on a concrete memory.
    - [Ip4] (LwIP ip4.c): routing, the header that is put in front of a datagram,
      and the delivery of what comes in; the layers above are a class.
      [Ip4Send] and [Ip4Receive]: each of the two ways; [Ip4Proofs]: what is
      sent, what is accepted, and that a datagram of one host arrives at another
      one, whatever the byte orders; [Ip4Examples]: two hosts at work.
    - [Timeouts] (LwIP timeouts.c, the wait in tcpip.c): the list of timeouts and the
      timers of the protocols; [TimeoutsQueue]: on a clock that wraps, the list is a
      queue in the order of the due times; [TimeoutsProofs]: what that promises to the
      protocols, and that a check of the timeouts returns and serves what is due.
      The work of the timers is a class: it leaves the list alone and takes a
      bounded time. LWIP_ASSERT only prints, and is left out.
    Components meet at interfaces: the queues, the stream buffers and the event
    groups call the scheduler; the timers call the lists, and a class stands for
    their command queue, callbacks and heap; the file reception calls [Crc] and
    [Xprintf], and a class stands for the file system, whose calls may fail or
    write less than they are asked to.

    The names of definitions are those of the code.  Definitions that have no
    counterpart in the code (specifications, invariants, abstractions) are said
    to be so where they stand.

    ** Not modelled

    Registers of devices and processors, and so the drivers apart from the
    functions named above; the ports of the kernel, of which the atomicity of
    critical sections is what the model keeps; the rest of LwIP (protocols, API); the third-party
    file system FatFs and the vendor library of xyp1022_project, which appear as
    interfaces where they are called; the test commands of the shell; benchmarks.
    In tasks.c: names, stacks and statistics of tasks; in queue.c: queue sets
    (off) and the registry for debuggers; in timers.c: the creation of the daemon
    task and callbacks that change timers other than through messages. *)
From Stdlib Require Export ZArith Lia.
From Stdlib Require Ascii String.
From stdpp Require Export prelude gmap.

#[export] Set Default Proof Using "Type".

Open Scope Z_scope.

(** ** Machine words

    A [w]-bit unsigned integer of the C code is a [Z] in [0 <= z < 2^w]; an
    arithmetic result is brought back into that range by the wrap-around that
    the C standard prescribes for unsigned types. *)

Definition u8 (z : Z) : Z := z `mod` 2 ^ 8.
Definition u16 (z : Z) : Z := z `mod` 2 ^ 16.
Definition u32 (z : Z) : Z := z `mod` 2 ^ 32.

(** The value of a 32-bit pattern read as a two's complement [int]. *)
Definition s32 (z : Z) : Z := if u32 z <? 2 ^ 31 then u32 z else u32 z - 2 ^ 32.

Create HintDb words.

Lemma u8_range z : 0 <= u8 z < 2 ^ 8.
Proof. apply Z.mod_pos_bound; lia. Qed.

Lemma u16_range z : 0 <= u16 z < 2 ^ 16.
Proof. apply Z.mod_pos_bound; lia. Qed.

Lemma u32_range z : 0 <= u32 z < 2 ^ 32.
Proof. apply Z.mod_pos_bound; lia. Qed.

Lemma u8_small z : 0 <= z < 2 ^ 8 -> u8 z = z.
Proof. apply Z.mod_small. Qed.

Lemma u16_small z : 0 <= z < 2 ^ 16 -> u16 z = z.
Proof. apply Z.mod_small. Qed.

Lemma u32_small z : 0 <= z < 2 ^ 32 -> u32 z = z.
Proof. apply Z.mod_small. Qed.

#[export] Hint Resolve u8_range u16_range u32_range : words.

(** [words] removes the wrap-arounds that cannot happen. *)
Ltac words := repeat match goal with
  | |- context [u8 ?z] => rewrite (u8_small z) by lia
  | |- context [u16 ?z] => rewrite (u16_small z) by lia
  | |- context [u32 ?z] => rewrite (u32_small z) by lia
  end.

(** Linear arithmetic with division and remainder by constants. *)
Ltac dlia := Z.to_euclidean_division_equations; lia.

(** ** Bytes and C strings

    A byte is a [Z] in [0, 256); a C string is the list of the bytes before
    its terminator. *)

Definition byte_ok (b : Z) : Prop := 0 <= b < 256.

#[export] Instance byte_ok_dec b : Decision (byte_ok b).
Proof. unfold byte_ok; apply _. Defined.

(** The bytes of a string literal. *)
Fixpoint bytes_of (s : String.string) : list Z :=
  match s with
  | String.EmptyString => []
  | String.String a s' => Z.of_nat (Ascii.nat_of_ascii a) :: bytes_of s'
  end.

(** The string that starts with the first of the bytes. *)
Fixpoint c_string (bs : list Z) : list Z :=
  match bs with [] => [] | b :: bs' => if b =? 0 then [] else b :: c_string bs' end.

Lemma c_string_app str more : Forall (fun b => b <> 0) str -> c_string (str ++ 0 :: more) = str.
Proof.
  induction 1 as [|b str Hb _ IH]; [done|]. cbn [app c_string]. rewrite IH. by destruct (Z.eqb_spec b 0).
Qed.

(** ** Generic lemmas *)

Section lists.
Context {A : Type}.

Lemma lookup_app_mid (l1 l2 : list A) x : (l1 ++ x :: l2) !! length l1 = Some x.
Proof. by apply list_lookup_middle. Qed.

Lemma insert_app_mid (l1 l2 : list A) x y :
  <[length l1 := y]> (l1 ++ x :: l2) = l1 ++ y :: l2.
Proof. rewrite insert_app_r_alt by lia. by rewrite Nat.sub_diag. Qed.

Lemma filter_all (P : A -> Prop) `{!forall x, Decision (P x)} (l : list A) :
  Forall P l -> filter P l = l.
Proof. induction 1; [done|]. rewrite filter_cons_True by done. by f_equal. Qed.

Lemma take_drop_mid (l : list A) i x :
  l !! i = Some x -> l = take i l ++ x :: drop (S i) l.
Proof. intros. by rewrite take_drop_middle. Qed.
End lists.

Lemma bind_Some_inv {A B} (o : option A) (f : A -> option B) b :
  o ≫= f = Some b -> exists a, o = Some a /\ f a = Some b.
Proof. destruct o; naive_solver. Qed.

(** Naming the result of a computation that is known to succeed, without
    computing with the result itself. *)
Lemma default_known {A} (o : option A) d :
  (if o then true else false) = true -> o = Some (default d o).
Proof. by destruct o. Qed.

Lemma result_known {A B} (o : option (A * B)) r d :
  fst <$> o = Some r -> o = Some (r, from_option snd d o).
Proof. destruct o as [[? ?]|]; cbn; congruence. Qed.

(** ** Programs

    Code that threads a state through many calls: a state and error monad.
    [None] is an access that the C code must never make, or a stop in
    [configASSERT]. *)
Definition prog (S A : Type) : Type := S -> option (A * S).

#[export] Instance prog_ret S : MRet (prog S) := fun A x s => Some (x, s).
#[export] Instance prog_bind S : MBind (prog S) :=
  fun A B f p s => match p s with Some (x, s') => f x s' | None => None end.

Section programs.
Context {S : Type}.

Definition ask {A} (f : S -> A) : prog S A := fun s => Some (f s, s).
Definition try_ask {A} (f : S -> option A) : prog S A :=
  fun s => (fun x => (x, s)) <$> f s.
Definition update (f : S -> S) : prog S unit := fun s => Some (tt, f s).
Definition try_update (f : S -> option S) : prog S unit := fun s => (fun s' => (tt, s')) <$> f s.
Definition when (b : bool) (p : prog S unit) : prog S unit := if b then p else mret tt.

(** [configASSERT] of the ports (portmacro.h): when the condition does not hold it
    prints the place and loops for ever, and the code behind it is not reached. *)
Definition configASSERT (a : bool) : prog S unit := fun s => if a then Some (tt, s) else None.

Lemma assert_bind {B} (a : bool) (f : unit -> prog S B) s : a = true -> (configASSERT a ≫= f) s = f tt s.
Proof. by intros ->. Qed.

Lemma bind_run {A B} (p : prog S A) (f : A -> prog S B) s x s' :
  p s = Some (x, s') -> (p ≫= f) s = f x s'.
Proof. intros E. unfold mbind, prog_bind. by rewrite E. Qed.

Lemma ret_bind {A B} (x : A) (f : A -> prog S B) s : (mret x ≫= f) s = f x s.
Proof. done. Qed.

Lemma ask_bind {A B} (g : S -> A) (f : A -> prog S B) s : (ask g ≫= f) s = f (g s) s.
Proof. done. Qed.

Lemma update_bind {B} (g : S -> S) (f : unit -> prog S B) s : (update g ≫= f) s = f tt (g s).
Proof. done. Qed.

Lemma bind_assoc_run {A B C} (p : prog S A) (q : A -> prog S B) (f : B -> prog S C) s :
  ((p ≫= q) ≫= f) s = (p ≫= (fun x => q x ≫= f)) s.
Proof. unfold mbind, prog_bind. by destruct (p s) as [[??]|]. Qed.

Lemma try_ask_bind {A B} (g : S -> option A) (f : A -> prog S B) s x :
  g s = Some x -> (try_ask g ≫= f) s = f x s.
Proof. intros E. apply bind_run. unfold try_ask. by rewrite E. Qed.

Lemma try_update_bind {B} (g : S -> option S) (f : unit -> prog S B) s s' :
  g s = Some s' -> (try_update g ≫= f) s = f tt s'.
Proof. intros E. apply bind_run. unfold try_update. by rewrite E. Qed.

End programs.

(** [run] goes through the steps of a program that cannot go wrong; [run_with]
    performs the next step by a known equation. *)
Ltac run := rewrite ?bind_assoc_run, ?ret_bind, ?ask_bind, ?update_bind.
Ltac run_with E :=
  rewrite ?bind_assoc_run;
  first [rewrite (bind_run _ _ _ _ _ E) | rewrite (try_ask_bind _ _ _ _ E)
        | rewrite (try_update_bind _ _ _ _ E)].
