(* ===== verification/Mem.v ===== *)
(** * Byte-addressed memory

    The memory model shared by the components that the C code writes with
    pointers into raw storage (the heap, the queues, the stream buffers): a
    finite map from addresses to bytes.  An access outside of the mapped
    addresses is an error ([None]).  Words are 32-bit and little-endian, as on
    the RISC-V SoC. *)
From S2P Require Import Prelude.
Open Scope Z_scope.

Abbreviation mem := (gmap Z Z).

Definition load8 (a : Z) (m : mem) : option Z := m !! a.

Definition store8 (a v : Z) (m : mem) : option mem :=
  _ ← m !! a; Some (<[a := u8 v]> m).

Fixpoint load_bytes (n : nat) (a : Z) (m : mem) : option (list Z) :=
  match n with
  | O => Some []
  | S n' => b ← load8 a m; bs ← load_bytes n' (a + 1) m; Some (b :: bs)
  end.

Fixpoint store_bytes (a : Z) (bs : list Z) (m : mem) : option mem :=
  match bs with
  | [] => Some m
  | b :: bs' => m ← store8 a b m; store_bytes (a + 1) bs' m
  end.

Definition memset (a v : Z) (n : nat) (m : mem) : option mem :=
  store_bytes a (replicate n v) m.

(** The source is read before the destination is written, which is also what
    [memmove] does with overlapping areas. *)
Definition memcpy (dst src : Z) (n : nat) (m : mem) : option mem :=
  bs ← load_bytes n src m; store_bytes dst bs m.

Fixpoint le_combine (bs : list Z) : Z :=
  match bs with [] => 0 | b :: bs' => b + 256 * le_combine bs' end.

Fixpoint le_split (n : nat) (v : Z) : list Z :=
  match n with O => [] | S n' => v `mod` 256 :: le_split n' (v / 256) end.

Definition load32 (a : Z) (m : mem) : option Z := le_combine <$> load_bytes 4 a m.
Definition store32 (a v : Z) (m : mem) : option mem := store_bytes a (le_split 4 v) m.

(** [n] mapped bytes of value [v] from [a] on. *)
Fixpoint fill (n : nat) (a v : Z) (m : mem) : mem :=
  match n with O => m | S n' => <[a := v]> (fill n' (a + 1) v m) end.

(** ** Laws *)

Definition mapped (m : mem) (a n : Z) : Prop := forall i, a <= i < a + n -> is_Some (m !! i).

Lemma mapped_sub m a n b k : mapped m a n -> a <= b -> b + k <= a + n -> mapped m b k.
Proof. intros H ?? i ?. apply H. lia. Qed.

Lemma length_le_split n v : length (le_split n v) = n.
Proof. revert v; induction n; cbn; auto. Qed.

Lemma le_combine_split n v : le_combine (le_split n v) = v `mod` 256 ^ Z.of_nat n.
Proof.
  revert v; induction n as [|n IH]; intros v; cbn [le_split le_combine].
  - by rewrite Z.mod_1_r.
  - rewrite IH, Nat2Z.inj_succ, Z.pow_succ_r by lia.
    rewrite Z.rem_mul_r by lia. lia.
Qed.

Lemma le_split_combine bs :
  Forall byte_ok bs -> le_split (length bs) (le_combine bs) = bs.
Proof.
  induction 1 as [|b bs Hb _ IH]; cbn; [done|]. unfold byte_ok in Hb.
  rewrite (Z.mul_comm 256), Z.mod_add, Z.div_add, Z.mod_small, Z.div_small by lia.
  by rewrite Z.add_0_l, IH.
Qed.

Lemma store_bytes_spec a bs m :
  mapped m a (Z.of_nat (length bs)) ->
  exists m', store_bytes a bs m = Some m' /\
    forall i, m' !! i = if decide (a <= i < a + Z.of_nat (length bs))
                        then u8 <$> bs !! Z.to_nat (i - a) else m !! i.
Proof.
  revert a m; induction bs as [|b bs IH]; intros a m Hm; cbn [store_bytes length] in *.
  - exists m. split; [done|]. intros i. by rewrite decide_False by lia.
  - destruct (Hm a) as [v Hv]; [lia|]. unfold store8. rewrite Hv. cbn.
    destruct (IH (a + 1) (<[a := u8 b]> m)) as (m'&Hs&Hl).
    { intros i Hi. rewrite lookup_insert_ne by lia. apply Hm. lia. }
    exists m'. split; [done|]. intros i. rewrite Hl.
    destruct (decide (i = a)) as [->|Hne].
    + rewrite decide_False, decide_True by lia. rewrite lookup_insert_eq.
      by rewrite Z.sub_diag.
    + rewrite lookup_insert_ne by done. repeat case_decide; try lia; [|done].
      by replace (Z.to_nat (i - a)) with (S (Z.to_nat (i - (a + 1)))) by lia.
Qed.

Lemma load_bytes_spec n a m bs :
  load_bytes n a m = Some bs <->
  length bs = n /\ forall i, (i < n)%nat -> m !! (a + Z.of_nat i) = bs !! i.
Proof.
  revert a bs; induction n as [|n IH]; intros a bs; cbn [load_bytes].
  - split; [intros [= <-]; split; [done|lia]|]. intros [Hl _]. by destruct bs.
  - split.
    + intros (b&Hb&(bs'&Hbs'&[= <-])%bind_Some_inv)%bind_Some_inv.
      apply IH in Hbs' as [Hl Hi]. split; [by cbn; rewrite Hl|].
      intros [|i] Hlt; [by rewrite Z.add_0_r|]. simpl. rewrite <- Hi by lia. f_equal. lia.
    + intros [Hl Hi]. destruct bs as [|b bs]; [done|].
      specialize (Hi 0%nat) as H0. rewrite Z.add_0_r in H0. unfold load8.
      rewrite H0 by lia. simpl. rewrite (proj2 (IH (a + 1) bs)); [done|].
      split; [by injection Hl|]. intros i Hlt. specialize (Hi (S i)). simpl in Hi.
      rewrite <- Hi by lia. f_equal. lia.
Qed.

Lemma load_bytes_frame n a m m' :
  (forall i, a <= i < a + Z.of_nat n -> m' !! i = m !! i) ->
  load_bytes n a m' = load_bytes n a m.
Proof.
  revert a; induction n as [|n IH]; intros a Hi; cbn; [done|].
  unfold load8. rewrite Hi by lia. rewrite IH; [done|]. intros i ?. apply Hi. lia.
Qed.

Lemma load_bytes_mapped n a m : mapped m a (Z.of_nat n) -> is_Some (load_bytes n a m).
Proof.
  revert a; induction n as [|n IH]; intros a Hm; cbn; [done|].
  destruct (Hm a) as [b Hb]; [lia|]. unfold load8. rewrite Hb. cbn.
  destruct (IH (a + 1)) as [bs ->]; [|done]. intros i ?. apply Hm. lia.
Qed.

(** A store is read back, and other bytes are kept. *)
Lemma load_store_bytes a bs m m' :
  mapped m a (Z.of_nat (length bs)) -> Forall byte_ok bs ->
  store_bytes a bs m = Some m' -> load_bytes (length bs) a m' = Some bs.
Proof.
  intros Hm Hok Hs. destruct (store_bytes_spec a bs m Hm) as (m1&Hs1&Hl). simplify_eq.
  apply load_bytes_spec. split; [done|]. intros i Hi. rewrite Hl, decide_True by lia.
  replace (Z.to_nat (a + Z.of_nat i - a)) with i by lia.
  destruct (bs !! i) as [b|] eqn:Eb; [|done]. cbn.
  rewrite Forall_lookup in Hok. specialize (Hok _ _ Eb). unfold byte_ok in Hok.
  by rewrite u8_small by lia.
Qed.

Lemma store_bytes_mapped a bs m m' b k :
  store_bytes a bs m = Some m' -> mapped m a (Z.of_nat (length bs)) ->
  mapped m b k -> mapped m' b k.
Proof.
  intros Hs Hm Hb i Hi. destruct (store_bytes_spec a bs m Hm) as (m1&Hs1&Hl). simplify_eq.
  rewrite Hl. case_decide; [|by apply Hb].
  apply fmap_is_Some, lookup_lt_is_Some. lia.
Qed.

(** *** Words *)

Lemma le_split_ok n v : Forall byte_ok (le_split n v).
Proof.
  revert v; induction n as [|n IH]; intros v; cbn; constructor; [|done].
  unfold byte_ok. apply Z.mod_pos_bound. lia.
Qed.

(** Storing a word at [a]: it is read back, and the words at other
    word-aligned addresses and all bytes outside of it are kept. *)
Lemma store32_spec a v m :
  mapped m a 4 ->
  exists m', store32 a v m = Some m' /\ load32 a m' = Some (u32 v)
    /\ (forall i, ~ a <= i < a + 4 -> m' !! i = m !! i)
    /\ (forall b k, mapped m b k -> mapped m' b k).
Proof.
  intros Hm. unfold store32, load32.
  destruct (store_bytes_spec a (le_split 4 v) m Hm) as (m'&Hs&Hl).
  exists m'. split_and!.
  - done.
  - rewrite (load_store_bytes a (le_split 4 v) m m' Hm (le_split_ok _ _) Hs
      : load_bytes 4 a m' = Some _).
    cbn [fmap option_fmap option_map]. by rewrite le_combine_split.
  - intros i Hi. rewrite Hl. by rewrite decide_False by (rewrite length_le_split; lia).
  - intros b k. eapply store_bytes_mapped; [exact Hs|exact Hm].
Qed.

Lemma load32_frame a m m' :
  (forall i, a <= i < a + 4 -> m' !! i = m !! i) -> load32 a m' = load32 a m.
Proof. intros H. unfold load32. by rewrite (load_bytes_frame 4 a m m'). Qed.

Lemma fill_mapped n a v m : mapped (fill n a v m) a (Z.of_nat n).
Proof.
  revert a; induction n as [|n IH]; intros a i Hi; cbn [fill]; [lia|].
  rewrite lookup_insert. case_decide; [done|]. apply IH. lia.
Qed.

Lemma mapped_fill n a v m b k : mapped m b k -> mapped (fill n a v m) b k.
Proof.
  intros Hm. revert a; induction n as [|n IH]; intros a; cbn [fill]; [done|].
  intros i Hi. rewrite lookup_insert. case_decide; [done|]. by apply IH.
Qed.

(** *** Copies *)

Definition outside_kept (a n : Z) (m m' : mem) : Prop := forall i, ~ a <= i < a + n -> m' !! i = m !! i.

(** Copying into memory. *)
Lemma memcpy_spec dst src n m bs :
  load_bytes n src m = Some bs -> mapped m dst (Z.of_nat n) -> Forall byte_ok bs ->
  exists m', memcpy dst src n m = Some m' /\ load_bytes n dst m' = Some bs /\
    outside_kept dst (Z.of_nat n) m m' /\ (forall b k, mapped m b k -> mapped m' b k).
Proof.
  intros Hl Hm Hb. pose proof (proj1 (load_bytes_spec n src m bs) Hl) as [Hn _]. subst n.
  destruct (store_bytes_spec dst bs m Hm) as (m'&Hs&Hval).
  exists m'. split_and!.
  - unfold memcpy. rewrite Hl. exact Hs.
  - by apply (load_store_bytes dst bs m).
  - intros i Hi. rewrite Hval. by rewrite decide_False.
  - intros b k. by eapply store_bytes_mapped.
Qed.

(** The same for bytes that come from elsewhere, byte by byte. *)
Lemma store_bytes_at dst bs m :
  mapped m dst (Z.of_nat (length bs)) -> Forall byte_ok bs ->
  exists m', store_bytes dst bs m = Some m' /\
    (forall i x, bs !! i = Some x -> m' !! (dst + Z.of_nat i) = Some x) /\
    outside_kept dst (Z.of_nat (length bs)) m m' /\ (forall b k, mapped m b k -> mapped m' b k).
Proof.
  intros Hm Hb. destruct (store_bytes_spec dst bs m Hm) as (m'&Hs&Hval). exists m'. split_and!.
  - done.
  - intros i x Hi. pose proof (lookup_lt_Some _ _ _ Hi).
    rewrite Hval, decide_True by lia. replace (Z.to_nat (dst + Z.of_nat i - dst)) with i by lia.
    rewrite Hi. cbn. rewrite Forall_lookup in Hb. specialize (Hb _ _ Hi). unfold byte_ok in Hb.
    by rewrite u8_small by lia.
  - intros i Hi. rewrite Hval. by rewrite decide_False.
  - intros b k. by eapply store_bytes_mapped.
Qed.
