(* ===== verification/KList.v ===== *)
(** * The kernel's doubly linked lists

    Model of src/FreeRTOS/FreeRTOS-Kernel/list.c and of the macros of
    include/list.h.  The memory that the list code touches is a store: list
    items by their address, list headers by theirs.  Every dereference of an
    address that holds no item or no list is an error ([None]), so a theorem
    that an operation returns [Some] also says that no wild pointer is
    followed.  The second half of the file is the abstract list (a sequence
    and the position of [pxIndex]) and the refinement of the C code to it. *)
From Stdlib Require Import Sorted.
From S2P Require Import Prelude.
Open Scope Z_scope.

(** ** Data *)

(** An item pointer is the address of a [ListItem_t], or the address of the
    [xListEnd] marker that is embedded in the list header at address [l]. *)
Inductive ListItemPtr := Item (i : Z) | ListEnd (l : Z).

#[export] Instance ListItemPtr_eq_dec : EqDecision ListItemPtr.
Proof. solve_decision. Defined.

#[export] Instance ListItemPtr_countable : Countable ListItemPtr.
Proof.
  refine (inj_countable'
    (fun p => match p with Item i => inl i | ListEnd l => inr l end)
    (fun s => match s with inl i => Item i | inr l => ListEnd l end) _).
  by intros [].
Defined.

(** [xMINI_LIST_ITEM] has only the first three fields: the code never reads or
    writes the last two through a pointer to an end marker, where the model
    keeps them null. *)
Record ListItem_t := mkItem {
  xItemValue : Z;
  pxNext : ListItemPtr;
  pxPrevious : ListItemPtr;
  pvOwner : Z;
  pxContainer : option Z
}.

Record List_t := mkList {
  uxNumberOfItems : Z;
  pxIndex : ListItemPtr
}.

Record store := mkStore {
  items : gmap ListItemPtr ListItem_t;
  lists : gmap Z List_t
}.

Definition portMAX_DELAY : Z := 2 ^ 32 - 1.

Definition with_item_next (q : ListItemPtr) (it : ListItem_t) : ListItem_t :=
  mkItem (xItemValue it) q (pxPrevious it) (pvOwner it) (pxContainer it).
Definition with_prev (q : ListItemPtr) (it : ListItem_t) : ListItem_t :=
  mkItem (xItemValue it) (pxNext it) q (pvOwner it) (pxContainer it).
Definition with_value (v : Z) (it : ListItem_t) : ListItem_t :=
  mkItem v (pxNext it) (pxPrevious it) (pvOwner it) (pxContainer it).
Definition with_owner (o : Z) (it : ListItem_t) : ListItem_t :=
  mkItem (xItemValue it) (pxNext it) (pxPrevious it) o (pxContainer it).
Definition with_container (c : option Z) (it : ListItem_t) : ListItem_t :=
  mkItem (xItemValue it) (pxNext it) (pxPrevious it) (pvOwner it) c.

(** A write through a pointer: an error when nothing is there. *)
Definition write_item (p : ListItemPtr) (f : ListItem_t -> ListItem_t) (s : store)
  : option store :=
  it ← items s !! p; Some (mkStore (<[p := f it]> (items s)) (lists s)).

Definition write_list (l : Z) (f : List_t -> List_t) (s : store) : option store :=
  lst ← lists s !! l; Some (mkStore (items s) (<[l := f lst]> (lists s))).

Definition count_incr (lst : List_t) : List_t :=
  mkList (u32 (uxNumberOfItems lst + 1)) (pxIndex lst).
Definition count_decr (lst : List_t) : List_t :=
  mkList (u32 (uxNumberOfItems lst - 1)) (pxIndex lst).
Definition with_index (p : ListItemPtr) (lst : List_t) : List_t :=
  mkList (uxNumberOfItems lst) p.

(** ** list.c *)

(** The header is written as a whole: its memory need not hold a list yet. *)
Definition vListInitialise (l : Z) (s : store) : store :=
  mkStore (<[ListEnd l := mkItem portMAX_DELAY (ListEnd l) (ListEnd l) 0 None]> (items s))
          (<[l := mkList 0 (ListEnd l)]> (lists s)).

Definition vListInitialiseItem (p : ListItemPtr) (s : store) : option store :=
  write_item p (with_container None) s.

Definition vListInsertEnd (l : Z) (new : ListItemPtr) (s : store) : option store :=
  lst ← lists s !! l;
  let index := pxIndex lst in
  s ← write_item new (with_item_next index) s;
  idx ← items s !! index;
  s ← write_item new (with_prev (pxPrevious idx)) s;
  idx ← items s !! index;
  s ← write_item (pxPrevious idx) (with_item_next new) s;
  s ← write_item index (with_prev new) s;
  s ← write_item new (with_container (Some l)) s;
  write_list l count_incr s.

(** The [for] loop of [vListInsert]; [fuel] bounds its iterations. *)
Fixpoint insert_position (fuel : nat) (v : Z) (iterator : ListItemPtr) (s : store)
  : option ListItemPtr :=
  match fuel with
  | O => None
  | S fuel' =>
      it ← items s !! iterator;
      nx ← items s !! pxNext it;
      if xItemValue nx <=? v then insert_position fuel' v (pxNext it) s
      else Some iterator
  end.

(** The assignments of [vListInsert] that follow its search. *)
Definition link_after (l : Z) (new iterator : ListItemPtr) (s : store) : option store :=
  it ← items s !! iterator;
  s ← write_item new (with_item_next (pxNext it)) s;
  n ← items s !! new;
  s ← write_item (pxNext n) (with_prev new) s;
  s ← write_item new (with_prev iterator) s;
  s ← write_item iterator (with_item_next new) s;
  s ← write_item new (with_container (Some l)) s;
  write_list l count_incr s.

(** The search takes one iteration per item of the list, and the last test. *)
Definition vListInsert (l : Z) (new : ListItemPtr) (s : store) : option store :=
  newit ← items s !! new;
  let v := xItemValue newit in
  lst ← lists s !! l;
  iterator ←
    (if v =? portMAX_DELAY then pxPrevious <$> items s !! ListEnd l
     else insert_position (S (Z.to_nat (uxNumberOfItems lst))) v (ListEnd l) s);
  link_after l new iterator s.

Definition uxListRemove (p : ListItemPtr) (s : store) : option (Z * store) :=
  it ← items s !! p;
  l ← pxContainer it;
  s ← write_item (pxNext it) (with_prev (pxPrevious it)) s;
  it ← items s !! p;
  s ← write_item (pxPrevious it) (with_item_next (pxNext it)) s;
  lst ← lists s !! l;
  it ← items s !! p;
  s ← (if decide (pxIndex lst = p) then write_list l (with_index (pxPrevious it)) s
       else Some s);
  s ← write_item p (with_container None) s;
  s ← write_list l count_decr s;
  lst ← lists s !! l;
  Some (uxNumberOfItems lst, s).

(** ** The macros of list.h *)

Definition listSET_LIST_ITEM_OWNER (p : ListItemPtr) (o : Z) := write_item p (with_owner o).
Definition listSET_LIST_ITEM_VALUE (p : ListItemPtr) (v : Z) := write_item p (with_value v).
Definition listGET_LIST_ITEM_VALUE (p : ListItemPtr) (s : store) : option Z :=
  xItemValue <$> items s !! p.
Definition listGET_HEAD_ENTRY (l : Z) (s : store) : option ListItemPtr :=
  pxNext <$> items s !! ListEnd l.
Definition listGET_ITEM_VALUE_OF_HEAD_ENTRY (l : Z) (s : store) : option Z :=
  h ← listGET_HEAD_ENTRY l s; listGET_LIST_ITEM_VALUE h s.
Definition listGET_OWNER_OF_HEAD_ENTRY (l : Z) (s : store) : option Z :=
  h ← listGET_HEAD_ENTRY l s; pvOwner <$> items s !! h.
Definition listLIST_IS_EMPTY (l : Z) (s : store) : option bool :=
  (fun lst => uxNumberOfItems lst =? 0) <$> lists s !! l.
Definition listCURRENT_LIST_LENGTH (l : Z) (s : store) : option Z :=
  uxNumberOfItems <$> lists s !! l.
Definition listIS_CONTAINED_WITHIN (l : Z) (p : ListItemPtr) (s : store) : option bool :=
  (fun it => bool_decide (pxContainer it = Some l)) <$> items s !! p.

Definition listGET_OWNER_OF_NEXT_ENTRY (l : Z) (s : store) : option (Z * store) :=
  lst ← lists s !! l;
  it ← items s !! pxIndex lst;
  s ← write_list l (with_index (pxNext it)) s;
  lst ← lists s !! l;
  s ← (if decide (pxIndex lst = ListEnd l) then
         it ← items s !! pxIndex lst;
         write_list l (with_index (pxNext it)) s
       else Some s);
  lst ← lists s !! l;
  it ← items s !! pxIndex lst;
  Some (pvOwner it, s).

(** ** The abstract list

    A list is the sequence of its items and the ring position of [pxIndex]:
    position 0 is the end marker, position [S n] is the [n]-th item. *)

Record alist := mkAList { elems : list Z; index : nat }.

(** Insert [x] before the [n]-th item; [pxIndex] stays on its node. *)
Definition ainsert (n : nat) (x : Z) (a : alist) : alist :=
  mkAList (take n (elems a) ++ x :: drop n (elems a))
          (if decide (index a <= n)%nat then index a else S (index a)).

(** Remove the [n]-th item; [pxIndex] steps back if it was there. *)
Definition aremove (n : nat) (a : alist) : alist :=
  mkAList (take n (elems a) ++ drop (S n) (elems a))
          (if decide (index a <= n)%nat then index a else pred (index a)).

(** Just before [pxIndex]: the item that a walk of the ring meets last. *)
Definition end_position (a : alist) : nat :=
  match index a with O => length (elems a) | S n => n end.

(** The number of leading items whose value does not exceed [v]. *)
Fixpoint sorted_position (val : Z -> Z) (v : Z) (xs : list Z) : nat :=
  match xs with
  | [] => O
  | x :: xs' => if val x <=? v then S (sorted_position val v xs') else O
  end.

(** One step of the round robin: the next item, skipping the end marker. *)
Definition anext (a : alist) : alist :=
  mkAList (elems a) (if decide (index a < length (elems a))%nat then S (index a) else 1%nat).

(** ** Representation of an abstract list by the store *)

Definition nxt (s : store) (p : ListItemPtr) : option ListItemPtr := pxNext <$> items s !! p.
Definition prv (s : store) (p : ListItemPtr) : option ListItemPtr := pxPrevious <$> items s !! p.
Definition val (s : store) (p : ListItemPtr) : option Z := xItemValue <$> items s !! p.
Definition own (s : store) (p : ListItemPtr) : option Z := pvOwner <$> items s !! p.
Definition cont (s : store) (p : ListItemPtr) : option (option Z) := pxContainer <$> items s !! p.

(** A doubly linked path from [p] through [ps] to [q]. *)
Fixpoint lseg (s : store) (p : ListItemPtr) (ps : list ListItemPtr) (q : ListItemPtr) : Prop :=
  match ps with
  | [] => nxt s p = Some q /\ prv s q = Some p
  | x :: ps' => nxt s p = Some x /\ prv s x = Some p /\ lseg s x ps' q
  end.

Definition ring (l : Z) (xs : list Z) : list ListItemPtr := ListEnd l :: (Item <$> xs).

Record list_rep (s : store) (l : Z) (a : alist) : Prop := {
  rep_list : exists i, lists s !! l = Some (mkList (Z.of_nat (length (elems a))) i)
                       /\ ring l (elems a) !! index a = Some i;
  rep_seg : lseg s (ListEnd l) (Item <$> elems a) (ListEnd l);
  rep_nodup : NoDup (elems a);
  rep_size : Z.of_nat (length (elems a)) < 2 ^ 32;
  rep_end : val s (ListEnd l) = Some portMAX_DELAY;
  rep_cont : forall x, x ∈ elems a -> cont s (Item x) = Some (Some l)
}.

(** [s'] is [s] with the node [x] linked in between [p] and [q] of list [l]. *)
Record spliced (s s' : store) (l : Z) (p x q : ListItemPtr) : Prop := {
  sp_nxt : forall a, nxt s' a =
    if decide (a = x) then Some q else if decide (a = p) then Some x else nxt s a;
  sp_prv : forall a, prv s' a =
    if decide (a = x) then Some p else if decide (a = q) then Some x else prv s a;
  sp_cont : forall a, cont s' a = if decide (a = x) then Some (Some l) else cont s a;
  sp_val : forall a, val s' a = val s a;
  sp_own : forall a, own s' a = own s a;
  sp_lists : lists s' = alter count_incr l (lists s)
}.

(** [s'] is [s] with the node [x] of list [l] unlinked from between [p] and [q]. *)
Record unlinked (s s' : store) (l : Z) (p x q : ListItemPtr) : Prop := {
  un_nxt : forall a, a <> x -> nxt s' a = if decide (a = p) then Some q else nxt s a;
  un_prv : forall a, a <> x -> prv s' a = if decide (a = q) then Some p else prv s a;
  un_cont : forall a, cont s' a = if decide (a = x) then Some None else cont s a;
  un_val : forall a, val s' a = val s a;
  un_own : forall a, own s' a = own s a;
  un_lists : lists s' = alter (fun lst =>
      count_decr (if decide (pxIndex lst = x) then with_index p lst else lst)) l (lists s)
}.

(** *** Paths *)

Lemma lseg_app s p xs x ys q :
  lseg s p (xs ++ x :: ys) q <-> lseg s p xs x /\ lseg s x ys q.
Proof. revert p; induction xs as [|y xs IH]; intros p; cbn; [tauto|rewrite IH; tauto]. Qed.

Lemma lseg_frame s s' p xs q :
  (forall a, a ∈ p :: xs -> nxt s' a = nxt s a) ->
  (forall a, a ∈ q :: xs -> prv s' a = prv s a) ->
  lseg s p xs q -> lseg s' p xs q.
Proof.
  revert p; induction xs as [|y xs IH]; intros p Hn Hp; cbn.
  - rewrite Hn, Hp by set_solver. done.
  - rewrite Hn, Hp by set_solver. intros (?&?&?); split_and!; [done..|].
    apply IH; [set_solver..|done].
Qed.

(** The node before and the node after a cut of a path. *)
Lemma lseg_cut s p xs ys q :
  lseg s p (xs ++ ys) q ->
  let a := default p (last xs) in
  let b := default q (head ys) in
  nxt s a = Some b /\ prv s b = Some a.
Proof.
  revert p; induction xs as [|x xs IH]; intros p.
  - destruct ys; cbn; tauto.
  - cbn [app lseg]. intros (_&_&H). apply IH in H.
    rewrite last_cons. by destruct (last xs).
Qed.

(** *** The pointer surgery of the operations *)

(** Fields of the store after writes, by cases on the address. *)
Ltac store_fields :=
  unfold nxt, prv, val, own, cont in *; cbn [items lists] in *;
  intros; rewrite ?lookup_insert;
  repeat case_decide; simplify_map_eq; try done.

Lemma write_item_Some s p f it :
  items s !! p = Some it ->
  write_item p f s = Some (mkStore (<[p := f it]> (items s)) (lists s)).
Proof. intros E. unfold write_item. by rewrite E. Qed.

Lemma write_list_Some s l f lst :
  lists s !! l = Some lst ->
  write_list l f s = Some (mkStore (items s) (<[l := f lst]> (lists s))).
Proof. intros E. unfold write_list. by rewrite E. Qed.

Lemma alter_is_insert {A} (f : A -> A) (m : gmap Z A) l x :
  m !! l = Some x -> alter f l m = <[l := f x]> m.
Proof.
  intros E. apply map_eq; intros i. rewrite lookup_alter, lookup_insert.
  case_decide; subst; [by rewrite E|done].
Qed.

Lemma vListInsertEnd_splice s l x p q i n :
  lists s !! l = Some (mkList n q) ->
  items s !! x = Some i -> is_Some (items s !! p) -> prv s q = Some p ->
  x <> p -> x <> q ->
  exists s', vListInsertEnd l x s = Some s' /\ spliced s s' l p x q.
Proof.
  intros Hl Hx [ip Hp] Hq Hxp Hxq. unfold prv in Hq.
  destruct (items s !! q) as [iq|] eqn:Eq; simplify_eq/=.
  unfold vListInsertEnd. rewrite Hl. cbn.
  unfold write_item, write_list.
  destruct (decide (pxPrevious iq = q)) as [Epq|];
    repeat (progress (simplify_map_eq; cbn));
    (eexists; split; [reflexivity|]); split; store_fields.
  all: by rewrite (alter_is_insert _ _ _ _ Hl).
Qed.

Lemma link_after_splice s l x p q i n idx :
  lists s !! l = Some (mkList n idx) ->
  items s !! x = Some i -> is_Some (items s !! q) -> nxt s p = Some q ->
  x <> p -> x <> q ->
  exists s', link_after l x p s = Some s' /\ spliced s s' l p x q.
Proof.
  intros Hl Hx [iq Hq] Hp Hxp Hxq. unfold nxt in Hp.
  destruct (items s !! p) as [ip|] eqn:Ep; simplify_eq/=.
  unfold link_after, write_item, write_list.
  destruct (decide (pxNext ip = p)) as [Epq|];
    repeat (progress (simplify_map_eq; cbn));
    (eexists; split; [reflexivity|]); split; store_fields.
  all: by rewrite (alter_is_insert _ _ _ _ Hl).
Qed.

Lemma uxListRemove_unlink s l p x q i n idx :
  lists s !! l = Some (mkList n idx) ->
  items s !! x = Some i -> pxContainer i = Some l ->
  pxNext i = q -> pxPrevious i = p -> x <> p -> x <> q ->
  is_Some (items s !! p) -> is_Some (items s !! q) ->
  exists s', uxListRemove x s = Some (u32 (n - 1), s') /\ unlinked s s' l p x q.
Proof.
  intros Hl Hx Hc Hn Hv Hxp Hxq [ip Hp] [iq Hq]. destruct i as [v nx pv o c]. simplify_eq/=.
  unfold uxListRemove, write_item, write_list. rewrite Hx. cbn.
  destruct (decide (q = p)) as [->|];
    repeat (progress (simplify_map_eq; cbn));
    destruct (decide (idx = x)) as [->|];
    repeat (progress (simplify_map_eq; cbn));
    (eexists; split; [reflexivity|]); split; store_fields.
  all: rewrite (alter_is_insert _ _ _ _ Hl), ?insert_insert_eq; cbn; by case_decide.
Qed.

(** *** From pointers to sequences *)

Lemma lseg_splice s s' l a X1 X2 b x :
  spliced s s' l (default a (last X1)) x (default b (head X2)) ->
  lseg s a (X1 ++ X2) b ->
  NoDup (a :: X1 ++ X2) -> NoDup (b :: X1 ++ X2) ->
  x ∉ X1 ++ X2 -> x <> a -> x <> b ->
  lseg s' a (X1 ++ x :: X2) b.
Proof.
  intros Hs. revert a Hs. induction X1 as [|y X1 IH]; intros a Hs Hl Ha Hb Hx Hxa Hxb; cbn in *.
  - assert (Hrest : forall c Y, (forall d, d ∈ c :: Y -> d <> x /\ d <> a) ->
      (forall d, d ∈ b :: Y -> d <> x /\ d <> default b (head X2)) ->
      lseg s c Y b -> lseg s' c Y b).
    { intros c Y H1 H2. apply lseg_frame; intros d Hd.
      - rewrite (sp_nxt _ _ _ _ _ _ Hs). destruct (H1 d Hd). by rewrite !decide_False.
      - rewrite (sp_prv _ _ _ _ _ _ Hs). destruct (H2 d Hd). by rewrite !decide_False. }
    destruct X2 as [|y X2]; cbn in *; rewrite ?(sp_nxt _ _ _ _ _ _ Hs), ?(sp_prv _ _ _ _ _ _ Hs).
    + split_and!; repeat case_decide; simplify_eq; done.
    + rewrite !NoDup_cons in Ha, Hb.
      split_and!; [repeat case_decide; simplify_eq; try done; set_solver..|].
      apply Hrest; [..|tauto]; intros d Hd; split; set_solver.
  - rewrite last_cons in Hs.
    assert (Hp : default y (last X1) ∈ y :: X1).
    { destruct (last X1) eqn:E; cbn; [|set_solver]. apply last_Some_elem_of in E. set_solver. }
    assert (Hq : default b (head X2) ∈ b :: X2) by (destruct X2; set_solver).
    rewrite !NoDup_cons in Ha, Hb.
    replace (default a (match last X1 with Some z => Some z | None => Some y end))
      with (default y (last X1)) in Hs by (by destruct (last X1)).
    rewrite (sp_nxt _ _ _ _ _ _ Hs), (sp_prv _ _ _ _ _ _ Hs).
    rewrite !decide_False by set_solver.
    split_and!; [tauto..|]. apply IH; [done|tauto|by rewrite NoDup_cons; tauto| |set_solver..].
    rewrite NoDup_cons. set_solver.
Qed.

Lemma lseg_unlink s s' l a X1 X2 b x :
  unlinked s s' l (default a (last X1)) x (default b (head X2)) ->
  lseg s a (X1 ++ x :: X2) b ->
  NoDup (a :: X1 ++ x :: X2) -> NoDup (b :: X1 ++ x :: X2) ->
  lseg s' a (X1 ++ X2) b.
Proof.
  intros Hs. revert a Hs. induction X1 as [|y X1 IH]; intros a Hs Hl Ha Hb; cbn in *.
  - destruct X2 as [|y X2]; cbn in *.
    + rewrite !NoDup_cons in Ha, Hb.
      rewrite (un_nxt _ _ _ _ _ _ Hs), (un_prv _ _ _ _ _ _ Hs) by set_solver.
      by rewrite !decide_True.
    + rewrite !NoDup_cons in Ha, Hb.
      rewrite (un_nxt _ _ _ _ _ _ Hs), (un_prv _ _ _ _ _ _ Hs) by set_solver.
      split_and!; [by rewrite decide_True..|].
      eapply (lseg_frame s); [| |tauto]; intros d Hd;
        rewrite ?(un_nxt _ _ _ _ _ _ Hs), ?(un_prv _ _ _ _ _ _ Hs) by set_solver;
        by rewrite decide_False by set_solver.
  - rewrite last_cons in Hs.
    assert (Hp : default y (last X1) ∈ y :: X1).
    { destruct (last X1) eqn:E; simpl; [|set_solver]. apply last_Some_elem_of in E. set_solver. }
    assert (Hq : default b (head X2) ∈ b :: X2) by (destruct X2; set_solver).
    rewrite !NoDup_cons in Ha, Hb.
    replace (default a (match last X1 with Some z => Some z | None => Some y end))
      with (default y (last X1)) in Hs by (by destruct (last X1)).
    rewrite (un_nxt _ _ _ _ _ _ Hs), (un_prv _ _ _ _ _ _ Hs) by set_solver.
    rewrite !decide_False by set_solver.
    split_and!; [tauto..|]. apply IH; [done|tauto|by rewrite NoDup_cons; tauto|].
    rewrite NoDup_cons. set_solver.
Qed.

Lemma ring_lookup_S l xs j : ring l xs !! S j = Item <$> xs !! j.
Proof. change (ring l xs !! S j) with ((Item <$> xs) !! j). by rewrite list_lookup_fmap. Qed.

Lemma ring_insert l a n x i :
  (n <= length (elems a))%nat ->
  ring l (elems a) !! index a = Some i ->
  ring l (elems (ainsert n x a)) !! index (ainsert n x a) = Some i.
Proof.
  intros Hn Hi. unfold ainsert; cbn [elems index].
  destruct (index a) as [|j]; [by rewrite decide_True by lia|].
  rewrite ring_lookup_S in Hi.
  case_decide; rewrite ring_lookup_S.
  - rewrite lookup_app_l by (rewrite length_take; lia). by rewrite lookup_take_lt by lia.
  - rewrite lookup_app_r by (rewrite length_take; lia). rewrite length_take_le by done.
    replace (S j - n)%nat with (S (j - n)) by lia. simpl. rewrite lookup_drop.
    by replace (n + (j - n))%nat with j by lia.
Qed.

Lemma ring_remove l a n x i :
  elems a !! n = Some x ->
  ring l (elems a) !! index a = Some i ->
  ring l (elems (aremove n a)) !! index (aremove n a) =
    (if decide (index a = S n) then ring l (elems a) !! n else Some i).
Proof.
  intros Hn Hi. apply lookup_lt_Some in Hn as Hlt.
  unfold aremove; cbn [elems index].
  destruct (index a) as [|j]; [by rewrite decide_True, decide_False by lia|].
  rewrite ring_lookup_S in Hi.
  destruct (decide (S j <= n)%nat).
  - rewrite decide_False by lia. rewrite ring_lookup_S.
    rewrite lookup_app_l by (rewrite length_take; lia). by rewrite lookup_take_lt by lia.
  - cbn [pred]. destruct (decide (S j = S n)) as [E|].
    + assert (j = n) as -> by lia. clear E. destruct n as [|n]; [done|].
      rewrite !ring_lookup_S, lookup_app_l by (rewrite length_take; lia).
      by rewrite lookup_take_lt by lia.
    + destruct j as [|j]; [lia|]. rewrite ring_lookup_S.
      rewrite lookup_app_r by (rewrite length_take; lia). rewrite length_take_le by lia.
      rewrite lookup_drop. by replace (S n + (j - n))%nat with (S j) by lia.
Qed.

Lemma list_rep_lookup s l a x :
  list_rep s l a -> x ∈ elems a -> exists i, items s !! Item x = Some i /\ pxContainer i = Some l.
Proof.
  intros R Hx. pose proof (rep_cont _ _ _ R x Hx) as E. unfold cont in E.
  destruct (items s !! Item x); naive_solver.
Qed.

Lemma list_rep_end s l a : list_rep s l a -> is_Some (items s !! ListEnd l).
Proof. intros R. pose proof (rep_end _ _ _ R) as E. unfold val in E. by destruct (items s !! ListEnd l). Qed.

(** Every node of the ring is in the store. *)
Lemma ring_in_store s l a p : list_rep s l a -> p ∈ ring l (elems a) -> is_Some (items s !! p).
Proof.
  intros R [->|Hp]%elem_of_cons; [by eapply list_rep_end|].
  apply list_elem_of_fmap in Hp as (x&->&Hx).
  destruct (list_rep_lookup _ _ _ _ R Hx) as (i&->&_). done.
Qed.

(** A node of the ring of [l] is in the ring of no other list. *)
Lemma ring_disjoint s l l' a a' p :
  l' <> l -> list_rep s l a -> list_rep s l' a' ->
  p ∈ ring l (elems a) -> p ∉ ring l' (elems a').
Proof.
  intros Hne R R' [->|Hp]%elem_of_cons [Hq|Hq]%elem_of_cons; simplify_eq.
  - apply list_elem_of_fmap in Hq as (y&?&?). done.
  - apply list_elem_of_fmap in Hp as (y&?&?). done.
  - apply list_elem_of_fmap in Hp as (x&->&Hx). apply list_elem_of_fmap in Hq as (y&[= <-]&Hy).
    pose proof (rep_cont _ _ _ R x Hx). pose proof (rep_cont _ _ _ R' x Hy). naive_solver.
Qed.

(** A store that agrees with [s] on the ring of [l] represents the same list. *)
Lemma list_rep_frame s s' l a :
  (forall p, p ∈ ring l (elems a) ->
     nxt s' p = nxt s p /\ prv s' p = prv s p /\ cont s' p = cont s p /\ val s' p = val s p) ->
  lists s' !! l = lists s !! l -> list_rep s l a -> list_rep s' l a.
Proof.
  intros Hp Hl [HL Hs Hn Hz He Hc].
  split; [by rewrite Hl| |done..| |].
  - eapply lseg_frame; [| |done]; intros p Hin; apply Hp; done.
  - rewrite <- He. apply Hp. unfold ring; set_solver.
  - intros x Hx. rewrite <- (Hc x Hx). apply Hp. unfold ring. set_solver.
Qed.

(** *** Linking and unlinking, as operations on the represented sequence *)

(** An operation on list [l] leaves every other list as it is. *)
Definition others_kept (l : Z) (s s' : store) : Prop :=
  forall l' a', l' <> l -> list_rep s l' a' -> list_rep s' l' a'.

(** Item values and owners are left as they are. *)
Definition payload_kept (s s' : store) : Prop :=
  forall p, val s' p = val s p /\ own s' p = own s p.

(** The node before and the node after the [n]-th place of the ring. *)
Definition ring_before (l : Z) (n : nat) (xs : list Z) : ListItemPtr :=
  default (ListEnd l) (last (Item <$> take n xs)).
Definition ring_after (l : Z) (n : nat) (xs : list Z) : ListItemPtr :=
  default (ListEnd l) (head (Item <$> drop n xs)).

Lemma ring_before_in l n xs : ring_before l n xs ∈ ring l xs.
Proof.
  unfold ring_before, ring. rewrite elem_of_cons.
  destruct (last _) as [p|] eqn:E; simpl; [|by left].
  apply last_Some_elem_of, list_elem_of_fmap in E as (x&->&Hx).
  right. apply list_elem_of_fmap_2. rewrite <- (take_drop n xs). set_solver.
Qed.

Lemma ring_after_in l n xs : ring_after l n xs ∈ ring l xs.
Proof.
  unfold ring_after, ring. rewrite elem_of_cons.
  destruct (head _) as [p|] eqn:E; simpl; [|by left].
  apply head_Some_elem_of, list_elem_of_fmap in E as (x&->&Hx).
  right. apply list_elem_of_fmap_2. rewrite <- (take_drop n xs). set_solver.
Qed.

Lemma ring_around s l a n :
  list_rep s l a ->
  nxt s (ring_before l n (elems a)) = Some (ring_after l n (elems a)) /\
  prv s (ring_after l n (elems a)) = Some (ring_before l n (elems a)).
Proof.
  intros R. pose proof (rep_seg _ _ _ R) as Hs.
  rewrite <- (take_drop n (elems a)), fmap_app in Hs. by apply lseg_cut in Hs.
Qed.

(** An item that is on no list. *)
Definition detached (s : store) (x : Z) : Prop := cont s (Item x) = Some None.

Lemma detached_not_in s l a x : list_rep s l a -> detached s x -> x ∉ elems a.
Proof. intros R Hd Hx. pose proof (rep_cont _ _ _ R x Hx). unfold detached in Hd. congruence. Qed.

Lemma detached_not_ring s l a x p :
  list_rep s l a -> detached s x -> p ∈ ring l (elems a) -> Item x <> p.
Proof.
  intros R Hd Hp <-. apply elem_of_cons in Hp as [?|Hp]; [done|].
  apply list_elem_of_fmap in Hp as (y&[= <-]&Hy). by eapply detached_not_in.
Qed.

Lemma spliced_others s s' l p x q a :
  list_rep s l a -> detached s x -> p ∈ ring l (elems a) -> q ∈ ring l (elems a) ->
  spliced s s' l p (Item x) q -> others_kept l s s'.
Proof.
  intros R Hd Hp Hq Sp l' a' Hne R'. eapply list_rep_frame; [| |done].
  - intros b Hb.
    assert (b <> Item x) by (intros E; exact (detached_not_ring s l' a' x b R' Hd Hb (eq_sym E))).
    assert (b <> p) by (intros ->; exact (ring_disjoint s l l' a a' _ Hne R R' Hp Hb)).
    assert (b <> q) by (intros ->; exact (ring_disjoint s l l' a a' _ Hne R R' Hq Hb)).
    rewrite (sp_nxt _ _ _ _ _ _ Sp), (sp_prv _ _ _ _ _ _ Sp), (sp_cont _ _ _ _ _ _ Sp),
      (sp_val _ _ _ _ _ _ Sp). by rewrite !decide_False.
  - rewrite (sp_lists _ _ _ _ _ _ Sp). by rewrite lookup_alter_ne.
Qed.

Lemma spliced_payload s s' l p x q : spliced s s' l p x q -> payload_kept s s'.
Proof. intros Sp b. by rewrite (sp_val _ _ _ _ _ _ Sp), (sp_own _ _ _ _ _ _ Sp). Qed.

Lemma spliced_rep s s' l x a n :
  list_rep s l a -> detached s x -> (n <= length (elems a))%nat ->
  Z.of_nat (length (elems a)) + 1 < 2 ^ 32 ->
  spliced s s' l (ring_before l n (elems a)) (Item x) (ring_after l n (elems a)) ->
  list_rep s' l (ainsert n x a).
Proof.
  intros R Hd Hn Hsz Sp.
  pose proof (detached_not_in _ _ _ _ R Hd) as Hx.
  assert (Hperm : elems (ainsert n x a) ≡ₚ x :: elems a).
  { cbn. rewrite <- Permutation_middle. by rewrite take_drop. }
  assert (Hnd : forall l', NoDup (ListEnd l' :: (Item <$> elems a))).
  { intros l'. apply NoDup_cons. split; [by intros (?&?&?)%list_elem_of_fmap|].
    apply NoDup_fmap_2; [by intros ?? [= ->]|apply R]. }
  assert (Hsplit : Item <$> elems a = (Item <$> take n (elems a)) ++ (Item <$> drop n (elems a))).
  { by rewrite <- fmap_app, take_drop. }
  assert (HxI : Item x ∉ Item <$> elems a).
  { intros (y&[= <-]&Hy)%list_elem_of_fmap. done. }
  split.
  - destruct (rep_list _ _ _ R) as (i&Hl&Hi). exists i. split; [|by apply ring_insert].
    rewrite (sp_lists _ _ _ _ _ _ Sp), lookup_alter_eq, Hl. cbn [fmap option_fmap option_map].
    unfold count_incr; cbn. rewrite Hperm. cbn. do 2 f_equal. rewrite u32_small; lia.
  - cbn [ainsert elems]. rewrite fmap_app, fmap_cons.
    eapply lseg_splice; [exact Sp|rewrite <- Hsplit; apply R|rewrite <- Hsplit; auto..|by rewrite <- Hsplit|done|done].
  - rewrite Hperm. apply NoDup_cons. split; [done|apply R].
  - rewrite Hperm. cbn. lia.
  - rewrite (sp_val _ _ _ _ _ _ Sp). apply R.
  - intros y Hy. rewrite Hperm in Hy. rewrite (sp_cont _ _ _ _ _ _ Sp).
    case_decide; [done|]. apply R. set_solver.
Qed.

Lemma ring_after_index l a i :
  ring l (elems a) !! index a = Some i -> ring_after l (end_position a) (elems a) = i.
Proof.
  unfold ring_after, end_position. destruct (index a) as [|j].
  - rewrite drop_ge by done. by intros [= <-].
  - rewrite ring_lookup_S. intros Hj. destruct (elems a !! j) eqn:E; simplify_eq/=.
    by erewrite drop_S by done.
Qed.

(** The values of the items, as a total function. *)
Definition vals (s : store) (x : Z) : Z := default 0 (val s (Item x)).

Definition values_ok (s : store) (xs : list Z) : Prop :=
  Forall (fun x => 0 <= vals s x <= portMAX_DELAY) xs.

Lemma sorted_position_le f v xs : (sorted_position f v xs <= length xs)%nat.
Proof. induction xs; cbn; [lia|case_match; lia]. Qed.

Lemma sorted_position_max s xs :
  values_ok s xs -> sorted_position (vals s) portMAX_DELAY xs = length xs.
Proof.
  induction 1 as [|x xs Hx _ IH]; cbn; [done|]. rewrite IH.
  destruct (Z.leb_spec (vals s x) portMAX_DELAY); lia.
Qed.

Lemma insert_position_spec s l a v pre suf fuel :
  list_rep s l a -> elems a = pre ++ suf -> v < portMAX_DELAY ->
  (length suf < fuel)%nat ->
  insert_position fuel v (ring_before l (length pre) (elems a)) s =
    Some (ring_before l (length pre + sorted_position (vals s) v suf) (elems a)).
Proof.
  intros R E Hv. revert pre E fuel. induction suf as [|x suf IH]; intros pre E [|fuel] Hf; cbn [length] in Hf; [lia| |lia|].
  - destruct (ring_around _ _ _ (length pre) R) as [Hn _].
    assert (Ha : ring_after l (length pre) (elems a) = ListEnd l).
    { unfold ring_after. by rewrite E, app_nil_r, drop_all. }
    rewrite Ha in Hn. unfold nxt in Hn. cbn [insert_position].
    destruct (items s !! ring_before _ _ _) as [it|] eqn:Eit; simplify_eq/=. rewrite Hn.
    pose proof (rep_end _ _ _ R) as He. unfold val in He.
    destruct (items s !! ListEnd l) as [e|]; simplify_eq/=. rewrite He.
    destruct (Z.leb_spec portMAX_DELAY v); [lia|]. by rewrite Nat.add_0_r.
  - destruct (ring_around _ _ _ (length pre) R) as [Hn _].
    assert (Ha : ring_after l (length pre) (elems a) = Item x).
    { unfold ring_after. by rewrite E, drop_app_length. }
    rewrite Ha in Hn. unfold nxt in Hn. cbn [insert_position].
    destruct (items s !! ring_before _ _ _) as [it|] eqn:Eit; simplify_eq/=. rewrite Hn.
    destruct (list_rep_lookup _ _ _ x R) as (ix&Hix&_); [rewrite E; set_solver|].
    rewrite Hix. cbn.
    replace (vals s x) with (xItemValue ix) by (unfold vals, val; by rewrite Hix).
    destruct (Z.leb_spec (xItemValue ix) v) as [Hle|Hgt]; [|by rewrite Nat.add_0_r].
    replace (Item x) with (ring_before l (length (pre ++ [x])) (elems a)).
    + rewrite (IH (pre ++ [x])); [|by rewrite <- app_assoc|lia].
      rewrite length_app; cbn. f_equal. f_equal. lia.
    + unfold ring_before. rewrite E. change (x :: suf) with ([x] ++ suf).
      rewrite app_assoc, take_app_length, fmap_app. simpl. by rewrite last_snoc.
Qed.

Lemma ring_before_0 l xs : ring_before l 0 xs = ListEnd l.
Proof. done. Qed.

Lemma ring_before_end s l a :
  list_rep s l a -> pxPrevious <$> items s !! ListEnd l = Some (ring_before l (length (elems a)) (elems a)).
Proof.
  intros R. destruct (ring_around _ _ _ (length (elems a)) R) as [_ Hp].
  replace (ring_after l (length (elems a)) (elems a)) with (ListEnd l) in Hp; [done|].
  unfold ring_after. by rewrite drop_ge.
Qed.

Lemma ring_at s l a n x :
  list_rep s l a -> elems a !! n = Some x ->
  nxt s (Item x) = Some (ring_after l (S n) (elems a)) /\
  prv s (Item x) = Some (ring_before l n (elems a)).
Proof.
  intros R Hx. destruct (ring_around _ _ _ n R) as [_ Hp].
  destruct (ring_around _ _ _ (S n) R) as [Hn _].
  replace (ring_before l (S n) (elems a)) with (Item x) in Hn.
  - replace (ring_after l n (elems a)) with (Item x) in Hp; [done|].
    unfold ring_after. by erewrite drop_S by done.
  - unfold ring_before. erewrite take_S_r by done. rewrite fmap_app. simpl. by rewrite last_snoc.
Qed.

(** The neighbours of an item are other nodes of the ring. *)
Lemma ring_neighbours l a n x :
  NoDup (elems a) -> elems a !! n = Some x ->
  Item x <> ring_before l n (elems a) /\ Item x <> ring_after l (S n) (elems a).
Proof.
  intros Hnd Hx. rewrite (take_drop_mid _ _ _ Hx) in Hnd.
  apply NoDup_app in Hnd as (_&Hd&Hnd). apply NoDup_cons in Hnd as [Hnd _].
  unfold ring_before, ring_after. split; intros E.
  - destruct (last _) as [p|] eqn:El; [|done]. simpl in E; subst p.
    apply last_Some_elem_of, list_elem_of_fmap in El as (y&[= <-]&Hy).
    apply (Hd x Hy). set_solver.
  - destruct (head _) as [p|] eqn:El; [|done]. simpl in E; subst p.
    apply head_Some_elem_of, list_elem_of_fmap in El as (y&[= <-]&Hy). done.
Qed.

Lemma unlinked_others s s' l p x q a :
  list_rep s l a -> x ∈ elems a -> p ∈ ring l (elems a) -> q ∈ ring l (elems a) ->
  unlinked s s' l p (Item x) q -> others_kept l s s'.
Proof.
  intros R Hx Hp Hq Un l' a' Hne R'. eapply list_rep_frame; [| |done].
  - assert (HxR : Item x ∈ ring l (elems a)).
    { unfold ring. rewrite elem_of_cons. right. by apply list_elem_of_fmap_2. }
    intros b Hb.
    assert (b <> Item x) by (intros ->; exact (ring_disjoint s l l' a a' _ Hne R R' HxR Hb)).
    assert (b <> p) by (intros ->; exact (ring_disjoint s l l' a a' _ Hne R R' Hp Hb)).
    assert (b <> q) by (intros ->; exact (ring_disjoint s l l' a a' _ Hne R R' Hq Hb)).
    rewrite (un_nxt _ _ _ _ _ _ Un), (un_prv _ _ _ _ _ _ Un), (un_cont _ _ _ _ _ _ Un),
      (un_val _ _ _ _ _ _ Un) by done. by rewrite !decide_False.
  - rewrite (un_lists _ _ _ _ _ _ Un). by rewrite lookup_alter_ne.
Qed.

Lemma unlinked_rep s s' l x a n :
  list_rep s l a -> elems a !! n = Some x ->
  unlinked s s' l (ring_before l n (elems a)) (Item x) (ring_after l (S n) (elems a)) ->
  list_rep s' l (aremove n a).
Proof.
  intros R Hn Un.
  assert (Hperm : x :: elems (aremove n a) ≡ₚ elems a).
  { cbn. rewrite (take_drop_mid _ _ _ Hn) at 3. by rewrite Permutation_middle. }
  assert (Hnd : NoDup (x :: elems (aremove n a))) by (rewrite Hperm; apply R).
  apply NoDup_cons in Hnd as [Hx Hnd].
  assert (Hlen : length (elems a) = S (length (elems (aremove n a)))) by (by rewrite <- Hperm).
  pose proof (rep_size _ _ _ R) as Hsz.
  assert (HndR : forall l', NoDup (ListEnd l' :: (Item <$> elems a))).
  { intros l'. apply NoDup_cons. split; [by intros (?&?&?)%list_elem_of_fmap|].
    apply NoDup_fmap_2; [by intros ?? [= ->]|apply R]. }
  pose proof (take_drop_mid _ _ _ Hn) as Esplit.
  split.
  - destruct (rep_list _ _ _ R) as (i&Hl&Hi).
    rewrite (un_lists _ _ _ _ _ _ Un), lookup_alter_eq, Hl.
    rewrite (ring_remove l a n x i Hn Hi). cbn [fmap option_fmap option_map pxIndex].
    assert (Hc : u32 (Z.of_nat (length (elems a)) - 1) = Z.of_nat (length (elems (aremove n a)))).
    { rewrite Hlen, u32_small; lia. }
    assert (Hdec : i = Item x <-> index a = S n).
    { split; [intros ->|intros E; rewrite E, ring_lookup_S, Hn in Hi; by simplify_eq/=].
      destruct (index a) as [|j]; [done|]. rewrite ring_lookup_S in Hi.
      destruct (elems a !! j) eqn:Ej; simplify_eq/=. f_equal.
      eapply NoDup_lookup; [apply R|done..]. }
    destruct (decide (i = Item x)) as [E|E].
    + rewrite decide_True by tauto. eexists. unfold count_decr; cbn. split; [by rewrite Hc|].
      destruct n as [|n]; [done|]. rewrite ring_lookup_S.
      apply lookup_lt_Some in Hn as Hlt.
      destruct (elems a !! n) eqn:En; [|apply lookup_ge_None in En; lia]. simpl.
      unfold ring_before. erewrite take_S_r by done. rewrite fmap_app. simpl. by rewrite last_snoc.
    + rewrite decide_False by tauto. eexists. unfold count_decr; cbn. split; [by rewrite Hc|done].
  - cbn [aremove elems]. rewrite fmap_app.
    eapply lseg_unlink; [exact Un| | |].
    + pose proof (rep_seg _ _ _ R) as Hs. rewrite Esplit, fmap_app in Hs. exact Hs.
    + rewrite <- fmap_cons, <- fmap_app, <- Esplit. apply HndR.
    + rewrite <- fmap_cons, <- fmap_app, <- Esplit. apply HndR.
  - exact Hnd.
  - lia.
  - rewrite (un_val _ _ _ _ _ _ Un). apply R.
  - intros y Hy. rewrite (un_cont _ _ _ _ _ _ Un). rewrite decide_False by naive_solver.
    apply R. rewrite <- Hperm. set_solver.
Qed.

(** Sorted insertion, on sequences. *)
Lemma sorted_position_spec f v xs :
  Forall (fun y => f y <= v) (take (sorted_position f v xs) xs) /\
  (StronglySorted (fun y z => f y <= f z) xs ->
   Forall (fun y => v < f y) (drop (sorted_position f v xs) xs)).
Proof.
  induction xs as [|x xs [IH1 IH2]]; cbn; [by split; [|constructor]|].
  destruct (Z.leb_spec (f x) v); cbn.
  - split; [by constructor|]. intros Hs. inversion_clear Hs. by apply IH2.
  - split; [done|]. intros Hs. inversion_clear Hs as [|? ? Hs' Hx].
    constructor; [done|]. eapply Forall_impl; [exact Hx|]. cbn; lia.
Qed.

Lemma StronglySorted_app_iff {A} (R : A -> A -> Prop) (l1 l2 : list A) :
  StronglySorted R (l1 ++ l2) <->
  StronglySorted R l1 /\ StronglySorted R l2 /\ forall x y, x ∈ l1 -> y ∈ l2 -> R x y.
Proof.
  induction l1 as [|a l1 IH]; cbn.
  { split; [|tauto]. intros; split_and!; [constructor|done|set_solver]. }
  split.
  - intros H. inversion_clear H as [|? ? Hs Hf]. apply IH in Hs as (?&?&?).
    rewrite Forall_app, !Forall_forall in Hf.
    split_and!; [constructor; [done|]; rewrite Forall_forall; tauto|done|set_solver].
  - intros (H1&H2&H3). inversion_clear H1 as [|? ? Hs Hf]. constructor.
    + apply IH. set_solver.
    + rewrite Forall_app, !Forall_forall in *. set_solver.
Qed.

Lemma sorted_insert f x a :
  StronglySorted (fun y z => f y <= f z) (elems a) ->
  StronglySorted (fun y z => f y <= f z)
    (elems (ainsert (sorted_position f (f x) (elems a)) x a)).
Proof.
  intros Hs. cbn. destruct (sorted_position_spec f (f x) (elems a)) as [H1 H2].
  specialize (H2 Hs). rewrite Forall_forall in H1, H2.
  set (n := sorted_position f (f x) (elems a)) in *.
  rewrite <- (take_drop n (elems a)) in Hs.
  apply StronglySorted_app_iff in Hs as (Ht&Hdr&Htd).
  apply StronglySorted_app_iff. split_and!; [done| |].
  - constructor; [done|]. rewrite Forall_forall. intros y Hy. specialize (H2 y Hy). lia.
  - intros y z Hy [->|Hz]%elem_of_cons; [by apply H1|by apply Htd].
Qed.

(** *** The round-robin walk *)

Lemma index_anext a : exists j, index (anext a) = S j.
Proof. unfold anext; cbn [index]; case_decide; eauto. Qed.

Lemma listGET_OWNER_OF_NEXT_ENTRY_step s l a :
  list_rep s l a -> elems a <> [] ->
  exists x o s', elems a !! pred (index (anext a)) = Some x /\ own s (Item x) = Some o
    /\ listGET_OWNER_OF_NEXT_ENTRY l s = Some (o, s')
    /\ list_rep s' l (anext a) /\ items s' = items s /\ others_kept l s s'.
Proof.
  intros R Hne. destruct (rep_list _ _ _ R) as (i&Hl&Hi).
  set (k := index a) in *.
  assert (Hbi : ring_before l k (elems a) = i /\ (k <= length (elems a))%nat).
  { unfold ring_before. destruct k as [|j]; [by simplify_eq/=; split; [|lia]|].
    rewrite ring_lookup_S in Hi. destruct (elems a !! j) as [y|] eqn:Ej; simplify_eq/=.
    apply lookup_lt_Some in Ej as ?. split; [|lia].
    erewrite take_S_r by done. rewrite fmap_app. simpl. by rewrite last_snoc. }
  destruct Hbi as [Hbi Hk].
  destruct (ring_around _ _ _ k R) as [Hnx _]. rewrite Hbi in Hnx. unfold nxt in Hnx.
  destruct (items s !! i) as [ii|] eqn:Eii; simplify_eq/=.
  destruct (ring_around _ _ _ 0 R) as [Hfirst _]. rewrite ring_before_0 in Hfirst.
  unfold nxt in Hfirst. destruct (items s !! ListEnd l) as [ie|] eqn:Eie; simplify_eq/=.
  assert (Hgoal : exists x o, elems a !! pred (index (anext a)) = Some x
     /\ (items s !! Item x) = Some o
     /\ (if decide (ring_after l k (elems a) = ListEnd l)
         then pxNext ie else ring_after l k (elems a)) = Item x).
  { unfold anext; cbn [index elems]. fold k.
    destruct (decide (k < length (elems a))%nat) as [Hlt|Hge].
    - destruct (elems a !! k) as [x|] eqn:Ek; [|apply lookup_ge_None in Ek; lia].
      apply list_elem_of_lookup_2 in Ek as Hx.
      destruct (list_rep_lookup _ _ _ _ R Hx) as (ix&Hix&_).
      exists x, ix. split_and!; [done..|].
      replace (ring_after l k (elems a)) with (Item x) by (unfold ring_after; by rewrite (drop_S _ _ _ Ek)).
      by rewrite decide_False.
    - assert (k = length (elems a)) as -> by lia. cbn [pred].
      destruct (elems a) as [|x xs] eqn:Exs; [done|].
      destruct (list_rep_lookup s l a x R) as (ix&Hix&_); [rewrite Exs; set_solver|].
      exists x, ix. split_and!; [done..|].
      replace (ring_after l (length (x :: xs)) (x :: xs)) with (ListEnd l)
        by (unfold ring_after; by rewrite drop_all).
      by rewrite decide_True, Hfirst. }
  destruct Hgoal as (x&o&Hx&Hox&Htgt).
  set (s1 := mkStore (items s) (<[l := mkList (Z.of_nat (length (elems a))) (Item x)]> (lists s))).
  exists x, (pvOwner o), s1. split_and!; [done|unfold own; by rewrite Hox| | |done|].
  - unfold listGET_OWNER_OF_NEXT_ENTRY, write_list. rewrite Hl. cbn. rewrite Eii. cbn.
    rewrite lookup_insert_eq. cbn. rewrite Hnx.
    destruct (decide (ring_after l k (elems a) = ListEnd l)) as [E|E]; cbn.
    + rewrite E, Eie. cbn. rewrite lookup_insert_eq. cbn.
      by rewrite insert_insert_eq, Htgt, Hox.
    + rewrite lookup_insert_eq. cbn. by rewrite Htgt, Hox.
  - split; cbn [anext elems]; [|by eapply lseg_frame; [..|apply R]|apply R..].
    exists (Item x). cbn [s1 lists]. rewrite lookup_insert_eq. split; [done|].
    destruct (index_anext a) as [j Ej]. rewrite Ej, ring_lookup_S. rewrite Ej in Hx.
    cbn in Hx. by rewrite Hx.
  - intros l' a' Hne' R'. eapply list_rep_frame; [| |done]; [done|].
    cbn. by rewrite lookup_insert_ne.
Qed.

(** [m] successive round-robin steps: the owners they select. *)
Fixpoint round_robin (m : nat) (l : Z) (s : store) : option (list Z * store) :=
  match m with
  | O => Some ([], s)
  | S m' =>
      '(o, s) ← listGET_OWNER_OF_NEXT_ENTRY l s;
      '(os, s) ← round_robin m' l s;
      Some (o :: os, s)
  end.

(** The sequence as seen from ring position [k]. *)
Definition rotation (k : nat) (xs : list Z) : list Z := drop k xs ++ take k xs.

Lemma index_le s l a : list_rep s l a -> (index a <= length (elems a))%nat.
Proof.
  intros R. destruct (rep_list _ _ _ R) as (i&_&Hi). apply lookup_lt_Some in Hi.
  unfold ring in Hi. cbn in Hi. rewrite length_fmap in Hi. lia.
Qed.

Lemma rotation_anext a x :
  (index a <= length (elems a))%nat ->
  elems a !! pred (index (anext a)) = Some x ->
  exists r, rotation (index a) (elems a) = x :: r /\ rotation (index (anext a)) (elems a) = r ++ [x].
Proof.
  unfold anext, rotation; cbn [index]. intros Hle Hx.
  destruct (decide (index a < length (elems a))%nat) as [H|H]; cbn [pred] in Hx.
  - exists (drop (S (index a)) (elems a) ++ take (index a) (elems a)).
    rewrite (drop_S _ _ _ Hx), (take_S_r _ _ _ Hx). by rewrite app_assoc.
  - rewrite drop_ge, take_ge by lia. destruct (elems a) as [|y ys]; simplify_eq/=.
    exists ys. by rewrite drop_0, take_0.
Qed.

Lemma round_robin_spec m s l a :
  list_rep s l a -> (m <= length (elems a))%nat ->
  exists os s' k, round_robin m l s = Some (os, s')
    /\ list_rep s' l (mkAList (elems a) k)
    /\ (fun x => own s (Item x)) <$> take m (rotation (index a) (elems a)) = Some <$> os
    /\ items s' = items s /\ others_kept l s s'.
Proof.
  revert s a. induction m as [|m IH]; intros s a R Hm.
  - exists [], s, (index a). rewrite take_0. destruct a. split_and!; try done.
    by intros ?.
  - destruct (elems a) as [|y ys] eqn:Ea; [cbn in Hm; lia|]. rewrite <- Ea in *.
    destruct (listGET_OWNER_OF_NEXT_ENTRY_step s l a R) as (x&o&s1&Hx&Ho&Hstep&R1&Hi&Hk);
      [by rewrite Ea|].
    destruct (IH s1 (anext a) R1) as (os&s2&k&Hrr&R2&Hos&Hi2&Hk2); [cbn [anext elems]; lia|].
    cbn [anext elems] in R2.
    destruct (rotation_anext a x (index_le _ _ _ R) Hx) as (r&Hr1&Hr2).
    exists (o :: os), s2, k. split_and!.
    + cbn [round_robin]. rewrite Hstep. cbn. rewrite Hrr. done.
    + exact R2.
    + rewrite Hr1. cbn [take fmap list_fmap]. rewrite Ho. f_equal. rewrite <- Hos.
      change (elems (anext a)) with (elems a). rewrite Hr2, take_app_le.
      * apply list_fmap_ext. intros i z _. unfold own. by rewrite Hi.
      * assert (length (rotation (index a) (elems a)) = length (elems a)).
        { unfold rotation. rewrite length_app, length_drop, length_take. lia. }
        rewrite Hr1 in H. cbn in H. lia.
    + congruence.
    + intros l' a' Hne R'. by apply Hk2, Hk.
Qed.

(** ** The operations, step by step *)

(** The containers of other items are kept. *)
Definition conts_kept (x : Z) (s s' : store) : Prop :=
  forall y, y <> x -> cont s' (Item y) = cont s (Item y).

Lemma vListInsertEnd_step (s : store) (l x : Z) (a : alist) :
  list_rep s l a -> detached s x -> Z.of_nat (length (elems a)) + 1 < 2 ^ 32 ->
  exists s', vListInsertEnd l (Item x) s = Some s'
    /\ list_rep s' l (ainsert (end_position a) x a)
    /\ others_kept l s s' /\ payload_kept s s' /\ conts_kept x s s'.
Proof.
  intros R Hd Hsz. destruct (rep_list _ _ _ R) as (i&Hl&Hi).
  pose proof (ring_after_index _ _ _ Hi) as Hq.
  destruct (ring_around _ _ _ (end_position a) R) as [_ Hp]. rewrite Hq in Hp.
  set (p := ring_before l (end_position a) (elems a)) in *.
  pose proof (ring_before_in l (end_position a) (elems a)) as Hpin.
  pose proof (ring_after_in l (end_position a) (elems a)) as Hqin. rewrite Hq in Hqin.
  destruct (items s !! Item x) as [ix|] eqn:Ex; [|unfold detached, cont in Hd; by rewrite Ex in Hd].
  destruct (vListInsertEnd_splice s l (Item x) p i ix _ Hl Ex
    (ring_in_store _ _ _ _ R Hpin) Hp (detached_not_ring _ _ _ _ _ R Hd Hpin)
    (detached_not_ring _ _ _ _ _ R Hd Hqin)) as (s'&Hs'&Sp).
  exists s'. split_and!; [done| | | |].
  - eapply spliced_rep; [done..| |done|by rewrite Hq].
    unfold end_position. destruct (index a) eqn:Eix; [done|].
    rewrite ring_lookup_S in Hi. destruct (elems a !! n) eqn:En; [|done].
    apply lookup_lt_Some in En. lia.
  - exact (spliced_others _ _ _ _ _ _ _ R Hd Hpin Hqin Sp).
  - exact (spliced_payload _ _ _ _ _ _ Sp).
  - intros y Hy. rewrite (sp_cont _ _ _ _ _ _ Sp), decide_False; congruence.
Qed.

Lemma vListInsert_step (s : store) (l x : Z) (a : alist) :
  list_rep s l a -> detached s x -> Z.of_nat (length (elems a)) + 1 < 2 ^ 32 ->
  values_ok s (x :: elems a) ->
  exists s', vListInsert l (Item x) s = Some s'
    /\ list_rep s' l (ainsert (sorted_position (vals s) (vals s x) (elems a)) x a)
    /\ (StronglySorted (fun y z => vals s y <= vals s z) (elems a) ->
        StronglySorted (fun y z => vals s y <= vals s z)
          (elems (ainsert (sorted_position (vals s) (vals s x) (elems a)) x a)))
    /\ others_kept l s s' /\ payload_kept s s' /\ conts_kept x s s'.
Proof.
  intros R Hd Hsz Hv. inversion_clear Hv as [|? ? Hvx Hvs].
  destruct (rep_list _ _ _ R) as (i&Hl&Hi).
  set (n := sorted_position (vals s) (vals s x) (elems a)).
  destruct (items s !! Item x) as [ix|] eqn:Ex; [|unfold detached, cont in Hd; by rewrite Ex in Hd].
  assert (Evx : vals s x = xItemValue ix) by (unfold vals, val; by rewrite Ex).
  assert (Hit : (if xItemValue ix =? portMAX_DELAY then pxPrevious <$> items s !! ListEnd l
     else insert_position (S (Z.to_nat (Z.of_nat (length (elems a))))) (xItemValue ix) (ListEnd l) s)
     = Some (ring_before l n (elems a))).
  { destruct (Z.eqb_spec (xItemValue ix) portMAX_DELAY) as [E|E].
    - rewrite (ring_before_end _ _ _ R). subst n. rewrite Evx, E. by rewrite sorted_position_max.
    - rewrite Nat2Z.id. rewrite <- (ring_before_0 l (elems a)).
      rewrite (insert_position_spec s l a (xItemValue ix) [] (elems a)); [|done|done|lia..].
      subst n. by rewrite Evx. }
  destruct (ring_around _ _ _ n R) as [Hp _].
  pose proof (ring_before_in l n (elems a)) as Hpin.
  pose proof (ring_after_in l n (elems a)) as Hqin.
  destruct (link_after_splice s l (Item x) _ _ ix _ i Hl Ex
    (ring_in_store _ _ _ _ R Hqin) Hp (detached_not_ring _ _ _ _ _ R Hd Hpin)
    (detached_not_ring _ _ _ _ _ R Hd Hqin)) as (s'&Hs'&Sp).
  exists s'. split_and!.
  - unfold vListInsert. rewrite Ex, Hl. cbn [mbind option_bind uxNumberOfItems].
    by rewrite Hit.
  - eapply spliced_rep; eauto. apply sorted_position_le.
  - apply sorted_insert.
  - exact (spliced_others _ _ _ _ _ _ _ R Hd Hpin Hqin Sp).
  - exact (spliced_payload _ _ _ _ _ _ Sp).
  - intros y Hy. rewrite (sp_cont _ _ _ _ _ _ Sp), decide_False; congruence.
Qed.

Lemma uxListRemove_step (s : store) (l x : Z) (a : alist) (n : nat) :
  list_rep s l a -> elems a !! n = Some x ->
  exists s', uxListRemove (Item x) s = Some (Z.of_nat (length (elems a)) - 1, s')
    /\ list_rep s' l (aremove n a) /\ detached s' x
    /\ others_kept l s s' /\ payload_kept s s' /\ conts_kept x s s'.
Proof.
  intros R Hn. destruct (rep_list _ _ _ R) as (i&Hl&Hi).
  apply list_elem_of_lookup_2 in Hn as Hx.
  destruct (list_rep_lookup _ _ _ _ R Hx) as (ix&Ex&Ec).
  destruct (ring_at _ _ _ _ _ R Hn) as [Hnx Hpv].
  unfold nxt in Hnx; unfold prv in Hpv. rewrite Ex in Hnx, Hpv. cbn in Hnx, Hpv.
  injection Hnx as Hnx. injection Hpv as Hpv.
  pose proof (ring_before_in l n (elems a)) as Hpin.
  pose proof (ring_after_in l (S n) (elems a)) as Hqin.
  destruct (ring_neighbours l a n x (rep_nodup _ _ _ R) Hn) as [Hxp Hxq].
  destruct (uxListRemove_unlink s l _ (Item x) _ ix _ i Hl Ex Ec Hnx Hpv Hxp Hxq
    (ring_in_store _ _ _ _ R Hpin) (ring_in_store _ _ _ _ R Hqin)) as (s'&Hs'&Un).
  pose proof (rep_size _ _ _ R). apply lookup_lt_Some in Hn as Hlt.
  exists s'. split_and!.
  - rewrite Hs'. by rewrite u32_small by lia.
  - by eapply unlinked_rep.
  - unfold detached. rewrite (un_cont _ _ _ _ _ _ Un). by rewrite decide_True.
  - exact (unlinked_others _ _ _ _ _ _ _ R Hx Hpin Hqin Un).
  - intros b. by rewrite (un_val _ _ _ _ _ _ Un), (un_own _ _ _ _ _ _ Un).
  - intros y Hy. rewrite (un_cont _ _ _ _ _ _ Un), decide_False; congruence.
Qed.

(** ** Properties *)

(** [vListInsertEnd] on a well-formed list returns, puts the detached item
    just before [pxIndex] (so that it is the last one a round-robin walk
    reaches), keeps [pxIndex] where it points, keeps all values and owners,
    and leaves every other list of the kernel as it is. *)
Theorem vListInsertEnd_refines (s : store) (l x : Z) (a : alist) :
  list_rep s l a -> detached s x -> Z.of_nat (length (elems a)) + 1 < 2 ^ 32 ->
  exists s', vListInsertEnd l (Item x) s = Some s'
    /\ list_rep s' l (ainsert (end_position a) x a)
    /\ others_kept l s s' /\ payload_kept s s'.
Proof.
  intros R Hd Hsz. destruct (vListInsertEnd_step s l x a R Hd Hsz) as (s'&?&?&?&?&_).
  by exists s'.
Qed.

(** [vListInsert] returns (its search loop ends), puts the detached item
    behind every leading item whose value does not exceed its own, keeps
    [pxIndex], values, owners and the other lists.  The special case of
    [portMAX_DELAY] in the code follows the same rule. *)
Theorem vListInsert_refines (s : store) (l x : Z) (a : alist) :
  list_rep s l a -> detached s x -> Z.of_nat (length (elems a)) + 1 < 2 ^ 32 ->
  values_ok s (x :: elems a) ->
  exists s', vListInsert l (Item x) s = Some s'
    /\ list_rep s' l (ainsert (sorted_position (vals s) (vals s x) (elems a)) x a)
    /\ (StronglySorted (fun y z => vals s y <= vals s z) (elems a) ->
        StronglySorted (fun y z => vals s y <= vals s z)
          (elems (ainsert (sorted_position (vals s) (vals s x) (elems a)) x a)))
    /\ others_kept l s s' /\ payload_kept s s'.
Proof.
  intros R Hd Hsz Hv. destruct (vListInsert_step s l x a R Hd Hsz Hv) as (s'&?&?&?&?&?&_).
  by exists s'.
Qed.

(** [uxListRemove] of the [n]-th item returns the number of items that are
    left, removes exactly that item, leaves it on no list, steps [pxIndex]
    back when it pointed at the item, and keeps values, owners and the other
    lists. *)
Theorem uxListRemove_refines (s : store) (l x : Z) (a : alist) (n : nat) :
  list_rep s l a -> elems a !! n = Some x ->
  exists s', uxListRemove (Item x) s = Some (Z.of_nat (length (elems a)) - 1, s')
    /\ list_rep s' l (aremove n a) /\ detached s' x
    /\ others_kept l s s' /\ payload_kept s s'.
Proof.
  intros R Hn. destruct (uxListRemove_step s l x a n R Hn) as (s'&?&?&?&?&?&_).
  by exists s'.
Qed.

(** the scheduler's round robin is fair: on a non-empty list, as many
    [listGET_OWNER_OF_NEXT_ENTRY] steps as there are items return, select the
    owner of every item exactly once, in ring order from [pxIndex], and move
    only [pxIndex]. *)
Theorem round_robin_fair (s : store) (l : Z) (a : alist) :
  list_rep s l a ->
  exists os s' k, round_robin (length (elems a)) l s = Some (os, s')
    /\ list_rep s' l (mkAList (elems a) k)
    /\ (fun x => own s (Item x)) <$> (drop (index a) (elems a) ++ take (index a) (elems a))
         = Some <$> os
    /\ items s' = items s /\ others_kept l s s'.
Proof.
  intros R. destruct (round_robin_spec (length (elems a)) s l a R) as (os&s'&k&H); [done|].
  exists os, s', k. rewrite take_ge in H; [done|].
  unfold rotation. rewrite length_app, length_drop, length_take. lia.
Qed.

(** [vListInitialise] makes an empty list of any memory, whatever it held,
    and leaves the lists of other headers as they are. *)
Theorem vListInitialise_empty (s : store) (l : Z) :
  list_rep (vListInitialise l s) l (mkAList [] 0) /\ others_kept l s (vListInitialise l s).
Proof.
  split.
  - split; cbn; try done.
    + exists (ListEnd l). by rewrite lookup_insert_eq.
    + unfold nxt, prv. cbn. by rewrite lookup_insert_eq.
    + constructor.
    + unfold val. cbn. by rewrite lookup_insert_eq.
    + intros x Hx. by apply not_elem_of_nil in Hx.
  - intros l' a' Hne R'. eapply list_rep_frame; [| |done].
    + intros p Hp. unfold nxt, prv, cont, val. cbn. rewrite lookup_insert_ne; [done|].
      intros <-. apply elem_of_cons in Hp as [?|Hp]; [congruence|].
      by apply list_elem_of_fmap in Hp as (?&?&?).
    + cbn. by rewrite lookup_insert_ne.
Qed.

(** ** Witnesses

    A list at address 100 with two items of values 5 and 9, its [pxIndex] on the
    first of them, and a third item of value 7 that is on no list. *)

Definition fresh_item (v o : Z) : ListItem_t := mkItem v (ListEnd 0) (ListEnd 0) o None.

Definition raw_ex : store :=
  mkStore (list_to_map [(Item 1, fresh_item 5 11); (Item 2, fresh_item 9 12);
                        (Item 3, fresh_item 7 13)]) ∅.

Definition list_ex : store :=
  default raw_ex
    (s ← vListInsertEnd 100 (Item 1) (vListInitialise 100 raw_ex);
     s ← vListInsertEnd 100 (Item 2) s;
     snd <$> listGET_OWNER_OF_NEXT_ENTRY 100 s).

Lemma list_ex_rep : list_rep list_ex 100 (mkAList [1; 2] 1).
Proof.
  split.
  - exists (Item 1). by vm_compute.
  - vm_compute. tauto.
  - repeat constructor; set_solver.
  - done.
  - by vm_compute.
  - intros x Hx. repeat (apply elem_of_cons in Hx as [->|Hx]; [by vm_compute|]).
    by apply not_elem_of_nil in Hx.
Qed.

Lemma vListInsertEnd_refines_witness :
  exists s', vListInsertEnd 100 (Item 3) list_ex = Some s' /\
    list_rep s' 100 (mkAList [3; 1; 2] 2).
Proof.
  destruct (vListInsertEnd_refines list_ex 100 3 (mkAList [1; 2] 1) list_ex_rep) as (s'&E&R&_);
    [by vm_compute|by vm_compute|]. exists s'. split; [exact E|exact R].
Defined.

Lemma vListInsert_refines_witness :
  exists s', vListInsert 100 (Item 3) list_ex = Some s' /\
    list_rep s' 100 (mkAList [1; 3; 2] 1).
Proof.
  destruct (vListInsert_refines list_ex 100 3 (mkAList [1; 2] 1) list_ex_rep) as (s'&E&R&_);
    [by vm_compute|by vm_compute| |].
  - repeat constructor; vm_compute; intuition discriminate.
  - exists s'. split; [exact E|exact R].
Defined.

Lemma uxListRemove_refines_witness :
  exists s', uxListRemove (Item 1) list_ex = Some (1, s') /\ list_rep s' 100 (mkAList [2] 0).
Proof.
  destruct (uxListRemove_refines list_ex 100 1 (mkAList [1; 2] 1) 0 list_ex_rep) as (s'&E&R&_);
    [by vm_compute|]. exists s'. split; [exact E|exact R].
Defined.

Lemma round_robin_fair_witness :
  exists s', round_robin 2 100 list_ex = Some ([12; 11], s').
Proof.
  destruct (round_robin_fair list_ex 100 _ list_ex_rep) as (os&s'&k&E&_&Ho&_).
  assert (os = [12; 11]) as ->.
  { clear E. vm_compute in Ho. destruct os as [|? [|? [|]]]; congruence. }
  exists s'. exact E.
Defined.
