(* ===== verification/Heap4.v ===== *)
(** * The kernel heap

    Model of src/FreeRTOS/FreeRTOS-Kernel/portable/MemMang/heap_4.c, the
    allocator that both firmware projects build.  The heap is the byte memory
    of [Mem]; a [BlockLink_t] is two 32-bit words (next pointer at offset 0,
    size at offset 4), read and written through pointers exactly where the
    code does.  [Heap4Rep] states the abstract heap and proves what each step
    of the code does to it; [Heap4Proofs] holds the properties.

    [vTaskSuspendAll]/[xTaskResumeAll] and the critical section only make the
    bodies atomic with respect to other tasks: the model's operations are the
    atomic bodies. *)
From S2P Require Import Prelude Mem.
Open Scope Z_scope.

Section heap4.
(** Addresses fixed by the linker, and the configured heap size. *)
Context (ucHeap configTOTAL_HEAP_SIZE xStart : Z).

(** [configASSERT], where there is no state to pass: the port halts. *)
Definition asserts (a : bool) : option unit := if a then Some tt else None.

Definition portBYTE_ALIGNMENT : Z := 8.
Definition portBYTE_ALIGNMENT_MASK : Z := 7.
Definition sizeof_BlockLink_t : Z := 8.

(** Clearing bits: [~ mask] on 32 bits. *)
Definition andnot32 (x mask : Z) : Z := Z.land x (Z.lxor (2 ^ 32 - 1) mask).

Definition xHeapStructSize : Z :=
  andnot32 (sizeof_BlockLink_t + (portBYTE_ALIGNMENT - 1)) portBYTE_ALIGNMENT_MASK.
Definition heapMINIMUM_BLOCK_SIZE : Z := u32 (Z.shiftl xHeapStructSize 1).
Definition heapSIZE_MAX : Z := 2 ^ 32 - 1.
Definition heapMULTIPLY_WILL_OVERFLOW (a b : Z) : bool := (0 <? a) && (heapSIZE_MAX / a <? b).
Definition heapADD_WILL_OVERFLOW (a b : Z) : bool := u32 (heapSIZE_MAX - b) <? a.
Definition heapBLOCK_ALLOCATED_BITMASK : Z := Z.shiftl 1 31.
Definition heapBLOCK_SIZE_IS_VALID (size : Z) : bool :=
  Z.land size heapBLOCK_ALLOCATED_BITMASK =? 0.

(** The static variables of heap_4.c ([xStart] lives in [memory]). *)
Record heap := mkHeap {
  memory : mem;
  pxEnd : Z;
  xFreeBytesRemaining : Z;
  xMinimumEverFreeBytesRemaining : Z;
  xNumberOfSuccessfulAllocations : Z;
  xNumberOfSuccessfulFrees : Z
}.

Definition with_memory (m : mem) (h : heap) : heap :=
  mkHeap m (pxEnd h) (xFreeBytesRemaining h) (xMinimumEverFreeBytesRemaining h)
    (xNumberOfSuccessfulAllocations h) (xNumberOfSuccessfulFrees h).

(** Fields of the [BlockLink_t] at address [p]. *)
Definition pxNextFreeBlock (p : Z) (m : mem) : option Z := load32 p m.
Definition xBlockSize (p : Z) (m : mem) : option Z := load32 (p + 4) m.
Definition set_next (p v : Z) (m : mem) : option mem := store32 p v m.
Definition set_size (p v : Z) (m : mem) : option mem := store32 (p + 4) v m.

Definition heapBLOCK_IS_ALLOCATED (p : Z) (m : mem) : option bool :=
  (fun s => negb (Z.land s heapBLOCK_ALLOCATED_BITMASK =? 0)) <$> xBlockSize p m.
Definition heapALLOCATE_BLOCK (p : Z) (m : mem) : option mem :=
  s ← xBlockSize p m; set_size p (Z.lor s heapBLOCK_ALLOCATED_BITMASK) m.
Definition heapFREE_BLOCK (p : Z) (m : mem) : option mem :=
  s ← xBlockSize p m; set_size p (andnot32 s heapBLOCK_ALLOCATED_BITMASK) m.

(** No walk of the free list is longer than the heap has room for blocks. *)
Definition walk_fuel : nat := S (S (Z.to_nat (configTOTAL_HEAP_SIZE / 8))).

Definition prvHeapInit (h : heap) : option heap :=
  let misaligned := negb (Z.land ucHeap portBYTE_ALIGNMENT_MASK =? 0) in
  let uxAddress :=
    if misaligned then andnot32 (u32 (ucHeap + (portBYTE_ALIGNMENT - 1))) portBYTE_ALIGNMENT_MASK
    else ucHeap in
  let xTotalHeapSize :=
    if misaligned then u32 (configTOTAL_HEAP_SIZE - u32 (uxAddress - ucHeap))
    else configTOTAL_HEAP_SIZE in
  let pucAlignedHeap := uxAddress in
  m ← set_next xStart pucAlignedHeap (memory h);
  m ← set_size xStart 0 m;
  let uxAddress := u32 (pucAlignedHeap + xTotalHeapSize) in
  let uxAddress := u32 (uxAddress - xHeapStructSize) in
  let uxAddress := andnot32 uxAddress portBYTE_ALIGNMENT_MASK in
  let pxEnd := uxAddress in
  m ← set_size pxEnd 0 m;
  m ← set_next pxEnd 0 m;
  let pxFirstFreeBlock := pucAlignedHeap in
  m ← set_size pxFirstFreeBlock (u32 (uxAddress - pxFirstFreeBlock)) m;
  m ← set_next pxFirstFreeBlock pxEnd m;
  size ← xBlockSize pxFirstFreeBlock m;
  Some (mkHeap m pxEnd size size
          (xNumberOfSuccessfulAllocations h) (xNumberOfSuccessfulFrees h)).

(** The [for] loop of [prvInsertBlockIntoFreeList]. *)
Fixpoint find_insertion (fuel : nat) (pxIterator pxBlockToInsert : Z) (m : mem) : option Z :=
  match fuel with
  | O => None
  | S fuel' =>
      next ← pxNextFreeBlock pxIterator m;
      if next <? pxBlockToInsert then find_insertion fuel' next pxBlockToInsert m
      else Some pxIterator
  end.

(** The second half of [prvInsertBlockIntoFreeList]: join with the block
    after, or link to it, and link the block before. *)
Definition join_next (pxBlockToInsert pxIterator pxEnd : Z) (m : mem) : option mem :=
  size ← xBlockSize pxBlockToInsert m;
  next ← pxNextFreeBlock pxIterator m;
  m ←
    (if u32 (pxBlockToInsert + size) =? next then
       if negb (next =? pxEnd) then
         nsize ← xBlockSize next m;
         m ← set_size pxBlockToInsert (u32 (size + nsize)) m;
         next ← pxNextFreeBlock pxIterator m;
         nnext ← pxNextFreeBlock next m;
         set_next pxBlockToInsert nnext m
       else set_next pxBlockToInsert pxEnd m
     else set_next pxBlockToInsert next m);
  if negb (pxIterator =? pxBlockToInsert) then set_next pxIterator pxBlockToInsert m
  else Some m.

Definition prvInsertBlockIntoFreeList (pxBlockToInsert : Z) (h : heap) : option heap :=
  let m := memory h in
  pxIterator ← find_insertion walk_fuel xStart pxBlockToInsert m;
  itsize ← xBlockSize pxIterator m;
  m ←
    (if u32 (pxIterator + itsize) =? pxBlockToInsert then
       size ← xBlockSize pxBlockToInsert m;
       m ← set_size pxIterator (u32 (itsize + size)) m;
       join_next pxIterator pxIterator (pxEnd h) m
     else join_next pxBlockToInsert pxIterator (pxEnd h) m);
  Some (with_memory m h).

(** The search loop of [pvPortMalloc]: the block and its predecessor. *)
Fixpoint find_fit (fuel : nat) (pxPreviousBlock pxBlock xWantedSize : Z) (m : mem)
  : option (Z * Z) :=
  match fuel with
  | O => None
  | S fuel' =>
      size ← xBlockSize pxBlock m;
      next ← pxNextFreeBlock pxBlock m;
      if (size <? xWantedSize) && negb (next =? 0)
      then find_fit fuel' pxBlock next xWantedSize m
      else Some (pxPreviousBlock, pxBlock)
  end.

(** The wanted size with its header and its padding; 0 on overflow. *)
Definition adjusted_size (xWantedSize : Z) : Z :=
  if 0 <? xWantedSize then
    let xAdditionalRequiredSize :=
      u32 (xHeapStructSize + portBYTE_ALIGNMENT - Z.land xWantedSize portBYTE_ALIGNMENT_MASK) in
    if heapADD_WILL_OVERFLOW xWantedSize xAdditionalRequiredSize then 0
    else u32 (xWantedSize + xAdditionalRequiredSize)
  else xWantedSize.

(** The part of [pvPortMalloc] that runs once a block is found. *)
Definition take_block (pxPreviousBlock pxBlock xWantedSize : Z) (h : heap) : option (Z * heap) :=
  let m := memory h in
  prevnext ← pxNextFreeBlock pxPreviousBlock m;
  let pvReturn := u32 (prevnext + xHeapStructSize) in
  next ← pxNextFreeBlock pxBlock m;
  m ← set_next pxPreviousBlock next m;
  size ← xBlockSize pxBlock m;
  h ←
    (if heapMINIMUM_BLOCK_SIZE <? u32 (size - xWantedSize) then
       let pxNewBlockLink := u32 (pxBlock + xWantedSize) in
       _ ← asserts (Z.land pxNewBlockLink portBYTE_ALIGNMENT_MASK =? 0);
       m ← set_size pxNewBlockLink (u32 (size - xWantedSize)) m;
       m ← set_size pxBlock xWantedSize m;
       prvInsertBlockIntoFreeList pxNewBlockLink (with_memory m h)
     else Some (with_memory m h));
  size ← xBlockSize pxBlock (memory h);
  let free := u32 (xFreeBytesRemaining h - size) in
  let least := if free <? xMinimumEverFreeBytesRemaining h then free
               else xMinimumEverFreeBytesRemaining h in
  m ← heapALLOCATE_BLOCK pxBlock (memory h);
  m ← set_next pxBlock 0 m;
  Some (pvReturn, mkHeap m (pxEnd h) free least
    (u32 (xNumberOfSuccessfulAllocations h + 1)) (xNumberOfSuccessfulFrees h)).

(** [pvPortMalloc] up to the failure hook: the pointer, 0 for [NULL]. *)
Definition malloc_body (xWantedSize : Z) (h : heap) : option (Z * heap) :=
  h ← (if pxEnd h =? 0 then prvHeapInit h else Some h);
  let xWantedSize := adjusted_size xWantedSize in
  if heapBLOCK_SIZE_IS_VALID xWantedSize
     && ((0 <? xWantedSize) && (xWantedSize <=? xFreeBytesRemaining h)) then
    first ← pxNextFreeBlock xStart (memory h);
    '(pxPreviousBlock, pxBlock) ← find_fit walk_fuel xStart first xWantedSize (memory h);
    if negb (pxBlock =? pxEnd h) then take_block pxPreviousBlock pxBlock xWantedSize h
    else Some (0, h)
  else Some (0, h).

(** How [pvPortMalloc] ends.  With [configUSE_MALLOC_FAILED_HOOK] set, a
    failure calls [vApplicationMallocFailedHook], whose definition in
    portable/GCC/RISC-V/port.c prints a message and never returns. *)
Inductive malloc_result := Allocated (p : Z) | MallocFailedHook.

Definition pvPortMalloc (xWantedSize : Z) (h : heap) : option (malloc_result * heap) :=
  '(pvReturn, h) ← malloc_body xWantedSize h;
  if pvReturn =? 0 then Some (MallocFailedHook, h)
  else _ ← asserts (Z.land pvReturn portBYTE_ALIGNMENT_MASK =? 0); Some (Allocated pvReturn, h).

Definition vPortFree (pv : Z) (h : heap) : option heap :=
  if negb (pv =? 0) then
    let pxLink := u32 (pv - xHeapStructSize) in
    allocated ← heapBLOCK_IS_ALLOCATED pxLink (memory h);
    _ ← asserts allocated;
    next ← pxNextFreeBlock pxLink (memory h);
    _ ← asserts (next =? 0);
    if (allocated : bool) then
      if next =? 0 then
        m ← heapFREE_BLOCK pxLink (memory h);
        size ← xBlockSize pxLink m;
        h ← prvInsertBlockIntoFreeList pxLink
          (mkHeap m (pxEnd h) (u32 (xFreeBytesRemaining h + size))
             (xMinimumEverFreeBytesRemaining h)
             (xNumberOfSuccessfulAllocations h) (xNumberOfSuccessfulFrees h));
        Some (mkHeap (memory h) (pxEnd h) (xFreeBytesRemaining h)
                (xMinimumEverFreeBytesRemaining h) (xNumberOfSuccessfulAllocations h)
                (u32 (xNumberOfSuccessfulFrees h + 1)))
      else Some h
    else Some h
  else Some h.

Definition pvPortCalloc (xNum xSize : Z) (h : heap) : option (malloc_result * heap) :=
  if heapMULTIPLY_WILL_OVERFLOW xNum xSize then Some (Allocated 0, h)
  else
    '(r, h) ← pvPortMalloc (u32 (xNum * xSize)) h;
    match r with
    | Allocated p =>
        m ← memset p 0 (Z.to_nat (u32 (xNum * xSize))) (memory h);
        Some (Allocated p, with_memory m h)
    | MallocFailedHook => Some (MallocFailedHook, h)
    end.

Definition xPortGetFreeHeapSize (h : heap) : Z := xFreeBytesRemaining h.
Definition xPortGetMinimumEverFreeHeapSize (h : heap) : Z := xMinimumEverFreeBytesRemaining h.

(** The walk of [vPortGetHeapStats]: number, largest and smallest size. *)
Fixpoint stats_walk (fuel : nat) (pxBlock e xBlocks xMaxSize xMinSize : Z) (m : mem)
  : option (Z * Z * Z) :=
  match fuel with
  | O => None
  | S fuel' =>
      if pxBlock =? e then Some (xBlocks, xMaxSize, xMinSize)
      else
        size ← xBlockSize pxBlock m;
        next ← pxNextFreeBlock pxBlock m;
        stats_walk fuel' next e (u32 (xBlocks + 1))
          (if xMaxSize <? size then size else xMaxSize)
          (if size <? xMinSize then size else xMinSize) m
  end.

Record HeapStats_t := mkStats {
  xAvailableHeapSpaceInBytes : Z;
  xSizeOfLargestFreeBlockInBytes : Z;
  xSizeOfSmallestFreeBlockInBytes : Z;
  xNumberOfFreeBlocks : Z;
  stat_MinimumEverFreeBytesRemaining : Z;
  stat_NumberOfSuccessfulAllocations : Z;
  stat_NumberOfSuccessfulFrees : Z
}.

Definition vPortGetHeapStats (h : heap) : option HeapStats_t :=
  first ← pxNextFreeBlock xStart (memory h);
  '(xBlocks, xMaxSize, xMinSize) ←
    (if negb (first =? 0) then stats_walk walk_fuel first (pxEnd h) 0 0 (2 ^ 32 - 1) (memory h)
     else Some (0, 0, 2 ^ 32 - 1));
  Some (mkStats (xFreeBytesRemaining h) xMaxSize xMinSize xBlocks
          (xMinimumEverFreeBytesRemaining h)
          (xNumberOfSuccessfulAllocations h) (xNumberOfSuccessfulFrees h)).
End heap4.
