(* ===== verification/Heap4Rep.v ===== *)
(** * The abstract heap and its representation

    The abstract heap is a tiling of the region between the aligned start of
    [ucHeap] and [pxEnd] into blocks (free, allocated, or on the way between
    the two).  [heap_rep] relates it to the memory of the C code: headers,
    the chain of free blocks, the markers.  The lemmas follow the steps of
    [Heap4]: each is one replacement of a stretch of the tiling
    ([rep_replace]). *)
From S2P Require Import Prelude Mem Heap4.
Open Scope Z_scope.

(** ** The abstract heap

    The region between the aligned start of [ucHeap] and [pxEnd] is tiled by
    blocks.  A block that is being moved between the free list and the
    application belongs to neither: it is in limbo. *)
Inductive status := Free | Alloc | Limbo.

#[export] Instance status_eq_dec : EqDecision status.
Proof. solve_decision. Defined.

Abbreviation block := (Z * status)%type.

Fixpoint total (bs : list block) : Z :=
  match bs with [] => 0 | (sz, _) :: bs' => sz + total bs' end.

Fixpoint free_total (bs : list block) : Z :=
  match bs with
  | [] => 0
  | (sz, Free) :: bs' => sz + free_total bs'
  | _ :: bs' => free_total bs'
  end.

(** The addresses of the free blocks of a tiling that starts at [a]. *)
Fixpoint frees (a : Z) (bs : list block) : list Z :=
  match bs with
  | [] => []
  | (sz, Free) :: bs' => a :: frees (a + sz) bs'
  | (sz, _) :: bs' => frees (a + sz) bs'
  end.

Definition size_ok (b : block) : Prop := b.1 `mod` 8 = 0 /\ 16 <= b.1.

(** No two neighbours are both free. *)
Fixpoint coalesced (bs : list block) : Prop :=
  match bs with
  | (_, Free) :: (((_, Free) :: _) as bs') => False
  | _ :: bs' => coalesced bs'
  | [] => True
  end.

Definition settled (bs : list block) : Prop := Forall (fun b : block => b.2 <> Limbo) bs.

(** Freeing a block of size [sz] between [pre] and [post] merges it with the
    free neighbours. *)
Definition join_left (pre : list block) (sz : Z) : list block * Z :=
  match reverse pre with
  | (s, Free) :: r => (reverse r, s + sz)
  | _ => (pre, sz)
  end.

Definition join_right (sz : Z) (post : list block) : Z * list block :=
  match post with
  | (s, Free) :: r => (sz + s, r)
  | _ => (sz, post)
  end.

Definition merge_right (sz : Z) (post : list block) : list block :=
  let '(sz2, post') := join_right sz post in (sz2, Free) :: post'.

Definition merge (pre : list block) (sz : Z) (post : list block) : list block :=
  let '(pre', sz1) := join_left pre sz in pre' ++ merge_right sz1 post.

(** A free block of size [sz] of which [want] bytes are taken: the rest stays
    free when it is large enough for a block of its own. *)
Definition carve (sz want : Z) : list block :=
  if 16 <? sz - want then [(want, Alloc); (sz - want, Free)] else [(sz, Alloc)].

(** First fit: the first free block of at least [want] bytes, with what comes
    before and after it. *)
Fixpoint first_fit (want : Z) (bs : list block) : option (list block * Z * list block) :=
  match bs with
  | [] => None
  | (sz, st) :: bs' =>
      if decide (st = Free /\ want <= sz) then Some ([], sz, bs')
      else '(pre, s, post) ← first_fit want bs'; Some ((sz, st) :: pre, s, post)
  end.

(** What a call of [pvPortMalloc] promises: the offset of the block it takes
    and the tiling that is left, or nothing when no block fits. *)
Definition amalloc (xWantedSize : Z) (bs : list block) : option (Z * list block) :=
  let want := adjusted_size xWantedSize in
  if want =? 0 then None
  else '(pre, sz, post) ← first_fit want bs;
       Some (total pre, pre ++ carve sz want ++ post).

(** *** Words of memory *)

Definition word (m : mem) (w : Z) : option Z := if w `mod` 4 =? 0 then load32 w m else None.

Lemma word_load m w : w `mod` 4 = 0 -> load32 w m = word m w.
Proof. intros E. unfold word. by rewrite E. Qed.

Lemma mapped_load m w : mapped m w 4 -> is_Some (load32 w m).
Proof. intros H. unfold load32. destruct (load_bytes_mapped 4 w m H) as [bs ->]. done. Qed.

Lemma store32_word a v m :
  mapped m a 4 -> a `mod` 4 = 0 -> 0 <= v < 2 ^ 32 ->
  exists m', store32 a v m = Some m' /\
    (forall w, word m' w = if decide (w = a) then Some v else word m w) /\
    (forall b k, mapped m b k -> mapped m' b k) /\
    (forall i, ~ a <= i < a + 4 -> m' !! i = m !! i).
Proof.
  intros Hm Ha Hv. destruct (store32_spec a v m Hm) as (m'&Hs&Hl&Hf&Hmap).
  exists m'. split_and!; [done| |done..]. intros w. unfold word.
  destruct (Z.eqb_spec (w `mod` 4) 0) as [Hw|Hw]; case_decide as E; subst.
  - by rewrite Hl, u32_small.
  - apply load32_frame. intros i Hi. apply Hf.
    pose proof (Z.div_mod w 4) as D1. pose proof (Z.div_mod a 4) as D2. lia.
  - done.
  - done.
Qed.

(** *** The free list as a chain of words *)

Section chains.
Implicit Type W : Z -> option Z.

(** The last node of a list that starts at [p]. *)
Definition lastd (p : Z) (F : list Z) : Z := default p (last F).

(** The links inside of the list [p :: F]. *)
Fixpoint seg W (p : Z) (F : list Z) : Prop :=
  match F with [] => True | x :: F' => W p = Some x /\ seg W x F' end.

Definition chain W (p : Z) (F : list Z) (q : Z) : Prop :=
  seg W p F /\ W (lastd p F) = Some q.

Lemma lastd_cons p x F : lastd p (x :: F) = lastd x F.
Proof. unfold lastd. rewrite last_cons. by destruct (last F). Qed.

Lemma lastd_app p F1 F2 : lastd p (F1 ++ F2) = lastd (lastd p F1) F2.
Proof.
  revert p; induction F1 as [|x F1 IH]; intros p; cbn [app]; [done|].
  by rewrite !lastd_cons, IH.
Qed.

Lemma lastd_snoc p F x : lastd p (F ++ [x]) = x.
Proof. unfold lastd. by rewrite last_snoc. Qed.

Lemma lastd_in p F : lastd p F ∈ p :: F.
Proof.
  unfold lastd. destruct (last F) as [x|] eqn:E; simpl; [|set_solver].
  apply last_Some_elem_of in E. set_solver.
Qed.

Lemma seg_app W p F1 F2 : seg W p (F1 ++ F2) <-> seg W p F1 /\ seg W (lastd p F1) F2.
Proof.
  revert p; induction F1 as [|x F1 IH]; intros p; cbn [app seg]; [tauto|].
  rewrite lastd_cons, IH. tauto.
Qed.

Lemma chain_app W p F1 F2 q : chain W p (F1 ++ F2) q <-> seg W p F1 /\ chain W (lastd p F1) F2 q.
Proof. unfold chain. rewrite seg_app, lastd_app. tauto. Qed.

Lemma chain_cons W p x F q : chain W p (x :: F) q <-> W p = Some x /\ chain W x F q.
Proof. unfold chain. cbn [seg]. rewrite lastd_cons. tauto. Qed.

(** Only the nodes before the last one matter to [seg]. *)
Lemma seg_frame W W' p F :
  NoDup (p :: F) -> (forall w, w ∈ p :: F -> w <> lastd p F -> W' w = W w) ->
  seg W p F -> seg W' p F.
Proof.
  revert p; induction F as [|x F IH]; intros p Hnd Hf; cbn [seg]; [done|].
  rewrite lastd_cons in Hf. intros [Hp Hs].
  apply NoDup_cons in Hnd as [Hpn Hnd]. split.
  - rewrite Hf; [done|set_solver|]. intros ->. apply Hpn, lastd_in.
  - apply IH; [done| |done]. intros w Hw. apply Hf. set_solver.
Qed.

Lemma chain_frame W W' p F q :
  (forall w, w ∈ p :: F -> W' w = W w) -> chain W p F q -> chain W' p F q.
Proof.
  intros Hf [Hs Hl]. split; [|by rewrite Hf by apply lastd_in].
  clear Hl. revert p Hf Hs. induction F as [|x F IH]; intros p Hf; cbn [seg]; [done|].
  intros [Hp Hs]. rewrite Hf by set_solver. split; [done|].
  apply IH; [|done]. intros w Hw. apply Hf. set_solver.
Qed.

(** The node after a cut of the chain. *)
Definition nextd (F : list Z) (q : Z) : Z := match F with [] => q | x :: _ => x end.

Lemma chain_head W p F q : chain W p F q -> W p = Some (nextd F q).
Proof. intros [Hs Hl]. destruct F; cbn in *; [done|tauto]. Qed.

Lemma chain_retarget W W' p F1 F2' q :
  NoDup (p :: F1) -> seg W p F1 ->
  (forall w, w ∈ p :: F1 -> w <> lastd p F1 -> W' w = W w) ->
  chain W' (lastd p F1) F2' q -> chain W' p (F1 ++ F2') q.
Proof.
  intros Hnd Hs Hf Hc. apply chain_app. split; [|done]. by eapply seg_frame.
Qed.
End chains.

(** *** Tilings *)

Lemma total_app bs1 bs2 : total (bs1 ++ bs2) = total bs1 + total bs2.
Proof. induction bs1 as [|[sz st] bs1 IH]; cbn; [done|rewrite IH; lia]. Qed.

Lemma free_total_app bs1 bs2 : free_total (bs1 ++ bs2) = free_total bs1 + free_total bs2.
Proof. induction bs1 as [|[sz []] bs1 IH]; cbn; rewrite ?IH; lia. Qed.

Lemma frees_app a bs1 bs2 : frees a (bs1 ++ bs2) = frees a bs1 ++ frees (a + total bs1) bs2.
Proof.
  revert a; induction bs1 as [|[sz []] bs1 IH]; intros a; cbn;
    rewrite ?IH, ?Z.add_0_r, ?Z.add_assoc; done.
Qed.

Lemma total_nonneg bs : Forall size_ok bs -> 0 <= total bs.
Proof. induction 1 as [|[sz st] bs [??] _ IH]; cbn in *; lia. Qed.

Lemma total_mod8 bs : Forall size_ok bs -> total bs `mod` 8 = 0.
Proof.
  induction 1 as [|[sz st] bs [H ?] _ IH]; cbn in *; [done|].
  rewrite Z.add_mod, H, IH by lia. done.
Qed.

Lemma frees_range a bs x :
  Forall size_ok bs -> x ∈ frees a bs -> a <= x /\ x + 16 <= a + total bs /\ (x - a) `mod` 8 = 0.
Proof.
  intros Hs. revert a. induction Hs as [|[sz st] bs [H1 H2] Hs IH]; intros a Hx; cbn in *.
  - by apply not_elem_of_nil in Hx.
  - pose proof (total_nonneg _ Hs).
    assert (Hrest : x ∈ frees (a + sz) bs ->
      a <= x /\ x + 16 <= a + (sz + total bs) /\ (x - a) `mod` 8 = 0).
    { intros Hin. apply IH in Hin as (?&?&Hm). split_and!; [lia..|].
      replace (x - a) with ((x - (a + sz)) + sz) by lia.
      rewrite Z.add_mod, Hm, H1 by lia. done. }
    destruct st; [|by apply Hrest..].
    apply elem_of_cons in Hx as [->|Hx]; [|by apply Hrest].
    split_and!; [lia..|]. by rewrite Z.sub_diag.
Qed.

Lemma frees_NoDup a bs : Forall size_ok bs -> NoDup (frees a bs).
Proof.
  intros Hs. revert a. induction Hs as [|[sz st] bs [? ?] Hs IH]; intros a; cbn in *; [constructor|].
  destruct st; [|by apply IH..]. constructor; [|by apply IH].
  intros Hin. apply frees_range in Hin; [lia|done].
Qed.

Lemma frees_count a bs : Forall size_ok bs -> 16 * Z.of_nat (length (frees a bs)) <= total bs.
Proof.
  intros Hs. revert a. induction Hs as [|[sz st] bs [? ?] Hs IH]; intros a; cbn in *; [done|].
  specialize (IH (a + sz)). destruct st; cbn; lia.
Qed.

Lemma free_total_range bs : Forall size_ok bs -> 0 <= free_total bs <= total bs.
Proof. induction 1 as [|[sz []] bs [??] _ IH]; cbn in *; lia. Qed.


Lemma word_Some m w v : word m w = Some v -> load32 w m = Some v.
Proof. unfold word. by destruct (w `mod` 4 =? 0). Qed.

Lemma word_size m p v : word m (p + 4) = Some v -> xBlockSize p m = Some v.
Proof. apply word_Some. Qed.

Lemma word_next m p v : word m p = Some v -> pxNextFreeBlock p m = Some v.
Proof. apply word_Some. Qed.

(** *** The representation of a tiling *)

(** The size word of a block's header. *)
Definition size_word (sz : Z) (st : status) : Z :=
  match st with Alloc => sz + 2 ^ 31 | _ => sz end.

(** The headers of a tiling: an allocated block carries the top bit in its
    size and has a null next pointer. *)
Fixpoint hdrs (W : Z -> option Z) (a : Z) (bs : list block) : Prop :=
  match bs with
  | [] => True
  | (sz, st) :: bs' =>
      W (a + 4) = Some (size_word sz st) /\ (st = Alloc -> W a = Some 0) /\ hdrs W (a + sz) bs'
  end.

(** *** The allocated bit *)

Lemma land_high s : 0 <= s < 2 ^ 31 -> Z.land s heapBLOCK_ALLOCATED_BITMASK = 0.
Proof.
  intros Hs. apply Z.bits_inj'; intros i Hi. rewrite Z.land_spec, Z.bits_0.
  change heapBLOCK_ALLOCATED_BITMASK with (2 ^ 31). rewrite Z.pow2_bits_eqb by lia.
  destruct (Z.eqb_spec 31 i) as [<-|]; [|by rewrite andb_false_r].
  rewrite andb_true_r. apply Z.bits_above_log2; [lia|].
  destruct (decide (s = 0)) as [->|]; [done|]. apply Z.log2_lt_pow2; lia.
Qed.

Lemma lor_high s : 0 <= s < 2 ^ 31 -> Z.lor s heapBLOCK_ALLOCATED_BITMASK = s + 2 ^ 31.
Proof.
  intros Hs. pose proof (Z.add_lor_land s heapBLOCK_ALLOCATED_BITMASK) as H.
  rewrite land_high in H by done. change heapBLOCK_ALLOCATED_BITMASK with (2 ^ 31) in *. lia.
Qed.

Lemma land_marked s : 0 <= s < 2 ^ 31 ->
  Z.land (s + 2 ^ 31) heapBLOCK_ALLOCATED_BITMASK = 2 ^ 31.
Proof.
  intros Hs. rewrite <- lor_high by done. apply Z.bits_inj'; intros i _.
  change (2 ^ 31) with heapBLOCK_ALLOCATED_BITMASK.
  rewrite Z.land_spec, Z.lor_spec. by destruct (Z.testbit s i), (Z.testbit _ i).
Qed.

Lemma andnot_marked s : 0 <= s < 2 ^ 31 ->
  andnot32 (s + 2 ^ 31) heapBLOCK_ALLOCATED_BITMASK = s.
Proof.
  intros Hs. rewrite <- lor_high by done. unfold andnot32.
  change (Z.lxor (2 ^ 32 - 1) heapBLOCK_ALLOCATED_BITMASK) with (Z.ones 31).
  rewrite Z.land_ones by lia. rewrite lor_high by done.
  rewrite <- (Z.mul_1_l (2 ^ 31)), Z.mod_add by lia. apply Z.mod_small. lia.
Qed.

Section refinement.
Context (xStart : Z).

(** The tiling [bs] fits between [a] and [e], away from [xStart]. *)
Record geo (a : Z) (bs : list block) (e : Z) : Prop := {
  geo_sizes : Forall size_ok bs;
  geo_end : e = a + total bs;
  geo_align : a `mod` 8 = 0 /\ xStart `mod` 4 = 0;
  geo_pos : 0 < a /\ 0 <= xStart;
  geo_high : e + 8 <= 2 ^ 32 /\ xStart + 8 <= 2 ^ 32 /\ total bs < 2 ^ 31;
  geo_start : xStart + 8 <= a \/ e + 8 <= xStart
}.

Record heap_rep (m : mem) (a : Z) (bs : list block) (e : Z) : Prop := {
  hr_geo : geo a bs e;
  hr_hdrs : hdrs (word m) a bs;
  hr_chain : chain (word m) xStart (frees a bs) e;
  hr_start : word m (xStart + 4) = Some 0;
  hr_end : word m (e + 4) = Some 0 /\ word m e = Some 0;
  hr_map : mapped m xStart 8 /\ mapped m a (total bs + 8)
}.

Lemma hdrs_app W a bs1 bs2 : hdrs W a (bs1 ++ bs2) <-> hdrs W a bs1 /\ hdrs W (a + total bs1) bs2.
Proof.
  revert a; induction bs1 as [|[sz st] bs1 IH]; intros a; cbn.
  - rewrite Z.add_0_r. tauto.
  - rewrite IH, Z.add_assoc. tauto.
Qed.

(** Only a free block's next word may change under the headers. *)
Lemma hdrs_frame W W' a bs :
  Forall size_ok bs -> a `mod` 8 = 0 ->
  (forall w, a <= w < a + total bs -> w ∉ frees a bs -> W' w = W w) ->
  hdrs W a bs -> hdrs W' a bs.
Proof.
  intros Hs. revert a; induction Hs as [|[sz st] bs [H8 H16] Hs IH]; intros a Ha Hf; cbn in *; [done|].
  pose proof (total_nonneg _ Hs) as Hn. intros (H1&H2&H3). split_and!.
  - rewrite Hf; [done|lia|].
    assert (Hnin : a + 4 ∉ frees (a + sz) bs) by (intros Hin%frees_range; [lia|done]).
    destruct st; [apply not_elem_of_cons; split; [lia|done]|done..].
  - intros ->. rewrite Hf; [by apply H2|lia|]. intros Hin%frees_range; [lia|done].
  - apply IH; [|intros w Hw Hnin; apply Hf; [lia|]|done].
    + rewrite Z.add_mod, Ha, H8 by lia. done.
    + destruct st; [apply not_elem_of_cons; split; [lia|done]|done..].
Qed.

Lemma nextd_app F1 F2 q : nextd (F1 ++ F2) q = nextd F1 (nextd F2 q).
Proof. by destruct F1. Qed.

Lemma nextd_range a bs e :
  Forall size_ok bs -> e = a + total bs -> a <= nextd (frees a bs) e <= e.
Proof.
  intros Hs ->. pose proof (total_nonneg _ Hs).
  destruct (frees a bs) as [|x F] eqn:E; simpl; [lia|].
  assert (Hx : x ∈ frees a bs) by (rewrite E; left).
  apply frees_range in Hx; [lia|done].
Qed.

Lemma geo_replace a pre mid mid' post e :
  geo a (pre ++ mid ++ post) e -> Forall size_ok mid' -> total mid' = total mid ->
  geo a (pre ++ mid' ++ post) e.
Proof.
  intros [Hs He Ha Hp Hh Hst] Hm Ht. rewrite !total_app in *.
  split; rewrite ?total_app, ?Ht; try done.
  rewrite !Forall_app in *. tauto.
Qed.

(** Facts of arithmetic about a tiling, for [lia]. *)
Lemma geo_facts a pre mid post e :
  geo a (pre ++ mid ++ post) e ->
  Forall size_ok pre /\ Forall size_ok mid /\ Forall size_ok post /\
  0 <= total pre /\ 0 <= total mid /\ 0 <= total post /\
  total pre `mod` 8 = 0 /\ total mid `mod` 8 = 0 /\ total post `mod` 8 = 0 /\
  e = a + total pre + total mid + total post /\ a `mod` 8 = 0 /\
  0 < a /\ 0 <= xStart /\ e + 8 <= 2 ^ 32 /\ xStart + 8 <= 2 ^ 32 /\
  total pre + total mid + total post < 2 ^ 31 /\
  (xStart + 8 <= a \/ e + 8 <= xStart).
Proof.
  intros [Hs He Ha Hp Hh Hst]. rewrite !total_app in *.
  apply Forall_app in Hs as [H1 [H2 H3]%Forall_app].
  pose proof (total_nonneg _ H1). pose proof (total_nonneg _ H2). pose proof (total_nonneg _ H3).
  pose proof (total_mod8 _ H1). pose proof (total_mod8 _ H2). pose proof (total_mod8 _ H3).
  split_and!; try tauto; lia.
Qed.

(** The node of the free list before the block at the end of [pre]. *)
Definition before (a : Z) (pre : list block) : Z := lastd xStart (frees a pre).

Lemma before_cases a pre :
  Forall size_ok pre ->
  (before a pre = xStart /\ frees a pre = []) \/
  (before a pre ∈ frees a pre).
Proof.
  unfold before. destruct (frees a pre) as [|x F]; [by left|right].
  rewrite lastd_cons. apply lastd_in.
Qed.

(** The central lemma: a stretch [mid] of the tiling is replaced by [mid']
    of the same extent.  Memory may change inside of the stretch and in the
    link that leads to it; the links of the stretch must lead on to what
    follows. *)
Lemma rep_replace m m' a pre mid mid' post e :
  heap_rep m a (pre ++ mid ++ post) e ->
  Forall size_ok mid' -> total mid' = total mid ->
  (forall w, w <> before a pre -> ~ (a + total pre <= w < a + total pre + total mid) ->
     word m' w = word m w) ->
  (forall b k, mapped m b k -> mapped m' b k) ->
  hdrs (word m') (a + total pre) mid' ->
  chain (word m') (before a pre) (frees (a + total pre) mid')
    (nextd (frees (a + total pre + total mid) post) e) ->
  heap_rep m' a (pre ++ mid' ++ post) e.
Proof.
  intros [Hg Hh Hc Hst [He1 He2] [Hm1 Hm2]] Hs' Ht Hf Hmap Hh' Hc'.
  pose proof (geo_facts _ _ _ _ _ Hg) as
    (Hp&Hm&Hq&P1&P2&P3&Q1&Q2&Q3&Ee&Ha&Ha0&Hx0&B1&B2&B3&Hout).
  assert (Hbef : before a pre = xStart \/
    (a <= before a pre /\ before a pre + 16 <= a + total pre /\ (before a pre - a) `mod` 8 = 0)).
  { destruct (before_cases a pre Hp) as [[-> _]|Hin]; [by left|right].
    by apply frees_range in Hin. }
  rewrite !hdrs_app in Hh. destruct Hh as (Hh1&Hh2&Hh3).
  rewrite !frees_app in Hc. apply chain_app in Hc as [Hc1 Hc2].
  apply chain_app in Hc2 as [_ Hc3].
  assert (Hpost : forall w, w ∈ frees (a + total pre + total mid) post -> word m' w = word m w).
  { intros w Hw. apply frees_range in Hw as (?&?&_); [|done]. apply Hf; lia. }
  assert (Hend : word m' (e + 4) = word m (e + 4) /\ word m' e = word m e).
  { split; apply Hf; lia. }
  split.
  - by eapply geo_replace.
  - rewrite !hdrs_app, Ht. split_and!; [|done|].
    + apply hdrs_frame with (W := word m); [done..| |done]. intros w Hw Hnin.
      apply Hf; [|lia]. intros ->. destruct (before_cases a pre Hp) as [[E _]|?]; [lia|done].
    + apply hdrs_frame with (W := word m); [done| |intros w Hw _; apply Hf; lia|done].
      rewrite Z.add_mod, (Z.add_mod a), Ha, Q1, Q2 by lia. done.
  - rewrite !frees_app, Ht. apply chain_app. split.
    { apply seg_frame with (W := word m); [| |done].
      - constructor; [|by apply frees_NoDup]. intros Hin.
        apply frees_range in Hin; [lia|done].
      - intros w Hw Hne. apply Hf; [done|].
        apply elem_of_cons in Hw as [->|Hw]; [lia|]. apply frees_range in Hw; [lia|done]. }
    apply chain_app. split; [apply Hc'|]. destruct Hc' as [_ Hl].
    fold (before a pre) in *.
    destruct (frees (a + total pre + total mid) post) as [|x F] eqn:EF.
    + split; [done|]. done.
    + apply chain_cons. split; [done|]. apply chain_cons in Hc3 as [_ Hc3].
      apply chain_frame with (W := word m); [|done]. intros w Hw. by apply Hpost.
  - rewrite Hf; [done|intros E; destruct Hbef|]; lia.
  - destruct Hend as [-> ->]. done.
  - split; apply Hmap; [done|]. rewrite !total_app, Ht in *. done.
Qed.

(** Bytes that the free list may use: [xStart] and every block that the
    application does not own. *)
Fixpoint loose (a : Z) (bs : list block) (i : Z) : Prop :=
  match bs with
  | [] => False
  | (sz, st) :: bs' => (st <> Alloc /\ a <= i < a + sz) \/ loose (a + sz) bs' i
  end.

Definition touched (a : Z) (bs : list block) (i : Z) : Prop :=
  xStart <= i < xStart + 8 \/ loose a bs i.

Definition agree_but (P : Z -> Prop) (m m' : mem) : Prop :=
  forall i, ~ P i -> m' !! i = m !! i.

Lemma loose_app a bs1 bs2 i :
  loose a (bs1 ++ bs2) i <-> loose a bs1 i \/ loose (a + total bs1) bs2 i.
Proof.
  revert a; induction bs1 as [|[sz st] bs1 IH]; intros a; cbn.
  - rewrite Z.add_0_r. tauto.
  - rewrite IH, Z.add_assoc. tauto.
Qed.

Lemma loose_frees a bs x i :
  Forall size_ok bs -> x ∈ frees a bs -> x <= i < x + 16 -> loose a bs i.
Proof.
  intros Hs. revert a; induction Hs as [|[sz st] bs [H8 H16] Hs IH]; intros a; cbn in *.
  - by intros ?%not_elem_of_nil.
  - intros Hx Hi. destruct st; [apply elem_of_cons in Hx as [->|Hx]|..].
    + left. split; [done|lia].
    + right. by apply IH.
    + right. by apply IH.
    + right. by apply IH.
Qed.

(** Running a store of a word: its effect on the words. *)
Ltac store_word m' HW Hmap Hfr :=
  match goal with |- context [store32 ?x ?v ?m] =>
    let Hs := fresh in
    destruct (store32_word x v m) as (m'&Hs&HW&Hmap&Hfr);
      [..|rewrite Hs; cbn [mbind option_bind]; clear Hs]
  end.

Ltac load_word :=
  match goal with H : word ?m ?w = Some _ |- context [load32 ?w ?m] =>
    rewrite (word_Some m w _ H); cbn [mbind option_bind]
  end.

Lemma before_range a pre mid post e :
  geo a (pre ++ mid ++ post) e ->
  (before a pre = xStart \/
   (a <= before a pre /\ before a pre + 16 <= a + total pre)) /\
  before a pre `mod` 4 = 0 /\ 0 <= before a pre < 2 ^ 32.
Proof.
  intros Hg. pose proof (geo_align _ _ _ Hg) as [Ha Hx].
  pose proof (geo_facts _ _ _ _ _ Hg). destruct (before_cases a pre) as [[-> _]|Hin]; [tauto|split; [tauto|lia]|].
  apply frees_range in Hin as (?&?&?); [|tauto]. split_and!; [lia|dlia|lia|lia].
Qed.

Lemma before_touched a pre mid post e i :
  geo a (pre ++ mid ++ post) e -> before a pre <= i < before a pre + 8 ->
  touched a (pre ++ mid ++ post) i.
Proof.
  intros Hg Hi. pose proof (geo_facts _ _ _ _ _ Hg) as (Hp&_).
  destruct (before_cases a pre Hp) as [[E _]|Hin]; [left; lia|right].
  apply loose_app. left. apply loose_frees with (before a pre); [done..|lia].
Qed.

Lemma before_mapped m a pre mid post e :
  heap_rep m a (pre ++ mid ++ post) e -> mapped m (before a pre) 8.
Proof.
  intros H. destruct (before_range _ _ _ _ _ (hr_geo _ _ _ _ H)) as [[->|?] _]; [apply H|].
  destruct (hr_map _ _ _ _ H) as [_ Hm]. rewrite !total_app in Hm.
  pose proof (geo_facts _ _ _ _ _ (hr_geo _ _ _ _ H)).
  apply mapped_sub with (1 := Hm); lia.
Qed.

(** Once the stretch [mid] has the header of one free block, linking the
    node before to it makes it one. *)
Lemma link_spec m0 m a pre mid post e it :
  let q := a + total pre in
  heap_rep m0 a (pre ++ mid ++ post) e ->
  size_ok (total mid, Free) ->
  (forall w, ~ q <= w < q + total mid -> word m w = word m0 w) ->
  (forall b k, mapped m0 b k -> mapped m b k) ->
  word m (q + 4) = Some (total mid) ->
  word m q = Some (nextd (frees (q + total mid) post) e) ->
  (it = q /\ word m0 (before a pre) = Some q) \/ it = before a pre ->
  exists m', (if negb (it =? q) then set_next it q m else Some m) = Some m' /\
    heap_rep m' a (pre ++ [(total mid, Free)] ++ post) e /\
    agree_but (fun i => before a pre <= i < before a pre + 4) m m'.
Proof.
  intros q Hrep Hok Hf Hmap Hsz Hnx Hit. pose proof (hr_geo _ _ _ _ Hrep) as Hg.
  pose proof (geo_facts _ _ _ _ _ Hg) as Hfacts.
  destruct (before_range _ _ _ _ _ Hg) as (Hb1&Hb2&Hb3). destruct Hok as [Hok8 Hok16].
  cbn in Hok8, Hok16.
  assert (Hbq : before a pre <> q) by (subst q; lia).
  destruct Hit as [[-> Hbef]| ->].
  - rewrite Z.eqb_refl. exists m. split_and!; [done| |done].
    apply (rep_replace m0 m a pre mid [(total mid, Free)]);
      [done|repeat constructor; done|cbn; lia| |done|..].
    + intros w _ Hw. by apply Hf.
    + cbn. split_and!; done.
    + cbn. apply chain_cons. split; [|split; [done|]]; cycle 1.
      { exact Hnx. }
      rewrite Hf; [done|]. subst q; lia.
  - replace (before a pre =? q) with false by (symmetry; apply Z.eqb_neq; done). cbn.
    unfold set_next. destruct (store32_word (before a pre) q m) as (m'&Hs&HW&Hm'&Hfr);
      [|done|subst q; lia|].
    { apply Hmap. apply mapped_sub with (1 := before_mapped _ _ _ _ _ _ Hrep); lia. }
    exists m'. split_and!; [done| |done].
    apply (rep_replace m0 m' a pre mid [(total mid, Free)]);
      [done|repeat constructor; done|cbn; lia| |auto|..].
    + intros w Hne Hw. rewrite HW, decide_False by done. by apply Hf.
    + cbn. fold q. rewrite !HW, !decide_False; [done|subst q; lia..].
    + cbn. fold q. apply chain_cons. rewrite HW, decide_True by done. split; [done|].
      split; [done|]. cbn. by rewrite HW, decide_False.
Qed.

Lemma chain_before m a pre mid post e :
  heap_rep m a (pre ++ mid ++ post) e ->
  word m (before a pre) =
    Some (nextd (frees (a + total pre) mid) (nextd (frees (a + total pre + total mid) post) e)).
Proof.
  intros Hrep. pose proof (hr_chain _ _ _ _ Hrep) as Hc. rewrite !frees_app in Hc.
  apply chain_app in Hc as [_ Hc]. apply chain_head in Hc. by rewrite nextd_app in Hc.
Qed.

(** The right neighbour is joined exactly when it is free. *)
Lemma next_adjacent q tm post e :
  Forall size_ok post -> e = q + tm + total post ->
  (exists s post', post = (s, Free) :: post') \/
  (join_right tm post = (tm, post) /\
   (nextd (frees (q + tm) post) e = q + tm -> nextd (frees (q + tm) post) e = e)).
Proof.
  intros Hs He. destruct Hs as [|[s st] post [_ H16] Hs]; cbn in *; [right; split; [done|lia]|].
  pose proof (total_nonneg _ Hs). pose proof (nextd_range (q + tm + s) post e Hs ltac:(lia)).
  destruct st; [by left; eauto|right; split; [done|lia]..].
Qed.

(** The node after a free block of the tiling. *)
Lemma free_node m a pre s post e :
  heap_rep m a (pre ++ (s, Free) :: post) e ->
  word m (a + total pre + 4) = Some s /\
  word m (a + total pre) = Some (nextd (frees (a + total pre + s) post) e).
Proof.
  intros Hrep. pose proof (hr_hdrs _ _ _ _ Hrep) as Hh. apply hdrs_app in Hh as [_ [Hh _]].
  split; [done|]. pose proof (hr_chain _ _ _ _ Hrep) as Hc. rewrite frees_app in Hc. cbn in Hc.
  apply chain_app in Hc as [_ Hc]. apply chain_cons in Hc as [_ Hc]. by apply chain_head in Hc.
Qed.

(** What [join_next] needs: the stretch [mid] at [q] has the size word of one
    block, and the link of [it] leads to the next free block. *)
Record joinable (m0 m : mem) (a : Z) (pre mid post : list block) (e it : Z) : Prop := {
  jn_rep : heap_rep m0 a (pre ++ mid ++ post) e;
  jn_size : size_ok (total mid, Free);
  jn_frame : forall w, w <> a + total pre + 4 -> word m w = word m0 w;
  jn_map : forall b k, mapped m0 b k -> mapped m b k;
  jn_word : word m (a + total pre + 4) = Some (total mid);
  jn_next : word m it = Some (nextd (frees (a + total pre + total mid) post) e);
  jn_it : (it = a + total pre /\ word m0 (before a pre) = Some (a + total pre)) \/
          it = before a pre
}.

Section join.
Context (m0 m : mem) (a : Z) (pre mid post : list block) (e it : Z).
Hypothesis H : joinable m0 m a pre mid post e it.
Let q := a + total pre.
Let nx := nextd (frees (q + total mid) post) e.

Definition joined (m' : mem) : Prop :=
  heap_rep m' a (pre ++ merge_right (total mid) post) e /\
  agree_but (fun i => q <= i < q + 8 \/ before a pre <= i < before a pre + 4) m m'.

Lemma join_geo :
  q + total mid <= nx <= e /\ it <> q + 4 /\ q `mod` 8 = 0 /\ 0 < q /\
  e + 8 <= 2 ^ 32 /\ 16 <= total mid /\ total mid `mod` 8 = 0 /\ Forall size_ok post /\
  e = q + total mid + total post /\ total mid + total post < 2 ^ 31 /\
  mapped m q (total mid + total post + 8).
Proof using H.
  destruct H as [Hrep [Hok8 Hok16] Hf Hmap Hsz Hnx Hit]. pose proof (hr_geo _ _ _ _ Hrep) as Hg.
  pose proof (geo_facts _ _ _ _ _ Hg) as
    (Hp&Hm&Hq&P1&P2&P3&Q1&Q2&Q3&Ee&Ha&Ha0&Hx0&B1&B2&B3&Hout).
  destruct (hr_map _ _ _ _ Hrep) as [_ Hma]. rewrite !total_app in Hma.
  destruct (before_range _ _ _ _ _ Hg) as (Hb1&Hb2&Hb3). cbn in Hok8, Hok16.
  split_and!; try (subst q; first [done|lia|dlia]).
  - apply nextd_range; [done|subst q; lia].
  - apply nextd_range; [done|subst q; lia].
  - apply Hmap, mapped_sub with (1 := Hma); subst q; lia.
Qed.

(** The block after is free and is swallowed. *)
Lemma join_next_free s post' :
  post = (s, Free) :: post' -> exists m', join_next q it e m = Some m' /\ joined m'.
Proof using H.
  intros Hpost. pose proof join_geo as (Hn&Hitq&Hq8&Hq0&B1&B2&B3&Hok&Ee&B4&Hma).
  destruct H as [Hrep _ Hf Hmap Hsz Hnx Hit]. fold q in Hsz, Hnx, Hit, Hf. fold nx in Hnx.
  assert (Enx : nx = q + total mid) by (subst nx; by rewrite Hpost).
  assert (Hrep2 : heap_rep m0 a ((pre ++ mid) ++ (s, Free) :: post') e)
    by by rewrite <- app_assoc, <- Hpost.
  pose proof (free_node _ _ _ _ _ _ Hrep2) as [Hs4 Hsn].
  rewrite total_app, Z.add_assoc in Hs4, Hsn. fold q in Hs4, Hsn.
  rewrite Hpost in Hok. apply Forall_cons in Hok as [[Hs8 Hs16] Hok]. cbn in Hs8, Hs16.
  pose proof (total_nonneg _ Hok). assert (total post = s + total post') by by rewrite Hpost.
  rewrite <- Hf in Hs4, Hsn by lia. rewrite Enx in *.
  pose proof (nextd_range (q + total mid + s) post' e Hok ltac:(lia)) as Hnn.
  unfold join_next, xBlockSize, pxNextFreeBlock, set_size, set_next.
  repeat load_word. words. rewrite Z.eqb_refl, (proj2 (Z.eqb_neq _ e)) by lia. cbn [negb].
  repeat load_word. words.
  store_word m1 HW1 Hmap1 Hfr1; [apply mapped_sub with (1 := Hma); lia|dlia|lia|].
  rewrite (word_Some m1 it (q + total mid)) by by rewrite HW1, decide_False by lia.
  cbn [mbind option_bind].
  rewrite (word_Some m1 _ (nextd (frees (q + total mid + s) post') e))
    by by rewrite HW1, decide_False by lia.
  cbn [mbind option_bind].
  store_word m2 HW2 Hmap2 Hfr2; [apply Hmap1, mapped_sub with (1 := Hma); lia|dlia|lia|].
  assert (Htm : total (mid ++ [(s, Free)]) = total mid + s) by (rewrite total_app; cbn; lia).
  destruct (link_spec m0 m2 a pre (mid ++ [(s, Free)]) post' e it) as (m'&Hm'&Hr'&Ha').
  - rewrite <- app_assoc. cbn. by rewrite <- Hpost.
  - rewrite Htm. split; cbn; [dlia|lia].
  - rewrite Htm. intros w Hw. fold q in Hw. rewrite HW2, decide_False, HW1, decide_False by lia.
    apply Hf. lia.
  - auto.
  - rewrite HW2, decide_False, HW1, decide_True, Htm by lia. done.
  - rewrite HW2, decide_True by done. by rewrite Htm, Z.add_assoc.
  - done.
  - exists m'. split; [done|split].
    + rewrite Hpost. cbn. by rewrite <- Htm.
    + intros i Hi. rewrite Ha', Hfr2, Hfr1; [done|lia..].
Qed.

(** It is not: the block is linked to what follows. *)
Lemma join_next_else :
  (nx = q + total mid -> nx = e) -> join_right (total mid) post = (total mid, post) ->
  exists m', join_next q it e m = Some m' /\ joined m'.
Proof using H.
  intros Hadj Hjr. pose proof join_geo as (Hn&Hitq&Hq8&Hq0&B1&B2&B3&Hok&Ee&B4&Hma).
  destruct H as [Hrep Hsok Hf Hmap Hsz Hnx Hit]. fold q in Hsz, Hnx, Hit, Hf. fold nx in Hnx.
  pose proof (total_nonneg _ Hok).
  unfold join_next, xBlockSize, pxNextFreeBlock, set_size, set_next.
  repeat load_word. words.
  assert (Hst : exists m1, store32 q nx m = Some m1 /\
    (forall w, word m1 w = if decide (w = q) then Some nx else word m w) /\
    (forall b k, mapped m b k -> mapped m1 b k) /\
    (forall i, ~ q <= i < q + 4 -> m1 !! i = m !! i)).
  { apply store32_word; [apply mapped_sub with (1 := Hma); lia|dlia|lia]. }
  destruct Hst as (m1&Hs1&HW1&Hmap1&Hfr1).
  destruct (link_spec m0 m1 a pre mid post e it) as (m'&Hm'&Hr'&Ha'); try done.
  - intros w Hw. fold q in Hw. rewrite HW1, decide_False by lia. apply Hf. lia.
  - auto.
  - rewrite HW1, decide_False by lia. done.
  - rewrite HW1, decide_True by done. done.
  - exists m'. split; [|split].
    + destruct (Z.eqb_spec (q + total mid) nx) as [E|E]; [|by rewrite Hs1].
      pose proof (Hadj (eq_sym E)) as Ene. rewrite (proj2 (Z.eqb_eq _ _) Ene). cbn [negb].
      rewrite Ene in Hs1. by rewrite Hs1.
    + unfold merge_right. by rewrite Hjr.
    + intros i Hi. rewrite Ha', Hfr1; [done|lia..].
Qed.

Lemma join_next_spec : exists m', join_next q it e m = Some m' /\ joined m'.
Proof using H.
  pose proof join_geo as (Hn&_&_&Hq0&_&B2&_&Hok&Ee&_&_).
  destruct (next_adjacent q (total mid) post e Hok Ee) as [(s&post'&E)|[Hj Hadj]].
  - by eapply join_next_free.
  - by apply join_next_else.
Qed.
End join.
(** The block that the walk for an insertion stops at. *)
Lemma before_block a pre :
  (before a pre = xStart /\ frees a pre = []) \/
  exists pre1 s pre2, pre = pre1 ++ (s, Free) :: pre2 /\
    before a pre = a + total pre1 /\ frees (a + total pre1 + s) pre2 = [].
Proof.
  unfold before. induction pre as [|[s st] pre IH] using rev_ind; [by left|].
  rewrite frees_app. destruct st; cbn [frees].
  - right. exists pre, s, []. by rewrite lastd_snoc.
  - rewrite app_nil_r. destruct IH as [[? ?]|(p1&t&p2&->&?&?)]; [by left|right].
    exists p1, t, (p2 ++ [(s, Alloc)]). rewrite <- app_assoc.
    split_and!; [done..|]. rewrite frees_app. cbn. by rewrite app_nil_r.
  - rewrite app_nil_r. destruct IH as [[? ?]|(p1&t&p2&->&?&?)]; [by left|right].
    exists p1, t, (p2 ++ [(s, Limbo)]). rewrite <- app_assoc.
    split_and!; [done..|]. rewrite frees_app. cbn. by rewrite app_nil_r.
Qed.

Lemma find_insertion_spec m x q F1 F2 p fuel :
  chain (word m) p (F1 ++ F2) q -> Forall (fun y => y < x) F1 -> x <= nextd F2 q ->
  (length F1 < fuel)%nat -> find_insertion fuel p x m = Some (lastd p F1).
Proof.
  revert p F1; induction fuel as [|fuel IH]; intros p F1 Hc HF Hx Hlen; [lia|].
  pose proof (word_Some _ _ _ (chain_head _ _ _ _ Hc)) as Hn.
  cbn [find_insertion]. unfold pxNextFreeBlock. rewrite Hn. cbn [mbind option_bind].
  destruct HF as [|y F1 Hy HF]; cbn in *.
  - by rewrite (proj2 (Z.ltb_ge _ _)) by done.
  - rewrite (proj2 (Z.ltb_lt _ _)) by done. rewrite lastd_cons.
    apply chain_cons in Hc as [_ Hc]. apply IH; [done..|lia].
Qed.

Lemma frees_bounded a bs : Forall size_ok bs -> Forall (fun y => y < a + total bs) (frees a bs).
Proof. intros Hs. apply Forall_forall. intros y Hy%frees_range; [lia|done]. Qed.

Lemma join_left_none a pre sz :
  frees a pre = [] \/ (exists p1 b p2 c, pre = p1 ++ b :: p2 /\ frees c (b :: p2) = []) ->
  join_left pre sz = (pre, sz).
Proof.
  intros H. unfold join_left. destruct pre as [|[s st] pre _] using rev_ind; [done|].
  rewrite reverse_snoc. destruct st; [exfalso|done..].
  destruct H as [H|(p1&b&p2&k&E&H)].
  - rewrite frees_app in H. by destruct (frees a pre).
  - destruct p2 as [|c p2 _] using rev_ind.
    + apply app_inj_tail in E as [-> <-]. done.
    + change (b :: p2 ++ [c]) with ((b :: p2) ++ [c]) in *. rewrite app_assoc in E.
      apply app_inj_tail in E as [-> <-]. rewrite frees_app in H.
      by destruct (frees k (b :: p2)).
Qed.

(** Inserting without a join to the left, and with one. *)
Lemma insert_apart m a pre sz post e :
  heap_rep m a (pre ++ [(sz, Limbo)] ++ post) e ->
  exists m', join_next (a + total pre) (before a pre) e m = Some m' /\
    heap_rep m' a (pre ++ merge_right sz post) e /\
    agree_but (touched a (pre ++ [(sz, Limbo)] ++ post)) m m'.
Proof.
  intros Hrep. pose proof (hr_geo _ _ _ _ Hrep) as Hg.
  pose proof (geo_facts _ _ _ _ _ Hg) as (_&Hm&_). apply Forall_cons in Hm as [Hsz _].
  pose proof (hr_hdrs _ _ _ _ Hrep) as Hh. apply hdrs_app in Hh as [_ [Hh _]].
  pose proof (chain_before _ _ _ _ _ _ Hrep) as Hb.
  assert (Et : total [(sz, Limbo)] = sz) by (cbn; lia).
  destruct (join_next_spec m m a pre [(sz, Limbo)] post e (before a pre)) as (m'&Hj&Hr&Ha).
  { split; rewrite ?Et; try done; [by rewrite Et in Hb|by right]. }
  rewrite Et in Hr. exists m'. split_and!; [done..|]. intros i Hi. apply Ha. intros [Hq|Hbi]; apply Hi.
  - right. apply loose_app. right. left. split; [done|]. destruct Hsz; cbn in *; lia.
  - eapply before_touched; [exact Hg|lia].
Qed.

Lemma insert_joined m a pre1 s sz post e :
  heap_rep m a (pre1 ++ [(s, Free); (sz, Limbo)] ++ post) e ->
  let q := a + total pre1 in
  exists m', (m1 ← set_size q (u32 (s + sz)) m; join_next q q e m1) = Some m' /\
    heap_rep m' a (pre1 ++ merge_right (s + sz) post) e /\
    agree_but (touched a (pre1 ++ [(s, Free); (sz, Limbo)] ++ post)) m m'.
Proof.
  intros Hrep q. pose proof (hr_geo _ _ _ _ Hrep) as Hg.
  pose proof (geo_facts _ _ _ _ _ Hg) as
    (Hp&Hm&Hq&P1&P2&P3&Q1&Q2&Q3&Ee&Ha&Ha0&Hx0&B1&B2&B3&Hout).
  assert (Et : total [(s, Free); (sz, Limbo)] = s + sz) by (cbn; lia). rewrite Et in *.
  apply Forall_cons in Hm as [[_ Hs16] Hm]. apply Forall_cons in Hm as [[_ Hsz16] _].
  cbn in Hs16, Hsz16.
  destruct (hr_map _ _ _ _ Hrep) as [_ Hma]. rewrite !total_app in Hma.
  unfold set_size. words.
  store_word m1 HW1 Hmap1 Hfr1;
    [apply mapped_sub with (1 := Hma); subst q; lia|subst q; dlia|lia|].
  destruct (free_node _ _ _ _ _ _ Hrep) as [_ Hn]. fold q in Hn. cbn [frees] in Hn.
  pose proof (chain_before _ _ _ _ _ _ Hrep) as Hb. cbn [frees nextd] in Hb. fold q in Hb.
  destruct (join_next_spec m m1 a pre1 [(s, Free); (sz, Limbo)] post e q) as (m'&Hj&Hr&Ha').
  { split; rewrite ?Et; fold q; auto.
    - split; cbn; [dlia|lia].
    - intros w Hw. by rewrite HW1, decide_False.
    - by rewrite HW1, decide_True.
    - rewrite HW1, decide_False by lia. by rewrite Hn, Z.add_assoc. }
  rewrite Et in Hr. exists m'. split_and!; [done..|]. intros i Hi.
  assert (Hl : ~ q <= i < q + 8).
  { intros Hqi. apply Hi. right. apply loose_app. right. left. split; [done|subst q; lia]. }
  rewrite Ha', Hfr1; [done|lia|]. intros [?|Hbi]; [done|]. apply Hi.
  eapply before_touched; [exact Hg|lia].
Qed.

(** What [prvInsertBlockIntoFreeList] does to the tiling: the block in limbo
    becomes free and is merged with its free neighbours. *)
Lemma prvInsert_spec cfg h a pre sz post :
  heap_rep (memory h) a (pre ++ [(sz, Limbo)] ++ post) (pxEnd h) ->
  total pre + sz + total post <= cfg ->
  exists m', prvInsertBlockIntoFreeList cfg xStart (a + total pre) h = Some (with_memory m' h) /\
    heap_rep m' a (merge pre sz post) (pxEnd h) /\
    agree_but (touched a (pre ++ [(sz, Limbo)] ++ post)) (memory h) m'.
Proof.
  intros Hrep Hcfg. pose proof (hr_geo _ _ _ _ Hrep) as Hg.
  pose proof (geo_facts _ _ _ _ _ Hg) as
    (Hp&Hm&Hq&P1&P2&P3&Q1&Q2&Q3&Ee&Ha&Ha0&Hx0&B1&B2&B3&Hout).
  cbn [total] in *. apply Forall_cons in Hm as [[Hm8 Hm16] _]. cbn in Hm8, Hm16.
  unfold prvInsertBlockIntoFreeList. cbv zeta.
  rewrite (find_insertion_spec (memory h) _ (pxEnd h) (frees a pre) (frees (a + total pre + sz) post)); cycle 1.
  { pose proof (hr_chain _ _ _ _ Hrep) as Hc. by rewrite frees_app in Hc. }
  { by apply frees_bounded. }
  { pose proof (nextd_range (a + total pre + sz) post (pxEnd h) Hq ltac:(lia)). lia. }
  { pose proof (frees_count a _ Hp). unfold walk_fuel. dlia. }
  cbn [mbind option_bind]. fold (before a pre).
  destruct (before_block a pre) as [[Eb Ef]|(pre1&s&pre2&Epre&Eb&Ef)].
  - (* nothing free before *)
    rewrite Eb, (word_size _ _ _ (hr_start _ _ _ _ Hrep)).
    cbn [mbind option_bind]. words. rewrite (proj2 (Z.eqb_neq _ _)) by lia. rewrite <- Eb.
    destruct (insert_apart _ _ _ _ _ _ Hrep) as (m'&->&Hr&Ha').
    exists m'. split_and!; [done| |done]. unfold merge.
    rewrite (join_left_none a) by (by left). done.
  - subst pre. rewrite <- app_assoc in Hrep. cbn [app] in Hrep.
    destruct (free_node _ _ _ _ _ _ Hrep) as [Hs4 _].
    rewrite Eb, (word_size _ _ _ Hs4). cbn [mbind option_bind].
    apply Forall_app in Hp as [Hp1 Hp2]. apply Forall_cons in Hp2 as [[_ Hs16] Hp2].
    pose proof (total_nonneg _ Hp1).
    rewrite total_app in *. cbn in Hs16. cbn [total] in *.
    destruct pre2 as [|[bz bt] pre2].
    + cbn [total app] in *. words. rewrite (proj2 (Z.eqb_eq _ _)) by lia.
      pose proof (hr_hdrs _ _ _ _ Hrep) as Hh. apply hdrs_app in Hh as (_&_&_&Hh&_).
      rewrite Z.add_assoc, Z.add_0_r, (word_size _ _ _ Hh). cbn [mbind option_bind].
      destruct (insert_joined _ _ _ _ _ _ _ Hrep) as (m'&Hj&Hr&Ha').
      cbn [size_word]. rewrite Hj.
      exists m'. split_and!; [done| |].
      * unfold merge, join_left. by rewrite reverse_snoc, reverse_involutive.
      * by rewrite <- app_assoc.
    + pose proof (total_nonneg _ Hp2) as Hpn.
      apply Forall_cons in Hp2 as [[_ Hb] Hp2]. pose proof (total_nonneg _ Hp2).
      cbn in Hb. cbn [total] in *.
      rewrite u32_small, (proj2 (Z.eqb_neq _ _)) by lia.
      rewrite app_comm_cons, app_assoc in Hrep.
      destruct (insert_apart _ _ _ _ _ _ Hrep) as (m'&Hj&Hr&Ha').
      rewrite total_app, Eb in Hj. cbn [total] in Hj. rewrite Hj.
      exists m'. split_and!; [done| |done].
      unfold merge. rewrite (join_left_none a); [done|]. right.
      exists (pre1 ++ [(s, Free)]), (bz, bt), pre2, (a + total pre1 + s). split; [|done].
      by rewrite <- app_assoc.
Qed.
(** *** Finding a block *)

Lemma first_fit_Some want bs pre sz post :
  first_fit want bs = Some (pre, sz, post) -> bs = pre ++ (sz, Free) :: post /\ want <= sz.
Proof.
  revert pre; induction bs as [|[s st] bs IH]; intros pre; cbn [first_fit]; [done|].
  destruct (decide (st = Free /\ want <= s)) as [[-> ?]|_]; [by intros [= <- <- <-]|].
  destruct (first_fit want bs) as [[[p1 t] p2]|]; cbn; [|done].
  intros [= <- <- <-]. by destruct (IH p1) as [-> ?].
Qed.

Lemma nextd_pos m a pre rest e :
  heap_rep m a (pre ++ rest) e -> nextd (frees (a + total pre) rest) e <> 0.
Proof.
  intros Hrep. pose proof (hr_geo _ _ _ _ Hrep) as Hg.
  pose proof (geo_facts a pre [] rest e Hg) as Hf. cbn in Hf.
  pose proof (nextd_range (a + total pre) rest e ltac:(tauto) ltac:(lia)). lia.
Qed.

Lemma before_skip a pre sz st : st <> Free -> before a (pre ++ [(sz, st)]) = before a pre.
Proof. intros Hst. unfold before. rewrite frees_app. destruct st; [done|..]; by rewrite app_nil_r. Qed.

Lemma before_free a pre sz : before a (pre ++ [(sz, Free)]) = a + total pre.
Proof. unfold before. rewrite frees_app. apply lastd_snoc. Qed.

Lemma find_fit_spec m a e want rest pre fuel :
  heap_rep m a (pre ++ rest) e -> 0 < want ->
  (length (frees (a + total pre) rest) < fuel)%nat ->
  exists prev,
    find_fit fuel (before a pre) (nextd (frees (a + total pre) rest) e) want m =
      Some (prev, match first_fit want rest with
                  | Some (p1, _, _) => a + total (pre ++ p1)
                  | None => e
                  end) /\
    (forall p1 sz p2, first_fit want rest = Some (p1, sz, p2) -> prev = before a (pre ++ p1)).
Proof.
  revert pre fuel; induction rest as [|[sz st] rest IH]; intros pre fuel Hrep Hw Hfuel.
  - destruct fuel as [|fuel]; [cbn in Hfuel; lia|]. destruct (hr_end _ _ _ _ Hrep) as [H4 H0].
    exists (before a pre). cbn [frees nextd find_fit first_fit].
    rewrite (word_size _ _ _ H4), (word_next _ _ _ H0). cbn. by rewrite andb_false_r.
  - assert (Hrep' : heap_rep m a ((pre ++ [(sz, st)]) ++ rest) e) by by rewrite <- app_assoc.
    assert (Et : a + total (pre ++ [(sz, st)]) = a + total pre + sz)
      by (rewrite total_app; cbn; lia).
    specialize (IH (pre ++ [(sz, st)])). rewrite Et in IH.
    cbn [first_fit]. destruct (decide (st = Free /\ want <= sz)) as [[-> Hle]|Hno].
    + destruct (free_node _ _ _ _ _ _ Hrep) as [H4 H0].
      destruct fuel as [|fuel]; [cbn in Hfuel; lia|]. cbn [frees nextd find_fit].
      rewrite (word_size _ _ _ H4), (word_next _ _ _ H0). cbn [mbind option_bind].
      rewrite (proj2 (Z.ltb_ge _ _)) by done. cbn [andb].
      exists (before a pre). rewrite app_nil_r. split; [done|].
      intros ??? [= <- <- <-]. by rewrite app_nil_r.
    + destruct (decide (st = Free)) as [->|Hst].
      * destruct (free_node _ _ _ _ _ _ Hrep) as [H4 H0].
        destruct fuel as [|fuel]; [cbn in Hfuel; lia|]. cbn [frees nextd find_fit length] in *.
        rewrite (word_size _ _ _ H4), (word_next _ _ _ H0). cbn [mbind option_bind].
        rewrite (proj2 (Z.ltb_lt _ _)) by (apply Znot_ge_lt; intros ?; apply Hno; split; [done|lia]).
        pose proof (nextd_pos _ _ _ _ _ Hrep') as Hnz. rewrite Et in Hnz.
        rewrite (proj2 (Z.eqb_neq _ _)) by done. cbn [andb negb].
        destruct (IH fuel Hrep' Hw ltac:(lia)) as (prev&Hff&Hp). rewrite before_free in Hff.
        exists prev. rewrite Hff.
        destruct (first_fit want rest) as [[[p1 t] p2]|]; cbn.
        -- rewrite <- app_assoc. split; [done|]. intros ??? [= <- <- <-].
           rewrite (Hp p1 t p2) by done. by rewrite <- app_assoc.
        -- done.
      * assert (Efr : frees (a + total pre) ((sz, st) :: rest) = frees (a + total pre + sz) rest)
          by by destruct st. rewrite Efr in *.
        destruct (IH fuel Hrep' Hw Hfuel) as (prev&Hff&Hp). rewrite before_skip in Hff by done.
        exists prev. rewrite Hff.
        destruct (first_fit want rest) as [[[p1 t] p2]|]; cbn.
        -- rewrite <- app_assoc. split; [done|]. intros ??? [= <- <- <-].
           rewrite (Hp p1 t p2) by done. by rewrite <- app_assoc.
        -- done.
Qed.
(** *** The steps of an allocation *)

Lemma rep_block m a pre sz st post e :
  heap_rep m a (pre ++ (sz, st) :: post) e ->
  sz `mod` 8 = 0 /\ 16 <= sz < 2 ^ 31 /\ mapped m (a + total pre) (sz + total post + 8) /\
  0 < a + total pre /\ (a + total pre) `mod` 8 = 0 /\ 0 <= total post /\
  e = a + total pre + sz + total post /\ e + 8 <= 2 ^ 32 /\
  word m (a + total pre + 4) = Some (size_word sz st) /\
  before a pre <> a + total pre /\ before a pre <> a + total pre + 4 /\
  (before a pre < a + total pre \/ e <= before a pre).
Proof.
  intros Hrep. pose proof (hr_geo _ _ _ _ Hrep) as Hg. change ((sz, st) :: post) with ([(sz, st)] ++ post) in *.
  pose proof (before_range _ _ _ _ _ Hg) as (Hb&_).
  apply geo_facts in Hg as (Hp&Hm&Hq&P1&P2&P3&Q1&Q2&Q3&Ee&Ha&Ha0&Hx0&B1&B2&B3&Hout).
  apply Forall_cons in Hm as [[H8 H16] _]. cbn in H8, H16. cbn [total] in *.
  destruct (hr_map _ _ _ _ Hrep) as [_ Hma]. rewrite !total_app in Hma. cbn [total] in Hma.
  pose proof (hr_hdrs _ _ _ _ Hrep) as Hh. apply hdrs_app in Hh as (_&Hh&_).
  split_and!; try done; try lia; [apply mapped_sub with (1 := Hma); lia|dlia].
Qed.

Lemma unlink_spec m a pre sz post e :
  heap_rep m a (pre ++ (sz, Free) :: post) e ->
  exists m', set_next (before a pre) (nextd (frees (a + total pre + sz) post) e) m = Some m' /\
    heap_rep m' a (pre ++ (sz, Limbo) :: post) e /\
    agree_but (fun i => before a pre <= i < before a pre + 4) m m'.
Proof.
  intros Hrep. pose proof (rep_block _ _ _ _ _ _ _ Hrep) as (H8&H16&_&Hq&Hq8&Hpn&Ee&Hhi&Hsz&Hn1&Hn2&_).
  pose proof (hr_geo _ _ _ _ Hrep) as Hg.
  change ((sz, Free) :: post) with ([(sz, Free)] ++ post) in *.
  destruct (before_range _ _ _ _ _ Hg) as (_&Hb2&Hb3).
  pose proof (geo_facts _ _ _ _ _ Hg) as (_&_&Hpo&_).
  pose proof (nextd_range (a + total pre + sz) post e Hpo Ee) as Hn.
  unfold set_next. store_word m' HW Hmap Hfr.
  { apply mapped_sub with (1 := before_mapped _ _ _ _ _ _ Hrep); lia. } { done. } { lia. }
  exists m'. split_and!; [done| |done].
  apply (rep_replace m m' a pre [(sz, Free)] [(sz, Limbo)]); try done.
  - repeat constructor; [done|cbn; lia].
  - intros w Hw _. by rewrite HW, decide_False.
  - cbn. rewrite HW, decide_False by done. done.
  - cbn. split; [done|]. cbn. rewrite HW, decide_True by done. by rewrite Z.add_0_r.
Qed.

Lemma split_spec m a pre sz w post e :
  heap_rep m a (pre ++ (sz, Limbo) :: post) e ->
  w `mod` 8 = 0 -> 16 <= w -> 16 <= sz - w ->
  let q := a + total pre in
  exists m', (m1 ← set_size (q + w) (sz - w) m; set_size q w m1) = Some m' /\
    heap_rep m' a (pre ++ (w, Limbo) :: (sz - w, Limbo) :: post) e /\
    agree_but (fun i => q <= i < q + sz) m m'.
Proof.
  intros Hrep Hw8 Hw16 Hr q.
  pose proof (rep_block _ _ _ _ _ _ _ Hrep) as (H8&H16&Hma&Hq&Hq8&Hpn&Ee&Hhi&Hsz&Hn1&Hn2&Hn3).
  pose proof (chain_before m a pre [(sz, Limbo)] post e Hrep) as Hb. cbn in Hb.
  fold q in Hma, Hq, Hq8, Ee, Hsz, Hn1, Hn2, Hn3, Hb.
  unfold set_size. store_word m1 HW1 Hmap1 Hfr1;
    [apply mapped_sub with (1 := Hma); lia|dlia|lia|].
  store_word m2 HW2 Hmap2 Hfr2; [apply Hmap1, mapped_sub with (1 := Hma); lia|dlia|lia|].
  exists m2. split_and!; [done| |intros i Hi; rewrite Hfr2, Hfr1; [done|lia..]].
  apply (rep_replace m m2 a pre [(sz, Limbo)] [(w, Limbo); (sz - w, Limbo)]).
  - done.
  - repeat constructor; cbn; [done|lia|dlia|lia].
  - cbn. lia.
  - cbn [total]. fold q. intros x Hx Hr'. rewrite HW2, decide_False, HW1, decide_False by lia. done.
  - auto.
  - cbn. fold q. split_and!; [by rewrite HW2, decide_True|done| |done..].
    rewrite HW2, decide_False, HW1, decide_True by lia. done.
  - split; [done|]. cbn. fold q. rewrite HW2, decide_False, HW1, decide_False by lia. done.
Qed.

Lemma mark_spec m a pre sz post e :
  heap_rep m a (pre ++ (sz, Limbo) :: post) e ->
  let q := a + total pre in
  exists m', (m1 ← heapALLOCATE_BLOCK q m; set_next q 0 m1) = Some m' /\
    heap_rep m' a (pre ++ (sz, Alloc) :: post) e /\
    agree_but (fun i => q <= i < q + 8) m m'.
Proof.
  intros Hrep q.
  pose proof (rep_block _ _ _ _ _ _ _ Hrep) as (H8&H16&Hma&Hq&Hq8&Hpn&Ee&Hhi&Hsz&Hn1&Hn2&Hn3).
  pose proof (chain_before m a pre [(sz, Limbo)] post e Hrep) as Hb. cbn in Hb.
  fold q in Hma, Hq, Hq8, Ee, Hsz, Hn1, Hn2, Hn3, Hb.
  unfold heapALLOCATE_BLOCK. rewrite (word_size _ _ _ Hsz). cbn [mbind option_bind size_word].
  rewrite lor_high by lia. unfold set_size, set_next.
  store_word m1 HW1 Hmap1 Hfr1; [apply mapped_sub with (1 := Hma); lia|dlia|lia|].
  store_word m2 HW2 Hmap2 Hfr2; [apply Hmap1, mapped_sub with (1 := Hma); lia|dlia|lia|].
  exists m2. split_and!; [done| |intros i Hi; rewrite Hfr2, Hfr1; [done|lia..]].
  apply (rep_replace m m2 a pre [(sz, Limbo)] [(sz, Alloc)]).
  - done.
  - repeat constructor; cbn; [done|lia].
  - done.
  - cbn [total]. fold q. intros x Hx Hr'. rewrite HW2, decide_False, HW1, decide_False by lia. done.
  - auto.
  - cbn. fold q. rewrite HW2, decide_False, HW1, decide_True by lia.
    rewrite HW2, decide_True by done. done.
  - split; [done|]. cbn. fold q. rewrite HW2, decide_False, HW1, decide_False by lia. done.
Qed.

Lemma unmark_spec m a pre sz post e :
  heap_rep m a (pre ++ (sz, Alloc) :: post) e ->
  let q := a + total pre in
  exists m', heapFREE_BLOCK q m = Some m' /\
    heap_rep m' a (pre ++ (sz, Limbo) :: post) e /\
    agree_but (fun i => q <= i < q + 8) m m'.
Proof.
  intros Hrep q.
  pose proof (rep_block _ _ _ _ _ _ _ Hrep) as (H8&H16&Hma&Hq&Hq8&Hpn&Ee&Hhi&Hsz&Hn1&Hn2&Hn3).
  pose proof (chain_before m a pre [(sz, Alloc)] post e Hrep) as Hb. cbn in Hb.
  fold q in Hma, Hq, Hq8, Ee, Hsz, Hn1, Hn2, Hn3, Hb.
  unfold heapFREE_BLOCK. rewrite (word_size _ _ _ Hsz). cbn [mbind option_bind size_word].
  rewrite andnot_marked by lia. unfold set_size.
  store_word m1 HW1 Hmap1 Hfr1; [apply mapped_sub with (1 := Hma); lia|dlia|lia|].
  exists m1. split_and!; [done| |intros i Hi; rewrite Hfr1; [done|lia..]].
  apply (rep_replace m m1 a pre [(sz, Alloc)] [(sz, Limbo)]).
  - done.
  - repeat constructor; cbn; [done|lia].
  - done.
  - cbn [total]. fold q. intros x Hx Hr'. rewrite HW1, decide_False by lia. done.
  - auto.
  - cbn. fold q. rewrite HW1, decide_True by done. done.
  - split; [done|]. cbn. fold q. rewrite HW1, decide_False by lia. done.
Qed.
(** *** Frames *)

Lemma agree_trans (P : Z -> Prop) m1 m2 m3 :
  agree_but P m1 m2 -> agree_but P m2 m3 -> agree_but P m1 m3.
Proof. intros H1 H2 i Hi. by rewrite H2, H1. Qed.

Lemma agree_weaken (P Q : Z -> Prop) m1 m2 :
  agree_but P m1 m2 -> (forall i, P i -> Q i) -> agree_but Q m1 m2.
Proof. intros H1 H2 i Hi. apply H1. auto. Qed.

Lemma loose_block a pre sz st post i :
  st <> Alloc -> a + total pre <= i < a + total pre + sz ->
  touched a (pre ++ (sz, st) :: post) i.
Proof. intros Hst Hi. right. apply loose_app. right. by left. Qed.

Lemma touched_split a pre sz st w post i :
  st <> Alloc -> 0 <= w <= sz ->
  touched a ((pre ++ [(w, Limbo)]) ++ [(sz - w, Limbo)] ++ post) i ->
  touched a (pre ++ (sz, st) :: post) i.
Proof.
  intros Hst Hw [?|Hi]; [by left|right]. rewrite <- app_assoc in Hi. cbn [app] in Hi.
  apply loose_app in Hi. apply loose_app. destruct Hi as [?|[[_ ?]|[[_ ?]|Hi]]]; [by left|right..].
  - left. split; [done|lia].
  - left. split; [done|lia].
  - right. by replace (a + total pre + sz) with (a + total pre + w + (sz - w)) by lia.
Qed.

Definition starts_free (bs : list block) : bool :=
  match bs with (_, Free) :: _ => true | _ => false end.

Lemma join_right_none sz post : starts_free post = false -> join_right sz post = (sz, post).
Proof. by destruct post as [|[s [| |]] post]. Qed.

Definition carved (sz want : Z) : Z := if 16 <? sz - want then want else sz.

(** The first part of taking a block: out of the list, cut to size. *)
(** The alignment checks. *)
Lemma aligned x : x `mod` 8 = 0 -> asserts (Z.land x portBYTE_ALIGNMENT_MASK =? 0) = Some tt.
Proof. intros Hx. change portBYTE_ALIGNMENT_MASK with (Z.ones 3). rewrite Z.land_ones by lia. change (2 ^ 3) with 8. by rewrite Hx. Qed.

Lemma cut_spec cfg h a pre sz post want m1 :
  heap_rep m1 a (pre ++ (sz, Limbo) :: post) (pxEnd h) ->
  starts_free post = false -> total pre + sz + total post <= cfg ->
  want `mod` 8 = 0 -> 16 <= want <= sz ->
  let q := a + total pre in
  exists m', (if 16 <? sz - want then
                _ ← asserts (Z.land (q + want) portBYTE_ALIGNMENT_MASK =? 0);
                m ← set_size (q + want) (sz - want) m1;
                m ← set_size q want m;
                prvInsertBlockIntoFreeList cfg xStart (q + want) (with_memory m h)
              else Some (with_memory m1 h)) = Some (with_memory m' h) /\
    heap_rep m' a (pre ++ (carved sz want, Limbo) ::
                     (if 16 <? sz - want then [(sz - want, Free)] else []) ++ post) (pxEnd h) /\
    agree_but (touched a (pre ++ (sz, Limbo) :: post)) m1 m'.
Proof.
  intros Hrep Hsf Hcfg Hw8 Hw16 q. unfold carved.
  destruct (Z.ltb_spec 16 (sz - want)) as [Hlt|Hge]; [|by exists m1].
  pose proof (rep_block _ _ _ _ _ _ _ Hrep) as (H8&_&_&_&Hq8&_). fold q in Hq8.
  rewrite aligned by (rewrite Z.add_mod, Hq8, Hw8 by lia; done). cbn [mbind option_bind].
  destruct (split_spec _ _ _ _ want _ _ Hrep) as (m2&Hs&Hr2&Ha2); [lia..|]. fold q in Hs.
  destruct (set_size (q + want) (sz - want) m1) as [m1'|]; [|done].
  cbn [mbind option_bind] in *. rewrite Hs. cbn [mbind option_bind].
  destruct (prvInsert_spec cfg (with_memory m2 h) a (pre ++ [(want, Limbo)]) (sz - want) post)
    as (m3&Hi&Hr3&Ha3).
  { rewrite <- app_assoc. exact Hr2. } { rewrite total_app. cbn. lia. }
  replace (q + want) with (a + total (pre ++ [(want, Limbo)])) by (rewrite total_app; cbn; lia).
  exists m3. rewrite Hi. split_and!; [done| |].
  - unfold merge, merge_right in Hr3.
    rewrite (join_left_none a), (join_right_none _ _ Hsf) in Hr3; [by rewrite <- app_assoc in Hr3|].
    right. by exists pre, (want, Limbo), [], 0.
  - eapply agree_trans.
    + apply agree_weaken with (1 := Ha2). intros i ?. by apply loose_block.
    + apply agree_weaken with (1 := Ha3). intros i. apply touched_split; [done|lia].
Qed.

Lemma take_block_spec cfg h a pre sz post want :
  heap_rep (memory h) a (pre ++ (sz, Free) :: post) (pxEnd h) ->
  starts_free post = false -> total pre + sz + total post <= cfg ->
  want `mod` 8 = 0 -> 16 <= want <= sz ->
  let free := u32 (xFreeBytesRemaining h - carved sz want) in
  exists m', take_block cfg xStart (before a pre) (a + total pre) want h =
      Some (a + total pre + 8,
        mkHeap m' (pxEnd h) free
          (if free <? xMinimumEverFreeBytesRemaining h then free
           else xMinimumEverFreeBytesRemaining h)
          (u32 (xNumberOfSuccessfulAllocations h + 1)) (xNumberOfSuccessfulFrees h)) /\
    heap_rep m' a (pre ++ carve sz want ++ post) (pxEnd h) /\
    agree_but (touched a (pre ++ (sz, Free) :: post)) (memory h) m'.
Proof.
  intros Hrep Hsf Hcfg Hw8 Hw16 free.
  pose proof (rep_block _ _ _ _ _ _ _ Hrep) as (H8&H16&Hma&Hq&Hq8&Hpn&Ee&Hhi&Hsz&Hn1&Hn2&Hn3).
  pose proof (chain_before (memory h) a pre [(sz, Free)] post _ Hrep) as Hb. cbn in Hb.
  destruct (free_node _ _ _ _ _ _ Hrep) as [_ Hn].
  destruct (unlink_spec _ _ _ _ _ _ Hrep) as (m1&Hs1&Hr1&Ha1).
  pose proof (rep_block _ _ _ _ _ _ _ Hr1) as (_&_&_&_&_&_&_&_&Hsz1&_).
  destruct (cut_spec cfg h a pre sz post want m1 Hr1 Hsf Hcfg Hw8 Hw16) as (m2&Hs2&Hr2&Ha2).
  pose proof (rep_block _ _ _ _ _ _ _ Hr2) as (_&_&_&_&_&_&_&_&Hsz2&_).
  destruct (mark_spec _ _ _ _ _ _ Hr2) as (m3&Hs3&Hr3&Ha3).
  exists m3. split_and!.
  - unfold take_block. cbv zeta. rewrite (word_next _ _ _ Hb), (word_next _ _ _ Hn).
    cbn [mbind option_bind]. rewrite Hs1. cbn [mbind option_bind].
    rewrite (word_size _ _ _ Hsz1). cbn [mbind option_bind size_word].
    change heapMINIMUM_BLOCK_SIZE with 16. change xHeapStructSize with 8. words.
    rewrite Hs2. cbn [mbind option_bind memory with_memory pxEnd].
    rewrite (word_size _ _ _ Hsz2). cbn [mbind option_bind size_word].
    destruct (heapALLOCATE_BLOCK (a + total pre) m2) as [m2'|]; [|done].
    cbn [mbind option_bind] in *. rewrite Hs3. done.
  - unfold carve. unfold carved in Hr3. by destruct (16 <? sz - want).
  - eapply agree_trans; [|eapply agree_trans].
    + apply agree_weaken with (1 := Ha1). intros i Hi.
      eapply before_touched with (mid := [(sz, Free)]); [apply Hrep|lia].
    + apply agree_weaken with (1 := Ha2). intros i [?|Hi]; [by left|right].
      apply loose_app in Hi. apply loose_app. destruct Hi as [?|[[_ ?]|?]]; [by left|right..].
      * by left.
      * by right.
    + apply agree_weaken with (1 := Ha3). intros i Hi. apply loose_block; [done|lia].
Qed.
(** *** Coalescing *)

Definition ends_free (bs : list block) : bool := starts_free (reverse bs).

Lemma ends_free_snoc bs sz st :
  ends_free (bs ++ [(sz, st)]) = match st with Free => true | _ => false end.
Proof. unfold ends_free. by rewrite reverse_snoc. Qed.

Lemma coalesced_cons sz st bs :
  coalesced ((sz, st) :: bs) <-> (st = Free -> starts_free bs = false) /\ coalesced bs.
Proof.
  destruct st, bs as [|[s []] bs]; cbn; naive_solver.
Qed.

Lemma coalesced_app bs1 bs2 :
  coalesced (bs1 ++ bs2) <->
  coalesced bs1 /\ coalesced bs2 /\ (ends_free bs1 = true -> starts_free bs2 = false).
Proof.
  induction bs1 as [|[s st] bs1 IH]; [cbn; naive_solver|].
  cbn [app]. rewrite !coalesced_cons, IH.
  destruct bs1 as [|b bs1 _] using rev_ind.
  - change (ends_free [(s, st)]) with (starts_free [(s, st)]).
    cbn [app ends_free reverse]. destruct st; cbn; naive_solver.
  - destruct b as [t stt]. rewrite app_comm_cons, !ends_free_snoc.
    assert (E : starts_free ((bs1 ++ [(t, stt)]) ++ bs2) = starts_free (bs1 ++ [(t, stt)]))
      by by destruct bs1. rewrite E. tauto.
Qed.

Lemma coalesced_carve pre sz want post :
  coalesced (pre ++ (sz, Free) :: post) -> coalesced (pre ++ carve sz want ++ post).
Proof.
  rewrite !(coalesced_app pre). intros (H1&[H2 H3]%coalesced_cons&_). unfold carve.
  split_and!; [done| |by destruct (16 <? sz - want)].
  destruct (16 <? sz - want); cbn [app]; rewrite !coalesced_cons; naive_solver.
Qed.

Lemma join_left_coalesced pre sz :
  coalesced pre -> coalesced (join_left pre sz).1 /\ ends_free (join_left pre sz).1 = false.
Proof.
  intros H. unfold join_left. destruct pre as [|[s st] pre _] using rev_ind; [done|].
  rewrite reverse_snoc. destruct st; cbn [fst].
  - apply coalesced_app in H as (H1&_&H2). rewrite reverse_involutive.
    split; [done|]. destruct (ends_free pre); [by apply H2|done].
  - by rewrite ends_free_snoc.
  - by rewrite ends_free_snoc.
Qed.

Lemma join_right_coalesced sz post :
  coalesced post -> coalesced (join_right sz post).2 /\ starts_free (join_right sz post).2 = false.
Proof.
  destruct post as [|[s [| |]] post]; cbn [join_right snd]; try done.
  rewrite coalesced_cons. naive_solver.
Qed.

Lemma coalesced_merge pre sz post :
  coalesced pre -> coalesced post -> coalesced (merge pre sz post).
Proof.
  intros Hl Hr. unfold merge, merge_right.
  destruct (join_left_coalesced pre sz Hl) as [Hl1 Hl2]. destruct (join_left pre sz) as [pre' s1].
  destruct (join_right_coalesced s1 post Hr) as [Hr1 Hr2]. destruct (join_right s1 post) as [s2 post'].
  cbn in *. apply coalesced_app. rewrite coalesced_cons, Hl2. done.
Qed.

(** Totals of the operations on tilings. *)
Lemma carve_total sz want :
  total (carve sz want) = sz /\ free_total (carve sz want) = sz - carved sz want.
Proof. unfold carve, carved. destruct (16 <? sz - want); cbn; lia. Qed.

Lemma merge_total pre sz post :
  total (merge pre sz post) = total pre + sz + total post /\
  free_total (merge pre sz post) = free_total pre + sz + free_total post.
Proof.
  unfold merge, merge_right.
  assert (Hl : total (join_left pre sz).1 + (join_left pre sz).2 = total pre + sz /\
               free_total (join_left pre sz).1 + (join_left pre sz).2 = free_total pre + sz).
  { unfold join_left. destruct pre as [|[s st] pre _] using rev_ind; [done|].
    rewrite reverse_snoc. destruct st; cbn; rewrite ?reverse_involutive, total_app, free_total_app; cbn; lia. }
  destruct (join_left pre sz) as [pre' s1]. cbn in Hl.
  destruct post as [|[s [| |]] post]; cbn; rewrite total_app, free_total_app; cbn; lia.
Qed.

Lemma settled_app bs1 bs2 : settled (bs1 ++ bs2) <-> settled bs1 /\ settled bs2.
Proof. apply Forall_app. Qed.

Lemma settled_merge pre sz post : settled pre -> settled post -> settled (merge pre sz post).
Proof.
  intros Hl Hr. unfold merge, merge_right, settled in *.
  assert (Hl' : Forall (fun b : block => b.2 <> Limbo) (join_left pre sz).1).
  { unfold join_left. destruct pre as [|[s st] pre _] using rev_ind; [done|].
    rewrite reverse_snoc. apply Forall_app in Hl as [Hl1 Hl2].
    destruct st; cbn; rewrite ?reverse_involutive; [done|by apply Forall_app..]. }
  destruct (join_left pre sz) as [pre' s1]. cbn in Hl'.
  destruct post as [|[s [| |]] post]; cbn; apply Forall_app; split; try done;
    constructor; try done; by inversion Hr.
Qed.

(** *** The invariant of the heap between two calls *)
Record heap_inv (cfg : Z) (h : heap) (a : Z) (bs : list block) : Prop := {
  inv_rep : heap_rep (memory h) a bs (pxEnd h);
  inv_settled : settled bs;
  inv_coalesced : coalesced bs;
  inv_free : xFreeBytesRemaining h = free_total bs;
  inv_least : 0 <= xMinimumEverFreeBytesRemaining h <= xFreeBytesRemaining h;
  inv_total : total bs <= cfg
}.

Lemma adjusted_size_spec want :
  0 <= want < 2 ^ 32 ->
  adjusted_size want = 0 \/
  (0 < want /\ adjusted_size want `mod` 8 = 0 /\ 16 <= adjusted_size want < 2 ^ 32 /\
   want + 8 < adjusted_size want <= want + 16).
Proof.
  intros Hw. unfold adjusted_size, heapADD_WILL_OVERFLOW, heapSIZE_MAX.
  change xHeapStructSize with 8. change portBYTE_ALIGNMENT with 8.
  change portBYTE_ALIGNMENT_MASK with (Z.ones 3). rewrite Z.land_ones by lia.
  change (2 ^ 3) with 8. pose proof (Z.mod_pos_bound want 8 ltac:(lia)).
  destruct (Z.ltb_spec 0 want) as [Hpos|]; [|left; lia]. words.
  destruct (Z.ltb_spec (2 ^ 32 - 1 - (8 + 8 - want `mod` 8)) want); [by left|right].
  words. split_and!; first [lia|dlia].
Qed.

(** A size that the free bytes cover never has the top bit. *)
Lemma valid_size want : 0 <= want < 2 ^ 31 -> heapBLOCK_SIZE_IS_VALID want = true.
Proof. intros H. unfold heapBLOCK_SIZE_IS_VALID. by rewrite land_high. Qed.

Lemma first_fit_free want bs pre sz post :
  Forall size_ok bs -> first_fit want bs = Some (pre, sz, post) -> want <= free_total bs.
Proof.
  intros Hs [-> Hle]%first_fit_Some. rewrite free_total_app. cbn.
  apply Forall_app in Hs as [H1 H2]. apply Forall_cons in H2 as [_ H2].
  pose proof (free_total_range _ H1). pose proof (free_total_range _ H2). lia.
Qed.

(** The heap after an allocation of [want] bytes (header included). *)
Definition after_malloc (m' : mem) (got : Z) (h : heap) : heap :=
  let free := xFreeBytesRemaining h - got in
  mkHeap m' (pxEnd h) free (Z.min free (xMinimumEverFreeBytesRemaining h))
    (u32 (xNumberOfSuccessfulAllocations h + 1)) (xNumberOfSuccessfulFrees h).

Lemma inv_geo cfg h a bs :
  heap_inv cfg h a bs -> Forall size_ok bs /\ 0 <= free_total bs <= total bs /\ total bs < 2 ^ 31 /\
    pxEnd h = a + total bs /\ 0 < a.
Proof.
  intros Hinv. destruct (hr_geo _ _ _ _ (inv_rep _ _ _ _ Hinv)) as [Hs He Ha Hp Hh _].
  split_and!; try done; try lia; apply (free_total_range _ Hs).
Qed.

Lemma min_if x y : (if x <? y then x else y) = Z.min x y.
Proof. destruct (Z.ltb_spec x y); lia. Qed.

(** The whole of [pvPortMalloc], up to the failure hook, against first fit. *)
Lemma malloc_body_spec cfg ucHeap h a bs want :
  heap_inv cfg h a bs -> 0 <= want < 2 ^ 32 ->
  match amalloc want bs with
  | Some (off, bs') =>
      exists m' got, malloc_body ucHeap cfg xStart want h = Some (a + off + 8, after_malloc m' got h) /\
        heap_inv cfg (after_malloc m' got h) a bs' /\ agree_but (touched a bs) (memory h) m'
  | None => malloc_body ucHeap cfg xStart want h = Some (0, h)
  end.
Proof.
  intros Hinv Hw. pose proof (inv_geo _ _ _ _ Hinv) as (Hs&Hft&Ht&He&Ha).
  destruct Hinv as [Hrep Hset Hco Hfree Hleast Hcfg].
  unfold amalloc, malloc_body. rewrite (proj2 (Z.eqb_neq (pxEnd h) 0)) by (pose proof (total_nonneg _ Hs); lia).
  cbn [mbind option_bind]. cbv zeta.
  destruct (adjusted_size_spec want Hw) as [->|(Hpos&H8&H16&Hrange)]; [done|].
  generalize dependent (adjusted_size want); intros w H8 H16 Hrange.
  rewrite (proj2 (Z.eqb_neq w 0)), (proj2 (Z.ltb_lt 0 w)) by lia. cbn [andb].
  rewrite Hfree. destruct (Z.leb_spec w (free_total bs)) as [Hle|Hgt]; cycle 1.
  { rewrite andb_false_r. destruct (first_fit w bs) as [[[p1 s] p2]|] eqn:E; [|done].
    apply first_fit_free in E; [lia|done]. }
  rewrite valid_size by lia. cbn [andb].
  pose proof (hr_chain _ _ _ _ Hrep) as Hc. rewrite (word_next _ _ _ (chain_head _ _ _ _ Hc)).
  cbn [mbind option_bind].
  destruct (find_fit_spec (memory h) a (pxEnd h) w bs [] (walk_fuel cfg) Hrep ltac:(lia))
    as (prev&Hff&Hprev).
  { pose proof (frees_count (a + total []) bs Hs). unfold walk_fuel. dlia. }
  cbn [total before frees] in Hff. rewrite Z.add_0_r in Hff.
  change (before a []) with xStart in Hff. rewrite Hff. cbn [mbind option_bind app].
  destruct (first_fit w bs) as [[[pre sz] post]|] eqn:Eff; cbn [mbind option_bind];
    [|by rewrite Z.eqb_refl].
  rewrite (Hprev _ _ _ eq_refl). apply first_fit_Some in Eff as [-> Hsz].
  pose proof (rep_block _ _ _ _ _ _ _ Hrep) as (_&_&_&_&_&Hpn&Ee&_).
  rewrite (proj2 (Z.eqb_neq _ _)) by lia. cbn [negb].
  pose proof (proj1 (coalesced_app _ _) Hco) as (_&[Hsf _]%coalesced_cons&_).
  rewrite total_app in Hcfg. cbn [total] in Hcfg.
  destruct (take_block_spec cfg h a pre sz post w Hrep (Hsf eq_refl) ltac:(lia) H8 ltac:(lia))
    as (m'&Hm'&Hr'&Ha').
  assert (Hcv : 0 <= carved sz w <= sz) by (unfold carved; destruct (16 <? sz - w); lia).
  rewrite free_total_app in Hfree, Hft. cbn [free_total] in Hfree, Hft.
  apply Forall_app in Hs as [Hs1 Hs2]. apply Forall_cons in Hs2 as [_ Hs2].
  pose proof (free_total_range _ Hs1). pose proof (free_total_range _ Hs2).
  exists m', (carved sz w). cbn [app]. rewrite Hm', u32_small, min_if by lia.
  split_and!; [done| |done]. unfold after_malloc.
  split; cbn [memory pxEnd xFreeBytesRemaining xMinimumEverFreeBytesRemaining].
  - done.
  - apply settled_app in Hset as [Hset1 Hset2]. apply Forall_cons in Hset2 as [_ Hset2].
    apply settled_app. split; [done|]. apply settled_app. split; [|done].
    unfold carve. destruct (16 <? sz - w); repeat constructor; done.
  - by apply coalesced_carve.
  - rewrite !free_total_app. destruct (carve_total sz w) as [_ ->]. lia.
  - lia.
  - rewrite !total_app. destruct (carve_total sz w) as [-> _]. lia.
Qed.
Definition after_free (m' : mem) (sz : Z) (h : heap) : heap :=
  mkHeap m' (pxEnd h) (xFreeBytesRemaining h + sz) (xMinimumEverFreeBytesRemaining h)
    (xNumberOfSuccessfulAllocations h) (u32 (xNumberOfSuccessfulFrees h + 1)).

Lemma alloc_node m a pre sz post e :
  heap_rep m a (pre ++ (sz, Alloc) :: post) e -> word m (a + total pre) = Some 0.
Proof.
  intros Hrep. pose proof (hr_hdrs _ _ _ _ Hrep) as Hh. apply hdrs_app in Hh as (_&_&Hh&_). auto.
Qed.

Lemma free_spec cfg h a pre sz post :
  heap_inv cfg h a (pre ++ (sz, Alloc) :: post) ->
  exists m', vPortFree cfg xStart (a + total pre + 8) h = Some (after_free m' sz h) /\
    heap_inv cfg (after_free m' sz h) a (merge pre sz post) /\
    agree_but (touched a (pre ++ (sz, Limbo) :: post)) (memory h) m'.
Proof.
  intros Hinv. pose proof (inv_geo _ _ _ _ Hinv) as (Hs&Hft&Ht&He&Ha).
  destruct Hinv as [Hrep Hset Hco Hfree Hleast Hcfg].
  pose proof (rep_block _ _ _ _ _ _ _ Hrep) as (H8&H16&_&Hq&Hq8&Hpn&Ee&Hhi&Hsz&_).
  destruct (unmark_spec _ _ _ _ _ _ Hrep) as (m1&Hs1&Hr1&Ha1).
  pose proof (rep_block _ _ _ _ _ _ _ Hr1) as (_&_&_&_&_&_&_&_&Hsz1&_).
  rewrite total_app in Hcfg. cbn [total] in Hcfg.
  destruct (prvInsert_spec cfg (mkHeap m1 (pxEnd h) (xFreeBytesRemaining h + sz)
     (xMinimumEverFreeBytesRemaining h) (xNumberOfSuccessfulAllocations h)
     (xNumberOfSuccessfulFrees h)) a pre sz post Hr1 ltac:(lia)) as (m'&Hi&Hr&Ha').
  rewrite free_total_app, total_app in Hft. cbn [free_total total] in Hft.
  rewrite free_total_app in Hfree. cbn [free_total] in Hfree.
  destruct (merge_total pre sz post) as [Et Ef].
  apply settled_app in Hset as [Hset1 Hset2]. apply Forall_cons in Hset2 as [_ Hset2].
  apply coalesced_app in Hco as (Hco1&[_ Hco2]%coalesced_cons&_).
  rewrite total_app in Ht. cbn [total] in Ht.
  apply Forall_app in Hs as [Hs1' Hs2']. apply Forall_cons in Hs2' as [_ Hs2'].
  pose proof (free_total_range _ Hs1'). pose proof (free_total_range _ Hs2').
  exists m'. split_and!.
  - unfold vPortFree. rewrite (proj2 (Z.eqb_neq _ _)) by lia. cbn [negb].
    change xHeapStructSize with 8. cbv zeta.
    replace (u32 (a + total pre + 8 - 8)) with (a + total pre) by (rewrite u32_small; lia).
    unfold heapBLOCK_IS_ALLOCATED. rewrite (word_size _ _ _ Hsz). cbn [fmap option_fmap option_map size_word mbind option_bind].
    rewrite land_marked by lia. change (negb (2 ^ 31 =? 0)) with true. cbn [asserts mbind option_bind].
    rewrite (word_next _ _ _ (alloc_node _ _ _ _ _ _ Hrep)). cbn [asserts mbind option_bind Z.eqb].
    rewrite Hs1. cbn [mbind option_bind]. rewrite (word_size _ _ _ Hsz1). cbn [mbind option_bind size_word].
    words. rewrite Hi. done.
  - split; cbn [memory after_free pxEnd xFreeBytesRemaining xMinimumEverFreeBytesRemaining].
    + exact Hr.
    + by apply settled_merge.
    + by apply coalesced_merge.
    + lia.
    + lia.
    + lia.
  - eapply agree_trans; [apply agree_weaken with (1 := Ha1)|exact Ha'].
    intros i Hi'. apply loose_block; [done|lia].
Qed.

(** *** Initialisation *)

(** What the linker promises about the heap's arrays. *)
Record linked (ucHeap cfg : Z) (m : mem) : Prop := {
  lk_heap : 0 < ucHeap /\ 64 <= cfg < 2 ^ 31 /\ ucHeap + cfg < 2 ^ 32;
  lk_start : 0 <= xStart /\ xStart `mod` 4 = 0 /\ xStart + 8 <= 2 ^ 32;
  lk_apart : xStart + 8 <= ucHeap \/ ucHeap + cfg <= xStart;
  lk_map : mapped m xStart 8 /\ mapped m ucHeap cfg
}.

Definition heap_base (ucHeap : Z) : Z := (ucHeap + 7) / 8 * 8.
Definition heap_top (ucHeap cfg : Z) : Z := (ucHeap + cfg - 8) / 8 * 8.

Lemma andnot_align x : 0 <= x < 2 ^ 32 -> andnot32 x portBYTE_ALIGNMENT_MASK = x / 8 * 8.
Proof.
  intros Hx. unfold andnot32. change portBYTE_ALIGNMENT_MASK with (Z.ones 3).
  replace (Z.land x (Z.lxor (2 ^ 32 - 1) (Z.ones 3))) with (Z.ldiff x (Z.ones 3)).
  - rewrite Z.ldiff_ones_r, Z.shiftl_mul_pow2, Z.shiftr_div_pow2 by lia. done.
  - apply Z.bits_inj'; intros i Hi. rewrite Z.ldiff_spec, Z.land_spec, Z.lxor_spec.
    change (2 ^ 32 - 1) with (Z.ones 32). rewrite !Z.testbit_ones_nonneg by lia.
    destruct (Z.ltb_spec i 32); [by destruct (i <? 3)|].
    assert (Hb : Z.testbit x i = false); [|by rewrite Hb].
    destruct (decide (x = 0)) as [->|]; [apply Z.bits_0|].
    apply Z.bits_above_log2; [lia|]. assert (Z.log2 x < 32) by (apply Z.log2_lt_pow2; lia). lia.
Qed.

Lemma init_spec ucHeap cfg h :
  linked ucHeap cfg (memory h) ->
  let a := heap_base ucHeap in
  let e := heap_top ucHeap cfg in
  exists m', prvHeapInit ucHeap cfg xStart h =
      Some (mkHeap m' e (e - a) (e - a) (xNumberOfSuccessfulAllocations h)
              (xNumberOfSuccessfulFrees h)) /\
    heap_rep m' a [(e - a, Free)] e.
Proof.
  intros [(U1&U2&U3) (X1&X2&X3) Hap [Mx Mh]] a e.
  assert (Hae : ucHeap <= a /\ a <= ucHeap + 7 /\ a `mod` 8 = 0 /\ e `mod` 8 = 0 /\
                e + 8 <= ucHeap + cfg /\ a + 32 <= e) by (subst a e; unfold heap_base, heap_top; dlia).
  destruct Hae as (A1&A2&A3&E1&E2&E3). unfold prvHeapInit.
  assert (Ea : (if negb (Z.land ucHeap portBYTE_ALIGNMENT_MASK =? 0)
                then andnot32 (u32 (ucHeap + (portBYTE_ALIGNMENT - 1))) portBYTE_ALIGNMENT_MASK
                else ucHeap) = a).
  { change portBYTE_ALIGNMENT_MASK with (Z.ones 3) at 1. rewrite Z.land_ones by lia.
    change (2 ^ 3) with 8. change (portBYTE_ALIGNMENT - 1) with 7. subst a. unfold heap_base.
    destruct (Z.eqb_spec (ucHeap `mod` 8) 0); cbn [negb]; [dlia|]. words. rewrite andnot_align; lia. }
  rewrite Ea. cbv zeta.
  assert (Es : (if negb (Z.land ucHeap portBYTE_ALIGNMENT_MASK =? 0)
                then u32 (cfg - u32 (a - ucHeap)) else cfg) = cfg - (a - ucHeap)).
  { change portBYTE_ALIGNMENT_MASK with (Z.ones 3) at 1. rewrite Z.land_ones by lia.
    change (2 ^ 3) with 8.
    destruct (Z.eqb_spec (ucHeap `mod` 8) 0); cbn [negb]; [subst a; unfold heap_base; dlia|].
    by words. }
  rewrite Es. change xHeapStructSize with 8.
  replace (andnot32 (u32 (u32 (a + (cfg - (a - ucHeap))) - 8)) portBYTE_ALIGNMENT_MASK) with e; cycle 1.
  { words. rewrite andnot_align by lia. subst e. unfold heap_top. f_equal. f_equal. lia. }
  unfold set_next, set_size, xBlockSize. words.
  store_word m1 W1 K1 F1; [apply mapped_sub with (1 := Mx); lia|done|lia|].
  store_word m2 W2 K2 F2; [apply K1, mapped_sub with (1 := Mx); lia|dlia|lia|].
  store_word m3 W3 K3 F3; [apply K2, K1, mapped_sub with (1 := Mh); lia|dlia|lia|].
  store_word m4 W4 K4 F4; [apply K3, K2, K1, mapped_sub with (1 := Mh); lia|dlia|lia|].
  store_word m5 W5 K5 F5; [apply K4, K3, K2, K1, mapped_sub with (1 := Mh); lia|dlia|lia|].
  store_word m6 W6 K6 F6; [apply K5, K4, K3, K2, K1, mapped_sub with (1 := Mh); lia|dlia|lia|].
  assert (HW : forall w, word m6 w =
    if decide (w = a) then Some e else if decide (w = a + 4) then Some (e - a) else
    if decide (w = e) then Some 0 else if decide (w = e + 4) then Some 0 else
    if decide (w = xStart + 4) then Some 0 else if decide (w = xStart) then Some a else
    word (memory h) w) by (intros w; by rewrite W6, W5, W4, W3, W2, W1).
  rewrite (word_Some m6 (a + 4) (e - a))
    by (rewrite HW; repeat (destruct (decide _); [first [done|lia]|]); lia).
  exists m6. split; [done|].
  assert (Hsz : size_ok (e - a, Free)) by (split; cbn; [dlia|lia]).
  split.
  - split; cbn [total]; first [by apply Forall_singleton|lia].
  - cbn. rewrite HW. split_and!; [|done..].
    repeat (destruct (decide _); [first [done|lia]|]); lia.
  - apply chain_cons. rewrite HW. split.
    + repeat (destruct (decide _); [first [done|lia]|]). lia.
    + split; [done|]. cbn. rewrite HW. repeat (destruct (decide _); [first [done|lia]|]). lia.
  - rewrite HW. repeat (destruct (decide _); [first [done|lia]|]). lia.
  - rewrite !HW. split; repeat (destruct (decide _); [first [done|lia]|]); lia.
  - split; [apply K6, K5, K4, K3, K2, K1; done|].
    apply K6, K5, K4, K3, K2, K1, mapped_sub with (1 := Mh); cbn; lia.
Qed.

Lemma init_inv ucHeap cfg h :
  linked ucHeap cfg (memory h) ->
  exists h', prvHeapInit ucHeap cfg xStart h = Some h' /\
    heap_inv cfg h' (heap_base ucHeap) [(heap_top ucHeap cfg - heap_base ucHeap, Free)].
Proof.
  intros Hl. destruct (init_spec _ _ _ Hl) as (m'&Hi&Hr). eexists. split; [exact Hi|].
  destruct Hl as [(U1&U2&U3) _ _ _].
  split; cbn; first [done|lia|by apply Forall_singleton|unfold heap_base, heap_top in *; dlia].
Qed.
(** *** The application's writes *)

(** The bytes that an allocated block gives to the application. *)
Fixpoint payload (a : Z) (bs : list block) (i : Z) : Prop :=
  match bs with
  | [] => False
  | (sz, st) :: bs' => (st = Alloc /\ a + 8 <= i < a + sz) \/ payload (a + sz) bs' i
  end.

Lemma payload_range a bs i :
  Forall size_ok bs -> payload a bs i -> a + 8 <= i < a + total bs /\ ~ loose a bs i.
Proof.
  intros Hs. revert a. induction Hs as [|[sz st] bs [_ H16] Hs IH]; intros a; cbn in *; [done|].
  pose proof (total_nonneg _ Hs).
  assert (Hge : forall b, loose b bs i -> b <= i).
  { clear -Hs. intros b. revert b. induction Hs as [|[t u] bs [_ H2] _ IH]; intros b; cbn in *; [done|].
    intros [[_ ?]|Hl%IH]; lia. }
  intros [[-> Hi]|Hp].
  - split; [lia|]. intros [[? _]|Hl%Hge]; [done|lia].
  - apply IH in Hp as [Hr Hn]. split; [lia|]. intros [[_ ?]|?]; [lia|done].
Qed.

Lemma word_agree (P : Z -> Prop) m m' w :
  agree_but P m m' -> (forall i, w <= i < w + 4 -> ~ P i) -> word m' w = word m w.
Proof.
  intros Ha Hn. unfold word. destruct (w `mod` 4 =? 0); [|done].
  apply load32_frame. intros i Hi. apply Ha, Hn, Hi.
Qed.

Lemma hdrs_payload m m' a bs :
  Forall size_ok bs ->
  (forall i, a <= i < a + total bs -> ~ payload a bs i -> m' !! i = m !! i) ->
  hdrs (word m) a bs -> hdrs (word m') a bs.
Proof.
  intros Hs. revert a. induction Hs as [|[sz st] bs [_ H16] Hs IH]; intros a; cbn in *; [done|].
  pose proof (total_nonneg _ Hs). intros Hf (H1&H2&H3).
  assert (Hw : forall w, a <= w <= a + 4 -> word m' w = word m w).
  { intros w Hw. apply (word_agree (fun i => ~ a <= i < a + 8)); [|lia].
    intros i Hi. apply Hf; [lia|]. intros [[_ ?]|Hp%payload_range]; [lia| |done].
    destruct Hp; lia. }
  split_and!; [by rewrite Hw by lia|intros ->; rewrite Hw by lia; by apply H2|].
  apply IH; [|done]. intros i Hi Hn. apply Hf; [lia|]. intros [[_ ?]|?]; [lia|done].
Qed.

(** Writes into allocated blocks keep the representation. *)
Lemma rep_payload m m' a bs e :
  heap_rep m a bs e -> agree_but (payload a bs) m m' ->
  (forall b k, mapped m b k -> mapped m' b k) -> heap_rep m' a bs e.
Proof.
  intros [Hg Hh Hc Hst [He1 He2] [Hm1 Hm2]] Ha Hmap.
  pose proof Hg as [Hs He _ _ _ Hout].
  assert (Hw : forall w, (w + 4 <= a \/ e <= w) -> word m' w = word m w).
  { intros w Hw. apply (word_agree _ _ _ _ Ha). intros i Hi [Hp _]%payload_range; [lia|done]. }
  split; auto.
  - apply (hdrs_payload m); [done| |done]. auto.
  - apply chain_frame with (W := word m); [|done].
    intros w [->|Hin]%elem_of_cons; [apply Hw; lia|].
    apply (word_agree _ _ _ _ Ha). intros i Hi Hp. apply payload_range in Hp as [_ Hp]; [|done].
    apply Hp. apply loose_frees with w; [done..|lia].
  - rewrite Hw by lia. done.
  - rewrite !Hw by lia. done.
Qed.
End refinement.
