(* ===== verification/Heap4Proofs.v ===== *)
(** * Properties of the kernel heap

    The theorems about heap_4.c: initialisation, allocation and release
    against the abstract heap of [Heap4Rep], safety of the memory that is
    handed out, the round trip, the statistics, and the invariant of every
    sequence of calls. *)
From S2P Require Import Prelude Mem Heap4 Heap4Rep.
Open Scope Z_scope.

(** Addresses and sizes of the allocated blocks of a tiling. *)
Fixpoint allocs (a : Z) (bs : list block) : list (Z * Z) :=
  match bs with
  | [] => []
  | (sz, Alloc) :: bs' => (a, sz) :: allocs (a + sz) bs'
  | (sz, _) :: bs' => allocs (a + sz) bs'
  end.

Fixpoint free_sizes (bs : list block) : list Z :=
  match bs with
  | [] => []
  | (sz, Free) :: bs' => sz :: free_sizes bs'
  | _ :: bs' => free_sizes bs'
  end.

(** A program's use of the heap: the heap and the pointers it owns, with the
    sizes it asked for. *)
Record session := mkSession { the_heap : heap; live : list (Z * Z) }.

Section sessions.
Context (ucHeap cfg xStart : Z).

Inductive heap_step : session -> session -> Prop :=
| step_malloc s n p h :
    0 <= n < 2 ^ 32 ->
    pvPortMalloc ucHeap cfg xStart n (the_heap s) = Some (Allocated p, h) ->
    heap_step s (mkSession h ((p, n) :: live s))
| step_free s p n l1 l2 h :
    live s = l1 ++ (p, n) :: l2 ->
    vPortFree cfg xStart p (the_heap s) = Some h ->
    heap_step s (mkSession h (l1 ++ l2))
| step_write s p n i v m :
    (p, n) ∈ live s -> p <= i < p + n ->
    store8 i v (memory (the_heap s)) = Some m ->
    heap_step s (mkSession (with_memory m (the_heap s)) (live s)).

Inductive heap_run : session -> session -> Prop :=
| run_nil s : heap_run s s
| run_step s1 s2 s3 : heap_run s1 s2 -> heap_step s2 s3 -> heap_run s1 s3.

(** Two owned areas do not overlap, headers included. *)
Definition apart (x y : Z * Z) : Prop := x.1 + x.2 <= y.1 - 8 \/ y.1 + y.2 <= x.1 - 8.
End sessions.

(** ** Lemmas *)

Lemma allocs_app a bs1 bs2 : allocs a (bs1 ++ bs2) = allocs a bs1 ++ allocs (a + total bs1) bs2.
Proof.
  revert a; induction bs1 as [|[sz []] bs1 IH]; intros a; cbn;
    rewrite ?IH, ?Z.add_0_r, ?Z.add_assoc; done.
Qed.

Lemma allocs_range a bs p sz :
  Forall size_ok bs -> (p, sz) ∈ allocs a bs ->
  a <= p /\ p + sz <= a + total bs /\ 16 <= sz /\ (p - a) `mod` 8 = 0.
Proof.
  intros Hs. revert a. induction Hs as [|[s st] bs [H1 H2] Hs IH]; intros a Hx; cbn in *.
  - by apply not_elem_of_nil in Hx.
  - pose proof (total_nonneg _ Hs).
    assert (Hrest : (p, sz) ∈ allocs (a + s) bs ->
      a <= p /\ p + sz <= a + (s + total bs) /\ 16 <= sz /\ (p - a) `mod` 8 = 0).
    { intros Hin. apply IH in Hin as (?&?&?&Hm). split_and!; [lia..|dlia]. }
    destruct st; try by apply Hrest.
    apply elem_of_cons in Hx as [[= -> ->]|Hx]; [|by apply Hrest].
    split_and!; [lia..|]. by rewrite Z.sub_diag.
Qed.

Lemma allocs_split a bs p sz :
  (p, sz) ∈ allocs a bs -> exists pre post, bs = pre ++ (sz, Alloc) :: post /\ p = a + total pre.
Proof.
  revert a; induction bs as [|[s st] bs IH]; intros a Hx; cbn in *.
  - by apply not_elem_of_nil in Hx.
  - assert (Hrest : (p, sz) ∈ allocs (a + s) bs ->
      exists pre post, (s, st) :: bs = pre ++ (sz, Alloc) :: post /\ p = a + total pre).
    { intros Hin. apply IH in Hin as (pre&post&->&->). exists ((s, st) :: pre), post.
      split; [done|cbn; lia]. }
    destruct st; try by apply Hrest.
    apply elem_of_cons in Hx as [[= -> ->]|Hx]; [|by apply Hrest].
    exists [], bs. split; [done|cbn; lia].
Qed.

Lemma allocs_carve a pre sz want post :
  allocs a (pre ++ carve sz want ++ post) =
  allocs a pre ++ (a + total pre, carved sz want) :: allocs (a + total pre + sz) post.
Proof.
  rewrite !allocs_app. destruct (carve_total sz want) as [-> _].
  unfold carve, carved. by destruct (16 <? sz - want).
Qed.

Lemma allocs_merge a pre sz post :
  allocs a (merge pre sz post) = allocs a pre ++ allocs (a + total pre + sz) post.
Proof.
  unfold merge, merge_right, join_left.
  destruct pre as [|[s st] pre _] using rev_ind.
  - cbn. rewrite Z.add_0_r. destruct post as [|[t [| |]] post]; cbn; try done.
    by rewrite !Z.add_assoc.
  - rewrite reverse_snoc, !allocs_app, total_app.
    destruct st, post as [|[t [| |]] post];
      rewrite ?reverse_involutive; cbn; rewrite ?allocs_app; cbn;
      rewrite ?app_nil_r, <- ?app_assoc; cbn; rewrite ?total_app; cbn;
      repeat (f_equal; try lia).
Qed.

Lemma allocs_not_loose a bs p sz i :
  Forall size_ok bs -> (p, sz) ∈ allocs a bs -> p <= i < p + sz -> ~ loose a bs i.
Proof.
  intros Hs. revert a. induction Hs as [|[s st] bs [H1 H2] Hs IH]; intros a Hx Hi; cbn in *; [tauto|].
  assert (Hge : forall b, loose b bs i -> b <= i).
  { clear -Hs. intros b. revert b. induction Hs as [|[t u] bs [_ H2] _ IH]; intros b; cbn in *; [done|].
    intros [[_ ?]|H%IH]; lia. }
  destruct st; cbn in *.
  - intros [[_ Hr]|Hl]; [|by apply (IH (a + s))].
    apply allocs_range in Hx; [lia|done].
  - apply elem_of_cons in Hx as [[= -> ->]|Hx].
    + intros [[? _]|Hl]; [done|]. apply Hge in Hl. lia.
    + intros [[? _]|Hl]; [done|]. by apply (IH (a + s)).
  - intros [[_ Hr]|Hl]; [|by apply (IH (a + s))].
    apply allocs_range in Hx; [lia|done].
Qed.

(** All free and coalesced is one block. *)
Lemma all_free bs :
  settled bs -> coalesced bs -> forall a, allocs a bs = [] -> free_total bs = total bs.
Proof.
  induction bs as [|[s st] bs IH]; intros Hs Hc a Ha; [done|].
  apply Forall_cons in Hs as [Hst Hs]. apply coalesced_cons in Hc as [_ Hc].
  destruct st; cbn in *; try done. by rewrite (IH Hs Hc (a + s) Ha).
Qed.

Lemma adjusted_wants want :
  0 <= want < 2 ^ 32 -> adjusted_size want <> 0 -> want + 8 < adjusted_size want /\ 0 < want.
Proof. intros Hw Hn. destruct (adjusted_size_spec want Hw) as [?|?]; [done|lia]. Qed.

(** What a successful allocation does to the tiling. *)
Lemma amalloc_Some want bs off bs' :
  0 <= want < 2 ^ 32 -> amalloc want bs = Some (off, bs') ->
  exists pre sz post, bs = pre ++ (sz, Free) :: post /\ off = total pre /\
    bs' = pre ++ carve sz (adjusted_size want) ++ post /\
    want + 8 < adjusted_size want <= sz /\ want + 8 < carved sz (adjusted_size want) <= sz.
Proof.
  intros Hw. unfold amalloc. destruct (Z.eqb_spec (adjusted_size want) 0) as [|Hn]; [done|].
  destruct (adjusted_wants want Hw Hn) as [Ha _].
  destruct (first_fit (adjusted_size want) bs) as [[[pre sz] post]|] eqn:E; cbn; [|done].
  intros [= <- <-]. apply first_fit_Some in E as [-> Hle]. exists pre, sz, post.
  unfold carved. destruct (Z.ltb_spec 16 (sz - adjusted_size want)); split_and!; first [done|lia].
Qed.

Lemma first_fit_None want bs sz : first_fit want bs = None -> (sz, Free) ∈ bs -> sz < want.
Proof.
  induction bs as [|[s st] bs IH]; cbn; [by intros _ ?%not_elem_of_nil|].
  destruct (decide (st = Free /\ want <= s)) as [|Hn]; [done|].
  destruct (first_fit want bs) as [[[p t] q]|]; [done|].
  intros _ [[= <- <-]|Hin]%elem_of_cons; [|by apply IH].
  apply Znot_ge_lt. intros ?. apply Hn. split; [done|lia].
Qed.

Lemma amalloc_None want bs :
  0 <= want < 2 ^ 32 -> amalloc want bs = None ->
  want = 0 \/ 2 ^ 32 <= want + 16 \/ forall sz, (sz, Free) ∈ bs -> sz < want + 16.
Proof.
  intros Hw. unfold amalloc.
  destruct (Z.eqb_spec (adjusted_size want) 0) as [Hz|Hn].
  - intros _. destruct (decide (want = 0)) as [|Hnz]; [by left|right; left].
    revert Hz. unfold adjusted_size, heapADD_WILL_OVERFLOW, heapSIZE_MAX.
    change xHeapStructSize with 8. change portBYTE_ALIGNMENT with 8.
    change portBYTE_ALIGNMENT_MASK with (Z.ones 3). rewrite Z.land_ones by lia.
    change (2 ^ 3) with 8. pose proof (Z.mod_pos_bound want 8 ltac:(lia)).
    rewrite (proj2 (Z.ltb_lt 0 want)) by lia. words.
    destruct (Z.ltb_spec (2 ^ 32 - 1 - (8 + 8 - want `mod` 8)) want); words; lia.
  - destruct (first_fit _ bs) as [[[p t] q]|] eqn:E; [done|]. intros _. right; right.
    intros sz Hsz. apply (first_fit_None _ _ _ E) in Hsz.
    destruct (adjusted_size_spec want Hw); lia.
Qed.

Section properties.
Context (ucHeap cfg xStart : Z).
Implicit Type h : heap.

(** The whole of [pvPortMalloc]: its own check of the alignment never fails. *)
Lemma pvPortMalloc_spec h a bs want :
  heap_inv xStart cfg h a bs -> 0 <= want < 2 ^ 32 ->
  match amalloc want bs with
  | Some (off, bs') =>
      exists m' got, pvPortMalloc ucHeap cfg xStart want h = Some (Allocated (a + off + 8), after_malloc m' got h) /\
        heap_inv xStart cfg (after_malloc m' got h) a bs' /\ agree_but (touched xStart a bs) (memory h) m'
  | None => pvPortMalloc ucHeap cfg xStart want h = Some (MallocFailedHook, h)
  end.
Proof.
  intros Hinv Hw. pose proof (malloc_body_spec xStart cfg ucHeap h a bs want Hinv Hw) as H.
  unfold pvPortMalloc. destruct (amalloc want bs) as [[off bs']|] eqn:E; [|by rewrite H].
  destruct H as (m'&got&->&H). exists m', got. split; [|done]. cbn [mbind option_bind].
  apply amalloc_Some in E as (pre&sz&post&->&->&_); [|done].
  pose proof (inv_geo _ _ _ _ _ Hinv) as (Hs&_&_&_&Ha). apply Forall_app in Hs as [Hs _].
  pose proof (hr_geo _ _ _ _ _ (inv_rep _ _ _ _ _ Hinv)) as [_ _ [Ha8 _] _ _ _].
  pose proof (total_nonneg _ Hs). pose proof (total_mod8 _ Hs).
  rewrite (proj2 (Z.eqb_neq _ _)), aligned by (lia || dlia). done.
Qed.

(** C1 — [pvPortMalloc] refines first fit.  On a heap that represents the
    tiling [bs] it returns the block that the abstract allocator chooses,
    leaves the tiling that the abstract allocator leaves, and counts the
    bytes; if no block fits it leaves the heap as it was and ends in the
    failure hook. *)
Theorem pvPortMalloc_refines h a bs want :
  heap_inv xStart cfg h a bs -> 0 <= want < 2 ^ 32 ->
  exists r h', pvPortMalloc ucHeap cfg xStart want h = Some (r, h') /\
    match amalloc want bs with
    | Some (off, bs') => r = Allocated (a + off + 8) /\ heap_inv xStart cfg h' a bs' /\
        xNumberOfSuccessfulAllocations h' = u32 (xNumberOfSuccessfulAllocations h + 1)
    | None => r = MallocFailedHook /\ h' = h
    end.
Proof.
  intros Hinv Hw. pose proof (pvPortMalloc_spec h a bs want Hinv Hw) as H.
  destruct (amalloc want bs) as [[off bs']|] eqn:E.
  - destruct H as (m'&got&->&Hinv'&_).
    apply amalloc_Some in E as (pre&sz&post&->&->&_); [|done].
    pose proof (inv_geo _ _ _ _ _ Hinv) as (Hs&_&_&_&Ha). apply Forall_app in Hs as [Hs _].
      eexists _, _. split; [done|]. done.
  - rewrite H. by eexists _, _.
Qed.

(** Memory handed out by [pvPortMalloc] is 8-byte aligned, lies inside of
    the heap, has room for the request, is disjoint from every block that the
    application owns (header included), and the contents of those blocks are
    untouched. *)
Theorem pvPortMalloc_safe h a bs want p h' :
  heap_inv xStart cfg h a bs -> 0 <= want < 2 ^ 32 ->
  pvPortMalloc ucHeap cfg xStart want h = Some (Allocated p, h') ->
  p `mod` 8 = 0 /\ a + 8 <= p /\ p + want <= pxEnd h /\
  (forall q sz, (q, sz) ∈ allocs a bs -> q + sz <= p - 8 \/ p + want <= q) /\
  (forall q sz i, (q, sz) ∈ allocs a bs -> q <= i < q + sz -> memory h' !! i = memory h !! i).
Proof.
  intros Hinv Hw. pose proof (pvPortMalloc_spec h a bs want Hinv Hw) as H.
  destruct (amalloc want bs) as [[off bs']|] eqn:E; [|by rewrite H].
  destruct H as (m'&got&->&Hinv'&Hagree).
  apply amalloc_Some in E as (pre&sz&post&->&->&->&Hwant&Hcv); [|done].
  pose proof (inv_geo _ _ _ _ _ Hinv) as (Hs&_&_&He&Ha).
  pose proof (hr_geo _ _ _ _ _ (inv_rep _ _ _ _ _ Hinv)) as [_ _ [Ha8 _] _ Hhigh Hout].
  pose proof (proj1 (Forall_app _ _ _) Hs) as [Hs1 Hs2]. apply Forall_cons in Hs2 as [[_ Hsz] Hs2].
  pose proof (total_nonneg _ Hs1). pose proof (total_nonneg _ Hs2).
  pose proof (total_mod8 _ Hs1). rewrite total_app in He, Hhigh. cbn [total] in He, Hhigh.
  intros [= <- <-]. cbn [memory after_malloc].
  split_and!; [dlia|lia|lia| |].
  - intros q s. rewrite allocs_app. cbn [allocs]. intros [Hq|Hq]%elem_of_app.
    + apply allocs_range in Hq; [lia|done].
    + apply allocs_range in Hq; [lia|done].
  - intros q s i Hq Hi. apply Hagree. intros [Hx|Hl].
    + pose proof (allocs_range _ _ _ _ Hs Hq) as Hr. rewrite total_app in Hr. cbn [total] in Hr. lia.
    + by apply (allocs_not_loose _ _ _ _ _ Hs Hq Hi).
Qed.

(** C5 — [pvPortMalloc] fails only for a request of 0 bytes, for a request
    whose size with header and padding exceeds 32 bits, or when every free
    block is too small for it. *)
Theorem pvPortMalloc_fails_only_if h a bs want h' :
  heap_inv xStart cfg h a bs -> 0 <= want < 2 ^ 32 ->
  pvPortMalloc ucHeap cfg xStart want h = Some (MallocFailedHook, h') ->
  h' = h /\ (want = 0 \/ 2 ^ 32 <= want + 16 \/
    forall sz, (sz, Free) ∈ bs -> sz < want + 16).
Proof.
  intros Hinv Hw Hm. pose proof (pvPortMalloc_spec h a bs want Hinv Hw) as H.
  destruct (amalloc want bs) as [[off bs']|] eqn:E.
  - destruct H as (m'&got&Hb&Hinv'&_). rewrite Hb in Hm. cbn [mbind option_bind] in Hm.
    apply amalloc_Some in E as (pre&sz&post&->&->&_); [|done].
    pose proof (inv_geo _ _ _ _ _ Hinv) as (Hs&_&_&_&Ha). apply Forall_app in Hs as [Hs _].
    pose proof (total_nonneg _ Hs). discriminate.
  - rewrite H in Hm. injection Hm as <-. split; [done|]. by apply amalloc_None.
Qed.
(** C3 — [vPortFree] refines the abstract release: given a pointer to an
    allocated block it returns the block to the free list merged with its free
    neighbours, adds its bytes to the free count, and touches no byte of any
    other allocated block. *)
Theorem vPortFree_refines h a pre sz post :
  heap_inv xStart cfg h a (pre ++ (sz, Alloc) :: post) ->
  exists h', vPortFree cfg xStart (a + total pre + 8) h = Some h' /\
    heap_inv xStart cfg h' a (merge pre sz post) /\
    xPortGetFreeHeapSize h' = xPortGetFreeHeapSize h + sz /\
    xNumberOfSuccessfulFrees h' = u32 (xNumberOfSuccessfulFrees h + 1) /\
    (forall q s i, (q, s) ∈ allocs a (merge pre sz post) -> q <= i < q + s ->
       memory h' !! i = memory h !! i).
Proof.
  intros Hinv. destruct (free_spec _ _ _ _ _ _ _ Hinv) as (m'&Hf&Hinv'&Ha).
  eexists. split_and!; [exact Hf|done|done|done|]. intros q s i Hq Hi. apply Ha.
  pose proof (inv_geo _ _ _ _ _ Hinv) as (Hs&_&_&He&Hpos).
  pose proof (hr_geo _ _ _ _ _ (inv_rep _ _ _ _ _ Hinv')) as [Hs' He' _ _ _ Hout].
  cbn [pxEnd after_free] in *.
  intros [Hx|Hl].
  - pose proof (allocs_range _ _ _ _ Hs' Hq). lia.
  - assert (Hq' : (q, s) ∈ allocs a (pre ++ (sz, Limbo) :: post))
      by by rewrite allocs_merge in Hq; rewrite allocs_app.
    apply (allocs_not_loose a (pre ++ (sz, Limbo) :: post) q s i); [|done..].
    apply Forall_app in Hs as [Hs1 Hs2]. apply Forall_cons in Hs2 as [Hsz Hs2].
    apply Forall_app; split; [done|]. by constructor.
Qed.

(** [vPortFree] ignores a null pointer, and halts at a pointer to a block that
    is free already: at a double free whose block has not been handed out again. *)
Theorem vPortFree_refuses h a bs p :
  heap_inv xStart cfg h a bs ->
  vPortFree cfg xStart 0 h = Some h /\
  ((exists pre sz post, bs = pre ++ (sz, Free) :: post /\ p = a + total pre + 8) -> vPortFree cfg xStart p h = None).
Proof.
  intros Hinv. split; [done|]. intros (pre&sz&post&->&->).
  pose proof (rep_block _ _ _ _ _ _ _ _ (inv_rep _ _ _ _ _ Hinv))
    as (H8&H16&_&Hq&Hq8&Hpn&Ee&Hhi&Hsz&_).
  unfold vPortFree. rewrite (proj2 (Z.eqb_neq _ _)) by lia. cbn [negb]. cbv zeta.
  change xHeapStructSize with 8.
  replace (u32 (a + total pre + 8 - 8)) with (a + total pre) by (rewrite u32_small; lia).
  unfold heapBLOCK_IS_ALLOCATED. rewrite (word_size _ _ _ Hsz).
  cbn [fmap option_fmap option_map size_word mbind option_bind]. by rewrite land_high by lia.
Qed.

Lemma merge_carve pre sz want post :
  coalesced (pre ++ (sz, Free) :: post) ->
  merge pre (carved sz want) ((if 16 <? sz - want then [(sz - want, Free)] else []) ++ post) =
  pre ++ (sz, Free) :: post.
Proof.
  intros (Hc1&[Hc2 _]%coalesced_cons&Hc3)%coalesced_app. unfold merge, merge_right.
  assert (Hl : forall s, join_left pre s = (pre, s)).
  { intros s. unfold join_left. unfold ends_free in Hc3.
    destruct (reverse pre) as [|[t [| |]] r]; [done| |done..]. by specialize (Hc3 eq_refl). }
  rewrite Hl. unfold carved. destruct (16 <? sz - want); cbn [app join_right].
  - by replace (want + (sz - want)) with sz by lia.
  - by rewrite join_right_none by auto.
Qed.

(** Round trip: freeing what was just allocated succeeds and restores the
    tiling and the number of free bytes exactly; no space is lost to
    fragmentation or to the split. *)
Theorem malloc_free_roundtrip h a bs want p h1 :
  heap_inv xStart cfg h a bs -> 0 <= want < 2 ^ 32 ->
  pvPortMalloc ucHeap cfg xStart want h = Some (Allocated p, h1) ->
  exists h2, vPortFree cfg xStart p h1 = Some h2 /\ heap_inv xStart cfg h2 a bs /\
    xPortGetFreeHeapSize h2 = xPortGetFreeHeapSize h.
Proof.
  intros Hinv Hw Hm. pose proof (pvPortMalloc_spec h a bs want Hinv Hw) as H.
  destruct (amalloc want bs) as [[off bs']|] eqn:E;
    [|by rewrite H in Hm].
  destruct H as (m'&got&Hb&Hinv'&_). rewrite Hb in Hm.
  apply amalloc_Some in E as (pre&sz&post&->&->&->&_); [|done].
  pose proof (inv_geo _ _ _ _ _ Hinv) as (Hs&_&_&_&Ha). apply Forall_app in Hs as [Hs _].
  pose proof (total_nonneg _ Hs). injection Hm as <- <-.
  assert (Hcarve : forall w, carve sz w ++ post =
    (carved sz w, Alloc) :: (if 16 <? sz - w then [(sz - w, Free)] else []) ++ post).
  { intros w. unfold carve, carved. by destruct (16 <? sz - w). }
  rewrite Hcarve in Hinv'.
  destruct (free_spec _ _ _ _ _ _ _ Hinv') as (m2&Hf&Hinv2&_).
  rewrite merge_carve in Hinv2 by apply Hinv.
  eexists. split_and!; [exact Hf|exact Hinv2|].
  unfold xPortGetFreeHeapSize. rewrite (inv_free _ _ _ _ _ Hinv2). symmetry. apply Hinv.
Qed.

(** The first call of [pvPortMalloc] initialises the heap: [prvHeapInit]
    leaves one aligned free block between the aligned start of [ucHeap] and the
    end marker, and the call then behaves as on the initialised heap. *)
Theorem pvPortMalloc_first h want :
  linked xStart ucHeap cfg (memory h) -> pxEnd h = 0 ->
  exists h1, prvHeapInit ucHeap cfg xStart h = Some h1 /\
    heap_inv xStart cfg h1 (heap_base ucHeap)
      [(heap_top ucHeap cfg - heap_base ucHeap, Free)] /\
    heap_base ucHeap `mod` 8 = 0 /\ ucHeap <= heap_base ucHeap < ucHeap + 8 /\
    ucHeap + cfg - 16 < heap_top ucHeap cfg <= ucHeap + cfg - 8 /\
    pvPortMalloc ucHeap cfg xStart want h = pvPortMalloc ucHeap cfg xStart want h1.
Proof.
  intros Hl Hend. destruct (init_inv _ _ _ _ Hl) as (h1&Hi&Hinv). exists h1.
  unfold heap_base, heap_top in *.
  split_and!; try done; try dlia.
  pose proof (inv_geo _ _ _ _ _ Hinv) as (Hs&_&_&He&Ha). pose proof (total_nonneg _ Hs).
  unfold pvPortMalloc, malloc_body. rewrite Hend, Hi. cbn [Z.eqb mbind option_bind].
  by rewrite (proj2 (Z.eqb_neq (pxEnd h1) 0)) by lia.
Qed.

(** *** Statistics *)

Definition largest (n : Z) (l : list Z) : Z := foldl Z.max n l.
Definition smallest (n : Z) (l : list Z) : Z := foldl Z.min n l.

Lemma stats_walk_spec m a e rest pre fuel n mx mn :
  heap_rep xStart m a (pre ++ rest) e ->
  (length (free_sizes rest) < fuel)%nat ->
  0 <= n -> n + Z.of_nat (length (free_sizes rest)) < 2 ^ 32 ->
  stats_walk fuel (nextd (frees (a + total pre) rest) e) e n mx mn m =
    Some (n + Z.of_nat (length (free_sizes rest)),
          largest mx (free_sizes rest), smallest mn (free_sizes rest)).
Proof.
  revert pre fuel n mx mn; induction rest as [|[sz st] rest IH];
    intros pre fuel n mx mn Hrep Hfuel Hn Hb.
  - destruct fuel as [|fuel]; [cbn in Hfuel; lia|]. cbn.
    by rewrite Z.eqb_refl, Z.add_0_r.
  - assert (Hrep' : heap_rep xStart m a ((pre ++ [(sz, st)]) ++ rest) e)
      by by rewrite <- app_assoc.
    assert (Et : a + total (pre ++ [(sz, st)]) = a + total pre + sz)
      by (rewrite total_app; cbn; lia).
    specialize (IH (pre ++ [(sz, st)])). rewrite Et in IH.
    destruct st; [|by apply IH..].
    destruct (free_node _ _ _ _ _ _ _ Hrep) as [H4 H0].
    pose proof (rep_block _ _ _ _ _ _ _ _ Hrep) as (_&?&_&?&_&?&?&_).
    cbn in Hfuel, Hb.
    destruct fuel as [|fuel]; [lia|]. cbn [frees nextd stats_walk].
    rewrite (proj2 (Z.eqb_neq _ _)) by lia.
    rewrite (word_size _ _ _ H4), (word_next _ _ _ H0). cbn [mbind option_bind].
    rewrite u32_small by lia. rewrite IH; [|done|lia..].
    cbn [free_sizes length]. f_equal. f_equal; [f_equal; [lia|]|].
    + unfold largest. cbn. f_equal. destruct (Z.ltb_spec mx sz); lia.
    + unfold smallest. cbn. by rewrite min_if, Z.min_comm.
Qed.

(** [vPortGetHeapStats] on an initialised heap reports the number of free
    blocks, the size of the largest and of the smallest one and the sum of
    their sizes. *)
Theorem vPortGetHeapStats_spec h a bs :
  heap_inv xStart cfg h a bs ->
  vPortGetHeapStats cfg xStart h =
    Some (mkStats (free_total bs) (largest 0 (free_sizes bs)) (smallest (2 ^ 32 - 1) (free_sizes bs))
            (Z.of_nat (length (free_sizes bs))) (xMinimumEverFreeBytesRemaining h)
            (xNumberOfSuccessfulAllocations h) (xNumberOfSuccessfulFrees h)).
Proof.
  intros Hinv. pose proof (inv_geo _ _ _ _ _ Hinv) as (Hs&Hft&Ht&He&Ha).
  destruct Hinv as [Hrep _ _ Hfree _ Hcfg].
  unfold vPortGetHeapStats.
  pose proof (hr_chain _ _ _ _ _ Hrep) as Hc. rewrite (word_next _ _ _ (chain_head _ _ _ _ Hc)).
  cbn [mbind option_bind].
  pose proof (nextd_range a bs (pxEnd h) Hs He) as Hn.
  rewrite (proj2 (Z.eqb_neq _ _)) by lia. cbn [negb].
  assert (Hcount : 16 * Z.of_nat (length (free_sizes bs)) <= total bs).
  { clear -Hs. induction Hs as [|[sz []] bs [? ?] Hs IH]; cbn in *; lia. }
  pose proof (stats_walk_spec (memory h) a (pxEnd h) bs [] (walk_fuel cfg) 0 0 (2 ^ 32 - 1)) as Hw.
  cbn [total] in Hw. rewrite Z.add_0_r in Hw. rewrite Hw; [|done|unfold walk_fuel; dlia|lia..].
  cbn [mbind option_bind]. by rewrite Hfree.
Qed.
(** *** Sessions *)

Definition owns (x y : Z * Z) : Prop := y.1 = x.1 - 8 /\ 0 <= x.2 /\ x.2 + 8 <= y.2.

(** The live pointers are exactly the allocated blocks. *)
Definition session_inv (s : session) : Prop :=
  (exists bs A, heap_inv xStart cfg (the_heap s) (heap_base ucHeap) bs /\
    total bs = heap_top ucHeap cfg - heap_base ucHeap /\
    A ≡ₚ allocs (heap_base ucHeap) bs /\ Forall2 owns (live s) A) \/
  (linked xStart ucHeap cfg (memory (the_heap s)) /\ pxEnd (the_heap s) = 0 /\ live s = []).

Lemma init_total h :
  linked xStart ucHeap cfg (memory h) -> pxEnd h = 0 ->
  exists h1, (forall want, pvPortMalloc ucHeap cfg xStart want h =
                           pvPortMalloc ucHeap cfg xStart want h1) /\
    heap_inv xStart cfg h1 (heap_base ucHeap)
      [(heap_top ucHeap cfg - heap_base ucHeap, Free)].
Proof.
  intros Hl Hend. destruct (init_inv _ _ _ _ Hl) as (h1&Hi&Hinv). exists h1. split; [|done].
  pose proof (inv_geo _ _ _ _ _ Hinv) as (Hs&_&_&He&Ha). pose proof (total_nonneg _ Hs).
  intros want. unfold pvPortMalloc, malloc_body. rewrite Hend, Hi. cbn [Z.eqb mbind option_bind].
  by rewrite (proj2 (Z.eqb_neq (pxEnd h1) 0)) by lia.
Qed.

Lemma malloc_keeps_session h bs A l n p h' :
  heap_inv xStart cfg h (heap_base ucHeap) bs ->
  total bs = heap_top ucHeap cfg - heap_base ucHeap ->
  A ≡ₚ allocs (heap_base ucHeap) bs -> Forall2 owns l A -> 0 <= n < 2 ^ 32 ->
  pvPortMalloc ucHeap cfg xStart n h = Some (Allocated p, h') ->
  session_inv (mkSession h' ((p, n) :: l)).
Proof.
  intros Hinv Ht HA Ho Hn Hm.
  pose proof (pvPortMalloc_spec _ _ bs n Hinv Hn) as H.
  destruct (amalloc n bs) as [[off bs']|] eqn:E; [|by rewrite H in Hm].
  destruct H as (m'&got&Hb&Hinv'&_). rewrite Hb in Hm.
  apply amalloc_Some in E as (pre&sz&post&->&->&->&_&Hcv); [|done].
  pose proof (inv_geo _ _ _ _ _ Hinv) as (Hs&_&_&_&Ha). apply Forall_app in Hs as [Hs _].
  pose proof (total_nonneg _ Hs). injection Hm as <- <-. left.
  exists (pre ++ carve sz (adjusted_size n) ++ post),
    ((heap_base ucHeap + total pre, carved sz (adjusted_size n)) :: A).
  split_and!; [done| | |].
  - rewrite !total_app in *. cbn [total] in Ht. destruct (carve_total sz (adjusted_size n)). lia.
  - rewrite allocs_carve, HA, allocs_app. cbn. by rewrite Permutation_middle.
  - constructor; [|done]. split; cbn; lia.
Qed.

Lemma allocs_payload a bs q sz i :
  (q, sz) ∈ allocs a bs -> q + 8 <= i < q + sz -> payload a bs i.
Proof.
  revert a; induction bs as [|[s st] bs IH]; intros a; cbn; [by intros ?%not_elem_of_nil|].
  intros Hx Hi. destruct st; [right; by apply IH| |right; by apply IH].
  apply elem_of_cons in Hx as [[= -> ->]|Hx]; [by left|right; by apply IH].
Qed.

Lemma write_keeps_inv h a bs i v m :
  heap_inv xStart cfg h a bs -> payload a bs i -> store8 i v (memory h) = Some m ->
  heap_inv xStart cfg (with_memory m h) a bs.
Proof.
  intros [Hrep ?????] Hp Hst. unfold store8 in Hst.
  apply bind_Some_inv in Hst as (b&Hb&[= <-]). split; try done.
  cbn [memory with_memory pxEnd]. apply (rep_payload _ (memory h)); [done| |].
  - intros j Hj. apply lookup_insert_ne. by intros ->.
  - intros c k Hm j Hj. rewrite lookup_insert. case_decide; [done|by apply Hm].
Qed.

Lemma session_step s s' : session_inv s -> heap_step ucHeap cfg xStart s s' -> session_inv s'.
Proof.
  intros Hs Hst. inversion Hst as [? n p h Hn Hm|? p n l1 l2 h Hl Hf|? p n i v m Hin Hi Hw]; subst.
  - destruct Hs as [(bs&A&Hinv&Ht&HA&Ho)|(Hl&Hend&Hlive)].
    + by eapply malloc_keeps_session.
    + destruct (init_total _ Hl Hend) as (h1&Hm1&Hinv). rewrite Hm1 in Hm. rewrite Hlive.
      eapply malloc_keeps_session; [exact Hinv|cbn; lia|done|done|done|done].
  - destruct Hs as [(bs&A&Hinv&Ht&HA&Ho)|(_&_&Hlive)]; [|by rewrite Hlive in Hl; destruct l1].
    rewrite Hl in Ho. apply Forall2_app_inv_l in Ho as (A1&A2'&Ho1&Ho2&->).
    inversion Ho2 as [|x y l A2 Hxy Ho2']; subst. destruct y as [q sz], Hxy as [Hq _]; cbn in Hq; subst q.
    assert (Hin : (p - 8, sz) ∈ allocs (heap_base ucHeap) bs).
    { rewrite <- HA. apply elem_of_app. right. left. }
    apply allocs_split in Hin as (pre&post&->&Hp).
    destruct (free_spec _ _ _ _ _ _ _ Hinv) as (m'&Hf'&Hinv'&_).
    rewrite <- Hp in Hf'. replace (p - 8 + 8) with p in Hf' by lia.
    rewrite Hf in Hf'. injection Hf' as ->. left.
    exists (merge pre sz post), (A1 ++ A2). split_and!; [done| | |by apply Forall2_app].
    + destruct (merge_total pre sz post) as [-> _]. rewrite total_app in Ht. cbn in Ht. lia.
    + rewrite allocs_merge. rewrite allocs_app in HA. cbn in HA. rewrite <- Hp in HA.
      rewrite <- Hp. exact (Permutation_app_inv _ _ _ _ _ HA).
  - destruct Hs as [(bs&A&Hinv&Ht&HA&Ho)|(_&_&Hlive)];
      [left|by rewrite Hlive in Hin; apply not_elem_of_nil in Hin].
    exists bs, A. split_and!; [|done..].
    apply list_elem_of_lookup in Hin as [j Hj].
    destruct (Forall2_lookup_l _ _ _ _ _ Ho Hj) as ([q sz]&Hq&Ho1&Hn0&Ho2). cbn in *. subst q.
    apply list_elem_of_lookup_2 in Hq. rewrite HA in Hq.
    apply (write_keeps_inv _ _ _ i v); [done| |done].
    apply (allocs_payload _ _ _ _ _ Hq). lia.
Qed.

Lemma session_run s s' : session_inv s -> heap_run ucHeap cfg xStart s s' -> session_inv s'.
Proof. intros Hs Hr. induction Hr as [|s1 s2 s3 _ IH Hst]; [done|]. exact (session_step _ _ (IH Hs) Hst). Qed.

Lemma session_start h :
  linked xStart ucHeap cfg (memory h) -> pxEnd h = 0 -> session_inv (mkSession h []).
Proof. by right. Qed.

Lemma allocs_disjoint a bs i j x y :
  Forall size_ok bs -> i <> j -> allocs a bs !! i = Some x -> allocs a bs !! j = Some y ->
  x.1 + x.2 <= y.1 \/ y.1 + y.2 <= x.1.
Proof.
  intros Hs. revert a i j. induction Hs as [|[s st] bs [_ H16] Hs IH]; intros a i j Hne Hi Hj.
  { by destruct i. }
  cbn in H16.
  destruct st; [by eapply (IH (a + s))| |by eapply (IH (a + s))]. cbn [allocs] in Hi, Hj.
  destruct i as [|i], j as [|j]; [done|simpl in *..|].
  - injection Hi as <-. destruct y as [q t]. apply list_elem_of_lookup_2 in Hj.
    apply allocs_range in Hj; [cbn; lia|done].
  - injection Hj as <-. destruct x as [q t]. apply list_elem_of_lookup_2 in Hi.
    apply allocs_range in Hi; [cbn; lia|done].
  - simpl in *. eapply (IH (a + s)); [|done..]. lia.
Qed.

(** C2 — Every sequence of allocations, releases and writes into owned areas
    that starts with the static heap is safe: the pointers the program owns are 8-byte aligned, their areas
    lie inside of [ucHeap] and do not overlap, each of them can be freed, and no
    call ever follows a pointer out of the heap. *)
Theorem heap_run_safe h0 s :
  linked xStart ucHeap cfg (memory h0) -> pxEnd h0 = 0 ->
  heap_run ucHeap cfg xStart (mkSession h0 []) s ->
  (forall p n, (p, n) ∈ live s ->
     p `mod` 8 = 0 /\ ucHeap + 8 <= p /\ p + n <= ucHeap + cfg - 8 /\
     is_Some (vPortFree cfg xStart p (the_heap s))) /\
  (forall i j x y, i <> j -> live s !! i = Some x -> live s !! j = Some y -> apart x y) /\
  (forall n, 0 <= n < 2 ^ 32 -> is_Some (pvPortMalloc ucHeap cfg xStart n (the_heap s))).
Proof.
  intros Hl Hend Hrun. pose proof (session_run _ _ (session_start _ Hl Hend) Hrun) as Hs.
  destruct Hs as [(bs&A&Hinv&Ht&HA&Ho)|(Hl'&Hend'&Hlive)]; cycle 1.
  { rewrite Hlive. split_and!; [by intros ?? ?%not_elem_of_nil|by intros [] ?|].
    intros n Hn. destruct (init_total _ Hl' Hend') as (h1&->&Hinv).
    pose proof (pvPortMalloc_spec _ _ _ n Hinv Hn) as H.
    destruct (amalloc _ _) as [[? ?]|]; [destruct H as (?&?&->&_)|rewrite H]; by eexists. }
  pose proof (inv_geo _ _ _ _ _ Hinv) as (Hsz&_&_&He&Ha).
  pose proof (geo_align _ _ _ _ (hr_geo _ _ _ _ _ (inv_rep _ _ _ _ _ Hinv))) as [Ha8 _].
  destruct (lk_heap _ _ _ _ Hl) as (U1&U2&U3).
  assert (Hb : ucHeap <= heap_base ucHeap /\ heap_top ucHeap cfg <= ucHeap + cfg - 8)
    by (unfold heap_base, heap_top; dlia).
  split_and!.
  - intros p n Hin. apply list_elem_of_lookup in Hin as [i Hi].
    destruct (Forall2_lookup_l _ _ _ _ _ Ho Hi) as ([q sz]&Hq&Ho1&Hn0&Ho2). cbn in *. subst q.
    apply list_elem_of_lookup_2 in Hq. rewrite HA in Hq.
    pose proof (allocs_range _ _ _ _ Hsz Hq) as (R1&R2&R3&R4).
    split_and!; [dlia|lia..|].
    apply allocs_split in Hq as (pre&post&->&Hp).
    destruct (free_spec _ _ _ _ _ _ _ Hinv) as (m'&Hf'&_).
    rewrite <- Hp in Hf'. replace (p - 8 + 8) with p in Hf' by lia. by rewrite Hf'.
  - intros i j x y Hne Hi Hj. unfold apart.
    destruct (Forall2_lookup_l _ _ _ _ _ Ho Hi) as (u&Hu&Hu1&Hu2&Hu3).
    destruct (Forall2_lookup_l _ _ _ _ _ Ho Hj) as (v&Hv&Hv1&Hv2&Hv3).
    apply Permutation_inj in HA as (_&f&Hinj&Hf). rewrite Hf in Hu, Hv.
    destruct (allocs_disjoint (heap_base ucHeap) bs (f i) (f j) u v Hsz) as [?|?]; [|done..|lia|lia].
    intros Eq. by apply Hinj in Eq.
  - intros n Hn. pose proof (pvPortMalloc_spec _ _ _ n Hinv Hn) as H.
    destruct (amalloc _ _) as [[? ?]|]; [destruct H as (?&?&->&_)|rewrite H]; by eexists.
Qed.

(** C4 — No leak: once a program that has used the heap has freed all its
    pointers, in whatever order, all of the heap's bytes are free again, in one
    block. *)
Theorem heap_run_no_leak h0 s :
  linked xStart ucHeap cfg (memory h0) -> pxEnd h0 = 0 ->
  heap_run ucHeap cfg xStart (mkSession h0 []) s -> live s = [] -> pxEnd (the_heap s) <> 0 ->
  xPortGetFreeHeapSize (the_heap s) = heap_top ucHeap cfg - heap_base ucHeap /\
  exists sz, heap_inv xStart cfg (the_heap s) (heap_base ucHeap) [(sz, Free)].
Proof.
  intros Hl Hend Hrun Hlive Hne.
  pose proof (session_run _ _ (session_start _ Hl Hend) Hrun) as Hs.
  destruct Hs as [(bs&A&Hinv&Ht&HA&Ho)|(_&Hend'&_)]; [|done].
  rewrite Hlive in Ho. inversion Ho; subst. apply Permutation_nil_l in HA.
  pose proof (all_free bs (inv_settled _ _ _ _ _ Hinv) (inv_coalesced _ _ _ _ _ Hinv) _ (eq_sym HA)) as Hf.
  split; [unfold xPortGetFreeHeapSize; rewrite (inv_free _ _ _ _ _ Hinv); lia|].
  destruct (lk_heap _ _ _ _ Hl) as (U1&U2&U3).
  destruct bs as [|[sz st] bs]; [cbn in Ht; unfold heap_base, heap_top in *; dlia|].
  pose proof (inv_coalesced _ _ _ _ _ Hinv) as Hc. pose proof (inv_settled _ _ _ _ _ Hinv) as Hst.
  apply Forall_cons in Hst as [Hst1 Hst2]. destruct st; [|done..].
  destruct bs as [|[s2 st2] bs]; [by exists sz|]. apply Forall_cons in Hst2 as [Hst2 _].
  by destruct st2.
Qed.
Lemma no_mult_overflow x y :
  0 <= x < 2 ^ 32 -> 0 <= y -> heapMULTIPLY_WILL_OVERFLOW x y = false -> x * y < 2 ^ 32.
Proof.
  intros Hx Hy. unfold heapMULTIPLY_WILL_OVERFLOW, heapSIZE_MAX.
  destruct (Z.ltb_spec 0 x); cbn [andb]; [|intros _; assert (x = 0) as -> by lia; lia].
  intros Hle%Z.ltb_ge. pose proof (Z.mul_div_le (2 ^ 32 - 1) x ltac:(lia)).
  assert (x * y <= x * ((2 ^ 32 - 1) / x)) by (apply Z.mul_le_mono_nonneg_l; lia). lia.
Qed.

Lemma malloc_payload h a bs want p h' :
  heap_inv xStart cfg h a bs -> 0 <= want < 2 ^ 32 ->
  pvPortMalloc ucHeap cfg xStart want h = Some (Allocated p, h') ->
  exists bs', heap_inv xStart cfg h' a bs' /\ 0 < p /\ mapped (memory h') p want /\
    forall i, p <= i < p + want -> payload a bs' i.
Proof.
  intros Hinv Hw Hm. pose proof (pvPortMalloc_spec h a bs want Hinv Hw) as H.
  destruct (amalloc want bs) as [[off bs']|] eqn:E; [|by rewrite H in Hm].
  destruct H as (m'&got&Hb&Hinv'&_). rewrite Hb in Hm.
  apply amalloc_Some in E as (pre&sz&post&->&->&->&_&Hcv); [|done].
  pose proof (inv_geo _ _ _ _ _ Hinv) as (Hs&_&_&_&Ha). apply Forall_app in Hs as [Hs1 Hs2].
  apply Forall_cons in Hs2 as [_ Hs2].
  pose proof (total_nonneg _ Hs1). pose proof (total_nonneg _ Hs2).
  injection Hm as <- <-. eexists. split_and!; [exact Hinv'|lia| |].
  - destruct (hr_map _ _ _ _ _ (inv_rep _ _ _ _ _ Hinv')) as [_ Hmap].
    rewrite !total_app in Hmap. destruct (carve_total sz (adjusted_size want)) as [Et _].
    rewrite Et in Hmap. apply mapped_sub with (1 := Hmap); lia.
  - intros i Hi. apply (allocs_payload _ _ (a + total pre) (carved sz (adjusted_size want))); [|lia].
    rewrite allocs_carve. apply elem_of_app. right. left.
Qed.

(** [pvPortCalloc]: when the product of its arguments overflows it returns
    a null pointer and leaves the heap alone; otherwise a successful call
    returns an area of [xNum * xSize] bytes that are all zero, on a heap that is
    still well formed. *)
Theorem pvPortCalloc_zeroed h a bs xNum xSize p h' :
  heap_inv xStart cfg h a bs -> 0 <= xNum < 2 ^ 32 -> 0 <= xSize < 2 ^ 32 ->
  pvPortCalloc ucHeap cfg xStart xNum xSize h = Some (Allocated p, h') ->
  (p = 0 /\ h' = h /\ 2 ^ 32 <= xNum * xSize) \/
  (xNum * xSize < 2 ^ 32 /\ (exists bs', heap_inv xStart cfg h' a bs') /\
   forall i, p <= i < p + xNum * xSize -> memory h' !! i = Some 0).
Proof.
  intros Hinv Hn Hs Hc. unfold pvPortCalloc in Hc.
  destruct (heapMULTIPLY_WILL_OVERFLOW xNum xSize) eqn:Ho.
  { injection Hc as <- <-. left. split_and!; [done..|].
    unfold heapMULTIPLY_WILL_OVERFLOW, heapSIZE_MAX in Ho. apply andb_prop in Ho as [Ho1 Ho2].
    apply Z.ltb_lt in Ho1, Ho2. pose proof (Z.mul_succ_div_gt (2 ^ 32 - 1) xNum Ho1) as Hgt.
    assert (xNum * Z.succ ((2 ^ 32 - 1) / xNum) <= xNum * xSize)
      by (apply Z.mul_le_mono_nonneg_l; lia). lia. }
  right. pose proof (no_mult_overflow xNum xSize Hn ltac:(lia) Ho) as Hlt.
  assert (Hnn : 0 <= xNum * xSize) by (apply Z.mul_nonneg_nonneg; lia).
  rewrite u32_small in Hc by lia. split; [done|].
  destruct (pvPortMalloc ucHeap cfg xStart (xNum * xSize) h) as [[[q|] h1]|] eqn:Em;
    cbn [mbind option_bind] in Hc; [|done..].
  destruct (malloc_payload _ _ _ _ _ _ Hinv (conj Hnn Hlt) Em) as (bs'&Hinv'&Hq&Hmap&Hpay).
  destruct (store_bytes_spec q (replicate (Z.to_nat (xNum * xSize)) 0) (memory h1)) as (m'&Hm'&Hl).
  { rewrite length_replicate, Z2Nat.id by done. done. }
  unfold memset in Hc. rewrite Hm' in Hc. cbn [mbind option_bind] in Hc. injection Hc as <- <-.
  rewrite length_replicate, Z2Nat.id in Hl by done. split.
  - exists bs'. destruct Hinv' as [Hrep ?????]. split; try done.
    cbn [memory with_memory pxEnd]. apply (rep_payload _ (memory h1)); [done| |].
    + intros i Hi. rewrite Hl. case_decide as Hr; [|done]. by apply Hpay in Hr.
    + intros b k Hb. apply (store_bytes_mapped _ _ _ _ _ _ Hm'); [|done].
      by rewrite length_replicate, Z2Nat.id.
  - intros i Hi. cbn [memory with_memory]. rewrite Hl, decide_True by done.
    rewrite lookup_replicate_2 by lia. done.
Qed.
End properties.

(** ** Witnesses

    A heap of 200 bytes at a misaligned address, before and after
    initialisation, and after one allocation of 20 bytes. *)
Section witnesses.
Let uc := 0x1004.
Let cfg := 200.
Let xs := 0x100.

Definition h0_ex : heap := mkHeap (fill 8 0x100 0 (fill 200 0x1004 0 ∅)) 0 0 0 0 0.
Definition h1_ex : heap := default h0_ex (prvHeapInit 0x1004 200 0x100 h0_ex).
Definition h2_ex : heap := from_option snd h1_ex (malloc_body 0x1004 200 0x100 20 h1_ex).

Lemma linked_ex : linked 0x100 0x1004 200 (memory h0_ex).
Proof.
  split; [lia|split_and!; [lia|done|lia]|lia|].
  split; [apply fill_mapped|apply mapped_fill, fill_mapped].
Qed.

Lemma h1_ex_inv : heap_inv 0x100 200 h1_ex 0x1008 [(184, Free)].
Proof.
  destruct (init_inv _ _ _ _ linked_ex) as (h1&Hi&Hinv). unfold h1_ex. rewrite Hi. exact Hinv.
Qed.

Lemma h2_ex_inv : heap_inv 0x100 200 h2_ex 0x1008 [(32, Alloc); (152, Free)].
Proof.
  pose proof (malloc_body_spec 0x100 200 0x1004 h1_ex 0x1008 _ 20 h1_ex_inv ltac:(lia)) as H.
  replace (amalloc 20 [(184, Free)]) with (Some (0, [(32, Alloc); (152, Free)])) in H by done.
  destruct H as (m'&got&E&Hinv&_). unfold h2_ex. rewrite E. exact Hinv.
Qed.
End witnesses.

Lemma pvPortMalloc_refines_witness :
  exists h', pvPortMalloc 0x1004 200 0x100 20 h1_ex = Some (Allocated 0x1010, h') /\
    heap_inv 0x100 200 h' 0x1008 [(32, Alloc); (152, Free)].
Proof.
  destruct (pvPortMalloc_refines 0x1004 200 0x100 h1_ex 0x1008 _ 20 h1_ex_inv ltac:(lia))
    as (r&h'&E&H).
  replace (amalloc 20 [(184, Free)]) with (Some (0, [(32, Alloc); (152, Free)])) in H by done.
  destruct H as (->&Hinv&_). exists h'. split; [exact E|exact Hinv].
Defined.

Lemma pvPortMalloc_safe_witness :
  exists h', pvPortMalloc 0x1004 200 0x100 40 h2_ex = Some (Allocated 0x1030, h') /\
    memory h' !! 0x1010 = memory h2_ex !! 0x1010.
Proof.
  pose proof (result_known (pvPortMalloc 0x1004 200 0x100 40 h2_ex) (Allocated 0x1030) h2_ex
    ltac:(by vm_compute)) as E. set (h' := from_option snd _ _) in E. clearbody h'.
  exists h'. split; [exact E|].
  destruct (pvPortMalloc_safe 0x1004 200 0x100 h2_ex 0x1008 _ 40 0x1030 h' h2_ex_inv ltac:(lia) E)
    as (_&_&_&_&H).
  apply (H 0x1008 32); [left|lia].
Defined.

Lemma pvPortMalloc_fails_only_if_witness :
  pvPortMalloc 0x1004 200 0x100 1000 h2_ex = Some (MallocFailedHook, h2_ex).
Proof.
  pose proof (result_known (pvPortMalloc 0x1004 200 0x100 1000 h2_ex) MallocFailedHook h2_ex
    ltac:(by vm_compute)) as E. set (h' := from_option snd _ _) in E. clearbody h'.
  destruct (pvPortMalloc_fails_only_if 0x1004 200 0x100 h2_ex 0x1008 _ 1000 h' h2_ex_inv
    ltac:(lia) E) as [-> _]. exact E.
Defined.

Lemma vPortFree_refines_witness :
  exists h', vPortFree 200 0x100 0x1010 h2_ex = Some h' /\
    heap_inv 0x100 200 h' 0x1008 [(184, Free)] /\ xPortGetFreeHeapSize h2_ex = 152.
Proof.
  destruct (vPortFree_refines 200 0x100 h2_ex 0x1008 [] 32 [(152, Free)] h2_ex_inv)
    as (h'&E&Hinv&_).
  exists h'. split_and!; [exact E|exact Hinv|by vm_compute].
Defined.

Lemma vPortFree_refuses_witness : vPortFree 200 0x100 (0x1008 + 32 + 8) h2_ex = None.
Proof.
  apply (vPortFree_refuses 200 0x100 h2_ex 0x1008 _ _ h2_ex_inv). by exists [(32, Alloc)], 152, [].
Defined.

Lemma malloc_free_roundtrip_witness :
  exists h' h'', pvPortMalloc 0x1004 200 0x100 40 h2_ex = Some (Allocated 0x1030, h') /\
    vPortFree 200 0x100 0x1030 h' = Some h'' /\ xPortGetFreeHeapSize h'' = 152.
Proof.
  pose proof (result_known (pvPortMalloc 0x1004 200 0x100 40 h2_ex) (Allocated 0x1030) h2_ex
    ltac:(by vm_compute)) as E. set (h' := from_option snd _ _) in E. clearbody h'.
  destruct (malloc_free_roundtrip 0x1004 200 0x100 h2_ex 0x1008 _ 40 0x1030 h' h2_ex_inv ltac:(lia) E)
    as (h''&Hf&_&Hs).
  exists h', h''. split_and!; [exact E|exact Hf|]. rewrite Hs. by vm_compute.
Defined.

Lemma pvPortMalloc_first_witness :
  exists h1, prvHeapInit 0x1004 200 0x100 h0_ex = Some h1 /\
    pvPortMalloc 0x1004 200 0x100 20 h0_ex = pvPortMalloc 0x1004 200 0x100 20 h1.
Proof.
  destruct (pvPortMalloc_first 0x1004 200 0x100 h0_ex 20 linked_ex eq_refl)
    as (h1&E&_&_&_&_&Hm).
  exists h1. split; [exact E|exact Hm].
Defined.

Lemma vPortGetHeapStats_spec_witness :
  vPortGetHeapStats 200 0x100 h2_ex = Some (mkStats 152 152 152 1 152 1 0).
Proof. rewrite (vPortGetHeapStats_spec 200 0x100 h2_ex 0x1008 _ h2_ex_inv). by vm_compute. Defined.

(** A session that allocates 20 bytes, writes one of them and frees them. *)
Definition h3_ex : heap :=
  from_option snd h0_ex (pvPortMalloc 0x1004 200 0x100 20 h0_ex).
Definition m4_ex : mem := default ∅ (store8 0x1011 7 (memory h3_ex)).
Definition h4_ex : heap := with_memory m4_ex h3_ex.
Definition h5_ex : heap := default h4_ex (vPortFree 200 0x100 0x1010 h4_ex).

Lemma run3_ex : heap_run 0x1004 200 0x100 (mkSession h0_ex []) (mkSession h4_ex [(0x1010, 20)]).
Proof.
  eapply run_step; [eapply run_step; [apply run_nil|]|].
  - apply (step_malloc _ _ _ (mkSession h0_ex []) 20 0x1010 h3_ex); [lia|].
    apply result_known. by vm_compute.
  - apply (step_write _ _ _ (mkSession h3_ex [(0x1010, 20)]) 0x1010 20 0x1011 7 m4_ex);
      [left|lia|]. apply default_known. by vm_compute.
Qed.

Lemma run5_ex : heap_run 0x1004 200 0x100 (mkSession h0_ex []) (mkSession h5_ex []).
Proof.
  eapply run_step; [apply run3_ex|].
  apply (step_free _ _ _ (mkSession h4_ex [(0x1010, 20)]) 0x1010 20 [] [] h5_ex); [done|].
  apply default_known. by vm_compute.
Qed.

Lemma heap_run_safe_witness :
  is_Some (vPortFree 200 0x100 0x1010 h4_ex).
Proof.
  destruct (heap_run_safe 0x1004 200 0x100 h0_ex _ linked_ex eq_refl run3_ex) as (H&_&_).
  destruct (H 0x1010 20) as (_&_&_&Hf); [left|exact Hf].
Defined.

Lemma heap_run_no_leak_witness : xPortGetFreeHeapSize h5_ex = 184.
Proof.
  destruct (heap_run_no_leak 0x1004 200 0x100 h0_ex _ linked_ex eq_refl run5_ex eq_refl) as [H _].
  - by vm_compute.
  - exact H.
Defined.

Lemma pvPortCalloc_zeroed_witness :
  exists h', pvPortCalloc 0x1004 200 0x100 3 4 h2_ex = Some (Allocated 0x1030, h') /\
    memory h' !! 0x1034 = Some 0.
Proof.
  pose proof (result_known (pvPortCalloc 0x1004 200 0x100 3 4 h2_ex) (Allocated 0x1030) h2_ex
    ltac:(by vm_compute)) as E. set (h' := from_option snd _ _) in E. clearbody h'.
  exists h'. split; [exact E|].
  destruct (pvPortCalloc_zeroed 0x1004 200 0x100 h2_ex 0x1008 _ 3 4 0x1030 h' h2_ex_inv
    ltac:(lia) ltac:(lia) E) as [(?&_)|(_&_&H)]; [done|]. apply H. lia.
Defined.
