(* ===== verification/Tasks.v ===== *)
(** * The scheduler

    Model of src/FreeRTOS/FreeRTOS-Kernel/tasks.c in the configuration of both
    projects (preemption, time slicing, mutexes, seven priorities, the generic
    task selection, no tickless idle, no tick hook).  Task lists are lists of
    [KList]; a task is known by the address of its control block, and the
    kernel's static variables are the fields of [kernel].

    A function here is what the C function does in one critical section or
    with the scheduler suspended.  A yield ([portYIELD_WITHIN_API]) is not a
    step of the function but a request to the port; the functions that may
    ask for one return whether they do. *)
From S2P Require Import Prelude KList.
Open Scope Z_scope.

Definition configMAX_PRIORITIES : Z := 7.
Definition tskIDLE_PRIORITY : Z := 0.
Definition taskEVENT_LIST_ITEM_VALUE_IN_USE : Z := 2 ^ 31.

(** [ucNotifyState] of a control block. *)
Inductive notify_state :=
  taskNOT_WAITING_NOTIFICATION | taskWAITING_NOTIFICATION | taskNOTIFICATION_RECEIVED.

#[export] Instance notify_state_eq_dec : EqDecision notify_state.
Proof. solve_decision. Defined.

(** The fields of [tskTCB] that the scheduler works on; the two list items live
    in the store, at the addresses below.  There is one notification per task
    ([configTASK_NOTIFICATION_ARRAY_ENTRIES] is 1). *)
Record TCB_t := mkTCB {
  uxPriority : Z;
  uxBasePriority : Z;
  uxMutexesHeld : Z;
  ulNotifiedValue : Z;
  ucNotifyState : notify_state
}.

Definition xStateListItem (tcb : Z) : ListItemPtr := Item (2 * tcb).
Definition xEventListItem (tcb : Z) : ListItemPtr := Item (2 * tcb + 1).

(** The static lists.  Their addresses stand for the linker's: distinct, and
    distinct from those of the event lists of queues and event groups. *)
Definition pxReadyTasksLists (priority : Z) : Z := priority.
Definition xDelayedTaskList1 : Z := 7.
Definition xDelayedTaskList2 : Z := 8.
Definition xPendingReadyList : Z := 9.
Definition xTasksWaitingTermination : Z := 10.
Definition xSuspendedTaskList : Z := 11.

(** The static variables of tasks.c. *)
Record kernel := mkKernel {
  task_lists : store;
  tcbs : gmap Z TCB_t;
  pxCurrentTCB : Z;
  pxDelayedTaskList : Z;
  pxOverflowDelayedTaskList : Z;
  uxCurrentNumberOfTasks : Z;
  xTickCount : Z;
  uxTopReadyPriority : Z;
  xSchedulerRunning : bool;
  xPendedTicks : Z;
  xYieldPending : bool;
  xNumOfOverflows : Z;
  uxTaskNumber : Z;
  xNextTaskUnblockTime : Z;
  uxSchedulerSuspended : Z;
  uxDeletedTasksWaitingCleanUp : Z
}.

(** ** Access to the kernel's state *)

Definition set_task_lists (s : store) (k : kernel) : kernel :=
  mkKernel s (tcbs k) (pxCurrentTCB k) (pxDelayedTaskList k) (pxOverflowDelayedTaskList k)
    (uxCurrentNumberOfTasks k) (xTickCount k) (uxTopReadyPriority k) (xSchedulerRunning k)
    (xPendedTicks k) (xYieldPending k) (xNumOfOverflows k) (uxTaskNumber k)
    (xNextTaskUnblockTime k) (uxSchedulerSuspended k)
    (uxDeletedTasksWaitingCleanUp k).
Definition set_tcbs (t : gmap Z TCB_t) (k : kernel) : kernel :=
  mkKernel (task_lists k) t (pxCurrentTCB k) (pxDelayedTaskList k) (pxOverflowDelayedTaskList k)
    (uxCurrentNumberOfTasks k) (xTickCount k) (uxTopReadyPriority k) (xSchedulerRunning k)
    (xPendedTicks k) (xYieldPending k) (xNumOfOverflows k) (uxTaskNumber k)
    (xNextTaskUnblockTime k) (uxSchedulerSuspended k)
    (uxDeletedTasksWaitingCleanUp k).
Definition set_pxCurrentTCB (v : Z) (k : kernel) : kernel :=
  mkKernel (task_lists k) (tcbs k) v (pxDelayedTaskList k) (pxOverflowDelayedTaskList k)
    (uxCurrentNumberOfTasks k) (xTickCount k) (uxTopReadyPriority k) (xSchedulerRunning k)
    (xPendedTicks k) (xYieldPending k) (xNumOfOverflows k) (uxTaskNumber k)
    (xNextTaskUnblockTime k) (uxSchedulerSuspended k)
    (uxDeletedTasksWaitingCleanUp k).
Definition set_delayed_lists (d o : Z) (k : kernel) : kernel :=
  mkKernel (task_lists k) (tcbs k) (pxCurrentTCB k) d o
    (uxCurrentNumberOfTasks k) (xTickCount k) (uxTopReadyPriority k) (xSchedulerRunning k)
    (xPendedTicks k) (xYieldPending k) (xNumOfOverflows k) (uxTaskNumber k)
    (xNextTaskUnblockTime k) (uxSchedulerSuspended k)
    (uxDeletedTasksWaitingCleanUp k).
Definition set_uxCurrentNumberOfTasks (v : Z) (k : kernel) : kernel :=
  mkKernel (task_lists k) (tcbs k) (pxCurrentTCB k) (pxDelayedTaskList k) (pxOverflowDelayedTaskList k)
    v (xTickCount k) (uxTopReadyPriority k) (xSchedulerRunning k)
    (xPendedTicks k) (xYieldPending k) (xNumOfOverflows k) (uxTaskNumber k)
    (xNextTaskUnblockTime k) (uxSchedulerSuspended k)
    (uxDeletedTasksWaitingCleanUp k).
Definition set_xTickCount (v : Z) (k : kernel) : kernel :=
  mkKernel (task_lists k) (tcbs k) (pxCurrentTCB k) (pxDelayedTaskList k) (pxOverflowDelayedTaskList k)
    (uxCurrentNumberOfTasks k) v (uxTopReadyPriority k) (xSchedulerRunning k)
    (xPendedTicks k) (xYieldPending k) (xNumOfOverflows k) (uxTaskNumber k)
    (xNextTaskUnblockTime k) (uxSchedulerSuspended k)
    (uxDeletedTasksWaitingCleanUp k).
Definition set_uxTopReadyPriority (v : Z) (k : kernel) : kernel :=
  mkKernel (task_lists k) (tcbs k) (pxCurrentTCB k) (pxDelayedTaskList k) (pxOverflowDelayedTaskList k)
    (uxCurrentNumberOfTasks k) (xTickCount k) v (xSchedulerRunning k)
    (xPendedTicks k) (xYieldPending k) (xNumOfOverflows k) (uxTaskNumber k)
    (xNextTaskUnblockTime k) (uxSchedulerSuspended k)
    (uxDeletedTasksWaitingCleanUp k).
Definition set_xPendedTicks (v : Z) (k : kernel) : kernel :=
  mkKernel (task_lists k) (tcbs k) (pxCurrentTCB k) (pxDelayedTaskList k) (pxOverflowDelayedTaskList k)
    (uxCurrentNumberOfTasks k) (xTickCount k) (uxTopReadyPriority k) (xSchedulerRunning k)
    v (xYieldPending k) (xNumOfOverflows k) (uxTaskNumber k)
    (xNextTaskUnblockTime k) (uxSchedulerSuspended k)
    (uxDeletedTasksWaitingCleanUp k).
Definition set_xYieldPending (v : bool) (k : kernel) : kernel :=
  mkKernel (task_lists k) (tcbs k) (pxCurrentTCB k) (pxDelayedTaskList k) (pxOverflowDelayedTaskList k)
    (uxCurrentNumberOfTasks k) (xTickCount k) (uxTopReadyPriority k) (xSchedulerRunning k)
    (xPendedTicks k) v (xNumOfOverflows k) (uxTaskNumber k)
    (xNextTaskUnblockTime k) (uxSchedulerSuspended k)
    (uxDeletedTasksWaitingCleanUp k).
Definition set_xNumOfOverflows (v : Z) (k : kernel) : kernel :=
  mkKernel (task_lists k) (tcbs k) (pxCurrentTCB k) (pxDelayedTaskList k) (pxOverflowDelayedTaskList k)
    (uxCurrentNumberOfTasks k) (xTickCount k) (uxTopReadyPriority k) (xSchedulerRunning k)
    (xPendedTicks k) (xYieldPending k) v (uxTaskNumber k)
    (xNextTaskUnblockTime k) (uxSchedulerSuspended k)
    (uxDeletedTasksWaitingCleanUp k).
Definition set_uxTaskNumber (v : Z) (k : kernel) : kernel :=
  mkKernel (task_lists k) (tcbs k) (pxCurrentTCB k) (pxDelayedTaskList k) (pxOverflowDelayedTaskList k)
    (uxCurrentNumberOfTasks k) (xTickCount k) (uxTopReadyPriority k) (xSchedulerRunning k)
    (xPendedTicks k) (xYieldPending k) (xNumOfOverflows k) v
    (xNextTaskUnblockTime k) (uxSchedulerSuspended k)
    (uxDeletedTasksWaitingCleanUp k).
Definition set_xNextTaskUnblockTime (v : Z) (k : kernel) : kernel :=
  mkKernel (task_lists k) (tcbs k) (pxCurrentTCB k) (pxDelayedTaskList k) (pxOverflowDelayedTaskList k)
    (uxCurrentNumberOfTasks k) (xTickCount k) (uxTopReadyPriority k) (xSchedulerRunning k)
    (xPendedTicks k) (xYieldPending k) (xNumOfOverflows k) (uxTaskNumber k)
    v (uxSchedulerSuspended k)
    (uxDeletedTasksWaitingCleanUp k).
Definition set_uxSchedulerSuspended (v : Z) (k : kernel) : kernel :=
  mkKernel (task_lists k) (tcbs k) (pxCurrentTCB k) (pxDelayedTaskList k) (pxOverflowDelayedTaskList k)
    (uxCurrentNumberOfTasks k) (xTickCount k) (uxTopReadyPriority k) (xSchedulerRunning k)
    (xPendedTicks k) (xYieldPending k) (xNumOfOverflows k) (uxTaskNumber k)
    (xNextTaskUnblockTime k) v
    (uxDeletedTasksWaitingCleanUp k).

Definition set_xSchedulerRunning (v : bool) (k : kernel) : kernel :=
  mkKernel (task_lists k) (tcbs k) (pxCurrentTCB k) (pxDelayedTaskList k) (pxOverflowDelayedTaskList k)
    (uxCurrentNumberOfTasks k) (xTickCount k) (uxTopReadyPriority k) v
    (xPendedTicks k) (xYieldPending k) (xNumOfOverflows k) (uxTaskNumber k)
    (xNextTaskUnblockTime k) (uxSchedulerSuspended k)
    (uxDeletedTasksWaitingCleanUp k).
Definition set_uxDeletedTasksWaitingCleanUp (v : Z) (k : kernel) : kernel :=
  mkKernel (task_lists k) (tcbs k) (pxCurrentTCB k) (pxDelayedTaskList k) (pxOverflowDelayedTaskList k)
    (uxCurrentNumberOfTasks k) (xTickCount k) (uxTopReadyPriority k) (xSchedulerRunning k)
    (xPendedTicks k) (xYieldPending k) (xNumOfOverflows k) (uxTaskNumber k)
    (xNextTaskUnblockTime k) (uxSchedulerSuspended k) v.

Definition with_priority (p : Z) (t : TCB_t) : TCB_t :=
  mkTCB p (uxBasePriority t) (uxMutexesHeld t) (ulNotifiedValue t) (ucNotifyState t).
Definition with_base_priority (p : Z) (t : TCB_t) : TCB_t :=
  mkTCB (uxPriority t) p (uxMutexesHeld t) (ulNotifiedValue t) (ucNotifyState t).
Definition with_mutexes (n : Z) (t : TCB_t) : TCB_t :=
  mkTCB (uxPriority t) (uxBasePriority t) n (ulNotifiedValue t) (ucNotifyState t).
Definition with_notified (v : Z) (t : TCB_t) : TCB_t :=
  mkTCB (uxPriority t) (uxBasePriority t) (uxMutexesHeld t) v (ucNotifyState t).
Definition with_notify_state (s : notify_state) (t : TCB_t) : TCB_t :=
  mkTCB (uxPriority t) (uxBasePriority t) (uxMutexesHeld t) (ulNotifiedValue t) s.

Abbreviation K := (prog kernel).

(** Through a pointer to a control block. *)
Definition get_tcb (t : Z) : K TCB_t := try_ask (fun k => tcbs k !! t).
Definition set_tcb (t : Z) (f : TCB_t -> TCB_t) : K unit :=
  try_update (fun k => tcb ← tcbs k !! t; Some (set_tcbs (<[t := f tcb]> (tcbs k)) k)).

(** Through the lists. *)
Definition on_lists (f : store -> option store) : K unit :=
  try_update (fun k => s ← f (task_lists k); Some (set_task_lists s k)).
Definition from_lists {A} (f : store -> option A) : K A := try_ask (fun k => f (task_lists k)).
Definition remove_item (p : ListItemPtr) : K Z :=
  fun k => '(n, s) ← uxListRemove p (task_lists k); Some (n, set_task_lists s k).

(** The inline versions of list.h do what the functions of list.c do. *)
Definition listREMOVE_ITEM (p : ListItemPtr) : K unit := _ ← remove_item p; mret tt.
Definition listINSERT_END (l : Z) (p : ListItemPtr) : K unit := on_lists (vListInsertEnd l p).

(** [listGET_OWNER_OF_NEXT_ENTRY] as a step of the kernel. *)
Definition next_owner (l : Z) : K Z :=
  fun k => '(o, s) ← listGET_OWNER_OF_NEXT_ENTRY l (task_lists k); Some (o, set_task_lists s k).

(** ** Ready lists *)

Definition taskRECORD_READY_PRIORITY (uxPriority : Z) : K unit :=
  update (fun k => if uxTopReadyPriority k <? uxPriority then set_uxTopReadyPriority uxPriority k
                   else k).

Definition prvAddTaskToReadyList (pxTCB : Z) : K unit :=
  tcb ← get_tcb pxTCB;
  _ ← taskRECORD_READY_PRIORITY (uxPriority tcb);
  listINSERT_END (pxReadyTasksLists (uxPriority tcb)) (xStateListItem pxTCB).

(** The [while] loop of [taskSELECT_HIGHEST_PRIORITY_TASK]; there is no list
    below priority 0, where the code asserts. *)
Fixpoint highest_ready (fuel : nat) (uxTopPriority : Z) (s : store) : option Z :=
  match fuel with
  | O => None
  | S fuel' =>
      empty ← listLIST_IS_EMPTY (pxReadyTasksLists uxTopPriority) s;
      if (empty : bool) then
        if uxTopPriority =? 0 then None else highest_ready fuel' (uxTopPriority - 1) s
      else Some uxTopPriority
  end.

Definition taskSELECT_HIGHEST_PRIORITY_TASK : K unit :=
  top ← ask uxTopReadyPriority;
  uxTopPriority ← from_lists (highest_ready (S (Z.to_nat top)) top);
  tcb ← next_owner (pxReadyTasksLists uxTopPriority);
  _ ← update (set_pxCurrentTCB tcb);
  update (set_uxTopReadyPriority uxTopPriority).

Definition vTaskSwitchContext : K unit :=
  suspended ← ask uxSchedulerSuspended;
  if negb (suspended =? 0) then update (set_xYieldPending true)
  else
    _ ← update (set_xYieldPending false);
    taskSELECT_HIGHEST_PRIORITY_TASK.

Definition prvInitialiseTaskLists : K unit :=
  _ ← update (fun k => set_task_lists
    (foldl (fun s l => vListInitialise l s) (task_lists k)
       ((pxReadyTasksLists <$> seqZ 0 configMAX_PRIORITIES) ++
        [xDelayedTaskList1; xDelayedTaskList2; xPendingReadyList; xTasksWaitingTermination;
         xSuspendedTaskList])) k);
  update (set_delayed_lists xDelayedTaskList1 xDelayedTaskList2).

(** Returns whether it yields. *)
Definition prvAddNewTaskToReadyList (pxNewTCB : Z) : K bool :=
  _ ← update (fun k => set_uxCurrentNumberOfTasks (u32 (uxCurrentNumberOfTasks k + 1)) k);
  current ← ask pxCurrentTCB;
  new ← get_tcb pxNewTCB;
  running ← ask xSchedulerRunning;
  _ ← (if current =? 0 then
         _ ← update (set_pxCurrentTCB pxNewTCB);
         n ← ask uxCurrentNumberOfTasks;
         when (n =? 1) prvInitialiseTaskLists
       else if negb running then
         cur ← get_tcb current;
         when (uxPriority cur <=? uxPriority new) (update (set_pxCurrentTCB pxNewTCB))
       else mret tt);
  _ ← update (fun k => set_uxTaskNumber (u32 (uxTaskNumber k + 1)) k);
  _ ← prvAddTaskToReadyList pxNewTCB;
  if (running : bool) then
    current ← ask pxCurrentTCB;
    cur ← get_tcb current;
    mret (uxPriority cur <? uxPriority new)
  else mret false.

(** ** Creating tasks, starting and stopping the scheduler *)

(** What [xTaskCreate] and [prvInitialiseNewTask] put into the zeroed memory of a new
    control block, as far as the scheduler is concerned (the stack, the name
    and the entry point are not modelled). *)
Definition prvInitialiseNewTask (uxPriority pxNewTCB : Z) : K unit :=
  _ ← configASSERT (uxPriority <? configMAX_PRIORITIES);
  let uxPriority :=
    if configMAX_PRIORITIES <=? uxPriority then configMAX_PRIORITIES - 1 else uxPriority in
  let zero_item := mkItem 0 (Item 0) (Item 0) 0 None in
  _ ← update (fun k => set_task_lists
        (mkStore (<[xStateListItem pxNewTCB := zero_item]>
                   (<[xEventListItem pxNewTCB := zero_item]> (items (task_lists k))))
                 (lists (task_lists k))) k);
  _ ← update (fun k => set_tcbs
        (<[pxNewTCB := mkTCB uxPriority uxPriority 0 0 taskNOT_WAITING_NOTIFICATION]> (tcbs k)) k);
  _ ← on_lists (vListInitialiseItem (xStateListItem pxNewTCB));
  _ ← on_lists (vListInitialiseItem (xEventListItem pxNewTCB));
  _ ← on_lists (listSET_LIST_ITEM_OWNER (xStateListItem pxNewTCB) pxNewTCB);
  _ ← on_lists (listSET_LIST_ITEM_VALUE (xEventListItem pxNewTCB) (u32 (configMAX_PRIORITIES - uxPriority)));
  on_lists (listSET_LIST_ITEM_OWNER (xEventListItem pxNewTCB) pxNewTCB).

(** [xTaskCreate] once both allocations have succeeded. *)
Definition create_task (uxPriority pxNewTCB : Z) : K bool :=
  _ ← prvInitialiseNewTask uxPriority pxNewTCB; prvAddNewTaskToReadyList pxNewTCB.

(** ** Time *)

Definition prvResetNextTaskUnblockTime : K unit :=
  l ← ask pxDelayedTaskList;
  empty ← from_lists (listLIST_IS_EMPTY l);
  if (empty : bool) then update (set_xNextTaskUnblockTime portMAX_DELAY)
  else
    t ← from_lists (listGET_ITEM_VALUE_OF_HEAD_ENTRY l);
    update (set_xNextTaskUnblockTime t).

Definition taskSWITCH_DELAYED_LISTS : K unit :=
  l ← ask pxDelayedTaskList;
  empty ← from_lists (listLIST_IS_EMPTY l);
  _ ← configASSERT empty;
  _ ← update (fun k => set_delayed_lists (pxOverflowDelayedTaskList k) (pxDelayedTaskList k) k);
  _ ← update (fun k => set_xNumOfOverflows (u32 (xNumOfOverflows k + 1)) k);
  prvResetNextTaskUnblockTime.

Definition prvAddCurrentTaskToDelayedList (xTicksToWait : Z) (xCanBlockIndefinitely : bool) : K unit :=
  xConstTickCount ← ask xTickCount;
  current ← ask pxCurrentTCB;
  _ ← remove_item (xStateListItem current);
  if (xTicksToWait =? portMAX_DELAY) && xCanBlockIndefinitely then
    listINSERT_END xSuspendedTaskList (xStateListItem current)
  else
    let xTimeToWake := u32 (xConstTickCount + xTicksToWait) in
    _ ← on_lists (listSET_LIST_ITEM_VALUE (xStateListItem current) xTimeToWake);
    if xTimeToWake <? xConstTickCount then
      l ← ask pxOverflowDelayedTaskList;
      on_lists (vListInsert l (xStateListItem current))
    else
      l ← ask pxDelayedTaskList;
      _ ← on_lists (vListInsert l (xStateListItem current));
      update (fun k => if xTimeToWake <? xNextTaskUnblockTime k
                       then set_xNextTaskUnblockTime xTimeToWake k else k).

(** Off the event list that the task may wait on. *)
Definition leave_event_list (t : Z) : K unit :=
  event ← from_lists (fun s => pxContainer <$> items s !! xEventListItem t);
  when (bool_decide (event <> None)) (listREMOVE_ITEM (xEventListItem t)).

Definition wake_task (pxTCB : Z) : K unit :=
  _ ← listREMOVE_ITEM (xStateListItem pxTCB);
  _ ← leave_event_list pxTCB;
  prvAddTaskToReadyList pxTCB.

(** The [for] loop of [xTaskIncrementTick]: wake the tasks whose time has come.
    One iteration per task of the delayed list, and the last one. *)
Fixpoint wake_delayed (fuel : nat) (xConstTickCount : Z) (xSwitchRequired : bool) : K bool :=
  match fuel with
  | O => fun _ => None
  | S fuel' =>
      l ← ask pxDelayedTaskList;
      empty ← from_lists (listLIST_IS_EMPTY l);
      if (empty : bool) then
        _ ← update (set_xNextTaskUnblockTime portMAX_DELAY);
        mret xSwitchRequired
      else
        pxTCB ← from_lists (listGET_OWNER_OF_HEAD_ENTRY l);
        xItemValue ← from_lists (listGET_LIST_ITEM_VALUE (xStateListItem pxTCB));
        if xConstTickCount <? xItemValue then
          _ ← update (set_xNextTaskUnblockTime xItemValue);
          mret xSwitchRequired
        else
          _ ← wake_task pxTCB;
          tcb ← get_tcb pxTCB;
          current ← ask pxCurrentTCB;
          cur ← get_tcb current;
          wake_delayed fuel' xConstTickCount
            (if uxPriority cur <? uxPriority tcb then true else xSwitchRequired)
  end.

Definition delayed_length (k : kernel) : nat :=
  Z.to_nat (default 0 (listCURRENT_LIST_LENGTH (pxDelayedTaskList k) (task_lists k))).

(** Count the tick, and swap the lists when the count wraps. *)
Definition tick_count : K Z :=
  _ ← update (fun k => set_xTickCount (u32 (xTickCount k + 1)) k);
  xConstTickCount ← ask xTickCount;
  _ ← when (xConstTickCount =? 0) taskSWITCH_DELAYED_LISTS;
  mret xConstTickCount.

(** Wake the tasks that are due, if some task may be. *)
Definition tick_wake (xConstTickCount : Z) : K bool :=
  next ← ask xNextTaskUnblockTime;
  fuel ← ask delayed_length;
  if next <=? xConstTickCount then wake_delayed (S fuel) xConstTickCount false else mret false.

Definition xTaskIncrementTick : K bool :=
  suspended ← ask uxSchedulerSuspended;
  if suspended =? 0 then
    xConstTickCount ← tick_count;
    xSwitchRequired ← tick_wake xConstTickCount;
    current ← ask pxCurrentTCB;
    cur ← get_tcb current;
    peers ← from_lists (listCURRENT_LIST_LENGTH (pxReadyTasksLists (uxPriority cur)));
    pending ← ask xYieldPending;
    mret (xSwitchRequired || (1 <? peers) || pending)
  else
    _ ← update (fun k => set_xPendedTicks (u32 (xPendedTicks k + 1)) k);
    mret false.

(** ** Suspending and resuming the scheduler *)

Definition vTaskSuspendAll : K unit :=
  update (fun k => set_uxSchedulerSuspended (u32 (uxSchedulerSuspended k + 1)) k).

(** The [while] loop of [xTaskResumeAll] over the pending ready list; returns
    the last task moved ([pxTCB], 0 for null). *)
Fixpoint move_pending (fuel : nat) (pxTCB : Z) : K Z :=
  match fuel with
  | O => fun _ => None
  | S fuel' =>
      empty ← from_lists (listLIST_IS_EMPTY xPendingReadyList);
      if (empty : bool) then mret pxTCB
      else
        pxTCB ← from_lists (listGET_OWNER_OF_HEAD_ENTRY xPendingReadyList);
        _ ← listREMOVE_ITEM (xEventListItem pxTCB);
        _ ← listREMOVE_ITEM (xStateListItem pxTCB);
        _ ← prvAddTaskToReadyList pxTCB;
        tcb ← get_tcb pxTCB;
        current ← ask pxCurrentTCB;
        cur ← get_tcb current;
        _ ← when (uxPriority cur <=? uxPriority tcb) (update (set_xYieldPending true));
        move_pending fuel' pxTCB
  end.

(** The [do] loop over the ticks that were held pending. *)
Fixpoint unwind_ticks (xPendedCounts : nat) : K unit :=
  match xPendedCounts with
  | O => mret tt
  | S n =>
      switch ← xTaskIncrementTick;
      _ ← when switch (update (set_xYieldPending true));
      unwind_ticks n
  end.

Definition pending_length (k : kernel) : nat :=
  Z.to_nat (default 0 (listCURRENT_LIST_LENGTH xPendingReadyList (task_lists k))).

(** Returns [xAlreadyYielded]: it yields exactly then. *)
Definition xTaskResumeAll : K bool :=
  suspended ← ask uxSchedulerSuspended;
  _ ← configASSERT (negb (suspended =? 0));
  _ ← update (fun k => set_uxSchedulerSuspended (u32 (uxSchedulerSuspended k - 1)) k);
  suspended ← ask uxSchedulerSuspended;
  n ← ask uxCurrentNumberOfTasks;
  if (suspended =? 0) && (0 <? n) then
    fuel ← ask pending_length;
    pxTCB ← move_pending (S fuel) 0;
    _ ← when (negb (pxTCB =? 0)) prvResetNextTaskUnblockTime;
    xPendedCounts ← ask xPendedTicks;
    _ ← when (0 <? xPendedCounts)
          (_ ← unwind_ticks (Z.to_nat xPendedCounts); update (set_xPendedTicks 0));
    ask xYieldPending
  else mret false.

(** ** Delays *)

(** Returns whether [vTaskDelay] itself asks for the switch. *)
Definition vTaskDelay (xTicksToDelay : Z) : K bool :=
  xAlreadyYielded ←
    (if 0 <? xTicksToDelay then
       suspended ← ask uxSchedulerSuspended;
       _ ← configASSERT (suspended =? 0);
       _ ← vTaskSuspendAll;
       _ ← prvAddCurrentTaskToDelayedList xTicksToDelay false;
       xTaskResumeAll
     else mret false);
  mret (negb xAlreadyYielded).

(** The decision of [xTaskDelayUntil]. *)
Definition should_delay (xConstTickCount xPreviousWakeTime xTimeToWake : Z) : bool :=
  if xConstTickCount <? xPreviousWakeTime then
    (xTimeToWake <? xPreviousWakeTime) && (xConstTickCount <? xTimeToWake)
  else (xTimeToWake <? xPreviousWakeTime) || (xConstTickCount <? xTimeToWake).

(** Returns [xShouldDelay], the updated [*pxPreviousWakeTime] and whether the
    function itself asks for the switch. *)
Definition xTaskDelayUntil (xPreviousWakeTime xTimeIncrement : Z) : K (bool * Z * bool) :=
  _ ← configASSERT (0 <? xTimeIncrement);
  suspended ← ask uxSchedulerSuspended;
  _ ← configASSERT (suspended =? 0);
  _ ← vTaskSuspendAll;
  xConstTickCount ← ask xTickCount;
  let xTimeToWake := u32 (xPreviousWakeTime + xTimeIncrement) in
  let xShouldDelay := should_delay xConstTickCount xPreviousWakeTime xTimeToWake in
  _ ← when xShouldDelay
        (prvAddCurrentTaskToDelayedList (u32 (xTimeToWake - xConstTickCount)) false);
  xAlreadyYielded ← xTaskResumeAll;
  mret (xShouldDelay, xTimeToWake, negb xAlreadyYielded).

(** ** Event lists *)

Definition vTaskPlaceOnEventList (pxEventList xTicksToWait : Z) : K unit :=
  current ← ask pxCurrentTCB;
  _ ← on_lists (vListInsert pxEventList (xEventListItem current));
  prvAddCurrentTaskToDelayedList xTicksToWait true.

Definition vTaskPlaceOnUnorderedEventList (pxEventList xItemValue xTicksToWait : Z) : K unit :=
  suspended ← ask uxSchedulerSuspended;
  _ ← configASSERT (negb (suspended =? 0));
  current ← ask pxCurrentTCB;
  _ ← on_lists (listSET_LIST_ITEM_VALUE (xEventListItem current)
                  (Z.lor xItemValue taskEVENT_LIST_ITEM_VALUE_IN_USE));
  _ ← listINSERT_END pxEventList (xEventListItem current);
  prvAddCurrentTaskToDelayedList xTicksToWait true.

Definition vTaskPlaceOnEventListRestricted (pxEventList xTicksToWait : Z) (xWaitIndefinitely : bool)
  : K unit :=
  current ← ask pxCurrentTCB;
  _ ← listINSERT_END pxEventList (xEventListItem current);
  prvAddCurrentTaskToDelayedList (if xWaitIndefinitely then portMAX_DELAY else xTicksToWait)
    xWaitIndefinitely.

Definition xTaskRemoveFromEventList (pxEventList : Z) : K bool :=
  pxUnblockedTCB ← from_lists (listGET_OWNER_OF_HEAD_ENTRY pxEventList);
  _ ← listREMOVE_ITEM (xEventListItem pxUnblockedTCB);
  suspended ← ask uxSchedulerSuspended;
  _ ← (if suspended =? 0 then
         _ ← listREMOVE_ITEM (xStateListItem pxUnblockedTCB);
         prvAddTaskToReadyList pxUnblockedTCB
       else listINSERT_END xPendingReadyList (xEventListItem pxUnblockedTCB));
  tcb ← get_tcb pxUnblockedTCB;
  current ← ask pxCurrentTCB;
  cur ← get_tcb current;
  if uxPriority cur <? uxPriority tcb then
    _ ← update (set_xYieldPending true);
    mret true
  else mret false.

Definition vTaskRemoveFromUnorderedEventList (pxEventListItem : ListItemPtr) (xItemValue : Z) : K unit :=
  suspended ← ask uxSchedulerSuspended;
  _ ← configASSERT (negb (suspended =? 0));
  _ ← on_lists (listSET_LIST_ITEM_VALUE pxEventListItem
                  (Z.lor xItemValue taskEVENT_LIST_ITEM_VALUE_IN_USE));
  pxUnblockedTCB ← from_lists (fun s => pvOwner <$> items s !! pxEventListItem);
  _ ← listREMOVE_ITEM pxEventListItem;
  _ ← listREMOVE_ITEM (xStateListItem pxUnblockedTCB);
  _ ← prvAddTaskToReadyList pxUnblockedTCB;
  tcb ← get_tcb pxUnblockedTCB;
  current ← ask pxCurrentTCB;
  cur ← get_tcb current;
  when (uxPriority cur <? uxPriority tcb) (update (set_xYieldPending true)).

Definition uxTaskResetEventItemValue : K Z :=
  current ← ask pxCurrentTCB;
  uxReturn ← from_lists (listGET_LIST_ITEM_VALUE (xEventListItem current));
  cur ← get_tcb current;
  _ ← on_lists (listSET_LIST_ITEM_VALUE (xEventListItem current)
                  (u32 (configMAX_PRIORITIES - uxPriority cur)));
  mret uxReturn.

Definition vTaskMissedYield : K unit := update (set_xYieldPending true).

Definition uxTaskGetNumberOfTasks : K Z := ask uxCurrentNumberOfTasks.

(** ** Time-outs *)

Record TimeOut_t := mkTimeOut { xOverflowCount : Z; xTimeOnEntering : Z }.

Definition vTaskInternalSetTimeOutState : K TimeOut_t :=
  ask (fun k => mkTimeOut (xNumOfOverflows k) (xTickCount k)).

(** The result, and the new [*pxTimeOut] and [*pxTicksToWait]. *)
Definition xTaskCheckForTimeOut (pxTimeOut : TimeOut_t) (pxTicksToWait : Z)
  : K (bool * TimeOut_t * Z) :=
  xConstTickCount ← ask xTickCount;
  overflows ← ask xNumOfOverflows;
  let xElapsedTime := u32 (xConstTickCount - xTimeOnEntering pxTimeOut) in
  if pxTicksToWait =? portMAX_DELAY then mret (false, pxTimeOut, pxTicksToWait)
  else if negb (overflows =? xOverflowCount pxTimeOut)
          && (xTimeOnEntering pxTimeOut <=? xConstTickCount) then mret (true, pxTimeOut, 0)
  else if xElapsedTime <? pxTicksToWait then
    t ← vTaskInternalSetTimeOutState;
    mret (false, t, u32 (pxTicksToWait - xElapsedTime))
  else mret (true, pxTimeOut, 0).

(** ** Priorities and mutexes *)

Definition value_in_use (v : Z) : bool := negb (Z.land v taskEVENT_LIST_ITEM_VALUE_IN_USE =? 0).

(** Set the event item's value to the reversed priority unless it is in use. *)
Definition reset_event_value (t uxNewPriority : Z) : K unit :=
  v ← from_lists (listGET_LIST_ITEM_VALUE (xEventListItem t));
  when (negb (value_in_use v))
    (on_lists (listSET_LIST_ITEM_VALUE (xEventListItem t) (u32 (configMAX_PRIORITIES - uxNewPriority)))).

Definition xTaskPriorityInherit (pxMutexHolder : Z) : K bool :=
  if pxMutexHolder =? 0 then mret false
  else
    holder ← get_tcb pxMutexHolder;
    current ← ask pxCurrentTCB;
    cur ← get_tcb current;
    if uxPriority holder <? uxPriority cur then
      _ ← reset_event_value pxMutexHolder (uxPriority cur);
      ready ← from_lists (listIS_CONTAINED_WITHIN (pxReadyTasksLists (uxPriority holder))
                            (xStateListItem pxMutexHolder));
      _ ← (if (ready : bool) then
             _ ← remove_item (xStateListItem pxMutexHolder);
             _ ← set_tcb pxMutexHolder (with_priority (uxPriority cur));
             prvAddTaskToReadyList pxMutexHolder
           else set_tcb pxMutexHolder (with_priority (uxPriority cur)));
      mret true
    else mret (uxBasePriority holder <? uxPriority cur).

Definition xTaskPriorityDisinherit (pxMutexHolder : Z) : K bool :=
  if pxMutexHolder =? 0 then mret false
  else
    current ← ask pxCurrentTCB;
    _ ← configASSERT (pxMutexHolder =? current);
    tcb ← get_tcb pxMutexHolder;
    _ ← configASSERT (negb (uxMutexesHeld tcb =? 0));
    _ ← set_tcb pxMutexHolder (fun t => with_mutexes (u32 (uxMutexesHeld t - 1)) t);
    tcb ← get_tcb pxMutexHolder;
    if negb (uxPriority tcb =? uxBasePriority tcb) && (uxMutexesHeld tcb =? 0) then
      _ ← remove_item (xStateListItem pxMutexHolder);
      _ ← set_tcb pxMutexHolder (fun t => with_priority (uxBasePriority t) t);
      _ ← on_lists (listSET_LIST_ITEM_VALUE (xEventListItem pxMutexHolder)
                      (u32 (configMAX_PRIORITIES - uxBasePriority tcb)));
      _ ← prvAddTaskToReadyList pxMutexHolder;
      mret true
    else mret false.

Definition vTaskPriorityDisinheritAfterTimeout (pxMutexHolder uxHighestPriorityWaitingTask : Z)
  : K unit :=
  if pxMutexHolder =? 0 then mret tt
  else
    tcb ← get_tcb pxMutexHolder;
    _ ← configASSERT (negb (uxMutexesHeld tcb =? 0));
    let uxPriorityToUse :=
      if uxBasePriority tcb <? uxHighestPriorityWaitingTask then uxHighestPriorityWaitingTask
      else uxBasePriority tcb in
    if negb (uxPriority tcb =? uxPriorityToUse) && (uxMutexesHeld tcb =? 1) then
      current ← ask pxCurrentTCB;
      _ ← configASSERT (negb (pxMutexHolder =? current));
      let uxPriorityUsedOnEntry := uxPriority tcb in
      _ ← set_tcb pxMutexHolder (with_priority uxPriorityToUse);
      _ ← reset_event_value pxMutexHolder uxPriorityToUse;
      ready ← from_lists (listIS_CONTAINED_WITHIN (pxReadyTasksLists uxPriorityUsedOnEntry)
                            (xStateListItem pxMutexHolder));
      when ready
        (_ ← remove_item (xStateListItem pxMutexHolder); prvAddTaskToReadyList pxMutexHolder)
    else mret tt.

Definition pvTaskIncrementMutexHeldCount : K Z :=
  current ← ask pxCurrentTCB;
  _ ← when (negb (current =? 0))
        (set_tcb current (fun t => with_mutexes (u32 (uxMutexesHeld t + 1)) t));
  mret current.

(** [NULL] stands for the running task. *)
Definition prvGetTCBFromHandle (pxHandle : Z) : K Z :=
  current ← ask pxCurrentTCB;
  mret (if pxHandle =? 0 then current else pxHandle).

(** Returns whether it yields. *)
Definition vTaskPrioritySet (xTask uxNewPriority : Z) : K bool :=
  _ ← configASSERT (uxNewPriority <? configMAX_PRIORITIES);
  let uxNewPriority :=
    if configMAX_PRIORITIES <=? uxNewPriority then configMAX_PRIORITIES - 1 else uxNewPriority in
  pxTCB ← prvGetTCBFromHandle xTask;
  tcb ← get_tcb pxTCB;
  let uxCurrentBasePriority := uxBasePriority tcb in
  if uxCurrentBasePriority =? uxNewPriority then mret false
  else
    current ← ask pxCurrentTCB;
    cur ← get_tcb current;
    let xYieldRequired :=
      if uxCurrentBasePriority <? uxNewPriority then
        negb (pxTCB =? current) && (uxPriority cur <=? uxNewPriority)
      else pxTCB =? current in
    let uxPriorityUsedOnEntry := uxPriority tcb in
    _ ← set_tcb pxTCB (fun t =>
          with_base_priority uxNewPriority
            (if uxBasePriority t =? uxPriority t then with_priority uxNewPriority t else t));
    _ ← reset_event_value pxTCB uxNewPriority;
    ready ← from_lists (listIS_CONTAINED_WITHIN (pxReadyTasksLists uxPriorityUsedOnEntry)
                          (xStateListItem pxTCB));
    _ ← when ready (_ ← remove_item (xStateListItem pxTCB); prvAddTaskToReadyList pxTCB);
    mret xYieldRequired.

(** ** Suspending and resuming tasks *)

(** Returns whether it yields. *)
Definition vTaskSuspend (xTaskToSuspend : Z) : K bool :=
  pxTCB ← prvGetTCBFromHandle xTaskToSuspend;
  _ ← remove_item (xStateListItem pxTCB);
  _ ← leave_event_list pxTCB;
  _ ← on_lists (vListInsertEnd xSuspendedTaskList (xStateListItem pxTCB));
  _ ← set_tcb pxTCB (fun t =>
        if decide (ucNotifyState t = taskWAITING_NOTIFICATION)
        then with_notify_state taskNOT_WAITING_NOTIFICATION t else t);
  running ← ask xSchedulerRunning;
  _ ← when running prvResetNextTaskUnblockTime;
  current ← ask pxCurrentTCB;
  if pxTCB =? current then
    if (running : bool) then
      suspended ← ask uxSchedulerSuspended;
      _ ← configASSERT (suspended =? 0);
      mret true
    else
      n ← from_lists (listCURRENT_LIST_LENGTH xSuspendedTaskList);
      tasks ← ask uxCurrentNumberOfTasks;
      _ ← (if n =? tasks then update (set_pxCurrentTCB 0) else vTaskSwitchContext);
      mret false
  else mret false.

Definition prvTaskIsTaskSuspended (xTask : Z) : K bool :=
  _ ← configASSERT (negb (xTask =? 0));
  suspended ← from_lists (listIS_CONTAINED_WITHIN xSuspendedTaskList (xStateListItem xTask));
  pending ← from_lists (listIS_CONTAINED_WITHIN xPendingReadyList (xEventListItem xTask));
  event ← from_lists (fun s => pxContainer <$> items s !! xEventListItem xTask);
  mret (suspended && negb pending && bool_decide (event = None)).

(** Returns whether it yields. *)
Definition vTaskResume (xTaskToResume : Z) : K bool :=
  _ ← configASSERT (negb (xTaskToResume =? 0));
  current ← ask pxCurrentTCB;
  if negb (xTaskToResume =? current) && negb (xTaskToResume =? 0) then
    suspended ← prvTaskIsTaskSuspended xTaskToResume;
    if (suspended : bool) then
      _ ← remove_item (xStateListItem xTaskToResume);
      _ ← prvAddTaskToReadyList xTaskToResume;
      tcb ← get_tcb xTaskToResume;
      cur ← get_tcb current;
      mret (uxPriority cur <=? uxPriority tcb)
    else mret false
  else mret false.

Definition xTaskResumeFromISR (xTaskToResume : Z) : K bool :=
  _ ← configASSERT (negb (xTaskToResume =? 0));
  suspended ← prvTaskIsTaskSuspended xTaskToResume;
  if (suspended : bool) then
    locked ← ask uxSchedulerSuspended;
    if locked =? 0 then
      tcb ← get_tcb xTaskToResume;
      current ← ask pxCurrentTCB;
      cur ← get_tcb current;
      let xYieldRequired := uxPriority cur <=? uxPriority tcb in
      _ ← when xYieldRequired (update (set_xYieldPending true));
      _ ← remove_item (xStateListItem xTaskToResume);
      _ ← prvAddTaskToReadyList xTaskToResume;
      mret xYieldRequired
    else
      _ ← on_lists (vListInsertEnd xPendingReadyList (xEventListItem xTaskToResume));
      mret false
  else mret false.

(** ** Task notifications *)

Inductive eNotifyAction :=
  eNoAction | eSetBits | eIncrement | eSetValueWithOverwrite | eSetValueWithoutOverwrite.

(** The [switch] of the notify functions: the new value and [xReturn]. *)
Definition notify_value (eAction : eNotifyAction) (ulValue old : Z) (original : notify_state) : Z * bool :=
  match eAction with
  | eSetBits => (Z.lor old ulValue, true)
  | eIncrement => (u32 (old + 1), true)
  | eSetValueWithOverwrite => (ulValue, true)
  | eSetValueWithoutOverwrite =>
      if decide (original = taskNOTIFICATION_RECEIVED) then (old, false) else (ulValue, true)
  | eNoAction => (old, true)
  end.

(** A task that waits for a notification is on no event list. *)
Definition assert_no_event (t : Z) : K unit :=
  event ← from_lists (fun s => pxContainer <$> items s !! xEventListItem t);
  configASSERT (bool_decide (event = None)).

(** Returns [xReturn], the previous value and whether it yields. *)
Definition xTaskGenericNotify (xTaskToNotify ulValue : Z) (eAction : eNotifyAction)
  : K (bool * Z * bool) :=
  _ ← configASSERT (negb (xTaskToNotify =? 0));
  tcb ← get_tcb xTaskToNotify;
  let ucOriginalNotifyState := ucNotifyState tcb in
  let '(v, xReturn) := notify_value eAction ulValue (ulNotifiedValue tcb) ucOriginalNotifyState in
  _ ← set_tcb xTaskToNotify (fun t => with_notified v (with_notify_state taskNOTIFICATION_RECEIVED t));
  if decide (ucOriginalNotifyState = taskWAITING_NOTIFICATION) then
    _ ← listREMOVE_ITEM (xStateListItem xTaskToNotify);
    _ ← prvAddTaskToReadyList xTaskToNotify;
    _ ← assert_no_event xTaskToNotify;
    current ← ask pxCurrentTCB;
    cur ← get_tcb current;
    mret (xReturn, ulNotifiedValue tcb, uxPriority cur <? uxPriority tcb)
  else mret (xReturn, ulNotifiedValue tcb, false).

(** Wake a task from an interrupt; returns [*pxHigherPriorityTaskWoken]. *)
Definition wake_from_isr (pxTCB : Z) : K bool :=
  _ ← assert_no_event pxTCB;
  suspended ← ask uxSchedulerSuspended;
  _ ← (if suspended =? 0 then
         _ ← listREMOVE_ITEM (xStateListItem pxTCB); prvAddTaskToReadyList pxTCB
       else listINSERT_END xPendingReadyList (xEventListItem pxTCB));
  tcb ← get_tcb pxTCB;
  current ← ask pxCurrentTCB;
  cur ← get_tcb current;
  if uxPriority cur <? uxPriority tcb then
    _ ← update (set_xYieldPending true);
    mret true
  else mret false.

Definition xTaskGenericNotifyFromISR (xTaskToNotify ulValue : Z) (eAction : eNotifyAction)
  : K (bool * Z * bool) :=
  _ ← configASSERT (negb (xTaskToNotify =? 0));
  tcb ← get_tcb xTaskToNotify;
  let ucOriginalNotifyState := ucNotifyState tcb in
  let '(v, xReturn) := notify_value eAction ulValue (ulNotifiedValue tcb) ucOriginalNotifyState in
  _ ← set_tcb xTaskToNotify (fun t => with_notified v (with_notify_state taskNOTIFICATION_RECEIVED t));
  woken ← (if decide (ucOriginalNotifyState = taskWAITING_NOTIFICATION) then wake_from_isr xTaskToNotify
           else mret false);
  mret (xReturn, ulNotifiedValue tcb, woken).

Definition vTaskGenericNotifyGiveFromISR (xTaskToNotify : Z) : K bool :=
  _ ← configASSERT (negb (xTaskToNotify =? 0));
  tcb ← get_tcb xTaskToNotify;
  _ ← set_tcb xTaskToNotify (fun t =>
        with_notified (u32 (ulNotifiedValue t + 1)) (with_notify_state taskNOTIFICATION_RECEIVED t));
  if decide (ucNotifyState tcb = taskWAITING_NOTIFICATION) then wake_from_isr xTaskToNotify
  else mret false.

(** [ulTaskGenericNotifyTake] and [xTaskGenericNotifyWait] are two critical
    sections each; between them the task may be switched out. The first one
    returns whether it yields. *)
Definition notify_take_enter (xTicksToWait : Z) : K bool :=
  current ← ask pxCurrentTCB;
  cur ← get_tcb current;
  if ulNotifiedValue cur =? 0 then
    _ ← set_tcb current (with_notify_state taskWAITING_NOTIFICATION);
    if 0 <? xTicksToWait then
      _ ← prvAddCurrentTaskToDelayedList xTicksToWait true; mret true
    else mret false
  else mret false.

Definition notify_take_exit (xClearCountOnExit : bool) : K Z :=
  current ← ask pxCurrentTCB;
  cur ← get_tcb current;
  let ulReturn := ulNotifiedValue cur in
  _ ← when (negb (ulReturn =? 0))
        (set_tcb current (with_notified (if xClearCountOnExit then 0 else u32 (ulReturn - 1))));
  _ ← set_tcb current (with_notify_state taskNOT_WAITING_NOTIFICATION);
  mret ulReturn.

Definition notify_wait_enter (ulBitsToClearOnEntry xTicksToWait : Z) : K bool :=
  current ← ask pxCurrentTCB;
  cur ← get_tcb current;
  if decide (ucNotifyState cur <> taskNOTIFICATION_RECEIVED) then
    _ ← set_tcb current (fun t =>
          with_notify_state taskWAITING_NOTIFICATION
            (with_notified (Z.ldiff (ulNotifiedValue t) ulBitsToClearOnEntry) t));
    if 0 <? xTicksToWait then
      _ ← prvAddCurrentTaskToDelayedList xTicksToWait true; mret true
    else mret false
  else mret false.

Definition notify_wait_exit (ulBitsToClearOnExit : Z) : K (bool * Z) :=
  current ← ask pxCurrentTCB;
  cur ← get_tcb current;
  let received := bool_decide (ucNotifyState cur = taskNOTIFICATION_RECEIVED) in
  _ ← when received
        (set_tcb current (fun t =>
           with_notified (Z.ldiff (ulNotifiedValue t) ulBitsToClearOnExit) t));
  _ ← set_tcb current (with_notify_state taskNOT_WAITING_NOTIFICATION);
  mret (received, ulNotifiedValue cur).

Definition xTaskGenericNotifyStateClear (xTask : Z) : K bool :=
  pxTCB ← prvGetTCBFromHandle xTask;
  tcb ← get_tcb pxTCB;
  if decide (ucNotifyState tcb = taskNOTIFICATION_RECEIVED) then
    _ ← set_tcb pxTCB (with_notify_state taskNOT_WAITING_NOTIFICATION);
    mret true
  else mret false.

Definition ulTaskGenericNotifyValueClear (xTask ulBitsToClear : Z) : K Z :=
  pxTCB ← prvGetTCBFromHandle xTask;
  tcb ← get_tcb pxTCB;
  _ ← set_tcb pxTCB (fun t => with_notified (Z.ldiff (ulNotifiedValue t) ulBitsToClear) t);
  mret (ulNotifiedValue tcb).

(** ** Starting the scheduler, deleting tasks *)

(** [vTaskStartScheduler] once the idle and timer tasks are created, up to the
    port's first dispatch; [configINITIAL_TICK_COUNT] is 0. *)
Definition start_scheduler : K unit :=
  _ ← update (set_xNextTaskUnblockTime portMAX_DELAY);
  _ ← update (set_xSchedulerRunning true);
  update (set_xTickCount 0).

Definition vTaskEndScheduler : K unit := update (set_xSchedulerRunning false).

(** The memory of a control block goes back to the heap: later uses are errors. *)
Definition prvDeleteTCB (pxTCB : Z) : K unit :=
  _ ← update (fun k => set_task_lists
        (mkStore (delete (xStateListItem pxTCB) (delete (xEventListItem pxTCB) (items (task_lists k))))
                 (lists (task_lists k))) k);
  update (fun k => set_tcbs (delete pxTCB (tcbs k)) k).

(** Returns whether it yields. *)
Definition vTaskDelete (xTaskToDelete : Z) : K bool :=
  pxTCB ← prvGetTCBFromHandle xTaskToDelete;
  _ ← remove_item (xStateListItem pxTCB);
  _ ← leave_event_list pxTCB;
  _ ← update (fun k => set_uxTaskNumber (u32 (uxTaskNumber k + 1)) k);
  current ← ask pxCurrentTCB;
  if pxTCB =? current then
    _ ← on_lists (vListInsertEnd xTasksWaitingTermination (xStateListItem pxTCB));
    _ ← update (fun k => set_uxDeletedTasksWaitingCleanUp (u32 (uxDeletedTasksWaitingCleanUp k + 1)) k);
    running ← ask xSchedulerRunning;
    _ ← when running (suspended ← ask uxSchedulerSuspended; configASSERT (suspended =? 0));
    mret running
  else
    _ ← update (fun k => set_uxCurrentNumberOfTasks (u32 (uxCurrentNumberOfTasks k - 1)) k);
    _ ← prvResetNextTaskUnblockTime;
    _ ← prvDeleteTCB pxTCB;
    mret false.

(** The idle task's clean-up loop: [fuel] is the number of tasks to delete. *)
Fixpoint cleanup_loop (fuel : nat) : K unit :=
  match fuel with
  | O => mret tt
  | S fuel' =>
      pxTCB ← from_lists (listGET_OWNER_OF_HEAD_ENTRY xTasksWaitingTermination);
      _ ← remove_item (xStateListItem pxTCB);
      _ ← update (fun k => set_uxCurrentNumberOfTasks (u32 (uxCurrentNumberOfTasks k - 1)) k);
      _ ← update (fun k => set_uxDeletedTasksWaitingCleanUp (u32 (uxDeletedTasksWaitingCleanUp k - 1)) k);
      _ ← prvDeleteTCB pxTCB;
      cleanup_loop fuel'
  end.

Definition prvCheckTasksWaitingTermination : K unit :=
  n ← ask uxDeletedTasksWaitingCleanUp;
  cleanup_loop (Z.to_nat n).

(** ** Queries *)

Inductive eTaskState := eRunning | eReady | eBlocked | eSuspended | eDeleted.

Definition eTaskGetState (xTask : Z) : K eTaskState :=
  _ ← configASSERT (negb (xTask =? 0));
  current ← ask pxCurrentTCB;
  if xTask =? current then mret eRunning
  else
    pxStateList ← from_lists (fun s => pxContainer <$> items s !! xStateListItem xTask);
    pxDelayedList ← ask pxDelayedTaskList;
    pxOverflowedDelayedList ← ask pxOverflowDelayedTaskList;
    if decide (pxStateList = Some pxDelayedList \/ pxStateList = Some pxOverflowedDelayedList)
    then mret eBlocked
    else if decide (pxStateList = Some xSuspendedTaskList) then
      event ← from_lists (fun s => pxContainer <$> items s !! xEventListItem xTask);
      tcb ← get_tcb xTask;
      mret (if decide (event = None) then
              if decide (ucNotifyState tcb = taskWAITING_NOTIFICATION) then eBlocked else eSuspended
            else eBlocked)
    else if decide (pxStateList = Some xTasksWaitingTermination \/ pxStateList = None)
    then mret eDeleted
    else mret eReady.

Definition uxTaskPriorityGet (xTask : Z) : K Z :=
  pxTCB ← prvGetTCBFromHandle xTask;
  tcb ← get_tcb pxTCB;
  mret (uxPriority tcb).

Definition xTaskCatchUpTicks (xTicksToCatchUp : Z) : K bool :=
  suspended ← ask uxSchedulerSuspended;
  _ ← configASSERT (suspended =? 0);
  _ ← vTaskSuspendAll;
  _ ← update (fun k => set_xPendedTicks (u32 (xPendedTicks k + xTicksToCatchUp)) k);
  xTaskResumeAll.

Inductive eSchedulerState := taskSCHEDULER_NOT_STARTED | taskSCHEDULER_RUNNING | taskSCHEDULER_SUSPENDED.

#[export] Instance eSchedulerState_eq_dec : EqDecision eSchedulerState.
Proof. solve_decision. Defined.

Definition xTaskGetSchedulerState : K eSchedulerState :=
  running ← ask xSchedulerRunning;
  if negb running then mret taskSCHEDULER_NOT_STARTED
  else
    suspended ← ask uxSchedulerSuspended;
    mret (if suspended =? 0 then taskSCHEDULER_RUNNING else taskSCHEDULER_SUSPENDED).
