(* ===== verification/TasksInv.v ===== *)
(** * The invariant of the scheduler

    The kernel's task lists represent abstract lists ([lists_rep]) that hold
    the right items ([core]); every list operation of tasks.c keeps that
    invariant.  The second half is about time: the delayed lists are sorted
    and no task in them is overdue ([timed]), and what the loop of the tick
    does with them. *)
From Stdlib Require Import Sorted.
From S2P Require Import Prelude KList Tasks.
Open Scope Z_scope.

(** ** Running the steps of the kernel *)

Lemma get_tcb_bind {B} t (f : TCB_t -> K B) k tcb :
  tcbs k !! t = Some tcb -> (get_tcb t ≫= f) k = f tcb k.
Proof. intros E. apply bind_run. unfold get_tcb, try_ask. by rewrite E. Qed.

Lemma from_lists_bind {A B} (g : store -> option A) (f : A -> K B) k x :
  g (task_lists k) = Some x -> (from_lists g ≫= f) k = f x k.
Proof. intros E. apply bind_run. unfold from_lists, try_ask. by rewrite E. Qed.

Lemma on_lists_bind {B} g (f : unit -> K B) k s' :
  g (task_lists k) = Some s' -> (on_lists g ≫= f) k = f tt (set_task_lists s' k).
Proof. intros E. apply bind_run. unfold on_lists, try_update. by rewrite E. Qed.

Lemma when_bind {B} (b : bool) (p : K unit) (f : unit -> K B) k k' :
  (if b then p k = Some (tt, k') else k' = k) -> (when b p ≫= f) k = f tt k'.
Proof. destruct b; cbn; [apply bind_run|by intros ->]. Qed.

Lemma when_true (p : K unit) k : when true p k = p k.
Proof. done. Qed.

(** ** Many lists at once *)

Definition lists_rep (s : store) (L : gmap Z alist) : Prop := map_Forall (fun l a => list_rep s l a) L.

Definition short (a : alist) : Prop := Z.of_nat (length (elems a)) + 1 < 2 ^ 32.

Lemma lists_rep_update s s' L l a :
  lists_rep s L -> list_rep s' l a -> others_kept l s s' -> lists_rep s' (<[l := a]> L).
Proof.
  intros HL Ha Ho l' a'. rewrite lookup_insert. case_decide as E; subst; [by intros [= <-]|].
  intros Hl'. apply Ho; [done|]. by apply HL.
Qed.

Lemma insert_end_lists s L l a x :
  lists_rep s L -> L !! l = Some a -> detached s x -> short a ->
  exists s', vListInsertEnd l (Item x) s = Some s' /\
    lists_rep s' (<[l := ainsert (end_position a) x a]> L) /\
    payload_kept s s' /\ conts_kept x s s' /\ cont s' (Item x) = Some (Some l).
Proof.
  intros HL Hl Hd Hs. destruct (vListInsertEnd_step s l x a (HL _ _ Hl) Hd Hs)
    as (s'&E&R&Ho&Hp&Hc).
  exists s'. split_and!; [done|by eapply lists_rep_update|done|done|].
  apply (rep_cont _ _ _ R). cbn. set_solver.
Qed.

Lemma insert_lists s L l a x :
  lists_rep s L -> L !! l = Some a -> detached s x -> short a -> values_ok s (x :: elems a) ->
  exists s', vListInsert l (Item x) s = Some s' /\
    lists_rep s' (<[l := ainsert (sorted_position (vals s) (vals s x) (elems a)) x a]> L) /\
    payload_kept s s' /\ conts_kept x s s' /\ cont s' (Item x) = Some (Some l).
Proof.
  intros HL Hl Hd Hs Hv. destruct (vListInsert_step s l x a (HL _ _ Hl) Hd Hs Hv)
    as (s'&E&R&_&Ho&Hp&Hc).
  exists s'. split_and!; [done|by eapply lists_rep_update|done|done|].
  apply (rep_cont _ _ _ R). cbn. set_solver.
Qed.

Lemma remove_lists s L l a x n :
  lists_rep s L -> L !! l = Some a -> elems a !! n = Some x ->
  exists s', uxListRemove (Item x) s = Some (Z.of_nat (length (elems a)) - 1, s') /\
    lists_rep s' (<[l := aremove n a]> L) /\ detached s' x /\
    payload_kept s s' /\ conts_kept x s s'.
Proof.
  intros HL Hl Hn. destruct (uxListRemove_step s l x a n (HL _ _ Hl) Hn)
    as (s'&E&R&Hd&Ho&Hp&Hc).
  exists s'. split_and!; [done|by eapply lists_rep_update|done..].
Qed.

Lemma lists_rep_empty s L l a :
  lists_rep s L -> L !! l = Some a -> listLIST_IS_EMPTY l s = Some (bool_decide (elems a = [])).
Proof.
  intros HL Hl. destruct (rep_list _ _ _ (HL _ _ Hl)) as (i&E&_).
  unfold listLIST_IS_EMPTY. rewrite E. cbn [fmap option_fmap option_map uxNumberOfItems]. f_equal.
  destruct (elems a) as [|y ys]; [done|]. rewrite bool_decide_eq_false_2 by done.
  apply Z.eqb_neq. cbn [length]. lia.
Qed.

Lemma lists_rep_length s L l a :
  lists_rep s L -> L !! l = Some a ->
  listCURRENT_LIST_LENGTH l s = Some (Z.of_nat (length (elems a))).
Proof.
  intros HL Hl. destruct (rep_list _ _ _ (HL _ _ Hl)) as (i&E&_).
  unfold listCURRENT_LIST_LENGTH. by rewrite E.
Qed.

(** The head entry of a list that is not empty. *)
Lemma lists_rep_head s L l a x xs :
  lists_rep s L -> L !! l = Some a -> elems a = x :: xs ->
  listGET_HEAD_ENTRY l s = Some (Item x) /\ is_Some (items s !! Item x).
Proof.
  intros HL Hl Hx. pose proof (HL _ _ Hl) as R.
  destruct (ring_around _ _ _ 0 R) as [Hf _]. rewrite ring_before_0 in Hf.
  unfold ring_after in Hf. rewrite Hx in Hf. simpl in Hf. split; [exact Hf|].
  destruct (list_rep_lookup _ _ _ x R) as (ix&Hix&_); [rewrite Hx; left|by eexists].
Qed.

(** ** The invariant of the task lists

    Which items a list may hold: state items in the ready lists (of the
    matching priority), the delayed, suspended and termination lists; event
    items everywhere else. *)

Definition state_list (l : Z) : bool :=
  bool_decide (l ∈ [xDelayedTaskList1; xDelayedTaskList2; xTasksWaitingTermination; xSuspendedTaskList]).

Definition item_ok (T : gmap Z TCB_t) (l x : Z) : Prop :=
  exists t tcb, T !! t = Some tcb /\
    if decide (0 <= l < configMAX_PRIORITIES) then x = 2 * t /\ uxPriority tcb = l
    else if state_list l then x = 2 * t else x = 2 * t + 1.

Record core (k : kernel) (L : gmap Z alist) : Prop := {
  co_lists : lists_rep (task_lists k) L;
  co_member : forall x l, cont (task_lists k) (Item x) = Some (Some l) ->
    exists a, L !! l = Some a /\ x ∈ elems a;
  co_items : forall l a x, L !! l = Some a -> x ∈ elems a -> item_ok (tcbs k) l x;
  co_owner : forall t tcb, tcbs k !! t = Some tcb ->
    own (task_lists k) (xStateListItem t) = Some t /\ own (task_lists k) (xEventListItem t) = Some t;
  co_values : forall x, 0 <= vals (task_lists k) x <= portMAX_DELAY;
  co_priority : forall t tcb, tcbs k !! t = Some tcb -> 0 <= uxPriority tcb < configMAX_PRIORITIES;
  co_ready : forall p, 0 <= p < configMAX_PRIORITIES -> is_Some (L !! pxReadyTasksLists p);
  co_static : is_Some (L !! xPendingReadyList) /\ is_Some (L !! xSuspendedTaskList) /\
    is_Some (L !! xDelayedTaskList1) /\ is_Some (L !! xDelayedTaskList2);
  co_delayed : (pxDelayedTaskList k = xDelayedTaskList1 /\ pxOverflowDelayedTaskList k = xDelayedTaskList2) \/
               (pxDelayedTaskList k = xDelayedTaskList2 /\ pxOverflowDelayedTaskList k = xDelayedTaskList1);
  co_current : is_Some (tcbs k !! pxCurrentTCB k);
  co_count : Z.of_nat (size (tcbs k)) < 2 ^ 30;
  co_top : 0 <= uxTopReadyPriority k < configMAX_PRIORITIES /\
    forall p a, 0 <= p < configMAX_PRIORITIES -> L !! pxReadyTasksLists p = Some a -> elems a <> [] ->
      p <= uxTopReadyPriority k
}.

(** The fields that the list operations leave alone. *)
Definition same_but_lists (k k' : kernel) : Prop :=
  k' = set_task_lists (task_lists k') k.

Lemma core_short k L l a : core k L -> L !! l = Some a -> short a.
Proof.
  intros HC Hl. unfold short.
  assert (Hsub : elems a ⊆ (elements (dom (tcbs k)) ≫= fun t => [2 * t; 2 * t + 1])).
  { intros x Hx. destruct (co_items _ _ HC _ _ _ Hl Hx) as (t&tcb&Ht&Hk).
    apply list_elem_of_bind. exists t. split.
    - repeat case_match; destruct_and?; subst; set_solver.
    - apply elem_of_elements, elem_of_dom. by eexists. }
  assert (Hlen : (length (elems a) <= 2 * size (tcbs k))%nat).
  { etrans; [apply submseteq_length, NoDup_submseteq;
      [apply (rep_nodup _ _ _ (co_lists _ _ HC _ _ Hl))|exact Hsub]|].
    assert (Hel : length (elements (dom (tcbs k))) = size (tcbs k)) by apply size_dom.
    rewrite <- Hel. clear. induction (elements (dom (tcbs k))) as [|y ys IH]; [done|].
    rewrite bind_cons, length_app. cbn [length]. lia. }
  pose proof (co_count _ _ HC). lia.
Qed.

Lemma core_item k L x l a :
  core k L -> L !! l = Some a -> x ∈ elems a ->
  exists t tcb, tcbs k !! t = Some tcb /\ own (task_lists k) (Item x) = Some t /\
    (x = 2 * t \/ x = 2 * t + 1).
Proof.
  intros HC Hl Hx. destruct (co_items _ _ HC _ _ _ Hl Hx) as (t&tcb&Ht&Hk).
  destruct (co_owner _ _ HC _ _ Ht) as [H1 H2]. exists t, tcb.
  unfold xStateListItem, xEventListItem in *.
  repeat case_match; destruct_and?; subst; auto.
Qed.

(** A change of the lists only. *)
Lemma core_lists_changed k L s' L' :
  core k L -> lists_rep s' L' -> payload_kept (task_lists k) s' ->
  (forall x l, cont s' (Item x) = Some (Some l) -> exists a, L' !! l = Some a /\ x ∈ elems a) ->
  (forall l a x, L' !! l = Some a -> x ∈ elems a -> item_ok (tcbs k) l x) ->
  (forall l, is_Some (L !! l) -> is_Some (L' !! l)) ->
  (forall p a, 0 <= p < configMAX_PRIORITIES -> L' !! pxReadyTasksLists p = Some a -> elems a <> [] ->
     p <= uxTopReadyPriority k) ->
  core (set_task_lists s' k) L'.
Proof.
  intros HC Hr Hp Hm Hi Hd Ht. destruct HC as [_ _ _ Ho Hv Hpr Hrd Hst Hde Hcu Hco Hto].
  split; cbn; try done; try tauto.
  - intros t tcb Htc. destruct (Ho _ _ Htc) as [H1 H2].
    destruct (Hp (xStateListItem t)) as [_ ->]. destruct (Hp (xEventListItem t)) as [_ ->]. done.
  - intros x. unfold vals. destruct (Hp (Item x)) as [-> _]. apply Hv.
  - intros p Hpp. by apply Hd, Hrd.
  - destruct Hst as (?&?&?&?). split_and!; by apply Hd.
Qed.

Lemma elem_of_ainsert n x a y : y ∈ elems (ainsert n x a) <-> y = x \/ y ∈ elems a.
Proof.
  cbn. rewrite elem_of_app, elem_of_cons. rewrite <- (take_drop n (elems a)) at 3.
  rewrite elem_of_app. tauto.
Qed.

Lemma elem_of_aremove n x a y :
  NoDup (elems a) -> elems a !! n = Some x -> y ∈ elems (aremove n a) <-> y <> x /\ y ∈ elems a.
Proof.
  intros Hnd Hn. pose proof (take_drop_middle _ _ _ Hn) as E. cbn.
  rewrite <- E in Hnd. apply NoDup_app in Hnd as (_&Hd&Hnd). apply NoDup_cons in Hnd as [Hx _].
  rewrite elem_of_app. rewrite <- E at 3. rewrite elem_of_app, elem_of_cons.
  specialize (Hd y). split; [|naive_solver].
  intros [Hy|Hy]; (split; [|tauto]); intros ->; [|done]. apply Hd; [done|]. left.
Qed.

(** Taking an item off its list. *)
Lemma remove_core k L l x :
  core k L -> cont (task_lists k) (Item x) = Some (Some l) ->
  exists n k' a i, remove_item (Item x) k = Some (n, k') /\ same_but_lists k k' /\
    L !! l = Some a /\ elems a !! i = Some x /\
    core k' (<[l := aremove i a]> L) /\ detached (task_lists k') x /\
    payload_kept (task_lists k) (task_lists k') /\ conts_kept x (task_lists k) (task_lists k').
Proof.
  intros HC Hc. destruct (co_member _ _ HC _ _ Hc) as (a&Hl&Hx).
  apply list_elem_of_lookup in Hx as [i Hi].
  destruct (remove_lists _ _ _ _ _ _ (co_lists _ _ HC) Hl Hi) as (s'&E&HL&Hd&Hp&Hck).
  pose proof (rep_nodup _ _ _ (co_lists _ _ HC _ _ Hl)) as Hnd.
  exists (Z.of_nat (length (elems a)) - 1), (set_task_lists s' k), a, i.
  split_and!; try done; [unfold remove_item; by rewrite E|].
  apply (core_lists_changed k L); [done|done|done| | | |].
  - intros y l' Hy. destruct (decide (y = x)) as [->|Hne].
    { unfold detached in Hd. congruence. }
    rewrite Hck in Hy by done. destruct (co_member _ _ HC _ _ Hy) as (a'&Hl'&Hy').
    rewrite lookup_insert. case_decide as E'; [|by eauto]. subst l'. eexists. split; [done|].
    apply (elem_of_aremove _ x); [done..|]. split; [done|congruence].
  - intros l' a' y. rewrite lookup_insert. case_decide as E'; [|apply (co_items _ _ HC)].
    intros [= <-] Hy. apply (elem_of_aremove _ x) in Hy as [_ Hy]; [|done..]. subst l'.
    by apply (co_items _ _ HC _ a).
  - intros l' Hl'. rewrite lookup_insert. by case_decide.
  - intros p a' Hpr. rewrite lookup_insert. case_decide as E'; [|by apply (co_top _ _ HC)].
    intros [= <-] Hne. subst l. apply (proj2 (co_top _ _ HC) p a); [done..|].
    intros Hnil. by rewrite Hnil in Hi.
Qed.

(** A detached item was put into a list. *)
Lemma core_inserted k L l a x n s' :
  core k L -> L !! l = Some a -> item_ok (tcbs k) l x ->
  (0 <= l < configMAX_PRIORITIES -> l <= uxTopReadyPriority k) ->
  lists_rep s' (<[l := ainsert n x a]> L) -> payload_kept (task_lists k) s' ->
  conts_kept x (task_lists k) s' -> cont s' (Item x) = Some (Some l) ->
  core (set_task_lists s' k) (<[l := ainsert n x a]> L).
Proof.
  intros HC Hl Hi Htop HL Hp Hck Hcx.
  apply (core_lists_changed k L); [done|done|done| | | |].
  - intros y l' Hy. destruct (decide (y = x)) as [->|Hne].
    { rewrite Hcx in Hy. injection Hy as <-. rewrite lookup_insert_eq. eexists. split; [done|].
      apply elem_of_ainsert. by left. }
    rewrite Hck in Hy by done. destruct (co_member _ _ HC _ _ Hy) as (a'&Hl'&Hy').
    rewrite lookup_insert. case_decide as E'; [|by eauto]. subst l'. eexists. split; [done|].
    apply elem_of_ainsert. right. congruence.
  - intros l' a' y. rewrite lookup_insert. case_decide as E'; [|apply (co_items _ _ HC)].
    intros [= <-] [->|Hy]%elem_of_ainsert; subst l'; [done|]. by apply (co_items _ _ HC _ a).
  - intros l' Hl'. rewrite lookup_insert. by case_decide.
  - intros p a' Hpr. rewrite lookup_insert. case_decide as E'; [|by apply (co_top _ _ HC)].
    intros _ _. subst l. by apply Htop.
Qed.

(** Putting a detached item at the end of a list. *)
Lemma insert_end_core k L l a x :
  core k L -> L !! l = Some a -> detached (task_lists k) x -> item_ok (tcbs k) l x ->
  (0 <= l < configMAX_PRIORITIES -> l <= uxTopReadyPriority k) ->
  exists k', listINSERT_END l (Item x) k = Some (tt, k') /\ same_but_lists k k' /\
    core k' (<[l := ainsert (end_position a) x a]> L) /\
    cont (task_lists k') (Item x) = Some (Some l) /\
    payload_kept (task_lists k) (task_lists k') /\ conts_kept x (task_lists k) (task_lists k').
Proof.
  intros HC Hl Hd Hi Htop.
  destruct (insert_end_lists _ _ _ _ _ (co_lists _ _ HC) Hl Hd (core_short _ _ _ _ HC Hl))
    as (s'&E&HL&Hp&Hck&Hcx).
  exists (set_task_lists s' k). split_and!; try done.
  - unfold listINSERT_END, on_lists, try_update. by rewrite E.
  - by apply core_inserted.
Qed.

Lemma core_values_ok k L xs : core k L -> values_ok (task_lists k) xs.
Proof. intros HC. apply Forall_forall. intros x _. apply (co_values _ _ HC). Qed.

(** Putting a detached item where its value belongs. *)
Lemma insert_core k L l a x :
  core k L -> L !! l = Some a -> detached (task_lists k) x -> item_ok (tcbs k) l x ->
  (0 <= l < configMAX_PRIORITIES -> l <= uxTopReadyPriority k) ->
  exists k', on_lists (vListInsert l (Item x)) k = Some (tt, k') /\ same_but_lists k k' /\
    core k' (<[l := ainsert (sorted_position (vals (task_lists k)) (vals (task_lists k) x) (elems a)) x a]> L) /\
    cont (task_lists k') (Item x) = Some (Some l) /\
    payload_kept (task_lists k) (task_lists k') /\ conts_kept x (task_lists k) (task_lists k').
Proof.
  intros HC Hl Hd Hi Htop.
  destruct (insert_lists _ _ _ _ _ (co_lists _ _ HC) Hl Hd (core_short _ _ _ _ HC Hl)
    (core_values_ok _ _ _ HC)) as (s'&E&HL&Hp&Hck&Hcx).
  exists (set_task_lists s' k). split_and!; try done.
  - unfold on_lists, try_update. by rewrite E.
  - by apply core_inserted.
Qed.

(** A new value for an item: the lists stay as they are (a list may stop being
    sorted). *)
Lemma set_value_core k L x v :
  core k L -> 0 <= v <= portMAX_DELAY -> is_Some (items (task_lists k) !! Item x) ->
  exists k', on_lists (listSET_LIST_ITEM_VALUE (Item x) v) k = Some (tt, k') /\
    same_but_lists k k' /\ core k' L /\
    (forall p, cont (task_lists k') p = cont (task_lists k) p) /\
    (forall p, own (task_lists k') p = own (task_lists k) p) /\
    (forall y, vals (task_lists k') y = if decide (y = x) then v else vals (task_lists k) y).
Proof.
  intros HC Hv [ix Hix].
  set (s' := mkStore (<[Item x := with_value v ix]> (items (task_lists k))) (lists (task_lists k))).
  assert (Hn : forall p, nxt s' p = nxt (task_lists k) p).
  { intros p. unfold nxt. cbn. rewrite lookup_insert. case_decide; [|done]. subst. by rewrite Hix. }
  assert (Hpv : forall p, prv s' p = prv (task_lists k) p).
  { intros p. unfold prv. cbn. rewrite lookup_insert. case_decide; [|done]. subst. by rewrite Hix. }
  assert (Hc : forall p, cont s' p = cont (task_lists k) p).
  { intros p. unfold cont. cbn. rewrite lookup_insert. case_decide; [|done]. subst. by rewrite Hix. }
  assert (Ho : forall p, own s' p = own (task_lists k) p).
  { intros p. unfold own. cbn. rewrite lookup_insert. case_decide; [|done]. subst. by rewrite Hix. }
  assert (Hva : forall y, vals s' y = if decide (y = x) then v else vals (task_lists k) y).
  { intros y. unfold vals, val. cbn. rewrite lookup_insert.
    repeat case_decide; try congruence; done. }
  exists (set_task_lists s' k). split_and!; try done.
  - unfold on_lists, try_update, listSET_LIST_ITEM_VALUE, write_item. by rewrite Hix.
  - destruct HC. split; cbn; try done.
    + intros l a Hl. destruct (co_lists0 _ _ Hl). split; try done.
      * eapply lseg_frame; [..|exact rep_seg]; intros; [by rewrite Hn|by rewrite Hpv].
      * unfold val. cbn. by rewrite lookup_insert_ne.
      * intros y Hy. rewrite Hc. by apply rep_cont.
    + intros y l. rewrite Hc. apply co_member0.
    + intros t tcb. rewrite !Ho. apply co_owner0.
    + intros y. rewrite Hva. by case_decide.
Qed.

(** [core] only speaks of some of the fields. *)
Lemma core_ext k k' L :
  core k L -> task_lists k' = task_lists k -> tcbs k' = tcbs k -> pxCurrentTCB k' = pxCurrentTCB k ->
  pxDelayedTaskList k' = pxDelayedTaskList k ->
  pxOverflowDelayedTaskList k' = pxOverflowDelayedTaskList k ->
  uxTopReadyPriority k <= uxTopReadyPriority k' < configMAX_PRIORITIES -> core k' L.
Proof.
  intros HC E1 E2 E3 E4 E5 Htop. destruct HC.
  split; rewrite ?E1, ?E2, ?E3, ?E4, ?E5; try done.
  split; [lia|]. intros p a Hp Ha Hne. specialize (proj2 co_top0 p a Hp Ha Hne). lia.
Qed.

(** What waking a task may change: the lists, the top priority, the next time
    at which a task is due. *)
Definition woke (k k' : kernel) : Prop :=
  k' = set_task_lists (task_lists k')
         (set_uxTopReadyPriority (uxTopReadyPriority k')
            (set_xNextTaskUnblockTime (xNextTaskUnblockTime k') k)).

Lemma woke_refl k : woke k k.
Proof. by destruct k. Qed.

Lemma woke_trans k1 k2 k3 : woke k1 k2 -> woke k2 k3 -> woke k1 k3.
Proof. unfold woke. intros E1 E2. rewrite E2, E1. done. Qed.

Lemma woke_lists k k' : same_but_lists k k' -> woke k k'.
Proof. unfold same_but_lists, woke. intros ->. by destruct k. Qed.

(** [prvAddTaskToReadyList] on a task that is on no list of states. *)
Lemma add_ready_core k L t tcb :
  core k L -> tcbs k !! t = Some tcb -> detached (task_lists k) (2 * t) ->
  exists k' a, prvAddTaskToReadyList t k = Some (tt, k') /\ woke k k' /\
    L !! uxPriority tcb = Some a /\
    core k' (<[uxPriority tcb := ainsert (end_position a) (2 * t) a]> L) /\
    cont (task_lists k') (xStateListItem t) = Some (Some (uxPriority tcb)) /\
    uxPriority tcb <= uxTopReadyPriority k' /\
    payload_kept (task_lists k) (task_lists k') /\
    conts_kept (2 * t) (task_lists k) (task_lists k').
Proof.
  intros HC Ht Hd. pose proof (co_priority _ _ HC _ _ Ht) as Hp.
  destruct (co_ready _ _ HC _ Hp) as [a Ha]. unfold pxReadyTasksLists in Ha.
  set (k1 := if uxTopReadyPriority k <? uxPriority tcb
             then set_uxTopReadyPriority (uxPriority tcb) k else k).
  assert (HC1 : core k1 L /\ uxPriority tcb <= uxTopReadyPriority k1 /\ tcbs k1 = tcbs k /\
                task_lists k1 = task_lists k /\ woke k k1).
  { subst k1. pose proof (proj1 (co_top _ _ HC)).
    destruct (Z.ltb_spec (uxTopReadyPriority k) (uxPriority tcb)).
    - split_and!; try done. eapply core_ext; [done..|cbn; lia].
    - split_and!; [done|lia|done|done|apply woke_refl]. }
  destruct HC1 as (HC1&Htop&E1&E2&Hw).
  destruct (insert_end_core k1 L (uxPriority tcb) a (2 * t) HC1 Ha) as (k'&E&Hs&HC'&Hc&Hpl&Hck).
  - by rewrite E2.
  - exists t, tcb. rewrite E1. split; [done|]. by rewrite decide_True.
  - done.
  - exists k', a. rewrite E2 in *. split_and!; try done.
    + unfold prvAddTaskToReadyList. rewrite (get_tcb_bind _ _ _ _ Ht).
      unfold taskRECORD_READY_PRIORITY. rewrite update_bind. exact E.
    + eapply woke_trans; [exact Hw|]. by apply woke_lists.
    + unfold same_but_lists in Hs. rewrite Hs. exact Htop.
Qed.

(** Which lists hold state items. *)
Definition holds_states (l : Z) : Prop := 0 <= l < configMAX_PRIORITIES \/ state_list l = true.

Lemma state_list_spec l : state_list l = true <-> l = 7 \/ l = 8 \/ l = 10 \/ l = 11.
Proof.
  unfold state_list. rewrite bool_decide_eq_true. unfold xDelayedTaskList1, xDelayedTaskList2,
    xTasksWaitingTermination, xSuspendedTaskList. set_solver.
Qed.

Lemma item_ok_state T l x : item_ok T l x -> holds_states l -> exists t, x = 2 * t.
Proof.
  intros (t&tcb&_&H) [Hl|Hl].
  - rewrite decide_True in H by done. exists t. tauto.
  - case_decide; [exists t; tauto|]. rewrite Hl in H. by exists t.
Qed.

Lemma core_event_cont k L t tcb :
  core k L -> tcbs k !! t = Some tcb ->
  exists c, cont (task_lists k) (xEventListItem t) = Some c.
Proof.
  intros HC Ht. destruct (co_owner _ _ HC _ _ Ht) as [_ Ho].
  unfold own, cont in *. destruct (items (task_lists k) !! xEventListItem t); [|done]. by eexists.
Qed.

(** [listREMOVE_ITEM] of an item that is on a list. *)
Lemma listREMOVE_core k L l x :
  core k L -> cont (task_lists k) (Item x) = Some (Some l) ->
  exists k' a i, listREMOVE_ITEM (Item x) k = Some (tt, k') /\ same_but_lists k k' /\
    L !! l = Some a /\ elems a !! i = Some x /\
    core k' (<[l := aremove i a]> L) /\ detached (task_lists k') x /\
    payload_kept (task_lists k) (task_lists k') /\ conts_kept x (task_lists k) (task_lists k').
Proof.
  intros HC Hc. destruct (remove_core _ _ _ _ HC Hc) as (n&k'&a&i&E&H).
  exists k', a, i. split; [|exact H]. unfold listREMOVE_ITEM. by rewrite (bind_run _ _ _ _ _ E).
Qed.

Lemma leave_event_core k L t tcb :
  core k L -> tcbs k !! t = Some tcb ->
  exists k' L', leave_event_list t k = Some (tt, k') /\ same_but_lists k k' /\ core k' L' /\
    detached (task_lists k') (2 * t + 1) /\
    payload_kept (task_lists k) (task_lists k') /\
    conts_kept (2 * t + 1) (task_lists k) (task_lists k') /\
    (forall l, holds_states l -> L' !! l = L !! l).
Proof.
  intros HC Ht. destruct (core_event_cont _ _ _ _ HC Ht) as [c Hc].
  assert (Hev : pxContainer <$> items (task_lists k) !! xEventListItem t = Some c) by exact Hc.
  unfold leave_event_list. destruct c as [l|].
  - destruct (listREMOVE_core k L l (2 * t + 1) HC Hc) as (k'&a&i&E&Hs&Hl&Hi&HC'&Hd&Hp&Hk).
    exists k', (<[l := aremove i a]> L). split_and!; try done.
    + rewrite (from_lists_bind _ _ _ _ Hev). exact E.
    + intros l' Hl'. apply lookup_insert_ne. intros ->.
      apply list_elem_of_lookup_2 in Hi. pose proof (co_items _ _ HC _ _ _ Hl Hi) as Hok.
      destruct (item_ok_state _ _ _ Hok Hl') as [t' ?]. lia.
  - exists k, L. split_and!; try done.
    + rewrite (from_lists_bind _ _ _ _ Hev). done.
    + unfold same_but_lists. by destruct k.
Qed.

Lemma conts_kept_ne x s s' y :
  conts_kept x s s' -> y <> x -> cont s' (Item y) = cont s (Item y).
Proof. intros H. apply H. Qed.

Lemma payload_kept_trans s1 s2 s3 : payload_kept s1 s2 -> payload_kept s2 s3 -> payload_kept s1 s3.
Proof. intros H1 H2 p. destruct (H1 p), (H2 p). split; congruence. Qed.

Lemma payload_vals s s' x : payload_kept s s' -> vals s' x = vals s x.
Proof. intros H. unfold vals. by destruct (H (Item x)) as [-> _]. Qed.

(** Waking a task: off its list of states and its event list, and ready. *)
Lemma wake_task_core k L t tcb l :
  core k L -> tcbs k !! t = Some tcb ->
  cont (task_lists k) (xStateListItem t) = Some (Some l) -> state_list l = true ->
  exists k' L' a i, wake_task t k = Some (tt, k') /\ woke k k' /\ core k' L' /\
    cont (task_lists k') (xStateListItem t) = Some (Some (uxPriority tcb)) /\
    cont (task_lists k') (xEventListItem t) = Some None /\
    (forall y, y <> 2 * t -> y <> 2 * t + 1 ->
       cont (task_lists k') (Item y) = cont (task_lists k) (Item y)) /\
    payload_kept (task_lists k) (task_lists k') /\
    uxPriority tcb <= uxTopReadyPriority k' /\
    L !! l = Some a /\ elems a !! i = Some (2 * t) /\
    L' !! l = Some (aremove i a) /\
    (forall l', state_list l' = true -> l' <> l -> L' !! l' = L !! l').
Proof.
  intros HC Ht Hc Hsl.
  destruct (listREMOVE_core k L l (2 * t) HC Hc) as (k1&a&i&E1&Hs1&Hl&Hi&HC1&Hd1&Hp1&Hk1).
  assert (Ht1 : tcbs k1 !! t = Some tcb) by (rewrite Hs1; exact Ht).
  destruct (leave_event_core _ _ _ _ HC1 Ht1) as (k2&L2&E2&Hs2&HC2&Hd2&Hp2&Hk2&HL2).
  assert (Ht2 : tcbs k2 !! t = Some tcb) by (rewrite Hs2; exact Ht1).
  assert (Hd2' : detached (task_lists k2) (2 * t)).
  { unfold detached. rewrite (Hk2 (2 * t)) by lia. exact Hd1. }
  destruct (add_ready_core _ _ _ _ HC2 Ht2 Hd2') as (k3&b&E3&Hw3&Hb&HC3&Hc3&Htop&Hp3&Hk3).
  assert (Hnr : forall l', state_list l' = true -> l' <> uxPriority tcb).
  { intros l' Hl'%state_list_spec ->. pose proof (co_priority _ _ HC _ _ Ht) as Hp.
    unfold configMAX_PRIORITIES in Hp. lia. }
  exists k3, (<[uxPriority tcb := ainsert (end_position b) (2 * t) b]> L2), a, i. split_and!; try done.
  - unfold wake_task. rewrite (bind_run _ _ _ _ _ E1), (bind_run _ _ _ _ _ E2). exact E3.
  - eapply woke_trans; [by apply woke_lists|]. eapply woke_trans; [by apply woke_lists|done].
  - etrans; [apply (Hk3 (2 * t + 1)); lia|exact Hd2].
  - intros y H1 H2. by rewrite Hk3, Hk2, Hk1 by done.
  - eapply payload_kept_trans; [done|]. by eapply payload_kept_trans.
  - rewrite lookup_insert_ne by (intros E; by apply (Hnr l)). rewrite HL2 by by right.
    by rewrite lookup_insert_eq.
  - intros l' Hl' Hne. rewrite lookup_insert_ne by (intros E; by apply (Hnr l')).
    rewrite HL2 by by right. by rewrite lookup_insert_ne.
Qed.

(** ** The tick *)

Definition prio (k : kernel) (t : Z) : Z := from_option uxPriority 0 (tcbs k !! t).

(** The waiting time of [x] is over at [now], with values [v]. *)
Definition due (v : Z -> Z) (now x : Z) : bool := v x <=? now.

Lemma woke_fields k k' :
  woke k k' -> tcbs k' = tcbs k /\ pxCurrentTCB k' = pxCurrentTCB k /\
    pxDelayedTaskList k' = pxDelayedTaskList k /\
    pxOverflowDelayedTaskList k' = pxOverflowDelayedTaskList k /\
    xTickCount k' = xTickCount k /\ uxSchedulerSuspended k' = uxSchedulerSuspended k /\
    xYieldPending k' = xYieldPending k /\ xNumOfOverflows k' = xNumOfOverflows k.
Proof. intros ->. done. Qed.

Lemma delayed_is_state k L : core k L -> state_list (pxDelayedTaskList k) = true.
Proof. intros HC. apply state_list_spec. destruct (co_delayed _ _ HC) as [[-> _]|[-> _]]; vm_compute; auto. Qed.

Lemma delayed_task k L a x :
  core k L -> L !! pxDelayedTaskList k = Some a -> x ∈ elems a ->
  exists t tcb, tcbs k !! t = Some tcb /\ x = 2 * t.
Proof.
  intros HC Ha Hx. destruct (co_items _ _ HC _ _ _ Ha Hx) as (t&tcb&Ht&Hk). exists t, tcb.
  split; [done|]. rewrite decide_False in Hk.
  - by rewrite (delayed_is_state _ _ HC) in Hk.
  - pose proof (proj1 (state_list_spec _) (delayed_is_state _ _ HC)). unfold configMAX_PRIORITIES. lia.
Qed.

Lemma filter_due_all v now x xs :
  StronglySorted (fun y z => v y <= v z) (x :: xs) -> now < v x ->
  filter (fun y => now < v y) (x :: xs) = x :: xs /\ existsb (fun y => due v now y) (x :: xs) = false.
Proof.
  intros Hs Hx. apply StronglySorted_inv in Hs as [_ Hs].
  assert (HF : Forall (fun y => now < v y) (x :: xs)).
  { constructor; [done|]. eapply Forall_impl; [exact Hs|]. cbn. lia. }
  split; [by apply filter_all|].
  apply not_true_is_false. intros (y&Hy&Hd)%existsb_exists.
  rewrite Forall_forall in HF. specialize (HF y). unfold due in Hd.
  assert (y ∈ x :: xs) by (apply list_elem_of_In; exact Hy). specialize (HF H). cbn in HF. lia.
Qed.

(** The state of task [t] after the due tasks of [xs] were woken. *)
Definition task_after (v : Z -> Z) (now : Z) (xs : list Z) (s s' : store) (t : Z) (tcb : TCB_t) : Prop :=
  if decide (2 * t ∈ xs /\ v (2 * t) <= now)
  then cont s' (xStateListItem t) = Some (Some (uxPriority tcb)) /\
       cont s' (xEventListItem t) = Some None
  else cont s' (xStateListItem t) = cont s (xStateListItem t) /\
       cont s' (xEventListItem t) = cont s (xEventListItem t).

Definition preempting (k : kernel) (v : Z -> Z) (now x : Z) : bool :=
  due v now x && (prio k (pxCurrentTCB k) <? prio k (x / 2)).

Lemma wake_delayed_empty k L a v now sw fuel :
  core k L -> L !! pxDelayedTaskList k = Some a -> elems a = [] ->
  wake_delayed (S fuel) now sw k = Some (sw, set_xNextTaskUnblockTime portMAX_DELAY k) /\
  (forall x, x ∈ elems a -> portMAX_DELAY <= v x).
Proof.
  intros HC Ha Hx. cbn [wake_delayed]. rewrite ask_bind.
  rewrite (from_lists_bind _ _ _ _ (lists_rep_empty _ _ _ _ (co_lists _ _ HC) Ha)).
  rewrite bool_decide_eq_true_2 by done. split; [done|]. rewrite Hx.
  intros x H. by apply not_elem_of_nil in H.
Qed.

(** The head of the delayed list: its owner and its value. *)
Lemma wake_delayed_head k L a now sw fuel x xs :
  core k L -> L !! pxDelayedTaskList k = Some a -> elems a = x :: xs ->
  exists t tcb, tcbs k !! t = Some tcb /\ x = 2 * t /\
    wake_delayed (S fuel) now sw k =
      if now <? vals (task_lists k) x
      then Some (sw, set_xNextTaskUnblockTime (vals (task_lists k) x) k)
      else (_ ← wake_task t; tcb ← get_tcb t; current ← ask pxCurrentTCB; cur ← get_tcb current;
            wake_delayed fuel now (if uxPriority cur <? uxPriority tcb then true else sw)) k.
Proof.
  intros HC Ha Hx. assert (Hin : x ∈ elems a) by (rewrite Hx; left).
  destruct (delayed_task _ _ _ _ HC Ha Hin) as (t&tcb&Ht&->). exists t, tcb.
  split; [done|]. split; [done|]. cbn [wake_delayed]. rewrite ask_bind.
  rewrite (from_lists_bind _ _ _ _ (lists_rep_empty _ _ _ _ (co_lists _ _ HC) Ha)).
  rewrite bool_decide_eq_false_2 by (by rewrite Hx).
  destruct (lists_rep_head _ _ _ _ _ _ (co_lists _ _ HC) Ha Hx) as [Hh _].
  destruct (co_owner _ _ HC _ _ Ht) as [Ho _].
  assert (Ho' : listGET_OWNER_OF_HEAD_ENTRY (pxDelayedTaskList k) (task_lists k) = Some t).
  { unfold listGET_OWNER_OF_HEAD_ENTRY. rewrite Hh. exact Ho. }
  rewrite (from_lists_bind _ _ _ _ Ho').
  assert (Hv : listGET_LIST_ITEM_VALUE (xStateListItem t) (task_lists k)
               = Some (vals (task_lists k) (2 * t))).
  { unfold listGET_LIST_ITEM_VALUE, vals, val. unfold own in Ho. fold (xStateListItem t).
    by destruct (items (task_lists k) !! xStateListItem t). }
  rewrite (from_lists_bind _ _ _ _ Hv). by destruct (now <? _).
Qed.

(** What the loop of the tick establishes. *)
Record woken (v : Z -> Z) (now : Z) (xs : list Z) (k k' : kernel) (L L' : gmap Z alist) : Prop := {
  wk_woke : woke k k';
  wk_core : core k' L';
  wk_payload : payload_kept (task_lists k) (task_lists k');
  wk_delayed : exists a', L' !! pxDelayedTaskList k = Some a' /\
    elems a' = filter (fun x => now < v x) xs;
  wk_lists : forall l, state_list l = true -> l <> pxDelayedTaskList k -> L' !! l = L !! l;
  wk_tasks : forall t tcb, tcbs k !! t = Some tcb ->
    task_after v now xs (task_lists k) (task_lists k') t tcb;
  wk_next : forall x, x ∈ xs -> now < v x -> xNextTaskUnblockTime k' <= v x <= portMAX_DELAY
}.

(** The loop stops at once: nothing is due. *)
Lemma woken_none v now xs k L a next :
  core k L -> L !! pxDelayedTaskList k = Some a -> elems a = xs ->
  filter (fun y => now < v y) xs = xs ->
  (forall x, x ∈ xs -> next <= v x <= portMAX_DELAY) ->
  woken v now xs k (set_xNextTaskUnblockTime next k) L L.
Proof.
  intros HC Ha Hx Hf Hn. split.
  - by destruct k.
  - eapply core_ext; [exact HC|done..|]. pose proof (co_top _ _ HC). cbn. lia.
  - intros p. done.
  - exists a. split; [done|]. by rewrite Hf.
  - done.
  - intros t tcb Ht. unfold task_after. rewrite decide_False; [done|].
    intros [Hin Hd]. rewrite <- Hf in Hin. apply list_elem_of_filter in Hin. lia.
  - intros x Hin _. by apply Hn.
Qed.

Lemma aremove_head a x xs : elems a = x :: xs -> elems (aremove 0 a) = xs.
Proof. intros E. unfold aremove. cbn. rewrite E. cbn. by rewrite drop_0. Qed.

(** One task was woken, then the rest of the loop ran. *)
Lemma woken_cons v now t tcb xs k k1 k2 L L1 L2 :
  tcbs k !! t = Some tcb -> v (2 * t) <= now -> 2 * t ∉ xs ->
  (forall y, y ∈ xs -> exists t', y = 2 * t') ->
  woke k k1 -> payload_kept (task_lists k) (task_lists k1) ->
  cont (task_lists k1) (xStateListItem t) = Some (Some (uxPriority tcb)) ->
  cont (task_lists k1) (xEventListItem t) = Some None ->
  (forall y, y <> 2 * t -> y <> 2 * t + 1 ->
       cont (task_lists k1) (Item y) = cont (task_lists k) (Item y)) ->
  (forall l', state_list l' = true -> l' <> pxDelayedTaskList k -> L1 !! l' = L !! l') ->
  woken v now xs k1 k2 L1 L2 -> woken v now (2 * t :: xs) k k2 L L2.
Proof.
  intros Ht Hv Hnin Hev Hw Hp Hc1 Hc2 Hco HL W.
  destruct (woke_fields _ _ Hw) as (Et&_&Ed&_). split.
  - eapply woke_trans; [exact Hw|apply W].
  - apply W.
  - eapply payload_kept_trans; [exact Hp|apply W].
  - rewrite filter_cons_False by lia. rewrite <- Ed. apply W.
  - intros l Hl Hne. rewrite (wk_lists _ _ _ _ _ _ _ W) by (rewrite ?Ed; done). by apply HL.
  - intros t' tcb' Ht'. pose proof (wk_tasks _ _ _ _ _ _ _ W t' tcb') as H.
    rewrite Et in H. specialize (H Ht'). unfold task_after in *.
    destruct (decide (t' = t)) as [->|Hne].
    + rewrite Ht in Ht'. injection Ht' as <-.
      rewrite decide_False in H by tauto. destruct H as [H1 H2].
      rewrite decide_True; [rewrite H1, H2; auto|]. split; [left|done].
    + unfold xStateListItem, xEventListItem in *. rewrite !Hco in H by lia.
      destruct (decide (2 * t' ∈ xs ∧ v (2 * t') <= now)) as [Hd|Hd].
      * rewrite decide_True; [done|]. split; [right; tauto|tauto].
      * rewrite decide_False; [done|]. intros [[?|?]%elem_of_cons ?]; [lia|tauto].
  - intros x [->|Hx]%elem_of_cons Hnx; [lia|]. by apply (wk_next _ _ _ _ _ _ _ W).
Qed.

Lemma wake_delayed_spec v now xs : forall k L a sw fuel,
  core k L -> L !! pxDelayedTaskList k = Some a -> elems a = xs ->
  (forall x, vals (task_lists k) x = v x) ->
  StronglySorted (fun y z => v y <= v z) xs -> (length xs < fuel)%nat ->
  exists k' L', wake_delayed fuel now sw k = Some (sw || existsb (preempting k v now) xs, k') /\
    woken v now xs k k' L L'.
Proof.
  induction xs as [|x xs IH]; intros k L a sw fuel HC Ha Hx Hv Hs Hf; (destruct fuel as [|fuel]; [cbn in Hf; lia|]).
  - destruct (wake_delayed_empty k L a v now sw fuel HC Ha Hx) as [E Hn]. rewrite E.
    eexists _, L. rewrite orb_false_r. split; [done|].
    eapply woken_none; [done..|]. intros x Hin. by apply not_elem_of_nil in Hin.
  - destruct (wake_delayed_head k L a now sw fuel x xs HC Ha Hx) as (t&tcb&Ht&->&E).
    rewrite E, Hv. destruct (Z.ltb_spec now (v (2 * t))) as [Hlt|Hge].
    + destruct (filter_due_all _ _ _ _ Hs Hlt) as [Hfi Hex].
      eexists _, L. split; [|eapply woken_none; [done..|]].
      * f_equal. f_equal. rewrite <- (orb_false_r sw) at 1. f_equal. symmetry.
        apply not_true_is_false. intros (y&Hy&Hd)%existsb_exists.
        unfold preempting in Hd. apply andb_true_iff in Hd as [Hd _].
        rewrite <- not_true_iff_false in Hex. apply Hex, existsb_exists. by exists y.
      * intros y Hy. rewrite <- (Hv y). pose proof (co_values _ _ HC y). rewrite Hv in *.
        split; [|lia]. apply StronglySorted_inv in Hs as [_ Hs]. rewrite Forall_forall in Hs.
        apply elem_of_cons in Hy as [->|Hy]; [lia|]. by apply Hs.
    + pose proof (rep_nodup _ _ _ (co_lists _ _ HC _ _ Ha)) as Hnd. rewrite Hx in Hnd.
      assert (Hc : cont (task_lists k) (xStateListItem t) = Some (Some (pxDelayedTaskList k))).
      { apply (rep_cont _ _ _ (co_lists _ _ HC _ _ Ha)). rewrite Hx. left. }
      destruct (wake_task_core k L t tcb _ HC Ht Hc (delayed_is_state _ _ HC))
        as (k1&L1&a0&i&E1&Hw&HC1&Hc1&Hc2&Hco&Hp&_&Ha0&Hi&HL1&HLo).
      rewrite Ha in Ha0. injection Ha0 as <-.
      assert (i = 0%nat) as ->.
      { rewrite Hx in Hi. by eapply (NoDup_lookup _ _ _ _ Hnd). }
      destruct (woke_fields _ _ Hw) as (Et&Ecu&Ed&_).
      destruct (co_current _ _ HC) as [cur Hcur].
      assert (Hp1 : prio k (pxCurrentTCB k) = uxPriority cur) by (unfold prio; by rewrite Hcur).
      assert (Hp2 : prio k (2 * t / 2) = uxPriority tcb).
      { unfold prio. rewrite (Z.mul_comm 2 t), Z.div_mul by lia. by rewrite Ht. }
      rewrite (bind_run _ _ _ _ _ E1). rewrite <- Et in Ht, Hcur. rewrite <- Ecu in Hcur.
      rewrite (get_tcb_bind _ _ _ _ Ht), ask_bind, (get_tcb_bind _ _ _ _ Hcur).
      destruct (IH k1 L1 (aremove 0 a) (if uxPriority cur <? uxPriority tcb then true else sw) fuel)
        as (k2&L2&E2&W).
      * done.
      * by rewrite Ed.
      * by apply (aremove_head _ (2 * t)).
      * intros y. by rewrite (payload_vals _ _ _ Hp).
      * by apply StronglySorted_inv in Hs as [? _].
      * cbn in Hf. lia.
      * exists k2, L2. rewrite E2. split.
        -- f_equal. f_equal. cbn [existsb]. unfold preempting at 2, due.
           rewrite Hp1, Hp2. replace (v (2 * t) <=? now) with true by (symmetry; apply Z.leb_le; lia).
           replace (existsb (preempting k1 v now) xs) with (existsb (preempting k v now) xs).
           ++ cbn. by destruct (uxPriority cur <? uxPriority tcb), sw.
           ++ unfold preempting, prio. by rewrite Et, Ecu.
        -- rewrite Et in Ht. eapply (woken_cons v now t tcb xs k k1 k2 L L1 L2); try done.
           ++ by apply NoDup_cons in Hnd as [].
           ++ intros y Hy. destruct (delayed_task k L a y HC Ha) as (t'&_&_&->); [|by eexists].
              rewrite Hx. by right.
Qed.

(** The delayed lists and time: both sorted; every task of the current list
    wakes at [lo] or later and not before the noted next time, and every task
    of the overflow list before the present tick count (that is, after the
    count has wrapped). *)
Definition sorted_list (s : store) (xs : list Z) : Prop :=
  StronglySorted (fun y z => vals s y <= vals s z) xs.

Record waiting (lo : Z) (k : kernel) (L : gmap Z alist) : Prop := {
  wt_tick : 0 <= xTickCount k < 2 ^ 32;
  wt_delayed : forall a, L !! pxDelayedTaskList k = Some a ->
    sorted_list (task_lists k) (elems a) /\
    forall x, x ∈ elems a -> lo <= vals (task_lists k) x /\ xNextTaskUnblockTime k <= vals (task_lists k) x;
  wt_overflow : forall a, L !! pxOverflowDelayedTaskList k = Some a ->
    sorted_list (task_lists k) (elems a) /\
    forall x, x ∈ elems a -> vals (task_lists k) x < xTickCount k
}.

(** Between two ticks every delayed task is still to wake. *)
Definition timed (k : kernel) (L : gmap Z alist) : Prop := waiting (xTickCount k + 1) k L.

Definition due_now (k : kernel) (now t : Z) : Prop :=
  (cont (task_lists k) (xStateListItem t) = Some (Some (pxDelayedTaskList k)) \/
   cont (task_lists k) (xStateListItem t) = Some (Some (pxOverflowDelayedTaskList k))) /\
  vals (task_lists k) (2 * t) = now.

Lemma sorted_list_ext s s' xs :
  (forall x, x ∈ xs -> vals s' x = vals s x) -> sorted_list s xs -> sorted_list s' xs.
Proof.
  unfold sorted_list. intros Hv Hs. induction Hs as [|x xs _ IH HF]; constructor.
  - apply IH. intros y Hy. apply Hv. by right.
  - rewrite Forall_forall in HF |- *. intros y Hy. rewrite !Hv by set_solver. by apply HF.
Qed.

Lemma sorted_list_same s s' xs :
  (forall x, vals s' x = vals s x) -> sorted_list s xs -> sorted_list s' xs.
Proof. intros Hv. by apply sorted_list_ext. Qed.

Lemma sorted_list_filter s (P : Z -> Prop) `{!forall x, Decision (P x)} xs :
  sorted_list s xs -> sorted_list s (filter P xs).
Proof.
  unfold sorted_list. induction 1 as [|x xs _ IH HF]; [constructor|].
  rewrite filter_cons. case_decide; [|done]. constructor; [done|].
  apply Forall_forall. intros y Hy. rewrite Forall_forall in HF.
  apply HF. by apply list_elem_of_filter in Hy as [_ Hy].
Qed.

Lemma state_on k L t tcb l a :
  core k L -> tcbs k !! t = Some tcb -> L !! l = Some a ->
  (2 * t ∈ elems a <-> cont (task_lists k) (xStateListItem t) = Some (Some l)).
Proof.
  intros HC Ht Ha. split.
  - apply (rep_cont _ _ _ (co_lists _ _ HC _ _ Ha)).
  - intros Hc. destruct (co_member _ _ HC _ _ Hc) as (a'&Ha'&Hin). congruence.
Qed.

Lemma tick_wake_spec k L a :
  core k L -> waiting (xTickCount k) k L -> L !! pxDelayedTaskList k = Some a ->
  exists k' L', tick_wake (xTickCount k) k =
      Some (existsb (preempting k (vals (task_lists k)) (xTickCount k)) (elems a), k') /\
    woken (vals (task_lists k)) (xTickCount k) (elems a) k k' L L' /\ timed k' L'.
Proof.
  intros HC HW Ha. destruct (wt_delayed _ _ _ HW a Ha) as [Hs Hv].
  set (now := xTickCount k) in *. set (v := vals (task_lists k)) in *.
  assert (Hgo : exists k' L', tick_wake now k = Some (existsb (preempting k v now) (elems a), k') /\
    woken v now (elems a) k k' L L').
  { unfold tick_wake. rewrite !ask_bind.
    destruct (Z.leb_spec (xNextTaskUnblockTime k) now) as [Hle|Hgt].
    - assert (Hlen : delayed_length k = length (elems a)).
      { unfold delayed_length. rewrite (lists_rep_length _ _ _ _ (co_lists _ _ HC) Ha). cbn. lia. }
      rewrite Hlen. destruct (wake_delayed_spec v now (elems a) k L a false (S (length (elems a))))
        as (k'&L'&E&W); [done..|lia|]. by exists k', L'.
    - assert (HF : Forall (fun x => now < v x) (elems a)).
      { apply Forall_forall. intros x Hx. specialize (Hv x Hx). lia. }
      exists k, L. split.
      + replace (existsb _ _) with false; [done|]. symmetry. apply not_true_is_false.
        intros (x&Hx&Hp)%existsb_exists. apply list_elem_of_In in Hx.
        rewrite Forall_forall in HF. specialize (HF x Hx). cbn in HF.
        unfold preempting, due in Hp. lia.
      + assert (Hself : set_xNextTaskUnblockTime (xNextTaskUnblockTime k) k = k) by by destruct k.
        rewrite <- Hself at 2. eapply woken_none; [done..|by apply filter_all|].
        intros x Hx. split; [by apply Hv|]. apply (co_values _ _ HC). }
  destruct Hgo as (k'&L'&E&W). exists k', L'. split; [done|]. split; [done|].
  destruct (woke_fields _ _ (wk_woke _ _ _ _ _ _ _ W)) as (Et&Ecu&Ed&Eo&Etk&_).
  assert (Hvals : forall x, vals (task_lists k') x = v x).
  { intros x. apply payload_vals, W. }
  split.
  - rewrite Etk. apply HW.
  - rewrite Ed. intros a' Ha'. destruct (wk_delayed _ _ _ _ _ _ _ W) as (a1&Ha1&Hel).
    rewrite Ha1 in Ha'. injection Ha' as <-. rewrite Hel. split.
    + apply (sorted_list_same (task_lists k)); [done|]. by apply sorted_list_filter.
    + intros x [Hlt Hin]%list_elem_of_filter. rewrite Hvals, Etk.
      destruct (wk_next _ _ _ _ _ _ _ W x Hin Hlt). fold now. lia.
  - rewrite Eo. intros a' Ha'. rewrite (wk_lists _ _ _ _ _ _ _ W) in Ha'.
    + destruct (wt_overflow _ _ _ HW a' Ha') as [Hso Hvo]. split.
      * by apply (sorted_list_same (task_lists k)).
      * intros x Hx. rewrite Hvals, Etk. by apply Hvo.
    + apply state_list_spec. destruct (co_delayed _ _ HC) as [[_ ->]|[_ ->]]; vm_compute; auto.
    + destruct (co_delayed _ _ HC) as [[-> ->]|[-> ->]]; vm_compute; discriminate.
Qed.

Lemma prvResetNextTaskUnblockTime_run k L a :
  core k L -> L !! pxDelayedTaskList k = Some a ->
  prvResetNextTaskUnblockTime k =
    Some (tt, set_xNextTaskUnblockTime
                (match elems a with [] => portMAX_DELAY | x :: _ => vals (task_lists k) x end) k).
Proof.
  intros HC Ha. unfold prvResetNextTaskUnblockTime. rewrite ask_bind.
  rewrite (from_lists_bind _ _ _ _ (lists_rep_empty _ _ _ _ (co_lists _ _ HC) Ha)).
  destruct (elems a) as [|x xs] eqn:Ex; [done|].
  rewrite bool_decide_eq_false_2 by done.
  destruct (lists_rep_head _ _ _ _ _ _ (co_lists _ _ HC) Ha Ex) as [Hh [ix Hix]].
  assert (Hv : listGET_ITEM_VALUE_OF_HEAD_ENTRY (pxDelayedTaskList k) (task_lists k)
               = Some (vals (task_lists k) x)).
  { unfold listGET_ITEM_VALUE_OF_HEAD_ENTRY. rewrite Hh. cbn.
    unfold listGET_LIST_ITEM_VALUE, vals, val. by rewrite Hix. }
  by rewrite (from_lists_bind _ _ _ _ Hv).
Qed.

Lemma delayed_list_exists k L : core k L ->
  (exists a, L !! pxDelayedTaskList k = Some a) /\ (exists a, L !! pxOverflowDelayedTaskList k = Some a).
Proof.
  intros HC. destruct (co_static _ _ HC) as (_&_&[a1 H1]&[a2 H2]).
  destruct (co_delayed _ _ HC) as [[-> ->]|[-> ->]]; split; eauto.
Qed.

Record counted (k k1 : kernel) : Prop := {
  ct_lists : task_lists k1 = task_lists k;
  ct_tcbs : tcbs k1 = tcbs k;
  ct_current : pxCurrentTCB k1 = pxCurrentTCB k;
  ct_tick : xTickCount k1 = u32 (xTickCount k + 1);
  ct_overflows : xNumOfOverflows k1 =
    (if u32 (xTickCount k + 1) =? 0 then u32 (xNumOfOverflows k + 1) else xNumOfOverflows k);
  ct_suspended : uxSchedulerSuspended k1 = uxSchedulerSuspended k;
  ct_pended : xPendedTicks k1 = xPendedTicks k;
  ct_yield : xYieldPending k1 = xYieldPending k;
  ct_delayed : (u32 (xTickCount k + 1) <> 0 /\ pxDelayedTaskList k1 = pxDelayedTaskList k /\
                pxOverflowDelayedTaskList k1 = pxOverflowDelayedTaskList k) \/
               (u32 (xTickCount k + 1) = 0 /\ pxDelayedTaskList k1 = pxOverflowDelayedTaskList k /\
                pxOverflowDelayedTaskList k1 = pxDelayedTaskList k)
}.

(** When the count is about to wrap, no task is left in the current list. *)
Lemma all_awake k L a : core k L -> timed k L -> xTickCount k = portMAX_DELAY ->
  L !! pxDelayedTaskList k = Some a -> elems a = [].
Proof.
  intros HC HT Hmax Ha. destruct (elems a) as [|x xs] eqn:Ex; [done|]. exfalso.
  destruct (wt_delayed _ _ _ HT a Ha) as [_ Hv]. destruct (Hv x) as [Hx _]; [rewrite Ex; left|].
  pose proof (co_values _ _ HC x). unfold portMAX_DELAY in *. lia.
Qed.

Lemma tick_count_spec k L :
  core k L -> timed k L ->
  exists k1, tick_count k = Some (u32 (xTickCount k + 1), k1) /\ core k1 L /\ waiting (xTickCount k1) k1 L /\ counted k k1.
Proof.
  intros HC HT. pose proof (wt_tick _ _ _ HT) as Htk.
  set (now := u32 (xTickCount k + 1)).
  assert (HC0 : core (set_xTickCount now k) L).
  { eapply core_ext; [exact HC|done..|]. pose proof (co_top _ _ HC). cbn. lia. }
  unfold tick_count. rewrite update_bind, ask_bind. fold now. cbn [xTickCount set_xTickCount].
  destruct (Z.eqb_spec now 0) as [E0|E0].
  - assert (Hmax : xTickCount k = portMAX_DELAY).
    { subst now. unfold u32, portMAX_DELAY in *. dlia. }
    set (k0 := set_xNumOfOverflows (u32 (xNumOfOverflows k + 1))
                 (set_delayed_lists (pxOverflowDelayedTaskList k) (pxDelayedTaskList k)
                    (set_xTickCount now k))).
    assert (HC1 : core k0 L).
    { subst k0. destruct HC0. split; cbn in *; try done. tauto. }
    destruct (delayed_list_exists _ _ HC) as [[ad Had] [ao Hao]].
    assert (Hao1 : L !! pxDelayedTaskList k0 = Some ao) by exact Hao.
    destruct (wt_overflow _ _ _ HT _ Hao) as [Hso Hvo].
    eexists. split; [|split; [|split]].
    + cbn [when]. unfold taskSWITCH_DELAYED_LISTS. rewrite bind_assoc_run, ask_bind, bind_assoc_run.
      assert (Had0 : L !! pxDelayedTaskList (set_xTickCount now k) = Some ad) by exact Had.
      rewrite (from_lists_bind _ _ _ _ (lists_rep_empty _ _ _ _ (co_lists _ _ HC0) Had0)).
      rewrite bind_assoc_run, assert_bind by (by apply bool_decide_eq_true_2, (all_awake k L)).
      rewrite bind_assoc_run, update_bind, bind_assoc_run, update_bind.
      rewrite (bind_run _ _ _ _ _ (prvResetNextTaskUnblockTime_run k0 L ao HC1 Hao1)). reflexivity.
    + eapply core_ext; [exact HC1|done..|]. pose proof (co_top _ _ HC1). cbn in *. lia.
    + split; [cbn; lia| |].
      * cbn. intros a Ha. rewrite Hao in Ha. injection Ha as <-. split; [done|].
        intros x Hx. split; [rewrite E0; apply (co_values _ _ HC)|].
        destruct (elems ao) as [|y ys]; [by apply not_elem_of_nil in Hx|].
        apply StronglySorted_inv in Hso as [_ Hso]. rewrite Forall_forall in Hso.
        apply elem_of_cons in Hx as [->|Hx]; [lia|]. by apply Hso.
      * cbn. intros a Ha. destruct (wt_delayed _ _ _ HT a Ha) as [Hs Hv]. split; [done|].
        intros x Hx. specialize (Hv x Hx). pose proof (co_values _ _ HC x). lia.
    + split; cbn; try done; [fold now; by rewrite E0|]. right. split; [done|]. done.
  - eexists. split; [done|]. split; [exact HC0|]. 
    assert (En : now = xTickCount k + 1) by (subst now; unfold u32 in *; dlia).
    split; [|split; cbn; try done].
    + split; [cbn; pose proof (u32_range (xTickCount k + 1)); fold now in H; lia| |].
      * cbn. rewrite En. apply HT.
      * cbn. intros a Ha. destruct (wt_overflow _ _ _ HT a Ha) as [Hs Hv]. split; [done|].
        intros x Hx. specialize (Hv x Hx). lia.
    + fold now. by apply Z.eqb_neq in E0 as ->.
    + left. done.
Qed.

Lemma existsb_woken k L v now a :
  core k L -> L !! pxDelayedTaskList k = Some a ->
  existsb (preempting k v now) (elems a) = true <->
  exists t tcb, tcbs k !! t = Some tcb /\
    cont (task_lists k) (xStateListItem t) = Some (Some (pxDelayedTaskList k)) /\
    v (2 * t) <= now /\ prio k (pxCurrentTCB k) < uxPriority tcb.
Proof.
  intros HC Ha. rewrite existsb_exists. unfold preempting, due. split.
  - intros (x&Hx%list_elem_of_In&Hp). destruct (delayed_task _ _ _ _ HC Ha Hx) as (t&tcb&Ht&->).
    exists t, tcb. replace (2 * t / 2) with t in Hp by dlia.
    assert (Hq : prio k t = uxPriority tcb) by (unfold prio; by rewrite Ht).
    rewrite Hq in Hp. split_and!; [done|by apply (state_on _ _ _ _ _ _ HC Ht Ha)|lia|lia].
  - intros (t&tcb&Ht&Hc&Hv&Hp). exists (2 * t). split.
    + apply list_elem_of_In. by apply (state_on _ _ _ _ _ _ HC Ht Ha).
    + replace (2 * t / 2) with t by dlia.
      assert (Hq : prio k t = uxPriority tcb) by (unfold prio; by rewrite Ht).
      rewrite Hq. apply andb_true_iff. split; [apply Z.leb_le|apply Z.ltb_lt]; lia.
Qed.

(** After the count, the due tasks are those of the current delayed list whose
    time is not later than the count. *)
Lemma due_now_delayed k k1 L a t tcb :
  core k L -> timed k L -> core k1 L -> waiting (xTickCount k1) k1 L -> counted k k1 ->
  tcbs k !! t = Some tcb -> L !! pxDelayedTaskList k1 = Some a ->
  (2 * t ∈ elems a /\ vals (task_lists k1) (2 * t) <= xTickCount k1 <->
   due_now k (xTickCount k1) t).
Proof.
  intros HC HT HC1 HW CT Ht Ha. unfold due_now.
  assert (Ht1 : tcbs k1 !! t = Some tcb) by (by rewrite (ct_tcbs _ _ CT)).
  rewrite (state_on _ _ _ _ _ _ HC1 Ht1 Ha), (ct_lists _ _ CT).
  assert (Hge : cont (task_lists k) (xStateListItem t) = Some (Some (pxDelayedTaskList k1)) ->
    xTickCount k1 <= vals (task_lists k) (2 * t)).
  { rewrite <- (ct_lists _ _ CT), <- (state_on _ _ _ _ _ _ HC1 Ht1 Ha).
    intros Hin. by apply (wt_delayed _ _ _ HW a Ha). }
  assert (Hlt : cont (task_lists k) (xStateListItem t) = Some (Some (pxOverflowDelayedTaskList k1)) ->
    vals (task_lists k) (2 * t) < xTickCount k1).
  { destruct (delayed_list_exists _ _ HC1) as [_ [ao Hao]].
    rewrite <- (ct_lists _ _ CT), <- (state_on _ _ _ _ _ _ HC1 Ht1 Hao).
    intros Hin. by apply (wt_overflow _ _ _ HW ao Hao). }
  destruct (ct_delayed _ _ CT) as [(_&E1&E2)|(_&E1&E2)]; rewrite E1, E2 in *;
    (split; [intros [H1 H2]|intros [[H1|H1] H2]]); try (specialize (Hge H1)); try (specialize (Hlt H1));
    split; auto; lia.
Qed.

(** The tick keeps the invariants, wakes exactly the tasks that are due, and
    asks for a switch exactly when one is needed. *)
Lemma tick_run k L :
  core k L -> timed k L -> uxSchedulerSuspended k = 0 ->
  exists b k' L', xTaskIncrementTick k = Some (b, k') /\ core k' L' /\ timed k' L' /\
    tcbs k' = tcbs k /\ pxCurrentTCB k' = pxCurrentTCB k /\
    xTickCount k' = u32 (xTickCount k + 1) /\
    xNumOfOverflows k' = (if u32 (xTickCount k + 1) =? 0 then u32 (xNumOfOverflows k + 1)
                          else xNumOfOverflows k) /\
    uxSchedulerSuspended k' = 0 /\
    payload_kept (task_lists k) (task_lists k') /\
    (forall t tcb, tcbs k !! t = Some tcb ->
       (due_now k (xTickCount k') t ->
          cont (task_lists k') (xStateListItem t) = Some (Some (uxPriority tcb)) /\
          cont (task_lists k') (xEventListItem t) = Some None) /\
       (~ due_now k (xTickCount k') t ->
          cont (task_lists k') (xStateListItem t) = cont (task_lists k) (xStateListItem t) /\
          cont (task_lists k') (xEventListItem t) = cont (task_lists k) (xEventListItem t))) /\
    (b = true <->
       (exists t tcb, tcbs k !! t = Some tcb /\ due_now k (xTickCount k') t /\
          prio k (pxCurrentTCB k) < uxPriority tcb) \/
       (exists a, L' !! pxReadyTasksLists (prio k (pxCurrentTCB k)) = Some a /\
          (1 < length (elems a))%nat) \/
       xYieldPending k = true) /\
    xYieldPending k' = xYieldPending k /\ xPendedTicks k' = xPendedTicks k.
Proof.
  intros HC HT Hsu. destruct (tick_count_spec k L HC HT) as (k1&E1&HC1&HW1&CT).
  destruct (delayed_list_exists _ _ HC1) as [[a Ha] _].
  destruct (tick_wake_spec k1 L a HC1 HW1 Ha) as (k2&L2&E2&W&HT2).
  destruct (woke_fields _ _ (wk_woke _ _ _ _ _ _ _ W)) as (Et&Ecu&Ed&Eo&Etk&Esu&Eyp&Eov).
  pose proof (wk_core _ _ _ _ _ _ _ W) as HC2.
  destruct (co_current _ _ HC2) as [cur Hcur].
  pose proof (co_priority _ _ HC2 _ _ Hcur) as Hpc.
  destruct (co_ready _ _ HC2 _ Hpc) as [r Hr].
  assert (Hprio : prio k (pxCurrentTCB k) = uxPriority cur).
  { unfold prio. rewrite <- (ct_tcbs _ _ CT), <- (ct_current _ _ CT), <- Et, <- Ecu, Hcur. done. }
  assert (Hdue : forall t tcb, tcbs k !! t = Some tcb ->
     2 * t ∈ elems a /\ vals (task_lists k1) (2 * t) <= xTickCount k1 <-> due_now k (xTickCount k2) t).
  { intros t tcb Ht. rewrite Etk. by apply (due_now_delayed k k1 L a t tcb). }
  eexists _, k2, L2. split.
  { unfold xTaskIncrementTick. rewrite ask_bind, Hsu. change (0 =? 0) with true. cbv iota.
    rewrite (bind_run _ _ _ _ _ E1), <- (ct_tick _ _ CT), (bind_run _ _ _ _ _ E2), ask_bind.
    rewrite (get_tcb_bind _ _ _ _ Hcur).
    rewrite (from_lists_bind _ _ _ _ (lists_rep_length _ _ _ _ (co_lists _ _ HC2) Hr)), ask_bind.
    reflexivity. }
  split_and!; try done; try (rewrite ?Et, ?Ecu, ?Etk, ?Eov, ?Esu; apply CT).
  - rewrite Esu, (ct_suspended _ _ CT). done.
  - eapply payload_kept_trans; [|apply W]. rewrite (ct_lists _ _ CT). intros ?. done.
  - intros t tcb Ht. pose proof (wk_tasks _ _ _ _ _ _ _ W t tcb) as H.
    rewrite (ct_tcbs _ _ CT), (ct_lists _ _ CT) in H. specialize (H Ht).
    unfold task_after in H. rewrite <- (Hdue t tcb Ht), (ct_lists _ _ CT).
    case_decide; tauto.
  - rewrite !orb_true_iff, (existsb_woken k1 L _ _ a HC1 Ha), Z.ltb_lt, Eyp, (ct_yield _ _ CT).
    rewrite Hprio, (ct_lists _ _ CT), (ct_tcbs _ _ CT).
    assert (Hpr : prio k1 (pxCurrentTCB k1) = uxPriority cur).
    { unfold prio in *. by rewrite (ct_tcbs _ _ CT), (ct_current _ _ CT). }
    rewrite Hpr. split.
    + intros [[(t&tcb&Ht&Hc&Hv&Hp)|Hl]|Hy].
      * left. exists t, tcb. split; [done|]. split; [|done]. apply (Hdue t tcb Ht).
        rewrite (ct_lists _ _ CT). split; [|done].
        apply (state_on k1 L t tcb (pxDelayedTaskList k1) a HC1); [by rewrite (ct_tcbs _ _ CT)|done|].
        by rewrite (ct_lists _ _ CT).
      * right. left. exists r. split; [done|lia].
      * by right; right.
    + intros [(t&tcb&Ht&Hd&Hp)|[(a'&Ha'&Hl)|Hy]].
      * left. left. exists t, tcb. apply (Hdue t tcb Ht) in Hd as [Hin Hv].
        rewrite (ct_lists _ _ CT) in Hv. split_and!; try done.
        rewrite <- (ct_lists _ _ CT). apply (state_on k1 L t tcb (pxDelayedTaskList k1) a HC1); [|done|done].
        by rewrite (ct_tcbs _ _ CT).
      * left. right. unfold pxReadyTasksLists in *. rewrite Hr in Ha'. injection Ha' as <-. lia.
      * by right.
  - rewrite Eyp. apply CT.
  - pose proof (wk_woke _ _ _ _ _ _ _ W) as Hw. unfold woke in Hw. rewrite Hw. apply CT.
Qed.

Lemma tick_spec k L :
  core k L -> timed k L -> uxSchedulerSuspended k = 0 ->
  exists b k' L', xTaskIncrementTick k = Some (b, k') /\ core k' L' /\ timed k' L' /\
    tcbs k' = tcbs k /\ pxCurrentTCB k' = pxCurrentTCB k /\
    xTickCount k' = u32 (xTickCount k + 1) /\
    xNumOfOverflows k' = (if u32 (xTickCount k + 1) =? 0 then u32 (xNumOfOverflows k + 1)
                          else xNumOfOverflows k) /\
    uxSchedulerSuspended k' = 0 /\
    payload_kept (task_lists k) (task_lists k') /\
    (forall t tcb, tcbs k !! t = Some tcb ->
       (due_now k (xTickCount k') t ->
          cont (task_lists k') (xStateListItem t) = Some (Some (uxPriority tcb)) /\
          cont (task_lists k') (xEventListItem t) = Some None) /\
       (~ due_now k (xTickCount k') t ->
          cont (task_lists k') (xStateListItem t) = cont (task_lists k) (xStateListItem t) /\
          cont (task_lists k') (xEventListItem t) = cont (task_lists k) (xEventListItem t))) /\
    (b = true <->
       (exists t tcb, tcbs k !! t = Some tcb /\ due_now k (xTickCount k') t /\
          prio k (pxCurrentTCB k) < uxPriority tcb) \/
       (exists a, L' !! pxReadyTasksLists (prio k (pxCurrentTCB k)) = Some a /\
          (1 < length (elems a))%nat) \/
       xYieldPending k = true).
Proof.
  intros HC HT Hsu. destruct (tick_run k L HC HT Hsu) as (b&k'&L'&H1&H2&H3&H4&H5&H6&H7&H8&H9&H10&H11&_).
  by exists b, k', L'.
Qed.

(** ** Going to sleep *)

Lemma core_state_item k L t tcb :
  core k L -> tcbs k !! t = Some tcb -> is_Some (items (task_lists k) !! xStateListItem t).
Proof.
  intros HC Ht. destruct (co_owner _ _ HC _ _ Ht) as [H _]. unfold own in H.
  destruct (items (task_lists k) !! xStateListItem t); [by eexists|done].
Qed.

Lemma delayed_item_ok k L d t tcb :
  core k L -> tcbs k !! t = Some tcb -> d = pxDelayedTaskList k \/ d = pxOverflowDelayedTaskList k ->
  item_ok (tcbs k) d (2 * t) /\ (0 <= d < configMAX_PRIORITIES -> False).
Proof.
  intros HC Ht Hd.
  assert (Hs : state_list d = true).
  { apply state_list_spec. destruct (co_delayed _ _ HC) as [[E1 E2]|[E1 E2]], Hd; subst d;
      rewrite ?E1, ?E2; vm_compute; auto. }
  pose proof (proj1 (state_list_spec _) Hs) as Hn. unfold configMAX_PRIORITIES.
  split; [|lia]. exists t, tcb. split; [done|].
  rewrite decide_False by (unfold configMAX_PRIORITIES; lia). by rewrite Hs.
Qed.

(** A sorted list takes in an item. *)
Lemma sorted_list_insert s x a :
  sorted_list s (elems a) ->
  sorted_list s (elems (ainsert (sorted_position (vals s) (vals s x) (elems a)) x a)).
Proof. apply sorted_insert. Qed.

Record slept (k k' : kernel) (L L' : gmap Z alist) (t w : Z) : Prop := {
  sl_woke : woke k k';
  sl_core : core k' L';
  sl_timed : timed k' L';
  sl_due : due_now k' w t;
  sl_conts : forall y, y <> 2 * t -> cont (task_lists k') (Item y) = cont (task_lists k) (Item y);
  sl_vals : forall y, y <> 2 * t -> vals (task_lists k') y = vals (task_lists k) y;
  sl_lists : forall l, l <> pxDelayedTaskList k -> l <> pxOverflowDelayedTaskList k ->
    cont (task_lists k) (xStateListItem t) <> Some (Some l) -> L' !! l = L !! l
}.

(** The running task, off its ready list and with its wake time set. *)
Lemma leave_ready k L cur p w :
  core k L -> timed k L -> tcbs k !! pxCurrentTCB k = Some cur -> 0 <= w <= portMAX_DELAY ->
  cont (task_lists k) (xStateListItem (pxCurrentTCB k)) = Some (Some p) ->
  p <> pxDelayedTaskList k -> p <> pxOverflowDelayedTaskList k ->
  exists n k1 k2 L1, remove_item (xStateListItem (pxCurrentTCB k)) k = Some (n, k1) /\
    on_lists (listSET_LIST_ITEM_VALUE (xStateListItem (pxCurrentTCB k)) w) k1 = Some (tt, k2) /\
    same_but_lists k k1 /\ same_but_lists k k2 /\ core k2 L1 /\ timed k2 L1 /\
    detached (task_lists k2) (2 * pxCurrentTCB k) /\
    vals (task_lists k2) (2 * pxCurrentTCB k) = w /\
    conts_kept (2 * pxCurrentTCB k) (task_lists k) (task_lists k2) /\
    (forall y, y <> 2 * pxCurrentTCB k -> vals (task_lists k2) y = vals (task_lists k) y) /\
    (forall l, l <> p -> L1 !! l = L !! l).
Proof.
  intros HC HT Hcur Hw Hc Hp1 Hp2. set (t := pxCurrentTCB k) in *.
  destruct (remove_core k L p (2 * t) HC Hc) as (n&k1&a&i&E1&Hs1&Ha&Hi&HC1&Hd1&Hpl&Hk1).
  assert (Hcur1 : tcbs k1 !! t = Some cur) by (rewrite Hs1; exact Hcur).
  destruct (set_value_core k1 _ (2 * t) w HC1 Hw (core_state_item _ _ _ _ HC1 Hcur1))
    as (k2&E2&Hs2&HC2&Hco&_&Hva).
  unfold same_but_lists in Hs1, Hs2.
  assert (Hs12 : k2 = set_task_lists (task_lists k2) k) by (rewrite Hs2, Hs1; done).
  assert (Hvk : forall y, y <> 2 * t -> vals (task_lists k2) y = vals (task_lists k) y).
  { intros y Hy. rewrite Hva, decide_False by done. by apply payload_vals. }
  assert (HL : forall l, l <> p -> <[p := aremove i a]> L !! l = L !! l).
  { intros l Hl. by apply lookup_insert_ne. }
  assert (Hnin : forall l b, l <> p -> L !! l = Some b -> 2 * t ∉ elems b).
  { intros l b Hl Hb Hin. pose proof (rep_cont _ _ _ (co_lists _ _ HC _ _ Hb) _ Hin) as Hc'.
    unfold xStateListItem in Hc. rewrite Hc' in Hc. by injection Hc as ->. }
  assert (Hsame : forall l b, l <> p -> L !! l = Some b -> forall x, x ∈ elems b ->
    vals (task_lists k2) x = vals (task_lists k) x).
  { intros l b Hl Hb x Hx. apply Hvk. intros ->. by apply (Hnin l b). }
  assert (Hsort : forall l b, l <> p -> L !! l = Some b -> sorted_list (task_lists k) (elems b) ->
    sorted_list (task_lists k2) (elems b)).
  { intros l b Hl Hb. apply sorted_list_ext. by apply (Hsame l). }
  exists n, k1, k2, (<[p := aremove i a]> L). split_and!; try done.
  - split.
    + rewrite Hs12. apply HT.
    + rewrite Hs12. cbn. rewrite HL by done. intros b Hb.
      destruct (wt_delayed _ _ _ HT b Hb) as [H1 H2].
      split; [by apply (Hsort _ b (not_eq_sym Hp1))|]. intros x Hx.
      rewrite (Hsame _ b (not_eq_sym Hp1) Hb x Hx). by apply H2.
    + rewrite Hs12. cbn. rewrite HL by done. intros b Hb.
      destruct (wt_overflow _ _ _ HT b Hb) as [H1 H2].
      split; [by apply (Hsort _ b (not_eq_sym Hp2))|]. intros x Hx.
      rewrite (Hsame _ b (not_eq_sym Hp2) Hb x Hx). by apply H2.
  - unfold detached. rewrite Hco. exact Hd1.
  - rewrite Hva. by rewrite decide_True.
  - intros y Hy. rewrite Hco. by apply Hk1.
Qed.

(** Adding a task to one of the delayed lists keeps time in order. *)
Lemma timed_insert k L d a x k' next :
  core k L -> timed k L -> L !! d = Some a -> x ∉ elems a ->
  (d = pxDelayedTaskList k /\ xTickCount k + 1 <= vals (task_lists k) x /\
     next <= vals (task_lists k) x /\ next <= xNextTaskUnblockTime k) \/
  (d = pxOverflowDelayedTaskList k /\ vals (task_lists k) x < xTickCount k /\
     next = xNextTaskUnblockTime k) ->
  payload_kept (task_lists k) (task_lists k') ->
  pxDelayedTaskList k' = pxDelayedTaskList k ->
  pxOverflowDelayedTaskList k' = pxOverflowDelayedTaskList k -> xTickCount k' = xTickCount k ->
  xNextTaskUnblockTime k' = next ->
  timed k' (<[d := ainsert (sorted_position (vals (task_lists k)) (vals (task_lists k) x) (elems a)) x a]> L).
Proof.
  intros HC HT Ha Hx Hd Hp Ed Eo Et En.
  assert (Hv : forall y, vals (task_lists k') y = vals (task_lists k) y) by (intros; by apply payload_vals).
  assert (Hne : pxDelayedTaskList k <> pxOverflowDelayedTaskList k).
  { destruct (co_delayed _ _ HC) as [[-> ->]|[-> ->]]; vm_compute; discriminate. }
  unfold timed. split; rewrite ?Et, ?Ed, ?Eo, ?En.
  - apply HT.
  - intros b. rewrite lookup_insert. case_decide as E.
    + intros [= <-]. destruct Hd as [(->&H1&H2&H3)|(->&_)]; [|congruence].
      destruct (wt_delayed _ _ _ HT a Ha) as [Hs Hw]. split.
      * apply (sorted_list_same (task_lists k)); [done|]. by apply sorted_list_insert.
      * intros y Hy%elem_of_ainsert. rewrite Hv. destruct Hy as [->|Hy]; [lia|].
        specialize (Hw y Hy). lia.
    + intros Hb. destruct (wt_delayed _ _ _ HT b Hb) as [Hs Hw].
      split; [by apply (sorted_list_same (task_lists k))|]. intros y Hy. rewrite Hv.
      specialize (Hw y Hy). destruct Hd as [(->&_)|(_&_&->)]; [congruence|done].
  - intros b. rewrite lookup_insert. case_decide as E.
    + intros [= <-]. destruct Hd as [(->&_)|(->&H1&_)]; [congruence|].
      destruct (wt_overflow _ _ _ HT a Ha) as [Hs Hw]. split.
      * apply (sorted_list_same (task_lists k)); [done|]. by apply sorted_list_insert.
      * intros y Hy%elem_of_ainsert. rewrite Hv. destruct Hy as [->|Hy]; [lia|]. by apply Hw.
    + intros Hb. destruct (wt_overflow _ _ _ HT b Hb) as [Hs Hw].
      split; [by apply (sorted_list_same (task_lists k))|]. intros y Hy. rewrite Hv. by apply Hw.
Qed.

Lemma add_delayed_spec k L cur p n block :
  core k L -> timed k L -> tcbs k !! pxCurrentTCB k = Some cur ->
  cont (task_lists k) (xStateListItem (pxCurrentTCB k)) = Some (Some p) ->
  p <> pxDelayedTaskList k -> p <> pxOverflowDelayedTaskList k ->
  0 < n < 2 ^ 32 -> (n =? portMAX_DELAY) && block = false ->
  exists k' L', prvAddCurrentTaskToDelayedList n block k = Some (tt, k') /\
    slept k k' L L' (pxCurrentTCB k) (u32 (xTickCount k + n)).
Proof.
  intros HC HT Hcur Hc Hp1 Hp2 Hn Hb. set (t := pxCurrentTCB k) in *.
  set (w := u32 (xTickCount k + n)).
  assert (Hw : 0 <= w <= portMAX_DELAY) by (pose proof (u32_range (xTickCount k + n)); unfold portMAX_DELAY; lia).
  destruct (leave_ready k L cur p w HC HT Hcur Hw Hc Hp1 Hp2)
    as (r&k1&k2&L1&E1&E2&Hs1&Hs2&HC2&HT2&Hd2&Hv2&Hc2&Hva2&HL1). fold t in E1, E2, Hd2, Hv2, Hc2, Hva2.
  unfold same_but_lists in Hs1, Hs2.
  assert (Hcur2 : tcbs k2 !! t = Some cur) by (rewrite Hs2; exact Hcur).
  pose proof (wt_tick _ _ _ HT) as Htick.
  assert (Ed : pxDelayedTaskList k2 = pxDelayedTaskList k) by by rewrite Hs2.
  assert (Eo : pxOverflowDelayedTaskList k2 = pxOverflowDelayedTaskList k) by by rewrite Hs2.
  assert (Et : xTickCount k2 = xTickCount k) by by rewrite Hs2.
  assert (En : xNextTaskUnblockTime k2 = xNextTaskUnblockTime k) by by rewrite Hs2.
  set (d := if w <? xTickCount k then pxOverflowDelayedTaskList k else pxDelayedTaskList k).
  assert (Hd : d = pxDelayedTaskList k2 \/ d = pxOverflowDelayedTaskList k2).
  { rewrite Ed, Eo. subst d. destruct (w <? xTickCount k); auto. }
  destruct (delayed_item_ok k2 L1 d t cur HC2 Hcur2 Hd) as [Hok Hnr].
  assert (Ha : exists a, L1 !! d = Some a).
  { destruct (delayed_list_exists _ _ HC2) as [Ha Ho]. by destruct Hd as [->| ->]. }
  destruct Ha as [a Ha].
  assert (Hnin : 2 * t ∉ elems a) by (by apply (detached_not_in (task_lists k2) d); [apply HC2|]).
  destruct (insert_core k2 L1 d a (2 * t) HC2 Ha Hd2 Hok) as (k3&E3&Hs3&HC3&Hc3&Hp3&Hk3); [by intros ?%Hnr|].
  unfold same_but_lists in Hs3.
  set (next := if (negb (w <? xTickCount k)) && (w <? xNextTaskUnblockTime k) then w else xNextTaskUnblockTime k).
  set (k4 := set_xNextTaskUnblockTime next k3).
  eexists k4, _. split.
  { unfold prvAddCurrentTaskToDelayedList. rewrite !ask_bind. fold t. rewrite (bind_run _ _ _ _ _ E1), Hb.
    fold w. cbv zeta. rewrite (bind_run _ _ _ _ _ E2). subst d k4 next.
    destruct (w <? xTickCount k) eqn:Elt; cbn [negb andb]; rewrite ask_bind, ?Eo, ?Ed.
    - etrans; [exact E3|]. do 2 f_equal. rewrite Hs3, Hs2. by destruct k.
    - etrans; [exact (bind_run _ _ _ _ _ E3)|]. unfold update.
      assert (Enk : xNextTaskUnblockTime k3 = xNextTaskUnblockTime k) by (by rewrite Hs3, Hs2).
      rewrite Enk. destruct (w <? xNextTaskUnblockTime k); [done|]. do 2 f_equal. rewrite Hs3, Hs2. by destruct k. }
  assert (Hvals4 : forall y, vals (task_lists k4) y = vals (task_lists k2) y) by (intros y; by apply (payload_vals (task_lists k2))).
  split.
  - unfold woke. subst k4. cbn. rewrite Hs3, Hs2. by destruct k.
  - eapply core_ext; [exact HC3|done..|]. subst k4. cbn. pose proof (co_top _ _ HC3). lia.
  - apply (timed_insert k2 L1 d a (2 * t) k4 next HC2 HT2 Ha Hnin); try (subst k4; by rewrite Hs3).
    rewrite Hv2, Ed, Eo, Et, En. subst d next.
    destruct (Z.ltb_spec w (xTickCount k)) as [Hlt|Hge]; cbn.
    + right. split_and!; done.
    + left. split; [done|]. split; [|destruct (Z.ltb_spec w (xNextTaskUnblockTime k)); lia].
      subst w. unfold u32 in *. dlia.
  - split.
    + subst k4. cbn. rewrite Hs3. cbn. unfold xStateListItem. rewrite Hc3.
      destruct Hd as [->| ->]; [by left|by right].
    + by rewrite Hvals4.
  - intros y Hy. subst k4. cbn. by rewrite Hk3, Hc2.
  - intros y Hy. by rewrite Hvals4, Hva2.
  - intros l H1 H2 H3. rewrite lookup_insert_ne.
    + apply HL1. intros ->. by apply H3.
    + destruct Hd as [->| ->]; congruence.
Qed.
