(* ===== verification/TasksOps.v ===== *)
(** * The operations of the scheduler, on its invariant

    [inv] is the invariant between two kernel operations; the lemmas of this
    file are the steps that the kernel's functions are made of: waking the
    first task of an event list, blocking the running task, moving a ready task
    to another priority. *)
From Stdlib Require Import Sorted.
From S2P Require Import Prelude KList Tasks TasksInv.
Open Scope Z_scope.

(** ** Making a blocked task ready *)

(** Tasks that wait on an event list are on a list of blocked states too. *)
Definition asleep_ok (k : kernel) : Prop := forall t l, is_Some (tcbs k !! t) ->
  cont (task_lists k) (xEventListItem t) = Some (Some l) ->
  exists l0, cont (task_lists k) (xStateListItem t) = Some (Some l0) /\ state_list l0 = true.

(** The invariant of the kernel between two operations. *)
Record inv (k : kernel) (L : gmap Z alist) : Prop := {
  inv_core : core k L;
  inv_timed : timed k L;
  inv_asleep : asleep_ok k
}.

Lemma sublist_sorted s xs ys : sublist xs ys -> sorted_list s ys -> sorted_list s xs.
Proof.
  unfold sorted_list. induction 1 as [|x xs ys Hsub IH|x xs ys Hsub IH]; [done| |].
  - intros [H1 H2]%StronglySorted_inv. constructor; [by apply IH|].
    rewrite Forall_forall in H2 |- *. intros y Hy. apply H2.
    by apply (sublist_subseteq xs).
  - intros [H1 _]%StronglySorted_inv. by apply IH.
Qed.

Lemma aremove_sublist n a : sublist (elems (aremove n a)) (elems a).
Proof.
  cbn. rewrite <- (take_drop n (elems a)) at 3. apply sublist_app; [done|].
  rewrite <- (drop_drop (elems a) 1 n) || rewrite <- Nat.add_1_r, <- drop_drop.
  apply sublist_drop.
Qed.

(** The delayed lists lost some tasks at most. *)
Lemma timed_shrink k k' L L' :
  core k L -> timed k L -> payload_kept (task_lists k) (task_lists k') ->
  pxDelayedTaskList k' = pxDelayedTaskList k ->
  pxOverflowDelayedTaskList k' = pxOverflowDelayedTaskList k -> xTickCount k' = xTickCount k ->
  xNextTaskUnblockTime k' = xNextTaskUnblockTime k ->
  (forall l a', l = pxDelayedTaskList k \/ l = pxOverflowDelayedTaskList k -> L' !! l = Some a' ->
     exists a, L !! l = Some a /\ sublist (elems a') (elems a)) ->
  timed k' L'.
Proof.
  intros HC HT Hp Ed Eo Et En Hsub.
  assert (Hv : forall y, vals (task_lists k') y = vals (task_lists k) y) by (intros; by apply payload_vals).
  unfold timed. split; rewrite ?Et, ?Ed, ?Eo, ?En; [apply HT| |].
  - intros a' Ha'. destruct (Hsub _ _ (or_introl eq_refl) Ha') as (a&Ha&Hs).
    destruct (wt_delayed _ _ _ HT a Ha) as [H1 H2]. split.
    + apply (sorted_list_same (task_lists k)); [done|]. by eapply sublist_sorted.
    + intros x Hx. rewrite Hv. apply H2. by apply (sublist_subseteq (elems a')).
  - intros a' Ha'. destruct (Hsub _ _ (or_intror eq_refl) Ha') as (a&Ha&Hs).
    destruct (wt_overflow _ _ _ HT a Ha) as [H1 H2]. split.
    + apply (sorted_list_same (task_lists k)); [done|]. by eapply sublist_sorted.
    + intros x Hx. rewrite Hv. apply H2. by apply (sublist_subseteq (elems a')).
Qed.

(** Off the event list, which is list [l]. *)
Lemma remove_event_inv k L t tcb l :
  inv k L -> tcbs k !! t = Some tcb -> cont (task_lists k) (xEventListItem t) = Some (Some l) ->
  exists k' a i, listREMOVE_ITEM (xEventListItem t) k = Some (tt, k') /\ same_but_lists k k' /\
    inv k' (<[l := aremove i a]> L) /\ L !! l = Some a /\ elems a !! i = Some (2 * t + 1) /\
    detached (task_lists k') (2 * t + 1) /\ ~ holds_states l /\
    payload_kept (task_lists k) (task_lists k') /\
    conts_kept (2 * t + 1) (task_lists k) (task_lists k').
Proof.
  intros [HC HT HA] Ht Hc.
  destruct (listREMOVE_core k L l (2 * t + 1) HC Hc) as (k'&a&i&E&Hs&Ha&Hi&HC'&Hd&Hp&Hk).
  pose proof Hs as Hs'. unfold same_but_lists in Hs'.
  assert (Hns : ~ holds_states l).
  { intros Hl. apply list_elem_of_lookup_2 in Hi.
    destruct (item_ok_state _ _ _ (co_items _ _ HC _ _ _ Ha Hi) Hl). lia. }
  exists k', a, i. split_and!; try done. split; [done| |].
  - eapply (timed_shrink k k' L); try done; try (by rewrite Hs').
    intros l' a' Hl'. rewrite lookup_insert_ne; [by exists a'|]. intros <-. apply Hns. right.
    apply state_list_spec. destruct (co_delayed _ _ HC) as [[E1 E2]|[E1 E2]], Hl' as [->| ->];
      rewrite ?E1, ?E2; vm_compute; auto.
  - intros t' l' Ht' Hc'. rewrite Hs' in Ht'. destruct (decide (t' = t)) as [->|Hne].
    { unfold detached in Hd. unfold xEventListItem in Hc'. congruence. }
    unfold xEventListItem, xStateListItem in *. rewrite Hk in Hc' |- * by lia. by apply (HA t' l').
Qed.

(** Off its list of states, and ready. *)
Definition make_ready (t : Z) : K unit :=
  _ ← listREMOVE_ITEM (xStateListItem t); prvAddTaskToReadyList t.

Lemma make_ready_inv k L t tcb l :
  inv k L -> tcbs k !! t = Some tcb ->
  cont (task_lists k) (xStateListItem t) = Some (Some l) ->
  cont (task_lists k) (xEventListItem t) = Some None ->
  exists k' L', make_ready t k = Some (tt, k') /\ woke k k' /\ inv k' L' /\
    cont (task_lists k') (xStateListItem t) = Some (Some (uxPriority tcb)) /\
    xNextTaskUnblockTime k' = xNextTaskUnblockTime k /\
    payload_kept (task_lists k) (task_lists k') /\
    conts_kept (2 * t) (task_lists k) (task_lists k') /\
    (forall l', ~ holds_states l' -> L' !! l' = L !! l').
Proof.
  intros [HC HT HA] Ht Hc He.
  destruct (listREMOVE_core k L l (2 * t) HC Hc) as (k1&a&i&E1&Hs1&Ha&Hi&HC1&Hd1&Hp1&Hk1).
  unfold same_but_lists in Hs1.
  assert (Ht1 : tcbs k1 !! t = Some tcb) by (rewrite Hs1; exact Ht).
  destruct (add_ready_core k1 _ t tcb HC1 Ht1 Hd1) as (k2&b&E2&Hw2&Hb&HC2&Hc2&Htop&Hp2&Hk2).
  assert (Hw : woke k k2) by (eapply woke_trans; [by apply woke_lists|done]).
  destruct (woke_fields _ _ Hw) as (Et&Ecu&Ed&Eo&Etk&_).
  assert (Hp : payload_kept (task_lists k) (task_lists k2)) by (by eapply payload_kept_trans).
  assert (Hkk : conts_kept (2 * t) (task_lists k) (task_lists k2)).
  { intros y Hy. by rewrite Hk2, Hk1. }
  pose proof (co_priority _ _ HC _ _ Ht) as Hpr. unfold configMAX_PRIORITIES in Hpr.
  assert (Hl : holds_states l).
  { unfold holds_states. apply list_elem_of_lookup_2 in Hi.
    destruct (co_items _ _ HC _ _ _ Ha Hi) as (t'&tcb'&_&Hk).
    case_decide; [by left|]. destruct (state_list l); [by right|lia]. }
  assert (En : xNextTaskUnblockTime k2 = xNextTaskUnblockTime k).
  { unfold prvAddTaskToReadyList in E2. rewrite (get_tcb_bind _ _ _ _ Ht1) in E2.
    unfold taskRECORD_READY_PRIORITY in E2. rewrite update_bind in E2.
    unfold listINSERT_END, on_lists, try_update in E2.
    destruct (vListInsertEnd _ _ _); [|done]. cbn in E2. injection E2 as <-. cbn.
    by case_match; rewrite Hs1. }
  exists k2, (<[uxPriority tcb := ainsert (end_position b) (2 * t) b]> (<[l := aremove i a]> L)).
  split_and!; try done.
  - unfold make_ready. by rewrite (bind_run _ _ _ _ _ E1).
  - split; [done| |].
    + eapply (timed_shrink k k2 L); try done. intros l' a' Hl'.
      assert (Hsl : state_list l' = true).
      { apply state_list_spec. destruct (co_delayed _ _ HC) as [[E3 E4]|[E3 E4]], Hl' as [->| ->];
          rewrite ?E3, ?E4; vm_compute; auto. }
      apply state_list_spec in Hsl. rewrite lookup_insert_ne by lia.
      rewrite lookup_insert. case_decide as Ell.
      * intros [= <-]. subst l'. exists a. split; [done|apply aremove_sublist].
      * intros Hx. by exists a'.
    + intros t' l' Ht' Hc'. rewrite Et in Ht'. destruct (decide (t' = t)) as [->|Hne].
      { unfold xEventListItem in *. rewrite Hkk in Hc' by lia. congruence. }
      unfold xEventListItem, xStateListItem in *. rewrite Hkk in Hc' |- * by lia. by apply (HA t' l').
  - intros l' Hl'. rewrite !lookup_insert_ne; [done| |].
    + intros ->. by apply Hl'.
    + intros <-. apply Hl'. left. unfold configMAX_PRIORITIES. lia.
Qed.

(** To the pending ready list, while the scheduler is suspended. *)
Lemma pend_inv k L t tcb l0 :
  inv k L -> tcbs k !! t = Some tcb -> detached (task_lists k) (2 * t + 1) ->
  cont (task_lists k) (xStateListItem t) = Some (Some l0) -> state_list l0 = true ->
  exists k' a, listINSERT_END xPendingReadyList (xEventListItem t) k = Some (tt, k') /\
    same_but_lists k k' /\ L !! xPendingReadyList = Some a /\
    inv k' (<[xPendingReadyList := ainsert (end_position a) (2 * t + 1) a]> L) /\
    cont (task_lists k') (xEventListItem t) = Some (Some xPendingReadyList) /\
    payload_kept (task_lists k) (task_lists k') /\
    conts_kept (2 * t + 1) (task_lists k) (task_lists k').
Proof.
  intros [HC HT HA] Ht Hd Hc Hl0.
  destruct (co_static _ _ HC) as ([a Ha]&_).
  destruct (insert_end_core k L xPendingReadyList a (2 * t + 1) HC Ha Hd) as (k'&E&Hs&HC'&Hc'&Hp&Hk).
  - exists t, tcb. split; [done|]. done.
  - unfold configMAX_PRIORITIES, xPendingReadyList. lia.
  - pose proof Hs as Hs'. unfold same_but_lists in Hs'.
    exists k', a. split_and!; try done. split; [done| |].
    + eapply (timed_shrink k k' L); try done; try (by rewrite Hs').
      intros l' a' Hl'. rewrite lookup_insert_ne; [by exists a'|].
      intros <-. destruct (co_delayed _ _ HC) as [[E1 E2]|[E1 E2]], Hl' as [Hx|Hx];
        rewrite ?E1, ?E2 in Hx; vm_compute in Hx; discriminate.
    + intros t' l' Ht' Hct. rewrite Hs' in Ht'. unfold xEventListItem, xStateListItem in *.
      destruct (decide (t' = t)) as [->|Hne].
      { exists l0. rewrite Hk by lia. done. }
      rewrite Hk in Hct |- * by lia. by apply (HA t' l').
Qed.

(** The invariant does not mention the other fields. *)
Lemma inv_ext k k' L :
  inv k L -> task_lists k' = task_lists k -> tcbs k' = tcbs k -> pxCurrentTCB k' = pxCurrentTCB k ->
  pxDelayedTaskList k' = pxDelayedTaskList k ->
  pxOverflowDelayedTaskList k' = pxOverflowDelayedTaskList k ->
  uxTopReadyPriority k' = uxTopReadyPriority k -> xTickCount k' = xTickCount k ->
  xNextTaskUnblockTime k' = xNextTaskUnblockTime k -> inv k' L.
Proof.
  intros [HC HT HA] E1 E2 E3 E4 E5 E6 E7 E8. split.
  - eapply core_ext; [exact HC|done..|]. pose proof (co_top _ _ HC). lia.
  - destruct HT. unfold timed. split; rewrite ?E7, ?E1, ?E4, ?E5, ?E8; done.
  - intros t l. rewrite E1, E2. apply HA.
Qed.

(** Waking the task: ready at once, or pending while the scheduler is suspended. *)
Definition ready_or_pend (t : Z) : K unit :=
  suspended ← ask uxSchedulerSuspended;
  if suspended =? 0 then make_ready t
  else listINSERT_END xPendingReadyList (xEventListItem t).

Record unblocked (k k' : kernel) (L L' : gmap Z alist) (t : Z) (tcb : TCB_t) : Prop := {
  ub_woke : woke k k';
  ub_inv : inv k' L';
  ub_ready : uxSchedulerSuspended k = 0 ->
    cont (task_lists k') (xStateListItem t) = Some (Some (uxPriority tcb)) /\
    cont (task_lists k') (xEventListItem t) = Some None;
  ub_pend : uxSchedulerSuspended k <> 0 ->
    cont (task_lists k') (xStateListItem t) = cont (task_lists k) (xStateListItem t) /\
    cont (task_lists k') (xEventListItem t) = Some (Some xPendingReadyList);
  ub_payload : payload_kept (task_lists k) (task_lists k');
  ub_conts : forall y, y <> 2 * t -> y <> 2 * t + 1 ->
    cont (task_lists k') (Item y) = cont (task_lists k) (Item y)
}.

Lemma ready_or_pend_inv k L t tcb l0 :
  inv k L -> tcbs k !! t = Some tcb -> detached (task_lists k) (2 * t + 1) ->
  cont (task_lists k) (xStateListItem t) = Some (Some l0) -> state_list l0 = true ->
  exists k' L', ready_or_pend t k = Some (tt, k') /\ unblocked k k' L L' t tcb /\
    (forall l, ~ holds_states l -> l <> xPendingReadyList -> L' !! l = L !! l).
Proof.
  intros HI Ht Hd Hc Hl0. unfold ready_or_pend.
  destruct (Z.eqb_spec (uxSchedulerSuspended k) 0) as [E|E].
  - destruct (make_ready_inv k L t tcb l0 HI Ht Hc Hd) as (k'&L'&Er&Hw&HI'&Hc'&_&Hp&Hk&HL).
    exists k', L'. split; [rewrite ask_bind, E; exact Er|]. split; [|by intros l ? _; apply HL].
    split; try done.
    + intros _. split; [done|]. unfold xEventListItem. rewrite Hk by lia. exact Hd.
    + intros y H1 _. by apply Hk.
  - destruct (pend_inv k L t tcb l0 HI Ht Hd Hc Hl0) as (k'&a&Er&Hs&Ha&HI'&Hc'&Hp&Hk).
    eexists k', _. split; [rewrite ask_bind; apply Z.eqb_neq in E as ->; exact Er|].
    split; [|intros l _ Hne; by apply lookup_insert_ne].
    split; try done.
    + by apply woke_lists.
    + intros _. split; [|done]. unfold xStateListItem. rewrite Hk by lia. done.
    + intros y _ H2. by apply Hk.
Qed.

(** The first task of an event list. *)
Lemma event_head k L l a x xs :
  inv k L -> L !! l = Some a -> elems a = x :: xs -> ~ holds_states l ->
  exists t tcb l0, x = 2 * t + 1 /\ tcbs k !! t = Some tcb /\
    listGET_OWNER_OF_HEAD_ENTRY l (task_lists k) = Some t /\
    cont (task_lists k) (xEventListItem t) = Some (Some l) /\
    cont (task_lists k) (xStateListItem t) = Some (Some l0) /\ state_list l0 = true.
Proof.
  intros [HC _ HA] Ha Hx Hl. assert (Hin : x ∈ elems a) by (rewrite Hx; left).
  destruct (co_items _ _ HC _ _ _ Ha Hin) as (t&tcb&Ht&Hk).
  assert (x = 2 * t + 1) as ->.
  { rewrite decide_False in Hk by (intros ?; apply Hl; by left).
    destruct (state_list l) eqn:E; [|done]. exfalso. apply Hl. by right. }
  assert (Hc : cont (task_lists k) (xEventListItem t) = Some (Some l))
    by (by apply (rep_cont _ _ _ (co_lists _ _ HC _ _ Ha))).
  destruct (HA t l) as (l0&Hc0&Hl0); [by eexists|done|].
  exists t, tcb, l0. split_and!; try done.
  destruct (lists_rep_head _ _ _ _ _ _ (co_lists _ _ HC) Ha Hx) as [Hh _].
  unfold listGET_OWNER_OF_HEAD_ENTRY. rewrite Hh. apply (co_owner _ _ HC _ _ Ht).
Qed.

Lemma remove_from_event_inv k L l a x xs :
  inv k L -> L !! l = Some a -> elems a = x :: xs -> ~ holds_states l -> l <> xPendingReadyList ->
  exists t tcb k1 L', x = 2 * t + 1 /\ tcbs k !! t = Some tcb /\
    unblocked k k1 L L' t tcb /\
    xTaskRemoveFromEventList l k =
      Some (prio k (pxCurrentTCB k) <? uxPriority tcb,
            if prio k (pxCurrentTCB k) <? uxPriority tcb then set_xYieldPending true k1 else k1) /\
    L' !! l = Some (aremove 0 a) /\
    (forall l', ~ holds_states l' -> l' <> xPendingReadyList -> l' <> l -> L' !! l' = L !! l').
Proof.
  intros HI Ha Hx Hl Hlp. destruct (event_head k L l a x xs HI Ha Hx Hl) as (t&tcb&l0&->&Ht&Ho&Hce&Hcs&Hl0).
  destruct (remove_event_inv k L t tcb l HI Ht Hce) as (k1&a1&i&E1&Hs1&HI1&Ha1&Hi&Hd1&_&Hp1&Hk1).
  rewrite Ha in Ha1. injection Ha1 as <-. pose proof Hs1 as Hs1'. unfold same_but_lists in Hs1'.
  assert (i = 0%nat) as ->.
  { pose proof (rep_nodup _ _ _ (co_lists _ _ (inv_core _ _ HI) _ _ Ha)) as Hnd. rewrite Hx in Hi, Hnd.
    by eapply (NoDup_lookup _ _ _ _ Hnd). }
  assert (Ht1 : tcbs k1 !! t = Some tcb) by (rewrite Hs1'; exact Ht).
  assert (Hcs1 : cont (task_lists k1) (xStateListItem t) = Some (Some l0)).
  { unfold xStateListItem. rewrite Hk1 by lia. exact Hcs. }
  destruct (ready_or_pend_inv k1 _ t tcb l0 HI1 Ht1 Hd1 Hcs1 Hl0) as (k2&L2&E2&UB&HL2).
  destruct (woke_fields _ _ (ub_woke _ _ _ _ _ _ UB)) as (Et&Ecu&_).
  destruct (co_current _ _ (inv_core _ _ (ub_inv _ _ _ _ _ _ UB))) as [cur Hcur].
  assert (Hpr : prio k (pxCurrentTCB k) = uxPriority cur).
  { unfold prio. rewrite <- (f_equal tcbs Hs1' : _ = tcbs k) at 1.
    rewrite <- (f_equal pxCurrentTCB Hs1' : _ = pxCurrentTCB k), <- Et, <- Ecu, Hcur. done. }
  exists t, tcb, k2, L2. split_and!; try done.
  - destruct UB as [U1 U2 U3 U4 U5 U6]. split; try done.
    + eapply woke_trans; [by apply woke_lists|done].
    + intros E. apply U3. by rewrite Hs1'.
    + intros E. destruct U4 as [U7 U8]; [by rewrite Hs1'|]. split; [|done]. rewrite U7, Hcs1. done.
    + by eapply payload_kept_trans.
    + intros y H1 H2. by rewrite U6, Hk1.
  - unfold xTaskRemoveFromEventList. rewrite (from_lists_bind _ _ _ _ Ho), (bind_run _ _ _ _ _ E1).
    unfold ready_or_pend in E2. rewrite ask_bind in E2. rewrite ask_bind.
    rewrite (bind_run _ _ k1 tt k2 E2). rewrite <- Et in Ht1.
    rewrite (get_tcb_bind _ _ _ _ Ht1), ask_bind, (get_tcb_bind _ _ _ _ Hcur), Hpr.
    by destruct (uxPriority cur <? uxPriority tcb).
  - rewrite HL2 by done. by rewrite lookup_insert_eq.
  - intros l' H1 H2 H3. rewrite HL2 by done. by rewrite lookup_insert_ne.
Qed.

(** ** Blocking the running task *)

Record blocks (k k' : kernel) (L L' : gmap Z alist) (t : Z) : Prop := {
  bl_woke : woke k k';
  bl_core : core k' L';
  bl_timed : timed k' L';
  bl_state : exists l0, cont (task_lists k') (xStateListItem t) = Some (Some l0) /\ state_list l0 = true;
  bl_conts : forall y, y <> 2 * t -> cont (task_lists k') (Item y) = cont (task_lists k) (Item y);
  bl_vals : forall y, y <> 2 * t -> vals (task_lists k') y = vals (task_lists k) y;
  bl_lists : forall l, ~ holds_states l -> L' !! l = L !! l
}.

Lemma delayed_holds k L l :
  core k L -> l = pxDelayedTaskList k \/ l = pxOverflowDelayedTaskList k -> state_list l = true.
Proof.
  intros HC Hl. apply state_list_spec.
  destruct (co_delayed _ _ HC) as [[E1 E2]|[E1 E2]], Hl as [->| ->]; rewrite ?E1, ?E2; vm_compute; auto.
Qed.

Lemma due_now_blocked_state k L w t :
  core k L -> due_now k w t ->
  exists l0, cont (task_lists k) (xStateListItem t) = Some (Some l0) /\ state_list l0 = true.
Proof.
  intros HC [[H|H] _]; eexists; (split; [exact H|]); apply (delayed_holds k L); auto.
Qed.

Lemma suspend_current k L cur p block :
  core k L -> timed k L -> tcbs k !! pxCurrentTCB k = Some cur ->
  cont (task_lists k) (xStateListItem (pxCurrentTCB k)) = Some (Some p) ->
  0 <= p < configMAX_PRIORITIES -> block = true ->
  exists k' L', prvAddCurrentTaskToDelayedList portMAX_DELAY block k = Some (tt, k') /\
    blocks k k' L L' (pxCurrentTCB k) /\
    cont (task_lists k') (xStateListItem (pxCurrentTCB k)) = Some (Some xSuspendedTaskList).
Proof.
  intros HC HT Hcur Hc Hp ->. set (t := pxCurrentTCB k) in *.
  destruct (remove_core k L p (2 * t) HC Hc) as (n&k1&a&i&E1&Hs1&Ha&Hi&HC1&Hd1&Hpl1&Hk1).
  unfold same_but_lists in Hs1.
  assert (Ht1 : tcbs k1 !! t = Some cur) by (rewrite Hs1; exact Hcur).
  destruct (co_static _ _ HC1) as (_&[b Hb]&_).
  assert (Hok : item_ok (tcbs k1) xSuspendedTaskList (2 * t)) by (exists t, cur; split; [done|done]).
  destruct (insert_end_core k1 _ xSuspendedTaskList b (2 * t) HC1 Hb Hd1 Hok)
    as (k2&E2&Hs2&HC2&Hc2&Hp2&Hk2); [unfold configMAX_PRIORITIES, xSuspendedTaskList; lia|].
  unfold same_but_lists in Hs2.
  assert (Hs12 : same_but_lists k k2) by (unfold same_but_lists; rewrite Hs2, Hs1; done).
  assert (Hpl : payload_kept (task_lists k) (task_lists k2)) by (by eapply payload_kept_trans).
  eexists k2, _. split; [|split; [split|exact Hc2]].
  - unfold prvAddCurrentTaskToDelayedList. rewrite !ask_bind. fold t. rewrite (bind_run _ _ _ _ _ E1).
    exact E2.
  - by apply woke_lists.
  - exact HC2.
  - eapply (timed_shrink k k2 L); try done; try (by rewrite Hs12).
    intros l a' Hl. pose proof (proj1 (state_list_spec _) (delayed_holds _ _ _ HC Hl)) as Hsl.
    assert (l <> xSuspendedTaskList).
    { unfold xSuspendedTaskList. destruct (co_delayed _ _ HC) as [[X1 X2]|[X1 X2]], Hl as [->| ->];
        rewrite ?X1, ?X2; vm_compute; discriminate. }
    unfold configMAX_PRIORITIES in Hp. rewrite !lookup_insert_ne by (congruence || lia). intros Hx. by exists a'.
  - exists xSuspendedTaskList. done.
  - intros y Hy. by rewrite Hk2, Hk1.
  - intros y Hy. by apply payload_vals.
  - intros l Hl. rewrite !lookup_insert_ne; [done| |].
    + intros <-. apply Hl. by left.
    + intros <-. apply Hl. right. done.
Qed.

Lemma block_current k L cur n :
  core k L -> timed k L -> tcbs k !! pxCurrentTCB k = Some cur ->
  cont (task_lists k) (xStateListItem (pxCurrentTCB k)) = Some (Some (uxPriority cur)) ->
  0 < n < 2 ^ 32 ->
  exists k' L', prvAddCurrentTaskToDelayedList n true k = Some (tt, k') /\
    blocks k k' L L' (pxCurrentTCB k).
Proof.
  intros HC HT Hcur Hc Hn. pose proof (co_priority _ _ HC _ _ Hcur) as Hpr.
  destruct (decide (n = portMAX_DELAY)) as [->|Hne].
  - destruct (suspend_current k L cur (uxPriority cur) true HC HT Hcur Hc Hpr eq_refl) as (k'&L'&E&B&_).
    by exists k', L'.
  - assert (Hnd : forall d, d = pxDelayedTaskList k \/ d = pxOverflowDelayedTaskList k -> uxPriority cur <> d).
    { intros d Hd <-. pose proof (proj1 (state_list_spec _) (delayed_holds _ _ _ HC Hd)).
      unfold configMAX_PRIORITIES in Hpr. lia. }
    destruct (add_delayed_spec k L cur (uxPriority cur) n true HC HT Hcur Hc) as (k'&L'&E&SL);
      [by apply Hnd; left|by apply Hnd; right|done|by apply Z.eqb_neq in Hne as ->|].
    exists k', L'. split; [done|]. destruct SL as [S1 S2 S3 S4 S5 S6 S7]. split; try done.
    + apply (due_now_blocked_state k' L') in S4; [|done]. exact S4.
    + intros l Hl. apply S7.
      * intros ->. apply Hl. right. by apply (delayed_is_state k L).
      * intros ->. apply Hl. right. apply (delayed_holds k L); [done|by right].
      * rewrite Hc. intros [= El]. apply Hl. left. lia.
Qed.

(** The running task waits on event list [l], for [n] ticks at most. *)
Lemma place_on_event_inv k L cur l a n :
  inv k L -> tcbs k !! pxCurrentTCB k = Some cur ->
  cont (task_lists k) (xStateListItem (pxCurrentTCB k)) = Some (Some (uxPriority cur)) ->
  cont (task_lists k) (xEventListItem (pxCurrentTCB k)) = Some None ->
  L !! l = Some a -> ~ holds_states l -> 0 < n < 2 ^ 32 ->
  exists k' L', vTaskPlaceOnEventList l n k = Some (tt, k') /\ woke k k' /\ inv k' L' /\
    L' !! l = Some (ainsert (sorted_position (vals (task_lists k))
                 (vals (task_lists k) (2 * pxCurrentTCB k + 1)) (elems a)) (2 * pxCurrentTCB k + 1) a) /\
    (forall l', ~ holds_states l' -> l' <> l -> L' !! l' = L !! l') /\
    (forall y, y <> 2 * pxCurrentTCB k -> y <> 2 * pxCurrentTCB k + 1 ->
       cont (task_lists k') (Item y) = cont (task_lists k) (Item y)) /\
    (forall y, y <> 2 * pxCurrentTCB k -> vals (task_lists k') y = vals (task_lists k) y).
Proof.
  intros [HC HT HA] Hcur Hc Hce Ha Hl Hn. set (t := pxCurrentTCB k) in *.
  assert (Hnr : 0 <= l < configMAX_PRIORITIES -> False) by (intros ?; apply Hl; by left).
  assert (Hns : state_list l = false) by (apply not_true_is_false; intros ?; apply Hl; by right).
  assert (Hok : item_ok (tcbs k) l (2 * t + 1)).
  { exists t, cur. split; [done|]. rewrite decide_False by done. by rewrite Hns. }
  destruct (insert_core k L l a (2 * t + 1) HC Ha Hce Hok) as (k1&E1&Hs1&HC1&Hc1&Hp1&Hk1); [by intros ?%Hnr|].
  pose proof Hs1 as Hs1'. unfold same_but_lists in Hs1'.
  set (L1 := <[l := _]> L) in HC1.
  assert (HT1 : timed k1 L1).
  { eapply (timed_shrink k k1 L); try done; try (by rewrite Hs1').
    intros l' a' Hl'. subst L1. rewrite lookup_insert_ne; [by exists a'|].
    intros <-. rewrite (delayed_holds _ _ _ HC Hl') in Hns. done. }
  assert (Ecu : pxCurrentTCB k1 = t) by (by rewrite Hs1').
  assert (Hcur1 : tcbs k1 !! pxCurrentTCB k1 = Some cur) by (rewrite Ecu, Hs1'; exact Hcur).
  assert (Hcs1 : cont (task_lists k1) (xStateListItem (pxCurrentTCB k1)) = Some (Some (uxPriority cur))).
  { rewrite Ecu. unfold xStateListItem. rewrite Hk1 by lia. exact Hc. }
  destruct (block_current k1 L1 cur n HC1 HT1 Hcur1 Hcs1 Hn) as (k2&L2&E2&B). rewrite Ecu in B.
  destruct (woke_fields _ _ (bl_woke _ _ _ _ _ B)) as (Et&_).
  exists k2, L2. split_and!.
  - unfold vTaskPlaceOnEventList. rewrite ask_bind. fold t. unfold xEventListItem.
    by rewrite (bind_run _ _ _ _ _ E1).
  - eapply woke_trans; [by apply woke_lists|apply B].
  - split; [apply B|apply B|]. intros t' l' Ht' Hct. rewrite Et, Hs1' in Ht'.
    destruct (decide (t' = t)) as [->|Hne]; [apply B|].
    unfold xEventListItem, xStateListItem in *.
    rewrite (bl_conts _ _ _ _ _ B), Hk1 in Hct |- * by lia. by apply (HA t' l').
  - rewrite (bl_lists _ _ _ _ _ B) by done. subst L1. by rewrite lookup_insert_eq.
  - intros l' H1 H2. rewrite (bl_lists _ _ _ _ _ B) by done. subst L1. by rewrite lookup_insert_ne.
  - intros y H1 H2. by rewrite (bl_conts _ _ _ _ _ B), Hk1.
  - intros y H1. rewrite (bl_vals _ _ _ _ _ B) by done. by apply payload_vals.
Qed.

(** ** Changing priorities *)

Lemma set_tcb_bind {B} t f (g : unit -> K B) k tcb :
  tcbs k !! t = Some tcb -> (set_tcb t f ≫= g) k = g tt (set_tcbs (<[t := f tcb]> (tcbs k)) k).
Proof. intros E. apply bind_run. unfold set_tcb, try_update. by rewrite E. Qed.

Lemma set_tcb_run t f k tcb :
  tcbs k !! t = Some tcb -> set_tcb t f k = Some (tt, set_tcbs (<[t := f tcb]> (tcbs k)) k).
Proof. intros E. unfold set_tcb, try_update. by rewrite E. Qed.

(** A control block may change, except the priority of a ready task. *)
Lemma set_tcb_core k L t tcb tcb' :
  core k L -> tcbs k !! t = Some tcb -> 0 <= uxPriority tcb' < configMAX_PRIORITIES ->
  (uxPriority tcb' = uxPriority tcb \/
   forall p, 0 <= p < configMAX_PRIORITIES -> cont (task_lists k) (xStateListItem t) <> Some (Some p)) ->
  core (set_tcbs (<[t := tcb']> (tcbs k)) k) L.
Proof.
  intros HC Ht Hp Hnr. pose proof HC as HC0.
  destruct HC0 as [C1 C2 C3 C4 C5 C6 C7 C8 C9 C10 C11 C12]. split; cbn; try done.
  - intros l a x Hl Hx. destruct (C3 _ _ _ Hl Hx) as (t'&tcb2&Ht'&Hk).
    destruct (decide (t' = t)) as [->|Hne].
    + exists t, tcb'. rewrite lookup_insert_eq. split; [done|].
      rewrite Ht in Ht'. injection Ht' as <-. case_decide as Hr; [|done].
      destruct Hk as [-> <-]. split; [done|]. destruct Hnr as [->|Hnr]; [done|].
      exfalso. apply (Hnr _ Hr). by apply (rep_cont _ _ _ (C1 _ _ Hl)).
    + exists t', tcb2. by rewrite lookup_insert_ne.
  - intros t' tcb2. rewrite lookup_insert. case_decide; [|by apply C4].
    intros _. subst t'. by apply (C4 t tcb).
  - intros t' tcb2. rewrite lookup_insert. case_decide; [by intros [= <-]|by apply C6].
  - rewrite lookup_insert. by case_decide.
  - rewrite map_size_insert_Some; [done|by eexists].
Qed.

Lemma set_tcb_inv k L t tcb tcb' :
  inv k L -> tcbs k !! t = Some tcb -> 0 <= uxPriority tcb' < configMAX_PRIORITIES ->
  (uxPriority tcb' = uxPriority tcb \/
   forall p, 0 <= p < configMAX_PRIORITIES -> cont (task_lists k) (xStateListItem t) <> Some (Some p)) ->
  inv (set_tcbs (<[t := tcb']> (tcbs k)) k) L.
Proof.
  intros [HC HT HA] Ht Hp Hnr. split; [by apply (set_tcb_core k L t tcb)|by destruct HT|].
  intros t' l [x Hx]. cbn in *. rewrite lookup_insert in Hx. apply HA.
  case_decide; [subst; by eexists|by eexists].
Qed.

(** A new value for an event item. *)
Lemma set_event_value_inv k L t tcb v :
  inv k L -> tcbs k !! t = Some tcb -> 0 <= v <= portMAX_DELAY ->
  exists k', on_lists (listSET_LIST_ITEM_VALUE (xEventListItem t) v) k = Some (tt, k') /\
    same_but_lists k k' /\ inv k' L /\
    (forall p, cont (task_lists k') p = cont (task_lists k) p) /\
    (forall y, vals (task_lists k') y = if decide (y = 2 * t + 1) then v else vals (task_lists k) y).
Proof.
  intros [HC HT HA] Ht Hv.
  assert (Hit : is_Some (items (task_lists k) !! Item (2 * t + 1))).
  { destruct (co_owner _ _ HC _ _ Ht) as [_ H]. unfold own, xEventListItem in H.
    by destruct (items (task_lists k) !! Item (2 * t + 1)). }
  destruct (set_value_core k L (2 * t + 1) v HC Hv Hit) as (k'&E&Hs&HC'&Hco&_&Hva).
  pose proof Hs as Hs'. unfold same_but_lists in Hs'.
  exists k'. split_and!; try done. split; [done| |].
  - assert (Hkeep : forall d a, d = pxDelayedTaskList k \/ d = pxOverflowDelayedTaskList k ->
      L !! d = Some a -> forall x, x ∈ elems a -> vals (task_lists k') x = vals (task_lists k) x).
    { intros d a Hd Ha x Hx. rewrite Hva, decide_False; [done|]. intros ->.
      destruct (item_ok_state _ _ _ (co_items _ _ HC _ _ _ Ha Hx)); [|lia].
      right. by apply (delayed_holds k L). }
    unfold timed. rewrite Hs'. split; cbn; [apply HT| |].
    + intros a Ha. destruct (wt_delayed _ _ _ HT a Ha) as [H1 H2].
      pose proof (Hkeep _ a (or_introl eq_refl) Ha) as Hk. split; [by apply (sorted_list_ext (task_lists k))|].
      intros x Hx. rewrite Hk by done. by apply H2.
    + intros a Ha. destruct (wt_overflow _ _ _ HT a Ha) as [H1 H2].
      pose proof (Hkeep _ a (or_intror eq_refl) Ha) as Hk. split; [by apply (sorted_list_ext (task_lists k))|].
      intros x Hx. rewrite Hk by done. by apply H2.
  - intros t' l. rewrite Hs' at 1. rewrite !Hco. apply HA.
Qed.

Definition event_value_after (old p : Z) : Z := if value_in_use old then old else configMAX_PRIORITIES - p.

Lemma reset_event_value_inv k L t tcb p :
  inv k L -> tcbs k !! t = Some tcb -> 0 <= p < configMAX_PRIORITIES ->
  exists k', reset_event_value t p k = Some (tt, k') /\ same_but_lists k k' /\ inv k' L /\
    (forall q, cont (task_lists k') q = cont (task_lists k) q) /\
    (forall y, vals (task_lists k') y =
       if decide (y = 2 * t + 1) then event_value_after (vals (task_lists k) y) p
       else vals (task_lists k) y).
Proof.
  intros HI Ht Hp. unfold reset_event_value, event_value_after.
  assert (Hv : listGET_LIST_ITEM_VALUE (xEventListItem t) (task_lists k)
               = Some (vals (task_lists k) (2 * t + 1))).
  { destruct (co_owner _ _ (inv_core _ _ HI) _ _ Ht) as [_ H].
    unfold listGET_LIST_ITEM_VALUE, vals, val. unfold own in H. fold (xEventListItem t).
    by destruct (items (task_lists k) !! xEventListItem t). }
  rewrite (from_lists_bind _ _ _ _ Hv).
  destruct (value_in_use (vals (task_lists k) (2 * t + 1))) eqn:Eu; cbn [negb when].
  - exists k. split; [done|]. split; [unfold same_but_lists; by destruct k|]. split; [done|].
    split; [done|]. intros y. case_decide; [|done]. subst. by rewrite Eu.
  - unfold configMAX_PRIORITIES in *.
    destruct (set_event_value_inv k L t tcb (u32 (7 - p)) HI Ht) as (k'&E&Hs&HI'&Hc&Hva).
    { unfold portMAX_DELAY. words. lia. }
    exists k'. split_and!; try done. intros y. rewrite Hva. case_decide; [|done]. subst.
    rewrite Eu. by words.
Qed.

Lemma ready_no_event k L t tcb p :
  inv k L -> tcbs k !! t = Some tcb -> 0 <= p < configMAX_PRIORITIES ->
  cont (task_lists k) (xStateListItem t) = Some (Some p) ->
  cont (task_lists k) (xEventListItem t) = Some None.
Proof.
  intros [HC _ HA] Ht Hp Hc. destruct (core_event_cont _ _ _ _ HC Ht) as [[l|] He]; [|done].
  destruct (HA t l) as (l0&Hc0&Hl0); [by eexists|done|].
  rewrite Hc in Hc0. injection Hc0 as <-. apply state_list_spec in Hl0.
  unfold configMAX_PRIORITIES in Hp. lia.
Qed.

(** A ready task leaves its list. *)
Lemma leave_ready_inv k L t tcb p :
  inv k L -> tcbs k !! t = Some tcb -> 0 <= p < configMAX_PRIORITIES ->
  cont (task_lists k) (xStateListItem t) = Some (Some p) ->
  exists n k' L', remove_item (xStateListItem t) k = Some (n, k') /\ same_but_lists k k' /\
    inv k' L' /\ detached (task_lists k') (2 * t) /\
    payload_kept (task_lists k) (task_lists k') /\ conts_kept (2 * t) (task_lists k) (task_lists k') /\
    (forall l, l <> p -> L' !! l = L !! l).
Proof.
  intros HI Ht Hp Hc. pose proof (ready_no_event k L t tcb p HI Ht Hp Hc) as He.
  destruct HI as [HC HT HA].
  destruct (remove_core k L p (2 * t) HC Hc) as (n&k1&a&i&E&Hs&Ha&Hi&HC1&Hd&Hpl&Hk).
  pose proof Hs as Hs'. unfold same_but_lists in Hs'. unfold configMAX_PRIORITIES in Hp.
  exists n, k1, (<[p := aremove i a]> L). split_and!; try done; [split; [done| |]|].
  - eapply (timed_shrink k k1 L); try done; try (by rewrite Hs').
    intros l a' Hl. pose proof (proj1 (state_list_spec _) (delayed_holds _ _ _ HC Hl)).
    rewrite lookup_insert_ne by lia. intros Hx. by exists a'.
  - intros t' l Ht' Hct. rewrite Hs' in Ht'. unfold xEventListItem, xStateListItem in *.
    rewrite Hk in Hct by lia. destruct (decide (t' = t)) as [->|Hne]; [congruence|].
    rewrite Hk by lia. by apply (HA t' l).
  - intros l Hl. by apply lookup_insert_ne.
Qed.

Lemma add_ready_inv k L t tcb :
  inv k L -> tcbs k !! t = Some tcb -> detached (task_lists k) (2 * t) ->
  cont (task_lists k) (xEventListItem t) = Some None ->
  exists k' L', prvAddTaskToReadyList t k = Some (tt, k') /\ woke k k' /\ inv k' L' /\
    cont (task_lists k') (xStateListItem t) = Some (Some (uxPriority tcb)) /\
    payload_kept (task_lists k) (task_lists k') /\
    conts_kept (2 * t) (task_lists k) (task_lists k') /\
    (forall l, ~ holds_states l -> L' !! l = L !! l).
Proof.
  intros [HC HT HA] Ht Hd He.
  destruct (add_ready_core k L t tcb HC Ht Hd) as (k2&b&E2&Hw&Hb&HC2&Hc2&Htop&Hp2&Hk2).
  destruct (woke_fields _ _ Hw) as (Et&Ecu&Ed&Eo&Etk&_).
  pose proof (co_priority _ _ HC _ _ Ht) as Hpr. unfold configMAX_PRIORITIES in Hpr.
  assert (En : xNextTaskUnblockTime k2 = xNextTaskUnblockTime k).
  { unfold prvAddTaskToReadyList in E2. rewrite (get_tcb_bind _ _ _ _ Ht) in E2.
    unfold taskRECORD_READY_PRIORITY in E2. rewrite update_bind in E2.
    unfold listINSERT_END, on_lists, try_update in E2.
    destruct (vListInsertEnd _ _ _); [|done]. cbn in E2. injection E2 as <-. cbn. by case_match. }
  exists k2, (<[uxPriority tcb := ainsert (end_position b) (2 * t) b]> L).
  split_and!; try done; [split; [exact HC2| |]|].
  - eapply (timed_shrink k k2 L); try done. intros l a' Hl.
    pose proof (proj1 (state_list_spec _) (delayed_holds _ _ _ HC Hl)).
    rewrite lookup_insert_ne by lia. intros Hx. by exists a'.
  - intros t' l Ht' Hct. rewrite Et in Ht'. unfold xEventListItem, xStateListItem in *.
    rewrite Hk2 in Hct by lia. destruct (decide (t' = t)) as [->|Hne]; [congruence|].
    rewrite Hk2 by lia. by apply (HA t' l).
  - intros l Hl. apply lookup_insert_ne. intros <-. apply Hl. left. unfold configMAX_PRIORITIES. lia.
Qed.

(** [same_tasks]: the fields that the priority functions leave alone. *)
Definition reprioritised (k k' : kernel) (t : Z) (tcb' : TCB_t) : Prop :=
  k' = set_task_lists (task_lists k')
         (set_uxTopReadyPriority (uxTopReadyPriority k')
            (set_xNextTaskUnblockTime (xNextTaskUnblockTime k') (set_tcbs (<[t := tcb']> (tcbs k)) k))).

(** A ready task moves to the list of its new priority. *)
Lemma requeue_inv k L t tcb p f :
  inv k L -> tcbs k !! t = Some tcb -> 0 <= p < configMAX_PRIORITIES ->
  cont (task_lists k) (xStateListItem t) = Some (Some p) ->
  0 <= uxPriority (f tcb) < configMAX_PRIORITIES ->
  exists k' L', (_ ← remove_item (xStateListItem t); _ ← set_tcb t f; prvAddTaskToReadyList t) k
      = Some (tt, k') /\ reprioritised k k' t (f tcb) /\ inv k' L' /\
    cont (task_lists k') (xStateListItem t) = Some (Some (uxPriority (f tcb))) /\
    payload_kept (task_lists k) (task_lists k') /\
    conts_kept (2 * t) (task_lists k) (task_lists k') /\
    (forall l, ~ holds_states l -> L' !! l = L !! l).
Proof.
  intros HI Ht Hp Hc Hf.
  pose proof (ready_no_event k L t tcb p HI Ht Hp Hc) as He.
  destruct (leave_ready_inv k L t tcb p HI Ht Hp Hc) as (n&k1&L1&E1&Hs1&HI1&Hd1&Hp1&Hk1&HL1).
  unfold same_but_lists in Hs1.
  assert (Ht1 : tcbs k1 !! t = Some tcb) by (rewrite Hs1; exact Ht).
  set (k2 := set_tcbs (<[t := f tcb]> (tcbs k1)) k1).
  assert (HI2 : inv k2 L1).
  { apply (set_tcb_inv k1 L1 t tcb); try done. right. intros q _.
    unfold xStateListItem. unfold detached in Hd1. congruence. }
  assert (Ht2 : tcbs k2 !! t = Some (f tcb)) by (cbn; apply lookup_insert_eq).
  assert (He2 : cont (task_lists k2) (xEventListItem t) = Some None).
  { cbn. unfold xEventListItem. rewrite Hk1 by lia. exact He. }
  destruct (add_ready_inv k2 L1 t (f tcb) HI2 Ht2 Hd1 He2) as (k3&L3&E3&Hw3&HI3&Hc3&Hp3&Hk3&HL3).
  exists k3, L3. split_and!; try done.
  - by rewrite (bind_run _ _ _ _ _ E1), (set_tcb_bind _ _ _ _ _ Ht1).
  - unfold reprioritised. unfold woke in Hw3. rewrite Hw3. subst k2. rewrite Hs1. done.
  - by eapply payload_kept_trans.
  - intros y Hy. rewrite Hk3 by done. by apply Hk1.
  - intros l Hl. rewrite HL3 by done. apply HL1. intros ->. apply Hl. by left.
Qed.

(** ** Priority inheritance *)

Lemma is_contained_run k L t tcb l :
  core k L -> tcbs k !! t = Some tcb ->
  listIS_CONTAINED_WITHIN l (xStateListItem t) (task_lists k) =
    Some (bool_decide (cont (task_lists k) (xStateListItem t) = Some (Some l))).
Proof.
  intros HC Ht. destruct (core_state_item k L t tcb HC Ht) as [it Hit].
  unfold listIS_CONTAINED_WITHIN, cont. rewrite Hit. cbn. f_equal.
  apply bool_decide_ext. split; congruence.
Qed.

Lemma ready_at_priority k L t tcb p :
  core k L -> tcbs k !! t = Some tcb -> 0 <= p < configMAX_PRIORITIES ->
  cont (task_lists k) (xStateListItem t) = Some (Some p) -> uxPriority tcb = p.
Proof.
  intros HC Ht Hp Hc. destruct (co_member _ _ HC _ _ Hc) as (a&Ha&Hin).
  destruct (co_items _ _ HC _ _ _ Ha Hin) as (t'&tcb'&Ht'&Hk). rewrite decide_True in Hk by done.
  destruct Hk as [He Hpr]. assert (t' = t) as -> by lia. congruence.
Qed.

(** How a change of priority of [t] shows in the lists. *)
Record repriced (k k' : kernel) (L L' : gmap Z alist) (t : Z) (tcb tcb' : TCB_t) : Prop := {
  rp_fields : reprioritised k k' t tcb';
  rp_inv : inv k' L';
  rp_ready : cont (task_lists k) (xStateListItem t) = Some (Some (uxPriority tcb)) ->
    cont (task_lists k') (xStateListItem t) = Some (Some (uxPriority tcb'));
  rp_other : cont (task_lists k) (xStateListItem t) <> Some (Some (uxPriority tcb)) ->
    cont (task_lists k') (xStateListItem t) = cont (task_lists k) (xStateListItem t);
  rp_conts : forall y, y <> 2 * t -> cont (task_lists k') (Item y) = cont (task_lists k) (Item y);
  rp_vals : forall y, y <> 2 * t + 1 -> vals (task_lists k') y = vals (task_lists k) y;
  rp_lists : forall l, ~ holds_states l -> L' !! l = L !! l
}.

Lemma prio_get k t tcb : tcbs k !! t = Some tcb -> prio k t = uxPriority tcb.
Proof. intros E. unfold prio. by rewrite E. Qed.

Lemma inherit_inv k L h hb :
  inv k L -> h <> 0 -> tcbs k !! h = Some hb -> uxPriority hb < prio k (pxCurrentTCB k) ->
  exists k' L', xTaskPriorityInherit h k = Some (true, k') /\
    repriced k k' L L' h hb (with_priority (prio k (pxCurrentTCB k)) hb) /\
    vals (task_lists k') (2 * h + 1) =
      event_value_after (vals (task_lists k) (2 * h + 1)) (prio k (pxCurrentTCB k)).
Proof.
  intros HI Hh Hhb Hlt. pose proof (inv_core _ _ HI) as HC.
  destruct (co_current _ _ HC) as [cur Hcur]. rewrite (prio_get _ _ _ Hcur) in *.
  pose proof (co_priority _ _ HC _ _ Hcur) as Hpc. pose proof (co_priority _ _ HC _ _ Hhb) as Hph.
  destruct (reset_event_value_inv k L h hb (uxPriority cur) HI Hhb Hpc) as (k1&E1&Hs1&HI1&Hco1&Hva1).
  pose proof Hs1 as Hs1'. unfold same_but_lists in Hs1'.
  assert (Hhb1 : tcbs k1 !! h = Some hb) by (rewrite Hs1'; exact Hhb).
  unfold xTaskPriorityInherit. rewrite (proj2 (Z.eqb_neq h 0) Hh).
  rewrite (get_tcb_bind _ _ _ _ Hhb), ask_bind, (get_tcb_bind _ _ _ _ Hcur).
  rewrite (proj2 (Z.ltb_lt _ _) Hlt), (bind_run _ _ _ _ _ E1).
  rewrite (from_lists_bind _ _ _ _ (is_contained_run k1 L h hb _ (inv_core _ _ HI1) Hhb1)).
  rewrite Hco1. unfold pxReadyTasksLists. case_bool_decide as Hr.
  - destruct (requeue_inv k1 L h hb (uxPriority hb) (with_priority (uxPriority cur)) HI1 Hhb1 Hph)
      as (k2&L2&E2&Hrp&HI2&Hc2&Hp2&Hk2&HL2); [by rewrite Hco1|done|].
    exists k2, L2. split; [by rewrite (bind_run _ _ _ _ _ E2)|].
    assert (Hva2 : forall y, vals (task_lists k2) y = vals (task_lists k1) y) by (intros; by apply payload_vals).
    split; [|rewrite Hva2, Hva1; by rewrite decide_True].
    split; try done.
    + unfold reprioritised in *. rewrite Hrp, Hs1'. done.
    + intros y Hy. by rewrite Hk2, Hco1.
    + intros y Hy. rewrite Hva2, Hva1. by rewrite decide_False.
  - set (k2 := set_tcbs (<[h := with_priority (uxPriority cur) hb]> (tcbs k1)) k1).
    exists k2, L. split; [by rewrite (bind_run _ _ _ _ _ (set_tcb_run h _ k1 hb Hhb1))|].
    split; [|cbn; rewrite Hva1; by rewrite decide_True].
    split; try done.
    + unfold reprioritised. subst k2. cbn. rewrite Hs1'. by destruct k.
    + apply (set_tcb_inv k1 L h hb); try done. right. intros p Hp Hc. rewrite Hco1 in Hc.
      apply Hr. by rewrite (ready_at_priority k L h hb p HC Hhb Hp Hc).
    + intros y Hy. cbn. rewrite Hva1. by rewrite decide_False.
Qed.

(** Giving the mutex back: the holder is the running task, so it is ready. *)
Lemma disinherit_inv k L h hb :
  inv k L -> h <> 0 -> tcbs k !! h = Some hb -> h = pxCurrentTCB k -> uxMutexesHeld hb <> 0 ->
  cont (task_lists k) (xStateListItem h) = Some (Some (uxPriority hb)) ->
  0 <= uxBasePriority hb < configMAX_PRIORITIES ->
  let held := u32 (uxMutexesHeld hb - 1) in
  let back := negb (uxPriority hb =? uxBasePriority hb) && (held =? 0) in
  let hb' := with_mutexes held (if back then with_priority (uxBasePriority hb) hb else hb) in
  exists k' L', xTaskPriorityDisinherit h k = Some (back, k') /\ repriced k k' L L' h hb hb'.
Proof.
  intros HI Hh Hhb Hcur Hheld Hc Hb held back hb'. pose proof (inv_core _ _ HI) as HC.
  pose proof (co_priority _ _ HC _ _ Hhb) as Hp.
  set (hb1 := with_mutexes held hb).
  set (k1 := set_tcbs (<[h := hb1]> (tcbs k)) k).
  assert (HI1 : inv k1 L) by (apply (set_tcb_inv k L h hb); [done..|by left]).
  assert (Hhb1 : tcbs k1 !! h = Some hb1) by apply lookup_insert_eq.
  unfold xTaskPriorityDisinherit. rewrite (proj2 (Z.eqb_neq h 0) Hh).
  rewrite ask_bind, assert_bind by (by apply Z.eqb_eq). rewrite (get_tcb_bind _ _ _ _ Hhb), assert_bind by (by apply negb_true_iff, Z.eqb_neq).
  rewrite (set_tcb_bind _ _ _ _ _ Hhb). fold held hb1 k1. rewrite (get_tcb_bind _ _ _ _ Hhb1).
  change (uxPriority hb1) with (uxPriority hb). change (uxBasePriority hb1) with (uxBasePriority hb).
  change (uxMutexesHeld hb1) with held. fold back. destruct back eqn:Eback.
  - destruct (leave_ready_inv k1 L h hb1 (uxPriority hb) HI1 Hhb1 Hp Hc)
      as (n&k2&L2&E2&Hs2&HI2&Hd2&Hp2&Hk2&HL2). pose proof Hs2 as Hs2'. unfold same_but_lists in Hs2'.
    assert (Hhb2 : tcbs k2 !! h = Some hb1) by (rewrite Hs2'; exact Hhb1).
    set (k3 := set_tcbs (<[h := with_priority (uxBasePriority hb) hb1]> (tcbs k2)) k2).
    assert (HI3 : inv k3 L2).
    { apply (set_tcb_inv k2 L2 h hb1); try done. right. intros q _. unfold xStateListItem.
      unfold detached in Hd2. congruence. }
    assert (Hhb3 : tcbs k3 !! h = Some (with_priority (uxBasePriority hb) hb1)) by apply lookup_insert_eq.
    pose proof (ready_no_event k L h hb _ HI Hhb Hp Hc) as He.
    destruct (set_event_value_inv k3 L2 h _ (u32 (configMAX_PRIORITIES - uxBasePriority hb)) HI3 Hhb3)
      as (k4&E4&Hs4&HI4&Hco4&Hva4).
    { unfold configMAX_PRIORITIES, portMAX_DELAY in *. words. lia. }
    pose proof Hs4 as Hs4'. unfold same_but_lists in Hs4'.
    assert (Hhb4 : tcbs k4 !! h = Some (with_priority (uxBasePriority hb) hb1)) by (rewrite Hs4'; exact Hhb3).
    destruct (add_ready_inv k4 L2 h _ HI4 Hhb4) as (k5&L5&E5&Hw5&HI5&Hc5&Hp5&Hk5&HL5).
    { unfold detached. rewrite Hco4. exact Hd2. }
    { rewrite Hco4. cbn. unfold xEventListItem. rewrite Hk2 by lia. exact He. }
    exists k5, L5. split.
    + rewrite (bind_run _ _ _ _ _ E2), (set_tcb_bind _ _ _ _ _ Hhb2).
      change (with_priority (uxBasePriority hb1) hb1) with (with_priority (uxBasePriority hb) hb1).
      fold k3. by rewrite (bind_run _ _ _ _ _ E4), (bind_run _ _ _ _ _ E5).
    + split; try done.
      * unfold reprioritised. unfold woke in Hw5. rewrite Hw5, Hs4'. subst k3. cbn. rewrite Hs2'.
        subst k1. cbn. by rewrite insert_insert_eq.
      * intros y Hy. rewrite Hk5, Hco4 by done. cbn. by apply Hk2.
      * intros y Hy. rewrite (payload_vals _ _ _ Hp5), Hva4, decide_False by done.
        cbn. by apply (payload_vals (task_lists k1)).
      * intros l Hl. rewrite HL5, HL2; [done| |done]. intros ->. apply Hl. by left.
  - exists k1, L. split; [done|]. split; try done.
Qed.

(** The list steps do not look at the control blocks. *)
Lemma remove_item_set_tcbs p T k n k' :
  remove_item p k = Some (n, k') -> remove_item p (set_tcbs T k) = Some (n, set_tcbs T k').
Proof.
  unfold remove_item. cbn. destruct (uxListRemove p (task_lists k)) as [[m s]|]; [|done].
  cbn. by intros [= <- <-].
Qed.

Lemma reset_event_value_set_tcbs t p T k k' :
  reset_event_value t p k = Some (tt, k') -> reset_event_value t p (set_tcbs T k) = Some (tt, set_tcbs T k').
Proof.
  unfold reset_event_value, from_lists, try_ask, mbind, prog_bind. cbn.
  destruct (listGET_LIST_ITEM_VALUE _ _) as [v|]; [|done]. cbn.
  destruct (negb (value_in_use v)); cbn; [|by intros [= <-]].
  unfold on_lists, try_update. cbn. destruct (listSET_LIST_ITEM_VALUE _ _ _); [|done]. cbn.
  by intros [= <-].
Qed.

Definition priority_to_use (hb : TCB_t) (uxHighest : Z) : Z :=
  if uxBasePriority hb <? uxHighest then uxHighest else uxBasePriority hb.

(** A waiter gave up: the holder keeps the priority of the highest one left. *)
Lemma disinherit_timeout_inv k L h hb q :
  inv k L -> h <> 0 -> tcbs k !! h = Some hb -> h <> pxCurrentTCB k -> uxMutexesHeld hb <> 0 -> 0 <= q < configMAX_PRIORITIES ->
  0 <= uxBasePriority hb < configMAX_PRIORITIES ->
  let p := priority_to_use hb q in
  let change := negb (uxPriority hb =? p) && (uxMutexesHeld hb =? 1) in
  exists k' L', vTaskPriorityDisinheritAfterTimeout h q k = Some (tt, k') /\
    repriced k k' L L' h hb (if change then with_priority p hb else hb).
Proof.
  intros HI Hh Hhb Hcur Hheld Hq Hb p change. pose proof (inv_core _ _ HI) as HC.
  pose proof (co_priority _ _ HC _ _ Hhb) as Hp0.
  assert (Hp : 0 <= p < configMAX_PRIORITIES) by (subst p; unfold priority_to_use; case_match; done).
  unfold vTaskPriorityDisinheritAfterTimeout. rewrite (proj2 (Z.eqb_neq h 0) Hh).
  rewrite (get_tcb_bind _ _ _ _ Hhb), assert_bind by (by apply negb_true_iff, Z.eqb_neq). fold (priority_to_use hb q) p change. cbv zeta.
  destruct change.
  2:{ exists k, L. split; [done|]. split; try done. unfold reprioritised.
      rewrite insert_id by done. by destruct k. }
  rewrite ask_bind, assert_bind by (by apply negb_true_iff, Z.eqb_neq).
  rewrite (set_tcb_bind _ _ _ _ _ Hhb). set (T := <[h := with_priority p hb]> (tcbs k)).
  destruct (reset_event_value_inv k L h hb p HI Hhb Hp) as (k1&E1&Hs1&HI1&Hco1&Hva1).
  pose proof Hs1 as Hs1'. unfold same_but_lists in Hs1'.
  assert (Hhb1 : tcbs k1 !! h = Some hb) by (rewrite Hs1'; exact Hhb).
  rewrite (bind_run _ _ _ _ _ (reset_event_value_set_tcbs _ _ T _ _ E1)).
  rewrite (from_lists_bind _ _ (set_tcbs T k1) _ (is_contained_run k1 L h hb _ (inv_core _ _ HI1) Hhb1)).
  rewrite Hco1. unfold pxReadyTasksLists. case_bool_decide as Hr; cbn [when].
  - assert (Hr1 : cont (task_lists k1) (xStateListItem h) = Some (Some (uxPriority hb))) by by rewrite Hco1.
    destruct (leave_ready_inv k1 L h hb _ HI1 Hhb1 Hp0 Hr1) as (n&k2&L2&E2&Hs2&HI2&Hd2&Hp2&Hk2&HL2).
    pose proof Hs2 as Hs2'. unfold same_but_lists in Hs2'.
    assert (Hhb2 : tcbs k2 !! h = Some hb) by (rewrite Hs2'; exact Hhb1).
    assert (ET : T = <[h := with_priority p hb]> (tcbs k2)) by (subst T; by rewrite Hs2', Hs1').
    assert (HI3 : inv (set_tcbs T k2) L2).
    { rewrite ET. apply (set_tcb_inv k2 L2 h hb); try done. right. intros r _. unfold xStateListItem.
      unfold detached in Hd2. congruence. }
    assert (Hhb3 : tcbs (set_tcbs T k2) !! h = Some (with_priority p hb)) by (cbn; apply lookup_insert_eq).
    pose proof (ready_no_event k1 L h hb _ HI1 Hhb1 Hp0 Hr1) as He.
    destruct (add_ready_inv (set_tcbs T k2) L2 h _ HI3 Hhb3 Hd2) as (k5&L5&E5&Hw5&HI5&Hc5&Hp5&Hk5&HL5).
    { cbn. unfold xEventListItem. rewrite Hk2 by lia. exact He. }
    exists k5, L5. split; [by rewrite (bind_run _ _ _ _ _ (remove_item_set_tcbs _ T _ _ _ E2))|].
    split; try done.
    + unfold reprioritised. unfold woke in Hw5. rewrite Hw5, Hs2', Hs1'. done.
    + intros y Hy. rewrite Hk5 by done. cbn. by rewrite Hk2, Hco1.
    + intros y Hy. rewrite (payload_vals _ _ _ Hp5). cbn. rewrite (payload_vals _ _ _ Hp2), Hva1.
      by rewrite decide_False.
    + intros l Hl. rewrite HL5, HL2; [done| |done]. intros ->. apply Hl. by left.
  - exists (set_tcbs T k1), L. split; [done|]. split; try done.
    + unfold reprioritised. cbn. rewrite Hs1'. by destruct k.
    + assert (ET : T = <[h := with_priority p hb]> (tcbs k1)) by (subst T; by rewrite Hs1').
      rewrite ET. apply (set_tcb_inv k1 L h hb); try done. right. intros r Hr' Hc. rewrite Hco1 in Hc.
      apply Hr. by rewrite (ready_at_priority k L h hb r HC Hhb Hr' Hc).
    + intros y Hy. cbn. rewrite Hva1. by rewrite decide_False.
Qed.

(** ** The terms of the interface *)

(** An event list is neither a list of states nor the pending ready list. *)
Definition event_list (l : Z) : Prop := ~ holds_states l /\ l <> xPendingReadyList.

(** The running task is ready, waits for nothing, and its event item shows its
    priority. *)
Record running (k : kernel) (cur : TCB_t) : Prop := {
  ru_tcb : tcbs k !! pxCurrentTCB k = Some cur;
  ru_state : cont (task_lists k) (xStateListItem (pxCurrentTCB k)) = Some (Some (uxPriority cur));
  ru_event : cont (task_lists k) (xEventListItem (pxCurrentTCB k)) = Some None;
  ru_value : vals (task_lists k) (2 * pxCurrentTCB k + 1) = configMAX_PRIORITIES - uxPriority cur
}.
