(* ===== verification/TasksProofs.v ===== *)
(** * Properties of the scheduler

    The theorems about tasks.c: the tick, the selection of the highest
    priority, delays and time-outs, event lists, priority inheritance. *)
From Stdlib Require Import Sorted.
From S2P Require Import Prelude KList Tasks TasksInv TasksOps.
Open Scope Z_scope.

(** ** An executable form of the invariant, for concrete kernels *)

#[export] Instance lseg_dec s p ps q : Decision (lseg s p ps q).
Proof. revert p; induction ps as [|x ps IH]; intros p; cbn; apply _. Defined.

Definition list_repb (s : store) (l : Z) (a : alist) : bool :=
  match lists s !! l with
  | Some lst => (uxNumberOfItems lst =? Z.of_nat (length (elems a))) &&
                bool_decide (ring l (elems a) !! index a = Some (pxIndex lst))
  | None => false
  end &&
  bool_decide (lseg s (ListEnd l) (Item <$> elems a) (ListEnd l)) &&
  bool_decide (NoDup (elems a)) && (Z.of_nat (length (elems a)) <? 2 ^ 32) &&
  bool_decide (val s (ListEnd l) = Some portMAX_DELAY) &&
  bool_decide (Forall (fun x => cont s (Item x) = Some (Some l)) (elems a)).

Lemma list_repb_ok s l a : list_repb s l a = true -> list_rep s l a.
Proof.
  unfold list_repb. destruct (lists s !! l) as [lst|] eqn:El; [|done].
  rewrite !andb_true_iff, !bool_decide_eq_true, Z.eqb_eq, Z.ltb_lt.
  intros [[[[[[H1 H2] H3] H4] H5] H6] H7]. split; try done.
  - exists (pxIndex lst). split; [|done]. rewrite El. destruct lst; cbn in *. by subst.
  - by rewrite Forall_forall in H7.
Qed.

Definition item_okb (T : gmap Z TCB_t) (l x : Z) : bool :=
  match T !! (x / 2) with
  | Some tcb =>
      if decide (0 <= l < configMAX_PRIORITIES) then (x =? 2 * (x / 2)) && (uxPriority tcb =? l)
      else if state_list l then x =? 2 * (x / 2) else x =? 2 * (x / 2) + 1
  | None => false
  end.

Lemma item_okb_ok T l x : item_okb T l x = true -> item_ok T l x.
Proof.
  unfold item_okb, item_ok. destruct (T !! (x / 2)) as [tcb|] eqn:Et; [|done].
  intros H. exists (x / 2), tcb. split; [done|].
  repeat case_match; rewrite ?andb_true_iff, ?Z.eqb_eq in H; done.
Qed.

Definition member_okb (L : gmap Z alist) (p : ListItemPtr) (it : ListItem_t) : bool :=
  match p, pxContainer it with
  | Item x, Some l => match L !! l with Some a => bool_decide (x ∈ elems a) | None => false end
  | _, _ => true
  end.

Definition tcb_okb (s : store) (t : Z) (tcb : TCB_t) : bool :=
  bool_decide (own s (xStateListItem t) = Some t) && bool_decide (own s (xEventListItem t) = Some t) &&
  bool_decide (0 <= uxPriority tcb < configMAX_PRIORITIES).

Definition coreb (k : kernel) (L : gmap Z alist) : bool :=
  let s := task_lists k in
  bool_decide (map_Forall (fun l a => list_repb s l a = true) L) &&
  bool_decide (map_Forall (fun p it => member_okb L p it = true) (items s)) &&
  bool_decide (map_Forall (fun l a => Forall (fun x => item_okb (tcbs k) l x = true) (elems a)) L) &&
  bool_decide (map_Forall (fun t tcb => tcb_okb s t tcb = true) (tcbs k)) &&
  bool_decide (map_Forall (fun p it => 0 <= xItemValue it <= portMAX_DELAY) (items s)) &&
  bool_decide (Forall (fun l => is_Some (L !! l)) [0; 1; 2; 3; 4; 5; 6; 7; 8; 9; 11]) &&
  bool_decide ((pxDelayedTaskList k = xDelayedTaskList1 /\ pxOverflowDelayedTaskList k = xDelayedTaskList2) \/
               (pxDelayedTaskList k = xDelayedTaskList2 /\ pxOverflowDelayedTaskList k = xDelayedTaskList1)) &&
  bool_decide (is_Some (tcbs k !! pxCurrentTCB k)) &&
  bool_decide (Z.of_nat (size (tcbs k)) < 2 ^ 30) &&
  bool_decide (0 <= uxTopReadyPriority k < configMAX_PRIORITIES) &&
  bool_decide (map_Forall (fun l a => 0 <= l < configMAX_PRIORITIES /\ elems a <> [] ->
                             l <= uxTopReadyPriority k) L).

Lemma coreb_ok k L : coreb k L = true -> core k L.
Proof.
  unfold coreb. rewrite !andb_true_iff, !bool_decide_eq_true.
  intros [[[[[[[[[[H1 H2] H3] H4] H5] H6] H7] H8] H9] H10] H11].
  assert (Ht : forall t tcb, tcbs k !! t = Some tcb -> _) by exact H4.
  rewrite Forall_forall in H6. split; try done.
  - intros l a Hl. by apply list_repb_ok, H1.
  - intros x l Hc. unfold cont in Hc. destruct (items (task_lists k) !! Item x) as [it|] eqn:Ei; [|done].
    specialize (H2 _ _ Ei). cbn in Hc, H2. injection Hc as Hc. unfold member_okb in H2.
    rewrite Hc in H2. destruct (L !! l) as [a|]; [|done]. exists a. by rewrite bool_decide_eq_true in H2.
  - intros l a x Hl Hx. specialize (H3 _ _ Hl). cbn in H3. rewrite Forall_forall in H3.
    by apply item_okb_ok, H3.
  - intros t tcb Htc. specialize (Ht _ _ Htc). unfold tcb_okb in Ht.
    rewrite !andb_true_iff, !bool_decide_eq_true in Ht. tauto.
  - intros x. unfold vals, val. destruct (items (task_lists k) !! Item x) as [it|] eqn:Ei.
    + apply (H5 _ _ Ei).
    + unfold portMAX_DELAY. cbn. lia.
  - intros t tcb Htc. specialize (Ht _ _ Htc). unfold tcb_okb in Ht.
    rewrite !andb_true_iff, !bool_decide_eq_true in Ht. tauto.
  - intros p Hp. apply H6. unfold pxReadyTasksLists, configMAX_PRIORITIES in *.
    assert (p = 0 \/ p = 1 \/ p = 2 \/ p = 3 \/ p = 4 \/ p = 5 \/ p = 6) by lia. set_solver.
  - split_and!; apply H6; vm_compute; set_solver.
  - split; [done|]. intros p a Hp Ha Hne. by apply (H11 p a Ha).
Qed.

(** The abstract lists of a concrete store, by walking its rings. *)
Fixpoint walk (fuel : nat) (s : store) (p : ListItemPtr) : list Z :=
  match fuel, items s !! p with
  | S fuel', Some it =>
      match pxNext it with Item x => x :: walk fuel' s (Item x) | ListEnd _ => [] end
  | _, _ => []
  end.

Definition read_list (s : store) (l : Z) (lst : List_t) : alist :=
  let xs := walk (Z.to_nat (uxNumberOfItems lst)) s (ListEnd l) in
  mkAList xs (from_option fst 0%nat (list_find (fun p => p = pxIndex lst) (ring l xs))).

Definition read_lists (s : store) : gmap Z alist := map_imap (fun l lst => Some (read_list s l lst)) (lists s).

#[export] Instance StronglySorted_dec {A} (R : A -> A -> Prop) `{!RelDecision R} xs :
  Decision (StronglySorted R xs).
Proof.
  induction xs as [|x xs IH]; [left; constructor|].
  destruct IH as [H1|H1]; [|right; inversion 1; tauto].
  destruct (decide (Forall (R x) xs)); [left; by constructor|right; inversion 1; tauto].
Defined.

Definition value_le (s : store) (y z : Z) : Prop := vals s y <= vals s z.

#[export] Instance value_le_dec s : RelDecision (value_le s).
Proof. intros y z. unfold value_le. apply _. Defined.

Definition waitingb (lo : Z) (k : kernel) (L : gmap Z alist) : bool :=
  let s := task_lists k in
  bool_decide (0 <= xTickCount k < 2 ^ 32) &&
  match L !! pxDelayedTaskList k, L !! pxOverflowDelayedTaskList k with
  | Some d, Some o =>
      bool_decide (StronglySorted (value_le s) (elems d)) &&
      bool_decide (Forall (fun x => lo <= vals s x /\ xNextTaskUnblockTime k <= vals s x) (elems d)) &&
      bool_decide (StronglySorted (value_le s) (elems o)) &&
      bool_decide (Forall (fun x => vals s x < xTickCount k) (elems o))
  | _, _ => false
  end.

Lemma waitingb_ok lo k L : waitingb lo k L = true -> waiting lo k L.
Proof.
  unfold waitingb. destruct (L !! pxDelayedTaskList k) as [d|] eqn:Ed, (L !! pxOverflowDelayedTaskList k) as [o|] eqn:Eo;
    rewrite ?andb_true_iff, ?bool_decide_eq_true; try (intros [? ?]; done).
  intros (H1&((H2&H3)&H4)&H5). rewrite Forall_forall in H3, H5. split; [done| |].
  - intros a [= <-]%(eq_trans (eq_sym Ed)). done.
  - intros a [= <-]%(eq_trans (eq_sym Eo)). done.
Qed.

(** ** A concrete kernel

    Task 1 is the idle task, tasks 2 and 3 have priority 3, task 4 priority 5. *)

Definition boot : kernel :=
  mkKernel (mkStore ∅ ∅) ∅ 0 0 0 0 0 0 false 0 false 0 0 0 0 0.

Definition run_k {A} (p : K A) (k : kernel) : kernel := from_option snd boot (p k).

(** Task 4 runs first and goes to sleep for 5 ticks; four ticks later it is still
    asleep, and task 2 is running. *)
Definition booted : kernel :=
  run_k (_ ← create_task 0 1; _ ← create_task 3 2; _ ← create_task 3 3; _ ← create_task 5 4;
         _ ← start_scheduler; vTaskSwitchContext) boot.

Definition asleep : kernel :=
  run_k (_ ← vTaskDelay 5; _ ← vTaskSwitchContext; _ ← xTaskIncrementTick; _ ← xTaskIncrementTick;
         _ ← xTaskIncrementTick; xTaskIncrementTick) booted.

Definition L_booted : gmap Z alist := read_lists (task_lists booted).
Definition L_asleep : gmap Z alist := read_lists (task_lists asleep).

Lemma core_booted : core booted L_booted.
Proof. apply coreb_ok. by vm_compute. Qed.

Lemma core_asleep : core asleep L_asleep.
Proof. apply coreb_ok. by vm_compute. Qed.

Lemma timed_asleep : timed asleep L_asleep.
Proof. apply waitingb_ok. by vm_compute. Qed.

(** ** The tick *)

(** C6 — [xTaskIncrementTick], when the scheduler is not suspended: it counts the
    tick (and the overflow when the count wraps), keeps the invariants, and
    readies exactly the tasks whose wake time is the new count, each on the
    ready list of its priority and off its event list; every other task stays
    where it is.  It asks for a context switch exactly when a woken task has a
    higher priority than the running one, when the running task shares its
    priority, or when a yield was pending. *)
Theorem xTaskIncrementTick_wakes (k : kernel) (L : gmap Z alist) :
  core k L -> timed k L -> uxSchedulerSuspended k = 0 ->
  exists b k' L', xTaskIncrementTick k = Some (b, k') /\ core k' L' /\ timed k' L' /\
    tcbs k' = tcbs k /\ pxCurrentTCB k' = pxCurrentTCB k /\
    xTickCount k' = u32 (xTickCount k + 1) /\
    xNumOfOverflows k' = (if u32 (xTickCount k + 1) =? 0 then u32 (xNumOfOverflows k + 1)
                          else xNumOfOverflows k) /\
    (forall t tcb, tcbs k !! t = Some tcb ->
       (due_now k (xTickCount k') t ->
          cont (task_lists k') (xStateListItem t) = Some (Some (uxPriority tcb)) /\
          cont (task_lists k') (xEventListItem t) = Some None) /\
       (~ due_now k (xTickCount k') t ->
          cont (task_lists k') (xStateListItem t) = cont (task_lists k) (xStateListItem t) /\
          cont (task_lists k') (xEventListItem t) = cont (task_lists k) (xEventListItem t))) /\
    (b = true <->
       (exists t tcb, tcbs k !! t = Some tcb /\ due_now k (xTickCount k') t /\
          prio k (pxCurrentTCB k) < uxPriority tcb) \/
       (exists a, L' !! pxReadyTasksLists (prio k (pxCurrentTCB k)) = Some a /\
          (1 < length (elems a))%nat) \/
       xYieldPending k = true).
Proof.
  intros HC HT Hs.
  destruct (tick_spec k L HC HT Hs) as (b&k'&L'&H1&H2&H3&H4&H5&H6&H7&_&_&H8&H9).
  by exists b, k', L'.
Qed.

Lemma xTaskIncrementTick_wakes_witness :
  exists b k', xTaskIncrementTick asleep = Some (b, k') /\ b = true /\
    cont (task_lists k') (xStateListItem 4) = Some (Some 5).
Proof.
  destruct (xTaskIncrementTick_wakes asleep L_asleep core_asleep timed_asleep)
    as (b&k'&L'&E&_&_&_&_&Ht&_&Hw&Hb); [by vm_compute|].
  assert (Hd : due_now asleep (xTickCount k') 4).
  { rewrite Ht. split; [left|]; by vm_compute. }
  assert (H4 : tcbs asleep !! 4 = Some (mkTCB 5 5 0 0 taskNOT_WAITING_NOTIFICATION)) by by vm_compute.
  exists b, k'. split; [exact E|]. split; [|by apply (Hw 4 _ H4)].
  apply Hb. left. exists 4, (mkTCB 5 5 0 0 taskNOT_WAITING_NOTIFICATION).
  split; [exact H4|]. split; [exact Hd|by vm_compute].
Defined.

(** ** Selection of the running task *)

Lemma highest_ready_spec k L fuel top :
  core k L -> 0 <= top < configMAX_PRIORITIES -> (Z.to_nat top < fuel)%nat ->
  (exists p a, 0 <= p <= top /\ L !! pxReadyTasksLists p = Some a /\ elems a <> []) ->
  exists p a, highest_ready fuel top (task_lists k) = Some p /\ 0 <= p <= top /\
    L !! pxReadyTasksLists p = Some a /\ elems a <> [] /\
    forall q b, p < q <= top -> L !! pxReadyTasksLists q = Some b -> elems b = [].
Proof.
  intros HC. revert top. induction fuel as [|fuel IH]; intros top Htop Hf Hex; [lia|].
  destruct (co_ready _ _ HC top Htop) as [a Ha]. cbn [highest_ready].
  rewrite (lists_rep_empty _ _ _ _ (co_lists _ _ HC) Ha). cbn [mbind option_bind].
  case_bool_decide as Hn.
  - destruct Hex as (p&b&Hp&Hb&Hne).
    assert (p <> top) by (intros ->; rewrite Ha in Hb; by injection Hb as <-).
    rewrite (proj2 (Z.eqb_neq top 0)) by lia.
    destruct (IH (top - 1)) as (q&c&E&Hq&Hc&Hnc&Hhi); [lia|lia|exists p, b; split; [lia|done]|].
    exists q, c. split_and!; try done; try lia. intros r d Hr Hd.
    destruct (decide (r = top)) as [->|]; [rewrite Ha in Hd; by injection Hd as <-|].
    apply (Hhi r); [lia|done].
  - exists top, a. split_and!; try done; try lia.
Qed.

(** The round robin moves [pxIndex] only. *)
Lemma next_owner_core k L l a :
  core k L -> L !! l = Some a -> elems a <> [] -> (forall x, x ∈ elems a -> exists t, x = 2 * t) ->
  exists t tcb k', next_owner l k = Some (t, k') /\ same_but_lists k k' /\
    tcbs k !! t = Some tcb /\ elems a !! pred (index (anext a)) = Some (2 * t) /\
    core k' (<[l := anext a]> L) /\ items (task_lists k') = items (task_lists k).
Proof.
  intros HC Hl Hne Hst.
  destruct (listGET_OWNER_OF_NEXT_ENTRY_step _ _ _ (co_lists _ _ HC _ _ Hl) Hne)
    as (x&o&s'&Hx&Ho&E&R&Hi&Hk).
  apply list_elem_of_lookup_2 in Hx as Hin.
  destruct (core_item _ _ _ _ _ HC Hl Hin) as (t&tcb&Ht&Hown&_).
  destruct (Hst x Hin) as [t' ->].
  destruct (co_items _ _ HC _ _ _ Hl Hin) as (t2&tcb2&Ht2&Hk2).
  assert (t2 = t') as ->.
  { case_decide; [lia|]. destruct (state_list l); lia. }
  clear Hk2.
  assert (o = t') as ->.
  { destruct (co_owner _ _ HC _ _ Ht2) as [H _]. unfold xStateListItem in H. congruence. }
  exists t', tcb2, (set_task_lists s' k). split_and!; try done.
  - unfold next_owner. by rewrite E.
  - apply (core_lists_changed k L); [done|by eapply lists_rep_update; [apply HC|..]| | | | |].
    + intros p. unfold val, own. cbn. by rewrite Hi.
    + intros y l' Hy. unfold cont in Hy. rewrite Hi in Hy.
      destruct (co_member _ _ HC _ _ Hy) as (a'&Hl'&Hy').
      rewrite lookup_insert. case_decide as E'; [|by exists a']. subst l'. eexists. split; [done|].
      cbn. rewrite Hl in Hl'. by injection Hl' as <-.
    + intros l' a' y. rewrite lookup_insert. case_decide as E'; [|apply (co_items _ _ HC)].
      intros [= <-] Hy. subst l'. by apply (co_items _ _ HC _ a).
    + intros l' Hl'. rewrite lookup_insert. by case_decide.
    + intros p a' Hpr. rewrite lookup_insert. case_decide as E'; [|by apply (co_top _ _ HC)].
      intros [= <-] Hn. subst l. by apply (proj2 (co_top _ _ HC) p a).
Qed.

(** Some task is ready: the idle task never blocks. *)
Definition some_ready (L : gmap Z alist) : Prop :=
  exists p a, 0 <= p < configMAX_PRIORITIES /\ L !! pxReadyTasksLists p = Some a /\ elems a <> [].

Lemma ready_item k L p a x :
  core k L -> 0 <= p < configMAX_PRIORITIES -> L !! pxReadyTasksLists p = Some a -> x ∈ elems a ->
  exists t tcb, x = 2 * t /\ tcbs k !! t = Some tcb /\ uxPriority tcb = p.
Proof.
  intros HC Hp Ha Hx. destruct (co_items _ _ HC _ _ _ Ha Hx) as (t&tcb&Ht&Hk).
  unfold pxReadyTasksLists in Hk. rewrite decide_True in Hk by done. exists t, tcb. tauto.
Qed.

Lemma switch_spec k L :
  core k L -> uxSchedulerSuspended k = 0 -> some_ready L ->
  exists k' t tcb a, vTaskSwitchContext k = Some (tt, k') /\
    core k' (<[uxPriority tcb := anext a]> L) /\
    pxCurrentTCB k' = t /\ tcbs k' = tcbs k /\ tcbs k !! t = Some tcb /\
    L !! pxReadyTasksLists (uxPriority tcb) = Some a /\
    elems a !! pred (index (anext a)) = Some (2 * t) /\
    (forall q b, uxPriority tcb < q < configMAX_PRIORITIES -> L !! pxReadyTasksLists q = Some b ->
       elems b = []) /\
    items (task_lists k') = items (task_lists k) /\ xYieldPending k' = false.
Proof.
  intros HC Hs (p0&a0&Hp0&Ha0&Hne0). destruct (co_top _ _ HC) as [Htop Hmax].
  set (k1 := set_xYieldPending false k).
  assert (HC1 : core k1 L) by (eapply core_ext; [exact HC|done..|subst k1; cbn; lia]).
  destruct (highest_ready_spec k1 L (S (Z.to_nat (uxTopReadyPriority k1))) (uxTopReadyPriority k1))
    as (p&a&E&Hp&Ha&Hne&Hhi); [done|done|lia|exists p0, a0; split_and!; try done; [lia|]|].
  { by apply (Hmax p0 a0). }
  assert (Hpm : 0 <= p < configMAX_PRIORITIES) by (subst k1; cbn in *; lia).
  destruct (next_owner_core k1 L p a HC1 Ha Hne) as (t&tcb&k2&E2&Hs2&Ht&Hx&HC2&Hi).
  { intros x Hx. destruct (ready_item k1 L p a x HC1 Hpm Ha Hx) as (t&_&->&_). by exists t. }
  assert (Hpr : uxPriority tcb = p).
  { apply list_elem_of_lookup_2 in Hx as Hin.
    destruct (ready_item k1 L p a _ HC1 Hpm Ha Hin) as (t'&tcb'&Et&Ht'&Hpr).
    assert (t' = t) as -> by lia. congruence. }
  subst p.
  exists (set_uxTopReadyPriority (uxPriority tcb) (set_pxCurrentTCB t k2)), t, tcb, a.
  unfold same_but_lists in Hs2. split_and!; try done.
  - unfold vTaskSwitchContext, taskSELECT_HIGHEST_PRIORITY_TASK. rewrite ask_bind, Hs.
    change (negb (0 =? 0)) with false. cbv iota. rewrite update_bind, ask_bind. fold k1.
    rewrite (from_lists_bind _ _ _ _ E), (bind_run _ _ _ _ _ E2). done.
  - destruct HC2. split; cbn; try done.
    + rewrite Hs2. cbn. by eexists.
    + split; [done|]. intros q b Hq. rewrite lookup_insert. case_decide as Eq.
      * unfold pxReadyTasksLists in Eq. intros _ _. lia.
      * intros Hb Hnb. destruct (decide (q <= uxPriority tcb)) as [|Hgt]; [done|].
        destruct (decide (q <= uxTopReadyPriority k1)).
        -- exfalso. apply Hnb. apply (Hhi q); [lia|done].
        -- pose proof (Hmax q b Hq Hb Hnb). subst k1. cbn in *. lia.
  - cbn. by rewrite Hs2.
  - intros q b Hq Hb. destruct (decide (q <= uxTopReadyPriority k1)); [apply (Hhi q); [lia|done]|].
    destruct (decide (elems b = [])) as [|Hnb]; [done|].
    assert (Hq' : 0 <= q < configMAX_PRIORITIES) by lia.
    pose proof (Hmax q b Hq' Hb Hnb). subst k1. cbn in *. lia.
  - cbn. by rewrite Hs2.
Qed.

(** C9 — [vTaskSwitchContext] with the scheduler suspended only notes the yield;
    otherwise, as soon as some task is ready (the idle task always is), it
    returns with a ready task of the highest priority as the running one,
    keeps the invariants and every item, moves the round robin of that
    priority by one task, and clears the pending yield. *)
Theorem vTaskSwitchContext_highest (k : kernel) (L : gmap Z alist) :
  core k L -> some_ready L ->
  (uxSchedulerSuspended k <> 0 -> vTaskSwitchContext k = Some (tt, set_xYieldPending true k)) /\
  (uxSchedulerSuspended k = 0 ->
   exists k' t tcb a, vTaskSwitchContext k = Some (tt, k') /\
     core k' (<[uxPriority tcb := anext a]> L) /\
     pxCurrentTCB k' = t /\ tcbs k' = tcbs k /\ tcbs k !! t = Some tcb /\
     L !! pxReadyTasksLists (uxPriority tcb) = Some a /\
     elems a !! pred (index (anext a)) = Some (2 * t) /\
     (forall q b, uxPriority tcb < q < configMAX_PRIORITIES -> L !! pxReadyTasksLists q = Some b ->
        elems b = []) /\
     items (task_lists k') = items (task_lists k) /\ xYieldPending k' = false).
Proof.
  intros HC Hr. split.
  - intros Hs. unfold vTaskSwitchContext. rewrite ask_bind.
    by apply Z.eqb_neq in Hs as ->.
  - intros Hs. by apply switch_spec.
Qed.

Lemma asleep_ready : L_asleep !! pxReadyTasksLists 3 = Some (mkAList [4; 6] 1).
Proof. by vm_compute. Qed.

Lemma vTaskSwitchContext_highest_witness :
  exists k', vTaskSwitchContext asleep = Some (tt, k') /\ pxCurrentTCB k' = 3.
Proof.
  destruct (vTaskSwitchContext_highest asleep L_asleep core_asleep) as [_ H].
  { exists 3, (mkAList [4; 6] 1). split; [done|]. split; [exact asleep_ready|done]. }
  destruct H as (k'&t&tcb&a&E&_&Ht&_&Htcb&Ha&Hx&Hhi&_); [by vm_compute|].
  exists k'. split; [exact E|]. rewrite Ht. clear E Ht.
  pose proof (co_priority _ _ core_asleep _ _ Htcb) as Hp.
  assert (Hge : 3 <= uxPriority tcb).
  { destruct (decide (3 <= uxPriority tcb)); [done|].
    specialize (Hhi 3 _ ltac:(unfold configMAX_PRIORITIES in *; lia) asleep_ready). done. }
  assert (Hc : uxPriority tcb = 3 \/ uxPriority tcb = 4 \/ uxPriority tcb = 5 \/ uxPriority tcb = 6)
    by (unfold configMAX_PRIORITIES in *; lia).
  destruct Hc as [Hc|[Hc|[Hc|Hc]]]; rewrite Hc in Ha; vm_compute in Ha; injection Ha as <-; [|done..].
  change (Some 6 = Some (2 * t)) in Hx. injection Hx. lia.
Defined.

(** ** Sleeping *)

(** [m] ticks in a row. *)
Fixpoint ticks (m : nat) : K unit :=
  match m with
  | O => mret tt
  | S m' => _ ← xTaskIncrementTick; ticks m'
  end.

Lemma ticks_app m1 m2 k : ticks (m1 + m2) k = (_ ← ticks m1; ticks m2) k.
Proof.
  revert k; induction m1 as [|m1 IH]; intros k; [done|].
  cbn [ticks Nat.add]. rewrite bind_assoc_run. unfold mbind, prog_bind.
  destruct (xTaskIncrementTick k) as [[b k1]|]; [|done]. exact (IH k1).
Qed.

Definition blocked (k : kernel) (t : Z) : Prop :=
  cont (task_lists k) (xStateListItem t) = Some (Some xDelayedTaskList1) \/
  cont (task_lists k) (xStateListItem t) = Some (Some xDelayedTaskList2).

Lemma due_now_blocked k L w t :
  core k L -> (due_now k w t <-> blocked k t /\ vals (task_lists k) (2 * t) = w).
Proof.
  intros HC. unfold due_now, blocked.
  destruct (co_delayed _ _ HC) as [[-> ->]|[-> ->]]; tauto.
Qed.

(** A sleeping task sleeps on while the count is not its wake time. *)
Lemma ticks_spec t tcb w m : forall k L,
  core k L -> timed k L -> uxSchedulerSuspended k = 0 -> tcbs k !! t = Some tcb -> due_now k w t ->
  (forall j, 1 <= j <= Z.of_nat m -> u32 (xTickCount k + j) <> w) ->
  exists k' L', ticks m k = Some (tt, k') /\ core k' L' /\ timed k' L' /\
    uxSchedulerSuspended k' = 0 /\ tcbs k' !! t = Some tcb /\ due_now k' w t /\
    xTickCount k' = u32 (xTickCount k + Z.of_nat m).
Proof.
  induction m as [|m IH]; intros k L HC HT Hs Ht Hd Hj.
  - exists k, L. split_and!; try done. rewrite Z.add_0_r. pose proof (wt_tick _ _ _ HT). by words.
  - destruct (tick_spec k L HC HT Hs) as (b&k1&L1&E&HC1&HT1&Et&_&Etk&_&Hs1&Hp&Htasks&_).
    destruct (Htasks t tcb Ht) as [_ Hkeep].
    assert (Hnd : ~ due_now k (xTickCount k1) t).
    { intros [_ Hv]. destruct Hd as [_ Hw]. rewrite Etk in Hv. apply (Hj 1); [lia|congruence]. }
    destruct (Hkeep Hnd) as [Hc _].
    assert (Hd1 : due_now k1 w t).
    { apply (due_now_blocked k1 L1 w t HC1). apply (due_now_blocked k L w t HC) in Hd as [Hb Hw].
      unfold blocked in *. rewrite Hc. split; [done|]. by rewrite (payload_vals _ _ _ Hp). }
    rewrite <- Et in Ht.
    destruct (IH k1 L1 HC1 HT1 Hs1 Ht Hd1) as (k2&L2&E2&H2).
    { intros j Hjm. rewrite Etk. unfold u32. rewrite Zplus_mod_idemp_l.
      replace (xTickCount k + 1 + j) with (xTickCount k + (j + 1)) by lia. apply Hj. lia. }
    exists k2, L2. split; [|destruct H2 as (H3&H4&H5&H6&H7&H8); split_and!; try done].
    + cbn [ticks]. by rewrite (bind_run _ _ _ _ _ E).
    + rewrite H8, Etk. unfold u32. rewrite Zplus_mod_idemp_l. f_equal. lia.
Qed.

(** Nothing was readied or counted while the scheduler was suspended. *)
Definition nothing_pending (k : kernel) (L : gmap Z alist) : Prop :=
  xPendedTicks k = 0 /\ 0 < uxCurrentNumberOfTasks k /\
  exists a, L !! xPendingReadyList = Some a /\ elems a = [].

Lemma resume_nothing k L :
  core k L -> nothing_pending k L -> uxSchedulerSuspended k = 1 ->
  xTaskResumeAll k = Some (xYieldPending k, set_uxSchedulerSuspended 0 k).
Proof.
  intros HC (Hp&Hn&a&Ha&He) Hs. unfold xTaskResumeAll. rewrite ask_bind, assert_bind by (by rewrite Hs). rewrite update_bind, ask_bind, Hs.
  change (u32 (1 - 1)) with 0. cbn [uxSchedulerSuspended set_uxSchedulerSuspended].
  rewrite ask_bind. cbn [uxCurrentNumberOfTasks set_uxSchedulerSuspended].
  replace ((0 =? 0) && (0 <? uxCurrentNumberOfTasks k)) with true
    by (symmetry; apply andb_true_iff; split; [done|by apply Z.ltb_lt]).
  rewrite ask_bind. cbn [move_pending]. rewrite bind_assoc_run.
  assert (Hempty : listLIST_IS_EMPTY xPendingReadyList (task_lists (set_uxSchedulerSuspended 0 k)) = Some true).
  { etrans; [exact (lists_rep_empty _ _ _ _ (co_lists _ _ HC) Ha)|]. f_equal.
    by apply bool_decide_eq_true_2. }
  rewrite (from_lists_bind _ _ _ _ Hempty). rewrite ret_bind. cbn [negb Z.eqb when].
  rewrite ret_bind, ask_bind. cbn [xPendedTicks set_uxSchedulerSuspended]. rewrite Hp.
  cbn [Z.ltb Z.compare when]. done.
Qed.

(** What [vTaskDelay] and [xTaskDelayUntil] do with the scheduler suspended. *)
Definition sleep_suspended (n : Z) : K bool :=
  _ ← vTaskSuspendAll; _ ← prvAddCurrentTaskToDelayedList n false; xTaskResumeAll.

Lemma sleep_spec k L cur n :
  core k L -> timed k L -> uxSchedulerSuspended k = 0 -> nothing_pending k L ->
  tcbs k !! pxCurrentTCB k = Some cur ->
  cont (task_lists k) (xStateListItem (pxCurrentTCB k)) = Some (Some (uxPriority cur)) ->
  0 < n < 2 ^ 32 ->
  exists k' L', sleep_suspended n k = Some (xYieldPending k, k') /\ core k' L' /\ timed k' L' /\
    uxSchedulerSuspended k' = 0 /\ pxCurrentTCB k' = pxCurrentTCB k /\ tcbs k' = tcbs k /\
    xTickCount k' = xTickCount k /\ due_now k' (u32 (xTickCount k + n)) (pxCurrentTCB k) /\
    (forall y, y <> 2 * pxCurrentTCB k -> cont (task_lists k') (Item y) = cont (task_lists k) (Item y)).
Proof.
  intros HC HT Hs Hpend Hcur Hc Hn.
  set (k0 := set_uxSchedulerSuspended 1 k).
  assert (HC0 : core k0 L) by (eapply core_ext; [exact HC|done..|pose proof (co_top _ _ HC); cbn; lia]).
  assert (HT0 : timed k0 L) by (destruct HT; split; done).
  pose proof (co_priority _ _ HC _ _ Hcur) as Hpr.
  assert (Hnd : uxPriority cur <> pxDelayedTaskList k0 /\ uxPriority cur <> pxOverflowDelayedTaskList k0).
  { pose proof (proj1 (state_list_spec _) (delayed_is_state _ _ HC0)) as Hd. unfold configMAX_PRIORITIES in Hpr.
    destruct (co_delayed _ _ HC0) as [[-> ->]|[-> ->]]; unfold xDelayedTaskList1, xDelayedTaskList2; lia. }
  destruct (add_delayed_spec k0 L cur (uxPriority cur) n false HC0 HT0 Hcur Hc) as (k1&L1&E1&SL);
    [tauto|tauto|done|apply andb_false_r|].
  destruct (woke_fields _ _ (sl_woke _ _ _ _ _ _ SL)) as (Et&Ecu&Ed&Eo&Etk&Esu&Eyp&Eov).
  assert (Hpend1 : nothing_pending k1 L1).
  { destruct Hpend as (H1&H2&a&Ha&He). pose proof (sl_woke _ _ _ _ _ _ SL) as W. unfold woke in W.
    split; [by rewrite W|]. split; [by rewrite W|]. exists a. split; [|done].
    rewrite (sl_lists _ _ _ _ _ _ SL); [done|..].
    - destruct (co_delayed _ _ HC0) as [[-> _]|[-> _]]; vm_compute; discriminate.
    - destruct (co_delayed _ _ HC0) as [[_ ->]|[_ ->]]; vm_compute; discriminate.
    - change (cont (task_lists k) (xStateListItem (pxCurrentTCB k)) <> Some (Some xPendingReadyList)).
      rewrite Hc. intros [= E]. unfold configMAX_PRIORITIES, xPendingReadyList in *. lia. }
  pose proof (sl_core _ _ _ _ _ _ SL) as HC1.
  exists (set_uxSchedulerSuspended 0 k1), L1. split.
  { unfold sleep_suspended, vTaskSuspendAll. rewrite update_bind, Hs.
    change (u32 (0 + 1)) with 1. fold k0. rewrite (bind_run _ _ _ _ _ E1).
    rewrite (resume_nothing k1 L1 HC1 Hpend1 Esu). by rewrite Eyp. }
  split_and!; try done.
  - eapply core_ext; [exact HC1|done..|pose proof (co_top _ _ HC1); cbn; lia].
  - pose proof (sl_timed _ _ _ _ _ _ SL) as HT1. destruct HT1. split; done.
  - apply (sl_due _ _ _ _ _ _ SL).
  - intros y Hy. by apply (sl_conts _ _ _ _ _ _ SL).
Qed.

(** C8 — [vTaskDelay] sleeps for exactly the ticks it was given, across a wrap of
    the tick count too: it puts the running task on a delayed list, the task
    is still blocked after any smaller number of ticks, and the tick after
    those makes it ready at its priority.  (Here nothing is pending when the
    call is made, and only ticks follow.) *)
Theorem vTaskDelay_exact (k : kernel) (L : gmap Z alist) (cur : TCB_t) (n : Z) :
  core k L -> timed k L -> uxSchedulerSuspended k = 0 -> nothing_pending k L ->
  tcbs k !! pxCurrentTCB k = Some cur ->
  cont (task_lists k) (xStateListItem (pxCurrentTCB k)) = Some (Some (uxPriority cur)) ->
  0 < n < 2 ^ 32 ->
  exists k', vTaskDelay n k = Some (negb (xYieldPending k), k') /\ blocked k' (pxCurrentTCB k) /\
    forall m, (Z.of_nat m < n ->
        exists k2 L2, ticks m k' = Some (tt, k2) /\ core k2 L2 /\ timed k2 L2 /\
          blocked k2 (pxCurrentTCB k)) /\
      (Z.of_nat m = n ->
        exists k2 L2, ticks m k' = Some (tt, k2) /\ core k2 L2 /\ timed k2 L2 /\
          cont (task_lists k2) (xStateListItem (pxCurrentTCB k)) = Some (Some (uxPriority cur))).
Proof.
  intros HC HT Hs Hpend Hcur Hc Hn.
  destruct (sleep_spec k L cur n HC HT Hs Hpend Hcur Hc Hn) as (k1&L1&E1&HC1&HT1&Hs1&_&Et&Etk&Hd&_).
  exists k1. split.
  { unfold vTaskDelay. replace (0 <? n) with true by (symmetry; apply Z.ltb_lt; lia).
    rewrite bind_assoc_run, ask_bind, bind_assoc_run, assert_bind by (by rewrite Hs).
    by rewrite (bind_run _ _ _ _ _ E1). }
  split; [|clear E1].
  { by apply (due_now_blocked k1 L1 _ _ HC1) in Hd as [Hb _]. }
  rewrite <- Et in Hcur. pose proof (wt_tick _ _ _ HT) as Htk.
  assert (Hnot : forall m j, Z.of_nat m < n -> 1 <= j <= Z.of_nat m ->
    u32 (xTickCount k1 + j) <> u32 (xTickCount k + n)).
  { intros m j Hm Hj. rewrite Etk. unfold u32. dlia. }
  intros m. split; intros Hm.
  - destruct (ticks_spec (pxCurrentTCB k) cur _ m k1 L1 HC1 HT1 Hs1 Hcur Hd) as (k2&L2&E2&HC2&HT2&_&_&Hd2&_).
    { intros j. by apply Hnot. }
    exists k2, L2. split_and!; try done. by apply (due_now_blocked k2 L2 _ _ HC2) in Hd2 as [Hb _].
  - destruct m as [|m]; [lia|].
    destruct (ticks_spec (pxCurrentTCB k) cur _ m k1 L1 HC1 HT1 Hs1 Hcur Hd) as (k2&L2&E2&HC2&HT2&Hs2&Ht2&Hd2&Etk2).
    { intros j. apply Hnot. lia. }
    destruct (tick_spec k2 L2 HC2 HT2 Hs2) as (b&k3&L3&E3&HC3&HT3&_&_&Etk3&_&_&_&Htasks&_).
    exists k3, L3. split; [|split_and!; try done].
    + replace (S m) with (m + 1)%nat by lia. rewrite (ticks_app m 1 k1).
      rewrite (bind_run _ _ _ _ _ E2). cbn [ticks]. by rewrite (bind_run _ _ _ _ _ E3).
    + apply (Htasks _ _ Ht2). rewrite Etk3, Etk2, Etk. unfold u32. rewrite Zplus_mod_idemp_l.
      replace (xTickCount k + Z.of_nat m + 1) with (xTickCount k + n) by lia. exact Hd2.
Qed.

Lemma booted_current : tcbs booted !! pxCurrentTCB booted = Some (mkTCB 5 5 0 0 taskNOT_WAITING_NOTIFICATION).
Proof. by vm_compute. Qed.

Lemma vTaskDelay_exact_witness :
  exists k', vTaskDelay 5 booted = Some (true, k') /\ blocked k' 4 /\
    (exists k2 L2, ticks 5 k' = Some (tt, k2) /\ core k2 L2 /\
       cont (task_lists k2) (xStateListItem 4) = Some (Some 5)).
Proof.
  assert (Hx : xYieldPending booted = false /\ pxCurrentTCB booted = 4) by (by vm_compute).
  destruct Hx as [Hy Hcur].
  destruct (vTaskDelay_exact booted L_booted (mkTCB 5 5 0 0 taskNOT_WAITING_NOTIFICATION) 5 core_booted) as (k'&E&Hb&H);
    [apply waitingb_ok; by vm_compute|by vm_compute| |exact booted_current|by vm_compute|lia|].
  - split; [by vm_compute|]. split; [by vm_compute|]. exists (mkAList [] 0). split; [by vm_compute|done].
  - exists k'. rewrite Hy, Hcur in *. split; [exact E|]. split; [exact Hb|].
    destruct (H 5%nat) as [_ H5]. destruct (H5 ltac:(lia)) as (k2&L2&E2&HC2&_&Hc2).
    exists k2, L2. split; [exact E2|]. split; [exact HC2|exact Hc2].
Defined.

(** ** Time that wraps

    Real time is the number of ticks since the start, unbounded; the kernel
    keeps its low half and, modulo 2^32, its high half. *)

Definition clock (k : kernel) (T : Z) : Prop :=
  xTickCount k = u32 T /\ xNumOfOverflows k = u32 (T / 2 ^ 32).

Definition time_out_at (T : Z) : TimeOut_t := mkTimeOut (u32 (T / 2 ^ 32)) (u32 T).

(** C13 — [xTaskCheckForTimeOut] is exact in real time, although it sees the
    wrapped tick count only: for a time-out that was set at time [T0] and is
    checked at [T1], at most 2^32 ticks later, it reports the time-out exactly
    when the wait is over, and otherwise restarts the time-out at [T1] with the
    rest of the wait, so that the deadline stays the same.  An indefinite wait
    never times out. *)
Theorem xTaskCheckForTimeOut_exact (k : kernel) (T0 T1 wait : Z) :
  clock k T1 -> 0 <= T0 <= T1 -> T1 - T0 <= 2 ^ 32 -> 0 <= wait < 2 ^ 32 ->
  xTaskCheckForTimeOut (time_out_at T0) wait k =
    Some (if decide (wait = portMAX_DELAY) then (false, time_out_at T0, wait)
          else if decide (wait <= T1 - T0) then (true, time_out_at T0, 0)
          else (false, time_out_at T1, T0 + wait - T1), k) /\
  vTaskInternalSetTimeOutState k = Some (time_out_at T1, k).
Proof.
  intros [Et Eo] H0 H1 Hw.
  assert (Hset : vTaskInternalSetTimeOutState k = Some (time_out_at T1, k)).
  { unfold vTaskInternalSetTimeOutState, ask, time_out_at. by rewrite Et, Eo. }
  split; [|done].
  unfold xTaskCheckForTimeOut. rewrite !ask_bind, Et, Eo. cbn [xOverflowCount xTimeOnEntering time_out_at].
  destruct (Z.eqb_spec wait portMAX_DELAY) as [E|E]; [by rewrite decide_True|].
  rewrite (decide_False (P := wait = portMAX_DELAY)) by done.
  destruct (Z.eqb_spec (u32 (T1 / 2 ^ 32)) (u32 (T0 / 2 ^ 32))) as [Eq|Ne]; cbn [negb andb].
  - assert (Hsame : T1 / 2 ^ 32 = T0 / 2 ^ 32) by (unfold u32 in Eq; dlia).
    assert (Hel : u32 (u32 T1 - u32 T0) = T1 - T0) by (unfold u32; dlia).
    rewrite Hel. destruct (Z.ltb_spec (T1 - T0) wait).
    + rewrite decide_False by lia. rewrite (bind_run _ _ _ _ _ Hset).
      replace (u32 (wait - (T1 - T0))) with (T0 + wait - T1) by (unfold u32; dlia). done.
    + by rewrite decide_True by lia.
  - assert (Hnext : T1 / 2 ^ 32 = T0 / 2 ^ 32 + 1).
    { assert (T1 / 2 ^ 32 <> T0 / 2 ^ 32) by congruence. dlia. }
    destruct (Z.leb_spec (u32 T0) (u32 T1)) as [Hle|Hlt].
    + rewrite decide_True; [done|]. unfold u32 in Hle. dlia.
    + assert (Hel : u32 (u32 T1 - u32 T0) = T1 - T0) by (unfold u32 in *; dlia).
      rewrite Hel. destruct (Z.ltb_spec (T1 - T0) wait).
      * rewrite decide_False by lia. rewrite (bind_run _ _ _ _ _ Hset).
        replace (u32 (wait - (T1 - T0))) with (T0 + wait - T1) by (unfold u32; dlia). done.
      * by rewrite decide_True by lia.
Qed.

(** Set shortly before the count wraps, checked shortly after. *)
Lemma xTaskCheckForTimeOut_exact_witness :
  let k := set_xNumOfOverflows 1 (set_xTickCount 10 boot) in
  xTaskCheckForTimeOut (time_out_at (2 ^ 32 - 5)) 20 k
    = Some ((false, time_out_at (2 ^ 32 + 10), 5), k).
Proof.
  intros k. destruct (xTaskCheckForTimeOut_exact k (2 ^ 32 - 5) (2 ^ 32 + 10) 20) as [E _];
    [by vm_compute|lia|lia|lia|]. rewrite E. by vm_compute.
Defined.

Lemma should_delay_exact P T inc :
  0 <= P <= T -> T - P < 2 ^ 32 -> 0 < inc < 2 ^ 32 ->
  should_delay (u32 T) (u32 P) (u32 (u32 P + inc)) = (T <? P + inc).
Proof.
  intros HP HT Hinc. unfold should_delay, u32. apply eq_true_iff_eq.
  destruct (Z.ltb_spec (T `mod` 2 ^ 32) (P `mod` 2 ^ 32)) as [Hlt|Hge];
    rewrite ?andb_true_iff, ?orb_true_iff, !Z.ltb_lt; dlia.
Qed.

(** [xTaskDelayUntil] keeps a period, across wraps of the count: called at
    real time [T] with the last wake time [P], it sleeps exactly when the next
    one, [P + inc], is still to come, wakes then, and in any case moves the
    wake time on by one period. *)
Theorem xTaskDelayUntil_periodic (k : kernel) (L : gmap Z alist) (cur : TCB_t) (P T inc : Z) :
  core k L -> timed k L -> uxSchedulerSuspended k = 0 -> nothing_pending k L ->
  tcbs k !! pxCurrentTCB k = Some cur ->
  cont (task_lists k) (xStateListItem (pxCurrentTCB k)) = Some (Some (uxPriority cur)) ->
  xTickCount k = u32 T -> 0 <= P <= T -> T - P < 2 ^ 32 -> 0 < inc < 2 ^ 32 ->
  exists k', xTaskDelayUntil (u32 P) inc k =
      Some ((T <? P + inc, u32 (P + inc), negb (xYieldPending k)), k') /\
    (T < P + inc -> exists L', core k' L' /\ timed k' L' /\
       due_now k' (u32 (P + inc)) (pxCurrentTCB k)) /\
    (P + inc <= T -> k' = k).
Proof.
  intros HC HT Hs Hpend Hcur Hc Etk HP HTP Hinc.
  assert (Hw : u32 (u32 P + inc) = u32 (P + inc)) by (unfold u32; apply Zplus_mod_idemp_l).
  unfold xTaskDelayUntil, vTaskSuspendAll. rewrite assert_bind by (apply Z.ltb_lt; lia). rewrite ask_bind, assert_bind by (by rewrite Hs).
  rewrite update_bind, ask_bind.
  cbn [xTickCount set_uxSchedulerSuspended]. rewrite Etk, (should_delay_exact P T inc) by done.
  rewrite Hw. destruct (Z.ltb_spec T (P + inc)) as [Hlt|Hge]; cbn [when].
  - assert (Hn : u32 (u32 (P + inc) - u32 T) = P + inc - T) by (unfold u32; dlia).
    rewrite Hn. destruct (sleep_spec k L cur (P + inc - T) HC HT Hs Hpend Hcur Hc) as (k'&L'&E&HC'&HT'&_&_&_&_&Hd&_);
      [lia|].
    unfold sleep_suspended, vTaskSuspendAll in E. rewrite update_bind in E.
    exists k'. split; [|split; [|lia]].
    + rewrite <- (bind_assoc_run _ (fun _ => xTaskResumeAll)
        (fun b => mret (true, u32 (P + inc), negb b))). by rewrite (bind_run _ _ _ _ _ E).
    + intros _. exists L'. split; [done|]. split; [done|].
      replace (u32 (xTickCount k + (P + inc - T))) with (u32 (P + inc)) in Hd; [done|].
      rewrite Etk. unfold u32. dlia.
  - exists k. split; [|split; [lia|done]]. rewrite ret_bind, Hs. change (u32 (0 + 1)) with 1.
    assert (HC1 : core (set_uxSchedulerSuspended 1 k) L).
    { eapply core_ext; [exact HC|done..|pose proof (co_top _ _ HC); cbn; lia]. }
    rewrite (bind_run _ _ _ _ _ (resume_nothing (set_uxSchedulerSuspended 1 k) L HC1 Hpend eq_refl)).
    unfold mret, prog_ret. do 2 f_equal. rewrite <- Hs. by destruct k.
Qed.

Lemma xTaskDelayUntil_periodic_witness :
  exists k', xTaskDelayUntil 0 7 booted = Some ((true, 7, true), k') /\ due_now k' 7 4.
Proof.
  assert (Hx : xYieldPending booted = false /\ pxCurrentTCB booted = 4) by (by vm_compute).
  destruct Hx as [Hy Hcur].
  destruct (xTaskDelayUntil_periodic booted L_booted (mkTCB 5 5 0 0 taskNOT_WAITING_NOTIFICATION) 0 0 7
    core_booted) as (k'&E&Hd&_);
    [apply waitingb_ok; by vm_compute|by vm_compute| |exact booted_current|by vm_compute|by vm_compute|lia..|].
  - split; [by vm_compute|]. split; [by vm_compute|]. exists (mkAList [] 0). split; [by vm_compute|done].
  - exists k'. rewrite Hy, Hcur in *. split; [exact E|]. destruct (Hd ltac:(lia)) as (L'&_&_&H). exact H.
Defined.

(** ** Event lists *)

(** Its waiters, in the order of their priorities. *)
Definition by_priority (k : kernel) (a : alist) : Prop :=
  sorted_list (task_lists k) (elems a) /\
  forall t tcb, 2 * t + 1 ∈ elems a -> tcbs k !! t = Some tcb ->
    vals (task_lists k) (2 * t + 1) = configMAX_PRIORITIES - uxPriority tcb.

(** [xTaskRemoveFromEventList] on an event list with waiters in order of
    priority unblocks the first of them, which has the highest priority: it
    leaves the event list and becomes ready, or goes to the pending ready list
    while the scheduler is suspended; no other task moves, the other event
    lists keep their waiters, the invariant holds, and the result (and the
    pending yield) says whether the task beats the running one. *)
Theorem xTaskRemoveFromEventList_highest (k : kernel) (L : gmap Z alist) (l x : Z) (a : alist) (xs : list Z) :
  inv k L -> event_list l -> L !! l = Some a -> elems a = x :: xs -> by_priority k a ->
  exists t tcb k' L', x = 2 * t + 1 /\ tcbs k !! t = Some tcb /\
    xTaskRemoveFromEventList l k = Some (prio k (pxCurrentTCB k) <? uxPriority tcb, k') /\
    inv k' L' /\ tcbs k' = tcbs k /\ L' !! l = Some (aremove 0 a) /\
    (forall t' tcb', 2 * t' + 1 ∈ elems a -> tcbs k !! t' = Some tcb' -> uxPriority tcb' <= uxPriority tcb) /\
    (uxSchedulerSuspended k = 0 ->
       cont (task_lists k') (xStateListItem t) = Some (Some (uxPriority tcb)) /\
       cont (task_lists k') (xEventListItem t) = Some None) /\
    (uxSchedulerSuspended k <> 0 ->
       cont (task_lists k') (xStateListItem t) = cont (task_lists k) (xStateListItem t) /\
       cont (task_lists k') (xEventListItem t) = Some (Some xPendingReadyList)) /\
    (forall y, y <> 2 * t -> y <> 2 * t + 1 ->
       cont (task_lists k') (Item y) = cont (task_lists k) (Item y)) /\
    (forall l', event_list l' -> l' <> l -> L' !! l' = L !! l') /\
    xYieldPending k' = (prio k (pxCurrentTCB k) <? uxPriority tcb) || xYieldPending k.
Proof.
  intros HI [Hl Hlp] Ha Hx [Hs Hv].
  destruct (remove_from_event_inv k L l a x xs HI Ha Hx Hl Hlp) as (t&tcb&k1&L1&->&Ht&UB&E&Hla&Hlo).
  destruct (woke_fields _ _ (ub_woke _ _ _ _ _ _ UB)) as (Et&_&_&_&_&_&Ey&_).
  eexists t, tcb, _, L1. split; [done|]. split; [done|]. split; [exact E|].
  pose proof (ub_inv _ _ _ _ _ _ UB) as HI1.
  split; [case_match; [by eapply inv_ext|done]|].
  split; [case_match; done|]. split; [done|]. split.
  { intros t' tcb' Hin Ht'. pose proof (Hv t' tcb' Hin Ht') as E1.
    assert (Hin0 : 2 * t + 1 ∈ elems a) by (rewrite Hx; left).
    pose proof (Hv t tcb Hin0 Ht) as E2. rewrite Hx in Hin, Hs.
    apply StronglySorted_inv in Hs as [_ Hs]. rewrite Forall_forall in Hs.
    apply elem_of_cons in Hin as [Heq|Hin]; [assert (t' = t) as -> by lia; simplify_eq; lia|].
    specialize (Hs _ Hin). lia. }
  destruct UB as [U1 U2 U3 U4 U5 U6].
  split; [case_match; exact U3|]. split; [case_match; exact U4|].
  split; [case_match; exact U6|]. split; [intros l' [H1 H2]; by apply Hlo|].
  case_match; [done|]. by rewrite Ey.
Qed.

(** Two tasks wait on the event list at address 100, and task 3 is running. *)
Definition two_wait : kernel :=
  run_k (_ ← update (fun k => set_task_lists (vListInitialise 100 (task_lists k)) k);
         _ ← vTaskPlaceOnEventList 100 10; _ ← vTaskSwitchContext;
         _ ← vTaskPlaceOnEventList 100 portMAX_DELAY; vTaskSwitchContext) booted.

Definition L_two_wait : gmap Z alist := read_lists (task_lists two_wait).

Definition asleep_okb (k : kernel) : bool :=
  bool_decide (map_Forall (fun t _ =>
    match cont (task_lists k) (xEventListItem t) with
    | Some (Some _) =>
        match cont (task_lists k) (xStateListItem t) with Some (Some l0) => state_list l0 | _ => false end
    | _ => true
    end = true) (tcbs k)).

Lemma invb_ok k L :
  coreb k L && waitingb (xTickCount k + 1) k L && asleep_okb k = true -> inv k L.
Proof.
  rewrite !andb_true_iff. intros [[H1 H2] H3]. split; [by apply coreb_ok|by apply waitingb_ok|].
  unfold asleep_okb in H3. rewrite bool_decide_eq_true in H3. intros t l [tcb Ht] Hc.
  specialize (H3 t tcb Ht). cbn in H3. rewrite Hc in H3.
  destruct (cont (task_lists k) (xStateListItem t)) as [[l0|]|]; [by exists l0|done..].
Qed.

Lemma inv_two_wait : inv two_wait L_two_wait.
Proof. apply invb_ok. by vm_compute. Qed.

Lemma event_list_100 : event_list 100.
Proof.
  split; [|done]. intros [H|H%state_list_spec]; [unfold configMAX_PRIORITIES in H; lia|lia].
Qed.

Lemma two_wait_list : L_two_wait !! 100 = Some (mkAList [9; 5] 0).
Proof. by vm_compute. Qed.

Lemma two_wait_order : by_priority two_wait (mkAList [9; 5] 0).
Proof.
  split; [repeat constructor; by vm_compute|].
  intros t tcb Hin Ht. assert (t = 4 \/ t = 2) as [-> | ->].
  { cbn in Hin. rewrite !elem_of_cons, elem_of_nil in Hin. lia. }
  all: vm_compute in Ht; injection Ht as <-; by vm_compute.
Qed.

Lemma xTaskRemoveFromEventList_highest_witness :
  exists k' L', xTaskRemoveFromEventList 100 two_wait = Some (true, k') /\ inv k' L' /\
    cont (task_lists k') (xStateListItem 4) = Some (Some 5) /\ L' !! 100 = Some (mkAList [5] 0).
Proof.
  destruct (xTaskRemoveFromEventList_highest two_wait L_two_wait 100 9 _ [5] inv_two_wait event_list_100
    two_wait_list eq_refl two_wait_order) as (t&tcb&k'&L'&Ht&Htcb&E&HI&_&HL&_&Hr&_).
  assert (t = 4) as -> by lia. vm_compute in Htcb. injection Htcb as <-.
  exists k', L'. split; [exact E|]. split; [exact HI|]. split; [|exact HL].
  destruct Hr as [Hr _]; [by vm_compute|exact Hr].
Defined.

(** [vTaskPlaceOnEventList] blocks the running task (on a delayed list, or on
    the suspended list for an indefinite wait) and puts it into the event list
    behind every waiter of the same or a higher priority, so that the list
    stays in the order of priorities, first come first served among equals. *)
Theorem vTaskPlaceOnEventList_ordered (k : kernel) (L : gmap Z alist) (cur : TCB_t) (l n : Z) (a : alist) :
  inv k L -> running k cur -> event_list l -> L !! l = Some a -> by_priority k a -> 0 < n < 2 ^ 32 ->
  exists k' L' xs ys, vTaskPlaceOnEventList l n k = Some (tt, k') /\ inv k' L' /\
    tcbs k' = tcbs k /\ elems a = xs ++ ys /\
    (exists a', L' !! l = Some a' /\ elems a' = xs ++ (2 * pxCurrentTCB k + 1) :: ys /\ by_priority k' a') /\
    (forall t tcb, 2 * t + 1 ∈ xs -> tcbs k !! t = Some tcb -> uxPriority cur <= uxPriority tcb) /\
    (forall t tcb, 2 * t + 1 ∈ ys -> tcbs k !! t = Some tcb -> uxPriority tcb < uxPriority cur) /\
    (exists l0, cont (task_lists k') (xStateListItem (pxCurrentTCB k)) = Some (Some l0) /\ state_list l0 = true) /\
    (forall l', event_list l' -> l' <> l -> L' !! l' = L !! l').
Proof.
  intros HI [R1 R2 R3 R4] [Hl Hlp] Ha [Hs Hv] Hn.
  destruct (place_on_event_inv k L cur l a n HI R1 R2 R3 Ha Hl Hn)
    as (k'&L'&E&Hw&HI'&HLl&HLo&Hc&Hva).
  set (m := sorted_position (vals (task_lists k)) (vals (task_lists k) (2 * pxCurrentTCB k + 1)) (elems a)) in *.
  destruct (woke_fields _ _ Hw) as (Et&Ecu&_).
  destruct (sorted_position_spec (vals (task_lists k)) (vals (task_lists k) (2 * pxCurrentTCB k + 1)) (elems a))
    as [Hbefore Hafter]. fold m in Hbefore, Hafter. specialize (Hafter Hs).
  rewrite Forall_forall in Hbefore, Hafter.
  assert (Hodd : forall y, y ∈ elems a -> exists t tcb, y = 2 * t + 1 /\ tcbs k !! t = Some tcb).
  { intros y Hy. destruct (co_items _ _ (inv_core _ _ HI) _ _ _ Ha Hy) as (t&tcb&Ht&Hk). exists t, tcb.
    split; [|done]. case_decide as Hd; [exfalso; apply Hl; by left|].
    destruct (state_list l) eqn:El; [exfalso; apply Hl; by right|done]. }
  assert (Hin : forall t xs, xs ⊆ elems a -> 2 * t + 1 ∈ xs -> 2 * t + 1 ∈ elems a) by (intros; set_solver).
  exists k', L', (take m (elems a)), (drop m (elems a)). split; [exact E|]. split; [exact HI'|].
  split; [exact Et|]. split; [by rewrite take_drop|]. split; [|split; [|split; [|split]]].
  - eexists. split; [exact HLl|]. split; [done|]. split.
    + eapply sorted_list_ext; [|exact (sorted_list_insert _ _ _ Hs)].
      intros y [->|Hy]%elem_of_ainsert; [apply Hva; lia|].
      destruct (Hodd y Hy) as (t&_&->&_). apply Hva. lia.
    + intros t tcb [Heq|Hy]%elem_of_ainsert Ht; rewrite Et in Ht; rewrite Hva by lia.
      * assert (t = pxCurrentTCB k) as -> by lia. rewrite R1 in Ht. by injection Ht as <-.
      * by apply Hv.
  - intros t tcb Hy Ht. specialize (Hbefore _ Hy). cbn in Hbefore.
    rewrite R4, (Hv t tcb) in Hbefore; [lia|by eapply (sublist_subseteq _ _ (sublist_take _ _))|done].
  - intros t tcb Hy Ht. specialize (Hafter _ Hy). cbn in Hafter.
    rewrite R4, (Hv t tcb) in Hafter; [lia|by eapply (sublist_subseteq _ _ (sublist_drop _ _))|done].
  - apply (inv_asleep _ _ HI' (pxCurrentTCB k) l); [rewrite Et; by eexists|].
    apply (rep_cont _ _ _ (co_lists _ _ (inv_core _ _ HI') _ _ HLl)). apply elem_of_ainsert. by left.
  - intros l' [H1 H2] H3. by apply HLo.
Qed.

Lemma two_wait_running : running two_wait (mkTCB 3 3 0 0 taskNOT_WAITING_NOTIFICATION).
Proof. split; by vm_compute. Qed.

Lemma vTaskPlaceOnEventList_ordered_witness :
  exists k' L' xs ys, vTaskPlaceOnEventList 100 7 two_wait = Some (tt, k') /\ inv k' L' /\
    [9; 5] = xs ++ ys /\ (exists a', L' !! 100 = Some a' /\ elems a' = xs ++ 7 :: ys).
Proof.
  destruct (vTaskPlaceOnEventList_ordered two_wait L_two_wait _ 100 7 _ inv_two_wait two_wait_running
    event_list_100 two_wait_list two_wait_order) as (k'&L'&xs&ys&E&HI&_&Hxs&(a'&Ha'&Hel&_)&_); [lia|].
  assert (Hc : pxCurrentTCB two_wait = 3) by by vm_compute.
  exists k', L', xs, ys. split; [exact E|]. split; [exact HI|]. split; [exact Hxs|].
  exists a'. rewrite Hc in Hel. split; [exact Ha'|exact Hel].
Defined.

(** ** Priority inheritance *)

(** C11 — [xTaskPriorityInherit]: when the running task, which is about to wait for
    a mutex, beats the mutex's holder, the holder gets its priority (its base
    priority stays), moves to the ready list of that priority if it was ready
    and stays on its list otherwise, its event item shows the new priority
    unless an event group uses it, and nothing else moves; otherwise nothing
    changes, and the result says whether the holder runs at an inherited
    priority that the running task has a share in. *)
Theorem xTaskPriorityInherit_spec (k : kernel) (L : gmap Z alist) (h : Z) (hb : TCB_t) :
  inv k L -> h <> 0 -> tcbs k !! h = Some hb ->
  let p := prio k (pxCurrentTCB k) in
  (uxPriority hb < p ->
   exists k' L', xTaskPriorityInherit h k = Some (true, k') /\ inv k' L' /\
     tcbs k' = <[h := with_priority p hb]> (tcbs k) /\
     (cont (task_lists k) (xStateListItem h) = Some (Some (pxReadyTasksLists (uxPriority hb))) ->
      cont (task_lists k') (xStateListItem h) = Some (Some (pxReadyTasksLists p))) /\
     (cont (task_lists k) (xStateListItem h) <> Some (Some (pxReadyTasksLists (uxPriority hb))) ->
      cont (task_lists k') (xStateListItem h) = cont (task_lists k) (xStateListItem h)) /\
     vals (task_lists k') (2 * h + 1) = event_value_after (vals (task_lists k) (2 * h + 1)) p /\
     (forall y, y <> 2 * h -> cont (task_lists k') (Item y) = cont (task_lists k) (Item y)) /\
     (forall l, event_list l -> L' !! l = L !! l)) /\
  (p <= uxPriority hb -> xTaskPriorityInherit h k = Some (uxBasePriority hb <? p, k)).
Proof.
  intros HI Hh Hhb p. split; intros Hp.
  - destruct (inherit_inv k L h hb HI Hh Hhb Hp) as (k'&L'&E&RP&Hv).
    exists k', L'. destruct RP as [R1 R2 R3 R4 R5 R6 R7]. unfold reprioritised in R1.
    split; [exact E|]. split; [exact R2|]. split; [by rewrite R1|].
    split; [exact R3|]. split; [exact R4|]. split; [exact Hv|]. split; [exact R5|].
    intros l [Hl _]. by apply R7.
  - destruct (co_current _ _ (inv_core _ _ HI)) as [cur Hcur].
    subst p. rewrite (prio_get _ _ _ Hcur) in *.
    unfold xTaskPriorityInherit. rewrite (proj2 (Z.eqb_neq h 0) Hh).
    rewrite (get_tcb_bind _ _ _ _ Hhb), ask_bind, (get_tcb_bind _ _ _ _ Hcur).
    by rewrite (proj2 (Z.ltb_ge _ _) Hp).
Qed.

Lemma xTaskPriorityInherit_spec_witness :
  exists k' L', xTaskPriorityInherit 1 two_wait = Some (true, k') /\ inv k' L' /\
    cont (task_lists k') (xStateListItem 1) = Some (Some 3).
Proof.
  destruct (xTaskPriorityInherit_spec two_wait L_two_wait 1 (mkTCB 0 0 0 0 taskNOT_WAITING_NOTIFICATION)
    inv_two_wait) as [H _]; [done|by vm_compute|].
  destruct H as (k'&L'&E&HI&_&Hr&_); [by vm_compute|].
  exists k', L'. split; [exact E|]. split; [exact HI|]. apply Hr. by vm_compute.
Defined.

(** C12 — [xTaskPriorityDisinherit], called by the running task that gives a mutex
    back: it counts one mutex less; with the last one, a holder that runs at an
    inherited priority goes back to its base priority and to that ready list,
    and the result says so; otherwise it keeps its priority and its place.
    Nothing else moves.  For a holder that is not the running task, or that
    holds no mutex, it stops in its assertions. *)
Theorem xTaskPriorityDisinherit_spec (k : kernel) (L : gmap Z alist) (h : Z) (hb : TCB_t) :
  inv k L -> h <> 0 -> tcbs k !! h = Some hb -> 0 <= uxMutexesHeld hb < 2 ^ 32 ->
  cont (task_lists k) (xStateListItem h) = Some (Some (pxReadyTasksLists (uxPriority hb))) ->
  0 <= uxBasePriority hb < configMAX_PRIORITIES ->
  let back := bool_decide (uxPriority hb <> uxBasePriority hb /\ uxMutexesHeld hb = 1) in
  let p := if back then uxBasePriority hb else uxPriority hb in
  (h = pxCurrentTCB k -> uxMutexesHeld hb <> 0 ->
    exists k' L', xTaskPriorityDisinherit h k = Some (back, k') /\ inv k' L' /\
      tcbs k' = <[h := with_mutexes (uxMutexesHeld hb - 1) (with_priority p hb)]> (tcbs k) /\
      cont (task_lists k') (xStateListItem h) = Some (Some (pxReadyTasksLists p)) /\
      (forall y, y <> 2 * h -> cont (task_lists k') (Item y) = cont (task_lists k) (Item y)) /\
      (forall l, event_list l -> L' !! l = L !! l)) /\
  (h <> pxCurrentTCB k \/ uxMutexesHeld hb = 0 -> xTaskPriorityDisinherit h k = None).
Proof.
  intros HI Hh Hhb Hm Hc Hb back p. split.
  2:{ intros Hstop. unfold xTaskPriorityDisinherit. rewrite (proj2 (Z.eqb_neq h 0) Hh), ask_bind.
      destruct (Z.eqb_spec h (pxCurrentTCB k)) as [E|E]; [|done]. rewrite assert_bind, (get_tcb_bind _ _ _ _ Hhb) by done.
      destruct Hstop as [?|E0]; [done|by rewrite E0]. }
  intros Hcur Hheld0. destruct (disinherit_inv k L h hb HI Hh Hhb Hcur Hheld0 Hc Hb) as (k'&L'&E&RP).
  assert (Hheld : u32 (uxMutexesHeld hb - 1) = uxMutexesHeld hb - 1) by (by words).
  rewrite Hheld in E, RP.
  assert (Eb : negb (uxPriority hb =? uxBasePriority hb) && (uxMutexesHeld hb - 1 =? 0) = back).
  { subst back. apply eq_true_iff_eq. rewrite bool_decide_eq_true, andb_true_iff, negb_true_iff.
    rewrite Z.eqb_neq, Z.eqb_eq. split; intros [? ?]; (split; [done|lia]). }
  rewrite Eb in E, RP. destruct RP as [R1 R2 R3 R4 R5 R6 R7]. unfold reprioritised in R1.
  assert (Etcb : with_mutexes (uxMutexesHeld hb - 1) (if back then with_priority (uxBasePriority hb) hb else hb)
     = with_mutexes (uxMutexesHeld hb - 1) (with_priority p hb)).
  { subst p. destruct back; [done|]. by destruct hb. }
  rewrite Etcb in *.
  exists k', L'. split; [exact E|]. split; [exact R2|]. split; [by rewrite R1|].
  split; [exact (R3 Hc)|]. split; [exact R5|]. intros l [Hl _]. by apply R7.
Qed.

(** Task 3 has inherited priority 5 and holds one mutex. *)
Definition inherited : kernel :=
  run_k (_ ← pvTaskIncrementMutexHeldCount; _ ← update (set_pxCurrentTCB 4);
         _ ← xTaskPriorityInherit 3; update (set_pxCurrentTCB 3)) two_wait.

Lemma xTaskPriorityDisinherit_spec_witness :
  exists k' L', xTaskPriorityDisinherit 3 inherited = Some (true, k') /\ inv k' L' /\
    cont (task_lists k') (xStateListItem 3) = Some (Some 3).
Proof.
  assert (HI : inv inherited (read_lists (task_lists inherited))) by (apply invb_ok; by vm_compute).
  destruct (xTaskPriorityDisinherit_spec inherited _ 3 (mkTCB 5 3 1 0 taskNOT_WAITING_NOTIFICATION) HI)
    as [H _]; [done|by vm_compute|cbn; lia|by vm_compute|by vm_compute|].
  destruct H as (k'&L'&E&HI'&_&Hc&_); [by vm_compute|done|].
  exists k', L'. split; [exact E|]. split; [exact HI'|exact Hc].
Defined.
