(* ===== verification/TasksResume.v ===== *)
(** * Resuming the scheduler

    What [xTaskResumeAll] does: the tasks that events woke while the scheduler
    was suspended become ready, and the ticks that were held back are
    processed. *)
From Stdlib Require Import Sorted.
From S2P Require Import Prelude KList Tasks TasksInv TasksOps TasksProofs.
Open Scope Z_scope.

(** ** Ticks keep the invariant *)

Lemma due_now_dec k now t : due_now k now t \/ ~ due_now k now t.
Proof.
  unfold due_now.
  destruct (decide (cont (task_lists k) (xStateListItem t) = Some (Some (pxDelayedTaskList k))));
  destruct (decide (cont (task_lists k) (xStateListItem t) = Some (Some (pxOverflowDelayedTaskList k))));
  destruct (decide (vals (task_lists k) (2 * t) = now)); tauto.
Qed.

(** What a tick, or several of them, may do to a task: a blocked task may become ready. *)
Definition stays_or_wakes (k k' : kernel) : Prop := forall t tcb, tcbs k !! t = Some tcb ->
  (cont (task_lists k') (xStateListItem t) = Some (Some (uxPriority tcb)) /\
   cont (task_lists k') (xEventListItem t) = Some None) \/
  (cont (task_lists k') (xStateListItem t) = cont (task_lists k) (xStateListItem t) /\
   cont (task_lists k') (xEventListItem t) = cont (task_lists k) (xEventListItem t)).

Lemma stays_or_wakes_trans k1 k2 k3 :
  tcbs k2 = tcbs k1 -> stays_or_wakes k1 k2 -> stays_or_wakes k2 k3 -> stays_or_wakes k1 k3.
Proof.
  intros Et H1 H2 t tcb Ht. assert (Ht2 : tcbs k2 !! t = Some tcb) by (by rewrite Et).
  destruct (H2 t tcb Ht2) as [?|[E1 E2]]; [by left|]. rewrite E1, E2. by apply H1.
Qed.

Record ticked (n : Z) (k k' : kernel) (L' : gmap Z alist) : Prop := {
  tk_inv : inv k' L';
  tk_tcbs : tcbs k' = tcbs k;
  tk_current : pxCurrentTCB k' = pxCurrentTCB k;
  tk_count : xTickCount k' = u32 (xTickCount k + n);
  tk_suspended : uxSchedulerSuspended k' = 0;
  tk_pended : xPendedTicks k' = xPendedTicks k;
  tk_tasks : stays_or_wakes k k';
  tk_yield : xYieldPending k = true -> xYieldPending k' = true
}.

Lemma tick_inv k L :
  inv k L -> uxSchedulerSuspended k = 0 ->
  exists b k' L', xTaskIncrementTick k = Some (b, k') /\ ticked 1 k k' L'.
Proof.
  intros [HC HT HA] Hsu.
  destruct (tick_run k L HC HT Hsu) as (b&k'&L'&E&HC'&HT'&Et&Ecu&Etk&_&Esu&_&Htask&_&Ey&Ep).
  assert (HS : stays_or_wakes k k').
  { intros t tcb Ht. destruct (Htask t tcb Ht) as [H1 H2].
    destruct (due_now_dec k (xTickCount k') t); [left|right]; auto. }
  exists b, k', L'. split; [done|]. split; try done; [|congruence]. split; [done|done|].
  intros t l [tcb Ht] Hc. rewrite Et in Ht. destruct (HS t tcb Ht) as [[_ He]|[Es Ee]].
  - rewrite Hc in He. discriminate.
  - rewrite Es. apply (HA t l); [by eexists|]. by rewrite <- Ee.
Qed.

Lemma ticked_yield n k k' L b : ticked n k k' L ->
  ticked n k (if b : bool then set_xYieldPending true k' else k') L.
Proof.
  intros []. destruct b; [|done]. split; try done. by eapply inv_ext.
Qed.

Lemma ticked_trans n1 n2 k k1 k2 L1 L2 :
  ticked n1 k k1 L1 -> ticked n2 k1 k2 L2 -> ticked (n1 + n2) k k2 L2.
Proof.
  intros [A1 A2 A3 A4 A5 A6 A7 A8] [B1 B2 B3 B4 B5 B6 B7 B8]. split; try done; try congruence.
  - rewrite B4, A4. unfold u32. rewrite Zplus_mod_idemp_l. f_equal. lia.
  - by eapply stays_or_wakes_trans.
  - auto.
Qed.

Lemma unwind_ticks_inv n k L :
  inv k L -> uxSchedulerSuspended k = 0 ->
  exists k' L', unwind_ticks n k = Some (tt, k') /\ ticked (Z.of_nat n) k k' L'.
Proof.
  revert k L; induction n as [|n IH]; intros k L HI Hsu.
  - exists k, L. split; [done|]. split; try done.
    + rewrite Z.add_0_r, u32_small; [done|]. apply (wt_tick _ _ _ (inv_timed _ _ HI)).
    + intros t tcb Ht. by right.
  - destruct (tick_inv k L HI Hsu) as (b&k1&L1&E1&T1).
    pose proof (ticked_yield _ _ _ _ b T1) as T1'. set (k1' := if b then _ else k1) in *.
    destruct (IH k1' L1 (tk_inv _ _ _ _ T1') (tk_suspended _ _ _ _ T1')) as (k2&L2&E2&T2).
    exists k2, L2. split.
    + cbn [unwind_ticks]. rewrite (bind_run _ _ _ _ _ E1).
      assert (E : when b (update (set_xYieldPending true)) k1 = Some (tt, k1')) by (by destruct b).
      by rewrite (bind_run _ _ _ _ _ E).
    + replace (Z.of_nat (S n)) with (1 + Z.of_nat n) by lia. by eapply ticked_trans.
Qed.

(** ** The pending ready list *)

Lemma pending_no_state : ~ holds_states xPendingReadyList.
Proof. intros [H|H]; [unfold configMAX_PRIORITIES, xPendingReadyList in H; lia|by vm_compute in H]. Qed.

(** The tasks [ts] are ready, and no other task has moved; [beats] says when
    one of them asks for a context switch. *)
Record readied (beats : Z -> Z -> bool) (ts : list Z) (k k' : kernel) (L' : gmap Z alist) : Prop := {
  rd_inv : inv k' L';
  rd_tcbs : tcbs k' = tcbs k;
  rd_current : pxCurrentTCB k' = pxCurrentTCB k;
  rd_tick : xTickCount k' = xTickCount k;
  rd_suspended : uxSchedulerSuspended k' = uxSchedulerSuspended k;
  rd_pended : xPendedTicks k' = xPendedTicks k;
  rd_number : uxCurrentNumberOfTasks k' = uxCurrentNumberOfTasks k;
  rd_ready : forall t tcb, t ∈ ts -> tcbs k !! t = Some tcb ->
    cont (task_lists k') (xStateListItem t) = Some (Some (uxPriority tcb)) /\
    cont (task_lists k') (xEventListItem t) = Some None;
  rd_others : forall y, (forall t, t ∈ ts -> y <> 2 * t /\ y <> 2 * t + 1) ->
    cont (task_lists k') (Item y) = cont (task_lists k) (Item y);
  rd_yield : xYieldPending k' = xYieldPending k || existsb (fun t => beats (prio k (pxCurrentTCB k)) (prio k t)) ts
}.

Lemma readied_nil beats k L : inv k L -> readied beats [] k k L.
Proof. intros HI. split; try done. - intros t tcb Ht. by apply not_elem_of_nil in Ht. - by rewrite orb_false_r. Qed.

(** The body of the loop. *)
Definition move_body (t : Z) : K unit :=
  _ ← listREMOVE_ITEM (xEventListItem t); _ ← listREMOVE_ITEM (xStateListItem t);
  _ ← prvAddTaskToReadyList t; tcb ← get_tcb t; current ← ask pxCurrentTCB; cur ← get_tcb current;
  when (uxPriority cur <=? uxPriority tcb) (update (set_xYieldPending true)).

Lemma move_pending_body fuel last t k :
  from_lists (listLIST_IS_EMPTY xPendingReadyList) k = Some (false, k) ->
  from_lists (listGET_OWNER_OF_HEAD_ENTRY xPendingReadyList) k = Some (t, k) ->
  move_pending (S fuel) last k = (_ ← move_body t; move_pending fuel t) k.
Proof.
  intros E1 E2. cbn [move_pending]. rewrite (bind_run _ _ _ _ _ E1), (bind_run _ _ _ _ _ E2).
  unfold move_body, mbind, prog_bind.
  do 6 (match goal with |- context [match ?x with _ => _ end] => destruct x as [[? ?]|]; [|done] end). done.
Qed.

Lemma move_one k L a t tcb ts :
  inv k L -> L !! xPendingReadyList = Some a -> elems a = (2 * t + 1) :: ((fun t => 2 * t + 1) <$> ts) ->
  tcbs k !! t = Some tcb -> t ∉ ts ->
  exists k' L', move_body t k = Some (tt, k') /\
    readied Z.leb [t] k k' L' /\ (exists a', L' !! xPendingReadyList = Some a' /\ elems a' = (fun t => 2 * t + 1) <$> ts).
Proof.
  intros HI Ha Hx Ht Hnin.
  destruct (event_head k L _ a _ _ HI Ha Hx pending_no_state) as (t'&tcb'&l0&E0&Ht'&_&Hce&Hcs&Hl0).
  assert (t' = t) as -> by lia. rewrite Ht in Ht'. injection Ht' as <-.
  destruct (remove_event_inv k L t tcb _ HI Ht Hce) as (k1&a1&i&E1&Hs1&HI1&Ha1&Hi&Hd1&_&Hp1&Hk1).
  rewrite Ha in Ha1. injection Ha1 as <-. unfold same_but_lists in Hs1.
  assert (i = 0%nat) as ->.
  { pose proof (rep_nodup _ _ _ (co_lists _ _ (inv_core _ _ HI) _ _ Ha)) as Hnd. rewrite Hx in Hi, Hnd.
    by eapply (NoDup_lookup _ _ _ _ Hnd). }
  assert (Ht1 : tcbs k1 !! t = Some tcb) by (rewrite Hs1; exact Ht).
  assert (Hcs1 : cont (task_lists k1) (xStateListItem t) = Some (Some l0)).
  { unfold xStateListItem. rewrite Hk1 by lia. exact Hcs. }
  destruct (make_ready_inv k1 _ t tcb l0 HI1 Ht1 Hcs1 Hd1) as (k2&L2&E2&Hw&HI2&Hc2&_&_&Hk2&HL2).
  assert (Hw0 : woke k k2) by (eapply woke_trans; [apply woke_lists; exact Hs1|exact Hw]).
  destruct (woke_fields _ _ Hw0) as (Et&Ecu&_&_&Etk&Esu&Ey&_).
  destruct (co_current _ _ (inv_core _ _ HI)) as [cur Hcur].
  set (b := uxPriority cur <=? uxPriority tcb).
  set (k3 := if b then set_xYieldPending true k2 else k2).
  assert (HI3 : inv k3 L2) by (unfold k3; destruct b; [by eapply inv_ext|done]).
  assert (Hst : task_lists k3 = task_lists k2) by (unfold k3; by destruct b).
  exists k3, L2. split; [|split].
  - unfold move_body. rewrite (bind_run _ _ _ _ _ E1). unfold make_ready in E2.
    destruct (listREMOVE_ITEM (xStateListItem t) k1) as [[[] k1']|] eqn:Er;
      [|unfold mbind, prog_bind in E2; by rewrite Er in E2].
    rewrite (bind_run _ _ _ _ _ Er) in E2. rewrite (bind_run _ _ _ _ _ Er), (bind_run _ _ _ _ _ E2).
    rewrite (get_tcb_bind _ _ _ tcb) by (by rewrite Et). rewrite ask_bind, Ecu.
    rewrite (get_tcb_bind _ _ _ cur) by (by rewrite Et). unfold k3, b. by destruct (uxPriority cur <=? uxPriority tcb).
  - split; try done; try (unfold k3; destruct b; done).
    + unfold k3. unfold woke in Hw0. destruct b; cbn; by rewrite Hw0.
    + unfold k3. unfold woke in Hw0. destruct b; cbn; by rewrite Hw0.
    + intros t' tcb' ->%list_elem_of_singleton Ht'. rewrite Ht in Ht'. injection Ht' as <-. rewrite Hst.
      split; [exact Hc2|]. unfold xEventListItem. rewrite Hk2 by lia. exact Hd1.
    + intros y Hy. destruct (Hy t) as [H1 H2]; [by left|]. by rewrite Hst, Hk2, Hk1.
    + cbn. rewrite orb_false_r, (prio_get _ _ _ Hcur), (prio_get _ _ _ Ht). fold b. unfold k3.
      destruct b; cbn; by rewrite ?Ey, ?orb_true_r, ?orb_false_r.
  - exists (aremove 0 a). split; [|by eapply aremove_head].
    rewrite HL2 by exact pending_no_state. by rewrite lookup_insert_eq.
Qed.

Lemma readied_cons beats t ts k k1 k2 L1 L2 :
  (forall tcb, tcbs k !! t = Some tcb -> t ∉ ts) -> is_Some (tcbs k !! t) ->
  readied beats [t] k k1 L1 -> readied beats ts k1 k2 L2 -> readied beats (t :: ts) k k2 L2.
Proof.
  intros Hnin [tcb0 Ht0] [A1 A2 A3 A4 A5 A6 A0 A7 A8 A9] [B1 B2 B3 B4 B5 B6 B0 B7 B8 B9].
  assert (Hpr : forall x, prio k1 x = prio k x) by (intros x; unfold prio; by rewrite A2).
  split; try done; try congruence.
  - intros x tcb Hx Hxt. destruct (decide (x ∈ ts)) as [Hin|Hin].
    + apply B7; [done|]. by rewrite A2.
    + apply elem_of_cons in Hx as [->|Hx]; [|done]. destruct (A7 t tcb) as [H1 H2]; [by left|done|].
      unfold xStateListItem, xEventListItem in *.
      rewrite !B8; [done| |]; intros u Hu; (assert (u <> t) by (by intros ->)); lia.
  - intros y Hy. rewrite B8, A8; [done| |].
    + intros u ->%list_elem_of_singleton. apply Hy. by left.
    + intros u Hu. apply Hy. by right.
  - rewrite B9, A9, A3, Hpr. cbn. rewrite orb_false_r, <- orb_assoc. do 2 f_equal.
    clear -Hpr. induction ts as [|u us IH]; [done|]. cbn. by rewrite Hpr, IH.
Qed.

Lemma move_pending_inv fuel : forall ts k L a last,
  inv k L -> L !! xPendingReadyList = Some a -> elems a = (fun t => 2 * t + 1) <$> ts ->
  (length ts < fuel)%nat ->
  exists k' L', move_pending fuel last k = Some (default last (list.last ts), k') /\ readied Z.leb ts k k' L' /\
    (exists a', L' !! xPendingReadyList = Some a' /\ elems a' = []).
Proof.
  induction fuel as [|fuel IH]; intros ts k L a last HI Ha Hx Hf; [lia|].
  pose proof (inv_core _ _ HI) as HC.
  assert (Hempty : from_lists (listLIST_IS_EMPTY xPendingReadyList) k = Some (bool_decide (elems a = []), k)).
  { unfold from_lists, try_ask. by rewrite (lists_rep_empty _ _ _ _ (co_lists _ _ HC) Ha). }
  destruct ts as [|t ts].
  - rewrite bool_decide_eq_true_2 in Hempty by (by rewrite Hx). exists k, L. split.
    + cbn [move_pending]. by rewrite (bind_run _ _ _ _ _ Hempty).
    + split; [by apply readied_nil|]. by exists a.
  - rewrite bool_decide_eq_false_2 in Hempty by (by rewrite Hx). rewrite fmap_cons in Hx.
    destruct (event_head k L _ a _ _ HI Ha Hx pending_no_state) as (t'&tcb&l0&E0&Ht&Ho&_).
    assert (t' = t) as -> by lia.
    pose proof (rep_nodup _ _ _ (co_lists _ _ HC _ _ Ha)) as Hnd. rewrite Hx in Hnd.
    assert (Hnin : t ∉ ts).
    { intros Hin. apply NoDup_cons in Hnd as [Hnd _]. apply Hnd. apply list_elem_of_fmap. by exists t. }
    destruct (move_one k L a t tcb ts HI Ha Hx Ht Hnin) as (k1&L1&E1&R1&a1&Ha1&Hx1).
    destruct (IH ts k1 L1 a1 t (rd_inv _ _ _ _ _ R1) Ha1 Hx1) as (k2&L2&E2&R2&Hend); [cbn in Hf; lia|].
    exists k2, L2. split; [|split; [|done]].
    + rewrite (move_pending_body _ _ t); [|done|].
      2:{ unfold from_lists, try_ask. by rewrite Ho. }
      rewrite (bind_run _ _ _ _ _ E1), E2. do 2 f_equal.
      destruct ts as [|u ts]; [done|]. rewrite last_cons_cons.
      by destruct (last_is_Some (u :: ts)) as [_ [x ->]].
    + eapply readied_cons; [by intros; exact Hnin|by eexists|exact R1|exact R2].
Qed.

(** [prvResetNextTaskUnblockTime] keeps the invariant. *)
Lemma reset_next_inv k L :
  inv k L -> exists v, prvResetNextTaskUnblockTime k = Some (tt, set_xNextTaskUnblockTime v k) /\
    inv (set_xNextTaskUnblockTime v k) L.
Proof.
  intros [HC HT HA]. destruct (delayed_list_exists _ _ HC) as [[a Ha] _].
  rewrite (prvResetNextTaskUnblockTime_run k L a HC Ha). eexists. split; [done|]. split.
  - eapply core_ext; [exact HC|done..|]. pose proof (co_top _ _ HC). cbn. lia.
  - destruct HT as [T1 T2 T3]. split; [done| |exact T3].
    intros a' Ha'. cbn in Ha'. rewrite Ha in Ha'. injection Ha' as <-. destruct (T2 a Ha) as [Hs Hv].
    split; [done|]. intros x Hx. split; [by apply Hv|]. cbn.
    destruct (elems a) as [|y ys]; [by apply not_elem_of_nil in Hx|].
    unfold sorted_list in Hs. apply StronglySorted_inv in Hs as [_ Hs]. rewrite Forall_forall in Hs.
    apply elem_of_cons in Hx as [->|Hx]; [lia|]. by apply Hs.
  - exact HA.
Qed.

(** Ticks do not make anything pending. *)
Lemma ticked_pending n k k' L L' a :
  inv k L -> L !! xPendingReadyList = Some a -> elems a = [] -> ticked n k k' L' ->
  exists a', L' !! xPendingReadyList = Some a' /\ elems a' = [].
Proof.
  intros HI Ha Hx T. pose proof (inv_core _ _ HI) as HC. pose proof (inv_core _ _ (tk_inv _ _ _ _ T)) as HC'.
  destruct (co_static _ _ HC') as ([a' Ha']&_). exists a'. split; [done|].
  destruct (elems a') as [|x xs] eqn:Ex; [done|]. exfalso.
  destruct (event_head k' L' _ a' x xs (tk_inv _ _ _ _ T) Ha' Ex pending_no_state)
    as (t&tcb&l0&->&Ht&_&Hce&_). rewrite (tk_tcbs _ _ _ _ T) in Ht.
  destruct (tk_tasks _ _ _ _ T t tcb Ht) as [[_ He]|[_ He]]; rewrite Hce in He; [discriminate|].
  symmetry in He. destruct (co_member _ _ HC _ _ He) as (b&Hb&Hin). rewrite Ha in Hb. injection Hb as <-.
  rewrite Hx in Hin. by apply not_elem_of_nil in Hin.
Qed.

(** The last resumption, for the pending tasks [ts]. *)
Lemma resume_inv k L a ts :
  inv k L -> L !! xPendingReadyList = Some a -> elems a = (fun t => 2 * t + 1) <$> ts ->
  0 < uxCurrentNumberOfTasks k -> 0 <= xPendedTicks k < 2 ^ 32 -> uxSchedulerSuspended k = 1 ->
  exists k1 L1 k' L', readied Z.leb ts (set_uxSchedulerSuspended 0 k) k1 L1 /\
    xTaskResumeAll k = Some (xYieldPending k', k') /\
    inv k' L' /\ uxSchedulerSuspended k' = 0 /\ xPendedTicks k' = 0 /\
    tcbs k' = tcbs k /\ pxCurrentTCB k' = pxCurrentTCB k /\
    xTickCount k' = u32 (xTickCount k + xPendedTicks k) /\
    (exists a', L' !! xPendingReadyList = Some a' /\ elems a' = []) /\
    stays_or_wakes k1 k' /\ (xYieldPending k1 = true -> xYieldPending k' = true) /\
    (xPendedTicks k = 0 -> xYieldPending k' = xYieldPending k1).
Proof.
  intros HI Ha Hx Hn Hp Hs.
  set (k0 := set_uxSchedulerSuspended 0 k).
  assert (HI0 : inv k0 L) by (by eapply inv_ext).
  assert (Hlen : pending_length k0 = length ts).
  { unfold pending_length. rewrite (lists_rep_length _ _ _ _ (co_lists _ _ (inv_core _ _ HI0)) Ha), Hx, length_fmap.
    cbn. lia. }
  destruct (move_pending_inv (S (length ts)) ts k0 L a 0 HI0 Ha Hx) as (k1&L1&E1&R1&a1&Ha1&Hx1); [lia|].
  set (moved := default 0 (list.last ts)) in *.
  assert (Hreset : exists k2, when (negb (moved =? 0)) prvResetNextTaskUnblockTime k1 = Some (tt, k2) /\
    inv k2 L1 /\ (exists v, k2 = set_xNextTaskUnblockTime v k1)).
  { destruct (moved =? 0); cbn.
    - exists k1. split; [done|]. split; [apply R1|]. exists (xNextTaskUnblockTime k1). by destruct k1.
    - destruct (reset_next_inv k1 L1 (rd_inv _ _ _ _ _ R1)) as (v&E&HI2). eexists. split; [exact E|]. split; [done|]. by exists v. }
  destruct Hreset as (k2&E2&HI2&v&Ek2).
  assert (F : tcbs k2 = tcbs k /\ pxCurrentTCB k2 = pxCurrentTCB k /\ xTickCount k2 = xTickCount k /\
    uxSchedulerSuspended k2 = 0 /\ xPendedTicks k2 = xPendedTicks k /\ xYieldPending k2 = xYieldPending k1).
  { subst k2. destruct R1 as [_ R2 R3 R4 R5 R6 _ _ _ _]. by cbn in *. }
  destruct F as (F1&F2&F3&F4&F5&F6).
  destruct (unwind_ticks_inv (Z.to_nat (xPendedTicks k)) k2 L1 HI2 F4) as (k3&L3&E3&T).
  rewrite Z2Nat.id in T by lia.
  assert (Hrun : exists k4, (when (0 <? xPendedTicks k)
      (_ ← unwind_ticks (Z.to_nat (xPendedTicks k)); update (set_xPendedTicks 0))) k2 = Some (tt, k4) /\
    (k4 = set_xPendedTicks 0 k3 /\ (xPendedTicks k = 0 -> k3 = k2))).
  { destruct (Z.ltb_spec 0 (xPendedTicks k)); cbn [when].
    - exists (set_xPendedTicks 0 k3). rewrite (bind_run _ _ _ _ _ E3). split; [done|]. split; [done|lia].
    - assert (E0 : xPendedTicks k = 0) by lia. rewrite E0 in *. cbn in E3. injection E3 as <-.
      exists k2. split; [done|]. split; [|done]. destruct k2. cbn in *. by subst. }
  destruct Hrun as (k4&E4&->&Hzero).
  pose proof T as [T1 T2 T3 T4 T5 T6 T7 T8].
  assert (HI4 : inv (set_xPendedTicks 0 k3) L3) by (by eapply inv_ext).
  exists k1, L1, (set_xPendedTicks 0 k3), L3. split; [done|]. split.
  { unfold xTaskResumeAll. rewrite ask_bind, assert_bind by (by rewrite Hs). rewrite update_bind, Hs, !ask_bind.
    change (set_uxSchedulerSuspended (u32 (1 - 1)) k) with k0. cbn [uxSchedulerSuspended uxCurrentNumberOfTasks].
    change (uxSchedulerSuspended k0) with 0. change (uxCurrentNumberOfTasks k0) with (uxCurrentNumberOfTasks k).
    rewrite (proj2 (Z.ltb_lt 0 (uxCurrentNumberOfTasks k)) Hn). cbn [Z.eqb andb]. rewrite ask_bind, Hlen.
    rewrite (bind_run _ _ _ _ _ E1), (bind_run _ _ _ _ _ E2), ask_bind, F5. by rewrite (bind_run _ _ _ _ _ E4). }
  split; [done|]. split; [done|]. split; [done|]. split; [cbn; congruence|]. split; [cbn; congruence|].
  split; [cbn; by rewrite T4, F3|]. split.
  { by apply (ticked_pending (xPendedTicks k) k2 k3 L1 L3 a1). }
  split; [|split].
  - intros t tcb Ht. assert (Ht2 : tcbs k2 !! t = Some tcb).
    { rewrite F1. by rewrite (rd_tcbs _ _ _ _ _ R1) in Ht. }
    specialize (T7 t tcb Ht2). by subst k2.
  - cbn. intros Hy. apply T8. by rewrite F6.
  - intros E0. cbn. by rewrite (Hzero E0), F6.
Qed.

(** C14 — [xTaskResumeAll], with the tasks [ts] on the pending ready list (events woke
    them while the scheduler was suspended): an inner call only counts; the
    outermost one empties that list, makes its tasks ready and keeps them so,
    processes every tick that was held back, so that no time is lost, wakes
    the tasks that these make due and moves no other task, keeps the
    invariant, and reports a yield exactly if one is pending, which is the
    case when a task of [ts] is a match for the running one. *)
Theorem xTaskResumeAll_spec (k : kernel) (L : gmap Z alist) (a : alist) (ts : list Z) :
  inv k L -> L !! xPendingReadyList = Some a -> elems a = (fun t => 2 * t + 1) <$> ts ->
  0 < uxCurrentNumberOfTasks k -> 0 <= xPendedTicks k < 2 ^ 32 -> 0 < uxSchedulerSuspended k < 2 ^ 32 ->
  (1 < uxSchedulerSuspended k ->
   xTaskResumeAll k = Some (false, set_uxSchedulerSuspended (uxSchedulerSuspended k - 1) k)) /\
  (uxSchedulerSuspended k = 1 ->
   exists k' L', xTaskResumeAll k = Some (xYieldPending k', k') /\ inv k' L' /\
     uxSchedulerSuspended k' = 0 /\ xPendedTicks k' = 0 /\
     tcbs k' = tcbs k /\ pxCurrentTCB k' = pxCurrentTCB k /\
     xTickCount k' = u32 (xTickCount k + xPendedTicks k) /\
     (exists a', L' !! xPendingReadyList = Some a' /\ elems a' = []) /\
     (forall t tcb, tcbs k !! t = Some tcb ->
        let ready := cont (task_lists k') (xStateListItem t) = Some (Some (uxPriority tcb)) /\
                     cont (task_lists k') (xEventListItem t) = Some None in
        (t ∈ ts -> ready) /\
        (t ∉ ts -> ready \/
           cont (task_lists k') (xStateListItem t) = cont (task_lists k) (xStateListItem t) /\
           cont (task_lists k') (xEventListItem t) = cont (task_lists k) (xEventListItem t))) /\
     (xYieldPending k = true \/ (exists t, t ∈ ts /\ prio k (pxCurrentTCB k) <= prio k t) ->
        xYieldPending k' = true) /\
     (xPendedTicks k = 0 -> xYieldPending k' = true ->
        xYieldPending k = true \/ exists t, t ∈ ts /\ prio k (pxCurrentTCB k) <= prio k t)).
Proof.
  intros HI Ha Hx Hn Hp Hs. split; intros Hs1.
  - unfold xTaskResumeAll. rewrite ask_bind, assert_bind by (apply negb_true_iff, Z.eqb_neq; lia). rewrite update_bind, !ask_bind.
    cbn [uxSchedulerSuspended set_uxSchedulerSuspended uxCurrentNumberOfTasks].
    rewrite (u32_small (uxSchedulerSuspended k - 1)) by lia.
    by rewrite (proj2 (Z.eqb_neq (uxSchedulerSuspended k - 1) 0)) by lia.
  - destruct (resume_inv k L a ts HI Ha Hx Hn Hp Hs1)
      as (k1&L1&k'&L'&R&E&HI'&E1&E2&E3&E4&E5&Hend&HS&Hy&Hy0).
    destruct R as [R1 R2 R3 R4 R5 R6 R0 R7 R8 R9]. cbn in R2, R9.
    assert (Hyield : xYieldPending k1 = true <->
      xYieldPending k = true \/ (exists t, t ∈ ts /\ prio k (pxCurrentTCB k) <= prio k t)).
    { rewrite R9, orb_true_iff, existsb_exists. unfold prio. cbn. split; intros [?|(t&H1&H2)]; auto; right; exists t;
        rewrite ?Z.leb_le, ?list_elem_of_In in *; done. }
    exists k', L'. split_and!; try done; [|intros H; by apply Hy, Hyield|intros H0 H; apply Hyield; by rewrite <- Hy0].
    intros t tcb Ht ready. assert (Ht1 : tcbs k1 !! t = Some tcb) by (by rewrite R2). split; intros Hin.
    + destruct (R7 t tcb Hin Ht) as [H1 H2]. destruct (HS t tcb Ht1) as [?|[H3 H4]]; [done|].
      split; congruence.
    + destruct (HS t tcb Ht1) as [?|[H3 H4]]; [by left|right]. rewrite H3, H4. unfold xStateListItem, xEventListItem.
      rewrite !R8; [done| |]; intros u Hu; (assert (u <> t) by (by intros ->)); lia.
Qed.

(** While task 3 holds the scheduler suspended, an interrupt wakes task 4 and
    two ticks pass. *)
Definition resuming : kernel :=
  run_k (_ ← vTaskSuspendAll; _ ← xTaskRemoveFromEventList 100; _ ← xTaskIncrementTick; xTaskIncrementTick) two_wait.

Lemma inv_resuming : inv resuming (read_lists (task_lists resuming)).
Proof. apply invb_ok. by vm_compute. Qed.

Lemma resuming_pending : read_lists (task_lists resuming) !! xPendingReadyList = Some (mkAList [9] 0).
Proof. by vm_compute. Qed.

Lemma xTaskResumeAll_spec_witness :
  exists k', xTaskResumeAll resuming = Some (true, k') /\ xTickCount k' = 2 /\
    cont (task_lists k') (xStateListItem 4) = Some (Some 5).
Proof.
  destruct (xTaskResumeAll_spec resuming _ _ [4] inv_resuming resuming_pending eq_refl) as [_ H];
    [by vm_compute..|].
  destruct H as (k'&L'&E&_&_&_&_&_&Ek&_&Ht&Hy&_); [by vm_compute|].
  exists k'. assert (Hp : xYieldPending k' = true).
  { apply Hy. right. exists 4. split; [left|]. by vm_compute. }
  rewrite Hp in E. split; [exact E|]. split; [rewrite Ek; by vm_compute|].
  destruct (Ht 4 (mkTCB 5 5 0 0 taskNOT_WAITING_NOTIFICATION)) as [H _]; [by vm_compute|].
  apply H. left.
Defined.
