(* ===== verification/Sched.v ===== *)
(** * What the scheduler promises to its clients

    The queues (and everything built on them) call the scheduler to wake, to
    block and to re-prioritise tasks.  [Scheduler] is the interface they are
    written against: the operations of tasks.c that they call, on a state [S];
    [SchedulerLaws] is what they may rely on: the waiters of every event list
    as a sequence, and what waking one does to it.  tasks.c is an instance
    (file [SchedTasks]). *)
From S2P Require Import Prelude Tasks.
Open Scope Z_scope.

Class Scheduler (S : Type) := {
  (** [listLIST_IS_EMPTY], [listCURRENT_LIST_LENGTH], [listGET_ITEM_VALUE_OF_HEAD_ENTRY] and
      [vListInitialise] of an event list *)
  ev_empty : Z -> prog S bool;
  ev_length : Z -> prog S Z;
  ev_head_value : Z -> prog S Z;
  ev_initialise : Z -> prog S unit;
  (** [xTaskRemoveFromEventList] *)
  ev_remove : Z -> prog S bool;
  (** [vTaskPlaceOnEventList] and its restricted variant *)
  ev_place : Z -> Z -> prog S unit;
  ev_place_restricted : Z -> Z -> bool -> prog S unit;
  (** [vTaskSuspendAll], [xTaskResumeAll], [vTaskMissedYield] *)
  sc_suspend : prog S unit;
  sc_resume : prog S bool;
  sc_missed_yield : prog S unit;
  (** [uxTaskGetNumberOfTasks], [xTaskGetCurrentTaskHandle], [xTaskGetSchedulerState] *)
  sc_tasks : prog S Z;
  sc_state : prog S eSchedulerState;
  sc_current : prog S Z;
  (** [vTaskInternalSetTimeOutState], [xTaskCheckForTimeOut] *)
  sc_set_time_out : prog S TimeOut_t;
  sc_check_time_out : TimeOut_t -> Z -> prog S (bool * TimeOut_t * Z);
  (** [pvTaskIncrementMutexHeldCount], [xTaskPriorityInherit],
      [xTaskPriorityDisinherit], [vTaskPriorityDisinheritAfterTimeout] *)
  sc_count_mutex : prog S Z;
  sc_inherit : Z -> prog S bool;
  sc_disinherit : Z -> prog S bool;
  sc_disinherit_timeout : Z -> Z -> prog S unit
}.

(** [sched_ok s]: the scheduler's own invariant; [waits s l ts]: the tasks [ts]
    wait on event list [l], in the order in which they will be woken;
    [can_block s t]: the running task [t] is fit to wait for something. *)
Class SchedulerLaws (S : Type) `{!Scheduler S} := {
  sched_ok : S -> Prop;
  waits : S -> Z -> list Z -> Prop;
  can_block : S -> Z -> Prop;
  law_empty s l ts : sched_ok s -> waits s l ts -> ev_empty l s = Some (bool_decide (ts = []), s);
  law_length s l ts : sched_ok s -> waits s l ts -> ev_length l s = Some (Z.of_nat (length ts), s);
  law_remove s l t ts : sched_ok s -> waits s l (t :: ts) ->
    exists b s', ev_remove l s = Some (b, s') /\ sched_ok s' /\ waits s' l ts /\
      (forall l' ts', l' <> l -> waits s l' ts' -> waits s' l' ts');
  law_place s l ts t n : sched_ok s -> can_block s t -> waits s l ts -> 0 < n < 2 ^ 32 ->
    exists s' us vs, ev_place l n s = Some (tt, s') /\ sched_ok s' /\
      ts = us ++ vs /\ waits s' l (us ++ t :: vs) /\
      (forall l' ts', l' <> l -> waits s l' ts' -> waits s' l' ts');
  law_missed_yield s : sched_ok s ->
    exists s', sc_missed_yield s = Some (tt, s') /\ sched_ok s' /\
      (forall l ts, waits s l ts -> waits s' l ts);
  law_tasks s : sched_ok s -> exists n, sc_tasks s = Some (n, s);
  law_state s : sched_ok s -> exists st, sc_state s = Some (st, s);
  law_set_time_out s : sched_ok s -> exists t, sc_set_time_out s = Some (t, s)
}.
