(* ===== verification/SchedTasks.v ===== *)
(** * tasks.c as a scheduler

    The operations of tasks.c behind the interface [Scheduler], and the proof
    that they keep its laws. *)
From S2P Require Import Prelude KList Tasks TasksInv TasksOps Sched.
Open Scope Z_scope.

#[export] Instance kernel_scheduler : Scheduler kernel := {
  ev_empty l := from_lists (listLIST_IS_EMPTY l);
  ev_length l := from_lists (listCURRENT_LIST_LENGTH l);
  ev_head_value l := from_lists (listGET_ITEM_VALUE_OF_HEAD_ENTRY l);
  ev_initialise l := update (fun k => set_task_lists (vListInitialise l (task_lists k)) k);
  ev_remove := xTaskRemoveFromEventList;
  ev_place := vTaskPlaceOnEventList;
  ev_place_restricted := vTaskPlaceOnEventListRestricted;
  sc_suspend := vTaskSuspendAll;
  sc_resume := xTaskResumeAll;
  sc_missed_yield := vTaskMissedYield;
  sc_tasks := uxTaskGetNumberOfTasks;
  sc_state := xTaskGetSchedulerState;
  sc_current := ask pxCurrentTCB;
  sc_set_time_out := vTaskInternalSetTimeOutState;
  sc_check_time_out := xTaskCheckForTimeOut;
  sc_count_mutex := pvTaskIncrementMutexHeldCount;
  sc_inherit := xTaskPriorityInherit;
  sc_disinherit := xTaskPriorityDisinherit;
  sc_disinherit_timeout := vTaskPriorityDisinheritAfterTimeout
}.

(** ** What a store determines *)

Lemma lseg_unique s p xs ys q :
  lseg s p xs q -> lseg s p ys q -> length xs = length ys -> xs = ys.
Proof.
  revert p ys; induction xs as [|x xs IH]; intros p [|y ys]; cbn; try done.
  intros (H1&_&H2) (H3&_&H4) [= E]. rewrite H1 in H3. injection H3 as <-. f_equal. by eapply IH.
Qed.

Lemma list_rep_elems s l a a' : list_rep s l a -> list_rep s l a' -> elems a = elems a'.
Proof.
  intros R R'. destruct (rep_list _ _ _ R) as (i&E&_), (rep_list _ _ _ R') as (i'&E'&_).
  rewrite E in E'. injection E' as El _. apply Nat2Z.inj in El.
  pose proof (lseg_unique _ _ _ _ _ (rep_seg _ _ _ R) (rep_seg _ _ _ R')) as H.
  rewrite !length_fmap in H. specialize (H El).
  assert (Inj eq eq Item) by (by intros ?? [= ->]). by apply list_fmap_eq_inj in H.
Qed.

(** A list header that the invariant does not know yet may join it. *)
Lemma inv_extend k L l a :
  inv k L -> list_rep (task_lists k) l a -> ~ holds_states l ->
  exists L' a', inv k L' /\ L' !! l = Some a' /\ elems a' = elems a /\
    (forall l' b, L !! l' = Some b -> L' !! l' = Some b).
Proof.
  intros HI R Hl. destruct (L !! l) as [a'|] eqn:El.
  { exists L, a'. split_and!; try done. apply (list_rep_elems (task_lists k) l); [|done].
    by apply (co_lists _ _ (inv_core _ _ HI)). }
  assert (Hnil : elems a = []).
  { destruct (elems a) as [|x xs] eqn:Ex; [done|].
    assert (Hc : cont (task_lists k) (Item x) = Some (Some l)) by (apply (rep_cont _ _ _ R); rewrite Ex; left).
    destruct (co_member _ _ (inv_core _ _ HI) _ _ Hc) as (b&Hb&_). congruence. }
  assert (Hkeep : forall l' b, L !! l' = Some b -> <[l := a]> L !! l' = Some b).
  { intros l' b Hb. rewrite lookup_insert_ne; [done|]. intros ->. congruence. }
  exists (<[l := a]> L), a. split; [|split; [apply lookup_insert_eq|done]].
  destruct HI as [HC HT HA]. split; [|destruct HT as [T1 T2 T3]; split; [done| |]|done].
  - destruct HC as [C1 C2 C3 C4 C5 C6 C7 C8 C9 C10 C11 C12]. split; try done.
    + intros l' b. rewrite lookup_insert. case_decide as E; [|by apply C1]. by intros [= <-]; subst.
    + intros x l' Hc. destruct (C2 x l' Hc) as (b&Hb&Hx). exists b. auto.
    + intros l' b x. rewrite lookup_insert. case_decide as E; [|by apply C3].
      intros [= <-]. rewrite Hnil. intros Hx. by apply not_elem_of_nil in Hx.
    + intros p Hp. destruct (C7 p Hp) as [b Hb]. exists b. auto.
    + destruct C8 as ([b1 H1]&[b2 H2]&[b3 H3]&[b4 H4]). split_and!; eexists; by apply Hkeep.
    + split; [tauto|]. intros p b Hp. rewrite lookup_insert. case_decide as E; [|by apply C12].
      intros [= <-]. by rewrite Hnil.
  - intros b. rewrite lookup_insert. case_decide as E; [|by apply T2]. exfalso. apply Hl. rewrite E.
    right. by apply (delayed_is_state k L).
  - intros b. rewrite lookup_insert. case_decide as E; [|by apply T3]. exfalso. apply Hl. rewrite E.
    right. apply (delayed_holds k L); [done|by right].
Qed.

(** ** The laws *)

Definition kernel_ok (k : kernel) : Prop := exists L, inv k L.

Definition event_item (t : Z) : Z := 2 * t + 1.

Definition kernel_waits (k : kernel) (l : Z) (ts : list Z) : Prop :=
  event_list l /\ exists a, list_rep (task_lists k) l a /\ elems a = event_item <$> ts.

Lemma kernel_waits_known k L l ts :
  inv k L -> kernel_waits k l ts ->
  exists L' a, inv k L' /\ L' !! l = Some a /\ elems a = event_item <$> ts /\
    (forall l' b, L !! l' = Some b -> L' !! l' = Some b).
Proof.
  intros HI ([Hl Hlp]&a&R&Ha). destruct (inv_extend k L l a HI R Hl) as (L'&a'&HI'&Hl'&He&Hk).
  exists L', a'. rewrite He. done.
Qed.

Lemma kernel_remove k l t ts :
  kernel_ok k -> kernel_waits k l (t :: ts) ->
  exists b k', xTaskRemoveFromEventList l k = Some (b, k') /\ kernel_ok k' /\ kernel_waits k' l ts /\
    (forall l' ts', l' <> l -> kernel_waits k l' ts' -> kernel_waits k' l' ts').
Proof.
  intros [L0 HI0] Hw. destruct (kernel_waits_known k L0 l _ HI0 Hw) as (L&a&HI&Ha&Hel&_).
  destruct Hw as [[Hl Hlp] _]. cbn in Hel.
  assert (Hrun : forall L1, inv k L1 -> L1 !! l = Some a ->
    exists k1 L2, let b := prio k (pxCurrentTCB k) <? prio k t in
      xTaskRemoveFromEventList l k = Some (b, if b then set_xYieldPending true k1 else k1) /\
      inv k1 L2 /\ L2 !! l = Some (aremove 0 a) /\
      (forall l', event_list l' -> l' <> l -> L2 !! l' = L1 !! l')).
  { intros L1 HI1 Ha1.
    destruct (remove_from_event_inv k L1 l a _ _ HI1 Ha1 Hel Hl Hlp) as (t'&tcb&k1&L2&Ht'&Htcb&UB&E&Hla&Hlo).
    assert (t' = t) as -> by (unfold event_item in Ht'; lia).
    exists k1, L2. cbv zeta. rewrite (prio_get _ _ _ Htcb). split; [done|].
    split; [apply UB|]. split; [done|]. intros l' [H1 H2] H3. by apply Hlo. }
  destruct (Hrun L HI Ha) as (k1&L1&E1&HI1&Hl1&Hlo1). cbv zeta in E1.
  set (b := prio k (pxCurrentTCB k) <? prio k t) in *.
  assert (Hext : forall L2, inv k1 L2 -> inv (if b then set_xYieldPending true k1 else k1) L2).
  { intros L2 H. destruct b; [by eapply inv_ext|done]. }
  assert (Hlists : task_lists (if b then set_xYieldPending true k1 else k1) = task_lists k1) by (by destruct b).
  exists b, (if b then set_xYieldPending true k1 else k1). split; [done|]. split; [eexists; by apply Hext|].
  split.
  - split; [done|]. rewrite Hlists. exists (aremove 0 a).
    split; [by apply (co_lists _ _ (inv_core _ _ HI1))|]. by eapply aremove_head.
  - intros l' ts' Hne Hw'. destruct (kernel_waits_known k L l' ts' HI Hw') as (L2&a'&HI2&Ha'&_&Hk2).
    destruct (Hrun L2 HI2 (Hk2 _ _ Ha)) as (k1'&L3&E3&HI3&_&Hlo3). cbv zeta in E3. fold b in E3.
    rewrite E1 in E3. assert (Hlists3 : task_lists k1' = task_lists k1).
    { injection E3 as E3. rewrite <- Hlists, E3. by destruct b. }
    destruct Hw' as (He'&a2&R2&Ha2). split; [done|]. rewrite Hlists, <- Hlists3.
    exists a'. split.
    + apply (co_lists _ _ (inv_core _ _ HI3)). by rewrite Hlo3.
    + rewrite <- Ha2. apply (list_rep_elems (task_lists k) l'); [|done].
      by apply (co_lists _ _ (inv_core _ _ HI2)).
Qed.

Lemma kernel_place k l ts t n :
  kernel_ok k -> (t = pxCurrentTCB k /\ exists cur, running k cur) -> kernel_waits k l ts ->
  0 < n < 2 ^ 32 ->
  exists k' us vs, vTaskPlaceOnEventList l n k = Some (tt, k') /\ kernel_ok k' /\
    ts = us ++ vs /\ kernel_waits k' l (us ++ t :: vs) /\
    (forall l' ts', l' <> l -> kernel_waits k l' ts' -> kernel_waits k' l' ts').
Proof.
  intros [L0 HI0] [-> [cur [R1 R2 R3 _]]] Hw Hn.
  destruct (kernel_waits_known k L0 l _ HI0 Hw) as (L&a&HI&Ha&Hel&_). destruct Hw as [[Hl Hlp] _].
  destruct (place_on_event_inv k L cur l a n HI R1 R2 R3 Ha Hl Hn) as (k'&L'&E&_&HI'&Hl'&Hlo&_).
  set (m := sorted_position _ _ _) in Hl'.
  exists k', (take m ts), (drop m ts). split; [done|]. split; [by eexists|].
  split; [by rewrite take_drop|]. split.
  - split; [done|]. eexists. split; [by apply (co_lists _ _ (inv_core _ _ HI'))|]. cbn.
    rewrite Hel, fmap_app, fmap_cons, <- fmap_take, <- fmap_drop. done.
  - intros l' ts' Hne Hw'. destruct (kernel_waits_known k L l' ts' HI Hw') as (L2&a'&HI2&Ha'&_&Hk2).
    destruct (place_on_event_inv k L2 cur l a n HI2 R1 R2 R3 (Hk2 _ _ Ha) Hl Hn)
      as (k2&L3&E3&_&HI3&_&Hlo3&_). rewrite E in E3. injection E3 as <-.
    destruct Hw' as ([He1 He2]&a2&R&Ha2). split; [done|]. exists a'. split.
    + apply (co_lists _ _ (inv_core _ _ HI3)). by rewrite Hlo3.
    + rewrite <- Ha2. apply (list_rep_elems (task_lists k) l'); [|done].
      by apply (co_lists _ _ (inv_core _ _ HI2)).
Qed.

Lemma kernel_empty k l ts :
  kernel_ok k -> kernel_waits k l ts -> ev_empty l k = Some (bool_decide (ts = []), k).
Proof.
  intros [L HI] Hw. destruct (kernel_waits_known k L l ts HI Hw) as (L'&a&HI'&Ha&Hel&_).
  cbn. unfold from_lists, try_ask. rewrite (lists_rep_empty _ _ _ _ (co_lists _ _ (inv_core _ _ HI')) Ha).
  cbn. do 2 f_equal. apply bool_decide_ext. rewrite Hel. by destruct ts.
Qed.

Lemma kernel_length k l ts :
  kernel_ok k -> kernel_waits k l ts -> ev_length l k = Some (Z.of_nat (length ts), k).
Proof.
  intros [L HI] Hw. destruct (kernel_waits_known k L l ts HI Hw) as (L'&a&HI'&Ha&Hel&_).
  cbn. unfold from_lists, try_ask. rewrite (lists_rep_length _ _ _ _ (co_lists _ _ (inv_core _ _ HI')) Ha).
  cbn. by rewrite Hel, length_fmap.
Qed.

Lemma kernel_missed_yield k :
  kernel_ok k -> exists k', sc_missed_yield k = Some (tt, k') /\ kernel_ok k' /\
    (forall l ts, kernel_waits k l ts -> kernel_waits k' l ts).
Proof.
  intros [L HI]. exists (set_xYieldPending true k). split; [done|]. split; [|done].
  exists L. by eapply inv_ext.
Qed.

Lemma kernel_tasks k : kernel_ok k -> exists n, sc_tasks k = Some (n, k).
Proof. intros _. by eexists. Qed.

Lemma kernel_state k : kernel_ok k -> exists st, sc_state k = Some (st, k).
Proof. intros _. cbn. unfold xTaskGetSchedulerState. rewrite ask_bind. destruct (negb _); [by eexists|]. rewrite ask_bind. by eexists. Qed.

Lemma kernel_set_time_out k : kernel_ok k -> exists t, sc_set_time_out k = Some (t, k).
Proof. intros _. by eexists. Qed.

#[export] Instance kernel_laws : SchedulerLaws kernel := {|
  sched_ok := kernel_ok;
  waits := kernel_waits;
  can_block k t := t = pxCurrentTCB k /\ exists cur, running k cur;
  law_empty := kernel_empty;
  law_length := kernel_length;
  law_remove := kernel_remove;
  law_place k l ts t n := kernel_place k l ts t n;
  law_missed_yield := kernel_missed_yield;
  law_tasks := kernel_tasks;
  law_state := kernel_state;
  law_set_time_out := kernel_set_time_out
|}.
