(* ===== verification/Queue.v ===== *)
(** * Queues, semaphores and mutexes

    Model of src/FreeRTOS/FreeRTOS-Kernel/queue.c (no queue sets, no static
    allocation, no co-routines).  The control block of the queue is a record,
    its storage is memory, and the scheduler is any implementation of
    [Scheduler].  A queue function that may block is cut into its atomic
    parts: the critical section that tries ([..._try]) and the part that runs
    with the scheduler suspended ([..._wait]); other tasks and interrupts run
    between them. *)
From S2P Require Import Prelude Mem Tasks Sched.
Open Scope Z_scope.

(** ** Data

    [pcTail] is also [u.xSemaphore.xMutexHolder], and [pcReadFrom] is also
    [u.xSemaphore.uxRecursiveCallCount], as in the union of the C structure. *)
Record Queue_t := mkQueue {
  pcHead : Z;
  pcWriteTo : Z;
  pcTail : Z;
  pcReadFrom : Z;
  xTasksWaitingToSend : Z;
  xTasksWaitingToReceive : Z;
  uxMessagesWaiting : Z;
  uxLength : Z;
  uxItemSize : Z;
  cRxLock : Z;
  cTxLock : Z
}.

Definition queueUNLOCKED : Z := -1.
Definition queueLOCKED_UNMODIFIED : Z := 0.
Definition queueINT8_MAX : Z := 127.

Inductive xCopyPosition_t := queueSEND_TO_BACK | queueSEND_TO_FRONT | queueOVERWRITE.

#[export] Instance xCopyPosition_eq_dec : EqDecision xCopyPosition_t.
Proof. solve_decision. Defined.

(** [uxQueueType == queueQUEUE_IS_MUTEX]: the head pointer is null. *)
Definition is_mutex (q : Queue_t) : bool := pcHead q =? 0.

Definition set_head (v : Z) (q : Queue_t) : Queue_t :=
  mkQueue v (pcWriteTo q) (pcTail q) (pcReadFrom q) (xTasksWaitingToSend q) (xTasksWaitingToReceive q)
    (uxMessagesWaiting q) (uxLength q) (uxItemSize q) (cRxLock q) (cTxLock q).
Definition set_write_to (v : Z) (q : Queue_t) : Queue_t :=
  mkQueue (pcHead q) v (pcTail q) (pcReadFrom q) (xTasksWaitingToSend q) (xTasksWaitingToReceive q)
    (uxMessagesWaiting q) (uxLength q) (uxItemSize q) (cRxLock q) (cTxLock q).
Definition set_tail (v : Z) (q : Queue_t) : Queue_t :=
  mkQueue (pcHead q) (pcWriteTo q) v (pcReadFrom q) (xTasksWaitingToSend q) (xTasksWaitingToReceive q)
    (uxMessagesWaiting q) (uxLength q) (uxItemSize q) (cRxLock q) (cTxLock q).
Definition set_read_from (v : Z) (q : Queue_t) : Queue_t :=
  mkQueue (pcHead q) (pcWriteTo q) (pcTail q) v (xTasksWaitingToSend q) (xTasksWaitingToReceive q)
    (uxMessagesWaiting q) (uxLength q) (uxItemSize q) (cRxLock q) (cTxLock q).
Definition set_messages (v : Z) (q : Queue_t) : Queue_t :=
  mkQueue (pcHead q) (pcWriteTo q) (pcTail q) (pcReadFrom q) (xTasksWaitingToSend q) (xTasksWaitingToReceive q)
    v (uxLength q) (uxItemSize q) (cRxLock q) (cTxLock q).
Definition set_sizes (len size : Z) (q : Queue_t) : Queue_t :=
  mkQueue (pcHead q) (pcWriteTo q) (pcTail q) (pcReadFrom q) (xTasksWaitingToSend q) (xTasksWaitingToReceive q)
    (uxMessagesWaiting q) len size (cRxLock q) (cTxLock q).
Definition set_rx_lock (v : Z) (q : Queue_t) : Queue_t :=
  mkQueue (pcHead q) (pcWriteTo q) (pcTail q) (pcReadFrom q) (xTasksWaitingToSend q) (xTasksWaitingToReceive q)
    (uxMessagesWaiting q) (uxLength q) (uxItemSize q) v (cTxLock q).
Definition set_tx_lock (v : Z) (q : Queue_t) : Queue_t :=
  mkQueue (pcHead q) (pcWriteTo q) (pcTail q) (pcReadFrom q) (xTasksWaitingToSend q) (xTasksWaitingToReceive q)
    (uxMessagesWaiting q) (uxLength q) (uxItemSize q) (cRxLock q) v.

(** What one queue function works on: the scheduler, the memory, its queue. *)
Record qsys (S : Type) := mkQsys { q_sched : S; q_mem : mem; q_queue : Queue_t }.
Arguments mkQsys {S}. Arguments q_sched {S}. Arguments q_mem {S}. Arguments q_queue {S}.

(** The value of a signed byte. *)
Definition s8 (z : Z) : Z := if u8 z <? 128 then u8 z else u8 z - 256.

(** Where a call of a function that may block stands: before its next critical
    section ([xEntryTimeSet] holds the time-out once it is set), before the
    part with the scheduler suspended, or after its wait has timed out.
    [Disinherit] is the last critical section of [xQueueSemaphoreTake]. *)
Inductive call :=
  | Try (xEntryTimeSet : option TimeOut_t) (xTicksToWait : Z)
  | Wait (xTimeOut : TimeOut_t) (xTicksToWait : Z)
  | TimedOut (xTimeOut : TimeOut_t) (xTicksToWait : Z)
  | Disinherit.

(** What a part of a call leads to. *)
Inductive outcome := Returns (xReturn : bool) | Continue (c : call).

Section queue.
Context {S : Type} `{!Scheduler S}.

Abbreviation Q := (prog (qsys S)).

Definition sched {A} (p : prog S A) : Q A :=
  fun x => '(r, s) ← p (q_sched x); Some (r, mkQsys s (q_mem x) (q_queue x)).
Definition set_queue (f : Queue_t -> Queue_t) : Q unit :=
  update (fun x => mkQsys (q_sched x) (q_mem x) (f (q_queue x))).
Definition on_mem (f : mem -> option mem) : Q unit :=
  try_update (fun x => m ← f (q_mem x); Some (mkQsys (q_sched x) m (q_queue x))).
Definition get_queue : Q Queue_t := ask q_queue.

(** ** Creation and reset *)

(** Returns success and whether it yields; failure stops in an assertion. *)
Definition xQueueGenericReset (xNewQueue : bool) : Q (bool * bool) :=
  q ← get_queue;
  if (1 <=? uxLength q) && (uxItemSize q <=? (2 ^ 32 - 1) / uxLength q) then
    _ ← set_queue (fun q => set_tail (pcHead q + uxLength q * uxItemSize q) q);
    _ ← set_queue (set_messages 0);
    _ ← set_queue (fun q => set_write_to (pcHead q) q);
    _ ← set_queue (fun q => set_read_from (pcHead q + (uxLength q - 1) * uxItemSize q) q);
    _ ← set_queue (set_rx_lock queueUNLOCKED);
    _ ← set_queue (set_tx_lock queueUNLOCKED);
    if xNewQueue then
      _ ← sched (ev_initialise (xTasksWaitingToSend q));
      _ ← sched (ev_initialise (xTasksWaitingToReceive q));
      mret (true, false)
    else
      empty ← sched (ev_empty (xTasksWaitingToSend q));
      if (empty : bool) then mret (true, false)
      else y ← sched (ev_remove (xTasksWaitingToSend q)); mret (true, y)
  else _ ← configASSERT false; mret (false, false).

(** [pxNewQueue] is the address of the control block, [pucQueueStorage] that of
    the storage. *)
Definition prvInitialiseNewQueue (uxQueueLength uxItemSize pucQueueStorage pxNewQueue : Z) : Q unit :=
  _ ← set_queue (set_head (if uxItemSize =? 0 then pxNewQueue else pucQueueStorage));
  _ ← set_queue (set_sizes uxQueueLength uxItemSize);
  _ ← xQueueGenericReset true;
  mret tt.

(** The size that [xQueueGenericCreate] asks the heap for, [None] when it
    refuses and stops in an assertion; [sizeof_queue] is the compiler's
    [sizeof( Queue_t )]. *)
Definition queue_allocation (sizeof_queue uxQueueLength uxItemSize : Z) : option Z :=
  if (0 <? uxQueueLength) && (uxItemSize <=? (2 ^ 32 - 1) / uxQueueLength) &&
     (u32 (uxQueueLength * uxItemSize) <=? 2 ^ 32 - 1 - sizeof_queue)
  then Some (u32 (sizeof_queue + uxQueueLength * uxItemSize)) else None.

(** ** The storage *)

(** Returns whether a mutex's holder lost an inherited priority. *)
Definition prvCopyDataToQueue (pvItemToQueue : Z) (xPosition : xCopyPosition_t) : Q bool :=
  q ← get_queue;
  let n := uxMessagesWaiting q in
  let size := uxItemSize q in
  if size =? 0 then
    xReturn ← (if is_mutex q then
                 r ← sched (sc_disinherit (pcTail q));
                 _ ← set_queue (set_tail 0);
                 mret r
               else mret false);
    _ ← set_queue (set_messages (u32 (n + 1)));
    mret xReturn
  else if decide (xPosition = queueSEND_TO_BACK) then
    _ ← on_mem (memcpy (pcWriteTo q) pvItemToQueue (Z.to_nat size));
    _ ← set_queue (fun q => set_write_to (pcWriteTo q + size) q);
    _ ← set_queue (fun q => if pcTail q <=? pcWriteTo q then set_write_to (pcHead q) q else q);
    _ ← set_queue (set_messages (u32 (n + 1)));
    mret false
  else
    _ ← on_mem (memcpy (pcReadFrom q) pvItemToQueue (Z.to_nat size));
    _ ← set_queue (fun q => set_read_from (pcReadFrom q - size) q);
    _ ← set_queue (fun q => if pcReadFrom q <? pcHead q then set_read_from (pcTail q - size) q else q);
    let n := if decide (xPosition = queueOVERWRITE) then (if 0 <? n then n - 1 else n) else n in
    _ ← set_queue (set_messages (u32 (n + 1)));
    mret false.

Definition prvCopyDataFromQueue (pvBuffer : Z) : Q unit :=
  q ← get_queue;
  let size := uxItemSize q in
  if negb (size =? 0) then
    _ ← set_queue (fun q => set_read_from (pcReadFrom q + size) q);
    _ ← set_queue (fun q => if pcTail q <=? pcReadFrom q then set_read_from (pcHead q) q else q);
    q ← get_queue;
    on_mem (memcpy pvBuffer (pcReadFrom q) (Z.to_nat size))
  else mret tt.

(** Wake the first waiter of an event list, if any; [otherwise] is the result
    when there is none. *)
Definition wake_one (l : Z) (otherwise : bool) : Q bool :=
  empty ← sched (ev_empty l);
  if negb empty then sched (ev_remove l) else mret otherwise.

(** ** Locking *)

Definition prvLockQueue : Q unit :=
  _ ← set_queue (fun q => if cRxLock q =? queueUNLOCKED then set_rx_lock queueLOCKED_UNMODIFIED q else q);
  set_queue (fun q => if cTxLock q =? queueUNLOCKED then set_tx_lock queueLOCKED_UNMODIFIED q else q).

(** The counts are signed bytes, compared as 32-bit unsigned numbers. *)
Definition prvIncrementQueueTxLock (lock : Z) : Q unit :=
  n ← sched sc_tasks;
  when (u32 lock <? n)
    (_ ← configASSERT (negb (lock =? queueINT8_MAX)); set_queue (set_tx_lock (s8 (lock + 1)))).
Definition prvIncrementQueueRxLock (lock : Z) : Q unit :=
  n ← sched sc_tasks;
  when (u32 lock <? n)
    (_ ← configASSERT (negb (lock =? queueINT8_MAX)); set_queue (set_rx_lock (s8 (lock + 1)))).

(** The two loops of [prvUnlockQueue]: at most [count] tasks are woken. *)
Fixpoint unlock_loop (count : nat) (l : Z) : Q unit :=
  match count with
  | O => mret tt
  | Datatypes.S count' =>
      empty ← sched (ev_empty l);
      if negb empty then
        y ← sched (ev_remove l);
        _ ← when y (sched sc_missed_yield);
        unlock_loop count' l
      else mret tt
  end.

Definition prvUnlockQueue : Q unit :=
  q ← get_queue;
  _ ← unlock_loop (Z.to_nat (cTxLock q)) (xTasksWaitingToReceive q);
  _ ← set_queue (set_tx_lock queueUNLOCKED);
  q ← get_queue;
  _ ← unlock_loop (Z.to_nat (cRxLock q)) (xTasksWaitingToSend q);
  set_queue (set_rx_lock queueUNLOCKED).

Definition prvIsQueueEmpty : Q bool := q ← get_queue; mret (uxMessagesWaiting q =? 0).
Definition prvIsQueueFull : Q bool := q ← get_queue; mret (uxMessagesWaiting q =? uxLength q).
Definition xQueueIsQueueEmptyFromISR : Q bool := q ← get_queue; mret (uxMessagesWaiting q =? 0).
Definition xQueueIsQueueFullFromISR : Q bool := q ← get_queue; mret (uxMessagesWaiting q =? uxLength q).
Definition uxQueueMessagesWaiting : Q Z := q ← get_queue; mret (uxMessagesWaiting q).
Definition uxQueueMessagesWaitingFromISR : Q Z := q ← get_queue; mret (uxMessagesWaiting q).
Definition uxQueueSpacesAvailable : Q Z := q ← get_queue; mret (u32 (uxLength q - uxMessagesWaiting q)).

(** ** What the calls assert on entry

    A call begins with [Try None]: its time-out is not set yet. *)

Definition on_entry (xEntryTimeSet : option TimeOut_t) (p : Q unit) : Q unit :=
  match xEntryTimeSet with None => p | Some _ => mret tt end.

(** An item of some size is at a pointer that is not null. *)
Definition assert_item (pv : Z) : Q unit :=
  q ← get_queue; configASSERT (negb ((pv =? 0) && negb (uxItemSize q =? 0))).

(** Only a queue of one item can be overwritten. *)
Definition assert_position (xCopyPosition : xCopyPosition_t) : Q unit :=
  q ← get_queue; configASSERT (negb (bool_decide (xCopyPosition = queueOVERWRITE) && negb (uxLength q =? 1))).

(** A call may not wait while the scheduler is suspended. *)
Definition assert_may_wait (xTicksToWait : Z) : Q unit :=
  state ← sched sc_state;
  configASSERT (negb (bool_decide (state = taskSCHEDULER_SUSPENDED) && negb (xTicksToWait =? 0))).

(** ** Sending *)

(** The part of a call that finds no room or no message: give up at once, or
    note the time and go on to wait. *)
Definition no_luck (xEntryTimeSet : option TimeOut_t) (xTicksToWait : Z) : Q (outcome * bool) :=
  if xTicksToWait =? 0 then mret (Returns false, false)
  else
    t ← match xEntryTimeSet with Some t => mret t | None => sched sc_set_time_out end;
    mret (Continue (Wait t xTicksToWait), false).

(** The results are the outcome and whether it yields. *)
Definition xQueueGenericSend_try (pvItemToQueue : Z) (xCopyPosition : xCopyPosition_t)
  (xEntryTimeSet : option TimeOut_t) (xTicksToWait : Z) : Q (outcome * bool) :=
  _ ← on_entry xEntryTimeSet
        (_ ← assert_item pvItemToQueue; _ ← assert_position xCopyPosition; assert_may_wait xTicksToWait);
  q ← get_queue;
  if (uxMessagesWaiting q <? uxLength q) || bool_decide (xCopyPosition = queueOVERWRITE) then
    xYieldRequired ← prvCopyDataToQueue pvItemToQueue xCopyPosition;
    y ← wake_one (xTasksWaitingToReceive q) xYieldRequired;
    mret (Returns true, y)
  else no_luck xEntryTimeSet xTicksToWait.

(** Leave the part that runs with the scheduler suspended. *)
Definition unlock_and_resume : Q bool := _ ← prvUnlockQueue; sched sc_resume.

Definition xQueueGenericSend_wait (xTimeOut : TimeOut_t) (xTicksToWait : Z) : Q (outcome * bool) :=
  _ ← sched sc_suspend;
  _ ← prvLockQueue;
  '(expired, xTimeOut, xTicksToWait) ← sched (sc_check_time_out xTimeOut xTicksToWait);
  if (expired : bool) then
    _ ← unlock_and_resume; mret (Returns false, false)
  else
    full ← prvIsQueueFull;
    if (full : bool) then
      q ← get_queue;
      _ ← sched (ev_place (xTasksWaitingToSend q) xTicksToWait);
      yielded ← unlock_and_resume;
      mret (Continue (Try (Some xTimeOut) xTicksToWait), negb yielded)
    else
      _ ← unlock_and_resume; mret (Continue (Try (Some xTimeOut) xTicksToWait), false).

(** One step of [xQueueGenericSend]; [TimedOut] and [Disinherit] do not occur. *)
Definition xQueueGenericSend_step (pvItemToQueue : Z) (xCopyPosition : xCopyPosition_t) (c : call)
  : Q (outcome * bool) :=
  match c with
  | Try t n => xQueueGenericSend_try pvItemToQueue xCopyPosition t n
  | Wait t n => xQueueGenericSend_wait t n
  | _ => fun _ => None
  end.

(** Returns success and whether a task of higher priority was woken. *)
Definition xQueueGenericSendFromISR (pvItemToQueue : Z) (xCopyPosition : xCopyPosition_t) : Q (bool * bool) :=
  _ ← assert_item pvItemToQueue;
  _ ← assert_position xCopyPosition;
  q ← get_queue;
  if (uxMessagesWaiting q <? uxLength q) || bool_decide (xCopyPosition = queueOVERWRITE) then
    let lock := cTxLock q in
    _ ← prvCopyDataToQueue pvItemToQueue xCopyPosition;
    if lock =? queueUNLOCKED then
      y ← wake_one (xTasksWaitingToReceive q) false; mret (true, y)
    else _ ← prvIncrementQueueTxLock lock; mret (true, false)
  else mret (false, false).

Definition xQueueGiveFromISR : Q (bool * bool) :=
  q ← get_queue;
  _ ← configASSERT (uxItemSize q =? 0);
  _ ← configASSERT (negb (is_mutex q && negb (pcTail q =? 0)));
  if uxMessagesWaiting q <? uxLength q then
    let lock := cTxLock q in
    _ ← set_queue (set_messages (u32 (uxMessagesWaiting q + 1)));
    if lock =? queueUNLOCKED then
      y ← wake_one (xTasksWaitingToReceive q) false; mret (true, y)
    else _ ← prvIncrementQueueTxLock lock; mret (true, false)
  else mret (false, false).

(** ** Receiving *)

Definition xQueueReceive_try (pvBuffer : Z) (xEntryTimeSet : option TimeOut_t) (xTicksToWait : Z)
  : Q (outcome * bool) :=
  _ ← on_entry xEntryTimeSet (_ ← assert_item pvBuffer; assert_may_wait xTicksToWait);
  q ← get_queue;
  if 0 <? uxMessagesWaiting q then
    _ ← prvCopyDataFromQueue pvBuffer;
    _ ← set_queue (set_messages (uxMessagesWaiting q - 1));
    y ← wake_one (xTasksWaitingToSend q) false;
    mret (Returns true, y)
  else no_luck xEntryTimeSet xTicksToWait.

(** The same in [xQueueReceive], [xQueuePeek] and, but for the priority
    inheritance, in [xQueueSemaphoreTake]. *)
Definition receive_wait (xTimeOut : TimeOut_t) (xTicksToWait : Z) : Q (outcome * bool) :=
  _ ← sched sc_suspend;
  _ ← prvLockQueue;
  '(expired, xTimeOut, xTicksToWait) ← sched (sc_check_time_out xTimeOut xTicksToWait);
  if (expired : bool) then
    _ ← unlock_and_resume; mret (Continue (TimedOut xTimeOut xTicksToWait), false)
  else
    empty ← prvIsQueueEmpty;
    if (empty : bool) then
      q ← get_queue;
      _ ← sched (ev_place (xTasksWaitingToReceive q) xTicksToWait);
      yielded ← unlock_and_resume;
      mret (Continue (Try (Some xTimeOut) xTicksToWait), negb yielded)
    else
      _ ← unlock_and_resume; mret (Continue (Try (Some xTimeOut) xTicksToWait), false).

Definition receive_timed_out (xTimeOut : TimeOut_t) (xTicksToWait : Z) : Q (outcome * bool) :=
  empty ← prvIsQueueEmpty;
  mret (if (empty : bool) then Returns false else Continue (Try (Some xTimeOut) xTicksToWait), false).

Definition xQueueReceive_step (pvBuffer : Z) (c : call) : Q (outcome * bool) :=
  match c with
  | Try t n => xQueueReceive_try pvBuffer t n
  | Wait t n => receive_wait t n
  | TimedOut t n => receive_timed_out t n
  | Disinherit => fun _ => None
  end.

Definition xQueuePeek_try (pvBuffer : Z) (xEntryTimeSet : option TimeOut_t) (xTicksToWait : Z)
  : Q (outcome * bool) :=
  _ ← on_entry xEntryTimeSet (_ ← assert_item pvBuffer; assert_may_wait xTicksToWait);
  q ← get_queue;
  if 0 <? uxMessagesWaiting q then
    let pcOriginalReadPosition := pcReadFrom q in
    _ ← prvCopyDataFromQueue pvBuffer;
    _ ← set_queue (set_read_from pcOriginalReadPosition);
    y ← wake_one (xTasksWaitingToReceive q) false;
    mret (Returns true, y)
  else no_luck xEntryTimeSet xTicksToWait.

Definition xQueuePeek_step (pvBuffer : Z) (c : call) : Q (outcome * bool) :=
  match c with
  | Try t n => xQueuePeek_try pvBuffer t n
  | Wait t n => receive_wait t n
  | TimedOut t n => receive_timed_out t n
  | Disinherit => fun _ => None
  end.

Definition xQueueReceiveFromISR (pvBuffer : Z) : Q (bool * bool) :=
  _ ← assert_item pvBuffer;
  q ← get_queue;
  if 0 <? uxMessagesWaiting q then
    let lock := cRxLock q in
    _ ← prvCopyDataFromQueue pvBuffer;
    _ ← set_queue (set_messages (uxMessagesWaiting q - 1));
    if lock =? queueUNLOCKED then
      y ← wake_one (xTasksWaitingToSend q) false; mret (true, y)
    else _ ← prvIncrementQueueRxLock lock; mret (true, false)
  else mret (false, false).

Definition xQueuePeekFromISR (pvBuffer : Z) : Q bool :=
  _ ← assert_item pvBuffer;
  q ← get_queue;
  _ ← configASSERT (negb (uxItemSize q =? 0));
  if 0 <? uxMessagesWaiting q then
    let pcOriginalReadPosition := pcReadFrom q in
    _ ← prvCopyDataFromQueue pvBuffer;
    _ ← set_queue (set_read_from pcOriginalReadPosition);
    mret true
  else mret false.

(** ** Semaphores and mutexes *)

Definition xQueueSemaphoreTake_try (xEntryTimeSet : option TimeOut_t) (xTicksToWait : Z)
  : Q (outcome * bool) :=
  _ ← on_entry xEntryTimeSet
        (q ← get_queue; _ ← configASSERT (uxItemSize q =? 0); assert_may_wait xTicksToWait);
  q ← get_queue;
  if 0 <? uxMessagesWaiting q then
    _ ← set_queue (set_messages (uxMessagesWaiting q - 1));
    _ ← (if is_mutex q then
           holder ← sched sc_count_mutex; set_queue (set_tail holder)
         else mret tt);
    y ← wake_one (xTasksWaitingToSend q) false;
    mret (Returns true, y)
  else no_luck xEntryTimeSet xTicksToWait.

Definition prvGetDisinheritPriorityAfterTimeout : Q Z :=
  q ← get_queue;
  n ← sched (ev_length (xTasksWaitingToReceive q));
  if 0 <? n then
    v ← sched (ev_head_value (xTasksWaitingToReceive q));
    mret (u32 (configMAX_PRIORITIES - v))
  else mret tskIDLE_PRIORITY.

(** One step of [xQueueSemaphoreTake]; the second part of the state is
    [xInheritanceOccurred]. *)
Definition xQueueSemaphoreTake_step (c : call) (xInheritanceOccurred : bool)
  : Q (outcome * bool * bool) :=
  match c with
  | Try t n =>
      '(o, y) ← xQueueSemaphoreTake_try t n; mret (o, y, xInheritanceOccurred)
  | Wait t n =>
      _ ← sched sc_suspend;
      _ ← prvLockQueue;
      '(expired, t, n) ← sched (sc_check_time_out t n);
      if (expired : bool) then
        _ ← unlock_and_resume; mret (Continue (TimedOut t n), false, xInheritanceOccurred)
      else
        empty ← prvIsQueueEmpty;
        if (empty : bool) then
          q ← get_queue;
          inherited ← (if is_mutex q then sched (sc_inherit (pcTail q)) else mret xInheritanceOccurred);
          _ ← sched (ev_place (xTasksWaitingToReceive q) n);
          yielded ← unlock_and_resume;
          mret (Continue (Try (Some t) n), negb yielded, inherited)
        else
          _ ← unlock_and_resume; mret (Continue (Try (Some t) n), false, xInheritanceOccurred)
  | TimedOut t n =>
      empty ← prvIsQueueEmpty;
      mret (if (empty : bool) then
              if xInheritanceOccurred then Continue Disinherit else Returns false
            else Continue (Try (Some t) n), false, xInheritanceOccurred)
  | Disinherit =>
      p ← prvGetDisinheritPriorityAfterTimeout;
      q ← get_queue;
      _ ← sched (sc_disinherit_timeout (pcTail q) p);
      mret (Returns false, false, xInheritanceOccurred)
  end.

Definition prvInitialiseMutex : Q unit :=
  _ ← set_queue (set_tail 0);
  _ ← set_queue (set_head 0);
  _ ← set_queue (set_read_from 0);
  _ ← xQueueGenericSend_try 0 queueSEND_TO_BACK None 0;
  mret tt.

(** [xQueueCreateCountingSemaphore] once the queue is created. *)
Definition counting_semaphore_init (uxMaxCount uxInitialCount : Z) : Q bool :=
  if negb (uxMaxCount =? 0) && (uxInitialCount <=? uxMaxCount) then
    _ ← set_queue (set_messages uxInitialCount); mret true
  else _ ← configASSERT false; mret false.

(** Returns [xReturn] and whether it yields. *)
Definition xQueueGiveMutexRecursive : Q (bool * bool) :=
  q ← get_queue;
  current ← sched sc_current;
  if pcTail q =? current then
    _ ← set_queue (fun q => set_read_from (u32 (pcReadFrom q - 1)) q);
    q ← get_queue;
    if pcReadFrom q =? 0 then
      '(_, y) ← xQueueGenericSend_try 0 queueSEND_TO_BACK None 0; mret (true, y)
    else mret (true, false)
  else mret (false, false).

(** [xQueueTakeMutexRecursive] before and after its call of [xQueueSemaphoreTake]. *)
Definition xQueueTakeMutexRecursive_enter (xTicksToWait : Z) : Q outcome :=
  q ← get_queue;
  current ← sched sc_current;
  if pcTail q =? current then
    _ ← set_queue (fun q => set_read_from (u32 (pcReadFrom q + 1)) q); mret (Returns true)
  else mret (Continue (Try None xTicksToWait)).

Definition xQueueTakeMutexRecursive_leave (xReturn : bool) : Q bool :=
  _ ← when xReturn (set_queue (fun q => set_read_from (u32 (pcReadFrom q + 1)) q));
  mret xReturn.

(** Called by the timer task with the scheduler suspended. *)
Definition vQueueWaitForMessageRestricted (xTicksToWait : Z) (xWaitIndefinitely : bool) : Q unit :=
  _ ← prvLockQueue;
  q ← get_queue;
  _ ← (if uxMessagesWaiting q =? 0 then
         sched (ev_place_restricted (xTasksWaitingToReceive q) xTicksToWait xWaitIndefinitely)
       else mret tt);
  prvUnlockQueue.

End queue.
