(* ===== verification/QueueProofs.v ===== *)
(** * Properties of the queues

    The storage of a queue as a ring of items ([ring_rep]), what sending and
    receiving do to it, and the order of messages under any interleaving of
    tasks and interrupts. *)
From S2P Require Import Prelude Mem Tasks Sched Queue.
Open Scope Z_scope.

(** ** The ring *)

(** The address of the item with (unwrapped) index [i]. *)
Definition slot (q : Queue_t) (i : Z) : Z := pcHead q + (i `mod` uxLength q) * uxItemSize q.

(** The messages [xs], each [uxItemSize] bytes, are in the queue; [r] is the
    index of the item that was read last. *)
Record ring_at (q : Queue_t) (m : mem) (xs : list (list Z)) (r : Z) : Prop := {
  rg_size : 0 < uxItemSize q;
  rg_head : 0 < pcHead q;
  rg_length : 1 <= uxLength q < 2 ^ 32;
  rg_tail : pcTail q = pcHead q + uxLength q * uxItemSize q;
  rg_count : uxMessagesWaiting q = Z.of_nat (length xs) /\ Z.of_nat (length xs) <= uxLength q;
  rg_index : 0 <= r < uxLength q;
  rg_read : pcReadFrom q = slot q r;
  rg_write : pcWriteTo q = slot q (r + 1 + Z.of_nat (length xs));
  rg_items : forall i x, xs !! i = Some x ->
    load_bytes (Z.to_nat (uxItemSize q)) (slot q (r + 1 + Z.of_nat i)) m = Some x;
  rg_mapped : mapped m (pcHead q) (uxLength q * uxItemSize q)
}.

Definition ring_rep (q : Queue_t) (m : mem) (xs : list (list Z)) : Prop := exists r, ring_at q m xs r.

(** What the copy functions leave alone. *)
Definition same_queue (q q' : Queue_t) : Prop :=
  pcHead q' = pcHead q /\ pcTail q' = pcTail q /\ uxLength q' = uxLength q /\ uxItemSize q' = uxItemSize q /\
  xTasksWaitingToSend q' = xTasksWaitingToSend q /\
  xTasksWaitingToReceive q' = xTasksWaitingToReceive q /\ cRxLock q' = cRxLock q /\ cTxLock q' = cTxLock q.

Section arithmetic.
Variables (len size : Z).
Hypotheses (Hlen : 1 <= len) (Hsize : 0 < size).

Lemma mod_next i : (i + 1) `mod` len = if i `mod` len + 1 =? len then 0 else i `mod` len + 1.
Proof using Hlen.
  pose proof (Z.mod_pos_bound i len ltac:(lia)) as Hb.
  rewrite <- (Z.add_mod_idemp_l i 1 len) by lia.
  destruct (Z.eqb_spec (i `mod` len + 1) len) as [E|E].
  - rewrite E. apply Z.mod_same. lia.
  - apply Z.mod_small. lia.
Qed.

Lemma mod_prev i : (i - 1) `mod` len = if i `mod` len =? 0 then len - 1 else i `mod` len - 1.
Proof using Hlen.
  pose proof (Z.mod_pos_bound i len ltac:(lia)) as Hb.
  replace (i - 1) with (i + -1) by lia. rewrite <- (Z.add_mod_idemp_l i (-1) len) by lia.
  destruct (Z.eqb_spec (i `mod` len) 0) as [E|E].
  - rewrite E. symmetry. apply (Z.mod_unique_pos (0 + -1) len (-1) (len - 1)); lia.
  - apply Z.mod_small. lia.
Qed.

(** The bounds test after a step forward, and after a step back. *)
Lemma wrap_forward h w : 0 <= w < len ->
  (h + len * size <=? h + w * size + size) = (w + 1 =? len).
Proof using Hlen Hsize.
  intros Hw. apply eq_true_iff_eq. rewrite Z.leb_le, Z.eqb_eq. split; intros H; nia.
Qed.

Lemma wrap_back h w : 0 <= w < len -> (h + w * size - size <? h) = (w =? 0).
Proof using Hlen Hsize.
  intros Hw. apply eq_true_iff_eq. rewrite Z.ltb_lt, Z.eqb_eq. split; intros H; nia.
Qed.

Lemma slots_disjoint u v : 0 <= u < len -> 0 <= v < len -> u <> v ->
  u * size + size <= v * size \/ v * size + size <= u * size.
Proof using Hlen Hsize. intros. assert (u < v \/ v < u) as [?|?] by lia; [left|right]; nia. Qed.

Lemma slot_inside u : 0 <= u < len -> 0 <= u * size /\ u * size + size <= len * size.
Proof using Hlen Hsize. intros. nia. Qed.

(** Different indices less than [len] apart are different slots. *)
Lemma mod_apart i j : i < j < i + len -> i `mod` len <> j `mod` len.
Proof using Hlen.
  intros Hij E.
  pose proof (Z.div_mod i len ltac:(lia)). pose proof (Z.div_mod j len ltac:(lia)).
  rewrite E in *. assert (j - i = len * (j / len - i / len)) by lia.
  assert (j / len - i / len <= 0 \/ 1 <= j / len - i / len) as [?|?] by lia; nia.
Qed.
End arithmetic.

(** Writing one slot leaves the others. *)
Lemma ring_other_slot q m m' i j :
  1 <= uxLength q -> 0 < uxItemSize q -> i `mod` uxLength q <> j `mod` uxLength q ->
  outside_kept (slot q i) (uxItemSize q) m m' ->
  load_bytes (Z.to_nat (uxItemSize q)) (slot q j) m' = load_bytes (Z.to_nat (uxItemSize q)) (slot q j) m.
Proof.
  intros Hl Hs Hij Hk. apply load_bytes_frame. intros a Ha. apply Hk. unfold slot in *.
  pose proof (Z.mod_pos_bound i (uxLength q) ltac:(lia)). pose proof (Z.mod_pos_bound j (uxLength q) ltac:(lia)).
  destruct (slots_disjoint (uxLength q) (uxItemSize q) Hl Hs (i `mod` uxLength q) (j `mod` uxLength q)); lia.
Qed.

Lemma slot_mapped q m xs r i : ring_at q m xs r -> mapped m (slot q i) (uxItemSize q).
Proof.
  intros R. eapply mapped_sub; [apply R| |]; unfold slot;
    pose proof (slot_inside (uxLength q) (uxItemSize q) (proj1 (rg_length _ _ _ _ R)) (rg_size _ _ _ _ R)
      (i `mod` uxLength q)) as H; destruct H; try (apply Z.mod_pos_bound; pose proof (rg_length _ _ _ _ R); lia); lia.
Qed.

Lemma slot_same q q' i :
  pcHead q' = pcHead q -> uxLength q' = uxLength q -> uxItemSize q' = uxItemSize q -> slot q' i = slot q i.
Proof. unfold slot. by intros -> -> ->. Qed.

Lemma slot_next q i : 1 <= uxLength q ->
  slot q (i + 1) = if i `mod` uxLength q + 1 =? uxLength q then pcHead q else slot q i + uxItemSize q.
Proof.
  intros Hl. unfold slot. rewrite mod_next by done.
  destruct (Z.eqb_spec (i `mod` uxLength q + 1) (uxLength q)); lia.
Qed.

Lemma slot_prev q i : 1 <= uxLength q ->
  slot q (i - 1) = if i `mod` uxLength q =? 0 then pcHead q + uxLength q * uxItemSize q - uxItemSize q
                   else slot q i - uxItemSize q.
Proof.
  intros Hl. unfold slot. rewrite mod_prev by done.
  destruct (Z.eqb_spec (i `mod` uxLength q) 0); lia.
Qed.

(** The write pointer, and the read pointer, one slot on. *)
Definition step_write (q : Queue_t) : Queue_t :=
  let q := set_write_to (pcWriteTo q + uxItemSize q) q in
  if pcTail q <=? pcWriteTo q then set_write_to (pcHead q) q else q.

Definition step_read (q : Queue_t) : Queue_t :=
  let q := set_read_from (pcReadFrom q + uxItemSize q) q in
  if pcTail q <=? pcReadFrom q then set_read_from (pcHead q) q else q.

Definition step_read_back (q : Queue_t) : Queue_t :=
  let q := set_read_from (pcReadFrom q - uxItemSize q) q in
  if pcReadFrom q <? pcHead q then set_read_from (pcTail q - uxItemSize q) q else q.

Lemma step_write_slot q m xs r :
  ring_at q m xs r ->
  step_write q = set_write_to (slot q (r + 1 + Z.of_nat (length xs) + 1)) q.
Proof.
  intros R. set (j := r + 1 + Z.of_nat (length xs)). pose proof (rg_length _ _ _ _ R) as Hl.
  pose proof (Z.mod_pos_bound j (uxLength q) ltac:(lia)) as Hj.
  unfold step_write. cbn. rewrite (rg_tail _ _ _ _ R), (rg_write _ _ _ _ R). fold j.
  rewrite (slot_next q j) by lia. unfold slot at 1.
  rewrite (wrap_forward _ _ (proj1 Hl) (rg_size _ _ _ _ R)) by done.
  by destruct (j `mod` uxLength q + 1 =? uxLength q).
Qed.

Lemma step_read_slot q m xs r :
  ring_at q m xs r -> step_read q = set_read_from (slot q (r + 1)) q.
Proof.
  intros R. pose proof (rg_length _ _ _ _ R) as Hl.
  pose proof (Z.mod_pos_bound r (uxLength q) ltac:(lia)) as Hj.
  unfold step_read. cbn. rewrite (rg_tail _ _ _ _ R), (rg_read _ _ _ _ R).
  rewrite (slot_next q r) by lia. unfold slot at 1.
  rewrite (wrap_forward _ _ (proj1 Hl) (rg_size _ _ _ _ R)) by done.
  by destruct (r `mod` uxLength q + 1 =? uxLength q).
Qed.

Lemma step_read_back_slot q m xs r :
  ring_at q m xs r -> step_read_back q = set_read_from (slot q (r - 1)) q.
Proof.
  intros R. pose proof (rg_length _ _ _ _ R) as Hl.
  pose proof (Z.mod_pos_bound r (uxLength q) ltac:(lia)) as Hj.
  unfold step_read_back. cbn. rewrite (rg_tail _ _ _ _ R), (rg_read _ _ _ _ R).
  rewrite (slot_prev q r) by lia. unfold slot at 1.
  rewrite (wrap_back _ _ (proj1 Hl) (rg_size _ _ _ _ R)) by done.
  by destruct (r `mod` uxLength q =? 0).
Qed.

Lemma slot_mod q i : slot q (i `mod` uxLength q) = slot q i.
Proof. unfold slot. by rewrite Zmod_mod. Qed.

Lemma slot_plus_mod q i j : 1 <= uxLength q -> slot q (i `mod` uxLength q + j) = slot q (i + j).
Proof. intros. unfold slot. by rewrite Zplus_mod_idemp_l. Qed.

(** The messages seen from a read index, in a memory. *)
Definition items_at (q : Queue_t) (m : mem) (xs : list (list Z)) (r : Z) : Prop :=
  forall i x, xs !! i = Some x ->
    load_bytes (Z.to_nat (uxItemSize q)) (slot q (r + 1 + Z.of_nat i)) m = Some x.

(** Appending at the back. *)
Lemma ring_push_back q m m' xs r bs :
  ring_at q m xs r -> Z.of_nat (length xs) < uxLength q ->
  load_bytes (Z.to_nat (uxItemSize q)) (pcWriteTo q) m' = Some bs ->
  outside_kept (pcWriteTo q) (uxItemSize q) m m' -> (forall b k, mapped m b k -> mapped m' b k) ->
  ring_at (set_messages (u32 (uxMessagesWaiting q + 1)) (step_write q)) m' (xs ++ [bs]) r.
Proof.
  intros R Hroom Hload Hout Hmap. rewrite (step_write_slot _ _ _ _ R).
  pose proof (rg_length _ _ _ _ R) as Hl. pose proof (rg_count _ _ _ _ R) as [Hc Hc2].
  rewrite (rg_write _ _ _ _ R) in Hload, Hout.
  split; try apply R; cbn.
  - rewrite length_app. cbn. rewrite Hc. words. lia.
  - rewrite length_app. cbn. unfold slot. cbn. f_equal. f_equal. f_equal. lia.
  - change (items_at q m' (xs ++ [bs]) r). intros i x Hi.
    destruct (decide (i = length xs)) as [->|Hne].
    + rewrite lookup_app_mid in Hi. by injection Hi as <-.
    + apply lookup_lt_Some in Hi as Hlt. rewrite length_app in Hlt. cbn in Hlt.
      rewrite lookup_app_l in Hi by lia.
      rewrite (ring_other_slot q m m' (r + 1 + Z.of_nat (length xs))); [by apply (rg_items _ _ _ _ R)|lia|apply R| |done].
      apply not_eq_sym, mod_apart; lia.
  - apply Hmap, R.
Qed.

(** Putting a message in front, where the last read one was. *)
Lemma ring_push_front q m m' xs r bs :
  ring_at q m xs r -> Z.of_nat (length xs) < uxLength q ->
  load_bytes (Z.to_nat (uxItemSize q)) (pcReadFrom q) m' = Some bs ->
  outside_kept (pcReadFrom q) (uxItemSize q) m m' -> (forall b k, mapped m b k -> mapped m' b k) ->
  ring_at (set_messages (u32 (uxMessagesWaiting q + 1)) (step_read_back q)) m' (bs :: xs)
    ((r - 1) `mod` uxLength q).
Proof.
  intros R Hroom Hload Hout Hmap. rewrite (step_read_back_slot _ _ _ _ R).
  pose proof (rg_length _ _ _ _ R) as Hl. pose proof (rg_count _ _ _ _ R) as [Hc Hc2].
  rewrite (rg_read _ _ _ _ R) in Hload, Hout.
  split; try apply R; cbn.
  - rewrite Hc. words. lia.
  - apply Z.mod_pos_bound. lia.
  - change (slot q (r - 1) = slot q ((r - 1) `mod` uxLength q)). by rewrite slot_mod.
  - change (pcWriteTo q = slot q ((r - 1) `mod` uxLength q + 1 + Z.of_nat (Datatypes.S (length xs)))).
    rewrite <- Z.add_assoc, slot_plus_mod, (rg_write _ _ _ _ R) by lia. f_equal. lia.
  - change (items_at q m' (bs :: xs) ((r - 1) `mod` uxLength q)). intros i x Hi.
    rewrite <- Z.add_assoc, slot_plus_mod by lia. destruct i as [|i]; simpl in Hi.
    + injection Hi as <-. replace (r - 1 + (1 + Z.of_nat 0)) with r by lia. done.
    + replace (r - 1 + (1 + Z.of_nat (Datatypes.S i))) with (r + 1 + Z.of_nat i) by lia.
      apply lookup_lt_Some in Hi as Hlt.
      rewrite (ring_other_slot q m m' r); [by apply (rg_items _ _ _ _ R)|lia|apply R|apply mod_apart; lia|done].
  - apply Hmap, R.
Qed.

(** Taking the first message. *)
Lemma ring_pop q m x xs r :
  ring_at q m (x :: xs) r ->
  ring_at (set_messages (uxMessagesWaiting q - 1) (step_read q)) m xs ((r + 1) `mod` uxLength q) /\
  load_bytes (Z.to_nat (uxItemSize q)) (pcReadFrom (step_read q)) m = Some x.
Proof.
  intros R. rewrite (step_read_slot _ _ _ _ R).
  pose proof (rg_length _ _ _ _ R) as Hl. pose proof (rg_count _ _ _ _ R) as [Hc Hc2]. cbn in Hc, Hc2.
  split; [split; try apply R; cbn|].
  - rewrite Hc. lia.
  - apply Z.mod_pos_bound. lia.
  - change (slot q (r + 1) = slot q ((r + 1) `mod` uxLength q)). by rewrite slot_mod.
  - change (pcWriteTo q = slot q ((r + 1) `mod` uxLength q + 1 + Z.of_nat (length xs))).
    rewrite <- Z.add_assoc, slot_plus_mod, (rg_write _ _ _ _ R) by lia. cbn. f_equal. lia.
  - change (items_at q m xs ((r + 1) `mod` uxLength q)). intros i y Hi.
    rewrite <- Z.add_assoc, slot_plus_mod by lia.
    replace (r + 1 + (1 + Z.of_nat i)) with (r + 1 + Z.of_nat (Datatypes.S i)) by lia.
    by apply (rg_items _ _ _ _ R).
  - cbn. rewrite <- (rg_items _ _ _ _ R 0 x eq_refl). by rewrite Z.add_0_r.
Qed.

(** The messages stay as long as the storage does. *)
Lemma ring_frame q m m' xs r :
  ring_at q m xs r -> (forall i, pcHead q <= i < pcHead q + uxLength q * uxItemSize q -> m' !! i = m !! i) ->
  ring_at q m' xs r.
Proof.
  intros R Hk. split; try apply R.
  - intros i x Hi. rewrite <- (rg_items _ _ _ _ R i x Hi). apply load_bytes_frame. intros a Ha. apply Hk.
    pose proof (slot_inside (uxLength q) (uxItemSize q) (proj1 (rg_length _ _ _ _ R)) (rg_size _ _ _ _ R)
      ((r + 1 + Z.of_nat i) `mod` uxLength q)) as Hin.
    destruct Hin; [apply Z.mod_pos_bound; pose proof (rg_length _ _ _ _ R); lia|].
    unfold slot in Ha. pose proof (rg_size _ _ _ _ R). lia.
  - intros i Hi. rewrite Hk by done. by apply (rg_mapped _ _ _ _ R).
Qed.

(** Fields that the ring does not read. *)
Lemma ring_fields q q' m xs r :
  ring_at q m xs r -> pcHead q' = pcHead q -> pcTail q' = pcTail q -> pcWriteTo q' = pcWriteTo q ->
  pcReadFrom q' = pcReadFrom q -> uxMessagesWaiting q' = uxMessagesWaiting q ->
  uxLength q' = uxLength q -> uxItemSize q' = uxItemSize q -> ring_at q' m xs r.
Proof.
  intros [] E1 E2 E3 E4 E5 E6 E7.
  split; unfold slot in *; rewrite ?E1, ?E2, ?E3, ?E4, ?E5, ?E6, ?E7; done.
Qed.

(** ** The copy functions *)

(** The messages after one is placed. *)
Definition placed (pos : xCopyPosition_t) (bs : list Z) (xs : list (list Z)) : list (list Z) :=
  match pos with
  | queueSEND_TO_BACK => xs ++ [bs]
  | queueSEND_TO_FRONT => bs :: xs
  | queueOVERWRITE => [bs]
  end.

Lemma slot_range q m xs r i a :
  ring_at q m xs r -> slot q i <= a < slot q i + uxItemSize q ->
  pcHead q <= a < pcHead q + uxLength q * uxItemSize q.
Proof.
  intros R Ha. pose proof (rg_length _ _ _ _ R) as Hl.
  destruct (slot_inside (uxLength q) (uxItemSize q) (proj1 Hl) (rg_size _ _ _ _ R) (i `mod` uxLength q));
    [apply Z.mod_pos_bound; lia|]. unfold slot in Ha. lia.
Qed.

Lemma outside_slot q m m' m2 xs r i :
  ring_at q m2 xs r -> outside_kept (slot q i) (uxItemSize q) m m' ->
  outside_kept (pcHead q) (uxLength q * uxItemSize q) m m'.
Proof. intros R H a Ha. apply H. intros Hs. apply Ha. by eapply slot_range. Qed.

(** Overwriting the single place of a mailbox. *)
Lemma ring_overwrite q m m' xs r bs :
  ring_at q m xs r -> uxLength q = 1 ->
  load_bytes (Z.to_nat (uxItemSize q)) (pcReadFrom q) m' = Some bs ->
  outside_kept (pcReadFrom q) (uxItemSize q) m m' -> (forall b k, mapped m b k -> mapped m' b k) ->
  ring_at (set_messages 1 (step_read_back q)) m' [bs] 0.
Proof.
  intros R H1 Hload Hout Hmap. rewrite (step_read_back_slot _ _ _ _ R).
  assert (Hslot : forall i, slot q i = pcHead q).
  { intros i. unfold slot. rewrite H1, Z.mod_1_r. lia. }
  rewrite (rg_read _ _ _ _ R), Hslot in Hload.
  split; try apply R; cbn; rewrite ?H1; try lia.
  - by rewrite Hslot, <- (Hslot 0).
  - rewrite (rg_write _ _ _ _ R), Hslot. symmetry. apply (Hslot _).
  - intros i x Hi. destruct i as [|i]; [|done]. injection Hi as <-.
    change (load_bytes (Z.to_nat (uxItemSize q)) (slot q (0 + 1 + Z.of_nat 0)) m' = Some bs).
    by rewrite Hslot.
  - rewrite <- H1. apply Hmap, R.
Qed.

Section copy.
Context {S : Type} `{!Scheduler S}.

Lemma copy_to_spec (x : qsys S) src pos bs xs :
  ring_rep (q_queue x) (q_mem x) xs ->
  load_bytes (Z.to_nat (uxItemSize (q_queue x))) src (q_mem x) = Some bs -> Forall byte_ok bs ->
  (Z.of_nat (length xs) < uxLength (q_queue x) \/ pos = queueOVERWRITE) ->
  (pos = queueOVERWRITE -> uxLength (q_queue x) = 1) ->
  exists m' q', prvCopyDataToQueue src pos x = Some (false, mkQsys (q_sched x) m' q') /\
    ring_rep q' m' (placed pos bs xs) /\ same_queue (q_queue x) q' /\
    outside_kept (pcHead (q_queue x)) (uxLength (q_queue x) * uxItemSize (q_queue x)) (q_mem x) m'.
Proof.
  destruct x as [s m q]. cbn. intros [r R] Hload Hb Hroom Hone.
  pose proof (rg_size _ _ _ _ R) as Hsz. pose proof (rg_count _ _ _ _ R) as [Hc Hc2].
  assert (Hn : Z.of_nat (Z.to_nat (uxItemSize q)) = uxItemSize q) by lia.
  pose proof (slot_mapped q m xs r (r + 1 + Z.of_nat (length xs)) R) as Hmw.
  pose proof (slot_mapped q m xs r r R) as Hmr.
  rewrite <- (rg_write _ _ _ _ R) in Hmw. rewrite <- (rg_read _ _ _ _ R) in Hmr.
  unfold prvCopyDataToQueue, get_queue. rewrite ask_bind. cbn [q_queue].
  rewrite (proj2 (Z.eqb_neq (uxItemSize q) 0)) by lia.
  destruct (decide (pos = queueSEND_TO_BACK)) as [->|Hnb].
  - destruct (memcpy_spec (pcWriteTo q) src _ m bs Hload) as (m'&Hcpy&Hl'&Ho'&Hm'); [by rewrite Hn|done|].
    rewrite Hn in Ho'. exists m', (set_messages (u32 (uxMessagesWaiting q + 1)) (step_write q)). split.
    { unfold on_mem, try_update, mbind, prog_bind at 1. cbn. rewrite Hcpy. cbn.
      unfold step_write. cbn. by case_match. }
    split; [exists r; apply (ring_push_back q m); try done; by destruct Hroom|].
    split; [|rewrite (rg_write _ _ _ _ R) in Ho'; by eapply outside_slot].
    unfold same_queue, step_write. cbn. by case_match.
  - destruct (memcpy_spec (pcReadFrom q) src _ m bs Hload) as (m'&Hcpy&Hl'&Ho'&Hm'); [by rewrite Hn|done|].
    rewrite Hn in Ho'.
    set (n := if decide (pos = queueOVERWRITE) then (if 0 <? uxMessagesWaiting q then uxMessagesWaiting q - 1
              else uxMessagesWaiting q) else uxMessagesWaiting q).
    exists m', (set_messages (u32 (n + 1)) (step_read_back q)). split.
    { unfold on_mem, try_update, mbind, prog_bind at 1. cbn. rewrite Hcpy. cbn.
      unfold step_read_back. cbn. by case_match. }
    split; [|split; [|rewrite (rg_read _ _ _ _ R) in Ho'; by eapply outside_slot]].
    + destruct pos; [done|exists ((r - 1) `mod` uxLength q)|exists 0].
      * subst n. rewrite decide_False by done. apply (ring_push_front q m); try done. by destruct Hroom.
      * specialize (Hone eq_refl). assert (u32 (n + 1) = 1) as ->.
        { subst n. rewrite decide_True by done. destruct (Z.ltb_spec 0 (uxMessagesWaiting q)); words; lia. }
        by apply (ring_overwrite q m m' xs r).
    + unfold same_queue, step_read_back. cbn. by case_match.
Qed.

(** Reading the first message into a buffer outside of the storage. *)
Lemma copy_from_spec (x : qsys S) dst y xs :
  ring_rep (q_queue x) (q_mem x) (y :: xs) -> Forall byte_ok y ->
  mapped (q_mem x) dst (uxItemSize (q_queue x)) ->
  (forall a, dst <= a < dst + uxItemSize (q_queue x) ->
     ~ pcHead (q_queue x) <= a < pcHead (q_queue x) + uxLength (q_queue x) * uxItemSize (q_queue x)) ->
  exists m', prvCopyDataFromQueue dst x = Some (tt, mkQsys (q_sched x) m' (step_read (q_queue x))) /\
    load_bytes (Z.to_nat (uxItemSize (q_queue x))) dst m' = Some y /\
    outside_kept dst (uxItemSize (q_queue x)) (q_mem x) m' /\
    (forall i, pcHead (q_queue x) <= i < pcHead (q_queue x) + uxLength (q_queue x) * uxItemSize (q_queue x) ->
       m' !! i = q_mem x !! i).
Proof.
  destruct x as [s m q]. cbn. intros [r R] Hb Hm Hd. pose proof (rg_size _ _ _ _ R) as Hsz.
  destruct (ring_pop q m y xs r R) as [_ Hload].
  destruct (memcpy_spec dst (pcReadFrom (step_read q)) _ m y Hload) as (m'&Hcpy&Hl'&Ho'&Hm').
  { by replace (Z.of_nat (Z.to_nat (uxItemSize q))) with (uxItemSize q) by lia. }
  { done. }
  replace (Z.of_nat (Z.to_nat (uxItemSize q))) with (uxItemSize q) in Ho' by lia.
  exists m'. split_and!; try done.
  - unfold prvCopyDataFromQueue, get_queue. rewrite ask_bind. cbn [q_queue].
    rewrite (proj2 (Z.eqb_neq (uxItemSize q) 0)) by lia. cbn [negb].
    unfold set_queue. rewrite !update_bind, ask_bind.
    assert (Hrun : on_mem (memcpy dst (pcReadFrom (step_read q)) (Z.to_nat (uxItemSize q)))
                     (mkQsys s m (step_read q)) = Some (tt, mkQsys s m' (step_read q))).
    { unfold on_mem, try_update. cbn. by rewrite Hcpy. }
    exact Hrun.
  - intros i Hi. apply Ho'. intros Hin. by apply (Hd i).
Qed.

End copy.

(** ** The operations *)

Section operations.
Context {S : Type} `{!Scheduler S} `{!SchedulerLaws S}.

(** The queue of [x] holds the messages [xs]; tasks [senders] wait for room and
    tasks [receivers] for messages. *)
Record queue_inv (x : qsys S) (xs : list (list Z)) (senders receivers : list Z) : Prop := {
  qi_ring : ring_rep (q_queue x) (q_mem x) xs;
  qi_bytes : Forall (Forall byte_ok) xs;
  qi_sched : sched_ok (q_sched x);
  qi_send : waits (q_sched x) (xTasksWaitingToSend (q_queue x)) senders;
  qi_receive : waits (q_sched x) (xTasksWaitingToReceive (q_queue x)) receivers;
  qi_apart : xTasksWaitingToSend (q_queue x) <> xTasksWaitingToReceive (q_queue x)
}.

Lemma sched_run {A} (p : prog S A) (x : qsys S) r s' :
  p (q_sched x) = Some (r, s') -> sched p x = Some (r, mkQsys s' (q_mem x) (q_queue x)).
Proof. intros E. unfold sched. by rewrite E. Qed.

Lemma wake_one_spec (x : qsys S) l o ts :
  sched_ok (q_sched x) -> waits (q_sched x) l ts ->
  exists b s', wake_one l o x = Some (b, mkQsys s' (q_mem x) (q_queue x)) /\ sched_ok s' /\
    waits s' l (tail ts) /\ (forall l' us, l' <> l -> waits (q_sched x) l' us -> waits s' l' us) /\
    (ts = [] -> b = o /\ s' = q_sched x).
Proof.
  intros Hok Hw. unfold wake_one. rewrite (bind_run _ _ _ _ _ (sched_run _ x _ _ (law_empty _ _ _ Hok Hw))).
  destruct ts as [|t ts].
  - rewrite bool_decide_eq_true_2 by done. exists o, (q_sched x). split_and!; try done.
  - rewrite bool_decide_eq_false_2 by done. cbn [negb].
    destruct (law_remove _ _ _ _ Hok Hw) as (b&s'&E&Hok'&Hw'&Hf).
    exists b, s'. split; [exact (sched_run _ (mkQsys (q_sched x) (q_mem x) (q_queue x)) _ _ E)|].
    split_and!; try done.
Qed.

Lemma ring_count (x : qsys S) xs s r :
  queue_inv x xs s r -> uxMessagesWaiting (q_queue x) = Z.of_nat (length xs) /\
    Z.of_nat (length xs) <= uxLength (q_queue x).
Proof. intros [[i R] _ _ _ _ _]. apply R. Qed.

(** The lock counts are no part of the invariant. *)
Lemma queue_inv_locks (x : qsys S) xs senders receivers rx tx :
  queue_inv x xs senders receivers ->
  queue_inv (mkQsys (q_sched x) (q_mem x) (set_rx_lock rx (set_tx_lock tx (q_queue x)))) xs senders receivers.
Proof.
  intros [[r R] B1 B2 B3 B4 B5]. split; try done. exists r. by apply (ring_fields (q_queue x)).
Qed.

Lemma placed_bytes pos bs xs :
  Forall (Forall byte_ok) xs -> Forall byte_ok bs -> Forall (Forall byte_ok) (placed pos bs xs).
Proof. intros H1 H2. destruct pos; cbn; [apply Forall_app; auto|auto|auto]. Qed.

(** *** The assertions on entry *)

(** The call does not wait, or the scheduler is not suspended. *)
Definition may_wait (x : qsys S) (n : Z) : Prop := n = 0 \/ forall s, sc_state (q_sched x) <> Some (taskSCHEDULER_SUSPENDED, s).

(** The count of a locked queue can go up by one, or stays: with at most 127
    tasks this is always so. *)
Definition lock_counts (x : qsys S) (lock : Z) : Prop :=
  forall n, sc_tasks (q_sched x) = Some (n, q_sched x) -> u32 lock < n -> lock <> queueINT8_MAX.

Lemma assert_item_bind {B} (f : unit -> prog (qsys S) B) (x : qsys S) pv : pv <> 0 -> (assert_item pv ≫= f) x = f tt x.
Proof. intros Hpv. unfold assert_item, get_queue. by rewrite bind_assoc_run, ask_bind, assert_bind by (by rewrite (proj2 (Z.eqb_neq pv 0))). Qed.

Lemma assert_position_bind {B} (f : unit -> prog (qsys S) B) (x : qsys S) pos :
  (pos = queueOVERWRITE -> uxLength (q_queue x) = 1) -> (assert_position pos ≫= f) x = f tt x.
Proof.
  intros Hone. unfold assert_position, get_queue. rewrite bind_assoc_run, ask_bind, assert_bind; [done|].
  case_bool_decide as Hp; [|done]. by rewrite (Hone Hp).
Qed.

Lemma assert_may_wait_run (x : qsys S) n : sched_ok (q_sched x) -> may_wait x n -> assert_may_wait n x = Some (tt, x).
Proof.
  intros Hok Hw. destruct (law_state _ Hok) as [st E]. unfold assert_may_wait. rewrite (bind_run _ _ _ _ _ (sched_run _ x _ _ E)).
  assert (Ea : negb (bool_decide (st = taskSCHEDULER_SUSPENDED) && negb (n =? 0)) = true).
  { case_bool_decide as Es; [subst st|done]. destruct Hw as [Hw|Hw]; [by rewrite Hw|]. by destruct (Hw (q_sched x)). }
  unfold configASSERT. rewrite Ea. by destruct x.
Qed.

Lemma send_entry {B} (f : unit -> prog (qsys S) B) (x : qsys S) t src pos n :
  sched_ok (q_sched x) -> src <> 0 -> (pos = queueOVERWRITE -> uxLength (q_queue x) = 1) -> (t = None -> may_wait x n) ->
  (on_entry t (_ ← assert_item src; _ ← assert_position pos; assert_may_wait n) ≫= f) x = f tt x.
Proof.
  intros Hok Hsrc Hone Hw. destruct t as [t|]; [done|]. cbn [on_entry].
  rewrite bind_assoc_run, assert_item_bind, bind_assoc_run, assert_position_bind by done.
  by rewrite (bind_run _ _ _ _ _ (assert_may_wait_run x n Hok (Hw eq_refl))).
Qed.

Lemma receive_entry {B} (f : unit -> prog (qsys S) B) (x : qsys S) t dst n :
  sched_ok (q_sched x) -> dst <> 0 -> (t = None -> may_wait x n) ->
  (on_entry t (_ ← assert_item dst; assert_may_wait n) ≫= f) x = f tt x.
Proof.
  intros Hok Hdst Hw. destruct t as [t|]; [done|]. cbn [on_entry]. rewrite bind_assoc_run, assert_item_bind by done.
  by rewrite (bind_run _ _ _ _ _ (assert_may_wait_run x n Hok (Hw eq_refl))).
Qed.

(** The lock counts the messages that interrupts bring, up to the number of
    tasks. *)
Definition lock_incr (n lock : Z) : Z := if u32 lock <? n then s8 (lock + 1) else lock.

Lemma tx_lock_run (x : qsys S) lock n : sc_tasks (q_sched x) = Some (n, q_sched x) -> lock_counts x lock ->
  prvIncrementQueueTxLock lock x = Some (tt, mkQsys (q_sched x) (q_mem x)
    (if u32 lock <? n then set_tx_lock (s8 (lock + 1)) (q_queue x) else q_queue x)).
Proof.
  intros Hn Hc. unfold prvIncrementQueueTxLock. rewrite (bind_run _ _ _ _ _ (sched_run _ x _ _ Hn)).
  destruct (Z.ltb_spec (u32 lock) n) as [Hlt|Hge]; cbn [when]; [|done].
  by rewrite assert_bind by (by apply negb_true_iff, Z.eqb_neq, (Hc n)).
Qed.

Lemma rx_lock_run (x : qsys S) lock n : sc_tasks (q_sched x) = Some (n, q_sched x) -> lock_counts x lock ->
  prvIncrementQueueRxLock lock x = Some (tt, mkQsys (q_sched x) (q_mem x)
    (if u32 lock <? n then set_rx_lock (s8 (lock + 1)) (q_queue x) else q_queue x)).
Proof.
  intros Hn Hc. unfold prvIncrementQueueRxLock. rewrite (bind_run _ _ _ _ _ (sched_run _ x _ _ Hn)).
  destruct (Z.ltb_spec (u32 lock) n) as [Hlt|Hge]; cbn [when]; [|done].
  by rewrite assert_bind by (by apply negb_true_iff, Z.eqb_neq, (Hc n)).
Qed.

(** The tail of a successful send: the new message is in, wake a receiver. *)
Lemma send_done (x : qsys S) src pos bs xs senders receivers o :
  queue_inv x xs senders receivers ->
  load_bytes (Z.to_nat (uxItemSize (q_queue x))) src (q_mem x) = Some bs -> Forall byte_ok bs ->
  (Z.of_nat (length xs) < uxLength (q_queue x) \/ pos = queueOVERWRITE) ->
  (pos = queueOVERWRITE -> uxLength (q_queue x) = 1) ->
  exists x1 y x', prvCopyDataToQueue src pos x = Some (false, x1) /\
    queue_inv x1 (placed pos bs xs) senders receivers /\
    wake_one (xTasksWaitingToReceive (q_queue x)) o x1 = Some (y, x') /\
    queue_inv x' (placed pos bs xs) senders (tail receivers) /\ (receivers = [] -> y = o) /\
    same_queue (q_queue x) (q_queue x1) /\ q_queue x' = q_queue x1 /\ q_mem x' = q_mem x1 /\
    q_sched x1 = q_sched x /\
    outside_kept (pcHead (q_queue x)) (uxLength (q_queue x) * uxItemSize (q_queue x)) (q_mem x) (q_mem x1).
Proof.
  intros [HR HB Hok Hws Hwr Hne] Hload Hb Hroom Hone.
  destruct (copy_to_spec x src pos bs xs HR Hload Hb Hroom Hone) as (m'&q'&E&HR'&Hsame&Hout).
  destruct Hsame as (S1&S2&S3&S4&S5&S6&S7&S8).
  destruct (wake_one_spec (mkQsys (q_sched x) m' q') (xTasksWaitingToReceive (q_queue x)) o receivers)
    as (y&s'&E2&Hok'&Hw'&Hf&Hnil); [done|done|].
  eexists _, y, _. split; [exact E|]. split.
  { split; cbn; rewrite ?S5, ?S6; try done. by apply placed_bytes. }
  split; [exact E2|]. split.
  { split; cbn; rewrite ?S5, ?S6; try done; [by apply placed_bytes|]. by apply Hf. }
  split; [intros Hr; by apply Hnil|]. done.
Qed.

(** the critical section of [xQueueGenericSend]: with room (or when
    overwriting a one-place queue) the message is put at the chosen end, the
    first task that waits for a message is woken, the call succeeds, and no
    memory outside of the queue's storage changes; without room the call fails
    at once when it may not wait, changing nothing, and otherwise goes on to
    wait with the time-out that it has, or one that it sets now. *)
Theorem xQueueGenericSend_try_spec (x : qsys S) (src : Z) (pos : xCopyPosition_t) (bs : list Z)
  (xs : list (list Z)) (senders receivers : list Z) (t : option TimeOut_t) (n : Z) :
  queue_inv x xs senders receivers ->
  load_bytes (Z.to_nat (uxItemSize (q_queue x))) src (q_mem x) = Some bs -> Forall byte_ok bs ->
  (pos = queueOVERWRITE -> uxLength (q_queue x) = 1) -> src <> 0 -> (t = None -> may_wait x n) ->
  (Z.of_nat (length xs) < uxLength (q_queue x) \/ pos = queueOVERWRITE ->
   exists y x', xQueueGenericSend_try src pos t n x = Some ((Returns true, y), x') /\
     queue_inv x' (placed pos bs xs) senders (tail receivers) /\ (receivers = [] -> y = false) /\
     same_queue (q_queue x) (q_queue x') /\
     outside_kept (pcHead (q_queue x)) (uxLength (q_queue x) * uxItemSize (q_queue x)) (q_mem x) (q_mem x')) /\
  (Z.of_nat (length xs) = uxLength (q_queue x) -> pos <> queueOVERWRITE ->
   (n = 0 -> xQueueGenericSend_try src pos t n x = Some ((Returns false, false), x)) /\
   (n <> 0 -> xQueueGenericSend_try src pos t n x =
      match t with
      | Some t => Some ((Continue (Wait t n), false), x)
      | None => (t ← sched sc_set_time_out; mret (Continue (Wait t n), false)) x
      end)).
Proof.
  intros HI Hload Hb Hone Hsrc Hw. destruct (ring_count x xs _ _ HI) as [Hc Hle].
  unfold xQueueGenericSend_try, get_queue. rewrite send_entry by (done || apply HI). rewrite ask_bind, Hc. split.
  - intros Hroom.
    destruct (send_done x src pos bs xs senders receivers false HI Hload Hb Hroom Hone)
      as (x1&y&x'&E1&_&E2&HI'&Hy&Hsame&Eq&Em&_&Hout).
    exists y, x'. split; [|rewrite Eq, Em; done].
    replace ((Z.of_nat (length xs) <? uxLength (q_queue x)) || bool_decide (pos = queueOVERWRITE)) with true.
    + by rewrite (bind_run _ _ _ _ _ E1), (bind_run _ _ _ _ _ E2).
    + symmetry. apply orb_true_iff. rewrite Z.ltb_lt, bool_decide_eq_true. tauto.
  - intros Hfull Hpos. rewrite Hfull, Z.ltb_irrefl, bool_decide_eq_false_2 by done. cbn [orb].
    unfold no_luck. split; intros Hn.
    + by rewrite Hn.
    + rewrite (proj2 (Z.eqb_neq n 0)) by done. by destruct t.
Qed.

(** the critical section of [xQueueReceive]: with a message waiting, the
    first one is copied into the caller's buffer (which is outside of the
    storage) and leaves the queue, the first task that waits for room is woken
    and the call succeeds, no other memory changing; without a message the
    call fails at once when it may not wait, changing nothing, and otherwise
    goes on to wait. *)
Theorem xQueueReceive_try_spec (x : qsys S) (dst : Z) (xs : list (list Z)) (senders receivers : list Z)
  (t : option TimeOut_t) (n : Z) :
  queue_inv x xs senders receivers ->
  mapped (q_mem x) dst (uxItemSize (q_queue x)) ->
  (forall a, dst <= a < dst + uxItemSize (q_queue x) ->
     ~ pcHead (q_queue x) <= a < pcHead (q_queue x) + uxLength (q_queue x) * uxItemSize (q_queue x)) ->
  dst <> 0 -> (t = None -> may_wait x n) ->
  (forall m ms, xs = m :: ms ->
   exists y x', xQueueReceive_try dst t n x = Some ((Returns true, y), x') /\
     queue_inv x' ms (tail senders) receivers /\ (senders = [] -> y = false) /\
     same_queue (q_queue x) (q_queue x') /\
     load_bytes (Z.to_nat (uxItemSize (q_queue x))) dst (q_mem x') = Some m /\
     outside_kept dst (uxItemSize (q_queue x)) (q_mem x) (q_mem x')) /\
  (xs = [] ->
   (n = 0 -> xQueueReceive_try dst t n x = Some ((Returns false, false), x)) /\
   (n <> 0 -> xQueueReceive_try dst t n x =
      match t with
      | Some t => Some ((Continue (Wait t n), false), x)
      | None => (t ← sched sc_set_time_out; mret (Continue (Wait t n), false)) x
      end)).
Proof.
  intros HI Hm Hd Hdst Hw. destruct (ring_count x xs _ _ HI) as [Hc Hle].
  unfold xQueueReceive_try, get_queue. rewrite receive_entry by (done || apply HI). rewrite ask_bind, Hc. split.
  - intros y ms ->. destruct HI as [HR HB Hok Hws Hwr Hne]. apply Forall_cons in HB as [Hy HB].
    destruct (copy_from_spec x dst y ms HR Hy Hm Hd) as (m'&E&Hl&Hout&Hkeep).
    set (q' := set_messages (uxMessagesWaiting (q_queue x) - 1) (step_read (q_queue x))).
    assert (Hring : ring_rep q' (q_mem x) ms).
    { destruct HR as [r R]. exists ((r + 1) `mod` uxLength (q_queue x)).
      by apply (ring_pop (q_queue x) (q_mem x) y ms r R). }
    assert (Hsame : same_queue (q_queue x) q').
    { unfold same_queue, q', step_read. cbn. by case_match. }
    destruct Hsame as (S1&S2&S3&S4&S5&S6&S7&S8).
    destruct (wake_one_spec (mkQsys (q_sched x) m' q') (xTasksWaitingToSend (q_queue x)) false senders)
      as (b&s'&E2&Hok'&Hw'&Hf&Hnil); [done|done|].
    exists b, (mkQsys s' m' q'). split.
    { replace (0 <? Z.of_nat (length (y :: ms))) with true by (symmetry; apply Z.ltb_lt; cbn; lia).
      rewrite (bind_run _ _ _ _ _ E). unfold set_queue. rewrite update_bind. cbn [q_sched q_mem q_queue].
      rewrite <- Hc. fold q'. by rewrite (bind_run _ _ _ _ _ E2). }
    split; [|split; [intros Hs; by apply Hnil|done]].
    clearbody q'. split; cbn [q_queue q_mem q_sched]; rewrite ?S5, ?S6; try done.
    + destruct Hring as [r R]. exists r. apply (ring_frame q' (q_mem x)); [done|].
      rewrite S1, S3, S4. exact Hkeep.
    + apply Hf; [congruence|done].
  - intros ->. cbn [length]. change (0 <? Z.of_nat 0) with false. cbv iota. unfold no_luck. split; intros Hn.
    + by rewrite Hn.
    + rewrite (proj2 (Z.eqb_neq n 0)) by done. by destruct t.
Qed.

(** *** Interrupts, and a locked queue *)

(** [xQueueGenericSendFromISR] and the lock: without room it fails and
    changes nothing; with room it puts the message in, and then wakes the
    first waiting receiver if the queue is not locked; a locked queue's event
    lists are left alone, the message is counted in [cTxLock] instead, for
    [prvUnlockQueue] to make up for. *)
Theorem xQueueGenericSendFromISR_spec (x : qsys S) (src : Z) (pos : xCopyPosition_t) (bs : list Z)
  (xs : list (list Z)) (senders receivers : list Z) (ntasks : Z) :
  queue_inv x xs senders receivers ->
  load_bytes (Z.to_nat (uxItemSize (q_queue x))) src (q_mem x) = Some bs -> Forall byte_ok bs ->
  (pos = queueOVERWRITE -> uxLength (q_queue x) = 1) ->
  sc_tasks (q_sched x) = Some (ntasks, q_sched x) -> src <> 0 -> lock_counts x (cTxLock (q_queue x)) ->
  (Z.of_nat (length xs) = uxLength (q_queue x) -> pos <> queueOVERWRITE ->
     xQueueGenericSendFromISR src pos x = Some ((false, false), x)) /\
  (Z.of_nat (length xs) < uxLength (q_queue x) \/ pos = queueOVERWRITE ->
   exists woken x', xQueueGenericSendFromISR src pos x = Some ((true, woken), x') /\
     (cTxLock (q_queue x) = queueUNLOCKED ->
        queue_inv x' (placed pos bs xs) senders (tail receivers) /\ cTxLock (q_queue x') = queueUNLOCKED) /\
     (cTxLock (q_queue x) <> queueUNLOCKED ->
        queue_inv x' (placed pos bs xs) senders receivers /\ woken = false /\ q_sched x' = q_sched x /\
        cTxLock (q_queue x') = lock_incr ntasks (cTxLock (q_queue x))) /\
     cRxLock (q_queue x') = cRxLock (q_queue x) /\
     pcHead (q_queue x') = pcHead (q_queue x) /\ uxLength (q_queue x') = uxLength (q_queue x) /\
     uxItemSize (q_queue x') = uxItemSize (q_queue x) /\
     outside_kept (pcHead (q_queue x)) (uxLength (q_queue x) * uxItemSize (q_queue x)) (q_mem x) (q_mem x')).
Proof.
  intros HI Hload Hb Hone Hn Hsrc Hlock. destruct (ring_count x xs _ _ HI) as [Hc Hle].
  unfold xQueueGenericSendFromISR, get_queue. rewrite assert_item_bind, assert_position_bind, ask_bind, Hc by done. split.
  { intros Hfull Hpos. by rewrite Hfull, Z.ltb_irrefl, bool_decide_eq_false_2. }
  intros Hroom.
  destruct (send_done x src pos bs xs senders receivers false HI Hload Hb Hroom Hone)
    as (x1&y&x'&E1&HI1&E2&HI'&_&Hsame&Eq&Em&Es&Hout).
  replace ((Z.of_nat (length xs) <? uxLength (q_queue x)) || bool_decide (pos = queueOVERWRITE)) with true
    by (symmetry; apply orb_true_iff; rewrite Z.ltb_lt, bool_decide_eq_true; tauto).
  rewrite (bind_run _ _ _ _ _ E1). destruct Hsame as (S1&S2&S3&S4&S5&S6&S7&S8).
  destruct (Z.eqb_spec (cTxLock (q_queue x)) queueUNLOCKED) as [El|El].
  - exists y, x'. rewrite (bind_run _ _ _ _ _ E2), Eq, Em, S8, El. split_and!; try done.
  - set (q2 := if u32 (cTxLock (q_queue x)) <? ntasks
               then set_tx_lock (s8 (cTxLock (q_queue x) + 1)) (q_queue x1) else q_queue x1).
    exists false, (mkQsys (q_sched x1) (q_mem x1) q2). split.
    { rewrite <- Es in Hn. unfold lock_counts in Hlock. rewrite <- Es in Hlock. by rewrite (bind_run _ _ _ _ _ (tx_lock_run x1 _ _ Hn Hlock)). }
    assert (Hq2 : pcHead q2 = pcHead (q_queue x1) /\ pcTail q2 = pcTail (q_queue x1) /\
      pcWriteTo q2 = pcWriteTo (q_queue x1) /\ pcReadFrom q2 = pcReadFrom (q_queue x1) /\
      uxMessagesWaiting q2 = uxMessagesWaiting (q_queue x1) /\ uxLength q2 = uxLength (q_queue x1) /\
      uxItemSize q2 = uxItemSize (q_queue x1) /\ cRxLock q2 = cRxLock (q_queue x1) /\
      xTasksWaitingToSend q2 = xTasksWaitingToSend (q_queue x1) /\
      xTasksWaitingToReceive q2 = xTasksWaitingToReceive (q_queue x1) /\
      cTxLock q2 = lock_incr ntasks (cTxLock (q_queue x))).
    { subst q2. unfold lock_incr. destruct (u32 (cTxLock (q_queue x)) <? ntasks); split_and!; try done. }
    destruct Hq2 as (F1&F2&F3&F4&F5&F6&F7&F8&F9&F10&F11). cbn [q_queue q_mem q_sched].
    split_and!; try done; try congruence. intros _. split_and!; try done.
    destruct HI1 as [[r R] B1 B2 B3 B4 B5]. split; cbn [q_queue q_mem q_sched]; rewrite ?F9, ?F10; try done.
    exists r. by apply (ring_fields (q_queue x1)).
Qed.

Lemma unlock_loop_spec count : forall (x : qsys S) l ts,
  sched_ok (q_sched x) -> waits (q_sched x) l ts ->
  exists s', unlock_loop count l x = Some (tt, mkQsys s' (q_mem x) (q_queue x)) /\ sched_ok s' /\
    waits s' l (drop count ts) /\ (forall l' us, l' <> l -> waits (q_sched x) l' us -> waits s' l' us).
Proof.
  induction count as [|count IH]; intros x l ts Hok Hw; cbn [unlock_loop].
  - exists (q_sched x). rewrite drop_0. split_and!; try done. by destruct x.
  - rewrite (bind_run _ _ _ _ _ (sched_run _ x _ _ (law_empty _ _ _ Hok Hw))).
    destruct ts as [|t ts].
    + rewrite bool_decide_eq_true_2 by done. exists (q_sched x). split_and!; try done.
    + rewrite bool_decide_eq_false_2 by done. cbn [negb].
      destruct (law_remove _ _ _ _ Hok Hw) as (b&s1&E1&Hok1&Hw1&Hf1).
      assert (Hx : mkQsys (q_sched x) (q_mem x) (q_queue x) = x) by by destruct x.
      rewrite Hx. rewrite (bind_run _ _ _ _ _ (sched_run _ x _ _ E1)).
      assert (Hy : exists s2, (when b (sched sc_missed_yield)) (mkQsys s1 (q_mem x) (q_queue x))
          = Some (tt, mkQsys s2 (q_mem x) (q_queue x)) /\ sched_ok s2 /\
          (forall l us, waits s1 l us -> waits s2 l us)).
      { destruct b; cbn [when]; [|by exists s1].
        destruct (law_missed_yield s1 Hok1) as (s2&E2&Hok2&Hf2). exists s2. split; [|done].
        exact (sched_run _ (mkQsys s1 (q_mem x) (q_queue x)) _ _ E2). }
      destruct Hy as (s2&E2&Hok2&Hf2). rewrite (bind_run _ _ _ _ _ E2).
      destruct (IH (mkQsys s2 (q_mem x) (q_queue x)) l ts Hok2 (Hf2 _ _ Hw1)) as (s3&E3&Hok3&Hw3&Hf3).
      exists s3. split_and!; try done. intros l' us Hne Hu. apply Hf3; [done|]. by apply Hf2, Hf1.
Qed.

Lemma unlock_run (x : qsys S) xs senders receivers :
  queue_inv x xs senders receivers ->
  exists x', prvUnlockQueue x = Some (tt, x') /\
    queue_inv x' xs (drop (Z.to_nat (cRxLock (q_queue x))) senders)
      (drop (Z.to_nat (cTxLock (q_queue x))) receivers) /\
    q_mem x' = q_mem x /\ q_queue x' = set_rx_lock queueUNLOCKED (set_tx_lock queueUNLOCKED (q_queue x)).
Proof.
  intros [[r R] HB Hok Hws Hwr Hne].
  destruct (unlock_loop_spec (Z.to_nat (cTxLock (q_queue x))) x _ _ Hok Hwr) as (s1&E1&Hok1&Hw1&Hf1).
  set (q1 := set_tx_lock queueUNLOCKED (q_queue x)).
  destruct (unlock_loop_spec (Z.to_nat (cRxLock (q_queue x))) (mkQsys s1 (q_mem x) q1)
    (xTasksWaitingToSend (q_queue x)) senders Hok1) as (s2&E2&Hok2&Hw2&Hf2); [by apply Hf1|].
  eexists. split.
  { unfold prvUnlockQueue, get_queue. rewrite ask_bind, (bind_run _ _ _ _ _ E1).
    unfold set_queue. rewrite update_bind, ask_bind. cbn [q_sched q_mem q_queue]. fold q1.
    exact (bind_run _ _ _ _ _ E2). }
  split; [|done]. split; cbn; try done.
  - exists r. by apply (ring_fields (q_queue x)).
  - apply Hf2; [congruence|done].
Qed.

(** C10 — [prvUnlockQueue] makes up for what interrupts could not do while the
    queue was locked: it wakes, in the order of their lists, one receiver per
    message that was counted and one sender per place that was counted, as
    long as there are any, unlocks both counts and leaves the messages alone. *)
Theorem prvUnlockQueue_wakes (x : qsys S) (xs : list (list Z)) (senders receivers : list Z) :
  queue_inv x xs senders receivers ->
  exists x', prvUnlockQueue x = Some (tt, x') /\
    queue_inv x' xs (drop (Z.to_nat (cRxLock (q_queue x))) senders)
      (drop (Z.to_nat (cTxLock (q_queue x))) receivers) /\
    q_mem x' = q_mem x /\ q_queue x' = set_rx_lock queueUNLOCKED (set_tx_lock queueUNLOCKED (q_queue x)).
Proof. apply unlock_run. Qed.

(** *** Receiving, as one lemma for tasks and interrupts *)

Lemma receive_done (x : qsys S) dst y ms senders receivers :
  queue_inv x (y :: ms) senders receivers ->
  mapped (q_mem x) dst (uxItemSize (q_queue x)) ->
  (forall a, dst <= a < dst + uxItemSize (q_queue x) ->
     ~ pcHead (q_queue x) <= a < pcHead (q_queue x) + uxLength (q_queue x) * uxItemSize (q_queue x)) ->
  exists m' q', prvCopyDataFromQueue dst x = Some (tt, mkQsys (q_sched x) m' (step_read (q_queue x))) /\
    q' = set_messages (uxMessagesWaiting (q_queue x) - 1) (step_read (q_queue x)) /\
    queue_inv (mkQsys (q_sched x) m' q') ms senders receivers /\
    load_bytes (Z.to_nat (uxItemSize (q_queue x))) dst m' = Some y.
Proof.
  intros [HR HB Hok Hws Hwr Hne] Hm Hd. apply Forall_cons in HB as [Hy HB].
  destruct (copy_from_spec x dst y ms HR Hy Hm Hd) as (m'&E&Hl&Hout&Hkeep).
  exists m', (set_messages (uxMessagesWaiting (q_queue x) - 1) (step_read (q_queue x))).
  split; [exact E|]. split; [done|]. split; [|done].
  assert (Hsame : same_queue (q_queue x) (step_read (q_queue x))).
  { unfold same_queue, step_read. cbn. by case_match. }
  destruct Hsame as (S1&S2&S3&S4&S5&S6&S7&S8).
  split; cbn [q_queue q_mem q_sched set_messages xTasksWaitingToSend xTasksWaitingToReceive];
    rewrite ?S5, ?S6; try done.
  destruct HR as [r R]. destruct (ring_pop (q_queue x) (q_mem x) y ms r R) as [R' _].
  exists ((r + 1) `mod` uxLength (q_queue x)). apply (ring_frame _ (q_mem x)); [exact R'|].
  intros i Hi. apply Hkeep. cbn [pcHead uxLength uxItemSize set_messages] in Hi. by rewrite S1, S3, S4 in Hi.
Qed.

(** ** Interleavings

    The operations that tasks and interrupts perform on the queue, each in one
    piece; between them anything else may happen to the scheduler and to the
    memory outside of the storage. *)

Inductive op :=
  | OpSend (src : Z) (t : option TimeOut_t) (n : Z)
  | OpSendISR (src : Z)
  | OpReceive (dst : Z) (t : option TimeOut_t) (n : Z)
  | OpReceiveISR (dst : Z)
  | OpLock
  | OpUnlock.

Definition success (r : outcome * bool) : bool := match r.1 with Returns b => b | Continue _ => false end.

(** The result says whether a message went in or out. *)
Definition exec (o : op) : prog (qsys S) bool :=
  match o with
  | OpSend src t n => r ← xQueueGenericSend_try src queueSEND_TO_BACK t n; mret (success r)
  | OpSendISR src => r ← xQueueGenericSendFromISR src queueSEND_TO_BACK; mret r.1
  | OpReceive dst t n => r ← xQueueReceive_try dst t n; mret (success r)
  | OpReceiveISR dst => r ← xQueueReceiveFromISR dst; mret r.1
  | OpLock => _ ← prvLockQueue; mret false
  | OpUnlock => _ ← prvUnlockQueue; mret false
  end.

Definition item_in (x : qsys S) (a : Z) : option (list Z) :=
  load_bytes (Z.to_nat (uxItemSize (q_queue x))) a (q_mem x).

Definition item_ready (x : qsys S) (src : Z) : Prop := src <> 0 /\ exists bs, item_in x src = Some bs /\ Forall byte_ok bs.

Definition buffer_ready (x : qsys S) (dst : Z) : Prop := dst <> 0 /\
  mapped (q_mem x) dst (uxItemSize (q_queue x)) /\
  (forall a, dst <= a < dst + uxItemSize (q_queue x) ->
     ~ pcHead (q_queue x) <= a < pcHead (q_queue x) + uxLength (q_queue x) * uxItemSize (q_queue x)).

(** The caller's side, as the assertions demand it: what it sends is in memory,
    where it receives is memory outside of the queue, no call that may wait
    begins while the scheduler is suspended, and no lock counts beyond 127. *)
Definition op_ok (o : op) (x : qsys S) : Prop :=
  match o with
  | OpSend src t n => item_ready x src /\ (t = None -> may_wait x n)
  | OpSendISR src => item_ready x src /\ lock_counts x (cTxLock (q_queue x))
  | OpReceive dst t n => buffer_ready x dst /\ (t = None -> may_wait x n)
  | OpReceiveISR dst => buffer_ready x dst /\ lock_counts x (cRxLock (q_queue x))
  | _ => True
  end.

(** The messages that an operation put in, and those that it took out. *)
Definition sent_by (o : op) (ok : bool) (x : qsys S) : list (list Z) :=
  match o with
  | OpSend src _ _ | OpSendISR src => if ok then [default [] (item_in x src)] else []
  | _ => []
  end.
Definition received_by (o : op) (ok : bool) (x' : qsys S) : list (list Z) :=
  match o with
  | OpReceive dst _ _ | OpReceiveISR dst => if ok then [default [] (item_in x' dst)] else []
  | _ => []
  end.

(** A run of the system, with all messages sent and received in it. *)
Inductive run : qsys S -> list (list Z) -> list (list Z) -> qsys S -> Prop :=
  | run_nil x : run x [] [] x
  | run_op x sent received x1 o ok x2 :
      run x sent received x1 -> op_ok o x1 -> exec o x1 = Some (ok, x2) ->
      run x (sent ++ sent_by o ok x1) (received ++ received_by o ok x2) x2
  | run_env x sent received x1 s' m' senders receivers :
      run x sent received x1 ->
      (forall i, pcHead (q_queue x1) <= i < pcHead (q_queue x1) + uxLength (q_queue x1) * uxItemSize (q_queue x1) ->
         m' !! i = q_mem x1 !! i) ->
      sched_ok s' -> waits s' (xTasksWaitingToSend (q_queue x1)) senders ->
      waits s' (xTasksWaitingToReceive (q_queue x1)) receivers ->
      run x sent received (mkQsys s' m' (q_queue x1)).

Lemma no_luck_run (x : qsys S) t n :
  sched_ok (q_sched x) -> exists o, no_luck t n x = Some ((o, false), x) /\ success (o, false) = false.
Proof.
  intros Hok. unfold no_luck. destruct (n =? 0); [by exists (Returns false)|].
  destruct t as [t|]; [by exists (Continue (Wait t n))|].
  destruct (law_set_time_out _ Hok) as [t E]. exists (Continue (Wait t n)).
  assert (E' : sched sc_set_time_out x = Some (t, x)).
  { rewrite (sched_run _ x _ _ E). by destruct x. }
  by rewrite (bind_run _ _ _ _ _ E').
Qed.

(** What one operation does to the messages. *)
Definition moved (o : op) (x : qsys S) (xs : list (list Z)) : Prop :=
  exists ok x' xs' senders receivers, exec o x = Some (ok, x') /\
    queue_inv x' xs' senders receivers /\ xs ++ sent_by o ok x = received_by o ok x' ++ xs'.

Lemma exec_send (x : qsys S) xs senders receivers src t n :
  queue_inv x xs senders receivers -> op_ok (OpSend src t n) x -> moved (OpSend src t n) x xs.
Proof.
  intros HI [[Hsrc [bs [Hload Hb]]] Hw]. destruct (ring_count x xs _ _ HI) as [Hc Hle].
  unfold moved. cbn [exec]. unfold xQueueGenericSend_try, get_queue. rewrite bind_assoc_run, send_entry by (done || apply HI).
  rewrite bind_assoc_run, ask_bind, Hc.
  rewrite bool_decide_eq_false_2, orb_false_r by done.
  destruct (Z.ltb_spec (Z.of_nat (length xs)) (uxLength (q_queue x))) as [Hroom|Hfull].
  - destruct (send_done x src queueSEND_TO_BACK bs xs senders receivers false HI Hload Hb (or_introl Hroom))
      as (x1&y&x'&E1&_&E2&HI'&_); [done|].
    exists true, x', (xs ++ [bs]), senders, (tail receivers). split.
    { rewrite bind_assoc_run, (bind_run _ _ _ _ _ E1), bind_assoc_run, (bind_run _ _ _ _ _ E2). done. }
    split; [done|]. cbn. by rewrite Hload.
  - destruct (no_luck_run x t n (qi_sched _ _ _ _ HI)) as (o&E&Ho).
    exists false, x, xs, senders, receivers. rewrite (bind_run _ _ _ _ _ E), Ho.
    split; [done|]. split; [done|]. cbn. by rewrite app_nil_r.
Qed.

Lemma exec_send_isr (x : qsys S) xs senders receivers src :
  queue_inv x xs senders receivers -> op_ok (OpSendISR src) x -> moved (OpSendISR src) x xs.
Proof.
  intros HI [[Hsrc [bs [Hload Hb]]] Hlock]. destruct (ring_count x xs _ _ HI) as [Hc Hle].
  destruct (law_tasks _ (qi_sched _ _ _ _ HI)) as [ntasks Hn].
  unfold moved. cbn [exec]. unfold xQueueGenericSendFromISR, get_queue. rewrite bind_assoc_run, assert_item_bind by done.
  rewrite bind_assoc_run, assert_position_bind by done. rewrite bind_assoc_run, ask_bind, Hc.
  rewrite bool_decide_eq_false_2, orb_false_r by done.
  destruct (Z.ltb_spec (Z.of_nat (length xs)) (uxLength (q_queue x))) as [Hroom|Hfull].
  - destruct (send_done x src queueSEND_TO_BACK bs xs senders receivers false HI Hload Hb (or_introl Hroom))
      as (x1&y&x'&E1&HI1&E2&HI'&_&_&_&_&Es&_); [done|].
    rewrite bind_assoc_run, (bind_run _ _ _ _ _ E1).
    destruct (cTxLock (q_queue x) =? queueUNLOCKED).
    + exists true, x', (xs ++ [bs]), senders, (tail receivers).
      rewrite bind_assoc_run, (bind_run _ _ _ _ _ E2). split; [done|]. split; [done|]. cbn. by rewrite Hload.
    + set (q2 := if u32 (cTxLock (q_queue x)) <? ntasks
                 then set_tx_lock (s8 (cTxLock (q_queue x) + 1)) (q_queue x1) else q_queue x1).
      exists true, (mkQsys (q_sched x1) (q_mem x1) q2), (xs ++ [bs]), senders, receivers. split.
      { rewrite <- Es in Hn. unfold lock_counts in Hlock. rewrite <- Es in Hlock. rewrite !bind_assoc_run.
        by rewrite (bind_run _ _ _ _ _ (tx_lock_run x1 _ _ Hn Hlock)). }
      split; [|cbn; by rewrite Hload].
      destruct HI1 as [[r R] B1 B2 B3 B4 B5].
      split; subst q2; cbn [q_queue q_mem q_sched]; try done; destruct (_ <? _); try done.
      * exists r. by apply (ring_fields (q_queue x1)).
      * by exists r.
  - exists false, x, xs, senders, receivers. split; [done|]. split; [done|]. cbn. by rewrite app_nil_r.
Qed.

Lemma exec_receive (x : qsys S) xs senders receivers dst t n :
  queue_inv x xs senders receivers -> op_ok (OpReceive dst t n) x -> moved (OpReceive dst t n) x xs.
Proof.
  intros HI [(Hdst&Hm&Hd) Hw]. destruct (ring_count x xs _ _ HI) as [Hc Hle].
  unfold moved. cbn [exec]. unfold xQueueReceive_try, get_queue. rewrite bind_assoc_run, receive_entry by (done || apply HI).
  rewrite bind_assoc_run, ask_bind, Hc.
  destruct xs as [|y ms].
  - destruct (no_luck_run x t n (qi_sched _ _ _ _ HI)) as (o&E&Ho).
    exists false, x, [], senders, receivers. cbn [length]. change (0 <? Z.of_nat 0) with false. cbv iota.
    by rewrite (bind_run _ _ _ _ _ E), Ho.
  - destruct (receive_done x dst y ms senders receivers HI Hm Hd) as (m'&q'&E&Eq&HI1&Hl).
    destruct HI1 as [B0 B1 B2 B3 B4 B5]. cbn [q_queue q_mem q_sched] in *.
    assert (Hsend : xTasksWaitingToSend q' = xTasksWaitingToSend (q_queue x) /\ uxItemSize q' = uxItemSize (q_queue x)).
    { subst q'. unfold step_read. cbn. by case_match. }
    destruct Hsend as [Hsend Hsz]. rewrite Hsend in *.
    destruct (wake_one_spec (mkQsys (q_sched x) m' q') _ false senders B2 B3) as (b&s'&E2&Hok'&Hw'&Hf&_).
    exists true, (mkQsys s' m' q'), ms, (tail senders), receivers. split.
    { replace (0 <? Z.of_nat (length (y :: ms))) with true by (symmetry; apply Z.ltb_lt; cbn; lia).
      rewrite bind_assoc_run, (bind_run _ _ _ _ _ E), bind_assoc_run. unfold set_queue. rewrite update_bind.
      cbn [q_sched q_mem q_queue]. rewrite <- Hc, <- Eq. by rewrite bind_assoc_run, (bind_run _ _ _ _ _ E2). }
    split; [|cbn; unfold item_in; cbn; by rewrite Hsz, Hl, app_nil_r].
    split; cbn [q_queue q_mem q_sched]; rewrite ?Hsend; try done. apply Hf; [congruence|done].
Qed.

Lemma exec_receive_isr (x : qsys S) xs senders receivers dst :
  queue_inv x xs senders receivers -> op_ok (OpReceiveISR dst) x -> moved (OpReceiveISR dst) x xs.
Proof.
  intros HI [(Hdst&Hm&Hd) Hlock]. destruct (ring_count x xs _ _ HI) as [Hc Hle].
  destruct (law_tasks _ (qi_sched _ _ _ _ HI)) as [ntasks Hn].
  unfold moved. cbn [exec]. unfold xQueueReceiveFromISR, get_queue. rewrite bind_assoc_run, assert_item_bind by done.
  rewrite bind_assoc_run, ask_bind, Hc.
  destruct xs as [|y ms]; [by exists false, x, [], senders, receivers|].
  destruct (receive_done x dst y ms senders receivers HI Hm Hd) as (m'&q'&E&Eq&HI1&Hl).
  replace (0 <? Z.of_nat (length (y :: ms))) with true by (symmetry; apply Z.ltb_lt; cbn; lia).
  pose proof HI1 as [B0 B1 B2 B3 B4 B5]. cbn [q_queue q_mem q_sched] in *.
  assert (Hsend : xTasksWaitingToSend q' = xTasksWaitingToSend (q_queue x) /\ uxItemSize q' = uxItemSize (q_queue x)).
  { subst q'. unfold step_read. cbn. by case_match. }
  destruct Hsend as [Hsend Hsz]. rewrite Hsend in *.
  rewrite bind_assoc_run, (bind_run _ _ _ _ _ E), bind_assoc_run. unfold set_queue. rewrite update_bind.
  cbn [q_sched q_mem q_queue]. rewrite <- Hc, <- Eq.
  destruct (cRxLock (q_queue x) =? queueUNLOCKED).
  - destruct (wake_one_spec (mkQsys (q_sched x) m' q') _ false senders B2 B3) as (b&s'&E2&Hok'&Hw'&Hf&_).
    exists true, (mkQsys s' m' q'), ms, (tail senders), receivers. rewrite bind_assoc_run, (bind_run _ _ _ _ _ E2).
    split; [done|]. split; [|cbn; unfold item_in; cbn; by rewrite Hsz, Hl, app_nil_r].
    split; cbn [q_queue q_mem q_sched]; rewrite ?Hsend; try done. apply Hf; [congruence|done].
  - set (q2 := if u32 (cRxLock (q_queue x)) <? ntasks
               then set_rx_lock (s8 (cRxLock (q_queue x) + 1)) q' else q').
    exists true, (mkQsys (q_sched x) m' q2), ms, senders, receivers. split.
    { rewrite !bind_assoc_run. by rewrite (bind_run _ _ _ _ _ (rx_lock_run (mkQsys (q_sched x) m' q') _ _ Hn Hlock)). }
    assert (Hq2 : uxItemSize q2 = uxItemSize (q_queue x)) by (subst q2; by case_match).
    split; [|cbn; unfold item_in; cbn; by rewrite Hq2, Hl, app_nil_r].
    destruct B0 as [r R]. split; subst q2; cbn [q_queue q_mem q_sched]; try done; destruct (_ <? _); try done;
      cbn; rewrite ?Hsend; try done.
    + exists r. by apply (ring_fields q').
    + by exists r.
Qed.

Lemma lock_run (x : qsys S) xs senders receivers :
  queue_inv x xs senders receivers ->
  exists q', prvLockQueue x = Some (tt, mkQsys (q_sched x) (q_mem x) q') /\
    queue_inv (mkQsys (q_sched x) (q_mem x) q') xs senders receivers /\
    cRxLock q' <> queueUNLOCKED /\ cTxLock q' <> queueUNLOCKED.
Proof.
  intros [[r R] HB Hok Hws Hwr Hne]. unfold prvLockQueue, set_queue. rewrite update_bind. unfold update.
  eexists. split; [reflexivity|]. cbn [q_queue q_mem q_sched].
  destruct (Z.eqb_spec (cRxLock (q_queue x)) queueUNLOCKED) as [E1|E1]; cbn [cTxLock set_rx_lock];
    (destruct (Z.eqb_spec (cTxLock (q_queue x)) queueUNLOCKED) as [E2|E2]);
    (split; [split; cbn; try done; exists r; by apply (ring_fields (q_queue x))|]); split; done.
Qed.

Lemma exec_moves (o : op) (x : qsys S) xs senders receivers :
  queue_inv x xs senders receivers -> op_ok o x -> moved o x xs.
Proof.
  intros HI Ho. destruct o.
  - by eapply exec_send.
  - by eapply exec_send_isr.
  - by eapply exec_receive.
  - by eapply exec_receive_isr.
  - destruct (lock_run x xs _ _ HI) as (q'&E&HI'&_). eexists false, _, xs, _, _.
    cbn [exec]. rewrite (bind_run _ _ _ _ _ E). split; [reflexivity|]. split; [exact HI'|]. by rewrite app_nil_r.
  - destruct (unlock_run x xs _ _ HI) as (x'&E&HI'&_). eexists false, x', xs, _, _.
    cbn [exec]. rewrite (bind_run _ _ _ _ _ E). split; [reflexivity|]. split; [exact HI'|]. by rewrite app_nil_r.
Qed.

(** C7 — first in, first out, under any interleaving: whatever operations tasks
    and interrupts perform on a queue in whatever order, with anything else
    happening in between, the messages received so far followed by those still
    in the queue are the initial ones followed by those sent, in order; none
    is lost, duplicated or altered.  And no operation can get stuck or stop in
    an assertion: in every state that can be reached, every operation whose
    caller keeps its side returns. *)
Theorem queue_fifo (x x' : qsys S) (xs sent received : list (list Z)) (senders receivers : list Z) :
  queue_inv x xs senders receivers -> run x sent received x' ->
  exists xs' senders' receivers', queue_inv x' xs' senders' receivers' /\
    xs ++ sent = received ++ xs' /\
    (forall o, op_ok o x' -> exists ok x2, exec o x' = Some (ok, x2)).
Proof.
  intros HI Hrun.
  assert (H : exists xs' senders' receivers', queue_inv x' xs' senders' receivers' /\
    xs ++ sent = received ++ xs').
  { induction Hrun as [x|x sent received x1 o ok x2 Hrun IH Hok Hex|x sent received x1 s' m' ss rr Hrun IH Hm Hs Hw1 Hw2].
    - exists xs, senders, receivers. by rewrite app_nil_r.
    - destruct (IH HI) as (xs1&s1&r1&HI1&E1).
      destruct (exec_moves o x1 xs1 s1 r1 HI1 Hok) as (ok'&x3&xs2&s2&r2&Hex'&HI2&E2).
      rewrite Hex in Hex'. injection Hex' as <- <-. exists xs2, s2, r2. split; [done|].
      by rewrite app_assoc, E1, <- !app_assoc, E2.
    - destruct (IH HI) as (xs1&s1&r1&HI1&E1). exists xs1, ss, rr. split; [|done].
      destruct HI1 as [[r R] B1 B2 B3 B4 B5]. split; try done. exists r. by apply (ring_frame _ (q_mem x1)). }
  destruct H as (xs'&s'&r'&HI'&E). exists xs', s', r'. split; [done|]. split; [done|].
  intros o Ho. destruct (exec_moves o x' xs' s' r' HI' Ho) as (ok&x2&_&_&_&Hex&_). by exists ok, x2.
Qed.

End operations.
