(* ===== verification/QueueExamples.v ===== *)
(** * The queues on the real scheduler

    The theorems of [QueueProofs] are about any scheduler that keeps the laws;
    here they are applied to tasks.c, on a concrete queue of two words at
    address 1000 on which task 4 waits for a message. *)
From S2P Require Import Prelude KList Mem Tasks TasksInv TasksOps TasksProofs Sched SchedTasks Queue QueueProofs.
Open Scope Z_scope.

Definition raw_queue : qsys kernel :=
  mkQsys booted (fill 100 1000 7 ∅) (mkQueue 0 0 0 0 200 201 0 0 0 0 0).

Definition run_q {A} (p : prog (qsys kernel) A) (x : qsys kernel) : qsys kernel :=
  from_option snd raw_queue (p x).

(** Task 4 finds the queue empty, waits for five ticks at most, and task 2 runs. *)
Definition queue_ex : qsys kernel :=
  run_q (_ ← prvInitialiseNewQueue 2 4 1000 900;
         '(o, _) ← xQueueReceive_step 1040 (Try None 5);
         match o with
         | Continue c => _ ← xQueueReceive_step 1040 c; sched vTaskSwitchContext
         | Returns _ => mret tt
         end) raw_queue.

Lemma queue_ex_kernel : kernel_ok (q_sched queue_ex).
Proof. exists (read_lists (task_lists (q_sched queue_ex))). apply invb_ok. by vm_compute. Qed.

Lemma event_list_from_100 l : 100 <= l -> event_list l.
Proof.
  intros Hl. split; [|unfold xPendingReadyList; lia].
  intros [H|H%state_list_spec]; [unfold configMAX_PRIORITIES in H; lia|lia].
Qed.

Lemma queue_ex_mem : q_mem queue_ex = fill 100 1000 7 ∅.
Proof. by vm_compute. Qed.

Lemma queue_ex_head : pcHead (q_queue queue_ex) = 1000.
Proof. by vm_compute. Qed.

Lemma queue_ex_bytes : uxLength (q_queue queue_ex) * uxItemSize (q_queue queue_ex) = 8.
Proof. by vm_compute. Qed.

Lemma queue_ex_size : uxItemSize (q_queue queue_ex) = 4.
Proof. by vm_compute. Qed.

Lemma queue_ex_send : xTasksWaitingToSend (q_queue queue_ex) = 200.
Proof. by vm_compute. Qed.

Lemma queue_ex_receive : xTasksWaitingToReceive (q_queue queue_ex) = 201.
Proof. by vm_compute. Qed.

Lemma queue_ex_senders : kernel_waits (q_sched queue_ex) 200 [].
Proof.
  split; [apply event_list_from_100; lia|]. exists (mkAList [] 0). split; [|reflexivity].
  apply list_repb_ok. by vm_compute.
Qed.

Lemma queue_ex_receivers : kernel_waits (q_sched queue_ex) 201 [4].
Proof.
  split; [apply event_list_from_100; lia|]. exists (mkAList [9] 0). split; [|reflexivity].
  apply list_repb_ok. by vm_compute.
Qed.

Lemma queue_ex_inv : queue_inv queue_ex [] [] [4].
Proof.
  split.
  - exists 1. split; [by vm_compute..| |].
    + intros i x Hi. by rewrite lookup_nil in Hi.
    + rewrite queue_ex_mem, queue_ex_head, queue_ex_bytes.
      eapply mapped_sub; [apply fill_mapped|lia|lia].
  - constructor.
  - exact queue_ex_kernel.
  - rewrite queue_ex_send. exact queue_ex_senders.
  - rewrite queue_ex_receive. exact queue_ex_receivers.
  - rewrite queue_ex_send, queue_ex_receive. lia.
Qed.

Lemma queue_ex_item : load_bytes (Z.to_nat (uxItemSize (q_queue queue_ex))) 1050 (q_mem queue_ex) = Some [7; 7; 7; 7].
Proof. by vm_compute. Qed.

Lemma sevens_ok : Forall byte_ok [7; 7; 7; 7].
Proof. repeat constructor; lia. Qed.

Lemma queue_ex_length : uxLength (q_queue queue_ex) = 2.
Proof. by vm_compute. Qed.

(** A message for the waiting task: it is woken at once. *)
Lemma xQueueGenericSend_try_spec_witness :
  exists y x', xQueueGenericSend_try 1050 queueSEND_TO_BACK None 0 queue_ex = Some ((Returns true, y), x') /\
    queue_inv x' [[7; 7; 7; 7]] [] [].
Proof.
  destruct (xQueueGenericSend_try_spec queue_ex 1050 queueSEND_TO_BACK [7; 7; 7; 7] [] [] [4] None 0
    queue_ex_inv queue_ex_item sevens_ok) as [H _]; [discriminate|discriminate|intros _; by left|].
  destruct H as (y&x'&E&HI&_); [left; rewrite queue_ex_length; cbn; lia|].
  exists y, x'. split; [exact E|exact HI].
Defined.

Lemma buffer_ok a :
  1040 <= a < 1040 + uxItemSize (q_queue queue_ex) ->
  ~ pcHead (q_queue queue_ex) <= a < pcHead (q_queue queue_ex) + uxLength (q_queue queue_ex) * uxItemSize (q_queue queue_ex).
Proof. rewrite queue_ex_head, queue_ex_bytes, queue_ex_size. lia. Qed.

Lemma buffer_mapped : mapped (q_mem queue_ex) 1040 (uxItemSize (q_queue queue_ex)).
Proof. rewrite queue_ex_mem, queue_ex_size. eapply mapped_sub; [apply fill_mapped|lia|lia]. Qed.

Lemma xQueueReceive_try_spec_witness :
  xQueueReceive_try 1040 None 0 queue_ex = Some ((Returns false, false), queue_ex).
Proof.
  destruct (xQueueReceive_try_spec queue_ex 1040 [] [] [4] None 0 queue_ex_inv buffer_mapped buffer_ok) as [_ H];
    [discriminate|intros _; by left|].
  exact (proj1 (H eq_refl) eq_refl).
Defined.

Lemma queue_ex_tasks : sc_tasks (q_sched queue_ex) = Some (4, q_sched queue_ex).
Proof. by vm_compute. Qed.

Lemma queue_ex_counts : lock_counts queue_ex (cTxLock (q_queue queue_ex)).
Proof. assert (E : cTxLock (q_queue queue_ex) = queueUNLOCKED) by (by vm_compute). intros n _ _. by rewrite E. Qed.

Lemma xQueueGenericSendFromISR_spec_witness :
  exists woken x', xQueueGenericSendFromISR 1050 queueSEND_TO_BACK queue_ex = Some ((true, woken), x') /\
    queue_inv x' [[7; 7; 7; 7]] [] [].
Proof.
  destruct (xQueueGenericSendFromISR_spec queue_ex 1050 queueSEND_TO_BACK [7; 7; 7; 7] [] [] [4] 4
    queue_ex_inv queue_ex_item sevens_ok) as [_ H]; [discriminate|exact queue_ex_tasks|discriminate|exact queue_ex_counts|].
  destruct H as (w&x'&E&Hu&_); [left; rewrite queue_ex_length; cbn; lia|].
  exists w, x'. split; [exact E|]. apply Hu. by vm_compute.
Defined.

(** The queue as it is after an interrupt has brought a message while it was locked. *)
Definition locked_ex : qsys kernel :=
  mkQsys (q_sched queue_ex) (q_mem queue_ex) (set_rx_lock 0 (set_tx_lock 1 (q_queue queue_ex))).

Lemma locked_ex_inv : queue_inv locked_ex [] [] [4].
Proof. exact (queue_inv_locks queue_ex [] [] [4] 0 1 queue_ex_inv). Qed.

Lemma prvUnlockQueue_wakes_witness :
  exists x', prvUnlockQueue locked_ex = Some (tt, x') /\ queue_inv x' [] [] [].
Proof.
  destruct (prvUnlockQueue_wakes locked_ex [] [] [4] locked_ex_inv) as (x'&E&HI&_).
  exists x'. split; [exact E|exact HI].
Defined.

(** An interrupt sends a message into the empty queue. *)
Lemma queue_ex_sent :
  exists x1, xQueueGenericSendFromISR 1050 queueSEND_TO_BACK queue_ex = Some ((true, true), x1).
Proof.
  exists (run_q (xQueueGenericSendFromISR 1050 queueSEND_TO_BACK) queue_ex).
  apply (result_known (xQueueGenericSendFromISR 1050 queueSEND_TO_BACK queue_ex)). by vm_compute.
Qed.

Lemma run_one_send (x x1 : qsys kernel) a :
  op_ok (OpSendISR a) x -> xQueueGenericSendFromISR a queueSEND_TO_BACK x = Some ((true, true), x1) ->
  run x [default [] (item_in x a)] [] x1.
Proof.
  intros Hok E. apply (run_op x [] [] x (OpSendISR a) true x1); [constructor|exact Hok|].
  cbn [exec]. by rewrite (bind_run _ _ _ _ _ E).
Qed.

Lemma queue_ex_op_ok : op_ok (OpSendISR 1050) queue_ex.
Proof.
  split; [|exact queue_ex_counts]. split; [discriminate|]. exists [7; 7; 7; 7]. split; [exact queue_ex_item|exact sevens_ok].
Qed.

Lemma queue_ex_item_in : default [] (item_in queue_ex 1050) = [7; 7; 7; 7].
Proof. unfold item_in. by rewrite queue_ex_item. Qed.

Lemma queue_fifo_witness :
  exists x1 xs' s' r', xQueueGenericSendFromISR 1050 queueSEND_TO_BACK queue_ex = Some ((true, true), x1) /\
    queue_inv x1 xs' s' r' /\ [[7; 7; 7; 7]] = xs'.
Proof.
  destruct queue_ex_sent as [x1 E].
  destruct (queue_fifo queue_ex x1 [] _ _ [] [4] queue_ex_inv (run_one_send _ _ _ queue_ex_op_ok E))
    as (xs'&s'&r'&HI&Hx&_).
  exists x1, xs', s', r'. split; [exact E|]. split; [exact HI|].
  rewrite queue_ex_item_in in Hx. exact Hx.
Defined.
