(* ===== verification/StreamBuffer.v ===== *)
(** * Stream buffers and message buffers (stream_buffer.c)

    A byte ring in memory, read by one task and written by another one (or by
    interrupts) without mutual exclusion: the writer alone moves [xHead], the
    reader alone moves [xTail], each after it has copied the bytes.  The
    functions that copy and those that publish the new index are therefore
    separate definitions here ([write_message_copy], [read_message_copy]); the
    calls to the scheduler go through the interfaces of [Sched]. *)
From S2P Require Import Prelude Mem Tasks Sched.
Open Scope Z_scope.

(** Task handles are 0 for [NULL]. *)
Record StreamBuffer_t := mkSB {
  xTail : Z;
  xHead : Z;
  xLength : Z;
  xTriggerLevelBytes : Z;
  xTaskWaitingToReceive : Z;
  xTaskWaitingToSend : Z;
  pucBuffer : Z;
  ucFlags : Z
}.

Definition sbBYTES_TO_STORE_MESSAGE_LENGTH : Z := 4.
Definition sbFLAGS_IS_MESSAGE_BUFFER : Z := 1.

Definition is_message_buffer (b : StreamBuffer_t) : bool :=
  negb (Z.land (ucFlags b) sbFLAGS_IS_MESSAGE_BUFFER =? 0).

Definition set_xTail (v : Z) (b : StreamBuffer_t) : StreamBuffer_t :=
  mkSB v (xHead b) (xLength b) (xTriggerLevelBytes b) (xTaskWaitingToReceive b) (xTaskWaitingToSend b)
    (pucBuffer b) (ucFlags b).
Definition set_xHead (v : Z) (b : StreamBuffer_t) : StreamBuffer_t :=
  mkSB (xTail b) v (xLength b) (xTriggerLevelBytes b) (xTaskWaitingToReceive b) (xTaskWaitingToSend b)
    (pucBuffer b) (ucFlags b).
Definition set_trigger (v : Z) (b : StreamBuffer_t) : StreamBuffer_t :=
  mkSB (xTail b) (xHead b) (xLength b) v (xTaskWaitingToReceive b) (xTaskWaitingToSend b)
    (pucBuffer b) (ucFlags b).
Definition set_receiver (v : Z) (b : StreamBuffer_t) : StreamBuffer_t :=
  mkSB (xTail b) (xHead b) (xLength b) (xTriggerLevelBytes b) v (xTaskWaitingToSend b)
    (pucBuffer b) (ucFlags b).
Definition set_sender (v : Z) (b : StreamBuffer_t) : StreamBuffer_t :=
  mkSB (xTail b) (xHead b) (xLength b) (xTriggerLevelBytes b) (xTaskWaitingToReceive b) v
    (pucBuffer b) (ucFlags b).

(** ** Sizes *)

Definition prvBytesInBuffer (b : StreamBuffer_t) : Z :=
  let xCount := u32 (u32 (xLength b + xHead b) - xTail b) in
  if xLength b <=? xCount then u32 (xCount - xLength b) else xCount.

(** The [do] loop repeats the reading until [xTail] is the same before and after it. *)
Definition xStreamBufferSpacesAvailable (b : StreamBuffer_t) : Z :=
  let xSpace := u32 (u32 (xLength b + xTail b) - xHead b) in
  let xSpace := u32 (xSpace - 1) in
  if xLength b <=? xSpace then u32 (xSpace - xLength b) else xSpace.

Definition xStreamBufferBytesAvailable (b : StreamBuffer_t) : Z := prvBytesInBuffer b.

Definition xStreamBufferIsEmpty (b : StreamBuffer_t) : bool := xHead b =? xTail b.

Definition length_bytes (b : StreamBuffer_t) : Z :=
  if is_message_buffer b then sbBYTES_TO_STORE_MESSAGE_LENGTH else 0.

Definition xStreamBufferIsFull (b : StreamBuffer_t) : bool :=
  xStreamBufferSpacesAvailable b <=? length_bytes b.

(** ** The state: the memory and the structure *)

Abbreviation B := (prog (mem * StreamBuffer_t)).

Definition buffer : B StreamBuffer_t := ask snd.
Definition set_buffer (f : StreamBuffer_t -> StreamBuffer_t) : B unit := update (fun x => (x.1, f x.2)).
Definition memory (f : mem -> option mem) : B unit := try_update (fun x => m ← f x.1; Some (m, x.2)).
Definition bytes_at (a n : Z) : B (list Z) := try_ask (fun x => load_bytes (Z.to_nat n) a x.1).

(** ** Creation *)

(** The memory of the buffer is filled with 0x55 inside of a [configASSERT]. *)
Definition prvInitialiseNewStreamBuffer (pucBuffer xBufferSizeBytes xTriggerLevelBytes ucFlags : Z) : B unit :=
  _ ← memory (memset pucBuffer 85 (Z.to_nat xBufferSizeBytes));
  set_buffer (fun _ => mkSB 0 0 xBufferSizeBytes xTriggerLevelBytes 0 0 pucBuffer ucFlags).

(** [xStreamBufferGenericCreate]: what it asks the heap for, [None] when it
    does not; [sizeof_sb] is the compiler's [sizeof( StreamBuffer_t )]. *)
Definition stream_buffer_allocation (sizeof_sb xBufferSizeBytes xTriggerLevelBytes : Z) (xIsMessageBuffer : bool) :
  B (option Z) :=
  _ ← configASSERT (if xIsMessageBuffer then sbBYTES_TO_STORE_MESSAGE_LENGTH <? xBufferSizeBytes
                    else 0 <? xBufferSizeBytes);
  _ ← configASSERT (xTriggerLevelBytes <=? xBufferSizeBytes);
  mret (if xBufferSizeBytes <? u32 (xBufferSizeBytes + 1 + sizeof_sb)
        then Some (u32 (u32 (xBufferSizeBytes + 1) + sizeof_sb)) else None).

(** The buffer that is made in the memory [pucAllocatedMemory] from the heap. *)
Definition new_stream_buffer (sizeof_sb xBufferSizeBytes xTriggerLevelBytes : Z) (xIsMessageBuffer : bool)
  (pucAllocatedMemory : Z) : B unit :=
  prvInitialiseNewStreamBuffer (pucAllocatedMemory + sizeof_sb) (u32 (xBufferSizeBytes + 1))
    (if xTriggerLevelBytes =? 0 then 1 else xTriggerLevelBytes)
    (if xIsMessageBuffer then sbFLAGS_IS_MESSAGE_BUFFER else 0).

Definition xStreamBufferReset : B bool :=
  b ← buffer;
  if (xTaskWaitingToReceive b =? 0) && (xTaskWaitingToSend b =? 0) then
    _ ← prvInitialiseNewStreamBuffer (pucBuffer b) (xLength b) (xTriggerLevelBytes b) (ucFlags b); mret true
  else mret false.

Definition xStreamBufferSetTriggerLevel (xTriggerLevel : Z) (b : StreamBuffer_t) : bool * StreamBuffer_t :=
  let xTriggerLevel := if xTriggerLevel =? 0 then 1 else xTriggerLevel in
  if xTriggerLevel <? xLength b then (true, set_trigger xTriggerLevel b) else (false, b).

(** ** The bytes *)

(** Bytes are copied from the caller's memory, or from a local variable (the
    length of a message); to the caller's memory, or to a local variable. *)
Inductive place := At (pucData : Z) | Local (bs : list Z).

Definition take_from (src : place) (offset n : Z) : B (list Z) :=
  match src with
  | At a => bytes_at (a + offset) n
  | Local bs => mret (take (Z.to_nat n) (drop (Z.to_nat offset) bs))
  end.

(** One [memcpy] into the ring. *)
Definition copy_in (src : place) (offset n dst : Z) : B unit :=
  bs ← take_from src offset n; memory (store_bytes dst bs).

Definition prvWriteBytesToBuffer (pucData : place) (xCount head : Z) : B Z :=
  b ← buffer;
  _ ← configASSERT (0 <? xCount);
  let xFirstLength := Z.min (u32 (xLength b - head)) xCount in
  _ ← configASSERT (u32 (head + xFirstLength) <=? xLength b);
  _ ← copy_in pucData 0 xFirstLength (pucBuffer b + head);
  _ ← when (xFirstLength <? xCount)
        (_ ← configASSERT (xCount - xFirstLength <=? xLength b);
         copy_in pucData xFirstLength (xCount - xFirstLength) (pucBuffer b));
  let head := u32 (head + xCount) in
  mret (if xLength b <=? head then u32 (head - xLength b) else head).

(** One [memcpy] out of the ring; a local variable is the result. *)
Definition copy_out (dst : option Z) (src n : Z) : B (list Z) :=
  bs ← bytes_at src n;
  _ ← match dst with Some a => memory (store_bytes a bs) | None => mret tt end;
  mret bs.

(** Returns the bytes and the new tail. *)
Definition prvReadBytesFromBuffer (pucData : option Z) (xCount tail : Z) : B (list Z * Z) :=
  b ← buffer;
  _ ← configASSERT (negb (xCount =? 0));
  let xFirstLength := Z.min (u32 (xLength b - tail)) xCount in
  _ ← configASSERT (xFirstLength <=? xCount);
  _ ← configASSERT (u32 (tail + xFirstLength) <=? xLength b);
  bs1 ← copy_out pucData (pucBuffer b + tail) xFirstLength;
  bs2 ← (if xFirstLength <? xCount
         then copy_out ((fun a => a + xFirstLength) <$> pucData) (pucBuffer b) (xCount - xFirstLength)
         else mret []);
  let tail := u32 (tail + xCount) in
  mret (bs1 ++ bs2, if xLength b <=? tail then u32 (tail - xLength b) else tail).

(** ** Messages *)

(** [prvWriteMessageToBuffer] up to the publication of the new head: the length
    written and that head.  ([configMESSAGE_BUFFER_LENGTH_TYPE] is [size_t], so
    the check that the length fits into it always holds.) *)
Definition write_message_copy (pvTxData : Z) (xDataLengthBytes xSpace xRequiredSpace : Z) : B (Z * Z) :=
  b ← buffer;
  '(len, xNextHead) ←
    (if is_message_buffer b then
       if xRequiredSpace <=? xSpace then
         h ← prvWriteBytesToBuffer (Local (le_split 4 xDataLengthBytes)) sbBYTES_TO_STORE_MESSAGE_LENGTH (xHead b);
         mret (xDataLengthBytes, h)
       else mret (0, xHead b)
     else mret (Z.min xDataLengthBytes xSpace, xHead b));
  if negb (len =? 0) then
    h ← prvWriteBytesToBuffer (At pvTxData) len xNextHead; mret (len, h)
  else mret (len, xHead b).

Definition publish_head (r : Z * Z) : B Z :=
  _ ← when (negb (r.1 =? 0)) (set_buffer (set_xHead r.2)); mret r.1.

Definition prvWriteMessageToBuffer (pvTxData : Z) (xDataLengthBytes xSpace xRequiredSpace : Z) : B Z :=
  r ← write_message_copy pvTxData xDataLengthBytes xSpace xRequiredSpace; publish_head r.

(** [prvReadMessageFromBuffer] up to the publication of the new tail: the
    length read and that tail. *)
Definition read_message_copy (pvRxData : Z) (xBufferLengthBytes xBytesAvailable : Z) : B (Z * Z) :=
  b ← buffer;
  '(xNextMessageLength, xBytesAvailable, xNextTail) ←
    (if is_message_buffer b then
       '(len, t) ← prvReadBytesFromBuffer None sbBYTES_TO_STORE_MESSAGE_LENGTH (xTail b);
       let len := le_combine len in
       mret (if xBufferLengthBytes <? len then 0 else len,
             u32 (xBytesAvailable - sbBYTES_TO_STORE_MESSAGE_LENGTH), t)
     else mret (xBufferLengthBytes, xBytesAvailable, xTail b));
  let xCount := Z.min xNextMessageLength xBytesAvailable in
  if negb (xCount =? 0) then
    '(_, t) ← prvReadBytesFromBuffer (Some pvRxData) xCount xNextTail; mret (xCount, t)
  else mret (xCount, xTail b).

Definition publish_tail (r : Z * Z) : B Z :=
  _ ← when (negb (r.1 =? 0)) (set_buffer (set_xTail r.2)); mret r.1.

Definition prvReadMessageFromBuffer (pvRxData : Z) (xBufferLengthBytes xBytesAvailable : Z) : B Z :=
  r ← read_message_copy pvRxData xBufferLengthBytes xBytesAvailable; publish_tail r.

Definition xStreamBufferNextMessageLengthBytes : B Z :=
  b ← buffer;
  if is_message_buffer b then
    if sbBYTES_TO_STORE_MESSAGE_LENGTH <? prvBytesInBuffer b then
      '(len, _) ← prvReadBytesFromBuffer None sbBYTES_TO_STORE_MESSAGE_LENGTH (xTail b);
      mret (le_combine len)
    else _ ← configASSERT (prvBytesInBuffer b =? 0); mret 0
  else mret 0.

(** The space that a message of a given length needs ([xStreamBufferSend]). *)
Definition required_space (b : StreamBuffer_t) (xDataLengthBytes : Z) : Z :=
  if is_message_buffer b then u32 (xDataLengthBytes + sbBYTES_TO_STORE_MESSAGE_LENGTH)
  else Z.min xDataLengthBytes (u32 (xLength b - 1)).

(** ** Sending and receiving

    A call that blocks is a sequence of steps; between two steps other tasks
    and interrupts run. *)

(** The calls of tasks.c that only stream buffers make: [xTaskNotify] and
    [xTaskNotifyFromISR] with [eNoAction], [xTaskNotifyStateClear] of the
    running task, and the two critical sections of [xTaskNotifyWait]. *)
Class Notifier (S : Type) := {
  nt_notify : Z -> prog S unit;
  nt_notify_isr : Z -> prog S bool;
  nt_state_clear : prog S unit;
  nt_wait_enter : Z -> prog S bool;
  nt_wait_exit : prog S unit
}.

Record sbsys (S : Type) := mkSbsys { sb_sched : S; sb_mem : mem; sb_buffer : StreamBuffer_t }.
Arguments mkSbsys {S}. Arguments sb_sched {S}. Arguments sb_mem {S}. Arguments sb_buffer {S}.

(** Where a call of [xStreamBufferSend] stands: at the top of its loop, waiting
    for a notification (with the space it saw), or past the loop. *)
Inductive send_call :=
  | SendCheck (xTimeOut : TimeOut_t) (xTicksToWait : Z)
  | SendBlocked (xTimeOut : TimeOut_t) (xTicksToWait xSpace : Z)
  | SendWrite (xSpace : Z)
  | SendDone (xReturn : Z).

Inductive receive_call :=
  | ReceiveBlocked
  | ReceiveRead (xBytesAvailable : Z)
  | ReceiveDone (xReceivedLength : Z).

Section stream_buffer.
Context {S : Type} `{!Scheduler S, !Notifier S}.

Abbreviation SB := (prog (sbsys S)).

Definition scheduler {A} (p : prog S A) : SB A :=
  fun x => '(r, s) ← p (sb_sched x); Some (r, mkSbsys s (sb_mem x) (sb_buffer x)).
Definition bytes {A} (p : B A) : SB A :=
  fun x => '(r, (m, b)) ← p (sb_mem x, sb_buffer x); Some (r, mkSbsys (sb_sched x) m b).

(** [sbSEND_COMPLETED], [sbRECEIVE_COMPLETED] *)
Definition prvSEND_COMPLETED : SB unit :=
  _ ← scheduler sc_suspend;
  b ← bytes buffer;
  _ ← when (negb (xTaskWaitingToReceive b =? 0))
        (_ ← scheduler (nt_notify (xTaskWaitingToReceive b)); bytes (set_buffer (set_receiver 0)));
  _ ← scheduler sc_resume;
  mret tt.

Definition prvRECEIVE_COMPLETED : SB unit :=
  _ ← scheduler sc_suspend;
  b ← bytes buffer;
  _ ← when (negb (xTaskWaitingToSend b =? 0))
        (_ ← scheduler (nt_notify (xTaskWaitingToSend b)); bytes (set_buffer (set_sender 0)));
  _ ← scheduler sc_resume;
  mret tt.

(** Return whether there was a task to notify, and whether it has a higher
    priority than the running one. *)
Definition xStreamBufferSendCompletedFromISR : SB (bool * bool) :=
  b ← bytes buffer;
  if negb (xTaskWaitingToReceive b =? 0) then
    y ← scheduler (nt_notify_isr (xTaskWaitingToReceive b));
    _ ← bytes (set_buffer (set_receiver 0));
    mret (true, y)
  else mret (false, false).

Definition xStreamBufferReceiveCompletedFromISR : SB (bool * bool) :=
  b ← bytes buffer;
  if negb (xTaskWaitingToSend b =? 0) then
    y ← scheduler (nt_notify_isr (xTaskWaitingToSend b));
    _ ← bytes (set_buffer (set_sender 0));
    mret (true, y)
  else mret (false, false).

(** The start of [xStreamBufferSend], up to its loop. *)
Definition send_start (pvTxData xDataLengthBytes xTicksToWait : Z) : SB send_call :=
  _ ← configASSERT (negb (pvTxData =? 0));
  b ← bytes buffer;
  _ ← when (is_message_buffer b) (configASSERT (xDataLengthBytes <? required_space b xDataLengthBytes));
  let xTicksToWait :=
    if is_message_buffer b && (u32 (xLength b - 1) <? required_space b xDataLengthBytes) then 0
    else xTicksToWait in
  if negb (xTicksToWait =? 0) then
    t ← scheduler sc_set_time_out; mret (SendCheck t xTicksToWait)
  else mret (SendWrite 0).

(** One step; the second result is whether it yields. *)
Definition xStreamBufferSend_step (pvTxData xDataLengthBytes : Z) (c : send_call) : SB (send_call * bool) :=
  b ← bytes buffer;
  let xRequiredSpace := required_space b xDataLengthBytes in
  match c with
  | SendCheck t n =>
      let xSpace := xStreamBufferSpacesAvailable b in
      if xSpace <? xRequiredSpace then
        _ ← scheduler nt_state_clear;
        _ ← configASSERT (xTaskWaitingToSend b =? 0);
        current ← scheduler sc_current;
        _ ← bytes (set_buffer (set_sender current));
        y ← scheduler (nt_wait_enter n);
        mret (SendBlocked t n xSpace, y)
      else mret (SendWrite xSpace, false)
  | SendBlocked t n xSpace =>
      _ ← scheduler nt_wait_exit;
      _ ← bytes (set_buffer (set_sender 0));
      '(expired, t, n) ← scheduler (sc_check_time_out t n);
      mret (if (expired : bool) then SendWrite xSpace else SendCheck t n, false)
  | SendWrite xSpace =>
      let xSpace := if xSpace =? 0 then xStreamBufferSpacesAvailable b else xSpace in
      xReturn ← bytes (prvWriteMessageToBuffer pvTxData xDataLengthBytes xSpace xRequiredSpace);
      b ← bytes buffer;
      _ ← when ((0 <? xReturn) && (xTriggerLevelBytes b <=? prvBytesInBuffer b)) prvSEND_COMPLETED;
      mret (SendDone xReturn, false)
  | SendDone r => mret (SendDone r, false)
  end.

(** Returns the length sent and whether a task of higher priority was woken. *)
Definition xStreamBufferSendFromISR (pvTxData xDataLengthBytes : Z) : SB (Z * bool) :=
  _ ← configASSERT (negb (pvTxData =? 0));
  b ← bytes buffer;
  let xRequiredSpace := if is_message_buffer b then u32 (xDataLengthBytes + sbBYTES_TO_STORE_MESSAGE_LENGTH)
                        else xDataLengthBytes in
  xReturn ← bytes (prvWriteMessageToBuffer pvTxData xDataLengthBytes (xStreamBufferSpacesAvailable b) xRequiredSpace);
  b ← bytes buffer;
  if (0 <? xReturn) && (xTriggerLevelBytes b <=? prvBytesInBuffer b) then
    '(_, y) ← xStreamBufferSendCompletedFromISR; mret (xReturn, y)
  else mret (xReturn, false).

(** The first critical section of [xStreamBufferReceive], and the start of its wait. *)
Definition receive_start (pvRxData xTicksToWait : Z) : SB (receive_call * bool) :=
  _ ← configASSERT (negb (pvRxData =? 0));
  b ← bytes buffer;
  let xBytesAvailable := prvBytesInBuffer b in
  if negb (xTicksToWait =? 0) && (xBytesAvailable <=? length_bytes b) then
    _ ← scheduler nt_state_clear;
    _ ← configASSERT (xTaskWaitingToReceive b =? 0);
    current ← scheduler sc_current;
    _ ← bytes (set_buffer (set_receiver current));
    y ← scheduler (nt_wait_enter xTicksToWait);
    mret (ReceiveBlocked, y)
  else mret (ReceiveRead xBytesAvailable, false).

Definition xStreamBufferReceive_step (pvRxData xBufferLengthBytes : Z) (c : receive_call) : SB receive_call :=
  match c with
  | ReceiveBlocked =>
      _ ← scheduler nt_wait_exit;
      _ ← bytes (set_buffer (set_receiver 0));
      b ← bytes buffer;
      mret (ReceiveRead (prvBytesInBuffer b))
  | ReceiveRead xBytesAvailable =>
      b ← bytes buffer;
      if length_bytes b <? xBytesAvailable then
        n ← bytes (prvReadMessageFromBuffer pvRxData xBufferLengthBytes xBytesAvailable);
        _ ← when (negb (n =? 0)) prvRECEIVE_COMPLETED;
        mret (ReceiveDone n)
      else mret (ReceiveDone 0)
  | ReceiveDone n => mret (ReceiveDone n)
  end.

Definition xStreamBufferReceiveFromISR (pvRxData xBufferLengthBytes : Z) : SB (Z * bool) :=
  _ ← configASSERT (negb (pvRxData =? 0));
  b ← bytes buffer;
  let xBytesAvailable := prvBytesInBuffer b in
  if length_bytes b <? xBytesAvailable then
    n ← bytes (prvReadMessageFromBuffer pvRxData xBufferLengthBytes xBytesAvailable);
    if negb (n =? 0) then '(_, y) ← xStreamBufferReceiveCompletedFromISR; mret (n, y)
    else mret (0, false)
  else mret (0, false).

End stream_buffer.

(** tasks.c as the notifier. *)
#[export] Instance kernel_notifier : Notifier kernel := {
  nt_notify t := _ ← xTaskGenericNotify t 0 eNoAction; mret tt;
  nt_notify_isr t := '(_, _, y) ← xTaskGenericNotifyFromISR t 0 eNoAction; mret y;
  nt_state_clear := _ ← xTaskGenericNotifyStateClear 0; mret tt;
  nt_wait_enter n := notify_wait_enter 0 n;
  nt_wait_exit := _ ← notify_wait_exit 0; mret tt
}.
