(* ===== verification/StreamBufferProofs.v ===== *)
(** * Properties of the stream and message buffers

    The ring as a sequence of bytes, what the two copying functions do to it,
    and the sequence of bytes (or of messages) that passes through it while
    the reader and the writer run concurrently. *)
From S2P Require Import Prelude Mem Tasks Sched StreamBuffer.
Open Scope Z_scope.

(** ** The ring of bytes *)

(** The address of the byte with (unwrapped) index [i]. *)
Definition cell (b : StreamBuffer_t) (i : Z) : Z := pucBuffer b + i `mod` xLength b.

Record buffer_ok (b : StreamBuffer_t) (m : mem) : Prop := {
  bk_length : 2 <= xLength b < 2 ^ 31;
  bk_tail : 0 <= xTail b < xLength b;
  bk_head : 0 <= xHead b < xLength b;
  bk_mapped : mapped m (pucBuffer b) (xLength b)
}.

(** The bytes [xs] are in the ring from index [t] on. *)
Definition holds (b : StreamBuffer_t) (m : mem) (t : Z) (xs : list Z) : Prop :=
  forall i x, xs !! i = Some x -> m !! cell b (t + Z.of_nat i) = Some x.

(** The contents: as many bytes as it takes from the tail to the head. *)
Definition contents (b : StreamBuffer_t) (m : mem) (xs : list Z) : Prop :=
  Z.of_nat (length xs) < xLength b /\ (xTail b + Z.of_nat (length xs)) `mod` xLength b = xHead b /\
  holds b m (xTail b) xs.

Definition wrap (len h : Z) : Z := if len <=? h then h - len else h.

Lemma wrap_mod len h : 0 < len -> 0 <= h < 2 * len -> wrap len h = h `mod` len.
Proof.
  intros Hl Hh. unfold wrap. destruct (Z.leb_spec len h).
  - apply (Z.mod_unique_pos h len 1 (h - len)); lia.
  - by rewrite Z.mod_small by lia.
Qed.

(** The step of an index after [n] bytes. *)
Lemma index_step len h n :
  0 < len < 2 ^ 31 -> 0 <= h < len -> 0 <= n <= len ->
  (if len <=? u32 (h + n) then u32 (u32 (h + n) - len) else u32 (h + n)) = (h + n) `mod` len.
Proof.
  intros Hl Hh Hn. rewrite (u32_small (h + n)) by lia. rewrite <- wrap_mod by lia. unfold wrap.
  destruct (Z.leb_spec len (h + n)); [by rewrite u32_small by lia|done].
Qed.

Lemma prvBytesInBuffer_mod b : 0 <= xTail b < xLength b -> 0 <= xHead b < xLength b -> xLength b < 2 ^ 31 ->
  prvBytesInBuffer b = (xHead b - xTail b) `mod` xLength b.
Proof.
  intros Ht Hh Hl. unfold prvBytesInBuffer. rewrite (u32_small (xLength b + xHead b)) by lia.
  rewrite (u32_small (xLength b + xHead b - xTail b)) by lia.
  transitivity (wrap (xLength b) (xLength b + xHead b - xTail b)).
  - unfold wrap. destruct (Z.leb_spec (xLength b) (xLength b + xHead b - xTail b)); [|done].
    by rewrite u32_small by lia.
  - rewrite wrap_mod by lia. replace (xLength b + xHead b - xTail b) with (xHead b - xTail b + 1 * xLength b) by lia.
    apply Z.mod_add. lia.
Qed.

(** [prvBytesInBuffer] and [xStreamBufferSpacesAvailable] measure the contents. *)
Lemma bytes_contents b m xs : buffer_ok b m -> contents b m xs -> prvBytesInBuffer b = Z.of_nat (length xs).
Proof.
  intros [Hl Ht Hh _] (Hn&Hi&_). rewrite prvBytesInBuffer_mod by lia. rewrite <- Hi.
  rewrite Zminus_mod_idemp_l. replace (xTail b + Z.of_nat (length xs) - xTail b) with (Z.of_nat (length xs)) by lia.
  apply Z.mod_small. lia.
Qed.

Lemma spaces_contents b m xs : buffer_ok b m -> contents b m xs ->
  xStreamBufferSpacesAvailable b = xLength b - 1 - Z.of_nat (length xs).
Proof.
  intros [Hl Ht Hh Hm] (Hn&Hi&Hx). unfold xStreamBufferSpacesAvailable.
  rewrite (u32_small (xLength b + xTail b)) by lia. rewrite (u32_small (xLength b + xTail b - xHead b)) by lia.
  rewrite (u32_small (xLength b + xTail b - xHead b - 1)) by lia.
  transitivity (wrap (xLength b) (xLength b + xTail b - xHead b - 1)).
  - unfold wrap. destruct (Z.leb_spec (xLength b) (xLength b + xTail b - xHead b - 1)); [|done].
    by rewrite u32_small by lia.
  - rewrite wrap_mod by lia. symmetry.
    rewrite <- wrap_mod in Hi by lia. unfold wrap in Hi.
    destruct (Z.leb_spec (xLength b) (xTail b + Z.of_nat (length xs))).
    + replace (xLength b + xTail b - xHead b - 1) with (xLength b - 1 - Z.of_nat (length xs) + 1 * xLength b) by lia.
      rewrite Z.mod_add by lia. by rewrite Z.mod_small by lia.
    + replace (xLength b + xTail b - xHead b - 1) with (xLength b - 1 - Z.of_nat (length xs)) by lia.
      by rewrite Z.mod_small by lia.
Qed.

(** ** Copying into the ring *)

(** The bytes [bs] come from [src]; memory to copy from lies outside of the ring. *)
Definition source (b : StreamBuffer_t) (m : mem) (src : place) (bs : list Z) : Prop :=
  match src with
  | Local l => l = bs
  | At a => load_bytes (length bs) a m = Some bs /\
      (a + Z.of_nat (length bs) <= pucBuffer b \/ pucBuffer b + xLength b <= a)
  end.

Lemma load_bytes_piece bs a m off n :
  load_bytes (length bs) a m = Some bs -> (off + n <= length bs)%nat ->
  load_bytes n (a + Z.of_nat off) m = Some (take n (drop off bs)).
Proof.
  intros H Hn. apply load_bytes_spec in H as [_ H]. apply load_bytes_spec. split.
  - rewrite length_take, length_drop. lia.
  - intros i Hi. rewrite lookup_take_lt by lia. rewrite lookup_drop, <- H by lia. f_equal. lia.
Qed.

(** One [memcpy] into the ring. *)
Lemma copy_in_spec b m src bs off n dst :
  source b m src bs -> Forall byte_ok bs -> (off + n <= length bs)%nat -> mapped m dst (Z.of_nat n) ->
  exists m', copy_in src (Z.of_nat off) (Z.of_nat n) dst (m, b) = Some (tt, (m', b)) /\
    (forall i x, (i < n)%nat -> bs !! (off + i)%nat = Some x -> m' !! (dst + Z.of_nat i) = Some x) /\
    outside_kept dst (Z.of_nat n) m m' /\ (forall a k, mapped m a k -> mapped m' a k).
Proof.
  intros Hs Hb Hn Hm.
  assert (Hlen : length (take n (drop off bs)) = n) by (rewrite length_take, length_drop; lia).
  destruct (store_bytes_at dst (take n (drop off bs)) m) as (m'&E&Hx&Ho&Hk).
  { by rewrite Hlen. }
  { by apply Forall_take, Forall_drop. }
  rewrite Hlen in Ho. exists m'. split_and!; [| |done|done].
  - assert (E1 : take_from src (Z.of_nat off) (Z.of_nat n) (m, b) = Some (take n (drop off bs), (m, b))).
    { destruct src as [a|l]; cbn in Hs |- *.
      - unfold bytes_at, try_ask. cbn. rewrite Nat2Z.id.
        rewrite (load_bytes_piece bs) by (try apply Hs; done). done.
      - subst l. by rewrite !Nat2Z.id. }
    unfold copy_in. rewrite (bind_run _ _ _ _ _ E1). unfold memory, try_update. cbn. by rewrite E.
  - intros i x Hi Hbi. apply Hx. rewrite lookup_take_lt by lia. by rewrite lookup_drop.
Qed.

(** Only the [n] cells from index [h] on change. *)
Definition cells_only (b : StreamBuffer_t) (h n : Z) (m m' : mem) : Prop :=
  (forall a, (forall k, 0 <= k < n -> a <> cell b (h + k)) -> m' !! a = m !! a) /\
  (forall a k, mapped m a k -> mapped m' a k).

Lemma cell_low b i : 0 <= i < xLength b -> cell b i = pucBuffer b + i.
Proof. intros Hi. unfold cell. by rewrite Z.mod_small. Qed.

Lemma cell_high b i : xLength b <= i < 2 * xLength b -> cell b i = pucBuffer b + (i - xLength b).
Proof.
  intros Hi. unfold cell. f_equal. symmetry. apply (Z.mod_unique_pos i (xLength b) 1); lia.
Qed.

Lemma cell_inside b i : 0 < xLength b -> pucBuffer b <= cell b i < pucBuffer b + xLength b.
Proof. intros Hl. unfold cell. pose proof (Z.mod_pos_bound i (xLength b) Hl). lia. Qed.

Lemma prvWriteBytesToBuffer_run b m src bs h :
  2 <= xLength b < 2 ^ 31 -> mapped m (pucBuffer b) (xLength b) -> 0 <= h < xLength b ->
  source b m src bs -> Forall byte_ok bs -> 0 < Z.of_nat (length bs) <= xLength b ->
  exists m', prvWriteBytesToBuffer src (Z.of_nat (length bs)) h (m, b) =
      Some ((h + Z.of_nat (length bs)) `mod` xLength b, (m', b)) /\
    holds b m' h bs /\ cells_only b h (Z.of_nat (length bs)) m m'.
Proof.
  intros Hl Hm Hh Hs Hb Hn.
  set (n := length bs) in *. unfold prvWriteBytesToBuffer, buffer. rewrite ask_bind, assert_bind by lia. cbn [snd].
  rewrite (u32_small (xLength b - h)) by lia.
  rewrite assert_bind by (rewrite u32_small by lia; lia).
  set (k := Z.to_nat (Z.min (xLength b - h) (Z.of_nat n))).
  assert (Hk : Z.min (xLength b - h) (Z.of_nat n) = Z.of_nat k) by lia. rewrite Hk.
  destruct (copy_in_spec b m src bs 0 k (pucBuffer b + h) Hs Hb) as (m1&E1&Hx1&Ho1&Hk1); [lia| |].
  { eapply mapped_sub; [exact Hm|lia|lia]. }
  rewrite (bind_run _ _ _ _ _ E1).
  assert (Hidx : (if xLength b <=? u32 (h + Z.of_nat n) then u32 (u32 (h + Z.of_nat n) - xLength b)
                  else u32 (h + Z.of_nat n)) = (h + Z.of_nat n) `mod` xLength b)
    by (apply index_step; lia).
  destruct (Z.ltb_spec (Z.of_nat k) (Z.of_nat n)) as [Hlt|Hge].
  - assert (Hkh : Z.of_nat k = xLength b - h) by lia.
    destruct (copy_in_spec b m1 src bs k (n - k) (pucBuffer b)) as (m2&E2&Hx2&Ho2&Hk2).
    { destruct src as [a|l]; [|exact Hs]. destruct Hs as [Hload Hout]. split; [|exact Hout].
      rewrite <- Hload. apply load_bytes_frame. intros i Hi. apply Ho1. lia. }
    { done. } { lia. } { eapply mapped_sub; [apply Hk1, Hm|lia|lia]. }
    replace (Z.of_nat n - Z.of_nat k) with (Z.of_nat (n - k)) by lia.
    cbn [when]. rewrite bind_assoc_run. rewrite assert_bind by (apply Z.leb_le; lia). rewrite (bind_run _ _ _ _ _ E2). rewrite Hidx. exists m2. split; [done|]. split; [|split].
    + intros i x Hi. pose proof (lookup_lt_Some _ _ _ Hi).
      destruct (decide (i < k)%nat) as [Hik|Hik].
      * rewrite cell_low by lia. rewrite Ho2 by lia. specialize (Hx1 i x Hik).
        rewrite Z.add_assoc. by apply Hx1.
      * rewrite cell_high by lia. specialize (Hx2 (i - k)%nat x).
        replace (pucBuffer b + (h + Z.of_nat i - xLength b)) with (pucBuffer b + Z.of_nat (i - k)) by lia.
        apply Hx2; [lia|]. by replace (k + (i - k))%nat with i by lia.
    + intros a Ha. rewrite Ho2, Ho1; [done| |].
      * intros Hr. apply (Ha (a - pucBuffer b - h)); [lia|]. rewrite cell_low by lia. lia.
      * intros Hr. apply (Ha (a - pucBuffer b + Z.of_nat k)); [lia|]. rewrite cell_high by lia. lia.
    + intros a k' Hak. by apply Hk2, Hk1.
  - assert (k = n) as -> by lia. cbn [when]. rewrite ret_bind, Hidx. exists m1. split; [done|]. split; [|split].
    + intros i x Hi. pose proof (lookup_lt_Some _ _ _ Hi). rewrite cell_low by lia.
      rewrite Z.add_assoc. apply Hx1; [lia|done].
    + intros a Ha. apply Ho1. intros Hr. apply (Ha (a - pucBuffer b - h)); [lia|]. rewrite cell_low by lia. lia.
    + done.
Qed.

(** ** Copying out of the ring *)

(** Where the bytes go: memory outside of the ring, or a local variable. *)
Definition target (b : StreamBuffer_t) (m : mem) (dst : option Z) (n : Z) : Prop :=
  match dst with
  | Some a => mapped m a n /\ (a + n <= pucBuffer b \/ pucBuffer b + xLength b <= a)
  | None => True
  end.

(** What the copy leaves: the ring and everything outside of the target. *)
Definition delivered (dst : option Z) (bs : list Z) (m m' : mem) : Prop :=
  match dst with
  | Some a => load_bytes (length bs) a m' = Some bs /\ outside_kept a (Z.of_nat (length bs)) m m'
  | None => m' = m
  end /\ (forall a k, mapped m a k -> mapped m' a k).

Lemma copy_out_spec b m dst bs src :
  load_bytes (length bs) src m = Some bs -> Forall byte_ok bs -> target b m dst (Z.of_nat (length bs)) ->
  exists m', copy_out dst src (Z.of_nat (length bs)) (m, b) = Some (bs, (m', b)) /\ delivered dst bs m m'.
Proof.
  intros Hl Hb Ht.
  assert (E1 : bytes_at src (Z.of_nat (length bs)) (m, b) = Some (bs, (m, b))).
  { unfold bytes_at, try_ask. cbn. by rewrite Nat2Z.id, Hl. }
  unfold copy_out. rewrite (bind_run _ _ _ _ _ E1). destruct dst as [a|].
  - destruct Ht as [Hm _].
    destruct (store_bytes_at a bs m Hm Hb) as (m'&E&Hx&Ho&Hk).
    assert (E2 : memory (store_bytes a bs) (m, b) = Some (tt, (m', b))).
    { unfold memory, try_update. cbn. by rewrite E. }
    exists m'. rewrite (bind_run _ _ _ _ _ E2). split; [done|]. split; [|done]. split; [|done].
    apply load_bytes_spec. split; [done|]. intros i Hi.
    destruct (lookup_lt_is_Some_2 bs i Hi) as [x Ex]. by rewrite Ex, (Hx _ _ Ex).
  - exists m. by rewrite ret_bind.
Qed.

Lemma load_bytes_app a bs1 bs2 m :
  load_bytes (length bs1) a m = Some bs1 ->
  load_bytes (length bs2) (a + Z.of_nat (length bs1)) m = Some bs2 ->
  load_bytes (length (bs1 ++ bs2)) a m = Some (bs1 ++ bs2).
Proof.
  intros [_ H1]%load_bytes_spec [_ H2]%load_bytes_spec. apply load_bytes_spec. split; [done|].
  intros i Hi. rewrite length_app in Hi. destruct (decide (i < length bs1)%nat).
  - by rewrite lookup_app_l, H1 by lia.
  - rewrite lookup_app_r by lia. rewrite <- H2 by lia. f_equal. lia.
Qed.

(** Two deliveries in a row, to adjacent places. *)
Lemma delivered_app dst bs1 bs2 m m1 m2 :
  delivered dst bs1 m m1 -> delivered ((fun a => a + Z.of_nat (length bs1)) <$> dst) bs2 m1 m2 ->
  delivered dst (bs1 ++ bs2) m m2.
Proof.
  intros [H1 K1] [H2 K2]. split; [|by intros a k Ha; apply K2, K1].
  destruct dst as [a|]; cbn in *; [|by subst].
  destruct H1 as [L1 O1], H2 as [L2 O2]. split.
  - apply load_bytes_app; [|done]. rewrite <- L1. apply load_bytes_frame. intros i Hi. apply O2. lia.
  - intros i Hi. rewrite length_app in Hi. rewrite O2, O1; [done|lia|lia].
Qed.

(** A piece of the ring that does not wrap. *)
Lemma holds_load b m t xs :
  0 <= t -> t + Z.of_nat (length xs) <= xLength b -> holds b m t xs ->
  load_bytes (length xs) (pucBuffer b + t) m = Some xs.
Proof.
  intros Ht Hn Hx. apply load_bytes_spec. split; [done|]. intros i Hi.
  destruct (lookup_lt_is_Some_2 xs i Hi) as [x Ex]. rewrite Ex, <- (Hx i x Ex).
  rewrite cell_low by lia. f_equal. lia.
Qed.

Lemma prvReadBytesFromBuffer_run b m dst xs t :
  2 <= xLength b < 2 ^ 31 -> 0 <= t < xLength b -> 0 < Z.of_nat (length xs) <= xLength b ->
  holds b m t xs -> Forall byte_ok xs -> target b m dst (Z.of_nat (length xs)) ->
  exists m', prvReadBytesFromBuffer dst (Z.of_nat (length xs)) t (m, b) =
      Some ((xs, (t + Z.of_nat (length xs)) `mod` xLength b), (m', b)) /\ delivered dst xs m m'.
Proof.
  intros Hl Ht Hn Hx Hb Hd. set (n := length xs) in *.
  unfold prvReadBytesFromBuffer, buffer. rewrite ask_bind, assert_bind by lia. cbn [snd].
  rewrite (u32_small (xLength b - t)), assert_bind by lia. rewrite assert_bind by (rewrite u32_small by lia; lia).
  set (k := Z.to_nat (Z.min (xLength b - t) (Z.of_nat n))).
  assert (Hk : Z.min (xLength b - t) (Z.of_nat n) = Z.of_nat k) by lia. rewrite Hk.
  assert (Hidx : (if xLength b <=? u32 (t + Z.of_nat n) then u32 (u32 (t + Z.of_nat n) - xLength b)
                  else u32 (t + Z.of_nat n)) = (t + Z.of_nat n) `mod` xLength b)
    by (apply index_step; lia).
  assert (Hlen1 : length (take k xs) = k) by (rewrite length_take; lia).
  destruct (copy_out_spec b m dst (take k xs) (pucBuffer b + t)) as (m1&E1&D1).
  { apply holds_load; [lia|rewrite Hlen1; lia|]. intros i x Hi. apply Hx.
    pose proof (lookup_lt_Some _ _ _ Hi). rewrite lookup_take_lt in Hi by lia. done. }
  { by apply Forall_take. }
  { destruct dst as [a|]; [|done]. destruct Hd as [Hm Ho]. rewrite Hlen1.
    split; [eapply mapped_sub; [exact Hm|lia|lia]|lia]. }
  rewrite Hlen1 in E1. rewrite (bind_run _ _ _ _ _ E1).
  destruct (Z.ltb_spec (Z.of_nat k) (Z.of_nat n)) as [Hlt|Hge].
  - assert (Hlen2 : length (drop k xs) = (n - k)%nat) by (rewrite length_drop; lia).
    destruct (copy_out_spec b m1 ((fun a => a + Z.of_nat k) <$> dst) (drop k xs) (pucBuffer b)) as (m2&E2&D2).
    { apply load_bytes_spec. split; [done|]. intros i Hi. rewrite Hlen2 in Hi.
      destruct (lookup_lt_is_Some_2 xs (k + i)) as [x Ex]; [lia|].
      rewrite lookup_drop, Ex, <- (Hx _ _ Ex), cell_high by lia.
      replace (pucBuffer b + (t + Z.of_nat (k + i) - xLength b)) with (pucBuffer b + Z.of_nat i) by lia.
      destruct D1 as [D1 _]. destruct dst as [a|]; [|by subst]. destruct D1 as [_ D1], Hd as [_ Hd].
      apply D1. rewrite Hlen1. lia. }
    { by apply Forall_drop. }
    { destruct dst as [a|]; [|done]. destruct Hd as [Hm Ho], D1 as [_ D1]. cbn. rewrite Hlen2. split.
      - apply D1. eapply mapped_sub; [exact Hm|lia|lia].
      - lia. }
    replace (Z.of_nat n - Z.of_nat k) with (Z.of_nat (n - k)) by lia. rewrite Hlen2 in E2.
    rewrite (bind_run _ _ _ _ _ E2), Hidx, take_drop. exists m2. split; [done|].
    rewrite <- (take_drop k xs). apply (delivered_app _ _ _ m m1); [done|]. by rewrite Hlen1.
  - assert (k = n) as E by lia. rewrite ret_bind, Hidx, app_nil_r. rewrite E in *. unfold n in *.
    rewrite firstn_all in *. by exists m1.
Qed.

(** ** Contents and free cells *)

(** Distinct indices less than the length apart are distinct cells. *)
Lemma cell_apart b i j : 0 < xLength b -> i < j < i + xLength b -> cell b i <> cell b j.
Proof.
  intros Hl Hij E. unfold cell in E.
  pose proof (Z.div_mod i (xLength b) ltac:(lia)). pose proof (Z.div_mod j (xLength b) ltac:(lia)).
  assert (j - i = xLength b * (j / xLength b - i / xLength b)) by lia.
  assert (j / xLength b - i / xLength b <= 0 \/ 1 <= j / xLength b - i / xLength b) as [?|?] by lia; nia.
Qed.

Lemma cell_wrap b h i : 0 < xLength b -> cell b (h `mod` xLength b + i) = cell b (h + i).
Proof. intros Hl. unfold cell. by rewrite Zplus_mod_idemp_l. Qed.

(** Cells [n] from [h] on are written: the ones before, from [t] on, stay. *)
Lemma holds_kept b m m' t xs h n :
  0 < xLength b -> holds b m t xs -> cells_only b h n m m' ->
  h `mod` xLength b = (t + Z.of_nat (length xs)) `mod` xLength b -> Z.of_nat (length xs) + n <= xLength b ->
  holds b m' t xs.
Proof.
  intros Hl Hx [Ho _] Eh Hn i x Hi. pose proof (lookup_lt_Some _ _ _ Hi). rewrite Ho; [by apply Hx|].
  intros k Hk. rewrite <- (cell_wrap b h), Eh, cell_wrap by done. apply cell_apart; lia.
Qed.

Lemma holds_frame b m m' t xs :
  (forall a, pucBuffer b <= a < pucBuffer b + xLength b -> m' !! a = m !! a) -> 0 < xLength b ->
  holds b m t xs -> holds b m' t xs.
Proof. intros Ho Hl Hx i x Hi. rewrite Ho; [by apply Hx|]. by apply cell_inside. Qed.

Lemma holds_app b m t xs ys :
  holds b m t xs -> holds b m (t + Z.of_nat (length xs)) ys -> holds b m t (xs ++ ys).
Proof.
  intros Hx Hy i x [Hi|[Hge Hi]]%lookup_app_Some; [by apply Hx|].
  specialize (Hy _ _ Hi). by replace (t + Z.of_nat (length xs) + Z.of_nat (i - length xs)) with (t + Z.of_nat i) in Hy by lia.
Qed.

Lemma holds_app_inv b m t xs ys :
  holds b m t (xs ++ ys) -> holds b m t xs /\ holds b m (t + Z.of_nat (length xs)) ys.
Proof.
  intros H. split; intros i x Hi.
  - apply H. by apply lookup_app_l_Some.
  - replace (t + Z.of_nat (length xs) + Z.of_nat i) with (t + Z.of_nat (length xs + i)) by lia.
    apply H. rewrite lookup_app_r by lia. by replace (length xs + i - length xs)%nat with i by lia.
Qed.

Lemma holds_wrap b m t xs : 0 < xLength b -> holds b m (t `mod` xLength b) xs <-> holds b m t xs.
Proof. intros Hl. split; intros H i x Hi; specialize (H i x Hi); by rewrite cell_wrap in *. Qed.

(** ** Messages *)

(** A message in the ring: its length, then its bytes. *)
Definition frame (bs : list Z) : list Z := le_split 4 (Z.of_nat (length bs)) ++ bs.

Lemma length_frame bs : length (frame bs) = (4 + length bs)%nat.
Proof. unfold frame. by rewrite length_app, length_le_split. Qed.

Lemma frame_ok bs : Forall byte_ok bs -> Forall byte_ok (frame bs).
Proof. intros. apply Forall_app_2; [apply le_split_ok|done]. Qed.

(** What [prvWriteMessageToBuffer] puts into the ring for the data [bs]. *)
Definition written (b : StreamBuffer_t) (bs : list Z) (space : Z) : list Z :=
  if is_message_buffer b then
    if decide (bs <> [] /\ Z.of_nat (length bs) + 4 <= space) then frame bs else []
  else take (Z.to_nat (Z.min (Z.of_nat (length bs)) space)) bs.

(** ... and the length it reports: all of a message or nothing of it. *)
Definition reported (b : StreamBuffer_t) (bs : list Z) (space : Z) : Z :=
  if is_message_buffer b then
    if decide (bs <> [] /\ Z.of_nat (length bs) + 4 <= space) then Z.of_nat (length bs) else 0
  else Z.min (Z.of_nat (length bs)) space.

Lemma reported_written b bs space : 0 <= space ->
  (reported b bs space = 0 <-> written b bs space = []) /\ 0 <= reported b bs space.
Proof.
  intros Hs. unfold reported, written. destruct (is_message_buffer b); [case_decide as Hd|].
  - destruct Hd as [Hne _]. destruct bs as [|x bs]; [done|]. unfold frame. cbn. split; [|lia]. split; [lia|done].
  - split; [done|lia].
  - split; [|lia]. rewrite <- length_zero_iff_nil, length_take. lia.
Qed.

Lemma written_ok b bs space : Forall byte_ok bs -> Forall byte_ok (written b bs space).
Proof.
  intros Hb. unfold written. destruct (is_message_buffer b); [case_decide|].
  - by apply frame_ok. - constructor. - by apply Forall_take.
Qed.

Lemma cells_only_trans b h n1 n2 m m1 m2 :
  0 < xLength b -> 0 <= n1 -> 0 <= n2 ->
  cells_only b h n1 m m1 -> cells_only b ((h + n1) `mod` xLength b) n2 m1 m2 ->
  cells_only b h (n1 + n2) m m2.
Proof.
  intros Hl H1 H2 [O1 K1] [O2 K2]. split; [|by intros a k Ha; apply K2, K1].
  intros a Ha. rewrite O2, O1; [done| |].
  - intros k Hk. apply Ha. lia.
  - intros k Hk. rewrite cell_wrap by lia. replace (h + n1 + k) with (h + (n1 + k)) by lia. apply Ha. lia.
Qed.

Lemma cells_only_refl b h n m : cells_only b h n m m.
Proof. by split. Qed.

Lemma cells_only_weaken b h n n' m m' : n <= n' -> cells_only b h n m m' -> cells_only b h n' m m'.
Proof. intros Hn [Ho Hk]. split; [|done]. intros a Ha. apply Ho. intros k Hk'. apply Ha. lia. Qed.

(** The copying half of [prvWriteMessageToBuffer], for a space that the writer
    has seen and that is still there: it fills free cells only. *)
Lemma write_message_copy_run b m xs bs a space :
  buffer_ok b m -> contents b m xs -> source b m (At a) bs -> Forall byte_ok bs ->
  0 <= space <= xLength b - 1 - Z.of_nat (length xs) -> Z.of_nat (length bs) < 2 ^ 31 ->
  let w := written b bs space in
  exists m' h, write_message_copy a (Z.of_nat (length bs)) space (required_space b (Z.of_nat (length bs))) (m, b)
      = Some ((reported b bs space, h), (m', b)) /\
    cells_only b (xHead b) space m m' /\ holds b m' (xHead b) w /\ Z.of_nat (length w) <= space /\
    (w <> [] -> h = (xHead b + Z.of_nat (length w)) `mod` xLength b).
Proof.
  intros [Hl Ht Hh Hm] (Hn&Hi&Hx) Hs Hb Hsp Hbs. unfold write_message_copy, buffer, required_space, written, reported.
  rewrite ask_bind. cbn [snd]. destruct (is_message_buffer b).
  - unfold sbBYTES_TO_STORE_MESSAGE_LENGTH. rewrite (u32_small (Z.of_nat (length bs) + 4)) by lia.
    destruct (Z.leb_spec (Z.of_nat (length bs) + 4) space) as [Hfit|Hfit].
    + destruct (prvWriteBytesToBuffer_run b m (Local (le_split 4 (Z.of_nat (length bs))))
        (le_split 4 (Z.of_nat (length bs))) (xHead b)) as (m1&E1&Hx1&Ho1); try done.
      { apply le_split_ok. } { rewrite length_le_split. lia. }
      rewrite length_le_split in E1, Ho1. cbn [Z.of_nat Pos.of_succ_nat Pos.succ] in E1, Ho1.
      rewrite bind_assoc_run, (bind_run _ _ _ _ _ E1), ret_bind. cbv beta iota.
      destruct bs as [|x bs'] eqn:Ebs.
      * rewrite !decide_False by naive_solver. exists m1, (xHead b). split; [done|].
        split; [eapply cells_only_weaken; [|exact Ho1]; cbn in Hfit; lia|]. split; [|split; [cbn [length]; lia|done]].
        intros i y Hy. by rewrite lookup_nil in Hy.
      * rewrite <- Ebs in *. rewrite !decide_True by (split; [by rewrite Ebs|done]).
        destruct (Z.eqb_spec (Z.of_nat (length bs)) 0) as [E0|_]; [rewrite Ebs in E0; cbn in E0; lia|].
        cbn [negb].
        destruct (prvWriteBytesToBuffer_run b m1 (At a) bs ((xHead b + 4) `mod` xLength b)) as (m2&E2&Hx2&Ho2); try done.
        { eapply mapped_sub; [apply Ho1, Hm|lia|lia]. }
        { apply Z.mod_pos_bound. lia. }
        { destruct Hs as [Hload Hout]. split; [|done]. rewrite <- Hload. apply load_bytes_frame.
          intros i Hi'. destruct Ho1 as [Ho1 _]. apply Ho1. intros k Hk.
          pose proof (cell_inside b (xHead b + k) ltac:(lia)). lia. }
        { split; [rewrite Ebs; cbn [length]; lia|lia]. }
        rewrite (bind_run _ _ _ _ _ E2). exists m2. eexists. split; [done|].
        assert (Ho : cells_only b (xHead b) (4 + Z.of_nat (length bs)) m m2).
        { apply (cells_only_trans b (xHead b) 4 (Z.of_nat (length bs)) m m1 m2); [lia..|done|done]. }
        split; [eapply cells_only_weaken; [|exact Ho]; lia|]. split; [|split].
        -- apply holds_app.
           ++ apply (holds_kept b m1 m2 _ _ ((xHead b + 4) `mod` xLength b) (Z.of_nat (length bs))); [lia|done|done| |].
              ** rewrite length_le_split, Zmod_mod. done.
              ** rewrite length_le_split. lia.
           ++ rewrite length_le_split. exact (proj1 (holds_wrap b m2 (xHead b + 4) bs ltac:(lia)) Hx2).
        -- rewrite length_frame. lia.
        -- intros _. rewrite length_frame, Zplus_mod_idemp_l. f_equal. lia.
    + rewrite !decide_False by lia. exists m, (xHead b). rewrite ret_bind. split; [done|].
      split; [apply cells_only_refl|]. split; [|split; [cbn [length]; lia|done]]. intros i y Hy. by rewrite lookup_nil in Hy.
  - rewrite ret_bind. cbv beta iota. set (n := Z.min (Z.of_nat (length bs)) space).
    assert (Hnn : 0 <= n <= Z.of_nat (length bs) /\ n <= space) by (unfold n; lia). clearbody n.
    assert (Hlen : length (take (Z.to_nat n) bs) = Z.to_nat n) by (rewrite length_take; lia).
    destruct (Z.eqb_spec n 0) as [E0|Hne]; cbn [negb].
    + rewrite E0. exists m, (xHead b). split; [done|]. split; [apply cells_only_refl|]. change (take (Z.to_nat 0) bs) with (@nil Z).
      split; [|split; [cbn [length]; lia|done]]. intros i y Hy. by rewrite lookup_nil in Hy.
    + destruct (prvWriteBytesToBuffer_run b m (At a) (take (Z.to_nat n) bs) (xHead b)) as (m1&E1&Hx1&Ho1); try done.
      { destruct Hs as [Hload Hout]. split; [|rewrite Hlen; lia]. rewrite Hlen.
        pose proof (load_bytes_piece bs a m 0 (Z.to_nat n) Hload ltac:(lia)) as H. by rewrite Z.add_0_r in H. }
      { by apply Forall_take. } { rewrite Hlen. lia. }
      rewrite Hlen in E1, Ho1. replace (Z.of_nat (Z.to_nat n)) with n in E1, Ho1 by lia.
      rewrite (bind_run _ _ _ _ _ E1). exists m1. eexists. split; [done|].
      split; [eapply cells_only_weaken; [|exact Ho1]; lia|]. split; [done|]. rewrite Hlen.
      split; [lia|]. intros _. f_equal. lia.
Qed.

(** The copying half of [prvReadMessageFromBuffer] of a stream buffer, for an
    amount of bytes that the reader has seen. *)
Lemma read_stream_run b m xs a max avail :
  buffer_ok b m -> contents b m xs -> Forall byte_ok xs -> is_message_buffer b = false ->
  0 <= avail <= Z.of_nat (length xs) -> 0 <= max -> target b m (Some a) max ->
  let n := Z.min max avail in
  exists m' t, read_message_copy a max avail (m, b) = Some ((n, t), (m', b)) /\
    delivered (Some a) (take (Z.to_nat n) xs) m m' /\
    (n <> 0 -> t = (xTail b + n) `mod` xLength b).
Proof.
  intros [Hl Ht Hh Hm] (Hn&Hi&Hx) Hb Emode Hav Hmax Hd n.
  assert (Hnn : 0 <= n <= avail /\ n <= max) by (unfold n; lia).
  unfold read_message_copy, buffer. rewrite ask_bind. cbn [snd]. rewrite Emode, ret_bind. cbv beta iota.
  fold n. clearbody n.
  destruct (Z.eqb_spec n 0) as [E0|Hne]; cbn [negb].
  - exists m, (xTail b). split; [done|]. rewrite E0. split; [|done]. split; [|done]. split; [done|].
    by intros i Hi'.
  - assert (Hlen : length (take (Z.to_nat n) xs) = Z.to_nat n) by (rewrite length_take; lia).
    destruct (prvReadBytesFromBuffer_run b m (Some a) (take (Z.to_nat n) xs) (xTail b)) as (m'&E&D);
      rewrite ?Hlen; try lia.
    { rewrite <- (take_drop (Z.to_nat n) xs) in Hx. by apply holds_app_inv in Hx as [Hx _]. }
    { by apply Forall_take. }
    { destruct Hd as [Hm' Ho]. split; [eapply mapped_sub; [exact Hm'|lia|lia]|lia]. }
    rewrite Hlen in E. replace (Z.of_nat (Z.to_nat n)) with n in E by lia.
    rewrite (bind_run _ _ _ _ _ E). exists m'. eexists. split; [done|]. split; [done|]. done.
Qed.

(** The same of a message buffer whose first message is [msg]: all of it, or
    nothing when the caller's buffer is too small. *)
Lemma read_message_run b m msg rest a max avail :
  buffer_ok b m -> contents b m (frame msg ++ rest) -> Forall byte_ok (frame msg ++ rest) ->
  is_message_buffer b = true -> msg <> [] -> Z.of_nat (length msg) < 2 ^ 31 ->
  4 + Z.of_nat (length msg) <= avail <= Z.of_nat (length (frame msg ++ rest)) ->
  0 <= max -> target b m (Some a) max ->
  exists m' t, read_message_copy a max avail (m, b) =
      Some ((if max <? Z.of_nat (length msg) then 0 else Z.of_nat (length msg), t), (m', b)) /\
    delivered (Some a) (if max <? Z.of_nat (length msg) then [] else msg) m m' /\
    (Z.of_nat (length msg) <= max -> t = (xTail b + 4 + Z.of_nat (length msg)) `mod` xLength b).
Proof.
  intros [Hl Ht Hh Hm] (Hn&Hi&Hx) Hb Emode Hne Hlm Hav Hmax Hd.
  rewrite length_app, length_frame in Hn, Hav.
  unfold read_message_copy, buffer. rewrite ask_bind. cbn [snd]. rewrite Emode.
  unfold frame in Hx, Hb. rewrite <- app_assoc in Hx, Hb. apply holds_app_inv in Hx as [Hx1 Hx2].
  apply holds_app_inv in Hx2 as [Hx2 _]. rewrite length_le_split in Hx2.
  apply Forall_app in Hb as [Hb1 [Hb2 _]%Forall_app].
  destruct (prvReadBytesFromBuffer_run b m None (le_split 4 (Z.of_nat (length msg))) (xTail b)) as (m1&E1&D1);
    rewrite ?length_le_split; try done; try lia.
  rewrite length_le_split in E1. destruct D1 as [-> _]. cbn [Z.of_nat Pos.of_succ_nat Pos.succ] in E1, Hx2.
  unfold sbBYTES_TO_STORE_MESSAGE_LENGTH. rewrite bind_assoc_run, (bind_run _ _ _ _ _ E1). cbv beta iota.
  rewrite ret_bind. cbv beta iota. rewrite le_combine_split.
  replace (Z.of_nat (length msg) `mod` 256 ^ Z.of_nat 4) with (Z.of_nat (length msg)).
  2:{ symmetry. apply Z.mod_small. change (256 ^ Z.of_nat 4) with (2 ^ 32). lia. }
  rewrite (u32_small (avail - 4)) by lia.
  destruct (Z.ltb_spec max (Z.of_nat (length msg))) as [Hbig|Hfit].
  - rewrite (Z.min_l 0) by lia. cbn [Z.eqb negb]. exists m, (xTail b). split; [done|]. split; [|lia].
    split; [|done]. split; [done|]. by intros i Hi'.
  - rewrite (Z.min_l (Z.of_nat (length msg))) by lia.
    destruct (Z.eqb_spec (Z.of_nat (length msg)) 0) as [E0|_]; [destruct msg; [done|cbn in E0; lia]|].
    cbn [negb].
    destruct (prvReadBytesFromBuffer_run b m (Some a) msg ((xTail b + 4) `mod` xLength b)) as (m2&E2&D2); try done.
    { apply Z.mod_pos_bound. lia. } { split; [by destruct msg|lia]. } { by apply holds_wrap; [lia|]. }
    { destruct Hd as [Hm' Ho]. split; [eapply mapped_sub; [exact Hm'|lia|lia]|lia]. }
    rewrite (bind_run _ _ _ _ _ E2). exists m2. eexists. split; [done|]. split; [done|].
    intros _. by rewrite Zplus_mod_idemp_l.
Qed.

(** ** One reader and one writer *)

(** Where the writer stands: between two calls, with the space that it has
    seen, or with the bytes copied and the new head still to be published. *)
Inductive writer := WIdle | WSpace (a : Z) (bs : list Z) (space : Z) | WCopied (bs : list Z) (r : Z * Z).

(** Where the reader stands: between two calls, with the amount of bytes that
    it has seen, or with bytes copied and the new tail still to be published. *)
Inductive reader := RIdle | RSeen (a max avail : Z) | RCopied (out : list Z) (r : Z * Z).

Record pipe := mkPipe { p_mem : mem; p_buf : StreamBuffer_t; p_writer : writer; p_reader : reader }.

(** A step of the writer, of the reader, or of anything else that writes to
    memory outside of the ring.  [sent] and [received] are the pieces (messages)
    that a step hands over to the ring and takes from it. *)
Inductive pipe_step : pipe -> list (list Z) -> list (list Z) -> pipe -> Prop :=
  | write_check m b r a bs :
      Forall byte_ok bs -> Z.of_nat (length bs) < 2 ^ 31 ->
      pipe_step (mkPipe m b WIdle r) [] []
        (mkPipe m b (WSpace a bs (xStreamBufferSpacesAvailable b)) r)
  | write_copy m b r a bs space res m' b' :
      source b m (At a) bs ->
      write_message_copy a (Z.of_nat (length bs)) space (required_space b (Z.of_nat (length bs))) (m, b)
        = Some (res, (m', b')) ->
      pipe_step (mkPipe m b (WSpace a bs space) r) [] [] (mkPipe m' b' (WCopied bs res) r)
  | write_publish m b r bs res n m' b' :
      publish_head res (m, b) = Some (n, (m', b')) ->
      pipe_step (mkPipe m b (WCopied bs res) r) (if n =? 0 then [] else [take (Z.to_nat n) bs]) []
        (mkPipe m' b' WIdle r)
  | read_check m b w a max :
      0 <= max -> length_bytes b < prvBytesInBuffer b ->
      pipe_step (mkPipe m b w RIdle) [] [] (mkPipe m b w (RSeen a max (prvBytesInBuffer b)))
  | read_copy m b w a max avail res m' b' out :
      target b m (Some a) max ->
      read_message_copy a max avail (m, b) = Some (res, (m', b')) ->
      load_bytes (Z.to_nat res.1) a m' = Some out ->
      pipe_step (mkPipe m b w (RSeen a max avail)) [] [] (mkPipe m' b' w (RCopied out res))
  | read_publish m b w out res n m' b' :
      publish_tail res (m, b) = Some (n, (m', b')) ->
      pipe_step (mkPipe m b w (RCopied out res)) [] (if n =? 0 then [] else [out]) (mkPipe m' b' w RIdle)
  | other_memory m m' b w r :
      (forall a, pucBuffer b <= a < pucBuffer b + xLength b -> m' !! a = m !! a) ->
      pipe_step (mkPipe m b w r) [] [] (mkPipe m' b w r).

Inductive pipe_run (p : pipe) : list (list Z) -> list (list Z) -> pipe -> Prop :=
  | pipe_start : pipe_run p [] [] p
  | pipe_next sent received q s r q' :
      pipe_run p sent received q -> pipe_step q s r q' -> pipe_run p (sent ++ s) (received ++ r) q'.

(** What is in the ring, given all that went in and all that came out: whole
    messages of a message buffer, bytes of a stream buffer. *)
Definition carried (b : StreamBuffer_t) (sent received : list (list Z)) (xs : list Z) : Prop :=
  if is_message_buffer b then
    exists pending, sent = received ++ pending /\ xs = concat (frame <$> pending) /\
      Forall (fun p => p <> [] /\ Z.of_nat (length p) < 2 ^ 31) pending
  else concat sent = concat received ++ xs.

(** The bytes that a copied piece occupies in the ring. *)
Definition piece (b : StreamBuffer_t) (bs : list Z) : list Z := if is_message_buffer b then frame bs else bs.

Definition writer_ok (p : pipe) (xs : list Z) : Prop :=
  match p_writer p with
  | WIdle => True
  | WSpace _ bs space => Forall byte_ok bs /\ Z.of_nat (length bs) < 2 ^ 31 /\
      0 <= space <= xLength (p_buf p) - 1 - Z.of_nat (length xs)
  | WCopied bs (n, h) => n = 0 \/ exists bs', bs' = take (Z.to_nat n) bs /\ bs' <> [] /\
      Forall byte_ok bs' /\ Z.of_nat (length bs') < 2 ^ 31 /\
      let w := piece (p_buf p) bs' in
      holds (p_buf p) (p_mem p) (xHead (p_buf p)) w /\
      Z.of_nat (length w) <= xLength (p_buf p) - 1 - Z.of_nat (length xs) /\
      h = (xHead (p_buf p) + Z.of_nat (length w)) `mod` xLength (p_buf p)
  end.

Definition reader_ok (p : pipe) (xs : list Z) : Prop :=
  match p_reader p with
  | RIdle => True
  | RSeen _ max avail => 0 <= max /\ length_bytes (p_buf p) < avail <= Z.of_nat (length xs) /\
      (is_message_buffer (p_buf p) = true -> 4 + le_combine (take 4 xs) <= avail)
  | RCopied out (n, t) => n = 0 \/ exists rest, xs = piece (p_buf p) out ++ rest /\ out <> [] /\
      t = (xTail (p_buf p) + Z.of_nat (length (piece (p_buf p) out))) `mod` xLength (p_buf p)
  end.

Record pipe_ok (p : pipe) (sent received : list (list Z)) (xs : list Z) : Prop := {
  po_buffer : buffer_ok (p_buf p) (p_mem p);
  po_contents : contents (p_buf p) (p_mem p) xs;
  po_bytes : Forall byte_ok xs;
  po_carried : carried (p_buf p) sent received xs;
  po_writer : writer_ok p xs;
  po_reader : reader_ok p xs
}.

Lemma frame_length bs rest : Z.of_nat (length bs) < 2 ^ 32 ->
  le_combine (take 4 (frame bs ++ rest)) = Z.of_nat (length bs).
Proof.
  intros Hl. unfold frame. rewrite <- app_assoc, take_app_length' by (by rewrite length_le_split).
  rewrite le_combine_split. apply Z.mod_small. change (256 ^ Z.of_nat 4) with (2 ^ 32). lia.
Qed.

Lemma frame_inj bs1 bs2 r1 r2 :
  Z.of_nat (length bs1) < 2 ^ 31 -> Z.of_nat (length bs2) < 2 ^ 31 ->
  frame bs1 ++ r1 = frame bs2 ++ r2 -> bs1 = bs2 /\ r1 = r2.
Proof.
  intros H1 H2 E. assert (El : length bs1 = length bs2).
  { pose proof (f_equal (fun l => le_combine (take 4 l)) E) as E'. cbv beta in E'.
    rewrite !frame_length in E' by lia. lia. }
  apply app_inj_1 in E as [E ->]; [|by rewrite !length_frame, El].
  unfold frame in E. by apply app_inj_1 in E as [_ ->]; [|by rewrite !length_le_split].
Qed.

Lemma piece_ne b bs : bs <> [] -> piece b bs <> [].
Proof. intros Hne. unfold piece, frame. destruct (is_message_buffer b); [|done]. by destruct bs. Qed.

Lemma piece_ok b bs : Forall byte_ok bs -> Forall byte_ok (piece b bs).
Proof. intros Hb. unfold piece. destruct (is_message_buffer b); [by apply frame_ok|done]. Qed.

(** The piece that the writer has copied is what it reports. *)
Lemma written_piece b bs space : 0 <= space ->
  reported b bs space = 0 \/
  (take (Z.to_nat (reported b bs space)) bs <> [] /\
   written b bs space = piece b (take (Z.to_nat (reported b bs space)) bs)).
Proof.
  intros Hs. unfold reported, written, piece. destruct (is_message_buffer b).
  - case_decide as Hd; [|by left]. right. rewrite Nat2Z.id, firstn_all. by destruct Hd.
  - destruct (decide (Z.min (Z.of_nat (length bs)) space = 0)) as [?|Hne]; [by left|right]. split; [|done].
    intros E. apply length_zero_iff_nil in E. rewrite length_take in E. lia.
Qed.

Lemma carried_sent b sent received xs bs :
  carried b sent received xs -> bs <> [] -> Z.of_nat (length bs) < 2 ^ 31 ->
  carried b (sent ++ [bs]) received (xs ++ piece b bs).
Proof.
  unfold carried, piece. destruct (is_message_buffer b); intros HC Hne Hl.
  - destruct HC as (pending&->&->&HF). exists (pending ++ [bs]). rewrite app_assoc. split; [done|].
    rewrite fmap_app, concat_app. cbn. rewrite app_nil_r. split; [done|]. by apply Forall_app_2; [|constructor].
  - rewrite concat_app. cbn. by rewrite app_nil_r, HC, app_assoc.
Qed.

Lemma carried_received b sent received rest out :
  carried b sent received (piece b out ++ rest) -> Z.of_nat (length out) < 2 ^ 31 -> out <> [] ->
  carried b sent (received ++ [out]) rest.
Proof.
  unfold carried, piece. destruct (is_message_buffer b); intros HC Hl Hne.
  - destruct HC as (pending&->&E&HF). destruct pending as [|p pending].
    { apply (f_equal length) in E. rewrite length_app, length_frame in E. simpl in E. lia. }
    change (concat (frame <$> p :: pending)) with (frame p ++ concat (frame <$> pending)) in E.
    inversion HF as [|? ? [Hp1 Hp2] HF' E1]; subst.
    apply frame_inj in E as [-> ->]; [|done|done]. exists pending. by rewrite <- app_assoc.
  - rewrite concat_app. cbn. by rewrite app_nil_r, HC, app_assoc.
Qed.

(** The first message is all there. *)
Lemma carried_head b sent received xs :
  is_message_buffer b = true -> carried b sent received xs -> 0 < Z.of_nat (length xs) ->
  exists msg rest, xs = frame msg ++ rest /\ msg <> [] /\ Z.of_nat (length msg) < 2 ^ 31.
Proof.
  unfold carried. intros -> (pending&_&->&HF) Hl. destruct pending as [|p pending]; [cbn in Hl; lia|].
  inversion HF as [|? ? [Hp1 Hp2] HF' E1]; subst. by exists p, (concat (frame <$> pending)).
Qed.

Ltac pipe_simpl := cbn [p_mem p_buf p_writer p_reader] in *.

(** Memory changes outside of the contents, and the writer moves on. *)
Lemma pipe_memory m m' b w w' r sent received xs :
  pipe_ok (mkPipe m b w r) sent received xs ->
  holds b m' (xTail b) xs -> (forall a k, mapped m a k -> mapped m' a k) ->
  writer_ok (mkPipe m' b w' r) xs -> pipe_ok (mkPipe m' b w' r) sent received xs.
Proof.
  intros [[B1 B2 B3 B4] (C1&C2&C3) Hb HC HW HR] Hx Hk HW'. pipe_simpl. split; try done.
  split; try done. by apply Hk.
Qed.

(** The ring is untouched: nothing that anyone knows about it changes. *)
Lemma pipe_ring_kept m m' b w r sent received xs :
  pipe_ok (mkPipe m b w r) sent received xs ->
  (forall a, pucBuffer b <= a < pucBuffer b + xLength b -> m' !! a = m !! a) ->
  pipe_ok (mkPipe m' b w r) sent received xs.
Proof.
  intros [[B1 B2 B3 B4] (C1&C2&C3) Hb HC HW HR] Ho. pipe_simpl. split; pipe_simpl; try done.
  - split; try done. intros i Hi. rewrite Ho by done. by apply B4.
  - split; [done|]. split; [done|]. apply (holds_frame b m); [done|lia|done].
  - unfold writer_ok in *. pipe_simpl. destruct w as [|a bs space|bs [n h]]; try done.
    destruct HW as [->|(bs'&H1&H2&H3&H4&H5&H6&H7)]; [by left|right]. exists bs'. cbv zeta. split_and!; try done.
    apply (holds_frame b m); [done|lia|done].
Qed.

Lemma step_write_copy m b r sent received xs a bs space :
  pipe_ok (mkPipe m b (WSpace a bs space) r) sent received xs -> source b m (At a) bs ->
  exists res m', write_message_copy a (Z.of_nat (length bs)) space (required_space b (Z.of_nat (length bs))) (m, b)
      = Some (res, (m', b)) /\ pipe_ok (mkPipe m' b (WCopied bs res) r) sent received xs.
Proof.
  intros HI Hs. pose proof HI as [HB HC Hb HM HW HR]. pipe_simpl.
  unfold writer_ok in HW. pipe_simpl. destruct HW as (Hbs&Hl&Hsp).
  destruct (write_message_copy_run b m xs bs a space HB HC Hs Hbs Hsp Hl) as (m'&h&E&Ho&Hw&Hn&Hh).
  exists (reported b bs space, h), m'. split; [exact E|].
  pose proof HB as [B1 B2 B3 B4]. pose proof HC as (C1&C2&C3).
  apply (pipe_memory m _ _ (WSpace a bs space)); [done| |apply Ho|].
  - apply (holds_kept b m m' _ _ (xHead b) space); [lia|done|done| |lia].
    rewrite (Z.mod_small (xHead b)) by lia. by rewrite C2.
  - unfold writer_ok. pipe_simpl.
    destruct (written_piece b bs space) as [E0|[Hne Hp]]; [lia|by left|right].
    eexists. split; [reflexivity|]. split; [done|]. split; [by apply Forall_take|].
    rewrite length_take. split; [lia|]. cbv zeta. rewrite <- Hp. split; [done|]. split; [lia|].
    apply Hh. rewrite Hp. by apply piece_ne.
Qed.

Lemma length_bytes_eq b : length_bytes b = if is_message_buffer b then 4 else 0.
Proof. done. Qed.

Lemma step_write_publish m b r sent received xs bs res :
  pipe_ok (mkPipe m b (WCopied bs res) r) sent received xs ->
  exists b' xs', publish_head res (m, b) = Some (res.1, (m, b')) /\ is_message_buffer b' = is_message_buffer b /\
    pipe_ok (mkPipe m b' WIdle r) (sent ++ if res.1 =? 0 then [] else [take (Z.to_nat res.1) bs]) received xs'.
Proof.
  intros [[B1 B2 B3 B4] (C1&C2&C3) Hb HC HW HR]. pipe_simpl. destruct res as [n h].
  unfold writer_ok in HW. pipe_simpl. unfold publish_head, set_buffer. cbn [fst snd].
  destruct (Z.eqb_spec n 0) as [->|Hne]; cbn [negb when].
  - exists b, xs. rewrite app_nil_r. split; [done|]. split; [done|]. by split.
  - destruct HW as [->|(bs'&->&Hne'&Hb'&Hl'&Hw&Hn&->)]; [done|].
    set (w := piece b (take (Z.to_nat n) bs)) in *.
    exists (set_xHead ((xHead b + Z.of_nat (length w)) `mod` xLength b) b), (xs ++ w).
    split; [done|]. split; [done|].
    assert (Hcell : forall i, cell (set_xHead ((xHead b + Z.of_nat (length w)) `mod` xLength b) b) i = cell b i) by done.
    split; pipe_simpl; try done.
    + split; cbn; try done. apply Z.mod_pos_bound. lia.
    + split; [rewrite length_app; cbn; lia|]. split.
      * cbn. rewrite length_app, <- C2, Zplus_mod_idemp_l. f_equal. lia.
      * apply (holds_app b); [exact C3|]. apply (proj1 (holds_wrap b m (xTail b + Z.of_nat (length xs)) w ltac:(lia))). rewrite C2. exact Hw.
    + apply Forall_app_2; [done|by apply piece_ok].
    + by apply (carried_sent b).
    + unfold reader_ok in *. pipe_simpl. destruct r as [|a max avail|out [n' t]]; [done| |].
      * destruct HR as (H1&H2&H3). split; [done|]. split; [change (length_bytes b < avail <= Z.of_nat (length (xs ++ w))); rewrite length_app; cbn in H2; lia|].
        change (is_message_buffer b = true -> 4 + le_combine (take 4 (xs ++ w)) <= avail).
        intros Em. specialize (H3 Em). rewrite length_bytes_eq, Em in H2. by rewrite take_app_le by lia.
      * destruct HR as [->|(rest&->&H1&H2)]; [by left|right]. exists (rest ++ w). by rewrite app_assoc.
Qed.

Lemma step_read_check m b w sent received xs a max :
  pipe_ok (mkPipe m b w RIdle) sent received xs -> 0 <= max -> length_bytes b < prvBytesInBuffer b ->
  pipe_ok (mkPipe m b w (RSeen a max (prvBytesInBuffer b))) sent received xs.
Proof.
  intros [HB HC Hb HM HW HR] Hmax Hav. pipe_simpl. split; try done. unfold reader_ok. pipe_simpl.
  rewrite (bytes_contents b m xs) in * by done. split; [done|]. split; [done|]. intros Em.
  rewrite length_bytes_eq, Em in Hav.
  destruct (carried_head b sent received xs Em HM) as (msg&rest&->&Hne&Hl); [lia|].
  rewrite frame_length by lia. rewrite length_app, length_frame. lia.
Qed.

(** The reader's copy, in both kinds of buffer. *)
Lemma step_read_copy m b w sent received xs a max avail :
  pipe_ok (mkPipe m b w (RSeen a max avail)) sent received xs -> target b m (Some a) max ->
  exists res m' out, read_message_copy a max avail (m, b) = Some (res, (m', b)) /\
    0 <= res.1 <= max /\ load_bytes (Z.to_nat res.1) a m' = Some out /\
    pipe_ok (mkPipe m' b w (RCopied out res)) sent received xs.
Proof.
  intros HI Ht. pose proof HI as [HB HC Hb HM HW HR]. pipe_simpl. unfold reader_ok in HR. pipe_simpl.
  destruct HR as (Hmax&Hav&Hmsg).
  assert (Hd : forall out n t m', delivered (Some a) out m m' -> n = Z.of_nat (length out) -> n <= max ->
    (n <> 0 -> exists rest, xs = piece b out ++ rest /\ t = (xTail b + Z.of_nat (length (piece b out))) `mod` xLength b) ->
    load_bytes (Z.to_nat n) a m' = Some out /\ pipe_ok (mkPipe m' b w (RCopied out (n, t))) sent received xs).
  { intros out n t m' [[Hload Ho] Hk] -> Hn Hr. rewrite Nat2Z.id. split; [done|].
    assert (HI' : pipe_ok (mkPipe m b w (RCopied out (Z.of_nat (length out), t))) sent received xs).
    { split; try done. unfold reader_ok. pipe_simpl.
      destruct (decide (Z.of_nat (length out) = 0)) as [?|Hne]; [by left|right].
      destruct (Hr Hne) as (rest&Ex&Et). exists rest. split; [done|]. split; [by destruct out|done]. }
    apply (pipe_ring_kept m m'); [done|]. intros i Hi. apply Ho. destruct Ht as [_ Ht]. lia. }
  destruct (is_message_buffer b) eqn:Em.
  - rewrite length_bytes_eq, Em in Hav.
    destruct (carried_head b sent received xs Em HM) as (msg&rest&->&Hne&Hl); [lia|].
    specialize (Hmsg eq_refl). rewrite frame_length in Hmsg by lia.
    destruct (read_message_run b m msg rest a max avail HB HC Hb Em Hne Hl) as (m'&t&E&D&Etl); [lia|done|done|].
    exists (if max <? Z.of_nat (length msg) then 0 else Z.of_nat (length msg), t), m'.
    exists (if max <? Z.of_nat (length msg) then [] else msg). split; [done|].
    assert (Hp : piece b msg = frame msg) by (unfold piece; by rewrite Em).
    destruct (Z.ltb_spec max (Z.of_nat (length msg))); cbn [fst].
    + split; [lia|]. by apply Hd.
    + split; [lia|]. apply Hd; [done|done|done|]. intros _. exists rest. rewrite Hp. split; [done|].
      rewrite Etl, length_frame by done. f_equal. lia.
  - rewrite length_bytes_eq, Em in Hav.
    destruct (read_stream_run b m xs a max avail HB HC Hb Em) as (m'&t&E&D&Etl); [lia|done|done|].
    exists (Z.min max avail, t), m', (take (Z.to_nat (Z.min max avail)) xs). split; [done|]. cbn [fst].
    assert (Hlen : length (take (Z.to_nat (Z.min max avail)) xs) = Z.to_nat (Z.min max avail))
      by (rewrite length_take; lia).
    split; [lia|]. apply Hd; [done|rewrite Hlen; lia|lia|]. intros Hn.
    exists (drop (Z.to_nat (Z.min max avail)) xs). unfold piece. rewrite Em, take_drop. split; [done|].
    rewrite Hlen, Etl by done. f_equal. lia.
Qed.

Lemma step_read_publish m b w sent received xs out res :
  pipe_ok (mkPipe m b w (RCopied out res)) sent received xs ->
  exists b' xs', publish_tail res (m, b) = Some (res.1, (m, b')) /\ is_message_buffer b' = is_message_buffer b /\
    pipe_ok (mkPipe m b' w RIdle) sent (received ++ if res.1 =? 0 then [] else [out]) xs'.
Proof.
  intros [[B1 B2 B3 B4] (C1&C2&C3) Hb HC HW HR]. pipe_simpl. destruct res as [n t].
  unfold reader_ok in HR. pipe_simpl. unfold publish_tail, set_buffer. cbn [fst snd].
  destruct (Z.eqb_spec n 0) as [->|Hne]; cbn [negb when].
  - exists b, xs. rewrite app_nil_r. split; [done|]. split; [done|]. by split.
  - destruct HR as [->|(rest&->&Hne'&->)]; [done|].
    set (k := Z.of_nat (length (piece b out))) in *. rewrite length_app in C1, C2.
    assert (Hlo : Z.of_nat (length out) <= k).
    { unfold k, piece. destruct (is_message_buffer b); [rewrite length_frame|]; lia. }
    exists (set_xTail ((xTail b + k) `mod` xLength b) b), rest. split; [done|]. split; [done|].
    assert (Hn : Z.of_nat (length (piece b out) + length rest) = k + Z.of_nat (length rest)) by lia.
    rewrite Hn in C1, C2. split; pipe_simpl; try done.
    + split; cbn; try done. apply Z.mod_pos_bound. lia.
    + split; [cbn; lia|]. split.
      * cbn. rewrite Zplus_mod_idemp_l, <- C2. f_equal. lia.
      * apply holds_app_inv in C3 as [_ C3]. exact (proj2 (holds_wrap b m (xTail b + k) rest ltac:(lia)) C3).
    + by apply Forall_app in Hb as [_ Hb].
    + apply (carried_received b); [done|lia|done].
    + unfold writer_ok in *. pipe_simpl. rewrite length_app in HW. fold k in HW.
      destruct w as [|a bs space|bs [n' h]]; [done| |].
      * destruct HW as (H1&H2&H3). split_and!; [done|done|lia|cbn; lia].
      * destruct HW as [->|(bs'&H1&H2&H3&H4&H5&H6&H7)]; [by left|right]. exists bs'. cbv zeta in *.
        split_and!; try done. change (piece (set_xTail ((xTail b + k) `mod` xLength b) b) bs') with (piece b bs').
        cbn. lia.
Qed.

Lemma pipe_step_ok p s r q sent received xs :
  pipe_ok p sent received xs -> pipe_step p s r q ->
  exists xs', pipe_ok q (sent ++ s) (received ++ r) xs' /\
    is_message_buffer (p_buf q) = is_message_buffer (p_buf p).
Proof.
  intros HI Hst. destruct Hst as [m b r a bs Hb Hl|m b r a bs space res m' b' Hs E|m b r bs res n m' b' E
    |m b w a max Hm Ha|m b w a max avail res m' b' out Ht E Eo|m b w out res n m' b' E|m m' b w r Ho];
    rewrite ?app_nil_r.
  - exists xs. split; [|done]. destruct HI as [HB HC Hbx HM HW HR]. pipe_simpl. split; try done.
    unfold writer_ok. pipe_simpl. rewrite (spaces_contents b m xs) by done. destruct HC as [HC _]. split_and!; [done..|lia|lia].
  - destruct (step_write_copy _ _ _ _ _ _ _ _ _ HI Hs) as (res'&m1&E'&HI'). rewrite E in E'.
    injection E' as <- <- <-. by exists xs.
  - destruct (step_write_publish _ _ _ _ _ _ _ _ HI) as (b1&xs'&E'&Hm&HI'). rewrite E in E'.
    injection E' as -> <- <-. by exists xs'.
  - exists xs. split; [|done]. by apply step_read_check.
  - destruct (step_read_copy _ _ _ _ _ _ _ _ _ HI Ht) as (res'&m1&out'&E'&_&Eo'&HI'). rewrite E in E'.
    injection E' as <- <- <-. rewrite Eo in Eo'. injection Eo' as <-. by exists xs.
  - destruct (step_read_publish _ _ _ _ _ _ _ _ HI) as (b1&xs'&E'&Hm&HI'). rewrite E in E'.
    injection E' as -> <- <-. by exists xs'.
  - exists xs. split; [|done]. by apply (pipe_ring_kept m).
Qed.

Lemma pipe_run_ok p sent received q s0 r0 xs :
  pipe_ok p s0 r0 xs -> pipe_run p sent received q ->
  exists xs', pipe_ok q (s0 ++ sent) (r0 ++ received) xs' /\
    is_message_buffer (p_buf q) = is_message_buffer (p_buf p).
Proof.
  intros HI Hrun. induction Hrun as [|sent received q s r q' Hrun (xs1&HI1&E1) Hst].
  - exists xs. by rewrite !app_nil_r.
  - destruct (pipe_step_ok _ _ _ _ _ _ _ HI1 Hst) as (xs2&HI2&E2). exists xs2.
    rewrite !app_assoc. split; [done|]. by rewrite E2.
Qed.

Lemma empty_pipe_ok m b :
  buffer_ok b m -> xHead b = xTail b -> pipe_ok (mkPipe m b WIdle RIdle) [] [] [].
Proof.
  intros HB E. pose proof HB as [B1 B2 B3 B4]. split; pipe_simpl; try done.
  - split; [cbn; lia|]. split; [|by intros i x Hi]. cbn. rewrite Z.add_0_r, Z.mod_small by lia. done.
  - unfold carried. destruct (is_message_buffer b); [by exists []|done].
Qed.

(** C15 — A reader and a writer on an initially empty buffer, without any lock, in
    any interleaving of their steps (look at the indices, copy, publish) and of
    other writes to memory: what has been received is what has been sent, in
    order, less what is in the ring, whole messages for a message buffer and
    bytes for a stream buffer; the ring never holds more than its length less
    one; and a copy never goes wrong: it always succeeds, and a message is
    delivered only if it fits into the reader's buffer. *)
Theorem stream_buffer_concurrent (m : mem) (b : StreamBuffer_t) (sent received : list (list Z)) (q : pipe) :
  buffer_ok b m -> xHead b = xTail b -> pipe_run (mkPipe m b WIdle RIdle) sent received q ->
  exists xs, contents (p_buf q) (p_mem q) xs /\ Z.of_nat (length xs) <= xLength (p_buf q) - 1 /\
    (if is_message_buffer b
     then exists pending, sent = received ++ pending /\ xs = concat (frame <$> pending)
     else concat sent = concat received ++ xs) /\
    (forall a bs space, p_writer q = WSpace a bs space -> source (p_buf q) (p_mem q) (At a) bs ->
       is_Some (write_message_copy a (Z.of_nat (length bs)) space
                  (required_space (p_buf q) (Z.of_nat (length bs))) (p_mem q, p_buf q))) /\
    (forall a max avail, p_reader q = RSeen a max avail -> target (p_buf q) (p_mem q) (Some a) max ->
       exists res m' out, read_message_copy a max avail (p_mem q, p_buf q) = Some (res, (m', p_buf q)) /\
         0 <= res.1 <= max /\ load_bytes (Z.to_nat res.1) a m' = Some out).
Proof.
  intros HB E Hrun. destruct (pipe_run_ok _ _ _ _ _ _ _ (empty_pipe_ok m b HB E) Hrun) as (xs&HI&Em).
  cbn [app p_buf] in *. exists xs. pose proof HI as [HB' HC' Hb' HM' HW' HR'].
  split; [done|]. split; [destruct HC' as [HC' _]; lia|]. split; [|split].
  - rewrite <- Em. unfold carried in HM'. destruct (is_message_buffer (p_buf q)); [|done].
    destruct HM' as (pending&?&?&_). by exists pending.
  - intros a bs space Ew Hs. destruct q as [m' b' w r]. cbn in Ew, Hs |- *. subst w.
    destruct (step_write_copy _ _ _ _ _ _ _ _ _ HI Hs) as (res&m1&E'&_). by rewrite E'.
  - intros a max avail Er Ht. destruct q as [m' b' w r]. cbn in Er, Ht |- *. subst r.
    destruct (step_read_copy _ _ _ _ _ _ _ _ _ HI Ht) as (res&m1&out&E'&Hres&Eo&_). by exists res, m1, out.
Qed.

(** A new message buffer of seven usable bytes at address 100, and a message of
    three at address 200. *)
Definition pipe_mem : mem := fill 8 100 85 (fill 8 200 9 ∅).
Definition pipe_buf : StreamBuffer_t := mkSB 0 0 8 1 0 0 100 1.

Example pipe_new : new_stream_buffer 0 7 0 true 100 (fill 8 100 0 (fill 8 200 9 ∅), mkSB 0 0 0 0 0 0 0 0) =
  Some (tt, (pipe_mem, pipe_buf)).
Proof. vm_compute. reflexivity. Qed.

Lemma pipe_buf_ok : buffer_ok pipe_buf pipe_mem.
Proof. split; [by vm_compute..|]. apply (fill_mapped 8 100). Qed.

Lemma pipe_source : source pipe_buf pipe_mem (At 200) [9; 9; 9].
Proof. split; [by vm_compute|]. right. by vm_compute. Qed.

Lemma pipe_ex_run : exists q, pipe_run (mkPipe pipe_mem pipe_buf WIdle RIdle) [[9; 9; 9]] [] q.
Proof.
  assert (H1 : pipe_run (mkPipe pipe_mem pipe_buf WIdle RIdle) ([] ++ []) ([] ++ [])
    (mkPipe pipe_mem pipe_buf (WSpace 200 [9; 9; 9] 7) RIdle)).
  { eapply pipe_next; [apply pipe_start|]. apply (write_check pipe_mem pipe_buf RIdle 200 [9; 9; 9]).
    - repeat constructor; lia. - cbn. lia. }
  destruct (step_write_copy pipe_mem pipe_buf RIdle [] [] [] 200 [9; 9; 9] 7) as (res&m1&E&HI).
  { pose proof (empty_pipe_ok pipe_mem pipe_buf pipe_buf_ok eq_refl) as [H2 H3 H4 H5 H6 H7]. split; try done.
    split; [repeat constructor; lia|]. split_and!; by vm_compute. }
  { exact pipe_source. }
  assert (Er : res = (3, 7)).
  { pose proof (f_equal (fun o => fst <$> o) E) as Er. cbn [fmap option_fmap option_map fst] in Er.
    assert (Ex : fst <$> write_message_copy 200 3 7 (required_space pipe_buf 3) (pipe_mem, pipe_buf) = Some (3, 7))
      by (by vm_compute).
    change (Z.of_nat (length [9; 9; 9])) with 3 in Er. rewrite Ex in Er. by injection Er. }
  subst res.
  assert (H2 := pipe_next _ _ _ _ _ _ _ H1 (write_copy _ _ RIdle _ _ _ _ _ _ pipe_source E)).
  destruct (step_write_publish _ _ _ _ _ _ _ _ HI) as (b'&xs'&E'&_&_).
  eexists. exact (pipe_next _ _ _ _ _ _ _ H2 (write_publish _ _ _ _ _ _ _ _ E')).
Qed.

Lemma stream_buffer_concurrent_witness :
  exists q xs, contents (p_buf q) (p_mem q) xs /\
    (exists pending, [[9; 9; 9]] = [] ++ pending /\ xs = concat (frame <$> pending)).
Proof.
  destruct pipe_ex_run as [q Hrun].
  destruct (stream_buffer_concurrent pipe_mem pipe_buf _ _ q pipe_buf_ok eq_refl Hrun) as (xs&HC&_&HM&_).
  exists q, xs. split; [exact HC|exact HM].
Defined.
