(* ===== verification/EventGroups.v ===== *)
(** * Event groups (event_groups.c)

    A word of event bits on which tasks wait for some or for all of a set of
    bits.  What a waiting task waits for is kept in the value of its event
    list item, with control bits in the top byte; the same word carries back
    the bits that released it.  The functions work on the kernel and on one
    event group. *)
From S2P Require Import Prelude KList Tasks.
Open Scope Z_scope.

Definition eventCLEAR_EVENTS_ON_EXIT_BIT : Z := 0x01000000.
Definition eventUNBLOCKED_DUE_TO_BIT_SET : Z := 0x02000000.
Definition eventWAIT_FOR_ALL_BITS : Z := 0x04000000.
Definition eventEVENT_BITS_CONTROL_BYTES : Z := 0xff000000.

Record EventGroup_t := mkEventGroup { uxEventBits : Z; xTasksWaitingForBits : Z }.

Record esys := mkEsys { e_kernel : kernel; e_group : EventGroup_t }.

Abbreviation E := (prog esys).

Definition kern {A} (p : K A) : E A :=
  fun x => '(r, k) ← p (e_kernel x); Some (r, mkEsys k (e_group x)).
Definition bits : E Z := ask (fun x => uxEventBits (e_group x)).
Definition set_bits (f : Z -> Z) : E unit :=
  update (fun x => mkEsys (e_kernel x) (mkEventGroup (f (uxEventBits (e_group x))) (xTasksWaitingForBits (e_group x)))).
Definition waiting_list : E Z := ask (fun x => xTasksWaitingForBits (e_group x)).

(** [xEventGroupCreate] once the memory is allocated. *)
Definition event_group_init : E unit :=
  _ ← set_bits (fun _ => 0);
  l ← waiting_list;
  kern (update (fun k => set_task_lists (vListInitialise l (task_lists k)) k)).

Definition prvTestWaitCondition (uxCurrentEventBits uxBitsToWaitFor : Z) (xWaitForAllBits : bool) : bool :=
  if xWaitForAllBits then Z.land uxCurrentEventBits uxBitsToWaitFor =? uxBitsToWaitFor
  else negb (Z.land uxCurrentEventBits uxBitsToWaitFor =? 0).

(** The top byte is the kernel's own: callers may not name its bits. *)
Definition assert_user_bits (b : Z) : E unit := configASSERT (Z.land b eventEVENT_BITS_CONTROL_BYTES =? 0).

(** ** Setting bits *)

(** Whether the bits [now] release a task with the item value [v]. *)
Definition match_found (v now : Z) : bool :=
  let uxControlBits := Z.land v eventEVENT_BITS_CONTROL_BYTES in
  let uxBitsWaitedFor := Z.ldiff v eventEVENT_BITS_CONTROL_BYTES in
  if Z.land uxControlBits eventWAIT_FOR_ALL_BITS =? 0 then negb (Z.land uxBitsWaitedFor now =? 0)
  else Z.land uxBitsWaitedFor now =? uxBitsWaitedFor.

(** The bits that such a task wants to be cleared. *)
Definition bits_to_clear (v : Z) : Z :=
  if negb (Z.land (Z.land v eventEVENT_BITS_CONTROL_BYTES) eventCLEAR_EVENTS_ON_EXIT_BIT =? 0)
  then Z.ldiff v eventEVENT_BITS_CONTROL_BYTES else 0.

(** The [while] loop of [xEventGroupSetBits]; returns [uxBitsToClear]. *)
Fixpoint set_bits_loop (fuel : nat) (pxListItem : ListItemPtr) (uxBitsToClear : Z) : E Z :=
  match fuel with
  | O => fun _ => None
  | S fuel' =>
      l ← waiting_list;
      if decide (pxListItem <> ListEnd l) then
        pxNext ← kern (from_lists (fun s => pxNext <$> items s !! pxListItem));
        v ← kern (from_lists (listGET_LIST_ITEM_VALUE pxListItem));
        now ← bits;
        if match_found v now then
          _ ← kern (vTaskRemoveFromUnorderedEventList pxListItem (Z.lor now eventUNBLOCKED_DUE_TO_BIT_SET));
          set_bits_loop fuel' pxNext (Z.lor uxBitsToClear (bits_to_clear v))
        else set_bits_loop fuel' pxNext uxBitsToClear
      else mret uxBitsToClear
  end.

Definition waiters (x : esys) : nat :=
  Z.to_nat (default 0 (listCURRENT_LIST_LENGTH (xTasksWaitingForBits (e_group x)) (task_lists (e_kernel x)))).

(** Returns the bits as they are after the scheduler has been resumed. *)
Definition xEventGroupSetBits (uxBitsToSet : Z) : E Z :=
  _ ← assert_user_bits uxBitsToSet;
  l ← waiting_list;
  _ ← kern vTaskSuspendAll;
  pxListItem ← kern (from_lists (listGET_HEAD_ENTRY l));
  _ ← set_bits (fun b => Z.lor b uxBitsToSet);
  n ← ask waiters;
  uxBitsToClear ← set_bits_loop (S n) pxListItem 0;
  _ ← set_bits (fun b => Z.ldiff b uxBitsToClear);
  _ ← kern xTaskResumeAll;
  bits.

Definition xEventGroupClearBits (uxBitsToClear : Z) : E Z :=
  _ ← assert_user_bits uxBitsToClear;
  uxReturn ← bits; _ ← set_bits (fun b => Z.ldiff b uxBitsToClear); mret uxReturn.

Definition xEventGroupGetBitsFromISR : E Z := bits.

Definition vEventGroupSetBitsCallback (ulBitsToSet : Z) : E unit := _ ← xEventGroupSetBits ulBitsToSet; mret tt.
Definition vEventGroupClearBitsCallback (ulBitsToClear : Z) : E unit :=
  _ ← xEventGroupClearBits ulBitsToClear; mret tt.

(** ** Waiting for bits *)

(** What a call that may wait asserts. *)
Definition assert_may_wait_for (uxBitsToWaitFor xTicksToWait : Z) : E unit :=
  _ ← assert_user_bits uxBitsToWaitFor;
  _ ← configASSERT (negb (uxBitsToWaitFor =? 0));
  state ← kern xTaskGetSchedulerState;
  configASSERT (negb (bool_decide (state = taskSCHEDULER_SUSPENDED) && negb (xTicksToWait =? 0))).

(** The first part of a call either returns or blocks; the second result is
    whether it yields after [xTaskResumeAll]. *)
Inductive wait_outcome := Value (uxReturn : Z) | Blocked.

Definition xEventGroupWaitBits_enter (uxBitsToWaitFor : Z) (xClearOnExit xWaitForAllBits : bool)
  (xTicksToWait : Z) : E (wait_outcome * bool) :=
  _ ← assert_may_wait_for uxBitsToWaitFor xTicksToWait;
  l ← waiting_list;
  _ ← kern vTaskSuspendAll;
  uxCurrentEventBits ← bits;
  r ← (if prvTestWaitCondition uxCurrentEventBits uxBitsToWaitFor xWaitForAllBits then
         _ ← when xClearOnExit (set_bits (fun b => Z.ldiff b uxBitsToWaitFor));
         mret (Value uxCurrentEventBits)
       else if xTicksToWait =? 0 then mret (Value uxCurrentEventBits)
       else
         let uxControlBits :=
           Z.lor (if xClearOnExit then eventCLEAR_EVENTS_ON_EXIT_BIT else 0)
                 (if xWaitForAllBits then eventWAIT_FOR_ALL_BITS else 0) in
         _ ← kern (vTaskPlaceOnUnorderedEventList l (Z.lor uxBitsToWaitFor uxControlBits) xTicksToWait);
         mret Blocked);
  xAlreadyYielded ← kern xTaskResumeAll;
  mret (r, match r with Blocked => negb xAlreadyYielded | Value _ => false end).

(** The part after the task has been woken. *)
Definition xEventGroupWaitBits_exit (uxBitsToWaitFor : Z) (xClearOnExit xWaitForAllBits : bool) : E Z :=
  uxReturn ← kern uxTaskResetEventItemValue;
  uxReturn ← (if Z.land uxReturn eventUNBLOCKED_DUE_TO_BIT_SET =? 0 then
                now ← bits;
                _ ← when (prvTestWaitCondition now uxBitsToWaitFor xWaitForAllBits && xClearOnExit)
                      (set_bits (fun b => Z.ldiff b uxBitsToWaitFor));
                mret now
              else mret uxReturn);
  mret (Z.ldiff uxReturn eventEVENT_BITS_CONTROL_BYTES).

Definition xEventGroupSync_enter (uxBitsToSet uxBitsToWaitFor xTicksToWait : Z) : E (wait_outcome * bool) :=
  _ ← assert_may_wait_for uxBitsToWaitFor xTicksToWait;
  l ← waiting_list;
  _ ← kern vTaskSuspendAll;
  uxOriginalBitValue ← bits;
  _ ← xEventGroupSetBits uxBitsToSet;
  r ← (if Z.land (Z.lor uxOriginalBitValue uxBitsToSet) uxBitsToWaitFor =? uxBitsToWaitFor then
         _ ← set_bits (fun b => Z.ldiff b uxBitsToWaitFor);
         mret (Value (Z.lor uxOriginalBitValue uxBitsToSet))
       else if negb (xTicksToWait =? 0) then
         _ ← kern (vTaskPlaceOnUnorderedEventList l
                     (Z.lor uxBitsToWaitFor (Z.lor eventCLEAR_EVENTS_ON_EXIT_BIT eventWAIT_FOR_ALL_BITS)) xTicksToWait);
         mret Blocked
       else now ← bits; mret (Value now));
  xAlreadyYielded ← kern xTaskResumeAll;
  mret (r, match r with Blocked => negb xAlreadyYielded | Value _ => false end).

Definition xEventGroupSync_exit (uxBitsToWaitFor : Z) : E Z :=
  xEventGroupWaitBits_exit uxBitsToWaitFor true true.

(** ** Deleting *)

(** The [while] loop of [vEventGroupDelete]. *)
Fixpoint delete_loop (fuel : nat) : E unit :=
  match fuel with
  | O => fun _ => None
  | S fuel' =>
      l ← waiting_list;
      n ← kern (from_lists (listCURRENT_LIST_LENGTH l));
      if 0 <? n then
        p ← kern (from_lists (listGET_HEAD_ENTRY l));
        _ ← configASSERT (bool_decide (p <> ListEnd l));
        _ ← kern (vTaskRemoveFromUnorderedEventList p eventUNBLOCKED_DUE_TO_BIT_SET);
        delete_loop fuel'
      else mret tt
  end.

(** Up to the release of the memory. *)
Definition vEventGroupDelete : E unit :=
  _ ← kern vTaskSuspendAll;
  n ← ask waiters;
  _ ← delete_loop (S n);
  _ ← kern xTaskResumeAll;
  mret tt.
