(* ===== verification/EventGroupsProofs.v ===== *)
(** * Properties of the event groups *)
From S2P Require Import Prelude KList Tasks TasksInv TasksOps TasksProofs TasksResume EventGroups.
Open Scope Z_scope.

Definition event_item (t : Z) : Z := 2 * t + 1.

(** ** Leaving an unordered event list *)

Lemma lor_word v w : 0 <= v < 2 ^ 32 -> 0 <= w < 2 ^ 32 -> 0 <= Z.lor v w < 2 ^ 32.
Proof.
  intros Hv Hw. split; [apply Z.lor_nonneg; lia|].
  destruct (Z.eq_dec (Z.lor v w) 0) as [->|Hne]; [lia|].
  apply Z.log2_lt_pow2; [pose proof (proj2 (Z.lor_nonneg v w) ltac:(lia)); lia|].
  rewrite Z.log2_lor by lia.
  apply Z.max_lub_lt; [destruct (Z.eq_dec v 0) as [->|]|destruct (Z.eq_dec w 0) as [->|]];
    try (cbn; lia); apply Z.log2_lt_pow2; lia.
Qed.

(** What the removal does, for a task with item value [v] afterwards. *)
Record released (t v : Z) (k k' : kernel) (L L' : gmap Z alist) : Prop := {
  rl_readied : readied Z.ltb [t] k k' L';
  rl_lists : forall l, ~ holds_states l -> cont (task_lists k) (xEventListItem t) <> Some (Some l) -> L' !! l = L !! l;
  rl_values : forall y, vals (task_lists k') y = if decide (y = event_item t) then v else vals (task_lists k) y
}.

Lemma unordered_remove_inv k L l a i t tcb w :
  inv k L -> L !! l = Some a -> ~ holds_states l -> elems a !! i = Some (event_item t) ->
  tcbs k !! t = Some tcb -> 0 <= w < 2 ^ 32 -> uxSchedulerSuspended k <> 0 ->
  exists k' L', vTaskRemoveFromUnorderedEventList (xEventListItem t) w k = Some (tt, k') /\
    released t (Z.lor w taskEVENT_LIST_ITEM_VALUE_IN_USE) k k' L L' /\ L' !! l = Some (aremove i a).
Proof.
  intros HI Ha Hl Hi Ht Hw Hsus. set (v := Z.lor w taskEVENT_LIST_ITEM_VALUE_IN_USE).
  assert (Hv : 0 <= v <= portMAX_DELAY).
  { pose proof (lor_word w taskEVENT_LIST_ITEM_VALUE_IN_USE Hw) as H.
    unfold taskEVENT_LIST_ITEM_VALUE_IN_USE, portMAX_DELAY in *. fold v in H. lia. }
  assert (Hce : cont (task_lists k) (xEventListItem t) = Some (Some l)).
  { apply (rep_cont _ _ _ (co_lists _ _ (inv_core _ _ HI) _ _ Ha)). by eapply list_elem_of_lookup_2. }
  destruct (set_event_value_inv k L t tcb v HI Ht Hv) as (k0&E0&Hs0&HI0&Hco0&Hva0).
  unfold same_but_lists in Hs0.
  assert (Ht0 : tcbs k0 !! t = Some tcb) by (rewrite Hs0; exact Ht).
  assert (Hce0 : cont (task_lists k0) (xEventListItem t) = Some (Some l)) by (by rewrite Hco0).
  destruct (inv_asleep _ _ HI0 t l (ex_intro _ _ Ht0) Hce0) as (l0&Hcs0&Hl0).
  destruct (remove_event_inv k0 L t tcb l HI0 Ht0 Hce0) as (k1&a1&j&E1&Hs1&HI1&Ha1&Hj&Hd1&_&Hp1&Hk1).
  rewrite Ha in Ha1. injection Ha1 as <-. unfold same_but_lists in Hs1.
  assert (j = i) as ->.
  { pose proof (rep_nodup _ _ _ (co_lists _ _ (inv_core _ _ HI) _ _ Ha)) as Hnd. by eapply NoDup_lookup. }
  assert (Ht1 : tcbs k1 !! t = Some tcb) by (rewrite Hs1; exact Ht0).
  assert (Hcs1 : cont (task_lists k1) (xStateListItem t) = Some (Some l0)).
  { unfold xStateListItem. rewrite Hk1 by lia. exact Hcs0. }
  destruct (make_ready_inv k1 _ t tcb l0 HI1 Ht1 Hcs1 Hd1) as (k2&L2&E2&Hw2&HI2&Hc2&_&Hp2&Hk2&HL2).
  assert (Hw0 : woke k k2).
  { eapply woke_trans; [apply woke_lists; exact Hs0|]. eapply woke_trans; [apply woke_lists; exact Hs1|exact Hw2]. }
  destruct (woke_fields _ _ Hw0) as (Et&Ecu&_&_&Etk&Esu&Ey&_).
  destruct (co_current _ _ (inv_core _ _ HI)) as [cur Hcur].
  set (b := uxPriority cur <? uxPriority tcb).
  set (k3 := if b then set_xYieldPending true k2 else k2).
  assert (HI3 : inv k3 L2) by (unfold k3; destruct b; [by eapply inv_ext|done]).
  assert (Hst : task_lists k3 = task_lists k2) by (unfold k3; by destruct b).
  exists k3, L2. split; [|split; [split|]].
  - unfold vTaskRemoveFromUnorderedEventList. fold v. rewrite ask_bind, assert_bind by (by apply negb_true_iff, Z.eqb_neq). rewrite (bind_run _ _ _ _ _ E0).
    assert (Ho : pvOwner <$> items (task_lists k0) !! xEventListItem t = Some t).
    { destruct (co_owner _ _ (inv_core _ _ HI0) _ _ Ht0) as [_ H]. exact H. }
    rewrite (from_lists_bind _ _ _ _ Ho), (bind_run _ _ _ _ _ E1). unfold make_ready in E2.
    destruct (listREMOVE_ITEM (xStateListItem t) k1) as [[[] k1']|] eqn:Er;
      [|unfold mbind, prog_bind in E2; by rewrite Er in E2].
    rewrite (bind_run _ _ _ _ _ Er) in E2. rewrite (bind_run _ _ _ _ _ Er), (bind_run _ _ _ _ _ E2).
    rewrite (get_tcb_bind _ _ _ tcb) by (by rewrite Et). rewrite ask_bind, Ecu.
    rewrite (get_tcb_bind _ _ _ cur) by (by rewrite Et). unfold k3, b. by destruct (uxPriority cur <? uxPriority tcb).
  - split; try done; try (unfold k3; destruct b; done).
    + unfold k3. unfold woke in Hw0. destruct b; cbn; by rewrite Hw0.
    + unfold k3. unfold woke in Hw0. destruct b; cbn; by rewrite Hw0.
    + intros t' tcb' ->%list_elem_of_singleton Ht'. rewrite Ht in Ht'. injection Ht' as <-. rewrite Hst.
      split; [exact Hc2|]. unfold xEventListItem. rewrite Hk2 by lia. exact Hd1.
    + intros y Hy. destruct (Hy t) as [H1 H2]; [by left|]. by rewrite Hst, Hk2, Hk1, Hco0.
    + cbn. rewrite orb_false_r, (prio_get _ _ _ Hcur), (prio_get _ _ _ Ht). fold b. unfold k3.
      destruct b; cbn; by rewrite ?Ey, ?orb_true_r, ?orb_false_r.
  - intros l' Hl' Hne. rewrite HL2 by done. rewrite lookup_insert_ne; [done|]. congruence.
  - intros y. rewrite Hst. rewrite (payload_vals _ _ y Hp2), (payload_vals _ _ y Hp1). by rewrite Hva0.
  - rewrite HL2 by done. by rewrite lookup_insert_eq.
Qed.

(** ** The loop *)

(** The value with which a task is released by the bits [now]. *)
Definition release_value (now : Z) : Z :=
  Z.lor (Z.lor now eventUNBLOCKED_DUE_TO_BIT_SET) taskEVENT_LIST_ITEM_VALUE_IN_USE.

(** The tasks [ts] were released by the bits [now], and nothing else happened. *)
Record all_released (now : Z) (ts : list Z) (l : Z) (k k' : kernel) (L L' : gmap Z alist) : Prop := {
  ar_readied : readied Z.ltb ts k k' L';
  ar_values : forall t, t ∈ ts -> vals (task_lists k') (event_item t) = release_value now;
  ar_other_values : forall y, (forall t, t ∈ ts -> y <> event_item t) ->
    vals (task_lists k') y = vals (task_lists k) y;
  ar_lists : forall l', ~ holds_states l' -> l' <> l -> L' !! l' = L !! l'
}.

Lemma all_released_nil now l k L : inv k L -> all_released now [] l k k L L.
Proof. intros HI. split; [by apply readied_nil| |done|done]. intros t Ht. by apply not_elem_of_nil in Ht. Qed.

Lemma all_released_cons now t ts l k k1 k2 L L1 L2 :
  t ∉ ts -> is_Some (tcbs k !! t) -> cont (task_lists k) (xEventListItem t) = Some (Some l) ->
  released t (release_value now) k k1 L L1 -> all_released now ts l k1 k2 L1 L2 ->
  all_released now (t :: ts) l k k2 L L2.
Proof.
  intros Hnin Ht Hc [R1 R2 R3] [A1 A2 A3 A4]. split.
  - by eapply readied_cons.
  - intros u [->|Hu]%elem_of_cons; [|by apply A2].
    rewrite A3; [rewrite R3; by rewrite decide_True|]. intros w Hw. unfold event_item. intros E.
    assert (w = t) as -> by lia. done.
  - intros y Hy. rewrite A3, R3; [rewrite decide_False; [done|]|].
    + apply Hy. by left.
    + intros u Hu. apply Hy. by right.
  - intros l' H1 H2. rewrite A4, R2; try done. rewrite Hc. congruence.
Qed.

(** The cursor of the loop, at position [n] of the list. *)
Lemma cursor_cons l pre t ts : ring_after l (length pre) (pre ++ (event_item <$> t :: ts)) = xEventListItem t.
Proof. unfold ring_after. by rewrite drop_app_length. Qed.

Lemma cursor_nil l pre : ring_after l (length pre) pre = ListEnd l.
Proof. unfold ring_after. by rewrite drop_all. Qed.

Lemma cursor_next l pre t ts :
  ring_before l (S (length pre)) (pre ++ (event_item <$> t :: ts)) = xEventListItem t /\
  ring_after l (S (length pre)) (pre ++ (event_item <$> t :: ts)) = ring_after l (length pre) (pre ++ (event_item <$> ts)).
Proof.
  rewrite fmap_cons. unfold ring_before, ring_after. split.
  - replace (take (S (length pre)) (pre ++ event_item t :: (event_item <$> ts))) with (pre ++ [event_item t]).
    + rewrite fmap_app. change (Item <$> [event_item t]) with [Item (event_item t)]. by rewrite last_snoc.
    + rewrite (take_S_r _ _ (event_item t)) by apply lookup_app_mid. by rewrite take_app_length.
  - rewrite drop_app_length. rewrite cons_middle, app_assoc, drop_app_length'; [done|].
    rewrite length_app. cbn. lia.
Qed.

Lemma remove_cursor i pre t (ts : list Z) :
  elems i = pre ++ (event_item <$> t :: ts) -> elems (aremove (length pre) i) = pre ++ (event_item <$> ts).
Proof.
  intros E. unfold aremove. cbn. rewrite E, take_app_length. f_equal.
  rewrite fmap_cons, cons_middle, app_assoc, drop_app_length'; [done|]. rewrite length_app. cbn. lia.
Qed.

Section loop.
Variables (V : Z -> Z) (now : Z).
Hypothesis Hnow : 0 <= now < 2 ^ 32.

Definition matching (t : Z) : Prop := match_found (V t) now = true.

#[local] Instance matching_dec t : Decision (matching t).
Proof. unfold matching. apply _. Defined.

Definition clears (c : Z) (ts : list Z) : Z := fold_left (fun c t => Z.lor c (bits_to_clear (V t))) ts c.

Lemma set_bits_loop_inv l : forall ts pre k L a fuel c,
  inv k L -> uxSchedulerSuspended k <> 0 -> L !! l = Some a -> ~ holds_states l -> elems a = pre ++ (event_item <$> ts) ->
  (forall t, t ∈ ts -> vals (task_lists k) (event_item t) = V t) -> (length ts < fuel)%nat ->
  exists k' L' a', set_bits_loop fuel (ring_after l (length pre) (elems a)) c (mkEsys k (mkEventGroup now l)) =
      Some (clears c (filter matching ts), mkEsys k' (mkEventGroup now l)) /\
    all_released now (filter matching ts) l k k' L L' /\
    L' !! l = Some a' /\ elems a' = pre ++ (event_item <$> filter (fun t => ~ matching t) ts).
Proof using Hnow.
  induction ts as [|t ts IH]; intros pre k L a fuel c HI Hsus Ha Hl Hx HV Hf; (destruct fuel as [|fuel]; [lia|]);
    cbn [set_bits_loop]; unfold waiting_list at 1; rewrite ask_bind; cbn [e_group xTasksWaitingForBits].
  - rewrite Hx. cbn [fmap list_fmap]. rewrite app_nil_r, cursor_nil, decide_False by (intros H; by apply H).
    exists k, L, a. split; [done|]. split; [by apply all_released_nil|]. split; [done|]. by rewrite Hx.
  - rewrite Hx, cursor_cons. rewrite decide_True by (unfold xEventListItem; discriminate).
    pose proof (co_lists _ _ (inv_core _ _ HI) _ _ Ha) as R.
    destruct (ring_around _ _ _ (S (length pre)) R) as [Hnext _]. rewrite Hx in Hnext.
    destruct (cursor_next l pre t ts) as [Eb Ea]. rewrite Eb, Ea in Hnext.
    assert (Hin : event_item t ∈ elems a) by (rewrite Hx; set_solver).
    assert (Hce : cont (task_lists k) (xEventListItem t) = Some (Some l)) by (by apply (rep_cont _ _ _ R)).
    assert (Hi : elems a !! length pre = Some (event_item t)) by (rewrite Hx; apply lookup_app_mid).
    destruct (core_item k L (event_item t) l a (inv_core _ _ HI) Ha Hin) as (t'&tcb&Ht&_&Ht').
    assert (t' = t) as -> by (unfold event_item in *; destruct (co_items _ _ (inv_core _ _ HI) _ _ _ Ha Hin)
      as (t2&?&?&Hk); lia).
    pose proof (rep_nodup _ _ _ R) as Hnd. rewrite Hx in Hnd. apply NoDup_app in Hnd as (_&_&Hnd).
    rewrite fmap_cons in Hnd. apply NoDup_cons in Hnd as [Hnin _].
    assert (Hnin' : t ∉ ts) by (intros H; apply Hnin; by apply list_elem_of_fmap_2).
    assert (E1 : forall B (f : ListItemPtr -> prog esys B), (kern (from_lists (fun s => pxNext <$> items s !! xEventListItem t)) ≫= f)
        (mkEsys k (mkEventGroup now l)) = f (ring_after l (length pre) (pre ++ (event_item <$> ts))) (mkEsys k (mkEventGroup now l))).
    { intros B f. unfold nxt in Hnext. unfold kern, from_lists, try_ask, mbind, prog_bind. cbn. by rewrite Hnext. }
    rewrite E1.
    assert (E2 : forall B (f : Z -> prog esys B), (kern (from_lists (listGET_LIST_ITEM_VALUE (xEventListItem t))) ≫= f)
        (mkEsys k (mkEventGroup now l)) = f (V t) (mkEsys k (mkEventGroup now l))).
    { intros B f. rewrite <- (HV t) by (by left).
      unfold kern, from_lists, try_ask, mbind, prog_bind. cbn. unfold listGET_LIST_ITEM_VALUE, vals, val.
      destruct (co_owner _ _ (inv_core _ _ HI) _ _ Ht) as [_ H]. unfold own in H.
      change (Item (event_item t)) with (xEventListItem t).
      by destruct (items (task_lists k) !! xEventListItem t). }
    rewrite E2. unfold bits at 1. rewrite ask_bind. cbn [e_group uxEventBits].
    destruct (match_found (V t) now) eqn:Em.
    + rewrite !filter_cons_True by done. rewrite filter_cons_False by (intros H; by apply H).
      destruct (unordered_remove_inv k L l a (length pre) t tcb (Z.lor now eventUNBLOCKED_DUE_TO_BIT_SET)
        HI Ha Hl Hi Ht) as (k1&L1&Er&RL&Ha1).
      { apply lor_word; [done|]. unfold eventUNBLOCKED_DUE_TO_BIT_SET. lia. }
      { done. }
      assert (E3 : kern (vTaskRemoveFromUnorderedEventList (xEventListItem t) (Z.lor now eventUNBLOCKED_DUE_TO_BIT_SET))
        (mkEsys k (mkEventGroup now l)) = Some (tt, mkEsys k1 (mkEventGroup now l))).
      { unfold kern. cbn [e_kernel e_group]. by rewrite Er. }
      rewrite (bind_run _ _ _ _ _ E3).
      pose proof (remove_cursor a pre t ts Hx) as Hx1.
      destruct (IH pre k1 L1 (aremove (length pre) a) fuel (Z.lor c (bits_to_clear (V t)))) as (k2&L2&a2&E4&AR&Ha2&Hx2);
        [apply RL|by rewrite (rd_suspended _ _ _ _ _ (rl_readied _ _ _ _ _ _ RL))|done|done|done| |cbn in Hf; lia|].
      { intros u Hu. rewrite (rl_values _ _ _ _ _ _ RL), decide_False; [apply HV; by right|].
        unfold event_item. intros E. assert (u = t) as -> by lia. done. }
      exists k2, L2, a2. rewrite Hx1 in E4. split; [exact E4|]. split; [|done].
      eapply all_released_cons; [|by eexists|done|exact RL|exact AR]. rewrite list_elem_of_filter. tauto.
    + rewrite !filter_cons_False by (unfold matching; by rewrite Em).
      rewrite filter_cons_True by (unfold matching; by rewrite Em).
      destruct (IH (pre ++ [event_item t]) k L a fuel c) as (k2&L2&a2&E4&AR&Ha2&Hx2); [done..| | |cbn in Hf; lia|].
      { by rewrite Hx, fmap_cons, cons_middle, app_assoc. }
      { intros u Hu. apply HV. by right. }
      exists k2, L2, a2. split; [|split; [done|split; [done|]]].
      * rewrite <- E4. f_equal. rewrite Hx, length_app. cbn [length]. rewrite <- Ea. f_equal. lia.
      * by rewrite Hx2, fmap_cons, <- app_assoc.
Qed.

End loop.

(** ** What a waiting task waits for *)

(** The item value that [xEventGroupWaitBits] leaves for [xEventGroupSetBits]. *)
Definition wait_value (w : Z) (xClearOnExit xWaitForAllBits : bool) : Z :=
  Z.lor (Z.lor w (Z.lor (if xClearOnExit then eventCLEAR_EVENTS_ON_EXIT_BIT else 0)
                        (if xWaitForAllBits then eventWAIT_FOR_ALL_BITS else 0)))
        taskEVENT_LIST_ITEM_VALUE_IN_USE.

Lemma land_control w : 0 <= w < 2 ^ 24 -> Z.land w eventEVENT_BITS_CONTROL_BYTES = 0.
Proof.
  intros Hw. apply Z.bits_inj'. intros n Hn. rewrite Z.land_spec, Z.bits_0.
  change eventEVENT_BITS_CONTROL_BYTES with (Z.shiftl 255 24).
  destruct (Z.lt_ge_cases n 24) as [Hlt|Hge].
  - rewrite (Z.shiftl_spec_low 255 24 n) by lia. apply andb_false_r.
  - rewrite <- (Z.mod_small w (2 ^ 24)) by lia. by rewrite Z.mod_pow2_bits_high by lia.
Qed.

Lemma control_part w C : 0 <= w < 2 ^ 24 -> Z.ldiff C eventEVENT_BITS_CONTROL_BYTES = 0 ->
  Z.land (Z.lor w C) eventEVENT_BITS_CONTROL_BYTES = Z.land C eventEVENT_BITS_CONTROL_BYTES /\
  Z.ldiff (Z.lor w C) eventEVENT_BITS_CONTROL_BYTES = w.
Proof.
  intros Hw HC. pose proof (land_control w Hw) as H0. split.
  - by rewrite Z.land_lor_distr_l, H0.
  - apply Z.bits_inj'. intros n Hn. rewrite Z.ldiff_spec, Z.lor_spec, andb_orb_distrib_l.
    rewrite <- (Z.ldiff_spec C), HC, Z.bits_0, orb_false_r.
    assert (E : Z.testbit (Z.land w eventEVENT_BITS_CONTROL_BYTES) n = false) by (by rewrite H0, Z.bits_0).
    rewrite Z.land_spec in E. destruct (Z.testbit w n); [|done]. cbn in E |- *. by rewrite E.
Qed.

Lemma wait_value_parts w clear all : 0 <= w < 2 ^ 24 ->
  Z.ldiff (wait_value w clear all) eventEVENT_BITS_CONTROL_BYTES = w /\
  (Z.land (Z.land (wait_value w clear all) eventEVENT_BITS_CONTROL_BYTES) eventWAIT_FOR_ALL_BITS =? 0) = negb all /\
  (Z.land (Z.land (wait_value w clear all) eventEVENT_BITS_CONTROL_BYTES) eventCLEAR_EVENTS_ON_EXIT_BIT =? 0) = negb clear.
Proof.
  intros Hw. unfold wait_value. rewrite <- Z.lor_assoc.
  set (C := Z.lor _ taskEVENT_LIST_ITEM_VALUE_IN_USE).
  destruct (control_part w C Hw) as [E1 E2]; [by destruct clear, all; vm_compute|].
  rewrite E1, E2. split; [done|]. subst C. by destruct clear, all; vm_compute.
Qed.

(** The test in the loop is the one that the waiting task made. *)
Lemma match_found_test w clear all now : 0 <= w < 2 ^ 24 ->
  match_found (wait_value w clear all) now = prvTestWaitCondition now w all /\
  bits_to_clear (wait_value w clear all) = if clear then w else 0.
Proof.
  intros Hw. destruct (wait_value_parts w clear all Hw) as (E1&E2&E3).
  unfold match_found, bits_to_clear, prvTestWaitCondition. rewrite E1, E2, E3, (Z.land_comm now w).
  by destruct clear, all.
Qed.

Lemma set_bits_run f k g : set_bits f (mkEsys k g) =
  Some (tt, mkEsys k (mkEventGroup (f (uxEventBits g)) (xTasksWaitingForBits g))).
Proof. reflexivity. Qed.

Lemma waiters_run (k : kernel) g n : waiters (mkEsys k g) = n -> ask waiters (mkEsys k g) = Some (n, mkEsys k g).
Proof. intros <-. reflexivity. Qed.

(** ** Setting bits *)

(** C16 — [xEventGroupSetBits], called with nothing pending: the tasks released are
    exactly those, among the waiting ones [ts], whose condition holds for the
    bits with the new ones set; for a task that waits through
    [xEventGroupWaitBits] that is [prvTestWaitCondition], the very test that
    it made before it blocked.  Each of them is ready and carries the bits that
    released it; the others stay on the list in their order, and no other task
    moves.  The bits that released tasks want cleared are cleared, after all
    conditions have been tested, and no other bit is.  A call that names bits of
    the kernel's own byte stops in an assertion. *)
Theorem xEventGroupSetBits_spec (k : kernel) (L : gmap Z alist) (a : alist) (ts : list Z) (old uxBitsToSet l : Z) :
  inv k L -> uxSchedulerSuspended k = 0 -> nothing_pending k L -> event_list l ->
  L !! l = Some a -> elems a = event_item <$> ts -> 0 <= old < 2 ^ 32 -> 0 <= uxBitsToSet < 2 ^ 32 ->
  let V t := vals (task_lists k) (event_item t) in
  let now := Z.lor old uxBitsToSet in
  let hit := filter (fun t => match_found (V t) now = true) ts in
  let after := Z.ldiff now (clears V 0 hit) in
  (Z.land uxBitsToSet eventEVENT_BITS_CONTROL_BYTES = 0 ->
    exists k' L' a', xEventGroupSetBits uxBitsToSet (mkEsys k (mkEventGroup old l)) =
        Some (after, mkEsys k' (mkEventGroup after l)) /\
      inv k' L' /\ uxSchedulerSuspended k' = 0 /\ tcbs k' = tcbs k /\ pxCurrentTCB k' = pxCurrentTCB k /\
      L' !! l = Some a' /\ elems a' = event_item <$> filter (fun t => ~ match_found (V t) now = true) ts /\
      (forall t tcb, t ∈ hit -> tcbs k !! t = Some tcb ->
         cont (task_lists k') (xStateListItem t) = Some (Some (uxPriority tcb)) /\
         cont (task_lists k') (xEventListItem t) = Some None /\
         vals (task_lists k') (event_item t) = release_value now) /\
      (forall y, (forall t, t ∈ hit -> y <> 2 * t /\ y <> event_item t) ->
         cont (task_lists k') (Item y) = cont (task_lists k) (Item y) /\
         vals (task_lists k') y = vals (task_lists k) y) /\
      (forall t w clear all, 0 <= w < 2 ^ 24 -> V t = wait_value w clear all ->
         match_found (V t) now = prvTestWaitCondition now w all /\ bits_to_clear (V t) = if clear then w else 0)) /\
  (Z.land uxBitsToSet eventEVENT_BITS_CONTROL_BYTES <> 0 -> xEventGroupSetBits uxBitsToSet (mkEsys k (mkEventGroup old l)) = None).
Proof.
  intros HI Hs (Hp&Hn&pl&Hpl&Hpe) [Hl Hlp] Ha Hx Hold Hset V now hit after. unfold xEventGroupSetBits, assert_user_bits. split; intros Hctl.
  2:{ unfold mbind, prog_bind, configASSERT. by rewrite (proj2 (Z.eqb_neq _ 0) Hctl). }
  set (k0 := set_uxSchedulerSuspended 1 k).
  assert (HI0 : inv k0 L) by (by eapply inv_ext).
  assert (Hnow : 0 <= now < 2 ^ 32) by (by apply lor_word).
  destruct (set_bits_loop_inv V now Hnow l ts [] k0 L a (S (length ts)) 0 HI0 ltac:(done) Ha Hl Hx)
    as (k1&L1&a1&E1&AR&Ha1&Hx1); [done|lia|].
  destruct AR as [[R1 R2 R3 R4 R5 R6 R0 R7 R8 R9] A2 A3 A4].
  assert (Hnp : nothing_pending k1 L1).
  { split; [by rewrite R6|]. split; [by rewrite R0|]. exists pl. split; [|done].
    rewrite A4; [done|exact pending_no_state|congruence]. }
  pose proof (resume_nothing k1 L1 (inv_core _ _ R1) Hnp R5) as E2.
  exists (set_uxSchedulerSuspended 0 k1), L1, a1. split.
  { unfold waiting_list. rewrite assert_bind by (by apply Z.eqb_eq). rewrite ask_bind. cbn [e_group xTasksWaitingForBits].
    assert (Ek : kern vTaskSuspendAll (mkEsys k (mkEventGroup old l)) = Some (tt, mkEsys k0 (mkEventGroup old l))).
    { unfold kern, vTaskSuspendAll, update. cbn [e_kernel e_group]. by rewrite Hs. }
    rewrite (bind_run _ _ _ _ _ Ek).
    destruct (ring_around _ _ _ 0 (co_lists _ _ (inv_core _ _ HI0) _ _ Ha)) as [Hhead _].
    rewrite ring_before_0 in Hhead.
    assert (Eh : kern (from_lists (listGET_HEAD_ENTRY l)) (mkEsys k0 (mkEventGroup old l)) =
      Some (ring_after l 0 (elems a), mkEsys k0 (mkEventGroup old l))).
    { unfold kern, from_lists, try_ask, listGET_HEAD_ENTRY. cbn [e_kernel]. unfold nxt in Hhead. by rewrite Hhead. }
    rewrite (bind_run _ _ _ _ _ Eh), (bind_run _ _ _ _ _ (set_bits_run _ _ _)).
    cbn [e_kernel e_group uxEventBits xTasksWaitingForBits].
    assert (Ew : waiters (mkEsys k0 (mkEventGroup now l)) = length ts).
    { unfold waiters. cbn [e_kernel e_group xTasksWaitingForBits].
      rewrite (lists_rep_length _ _ _ _ (co_lists _ _ (inv_core _ _ HI0)) Ha), Hx, length_fmap. cbn. lia. }
    rewrite (bind_run _ _ _ _ _ (waiters_run _ _ _ Ew)), (bind_run _ _ _ _ _ E1), (bind_run _ _ _ _ _ (set_bits_run _ _ _)).
    cbn [e_kernel e_group uxEventBits xTasksWaitingForBits].
    assert (Er : kern xTaskResumeAll (mkEsys k1 (mkEventGroup after l)) =
      Some (xYieldPending k1, mkEsys (set_uxSchedulerSuspended 0 k1) (mkEventGroup after l))).
    { unfold kern. cbn [e_kernel e_group]. by rewrite E2. }
    change (Z.ldiff now (clears V 0 (filter (matching V now) ts))) with after.
    by rewrite (bind_run _ _ _ _ _ Er). }
  split; [by eapply inv_ext|]. split; [done|]. split; [done|]. split; [done|]. split; [done|].
  split; [exact Hx1|]. split; [|split].
  - intros t tcb Hin Ht. destruct (R7 t tcb Hin Ht) as [H1 H2]. split; [done|]. split; [done|]. by apply A2.
  - intros y Hy. split; [apply R8; intros t Ht; by apply Hy|]. apply A3. intros t Ht. by apply Hy.
  - intros t w clear all Hw ->. by apply match_found_test.
Qed.

(** Task 4 waits for bits 0 and 1, which it wants cleared; task 2 waits for bit 2. *)
Definition group_wait : kernel :=
  from_option (fun x => e_kernel (snd x)) boot
    ((_ ← kern (update (fun k => set_task_lists (vListInitialise 100 (task_lists k)) k));
      _ ← xEventGroupWaitBits_enter 3 true true portMAX_DELAY; _ ← kern vTaskSwitchContext;
      _ ← xEventGroupWaitBits_enter 4 false false 10; kern vTaskSwitchContext)
       (mkEsys booted (mkEventGroup 0 100))).

Lemma inv_group_wait : inv group_wait (read_lists (task_lists group_wait)).
Proof. apply invb_ok. by vm_compute. Qed.

Lemma group_wait_list : read_lists (task_lists group_wait) !! 100 = Some (mkAList (event_item <$> [4; 2]) 0).
Proof. by vm_compute. Qed.

Lemma group_wait_idle : nothing_pending group_wait (read_lists (task_lists group_wait)).
Proof. split; [by vm_compute|]. split; [by vm_compute|]. exists (mkAList [] 0). split; by vm_compute. Qed.

Lemma xEventGroupSetBits_spec_witness :
  exists k' (L' : gmap Z alist) a', xEventGroupSetBits 11 (mkEsys group_wait (mkEventGroup 0 100)) =
      Some (8, mkEsys k' (mkEventGroup 8 100)) /\
    L' !! 100 = Some a' /\ elems a' = [5] /\ cont (task_lists k') (xStateListItem 4) = Some (Some 5).
Proof.
  destruct (xEventGroupSetBits_spec group_wait _ (mkAList (event_item <$> [4; 2]) 0) [4; 2] 0 11 100
    inv_group_wait) as [H _]; [by vm_compute|exact group_wait_idle|exact event_list_100|
    exact group_wait_list|done|lia|lia|].
  destruct (H eq_refl) as (k'&L'&a'&E&_&_&_&_&Ha'&Hx&Hr&_).
  exists k', L', a'. split; [by vm_compute in E|]. split; [exact Ha'|]. split; [by vm_compute in Hx|].
  destruct (Hr 4 (mkTCB 5 5 0 0 taskNOT_WAITING_NOTIFICATION)) as [H4 _]; [by vm_compute; left|by vm_compute|exact H4].
Defined.
