(* ===== verification/Timers.v ===== *)
(** * Software timers (timers.c)

    The two lists of active timers, the one for the present run of the tick
    counter and the one for the next, and the daemon task that keeps them.
    Timers live at addresses in a table; the list item of a timer has the
    timer's address.  What the daemon meets outside of its own state, the
    command queue, the callbacks and the heap, is an environment with the
    operations of [TimerEnv]. *)
From S2P Require Import Prelude KList.
Open Scope Z_scope.

Definition tmrMAX_TIME_BEFORE_OVERFLOW : Z := 2 ^ 32 - 1.
Definition tmrSTATUS_IS_ACTIVE : Z := 1.
Definition tmrSTATUS_IS_STATICALLY_ALLOCATED : Z := 2.
Definition tmrSTATUS_IS_AUTORELOAD : Z := 4.

Record Timer_t := mkTimer { xTimerPeriodInTicks : Z; pvTimerID : Z; ucStatus : Z }.

Definition has_status (bit : Z) (tm : Timer_t) : bool := negb (Z.land (ucStatus tm) bit =? 0).
Definition with_status (f : Z -> Z) (tm : Timer_t) : Timer_t := mkTimer (xTimerPeriodInTicks tm) (pvTimerID tm) (f (ucStatus tm)).
Definition set_status (bit : Z) : Timer_t -> Timer_t := with_status (fun v => Z.lor v bit).
Definition clear_status (bit : Z) : Timer_t -> Timer_t := with_status (fun v => Z.ldiff v bit).
Definition with_period (p : Z) (tm : Timer_t) : Timer_t := mkTimer p (pvTimerID tm) (ucStatus tm).
Definition with_timer_id (i : Z) (tm : Timer_t) : Timer_t := mkTimer (xTimerPeriodInTicks tm) i (ucStatus tm).

(** The commands, and the message (in this configuration there are no pended
    function calls). *)
Inductive command := START | RESET | STOP | CHANGE_PERIOD | DELETE.

Record DaemonTaskMessage_t := TimerCommand {
  msg_from_isr : bool; xMessageID : command; xMessageValue : Z; msg_pxTimer : Z }.

(** [xQueueReceive] without waiting and [xQueueSendToBack] with a block time (or
    from an interrupt) on the timer queue, the callback of a timer,
    [vPortFree]. *)
Class TimerEnv (E : Type) := {
  te_receive : E -> option (DaemonTaskMessage_t * E);
  te_send : DaemonTaskMessage_t -> Z -> E -> bool * E;
  te_callback : Z -> E -> E;
  te_free : Z -> E -> E
}.

Record tsys (E : Type) := mkTsys {
  t_lists : store; t_timers : gmap Z Timer_t; pxCurrentTimerList : Z; pxOverflowTimerList : Z;
  xLastTime : Z; t_env : E }.
Arguments mkTsys {E}. Arguments t_lists {E}. Arguments t_timers {E}. Arguments pxCurrentTimerList {E}.
Arguments pxOverflowTimerList {E}. Arguments xLastTime {E}. Arguments t_env {E}.

Section timers.
Context {E : Type} `{TimerEnv E}.

Abbreviation T := (prog (tsys E)).

Definition with_lists (s : store) (x : tsys E) : tsys E :=
  mkTsys s (t_timers x) (pxCurrentTimerList x) (pxOverflowTimerList x) (xLastTime x) (t_env x).
Definition with_timers (m : gmap Z Timer_t) (x : tsys E) : tsys E :=
  mkTsys (t_lists x) m (pxCurrentTimerList x) (pxOverflowTimerList x) (xLastTime x) (t_env x).
Definition with_env (e : E) (x : tsys E) : tsys E :=
  mkTsys (t_lists x) (t_timers x) (pxCurrentTimerList x) (pxOverflowTimerList x) (xLastTime x) e.

Definition lists_do (f : store -> option store) : T unit := try_update (fun x => s ← f (t_lists x); Some (with_lists s x)).
Definition lists_get {A} (f : store -> option A) : T A := try_ask (fun x => f (t_lists x)).
Definition get_timer (t : Z) : T Timer_t := try_ask (fun x => t_timers x !! t).
Definition set_timer (t : Z) (f : Timer_t -> Timer_t) : T unit :=
  try_update (fun x => tm ← t_timers x !! t; Some (with_timers (<[t := f tm]> (t_timers x)) x)).
Definition call_back (t : Z) : T unit := update (fun x => with_env (te_callback t (t_env x)) x).
Definition remove_timer (t : Z) : T unit := lists_do (fun s => snd <$> uxListRemove (Item t) s).

(** [prvCheckForValidListAndQueue], the first time; [l1] and [l2] are the two
    static lists. *)
Definition prvCheckForValidListAndQueue (l1 l2 : Z) : T unit :=
  update (fun x => mkTsys (vListInitialise l2 (vListInitialise l1 (t_lists x))) (t_timers x) l1 l2 (xLastTime x) (t_env x)).

(** In memory [pxNewTimer] that [pvPortMalloc] returned, with a raw list item. *)
Definition prvInitialiseNewTimer (pxNewTimer period : Z) (xAutoReload : bool) (id : Z) : T unit :=
  _ ← configASSERT (0 <? period);
  _ ← update (fun x => with_timers (<[pxNewTimer := mkTimer period id 0]> (t_timers x)) x);
  _ ← lists_do (vListInitialiseItem (Item pxNewTimer));
  when xAutoReload (set_timer pxNewTimer (set_status tmrSTATUS_IS_AUTORELOAD)).

Definition prvInsertTimerInActiveList (pxTimer xNextExpiryTime xTimeNow xCommandTime : Z) : T bool :=
  _ ← lists_do (listSET_LIST_ITEM_VALUE (Item pxTimer) xNextExpiryTime);
  _ ← lists_do (listSET_LIST_ITEM_OWNER (Item pxTimer) pxTimer);
  if xNextExpiryTime <=? xTimeNow then
    tm ← get_timer pxTimer;
    if xTimerPeriodInTicks tm <=? u32 (xTimeNow - xCommandTime) then mret true
    else
      l ← ask pxOverflowTimerList;
      _ ← lists_do (vListInsert l (Item pxTimer)); mret false
  else if (xTimeNow <? xCommandTime) && (xCommandTime <=? xNextExpiryTime) then mret true
  else
    l ← ask pxCurrentTimerList;
    _ ← lists_do (vListInsert l (Item pxTimer)); mret false.

(** The loop of [prvReloadTimer]. *)
Fixpoint reload_loop (fuel : nat) (pxTimer xExpiredTime xTimeNow : Z) : T unit :=
  match fuel with
  | O => fun _ => None
  | S fuel' =>
      tm ← get_timer pxTimer;
      again ← prvInsertTimerInActiveList pxTimer (u32 (xExpiredTime + xTimerPeriodInTicks tm)) xTimeNow xExpiredTime;
      if (again : bool) then
        _ ← call_back pxTimer;
        reload_loop fuel' pxTimer (u32 (xExpiredTime + xTimerPeriodInTicks tm)) xTimeNow
      else mret tt
  end.

(** The timer has expired once for each period in the time since. *)
Definition prvReloadTimer (pxTimer xExpiredTime xTimeNow : Z) : T unit :=
  tm ← get_timer pxTimer;
  reload_loop (S (Z.to_nat (u32 (xTimeNow - xExpiredTime) / xTimerPeriodInTicks tm))) pxTimer xExpiredTime xTimeNow.

(** Reload, or take note that the timer is done; then the callback. *)
Definition reload_or_stop (pxTimer xExpiredTime xTimeNow : Z) : T unit :=
  tm ← get_timer pxTimer;
  _ ← (if has_status tmrSTATUS_IS_AUTORELOAD tm then prvReloadTimer pxTimer xExpiredTime xTimeNow
       else set_timer pxTimer (clear_status tmrSTATUS_IS_ACTIVE));
  call_back pxTimer.

Definition prvProcessExpiredTimer (xNextExpireTime xTimeNow : Z) : T unit :=
  l ← ask pxCurrentTimerList;
  pxTimer ← lists_get (listGET_OWNER_OF_HEAD_ENTRY l);
  _ ← remove_timer pxTimer;
  reload_or_stop pxTimer xNextExpireTime xTimeNow.

(** The loop of [prvSwitchTimerLists]. *)
Fixpoint expire_all (fuel : nat) : T unit :=
  match fuel with
  | O => fun _ => None
  | S fuel' =>
      l ← ask pxCurrentTimerList;
      empty ← lists_get (listLIST_IS_EMPTY l);
      if (empty : bool) then mret tt
      else
        xNextExpireTime ← lists_get (listGET_ITEM_VALUE_OF_HEAD_ENTRY l);
        _ ← prvProcessExpiredTimer xNextExpireTime tmrMAX_TIME_BEFORE_OVERFLOW;
        expire_all fuel'
  end.

Definition current_length (x : tsys E) : nat :=
  Z.to_nat (default 0 (listCURRENT_LIST_LENGTH (pxCurrentTimerList x) (t_lists x))).

(** Each iteration of its loop takes a timer off the list for good. *)
Definition prvSwitchTimerLists : T unit :=
  n ← ask current_length;
  _ ← expire_all (S n);
  update (fun x => mkTsys (t_lists x) (t_timers x) (pxOverflowTimerList x) (pxCurrentTimerList x) (xLastTime x) (t_env x)).

(** [prvSampleTimeNow], with the tick count that it reads; returns whether the
    lists were switched. *)
Definition prvSampleTimeNow (xTimeNow : Z) : T bool :=
  last ← ask xLastTime;
  let switch := xTimeNow <? last in
  _ ← when switch prvSwitchTimerLists;
  _ ← update (fun x => mkTsys (t_lists x) (t_timers x) (pxCurrentTimerList x) (pxOverflowTimerList x) xTimeNow (t_env x));
  mret switch.

(** The time, and whether the list is empty. *)
Definition prvGetNextExpireTime : T (Z * bool) :=
  l ← ask pxCurrentTimerList;
  empty ← lists_get (listLIST_IS_EMPTY l);
  if (empty : bool) then mret (0, true) else v ← lists_get (listGET_ITEM_VALUE_OF_HEAD_ENTRY l); mret (v, false).

(** What the daemon does after [prvProcessTimerOrBlockTask]: go on at once, or
    wait for a message, for so many ticks, or without a limit. *)
Inductive daemon_wait := GoOn | WaitForMessage (xTicksToWait : Z) (xWaitIndefinitely : bool).

(** [xTimeNow] is the tick count, read with the scheduler suspended. *)
Definition prvProcessTimerOrBlockTask (xNextExpireTime : Z) (xListWasEmpty : bool) (xTimeNow : Z) : T daemon_wait :=
  xTimerListsWereSwitched ← prvSampleTimeNow xTimeNow;
  if (xTimerListsWereSwitched : bool) then mret GoOn
  else if negb xListWasEmpty && (xNextExpireTime <=? xTimeNow) then
    _ ← prvProcessExpiredTimer xNextExpireTime xTimeNow; mret GoOn
  else
    indefinitely ← (if xListWasEmpty then o ← ask pxOverflowTimerList; lists_get (listLIST_IS_EMPTY o) else mret false);
    mret (WaitForMessage (u32 (xNextExpireTime - xTimeNow)) indefinitely).

(** One message in [prvProcessReceivedCommands]; [xTimeNow] is the tick count
    read after the message has been taken from the queue. *)
Definition process_message (m : DaemonTaskMessage_t) (xTimeNow : Z) : T unit :=
  let '(TimerCommand _ xMessageID xMessageValue pxTimer) := m in
  c ← lists_get (fun s => pxContainer <$> items s !! Item pxTimer);
  _ ← when (bool_decide (c <> None)) (remove_timer pxTimer);
  _ ← prvSampleTimeNow xTimeNow;
  match xMessageID with
  | START | RESET =>
      _ ← set_timer pxTimer (set_status tmrSTATUS_IS_ACTIVE);
      tm ← get_timer pxTimer;
      let xNextExpiryTime := u32 (xMessageValue + xTimerPeriodInTicks tm) in
      expired ← prvInsertTimerInActiveList pxTimer xNextExpiryTime xTimeNow xMessageValue;
      when expired (reload_or_stop pxTimer xNextExpiryTime xTimeNow)
  | STOP => set_timer pxTimer (clear_status tmrSTATUS_IS_ACTIVE)
  | CHANGE_PERIOD =>
      _ ← set_timer pxTimer (fun tm => with_period xMessageValue (set_status tmrSTATUS_IS_ACTIVE tm));
      _ ← configASSERT (0 <? xMessageValue);
      _ ← prvInsertTimerInActiveList pxTimer (u32 (xTimeNow + xMessageValue)) xTimeNow xTimeNow;
      mret tt
  | DELETE =>
      tm ← get_timer pxTimer;
      if has_status tmrSTATUS_IS_STATICALLY_ALLOCATED tm then set_timer pxTimer (clear_status tmrSTATUS_IS_ACTIVE)
      else update (fun x => with_env (te_free pxTimer (t_env x)) (with_timers (delete pxTimer (t_timers x)) x))
  end.

(** The loop of [prvProcessReceivedCommands]; [times] are the tick counts read
    in it. *)
Fixpoint prvProcessReceivedCommands (times : list Z) : T unit :=
  match times with
  | [] => fun x => match te_receive (t_env x) with None => Some (tt, x) | Some _ => None end
  | now :: times' => fun x =>
      match te_receive (t_env x) with
      | None => Some (tt, x)
      | Some (m, e) => (_ ← process_message m now; prvProcessReceivedCommands times') (with_env e x)
      end
  end.

(** One iteration of [prvTimerTask], up to where it waits. *)
Definition prvTimerTask_step (xTimeNow : Z) : T daemon_wait :=
  '(xNextExpireTime, xListWasEmpty) ← prvGetNextExpireTime;
  prvProcessTimerOrBlockTask xNextExpireTime xListWasEmpty xTimeNow.

(** ** Requests *)

Definition send_command (m : DaemonTaskMessage_t) (wait : Z) : T bool :=
  fun x => let '(r, e) := te_send m wait (t_env x) in Some (r, with_env e x).

(** [xTimerGenericCommand]: without a running scheduler it does not wait.  No
    timer is at address 0, so the functions below stop at a null handle. *)
Definition xTimerGenericCommand (pxTimer : Z) (from_isr : bool) (xCommandID : command) (xOptionalValue : Z)
  (scheduler_running : bool) (xTicksToWait : Z) : T bool :=
  _ ← configASSERT (negb (pxTimer =? 0));
  let m := TimerCommand from_isr xCommandID xOptionalValue pxTimer in
  let wait := if from_isr then 0 else if scheduler_running then xTicksToWait else 0 in
  send_command m wait.

Definition vTimerSetReloadMode (t : Z) (xAutoReload : bool) : T unit :=
  set_timer t (if xAutoReload then set_status tmrSTATUS_IS_AUTORELOAD else clear_status tmrSTATUS_IS_AUTORELOAD).
Definition xTimerGetReloadMode (t : Z) : T bool := tm ← get_timer t; mret (has_status tmrSTATUS_IS_AUTORELOAD tm).
Definition xTimerIsTimerActive (t : Z) : T bool := tm ← get_timer t; mret (has_status tmrSTATUS_IS_ACTIVE tm).
Definition xTimerGetPeriod (t : Z) : T Z := tm ← get_timer t; mret (xTimerPeriodInTicks tm).
Definition xTimerGetExpiryTime (t : Z) : T Z := lists_get (listGET_LIST_ITEM_VALUE (Item t)).
Definition pvTimerGetTimerID (t : Z) : T Z := tm ← get_timer t; mret (pvTimerID tm).
Definition vTimerSetTimerID (t id : Z) : T unit := set_timer t (with_timer_id id).
End timers.
