(* ===== verification/TimersProofs.v ===== *)
(** * Properties of the software timers *)
From Stdlib Require Import Sorted.
From S2P Require Import Prelude KList Timers.
Open Scope Z_scope.

(** ** Time

    A true time is a count of ticks that does not wrap; the code sees it modulo
    2^32.  The test in [prvInsertTimerInActiveList] decides for true times. *)
Lemma insert_decision p cmd now : 0 < p < 2 ^ 32 -> 0 <= cmd <= now -> now < cmd + 2 ^ 32 ->
  (if u32 (cmd + p) <=? u32 now then p <=? u32 (u32 now - u32 cmd)
   else (u32 now <? u32 cmd) && (u32 cmd <=? u32 (cmd + p))) = (cmd + p <=? now) /\
  (now < cmd + p -> (u32 (cmd + p) <=? u32 now) = negb ((cmd + p) / 2 ^ 32 =? now / 2 ^ 32)).
Proof.
  intros Hp Hc Hn. unfold u32.
  assert (Esub : (now mod 2 ^ 32 - cmd mod 2 ^ 32) mod 2 ^ 32 = now - cmd).
  { rewrite <- Zminus_mod. apply Z.mod_small. lia. }
  rewrite Esub. set (W := 2 ^ 32) in *. assert (HW : 0 < W) by (unfold W; lia).
  pose proof (Z.div_mod cmd W ltac:(lia)) as Ec. pose proof (Z.mod_pos_bound cmd W HW) as Bc.
  pose proof (Z.div_mod now W ltac:(lia)) as En. pose proof (Z.mod_pos_bound now W HW) as Bn.
  pose proof (Z.div_mod (cmd + p) W ltac:(lia)) as Ee. pose proof (Z.mod_pos_bound (cmd + p) W HW) as Be.
  set (qc := cmd / W) in *. set (qn := now / W) in *. set (qe := (cmd + p) / W) in *.
  set (rc := cmd mod W) in *. set (rn := now mod W) in *. set (re := (cmd + p) mod W) in *.
  assert (Hqn : qn = qc \/ qn = qc + 1) by nia. assert (Hqe : qe = qc \/ qe = qc + 1) by nia.
  assert (W * qn = W * qc \/ W * qn = W * qc + W) by (destruct Hqn as [-> | ->]; [left|right]; ring).
  assert (W * qe = W * qc \/ W * qe = W * qc + W) by (destruct Hqe as [-> | ->]; [left|right]; ring).
  clearbody qc qn qe rc rn re W.
  split; [|intros Hlt]; destruct (Z.leb_spec re rn), (Z.leb_spec (cmd + p) now), (Z.leb_spec p (now - cmd)),
    (Z.ltb_spec rn rc), (Z.leb_spec rc re), (Z.eqb_spec qe qn); cbn [andb negb]; try done; exfalso;
    destruct Hqn as [-> | ->], Hqe as [-> | ->]; nia.
Qed.

(** ** The lists *)

(** New contents for an item, with the links kept. *)
Lemma write_payload s t f it : items s !! Item t = Some it ->
  pxNext (f it) = pxNext it -> pxPrevious (f it) = pxPrevious it -> pxContainer (f it) = pxContainer it ->
  exists s', write_item (Item t) f s = Some s' /\
    (forall l a, list_rep s l a -> list_rep s' l a) /\ (forall p, cont s' p = cont s p) /\
    (forall y, vals s' y = if decide (y = t) then xItemValue (f it) else vals s y) /\
    (forall p, own s' p = if decide (p = Item t) then Some (pvOwner (f it)) else own s p) /\
    items s' !! Item t = Some (f it).
Proof.
  intros Ei Hn Hp Hc. unfold write_item. rewrite Ei. cbn [mbind option_bind]. eexists. split; [done|].
  set (s' := mkStore _ _).
  assert (En : forall p, nxt s' p = nxt s p).
  { intros p. unfold nxt. cbn. rewrite lookup_insert. case_decide; [|done]. subst. rewrite Ei. cbn. by rewrite Hn. }
  assert (Ep : forall p, prv s' p = prv s p).
  { intros p. unfold prv. cbn. rewrite lookup_insert. case_decide; [|done]. subst. rewrite Ei. cbn. by rewrite Hp. }
  assert (Ec : forall p, cont s' p = cont s p).
  { intros p. unfold cont. cbn. rewrite lookup_insert. case_decide; [|done]. subst. rewrite Ei. cbn. by rewrite Hc. }
  split_and!.
  - intros l a [R1 R2 R3 R4 R5 R6]. split; try done.
    + eapply lseg_frame; [..|exact R2]; intros; [by rewrite En|by rewrite Ep].
    + unfold val. cbn. by rewrite lookup_insert_ne.
    + intros y Hy. rewrite Ec. by apply R6.
  - exact Ec.
  - intros y. unfold vals, val. cbn. rewrite lookup_insert. repeat case_decide; try congruence; done.
  - intros p. unfold own. cbn. rewrite lookup_insert. repeat case_decide; try congruence; done.
  - cbn. apply lookup_insert_eq.
Qed.

Definition by_value (s : store) (xs : list Z) : Prop := StronglySorted (fun y z => vals s y <= vals s z) xs.

Lemma by_value_ext s s' xs : (forall y, y ∈ xs -> vals s' y = vals s y) -> by_value s xs -> by_value s' xs.
Proof.
  intros Hv Hs. induction Hs as [|y xs Hs IH Hf]; constructor.
  - apply IH. intros z Hz. apply Hv. by right.
  - rewrite Forall_forall in *. intros z Hz. rewrite (Hv y), (Hv z); [by apply Hf|by right|by left].
Qed.

(** ** The invariant *)

Section timers.
Context {E : Type} `{TimerEnv E}.

Definition active (tm : Timer_t) : Prop := has_status tmrSTATUS_IS_ACTIVE tm = true.

(** The present list holds [C], the next one [O]: active timers in the order of
    their expiry; every other timer is in no list. *)
Record tinv (x : tsys E) (C O : alist) : Prop := {
  ti_current : list_rep (t_lists x) (pxCurrentTimerList x) C;
  ti_overflow : list_rep (t_lists x) (pxOverflowTimerList x) O;
  ti_two : pxCurrentTimerList x <> pxOverflowTimerList x;
  ti_sorted : by_value (t_lists x) (elems C) /\ by_value (t_lists x) (elems O);
  ti_active : forall t, t ∈ elems C \/ t ∈ elems O ->
    (exists tm, t_timers x !! t = Some tm /\ active tm) /\ own (t_lists x) (Item t) = Some t;
  ti_apart : forall t, t ∈ elems C -> t ∈ elems O -> False;
  ti_timer : forall t tm, t_timers x !! t = Some tm ->
    0 < xTimerPeriodInTicks tm < 2 ^ 32 /\
    (t ∈ elems C \/ t ∈ elems O \/ detached (t_lists x) t);
  ti_values : forall t, 0 <= vals (t_lists x) t < 2 ^ 32;
  ti_few : Z.of_nat (size (t_timers x)) < 2 ^ 31
}.

Lemma elems_few x C O a : tinv x C O -> a = C \/ a = O -> Z.of_nat (length (elems a)) + 1 < 2 ^ 32.
Proof.
  intros HT Ha. assert (Hsub : elems a ⊆ elements (dom (t_timers x))).
  { intros t Ht. apply elem_of_elements, elem_of_dom. destruct (ti_active _ _ _ HT t) as [(tm&Htm&_) _]; [|by eexists].
    destruct Ha as [-> | ->]; auto. }
  assert (Hnd : NoDup (elems a)).
  { destruct Ha as [-> | ->]; [apply (rep_nodup _ _ _ (ti_current _ _ _ HT))|apply (rep_nodup _ _ _ (ti_overflow _ _ _ HT))]. }
  pose proof (submseteq_length _ _ (NoDup_submseteq _ _ Hnd Hsub)) as Hlen.
  assert (Hel : length (elements (dom (t_timers x))) = size (t_timers x)) by apply size_dom.
  pose proof (ti_few _ _ _ HT). lia.
Qed.

Lemma detached_not_listed x C O t : tinv x C O -> detached (t_lists x) t -> t ∉ elems C /\ t ∉ elems O.
Proof.
  intros HT Hd. split; eapply detached_not_in; [apply (ti_current _ _ _ HT)|done|apply (ti_overflow _ _ _ HT)|done].
Qed.

(** [x'] differs from [x] in the lists only, and there at most in [t]. *)
Record only_lists (t : Z) (x x' : tsys E) : Prop := {
  ol_same : x' = with_lists (t_lists x') x;
  ol_cont : forall y, y <> t -> cont (t_lists x') (Item y) = cont (t_lists x) (Item y);
  ol_vals : forall y, y <> t -> vals (t_lists x') y = vals (t_lists x) y
}.

Lemma elem_of_inserted n t a y : y ∈ elems (ainsert n t a) <-> y = t \/ y ∈ elems a.
Proof.
  cbn. rewrite elem_of_app, elem_of_cons. rewrite <- (take_drop n (elems a)) at 3. rewrite elem_of_app. tauto.
Qed.

(** A timer in no list gets its expiry time. *)
Lemma set_expiry x C O t v : tinv x C O -> is_Some (t_timers x !! t) -> detached (t_lists x) t -> 0 <= v < 2 ^ 32 ->
  exists x', (forall B (f : unit -> prog (tsys E) B),
      (lists_do (listSET_LIST_ITEM_VALUE (Item t) v) ≫= fun _ =>
        lists_do (listSET_LIST_ITEM_OWNER (Item t) t) ≫= f) x = f tt x') /\
    only_lists t x x' /\ tinv x' C O /\ detached (t_lists x') t /\ vals (t_lists x') t = v /\
    own (t_lists x') (Item t) = Some t.
Proof.
  intros HT [tm Ht] Hd Hv. destruct (detached_not_listed _ _ _ _ HT Hd) as [HnC HnO].
  destruct (items (t_lists x) !! Item t) as [it|] eqn:Ei; [|unfold detached, cont in Hd; by rewrite Ei in Hd].
  destruct (write_payload (t_lists x) t (with_value v) it Ei) as (s1&E1&R1&C1&V1&O1&I1); [done..|].
  destruct (write_payload s1 t (with_owner t) _ I1) as (s2&E2&R2&C2&V2&O2&I2); [done..|].
  assert (Hvals : forall y, vals s2 y = if decide (y = t) then v else vals (t_lists x) y).
  { intros y. rewrite V2, V1. by case_decide. }
  exists (with_lists s2 x). split.
  { intros B f. erewrite bind_run; [|unfold lists_do, try_update, listSET_LIST_ITEM_VALUE; by rewrite E1].
    erewrite bind_run; [done|]. unfold lists_do, try_update, listSET_LIST_ITEM_OWNER. cbn [with_lists t_lists]. by rewrite E2. }
  assert (Hc : forall p, cont s2 p = cont (t_lists x) p) by (intros; by rewrite C2, C1).
  split; [|split].
  - split; [done| |]; intros y Hy; cbn [with_lists t_lists]; [by rewrite Hc|]. rewrite Hvals. by rewrite decide_False.
  - destruct HT as [T1 T2 T3 [T4 T4'] T5 T6 T7 T8 T9]. split; cbn [with_lists t_lists t_timers pxCurrentTimerList pxOverflowTimerList];
      try done; try by auto.
    + split; [apply (by_value_ext (t_lists x)); [|done]|apply (by_value_ext (t_lists x)); [|done]];
        intros y Hy; rewrite Hvals; (case_decide; [by subst|done]).
    + intros y Hy. destruct (T5 y Hy) as [H1 H2]. split; [done|]. rewrite O2, O1. case_decide as Hc1; [|done]. by inversion Hc1.
    + intros y tmy Hty. destruct (T7 y tmy Hty) as [H1 H2]. split; [done|]. unfold detached. by rewrite Hc.
    + intros y. rewrite Hvals. case_decide; [lia|done].
  - split_and!.
    + unfold detached. cbn [with_lists t_lists]. by rewrite Hc.
    + cbn [with_lists t_lists]. rewrite Hvals. by rewrite decide_True.
    + cbn [with_lists t_lists]. rewrite O2. by rewrite decide_True.
Qed.

(** ... and goes into one of the lists. *)
Lemma list_timer (next : bool) x C O t tm : tinv x C O -> t_timers x !! t = Some tm -> active tm -> detached (t_lists x) t ->
  own (t_lists x) (Item t) = Some t ->
  exists x' C' O', lists_do (vListInsert (if next then pxOverflowTimerList x else pxCurrentTimerList x) (Item t)) x = Some (tt, x') /\
    only_lists t x x' /\ vals (t_lists x') t = vals (t_lists x) t /\ tinv x' C' O' /\
    (if next then C' = C /\ exists n, O' = ainsert n t O else O' = O /\ exists n, C' = ainsert n t C).
Proof.
  intros HT Ht Hact Hd Ho. set (l := if next then pxOverflowTimerList x else pxCurrentTimerList x).
  set (a := if next then O else C).
  assert (Ra : list_rep (t_lists x) l a) by (subst l a; destruct next; [apply (ti_overflow _ _ _ HT)|apply (ti_current _ _ _ HT)]).
  assert (Sa : by_value (t_lists x) (elems a)) by (subst a; destruct next; apply (ti_sorted _ _ _ HT)).
  destruct (detached_not_listed _ _ _ _ HT Hd) as [HnC HnO].
  destruct (vListInsert_step (t_lists x) l t a Ra Hd) as (s'&Es&R'&S'&Ho'&Hp'&Hc').
  { eapply elems_few; [exact HT|]. subst a. destruct next; auto. }
  { apply Forall_forall. intros y _. pose proof (ti_values _ _ _ HT y). unfold portMAX_DELAY. lia. }
  set (a' := ainsert _ t a) in *.
  assert (Hvals : forall y, vals s' y = vals (t_lists x) y) by (intros y; unfold vals; by destruct (Hp' (Item y)) as [-> _]).
  exists (with_lists s' x), (if next then C else a'), (if next then a' else O).
  split; [unfold lists_do, try_update; by rewrite Es|].
  split; [split; [done| |]; intros y Hy; cbn [with_lists t_lists]; [by apply Hc'|by rewrite Hvals]|].
  split; [apply Hvals|]. split.
  2:{ subst a' a. destruct next; (split; [done|]); by eexists. }
  assert (Hother : forall l' b, l' <> l -> list_rep (t_lists x) l' b -> list_rep s' l' b) by (intros; by apply Ho').
  assert (Hel : forall y, y ∈ elems (if next then C else a') \/ y ∈ elems (if next then a' else O) <->
      y = t \/ y ∈ elems C \/ y ∈ elems O).
  { intros y. subst a' a. destruct next; rewrite elem_of_inserted; tauto. }
  assert (Hs' : by_value s' (elems a')).
  { eapply (by_value_ext (t_lists x)); [intros; apply Hvals|]. by apply S'. }
  assert (Hkeep : forall xs, by_value (t_lists x) xs -> by_value s' xs).
  { intros xs. apply by_value_ext. intros; apply Hvals. }
  destruct HT as [T1 T2 T3 [T4 T4'] T5 T6 T7 T8 T9].
  split; cbn [with_lists t_lists t_timers pxCurrentTimerList pxOverflowTimerList]; try done.
  - subst l a. destruct next; [by apply Hother|exact R'].
  - subst l a. destruct next; [exact R'|by apply Hother; [congruence|]].
  - destruct next; split; auto.
  - intros y Hy%Hel. destruct (Hp' (Item y)) as [_ ->]. destruct Hy as [-> | Hy]; [split; [by exists tm|done]|by apply T5].
  - intros y. subst a' a. destruct next; intros Hy1 Hy2; apply elem_of_inserted in Hy2 || apply elem_of_inserted in Hy1;
      naive_solver.
  - intros y tmy Hty. destruct (T7 y tmy Hty) as [H1 H2]. split; [done|].
    destruct (decide (y = t)) as [->|Hne]; [|].
    + assert (t ∈ elems (if next then C else a') \/ t ∈ elems (if next then a' else O)) by (apply Hel; by left). tauto.
    + assert (Hy := Hel y). unfold detached. cbn [with_lists t_lists]. rewrite (Hc' y Hne). tauto.
  - intros y. rewrite Hvals. apply T8.
Qed.

Lemma only_lists_trans t x x1 x2 : only_lists t x x1 -> only_lists t x1 x2 -> only_lists t x x2.
Proof.
  intros [S1 C1 V1] [S2 C2 V2]. split.
  - rewrite S2, S1. done.
  - intros y Hy. by rewrite C2, C1.
  - intros y Hy. by rewrite V2, V1.
Qed.

Lemma only_lists_same t x x' : only_lists t x x' ->
  t_timers x' = t_timers x /\ t_env x' = t_env x /\ pxCurrentTimerList x' = pxCurrentTimerList x /\
  pxOverflowTimerList x' = pxOverflowTimerList x.
Proof. intros [-> _ _]. done. Qed.

(** Where a timer that expires at the true time [e] is when the time is [now]. *)
Definition placed (t e now : Z) (x' : tsys E) (C O C' O' : alist) : Prop :=
  if e <=? now then C' = C /\ O' = O /\ detached (t_lists x') t
  else if e / 2 ^ 32 =? now / 2 ^ 32 then O' = O /\ exists n, C' = ainsert n t C
  else C' = C /\ exists n, O' = ainsert n t O.

Lemma get_timer_bind {B} x t tm (f : Timer_t -> prog (tsys E) B) : t_timers x !! t = Some tm ->
  (get_timer t ≫= f) x = f tm x.
Proof. intros Ht. apply bind_run. unfold get_timer, try_ask. by rewrite Ht. Qed.

Lemma insert_run x C O t tm cmd now : tinv x C O -> t_timers x !! t = Some tm -> active tm -> detached (t_lists x) t ->
  0 <= cmd <= now -> now < cmd + 2 ^ 32 ->
  exists x' C' O',
    prvInsertTimerInActiveList t (u32 (cmd + xTimerPeriodInTicks tm)) (u32 now) (u32 cmd) x =
      Some (cmd + xTimerPeriodInTicks tm <=? now, x') /\
    only_lists t x x' /\ vals (t_lists x') t = u32 (cmd + xTimerPeriodInTicks tm) /\ tinv x' C' O' /\
    placed t (cmd + xTimerPeriodInTicks tm) now x' C O C' O'.
Proof.
  intros HT Ht Hact Hd Hc Hn. destruct (ti_timer _ _ _ HT t tm Ht) as [Hp _].
  destruct (insert_decision _ cmd now Hp Hc Hn) as [D1 D2]. set (p := xTimerPeriodInTicks tm) in *.
  destruct (set_expiry x C O t (u32 (cmd + p)) HT ltac:(by eexists) Hd) as (x1&E1&S1&T1&Hd1&V1&O1).
  { unfold u32. apply Z.mod_pos_bound. lia. }
  destruct (only_lists_same _ _ _ S1) as (Et&_). pose proof Ht as Ht1. rewrite <- Et in Ht1.
  unfold prvInsertTimerInActiveList. rewrite E1.
  assert (Hput : forall next : bool, (cmd + p <=? now) = false -> next = negb ((cmd + p) / 2 ^ 32 =? now / 2 ^ 32) ->
    exists x' C' O', (_ ← lists_do (vListInsert (if next then pxOverflowTimerList x1 else pxCurrentTimerList x1) (Item t));
        mret false) x1 = Some (cmd + p <=? now, x') /\
      only_lists t x x' /\ vals (t_lists x') t = u32 (cmd + p) /\ tinv x' C' O' /\ placed t (cmd + p) now x' C O C' O').
  { intros next Hlt Hnext. destruct (list_timer next x1 C O t tm T1 Ht1 Hact Hd1 O1) as (x2&C'&O'&E2&S2&V2&T2&P2).
    exists x2, C', O'. split_and!; [|by eapply only_lists_trans|by rewrite V2|done|].
    - rewrite Hlt. by erewrite bind_run by exact E2.
    - unfold placed. rewrite Hlt. destruct (_ =? _); cbn [negb] in Hnext; by subst next. }
  assert (Hret : (cmd + p <=? now) = true -> exists x' C' O', mret (M:=prog _) true x1 = Some (cmd + p <=? now, x') /\
      only_lists t x x' /\ vals (t_lists x') t = u32 (cmd + p) /\ tinv x' C' O' /\ placed t (cmd + p) now x' C O C' O').
  { intros Hle. exists x1, C, O. unfold placed. by rewrite Hle. }
  destruct (u32 (cmd + p) <=? u32 now) eqn:Ele.
  - rewrite (get_timer_bind x1 t tm _ Ht1). fold p. rewrite D1.
    destruct (Z.leb_spec (cmd + p) now) as [Hle|Hlt]; [by apply Hret|].
    rewrite ask_bind. apply (Hput true); [done|]. by rewrite <- D2.
  - rewrite D1. destruct (Z.leb_spec (cmd + p) now) as [Hle|Hlt]; [by apply Hret|].
    rewrite ask_bind. apply (Hput false); [done|]. by rewrite <- D2.
Qed.

(** ** Callbacks *)

Definition calls (k : nat) (t : Z) (e : E) : E := Nat.iter k (te_callback t) e.

Lemma with_env_same x C O e : tinv x C O -> tinv (with_env e x) C O.
Proof. intros [T1 T2 T3 T4 T5 T6 T7 T8 T9]. by split. Qed.

Lemma get_timer_run (x : tsys E) t tm : t_timers x !! t = Some tm -> get_timer t x = Some (tm, x).
Proof. intros Ht. unfold get_timer, try_ask. by rewrite Ht. Qed.

Lemma iter_succ_comm k t e : calls k t (te_callback t e) = te_callback t (calls k t e).
Proof. unfold calls. by rewrite <- Nat.iter_succ_r. Qed.

(** [x'] is [x] after changes in the lists, there at most in [t], and the calls [e]. *)
Record moved (t : Z) (e : E) (x x' : tsys E) : Prop := {
  mv_same : x' = with_env e (with_lists (t_lists x') x);
  mv_cont : forall y, y <> t -> cont (t_lists x') (Item y) = cont (t_lists x) (Item y);
  mv_vals : forall y, y <> t -> vals (t_lists x') y = vals (t_lists x) y
}.

(** The loop of [prvReloadTimer] from the true time [e] of an expiry, [k] periods back. *)
Lemma reload_loop_run k fuel x C O t tm e now : (k < fuel)%nat -> tinv x C O -> t_timers x !! t = Some tm -> active tm ->
  detached (t_lists x) t -> 0 <= e <= now -> now < e + 2 ^ 32 ->
  e + Z.of_nat k * xTimerPeriodInTicks tm <= now < e + (Z.of_nat k + 1) * xTimerPeriodInTicks tm ->
  exists x' C' O', reload_loop fuel t (u32 e) (u32 now) x = Some (tt, x') /\
    moved t (calls k t (t_env x)) x x' /\
    vals (t_lists x') t = u32 (e + (Z.of_nat k + 1) * xTimerPeriodInTicks tm) /\ tinv x' C' O' /\
    placed t (e + (Z.of_nat k + 1) * xTimerPeriodInTicks tm) now x' C O C' O'.
Proof.
  revert k x C O e. induction fuel as [|fuel IH]; intros k x C O e Hk HT Ht Hact Hd He Hnow Hn; [lia|].
  destruct (ti_timer _ _ _ HT t tm Ht) as [Hp _].
  destruct (insert_run x C O t tm e now HT Ht Hact Hd He Hnow) as (x1&C1&O1&E1&S1&V1&T1&P1).
  set (p := xTimerPeriodInTicks tm) in *.
  assert (Ex : u32 (u32 e + p) = u32 (e + p)) by (unfold u32; by rewrite Zplus_mod_idemp_l).
  destruct (only_lists_same _ _ _ S1) as (Et&Ee&_).
  cbn [reload_loop]. rewrite (get_timer_bind x t tm _ Ht). fold p. rewrite Ex, (bind_run _ _ _ _ _ E1).
  destruct (Z.leb_spec (e + p) now) as [Hle|Hlt].
  - unfold placed in P1. rewrite (proj2 (Z.leb_le _ _) Hle) in P1. destruct P1 as (->&->&Hd1).
    destruct k as [|k]; [lia|].
    destruct (IH k (with_env (te_callback t (t_env x1)) x1) C O (e + p)) as (x2&C2&O2&E2&S2&V2&T2&P2);
      [lia|by apply with_env_same|by cbn; rewrite Et|done|done|lia|lia|fold p; lia|].
    exists x2, C2, O2. unfold call_back. rewrite update_bind. split; [exact E2|].
    replace (e + (Z.of_nat (S k) + 1) * p) with (e + p + (Z.of_nat k + 1) * p) by lia.
    split; [|done].
    destruct S1 as [S1 Q1 W1], S2 as [S2 Q2 W2]. cbn [with_env t_env t_lists] in *. split.
    + rewrite S2. rewrite iter_succ_comm, Ee. by rewrite S1.
    + intros y Hy. rewrite Q2 by done. by apply Q1.
    + intros y Hy. rewrite W2 by done. by apply W1.
  - destruct k as [|k]; [|nia]. exists x1, C1, O1. replace (e + (Z.of_nat 0 + 1) * p) with (e + p) by lia.
    split; [done|]. split; [|done].
    destruct S1 as [S1 Q1 W1]. split; [|done..]. rewrite S1 at 1. by destruct x.
Qed.

Lemma prvReloadTimer_run x C O t tm e now : tinv x C O -> t_timers x !! t = Some tm -> active tm ->
  detached (t_lists x) t -> 0 <= e <= now -> now < e + 2 ^ 32 ->
  let k := (now - e) / xTimerPeriodInTicks tm in
  exists x' C' O', prvReloadTimer t (u32 e) (u32 now) x = Some (tt, x') /\
    moved t (calls (Z.to_nat k) t (t_env x)) x x' /\
    vals (t_lists x') t = u32 (e + (k + 1) * xTimerPeriodInTicks tm) /\ tinv x' C' O' /\
    placed t (e + (k + 1) * xTimerPeriodInTicks tm) now x' C O C' O'.
Proof.
  intros HT Ht Hact Hd He Hn k. destruct (ti_timer _ _ _ HT t tm Ht) as [Hp _]. set (p := xTimerPeriodInTicks tm) in *.
  assert (Esub : u32 (u32 now - u32 e) = now - e).
  { unfold u32. rewrite <- Zminus_mod. apply Z.mod_small. lia. }
  assert (Hk : 0 <= k) by (apply Z.div_pos; lia).
  pose proof (Z.div_mod (now - e) p ltac:(lia)) as Ed. pose proof (Z.mod_pos_bound (now - e) p ltac:(lia)). fold k in Ed.
  destruct (reload_loop_run (Z.to_nat k) (S (Z.to_nat k)) x C O t tm e now) as (x'&C'&O'&E1&S1&V1&T1&P1);
    [lia|done..|fold p; rewrite Z2Nat.id by done; lia|].
  rewrite Z2Nat.id in V1, P1 by done. fold p in V1, P1. exists x', C', O'. split; [|done].
  unfold prvReloadTimer. rewrite (get_timer_bind x t tm _ Ht). fold p. rewrite Esub. exact E1.
Qed.

(** ** Taking a timer off its list *)

Lemma elem_of_removed n (t : Z) a y : NoDup (elems a) -> elems a !! n = Some t ->
  y ∈ elems (aremove n a) <-> y ∈ elems a /\ y <> t.
Proof.
  intros Hnd Hn. pose proof (take_drop_mid _ _ _ Hn) as Es. rewrite Es in Hnd.
  assert (Ey : y ∈ elems a <-> y ∈ take n (elems a) ++ t :: drop (S n) (elems a)) by (by rewrite <- Es).
  rewrite Ey. cbn [aremove elems].
  apply NoDup_app in Hnd as (_&Hnd1&[Hnd2 _]%NoDup_cons). rewrite !elem_of_app, elem_of_cons.
  assert (t ∉ take n (elems a)) by (intros Ht; by apply (Hnd1 t Ht); left). naive_solver.
Qed.

Lemma by_value_removed s n a : by_value s (elems a) -> by_value s (elems (aremove n a)).
Proof.
  unfold by_value. rewrite <- (take_drop (S n) (elems a)) at 1. cbn [aremove elems].
  rewrite !StronglySorted_app_iff. intros (S1&S2&S3). split_and!.
  - rewrite <- (take_drop n (take (S n) (elems a))), StronglySorted_app_iff, take_take in S1.
    replace (n `min` S n)%nat with n in S1 by lia. tauto.
  - done.
  - intros y z Hy Hz. apply S3; [|done]. eapply elem_of_subseteq; [|exact Hy].
    replace (take n (elems a)) with (take n (take (S n) (elems a))) by (rewrite take_take; f_equal; lia).
    intros w Hw. by eapply elem_of_take in Hw as (?&?%list_elem_of_lookup_2&_).
Qed.

Lemma unlist_timer (next : bool) x C O t n : tinv x C O -> elems (if next then O else C) !! n = Some t ->
  exists x', remove_timer t x = Some (tt, x') /\ only_lists t x x' /\ vals (t_lists x') t = vals (t_lists x) t /\
    tinv x' (if next then C else aremove n C) (if next then aremove n O else O) /\ detached (t_lists x') t.
Proof.
  intros HT Hn. set (l := if next then pxOverflowTimerList x else pxCurrentTimerList x).
  set (a := if next then O else C) in *.
  assert (Ra : list_rep (t_lists x) l a) by (subst l a; destruct next; [apply (ti_overflow _ _ _ HT)|apply (ti_current _ _ _ HT)]).
  destruct (uxListRemove_step _ l t a n Ra Hn) as (s'&Es&R'&Hd'&Ho'&Hp'&Hc').
  pose proof (elem_of_removed n t a) as Hel. specialize (fun y => Hel y (rep_nodup _ _ _ Ra) Hn).
  assert (Hvals : forall y, vals s' y = vals (t_lists x) y) by (intros y; unfold vals; by destruct (Hp' (Item y)) as [-> _]).
  exists (with_lists s' x). split; [unfold remove_timer, lists_do, try_update; by rewrite Es|].
  split; [split; [done| |]; intros y Hy; cbn [with_lists t_lists]; [by apply Hc'|by rewrite Hvals]|].
  split; [apply Hvals|]. split; [|exact Hd'].
  assert (Hother : forall l' b, l' <> l -> list_rep (t_lists x) l' b -> list_rep s' l' b) by (intros; by apply Ho').
  assert (Hta : t ∈ elems a) by by eapply list_elem_of_lookup_2.
  assert (Hkeep : forall xs, by_value (t_lists x) xs -> by_value s' xs).
  { intros xs. apply by_value_ext. intros; apply Hvals. }
  destruct HT as [T1 T2 T3 [T4 T4'] T5 T6 T7 T8 T9].
  assert (Hall : forall y, y ∈ elems (if next then C else aremove n C) \/ y ∈ elems (if next then aremove n O else O) <->
      (y ∈ elems C \/ y ∈ elems O) /\ y <> t).
  { intros y. subst a. destruct next; rewrite Hel; specialize (T6 t); naive_solver. }
  split; cbn [with_lists t_lists t_timers pxCurrentTimerList pxOverflowTimerList]; try done.
  - subst l a. destruct next; [by apply Hother|exact R'].
  - subst l a. destruct next; [exact R'|by apply Hother; [congruence|]].
  - subst a. destruct next; split; auto using by_value_removed.
  - intros y [Hy _]%Hall. destruct (Hp' (Item y)) as [_ ->]. by apply T5.
  - intros y Hy1 Hy2. assert ((y ∈ elems C \/ y ∈ elems O) /\ y <> t) as [_ Hy] by (apply Hall; by left).
    subst a. destruct next; [apply Hel in Hy2|apply Hel in Hy1]; naive_solver.
  - intros y tmy Hty. destruct (T7 y tmy Hty) as [H1 H2]. split; [done|].
    destruct (decide (y = t)) as [->|Hne]; [by do 2 right|].
    specialize (Hall y). unfold detached. cbn [with_lists t_lists]. rewrite (Hc' y Hne). tauto.
  - intros y. rewrite Hvals. apply T8.
Qed.

Lemma current_empty x C O : tinv x C O ->
  listLIST_IS_EMPTY (pxCurrentTimerList x) (t_lists x) = Some (bool_decide (elems C = [])).
Proof.
  intros HT. destruct (rep_list _ _ _ (ti_current _ _ _ HT)) as (i&El&_). unfold listLIST_IS_EMPTY. rewrite El.
  cbn [fmap option_fmap option_map uxNumberOfItems]. f_equal. by destruct (elems C).
Qed.

Lemma current_head x C O t ts : tinv x C O -> elems C = t :: ts ->
  listGET_OWNER_OF_HEAD_ENTRY (pxCurrentTimerList x) (t_lists x) = Some t /\
  listGET_ITEM_VALUE_OF_HEAD_ENTRY (pxCurrentTimerList x) (t_lists x) = Some (vals (t_lists x) t).
Proof.
  intros HT HC. pose proof (ti_current _ _ _ HT) as R.
  destruct (ring_around _ _ _ 0 R) as [Hf _]. rewrite ring_before_0 in Hf.
  unfold ring_after in Hf. rewrite HC in Hf. simpl in Hf.
  destruct (list_rep_lookup _ _ _ t R) as (ix&Hix&_); [rewrite HC; left|].
  destruct (ti_active _ _ _ HT t) as [_ Ho]; [left; rewrite HC; left|].
  assert (Hh : listGET_HEAD_ENTRY (pxCurrentTimerList x) (t_lists x) = Some (Item t)) by exact Hf.
  unfold listGET_OWNER_OF_HEAD_ENTRY, listGET_ITEM_VALUE_OF_HEAD_ENTRY, listGET_LIST_ITEM_VALUE. rewrite Hh.
  cbn [mbind option_bind]. split; [exact Ho|]. unfold vals, val. by rewrite Hix.
Qed.

(** ** An expired timer *)

Lemma lists_get_bind {A B} (x : tsys E) (f : store -> option A) (g : A -> prog (tsys E) B) v : f (t_lists x) = Some v ->
  (lists_get f ≫= g) x = g v x.
Proof. intros Ef. apply bind_run. unfold lists_get, try_ask. by rewrite Ef. Qed.

Lemma set_timer_run (x : tsys E) t tm f : t_timers x !! t = Some tm ->
  set_timer t f x = Some (tt, with_timers (<[t := f tm]> (t_timers x)) x).
Proof. intros Ht. unfold set_timer, try_update. by rewrite Ht. Qed.

(** A timer in no list may change its state. *)
Lemma set_timer_inv x C O t tm tm' : tinv x C O -> t_timers x !! t = Some tm -> detached (t_lists x) t ->
  0 < xTimerPeriodInTicks tm' < 2 ^ 32 -> tinv (with_timers (<[t := tm']> (t_timers x)) x) C O.
Proof.
  intros HT Ht Hd Hp. destruct (detached_not_listed _ _ _ _ HT Hd) as [HnC HnO].
  destruct HT as [T1 T2 T3 T4 T5 T6 T7 T8 T9].
  split; cbn [with_timers t_lists t_timers pxCurrentTimerList pxOverflowTimerList]; try done.
  - intros y Hy. destruct (T5 y Hy) as [H1 H2]. split; [|done]. rewrite lookup_insert_ne; [done|].
    intros ->. tauto.
  - intros y tmy. rewrite lookup_insert. case_decide as Hy; [|apply T7].
    intros Hty. injection Hty as <-. subst y. split; [done|]. by do 2 right.
  - rewrite map_size_insert_Some by (by eexists). done.
Qed.

Definition autoreload (tm : Timer_t) : bool := has_status tmrSTATUS_IS_AUTORELOAD tm.

(** The callbacks due at the true time [now] to a timer that expired at [e], and
    the state that the timer is left in. *)
Definition due (tm : Timer_t) (e now : Z) : nat :=
  if autoreload tm then S (Z.to_nat ((now - e) / xTimerPeriodInTicks tm)) else 1.
Definition next_expiry (tm : Timer_t) (e now : Z) : Z :=
  e + ((now - e) / xTimerPeriodInTicks tm + 1) * xTimerPeriodInTicks tm.
Definition done_with (tm : Timer_t) : Timer_t := if autoreload tm then tm else clear_status tmrSTATUS_IS_ACTIVE tm.

(** [x'] is [x] after timer [t], then [tm], has expired at [e]. *)
Record expired (t : Z) (tm : Timer_t) (e now : Z) (x x' : tsys E) (C O C' O' : alist) : Prop := {
  ex_env : t_env x' = calls (due tm e now) t (t_env x);
  ex_timers : t_timers x' = <[t := done_with tm]> (t_timers x);
  ex_lists : pxCurrentTimerList x' = pxCurrentTimerList x /\ pxOverflowTimerList x' = pxOverflowTimerList x;
  ex_time : xLastTime x' = xLastTime x;
  ex_vals : forall y, y <> t -> vals (t_lists x') y = vals (t_lists x) y;
  ex_next : vals (t_lists x') t = if autoreload tm then u32 (next_expiry tm e now) else vals (t_lists x) t;
  ex_placed : if autoreload tm then placed t (next_expiry tm e now) now x' C O C' O' else C' = C /\ O' = O;
  ex_inv : tinv x' C' O'
}.

Lemma reload_or_stop_run x C O t tm e now : tinv x C O -> t_timers x !! t = Some tm -> active tm ->
  detached (t_lists x) t -> 0 <= e <= now -> now < e + 2 ^ 32 ->
  exists x' C' O', reload_or_stop t (u32 e) (u32 now) x = Some (tt, x') /\ expired t tm e now x x' C O C' O'.
Proof.
  intros HT Ht Hact Hd He Hn. destruct (ti_timer _ _ _ HT t tm Ht) as [Hp _].
  unfold reload_or_stop. rewrite (get_timer_bind x t tm _ Ht).
  destruct (has_status tmrSTATUS_IS_AUTORELOAD tm) eqn:Ea.
  - destruct (prvReloadTimer_run x C O t tm e now HT Ht Hact Hd He Hn) as (x1&C'&O'&E1&[S1 Q1 W1]&V1&T1&P1).
    rewrite (bind_run _ _ _ _ _ E1). exists (with_env (te_callback t (t_env x1)) x1), C', O'. split; [done|].
    unfold call_back. split; unfold due, done_with, autoreload; rewrite ?Ea; cbn [with_env t_lists t_timers t_env]; try done.
    + rewrite S1. done.
    + rewrite S1. cbn. by rewrite insert_id.
    + rewrite S1. done.
    + rewrite S1. done.
    + by apply with_env_same.
  - rewrite (bind_run _ _ _ _ _ (set_timer_run x t tm _ Ht)).
    eexists _, C, O. split; [done|]. split; unfold due, done_with, autoreload; rewrite ?Ea; try done.
    apply with_env_same. by eapply set_timer_inv.
Qed.

Lemma prvProcessExpiredTimer_run x C O t ts e now : tinv x C O -> elems C = t :: ts ->
  0 <= e <= now -> now < e + 2 ^ 32 -> exists tm, t_timers x !! t = Some tm /\
  exists x' C' O', prvProcessExpiredTimer (u32 e) (u32 now) x = Some (tt, x') /\
    expired t tm e now x x' (aremove 0 C) O C' O'.
Proof.
  intros HT HC He Hn. destruct (ti_active _ _ _ HT t) as [(tm&Ht&Hact) _]; [left; rewrite HC; left|].
  exists tm. split; [done|]. destruct (current_head x C O t ts HT HC) as [Eo _].
  destruct (unlist_timer false x C O t 0 HT) as (x1&E1&S1&V1&T1&Hd1); [by rewrite HC|].
  destruct (only_lists_same _ _ _ S1) as (Et&Ee&Ec&Eov).
  destruct (reload_or_stop_run x1 (aremove 0 C) O t tm e now T1) as (x2&C'&O'&E2&[X1 X2 X3 Xt X4 X5 X6 X7]);
    [by rewrite Et|done..|].
  exists x2, C', O'. split.
  - unfold prvProcessExpiredTimer. rewrite ask_bind, (lists_get_bind _ _ _ _ Eo).
    by rewrite (bind_run _ _ _ _ _ E1).
  - destruct S1 as [S1 _ W1]. split; try done.
    + by rewrite X1, Ee.
    + by rewrite X2, Et.
    + by rewrite <- Ec, <- Eov.
    + rewrite Xt. by rewrite S1.
    + intros y Hy. by rewrite X4, W1.
    + rewrite X5. by destruct (autoreload tm).
Qed.

(** ** The end of a run of the tick counter *)

Definition last_tick : Z := 2 ^ 32 - 1.

(** The callbacks of the timers [ts], which expire at the times [vs]. *)
Definition callbacks (m : gmap Z Timer_t) (vs : Z -> Z) (ts : list Z) (e : E) : E :=
  foldl (fun e t => match m !! t with Some tm => calls (due tm (vs t) last_tick) t e | None => e end) e ts.

Definition reloads (m : gmap Z Timer_t) (ts : list Z) (t : Z) : Prop :=
  t ∈ ts /\ exists tm, m !! t = Some tm /\ autoreload tm = true.

(** [x'] is [x] after all of the timers [ts] have expired. *)
Record rolled (ts : list Z) (x x' : tsys E) (O O' : alist) : Prop := {
  ro_env : t_env x' = callbacks (t_timers x) (vals (t_lists x)) ts (t_env x);
  ro_done : forall t, t ∈ ts -> t_timers x' !! t = done_with <$> t_timers x !! t;
  ro_other : forall t, t ∉ ts -> t_timers x' !! t = t_timers x !! t;
  ro_vals : forall t, ~ reloads (t_timers x) ts t -> vals (t_lists x') t = vals (t_lists x) t;
  ro_next : forall t tm, reloads (t_timers x) ts t -> t_timers x !! t = Some tm ->
    vals (t_lists x') t = u32 (next_expiry tm (vals (t_lists x) t) last_tick);
  ro_listed : forall t, t ∈ elems O' <-> t ∈ elems O \/ reloads (t_timers x) ts t;
  ro_lists : pxCurrentTimerList x' = pxCurrentTimerList x /\ pxOverflowTimerList x' = pxOverflowTimerList x
}.

Lemma callbacks_ext m m' vs vs' ts e : (forall t, t ∈ ts -> m' !! t = m !! t /\ vs' t = vs t) ->
  callbacks m' vs' ts e = callbacks m vs ts e.
Proof.
  revert e. induction ts as [|t ts IH]; intros e Hts; [done|]. cbn.
  destruct (Hts t) as [-> ->]; [left|]. apply IH. intros y Hy. apply Hts. by right.
Qed.

(** Every timer that expires in this run is next due in the one after. *)
Lemma next_expiry_over tm e : 0 < xTimerPeriodInTicks tm -> 0 <= e <= last_tick ->
  (next_expiry tm e last_tick <=? last_tick) = false /\
  (next_expiry tm e last_tick / 2 ^ 32 =? last_tick / 2 ^ 32) = false.
Proof.
  intros Hp He. unfold next_expiry. set (p := xTimerPeriodInTicks tm) in *.
  pose proof (Z.div_mod (last_tick - e) p ltac:(lia)) as Ed. pose proof (Z.mod_pos_bound (last_tick - e) p ltac:(lia)).
  assert (Hover : last_tick < e + ((last_tick - e) / p + 1) * p) by nia.
  split; [lia|]. apply Z.eqb_neq. replace (last_tick / 2 ^ 32) with 0 by done.
  intros E0. apply Z.div_small_iff in E0; unfold last_tick in *; lia.
Qed.

Lemma elems_ainsert_next n t O C C' O' tm e x' : 0 < xTimerPeriodInTicks tm -> 0 <= e <= last_tick ->
  (if autoreload tm then placed t (next_expiry tm e last_tick) last_tick x' (aremove n C) O C' O'
   else C' = aremove n C /\ O' = O) ->
  C' = aremove n C /\ forall y, y ∈ elems O' <-> y ∈ elems O \/ (y = t /\ autoreload tm = true).
Proof.
  intros Hp He Hpl. destruct (autoreload tm).
  - unfold placed in Hpl. destruct (next_expiry_over tm e Hp He) as [E1 E2]. rewrite E1, E2 in Hpl.
    destruct Hpl as [-> [j ->]]. split; [done|]. intros y. rewrite elem_of_inserted. tauto.
  - destruct Hpl as [-> ->]. split; [done|]. naive_solver.
Qed.

Lemma rolled_cons t ts tm (x x1 x2 : tsys E) C O C1 O1 O2 : t ∉ ts -> t_timers x !! t = Some tm ->
  expired t tm (vals (t_lists x) t) last_tick x x1 C O C1 O1 ->
  (forall y, y ∈ elems O1 <-> y ∈ elems O \/ (y = t /\ autoreload tm = true)) ->
  rolled ts x1 x2 O1 O2 -> rolled (t :: ts) x x2 O O2.
Proof.
  intros Hnt Ht [X1 X2 X3 _ X4 X5 _ _] HO [R1 R2 R3 R4 R5 R6 R7].
  assert (Hm : forall y, y <> t -> t_timers x1 !! y = t_timers x !! y) by (intros; by rewrite X2, lookup_insert_ne).
  assert (Hre : forall y, reloads (t_timers x) (t :: ts) y <-> (y = t /\ autoreload tm = true) \/ reloads (t_timers x1) ts y).
  { intros y. unfold reloads. rewrite elem_of_cons. destruct (decide (y = t)) as [->|Hne]; [|rewrite Hm by done];
      naive_solver. }
  assert (Hnr : ~ reloads (t_timers x1) ts t) by (intros [? _]; tauto).
  split.
  - rewrite R1, X1. cbn [callbacks foldl]. rewrite Ht.
    apply callbacks_ext. intros y Hy. assert (y <> t) by congruence. by rewrite Hm, X4.
  - intros y [-> | Hy]%elem_of_cons.
    + rewrite R3, X2, lookup_insert_eq, Ht by done. done.
    + rewrite R2 by done. rewrite Hm by congruence. done.
  - intros y [Hy1 Hy2]%not_elem_of_cons. rewrite R3 by done. by apply Hm.
  - intros y Hy. rewrite Hre in Hy. rewrite R4 by tauto. destruct (decide (y = t)) as [->|Hne]; [|by apply X4].
    rewrite X5. destruct (autoreload tm); [tauto|done].
  - intros y tmy Hy Hty. apply Hre in Hy as [[-> Ha]|Hy].
    + rewrite R4 by done. rewrite X5, Ha. by simplify_eq.
    + assert (y <> t) by (intros ->; tauto). rewrite <- (X4 y) by done. apply R5; [done|]. by rewrite Hm.
  - intros y. rewrite R6, HO, Hre. tauto.
  - destruct X3 as [<- <-]. exact R7.
Qed.

Lemma expire_all_run fuel x C O : tinv x C O -> (length (elems C) < fuel)%nat ->
  exists x' C' O', expire_all fuel x = Some (tt, x') /\ elems C' = [] /\ tinv x' C' O' /\ rolled (elems C) x x' O O'.
Proof.
  revert x C O. induction fuel as [|fuel IH]; intros x C O HT Hf; [lia|].
  cbn [expire_all]. rewrite ask_bind, (lists_get_bind _ _ _ _ (current_empty _ _ _ HT)).
  destruct (elems C) as [|t ts] eqn:EC.
  - rewrite bool_decide_eq_true_2 by done. exists x, C, O. split; [done|]. split; [done|]. split; [done|].
    assert (Hno : forall t, ~ reloads (t_timers x) [] t) by (intros t [Ht _]; by apply not_elem_of_nil in Ht).
    split; try done.
    + intros t Ht. by apply not_elem_of_nil in Ht.
    + intros t tm Ht. by apply Hno in Ht.
    + intros t. specialize (Hno t). tauto.
  - rewrite bool_decide_eq_false_2 by done.
    destruct (current_head x C O t ts HT EC) as [_ Ev]. rewrite (lists_get_bind _ _ _ _ Ev).
    set (v := vals (t_lists x) t) in *. pose proof (ti_values _ _ _ HT t) as Hv. fold v in Hv.
    destruct (prvProcessExpiredTimer_run x C O t ts v last_tick HT EC) as (tm&Ht&x1&C1&O1&E1&X);
      [unfold last_tick; lia..|].
    assert (Hlast : u32 last_tick = tmrMAX_TIME_BEFORE_OVERFLOW) by done.
    rewrite Hlast, (u32_small v Hv) in E1. rewrite (bind_run _ _ _ _ _ E1).
    destruct (ti_timer _ _ _ HT t tm Ht) as [Hp _].
    destruct (elems_ainsert_next 0 t O C C1 O1 tm v x1) as [-> HO1];
      [lia|unfold last_tick; lia|apply (ex_placed _ _ _ _ _ _ _ _ _ _ X)|].
    assert (EC1 : elems (aremove 0 C) = ts) by (cbn; by rewrite EC).
    destruct (IH x1 (aremove 0 C) O1 (ex_inv _ _ _ _ _ _ _ _ _ _ X)) as (x2&C2&O2&E2&HC2&T2&R2);
      [rewrite EC1; cbn in Hf; lia|].
    exists x2, C2, O2. split; [done|]. split; [done|]. split; [done|]. rewrite EC1 in R2.
    pose proof (rep_nodup _ _ _ (ti_current _ _ _ HT)) as Hnd. rewrite EC in Hnd. apply NoDup_cons in Hnd as [Hnt _].
    by eapply rolled_cons.
Qed.

Lemma switch_run x C O : tinv x C O ->
  exists x' C' O', prvSwitchTimerLists x = Some (tt, x') /\ elems O' = [] /\ tinv x' C' O' /\
    rolled (elems C) x (mkTsys (t_lists x') (t_timers x') (pxOverflowTimerList x') (pxCurrentTimerList x') (xLastTime x') (t_env x')) O C'.
Proof.
  intros HT. unfold prvSwitchTimerLists. rewrite ask_bind.
  assert (Hl : current_length x = length (elems C)).
  { destruct (rep_list _ _ _ (ti_current _ _ _ HT)) as (i&El&_). unfold current_length, listCURRENT_LIST_LENGTH.
    rewrite El. cbn [fmap option_fmap option_map uxNumberOfItems default from_option]. apply Nat2Z.id. }
  rewrite Hl. destruct (expire_all_run (S (length (elems C))) x C O HT ltac:(lia)) as (x'&C'&O'&E1&HC'&HT'&HR).
  rewrite (bind_run _ _ _ _ _ E1).
  exists (mkTsys (t_lists x') (t_timers x') (pxOverflowTimerList x') (pxCurrentTimerList x') (xLastTime x') (t_env x')), O', C'.
  split; [done|]. split; [done|]. split.
  - destruct HT' as [T1 T2 T3 [T4 T4'] T5 T6 T7 T8 T9]. split; cbn; try done.
    + intros t Ht. apply T5. tauto.
    + eauto.
    + intros t tm Ht. destruct (T7 t tm Ht). tauto.
  - by destruct x'.
Qed.

(** ** Messages *)

Lemma status_set bit tm : bit <> 0 -> has_status bit (set_status bit tm) = true.
Proof.
  intros Hb. unfold has_status, set_status, with_status. cbn [ucStatus].
  apply negb_true_iff, Z.eqb_neq. intros E0. apply Hb, Z.bits_inj. intros n.
  pose proof (f_equal (fun v => Z.testbit v n) E0) as En. cbn beta in En.
  rewrite Z.land_spec, Z.lor_spec, !Z.bits_0 in En. rewrite Z.bits_0.
  by destruct (Z.testbit bit n), (Z.testbit (ucStatus tm) n).
Qed.

(** The timers of a list other than [t]. *)
Definition others (t : Z) (a : alist) : list Z := filter (fun y => y <> t) (elems a).

Lemma others_absent t a : t ∉ elems a -> others t a = elems a.
Proof.
  unfold others. induction (elems a) as [|y l IH]; [done|]. intros [Hy Hl]%not_elem_of_cons.
  rewrite filter_cons_True by congruence. by rewrite IH.
Qed.

Lemma elems_aremove n (t : Z) a : NoDup (elems a) -> elems a !! n = Some t -> elems (aremove n a) = others t a.
Proof.
  intros Hnd Hn. pose proof (take_drop_mid _ _ _ Hn) as Es. pose proof Hnd as Hnd'. rewrite Es in Hnd'.
  apply NoDup_app in Hnd' as (_&Hnd1&[Hnd2 _]%NoDup_cons).
  transitivity (filter (fun y => y <> t) (take n (elems a) ++ t :: drop (S n) (elems a))); [|by rewrite <- Es].
  rewrite filter_app, filter_cons_False by (intros Ht; by apply Ht). cbn [aremove elems].
  pose proof (others_absent t (mkAList (take n (elems a)) 0)) as H1.
  pose proof (others_absent t (mkAList (drop (S n) (elems a)) 0)) as H2. unfold others in *. cbn [elems] in *.
  rewrite H1, H2; [done|exact Hnd2|]. intros Ht. apply (Hnd1 t Ht). left.
Qed.

(** What a message does first: its timer leaves the list that it is in. *)
Lemma message_unlist x C O t tm : tinv x C O -> t_timers x !! t = Some tm ->
  exists x' C' O', (forall B (f : unit -> prog (tsys E) B),
      (lists_get (fun s => pxContainer <$> items s !! Item t) ≫= fun c =>
         when (bool_decide (c <> None)) (remove_timer t) ≫= f) x = f tt x') /\
    tinv x' C' O' /\ detached (t_lists x') t /\ x' = with_lists (t_lists x') x /\
    (forall y, vals (t_lists x') y = vals (t_lists x) y) /\ elems C' = others t C /\ elems O' = others t O.
Proof.
  intros HT Ht. destruct (ti_timer _ _ _ HT t tm Ht) as [_ Hin].
  assert (Hrem : forall (next : bool), t ∈ elems (if next then O else C) ->
    exists x' C' O', (forall B (f : unit -> prog (tsys E) B),
      (lists_get (fun s => pxContainer <$> items s !! Item t) ≫= fun c =>
         when (bool_decide (c <> None)) (remove_timer t) ≫= f) x = f tt x') /\
    tinv x' C' O' /\ detached (t_lists x') t /\ x' = with_lists (t_lists x') x /\
    (forall y, vals (t_lists x') y = vals (t_lists x) y) /\ elems C' = others t C /\ elems O' = others t O).
  { intros next Hnt. pose proof Hnt as [n Hn]%list_elem_of_lookup.
    destruct (unlist_timer next x C O t n HT Hn) as (x'&E1&[S1 Q1 W1]&V1&T1&Hd1).
    eexists x', _, _. split; [|split; [exact T1|split; [exact Hd1|split; [exact S1|split]]]].
    - intros B f. assert (Hc : cont (t_lists x) (Item t) = Some (Some (if next then pxOverflowTimerList x else pxCurrentTimerList x))).
      { destruct next; [by apply (rep_cont _ _ _ (ti_overflow _ _ _ HT))|by apply (rep_cont _ _ _ (ti_current _ _ _ HT))]. }
      rewrite (lists_get_bind _ _ _ _ Hc). rewrite bool_decide_eq_true_2 by done.
      unfold when. by rewrite (bind_run _ _ _ _ _ E1).
    - intros y. destruct (decide (y = t)) as [->|Hy]; [exact V1|by apply W1].
    - destruct next; split; first [apply elems_aremove; [|exact Hn]; by eapply rep_nodup, ti_current|
        apply elems_aremove; [|exact Hn]; by eapply rep_nodup, ti_overflow|
        symmetry; apply others_absent; intros Hy; by apply (ti_apart _ _ _ HT t)]. }
  destruct Hin as [Hin|[Hin|Hd]]; [by apply (Hrem false)|by apply (Hrem true)|].
  destruct (detached_not_listed _ _ _ _ HT Hd) as [HnC HnO].
  exists x, C, O. split; [|split_and!; try done; [by destruct x|by rewrite others_absent..]].
  intros B f. rewrite (lists_get_bind _ _ _ _ Hd).
  by rewrite bool_decide_eq_false_2 by (intros Hn; by apply Hn).
Qed.

Lemma with_last_time x C O n : tinv x C O ->
  tinv (mkTsys (t_lists x) (t_timers x) (pxCurrentTimerList x) (pxOverflowTimerList x) n (t_env x)) C O.
Proof. intros [T1 T2 T3 T4 T5 T6 T7 T8 T9]. by split. Qed.

(** [x'] is [x] after the time [now] has been read: when the counter has wrapped,
    every timer of the run that ended, [ts], has expired and the lists are switched; else
    only the time is taken down. *)
Definition sampled (now : Z) (x x' : tsys E) (C O C' O' : alist) : Prop :=
  xLastTime x' = now /\
  if now <? xLastTime x then
    pxCurrentTimerList x' = pxOverflowTimerList x /\ pxOverflowTimerList x' = pxCurrentTimerList x /\
    t_env x' = callbacks (t_timers x) (vals (t_lists x)) (elems C) (t_env x) /\
    (forall y, t_timers x' !! y = if bool_decide (y ∈ elems C) then done_with <$> t_timers x !! y else t_timers x !! y) /\
    (forall y, ~ reloads (t_timers x) (elems C) y -> vals (t_lists x') y = vals (t_lists x) y) /\
    (forall y tmy, reloads (t_timers x) (elems C) y -> t_timers x !! y = Some tmy ->
       vals (t_lists x') y = u32 (next_expiry tmy (vals (t_lists x) y) last_tick)) /\
    (forall y, y ∈ elems C' <-> y ∈ elems O \/ reloads (t_timers x) (elems C) y) /\ elems O' = []
  else
    x' = mkTsys (t_lists x) (t_timers x) (pxCurrentTimerList x) (pxOverflowTimerList x) now (t_env x) /\ C' = C /\ O' = O.

(** Reading the time leaves the timers that are in no list alone. *)
Lemma sample_run x C O now : tinv x C O ->
  exists x' C' O', prvSampleTimeNow now x = Some (now <? xLastTime x, x') /\ tinv x' C' O' /\ sampled now x x' C O C' O' /\
    (forall t tm, t_timers x !! t = Some tm -> detached (t_lists x) t ->
       t_timers x' !! t = Some tm /\ detached (t_lists x') t).
Proof.
  intros HT. unfold prvSampleTimeNow, sampled. rewrite ask_bind. destruct (now <? xLastTime x) eqn:El; cbn [when].
  - destruct (switch_run x C O HT) as (x1&C1&O1&E1&HO1&T1&R1). rewrite (bind_run _ _ _ _ _ E1), update_bind.
    eexists _, C1, O1. split; [done|]. split; [by apply with_last_time|]. split.
    + destruct R1 as [R1 R2 R3 R4 R5 R6 [R7 R8]]. cbn in *. split_and!; try done.
      intros y. case_bool_decide; auto.
    + intros t tm Ht Hd. destruct (detached_not_listed _ _ _ _ HT Hd) as [HnC HnO]. cbn [t_timers t_lists].
      pose proof (ro_other _ _ _ _ _ R1 t HnC) as Eo. cbn [t_timers] in Eo. rewrite Ht in Eo. split; [done|].
      destruct (ti_timer _ _ _ T1 t tm Eo) as [_ [Hin|[Hin|Hd1]]]; [|rewrite HO1 in Hin; by apply not_elem_of_nil in Hin|done].
      apply (ro_listed _ _ _ _ _ R1) in Hin as [?|[? _]]; tauto.
  - rewrite ret_bind, update_bind. eexists _, C, O. split; [done|]. split; [by apply with_last_time|]. by split.
Qed.

(** The true time, for a sender who read [v], when the daemon reads [now]. *)
Definition true_now (v now : Z) : Z := v + u32 (now - v).

Lemma true_now_ok v now : 0 <= v < 2 ^ 32 -> 0 <= now < 2 ^ 32 ->
  u32 v = v /\ u32 (true_now v now) = now /\ v <= true_now v now < v + 2 ^ 32.
Proof.
  intros Hv Hn. unfold true_now. pose proof (u32_range (now - v)). split; [by apply u32_small|]. split; [|lia].
  unfold u32 in *. rewrite Zplus_mod_idemp_r. replace (v + (now - v)) with now by lia. by apply Z.mod_small.
Qed.

(** [x'] is [x] with timer [t] in the state [tm'], its item at the expiry time [e]. *)
Definition aimed (t : Z) (tm' : Timer_t) (e : Z) (x x' : tsys E) : Prop :=
  x' = with_lists (t_lists x') (with_timers (<[t := tm']> (t_timers x)) x) /\
  forall y, vals (t_lists x') y = if decide (y = t) then u32 e else vals (t_lists x) y.

(** What a command does to its timer, at the time [now]; the timer is then in no
    list.  A start counts from the tick count [v] that its sender read: the timer
    has expired already, or goes into the list of the run that its deadline is in. *)
Definition command_done (c : command) (v now : Z) (tm : Timer_t) (t : Z) (x x' : tsys E) (C O C' O' : alist) : Prop :=
  let on := set_status tmrSTATUS_IS_ACTIVE tm in
  let off := clear_status tmrSTATUS_IS_ACTIVE tm in
  match c with
  | START | RESET =>
      let e := v + xTimerPeriodInTicks tm in
      exists xe, aimed t on e x xe /\
        if e <=? true_now v now then expired t on e (true_now v now) xe x' C O C' O'
        else x' = xe /\ placed t e (true_now v now) x' C O C' O'
  | STOP => x' = with_timers (<[t := off]> (t_timers x)) x /\ C' = C /\ O' = O
  | CHANGE_PERIOD => aimed t (with_period v on) (now + v) x x' /\ placed t (now + v) now x' C O C' O'
  | DELETE =>
      x' = (if has_status tmrSTATUS_IS_STATICALLY_ALLOCATED tm then with_timers (<[t := off]> (t_timers x)) x
            else with_env (te_free t (t_env x)) (with_timers (delete t (t_timers x)) x)) /\ C' = C /\ O' = O
  end.

(** What a command may say. *)
Definition value_ok (c : command) (v : Z) : Prop := 0 <= v < 2 ^ 32 /\ (c = CHANGE_PERIOD -> 0 < v).

(** A timer that goes into a list, with its new state. *)
Lemma armed_run x C O t tm tm' e now : tinv x C O -> t_timers x !! t = Some tm -> active tm' -> detached (t_lists x) t ->
  0 < xTimerPeriodInTicks tm' < 2 ^ 32 -> 0 <= e <= now -> now < e + 2 ^ 32 ->
  let r := e + xTimerPeriodInTicks tm' in
  exists x' C' O',
    prvInsertTimerInActiveList t (u32 r) (u32 now) (u32 e) (with_timers (<[t := tm']> (t_timers x)) x) =
      Some (r <=? now, x') /\
    aimed t tm' r x x' /\ tinv x' C' O' /\ placed t r now x' C O C' O'.
Proof.
  intros HT Ht Hact Hd Hp He Hn r.
  destruct (insert_run (with_timers (<[t:=tm']> (t_timers x)) x) C O t tm' e now) as (x1&C1&O1&E1&[S1 Q1 W1]&V1&T1&P1);
    [by eapply set_timer_inv|apply lookup_insert_eq|done..|].
  exists x1, C1, O1. split; [exact E1|]. split; [|by split]. split; [exact S1|].
  intros y. case_decide as Hy; [by subst|by apply W1].
Qed.

(** A timer that is set running at the word [v], when the time is [now]. *)
Lemma start_run x C O t tm v now : tinv x C O -> t_timers x !! t = Some tm -> detached (t_lists x) t ->
  0 <= v < 2 ^ 32 -> 0 <= now < 2 ^ 32 ->
  exists x' C' O', (_ ← set_timer t (set_status tmrSTATUS_IS_ACTIVE);
      tm ← get_timer t;
      expired ← prvInsertTimerInActiveList t (u32 (v + xTimerPeriodInTicks tm)) now v;
      when expired (reload_or_stop t (u32 (v + xTimerPeriodInTicks tm)) now)) x = Some (tt, x') /\
    tinv x' C' O' /\ command_done START v now tm t x x' C O C' O'.
Proof.
  intros HT Ht Hd Hv Hn. destruct (ti_timer _ _ _ HT t tm Ht) as [Hp _].
  destruct (true_now_ok v now Hv Hn) as (Ev&En&Hle&Hlt). set (nw := true_now v now) in *.
  set (on := set_status tmrSTATUS_IS_ACTIVE tm).
  assert (Hact : active on) by (by apply status_set).
  destruct (armed_run x C O t tm on v nw HT Ht Hact Hd Hp ltac:(lia) Hlt) as (x1&C1&O1&E1&A1&T1&P1).
  change (xTimerPeriodInTicks on) with (xTimerPeriodInTicks tm) in *.
  rewrite (bind_run _ _ _ _ _ (set_timer_run x t tm _ Ht)). fold on.
  rewrite (get_timer_bind _ t on) by apply lookup_insert_eq.
  change (xTimerPeriodInTicks on) with (xTimerPeriodInTicks tm).
  rewrite Ev, En in E1. rewrite (bind_run _ _ _ _ _ E1).
  unfold command_done. fold on nw. destruct (v + xTimerPeriodInTicks tm <=? nw) eqn:Edue; cbn [when].
  - unfold placed in P1. rewrite Edue in P1. destruct P1 as (->&->&Hd1).
    apply Z.leb_le in Edue.
    destruct (reload_or_stop_run x1 C O t on (v + xTimerPeriodInTicks tm) nw T1) as (x2&C2&O2&E2&X);
      [rewrite (proj1 A1); apply lookup_insert_eq|done|done|lia|lia|].
    rewrite En in E2. exists x2, C2, O2. split; [done|]. split; [apply (ex_inv _ _ _ _ _ _ _ _ _ _ X)|].
    by exists x1.
  - eexists _, C1, O1. split; [done|]. split; [done|]. by exists x1.
Qed.

(** [x'] is [x] with timer [t] in no list. *)
Definition unlisted (t : Z) (x x' : tsys E) (C O C' O' : alist) : Prop :=
  x' = with_lists (t_lists x') x /\ detached (t_lists x') t /\
  (forall y, vals (t_lists x') y = vals (t_lists x) y) /\ elems C' = others t C /\ elems O' = others t O.

Lemma message_run x C O m now tm : tinv x C O -> t_timers x !! msg_pxTimer m = Some tm ->
  value_ok (xMessageID m) (xMessageValue m) -> 0 <= now < 2 ^ 32 ->
  exists x0 C0 O0 x1 C1 O1 x' C' O', process_message m now x = Some (tt, x') /\
    unlisted (msg_pxTimer m) x x0 C O C0 O0 /\ sampled now x0 x1 C0 O0 C1 O1 /\
    command_done (xMessageID m) (xMessageValue m) now tm (msg_pxTimer m) x1 x' C1 O1 C' O' /\
    tinv x0 C0 O0 /\ tinv x1 C1 O1 /\ tinv x' C' O'.
Proof.
  intros HT Ht [Hv Hper] Hn. destruct m as [isr c v t]. cbn [msg_pxTimer xMessageID xMessageValue] in *.
  destruct (message_unlist x C O t tm HT Ht) as (x0&C0&O0&E0&T0&Hd0&U0).
  destruct (sample_run x0 C0 O0 now T0) as (x1&C1&O1&E1&T1&S1&Hk).
  destruct (Hk t tm) as [Ht1 Hd1]; [by rewrite (proj1 U0)|done|].
  assert (Hdone : exists x' C' O', process_message (TimerCommand isr c v t) now x = Some (tt, x') /\
    tinv x' C' O' /\ command_done c v now tm t x1 x' C1 O1 C' O').
  2:{ destruct Hdone as (x'&C'&O'&E'&T'&D'). exists x0, C0, O0, x1, C1, O1, x', C', O'. split; [exact E'|]. split; [by destruct U0|].
    by split. }
  destruct (ti_timer _ _ _ T1 t tm Ht1) as [Hp _]. unfold process_message. rewrite E0, (bind_run _ _ _ _ _ E1).
  pose proof (start_run x1 C1 O1 t tm v now T1 Ht1 Hd1 Hv Hn) as Hstart.
  destruct c; [exact Hstart|exact Hstart| | |]; unfold command_done.
  - eexists _, C1, O1. split; [by apply set_timer_run|]. split; [by eapply set_timer_inv|done].
  - specialize (Hper eq_refl). rewrite (bind_run _ _ _ _ _ (set_timer_run x1 t tm _ Ht1)), assert_bind by lia.
    set (tm' := with_period v (set_status tmrSTATUS_IS_ACTIVE tm)).
    assert (Hact : active tm') by (by apply (status_set tmrSTATUS_IS_ACTIVE tm)).
    destruct (armed_run x1 C1 O1 t tm tm' now now T1 Ht1 Hact Hd1) as (x3&C3&O3&E3&A3&T3&P3); [cbn; lia|lia|lia|].
    cbn [xTimerPeriodInTicks tm' with_period] in E3, A3, P3. rewrite (u32_small now Hn) in E3.
    exists x3, C3, O3. split; [by rewrite (bind_run _ _ _ _ _ E3)|]. by split.
  - rewrite (get_timer_bind x1 t tm _ Ht1). destruct (has_status tmrSTATUS_IS_STATICALLY_ALLOCATED tm).
    + eexists _, C1, O1. split; [by apply set_timer_run|]. split; [by eapply set_timer_inv|done].
    + eexists _, C1, O1. split; [reflexivity|]. split; [|done].
      destruct (detached_not_listed _ _ _ _ T1 Hd1) as [HnC HnO]. apply with_env_same.
      destruct T1 as [U1 U2 U3 U4 U5 U6 U7 U8 U9]. split; cbn; try done.
      * intros y Hy. destruct (U5 y Hy) as [H1 H2]. split; [|done]. rewrite lookup_delete_ne; [done|]. intros ->. tauto.
      * intros y tmy [_ Hy]%lookup_delete_Some. by apply U7.
      * rewrite map_size_delete_Some by (by eexists). lia.
Qed.

(** ** Creation *)

Lemma tinv_start x l1 l2 : t_timers x = ∅ -> l1 <> l2 -> (forall t, 0 <= vals (t_lists x) t < 2 ^ 32) ->
  exists x', prvCheckForValidListAndQueue l1 l2 x = Some (tt, x') /\ tinv x' (mkAList [] 0) (mkAList [] 0) /\
    t_timers x' = ∅ /\ t_env x' = t_env x /\ xLastTime x' = xLastTime x /\
    forall t, items (t_lists x') !! Item t = items (t_lists x) !! Item t.
Proof.
  intros Hm Hl Hv. eexists. split; [reflexivity|].
  assert (Ei : forall t s l, items (vListInitialise l s) !! Item t = items s !! Item t).
  { intros t s l. unfold vListInitialise. cbn. by rewrite lookup_insert_ne. }
  split; [|split_and!; try done; intros t; cbn [t_lists]; by rewrite !Ei].
  split; cbn [t_lists t_timers pxCurrentTimerList pxOverflowTimerList].
  - exact (proj2 (vListInitialise_empty (vListInitialise l1 (t_lists x)) l2) l1 _ Hl
      (proj1 (vListInitialise_empty (t_lists x) l1))).
  - exact (proj1 (vListInitialise_empty (vListInitialise l1 (t_lists x)) l2)).
  - done.
  - split; constructor.
  - intros t [Ht|Ht]; by apply not_elem_of_nil in Ht.
  - intros t Ht. by apply not_elem_of_nil in Ht.
  - intros t tm. by rewrite Hm.
  - intros t. unfold vals, val. rewrite !Ei. apply Hv.
  - by rewrite Hm.
Qed.

(** A timer in new memory, for which the store has an item. *)
Lemma tinv_create x C O t period auto id it : tinv x C O -> t_timers x !! t = None ->
  items (t_lists x) !! Item t = Some it -> 0 < period < 2 ^ 32 -> Z.of_nat (size (t_timers x)) + 1 < 2 ^ 31 ->
  exists x', prvInitialiseNewTimer t period auto id x = Some (tt, x') /\ tinv x' C O /\ detached (t_lists x') t /\
    t_timers x' = <[t := mkTimer period id (if auto then tmrSTATUS_IS_AUTORELOAD else 0)]> (t_timers x) /\
    t_env x' = t_env x /\ xLastTime x' = xLastTime x /\
    forall y, y <> t -> items (t_lists x') !! Item y = items (t_lists x) !! Item y.
Proof.
  intros HT Ht Hi Hp Hf. set (tm := mkTimer period id (if auto then tmrSTATUS_IS_AUTORELOAD else 0)).
  assert (HnC : t ∉ elems C /\ t ∉ elems O).
  { split; intros Hin; destruct (ti_active _ _ _ HT t) as [(?&E1&_) _]; by auto || congruence. }
  set (s' := mkStore (<[Item t := with_container None it]> (items (t_lists x))) (lists (t_lists x))).
  exists (with_timers (<[t := tm]> (t_timers x)) (with_lists s' x)). split.
  { unfold prvInitialiseNewTimer. rewrite assert_bind, update_bind by lia.
    erewrite bind_run; [|unfold lists_do, try_update, vListInitialiseItem, write_item; cbn [with_timers t_lists]; by rewrite Hi].
    fold s'. destruct auto; [|done]. cbn [when]. erewrite set_timer_run; [|apply lookup_insert_eq].
    cbn [with_lists with_timers t_timers]. unfold with_timers. cbn. by rewrite insert_insert_eq. }
  assert (Hd : detached s' t) by (unfold detached, cont; cbn; by rewrite lookup_insert_eq).
  assert (Hkeep : forall p, p <> Item t -> items s' !! p = items (t_lists x) !! p) by (intros; cbn; by rewrite lookup_insert_ne).
  assert (Hrep : forall l a, t ∉ elems a -> list_rep (t_lists x) l a -> list_rep s' l a).
  { intros l a Hta. apply list_rep_frame; [|done]. intros p Hpa. unfold nxt, prv, cont, val. rewrite Hkeep; [done|].
    intros ->. apply elem_of_cons in Hpa as [?|Hpa]; [done|]. apply list_elem_of_fmap in Hpa as (?&?&?). by simplify_eq. }
  assert (Hvals : forall y, vals s' y = vals (t_lists x) y).
  { intros y. unfold vals, val. cbn. rewrite lookup_insert. case_decide; [|done]. simplify_eq. by rewrite Hi. }
  destruct HT as [U1 U2 U3 [U4 U4'] U5 U6 U7 U8 U9]. split; [|split_and!; try done].
  - split; cbn [with_timers with_lists t_lists t_timers pxCurrentTimerList pxOverflowTimerList]; try done.
    + apply Hrep; tauto.
    + apply Hrep; tauto.
    + split; (eapply by_value_ext; [|done]); intros; apply Hvals.
    + intros y Hy. assert (y <> t) by (intros ->; tauto). unfold own. rewrite Hkeep by congruence.
      rewrite lookup_insert_ne by done. by apply U5.
    + intros y tmy. rewrite lookup_insert. case_decide as Hy.
      * intros Hty. injection Hty as <-. subst y. split; [done|]. by do 2 right.
      * intros Hty. destruct (U7 y tmy Hty) as [H1 H2]. split; [done|]. unfold detached, cont. rewrite Hkeep by congruence. done.
    + intros y. rewrite Hvals. apply U8.
    + rewrite map_size_insert_None by done. lia.
  - intros y Hy. cbn. rewrite lookup_insert_ne; [done|congruence].
Qed.

(** ** Properties *)

(** [prvInsertTimerInActiveList] decides by true time, although it sees
    tick counts modulo 2^32: with a command of the true time [cmd] and the
    present at most one run of the counter later, it says "expired" exactly
    when the deadline [cmd + period] has passed, and then leaves the lists as
    they are; else the timer is put, at its deadline, into the list of the run
    of the counter that the deadline falls in, and that list stays ordered. *)
Theorem prvInsertTimerInActiveList_exact x C O t tm cmd now : tinv x C O ->
  t_timers x !! t = Some tm -> active tm -> detached (t_lists x) t -> 0 <= cmd <= now -> now < cmd + 2 ^ 32 ->
  exists x' C' O',
    prvInsertTimerInActiveList t (u32 (cmd + xTimerPeriodInTicks tm)) (u32 now) (u32 cmd) x =
      Some (cmd + xTimerPeriodInTicks tm <=? now, x') /\
    only_lists t x x' /\ vals (t_lists x') t = u32 (cmd + xTimerPeriodInTicks tm) /\ tinv x' C' O' /\
    placed t (cmd + xTimerPeriodInTicks tm) now x' C O C' O'.
Proof. by apply insert_run. Qed.

(** [prvReloadTimer] returns, whatever the period: it calls the callback
    once for each further period that has passed and puts the timer, at its next
    expiry after the present, into the list of the run that this falls in. *)
Theorem prvReloadTimer_catches_up x C O t tm e now : tinv x C O ->
  t_timers x !! t = Some tm -> active tm -> detached (t_lists x) t -> 0 <= e <= now -> now < e + 2 ^ 32 ->
  let k := (now - e) / xTimerPeriodInTicks tm in
  exists x' C' O', prvReloadTimer t (u32 e) (u32 now) x = Some (tt, x') /\
    moved t (calls (Z.to_nat k) t (t_env x)) x x' /\
    vals (t_lists x') t = u32 (e + (k + 1) * xTimerPeriodInTicks tm) /\ tinv x' C' O' /\
    placed t (e + (k + 1) * xTimerPeriodInTicks tm) now x' C O C' O'.
Proof. by apply prvReloadTimer_run. Qed.

(** C18 — When the tick counter wraps, [prvSwitchTimerLists] returns after every
    timer of the ending run has expired, in the order of the list: each gets its
    callback, an auto-reload timer one for each period up to the last tick; a
    one-shot timer becomes inactive; the new current list holds exactly the
    timers of the old next list and the reloaded ones, and the next list is
    empty. *)
Theorem prvSwitchTimerLists_rollover x C O : tinv x C O ->
  exists x' C' O', prvSwitchTimerLists x = Some (tt, x') /\ elems O' = [] /\ tinv x' C' O' /\
    pxCurrentTimerList x' = pxOverflowTimerList x /\
    t_env x' = callbacks (t_timers x) (vals (t_lists x)) (elems C) (t_env x) /\
    (forall t, t ∈ elems C -> t_timers x' !! t = done_with <$> t_timers x !! t) /\
    (forall t, t ∉ elems C -> t_timers x' !! t = t_timers x !! t) /\
    (forall t, t ∈ elems C' <-> t ∈ elems O \/ reloads (t_timers x) (elems C) t) /\
    (forall t tm, reloads (t_timers x) (elems C) t -> t_timers x !! t = Some tm ->
       vals (t_lists x') t = u32 (next_expiry tm (vals (t_lists x) t) last_tick)).
Proof.
  intros HT. destruct (switch_run x C O HT) as (x'&C'&O'&E1&HO&HT'&[R1 R2 R3 R4 R5 R6 [R7 R8]]).
  exists x', C', O'. by split_and!.
Qed.

(** C17 — Every message for a timer that exists is carried out, in three steps.
    The timer leaves the list that it is in, and the others stay in their order;
    the time is read, and when the counter has wrapped every timer left in the
    ending run expires and the lists are switched; then the command takes effect.
    A start or reset counts from the sender's tick count, also when the counter
    has wrapped since: a deadline that has passed gives the callbacks due, and an
    auto-reload timer goes on at its next expiry; a later one puts the timer, at
    its deadline, into the present or the next list, the one of the run of the
    counter that it falls in.  A stop makes the timer inactive.  A change of period
    sets it running at the new period from now.  A delete frees a timer from the
    heap and makes any other inactive.  Nothing else changes, and after each step
    the lists are well formed, in order and hold exactly active timers. *)
Theorem process_message_spec x C O m now tm : tinv x C O -> t_timers x !! msg_pxTimer m = Some tm ->
  value_ok (xMessageID m) (xMessageValue m) -> 0 <= now < 2 ^ 32 ->
  exists x0 C0 O0 x1 C1 O1 x' C' O', process_message m now x = Some (tt, x') /\
    unlisted (msg_pxTimer m) x x0 C O C0 O0 /\ sampled now x0 x1 C0 O0 C1 O1 /\
    command_done (xMessageID m) (xMessageValue m) now tm (msg_pxTimer m) x1 x' C1 O1 C' O' /\
    tinv x0 C0 O0 /\ tinv x1 C1 O1 /\ tinv x' C' O'.
Proof. by apply message_run. Qed.
End timers.

(** ** Witnesses

    The lists at 1 and 2, and two timers: 10 reloads every 3 ticks, 11 is
    one-shot.  The environment is the log of the callbacks. *)

#[local] Instance log_env : TimerEnv (list Z) := {
  te_receive := fun _ => None; te_send := fun _ _ e => (true, e);
  te_callback := fun t e => e ++ [t]; te_free := fun _ e => e }.

Definition raw_item : ListItem_t := mkItem 0 (ListEnd 0) (ListEnd 0) 0 None.
Definition raw_sys : tsys (list Z) :=
  mkTsys (mkStore (list_to_map [(Item 10, raw_item); (Item 11, raw_item)]) ∅) ∅ 0 0 0 [].
Definition boot_prog : prog (tsys (list Z)) unit :=
  _ ← prvCheckForValidListAndQueue 1 2; _ ← prvInitialiseNewTimer 10 3 true 0; prvInitialiseNewTimer 11 5 false 0.
Definition boot_sys : tsys (list Z) := from_option snd raw_sys (boot_prog raw_sys).
Definition timer10 : Timer_t := mkTimer 3 0 tmrSTATUS_IS_AUTORELOAD.

Lemma boot_tinv : tinv boot_sys (mkAList [] 0) (mkAList [] 0) /\ t_timers boot_sys !! 10 = Some timer10 /\ detached (t_lists boot_sys) 10.
Proof.
  destruct (tinv_start raw_sys 1 2) as (x1&E1&T1&M1&_&_&I1); [done|done| |].
  { intros t. unfold vals, val. destruct (items (t_lists raw_sys) !! Item t) as [it|] eqn:Ei; [|cbn; lia].
    apply elem_of_list_to_map_2 in Ei. apply list_elem_of_In in Ei as [Ei|[Ei|[]]]; injection Ei as _ <-; cbn; lia. }
  destruct (tinv_create x1 _ _ 10 3 true 0 raw_item T1) as (x2&E2&T2&D2&M2&_&_&I2);
    [by rewrite M1|rewrite I1; reflexivity|lia|rewrite M1; reflexivity|].
  destruct (tinv_create x2 _ _ 11 5 false 0 raw_item T2) as (x3&E3&T3&D3&M3&_&_&I3);
    [rewrite M2, M1; reflexivity|rewrite I2, I1 by done; reflexivity|lia|rewrite M2, M1; reflexivity|].
  assert (Eb : boot_prog raw_sys = Some (tt, x3)).
  { unfold boot_prog. by rewrite (bind_run _ _ _ _ _ E1), (bind_run _ _ _ _ _ E2), E3. }
  assert (boot_sys = x3) as -> by (unfold boot_sys; by rewrite Eb).
  split; [exact T3|]. rewrite M3, M2, M1. split; [reflexivity|]. unfold detached, cont. rewrite I3 by done. exact D2.
Qed.

(** Timer 10, set running. *)
Definition on_sys : tsys (list Z) := with_timers (<[10 := set_status tmrSTATUS_IS_ACTIVE timer10]> (t_timers boot_sys)) boot_sys.

Lemma on_tinv : tinv on_sys (mkAList [] 0) (mkAList [] 0) /\
  t_timers on_sys !! 10 = Some (set_status tmrSTATUS_IS_ACTIVE timer10) /\ detached (t_lists on_sys) 10.
Proof.
  destruct boot_tinv as (HT&Ht&Hd). split; [|split; [apply lookup_insert_eq|exact Hd]].
  eapply set_timer_inv; [exact HT|exact Ht|exact Hd|]. cbn. lia.
Qed.

Lemma prvInsertTimerInActiveList_exact_witness : exists x' C' O',
  prvInsertTimerInActiveList 10 (u32 (2 ^ 32 - 1 + 3)) (u32 (2 ^ 32 - 1)) (u32 (2 ^ 32 - 1)) on_sys = Some (false, x') /\
  placed 10 (2 ^ 32 + 2) (2 ^ 32 - 1) x' (mkAList [] 0) (mkAList [] 0) C' O'.
Proof.
  destruct on_tinv as (HT&Ht&Hd).
  destruct (prvInsertTimerInActiveList_exact on_sys _ _ 10 _ (2 ^ 32 - 1) (2 ^ 32 - 1) HT Ht) as (x'&C'&O'&E&_&_&_&P);
    [reflexivity|exact Hd|lia|lia|].
  exists x', C', O'. split; [exact E|exact P].
Defined.

Lemma prvReloadTimer_catches_up_witness : exists x' C' O',
  prvReloadTimer 10 (u32 5) (u32 12) on_sys = Some (tt, x') /\ moved 10 [10; 10] on_sys x' /\
  vals (t_lists x') 10 = 14 /\ tinv x' C' O'.
Proof.
  destruct on_tinv as (HT&Ht&Hd).
  destruct (prvReloadTimer_catches_up on_sys _ _ 10 _ 5 12 HT Ht) as (x'&C'&O'&E&M&V&T&_);
    [reflexivity|exact Hd|lia|lia|].
  exists x', C', O'. split; [exact E|]. split; [exact M|]. split; [exact V|exact T].
Defined.

Lemma prvSwitchTimerLists_rollover_witness : exists x' C' O',
  prvSwitchTimerLists on_sys = Some (tt, x') /\ elems O' = [] /\ tinv x' C' O'.
Proof.
  destruct (prvSwitchTimerLists_rollover on_sys _ _ (proj1 on_tinv)) as (x'&C'&O'&E&HO&T&_).
  exists x', C', O'. split; [exact E|]. split; [exact HO|exact T].
Defined.

(** Timer 10 started at the last tick of a run, and its message handled then: it
    goes into the list of the next run, and nobody is called. *)
Lemma process_message_spec_witness : exists x' C' O',
  process_message (TimerCommand false START (2 ^ 32 - 1) 10) (2 ^ 32 - 1) boot_sys = Some (tt, x') /\ tinv x' C' O' /\
  elems C' = [] /\ elems O' = [10] /\ vals (t_lists x') 10 = 2 /\ t_env x' = [].
Proof.
  destruct boot_tinv as (HT&Ht&_).
  destruct (process_message_spec boot_sys _ _ (TimerCommand false START (2 ^ 32 - 1) 10) (2 ^ 32 - 1) timer10 HT Ht)
    as (x0&C0&O0&x1&C1&O1&x'&C'&O'&E&U&S&D&_&_&T); [split; [cbn; lia|done]|lia|].
  destruct U as (U1&_&_&U4&U5), S as [_ S].
  assert (El : (2 ^ 32 - 1 <? xLastTime x0) = false) by (rewrite U1; reflexivity).
  rewrite El in S. destruct S as (S1&->&->).
  destruct D as (xe&[A1 A2]&->&->&[n P]).
  assert (E0 : t_env xe = []) by (rewrite A1, S1, U1; reflexivity).
  exists xe, C0, O'. split; [exact E|]. split; [exact T|]. split; [exact U4|]. split; [|split; [exact (A2 10)|exact E0]].
  rewrite P. cbn [ainsert elems]. rewrite U5. by destruct n.
Defined.
