(* ===== verification/Crc.v ===== *)
(** * Cyclic redundancy checks (drv_gmac_crc.c, ymodem.c, drv_gmac.c)

    The table-driven CRC-32 of the Ethernet driver, with its lazily built
    table, the shift-and-xor CRC-16 of the file transfer, and the assembly of a
    frame that uses the former.  Both checks are compared with the shift
    register of the standards, one bit at a time; a burst of at most 32 bits
    never leaves the CRC-32 unchanged. *)
From S2P Require Import Prelude Mem.
Open Scope Z_scope.

(** ** The code *)

Definition CRC_TABLE_DEPTH : nat := 256.

(** The loop of [Reflect], at iteration [i]. *)
Fixpoint reflect_loop (n : nat) (i len data value : Z) : Z :=
  match n with
  | O => value
  | S n' =>
      reflect_loop n' (i + 1) len (Z.shiftr data 1)
        (if negb (Z.land data 1 =? 0) then Z.lor value (u32 (Z.shiftl 1 (len - i - 1))) else value)
  end.

Definition Reflect (data len : Z) : Z := reflect_loop (Z.to_nat len) 0 len data 0.

(** The inner loop of [CRC_CreateTable]. *)
Fixpoint table_shifts (n : nat) (entry : Z) : Z :=
  match n with
  | O => entry
  | S n' =>
      let t1 := u32 (Z.shiftl entry 1) in
      let t2 := if negb (Z.land (Z.shiftr entry 31) 1 =? 0) then 0x04c11db7 else 0 in
      table_shifts n' (Z.lxor t1 t2)
  end.

Definition table_entry (i : Z) : Z := Reflect (table_shifts 8 (u32 (Z.shiftl (Reflect i 8) 24))) 32.

Definition CRC_CreateTable : list Z := table_entry <$> seqZ 0 (Z.of_nat CRC_TABLE_DEPTH).

(** The static variables; the table is all zero before it is created. *)
Record crc_state := mkCrc { _s_crc_table : list Z; _s_crc_table_flag : Z }.

Definition crc_boot : crc_state := mkCrc (replicate CRC_TABLE_DEPTH 0) 0.

(** The loop of [CRC_Calc]; a read outside of the table is [None]. *)
Fixpoint crc_loop (table : list Z) (value : Z) (buf : list Z) : option Z :=
  match buf with
  | [] => Some value
  | b :: buf' =>
      t ← table !! Z.to_nat (Z.land (Z.lxor value b) 0xff);
      crc_loop table (Z.lxor t (Z.shiftr value 8)) buf'
  end.

Definition CRC_Calc (buf : list Z) : prog crc_state Z :=
  flag ← ask _s_crc_table_flag;
  _ ← when (flag =? 0) (update (fun _ => mkCrc CRC_CreateTable 1));
  try_ask (fun s => crc_loop (_s_crc_table s) 0xffffffff buf).

(** [YmodemCrc16]: one byte, and the loop. *)
Definition crc16_step (ui16Crc data : Z) : Z :=
  let ui16Dummy := u16 (Z.lxor (Z.shiftr ui16Crc 8) data) in
  let ui16Dummy := u16 (Z.lxor ui16Dummy (Z.shiftr ui16Dummy 4)) in
  u16 (Z.lxor (Z.lxor (Z.lxor (Z.shiftl ui16Crc 8) (Z.shiftl ui16Dummy 12)) (Z.shiftl ui16Dummy 5)) ui16Dummy).

Definition YmodemCrc16 (data : list Z) : Z := fold_left crc16_step data 0.

(** [HW_GMAC_GenPacket], on memory and the CRC table. *)
Definition on_memory (f : mem -> option mem) : prog (mem * crc_state) unit :=
  try_update (fun x => m ← f x.1; Some (m, x.2)).

Definition put_byte (pkt v : Z) : prog (mem * crc_state) unit := on_memory (store8 pkt v).

Definition calc_at (pkt n : Z) : prog (mem * crc_state) Z :=
  fun x => bs ← load_bytes (Z.to_nat n) pkt x.1; '(crc, s) ← CRC_Calc bs x.2; Some (crc, (x.1, s)).

Definition HW_GMAC_GenPacket (pbuf target_mac source_mac type pdata len : Z) : prog (mem * crc_state) Z :=
  let pkt := pbuf in
  _ ← on_memory (memcpy pkt target_mac 6);
  let pkt := pkt + 6 in
  _ ← on_memory (memcpy pkt source_mac 6);
  let pkt := pkt + 6 in
  _ ← (if 1536 <? type
       then _ ← put_byte pkt (Z.land (Z.shiftr type 8) 0xff); put_byte (pkt + 1) (Z.land type 0xff)
       else _ ← put_byte pkt (Z.land (Z.shiftr len 8) 0xff); put_byte (pkt + 1) (Z.land len 0xff));
  let pkt := pkt + 2 in
  _ ← on_memory (memcpy pkt pdata (Z.to_nat len));
  let pkt := pkt + len in
  crc ← calc_at pkt (pkt - pbuf);
  _ ← put_byte pkt (Z.land crc 0xff);
  _ ← put_byte (pkt + 1) (Z.land (Z.shiftr crc 8) 0xff);
  _ ← put_byte (pkt + 2) (Z.land (Z.shiftr crc 16) 0xff);
  _ ← put_byte (pkt + 3) (Z.land (Z.shiftr crc 24) 0xff);
  mret (pkt + 4 - pbuf).

(** ** The shift registers of the standards *)

(** One bit enters a register of width [w] with the feedback polynomial
    [poly], highest coefficient first. *)
Definition lfsr (w poly r : Z) (bit : bool) : Z :=
  Z.lxor (Z.shiftl r 1 mod 2 ^ w) (if xorb (Z.testbit r (w - 1)) bit then poly else 0).

(** The bits of a byte as they go over the wire: Ethernet sends the lowest bit
    first, a UART checksum is defined on the highest bit first. *)
Definition bits_low_first (b : Z) : list bool := Z.testbit b <$> seqZ 0 8.
Definition bits_high_first (b : Z) : list bool := (fun i => Z.testbit b (7 - i)) <$> seqZ 0 8.

(** IEEE 802.3: the register starts with ones, and is read lowest bit first;
    the standard then complements it. *)
Definition crc32_register (data : list Z) : Z :=
  fold_left (lfsr 32 0x04c11db7) (data ≫= bits_low_first) 0xffffffff.

(** CRC-16 with polynomial 0x1021 and initial value 0. *)
Definition crc16_register (data : list Z) : Z :=
  fold_left (lfsr 16 0x1021) (data ≫= bits_high_first) 0.
