(* ===== verification/CrcProofs.v ===== *)
(** * Properties of the cyclic redundancy checks *)
From Stdlib Require Import Btauto.
From S2P Require Import Prelude Mem Crc.
Open Scope Z_scope.

(** ** Bits *)

Lemma word_bits w x i : 0 <= w -> 0 <= x < 2 ^ w -> w <= i -> Z.testbit x i = false.
Proof.
  intros Hw Hx Hi. destruct (Z.eq_dec x 0) as [->|Hne]; [apply Z.bits_0|].
  apply Z.bits_above_log2; [lia|]. apply Z.log2_lt_pow2; [lia|].
  eapply Z.lt_le_trans; [apply Hx|]. apply Z.pow_le_mono_r; lia.
Qed.

Lemma word_of_bits w x : 0 <= w -> 0 <= x -> (forall i, w <= i -> Z.testbit x i = false) -> 0 <= x < 2 ^ w.
Proof.
  intros Hw Hx H. split; [done|]. destruct (Z.eq_dec x 0) as [->|Hne]; [by apply Z.pow_pos_nonneg; lia|].
  apply Z.log2_lt_pow2; [lia|]. destruct (Z.lt_ge_cases (Z.log2 x) w) as [|Hge]; [done|].
  specialize (H _ Hge). rewrite Z.bit_log2 in H by lia. done.
Qed.

Lemma lxor_range w x y : 0 <= w -> 0 <= x < 2 ^ w -> 0 <= y < 2 ^ w -> 0 <= Z.lxor x y < 2 ^ w.
Proof.
  intros Hw Hx Hy. apply word_of_bits; [done|apply Z.lxor_nonneg; lia|].
  intros i Hi. rewrite Z.lxor_spec, !(word_bits w) by done. done.
Qed.

Lemma same_word w x y : 0 <= w -> 0 <= x < 2 ^ w -> 0 <= y < 2 ^ w ->
  (forall i, 0 <= i < w -> Z.testbit x i = Z.testbit y i) -> x = y.
Proof.
  intros Hw Hx Hy H. apply Z.bits_inj'. intros i Hi. destruct (Z.lt_ge_cases i w); [by apply H|].
  by rewrite !(word_bits w).
Qed.

Lemma mod_lxor w x y : 0 <= w -> Z.lxor x y mod 2 ^ w = Z.lxor (x mod 2 ^ w) (y mod 2 ^ w).
Proof.
  intros Hw. apply Z.bits_inj'. intros i Hi. rewrite Z.lxor_spec, !Z.testbit_mod_pow2, Z.lxor_spec by done. btauto.
Qed.

Lemma shiftl_lxor x y n : Z.shiftl (Z.lxor x y) n = Z.lxor (Z.shiftl x n) (Z.shiftl y n).
Proof. apply Z.shiftl_lxor. Qed.

(** ** The registers *)

Section lfsr.
#[local] Set Default Proof Using "All".
Context (w poly : Z) (Hw : 0 < w) (Hpoly : 0 <= poly < 2 ^ w).

Lemma lfsr_range r b : 0 <= lfsr w poly r b < 2 ^ w.
Proof.
  apply lxor_range; [lia|apply Z.mod_pos_bound; lia|]. destruct (xorb _ _); lia.
Qed.

Lemma lfsr_lxor r1 r2 b1 b2 :
  lfsr w poly (Z.lxor r1 r2) (xorb b1 b2) = Z.lxor (lfsr w poly r1 b1) (lfsr w poly r2 b2).
Proof.
  unfold lfsr. rewrite shiftl_lxor, mod_lxor, Z.lxor_spec by lia.
  apply Z.bits_inj'. intros i Hi. rewrite !Z.lxor_spec.
  destruct (Z.testbit r1 (w - 1)), (Z.testbit r2 (w - 1)), b1, b2; cbn [xorb]; rewrite ?Z.bits_0; btauto.
Qed.

(** Two streams of bits entering two registers. *)
Lemma lfsr_stream_lxor r1 r2 bs1 bs2 : length bs1 = length bs2 ->
  fold_left (lfsr w poly) (zip_with xorb bs1 bs2) (Z.lxor r1 r2) =
  Z.lxor (fold_left (lfsr w poly) bs1 r1) (fold_left (lfsr w poly) bs2 r2).
Proof.
  revert bs2 r1 r2. induction bs1 as [|b1 bs1 IH]; intros [|b2 bs2] r1 r2 [=]; [done|].
  cbn [zip_with fold_left]. rewrite lfsr_lxor. by apply IH.
Qed.
End lfsr.

(** ** Reflection *)

Lemma land1_odd x : negb (Z.land x 1 =? 0) = Z.testbit x 0.
Proof.
  change 1 with (Z.ones 1) at 1. rewrite Z.land_ones by lia. rewrite Z.bit0_eqb. change (2 ^ 1) with 2.
  pose proof (Z.mod_pos_bound x 2 ltac:(lia)).
  destruct (Z.eqb_spec (x mod 2) 0), (Z.eqb_spec (x mod 2) 1); cbn; lia || done.
Qed.

Lemma reflect_loop_spec n i len data value j :
  0 <= i -> i + Z.of_nat n = len -> len <= 32 -> 0 <= j ->
  Z.testbit (reflect_loop n i len data value) j =
    Z.testbit value j || ((0 <=? len - i - 1 - j) && (len - i - 1 - j <? Z.of_nat n) &&
                          Z.testbit data (len - i - 1 - j)).
Proof.
  revert i data value. induction n as [|n IH]; intros i data value Hi Hlen H32 Hj; cbn [reflect_loop].
  { destruct (Z.leb_spec 0 (len - i - 1 - j)), (Z.ltb_spec (len - i - 1 - j) (Z.of_nat 0)); try lia;
      by rewrite ?andb_false_r, ?orb_false_r. }
  rewrite IH, land1_odd by lia.
  assert (Hset : Z.testbit (if Z.testbit data 0 then Z.lor value (u32 (Z.shiftl 1 (len - i - 1))) else value) j =
    Z.testbit value j || ((len - i - 1 - j =? 0) && Z.testbit data 0)).
  { destruct (Z.testbit data 0); [|by rewrite andb_false_r, orb_false_r].
    rewrite Z.lor_spec, andb_true_r. f_equal. unfold u32. rewrite Z.testbit_mod_pow2, Z.shiftl_spec by lia.
    destruct (Z.eqb_spec (len - i - 1 - j) 0); [|].
    - replace (j - (len - i - 1)) with 0 by lia. destruct (Z.ltb_spec j 32); [done|lia].
    - destruct (Z.lt_ge_cases j (len - i - 1)); [rewrite Z.testbit_neg_r by lia; apply andb_false_r|].
      rewrite (word_bits 1 1) by lia. apply andb_false_r. }
  rewrite Hset. destruct (Z.eqb_spec (len - i - 1 - j) 0) as [E|Hne].
  - rewrite E. change (0 <=? 0) with true. rewrite (proj2 (Z.ltb_lt 0 (Z.of_nat (S n)))) by lia.
    destruct (Z.leb_spec 0 (len - (i + 1) - 1 - j)); [lia|]. cbn. btauto.
  - cbn [andb]. rewrite orb_false_r. f_equal.
    destruct (Z.leb_spec 0 (len - (i + 1) - 1 - j)), (Z.leb_spec 0 (len - i - 1 - j)),
      (Z.ltb_spec (len - (i + 1) - 1 - j) (Z.of_nat n)), (Z.ltb_spec (len - i - 1 - j) (Z.of_nat (S n)));
      try lia; try done.
    cbn [andb]. rewrite Z.shiftr_spec by lia. f_equal. lia.
Qed.

(** [Reflect] reverses the lowest [len] bits. *)
Lemma Reflect_bit data len j : 0 <= len <= 32 -> 0 <= j ->
  Z.testbit (Reflect data len) j = (j <? len) && Z.testbit data (len - 1 - j).
Proof.
  intros Hlen Hj. unfold Reflect. rewrite reflect_loop_spec by lia. rewrite Z.bits_0, Z2Nat.id by lia. cbn [orb].
  replace (len - 0 - 1 - j) with (len - 1 - j) by lia.
  destruct (Z.leb_spec 0 (len - 1 - j)), (Z.ltb_spec (len - 1 - j) len), (Z.ltb_spec j len); lia || done.
Qed.

Lemma reflect_loop_nonneg n i len data value : 0 <= value -> 0 <= reflect_loop n i len data value.
Proof.
  revert i data value. induction n as [|n IH]; intros i data value Hv; cbn [reflect_loop]; [done|].
  apply IH. destruct (negb _); [|done]. apply Z.lor_nonneg. split; [done|]. apply u32_range.
Qed.

Lemma Reflect_range data len : 0 <= len <= 32 -> 0 <= Reflect data len < 2 ^ len.
Proof.
  intros Hlen. apply word_of_bits; [lia|by apply reflect_loop_nonneg|].
  intros i Hi. rewrite Reflect_bit by lia. by destruct (Z.ltb_spec i len); [lia|].
Qed.

(** ** The reflected register *)

Definition reflected_poly : Z := 0xedb88320.

Definition rstep (c : Z) : Z := Z.lxor (Z.shiftr c 1) (if Z.testbit c 0 then reflected_poly else 0).

Lemma poly_reflected i : 0 <= i < 32 -> Z.testbit reflected_poly i = Z.testbit 0x04c11db7 (31 - i).
Proof.
  intros Hi. replace reflected_poly with (Reflect 0x04c11db7 32) by reflexivity.
  rewrite Reflect_bit by lia. destruct (Z.ltb_spec i 32); [|lia]. cbn [andb]. f_equal.
Qed.

Lemma shiftr_range w x n : 0 <= n <= w -> 0 <= x < 2 ^ w -> 0 <= Z.shiftr x n < 2 ^ (w - n).
Proof.
  intros Hn Hx. rewrite Z.shiftr_div_pow2 by lia. pose proof (Z.pow_pos_nonneg 2 n ltac:(lia) ltac:(lia)).
  split; [apply Z.div_pos; lia|]. apply Z.div_lt_upper_bound; [lia|]. rewrite <- Z.pow_add_r by lia.
  replace (n + (w - n)) with w by lia. lia.
Qed.

Lemma rstep_range c : 0 <= c < 2 ^ 32 -> 0 <= rstep c < 2 ^ 32.
Proof.
  intros Hc. apply lxor_range; [lia| |by destruct (Z.testbit c 0); unfold reflected_poly; lia].
  pose proof (shiftr_range 32 c 1 ltac:(lia) Hc). lia.
Qed.

Lemma reflect_lfsr r b : 0 <= r < 2 ^ 32 ->
  Reflect (lfsr 32 0x04c11db7 r b) 32 = rstep (Z.lxor (Reflect r 32) (Z.b2z b)).
Proof.
  intros Hr. apply (same_word 32); [lia|by apply Reflect_range| |].
  { apply rstep_range. apply lxor_range; [lia|by apply Reflect_range|by destruct b]. }
  intros i Hi. rewrite Reflect_bit by lia. destruct (Z.ltb_spec i 32) as [_|]; [cbn [andb]|lia].
  assert (Hb : forall j, 0 < j -> Z.testbit (Z.b2z b) j = false).
  { intros j Hj. apply (word_bits 1); [lia| |lia]. by destruct b. }
  unfold lfsr, rstep. rewrite !Z.lxor_spec, Z.testbit_mod_pow2, Z.shiftl_spec, Z.shiftr_spec by lia.
  rewrite !Z.lxor_spec, !Reflect_bit, Hb, Z.b2z_bit0 by lia.
  change (32 - 1 - 0) with 31. change (32 - 1) with 31. change (0 <? 32) with true.
  replace (31 - i - 1) with (31 - (i + 1)) by lia.
  replace (31 - i <? 32) with true by (symmetry; apply Z.ltb_lt; lia). cbn [andb]. rewrite xorb_false_r.
  f_equal.
  - destruct (Z.ltb_spec (i + 1) 32); [done|]. cbn [andb]. apply Z.testbit_neg_r. lia.
  - destruct (xorb _ _); [|by rewrite !Z.bits_0]. by rewrite poly_reflected.
Qed.

Lemma rstep_lxor x y : rstep (Z.lxor x y) = Z.lxor (rstep x) (rstep y).
Proof.
  unfold rstep. rewrite Z.shiftr_lxor, Z.lxor_spec. apply Z.bits_inj'. intros i Hi. rewrite !Z.lxor_spec.
  destruct (Z.testbit x 0), (Z.testbit y 0); cbn [xorb]; rewrite ?Z.bits_0; btauto.
Qed.

Lemma rstep_even y : rstep (Z.shiftl y 1) = y.
Proof.
  unfold rstep. rewrite Z.shiftr_shiftl_l by lia. rewrite Z.shiftl_spec by lia.
  rewrite Z.testbit_neg_r by lia. by rewrite Z.lxor_0_r.
Qed.

Lemma rstep_nonzero c : 0 < c < 2 ^ 32 -> rstep c <> 0.
Proof.
  intros Hc. destruct (Z.testbit c 0) eqn:E; unfold rstep; rewrite E.
  - intros H. apply (f_equal (fun x => Z.testbit x 31)) in H.
    rewrite Z.lxor_spec, Z.shiftr_spec, (word_bits 32 c) in H by lia. by vm_compute in H.
  - rewrite Z.lxor_0_r, Z.shiftr_div_pow2 by lia. rewrite Z.bit0_eqb in E. change (2 ^ 1) with 2.
    apply Z.eqb_neq in E. dlia.
Qed.

Definition rsteps (n : nat) (c : Z) : Z := Nat.iter n rstep c.

Lemma rsteps_S n c : rsteps (S n) c = rsteps n (rstep c).
Proof. unfold rsteps. by rewrite <- Nat.iter_succ_r. Qed.

Lemma rsteps_add n k c : rsteps (n + k) c = rsteps n (rsteps k c).
Proof. unfold rsteps. apply Nat.iter_add. Qed.

Lemma rsteps_range n c : 0 <= c < 2 ^ 32 -> 0 <= rsteps n c < 2 ^ 32.
Proof. revert c. induction n as [|n IH]; intros c Hc; [done|]. rewrite rsteps_S. by apply IH, rstep_range. Qed.

Lemma rsteps_lxor n x y : rsteps n (Z.lxor x y) = Z.lxor (rsteps n x) (rsteps n y).
Proof.
  revert x y. induction n as [|n IH]; intros x y; [done|]. by rewrite !rsteps_S, rstep_lxor, IH.
Qed.

Lemma rsteps_shift n y : rsteps n (Z.shiftl y (Z.of_nat n)) = y.
Proof.
  revert y. induction n as [|n IH]; intros y; [apply Z.shiftl_0_r|].
  rewrite rsteps_S, Nat2Z.inj_succ, <- Z.add_1_r, <- Z.shiftl_shiftl by lia. by rewrite rstep_even.
Qed.

Lemma rsteps_byte y : rsteps 8 (Z.shiftl y 8) = y.
Proof. apply (rsteps_shift 8). Qed.

Lemma rsteps_nonzero n c : 0 < c < 2 ^ 32 -> rsteps n c <> 0.
Proof.
  revert c. induction n as [|n IH]; intros c Hc; [cbn; lia|]. rewrite rsteps_S. apply IH.
  pose proof (rstep_nonzero c Hc). pose proof (rstep_range c ltac:(lia)). lia.
Qed.

(** ** Streams of bits *)

Fixpoint bits_value (bs : list bool) : Z :=
  match bs with [] => 0 | b :: bs' => Z.b2z b + 2 * bits_value bs' end.

Lemma b2z_lxor b v : Z.b2z b + 2 * v = Z.lxor (Z.b2z b) (Z.shiftl v 1).
Proof.
  rewrite Z.shiftl_mul_pow2 by lia. change (2 ^ 1) with 2. rewrite <- Z.add_nocarry_lxor; [lia|].
  apply Z.bits_inj'. intros i Hi. rewrite Z.land_spec, Z.bits_0.
  destruct (Z.eq_dec i 0) as [->|Hne].
  - rewrite Z.mul_comm, Z.testbit_even_0. apply andb_false_r.
  - rewrite (word_bits 1 (Z.b2z b)); [done|lia|by destruct b|lia].
Qed.

Lemma lfsr32_range r b : 0 <= lfsr 32 0x04c11db7 r b < 2 ^ 32.
Proof. apply (lfsr_range 32); lia. Qed.

Lemma reflect_stream bs r : 0 <= r < 2 ^ 32 ->
  Reflect (fold_left (lfsr 32 0x04c11db7) bs r) 32 =
  rsteps (length bs) (Z.lxor (Reflect r 32) (bits_value bs)).
Proof.
  revert r. induction bs as [|b bs IH]; intros r Hr; cbn [fold_left length bits_value].
  { rewrite Z.lxor_0_r. exact eq_refl. }
  rewrite (IH (lfsr 32 0x04c11db7 r b)) by apply lfsr32_range.
  rewrite reflect_lfsr, rsteps_S, b2z_lxor, <- Z.lxor_assoc by exact Hr.
  rewrite (rstep_lxor _ (Z.shiftl _ _)), rstep_even. exact eq_refl.
Qed.

Definition bytes : list Z := seqZ 0 256.

Lemma every_byte (P : Z -> Prop) `{Hdec : !forall b, Decision (P b)} b :
  forallb (fun b => bool_decide (P b)) bytes = true -> byte_ok b -> P b.
Proof.
  intros Hall Hb. rewrite forallb_forall in Hall. apply (bool_decide_unpack (P b)).
  rewrite Hall; [done|]. apply list_elem_of_In, elem_of_seqZ. unfold byte_ok in Hb. lia.
Qed.

Lemma bits_value_app bs1 bs2 :
  bits_value (bs1 ++ bs2) = bits_value bs1 + 2 ^ Z.of_nat (length bs1) * bits_value bs2.
Proof.
  induction bs1 as [|b bs1 IH]; cbn [app bits_value length]; [rewrite Z.mul_1_l; lia|].
  rewrite IH, Nat2Z.inj_succ, Z.pow_succ_r by lia. ring.
Qed.

Lemma bits_of_byte b : byte_ok b -> bits_value (bits_low_first b) = b.
Proof. apply (every_byte (fun b => bits_value (bits_low_first b) = b)). by vm_compute. Qed.

Lemma stream_value data : Forall byte_ok data ->
  bits_value (data ≫= bits_low_first) = le_combine data /\
  length (data ≫= bits_low_first) = (8 * length data)%nat.
Proof.
  induction 1 as [|b data Hb _ [IH1 IH2]]; [done|].
  cbn [le_combine]. rewrite bind_cons, bits_value_app, length_app, bits_of_byte by done. split.
  - change (length (bits_low_first b)) with 8%nat. change (2 ^ Z.of_nat 8) with 256. by rewrite IH1.
  - rewrite IH2. change (length (bits_low_first b)) with 8%nat. cbn [length]. lia.
Qed.

(** The reference in one formula. *)
Lemma crc32_register_value data : Forall byte_ok data ->
  Reflect (crc32_register data) 32 = rsteps (8 * length data) (Z.lxor 0xffffffff (le_combine data)).
Proof.
  intros Hd. destruct (stream_value data Hd) as [E1 E2]. unfold crc32_register.
  rewrite reflect_stream, E1, E2 by lia.
  replace (Reflect 0xffffffff 32) with 0xffffffff by (by vm_compute). exact eq_refl.
Qed.

(** ** The table *)

Lemma table_lookup b : byte_ok b -> CRC_CreateTable !! Z.to_nat b = Some (rsteps 8 b).
Proof. apply (every_byte (fun b => CRC_CreateTable !! Z.to_nat b = Some (rsteps 8 b))). by vm_compute. Qed.

(** The low byte of a word and the rest. *)
Lemma low_byte v : Z.lxor (Z.land v 0xff) (Z.shiftl (Z.shiftr v 8) 8) = v.
Proof.
  apply Z.bits_inj'. intros i Hi. rewrite Z.lxor_spec, Z.land_spec, Z.shiftl_spec by lia.
  change 0xff with (Z.ones 8). rewrite Z.testbit_ones_nonneg by lia. destruct (Z.ltb_spec i 8).
  - rewrite (Z.testbit_neg_r _ (i - 8)) by lia. btauto.
  - rewrite Z.shiftr_spec by lia. replace (i - 8 + 8) with i by lia. btauto.
Qed.

Lemma land_byte v : byte_ok (Z.land v 0xff).
Proof. change 0xff with (Z.ones 8). rewrite Z.land_ones by lia. apply Z.mod_pos_bound. lia. Qed.

Lemma shiftr_byte v b : byte_ok b -> Z.shiftr (Z.lxor v b) 8 = Z.shiftr v 8.
Proof.
  intros Hb. rewrite Z.shiftr_lxor. rewrite (Z.shiftr_div_pow2 b), Z.div_small, Z.lxor_0_r by (unfold byte_ok in Hb; lia).
  done.
Qed.

Lemma table_step v b : byte_ok b ->
  exists t, CRC_CreateTable !! Z.to_nat (Z.land (Z.lxor v b) 0xff) = Some t /\
    Z.lxor t (Z.shiftr v 8) = rsteps 8 (Z.lxor v b).
Proof.
  intros Hb. eexists. split; [apply table_lookup, land_byte|].
  rewrite <- (low_byte (Z.lxor v b)) at 2. rewrite rsteps_lxor, (shiftr_byte v b Hb).
  by rewrite rsteps_byte.
Qed.

Lemma lxor_combine v b data : byte_ok b ->
  Z.lxor v (le_combine (b :: data)) = Z.lxor (Z.lxor v b) (Z.shiftl (le_combine data) 8).
Proof.
  intros Hb. cbn [le_combine]. rewrite Z.lxor_assoc. f_equal.
  rewrite Z.shiftl_mul_pow2, Z.mul_comm by lia. change (2 ^ 8) with 256.
  rewrite <- Z.add_nocarry_lxor; [done|]. apply Z.bits_inj'. intros i Hi. rewrite Z.land_spec, Z.bits_0.
  change 256 with (2 ^ 8). destruct (Z.lt_ge_cases i 8).
  - rewrite Z.mul_pow2_bits_low by lia. apply andb_false_r.
  - by rewrite (word_bits 8 b) by (unfold byte_ok in Hb; lia).
Qed.

Lemma crc_loop_value data v : Forall byte_ok data ->
  crc_loop CRC_CreateTable v data = Some (rsteps (8 * length data) (Z.lxor v (le_combine data))).
Proof.
  intros Hd. revert v. induction Hd as [|b data Hb _ IH]; intros v; cbn [crc_loop].
  { cbn [le_combine length]. by rewrite Z.lxor_0_r. }
  destruct (table_step v b Hb) as (t&Et&Ev). rewrite Et. cbn [mbind option_bind]. rewrite Ev, IH, lxor_combine by done.
  cbn [length]. replace (8 * S (length data))%nat with (8 * length data + 8)%nat by lia.
  rewrite rsteps_add, (rsteps_lxor 8 (Z.lxor v b)), rsteps_byte. done.
Qed.

(** ** The CRC-32 of the driver *)

(** The flag says that the table has been built. *)
Definition crc_ok (s : crc_state) : Prop := _s_crc_table_flag s = 0 \/ _s_crc_table s = CRC_CreateTable.

Lemma CRC_Calc_run buf s : crc_ok s -> Forall byte_ok buf ->
  exists s', CRC_Calc buf s = Some (rsteps (8 * length buf) (Z.lxor 0xffffffff (le_combine buf)), s') /\ crc_ok s'.
Proof.
  intros Hs Hb. unfold CRC_Calc. rewrite ask_bind.
  destruct (Z.eqb_spec (_s_crc_table_flag s) 0) as [E|E]; cbn [when].
  - exists (mkCrc CRC_CreateTable 1). rewrite update_bind. unfold try_ask. cbn [_s_crc_table].
    rewrite crc_loop_value by done. split; [exact eq_refl|by right].
  - exists s. rewrite ret_bind. unfold try_ask. destruct Hs as [Hs|Hs]; [done|].
    rewrite Hs, crc_loop_value by done. split; [exact eq_refl|by right].
Qed.

(** C19 — [CRC_Calc], whether its table has been built or not, computes the checksum
    of the shift register of IEEE 802.3, read lowest bit first, without the
    final complement. *)
Theorem CRC_Calc_register (buf : list Z) (s : crc_state) : crc_ok s -> Forall byte_ok buf ->
  exists s', CRC_Calc buf s = Some (Reflect (crc32_register buf) 32, s') /\ crc_ok s'.
Proof. intros Hs Hb. rewrite crc32_register_value by done. by apply CRC_Calc_run. Qed.

(** The string 123456789. *)
Definition check_bytes : list Z := seqZ 49 9.

Lemma crc_boot_ok : crc_ok crc_boot.
Proof. by left. Qed.

Lemma check_bytes_ok : Forall byte_ok check_bytes.
Proof. by apply (bool_decide_unpack _). Qed.

(** The check value of the standard is 0xcbf43926; this is its complement. *)
Lemma CRC_Calc_register_witness :
  exists s', CRC_Calc check_bytes crc_boot = Some (Z.lxor 0xcbf43926 0xffffffff, s') /\ crc_ok s'.
Proof.
  destruct (CRC_Calc_register check_bytes crc_boot crc_boot_ok check_bytes_ok) as (s'&E&H).
  exists s'. split; [|exact H]. rewrite E.
  replace (Reflect (crc32_register check_bytes) 32) with (Z.lxor 0xcbf43926 0xffffffff) by (by vm_compute).
  exact eq_refl.
Defined.

(** Two buffers of the same length whose difference is a burst of at most 32
    bits, in the order of transmission and anywhere in the buffer, get
    different checksums. *)
Theorem CRC_Calc_burst (buf1 buf2 : list Z) (s : crc_state) (burst at_bit : Z) :
  crc_ok s -> Forall byte_ok buf1 -> Forall byte_ok buf2 -> length buf1 = length buf2 ->
  0 <= at_bit < 8 * Z.of_nat (length buf1) -> 0 < burst < 2 ^ 32 ->
  Z.lxor (le_combine buf1) (le_combine buf2) = Z.shiftl burst at_bit ->
  exists crc1 crc2 s', CRC_Calc buf1 s = Some (crc1, s') /\ CRC_Calc buf2 s = Some (crc2, s') /\ crc1 <> crc2.
Proof.
  intros Hs H1 H2 Hlen Hat Hburst Hdiff.
  destruct (CRC_Calc_run buf1 s Hs H1) as (s1&E1&_), (CRC_Calc_run buf2 s Hs H2) as (s2&E2&_).
  assert (s1 = s2) as <-.
  { unfold CRC_Calc in E1, E2. rewrite ask_bind in E1, E2.
    destruct (_s_crc_table_flag s =? 0); cbn [when] in E1, E2; rewrite ?update_bind, ?ret_bind in E1, E2;
      unfold try_ask in E1, E2; cbn [_s_crc_table] in E1, E2;
      destruct (crc_loop _ _ buf1), (crc_loop _ _ buf2); cbn [fmap option_fmap option_map] in E1, E2; congruence. }
  eexists _, _, s1. split; [exact E1|]. split; [exact E2|]. rewrite <- Hlen. intros E.
  apply Z.lxor_eq_0_iff in E. rewrite <- rsteps_lxor in E.
  replace (Z.lxor (Z.lxor 0xffffffff (le_combine buf1)) (Z.lxor 0xffffffff (le_combine buf2)))
    with (Z.shiftl burst at_bit) in E.
  2:{ rewrite <- Hdiff. apply Z.bits_inj'. intros i Hi. rewrite !Z.lxor_spec. btauto. }
  set (n := (8 * length buf1)%nat) in *. set (k := Z.to_nat at_bit).
  replace n with ((n - k) + k)%nat in E by lia. rewrite rsteps_add in E.
  replace at_bit with (Z.of_nat k) in E by lia. rewrite rsteps_shift in E.
  by apply (rsteps_nonzero (n - k) burst Hburst).
Qed.

Lemma CRC_Calc_burst_witness :
  exists crc1 crc2 s', CRC_Calc [1; 2; 3; 4; 5; 6] crc_boot = Some (crc1, s') /\
    CRC_Calc [1; 2 + 128; 3 + 64; 4; 5 + 8; 6] crc_boot = Some (crc2, s') /\ crc1 <> crc2.
Proof.
  apply (CRC_Calc_burst _ _ crc_boot (1 + 2 ^ 7 + 2 ^ 20) 15 crc_boot_ok);
    [by apply (bool_decide_unpack _)|by apply (bool_decide_unpack _)|by vm_compute|cbn; lia|lia|by vm_compute].
Defined.

(** ** The CRC-16 of the file transfer *)

Definition crc16_bits (r b : Z) : Z := fold_left (lfsr 16 0x1021) (bits_high_first b) r.

Lemma bits_lxor b1 b2 : zip_with xorb (bits_high_first b1) (bits_high_first b2) = bits_high_first (Z.lxor b1 b2).
Proof.
  unfold bits_high_first. induction (seqZ 0 8) as [|i l IH]; cbn [fmap list_fmap zip_with]; [done|].
  by rewrite Z.lxor_spec, <- IH.
Qed.

Lemma crc16_bits_lxor r1 r2 b1 b2 :
  crc16_bits (Z.lxor r1 r2) (Z.lxor b1 b2) = Z.lxor (crc16_bits r1 b1) (crc16_bits r2 b2).
Proof. unfold crc16_bits. rewrite <- bits_lxor. apply lfsr_stream_lxor; [lia|lia|done]. Qed.

Lemma crc16_low b : byte_ok b -> crc16_bits b 0 = Z.shiftl b 8.
Proof. apply (every_byte (fun b => crc16_bits b 0 = Z.shiftl b 8)). by vm_compute. Qed.

Lemma crc16_high b : byte_ok b -> crc16_bits (Z.shiftl b 8) 0 = crc16_bits 0 b.
Proof. apply (every_byte (fun b => crc16_bits (Z.shiftl b 8) 0 = crc16_bits 0 b)). by vm_compute. Qed.

Lemma crc16_dummy b : byte_ok b -> crc16_step 0 b = crc16_bits 0 b.
Proof. apply (every_byte (fun b => crc16_step 0 b = crc16_bits 0 b)). by vm_compute. Qed.

Lemma lxor_byte x y : byte_ok x -> byte_ok y -> byte_ok (Z.lxor x y).
Proof. apply (lxor_range 8). lia. Qed.

Lemma crc16_step_split c b : 0 <= c < 2 ^ 16 -> byte_ok b ->
  crc16_step c b = Z.lxor (crc16_step 0 (Z.lxor (Z.shiftr c 8) b)) (Z.shiftl (Z.land c 0xff) 8).
Proof.
  intros Hc Hb. unfold crc16_step. rewrite Z.shiftr_0_l, (Z.lxor_0_l (Z.lxor _ b)), Z.shiftl_0_l, (Z.lxor_0_l (Z.shiftl _ 12)).
  set (d := u16 (Z.lxor (Z.shiftr c 8) b)). set (d' := u16 (Z.lxor d (Z.shiftr d 4))).
  replace (Z.shiftl (Z.land c 0xff) 8) with (u16 (Z.shiftl c 8)).
  - unfold u16. rewrite <- mod_lxor by lia. f_equal. apply Z.bits_inj'. intros i Hi. rewrite !Z.lxor_spec. btauto.
  - apply Z.bits_inj'. intros i Hi. unfold u16. rewrite Z.testbit_mod_pow2, !Z.shiftl_spec by lia.
    rewrite Z.land_spec. change 0xff with (Z.ones 8). destruct (Z.ltb_spec i 16).
    + destruct (Z.lt_ge_cases i 8); [by rewrite !Z.testbit_neg_r by lia|].
      rewrite Z.testbit_ones_nonneg by lia. rewrite (proj2 (Z.ltb_lt (i - 8) 8)) by lia. btauto.
    + rewrite Z.testbit_ones_nonneg by lia. rewrite (proj2 (Z.ltb_ge (i - 8) 8)) by lia. btauto.
Qed.

Lemma crc16_step_bits c b : 0 <= c < 2 ^ 16 -> byte_ok b -> crc16_step c b = crc16_bits c b.
Proof.
  intros Hc Hb. rewrite crc16_step_split by done.
  assert (Hh : byte_ok (Z.shiftr c 8)) by (pose proof (shiftr_range 16 c 8 ltac:(lia) Hc); unfold byte_ok; lia).
  rewrite crc16_dummy by (by apply lxor_byte). rewrite <- crc16_low by apply land_byte.
  rewrite <- (low_byte c) at 3. rewrite (Z.lxor_comm (Z.land c 0xff)).
  replace (crc16_bits (Z.lxor (Z.shiftl (Z.shiftr c 8) 8) (Z.land c 0xff)) b) with
    (crc16_bits (Z.lxor (Z.lxor (Z.shiftl (Z.shiftr c 8) 8) 0) (Z.land c 0xff)) (Z.lxor (Z.lxor 0 b) 0)) by
    (by rewrite Z.lxor_0_l, !Z.lxor_0_r).
  rewrite !crc16_bits_lxor, crc16_high by done. by rewrite <- (crc16_bits_lxor 0 0), Z.lxor_0_l.
Qed.

Lemma crc16_step_range c b : 0 <= crc16_step c b < 2 ^ 16.
Proof. unfold crc16_step. apply u16_range. Qed.

Lemma crc16_stream data c : Forall byte_ok data -> 0 <= c < 2 ^ 16 ->
  fold_left crc16_step data c = fold_left (lfsr 16 0x1021) (data ≫= bits_high_first) c.
Proof.
  intros Hd. revert c. induction Hd as [|b data Hb _ IH]; intros c Hc.
  { reflexivity. }
  rewrite bind_cons, fold_left_app. transitivity (fold_left crc16_step data (crc16_step c b)); [reflexivity|].
  rewrite (IH (crc16_step c b) (crc16_step_range c b)). rewrite (crc16_step_bits c b Hc Hb). reflexivity.
Qed.

(** [YmodemCrc16] computes the checksum of the shift register with polynomial
    0x1021, highest bit first. *)
Theorem YmodemCrc16_register (data : list Z) : Forall byte_ok data -> YmodemCrc16 data = crc16_register data.
Proof. intros Hd. apply crc16_stream; [exact Hd|lia]. Qed.

Lemma YmodemCrc16_register_witness : Forall byte_ok check_bytes /\ YmodemCrc16 check_bytes = 0x31c3.
Proof. split; [exact check_bytes_ok|]. rewrite (YmodemCrc16_register _ check_bytes_ok). by vm_compute. Defined.

(** ** The frame *)

(** The bytes [xs] have been written from [a] on, and nothing else. *)
Record written (m0 : mem) (a : Z) (xs : list Z) (m : mem) : Prop := {
  wr_load : load_bytes (length xs) a m = Some xs;
  wr_kept : outside_kept a (Z.of_nat (length xs)) m0 m;
  wr_mapped : forall b k, mapped m0 b k -> mapped m b k
}.

Lemma written_nil m a : written m a [] m.
Proof. by split. Qed.

Lemma write_more m0 a xs m ys n :
  written m0 a xs m -> Forall byte_ok ys -> mapped m0 a n ->
  Z.of_nat (length xs) + Z.of_nat (length ys) <= n ->
  exists m', store_bytes (a + Z.of_nat (length xs)) ys m = Some m' /\ written m0 a (xs ++ ys) m'.
Proof.
  intros [W1 W2 W3] Hy Hm Hn.
  destruct (store_bytes_at (a + Z.of_nat (length xs)) ys m) as (m'&E&Hv&Hk&Hmap).
  { eapply mapped_sub; [by apply W3|lia|lia]. } { done. }
  exists m'. split; [done|]. split.
  - apply load_bytes_spec in W1 as [_ W1]. apply load_bytes_spec. split; [done|]. rewrite length_app.
    intros i Hi. destruct (Nat.lt_ge_cases i (length xs)).
    + rewrite lookup_app_l by done. rewrite Hk by lia. by apply W1.
    + rewrite lookup_app_r by done. destruct (lookup_lt_is_Some_2 ys (i - length xs)%nat) as [x Hx]; [lia|].
      rewrite Hx, <- (Hv _ _ Hx). f_equal. lia.
  - intros i Hi. rewrite length_app in Hi. rewrite Hk, W2 by lia. done.
  - intros b k Hb. by apply Hmap, W3.
Qed.

Lemma written_source m0 a xs m src bs n :
  written m0 a xs m -> load_bytes n src m0 = Some bs ->
  src + Z.of_nat n <= a \/ a + Z.of_nat (length xs) <= src -> load_bytes n src m = Some bs.
Proof. intros [_ W2 _] E Hd. rewrite <- E. apply load_bytes_frame. intros i Hi. apply W2. lia. Qed.

Lemma put_byte_run a v m m' s : byte_ok v -> store_bytes a [v] m = Some m' -> put_byte a v (m, s) = Some (tt, (m', s)).
Proof.
  intros Hv E. unfold put_byte, on_memory, try_update. cbn [fst snd]. cbn [store_bytes] in E.
  apply bind_Some_inv in E as (m1&E1&[= <-]). by rewrite E1.
Qed.

(** The next bytes of the frame, copied or put one by one. *)
Lemma copy_more m0 a xs m s pkt src k bs n :
  written m0 a xs m -> pkt = a + Z.of_nat (length xs) -> load_bytes k src m0 = Some bs -> Forall byte_ok bs ->
  src + Z.of_nat k <= a \/ a + n <= src -> mapped m0 a n -> Z.of_nat (length xs) + Z.of_nat k <= n ->
  exists m', on_memory (memcpy pkt src k) (m, s) = Some (tt, (m', s)) /\ written m0 a (xs ++ bs) m'.
Proof.
  intros W -> E Hb Hd Hm Hn. pose proof (proj1 (load_bytes_spec _ _ _ _) E) as [Hk _].
  destruct (write_more m0 a xs m bs n W Hb Hm) as (m'&E'&W'); [lia|]. exists m'. split; [|done].
  unfold on_memory, try_update, memcpy. cbn [fst snd].
  rewrite (written_source _ _ _ _ _ _ _ W E) by lia. cbn [mbind option_bind]. rewrite E'. exact eq_refl.
Qed.

Lemma put_more m0 a xs m s pkt v n :
  written m0 a xs m -> pkt = a + Z.of_nat (length xs) -> byte_ok v -> mapped m0 a n -> Z.of_nat (length xs) + 1 <= n ->
  exists m', put_byte pkt v (m, s) = Some (tt, (m', s)) /\ written m0 a (xs ++ [v]) m'.
Proof.
  intros W -> Hv Hm Hn. destruct (write_more m0 a xs m [v] n W) as (m'&E'&W');
    [by constructor|exact Hm|cbn; lia|]. exists m'. split; [|done]. by apply put_byte_run.
Qed.

Ltac sizes := do 2 (rewrite ?length_app; cbn [length app]); lia.

Definition big_endian16 (v : Z) : list Z := [Z.land (Z.shiftr v 8) 0xff; Z.land v 0xff].

Lemma trailer_bytes v : [Z.land v 0xff; Z.land (Z.shiftr v 8) 0xff; Z.land (Z.shiftr v 16) 0xff;
  Z.land (Z.shiftr v 24) 0xff] = le_split 4 v.
Proof.
  change 0xff with (Z.ones 8). rewrite !Z.land_ones, !Z.shiftr_div_pow2 by lia. cbn [le_split].
  rewrite !Z.div_div by lia. reflexivity.
Qed.

(** Storage for a call of [HW_GMAC_GenPacket]: a buffer for the frame and as
    much behind it, and the three sources, apart from it. *)
Record frame_args (m : mem) (pbuf target_mac source_mac pdata len : Z) (dst src data rest : list Z) : Prop := {
  fa_target : load_bytes 6 target_mac m = Some dst;
  fa_source : load_bytes 6 source_mac m = Some src;
  fa_data : load_bytes (Z.to_nat len) pdata m = Some data;
  fa_rest : load_bytes (Z.to_nat (14 + len)) (pbuf + (14 + len)) m = Some rest;
  fa_bytes : Forall byte_ok (dst ++ src ++ data ++ rest);
  fa_mapped : mapped m pbuf (28 + 2 * len);
  fa_apart : forall a n, (a, n) ∈ [(target_mac, 6); (source_mac, 6); (pdata, len)] ->
    a + n <= pbuf \/ pbuf + (28 + 2 * len) <= a
}.

(** [HW_GMAC_GenPacket] lays out the addresses, the type (or, for a small
    type, the length), the payload and a check sum; the check sum is that of
    the [rest], the bytes which follow the payload in memory, and not that of
    the frame. *)
Theorem HW_GMAC_GenPacket_layout (m : mem) (s : crc_state) (pbuf target_mac source_mac type pdata len : Z)
  (dst src data rest : list Z) :
  frame_args m pbuf target_mac source_mac pdata len dst src data rest -> crc_ok s -> 0 <= len ->
  let frame := dst ++ src ++ big_endian16 (if 1536 <? type then type else len) ++ data ++
               le_split 4 (Reflect (crc32_register rest) 32) in
  exists m' s', HW_GMAC_GenPacket pbuf target_mac source_mac type pdata len (m, s) = Some (18 + len, (m', s')) /\
    load_bytes (Z.to_nat (18 + len)) pbuf m' = Some frame /\ outside_kept pbuf (18 + len) m m' /\ crc_ok s'.
Proof.
  intros [F1 F2 F3 F4 Fb Fm Fa] Hs Hlen frame. rewrite !Forall_app in Fb. destruct Fb as (B1&B2&B3&B4).
  pose proof (proj1 (proj1 (load_bytes_spec _ _ _ _) F1)) as L1.
  pose proof (proj1 (proj1 (load_bytes_spec _ _ _ _) F2)) as L2.
  pose proof (proj1 (proj1 (load_bytes_spec _ _ _ _) F3)) as L3.
  pose proof (Fa target_mac 6 ltac:(left)) as A1. pose proof (Fa source_mac 6 ltac:(right; left)) as A2.
  pose proof (Fa pdata len ltac:(right; right; left)) as A3. set (n := 28 + 2 * len) in *.
  edestruct copy_more with (n := n) (a := pbuf) (pkt := pbuf) as (m1&E1&W1);
    [apply written_nil|sizes|exact F1|done|lia|exact Fm|sizes|].
  edestruct copy_more with (n := n) (a := pbuf) (pkt := pbuf + 6) as (m2&E2&W2);
    [exact W1|sizes|exact F2|done|lia|exact Fm|sizes|].
  set (v := if 1536 <? type then type else len) in *.
  edestruct put_more with (n := n) (a := pbuf) (pkt := pbuf + 6 + 6) (v := Z.land (Z.shiftr v 8) 0xff) as (m3&E3&W3);
    [exact W2|sizes|apply land_byte|exact Fm|sizes|].
  edestruct put_more with (n := n) (a := pbuf) (pkt := pbuf + 6 + 6 + 1) (v := Z.land v 0xff) as (m4&E4&W4);
    [exact W3|sizes|apply land_byte|exact Fm|sizes|].
  edestruct copy_more with (n := n) (a := pbuf) (pkt := pbuf + 6 + 6 + 2) as (m5&E5&W5);
    [exact W4|sizes|exact F3|done|lia|exact Fm|sizes|].
  destruct (CRC_Calc_register rest s Hs B4) as (s'&Ec&Hs').
  set (crc := Reflect (crc32_register rest) 32) in *.
  assert (Ecalc : calc_at (pbuf + 6 + 6 + 2 + len) (14 + len) (m5, s) = Some (crc, (m5, s'))).
  { unfold calc_at. cbn [fst snd]. replace (pbuf + 6 + 6 + 2 + len) with (pbuf + (14 + len)) by lia.
    rewrite (load_bytes_frame _ _ m), F4 by (intros i Hi; apply (wr_kept _ _ _ _ W5); revert Hi; sizes).
    cbn [mbind option_bind]. rewrite Ec. exact eq_refl. }
  edestruct put_more with (n := n) (a := pbuf) (pkt := pbuf + 6 + 6 + 2 + len) (v := Z.land crc 0xff) (s := s')
    as (m6&E6&W6); [exact W5|sizes|apply land_byte|exact Fm|sizes|].
  edestruct put_more with (n := n) (a := pbuf) (pkt := pbuf + 6 + 6 + 2 + len + 1) (v := Z.land (Z.shiftr crc 8) 0xff)
    as (m7&E7&W7); [exact W6|sizes|apply land_byte|exact Fm|sizes|].
  edestruct put_more with (n := n) (a := pbuf) (pkt := pbuf + 6 + 6 + 2 + len + 2) (v := Z.land (Z.shiftr crc 16) 0xff)
    as (m8&E8&W8); [exact W7|sizes|apply land_byte|exact Fm|sizes|].
  edestruct put_more with (n := n) (a := pbuf) (pkt := pbuf + 6 + 6 + 2 + len + 3) (v := Z.land (Z.shiftr crc 24) 0xff)
    as (m9&E9&W9); [exact W8|sizes|apply land_byte|exact Fm|sizes|].
  rewrite <- !app_assoc in W9. cbn [app] in W9. exists m9, s'. split; [|split; [|split; [|done]]].
  - unfold HW_GMAC_GenPacket. rewrite (bind_run _ _ _ _ _ E1), (bind_run _ _ _ _ _ E2).
    replace (if 1536 <? type then _ else _) with
      (_ ← put_byte (pbuf + 6 + 6) (Z.land (Z.shiftr v 8) 0xff); put_byte (pbuf + 6 + 6 + 1) (Z.land v 0xff))
      by (subst v; by destruct (1536 <? type)).
    rewrite bind_assoc_run, (bind_run _ _ _ _ _ E3), (bind_run _ _ _ _ _ E4), (bind_run _ _ _ _ _ E5).
    replace (pbuf + 6 + 6 + 2 + len - pbuf) with (14 + len) by lia.
    rewrite (bind_run _ _ _ _ _ Ecalc), (bind_run _ _ _ _ _ E6), (bind_run _ _ _ _ _ E7), (bind_run _ _ _ _ _ E8),
      (bind_run _ _ _ _ _ E9). replace (pbuf + 6 + 6 + 2 + len + 4 - pbuf) with (18 + len) by lia. exact eq_refl.
  - unfold frame, big_endian16. rewrite <- trailer_bytes. cbn [app].
    etrans; [|exact (wr_load _ _ _ _ W9)]. f_equal. sizes.
  - intros i Hi. apply (wr_kept _ _ _ _ W9). revert Hi. sizes.
Qed.

(** A frame of four payload bytes at 100; behind it, 18 bytes 0xee. *)
Definition frame_mem : mem := fill 36 100 0xee (fill 6 0 1 (fill 6 10 2 (fill 4 20 3 ∅))).

Lemma frame_mem_args :
  frame_args frame_mem 100 0 10 20 4 (replicate 6 1) (replicate 6 2) (replicate 4 3) (replicate 18 0xee).
Proof.
  split; [by vm_compute..| | |].
  - apply (bool_decide_unpack _). by vm_compute.
  - exact (fill_mapped 36 100 0xee _).
  - intros a n. rewrite !elem_of_cons, elem_of_nil. intros [[= -> ->]|[[= -> ->]|[[= -> ->]|[]]]]; lia.
Qed.

(** The check sum in the frame is not the one of the frame. *)
Lemma HW_GMAC_GenPacket_layout_witness :
  exists m' s' frame, HW_GMAC_GenPacket 100 0 10 0x0800 20 4 (frame_mem, crc_boot) = Some (22, (m', s')) /\
    load_bytes 22 100 m' = Some (frame ++ le_split 4 (Reflect (crc32_register (replicate 18 0xee)) 32)) /\
    Reflect (crc32_register (replicate 18 0xee)) 32 <> Reflect (crc32_register frame) 32.
Proof.
  destruct (HW_GMAC_GenPacket_layout frame_mem crc_boot 100 0 10 0x0800 20 4 _ _ _ _ frame_mem_args crc_boot_ok)
    as (m'&s'&E&El&_); [lia|].
  exists m', s', (replicate 6 1 ++ replicate 6 2 ++ big_endian16 0x0800 ++ replicate 4 3).
  split; [exact E|]. split; [exact El|]. apply (bool_decide_unpack _). by vm_compute.
Defined.
