(* ===== verification/Xprintf.v ===== *)
(** * Formatted output (libs/xprintf.c)

    [xprintf] and its kin, as the bytes that go to the UART.  A format string
    and a string argument are the bytes before their terminator; [char] is
    unsigned, as on the target, and [int] and [long] have 32 bits.  [None] is
    an argument of the wrong kind, a missing one, or a write outside of the
    buffer for the digits. *)
From S2P Require Import Prelude.
Open Scope Z_scope.

Inductive arg := ANum (v : Z) | AStr (s : list Z).

(** Without a terminal emulator, a line feed is sent as two characters. *)
Definition xputc (c : Z) : list Z := if c =? 10 then [13; c] else [c].

Definition xputs (str : list Z) : list Z := str ≫= xputc.

(** [c = *fmt++]; past the end it is the terminator. *)
Definition next_char (fmt : list Z) : Z * list Z :=
  match fmt with [] => (0, []) | c :: fmt' => (c, fmt') end.

Definition is_digit (c : Z) : bool := (48 <=? c) && (c <=? 57).

(** The loop that reads the minimum width; [c] has been read already. *)
Fixpoint read_width (c : Z) (fmt : list Z) (w : Z) : Z * Z * list Z :=
  if is_digit c then
    let w := u32 (w * 10 + c - 48) in
    match fmt with [] => (w, 0, []) | c' :: fmt' => read_width c' fmt' w end
  else (w, c, fmt).

(** The flags [f]. *)
Record flags := mkFlags { f_zero : bool; f_left : bool; f_long : bool }.

Definition radix_of (d : Z) : option Z :=
  if d =? 66 then Some 2 else if d =? 79 then Some 8
  else if (d =? 68) || (d =? 85) then Some 10 else if d =? 88 then Some 16 else None.

Definition digit_char (c d : Z) : Z := (if 9 <? d then d + (if c =? 120 then 0x27 else 0x07) else d) + 48.

(** The [do] loop that fills [s], at most [n] digits, lowest first. *)
Fixpoint number_loop (n : nat) (r c v : Z) : list Z :=
  match n with
  | O => []
  | S n' =>
      let '(d, v) := if r =? 2 then (Z.land v 1, Z.shiftr v 1)
                     else if r =? 8 then (Z.land v 7, Z.shiftr v 3)
                     else if r =? 10 then (v mod r, v / r)
                     else if r =? 16 then (Z.land v 0xf, Z.shiftr v 4)
                     else (0, 0) in
      digit_char c d :: (if v =? 0 then [] else number_loop n' r c v)
  end.

Definition pad (n c : Z) : list Z := replicate (Z.to_nat n) c ≫= xputc.

(** A number: its digits, the sign, the padding on either side. *)
Definition put_number (f : flags) (w r c v : Z) (negative : bool) : option (list Z) :=
  let s := number_loop 16 r c v in
  s ← (if negative then if (length s <? 16)%nat then Some (s ++ [45]) else None else Some s);
  let i := Z.of_nat (length s) in
  let j := if f_left f then i else u32 (Z.max i w + 1) in
  Some ((if f_left f then [] else pad (w - i) (if f_zero f then 48 else 32)) ++
        (rev s ≫= xputc) ++ pad (w - j) 32).

Definition put_string (f : flags) (w : Z) (p : list Z) : list Z :=
  let j := Z.of_nat (length p) in
  let j' := if f_left f then j else u32 (Z.max j w + 1) in
  (if f_left f then [] else pad (w - j) 32) ++ xputs p ++ pad (w - j') 32.

(** From the per cent sign on: the flags, the width, the type character and
    the rest of the format. *)
Definition read_spec (fmt : list Z) : flags * Z * Z * list Z :=
  let '(c, fmt) := next_char fmt in
  let '(zero, lft, c, fmt) :=
    if c =? 48 then let '(c, fmt) := next_char fmt in (true, false, c, fmt)
    else if c =? 45 then let '(c, fmt) := next_char fmt in (false, true, c, fmt)
    else (false, false, c, fmt) in
  let '(w, c, fmt) := read_width c fmt 0 in
  let '(long, c, fmt) :=
    if (c =? 108) || (c =? 76) then let '(c, fmt) := next_char fmt in (true, c, fmt) else (false, c, fmt) in
  (mkFlags zero lft long, w, c, fmt).

(** [xvprintf]; an iteration takes at least one character. *)
Fixpoint xvprintf_loop (fuel : nat) (fmt : list Z) (arp : list arg) : option (list Z) :=
  match fuel with
  | O => None
  | S fuel' =>
      let '(c, fmt) := next_char fmt in
      if c =? 0 then Some []
      else if negb (c =? 37) then app (xputc c) <$> xvprintf_loop fuel' fmt arp
      else
        let '(f, w, c, fmt) := read_spec fmt in
        if c =? 0 then Some []
        else
          let d := if 97 <=? c then c - 0x20 else c in
          if d =? 83 then
            match arp with
            | AStr p :: arp' => app (put_string f w p) <$> xvprintf_loop fuel' fmt arp'
            | _ => None
            end
          else if d =? 67 then
            match arp with
            | ANum v :: arp' => app (xputc (u8 v)) <$> xvprintf_loop fuel' fmt arp'
            | _ => None
            end
          else
            match radix_of d with
            | None => app (xputc c) <$> xvprintf_loop fuel' fmt arp
            | Some r =>
                match arp with
                | ANum v :: arp' =>
                    let negative := (d =? 68) && negb (Z.land v 0x80000000 =? 0) in
                    out ← put_number f w r c (if negative then u32 (0 - v) else v) negative;
                    app out <$> xvprintf_loop fuel' fmt arp'
                | _ => None
                end
            end
  end.

Definition xvprintf (fmt : list Z) (arp : list arg) : option (list Z) := xvprintf_loop (S (length fmt)) fmt arp.

(** With the kernel, [xprintf] formats inside of a critical section; [yprintf]
    is the same without it. *)
Definition xprintf (fmt : list Z) (arp : list arg) : option (list Z) := xvprintf fmt arp.
Definition yprintf (fmt : list Z) (arp : list arg) : option (list Z) := xvprintf fmt arp.

(** The examples of the source. *)
Module Examples.
Import String.
Open Scope string_scope.

Definition shows (fmt : string) (args : list arg) (out : string) : bool :=
  bool_decide (xprintf (bytes_of fmt) args = Some (bytes_of out)).

Example source_examples :
  shows "%d" [ANum 1234] "1234" && shows "%6d,%3d%%" [ANum (2 ^ 32 - 200); ANum 5] "  -200,  5%" &&
  shows "%-6u" [ANum 100] "100   " && shows "%ld" [ANum 12345678] "12345678" &&
  shows "%04x" [ANum 0xA3] "00a3" && shows "%08LX" [ANum 0x123ABC] "00123ABC" &&
  shows "%016b" [ANum 0x550F] "0101010100001111" && shows "%s" [AStr (bytes_of "String")] "String" &&
  shows "%-4s" [AStr (bytes_of "abc")] "abc " && shows "%4s" [AStr (bytes_of "abc")] " abc" &&
  shows "%c" [ANum 97] "a" = true.
Proof. by vm_compute. Qed.
End Examples.
