(* ===== verification/XprintfProofs.v ===== *)
(** * Properties of the formatted output *)
From S2P Require Import Prelude Xprintf.
Open Scope Z_scope.

(** ** Fuel *)

Lemma next_char_length fmt : (length (next_char fmt).2 <= length fmt)%nat.
Proof. destruct fmt; cbn; lia. Qed.

Lemma read_width_length c fmt w : (length (read_width c fmt w).2 <= length fmt)%nat.
Proof.
  revert c w. induction fmt as [|c' fmt IH]; intros c w; cbn [read_width]; destruct (is_digit c); cbn; try lia.
  etrans; [apply IH|lia].
Qed.

Lemma read_spec_length fmt : (length (read_spec fmt).2 <= length fmt)%nat.
Proof.
  unfold read_spec. pose proof (next_char_length fmt) as H1. destruct (next_char fmt) as [c1 fmt1]. cbn [snd] in H1.
  assert (H2 : forall zero lft c2 fmt2, (length fmt2 <= length fmt)%nat ->
    le (length (let '(w, c, fmt0) := read_width c2 fmt2 0 in
      let '(long, c, fmt0) := if (c =? 108) || (c =? 76) then let '(c, fmt0) := next_char fmt0 in (true, c, fmt0)
                              else (false, c, fmt0) in
      (mkFlags zero lft long, w, c, fmt0)).2) (length fmt)).
  { intros zero lft c2 fmt2 H2. pose proof (read_width_length c2 fmt2 0) as H3.
    destruct (read_width c2 fmt2 0) as [[w c3] fmt3]. cbn [snd] in H3. pose proof (next_char_length fmt3) as H4.
    destruct ((c3 =? 108) || (c3 =? 76)); [destruct (next_char fmt3)|]; cbn [snd] in *; lia. }
  pose proof (next_char_length fmt1) as H4.
  destruct (c1 =? 48); [|destruct (c1 =? 45)]; [destruct (next_char fmt1)..|]; cbn [snd] in *; apply H2; lia.
Qed.

Lemma xvprintf_fuel n1 n2 fmt arp : (length fmt < n1)%nat -> (length fmt < n2)%nat ->
  xvprintf_loop n1 fmt arp = xvprintf_loop n2 fmt arp.
Proof.
  revert n2 fmt arp. induction n1 as [|n1 IH]; intros [|n2] fmt arp H1 H2; try lia.
  cbn [xvprintf_loop]. destruct fmt as [|c fmt]; cbn [next_char]; [done|]. cbn [length] in *.
  destruct (c =? 0); [done|]. destruct (negb (c =? 37)); [f_equal; apply IH; lia|].
  pose proof (read_spec_length fmt) as H. destruct (read_spec fmt) as [[[f w] c'] fmt']. cbn [snd] in H.
  assert (E : forall arp', xvprintf_loop n1 fmt' arp' = xvprintf_loop n2 fmt' arp') by (intros; apply IH; lia).
  destruct (c' =? 0); [done|]. destruct ((if 97 <=? c' then _ else _) =? 83); [destruct arp as [|[]]; by rewrite ?E|].
  destruct (_ =? 67); [destruct arp as [|[]]; by rewrite ?E|]. destruct (radix_of _); [|by rewrite E].
  destruct arp as [|[] arp]; try done. by rewrite E.
Qed.

(** ** Digits *)

(** How a number is read; [radix r] are the bases that the code knows. *)
Definition digit_value (ch : Z) : Z := if ch <? 58 then ch - 48 else if ch <? 97 then ch - 55 else ch - 87.
Definition read_number (r : Z) (ds : list Z) : Z := fold_left (fun n ch => n * r + digit_value ch) ds 0.
Definition radix (r : Z) : Prop := r = 2 \/ r = 8 \/ r = 10 \/ r = 16.

(** A character that stands for a digit, with lower case letters exactly for
    the type character x. *)
Definition digit_ok (r c ch : Z) : Prop :=
  0 <= digit_value ch < r /\ (48 <= ch <= 57 \/ if c =? 120 then 97 <= ch <= 102 else 65 <= ch <= 70).

Lemma digit_char_value r c d : 0 <= d < r -> r <= 16 ->
  digit_value (digit_char c d) = d /\ digit_ok r c (digit_char c d).
Proof.
  intros Hd Hr. unfold digit_ok, digit_char, digit_value.
  destruct (Z.ltb_spec 9 d), (c =? 120); repeat (case_match; try lia).
Qed.

Fixpoint low_first (r : Z) (s : list Z) : Z :=
  match s with [] => 0 | ch :: s' => digit_value ch + r * low_first r s' end.

Lemma read_number_rev r s : read_number r (rev s) = low_first r s.
Proof.
  unfold read_number. induction s as [|ch s IH]; cbn [rev low_first]; [done|].
  rewrite fold_left_app, IH. cbn [fold_left]. lia.
Qed.

Lemma number_step r v : radix r -> 0 <= v ->
  (if r =? 2 then (Z.land v 1, Z.shiftr v 1) else if r =? 8 then (Z.land v 7, Z.shiftr v 3)
   else if r =? 10 then (v mod r, v / r) else if r =? 16 then (Z.land v 0xf, Z.shiftr v 4) else (0, 0))
  = (v mod r, v / r).
Proof.
  intros Hr Hv. destruct Hr as [-> | [-> | [-> | ->]]]; cbn [Z.eqb Pos.eqb].
  - change 1 with (Z.ones 1) at 1. by rewrite Z.land_ones, Z.shiftr_div_pow2 by lia.
  - change 7 with (Z.ones 3). by rewrite Z.land_ones, Z.shiftr_div_pow2 by lia.
  - done.
  - change 0xf with (Z.ones 4). by rewrite Z.land_ones, Z.shiftr_div_pow2 by lia.
Qed.

Lemma number_loop_value n r c v : radix r -> 0 <= v -> (0 < n)%nat ->
  let s := number_loop n r c v in
  low_first r s = v mod r ^ Z.of_nat n /\ Forall (digit_ok r c) s /\ (1 <= length s <= n)%nat /\
  (v < r ^ Z.of_nat n -> last s = Some 48 -> s = [48]).
Proof.
  intros Hr. assert (Hr2 : 2 <= r <= 16) by (unfold radix in Hr; lia).
  revert v. induction n as [|n IH]; intros v Hv Hn s; [lia|]. subst s. cbn [number_loop].
  rewrite number_step by done. pose proof (Z.mod_pos_bound v r ltac:(lia)) as Hm.
  destruct (digit_char_value r c (v mod r)) as [Ev Eo]; [lia|lia|].
  pose proof (Z.div_pos v r Hv ltac:(lia)) as Hq. pose proof (Z.div_mod v r ltac:(lia)) as Edm.
  assert (Hpow : 0 < r ^ Z.of_nat n) by (apply Z.pow_pos_nonneg; lia).
  rewrite Nat2Z.inj_succ, Z.pow_succ_r by lia.
  destruct (Z.eqb_spec (v / r) 0) as [E0|E0].
  { cbn [low_first length last]. rewrite Ev. split_and!; [|by constructor|lia|lia|by intros _ [= ->]].
    rewrite Z.mul_0_r, Z.add_0_r, Z.rem_mul_r, E0, Z.mod_0_l by lia. lia. }
  destruct n as [|n'].
  { cbn [number_loop low_first length]. rewrite Ev. cbn in *. rewrite Z.mul_1_r, Z.mul_0_r, Z.add_0_r.
    split_and!; [done|by constructor|lia|lia|]. intros Hlt. by rewrite Z.div_small in E0 by lia. }
  destruct (IH (v / r) Hq ltac:(lia)) as (I1&I2&I3&I4). set (n := S n') in *. cbn [low_first length].
  rewrite Ev, I1. split_and!; [|by constructor|lia|lia|].
  - rewrite Z.rem_mul_r by lia. lia.
  - intros Hlt Hl. assert (Hd : v / r < r ^ Z.of_nat n) by (apply Z.div_lt_upper_bound; lia).
    destruct (number_loop n r c (v / r)) as [|ch s'] eqn:Es; [cbn in I3; lia|].
    specialize (I4 Hd Hl). injection I4 as -> ->. exfalso. cbn in I1. rewrite Z.mod_small in I1 by lia.
    change (digit_value 48) with 0 in I1. lia.
Qed.

(** ** Conversion specifications *)

(** %, a flag, the digits of a width, the size prefix, the type character. *)
Record spec := mkSpec { sp_flags : flags; sp_width : list Z; sp_char : Z }.

Definition spec_chars (s : spec) : list Z :=
  (if f_zero (sp_flags s) then [48] else if f_left (sp_flags s) then [45] else []) ++
  sp_width s ++ (if f_long (sp_flags s) then [108] else []) ++ [sp_char s].

(** A first zero digit of the width would be the flag. *)
Definition spec_ok (s : spec) : Prop :=
  Forall (fun ch => is_digit ch = true) (sp_width s) /\ (f_zero (sp_flags s) = false \/ f_left (sp_flags s) = false) /\
  (f_zero (sp_flags s) = false -> f_left (sp_flags s) = false -> hd_error (sp_width s) <> Some 48).

Definition width_value (ws : list Z) : Z := fold_left (fun w ch => u32 (w * 10 + ch - 48)) ws 0.

Lemma width_nonneg ws w : 0 <= w -> 0 <= fold_left (fun w ch => u32 (w * 10 + ch - 48)) ws w.
Proof. revert w. induction ws as [|ch ws IH]; intros w Hw; cbn [fold_left]; [done|]. apply IH, u32_range. Qed.

Definition upper (c : Z) : Z := if 97 <=? c then c - 0x20 else c.

Lemma radix_char c r : radix_of (upper c) = Some r ->
  radix r /\ is_digit c = false /\ (c =? 108) || (c =? 76) = false /\ (c =? 0) = false /\ (c =? 48) = false /\
  (c =? 45) = false /\ (upper c =? 83) = false /\ (upper c =? 67) = false.
Proof.
  intros H. assert (Hc : (upper c = 66 \/ upper c = 79 \/ upper c = 68 \/ upper c = 85 \/ upper c = 88) /\ radix r).
  { unfold radix_of in H. unfold radix. repeat (case_match; simplify_eq); rewrite ?orb_true_iff, ?Z.eqb_eq in *; lia. }
  destruct Hc as [Hc Hr]. split; [done|]. unfold upper, is_digit in *.
  rewrite !andb_false_iff, !orb_false_iff, !Z.eqb_neq, !Z.leb_gt. destruct (Z.leb_spec 97 c); lia.
Qed.

Lemma read_width_run ws c rest w : Forall (fun ch => is_digit ch = true) ws -> is_digit c = false ->
  (let '(c0, fmt) := next_char (ws ++ c :: rest) in read_width c0 fmt w) =
  (fold_left (fun w ch => u32 (w * 10 + ch - 48)) ws w, c, rest).
Proof.
  intros Hw Hc. revert w. induction Hw as [|ch ws Hch Hw IH]; intros w; cbn [app next_char fold_left].
  - destruct rest; cbn [read_width]; by rewrite Hc.
  - rewrite <- IH. destruct (ws ++ c :: rest) as [|c' l] eqn:E; [by destruct ws|].
    cbn [read_width next_char]. by rewrite Hch.
Qed.

Lemma digit_not_flag ch : is_digit ch = true -> ch <> 48 -> (ch =? 48) = false /\ (ch =? 45) = false.
Proof. unfold is_digit. rewrite andb_true_iff, !Z.leb_le, !Z.eqb_neq. lia. Qed.

Lemma read_spec_run s rest r : spec_ok s -> radix_of (upper (sp_char s)) = Some r ->
  read_spec (spec_chars s ++ rest) = (sp_flags s, width_value (sp_width s), sp_char s, rest).
Proof.
  intros (Hw&Hf&H0) Hr. destruct s as [[zero lft long] ws c]. unfold spec_chars. cbn [sp_flags sp_width sp_char f_zero f_left f_long] in *.
  destruct (radix_char c r Hr) as (_&Hd&Hl&_&Hz&Hm&_).
  set (c1 := if long then 108 else c). set (rest1 := if long then c :: rest else rest).
  assert (E1 : (ws ++ (if long then [108] else []) ++ [c]) ++ rest = ws ++ c1 :: rest1).
  { subst c1 rest1. rewrite <- app_assoc. by destruct long. }
  assert (Hd1 : is_digit c1 = false) by (subst c1; by destruct long).
  assert (Hwid := read_width_run ws c1 rest1 0 Hw Hd1).
  assert (Hend : forall zero' lft', (let '(w, c0, fmt) := (width_value ws, c1, rest1) in
      let '(long0, c0, fmt) := if (c0 =? 108) || (c0 =? 76) then let '(c0, fmt) := next_char fmt in (true, c0, fmt)
                               else (false, c0, fmt) in
      (mkFlags zero' lft' long0, w, c0, fmt)) = (mkFlags zero' lft' long, width_value ws, c, rest)).
  { intros. subst c1 rest1. destruct long; [done|]. by rewrite Hl. }
  unfold read_spec. destruct zero; [|destruct lft].
  - destruct Hf as [| ->]; [done|]. rewrite <- app_assoc, app_assoc, <- (app_assoc [48]), E1. cbn [app next_char Z.eqb Pos.eqb].
    destruct (next_char (ws ++ c1 :: rest1)) as [c0 fmt]. rewrite Hwid. apply Hend.
  - rewrite <- app_assoc, app_assoc, <- (app_assoc [45]), E1. cbn [app next_char Z.eqb Pos.eqb].
    destruct (next_char (ws ++ c1 :: rest1)) as [c0 fmt]. rewrite Hwid. apply Hend.
  - cbn [app]. rewrite E1. assert (Hn : (let c0 := (next_char (ws ++ c1 :: rest1)).1 in (c0 =? 48) = false /\ (c0 =? 45) = false)).
    { destruct Hw as [|ch ws Hch Hw]; cbn.
      - subst c1. by destruct long.
      - apply digit_not_flag; [done|]. intros ->. by apply H0. }
    destruct (next_char (ws ++ c1 :: rest1)) as [c0 fmt]. cbn [fst] in Hn. destruct Hn as [-> ->]. rewrite Hwid. apply Hend.
Qed.

(** ** Numbers *)

(** A numeral in a field of at least [W] characters. *)
Definition number_field (f : flags) (W : Z) (num : list Z) : list Z :=
  let fill := replicate (Z.to_nat (W - Z.of_nat (length num))) in
  if f_left f then num ++ fill 32 else fill (if f_zero f then 48 else 32) ++ num.

Lemma put_plain l : Forall (fun ch => ch <> 10) l -> l ≫= xputc = l.
Proof.
  induction 1 as [|ch l Hch _ IH]; [done|]. rewrite bind_cons, IH. unfold xputc.
  by destruct (Z.eqb_spec ch 10).
Qed.

Lemma pad_plain n c : c <> 10 -> pad n c = replicate (Z.to_nat n) c.
Proof. intros Hc. unfold pad. apply put_plain. by apply Forall_replicate. Qed.

(** What is known of the digits [ds] of [v]: they are digits, they read back
    as [v] reduced to 16 digits, and if [v] has no more there is no zero in front. *)
Definition numeral (r c v : Z) (ds : list Z) : Prop :=
  read_number r ds = v mod r ^ 16 /\ Forall (digit_ok r c) ds /\ (1 <= length ds <= 16)%nat /\
  (v < r ^ 16 -> hd_error ds = Some 48 -> ds = [48]).

Lemma hd_rev {A} (l : list A) : hd_error (rev l) = last l.
Proof.
  induction l as [|x l IH] using rev_ind; [done|]. by rewrite rev_app_distr, last_snoc.
Qed.

Lemma put_number_run f W r c v negative : radix r -> 0 <= v < 2 ^ 32 -> (negative = true -> r = 10) ->
  0 <= W < 2 ^ 32 - 1 ->
  exists ds, put_number f W r c v negative = Some (number_field f W ((if negative then [45] else []) ++ ds)) /\
    numeral r c v ds.
Proof.
  intros Hr Hv Hneg HW. destruct (number_loop_value 16 r c v Hr) as (E1&E2&E3&E4); [lia|lia|].
  change (Z.of_nat 16) with 16 in *. set (s := number_loop 16 r c v) in *. exists (rev s). split.
  - assert (Hshort : negative = true -> (length s < 16)%nat).
    { intros Hn. pose proof (Hneg Hn) as ->. destruct (decide (length s = 16)%nat) as [El|]; [|lia]. exfalso.
      destruct (list.last s) as [ch|] eqn:Hl; [|apply last_None in Hl; rewrite Hl in El; done].
      apply last_Some in Hl as [s' Es]. rewrite Es, length_app in El. cbn [length] in El.
      assert (Hge : 10 ^ Z.of_nat (length s') * digit_value ch <= low_first 10 s).
      { rewrite Es. pose proof E2 as E2'. rewrite Es in E2'. clear - E2'. apply Forall_app in E2' as [H1 H2]. induction H1 as [|x l [Hx _] _ IH].
        - cbn. lia.
        - cbn [app low_first length]. rewrite Nat2Z.inj_succ, Z.pow_succ_r by lia. lia. }
      replace (length s') with 15%nat in Hge by lia. change (Z.of_nat 15) with 15 in Hge.
      rewrite E1, Z.mod_small in Hge by lia.
      assert (Hch : digit_value ch = 0).
      { pose proof E2 as E2'. rewrite Es in E2'. apply Forall_app in E2' as [_ H2]. inversion H2 as [|x l [Hx _]]. lia. }
      assert (ch = 48) as ->.
      { pose proof E2 as E2'. rewrite Es in E2'. apply Forall_app in E2' as [_ H2]. inversion H2 as [|x l [_ Hx]].
        unfold digit_value in Hch. destruct (c =? 120); repeat (case_match; try lia). }
      rewrite E4 in Es by (lia || done). apply (f_equal length) in Es. rewrite length_app in Es. cbn [length] in *. lia. }
    set (num := (if negative then [45] else []) ++ rev s).
    assert (Es : (if negative then if (length s <? 16)%nat then Some (s ++ [45]) else None else Some s) =
      Some (rev num)).
    { subst num. rewrite rev_app_distr, rev_involutive. destruct negative; [|by rewrite app_nil_r].
      rewrite (proj2 (Nat.ltb_lt _ _) (Hshort eq_refl)). done. }
    unfold put_number. fold s. rewrite Es. cbn [mbind option_bind]. rewrite rev_involutive, length_rev.
    assert (Hplain : num ≫= xputc = num).
    { apply put_plain. subst num. apply Forall_app. split; [destruct negative; by repeat constructor|].
      apply Forall_rev. eapply Forall_impl; [exact E2|]. intros ch [_ H] ->. destruct (c =? 120); lia. }
    rewrite Hplain. unfold number_field. destruct (f_left f).
    + cbn [app]. by rewrite pad_plain.
    + assert (Hnum : (length num <= 17)%nat).
      { subst num. rewrite length_app, length_rev. clear - E3. clearbody s. destruct negative; cbn [length]; lia. }
      rewrite (u32_small (_ + 1)) by lia.
      rewrite !pad_plain by (try done; by destruct (f_zero f)).
      replace (Z.to_nat (W - (Z.of_nat (length num) `max` W + 1))) with 0%nat by lia. by rewrite app_nil_r.
  - split_and!; try (rewrite length_rev; lia).
    + by rewrite read_number_rev.
    + by apply Forall_rev.
    + rewrite hd_rev. intros H1 H2. by rewrite (E4 H1 H2).
Qed.

(** A conversion of a number: the field is as wide as asked for, padded on the
    side and with the character that the flags say, and holds a sign and the
    digits of the magnitude, which read back as it; 16 digits are the most. *)
Theorem xvprintf_number (s : spec) (r v : Z) (rest : list Z) (arp : list arg) :
  spec_ok s -> radix_of (upper (sp_char s)) = Some r -> 0 <= v < 2 ^ 32 -> width_value (sp_width s) < 2 ^ 32 - 1 ->
  let negative := (upper (sp_char s) =? 68) && (2 ^ 31 <=? v) in
  let magnitude := if negative then 2 ^ 32 - v else v in
  exists ds, numeral r (sp_char s) magnitude ds /\
    xvprintf (37 :: spec_chars s ++ rest) (ANum v :: arp) =
    app (number_field (sp_flags s) (width_value (sp_width s)) ((if negative then [45] else []) ++ ds)) <$>
      xvprintf rest arp.
Proof.
  intros Hs Hr Hv HW negative magnitude. destruct (radix_char _ _ Hr) as (Hrad&_&_&Hc0&_&_&HS&HC).
  assert (Hneg : (upper (sp_char s) =? 68) && negb (Z.land v 0x80000000 =? 0) = negative).
  { subst negative. f_equal. replace 0x80000000 with (Z.shiftl (Z.ones 1) 31) by reflexivity.
    destruct (Z.leb_spec (2 ^ 31) v) as [Hge|Hlt].
    - apply negb_true_iff, Z.eqb_neq. intros H. apply (f_equal (fun x => Z.testbit x 31)) in H.
      rewrite Z.land_spec, Z.bits_0 in H. change (Z.testbit (Z.shiftl (Z.ones 1) 31) 31) with true in H.
      rewrite andb_true_r in H. apply Z.testbit_false in H; [|lia].
      rewrite Z.mod_small in H; [|split; [apply Z.div_pos; lia|apply Z.div_lt_upper_bound; lia]].
      assert (1 <= v / 2 ^ 31) by (apply Z.div_le_lower_bound; lia). lia.
    - apply negb_false_iff, Z.eqb_eq. apply Z.bits_inj'. intros i Hi. rewrite Z.land_spec, Z.bits_0, Z.shiftl_spec by lia.
      rewrite Z.testbit_ones by lia. destruct (Z.lt_ge_cases i 31).
      + destruct (Z.leb_spec 0 (i - 31)); [lia|]. apply andb_false_r.
      + rewrite <- (Z.mod_small v (2 ^ 31)) by lia. rewrite Z.mod_pow2_bits_high by lia. done. }
  assert (Hmag : (if negative then u32 (0 - v) else v) = magnitude).
  { subst magnitude. destruct negative eqn:En; [|done]. subst negative. apply andb_true_iff in En as [_ En%Z.leb_le].
    unfold u32. symmetry. apply (Z.mod_unique _ _ (-1)); lia. }
  destruct (put_number_run (sp_flags s) (width_value (sp_width s)) r (sp_char s) magnitude negative)
    as (ds&E&Hds); [done| | | |].
  { unfold magnitude. destruct negative eqn:En; [|exact Hv]. unfold negative in En.
    apply andb_true_iff in En as [_ En%Z.leb_le]. lia. }
  { intros En. subst negative. apply andb_true_iff in En as [En%Z.eqb_eq _]. rewrite En in Hr. vm_compute in Hr. congruence. }
  { split; [by apply width_nonneg|done]. }
  exists ds. split; [done|]. unfold xvprintf at 1. cbn [xvprintf_loop next_char]. change (37 =? 0) with false. change (37 =? 37) with true. cbn [negb].
  rewrite (read_spec_run s rest r Hs Hr), Hc0. fold (upper (sp_char s)). rewrite HS, HC, Hr, Hneg, Hmag, E.
  cbn [mbind option_bind]. f_equal. apply xvprintf_fuel; cbn; rewrite ?length_app; lia.
Qed.

Definition d6_spec : spec := mkSpec (mkFlags false false false) [54] 100.

Lemma xvprintf_number_witness :
  exists ds, numeral 10 100 200 ds /\ xvprintf [37; 54; 100; 44] [ANum (2 ^ 32 - 200)] =
    Some (number_field (sp_flags d6_spec) 6 (45 :: ds) ++ [44]).
Proof.
  destruct (xvprintf_number d6_spec 10 (2 ^ 32 - 200) [44] []) as (ds&Hds&E);
    [by split; [repeat constructor|by split; [left|]]|by vm_compute|lia|by vm_compute|].
  exists ds. split; [exact Hds|]. exact E.
Defined.
