(* ===== verification/Ymodem.v ===== *)
(** * File reception (libs/ymodem.c)

    The receiver of the YMODEM protocol: packets from the UART, byte by byte,
    and the task that stores them in a file.  The UART delivers a stream of
    bytes (a read waits for the next one) and takes the bytes sent; the file
    system is FatFs, of which only the interface is used here; the task looks at the
    result of [f_open] only. *)
From S2P Require Import Prelude Crc Xprintf.
Open Scope Z_scope.

Definition RYM_PACKET_HEADER : Z := 3.
Definition RYM_PACKET_TRAILER : Z := 2.
Definition RYM_PACKET_OVERHEAD : Z := RYM_PACKET_HEADER + RYM_PACKET_TRAILER.
Definition RYM_PACKET_SIZE : Z := 128.
Definition RYM_PACKET_1K_SIZE : Z := 1024.
Definition RYM_CODE_SOH : Z := 0x01.
Definition RYM_CODE_STX : Z := 0x02.
Definition RYM_CODE_EOT : Z := 0x04.
Definition RYM_CODE_ACK : Z := 0x06.
Definition RYM_CODE_CAN : Z := 0x18.
Definition RYM_CODE_CRC : Z := 0x43.

Inductive rym_state := eRymInit | eRymRecv | eRymDone | eRymFail.

Record YMODEM_CTX_T := mkCtx {
  ui8Code : Z; ui8Index : Z; aui8Data : list Z; ui16PacketLength : Z; eRymState : rym_state;
  ui16WrPosition : Z; ui16RdPosition : Z }.

Definition buffer_size : nat := Z.to_nat (RYM_PACKET_1K_SIZE + RYM_PACKET_OVERHEAD).

(** [mRymCtx], as it is at start-up. *)
Definition mRymCtx : YMODEM_CTX_T := mkCtx 0 0 (replicate buffer_size 0) 0 eRymInit 0 0.

Definition next_rd (c : YMODEM_CTX_T) : YMODEM_CTX_T :=
  mkCtx (ui8Code c) (ui8Index c) (aui8Data c) (ui16PacketLength c) (eRymState c) (ui16WrPosition c)
    (u16 (ui16RdPosition c + 1)).
Definition with_length (len : Z) (st : rym_state) (c : YMODEM_CTX_T) : YMODEM_CTX_T :=
  mkCtx (ui8Code c) (ui8Index c) (aui8Data c) len st (ui16WrPosition c) (ui16RdPosition c).
Definition with_state (st : rym_state) (c : YMODEM_CTX_T) : YMODEM_CTX_T := with_length (ui16PacketLength c) st c.
Definition with_code (code : Z) (c : YMODEM_CTX_T) : YMODEM_CTX_T :=
  mkCtx code (ui8Index c) (aui8Data c) (ui16PacketLength c) (eRymState c) (ui16WrPosition c) (ui16RdPosition c).
Definition with_packet_index (i : Z) (c : YMODEM_CTX_T) : YMODEM_CTX_T :=
  mkCtx (ui8Code c) i (aui8Data c) (ui16PacketLength c) (eRymState c) (ui16WrPosition c) (ui16RdPosition c).

(** One iteration of the inner loop of [YmodemRecvPacket]; also whether it sets
    [bFinished], and whether it leaves the loop. *)
Definition process_one (c : YMODEM_CTX_T) : option (YMODEM_CTX_T * bool * bool) :=
  let rd := ui16RdPosition c in
  let data i := aui8Data c !! Z.to_nat i in
  if rd =? 0 then
    code ← data rd;
    let c := with_code code c in
    if code =? RYM_CODE_SOH then Some (next_rd (with_length RYM_PACKET_SIZE eRymRecv c), false, false)
    else if code =? RYM_CODE_STX then Some (next_rd (with_length RYM_PACKET_1K_SIZE eRymRecv c), false, false)
    else Some (next_rd (with_length 0 eRymDone c), true, false)
  else if rd =? 1 then
    i ← data rd; Some (next_rd (with_packet_index i c), false, false)
  else if rd =? 2 then
    i ← data rd;
    if negb (Z.land (ui8Index c) i =? 0) then Some (with_length 0 eRymFail c, true, true)
    else Some (next_rd c, false, false)
  else if rd =? RYM_PACKET_HEADER + ui16PacketLength c + 1 then
    c0 ← data (RYM_PACKET_HEADER + ui16PacketLength c + 0);
    c1 ← data (RYM_PACKET_HEADER + ui16PacketLength c + 1);
    let ui16RecvCrc := u16 (Z.shiftl c0 0) in
    let ui16RecvCrc := u16 (Z.lor ui16RecvCrc (Z.shiftl c1 1)) in
    let ui16CalcCrc := YmodemCrc16 (take (Z.to_nat (ui16PacketLength c)) (drop (Z.to_nat RYM_PACKET_HEADER) (aui8Data c))) in
    Some (with_state (if ui16CalcCrc =? ui16RecvCrc then eRymDone else eRymFail) c, true, true)
  else Some (next_rd c, false, false).

(** The inner loop; an iteration that stays in it advances the read position. *)
Fixpoint process_loop (fuel : nat) (c : YMODEM_CTX_T) (bFinished : bool) : option (YMODEM_CTX_T * bool) :=
  match fuel with
  | O => None
  | S fuel' =>
      if ui16RdPosition c <? ui16WrPosition c then
        '(c, finished, leave) ← process_one c;
        if (leave : bool) then Some (c, bFinished || finished) else process_loop fuel' c (bFinished || finished)
      else Some (c, bFinished)
  end.

(** [YmodemRecvOneByte] has put [b] behind the bytes received. *)
Definition store_byte (b : Z) (c : YMODEM_CTX_T) : option YMODEM_CTX_T :=
  _ ← aui8Data c !! Z.to_nat (ui16WrPosition c);
  Some (mkCtx (ui8Code c) (ui8Index c) (<[Z.to_nat (ui16WrPosition c) := b]> (aui8Data c)) (ui16PacketLength c)
          (eRymState c) (u16 (ui16WrPosition c + 1)) (ui16RdPosition c)).

Definition take_byte (b : Z) (c : YMODEM_CTX_T) : option (YMODEM_CTX_T * bool) :=
  c ← store_byte b c;
  process_loop (S (Z.to_nat (ui16WrPosition c - ui16RdPosition c))) c false.

(** ** With the devices *)

(** The calls of FatFs, on the one file object of the task: [f_open] for a new
    file, [f_write] with its result and the number of bytes written, [f_close].
    Every call returns, whatever the state; a result other than [FR_OK] is an error. *)
Definition FR_OK : Z := 0.

Class FatFs (F : Type) := {
  f_open : list Z -> F -> Z * F;
  f_write : list Z -> F -> (Z * Z) * F;
  f_close : F -> Z * F
}.

Record ysys (F : Type) := mkYsys { y_ctx : YMODEM_CTX_T; y_in : nat -> Z; y_out : list Z; y_fs : F }.
Arguments mkYsys {F}. Arguments y_ctx {F}. Arguments y_in {F}. Arguments y_out {F}. Arguments y_fs {F}.

Section receiver.
Context {F : Type} `{FatFs F}.

Abbreviation Y := (prog (ysys F)).

Definition send (bs : list Z) : Y unit := update (fun y => mkYsys (y_ctx y) (y_in y) (y_out y ++ bs) (y_fs y)).
Definition YmodemSendOneByte (b : Z) : Y unit := send [b].
Definition YmodemRecvOneByte : Y Z :=
  fun y => Some (u8 (y_in y 0%nat), mkYsys (y_ctx y) (fun i => y_in y (S i)) (y_out y) (y_fs y)).
Definition set_ctx (c : YMODEM_CTX_T) : Y unit := update (fun y => mkYsys c (y_in y) (y_out y) (y_fs y)).
Definition files {A} (p : F -> A * F) : Y A :=
  fun y => let '(x, fs) := p (y_fs y) in Some (x, mkYsys (y_ctx y) (y_in y) (y_out y) fs).
Definition print (fmt : list Z) : Y unit :=
  fun y => out ← xprintf fmt []; send out y.

(** The outer loop of [YmodemRecvPacket]. *)
Fixpoint recv_loop (fuel : nat) (bFinished : bool) : Y unit :=
  if bFinished then mret tt
  else match fuel with
  | O => fun _ => None
  | S fuel' =>
      b ← YmodemRecvOneByte;
      '(c, finished) ← try_ask (fun y => take_byte b (y_ctx y));
      _ ← set_ctx c;
      recv_loop fuel' finished
  end.

(** No packet takes more bytes than the buffer has. *)
Definition YmodemRecvPacket (ui8NextAckData : Z) : Y unit :=
  c ← ask y_ctx;
  _ ← set_ctx (mkCtx (ui8Code c) (ui8Index c) (aui8Data c) (ui16PacketLength c) (eRymState c) 0 0);
  _ ← YmodemSendOneByte ui8NextAckData;
  recv_loop buffer_size false.

Definition packet_data (c : YMODEM_CTX_T) : list Z := drop (Z.to_nat RYM_PACKET_HEADER) (aui8Data c).

Definition drain : nat -> Y unit :=
  fix drain n := match n with O => mret tt | S n' => _ ← YmodemRecvOneByte; drain n' end.

Record task_vars := mkVars { ui8NextAckData : Z; bHaveRecvedHeader : bool; bHaveRecvedEOT : bool }.

(** One iteration of the loop of [Ymodem_ReceiveTask], without the final test. *)
Definition receive_packet (v : task_vars) : Y task_vars :=
  _ ← YmodemRecvPacket (ui8NextAckData v);
  c ← ask y_ctx;
  if (ui8Code c =? RYM_CODE_SOH) || (ui8Code c =? RYM_CODE_STX) then
    if negb (bHaveRecvedHeader v) && (ui8Index c =? 0) then
      res ← files (f_open (c_string (packet_data c)));
      mret (mkVars RYM_CODE_ACK true (if res =? FR_OK then bHaveRecvedEOT v else true))
    else
      _ ← files (f_write (take (Z.to_nat (ui16PacketLength c)) (packet_data c)));
      mret (mkVars RYM_CODE_ACK (bHaveRecvedHeader v) (bHaveRecvedEOT v))
  else if ui8Code c =? RYM_CODE_EOT then
    _ ← send (replicate 6 RYM_CODE_CAN);
    _ ← drain 10;
    _ ← print [27; 91; 49; 65];
    _ ← print [27; 91; 75];
    _ ← print [114; 101; 99; 118; 32; 102; 105; 110; 105; 115; 104; 101; 100; 46; 10];
    mret (mkVars (ui8NextAckData v) (bHaveRecvedHeader v) true)
  else mret v.

Fixpoint receive_loop (fuel : nat) (v : task_vars) : Y unit :=
  match fuel with
  | O => fun _ => None
  | S fuel' =>
      v ← receive_packet v;
      if bHaveRecvedEOT v then _ ← files f_close; mret tt else receive_loop fuel' v
  end.

(** The loop ends when the sender says so: [fuel] bounds the packets. *)
Definition Ymodem_ReceiveTask (fuel : nat) : Y unit :=
  c ← ask y_ctx;
  _ ← set_ctx (with_state eRymInit c);
  receive_loop fuel (mkVars RYM_CODE_CRC false false).
End receiver.
