(* ===== verification/YmodemProofs.v ===== *)
(** * Properties of the file reception *)
From S2P Require Import Prelude Crc CrcProofs Xprintf Ymodem.
Open Scope Z_scope.

(** ** One byte *)

(** Between two bytes of a packet: [k] have come in. *)
Record got (k : nat) (c : YMODEM_CTX_T) : Prop := {
  got_buffer : length (aui8Data c) = buffer_size;
  got_written : ui16WrPosition c = Z.of_nat k;
  got_read : ui16RdPosition c = Z.of_nat k
}.

(** The context once the next byte has been stored. *)
Definition stored (k : nat) (b : Z) (c : YMODEM_CTX_T) : YMODEM_CTX_T :=
  mkCtx (ui8Code c) (ui8Index c) (<[k := b]> (aui8Data c)) (ui16PacketLength c) (eRymState c) (Z.of_nat (S k)) (Z.of_nat k).

Lemma take_byte_run k c b c' finished leave :
  got k c -> (k < buffer_size)%nat -> process_one (stored k b c) = Some (c', finished, leave) ->
  (leave = false -> ui16RdPosition c' = Z.of_nat (S k) /\ ui16WrPosition c' = Z.of_nat (S k)) ->
  take_byte b c = Some (c', finished).
Proof.
  intros [G1 G2 G3] Hk E Hl. unfold take_byte, store_byte. rewrite G2, Nat2Z.id.
  destruct (lookup_lt_is_Some_2 (aui8Data c) k) as [x Hx]; [lia|]. rewrite Hx. cbn [mbind option_bind].
  assert (Hsmall : (buffer_size <= 1029)%nat) by (by vm_compute).
  rewrite (u16_small (Z.of_nat k + 1)) by lia. cbn [ui16WrPosition ui16RdPosition]. rewrite G3.
  replace (Z.to_nat (Z.of_nat k + 1 - Z.of_nat k)) with 1%nat by lia.
  replace (Z.of_nat k + 1) with (Z.of_nat (S k)) by lia.
  change (mkCtx _ _ _ _ _ _ _) with (stored k b c). cbn [process_loop].
  cbn [stored ui16RdPosition ui16WrPosition]. rewrite (proj2 (Z.ltb_lt _ _)) by lia.
  rewrite E. cbn [mbind option_bind orb]. destruct leave; [done|]. destruct (Hl eq_refl) as [-> ->].
  by rewrite Z.ltb_irrefl.
Qed.

(** A packet is being received; its length is known after the first byte. *)
Definition waiting (k : nat) (c : YMODEM_CTX_T) : Prop :=
  got k c /\ (k = 0%nat \/ (ui16PacketLength c = RYM_PACKET_SIZE \/ ui16PacketLength c = RYM_PACKET_1K_SIZE) /\
                Z.of_nat k <= ui16PacketLength c + 4).

Lemma waiting_space k c : waiting k c -> (k < buffer_size)%nat.
Proof. unfold waiting, RYM_PACKET_SIZE, RYM_PACKET_1K_SIZE. change buffer_size with 1029%nat. lia. Qed.

Lemma got_next k b c (f : YMODEM_CTX_T -> YMODEM_CTX_T) :
  got k c -> (k < buffer_size)%nat ->
  (forall c, aui8Data (f c) = aui8Data c) -> (forall c, ui16WrPosition (f c) = ui16WrPosition c) ->
  (forall c, ui16RdPosition (f c) = ui16RdPosition c) ->
  let c' := next_rd (f (stored k b c)) in
  got (S k) c' /\ ui16RdPosition c' = Z.of_nat (S k) /\ ui16WrPosition c' = Z.of_nat (S k).
Proof.
  intros [G1 G2 G3] Hk F1 F2 F3 c'. assert (Hsmall : (buffer_size <= 1029)%nat) by (by vm_compute).
  assert (Er : ui16RdPosition c' = Z.of_nat (S k)).
  { subst c'. cbn [next_rd ui16RdPosition]. rewrite F3. cbn [stored ui16RdPosition]. rewrite u16_small by lia. lia. }
  assert (Ew : ui16WrPosition c' = Z.of_nat (S k)) by (subst c'; cbn [next_rd ui16WrPosition]; by rewrite F2).
  split; [|done]. split; [|done|done]. subst c'. cbn [next_rd aui8Data]. rewrite F1. cbn [stored aui8Data].
  by rewrite length_insert.
Qed.

Lemma stored_byte k b c : (k < length (aui8Data c))%nat -> aui8Data (stored k b c) !! k = Some b.
Proof. intros. cbn [stored aui8Data]. by rewrite list_lookup_insert_eq. Qed.

(** The first three bytes, and the others. *)
Lemma take_code c b : waiting 0 c ->
  let c1 := with_code b (stored 0 b c) in
  let c' := next_rd (if b =? RYM_CODE_SOH then with_length RYM_PACKET_SIZE eRymRecv c1
                     else if b =? RYM_CODE_STX then with_length RYM_PACKET_1K_SIZE eRymRecv c1
                     else with_length 0 eRymDone c1) in
  take_byte b c = Some (c', negb ((b =? RYM_CODE_SOH) || (b =? RYM_CODE_STX))) /\ got 1 c'.
Proof.
  intros [G _] c1 c'. pose proof G as [G1 G2 G3].
  assert (Hg : got 1 c' /\ ui16RdPosition c' = Z.of_nat 1 /\ ui16WrPosition c' = Z.of_nat 1).
  { subst c' c1. by destruct (b =? RYM_CODE_SOH), (b =? RYM_CODE_STX);
      apply (got_next 0 b c (fun c => with_length _ _ (with_code b c))); try done; vm_compute; lia. }
  destruct Hg as (Hg&Hr&Hw). split; [|done].
  eapply (take_byte_run 0); [done|by vm_compute; lia| |by intros _].
  assert (Hb : aui8Data (stored 0 b c) !! Z.to_nat (ui16RdPosition (stored 0 b c)) = Some b).
  { apply (stored_byte 0). rewrite G1. vm_compute. lia. }
  unfold process_one. cbv zeta. rewrite Hb. cbn [mbind option_bind]. change (ui16RdPosition (stored 0 b c) =? 0) with true.
  cbn [negb]. subst c' c1.
  by destruct (b =? RYM_CODE_SOH), (b =? RYM_CODE_STX).
Qed.

Lemma process_index k b c : k = 1%nat -> (k < length (aui8Data c))%nat ->
  process_one (stored k b c) = Some (next_rd (with_packet_index b (stored k b c)), false, false).
Proof.
  intros -> Hk. assert (Hb : aui8Data (stored 1 b c) !! Z.to_nat 1 = Some b) by (by apply (stored_byte 1)).
  unfold process_one. cbv zeta. change (ui16RdPosition (stored 1 b c)) with 1. rewrite Hb. done.
Qed.

Lemma take_index c b : waiting 1 c ->
  let c' := next_rd (with_packet_index b (stored 1 b c)) in
  take_byte b c = Some (c', false) /\ got 2 c'.
Proof.
  intros Hw c'. pose proof (waiting_space _ _ Hw) as Hs. destruct Hw as [G _].
  destruct (got_next 1 b c (with_packet_index b) G Hs) as (Hg&Hr&Hw); [done..|]. split; [|done].
  eapply (take_byte_run 1); [done|done| |done]. apply process_index; [done|]. by rewrite (got_buffer _ _ G).
Qed.

Lemma take_complement c b : waiting 2 c ->
  take_byte b c = Some (if Z.land (ui8Index c) b =? 0 then (next_rd (stored 2 b c), false)
                        else (with_length 0 eRymFail (stored 2 b c), true)) /\
  got 3 (next_rd (stored 2 b c)).
Proof.
  intros Hw. pose proof (waiting_space _ _ Hw) as Hs. destruct Hw as [G _].
  destruct (got_next 2 b c (fun c => c) G Hs) as (Hg&Hr&Hw); [done..|]. split; [|done].
  assert (Hb : aui8Data (stored 2 b c) !! Z.to_nat 2 = Some b).
  { apply (stored_byte 2). by rewrite (got_buffer _ _ G). }
  assert (E : process_one (stored 2 b c) = Some (if Z.land (ui8Index c) b =? 0 then (next_rd (stored 2 b c), false, false)
                        else (with_length 0 eRymFail (stored 2 b c), true, true))).
  { unfold process_one. cbv zeta. change (ui16RdPosition (stored 2 b c)) with 2. rewrite Hb.
    cbn [mbind option_bind Z.eqb Pos.eqb]. change (ui8Index (stored 2 b c)) with (ui8Index c).
    by destruct (Z.land (ui8Index c) b =? 0). }
  destruct (Z.land (ui8Index c) b =? 0); by eapply (take_byte_run 2).
Qed.

Lemma take_data k c b : waiting k c -> (3 <= k)%nat -> Z.of_nat k < ui16PacketLength c + 4 ->
  take_byte b c = Some (next_rd (stored k b c), false) /\ got (S k) (next_rd (stored k b c)).
Proof.
  intros Hw Hk Hlen. pose proof (waiting_space _ _ Hw) as Hs. destruct Hw as [G _].
  destruct (got_next k b c (fun c => c) G Hs) as (Hg&Hr&Hw); [done..|]. split; [|done].
  eapply (take_byte_run k); [done|done| |done]. unfold process_one. cbn [stored ui16RdPosition ui16PacketLength].
  unfold RYM_PACKET_HEADER. repeat (rewrite (proj2 (Z.eqb_neq _ _)) by lia). done.
Qed.

(** The last byte ends the packet, whatever the check says. *)
Lemma take_last c b : let k := Z.to_nat (ui16PacketLength c + 4) in waiting k c -> (3 <= k)%nat ->
  exists st, take_byte b c = Some (with_state st (stored k b c), true).
Proof.
  intros k Hw Hk. pose proof (waiting_space _ _ Hw) as Hs. destruct Hw as [G Hlen].
  assert (Hl : 0 <= ui16PacketLength c) by (unfold RYM_PACKET_SIZE, RYM_PACKET_1K_SIZE in Hlen; lia).
  assert (exists st, process_one (stored k b c) = Some (with_state st (stored k b c), true, true)) as [st E].
  { unfold process_one. cbv zeta. change (ui16RdPosition (stored k b c)) with (Z.of_nat k).
    change (ui16PacketLength (stored k b c)) with (ui16PacketLength c).
    unfold RYM_PACKET_HEADER in *. repeat (rewrite (proj2 (Z.eqb_neq _ _)) by lia).
    rewrite (proj2 (Z.eqb_eq _ _)) by lia.
    destruct (lookup_lt_is_Some_2 (aui8Data (stored k b c)) (Z.to_nat (3 + ui16PacketLength c + 0))) as [x0 H0].
    { cbn [stored aui8Data]. rewrite length_insert, (got_buffer _ _ G). lia. }
    destruct (lookup_lt_is_Some_2 (aui8Data (stored k b c)) (Z.to_nat (3 + ui16PacketLength c + 1))) as [x1 H1].
    { cbn [stored aui8Data]. rewrite length_insert, (got_buffer _ _ G). lia. }
    rewrite H0, H1. cbn [mbind option_bind]. eexists. reflexivity. }
  exists st. by eapply (take_byte_run k).
Qed.

(** ** Termination and bounds *)

Lemma take_total k c b : waiting k c ->
  exists c' finished, take_byte b c = Some (c', finished) /\ length (aui8Data c') = buffer_size /\
    (finished = false -> waiting (S k) c').
Proof.
  intros Hw. pose proof (waiting_space _ _ Hw) as Hs. pose proof (got_buffer _ _ (proj1 Hw)) as Hb.
  assert (k = 0 \/ k = 1 \/ k = 2 \/ 3 <= k)%nat as [-> | [-> | [-> | Hk]]] by lia.
  - destruct (take_code c b Hw) as [E G]. eexists _, _. split; [exact E|]. split; [apply (got_buffer _ _ G)|].
    rewrite negb_false_iff. intros Hc. split; [done|]. right. unfold RYM_PACKET_SIZE, RYM_PACKET_1K_SIZE.
    destruct (b =? RYM_CODE_SOH); [|destruct (b =? RYM_CODE_STX); [|done]]; cbn; lia.
  - destruct (take_index c b Hw) as [E G]. eexists _, _. split; [exact E|]. split; [apply (got_buffer _ _ G)|].
    intros _. split; [done|]. right. destruct Hw as [_ [|[H _]]]; [done|].
    cbn [next_rd with_packet_index stored ui16PacketLength]. unfold RYM_PACKET_SIZE, RYM_PACKET_1K_SIZE in *. lia.
  - destruct (take_complement c b Hw) as [E G]. destruct (Z.land (ui8Index c) b =? 0).
    + eexists _, _. split; [exact E|]. split; [apply (got_buffer _ _ G)|].
      intros _. split; [done|]. right. destruct Hw as [_ [|[H _]]]; [done|].
      cbn [next_rd stored ui16PacketLength]. unfold RYM_PACKET_SIZE, RYM_PACKET_1K_SIZE in *. lia.
    + eexists _, _. split; [exact E|]. split; [|done]. cbn [with_length stored aui8Data]. by rewrite length_insert.
  - pose proof Hw as [_ [|[H Hk2]]]; [lia|]. destruct (decide (Z.of_nat k = ui16PacketLength c + 4)) as [Ek|Hne].
    + assert (k = Z.to_nat (ui16PacketLength c + 4)) as Ek' by lia.
      destruct (take_last c b) as [st E]; [by rewrite <- Ek'|lia|]. rewrite <- Ek' in E.
      eexists _, _. split; [exact E|]. split; [|done]. cbn. by rewrite length_insert.
    + destruct (take_data k c b Hw Hk) as [E G]; [lia|]. eexists _, _. split; [exact E|].
      split; [apply (got_buffer _ _ G)|]. intros _. split; [done|]. right.
      cbn [next_rd stored ui16PacketLength]. split; [done|lia].
Qed.

Section receiver.
Context {F : Type} `{FatFs F}.

Lemma recv_step n b c c' finished (y : ysys F) :
  u8 (y_in y 0%nat) = b -> y_ctx y = c -> take_byte b c = Some (c', finished) ->
  recv_loop (S n) false y = recv_loop n finished (mkYsys c' (fun i => y_in y (S i)) (y_out y) (y_fs y)).
Proof.
  intros Hb Hc E. cbn [recv_loop]. unfold YmodemRecvOneByte, mbind at 1, prog_bind at 1. rewrite Hb.
  erewrite try_ask_bind; [|cbn [y_ctx]; rewrite Hc; exact E]. exact eq_refl.
Qed.

Lemma recv_loop_total n k c (y : ysys F) :
  waiting k c -> y_ctx y = c -> (n + k = buffer_size)%nat ->
  exists j c', (1 <= j <= n)%nat /\ length (aui8Data c') = buffer_size /\
    recv_loop n false y = Some (tt, mkYsys c' (fun i => y_in y (j + i)%nat) (y_out y) (y_fs y)).
Proof.
  revert k c y. induction n as [|n IH]; intros k c y Hw Hc Hn.
  { pose proof (waiting_space _ _ Hw). lia. }
  destruct (take_total k c (u8 (y_in y 0%nat)) Hw) as (c1&finished&E&Hb&Hnext).
  rewrite (recv_step n _ _ _ _ y eq_refl Hc E). destruct finished.
  - exists 1%nat, c1. split; [lia|]. split; [done|]. destruct n; exact eq_refl.
  - destruct (IH (S k) c1 (mkYsys c1 (fun i => y_in y (S i)) (y_out y) (y_fs y))) as (j&c'&Hj&Hc'&E');
      [by apply Hnext|done|lia|].
    exists (S j), c'. split; [lia|]. split; [done|]. exact E'.
Qed.
End receiver.

(** C20 — The reception of one packet ends, whatever comes in: after at most 1029
    bytes, the size of the buffer, and never outside of the buffer. *)
Theorem YmodemRecvPacket_total {F} `{FatFs F} (ui8NextAckData : Z) (y : ysys F) :
  length (aui8Data (y_ctx y)) = buffer_size ->
  exists j c', (1 <= j <= buffer_size)%nat /\ length (aui8Data c') = buffer_size /\
    YmodemRecvPacket ui8NextAckData y =
      Some (tt, mkYsys c' (fun i => y_in y (j + i)%nat) (y_out y ++ [ui8NextAckData]) (y_fs y)).
Proof.
  intros Hb. unfold YmodemRecvPacket. rewrite ask_bind.
  set (c := mkCtx _ _ _ _ _ 0 0). unfold set_ctx, YmodemSendOneByte, send. rewrite !update_bind.
  cbn [y_ctx y_in y_out y_fs].
  apply (recv_loop_total buffer_size 0 c (mkYsys c (y_in y) (y_out y ++ [ui8NextAckData]) (y_fs y)));
    [|done|lia]. split; [by split|by left].
Qed.

(** A volume for the examples: the name and contents of the open file, the files
    that have been closed, and the bytes that are free.  A file needs a name, and
    what does not fit is not written. *)
Record volume := mkVolume { v_open : option (list Z * list Z); v_files : list (list Z * list Z); v_free : nat }.

#[export] Instance volume_fat : FatFs volume := {
  f_open := fun name v => match name with
    | [] => (6, v)
    | _ => (FR_OK, mkVolume (Some (name, [])) (v_files v) (v_free v))
    end;
  f_write := fun bs v => match v_open v with
    | Some (name, data) => let n := min (length bs) (v_free v) in
        ((FR_OK, Z.of_nat n), mkVolume (Some (name, data ++ take n bs)) (v_files v) (v_free v - n))
    | None => ((9, 0), v)
    end;
  f_close := fun v => match v_open v with
    | Some f => (FR_OK, mkVolume None (f :: v_files v) (v_free v))
    | None => (9, v)
    end
}.

Definition new_volume (free : nat) : volume := mkVolume None [] free.
Definition idle_line : ysys volume := mkYsys mRymCtx (fun _ => 0) [] (new_volume 0).

Lemma YmodemRecvPacket_total_witness :
  exists j c', (1 <= j <= 1029)%nat /\ YmodemRecvPacket 67 idle_line =
    Some (tt, mkYsys c' (fun i => y_in idle_line (j + i)%nat) [67] (new_volume 0)).
Proof.
  destruct (YmodemRecvPacket_total 67 idle_line) as (j&c'&Hj&_&E); [by vm_compute|].
  exists j, c'. split; [exact Hj|exact E].
Defined.

(** ** A sender *)

Record packet := mkPacket { pk_large : bool; pk_index : Z; pk_data : list Z; pk_check : Z * Z }.

(** The check bytes are any. *)
Definition packet_ok (p : packet) : Prop :=
  byte_ok (pk_index p) /\ Forall byte_ok (pk_data p) /\
  Z.of_nat (length (pk_data p)) = (if pk_large p then RYM_PACKET_1K_SIZE else RYM_PACKET_SIZE) /\
  byte_ok (fst (pk_check p)) /\ byte_ok (snd (pk_check p)).

Definition packet_code (p : packet) : Z := if pk_large p then RYM_CODE_STX else RYM_CODE_SOH.

Definition packet_bytes (p : packet) : list Z :=
  packet_code p :: pk_index p :: 255 - pk_index p :: pk_data p ++ [fst (pk_check p); snd (pk_check p)].

Fixpoint prepend (bs : list Z) (rest : nat -> Z) : nat -> Z :=
  match bs with [] => rest | b :: bs' => fun i => match i with O => b | S i' => prepend bs' rest i' end end.

(** The bytes of one packet; only the last one ends it. *)
Fixpoint feed (bs : list Z) (c : YMODEM_CTX_T) : option (YMODEM_CTX_T * bool) :=
  match bs with
  | [] => Some (c, false)
  | b :: bs' =>
      '(c, finished) ← take_byte b c;
      if (finished : bool) then match bs' with [] => Some (c, true) | _ => None end else feed bs' c
  end.

Lemma feed_app bs1 bs2 c c1 : feed bs1 c = Some (c1, false) -> feed (bs1 ++ bs2) c = feed bs2 c1.
Proof.
  revert c. induction bs1 as [|b bs1 IH]; intros c E; cbn [feed app] in *; [by injection E as ->|].
  destruct (take_byte b c) as [[c2 []]|]; cbn [mbind option_bind] in *; [by destruct bs1|by apply IH|done].
Qed.

Lemma feed_one b c c1 : take_byte b c = Some (c1, false) -> feed [b] c = Some (c1, false).
Proof. intros E. cbn [feed]. by rewrite E. Qed.

Lemma feed_data bs k c : waiting k c -> (3 <= k)%nat ->
  Z.of_nat k + Z.of_nat (length bs) <= ui16PacketLength c + 4 ->
  exists c', feed bs c = Some (c', false) /\ waiting (k + length bs) c' /\ ui8Code c' = ui8Code c /\
    ui8Index c' = ui8Index c /\ ui16PacketLength c' = ui16PacketLength c /\
    take (k + length bs) (aui8Data c') = take k (aui8Data c) ++ bs.
Proof.
  revert k c. induction bs as [|b bs IH]; intros k c Hw Hk Hlen; cbn [length] in *.
  { exists c. rewrite Nat.add_0_r, app_nil_r. by split_and!. }
  pose proof (waiting_space _ _ Hw) as Hs. pose proof (got_buffer _ _ (proj1 Hw)) as Hb.
  destruct (take_data k c b Hw Hk) as [E G]; [lia|].
  destruct (IH (S k) (next_rd (stored k b c))) as (c'&E'&Hw'&H1&H2&H3&H4).
  { split; [done|]. right. destruct Hw as [_ [|[H _]]]; [lia|]. cbn [next_rd stored ui16PacketLength]. split; [done|lia]. }
  { lia. } { cbn [next_rd stored ui16PacketLength]. lia. }
  exists c'. replace (k + S (length bs))%nat with (S k + length bs)%nat by lia. split_and!; try done.
  - cbn [feed]. rewrite E. exact E'.
  - rewrite H4. cbn [next_rd stored aui8Data].
    rewrite (take_S_r _ _ b) by (apply list_lookup_insert_eq; lia). rewrite take_insert_ge by lia.
    by rewrite <- app_assoc.
Qed.

Lemma complement_apart i : byte_ok i -> Z.land i (255 - i) = 0.
Proof. apply (every_byte (fun i => Z.land i (255 - i) = 0)). by vm_compute. Qed.

(** A packet arrives as it was sent. *)
Lemma packet_received c p : waiting 0 c -> packet_ok p ->
  exists c', feed (packet_bytes p) c = Some (c', true) /\ ui8Code c' = packet_code p /\ ui8Index c' = pk_index p /\
    ui16PacketLength c' = Z.of_nat (length (pk_data p)) /\ length (aui8Data c') = buffer_size /\
    exists more, packet_data c' = pk_data p ++ more.
Proof.
  intros Hw (Hi&_&Hlen&_). set (bs := pk_data p) in *. set (L := Z.of_nat (length bs)) in *.
  assert (HL : L = RYM_PACKET_SIZE \/ L = RYM_PACKET_1K_SIZE) by (destruct (pk_large p); auto).
  set (c1 := next_rd (with_length L eRymRecv (with_code (packet_code p) (stored 0 (packet_code p) c)))).
  assert (E1 : take_byte (packet_code p) c = Some (c1, false) /\ got 1 c1).
  { destruct (take_code c (packet_code p) Hw) as [E G]. subst c1. rewrite Hlen. unfold packet_code in *. by destruct (pk_large p). }
  destruct E1 as [E1 G1]. unfold RYM_PACKET_SIZE, RYM_PACKET_1K_SIZE in HL.
  assert (W1 : waiting 1 c1) by (split; [done|right]; cbn; unfold RYM_PACKET_SIZE, RYM_PACKET_1K_SIZE; lia).
  destruct (take_index c1 (pk_index p) W1) as [E2 G2]. set (c2 := next_rd (with_packet_index _ _)) in *.
  assert (W2 : waiting 2 c2) by (split; [done|right]; cbn; unfold RYM_PACKET_SIZE, RYM_PACKET_1K_SIZE; lia).
  destruct (take_complement c2 (255 - pk_index p) W2) as [E3 G3]. set (c3 := next_rd (stored 2 _ c2)) in *.
  change (ui8Index c2) with (pk_index p) in E3. rewrite complement_apart in E3 by done. cbn [Z.eqb] in E3.
  assert (W3 : waiting 3 c3) by (split; [done|right]; cbn; unfold RYM_PACKET_SIZE, RYM_PACKET_1K_SIZE; lia).
  assert (E30 : ui16PacketLength c3 = L) by done.
  destruct (feed_data (bs ++ [fst (pk_check p)]) 3 c3 W3) as (c4&E4&W4&H1&H2&H3&H4);
    [lia|rewrite length_app, E30; cbn [length]; lia|].
  rewrite length_app in *. cbn [length] in *.
  destruct (take_last c4 (snd (pk_check p))) as [st E5].
  { rewrite H3, E30. replace (Z.to_nat (L + 4)) with (3 + (length bs + 1))%nat by lia. exact W4. }
  { rewrite H3, E30. lia. }
  rewrite H3, E30 in E5. eexists. split.
  - unfold packet_bytes. cbn [feed]. rewrite E1. cbn [mbind option_bind]. rewrite E2. cbn [mbind option_bind].
    rewrite E3. cbn [mbind option_bind]. fold bs.
    replace (bs ++ [fst (pk_check p); snd (pk_check p)]) with ((bs ++ [fst (pk_check p)]) ++ [snd (pk_check p)])
      by (by rewrite <- app_assoc).
    rewrite (feed_app _ _ _ _ E4). cbn [feed]. rewrite E5. reflexivity.
  - split; [exact H1|]. split; [exact H2|]. split; [etrans; [exact H3|exact E30]|].
    cbn [with_state with_length stored aui8Data]. split; [rewrite length_insert; apply (got_buffer _ _ (proj1 W4))|].
    unfold packet_data. cbn [with_state with_length stored aui8Data]. change (Z.to_nat RYM_PACKET_HEADER) with 3%nat.
    set (d := <[_ := _]> (aui8Data c4)). exists (drop (length bs) (drop 3 d)).
    rewrite <- (take_drop (length bs) (drop 3 d)) at 1. f_equal. subst d.
    rewrite take_drop_commute, take_insert_ge by lia.
    replace (take (3 + length bs) (aui8Data c4)) with (take (3 + length bs) (take (3 + (length bs + 1)) (aui8Data c4)))
      by (rewrite take_take; f_equal; lia).
    rewrite H4.
    assert (L3 : length (take 3 (aui8Data c3)) = 3%nat).
    { rewrite length_take, (got_buffer _ _ (proj1 W3)). change buffer_size with 1029%nat. lia. }
    rewrite take_app_ge by lia. rewrite L3, drop_app_ge by lia. rewrite L3. change (3 - 3)%nat with 0%nat.
    replace (3 + length bs - 3)%nat with (length bs) by lia. by rewrite drop_0, take_app_length.
Qed.

(** ** The file system *)

(** What FatFs promises (documents/doc of ff15): a call may fail.  When [f_open]
    returns [FR_OK] the file is open and empty.  When [f_write] on an open file
    returns [FR_OK] it has appended the first [bw] of the bytes, all of
    them unless the volume is full; after an error nothing is known.  When
    [f_close] returns [FR_OK] the volume holds the file. *)
Class FatFsLaws (F : Type) `{FatFs F} := {
  fs_open : F -> list Z -> list Z -> Prop;
  fs_holds : F -> list Z -> list Z -> Prop;
  f_open_law fs fs' name : f_open name fs = (FR_OK, fs') -> fs_open fs' name [];
  f_write_law fs fs' name data bs bw : fs_open fs name data -> f_write bs fs = ((FR_OK, bw), fs') ->
    0 <= bw <= Z.of_nat (length bs) /\ fs_open fs' name (data ++ take (Z.to_nat bw) bs);
  f_close_law fs fs' name data : fs_open fs name data -> f_close fs = (FR_OK, fs') -> fs_holds fs' name data
}.

(** The data packets [ps] written one after the other: the results, and the state. *)
Fixpoint write_all {F} `{FatFs F} (ps : list packet) (fs : F) : list (Z * Z) * F :=
  match ps with
  | [] => ([], fs)
  | p :: ps' => let '(r, fs) := f_write (pk_data p) fs in let '(rs, fs) := write_all ps' fs in (r :: rs, fs)
  end.

(** The bytes that were written. *)
Fixpoint written_data (ps : list packet) (rs : list (Z * Z)) : list Z :=
  match ps, rs with
  | p :: ps', r :: rs' => take (Z.to_nat (snd r)) (pk_data p) ++ written_data ps' rs'
  | _, _ => []
  end.

Definition in_full (p : packet) (r : Z * Z) : Prop := r = (FR_OK, Z.of_nat (length (pk_data p))).

Lemma written_in_full ps rs : Forall2 in_full ps rs -> Forall (fun r => fst r = FR_OK) rs /\ written_data ps rs = ps ≫= pk_data.
Proof.
  induction 1 as [|p r ps rs -> _ [IH1 IH2]]; [done|]. split; [by constructor|]. rewrite bind_cons. cbn [written_data snd].
  by rewrite Nat2Z.id, take_ge, IH2 by lia.
Qed.

Lemma write_all_open {F} `{FatFsLaws F} ps (fs : F) name data : fs_open fs name data ->
  let '(rs, fs') := write_all ps fs in
  Forall (fun r => fst r = FR_OK) rs -> fs_open fs' name (data ++ written_data ps rs).
Proof.
  revert fs data. induction ps as [|p ps IH]; intros fs data Hf; cbn [write_all].
  - intros _. cbn [written_data]. by rewrite app_nil_r.
  - destruct (f_write (pk_data p) fs) as [[r bw] fs1] eqn:E. destruct (write_all ps fs1) as [rs fs2] eqn:E2.
    intros [Hr Hrs]%Forall_cons. cbn [fst] in Hr. subst r. destruct (f_write_law _ _ _ _ _ _ Hf E) as [_ Hf1].
    specialize (IH fs1 _ Hf1). rewrite E2 in IH. cbn [written_data snd]. rewrite app_assoc. by apply IH.
Qed.

Section task.
Context {F : Type} `{FatFs F}.

Lemma recv_feed bs n c c' (y : ysys F) rest : Forall byte_ok bs -> feed bs c = Some (c', true) ->
  y_ctx y = c -> y_in y = prepend bs rest -> (length bs <= n)%nat ->
  recv_loop n false y = Some (tt, mkYsys c' rest (y_out y) (y_fs y)).
Proof.
  intros Hok. revert n c y. induction Hok as [|b bs Hb _ IH]; intros n c y E Hc Hin Hn; [done|].
  destruct n as [|n]; [cbn in Hn; lia|]. cbn [feed] in E.
  destruct (take_byte b c) as [[c1 finished]|] eqn:E1; [|done]. cbn [mbind option_bind] in E.
  rewrite (recv_step n b c c1 finished y) by (done || (rewrite Hin; by apply u8_small)).
  assert (Hin1 : (fun i => y_in y (S i)) = prepend bs rest) by (by rewrite Hin). rewrite Hin1. destruct finished.
  - destruct bs; [|done]. injection E as <-. destruct n; exact eq_refl.
  - apply (IH n c1 (mkYsys c1 (prepend bs rest) (y_out y) (y_fs y))); [done|done|done|cbn in Hn; lia].
Qed.

(** The context at the start of a packet. *)
Lemma recv_start ack (y : ysys F) : length (aui8Data (y_ctx y)) = buffer_size ->
  exists c, waiting 0 c /\ aui8Data c = aui8Data (y_ctx y) /\
    YmodemRecvPacket ack y = recv_loop buffer_size false (mkYsys c (y_in y) (y_out y ++ [ack]) (y_fs y)).
Proof.
  intros Hb. unfold YmodemRecvPacket. rewrite ask_bind. set (c := mkCtx _ _ _ _ _ 0 0).
  unfold set_ctx, YmodemSendOneByte, send. rewrite !update_bind. exists c. split; [|done]. split; [by split|by left].
Qed.

Lemma packet_bytes_ok p : packet_ok p -> Forall byte_ok (packet_bytes p) /\ (length (packet_bytes p) <= buffer_size)%nat.
Proof.
  intros (Hi&Hd&Hl&Hc1&Hc2). split.
  - unfold packet_bytes. rewrite !Forall_cons, Forall_app, !Forall_cons, Forall_nil.
    unfold packet_code, byte_ok in *. destruct (pk_large p); split_and!; done || lia.
  - unfold packet_bytes. cbn [length]. rewrite length_app. cbn [length]. change buffer_size with 1029%nat.
    unfold RYM_PACKET_1K_SIZE, RYM_PACKET_SIZE in Hl. destruct (pk_large p); lia.
Qed.

Lemma recv_packet ack (y : ysys F) p rest : length (aui8Data (y_ctx y)) = buffer_size -> packet_ok p ->
  y_in y = prepend (packet_bytes p) rest ->
  exists c', YmodemRecvPacket ack y = Some (tt, mkYsys c' rest (y_out y ++ [ack]) (y_fs y)) /\
    ui8Code c' = packet_code p /\ ui8Index c' = pk_index p /\
    ui16PacketLength c' = Z.of_nat (length (pk_data p)) /\ length (aui8Data c') = buffer_size /\
    exists more, packet_data c' = pk_data p ++ more.
Proof.
  intros Hb Hp Hin. destruct (recv_start ack y Hb) as (c&Hw&_&->).
  destruct (packet_received c p Hw Hp) as (c'&E&Hrest). exists c'. split; [|done].
  destruct (packet_bytes_ok p Hp) as [H1 H2].
  by rewrite (recv_feed _ _ _ _ (mkYsys c (y_in y) (y_out y ++ [ack]) (y_fs y)) rest H1 E eq_refl Hin H2).
Qed.

Lemma packet_code_test p : (packet_code p =? RYM_CODE_SOH) || (packet_code p =? RYM_CODE_STX) = true.
Proof. unfold packet_code. by destruct (pk_large p). Qed.

(** The header opens the file. *)
Lemma header_opens ack (y : ysys F) p rest name more :
  length (aui8Data (y_ctx y)) = buffer_size -> packet_ok p -> y_in y = prepend (packet_bytes p) rest ->
  pk_index p = 0 -> pk_data p = name ++ 0 :: more -> Forall (fun b => b <> 0) name ->
  exists c', receive_packet (mkVars ack false false) y =
      Some (mkVars RYM_CODE_ACK true (negb (fst (f_open name (y_fs y)) =? FR_OK)),
            mkYsys c' rest (y_out y ++ [ack]) (snd (f_open name (y_fs y)))) /\
    length (aui8Data c') = buffer_size.
Proof.
  intros Hb Hp Hin Hi Hd Hn. destruct (recv_packet ack y p rest Hb Hp Hin) as (c'&E&H1&H2&H3&H4&m&H5).
  exists c'. split; [|done].
  unfold receive_packet. cbn [ui8NextAckData bHaveRecvedHeader bHaveRecvedEOT].
  rewrite (bind_run _ _ _ _ _ E), ask_bind. cbn [y_ctx]. rewrite H1, packet_code_test, H2, Hi. cbn [negb andb Z.eqb].
  unfold files, mbind at 1, prog_bind at 1. cbn [y_fs y_ctx y_in y_out]. rewrite H5, Hd, <- app_assoc. cbn [app].
  rewrite c_string_app by done. destruct (f_open name (y_fs y)) as [res fs']. cbn [fst snd]. by destruct (res =? FR_OK).
Qed.

(** The data of any other packet is handed to [f_write]. *)
Lemma packet_appends ack (y : ysys F) p rest :
  length (aui8Data (y_ctx y)) = buffer_size -> packet_ok p -> y_in y = prepend (packet_bytes p) rest ->
  exists c', receive_packet (mkVars ack true false) y =
      Some (mkVars RYM_CODE_ACK true false, mkYsys c' rest (y_out y ++ [ack]) (snd (f_write (pk_data p) (y_fs y)))) /\
    length (aui8Data c') = buffer_size.
Proof.
  intros Hb Hp Hin. destruct (recv_packet ack y p rest Hb Hp Hin) as (c'&E&H1&H2&H3&H4&m&H5).
  exists c'. split; [|done].
  unfold receive_packet. cbn [ui8NextAckData bHaveRecvedHeader bHaveRecvedEOT].
  rewrite (bind_run _ _ _ _ _ E), ask_bind. cbn [y_ctx]. rewrite H1, packet_code_test. cbn [negb andb].
  unfold files, mbind at 1, prog_bind at 1. cbn [y_fs y_ctx y_in y_out]. rewrite H3, H5, Nat2Z.id, take_app_length.
  by destruct (f_write (pk_data p) (y_fs y)).
Qed.

Definition farewell : list Z := replicate 6 RYM_CODE_CAN ++ [27; 91; 49; 65] ++ [27; 91; 75] ++
  [114; 101; 99; 118; 32; 102; 105; 110; 105; 115; 104; 101; 100; 46; 13; 10].

Lemma drain_run bs (y : ysys F) rest : y_in y = prepend bs rest ->
  drain (length bs) y = Some (tt, mkYsys (y_ctx y) rest (y_out y) (y_fs y)).
Proof.
  revert y. induction bs as [|b bs IH]; intros y Hin; cbn [length drain prepend] in *.
  - destruct y; cbn in *. by subst.
  - unfold YmodemRecvOneByte. unfold mbind, prog_bind. rewrite IH with (y := mkYsys _ _ _ _); [done|]. cbn [y_in]. by rewrite Hin.
Qed.

Lemma send_run bs (y : ysys F) : send bs y = Some (tt, mkYsys (y_ctx y) (y_in y) (y_out y ++ bs) (y_fs y)).
Proof. reflexivity. Qed.

Lemma print_run fmt out (y : ysys F) : xprintf fmt [] = Some out ->
  print fmt y = Some (tt, mkYsys (y_ctx y) (y_in y) (y_out y ++ out) (y_fs y)).
Proof. intros E. unfold print. by rewrite E. Qed.

(** The end of the transmission. *)
Lemma end_received ack (y : ysys F) dummy rest :
  length (aui8Data (y_ctx y)) = buffer_size -> length dummy = 10%nat ->
  y_in y = prepend (RYM_CODE_EOT :: dummy) rest ->
  exists c', receive_packet (mkVars ack true false) y =
    Some (mkVars ack true true, mkYsys c' rest (y_out y ++ [ack] ++ farewell) (y_fs y)).
Proof.
  intros Hb Hd Hin. destruct (recv_start ack y Hb) as (c&Hw&_&E).
  destruct (take_code c RYM_CODE_EOT Hw) as [Et _]. cbn [Z.eqb Pos.eqb orb negb] in Et.
  set (c' := next_rd _) in Et. exists c'.
  assert (E' : YmodemRecvPacket ack y = Some (tt, mkYsys c' (prepend dummy rest) (y_out y ++ [ack]) (y_fs y))).
  { rewrite E. replace buffer_size with (S 1028) by (by vm_compute). rewrite (recv_step _ RYM_CODE_EOT c c' true) by (try done; cbn [y_in]; by rewrite Hin).
    cbn [y_in y_out y_fs]. rewrite Hin. exact eq_refl. }
  unfold receive_packet. cbn [ui8NextAckData bHaveRecvedHeader bHaveRecvedEOT].
  rewrite (bind_run _ _ _ _ _ E'), ask_bind. cbn [y_ctx].
  change (ui8Code c') with RYM_CODE_EOT.
  change ((RYM_CODE_EOT =? RYM_CODE_SOH) || (RYM_CODE_EOT =? RYM_CODE_STX)) with false.
  change (RYM_CODE_EOT =? RYM_CODE_EOT) with true. cbn match.
  rewrite (bind_run _ _ _ _ _ (send_run _ _)). cbn [y_ctx y_in y_out y_fs]. rewrite <- Hd.
  erewrite bind_run; [|by apply drain_run]. cbn [y_ctx y_in y_out y_fs].
  do 3 (erewrite bind_run; [|by apply print_run; vm_compute]; cbn [y_ctx y_in y_out y_fs]).
  unfold farewell. rewrite <- !app_assoc. exact eq_refl.
Qed.

Lemma prepend_app xs ys rest : prepend (xs ++ ys) rest = prepend xs (prepend ys rest).
Proof. induction xs as [|x xs IH]; cbn [app prepend]; [done|]. by rewrite IH. Qed.

(** After the header: the rest of the transmission. *)
Lemma receive_rest ps : forall fuel ack (y : ysys F) dummy rest,
  length (aui8Data (y_ctx y)) = buffer_size -> Forall packet_ok ps -> length dummy = 10%nat ->
  y_in y = prepend ((ps ≫= packet_bytes) ++ RYM_CODE_EOT :: dummy) rest -> (length ps < fuel)%nat ->
  exists c', receive_loop fuel (mkVars ack true false) y =
      Some (tt, mkYsys c' rest (y_out y ++ (ack :: replicate (length ps) RYM_CODE_ACK) ++ farewell)
                  (snd (f_close (snd (write_all ps (y_fs y)))))).
Proof.
  induction ps as [|p ps IH]; intros [|fuel] ack y dummy rest Hb Hps Hd Hin Hfuel; cbn [length] in Hfuel;
    try lia; cbn [receive_loop].
  - destruct (end_received ack y dummy rest Hb Hd Hin) as [c' E]. rewrite (bind_run _ _ _ _ _ E).
    cbn [bHaveRecvedEOT]. exists c'. unfold files, mbind, prog_bind. cbn [y_fs y_ctx y_in y_out write_all snd].
    by destruct (f_close (y_fs y)).
  - apply Forall_cons in Hps as [Hp Hps]. rewrite bind_cons, <- app_assoc, prepend_app in Hin.
    destruct (packet_appends ack y p _ Hb Hp Hin) as (c1&E&Hb1).
    rewrite (bind_run _ _ _ _ _ E). cbn [bHaveRecvedEOT].
    destruct (IH fuel RYM_CODE_ACK (mkYsys c1 (prepend ((ps ≫= packet_bytes) ++ RYM_CODE_EOT :: dummy) rest)
      (y_out y ++ [ack]) (snd (f_write (pk_data p) (y_fs y)))) dummy rest) as (c'&E'); try done; [lia|].
    exists c'. rewrite E'. cbn [y_out y_fs write_all]. destruct (f_write (pk_data p) (y_fs y)) as [r fs1]. cbn [snd].
    destruct (write_all ps fs1) as [rs fs2]. cbn [snd length replicate]. by rewrite <- app_assoc.
Qed.
End task.

(** C21 — The receiver and a sender: a sender puts on the line a header with the
    name, any number of data packets of either size, the end mark and the
    ten bytes of the closing packet that are skipped; packet indices and check bytes
    are any.  When the file can be opened, [Ymodem_ReceiveTask] returns after the
    whole transmission, with every packet acknowledged, whatever [f_write]
    answers.  If all calls return [FR_OK], the file holds, packet by packet, as
    many bytes as [f_write] says were written; if also no write was short, it
    holds what was sent.  When the file cannot be opened the task gives up
    after the header, which it does not acknowledge. *)
Theorem Ymodem_ReceiveTask_roundtrip {F} `{FatFsLaws F} (y : ysys F) (fuel : nat) (header : packet) (ps : list packet)
  (name more dummy : list Z) (rest : nat -> Z) (res rc : Z) (results : list (Z * Z)) (fs1 fs2 fs' : F) :
  length (aui8Data (y_ctx y)) = buffer_size ->
  packet_ok header -> pk_index header = 0 -> pk_data header = name ++ 0 :: more -> Forall (fun b => b <> 0) name ->
  Forall packet_ok ps -> length dummy = 10%nat ->
  y_in y = prepend (packet_bytes header ++ (ps ≫= packet_bytes) ++ RYM_CODE_EOT :: dummy) rest ->
  (length ps + 1 < fuel)%nat ->
  f_open name (y_fs y) = (res, fs1) ->
  (if res =? FR_OK then write_all ps fs1 else ([], fs1)) = (results, fs2) -> f_close fs2 = (rc, fs') ->
  exists c',
    if res =? FR_OK then
      Ymodem_ReceiveTask fuel y =
        Some (tt, mkYsys c' rest (y_out y ++ RYM_CODE_CRC :: replicate (length ps + 1) RYM_CODE_ACK ++ farewell) fs') /\
      (Forall (fun r => fst r = FR_OK) results -> rc = FR_OK -> fs_holds fs' name (written_data ps results)) /\
      (Forall2 in_full ps results -> rc = FR_OK -> fs_holds fs' name (ps ≫= pk_data))
    else
      Ymodem_ReceiveTask fuel y =
        Some (tt, mkYsys c' (prepend ((ps ≫= packet_bytes) ++ RYM_CODE_EOT :: dummy) rest) (y_out y ++ [RYM_CODE_CRC]) fs').
Proof.
  intros Hb Hh Hi Hd Hn Hps Hdummy Hin Hfuel Eo Ew Ec. unfold Ymodem_ReceiveTask. rewrite ask_bind.
  unfold set_ctx. rewrite update_bind. set (y1 := mkYsys _ _ _ _).
  rewrite prepend_app in Hin. destruct fuel as [|fuel]; [lia|]. cbn [receive_loop].
  destruct (header_opens RYM_CODE_CRC y1 header _ name more Hb Hh Hin Hi Hd Hn) as (c1&E&Hb1).
  change (y_fs y1) with (y_fs y) in E. rewrite Eo in E. cbn [fst snd] in E. rewrite (bind_run _ _ _ _ _ E). cbn [bHaveRecvedEOT].
  destruct (Z.eqb_spec res FR_OK) as [->|Hne]; cbn [negb].
  - destruct (receive_rest ps fuel RYM_CODE_ACK (mkYsys c1
      (prepend ((ps ≫= packet_bytes) ++ RYM_CODE_EOT :: dummy) rest) (y_out y1 ++ [RYM_CODE_CRC]) fs1) dummy rest)
      as (c'&E'); try done; [lia|].
    pose proof (write_all_open ps fs1 name [] (f_open_law _ _ _ Eo)) as Hw. cbn [y_fs] in E'. rewrite Ew in E', Hw. cbn [snd] in E'.
    assert (Hh' : Forall (fun r => fst r = FR_OK) results -> rc = FR_OK -> fs_holds fs' name (written_data ps results)).
    { intros Hr ->. exact (f_close_law _ _ _ _ (Hw Hr) Ec). }
    exists c'. rewrite E', Ec. cbn [y_out snd]. split; [|split; [exact Hh'|]].
    + rewrite <- app_assoc. replace (length ps + 1)%nat with (S (length ps)) by lia. done.
    + intros [Hr <-]%written_in_full. by apply Hh'.
  - injection Ew as <- <-. exists c1. unfold files, mbind, prog_bind. cbn [y_fs y_ctx y_in y_out]. by rewrite Ec.
Qed.

#[export] Instance volume_laws : FatFsLaws volume.
Proof.
  refine {| fs_open := fun v name data => v_open v = Some (name, data);
            fs_holds := fun v name data => (name, data) ∈ v_files v |}.
  - intros v v' [|b name]; cbn; [done|]. by intros [= <-].
  - intros v v' name data bs bw E. cbn. rewrite E. intros [= <- <-]. split; [lia|]. by rewrite Nat2Z.id.
  - intros v v' name data E. cbn. rewrite E. intros [= <-]. left.
Defined.

(** A file with one data packet whose check bytes are wrong. *)
Definition header_packet : packet := mkPacket false 0 ([102; 46; 99] ++ 0 :: replicate 124 0) (0, 0).
Definition data_packet : packet := mkPacket true 1 (replicate 1024 65) (1, 2).
Definition busy_line (free : nat) : ysys volume :=
  mkYsys mRymCtx (prepend (packet_bytes header_packet ++ ([data_packet] ≫= packet_bytes) ++ RYM_CODE_EOT :: replicate 10 0)
    (fun _ => 0)) [] (new_volume free).

Lemma header_packet_ok : packet_ok header_packet.
Proof. split_and!; [done|by apply (bool_decide_unpack _); vm_compute|done|done|done]. Qed.

Lemma data_packet_ok : packet_ok data_packet.
Proof. split_and!; [done|by apply (bool_decide_unpack _); vm_compute|done|done|done]. Qed.

(** On a volume with room the file arrives; on one with room for 7 bytes the
    packet is acknowledged all the same. *)
Lemma Ymodem_ReceiveTask_roundtrip_witness :
  (exists c' fs', Ymodem_ReceiveTask 5 (busy_line 5000) =
      Some (tt, mkYsys c' (fun _ => 0) (RYM_CODE_CRC :: [RYM_CODE_ACK; RYM_CODE_ACK] ++ farewell) fs') /\
    ([102; 46; 99], replicate 1024 65 ++ []) ∈ v_files fs') /\
  (exists c' fs', Ymodem_ReceiveTask 5 (busy_line 7) =
      Some (tt, mkYsys c' (fun _ => 0) (RYM_CODE_CRC :: [RYM_CODE_ACK; RYM_CODE_ACK] ++ farewell) fs') /\
    ([102; 46; 99], replicate 7 65) ∈ v_files fs').
Proof.
  assert (Hn : Forall (fun b => b <> 0) [102; 46; 99]) by (by apply (bool_decide_unpack _); vm_compute).
  pose proof (proj2 (Forall_singleton packet_ok data_packet) data_packet_ok) as Hd.
  split.
  - destruct (Ymodem_ReceiveTask_roundtrip (busy_line 5000) 5 header_packet [data_packet] [102; 46; 99] (replicate 124 0)
      (replicate 10 0) (fun _ => 0) FR_OK FR_OK _ _ _ _ eq_refl header_packet_ok eq_refl eq_refl Hn Hd eq_refl eq_refl
      ltac:(cbn; lia) eq_refl eq_refl eq_refl) as (c'&E&_&Hh).
    eexists c', _. split; [exact E|apply Hh; [|exact eq_refl]]. repeat constructor.
  - destruct (Ymodem_ReceiveTask_roundtrip (busy_line 7) 5 header_packet [data_packet] [102; 46; 99] (replicate 124 0)
      (replicate 10 0) (fun _ => 0) FR_OK FR_OK _ _ _ _ eq_refl header_packet_ok eq_refl eq_refl Hn Hd eq_refl eq_refl
      ltac:(cbn; lia) eq_refl eq_refl eq_refl) as (c'&E&Hh&_).
    eexists c', _. split; [exact E|apply Hh; [|exact eq_refl]]. repeat constructor.
Defined.
