(* ===== verification/Shell.v ===== *)
(** * The command shell (libs/xshell.c)

    The line editor that reads a command from the UART, the splitting of the
    line into arguments, and the dispatch to the command table.  Characters
    are unsigned; the bytes that go to the terminal are results.  [None] is a
    copy that does not fit its array or a read outside of it. *)
From S2P Require Import Prelude Xprintf.
Open Scope Z_scope.

Definition SHELL_CMD_SIZE : nat := 128.
Definition SHELL_ARG_MAX : nat := 8.

Definition char_tab : Z := 9.
Definition char_quote : Z := 34.
Definition char_backslash : Z := 92.

(** [strcpy] of the string [s] to the array [a] at index [i]. *)
Definition str_copy (i : nat) (s : list Z) (a : list Z) : option (list Z) :=
  if (i + length s <? length a)%nat then Some (take i a ++ s ++ 0 :: drop (i + length s + 1) a) else None.

(** [memmove] of [n] bytes inside of an array. *)
Definition mem_move (dst src n : nat) (a : list Z) : option (list Z) :=
  if ((dst + n <=? length a) && (src + n <=? length a))%nat
  then Some (take dst a ++ take n (drop src a) ++ drop (dst + n) a) else None.

(** [a[i] = v]. *)
Definition array_set (i : nat) (v : Z) (a : list Z) : option (list Z) := _ ← a !! i; Some (<[i := v]> a).

(** [strncmp(s, t, n) == 0]. *)
Fixpoint strncmp_eq (n : nat) (s t : list Z) : bool :=
  match n with
  | O => true
  | S n' =>
      let c := default 0 (head s) in let d := default 0 (head t) in
      if negb (c =? d) then false else if c =? 0 then true else strncmp_eq n' (tail s) (tail t)
  end.

(** The messages. *)
Module Texts.
Import String.
Open Scope string_scope.
Definition too_many_args : list Z := bytes_of "Too many args ! We only Use:".
Definition unknown_command : list Z := bytes_of "Unknown command!".
Definition prompt_end : list Z := bytes_of " > ".
Definition help : list Z := bytes_of "help".
Definition shell_commands : list (list Z) :=
  bytes_of <$> ["help"; "clear"; "reg"; "mem"; "epwm"; "nand"; "nor"; "qspi"; "spi"; "can"; "gmac"; "phy"; "link"; "ps";
                "tcp"; "udp"; "udp_speed"; "tcp_speed"].
End Texts.
Import Texts.

(** ** The prompt *)

Definition SHELL_PROMPT : list Z := [120; 115; 104].
Definition SHELL_DEFAULT_PROMPT : list Z := [36].

(** [maszShellPrompt] has eight bytes. *)
Definition Shell_SetPrompt (pszPrompt maszShellPrompt : list Z) : option (list Z) :=
  if (7 <? length pszPrompt)%nat then
    p ← str_copy 0 SHELL_DEFAULT_PROMPT maszShellPrompt; array_set (length SHELL_DEFAULT_PROMPT) 0 p
  else p ← str_copy 0 pszPrompt maszShellPrompt; array_set (length pszPrompt) 0 p.

(** ** The line editor *)

Inductive key_state := eWaitIdle | eWaitSpecKey | eWaitFuncKey.

(** [SHELL_T], and the line that the up key recalls. *)
Record SHELL_T := mkShell {
  aszLine : list Z; eKeyState : key_state; ui16LinePosition : nat; ui16LineCurrentPosition : nat;
  maszShellLineHistory : list Z }.

Definition with_line (l : list Z) (s : SHELL_T) : SHELL_T :=
  mkShell l (eKeyState s) (ui16LinePosition s) (ui16LineCurrentPosition s) (maszShellLineHistory s).
Definition with_key (k : key_state) (s : SHELL_T) : SHELL_T :=
  mkShell (aszLine s) k (ui16LinePosition s) (ui16LineCurrentPosition s) (maszShellLineHistory s).
Definition with_positions (pos cur : nat) (s : SHELL_T) : SHELL_T :=
  mkShell (aszLine s) (eKeyState s) pos cur (maszShellLineHistory s).

Definition new_shell (history : list Z) : SHELL_T := mkShell (replicate SHELL_CMD_SIZE 0) eWaitIdle 0 0 history.

Definition back : list Z := [8].
Definition rub_out : list Z := [8; 32; 8].

Section commands.
(** The names in the command table. *)
Context (commands : list (list Z)).

(** [Shell_AutoComplete] on the whole line: the new line and length, and the
    output. *)
Definition Shell_AutoComplete (line : list Z) (ui32Length : nat) : option (list Z * nat * list Z) :=
  if (ui32Length =? 0)%nat then Some (line, ui32Length, [])
  else
    match List.find (strncmp_eq ui32Length line) commands with
    | None => Some (line, ui32Length, [])
    | Some pszCmd =>
        if (length pszCmd <? ui32Length)%nat then None
        else
          let rest := drop ui32Length pszCmd in
          line ← str_copy ui32Length rest line;
          line ← array_set (length pszCmd) 32 line;
          Some (line, S (length pszCmd), xputs rest ++ [32])
    end.

(** What the loop of [Shell_GetCommand] does with one character: go on, or
    leave the loop. *)
Inductive verdict := Continue | Entered.

(** The cursor keys; [None] if the character is none of them. *)
Definition function_key (szData : Z) (s : SHELL_T) : option (option (SHELL_T * list Z)) :=
  if szData =? 0x41 then
    let h := c_string (maszShellLineHistory s) in
    Some (l ← str_copy 0 h (aszLine s);
          let n := length (c_string l) in
          Some (with_positions n n (with_line l s), concat (replicate (ui16LinePosition s) rub_out) ++ xputs (c_string l)))
  else if szData =? 0x42 then
    Some (Some (with_positions 0 0 s, concat (replicate (ui16LinePosition s) rub_out)))
  else if szData =? 0x43 then
    Some (if (ui16LineCurrentPosition s <? ui16LinePosition s)%nat then
            c ← aszLine s !! ui16LineCurrentPosition s;
            Some (with_positions (ui16LinePosition s) (S (ui16LineCurrentPosition s)) s, xputc c)
          else Some (s, []))
  else if szData =? 0x44 then
    Some (if (ui16LineCurrentPosition s =? 0)%nat then Some (s, [])
          else Some (with_positions (ui16LinePosition s) (pred (ui16LineCurrentPosition s)) s, back))
  else None.

(** The string shown from the cursor on.  If the line has no terminator left it
    ends in the member behind it, [eKeyState], which is [eWaitIdle] then. *)
Definition shown (s : SHELL_T) : list Z := xputs (c_string (drop (ui16LineCurrentPosition s) (aszLine s))).

Definition backspace (s : SHELL_T) : option (SHELL_T * list Z) :=
  if (ui16LineCurrentPosition s =? 0)%nat then Some (s, [])
  else
    let s := with_positions (pred (ui16LinePosition s)) (pred (ui16LineCurrentPosition s)) s in
    if (ui16LineCurrentPosition s <? ui16LinePosition s)%nat then
      l ← mem_move (ui16LineCurrentPosition s) (S (ui16LineCurrentPosition s))
            (ui16LinePosition s - ui16LineCurrentPosition s) (aszLine s);
      l ← array_set (ui16LinePosition s) 0 l;
      let s := with_line l s in
      Some (s, back ++ shown s ++ [32] ++
               concat (replicate (S (ui16LinePosition s) - ui16LineCurrentPosition s) back))
    else l ← array_set (ui16LinePosition s) 0 (aszLine s); Some (with_line l s, rub_out).

Definition insert_char (szData : Z) (s : SHELL_T) : option (SHELL_T * list Z) :=
  '(s, out) ←
    (if (ui16LineCurrentPosition s <? ui16LinePosition s)%nat then
       l ← mem_move (S (ui16LineCurrentPosition s)) (ui16LineCurrentPosition s)
             (ui16LinePosition s - ui16LineCurrentPosition s) (aszLine s);
       l ← array_set (ui16LineCurrentPosition s) szData l;
       let s := with_line l s in
       Some (s, shown s ++ concat (replicate (ui16LinePosition s - ui16LineCurrentPosition s) back))
     else l ← array_set (ui16LinePosition s) szData (aszLine s); Some (with_line l s, xputc szData));
  let pos := S (ui16LinePosition s) in let cur := S (ui16LineCurrentPosition s) in
  Some (if (SHELL_CMD_SIZE <=? pos)%nat then with_positions 0 0 s else with_positions pos cur s, out).

Definition go_on (r : option (SHELL_T * list Z)) : option (SHELL_T * list Z * verdict) :=
  '(s, out) ← r; Some (s, out, Continue).

(** What follows the handling of the escape sequences. *)
Definition plain_key (szData : Z) (s : SHELL_T) : option (SHELL_T * list Z * verdict) :=
  if szData =? char_tab then
    if (0 <? ui16LinePosition s)%nat then
      '(l, n, out) ← Shell_AutoComplete (aszLine s) (ui16LinePosition s);
      Some (with_positions n n (with_line l s), out, Continue)
    else
      l ← str_copy 0 help (aszLine s);
      let n := length (c_string l) in
      l ← array_set n 0 l;
      Some (with_positions n n (with_line l s), [], Entered)
  else if (szData =? 0x08) || (szData =? 0x7f) then go_on (backspace s)
  else if (szData =? 13) || (szData =? 10) then
    l ← array_set (ui16LinePosition s) 0 (aszLine s); Some (with_line l s, [], Entered)
  else go_on (insert_char szData s).

(** One character in the loop of [Shell_GetCommand]. *)
Definition shell_key (szData : Z) (s : SHELL_T) : option (SHELL_T * list Z * verdict) :=
  if szData =? 0x1b then Some (with_key eWaitSpecKey s, [], Continue)
  else
    match eKeyState s with
    | eWaitSpecKey =>
        if szData =? 0x5b then Some (with_key eWaitFuncKey s, [], Continue)
        else plain_key szData (with_key eWaitIdle s)
    | eWaitFuncKey =>
        let s := with_key eWaitIdle s in
        match function_key szData s with
        | Some r => go_on r
        | None => plain_key szData s
        end
    | eWaitIdle => plain_key szData s
    end.

(** The loop, on the characters [keys] that come in; the last result is what is
    left of them when the loop is done, or [None] if it still waits. *)
Fixpoint read_line (keys : list Z) (s : SHELL_T) : option (SHELL_T * list Z * option (list Z)) :=
  match keys with
  | [] => Some (s, [], None)
  | c :: keys' =>
      '(s, out, v) ← shell_key c s;
      match v with
      | Entered => Some (s, out, Some keys')
      | Continue => '(s, out', rest) ← read_line keys' s; Some (s, out ++ out', rest)
      end
  end.

(** The end of [Shell_GetCommand]: the line goes to the history and, without a
    terminator, to the caller's buffer of [ui32Length] bytes. *)
Definition finish_line (ui32Length : Z) (s : SHELL_T) : option (list Z * list Z) :=
  let n := ui16LinePosition s in
  h ← (if (0 <? n)%nat then
         h ← str_copy 0 (c_string (aszLine s)) (maszShellLineHistory s); array_set n 0 h
       else Some (maszShellLineHistory s));
  let ui32CopyLength := Z.min (u32 (ui32Length - 1)) (Z.of_nat n) in
  Some (h, take (Z.to_nat ui32CopyLength) (aszLine s)).
End commands.

(** ** Arguments *)

(** [Shell_SplitCommand] works in place on the characters [pszData]; a pointer
    is an index.  The state: the characters, the index (of [pszPtr], which is
    [ui32Position] as well) and the arguments so far. *)
Record split_state := mkSplit { sp_data : list Z; sp_pos : nat; sp_argv : list nat }.

Definition is_blank (c : Z) : bool := (c =? 32) || (c =? char_tab).

(** The loop over blanks. *)
Fixpoint strip_blanks (fuel : nat) (n : nat) (data : list Z) (pos : nat) : option (list Z * nat) :=
  c ← data !! pos;
  if is_blank c && (pos <? n)%nat then
    match fuel with O => None | S fuel' => strip_blanks fuel' n (<[pos := 0]> data) (S pos) end
  else Some (data, pos).

(** The loop over a word. *)
Fixpoint skip_word (fuel : nat) (n : nat) (data : list Z) (pos : nat) : option nat :=
  c ← data !! pos;
  if negb (is_blank c) && (pos <? n)%nat then
    match fuel with O => None | S fuel' => skip_word fuel' n data (S pos) end
  else Some pos.

(** The loop over a string in quotes. *)
Fixpoint skip_string (fuel : nat) (n : nat) (data : list Z) (pos : nat) : option nat :=
  c ← data !! pos;
  if negb (c =? char_quote) && (pos <? n)%nat then
    pos ← (if c =? char_backslash then d ← data !! S pos; Some (if d =? char_quote then S pos else pos) else Some pos);
    match fuel with O => None | S fuel' => skip_string fuel' n data (S pos) end
  else Some pos.

(** The arguments printed when there are too many. *)
Definition print_args (data : list Z) (argv : list nat) : list Z :=
  concat ((fun a => xputs (c_string (drop a data)) ++ [32]) <$> argv).

(** [Shell_SplitCommand] for [n] characters: each iteration of the outer loop
    moves on, so [S n] of them are enough. *)
Fixpoint split_loop (fuel : nat) (n : nat) (st : split_state) : option (split_state * list Z) :=
  match fuel with
  | O => None
  | S fuel' =>
      if (sp_pos st <? n)%nat then
        '(data, pos) ← strip_blanks n n (sp_data st) (sp_pos st);
        if (SHELL_ARG_MAX <=? length (sp_argv st))%nat then
          Some (mkSplit data pos (sp_argv st),
            too_many_args ++ xputc 10 ++ print_args data (sp_argv st) ++ xputc 10)
        else if (n <=? pos)%nat then Some (mkSplit data pos (sp_argv st), [])
        else
          c ← data !! pos;
          if c =? char_quote then
            let pos := S pos in
            let argv := sp_argv st ++ [pos] in
            pos ← skip_string n n data pos;
            if (n <=? pos)%nat then Some (mkSplit data pos argv, [])
            else split_loop fuel' n (mkSplit (<[pos := 0]> data) (S pos) argv)
          else
            let argv := sp_argv st ++ [pos] in
            pos ← skip_word n n data pos;
            if (n <=? pos)%nat then Some (mkSplit data pos argv, [])
            else split_loop fuel' n (mkSplit data pos argv)
      else Some (st, [])
  end.

Definition Shell_SplitCommand (pszData : list Z) (ui32Length : nat) : option (split_state * list Z) :=
  split_loop (S ui32Length) ui32Length (mkSplit pszData 0 []).

(** ** Dispatch *)

(** [Shell_HandleCommand]: nothing, a call of the [i]-th command with its
    arguments, or a message. *)
Inductive handled := NoCommand | RunCommand (i : nat) (argv : list (list Z)) | UnknownCommand.

Definition Shell_HandleCommand (commands : list (list Z)) (pszData : list Z) (ui32Length : nat) :
  option (handled * list Z) :=
  if (ui32Length <? 1)%nat then Some (NoCommand, [])
  else
    '(st, out) ← Shell_SplitCommand pszData ui32Length;
    let argv := (fun a => c_string (drop a (sp_data st))) <$> sp_argv st in
    arg0 ← argv !! 0%nat;
    match list_find (fun cmd => cmd = arg0) commands with
    | Some (i, _) => Some (RunCommand i argv, out)
    | None => Some (UnknownCommand, out ++ unknown_command ++ xputc 10)
    end.

(** The body of the loop of the shell task (main.c): read a line, put the
    terminator behind it, handle it; [aszCommand] has 128 bytes. *)
Definition xshell_task (commands : list (list Z)) (history aszCommand : list Z) (prompt keys : list Z) :
  option (option (handled * list Z * list Z * list Z)) :=
  '(s, out, rest) ← read_line commands keys (new_shell history);
  match rest with
  | None => Some None
  | Some keys' =>
      '(h, line) ← finish_line 128 s;
      let data := line ++ drop (length line) aszCommand in
      data ← array_set (length line) 0 data;
      '(r, out') ← Shell_HandleCommand commands data (length line);
      Some (Some (r, h, xputs prompt ++ prompt_end ++ out ++ xputc 10 ++ out', keys'))
  end.
