(* ===== verification/ShellProofs.v ===== *)
(** * Properties of the command shell *)
From S2P Require Import Prelude Xprintf Shell.
Open Scope Z_scope.

(** ** Arrays *)

Lemma array_set_mid l x r v n : n = length l -> array_set n v (l ++ x :: r) = Some (l ++ v :: r).
Proof. intros ->. unfold array_set. by rewrite lookup_app_mid, insert_app_mid. Qed.

Lemma str_copy_mid l s r n : n = length l -> (length s < length r)%nat ->
  str_copy n s (l ++ r) = Some (l ++ s ++ 0 :: drop (S (length s)) r).
Proof.
  intros -> Hr. unfold str_copy. rewrite length_app, (proj2 (Nat.ltb_lt _ _)) by lia.
  rewrite take_app_length, drop_app_ge by lia. do 4 f_equal. f_equal. lia.
Qed.

(** Making room for a character, and closing the gap of one. *)
Lemma mem_move_right l x m y r n : m ++ [y] = x :: n ->
  mem_move (S (length l)) (length l) (length m) (l ++ m ++ y :: r) = Some (l ++ x :: m ++ r).
Proof.
  intros E. unfold mem_move. rewrite !length_app. cbn [length].
  rewrite (proj2 (Nat.leb_le _ _)), (proj2 (Nat.leb_le _ _)) by lia. cbn [andb]. f_equal.
  assert (E' : l ++ m ++ y :: r = (l ++ [x]) ++ n ++ r).
  { replace (m ++ y :: r) with ((m ++ [y]) ++ r) by (by rewrite <- app_assoc). rewrite E, <- app_assoc. done. }
  assert (Hn : length n = length m).
  { apply (f_equal length) in E. rewrite length_app in E. cbn [length] in E. lia. }
  rewrite E' at 1. rewrite take_app_length' by (rewrite length_app; cbn; lia).
  rewrite drop_app_length, take_app_length. rewrite E', (app_assoc (l ++ [x]) n r), drop_app_length' by (rewrite !length_app; cbn; lia).
  by rewrite <- app_assoc.
Qed.

Lemma mem_move_left l x m r : exists y,
  mem_move (length l) (S (length l)) (length m) (l ++ x :: m ++ r) = Some (l ++ m ++ y :: r).
Proof.
  unfold mem_move. rewrite !length_app. cbn [length]. rewrite length_app.
  rewrite (proj2 (Nat.leb_le _ _)), (proj2 (Nat.leb_le _ _)) by lia. cbn [andb].
  rewrite take_app_length.
  replace (drop (S (length l)) (l ++ x :: m ++ r)) with (m ++ r)
    by (rewrite drop_app_ge by lia; by replace (S (length l) - length l)%nat with 1%nat by lia).
  rewrite take_app_length. rewrite drop_app_ge by lia.
  replace (length l + length m - length l)%nat with (length m) by lia.
  replace (x :: m ++ r) with ((x :: m) ++ r) by done.
  rewrite drop_app_le by (cbn; lia).
  destruct (drop (length m) (x :: m)) as [|y [|]] eqn:E;
    [apply (f_equal length) in E; rewrite length_drop in E; cbn in E; lia| |
     apply (f_equal length) in E; rewrite length_drop in E; cbn in E; lia].
  exists y. done.
Qed.

(** ** The abstract editor

    A text with a cursor in it: what is before the cursor, what is after it. *)
Record editor := mkEditor { ed_key : key_state; ed_before : list Z; ed_after : list Z; ed_history : list Z }.

Definition ed_text (e : editor) : list Z := ed_before e ++ ed_after e.

Definition at_text (before after : list Z) (e : editor) : editor := mkEditor (ed_key e) before after (ed_history e).
Definition in_state (k : key_state) (e : editor) : editor := mkEditor k (ed_before e) (ed_after e) (ed_history e).

Section commands.
Context (commands : list (list Z)).

(** The first command that the text is a prefix of. *)
Definition completion (text : list Z) : option (list Z) :=
  List.find (fun cmd => bool_decide (text `prefix_of` cmd)) commands.

Definition edit_plain (c : Z) (e : editor) : editor * verdict :=
  if c =? char_tab then
    match ed_text e with
    | [] => (at_text Texts.help [] e, Entered)
    | t => (at_text (match completion t with Some cmd => cmd ++ [32] | None => t end) [] e, Continue)
    end
  else if (c =? 0x08) || (c =? 0x7f) then (at_text (removelast (ed_before e)) (ed_after e) e, Continue)
  else if (c =? 13) || (c =? 10) then (e, Entered)
  else
    (if (S (length (ed_text e)) <? SHELL_CMD_SIZE)%nat then at_text (ed_before e ++ [c]) (ed_after e) e
     else at_text [] [] e, Continue).

Definition edit_cursor (c : Z) (e : editor) : option editor :=
  if c =? 0x41 then Some (at_text (ed_history e) [] e)
  else if c =? 0x42 then Some (at_text [] [] e)
  else if c =? 0x43 then
    Some (match ed_after e with x :: r => at_text (ed_before e ++ [x]) r e | [] => e end)
  else if c =? 0x44 then
    Some (match last (ed_before e) with
          | Some x => at_text (removelast (ed_before e)) (x :: ed_after e) e
          | None => e
          end)
  else None.

Definition edit_key (c : Z) (e : editor) : editor * verdict :=
  if c =? 0x1b then (in_state eWaitSpecKey e, Continue)
  else
    match ed_key e with
    | eWaitSpecKey =>
        if c =? 0x5b then (in_state eWaitFuncKey e, Continue) else edit_plain c (in_state eWaitIdle e)
    | eWaitFuncKey =>
        match edit_cursor c (in_state eWaitIdle e) with
        | Some e => (e, Continue)
        | None => edit_plain c (in_state eWaitIdle e)
        end
    | eWaitIdle => edit_plain c e
    end.

Fixpoint edit_line (keys : list Z) (e : editor) : editor * option (list Z) :=
  match keys with
  | [] => (e, None)
  | c :: keys' => match edit_key c e with (e, Entered) => (e, Some keys') | (e, Continue) => edit_line keys' e end
  end.

(** ** The relation *)

Record edits (s : SHELL_T) (e : editor) : Prop := {
  es_line : exists rest, aszLine s = ed_before e ++ ed_after e ++ rest;
  es_size : length (aszLine s) = SHELL_CMD_SIZE;
  es_current : ui16LineCurrentPosition s = length (ed_before e);
  es_position : ui16LinePosition s = length (ed_text e);
  es_short : (length (ed_text e) < SHELL_CMD_SIZE)%nat;
  es_chars : Forall (fun c => c <> 0) (ed_text e);
  es_key : eKeyState s = ed_key e;
  es_history : c_string (maszShellLineHistory s) = ed_history e;
  es_recall : length (maszShellLineHistory s) = SHELL_CMD_SIZE /\ (length (ed_history e) < SHELL_CMD_SIZE)%nat
}.

Lemma c_string_nonzero bs : Forall (fun c => c <> 0) (c_string bs).
Proof. induction bs as [|b bs IH]; cbn; [done|]. destruct (Z.eqb_spec b 0); by constructor. Qed.

(** A new text in the line, with the cursor at a new place. *)
Lemma edits_text s e l before after rest :
  edits s e -> l = before ++ after ++ rest -> length l = SHELL_CMD_SIZE -> rest <> [] ->
  Forall (fun c => c <> 0) (before ++ after) ->
  edits (with_positions (length (before ++ after)) (length before) (with_line l s)) (at_text before after e).
Proof.
  intros HE -> Hl Hr Hn. destruct HE. split; cbn [with_positions with_line at_text aszLine ed_before ed_after
    ui16LineCurrentPosition ui16LinePosition eKeyState ed_key maszShellLineHistory ed_history]; try done.
  - by exists rest.
  - unfold ed_text. cbn [at_text ed_before ed_after]. rewrite <- Hl, !length_app.
    destruct rest; [done|]. cbn [length]. lia.
Qed.

(** The parts of the line. *)
Lemma edits_parts s e : edits s e -> exists x rest, aszLine s = ed_before e ++ ed_after e ++ x :: rest /\
  length (ed_before e ++ ed_after e ++ x :: rest) = SHELL_CMD_SIZE.
Proof.
  intros [[rest E] Hs _ _ Hlt _ _ _ _]. unfold ed_text in Hlt. rewrite E, !length_app in Hs. rewrite length_app in Hlt.
  destruct rest as [|x rest]; [cbn in Hs; lia|]. exists x, rest. split; [done|]. rewrite !length_app. cbn [length] in *. lia.
Qed.

Lemma with_same_positions s : with_positions (ui16LinePosition s) (ui16LineCurrentPosition s) s = s.
Proof. by destruct s. Qed.

Lemma with_same_line s : with_line (aszLine s) s = s.
Proof. by destruct s. Qed.

Lemma at_same_text e : at_text (ed_before e) (ed_after e) e = e.
Proof. by destruct e. Qed.

(** ** One key *)

(** A key was handled as the editor [e'] and the verdict [v] say. *)
Definition handles (r : option (SHELL_T * list Z * verdict)) (e' : editor) (v : verdict) : Prop :=
  exists s' out, r = Some (s', out, v) /\ edits s' e' /\
    (v = Entered -> c_string (aszLine s') = ed_text e' /\ aszLine s' !! ui16LinePosition s' = Some 0).

Lemma handles_go_on r s' out e' : r = Some (s', out) -> edits s' e' -> handles (go_on r) e' Continue.
Proof. intros -> HE. by exists s', out. Qed.

Lemma last_removelast (l : list Z) : l = match last l with Some x => removelast l ++ [x] | None => [] end.
Proof.
  induction l as [|x l IH] using rev_ind; [done|]. by rewrite last_snoc, removelast_last.
Qed.

Lemma insert_char_edits s e c : edits s e -> c <> 0 ->
  handles (go_on (insert_char c s))
    (if (S (length (ed_text e)) <? SHELL_CMD_SIZE)%nat then at_text (ed_before e ++ [c]) (ed_after e) e
     else at_text [] [] e) Continue.
Proof.
  intros HE Hc. destruct (edits_parts s e HE) as (x&rest&El&Hlen). pose proof HE as [_ Hs Hcur Hpos Hlt Hn _ _ _].
  assert (exists out, insert_char c s = Some ((if (SHELL_CMD_SIZE <=? S (ui16LinePosition s))%nat
      then with_positions 0 0 else with_positions (S (ui16LinePosition s)) (S (ui16LineCurrentPosition s)))
      (with_line (ed_before e ++ c :: ed_after e ++ rest) s), out)) as [out E].
  { unfold insert_char. rewrite Hcur, Hpos. unfold ed_text in *. rewrite length_app in *.
    destruct (ed_after e) as [|a after] eqn:Ea; cbn [length].
    - rewrite (proj2 (Nat.ltb_ge _ _)) by lia. rewrite El. cbn [app].
      rewrite (array_set_mid (ed_before e) x rest c) by lia. cbn [mbind option_bind].
      eexists. cbn [with_line ui16LinePosition ui16LineCurrentPosition]. rewrite Hcur, Hpos. cbn [length].
      by destruct (SHELL_CMD_SIZE <=? _)%nat.
    - rewrite (proj2 (Nat.ltb_lt _ _)) by lia.
      replace (length (ed_before e) + S (length after) - length (ed_before e))%nat with (length (a :: after)) by (cbn; lia).
      rewrite El.
      rewrite (mem_move_right (ed_before e) a (a :: after) x rest (after ++ [x])) by done. cbn [mbind option_bind].
      rewrite (array_set_mid (ed_before e) a _ c) by done. cbn [mbind option_bind]. eexists.
      cbn [with_line ui16LinePosition ui16LineCurrentPosition]. rewrite Hcur, Hpos. cbn [length].
      by destruct (SHELL_CMD_SIZE <=? _)%nat. }
  eapply handles_go_on; [exact E|]. rewrite Hpos, Hcur.
  assert (El' : length (ed_before e ++ c :: ed_after e ++ rest) = SHELL_CMD_SIZE).
  { rewrite <- Hlen, !length_app. cbn [length]. rewrite length_app. lia. }
  destruct (Nat.leb_spec SHELL_CMD_SIZE (S (length (ed_text e)))) as [Hge|Hok].
  - rewrite (proj2 (Nat.ltb_ge _ _)) by lia.
    apply (edits_text s e _ [] [] (ed_before e ++ c :: ed_after e ++ rest)); try done.
    intros H. rewrite H in El'. done.
  - rewrite (proj2 (Nat.ltb_lt _ _)) by lia.
    replace (S (length (ed_text e))) with (length ((ed_before e ++ [c]) ++ ed_after e))
      by (unfold ed_text; rewrite !length_app; cbn; lia).
    replace (S (length (ed_before e))) with (length (ed_before e ++ [c])) by (rewrite length_app; cbn; lia).
    apply (edits_text s e _ _ _ rest); try done.
    + by rewrite <- app_assoc.
    + intros ->. unfold ed_text in Hok. rewrite !length_app in *. cbn [length] in *. rewrite length_app in El'. cbn [length] in El'. lia.
    + unfold ed_text in Hn. rewrite !Forall_app, Forall_singleton in *. tauto.
Qed.

Lemma backspace_edits s e : edits s e ->
  handles (go_on (backspace s)) (at_text (removelast (ed_before e)) (ed_after e) e) Continue.
Proof.
  intros HE. destruct (edits_parts s e HE) as (x&rest&El&Hlen). pose proof HE as [_ Hs Hcur Hpos Hlt Hn _ _ _].
  unfold backspace. rewrite Hcur. pose proof (last_removelast (ed_before e)) as Eb.
  destruct (last (ed_before e)) as [b|].
  2:{ rewrite Eb. cbn [length Nat.eqb removelast]. eapply handles_go_on; [done|]. by rewrite <- Eb, at_same_text. }
  set (before := removelast (ed_before e)) in *.
  assert (Eb1 : length (ed_before e) = S (length before)) by (rewrite Eb, length_app; cbn; lia).
  rewrite Eb1. cbn [Nat.eqb pred]. unfold ed_text in *. rewrite Eb in Hpos, Hn.
  assert (Ep : pred (ui16LinePosition s) = length (before ++ ed_after e)).
  { rewrite Hpos, !length_app. cbn [length]. lia. }
  rewrite Ep. cbn [with_positions ui16LinePosition ui16LineCurrentPosition aszLine]. rewrite El, Eb in *.
  assert (Hn' : Forall (fun c => c <> 0) (before ++ ed_after e)) by (rewrite !Forall_app in *; tauto).
  rewrite <- app_assoc in *. cbn [app] in *. rewrite length_app.
  destruct (ed_after e) as [|a after] eqn:Ea.
  - cbn [length app]. rewrite Nat.add_0_r, Nat.ltb_irrefl. rewrite array_set_mid by done. cbn [mbind option_bind].
    eapply handles_go_on; [done|].
    assert (H' := edits_text s e _ before [] (0 :: x :: rest) HE eq_refl).
    rewrite app_nil_r in H'. apply H'; [|done|by rewrite app_nil_r in Hn']. rewrite <- Hlen, !length_app. done.
  - rewrite (proj2 (Nat.ltb_lt _ _)) by (cbn; lia).
    replace (length before + length (a :: after) - length before)%nat with (length (a :: after)) by lia.
    destruct (mem_move_left before b (a :: after) (x :: rest)) as [y E]. rewrite E. cbn [mbind option_bind].
    rewrite (app_assoc before (a :: after)).
    rewrite array_set_mid by (by rewrite length_app). cbn [mbind option_bind].
    eapply handles_go_on; [done|].
    assert (H' := edits_text s e _ before (a :: after) (0 :: x :: rest) HE eq_refl).
    rewrite (length_app before (a :: after)) in H'. rewrite <- app_assoc. apply H'; [|done|done].
    rewrite <- Hlen, !length_app. cbn [length]. rewrite ?length_app. cbn [length]. lia.
Qed.

Lemma enter_edits s e : edits s e ->
  handles (l ← array_set (ui16LinePosition s) 0 (aszLine s); Some (with_line l s, [], Entered)) e Entered.
Proof.
  intros HE. destruct (edits_parts s e HE) as (x&rest&El&Hlen). pose proof HE as [_ Hs Hcur Hpos Hlt Hn _ _ _].
  rewrite El, app_assoc, array_set_mid by (by rewrite Hpos). cbn [mbind option_bind]. fold (ed_text e).
  eexists _, _. split; [done|]. split.
  - rewrite <- (at_same_text e). rewrite <- (with_same_positions (with_line _ s)).
    cbn [with_line ui16LinePosition ui16LineCurrentPosition]. rewrite Hpos, Hcur. cbn [at_text]. unfold ed_text at 1.
    apply (edits_text s e _ _ _ (0 :: rest)); try done; [by rewrite app_assoc|].
    rewrite <- Hlen, at_same_text. unfold ed_text. rewrite !length_app. cbn [length]. lia.
  - intros _. cbn [with_line aszLine ui16LinePosition]. split; [by apply c_string_app|].
    rewrite Hpos. apply lookup_app_mid.
Qed.

(** *** Completion *)

Definition commands_ok : Prop :=
  Forall (fun cmd => Forall (fun c => c <> 0) cmd /\ (S (length cmd) < SHELL_CMD_SIZE)%nat) commands.

Lemma strncmp_prefix text rest cmd : Forall (fun c => c <> 0) text ->
  strncmp_eq (length text) (text ++ rest) cmd = bool_decide (text `prefix_of` cmd).
Proof.
  intros Hn. revert cmd. induction Hn as [|c text Hc _ IH]; intros cmd; cbn [length strncmp_eq app].
  { symmetry. apply bool_decide_eq_true_2. apply prefix_nil. }
  destruct cmd as [|d cmd]; cbn [head default from_option tail id].
  - rewrite (proj2 (Z.eqb_neq c 0)) by done. cbn [negb]. symmetry. apply bool_decide_eq_false_2. apply prefix_nil_not.
  - destruct (Z.eqb_spec c d) as [->|Hne]; cbn [negb].
    + rewrite (proj2 (Z.eqb_neq d 0)), IH by done. apply bool_decide_ext. split; [by apply prefix_cons|apply prefix_cons_inv_2].
    + symmetry. apply bool_decide_eq_false_2. intros H. by apply prefix_cons_inv_1 in H.
Qed.

Lemma find_ext {A} (f g : A -> bool) l : (forall x, f x = g x) -> List.find f l = List.find g l.
Proof. intros H. induction l as [|x l IH]; cbn; [done|]. by rewrite H, IH. Qed.

Lemma help_length : length Texts.help = 4%nat.
Proof. done. Qed.

Lemma edits_replaced s e l text rest : edits s e -> l = text ++ rest -> length l = SHELL_CMD_SIZE -> rest <> [] ->
  Forall (fun c => c <> 0) text -> edits (with_positions (length text) (length text) (with_line l s)) (at_text text [] e).
Proof.
  intros HE -> Hl Hr Hn. pose proof (edits_text s e _ text [] rest HE eq_refl Hl Hr) as H.
  rewrite app_nil_r in H. by apply H.
Qed.

Lemma tab_edits s e : commands_ok -> edits s e ->
  handles (plain_key commands char_tab s) (edit_plain char_tab e).1 (edit_plain char_tab e).2.
Proof.
  intros Hok HE. destruct (edits_parts s e HE) as (x&rest&El&Hlen). pose proof HE as [_ Hs Hcur Hpos Hlt Hn _ _ _].
  unfold plain_key, edit_plain. change (char_tab =? char_tab) with true. rewrite Hpos.
  assert (El' : aszLine s = ed_text e ++ x :: rest) by (unfold ed_text; by rewrite <- app_assoc).
  destruct (ed_text e) as [|a t] eqn:Et.
  - change (0 <? length (@nil Z))%nat with false. cbn [fst snd]. rewrite El' in *. cbn [app length] in *.
    assert (Ehelp := str_copy_mid [] Texts.help (x :: rest) 0 eq_refl). cbn [app] in Ehelp.
    rewrite Ehelp by (cbn [length]; rewrite help_length, Hs; unfold SHELL_CMD_SIZE; lia).
    cbn [mbind option_bind app]. rewrite c_string_app by (by repeat constructor).
    rewrite array_set_mid by done. cbn [mbind option_bind]. eexists _, _. split; [done|]. split.
    + eapply edits_replaced; [done|done| |done|by repeat constructor].
      rewrite length_app. cbn [length]. rewrite length_drop. cbn [length]. rewrite Hs, help_length. done.
    + intros _. cbn [with_positions with_line aszLine ui16LinePosition]. unfold ed_text. cbn [at_text ed_before ed_after].
      rewrite app_nil_r. split; [apply c_string_app; by repeat constructor|done].
  - rewrite <- Et in *. cbn [fst snd]. assert (Hl0 : (0 < length (ed_text e))%nat) by (rewrite Et; cbn; lia).
    rewrite (proj2 (Nat.ltb_lt _ _)) by done. unfold Shell_AutoComplete.
    rewrite (proj2 (Nat.eqb_neq _ _)) by lia. rewrite El' at 1.
    rewrite (find_ext _ (fun cmd => bool_decide (ed_text e `prefix_of` cmd))) by (intros cmd; by apply strncmp_prefix).
    fold (completion (ed_text e)). destruct (completion (ed_text e)) as [cmd|] eqn:Ec.
    + apply find_some in Ec as [Hin Hpre%bool_decide_eq_true]. destruct Hpre as [k ->].
      unfold commands_ok in Hok. rewrite Forall_forall in Hok. destruct (Hok _ (proj2 (list_elem_of_In _ _) Hin)) as [Hnz Hshort].
      rewrite length_app in *. rewrite (proj2 (Nat.ltb_ge _ _)) by lia. rewrite drop_app_length.
      rewrite El', str_copy_mid by (rewrite El', length_app in Hs; lia || done). cbn [mbind option_bind].
      rewrite app_assoc, array_set_mid by (by rewrite length_app). cbn [mbind option_bind].
      eexists _, _. split; [done|]. split; [|done].
      replace (S (length (ed_text e) + length k)) with (length ((ed_text e ++ k) ++ [32])) by (rewrite !length_app; cbn; lia).
      assert (Hlen2 : length ((ed_text e ++ k) ++ 32 :: drop (S (length k)) (x :: rest)) = SHELL_CMD_SIZE).
      { rewrite <- Hs, El', !length_app. cbn [length]. rewrite length_drop. cbn [length].
        rewrite El', length_app in Hs. cbn [length] in Hs. lia. }
      eapply edits_replaced; [done|by rewrite <- (app_assoc (ed_text e ++ k))|done| |].
      * intros H. rewrite H in Hlen2. rewrite !length_app in Hlen2. cbn [length] in Hlen2. lia.
      * apply Forall_app. split; [done|]. by repeat constructor.
    + cbn [mbind option_bind]. eexists _, _. split; [done|]. split; [|done].
      eapply edits_replaced; done.
Qed.

(** *** All keys *)

Lemma edits_state k s e : edits s e -> edits (with_key k s) (in_state k e).
Proof. intros [? ? ? ? ? ? ? ? ?]. by split. Qed.

(** Moving the cursor. *)
Lemma edits_cursor s e before after : edits s e -> ed_text e = before ++ after ->
  edits (with_positions (ui16LinePosition s) (length before) s) (at_text before after e).
Proof.
  intros [[rest El] ? ? Hp ? ? ? ? ?] E. split; cbn [with_positions at_text aszLine ed_before ed_after
    ui16LineCurrentPosition ui16LinePosition eKeyState ed_key maszShellLineHistory ed_history]; try done.
  - exists rest. rewrite El, !app_assoc. f_equal. exact E.
  - rewrite Hp, E. done.
  - unfold ed_text at 1. cbn [at_text ed_before ed_after]. by rewrite <- E.
  - unfold ed_text at 1. cbn [at_text ed_before ed_after]. by rewrite <- E.
Qed.

Lemma cursor_edits c s e : edits s e ->
  match function_key c s, edit_cursor c e with
  | Some r, Some e' => exists s' out, r = Some (s', out) /\ edits s' e'
  | None, None => True
  | _, _ => False
  end.
Proof.
  intros HE. pose proof HE as [_ Hs Hcur Hpos Hlt Hn _ Hh [Hrl Hr]]. destruct (edits_parts s e HE) as (x&rest&El&Hlen).
  unfold function_key, edit_cursor. destruct (c =? 0x41); [|destruct (c =? 0x42); [|destruct (c =? 0x43); [|destruct (c =? 0x44); [|done]]]].
  - rewrite Hh. pose proof (c_string_nonzero (maszShellLineHistory s)) as Hnz. rewrite Hh in Hnz.
    assert (E := str_copy_mid [] (ed_history e) (aszLine s) 0 eq_refl). cbn [app] in E. rewrite E by lia.
    cbn [mbind option_bind]. rewrite c_string_app by done. eexists _, _. split; [done|].
    eapply edits_replaced; [done|done| |done|done]. rewrite length_app. cbn [length]. rewrite length_drop. lia.
  - eexists _, _. split; [done|].
    assert (H := edits_replaced s e (aszLine s) [] (aszLine s) HE eq_refl Hs). rewrite with_same_line in H.
    apply H; [|done]. intros H0. by rewrite H0 in Hs.
  - rewrite Hcur, Hpos. unfold ed_text. rewrite length_app. destruct (ed_after e) as [|a after] eqn:Ea; cbn [length].
    + rewrite (proj2 (Nat.ltb_ge _ _)) by lia. by eexists _, _.
    + rewrite (proj2 (Nat.ltb_lt _ _)) by lia. rewrite El; cbn [app]; rewrite lookup_app_mid. cbn [mbind option_bind].
      eexists _, _. split; [done|]. unfold ed_text in Hpos. rewrite length_app, Ea in Hpos. cbn [length] in Hpos.
      rewrite <- Hpos.
      replace (S (length (ed_before e))) with (length (ed_before e ++ [a])) by (rewrite length_app; cbn; lia).
      apply edits_cursor; [done|]. unfold ed_text. by rewrite Ea, <- app_assoc.
  - rewrite Hcur. pose proof (last_removelast (ed_before e)) as Eb. destruct (last (ed_before e)) as [b|].
    + set (before := removelast (ed_before e)) in *.
      assert (Eb1 : length (ed_before e) = S (length before)) by (rewrite Eb, length_app; cbn; lia).
      rewrite Eb1. cbn [Nat.eqb pred]. eexists _, _. split; [done|]. apply edits_cursor; [done|].
      unfold ed_text. rewrite Eb, <- app_assoc. done.
    + rewrite Eb. cbn [length Nat.eqb]. by eexists _, _.
Qed.

Lemma plain_edits c s e : commands_ok -> edits s e -> c <> 0 ->
  handles (plain_key commands c s) (edit_plain c e).1 (edit_plain c e).2.
Proof.
  intros Hok HE Hc. destruct (Z.eq_dec c char_tab) as [->|Ht]; [by apply tab_edits|].
  unfold plain_key, edit_plain. rewrite (proj2 (Z.eqb_neq c char_tab)) by done.
  destruct ((c =? 0x08) || (c =? 0x7f)); [by apply backspace_edits|].
  destruct ((c =? 13) || (c =? 10)); [by apply enter_edits|]. by apply insert_char_edits.
Qed.

Lemma shell_key_edits c s e : commands_ok -> edits s e -> c <> 0 ->
  handles (shell_key commands c s) (edit_key c e).1 (edit_key c e).2.
Proof.
  intros Hok HE Hc. unfold shell_key, edit_key. destruct (c =? 0x1b).
  { eexists _, _. split; [done|]. split; [by apply edits_state|done]. }
  rewrite (es_key _ _ HE). destruct (ed_key e); [by apply plain_edits| |].
  - destruct (c =? 0x5b); [|by apply plain_edits; [|apply edits_state|]].
    eexists _, _. split; [done|]. split; [by apply edits_state|done].
  - pose proof (cursor_edits c _ _ (edits_state eWaitIdle s e HE)) as H. cbv zeta.
    destruct (function_key c _) as [r|], (edit_cursor c _) as [e'|]; try done.
    + destruct H as (s'&out&->&HE'). cbn [fst snd]. eapply handles_go_on; done.
    + by apply plain_edits; [|apply edits_state|].
Qed.

(** ** The line *)

(** The loop, key by key. *)
Lemma read_line_edits (keys : list Z) (s : SHELL_T) (e : editor) :
  commands_ok -> edits s e -> Forall (fun c => c <> 0) keys ->
  exists s' out, read_line commands keys s = Some (s', out, (edit_line keys e).2) /\ edits s' (edit_line keys e).1 /\
    ((edit_line keys e).2 <> None ->
     c_string (aszLine s') = ed_text (edit_line keys e).1 /\ aszLine s' !! ui16LinePosition s' = Some 0).
Proof.
  intros Hok HE Hk. revert s e HE. induction Hk as [|c keys Hc _ IH]; intros s e HE; cbn [read_line edit_line].
  { eexists _, _. split; [done|]. by split. }
  destruct (shell_key_edits c s e Hok HE Hc) as (s1&out&E&HE1&Hend).
  rewrite E. cbn [mbind option_bind]. destruct (edit_key c e) as [e1 []]; cbn [fst snd] in *.
  - destruct (IH s1 e1 HE1) as (s2&out2&E2&HE2&Hend2). rewrite E2. cbn [mbind option_bind].
    eexists _, _. split; [done|]. by split.
  - eexists _, _. split; [done|]. split; [done|]. intros _. by apply Hend.
Qed.

(** C22 — Whatever the user types, short of the byte 0, the loop of
    [Shell_GetCommand] is the abstract editor with a cursor in a text: it keeps
    waiting exactly as long, leaves the same keys unread, has the same text in
    the line, the text of a finished line ends in a terminator, and no access
    ever leaves the arrays. *)
Theorem read_line_refines (keys : list Z) (s : SHELL_T) (e : editor) :
  commands_ok -> edits s e -> Forall (fun c => c <> 0) keys ->
  exists s' out, read_line commands keys s = Some (s', out, (edit_line keys e).2) /\ edits s' (edit_line keys e).1 /\
    ((edit_line keys e).2 <> None ->
     c_string (aszLine s') = ed_text (edit_line keys e).1 /\ aszLine s' !! ui16LinePosition s' = Some 0).
Proof. apply read_line_edits. Qed.
End commands.

(** A fresh line, with a history. *)
Lemma new_shell_edits history : length history = SHELL_CMD_SIZE -> (length (c_string history) < SHELL_CMD_SIZE)%nat ->
  edits (new_shell history) (mkEditor eWaitIdle [] [] (c_string history)).
Proof.
  intros H1 H2. split; try done; [by exists (replicate SHELL_CMD_SIZE 0)|]. unfold SHELL_CMD_SIZE. cbn. lia.
Qed.

Definition no_history : list Z := replicate SHELL_CMD_SIZE 0.

Lemma shell_commands_ok : commands_ok Texts.shell_commands.
Proof.
  unfold commands_ok. rewrite Forall_forall. intros cmd Hin.
  assert (H : forallb (fun cmd => bool_decide (Forall (fun c => c <> 0) cmd) && (S (length cmd) <? SHELL_CMD_SIZE)%nat)
    Texts.shell_commands = true) by (by vm_compute).
  rewrite forallb_forall in H. specialize (H cmd (proj1 (list_elem_of_In _ _) Hin)).
  apply andb_true_iff in H as [H1%bool_decide_eq_true H2%Nat.ltb_lt]. done.
Qed.

(** mm, cursor left, e, right, tab: the command mem with a blank; then x and enter. *)
Definition typed : list Z := [109; 109; 27; 91; 68; 101; 9; 120; 13; 65].

Lemma read_line_refines_witness :
  exists s' out, read_line Texts.shell_commands typed (new_shell no_history) = Some (s', out, Some [65]) /\
    c_string (aszLine s') = [109; 101; 109; 32; 120].
Proof.
  destruct (read_line_refines Texts.shell_commands typed (new_shell no_history) _ shell_commands_ok
    (new_shell_edits no_history eq_refl ltac:(vm_compute; lia))) as (s'&out&E&_&H); [by repeat constructor|].
  exists s', out. split; [exact E|]. apply H. by vm_compute.
Defined.

(** ** Words *)

(** A word of a command line, as it is meant and as it is written. *)
Inductive word := Plain (w : list Z) | Quoted (w : list Z).

Definition content (w : word) : list Z := match w with Plain w | Quoted w => w end.
Definition written (w : word) : list Z := match w with Plain w => w | Quoted w => char_quote :: w ++ [char_quote] end.

Definition blank (c : Z) : Prop := is_blank c = true.

Definition word_ok (w : word) : Prop :=
  match w with
  | Plain w => w <> [] /\ Forall (fun c => is_blank c = false /\ c <> 0) w /\ head w <> Some char_quote
  | Quoted w => Forall (fun c => c <> char_quote /\ c <> char_backslash /\ c <> 0) w
  end.

(** A line: before each word some blanks, which only the first may lack; and
    blanks at the end. *)
Definition item : Type := list Z * word.
Definition line_of (items : list item) (trail : list Z) : list Z := (items ≫= fun i => fst i ++ written (snd i)) ++ trail.
Definition line_ok (items : list item) (trail : list Z) : Prop :=
  Forall (fun i => Forall blank (fst i) /\ word_ok (snd i)) items /\ Forall blank trail /\
  Forall (fun i => fst i <> []) (tail items).

Lemma strip_blanks_run sep : forall fuel n done c rest,
  Forall blank sep -> (length done + length sep <= n)%nat -> (length sep <= fuel)%nat ->
  is_blank c = false \/ (length done + length sep = n)%nat ->
  strip_blanks fuel n (done ++ sep ++ c :: rest) (length done) =
    Some (done ++ replicate (length sep) 0 ++ c :: rest, (length done + length sep)%nat).
Proof.
  induction sep as [|b sep IH]; intros fuel n done c rest Hb Hn Hf Hc; cbn [length app replicate] in *.
  - destruct fuel; cbn [strip_blanks]; rewrite lookup_app_mid; cbn [mbind option_bind]; rewrite Nat.add_0_r;
      (destruct Hc as [->|Hc]; [done|]); rewrite (proj2 (Nat.ltb_ge (length done) n)) by lia; by rewrite andb_false_r.
  - apply Forall_cons in Hb as [Hb1 Hb]. destruct fuel as [|fuel]; [lia|]. cbn [strip_blanks].
    rewrite lookup_app_mid. cbn [mbind option_bind]. rewrite Hb1, (proj2 (Nat.ltb_lt _ _)) by lia. cbn [andb].
    rewrite insert_app_mid. replace (S (length done)) with (length (done ++ [0])) by (rewrite length_app; cbn; lia).
    replace (done ++ 0 :: sep ++ c :: rest) with ((done ++ [0]) ++ sep ++ c :: rest) by (by rewrite <- app_assoc).
    rewrite IH; [|done|rewrite length_app; cbn; lia|lia|rewrite length_app; cbn [length]; destruct Hc; [by left|right; lia]].
    rewrite <- app_assoc, length_app. cbn [app length]. do 2 f_equal. lia.
Qed.

Lemma skip_word_run w : forall fuel n done c rest,
  Forall (fun c => is_blank c = false /\ c <> 0) w -> (length done + length w <= n)%nat -> (length w <= fuel)%nat ->
  is_blank c = true \/ (length done + length w = n)%nat ->
  skip_word fuel n (done ++ w ++ c :: rest) (length done) = Some (length done + length w)%nat.
Proof.
  induction w as [|b w IH]; intros fuel n done c rest Hb Hn Hf Hc; cbn [length app] in *.
  - destruct fuel; cbn [skip_word]; rewrite lookup_app_mid; cbn [mbind option_bind]; rewrite Nat.add_0_r;
      (destruct Hc as [->|Hc]; [done|]); rewrite (proj2 (Nat.ltb_ge (length done) n)) by lia; by rewrite andb_false_r.
  - apply Forall_cons in Hb as [[Hb1 _] Hb]. destruct fuel as [|fuel]; [lia|]. cbn [skip_word].
    rewrite lookup_app_mid. cbn [mbind option_bind]. rewrite Hb1, (proj2 (Nat.ltb_lt _ _)) by lia. cbn [andb negb].
    replace (S (length done)) with (length (done ++ [b])) by (rewrite length_app; cbn; lia).
    replace (done ++ b :: w ++ c :: rest) with ((done ++ [b]) ++ w ++ c :: rest) by (by rewrite <- app_assoc).
    rewrite IH; [rewrite length_app; cbn [length]; f_equal; lia|done|rewrite length_app; cbn; lia|lia|].
    rewrite length_app; cbn [length]; destruct Hc; [by left|right; lia].
Qed.

Lemma skip_string_run w : forall fuel n done rest,
  Forall (fun c => c <> char_quote /\ c <> char_backslash /\ c <> 0) w -> (length done + length w < n)%nat ->
  (length w <= fuel)%nat ->
  skip_string fuel n (done ++ w ++ char_quote :: rest) (length done) = Some (length done + length w)%nat.
Proof.
  induction w as [|b w IH]; intros fuel n done rest Hb Hn Hf; cbn [length app] in *.
  - destruct fuel; cbn [skip_string]; rewrite lookup_app_mid; cbn [mbind option_bind]; by rewrite Nat.add_0_r.
  - apply Forall_cons in Hb as [(Hb1&Hb2&_) Hb]. destruct fuel as [|fuel]; [lia|]. cbn [skip_string].
    rewrite lookup_app_mid. cbn [mbind option_bind].
    rewrite (proj2 (Z.eqb_neq b _)), (proj2 (Nat.ltb_lt _ _)) by (done || lia). cbn [andb negb].
    rewrite (proj2 (Z.eqb_neq b char_backslash)) by done. cbn [mbind option_bind].
    replace (S (length done)) with (length (done ++ [b])) by (rewrite length_app; cbn; lia).
    replace (done ++ b :: w ++ char_quote :: rest) with ((done ++ [b]) ++ w ++ char_quote :: rest) by (by rewrite <- app_assoc).
    rewrite IH; [rewrite length_app; cbn [length]; f_equal; lia|done|rewrite length_app; cbn; lia|lia].
Qed.

(** The arguments [ws] so far lie in [done], and end there if a terminator
    follows it. *)
Definition args_in (done : list Z) (argv : list nat) (ws : list (list Z)) : Prop :=
  Forall2 (fun a w => (a <= length done)%nat /\ forall x, c_string (drop a (done ++ 0 :: x)) = w) argv ws.

Lemma args_closed done argv ws more : args_in done argv ws ->
  (fun a => c_string (drop a (done ++ 0 :: more))) <$> argv = ws.
Proof. induction 1 as [|a w argv ws [_ Hw] _ IH]; cbn; [done|]. by rewrite Hw, IH. Qed.

Lemma args_zeros done argv ws n xs : args_in done argv ws -> (n = 0%nat -> argv = []) ->
  args_in (done ++ replicate n 0 ++ xs) argv ws.
Proof.
  intros H Hn. destruct n as [|n]; [rewrite Hn in H |- * by done; inversion H; constructor|].
  induction H as [|a w argv ws [Ha Hw] _ IH]; constructor; [|apply IH; done].
  split; [rewrite length_app; lia|]. intros x. cbn [replicate app]. rewrite <- app_assoc. cbn [app]. apply Hw.
Qed.

Lemma args_snoc done argv ws a w : args_in done argv ws -> (a <= length done)%nat ->
  (forall x, c_string (drop a (done ++ 0 :: x)) = w) -> args_in done (argv ++ [a]) (ws ++ [w]).
Proof. intros H Ha Hw. apply Forall2_app; [done|]. by repeat constructor. Qed.

Lemma args_strings done argv ws n xs : args_in done argv ws -> (n = 0%nat -> argv = []) ->
  (fun a => c_string (drop a (done ++ replicate n 0 ++ xs))) <$> argv = ws.
Proof.
  intros H Hn. destruct n as [|n]; [rewrite Hn in H |- * by done; by inversion H|].
  cbn [replicate app]. by apply args_closed.
Qed.

Lemma written_head w : word_ok w -> exists c r, written w = c :: r /\ is_blank c = false /\
  (c =? char_quote) = match w with Plain _ => false | Quoted _ => true end.
Proof.
  destruct w as [w|w]; cbn.
  - intros (H1&H2&H3). destruct w as [|c w]; [done|]. exists c, w. split; [done|].
    apply Forall_cons in H2 as [[H2 _] _]. split; [done|]. apply Z.eqb_neq. intros ->. by apply H3.
  - intros _. by eexists _, _.
Qed.

Lemma word_nonzero w : word_ok w -> Forall (fun c => c <> 0) (content w).
Proof. destruct w as [w|w]; cbn; [intros (_&H&_)|intros H]; eapply Forall_impl; try exact H; cbn; tauto. Qed.

(** What comes behind a word. *)
Lemma line_head items trail more : line_ok items trail -> Forall (fun i => fst i <> []) items ->
  exists c r, line_of items trail ++ 0 :: more = c :: r /\ (is_blank c = true \/ line_of items trail = []).
Proof.
  intros (H1&H2&_) H3. unfold line_of. destruct items as [|[sep w] items].
  - change (([] : list item) ≫= _) with (@nil Z). cbn [app]. destruct trail as [|c trail]; [by eexists _, _; split; [|right]|].
    apply Forall_cons in H2 as [H2 _]. eexists _, _. split; [done|by left].
  - rewrite bind_cons. apply Forall_cons in H1 as [[H1 _] _]. apply Forall_cons in H3 as [H3 _]. cbn [fst] in *.
    destruct sep as [|c sep]; [done|]. apply Forall_cons in H1 as [H1 _]. eexists _, _. split; [done|by left].
Qed.

Lemma split_run items : forall fuel n done argv ws trail more,
  line_ok items trail -> (argv <> [] -> Forall (fun i => fst i <> []) items) ->
  args_in done argv ws -> (length argv <= SHELL_ARG_MAX)%nat ->
  n = length (done ++ line_of items trail) -> (length items < fuel)%nat ->
  exists st out, split_loop fuel n (mkSplit (done ++ line_of items trail ++ 0 :: more) (length done) argv) = Some (st, out) /\
    (fun a => c_string (drop a (sp_data st))) <$> sp_argv st =
      take SHELL_ARG_MAX (ws ++ ((fun i => content (snd i)) <$> items)) /\
    ((length ws + length items < SHELL_ARG_MAX)%nat -> out = []).
Proof.
  induction items as [|[sep w] items IH]; intros [|fuel] n done argv ws trail more Hok Hsep Hargs Hmax Hn Hfuel;
    cbn [length] in Hfuel; try lia; pose proof (Forall2_length _ _ _ Hargs) as Hlen.
  - destruct Hok as (_&Htrail&_). change (line_of [] trail) with trail in *. rewrite length_app in Hn.
    cbn [fmap list_fmap]. rewrite app_nil_r, take_ge by lia. cbn [split_loop sp_pos sp_data sp_argv].
    destruct trail as [|b trail].
    + rewrite (proj2 (Nat.ltb_ge _ _)) by (cbn in Hn; lia). eexists _, _. split; [done|]. split; [|done].
      by apply args_closed.
    + set (tr := b :: trail) in *. assert (0 < length tr)%nat by (cbn; lia).
      rewrite (proj2 (Nat.ltb_lt _ _)), (strip_blanks_run tr n n done 0 more) by (done || lia || (right; lia)).
      cbn [mbind option_bind].
      assert (Hstr : (fun a => c_string (drop a (done ++ replicate (length tr) 0 ++ 0 :: more))) <$> argv = ws)
        by (apply args_strings; [done|lia]).
      destruct (Nat.leb_spec SHELL_ARG_MAX (length argv)).
      * eexists _, _. split; [done|]. split; [done|]. cbn [length]. lia.
      * rewrite (proj2 (Nat.leb_le _ _)) by lia. eexists _, _. split; [done|]. by split.
  - destruct Hok as (Hitems&Htrail&Htl). apply Forall_cons in Hitems as [[Hb Hw] Hitems]. cbn [fst snd tail] in *.
    assert (Hok' : line_ok items trail) by (split_and!; try done; by destruct Htl).
    assert (El : line_of (@cons item (sep, w) items) trail = sep ++ written w ++ line_of items trail).
    { unfold line_of. rewrite bind_cons. cbn [fst snd]. by rewrite <- !app_assoc. }
    rewrite El. rewrite El in Hn. destruct (written_head w Hw) as (c&r&Ew&Hcb&Hcq).
    set (tl := line_of items trail) in *. rewrite !length_app in Hn.
    assert (Hr : (0 < length (written w))%nat) by (rewrite Ew; cbn; lia).
    cbn [split_loop sp_pos sp_data sp_argv]. rewrite (proj2 (Nat.ltb_lt _ _)) by lia.
    rewrite <- !app_assoc, Ew. cbn [app].
    rewrite (strip_blanks_run sep n n done c (r ++ tl ++ 0 :: more)) by (done || lia || by left).
    cbn [mbind option_bind]. set (done1 := done ++ replicate (length sep) 0).
    assert (Ld : length done1 = (length done + length sep)%nat) by (unfold done1; rewrite length_app, length_replicate; lia).
    assert (Hz : length sep = 0%nat -> argv = []).
    { intros E0. destruct argv; [done|]. specialize (Hsep ltac:(done)). apply Forall_cons in Hsep as [Hsep _].
      by destruct sep. }
    destruct (Nat.leb_spec SHELL_ARG_MAX (length argv)) as [Hfull|Hroom].
    { eexists _, _. split; [done|]. cbn [sp_data sp_argv]. split; [|cbn [length]; lia].
      rewrite take_app_le, take_ge by lia. by apply args_strings. }
    rewrite (proj2 (Nat.leb_gt _ _)) by lia. rewrite app_assoc. fold done1. rewrite <- Ld, lookup_app_mid.
    cbn [mbind option_bind]. rewrite Hcq.
    assert (Hargs1 : forall xs, args_in (done1 ++ xs) argv ws).
    { intros xs. unfold done1. rewrite <- app_assoc. by apply args_zeros. }
    cbn [fmap list_fmap snd]. rewrite (app_assoc ws [content w] _ : ws ++ content w :: _ = _).
    destruct w as [w|w]; cbn [written content] in *.
    + assert (Hw' : Forall (fun c => is_blank c = false /\ c <> 0) w) by (by destruct Hw as (_&H&_)).
      assert (Hargs2 : args_in (done1 ++ w) (argv ++ [length done1]) (ws ++ [w])).
      { apply args_snoc; [done|rewrite length_app; lia|]. intros x. rewrite <- app_assoc, drop_app_length.
        by apply c_string_app, (word_nonzero (Plain w)). }
      replace (done1 ++ c :: r ++ tl ++ 0 :: more) with (done1 ++ w ++ tl ++ 0 :: more) by (by rewrite Ew).
      destruct (line_head items trail more Hok' Htl) as (c'&r'&Et&Hc'). fold tl in Et, Hc'. rewrite Et.
      rewrite skip_word_run; [|done|lia|lia|destruct Hc' as [?|E]; [by left|right; rewrite E in Hn; cbn in Hn; lia]].
      cbn [mbind option_bind]. rewrite <- Et.
      destruct (Nat.leb_spec n (length done1 + length w)) as [Hend|Hmore].
      * assert (tl = []) as Etl by (destruct tl; [done|cbn in Hn; lia]).
        assert (items = []) as ->.
        { unfold tl, line_of in Etl. destruct items as [|[sep' w'] items]; [done|]. rewrite bind_cons in Etl.
          apply Forall_cons in Htl as [Htl _]. cbn [fst] in *. by destruct sep'. }
        eexists _, _. split; [done|]. cbn [sp_data sp_argv fmap list_fmap]. split; [|done].
        rewrite app_nil_r, take_ge by (rewrite length_app; cbn; lia). rewrite Etl. cbn [app]. rewrite app_assoc.
        by apply args_closed.
      * destruct (IH fuel n (done1 ++ w) (argv ++ [length done1]) (ws ++ [w]) trail more Hok') as (st&out&E&Hst&Hout);
          [done|done|rewrite length_app; cbn; lia|rewrite !length_app; fold tl; lia|lia|].
        rewrite length_app, <- app_assoc in E. eexists _, _. split; [exact E|]. split; [done|].
        intros H. apply Hout. rewrite length_app. cbn [length] in *. lia.
    + injection Ew as <- <-. rewrite <- app_assoc. cbn [app].
      replace (done1 ++ char_quote :: w ++ char_quote :: tl ++ 0 :: more) with
        ((done1 ++ [char_quote]) ++ w ++ char_quote :: tl ++ 0 :: more) by (by rewrite <- app_assoc).
      replace (S (length done1)) with (length (done1 ++ [char_quote])) by (rewrite length_app; cbn; lia).
      set (done2 := done1 ++ [char_quote]). assert (Ld2 : length done2 = S (length done1)) by (unfold done2; rewrite length_app; cbn; lia).
      cbn [length] in Hn. rewrite length_app in Hn. cbn [length] in Hn.
      rewrite skip_string_run by (done || lia). cbn [mbind option_bind].
      rewrite (proj2 (Nat.leb_gt _ _)) by lia.
      rewrite (app_assoc done2 w), <- length_app, insert_app_mid.
      assert (Hargs2 : args_in (done2 ++ w ++ [0]) (argv ++ [length done2]) (ws ++ [w])).
      { apply args_snoc; [unfold done2; rewrite <- app_assoc; apply Hargs1|rewrite length_app; lia|].
        intros x. rewrite <- app_assoc, drop_app_length, <- app_assoc. by apply c_string_app, (word_nonzero (Quoted w)). }
      destruct (IH fuel n (done2 ++ w ++ [0]) (argv ++ [length done2]) (ws ++ [w]) trail more Hok') as (st&out&E&Hst&Hout);
        [done|done|rewrite length_app; cbn; lia|rewrite !length_app; cbn [length]; fold tl; lia|lia|].
      rewrite !length_app in E. cbn [length] in E. rewrite <- !app_assoc in E. cbn [app] in E.
      rewrite <- app_assoc. rewrite length_app. replace (S (length done2 + length w)) with (length done2 + (length w + 1))%nat by lia.
      eexists _, _. split; [exact E|]. split; [done|]. intros H. apply Hout. rewrite length_app. cbn [length] in *. lia.
Qed.

Lemma items_bound items trail : line_ok items trail -> (length items <= length (line_of items trail))%nat.
Proof.
  intros (H&_&_). unfold line_of. rewrite length_app. induction H as [|[sep w] items [_ Hw] _ IH]; [cbn; lia|].
  rewrite bind_cons, !length_app. destruct (written_head w Hw) as (c&r&Ew&_). cbn [fst snd length] in *. rewrite Ew.
  cbn [length]. lia.
Qed.

Lemma split_words items trail more : line_ok items trail ->
  exists st out, Shell_SplitCommand (line_of items trail ++ 0 :: more) (length (line_of items trail)) = Some (st, out) /\
    (fun a => c_string (drop a (sp_data st))) <$> sp_argv st = take SHELL_ARG_MAX ((fun i => content (snd i)) <$> items) /\
    ((length items < SHELL_ARG_MAX)%nat -> out = []).
Proof.
  intros Hok. pose proof (items_bound items trail Hok).
  apply (split_run items (S (length (line_of items trail))) _ [] [] [] trail more); try done; [constructor|cbn; lia|lia].
Qed.

(** Splitting a command line gives back the words that it was written with,
    up to eight of them: plain words, and words in quotes that may hold
    blanks; with fewer than eight words there is no message. *)
Theorem Shell_SplitCommand_words (items : list item) (trail more : list Z) : line_ok items trail ->
  exists st out, Shell_SplitCommand (line_of items trail ++ 0 :: more) (length (line_of items trail)) = Some (st, out) /\
    (fun a => c_string (drop a (sp_data st))) <$> sp_argv st = take SHELL_ARG_MAX ((fun i => content (snd i)) <$> items) /\
    ((length items < SHELL_ARG_MAX)%nat -> out = []).
Proof. apply split_words. Qed.

(** reg  r "a b" and a blank *)
Definition reg_line : list item :=
  [([], Plain [114; 101; 103]); ([32; 9], Plain [114]); ([32], Quoted [97; 32; 98])].

Lemma reg_line_ok : line_ok reg_line [32].
Proof.
  split; [|split; [by repeat constructor|by repeat constructor]].
  repeat constructor; cbn; done.
Qed.

Lemma Shell_SplitCommand_words_witness :
  exists st, Shell_SplitCommand [114; 101; 103; 32; 9; 114; 32; 34; 97; 32; 98; 34; 32; 0] 13 = Some (st, []) /\
    (fun a => c_string (drop a (sp_data st))) <$> sp_argv st = [[114; 101; 103]; [114]; [97; 32; 98]].
Proof.
  destruct (Shell_SplitCommand_words reg_line [32] [] reg_line_ok) as (st&out&E&Hw&Hout).
  rewrite Hout in E by (vm_compute; lia). exists st. split; [exact E|exact Hw].
Defined.

(** ** From the keys to the command *)

(** Characters that only stand for themselves. *)
Definition typeable (c : Z) : Prop := (c =? 0) || (c =? 0x08) || (c =? 9) || (c =? 10) || (c =? 13) || (c =? 0x1b) || (c =? 0x7f) = false.

Lemma edit_typed commands text keys before history :
  Forall typeable text -> (length before + length text < SHELL_CMD_SIZE)%nat ->
  edit_line commands (text ++ 13 :: keys) (mkEditor eWaitIdle before [] history) =
  (mkEditor eWaitIdle (before ++ text) [] history, Some keys).
Proof.
  intros Ht. revert before. induction Ht as [|c text Hc _ IH]; intros before Hlen; cbn [app length] in *.
  { cbn. by rewrite app_nil_r. }
  unfold typeable in Hc. rewrite !orb_false_iff in Hc. destruct Hc as [[[[[[_ Hc1] Hc2] Hc3] Hc4] Hc5] Hc6].
  cbn [edit_line]. unfold edit_key. cbn [ed_key]. rewrite Hc5. unfold edit_plain, char_tab.
  rewrite Hc1, Hc2, Hc3, Hc4, Hc6. cbn [orb]. unfold ed_text. cbn [ed_before ed_after]. rewrite app_nil_r.
  rewrite (proj2 (Nat.ltb_lt _ _)) by lia. unfold at_text. cbn [ed_key ed_history].
  rewrite IH by (rewrite length_app; cbn; lia). by rewrite <- app_assoc.
Qed.

Lemma typeable_nonzero text : Forall typeable text -> Forall (fun c => c <> 0) text.
Proof. intros H. eapply Forall_impl; [exact H|]. intros c Hc ->. done. Qed.

(** The last part of [Shell_GetCommand], for a text in the line. *)
Lemma finish_line_run s e : edits s e -> (0 < length (ed_text e))%nat -> c_string (aszLine s) = ed_text e ->
  exists h, finish_line 128 s = Some (h, ed_text e) /\ c_string h = ed_text e /\ length h = SHELL_CMD_SIZE.
Proof.
  intros [[rest El] Hs _ Hp Hlt Hn _ _ [Hrl _]] Hpos Hc. unfold finish_line. rewrite Hp, Hc.
  rewrite (proj2 (Nat.ltb_lt _ _)) by done.
  assert (E := str_copy_mid [] (ed_text e) (maszShellLineHistory s) 0 eq_refl). cbn [app] in E. rewrite E by lia.
  cbn [mbind option_bind]. rewrite array_set_mid by done. cbn [mbind option_bind].
  assert (Elen : Z.to_nat (Z.min (u32 (128 - 1)) (Z.of_nat (length (ed_text e)))) = length (ed_text e)).
  { change (u32 (128 - 1)) with 127. unfold SHELL_CMD_SIZE in Hlt. lia. }
  rewrite Elen, El, app_assoc. fold (ed_text e). rewrite take_app_length.
  eexists. split; [done|]. split; [by apply c_string_app|]. rewrite length_app. cbn [length]. rewrite length_drop. lia.
Qed.

(** C23 — What a user types reaches the command: for a line of words, typed without
    editing keys, the shell task runs the first command of the table with the
    first word as its name, with the words as its arguments, or reports an
    unknown command; the line can be recalled, and what was typed after it is
    left for the next round. *)
Theorem xshell_task_runs (commands : list (list Z)) (history aszCommand prompt : list Z) (items : list item)
  (trail keys : list Z) :
  commands_ok commands -> length history = SHELL_CMD_SIZE -> (length (c_string history) < SHELL_CMD_SIZE)%nat ->
  length aszCommand = SHELL_CMD_SIZE -> items <> [] -> line_ok items trail ->
  Forall typeable (line_of items trail) -> (length (line_of items trail) < SHELL_CMD_SIZE)%nat ->
  Forall (fun c => c <> 0) keys ->
  let argv := take SHELL_ARG_MAX ((fun i => content (snd i)) <$> items) in
  exists history' out,
    xshell_task commands history aszCommand prompt (line_of items trail ++ 13 :: keys) =
      Some (Some (match list_find (fun cmd => cmd = default [] (head argv)) commands with
                  | Some (i, _) => RunCommand i argv
                  | None => UnknownCommand
                  end, history', out, keys)) /\
    c_string history' = line_of items trail /\ length history' = SHELL_CMD_SIZE.
Proof.
  intros Hcmd Hh1 Hh2 Ha Hne Hok Ht Hlen Hkeys argv. set (text := line_of items trail) in *.
  assert (Hpos : (0 < length text)%nat).
  { pose proof (items_bound items trail Hok). fold text in H. destruct items; [done|]. cbn [length] in H. lia. }
  destruct (read_line_edits commands (text ++ 13 :: keys) (new_shell history) _ Hcmd (new_shell_edits history Hh1 Hh2))
    as (s&out&E&HE&Hend); [apply Forall_app; split; [by apply typeable_nonzero|by constructor]|].
  rewrite edit_typed in E, HE, Hend by (done || (cbn [length]; lia)). cbn [fst snd app] in *.
  destruct Hend as [Hc _]; [done|]. unfold ed_text in Hc. cbn [ed_before ed_after] in Hc.
  destruct (finish_line_run s _ HE) as (h&Ef&Hrecall&Hhl); unfold ed_text in *; cbn [ed_before ed_after] in *;
    rewrite ?app_nil_r in *; [done|done|].
  destruct (split_words items trail (drop (S (length text)) aszCommand) Hok) as (st&out2&Es&Hst&_). fold text argv in Es, Hst.
  unfold xshell_task. rewrite E. cbn [mbind option_bind]. rewrite Ef. cbn [mbind option_bind].
  destruct (drop (length text) aszCommand) as [|x more] eqn:Ed.
  { apply (f_equal length) in Ed. rewrite length_drop in Ed. cbn [length] in Ed. lia. }
  rewrite array_set_mid by done. cbn [mbind option_bind].
  replace more with (drop (S (length text)) aszCommand) by
    (replace (S (length text)) with (length text + 1)%nat by lia; rewrite <- drop_drop, Ed; done).
  unfold Shell_HandleCommand. rewrite (proj2 (Nat.ltb_ge _ _)) by lia. rewrite Es. cbn [mbind option_bind]. rewrite Hst.
  assert (exists w ws, argv = w :: ws) as (w0&ws&Eargv).
  { unfold argv. destruct items as [|[sep w] items]; [done|]. by eexists _, _. }
  rewrite Eargv. cbn [lookup list_lookup mbind option_bind head default from_option id].
  destruct (list_find _ commands) as [[i cmd]|]; cbn [mbind option_bind]; eexists _, _; (split; [done|]); done.
Qed.

Lemma no_history_ok : (length (c_string no_history) < SHELL_CMD_SIZE)%nat.
Proof. vm_compute. lia. Qed.

(** The line reg r "a b" *)
Definition reg_typed : list item := [([], Plain [114; 101; 103]); ([32], Plain [114]); ([32], Quoted [97; 32; 98])].

Lemma reg_typed_ok : line_ok reg_typed [].
Proof. split; [|split; [done|by repeat constructor]]. repeat constructor; cbn; done. Qed.

Lemma xshell_task_runs_witness :
  exists history' out,
    xshell_task Texts.shell_commands no_history (replicate SHELL_CMD_SIZE 0) SHELL_PROMPT
      [114; 101; 103; 32; 114; 32; 34; 97; 32; 98; 34; 13; 120] =
      Some (Some (RunCommand 2 [[114; 101; 103]; [114]; [97; 32; 98]], history', out, [120])).
Proof.
  destruct (xshell_task_runs Texts.shell_commands no_history (replicate SHELL_CMD_SIZE 0) SHELL_PROMPT reg_typed [] [120]
    shell_commands_ok eq_refl no_history_ok eq_refl) as (h&out&E&_);
    [done|exact reg_typed_ok|by repeat constructor|vm_compute; lia|by repeat constructor|].
  exists h, out. exact E.
Defined.
