(* ===== verification/Memp.v ===== *)
(** * Memory pools (LwIP core/memp.c)

    Each kind of object of the network stack has a pool of elements of one size;
    the free elements of a pool form a linked list through their first word.
    [memp_tab] is the head of each list and [memp_next] the words through which
    the free elements are linked: an element that is handed out has none, its
    memory belongs to the caller.  Pools, their sizes and places are parameters
    (LWIP_MEMPOOL in memp_std.h); statistics and overflow checks are off. *)
From S2P Require Import Prelude.
Open Scope Z_scope.

(** The pools of this configuration. *)
Inductive memp_t :=
  MEMP_RAW_PCB | MEMP_UDP_PCB | MEMP_TCP_PCB | MEMP_TCP_PCB_LISTEN | MEMP_TCP_SEG | MEMP_ALTCP_PCB | MEMP_NETBUF |
  MEMP_NETCONN | MEMP_TCPIP_MSG_API | MEMP_ARP_QUEUE | MEMP_IGMP_GROUP | MEMP_SYS_TIMEOUT | MEMP_PBUF | MEMP_PBUF_POOL.

#[export] Instance memp_t_eq_dec : EqDecision memp_t.
Proof. solve_decision. Defined.

Definition all_pools : list memp_t :=
  [MEMP_RAW_PCB; MEMP_UDP_PCB; MEMP_TCP_PCB; MEMP_TCP_PCB_LISTEN; MEMP_TCP_SEG; MEMP_ALTCP_PCB; MEMP_NETBUF;
   MEMP_NETCONN; MEMP_TCPIP_MSG_API; MEMP_ARP_QUEUE; MEMP_IGMP_GROUP; MEMP_SYS_TIMEOUT; MEMP_PBUF; MEMP_PBUF_POOL].

Definition MEM_ALIGNMENT : Z := 4.
Definition LWIP_MEM_ALIGN_SIZE (size : Z) : Z := Z.ldiff (u32 (size + MEM_ALIGNMENT - 1)) (MEM_ALIGNMENT - 1).
Definition LWIP_MEM_ALIGN (addr : Z) : Z := Z.ldiff (u32 (addr + MEM_ALIGNMENT - 1)) (MEM_ALIGNMENT - 1).

Definition MEMP_SIZE : Z := 0.

Record memp_desc := mkDesc { desc_size : Z; desc_num : Z; desc_base : Z }.

Record memp_state := mkMemp { memp_tab : memp_t -> Z; memp_next : gmap Z Z }.

Definition set_tab (t : memp_t) (v : Z) (s : memp_state) : memp_state :=
  mkMemp (fun t' => if decide (t' = t) then v else memp_tab s t') (memp_next s).
Definition set_link (p v : Z) (s : memp_state) : memp_state := mkMemp (memp_tab s) (<[p := v]> (memp_next s)).
Definition drop_link (p : Z) (s : memp_state) : memp_state := mkMemp (memp_tab s) (delete p (memp_next s)).

Section memp.
Context (memp_pools : memp_t -> memp_desc).

Abbreviation M := (prog memp_state).

(** The loop of [memp_init_pool]. *)
Fixpoint init_loop (n : nat) (t : memp_t) (memp : Z) : M unit :=
  match n with
  | O => mret tt
  | S n' =>
      head ← ask (fun s => memp_tab s t);
      _ ← update (set_link memp head);
      _ ← update (set_tab t memp);
      init_loop n' t (u32 (memp + MEMP_SIZE + desc_size (memp_pools t)))
  end.

Definition memp_init_pool (t : memp_t) : M unit :=
  _ ← update (set_tab t 0);
  init_loop (Z.to_nat (desc_num (memp_pools t))) t (LWIP_MEM_ALIGN (desc_base (memp_pools t))).

Fixpoint init_pools (ts : list memp_t) : M unit :=
  match ts with [] => mret tt | t :: ts' => _ ← memp_init_pool t; init_pools ts' end.

Definition memp_init : M unit := init_pools all_pools.

Definition do_memp_malloc_pool (t : memp_t) : M Z :=
  memp ← ask (fun s => memp_tab s t);
  if memp =? 0 then mret 0
  else
    next ← try_ask (fun s => memp_next s !! memp);
    _ ← update (set_tab t next);
    _ ← update (drop_link memp);
    mret (memp + MEMP_SIZE).

Definition memp_malloc (t : memp_t) : M Z := do_memp_malloc_pool t.

Definition do_memp_free_pool (t : memp_t) (mem : Z) : M unit :=
  let memp := mem - MEMP_SIZE in
  head ← ask (fun s => memp_tab s t);
  _ ← update (set_link memp head);
  update (set_tab t memp).

Definition memp_free (t : memp_t) (mem : Z) : M unit :=
  if mem =? 0 then mret tt else do_memp_free_pool t mem.
End memp.
