(* ===== verification/MempProofs.v ===== *)
(** * Properties of the memory pools *)
From S2P Require Import Prelude Memp.
Open Scope Z_scope.

Section memp.
Context (memp_pools : memp_t -> memp_desc).

(** ** The elements of a pool *)

Definition element (t : memp_t) (i : nat) : Z :=
  LWIP_MEM_ALIGN (desc_base (memp_pools t)) + Z.of_nat i * desc_size (memp_pools t).
Definition elements (t : memp_t) : list Z := element t <$> seq 0 (Z.to_nat (desc_num (memp_pools t))).

(** The pools lie in memory, away from the null pointer and from each other. *)
Record layout_ok : Prop := {
  lo_size : forall t, 4 <= desc_size (memp_pools t);
  lo_num : forall t, 0 <= desc_num (memp_pools t);
  lo_base : forall t, 0 < LWIP_MEM_ALIGN (desc_base (memp_pools t)) /\
    LWIP_MEM_ALIGN (desc_base (memp_pools t)) + desc_num (memp_pools t) * desc_size (memp_pools t) < 2 ^ 32;
  lo_apart : forall t t' i j, t <> t' ->
    Z.of_nat i < desc_num (memp_pools t) -> Z.of_nat j < desc_num (memp_pools t') ->
    element t i + desc_size (memp_pools t) <= element t' j \/ element t' j + desc_size (memp_pools t') <= element t i
}.

Lemma elem_of_elements t x : x ∈ elements t <-> exists i, Z.of_nat i < desc_num (memp_pools t) /\ x = element t i.
Proof.
  unfold elements. rewrite list_elem_of_fmap. split.
  - intros (i&->&Hi). exists i. apply elem_of_seq in Hi. split; [lia|done].
  - intros (i&Hi&->). exists i. split; [done|]. apply elem_of_seq. lia.
Qed.

Hypothesis Hlayout : layout_ok.

#[local] Set Default Proof Using "All".

Lemma element_inj t i j : element t i = element t j -> i = j.
Proof. unfold element. pose proof (lo_size Hlayout t). intros E. apply Nat2Z.inj. nia. Qed.

Lemma elements_nodup t : NoDup (elements t).
Proof. apply NoDup_fmap_2_strong; [|apply NoDup_seq]. intros i j _ _ E. by apply (element_inj t). Qed.

Lemma element_pos t x : x ∈ elements t -> x <> 0.
Proof.
  intros (i&Hi&->)%elem_of_elements. unfold element. pose proof (lo_size Hlayout t). pose proof (lo_base Hlayout t). nia.
Qed.

Lemma elements_apart t t' x : x ∈ elements t -> x ∈ elements t' -> t = t'.
Proof.
  intros (i&Hi&->)%elem_of_elements (j&Hj&E)%elem_of_elements. destruct (decide (t = t')) as [|Hne]; [done|].
  pose proof (lo_apart Hlayout t t' i j Hne Hi Hj). pose proof (lo_size Hlayout t). pose proof (lo_size Hlayout t'). lia.
Qed.

(** ** The lists *)

(** The free list of a pool, from its head. *)
Fixpoint free_chain (links : gmap Z Z) (p : Z) (xs : list Z) : Prop :=
  match xs with
  | [] => p = 0
  | x :: xs' => p = x /\ exists q, links !! x = Some q /\ free_chain links q xs'
  end.

Lemma free_chain_frame links links' p xs : (forall x, x ∈ xs -> links' !! x = links !! x) ->
  free_chain links p xs -> free_chain links' p xs.
Proof.
  revert p. induction xs as [|x xs IH]; intros p Hl; cbn; [done|].
  intros [-> (q&E&H)]. split; [done|]. exists q. split; [by rewrite Hl by left|].
  apply IH; [|done]. intros y Hy. apply Hl. by right.
Qed.

(** [free t] are the free elements of pool [t] in the order of its list, [out t]
    those handed out. *)
Record pools_ok (s : memp_state) (free out : memp_t -> list Z) : Prop := {
  po_chain : forall t, free_chain (memp_next s) (memp_tab s t) (free t);
  po_all : forall t, free t ++ out t ≡ₚ elements t
}.

Lemma po_nodup s free out t : pools_ok s free out -> NoDup (free t ++ out t).
Proof. intros H. rewrite (po_all _ _ _ H). apply elements_nodup. Qed.

Lemma po_in s free out t x : pools_ok s free out -> x ∈ free t \/ x ∈ out t <-> x ∈ elements t.
Proof. intros H. rewrite <- elem_of_app. by rewrite (po_all _ _ _ H). Qed.

Definition at_pool {A} (t : memp_t) (v : A) (f : memp_t -> A) : memp_t -> A := fun t' => if decide (t' = t) then v else f t'.

Lemma malloc_empty s free out t : pools_ok s free out -> free t = [] -> memp_malloc t s = Some (0, s).
Proof.
  intros H Hf. pose proof (po_chain _ _ _ H t) as Hc. rewrite Hf in Hc. cbn in Hc.
  unfold memp_malloc, do_memp_malloc_pool. rewrite ask_bind, Hc. done.
Qed.

Lemma malloc_next s free out t x xs : pools_ok s free out -> free t = x :: xs ->
  exists s', memp_malloc t s = Some (x, s') /\ pools_ok s' (at_pool t xs free) (at_pool t (x :: out t) out).
Proof.
  intros H Hf. pose proof (po_chain _ _ _ H t) as Hc. rewrite Hf in Hc. cbn in Hc. destruct Hc as [Ht (q&Hq&Hc)].
  pose proof (po_nodup _ _ _ t H) as Hnd. rewrite Hf in Hnd. apply NoDup_app in Hnd as (Hnd&_&_).
  apply NoDup_cons in Hnd as [Hx Hnd].
  assert (Hxe : x ∈ elements t) by (apply (po_in _ _ _ _ _ H); left; rewrite Hf; left).
  eexists. split.
  - unfold memp_malloc, do_memp_malloc_pool. rewrite ask_bind, Ht. rewrite (proj2 (Z.eqb_neq x 0)) by (by eapply element_pos).
    erewrite bind_run; [|unfold try_ask; by rewrite Hq]. rewrite !update_bind. unfold MEMP_SIZE. by rewrite Z.add_0_r.
  - split.
    + intros t'. cbn [memp_next memp_tab drop_link set_tab]. unfold at_pool. case_decide as Hd.
      * subst t'. eapply free_chain_frame; [|exact Hc]. intros y Hy. rewrite lookup_delete_ne; [done|]. by intros ->.
      * eapply free_chain_frame; [|apply (po_chain _ _ _ H)]. intros y Hy. rewrite lookup_delete_ne; [done|].
        intros ->. apply Hd. eapply elements_apart; [|exact Hxe]. apply (po_in _ _ _ _ _ H). by left.
    + intros t'. unfold at_pool. case_decide as Hd; [|apply (po_all _ _ _ H)]. subst t'.
      rewrite <- (po_all _ _ _ H t), Hf. cbn. by rewrite Permutation_middle.
Qed.

Lemma free_one s free out t x ys : pools_ok s free out -> out t ≡ₚ x :: ys ->
  exists s', memp_free t x s = Some (tt, s') /\ pools_ok s' (at_pool t (x :: free t) free) (at_pool t ys out).
Proof.
  intros H Ho. assert (Hxe : x ∈ elements t) by (apply (po_in _ _ _ _ _ H); right; rewrite Ho; left).
  pose proof (po_nodup _ _ _ t H) as Hnd. apply NoDup_app in Hnd as (_&Hnd&_).
  assert (Hx : x ∉ free t) by (intros Hx; apply (Hnd x Hx); rewrite Ho; left).
  eexists. split.
  - unfold memp_free, do_memp_free_pool. rewrite (proj2 (Z.eqb_neq x 0)) by (by eapply element_pos).
    rewrite ask_bind, update_bind. unfold MEMP_SIZE. rewrite Z.sub_0_r. done.
  - split.
    + intros t'. cbn [memp_next memp_tab set_tab set_link]. unfold at_pool. case_decide as Hd.
      * subst t'. split; [done|]. exists (memp_tab s t). split; [apply lookup_insert_eq|].
        eapply free_chain_frame; [|apply (po_chain _ _ _ H)]. intros y Hy. rewrite lookup_insert_ne; [done|]. by intros ->.
      * eapply free_chain_frame; [|apply (po_chain _ _ _ H)]. intros y Hy. rewrite lookup_insert_ne; [done|].
        intros ->. apply Hd. eapply elements_apart; [|exact Hxe]. apply (po_in _ _ _ _ _ H). by left.
    + intros t'. unfold at_pool. case_decide as Hd; [|apply (po_all _ _ _ H)]. subst t'.
      rewrite <- (po_all _ _ _ H t), Ho. cbn. by rewrite Permutation_middle.
Qed.

(** ** Initialisation *)

Lemma align_small a : 0 <= a < 2 ^ 32 - 4 -> LWIP_MEM_ALIGN a = Z.ldiff (a + 3) 3.
Proof. intros Ha. unfold LWIP_MEM_ALIGN, MEM_ALIGNMENT. rewrite u32_small by lia. f_equal; lia. Qed.

(** The loop puts [n] elements from index [i] on in front of the list. *)
Lemma init_loop_run n t i s xs : Z.of_nat (i + n) = desc_num (memp_pools t) ->
  free_chain (memp_next s) (memp_tab s t) xs -> (forall j, (i <= j < i + n)%nat -> element t j ∉ xs) ->
  exists s', init_loop memp_pools n t (element t i) s = Some (tt, s') /\
    (forall t', t' <> t -> memp_tab s' t' = memp_tab s t') /\
    (forall p, (forall j, (i <= j < i + n)%nat -> p <> element t j) -> memp_next s' !! p = memp_next s !! p) /\
    free_chain (memp_next s') (memp_tab s' t) (rev (element t <$> seq i n) ++ xs).
Proof.
  revert i s xs. induction n as [|n IH]; intros i s xs Hn Hc Hx; cbn [init_loop].
  { exists s. split; [done|]. split; [done|]. split; [done|]. exact Hc. }
  rewrite ask_bind, !update_bind. set (s1 := set_tab t (element t i) _).
  pose proof (lo_size Hlayout t). pose proof (lo_base Hlayout t) as [Hb0 Hb1].
  assert (En : u32 (element t i + MEMP_SIZE + desc_size (memp_pools t)) = element t (S i)).
  { unfold element, MEMP_SIZE. rewrite u32_small; [lia|].
    assert (Z.of_nat (S i) * desc_size (memp_pools t) <= desc_num (memp_pools t) * desc_size (memp_pools t))
      by (apply Z.mul_le_mono_nonneg_r; lia). lia. }
  rewrite En. destruct (IH (S i) s1 (element t i :: xs)) as (s'&E&Htab&Hlk&Hch).
  - lia.
  - split; [cbn; by rewrite decide_True|]. exists (memp_tab s t). split; [apply lookup_insert_eq|].
    eapply free_chain_frame; [|exact Hc]. intros y Hy. cbn. rewrite lookup_insert_ne; [done|].
    intros <-. apply (Hx i); [lia|done].
  - intros j Hj [E|Hin]%elem_of_cons; [apply element_inj in E; lia|]. apply (Hx j); [lia|done].
  - exists s'. split; [done|]. split; [|split].
    + intros t' Ht'. rewrite Htab by done. cbn. by rewrite decide_False.
    + intros p Hp. rewrite Hlk by (intros; apply Hp; lia). cbn. rewrite lookup_insert_ne; [done|].
      intros E1. apply (Hp i); [lia|done].
    + cbn [seq fmap list_fmap rev]. by rewrite <- app_assoc.
Qed.

Lemma init_pool_run t s : exists s', memp_init_pool memp_pools t s = Some (tt, s') /\
  (forall t', t' <> t -> memp_tab s' t' = memp_tab s t') /\
  (forall p, p ∉ elements t -> memp_next s' !! p = memp_next s !! p) /\
  free_chain (memp_next s') (memp_tab s' t) (rev (elements t)).
Proof.
  unfold memp_init_pool. rewrite update_bind. set (s0 := set_tab t 0 s).
  assert (E0 : LWIP_MEM_ALIGN (desc_base (memp_pools t)) = element t 0) by (unfold element; lia). rewrite E0.
  pose proof (lo_num Hlayout t).
  destruct (init_loop_run (Z.to_nat (desc_num (memp_pools t))) t 0 s0 []) as (s'&E&Htab&Hlk&Hch).
  - lia.
  - cbn. by rewrite decide_True.
  - intros j _ Hin. by apply not_elem_of_nil in Hin.
  - exists s'. split; [done|]. rewrite app_nil_r in Hch. split; [|split; [|exact Hch]].
    + intros t' Ht'. rewrite Htab by done. cbn. by rewrite decide_False.
    + intros p Hp. rewrite Hlk; [done|]. intros j Hj ->. apply Hp, elem_of_elements. exists j. split; [lia|done].
Qed.

Lemma init_pools_run ts s : NoDup ts ->
  exists s', init_pools memp_pools ts s = Some (tt, s') /\
    (forall t, t ∈ ts -> free_chain (memp_next s') (memp_tab s' t) (rev (elements t))) /\
    (forall t xs, t ∉ ts -> (forall x, x ∈ xs -> x ∈ elements t) -> free_chain (memp_next s) (memp_tab s t) xs ->
       free_chain (memp_next s') (memp_tab s' t) xs).
Proof.
  revert s. induction ts as [|t ts IH]; intros s Hnd; cbn [init_pools].
  { exists s. split; [done|]. split; [|done]. intros t Ht. by apply not_elem_of_nil in Ht. }
  apply NoDup_cons in Hnd as [Ht Hnd]. destruct (init_pool_run t s) as (s1&E1&Htab&Hlk&Hch).
  rewrite (bind_run _ _ _ _ _ E1). destruct (IH s1 Hnd) as (s2&E2&H2&H2'). exists s2. split; [done|]. split.
  - intros t' [-> | Ht']%elem_of_cons; [|by apply H2]. apply H2'; [done| |exact Hch].
    intros x. by rewrite <- (Permutation_rev (elements t)).
  - intros t' xs [Hne Hnt]%not_elem_of_cons Hxs Hc. apply H2'; [done|done|]. rewrite Htab by done.
    eapply free_chain_frame; [|exact Hc]. intros x Hx. apply Hlk. intros Hin. apply Hne.
    by apply (elements_apart t' t x); [apply Hxs|].
Qed.

Lemma all_pools_all t : t ∈ all_pools.
Proof. unfold all_pools. destruct t; set_solver. Qed.

Lemma init_ok s : exists s', memp_init memp_pools s = Some (tt, s') /\
  pools_ok s' (fun t => rev (elements t)) (fun _ => []).
Proof.
  destruct (init_pools_run all_pools s) as (s'&E&H&_); [apply (bool_decide_unpack _); by vm_compute|].
  exists s'. split; [exact E|]. split; [intros t; apply H, all_pools_all|].
  intros t. rewrite app_nil_r. by rewrite <- Permutation_rev.
Qed.

(** ** Properties *)

(** The states that the users of the pools can bring about: [out t] is what
    they hold of pool [t].  They return only what they hold. *)
Inductive reachable : memp_state -> (memp_t -> list Z) -> Prop :=
| reach_init s0 s : memp_init memp_pools s0 = Some (tt, s) -> reachable s (fun _ => [])
| reach_malloc s out t x s' : reachable s out -> memp_malloc t s = Some (x, s') ->
    reachable s' (if decide (x = 0) then out else at_pool t (x :: out t) out)
| reach_free s out t x ys s' : reachable s out -> out t ≡ₚ x :: ys -> memp_free t x s = Some (tt, s') ->
    reachable s' (at_pool t ys out).

Lemma memp_reachable_ok s out : reachable s out -> exists free, pools_ok s free out.
Proof.
  induction 1 as [s0 s E|s out t x s' _ [free H] E|s out t x ys s' _ [free H] Ho E].
  - destruct (init_ok s0) as (s'&E'&H). rewrite E in E'. injection E' as <-. by eexists.
  - destruct (free t) as [|y f] eqn:Ef.
    + rewrite (malloc_empty _ _ _ _ H Ef) in E. injection E as <- <-. rewrite decide_True by done. by eexists.
    + destruct (malloc_next _ _ _ _ _ _ H Ef) as (s1&E1&H1). rewrite E in E1. injection E1 as -> ->.
      rewrite decide_False; [by eexists|]. apply (element_pos t), (po_in _ _ _ _ _ H). left. rewrite Ef. left.
  - destruct (free_one _ _ _ _ _ _ H Ho) as (s1&E1&H1). rewrite E in E1. injection E1 as ->. by eexists.
Qed.

(** C25 — However the pools are used, as long as only held elements are returned:
    what is held are elements of the right pools, none of them twice, and no two
    of them overlap; and an allocation returns, without a wild access, the null
    pointer exactly when all elements of the pool are held. *)
Theorem memp_safe s out : reachable s out ->
  (forall t, NoDup (out t)) /\ (forall t x, x ∈ out t -> x ∈ elements t) /\
  (forall t t' x y, x ∈ out t -> y ∈ out t' -> (t, x) <> (t', y) ->
     x + desc_size (memp_pools t) <= y \/ y + desc_size (memp_pools t') <= x) /\
  (forall t, exists x s', memp_malloc t s = Some (x, s') /\
     (x = 0 <-> Z.of_nat (length (out t)) = desc_num (memp_pools t))).
Proof.
  intros [free H]%memp_reachable_ok.
  assert (Hin : forall t x, x ∈ out t -> x ∈ elements t) by (intros t x Hx; apply (po_in _ _ _ _ _ H); by right).
  split_and!; [|exact Hin| |].
  - intros t. pose proof (po_nodup _ _ _ t H) as Hn. by apply NoDup_app in Hn as (_&_&?).
  - intros t t' x y (i&Hi&->)%Hin%elem_of_elements (j&Hj&->)%Hin%elem_of_elements Hne.
    destruct (decide (t = t')) as [<-|Ht]; [|by apply (lo_apart Hlayout)].
    unfold element. pose proof (lo_size Hlayout t). assert (i <> j) by congruence.
    destruct (decide (i < j)%nat); [left|right]; nia.
  - intros t. assert (Hlen : (length (free t) + length (out t))%nat = Z.to_nat (desc_num (memp_pools t))).
    { rewrite <- length_app, (po_all _ _ _ H t). unfold elements. by rewrite length_fmap, length_seq. }
    pose proof (lo_num Hlayout t). destruct (free t) as [|x f] eqn:Ef.
    + exists 0, s. split; [by eapply malloc_empty|]. cbn in Hlen. split; [lia|done].
    + destruct (malloc_next _ _ _ _ _ _ H Ef) as (s1&E1&_). exists x, s1. split; [done|]. cbn in Hlen.
      split; [|lia]. intros ->. exfalso. apply (element_pos t 0); [|done]. apply (po_in _ _ _ _ _ H). left. rewrite Ef. left.
Qed.
End memp.

(** ** Witness

    Two elements of 12 bytes for each pool, the pools one after the other. *)
Definition pool_number (t : memp_t) : Z := Z.of_nat (default 0%nat (fst <$> list_find (eq t) all_pools)).
Definition pools_ex (t : memp_t) : memp_desc := mkDesc 12 2 (1000 + 24 * pool_number t).

Lemma pools_ex_ok : layout_ok pools_ex.
Proof.
  split.
  - intros t. cbn. lia.
  - intros t. cbn. lia.
  - intros t. by destruct t; vm_compute.
  - intros t t' i j Hne Hi Hj. unfold element. cbn [pools_ex desc_size desc_num desc_base] in *.
    assert (Ha : forall t, LWIP_MEM_ALIGN (1000 + 24 * pool_number t) = 1000 + 24 * pool_number t) by (by intros []).
    rewrite !Ha. assert (pool_number t <> pool_number t') by (by destruct t, t').
    lia.
Qed.

Lemma memp_safe_witness : exists s, memp_init pools_ex (mkMemp (fun _ => 0) ∅) = Some (tt, s) /\
  exists x s', memp_malloc MEMP_PBUF s = Some (x, s') /\ x <> 0.
Proof.
  destruct (memp_init pools_ex (mkMemp (fun _ => 0) ∅)) as [[[] s]|] eqn:E; [|by vm_compute in E].
  exists s. split; [reflexivity|].
  destruct (memp_safe pools_ex pools_ex_ok s (fun _ => []) (reach_init pools_ex _ s E)) as (_&_&_&H).
  destruct (H MEMP_PBUF) as (x&s'&Em&Hx). exists x, s'. split; [exact Em|]. intros H0. apply Hx in H0. discriminate H0.
Defined.
