(* ===== verification/LwipHeap.v ===== *)
(** * The heap of the network stack (LwIP core/mem.c)

    A heap of its own, apart from the kernel's: a doubly linked chain of blocks
    in the order of their addresses, each with a header (next, previous, used)
    in front of its data, and a pointer to the lowest free block.  Headers are
    known by their index into [ram], as in the code; the model keeps them apart
    from the data bytes, and keeps the stale header of a block that has been
    merged into another one.  The mutex makes each operation atomic.  The heap
    size is a parameter ([MEM_SIZE] differs between the projects); statistics,
    overflow and sanity checks are off, sizes are 16 bit. *)
From S2P Require Import Prelude Mem Memp.
Open Scope Z_scope.

Record mem_hdr := mkHdr { mem_next : Z; mem_prev : Z; mem_used : Z }.

Definition with_mem_next (v : Z) (h : mem_hdr) : mem_hdr := mkHdr v (mem_prev h) (mem_used h).
Definition with_mem_prev (v : Z) (h : mem_hdr) : mem_hdr := mkHdr (mem_next h) v (mem_used h).
Definition with_mem_used (v : Z) (h : mem_hdr) : mem_hdr := mkHdr (mem_next h) (mem_prev h) v.

Record lheap := mkHeap { heads : gmap Z mem_hdr; lfree : Z }.

Definition SIZEOF_STRUCT_MEM : Z := 8.
Definition MIN_SIZE_ALIGNED : Z := 12.

Section heap.
Context (ram MEM_SIZE_ALIGNED : Z).

Abbreviation H := (prog lheap).

Definition hdr (p : Z) : H mem_hdr := try_ask (fun s => heads s !! p).
Definition set_hdr (p : Z) (f : mem_hdr -> mem_hdr) : H unit :=
  try_update (fun s => h ← heads s !! p; Some (mkHeap (<[p := f h]> (heads s)) (lfree s))).
Definition put_hdr (p : Z) (h : mem_hdr) : H unit := update (fun s => mkHeap (<[p := h]> (heads s)) (lfree s)).
Definition set_lfree (p : Z) : H unit := update (fun s => mkHeap (heads s) p).

Definition mem_to_ptr (mem : Z) : Z := u16 (mem - ram).

Definition mem_init : H unit :=
  _ ← put_hdr 0 (mkHdr MEM_SIZE_ALIGNED 0 0);
  _ ← put_hdr MEM_SIZE_ALIGNED (mkHdr MEM_SIZE_ALIGNED MEM_SIZE_ALIGNED 1);
  set_lfree 0.

(** Link the block behind [p], if it is not the end, back to [p]. *)
Definition link_back (next p : Z) : H unit := when (negb (next =? MEM_SIZE_ALIGNED)) (set_hdr next (with_mem_prev p)).

Definition plug_forward (mem : Z) : H unit :=
  m ← hdr mem;
  let nmem := mem_next m in
  nm ← hdr nmem;
  when (negb (mem =? nmem) && (mem_used nm =? 0) && negb (nmem =? MEM_SIZE_ALIGNED))
    (l ← ask lfree;
     _ ← when (l =? nmem) (set_lfree mem);
     _ ← set_hdr mem (with_mem_next (mem_next nm));
     link_back (mem_next nm) mem).

Definition plug_backward (mem : Z) : H unit :=
  m ← hdr mem;
  let pmem := mem_prev m in
  pm ← hdr pmem;
  when (negb (pmem =? mem) && (mem_used pm =? 0))
    (l ← ask lfree;
     _ ← when (l =? mem) (set_lfree pmem);
     _ ← set_hdr pmem (with_mem_next (mem_next m));
     link_back (mem_next m) pmem).

Definition plug_holes (mem : Z) : H unit := _ ← plug_forward mem; plug_backward mem.

Definition mem_link_valid (mem : Z) : H bool :=
  m ← hdr mem;
  if (MEM_SIZE_ALIGNED <? mem_next m) || (MEM_SIZE_ALIGNED <? mem_prev m) then mret false
  else
    nm ← hdr (mem_next m);
    pm ← hdr (mem_prev m);
    mret (negb ((negb (mem_prev m =? mem) && negb (mem_next pm =? mem)) ||
                (negb (mem_next m =? MEM_SIZE_ALIGNED) && negb (mem_prev nm =? mem)))).

(** An illegal pointer is ignored (after a message). *)
Definition mem_free (rmem : Z) : H unit :=
  if rmem =? 0 then mret tt
  else if negb (Z.land rmem (MEM_ALIGNMENT - 1) =? 0) then mret tt
  else if (rmem - SIZEOF_STRUCT_MEM <? ram) || (ram + MEM_SIZE_ALIGNED <? rmem + MIN_SIZE_ALIGNED) then mret tt
  else
    let mem := mem_to_ptr (rmem - SIZEOF_STRUCT_MEM) in
    m ← hdr mem;
    if mem_used m =? 0 then mret tt
    else
      valid ← mem_link_valid mem;
      if negb valid then mret tt
      else
        _ ← set_hdr mem (with_mem_used 0);
        l ← ask lfree;
        _ ← when (mem <? l) (set_lfree mem);
        plug_holes mem.

(** The search for the next free block after the lowest one has been taken. *)
Fixpoint next_lfree (fuel : nat) (cur : Z) : H Z :=
  match fuel with
  | O => fun _ => None
  | S fuel' =>
      c ← hdr cur;
      if negb (mem_used c =? 0) && negb (cur =? MEM_SIZE_ALIGNED) then next_lfree fuel' (mem_next c) else mret cur
  end.

(** The block that has been found is cut in two if the rest is large enough. *)
Definition cut_block (mem size : Z) : H unit :=
  m ← hdr mem;
  if size + SIZEOF_STRUCT_MEM + MIN_SIZE_ALIGNED <=? u32 (mem_next m - (mem + SIZEOF_STRUCT_MEM)) then
    let ptr2 := u16 (mem + SIZEOF_STRUCT_MEM + size) in
    _ ← put_hdr ptr2 (mkHdr (mem_next m) mem 0);
    _ ← set_hdr mem (with_mem_next ptr2);
    _ ← set_hdr mem (with_mem_used 1);
    link_back (mem_next m) ptr2
  else set_hdr mem (with_mem_used 1).

(** The loop of [mem_malloc]; the chain has no more blocks than there are
    headers. *)
Fixpoint malloc_loop (fuel : nat) (ptr size : Z) : H Z :=
  match fuel with
  | O => fun _ => None
  | S fuel' =>
      if ptr <? u32 (MEM_SIZE_ALIGNED - size) then
        m ← hdr ptr;
        if (mem_used m =? 0) && (size <=? u32 (mem_next m - (ptr + SIZEOF_STRUCT_MEM))) then
          _ ← cut_block ptr size;
          l ← ask lfree;
          n ← ask (fun s => base.size (heads s));
          _ ← when (ptr =? l) (cur ← next_lfree (S n) l; set_lfree cur);
          mret (ram + ptr + SIZEOF_STRUCT_MEM)
        else malloc_loop fuel' (mem_next m) size
      else mret 0
  end.

Definition request_size (size_in : Z) : Z :=
  let size := u16 (LWIP_MEM_ALIGN_SIZE size_in) in if size <? MIN_SIZE_ALIGNED then MIN_SIZE_ALIGNED else size.

Definition mem_malloc (size_in : Z) : H Z :=
  if size_in =? 0 then mret 0
  else
    let size := request_size size_in in
    if (MEM_SIZE_ALIGNED <? size) || (size <? size_in) then mret 0
    else
      l ← ask lfree;
      n ← ask (fun s => base.size (heads s));
      malloc_loop (S n) l size.

(** [mem_trim]: the null pointer if the block is too small for [new_size]. *)
Definition mem_trim (rmem new_size : Z) : H Z :=
  let newsize := request_size new_size in
  if (MEM_SIZE_ALIGNED <? newsize) || (newsize <? new_size) then mret 0
  else if (rmem <? ram) || (ram + MEM_SIZE_ALIGNED <=? rmem) then mret rmem
  else
    let mem := mem_to_ptr (rmem - SIZEOF_STRUCT_MEM) in
    m ← hdr mem;
    let size := u16 (u16 (mem_next m - mem) - SIZEOF_STRUCT_MEM) in
    if size <? newsize then mret 0
    else if newsize =? size then mret rmem
    else
      m2 ← hdr (mem_next m);
      let ptr2 := u16 (mem + SIZEOF_STRUCT_MEM + newsize) in
      l ← ask lfree;
      _ ← (if mem_used m2 =? 0 then
             _ ← when (l =? mem_next m) (set_lfree ptr2);
             _ ← put_hdr ptr2 (mkHdr (mem_next m2) mem 0);
             _ ← set_hdr mem (with_mem_next ptr2);
             link_back (mem_next m2) ptr2
           else when (newsize + SIZEOF_STRUCT_MEM + MIN_SIZE_ALIGNED <=? size)
             (_ ← when (ptr2 <? l) (set_lfree ptr2);
              _ ← put_hdr ptr2 (mkHdr (mem_next m) mem 0);
              _ ← set_hdr mem (with_mem_next ptr2);
              link_back (mem_next m) ptr2));
      mret rmem.
End heap.

(** [mem_calloc], on the heap and the bytes. *)
Definition mem_calloc (ram MEM_SIZE_ALIGNED count size : Z) : prog (lheap * mem) Z :=
  fun '(s, m) =>
    let alloc_size := u32 (count * size) in
    if negb (u16 alloc_size =? alloc_size) then Some (0, (s, m))
    else
      '(p, s) ← mem_malloc ram MEM_SIZE_ALIGNED alloc_size s;
      if p =? 0 then Some (p, (s, m)) else m ← memset p 0 (Z.to_nat alloc_size) m; Some (p, (s, m)).
