(* ===== verification/LwipHeapProofs.v ===== *)
(** * Properties of the heap of the network stack

    The heap as a sequence of blocks in the order of their addresses, and what
    the operations do to it. *)
From S2P Require Import Prelude Memp LwipHeap.
Open Scope Z_scope.

(** A block: its index, the index of the next one, whether it is used. *)
Record blk := mkBlk { b_at : Z; b_next : Z; b_used : bool }.

Definition used_word (u : bool) : Z := if u then 1 else 0.

(** The headers of a stretch of blocks: from index [o], with [p] before it, to
    index [o'], with [p'] before that. *)
Fixpoint hseg (H : gmap Z mem_hdr) (p o : Z) (bs : list blk) (p' o' : Z) : Prop :=
  match bs with
  | [] => p' = p /\ o' = o
  | b :: bs' =>
      b_at b = o /\ H !! o = Some (mkHdr (b_next b) p (used_word (b_used b))) /\
      o + SIZEOF_STRUCT_MEM + MIN_SIZE_ALIGNED <= b_next b /\ hseg H o (b_next b) bs' p' o'
  end.

Lemma hseg_app H p o xs ys p' o' :
  hseg H p o (xs ++ ys) p' o' <-> exists q r, hseg H p o xs q r /\ hseg H q r ys p' o'.
Proof.
  revert p o. induction xs as [|b xs IH]; intros p o; cbn [hseg app].
  - split; [intros Hs; by exists p, o|]. by intros (q&r&[-> ->]&Hs).
  - rewrite IH. naive_solver.
Qed.

Lemma hseg_le H p o xs p' o' : hseg H p o xs p' o' -> o <= o'.
Proof.
  revert p o. induction xs as [|b xs IH]; intros p o; cbn; [lia|].
  intros (_&_&Hn&Hs). apply IH in Hs. unfold SIZEOF_STRUCT_MEM, MIN_SIZE_ALIGNED in Hn. lia.
Qed.

Lemma hseg_in H p o xs p' o' b : hseg H p o xs p' o' -> b ∈ xs ->
  o <= b_at b /\ b_at b + 20 <= b_next b <= o' /\ exists q, H !! b_at b = Some (mkHdr (b_next b) q (used_word (b_used b))).
Proof.
  revert p o. induction xs as [|c xs IH]; intros p o Hs Hb; [by apply not_elem_of_nil in Hb|].
  cbn in Hs. destruct Hs as (Hc&Hh&Hn&Hs). pose proof (hseg_le _ _ _ _ _ _ Hs).
  unfold SIZEOF_STRUCT_MEM, MIN_SIZE_ALIGNED in Hn.
  apply elem_of_cons in Hb as [-> | Hb].
  - rewrite Hc. split; [lia|]. split; [lia|]. by eexists.
  - destruct (IH _ _ Hs Hb) as (H1&H2&H3). split; [lia|]. by split.
Qed.

Lemma hseg_frame H H' p o xs p' o' : (forall b, b ∈ xs -> H' !! b_at b = H !! b_at b) ->
  hseg H p o xs p' o' -> hseg H' p o xs p' o'.
Proof.
  revert p o. induction xs as [|b xs IH]; intros p o Hf; cbn; [done|].
  intros (Hb&Hh&Hn&Hs). split; [done|]. split; [|split; [done|]].
  - rewrite <- Hb, Hf by left. by rewrite Hb.
  - apply IH; [|done]. intros c Hc. apply Hf. by right.
Qed.

Lemma hseg_nodup H p o xs p' o' : hseg H p o xs p' o' -> NoDup (b_at <$> xs).
Proof.
  revert p o. induction xs as [|b xs IH]; intros p o; cbn; [constructor|].
  intros (Hb&Hh&Hn&Hs). constructor; [|by eapply IH].
  intros (c&Hc&Hin)%list_elem_of_fmap. destruct (hseg_in _ _ _ _ _ _ _ Hs Hin) as [H1 _].
  unfold SIZEOF_STRUCT_MEM, MIN_SIZE_ALIGNED in Hn. lia.
Qed.

Lemma hseg_length H p o xs p' o' : hseg H p o xs p' o' -> (length xs <= size H)%nat.
Proof.
  intros Hs. rewrite <- (length_fmap b_at xs), <- size_dom.
  assert (Hsub : b_at <$> xs ⊆ elements (dom H)).
  { intros a (b&->&Hb)%list_elem_of_fmap. apply elem_of_elements, elem_of_dom.
    destruct (hseg_in _ _ _ _ _ _ _ Hs Hb) as (_&_&q&E). by eexists. }
  exact (submseteq_length _ _ (NoDup_submseteq _ _ (hseg_nodup _ _ _ _ _ _ Hs) Hsub)).
Qed.

Section heap.
Context (ram END : Z).

(** The back link of the block at [o], if there is one. *)
Definition relink (q o : Z) (H : gmap Z mem_hdr) : gmap Z mem_hdr :=
  if o =? END then H else alter (with_mem_prev q) o H.

Lemma relink_other q o H x : x <> o -> relink q o H !! x = H !! x.
Proof. intros Hx. unfold relink. destruct (o =? END); [done|]. by rewrite lookup_alter_ne. Qed.

Lemma link_back_run q o s : o = END \/ is_Some (heads s !! o) ->
  link_back END o q s = Some (tt, mkHeap (relink q o (heads s)) (lfree s)).
Proof.
  intros Ho. unfold link_back, relink. destruct (Z.eqb_spec o END) as [->|Hne]; cbn [negb when]; [by destruct s|].
  destruct Ho as [|[h Hh]]; [done|]. unfold set_hdr, try_update. rewrite Hh. cbn. do 3 f_equal.
  apply map_eq. intros i. rewrite lookup_insert, lookup_alter. case_decide; simplify_eq; by rewrite ?Hh.
Qed.

Lemma hseg_relink H p o xs p' q : hseg H p o xs p' END -> exists p'', hseg (relink q o H) q o xs p'' END.
Proof.
  destruct xs as [|b xs]; cbn.
  - intros [-> <-]. by exists q.
  - intros (Hb&Hh&Hn&Hs). exists p'. split; [done|].
    unfold SIZEOF_STRUCT_MEM, MIN_SIZE_ALIGNED in *. pose proof (hseg_le _ _ _ _ _ _ Hs).
    split; [|split; [done|]].
    + unfold relink. rewrite (proj2 (Z.eqb_neq o END)) by lia. by rewrite lookup_alter_eq, Hh.
    + eapply hseg_frame; [|exact Hs]. intros c Hc. apply relink_other.
      destruct (hseg_in _ _ _ _ _ _ _ Hs Hc) as [H1 _]. lia.
Qed.

Lemma hseg_start H p o xs p' : hseg H p o xs p' END -> o = END \/ is_Some (H !! o).
Proof. destruct xs as [|b xs]; cbn; [naive_solver|]. intros (_&Hh&_). right. by eexists. Qed.

(** A stretch of the heap is replaced by another one with the same bounds. *)
Lemma replace_mid H H1 pre mid mid' post p1 o1 p2 o2 pl q :
  hseg H 0 0 pre p1 o1 -> hseg H p1 o1 mid p2 o2 -> hseg H p2 o2 post pl END ->
  (forall b, b ∈ pre \/ b ∈ post -> H1 !! b_at b = H !! b_at b) -> hseg H1 p1 o1 mid' q o2 ->
  exists pl', hseg (relink q o2 H1) 0 0 (pre ++ mid' ++ post) pl' END.
Proof.
  intros Hpre Hmid Hpost Hf Hmid'.
  pose proof (hseg_frame _ H1 _ _ _ _ _ (fun b Hb => Hf b (or_introl Hb)) Hpre) as Hpre1.
  pose proof (hseg_frame _ H1 _ _ _ _ _ (fun b Hb => Hf b (or_intror Hb)) Hpost) as Hpost1.
  destruct (hseg_relink _ _ _ _ _ q Hpost1) as [pl' Hpost2]. exists pl'.
  rewrite hseg_app. exists p1, o1. split.
  - eapply hseg_frame; [|exact Hpre1]. intros b Hb. apply relink_other.
    destruct (hseg_in _ _ _ _ _ _ _ Hpre1 Hb) as (_&H2&_). pose proof (hseg_le _ _ _ _ _ _ Hmid'). lia.
  - rewrite hseg_app. exists q, o2. split; [|done]. eapply hseg_frame; [|exact Hmid']. intros b Hb. apply relink_other.
    destruct (hseg_in _ _ _ _ _ _ _ Hmid' Hb) as (_&H2&_). lia.
Qed.

(** ** The heap *)

Fixpoint first_free (bs : list blk) : Z :=
  match bs with [] => END | b :: bs' => if b_used b then first_free bs' else b_at b end.

(** No two free blocks are neighbours. *)
Fixpoint plugged (bs : list blk) : Prop :=
  match bs with
  | [] => True
  | b :: bs' => match bs' with [] => True | c :: _ => b_used b = true \/ b_used c = true end /\ plugged bs'
  end.

Record heap_rep (s : lheap) (bs : list blk) : Prop := {
  hr_chain : exists pl, hseg (heads s) 0 0 bs pl END;
  hr_end : heads s !! END = Some (mkHdr END END 1);
  hr_lfree : lfree s = first_free bs;
  hr_plugged : plugged bs;
  hr_aligned : Forall (fun b => b_at b mod 4 = 0) bs
}.

Lemma first_free_app xs ys : Forall (fun b => b_used b = true) xs -> first_free (xs ++ ys) = first_free ys.
Proof. induction 1 as [|b xs Hb _ IH]; cbn; [done|]. by rewrite Hb. Qed.

Lemma first_free_in xs : (exists b, b ∈ xs /\ b_used b = false /\ first_free xs = b_at b) \/
  Forall (fun b => b_used b = true) xs /\ first_free xs = END.
Proof.
  induction xs as [|b xs IH]; cbn; [by right|]. destruct (b_used b) eqn:Eb.
  - destruct IH as [(c&Hc&Hu&Hf)|[Hu Hf]]; [left; exists c; split; [by right|done]|right; by auto].
  - left. exists b. split; [left|done].
Qed.

Lemma plugged_app xs ys : plugged (xs ++ ys) <->
  plugged xs /\ plugged ys /\ (forall b c, last xs = Some b -> head ys = Some c -> b_used b = true \/ b_used c = true).
Proof.
  induction xs as [|b xs IH].
  - cbn. split; [intros H; split; [done|split; [done|intros ? ? E; discriminate E]]|tauto].
  - destruct xs as [|d xs].
    + clear IH. destruct ys as [|c ys]; cbn; [|naive_solver]. split; [|tauto].
      intros _. split; [done|split; [done|intros ? ? _ E; discriminate E]].
    + change ((b :: d :: xs) ++ ys) with (b :: d :: xs ++ ys). change ((d :: xs) ++ ys) with (d :: xs ++ ys) in IH.
      change (last (b :: d :: xs)) with (last (d :: xs)).
      change (plugged (b :: d :: xs ++ ys)) with ((b_used b = true \/ b_used d = true) /\ plugged (d :: xs ++ ys)).
      change (plugged (b :: d :: xs)) with ((b_used b = true \/ b_used d = true) /\ plugged (d :: xs)).
      rewrite IH. tauto.
Qed.

Hypothesis HEND : 20 <= END < 2 ^ 16 - 4 /\ END mod 4 = 0.
Hypothesis Hram : 0 < ram /\ ram mod 4 = 0 /\ ram + END + 8 < 2 ^ 32.

#[local] Set Default Proof Using "All".

Lemma hdr_run s p h : heads s !! p = Some h -> hdr p s = Some (h, s).
Proof. intros E. unfold hdr, try_ask. by rewrite E. Qed.

Lemma set_hdr_run s p f h : heads s !! p = Some h -> set_hdr p f s = Some (tt, mkHeap (<[p := f h]> (heads s)) (lfree s)).
Proof. intros E. unfold set_hdr, try_update. by rewrite E. Qed.

(** *** Allocation *)

Definition fits (size : Z) (b : blk) : Prop := b_used b = false /\ b_at b + SIZEOF_STRUCT_MEM + size <= b_next b.

#[global] Instance fits_dec size b : Decision (fits size b).
Proof. unfold fits. apply _. Defined.

(** The block as it is handed out, and what is left of it. *)
Definition carve (size : Z) (b : blk) : list blk :=
  if b_at b + SIZEOF_STRUCT_MEM + size + SIZEOF_STRUCT_MEM + MIN_SIZE_ALIGNED <=? b_next b
  then [mkBlk (b_at b) (b_at b + SIZEOF_STRUCT_MEM + size) true; mkBlk (b_at b + SIZEOF_STRUCT_MEM + size) (b_next b) false]
  else [mkBlk (b_at b) (b_next b) true].

Lemma rep_split s pre b post : heap_rep s (pre ++ b :: post) -> exists p1 pl,
  hseg (heads s) 0 0 pre p1 (b_at b) /\ heads s !! b_at b = Some (mkHdr (b_next b) p1 (used_word (b_used b))) /\
  0 <= b_at b /\ b_at b + 20 <= b_next b <= END /\ hseg (heads s) (b_at b) (b_next b) post pl END.
Proof.
  intros [[pl Hc] _ _ _ _]. apply hseg_app in Hc as (p1&o1&Hpre&Hpost). cbn in Hpost. destruct Hpost as (<-&Hh&Hn&Hpost).
  pose proof (hseg_le _ _ _ _ _ _ Hpre). pose proof (hseg_le _ _ _ _ _ _ Hpost).
  unfold SIZEOF_STRUCT_MEM, MIN_SIZE_ALIGNED in Hn. exists p1, pl. split_and!; done || lia.
Qed.

Lemma rep_end_fresh s bs b : heap_rep s bs -> b ∈ bs -> b_at b <> END.
Proof.
  intros [[pl Hc] _ _ _ _] Hb. destruct (hseg_in _ _ _ _ _ _ _ Hc Hb) as (_&H2&_). lia.
Qed.

(** The headers of [pre] and [post] are not touched by writes inside of the
    stretch between them. *)
Lemma write_between H pre b post p1 pl x h : hseg H 0 0 pre p1 (b_at b) -> hseg H (b_at b) (b_next b) post pl END ->
  b_at b <= x < b_next b -> forall c, c ∈ pre \/ c ∈ post -> (<[x := h]> H : gmap Z mem_hdr) !! b_at c = H !! b_at c.
Proof.
  intros Hpre Hpost Hx c Hc. apply lookup_insert_ne. intros ->.
  destruct Hc as [Hc|Hc]; [destruct (hseg_in _ _ _ _ _ _ _ Hpre Hc)|destruct (hseg_in _ _ _ _ _ _ _ Hpost Hc)]; lia.
Qed.

Lemma cut_block_run s pre b post size : heap_rep s (pre ++ b :: post) -> b_used b = false ->
  12 <= size -> b_at b + SIZEOF_STRUCT_MEM + size <= b_next b ->
  exists s', cut_block END (b_at b) size s = Some (tt, s') /\ lfree s' = lfree s /\ heads s' !! END = heads s !! END /\
    exists pl, hseg (heads s') 0 0 (pre ++ carve size b ++ post) pl END.
Proof.
  intros HR Hu Hs Hfit. destruct (rep_split _ _ _ _ HR) as (p1&pl&Hpre&Hb&H0&Hn&Hpost).
  pose proof (hr_end _ _ HR) as He. unfold SIZEOF_STRUCT_MEM in Hfit.
  unfold cut_block. rewrite (bind_run _ _ _ _ _ (hdr_run _ _ _ Hb)). cbn [mem_next].
  unfold carve, SIZEOF_STRUCT_MEM, MIN_SIZE_ALIGNED. rewrite (u32_small (b_next b - (b_at b + 8))) by lia.
  rewrite Hu in Hb. cbn [used_word] in Hb.
  assert (Hmid : hseg (heads s) p1 (b_at b) [b] (b_at b) (b_next b)).
  { cbn. rewrite Hu. unfold SIZEOF_STRUCT_MEM, MIN_SIZE_ALIGNED. split; [done|]. split; [done|]. split; [lia|done]. }
  destruct (Z.leb_spec (size + 8 + 12) (b_next b - (b_at b + 8))) as [Hbig|Hsmall].
  - rewrite (proj2 (Z.leb_le _ _)) by lia. set (ptr2 := u16 _).
    assert (E2 : ptr2 = b_at b + 8 + size) by (unfold ptr2, u16; apply Z.mod_small; lia).
    unfold put_hdr. rewrite update_bind. set (s1 := mkHeap _ _).
    assert (Hb1 : heads s1 !! b_at b = Some (mkHdr (b_next b) p1 0)) by (cbn; rewrite lookup_insert_ne by lia; done).
    rewrite (bind_run _ _ _ _ _ (set_hdr_run _ _ _ _ Hb1)). set (s2 := mkHeap _ _).
    assert (Hb2 : heads s2 !! b_at b = Some (mkHdr ptr2 p1 0)) by apply lookup_insert_eq.
    rewrite (bind_run _ _ _ _ _ (set_hdr_run _ _ _ _ Hb2)). set (s3 := mkHeap _ _).
    assert (Hkeep : forall x, x <> ptr2 -> x <> b_at b -> heads s3 !! x = heads s !! x).
    { intros x H1 H2. cbn. by rewrite !lookup_insert_ne by congruence. }
    assert (Hout : forall c, c ∈ pre \/ c ∈ post -> heads s3 !! b_at c = heads s !! b_at c).
    { intros c Hc. destruct Hc as [Hc|Hc]; [destruct (hseg_in _ _ _ _ _ _ _ Hpre Hc)|destruct (hseg_in _ _ _ _ _ _ _ Hpost Hc)];
        apply Hkeep; lia. }
    assert (Hst : b_next b = END \/ is_Some (heads s3 !! b_next b)).
    { destruct (hseg_start _ _ _ _ _ Hpost) as [|[h Hh]]; [by left|right]. exists h. rewrite Hkeep by lia. exact Hh. }
    rewrite (link_back_run _ _ _ Hst). eexists. split; [done|]. split; [done|]. split.
    { cbn [heads]. unfold relink. destruct (Z.eqb_spec (b_next b) END) as [E|E]; [|rewrite lookup_alter_ne by done];
        apply Hkeep; lia. }
    rewrite <- E2. apply (replace_mid (heads s) (heads s3) pre [b] _ post p1 (b_at b) (b_at b) (b_next b) pl ptr2);
      [done..|]. cbn [hseg b_at b_next b_used used_word]. unfold SIZEOF_STRUCT_MEM, MIN_SIZE_ALIGNED.
    split; [done|]. split; [cbn; by rewrite lookup_insert_eq|]. split; [lia|]. split; [done|].
    split; [cbn; rewrite !lookup_insert_ne by lia; apply lookup_insert_eq|]. split; [lia|done].
  - rewrite (proj2 (Z.leb_gt _ _)) by lia. rewrite (set_hdr_run _ _ _ _ Hb). eexists. split; [done|]. split; [done|]. split.
    { cbn. apply lookup_insert_ne. lia. }
    exists pl. cbn [heads app]. set (h := with_mem_used 1 _).
    pose proof (write_between _ _ _ _ _ _ (b_at b) h Hpre Hpost ltac:(lia)) as Hout.
    apply hseg_app. exists p1, (b_at b). split; [eapply hseg_frame; [|exact Hpre]; auto|].
    cbn [hseg b_at b_next b_used used_word]. unfold SIZEOF_STRUCT_MEM, MIN_SIZE_ALIGNED.
    split; [done|]. split; [apply lookup_insert_eq|]. split; [lia|]. eapply hseg_frame; [|exact Hpost]; auto.
Qed.

Lemma next_lfree_run fuel s p o xs pl : hseg (heads s) p o xs pl END -> heads s !! END = Some (mkHdr END END 1) ->
  (length xs < fuel)%nat -> next_lfree END fuel o s = Some (first_free xs, s).
Proof.
  revert p o xs. induction fuel as [|fuel IH]; intros p o xs Hs He Hf; [lia|]. cbn [next_lfree].
  destruct xs as [|b xs]; cbn [hseg first_free] in *.
  - destruct Hs as [_ <-]. rewrite (bind_run _ _ _ _ _ (hdr_run _ _ _ He)). cbn [mem_used].
    by rewrite Z.eqb_refl.
  - destruct Hs as (Hb&Hh&Hn&Hs). rewrite (bind_run _ _ _ _ _ (hdr_run _ _ _ Hh)). cbn [mem_used mem_next].
    pose proof (hseg_le _ _ _ _ _ _ Hs). unfold SIZEOF_STRUCT_MEM, MIN_SIZE_ALIGNED in Hn.
    rewrite (proj2 (Z.eqb_neq o END)) by lia. destruct (b_used b); cbn [used_word Z.eqb negb andb].
    + apply (IH o); [done|done|]. cbn in Hf. lia.
    + by rewrite Hb.
Qed.

(** What [mem_malloc] does with the block that it has found. *)
Definition finish (ptr size : Z) : prog lheap Z :=
  _ ← cut_block END ptr size;
  l ← ask lfree;
  n ← ask (fun s => base.size (heads s));
  _ ← when (ptr =? l) (cur ← next_lfree END (S n) l; set_lfree cur);
  mret (ram + ptr + SIZEOF_STRUCT_MEM).

Lemma malloc_loop_run fuel s p o suf pl size : hseg (heads s) p o suf pl END -> 0 <= o -> 12 <= size <= END ->
  (length suf < fuel)%nat ->
  (Forall (fun b => ~ fits size b) suf /\ malloc_loop ram END fuel o size s = Some (0, s)) \/
  (exists mid b post, suf = mid ++ b :: post /\ Forall (fun b => ~ fits size b) mid /\ fits size b /\
     malloc_loop ram END fuel o size s = finish (b_at b) size s).
Proof.
  revert p o suf. induction fuel as [|fuel IH]; intros p o suf Hs Ho Hsz Hf; [lia|]. cbn [malloc_loop].
  rewrite (u32_small (END - size)) by lia. pose proof (hseg_le _ _ _ _ _ _ Hs) as Hle.
  destruct (Z.ltb_spec o (END - size)) as [Hlt|Hge].
  - destruct suf as [|b suf]; [cbn in Hs; lia|]. pose proof Hs as Hs0. cbn [hseg] in Hs. destruct Hs as (Hb&Hh&Hn&Hs).
    pose proof (hseg_le _ _ _ _ _ _ Hs). unfold SIZEOF_STRUCT_MEM, MIN_SIZE_ALIGNED in Hn.
    rewrite (bind_run _ _ _ _ _ (hdr_run _ _ _ Hh)). cbn [mem_used mem_next].
    rewrite (u32_small (b_next b - (o + SIZEOF_STRUCT_MEM))) by (unfold SIZEOF_STRUCT_MEM; lia).
    destruct ((used_word (b_used b) =? 0) && (size <=? b_next b - (o + SIZEOF_STRUCT_MEM))) eqn:E.
    + right. exists [], b, suf. apply andb_true_iff in E as [E1 E2%Z.leb_le]. split; [done|]. split; [constructor|].
      split; [|by rewrite Hb]. split; [by destruct (b_used b)|]. lia.
    + assert (Hnf : ~ fits size b).
      { intros [H1 H2]. rewrite H1 in E. apply Z.leb_gt in E. lia. }
      destruct (IH o (b_next b) suf Hs ltac:(lia) Hsz ltac:(cbn in Hf; lia)) as [[H1 H2]|(mid&c&post&->&H1&H2&H3)].
      * left. split; [by constructor|done].
      * right. exists (b :: mid), c, post. split; [done|]. split; [by constructor|]. by split.
  - left. split; [|done]. apply Forall_forall. intros b Hb [_ H2]. unfold SIZEOF_STRUCT_MEM in H2.
    destruct (hseg_in _ _ _ _ _ _ _ Hs Hb) as (H3&H4&_). lia.
Qed.

Lemma first_free_pre pre xs ys : ~ Forall (fun b => b_used b = true) pre -> first_free (pre ++ xs) = first_free (pre ++ ys).
Proof.
  induction pre as [|b pre IH]; intros Hp; [by destruct Hp|]. cbn. destruct (b_used b) eqn:Eb; [|done].
  apply IH. intros Hf. apply Hp. by constructor.
Qed.

Lemma carve_used size b : exists n rest, carve size b = mkBlk (b_at b) n true :: rest /\
  (rest = [] \/ exists a m, rest = [mkBlk a m false]).
Proof. unfold carve. destruct (_ <=? _); (eexists _, _; split; [done|]); [right; by eexists _, _|by left]. Qed.

Lemma plugged_carve size pre b post : b_used b = false -> plugged (pre ++ b :: post) -> plugged (pre ++ carve size b ++ post).
Proof.
  intros Hb Hp. destruct (carve_used size b) as (n&rest&->&Hr).
  apply plugged_app in Hp as (H1&[H2 H3]&H4). apply plugged_app. split; [done|]. split.
  - destruct Hr as [->|(a&m&->)]; cbn [app plugged].
    + split; [destruct post; [done|by left]|done].
    + split; [by left|]. split; [|done]. destruct post as [|c post]; [done|]. right. destruct H2; [congruence|done].
  - intros x y Hx Hy. injection Hy as <-. by right.
Qed.

Lemma fits_aligned size pre b post s : heap_rep s (pre ++ b :: post) -> size mod 4 = 0 ->
  Forall (fun b => b_at b mod 4 = 0) (pre ++ carve size b ++ post).
Proof.
  intros HR Hs. pose proof (hr_aligned _ _ HR) as Ha. apply Forall_app in Ha as [H1 [H2 H3]%Forall_cons].
  apply Forall_app. split; [done|]. apply Forall_app. split; [|done].
  unfold carve, SIZEOF_STRUCT_MEM. destruct (_ <=? _); repeat constructor; cbn; try done. dlia.
Qed.

Lemma finish_run s pre b post size : heap_rep s (pre ++ b :: post) -> fits size b -> 12 <= size -> size mod 4 = 0 ->
  exists s', finish (b_at b) size s = Some (ram + b_at b + SIZEOF_STRUCT_MEM, s') /\ heap_rep s' (pre ++ carve size b ++ post).
Proof.
  intros HR [Hu Hfit] Hs Hs4. destruct (cut_block_run s pre b post size HR Hu Hs Hfit) as (s1&E1&Hl&He&pl&Hc).
  unfold finish. rewrite (bind_run _ _ _ _ _ E1), !ask_bind.
  pose proof (hr_lfree _ _ HR) as Hlf. pose proof (hr_end _ _ HR) as Hend. rewrite <- He in Hend.
  assert (Hfr : first_free (pre ++ b :: post) = b_at b <-> Forall (fun b => b_used b = true) pre).
  { split.
    - intros E. destruct (decide (Forall (fun b => b_used b = true) pre)) as [|Hn]; [done|]. exfalso.
      destruct (first_free_in pre) as [(c&Hc0&_&Ec)|[? _]]; [|done].
      rewrite (first_free_pre pre _ [] Hn), app_nil_r, Ec in E.
      destruct (rep_split _ _ _ _ HR) as (p1&pl1&Hpre&_&_&_&_).
      destruct (hseg_in _ _ _ _ _ _ _ Hpre Hc0) as (_&H2&_). lia.
    - intros Hf. rewrite first_free_app by done. cbn. by rewrite Hu. }
  assert (Hrest : forall s2, heads s2 = heads s1 -> lfree s2 = first_free (pre ++ carve size b ++ post) ->
    heap_rep s2 (pre ++ carve size b ++ post)).
  { intros s2 E2 El. split; rewrite ?E2; try done; [by exists pl| |by eapply fits_aligned].
    apply plugged_carve; [done|apply (hr_plugged _ _ HR)]. }
  rewrite Hl, Hlf. destruct (Z.eqb_spec (b_at b) (first_free (pre ++ b :: post))) as [E|E]; cbn [when].
  - symmetry in E. apply Hfr in E as Hf. pose proof Hc as Hc0. apply hseg_app in Hc0 as (p1&o1&Hpre&Hsuf).
    assert (o1 = b_at b) as ->.
    { destruct (carve_used size b) as (n&rest&Ec&_). rewrite Ec in Hsuf. cbn in Hsuf. by destruct Hsuf as [<- _]. }
    pose proof (hseg_length _ _ _ _ _ _ Hsuf) as Hlen. rewrite E.
    rewrite bind_assoc_run, (bind_run _ _ _ _ _ (next_lfree_run (S (base.size (heads s1))) s1 p1 _ _ pl Hsuf Hend ltac:(lia))).
    unfold set_lfree. rewrite update_bind. eexists. split; [done|]. apply Hrest; [done|]. cbn [lfree]. symmetry. by apply first_free_app.
  - eexists. split; [reflexivity|]. apply Hrest; [done|]. rewrite Hl, Hlf. apply first_free_pre.
    intros Hf. apply E. symmetry. by apply Hfr.
Qed.

Lemma request_size_spec n : 0 < n < 2 ^ 16 -> n <= request_size n ->
  12 <= request_size n /\ request_size n mod 4 = 0.
Proof.
  intros Hn. unfold request_size, MIN_SIZE_ALIGNED. destruct (Z.ltb_spec (u16 (LWIP_MEM_ALIGN_SIZE n)) 12) as [H1|H1]; intros Hge; [by dlia|].
  split; [lia|]. unfold LWIP_MEM_ALIGN_SIZE, MEM_ALIGNMENT. rewrite (u32_small (n + 4 - 1)) by lia.
  change (4 - 1) with (Z.ones 2). rewrite Z.ldiff_ones_r, Z.shiftl_mul_pow2, Z.shiftr_div_pow2 by lia. unfold u16.
  change (2 ^ 2) with 4. dlia.
Qed.

(** [mem_malloc] is first fit: it takes the lowest block that is large enough,
    and refuses only if there is none. *)
Lemma mem_malloc_run s bs n : heap_rep s bs -> 0 < n < 2 ^ 16 ->
  let size := request_size n in
  ((END < size \/ size < n \/ Forall (fun b => ~ fits size b) bs) /\ mem_malloc ram END n s = Some (0, s)) \/
  (exists pre b post s', bs = pre ++ b :: post /\ Forall (fun b => ~ fits size b) pre /\ fits size b /\ n <= size /\
     12 <= size /\ size mod 4 = 0 /\
     mem_malloc ram END n s = Some (ram + b_at b + SIZEOF_STRUCT_MEM, s') /\ heap_rep s' (pre ++ carve size b ++ post)).
Proof.
  intros HR Hn size. unfold mem_malloc. fold size. rewrite (proj2 (Z.eqb_neq n 0)) by lia.
  destruct (Z.ltb_spec END size) as [H1|H1]; cbn [orb]; [left; split; [by left|done]|].
  destruct (Z.ltb_spec size n) as [H2|H2]; [left; split; [by right; left|done]|].
  rewrite !ask_bind. destruct (request_size_spec n Hn H2) as [H3 H4].
  assert (Hsplit : exists us suf p pl, bs = us ++ suf /\ Forall (fun b => b_used b = true) us /\
    hseg (heads s) p (lfree s) suf pl END /\ 0 <= lfree s).
  { destruct (hr_chain _ _ HR) as [pl Hc]. rewrite (hr_lfree _ _ HR). clear -Hc.
    assert (H0 : 0 <= 0) by lia. revert H0 Hc. generalize 0 at 2 4 as o. generalize 0 at 2 as p.
    induction bs as [|b bs IH]; intros p o H0 Hc.
    - exists [], [], p, pl. cbn in Hc |- *. destruct Hc as [-> <-]. split_and!; done.
    - cbn [first_free]. destruct (b_used b) eqn:Eb.
      + cbn in Hc. destruct Hc as (Hb&Hh&Hx&Hc). unfold SIZEOF_STRUCT_MEM, MIN_SIZE_ALIGNED in Hx.
        destruct (IH _ (b_next b) ltac:(lia) Hc) as (us&suf&q&pl'&->&Hu&Hs&Hl).
        exists (b :: us), suf, q, pl'. split_and!; [done|by constructor|done|done].
      + exists [], (b :: bs), p, pl. assert (b_at b = o) as -> by (by destruct Hc). split_and!; done. }
  destruct Hsplit as (us&suf&p&pl&->&Hu&Hs&Hl). pose proof (hseg_length _ _ _ _ _ _ Hs) as Hlen.
  assert (Hnu : Forall (fun b => ~ fits size b) us).
  { eapply Forall_impl; [exact Hu|]. intros b Hb [Hx _]. congruence. }
  destruct (malloc_loop_run (S (base.size (heads s))) s p _ suf pl size Hs Hl ltac:(lia) ltac:(lia)) as [[Hn1 ->]|(mid&b&post&->&Hm&Hf&->)].
  - left. split; [|done]. right; right. by apply Forall_app.
  - right. rewrite app_assoc in HR. destruct (finish_run s (us ++ mid) b post size HR Hf H3 H4) as (s'&E&HR').
    exists (us ++ mid), b, post, s'. rewrite E, <- !app_assoc in *. split_and!; try done. by apply Forall_app.
Qed.

(** *** Release *)

(** What the operations keep between the steps of a release. *)
Record chain_rep (s : lheap) (bs : list blk) : Prop := {
  cr_chain : exists pl, hseg (heads s) 0 0 bs pl END;
  cr_end : heads s !! END = Some (mkHdr END END 1);
  cr_lfree : lfree s = first_free bs;
  cr_aligned : Forall (fun b => b_at b mod 4 = 0) bs
}.

Lemma rep_chain s bs : heap_rep s bs <-> chain_rep s bs /\ plugged bs.
Proof. split; [intros []; done|intros [[] ?]; done]. Qed.

Lemma chain_split s pre b post : chain_rep s (pre ++ b :: post) -> exists p1 pl,
  hseg (heads s) 0 0 pre p1 (b_at b) /\ heads s !! b_at b = Some (mkHdr (b_next b) p1 (used_word (b_used b))) /\
  0 <= b_at b /\ b_at b + 20 <= b_next b <= END /\ hseg (heads s) (b_at b) (b_next b) post pl END.
Proof.
  intros [[pl Hc] _ _ _]. apply hseg_app in Hc as (p1&o1&Hpre&Hpost). cbn in Hpost. destruct Hpost as (<-&Hh&Hn&Hpost).
  pose proof (hseg_le _ _ _ _ _ _ Hpre). pose proof (hseg_le _ _ _ _ _ _ Hpost).
  unfold SIZEOF_STRUCT_MEM, MIN_SIZE_ALIGNED in Hn. exists p1, pl. split_and!; done || lia.
Qed.

(** The previous block of a stretch. *)
Lemma hseg_snoc H p o xs a p' o' : hseg H p o (xs ++ [a]) p' o' -> p' = b_at a /\ o' = b_next a.
Proof.
  intros (q&r&_&Hs)%hseg_app. cbn in Hs. by destruct Hs as (<-&_&_&->&->).
Qed.

Lemma first_free_lt s pre a post b : chain_rep s (pre ++ a :: post) -> b_used a = false -> b_at a < b ->
  first_free (pre ++ a :: post) < b.
Proof.
  intros HR Ha Hb. destruct (chain_split _ _ _ _ HR) as (p1&pl&Hpre&_&H0&_&_).
  destruct (first_free_in pre) as [(c&Hc&Hu&Hf)|[Hu Hf]].
  - assert (Hn : ~ Forall (fun b => b_used b = true) pre).
    { intros HF. rewrite Forall_forall in HF. specialize (HF c Hc). congruence. }
    rewrite (first_free_pre pre _ [] Hn), app_nil_r, Hf. destruct (hseg_in _ _ _ _ _ _ _ Hpre Hc) as (_&H2&_). lia.
  - rewrite first_free_app by done. cbn. by rewrite Ha.
Qed.

(** Two neighbours that are both free become one block. *)
Lemma merge_run s pre a b post p1 : chain_rep s (pre ++ a :: b :: post) -> b_used a = false -> b_used b = false ->
  heads s !! b_at a = Some (mkHdr (b_next a) p1 0) ->
  let H1 := <[b_at a := mkHdr (b_next b) p1 0]> (heads s) in
  (b_next b = END \/ is_Some (H1 !! b_next b)) /\
  chain_rep (mkHeap (relink (b_at a) (b_next b) H1) (lfree s)) (pre ++ mkBlk (b_at a) (b_next b) false :: post).
Proof.
  intros HR Ha Hb Hh1 H1. destruct (chain_split _ _ _ _ HR) as (p1'&pl&Hpre&Hh&H0&Hn&Hpost0).
  assert (p1' = p1) as -> by congruence.
  pose proof Hpost0 as Hpost. cbn in Hpost. destruct Hpost as (Eb&Hhb&Hnb&Hpost).
  pose proof (hseg_le _ _ _ _ _ _ Hpost). unfold SIZEOF_STRUCT_MEM, MIN_SIZE_ALIGNED in Hnb.
  assert (Hkeep : forall x, x <> b_at a -> H1 !! x = heads s !! x) by (intros x Hx; unfold H1; by rewrite lookup_insert_ne by congruence).
  split.
  { destruct (hseg_start _ _ _ _ _ Hpost) as [|[h Hx]]; [by left|right]. exists h. rewrite Hkeep by lia. exact Hx. }
  split.
  - cbn [heads]. change (mkBlk (b_at a) (b_next b) false :: post) with ([mkBlk (b_at a) (b_next b) false] ++ post).
    apply (replace_mid (heads s) H1 pre [a; b] _ post p1 (b_at a) (b_at b) (b_next b) pl (b_at a)); [done| |by rewrite Eb| |].
    + cbn. unfold SIZEOF_STRUCT_MEM, MIN_SIZE_ALIGNED. rewrite Eb. split_and!; done || lia.
    + intros c Hc. apply Hkeep. intros E.
      destruct Hc as [Hc|Hc]; [destruct (hseg_in _ _ _ _ _ _ _ Hpre Hc)|destruct (hseg_in _ _ _ _ _ _ _ Hpost Hc)]; lia.
    + cbn. unfold SIZEOF_STRUCT_MEM, MIN_SIZE_ALIGNED. split_and!; [done|apply lookup_insert_eq|lia|done|done].
  - cbn [heads]. pose proof (cr_end _ _ HR) as He. unfold relink.
    destruct (Z.eqb_spec (b_next b) END) as [E|E]; [|rewrite lookup_alter_ne by done]; rewrite Hkeep by lia; exact He.
  - cbn [lfree]. rewrite (cr_lfree _ _ HR). clear -Ha. induction pre as [|c pre IH]; cbn; [by rewrite Ha|].
    by destruct (b_used c).
  - pose proof (cr_aligned _ _ HR) as Hal. apply Forall_app in Hal as [A1 [A3 [_ A4]%Forall_cons]%Forall_cons].
    apply Forall_app. split; [done|]. by constructor.
Qed.

Definition freed (b : blk) : blk := mkBlk (b_at b) (b_next b) false.

(** The two merges. *)
Definition merge_next (b : blk) (post : list blk) : blk * list blk :=
  match post with c :: post' => if b_used c then (b, post) else (mkBlk (b_at b) (b_next c) false, post') | [] => (b, []) end.

Lemma plug_forward_run s pre b post : chain_rep s (pre ++ b :: post) -> b_used b = false ->
  exists s', plug_forward END (b_at b) s = Some (tt, s') /\
    chain_rep s' (pre ++ fst (merge_next b post) :: snd (merge_next b post)).
Proof.
  intros HR Hb. destruct (chain_split _ _ _ _ HR) as (p1&pl&Hpre&Hh&H0&Hn&Hpost). rewrite Hb in Hh.
  unfold plug_forward. rewrite (bind_run _ _ _ _ _ (hdr_run _ _ _ Hh)). cbn [mem_next].
  destruct post as [|c post]; cbn [hseg merge_next fst snd] in *.
  - destruct Hpost as [_ E]. rewrite <- E, (bind_run _ _ _ _ _ (hdr_run _ _ _ (cr_end _ _ HR))). cbn [mem_used Z.eqb].
    rewrite andb_false_r. exists s. rewrite <- E in *. done.
  - destruct Hpost as (Ec&Hhc&Hnc&Hpost). rewrite (bind_run _ _ _ _ _ (hdr_run _ _ _ Hhc)). cbn [mem_used mem_next].
    pose proof (hseg_le _ _ _ _ _ _ Hpost). unfold SIZEOF_STRUCT_MEM, MIN_SIZE_ALIGNED in Hnc.
    rewrite (proj2 (Z.eqb_neq (b_at b) (b_next b))), (proj2 (Z.eqb_neq (b_next b) END)) by lia.
    destruct (b_used c) eqn:Hc; cbn [used_word Z.eqb negb andb when fst snd]; [by exists s|].
    rewrite ask_bind, (cr_lfree _ _ HR).
    pose proof (first_free_lt _ _ _ _ (b_next b) HR Hb ltac:(lia)) as Hl.
    rewrite (proj2 (Z.eqb_neq (first_free (pre ++ b :: c :: post)) (b_next b))) by lia. cbn [when].
    rewrite ret_bind, (bind_run _ _ _ _ _ (set_hdr_run _ _ _ _ Hh)).
    destruct (merge_run s pre b c post p1 HR Hb Hc Hh) as [M1 M2]. rewrite (link_back_run _ _ (mkHeap _ _) M1). by eexists.
Qed.

Definition join_prev (pre : list blk) (b : blk) : list blk :=
  match last pre with
  | Some a => if b_used a then pre ++ [b] else removelast pre ++ [mkBlk (b_at a) (b_next b) false]
  | None => [b]
  end.

Lemma plug_backward_run s pre b post : chain_rep s (pre ++ b :: post) -> b_used b = false ->
  exists s', plug_backward END (b_at b) s = Some (tt, s') /\ chain_rep s' (join_prev pre b ++ post).
Proof.
  intros HR Hb. destruct (chain_split _ _ _ _ HR) as (p1&pl&Hpre&Hh&H0&Hn&Hpost). rewrite Hb in Hh.
  unfold plug_backward, join_prev. rewrite (bind_run _ _ _ _ _ (hdr_run _ _ _ Hh)). cbn [mem_prev mem_next].
  destruct pre as [|a pre _] using rev_ind.
  - cbn in Hpre. destruct Hpre as [-> E]. rewrite E in *. rewrite (bind_run _ _ _ _ _ (hdr_run _ _ _ Hh)). cbn. by exists s.
  - rewrite last_snoc, removelast_last. destruct (hseg_snoc _ _ _ _ _ _ _ Hpre) as [-> Eb].
    rewrite <- app_assoc in HR. cbn in HR. destruct (chain_split _ _ _ _ HR) as (p0&pl0&Hpre0&Hha&Ha0&Hna&_).
    rewrite (bind_run _ _ _ _ _ (hdr_run _ _ _ Hha)). cbn [mem_used].
    rewrite (proj2 (Z.eqb_neq (b_at a) (b_at b))) by lia.
    destruct (b_used a) eqn:Ha; cbn [used_word Z.eqb negb andb when]; [exists s; split; [done|by rewrite <- !app_assoc]|].
    rewrite ask_bind, (cr_lfree _ _ HR).
    pose proof (first_free_lt _ _ _ _ (b_at b) HR Ha ltac:(lia)) as Hl.
    rewrite (proj2 (Z.eqb_neq (first_free (pre ++ a :: b :: post)) (b_at b))) by lia. cbn [when].
    rewrite ret_bind, (bind_run _ _ _ _ _ (set_hdr_run _ _ _ _ Hha)).
    destruct (merge_run s pre a b post p0 HR Ha Hb Hha) as [M1 M2]. rewrite (link_back_run _ _ (mkHeap _ _) M1).
    eexists. split; [done|]. rewrite <- app_assoc. exact M2.
Qed.

(** The blocks after the release of [b]. *)
Definition release (pre : list blk) (b : blk) (post : list blk) : list blk :=
  let '(b', post') := merge_next (freed b) post in join_prev pre b' ++ post'.

Lemma link_valid s pre b post : chain_rep s (pre ++ b :: post) -> mem_link_valid END (b_at b) s = Some (true, s).
Proof.
  intros HR. destruct (chain_split _ _ _ _ HR) as (p1&pl&Hpre&Hh&H0&Hn&Hpost).
  unfold mem_link_valid. rewrite (bind_run _ _ _ _ _ (hdr_run _ _ _ Hh)). cbn [mem_prev mem_next].
  assert (Hp : exists pm, heads s !! p1 = Some pm /\ 0 <= p1 <= END /\ (p1 = b_at b \/ mem_next pm = b_at b)).
  { destruct pre as [|a pre _] using rev_ind.
    - cbn in Hpre. destruct Hpre as [-> E]. rewrite E in Hh |- *. eexists. split; [exact Hh|]. split; [lia|by left].
    - destruct (hseg_snoc _ _ _ _ _ _ _ Hpre) as [-> Eb]. rewrite <- app_assoc in HR. cbn in HR.
      destruct (chain_split _ _ _ _ HR) as (p0&pl0&Hpre0&Hha&Ha0&Hna&_).
      eexists. split; [exact Hha|]. split; [lia|by right]. }
  destruct Hp as (pm&Hpm&Hp&Hback).
  assert (Hx : exists nm, heads s !! b_next b = Some nm /\ (b_next b = END \/ mem_prev nm = b_at b)).
  { destruct post as [|c post]; cbn in Hpost.
    - destruct Hpost as [_ E]. rewrite <- E. eexists. split; [exact (cr_end _ _ HR)|by left].
    - destruct Hpost as (_&Hc&_). eexists. split; [exact Hc|by right]. }
  destruct Hx as (nm&Hnm&Hfwd).
  rewrite (proj2 (Z.ltb_ge END (b_next b))), (proj2 (Z.ltb_ge END p1)) by lia. cbn [orb].
  rewrite (bind_run _ _ _ _ _ (hdr_run _ _ _ Hnm)), (bind_run _ _ _ _ _ (hdr_run _ _ _ Hpm)).
  assert (E1 : negb (p1 =? b_at b) && negb (mem_next pm =? b_at b) = false)
    by (destruct Hback as [->| ->]; rewrite Z.eqb_refl; [done|apply andb_false_r]).
  assert (E2 : negb (b_next b =? END) && negb (mem_prev nm =? b_at b) = false)
    by (destruct Hfwd as [->| ->]; rewrite Z.eqb_refl; [done|apply andb_false_r]).
  by rewrite E1, E2.
Qed.

(** Marking a block as free. *)
Lemma mark_free s pre b post : chain_rep s (pre ++ b :: post) -> b_used b = true ->
  exists s', (_ ← set_hdr (b_at b) (with_mem_used 0); l ← ask lfree; when (b_at b <? l) (set_lfree (b_at b))) s = Some (tt, s') /\
    chain_rep s' (pre ++ freed b :: post).
Proof.
  intros HR Hu. destruct (chain_split _ _ _ _ HR) as (p1&pl&Hpre&Hh&H0&Hn&Hpost).
  rewrite (bind_run _ _ _ _ _ (set_hdr_run _ _ _ _ Hh)), ask_bind. cbn [lfree]. unfold with_mem_used. cbn [mem_next mem_prev].
  set (H1 := <[b_at b := _]> (heads s)).
  assert (Hkeep : forall x, x <> b_at b -> H1 !! x = heads s !! x) by (intros x Hx; unfold H1; by rewrite lookup_insert_ne by congruence).
  assert (HR' : forall l, l = first_free (pre ++ freed b :: post) -> chain_rep (mkHeap H1 l) (pre ++ freed b :: post)).
  { intros l Hl. split; cbn [heads lfree]; [|rewrite Hkeep by lia; apply (cr_end _ _ HR)|done|].
    - exists pl. apply hseg_app. exists p1, (b_at b). split.
      { eapply hseg_frame; [|exact Hpre]. intros c Hc. apply Hkeep. destruct (hseg_in _ _ _ _ _ _ _ Hpre Hc); lia. }
      cbn. unfold SIZEOF_STRUCT_MEM, MIN_SIZE_ALIGNED. split_and!; [done|apply lookup_insert_eq|lia|].
      eapply hseg_frame; [|exact Hpost]. intros c Hc. apply Hkeep. destruct (hseg_in _ _ _ _ _ _ _ Hpost Hc); lia.
    - pose proof (cr_aligned _ _ HR) as Hal. apply Forall_app in Hal as [A1 [A2 A3]%Forall_cons].
      apply Forall_app. split; [done|]. by constructor. }
  assert (Hpost' : first_free post > b_at b).
  { destruct (first_free_in post) as [(c&Hc&_&->)|[_ ->]]; [|lia]. destruct (hseg_in _ _ _ _ _ _ _ Hpost Hc); lia. }
  destruct (decide (Forall (fun c => b_used c = true) pre)) as [Hall|Hsome].
  - rewrite (cr_lfree _ _ HR), first_free_app by done. cbn [first_free]. rewrite Hu, (proj2 (Z.ltb_lt _ _)) by lia.
    eexists. split; [done|]. apply HR'. by rewrite first_free_app.
  - rewrite (cr_lfree _ _ HR), (first_free_pre pre _ (freed b :: post) Hsome).
    assert (Hle : first_free (pre ++ freed b :: post) <= b_at b).
    { rewrite (first_free_pre pre _ [] Hsome), app_nil_r.
      destruct (first_free_in pre) as [(c&Hc&_&->)|[? _]]; [|done]. destruct (hseg_in _ _ _ _ _ _ _ Hpre Hc) as (_&?&_). lia. }
    rewrite (proj2 (Z.ltb_ge _ _)) by lia. eexists. split; [done|]. by apply HR'.
Qed.

Lemma plugged_snoc xs b : plugged (xs ++ [b]) <-> plugged xs /\ (forall a, last xs = Some a -> b_used a = true \/ b_used b = true).
Proof.
  rewrite plugged_app. split.
  - intros (H1&_&H2). split; [done|]. intros a Ha. by apply H2.
  - intros [H1 H2]. split_and!; [done|done|]. intros a c Ha [= <-]. auto.
Qed.

Lemma plugged_cons b xs : plugged (b :: xs) <-> plugged xs /\ (forall c, head xs = Some c -> b_used b = true \/ b_used c = true).
Proof.
  destruct xs as [|c xs]; [cbn; naive_solver|]. change (plugged (b :: c :: xs)) with ((b_used b = true \/ b_used c = true) /\ plugged (c :: xs)).
  cbn [head]. split.
  - intros [H1 H2]. split; [done|]. by intros ? [= <-].
  - intros [H1 H2]. auto.
Qed.

(** A release leaves no two free neighbours. *)
Lemma plugged_release pre b post : plugged (pre ++ b :: post) -> b_used b = true -> plugged (release pre b post).
Proof.
  intros (H1&[H2 _]%plugged_cons&_)%plugged_app Hb. unfold release.
  assert (Hn : exists b' post', merge_next (freed b) post = (b', post') /\ b_used b' = false /\ plugged post' /\
    forall c, head post' = Some c -> b_used c = true).
  { destruct post as [|c post]; cbn [merge_next].
    - eexists _, _. split; [done|]. split; [done|]. by split.
    - destruct (b_used c) eqn:Hc; (eexists _, _; split; [done|]; split; [done|]).
      + split; [done|]. cbn. by intros d [= <-].
      + apply plugged_cons in H2 as [H2 H3]. split; [done|]. intros d Hd. destruct (H3 d Hd); [congruence|done]. }
  destruct Hn as (b'&post'&->&Hb'&Hp&Hh). apply plugged_app.
  split; [|split; [done|]].
  - unfold join_prev. destruct pre as [|a pre _] using rev_ind; [by cbn|]. rewrite last_snoc, removelast_last.
    apply plugged_snoc in H1 as [H1 H4]. destruct (b_used a) eqn:Ha; apply plugged_snoc.
    + split; [apply plugged_snoc; by rewrite Ha|]. intros x. rewrite last_snoc. intros [= <-]. by left.
    + split; [done|]. intros x Hx. left. destruct (H4 x Hx); congruence.
  - intros x c Hx Hc. right. by apply Hh.
Qed.

(** *** [mem_free] *)
Lemma mem_free_run s pre b post : heap_rep s (pre ++ b :: post) -> b_used b = true ->
  exists s', mem_free ram END (ram + b_at b + SIZEOF_STRUCT_MEM) s = Some (tt, s') /\ heap_rep s' (release pre b post).
Proof.
  intros HR Hu. pose proof HR as [HC HP]%rep_chain. destruct (chain_split _ _ _ _ HC) as (p1&pl&Hpre&Hh&H0&Hn&_).
  pose proof (cr_aligned _ _ HC) as Hal. apply Forall_app in Hal as [_ [Ha _]%Forall_cons].
  unfold mem_free, SIZEOF_STRUCT_MEM. rewrite (proj2 (Z.eqb_neq _ 0)) by lia.
  change (MEM_ALIGNMENT - 1) with (Z.ones 2). rewrite Z.land_ones by lia. change (2 ^ 2) with 4.
  assert (Em : (ram + b_at b + 8) mod 4 = 0) by dlia. rewrite Em. cbn [Z.eqb negb]. clear Em.
  unfold MIN_SIZE_ALIGNED. rewrite (proj2 (Z.ltb_ge _ ram)), (proj2 (Z.ltb_ge (ram + END) _)) by lia. cbn [orb].
  replace (mem_to_ptr ram (ram + b_at b + 8 - 8)) with (b_at b)
    by (unfold mem_to_ptr, u16; rewrite Z.mod_small; lia).
  rewrite (bind_run _ _ _ _ _ (hdr_run _ _ _ Hh)). cbn [mem_used]. rewrite Hu. cbn [used_word Z.eqb].
  rewrite (bind_run _ _ _ _ _ (link_valid _ _ _ _ HC)). cbn [negb].
  destruct (mark_free _ _ _ _ HC Hu) as (s1&E1&HC1).
  destruct (plug_forward_run _ _ _ _ HC1 eq_refl) as (s2&E2&HC2).
  assert (Hpl := plugged_release _ _ _ HP Hu). unfold release in *.
  destruct (merge_next (freed b) post) as [b' post'] eqn:Ej. cbn [fst snd] in HC2.
  assert (Hb' : b_used b' = false /\ b_at b' = b_at b).
  { destruct post as [|c post]; cbn in Ej; [by injection Ej as <- <-|]. destruct (b_used c); by injection Ej as <- <-. }
  destruct Hb' as [Hb' Eat]. destruct (plug_backward_run _ _ _ _ HC2 Hb') as (s3&E3&HC3). rewrite Eat in E3.
  exists s3. split; [|by apply rep_chain].
  assert (Eseq : forall (p q : prog lheap unit) (f : prog lheap Z) (g : Z -> prog lheap unit),
    (p ≫= fun _ => f ≫= fun l => g l ≫= fun _ => q) s = ((p ≫= fun _ => f ≫= g) ≫= fun _ => q) s).
  { intros p q f g. unfold mbind, prog_bind. destruct (p s) as [[[] ?]|]; [|done]. by destruct (f _) as [[??]|]. }
  rewrite Eseq, (bind_run _ _ _ _ _ E1). unfold plug_holes. rewrite (bind_run _ _ _ _ _ E2). exact E3.
Qed.

(** *** [mem_init] *)
Lemma mem_init_run s : exists s', mem_init END s = Some (tt, s') /\ heap_rep s' [mkBlk 0 END false].
Proof.
  unfold mem_init, put_hdr, set_lfree. rewrite !update_bind. eexists. split; [done|]. cbn [heads lfree].
  split; cbn [heads lfree].
  - exists 0. cbn. unfold SIZEOF_STRUCT_MEM, MIN_SIZE_ALIGNED. split; [done|]. split; [|split; [lia|done]].
    rewrite lookup_insert_ne by lia. apply lookup_insert_eq.
  - apply lookup_insert_eq.
  - done.
  - done.
  - by repeat constructor.
Qed.

(** *** [mem_trim] *)

(** A stretch whose first block is used is cut after this block, the rest of it
    is free. *)
Lemma cut_run s pre mid post p1 at_ x n q pl ptr2 : hseg (heads s) 0 0 pre p1 at_ ->
  heads s !! at_ = Some (mkHdr x p1 1) -> hseg (heads s) p1 at_ mid q n -> hseg (heads s) q n post pl END ->
  at_ + 20 <= ptr2 -> ptr2 + 20 <= n ->
  exists s', (_ ← put_hdr ptr2 (mkHdr n at_ 0); _ ← set_hdr at_ (with_mem_next ptr2); link_back END n ptr2) s = Some (tt, s') /\
    lfree s' = lfree s /\ heads s' !! END = heads s !! END /\
    exists pl', hseg (heads s') 0 0 (pre ++ [mkBlk at_ ptr2 true; mkBlk ptr2 n false] ++ post) pl' END.
Proof.
  intros Hpre Hat Hmid Hpost H1 H2. pose proof (hseg_le _ _ _ _ _ _ Hpost) as Hle.
  unfold put_hdr. rewrite update_bind. set (s1 := mkHeap _ _).
  assert (Hat1 : heads s1 !! at_ = Some (mkHdr x p1 1)) by (cbn; by rewrite lookup_insert_ne by lia).
  rewrite (bind_run _ _ _ _ _ (set_hdr_run _ _ _ _ Hat1)). set (s2 := mkHeap _ _).
  assert (Hkeep : forall y, y <> ptr2 -> y <> at_ -> heads s2 !! y = heads s !! y)
    by (intros y Y1 Y2; cbn; by rewrite !lookup_insert_ne by congruence).
  assert (Hst : n = END \/ is_Some (heads s2 !! n)).
  { destruct (hseg_start _ _ _ _ _ Hpost) as [|[h Hh]]; [by left|right]. exists h. rewrite Hkeep by lia. exact Hh. }
  rewrite (link_back_run _ _ _ Hst). eexists. split; [done|]. split; [done|]. split.
  { cbn [heads]. unfold relink. destruct (Z.eqb_spec n END) as [E|E]; [|rewrite lookup_alter_ne by done]; apply Hkeep; lia. }
  cbn [heads]. apply (replace_mid (heads s) (heads s2) pre mid _ post p1 at_ q n pl ptr2); [done..| |].
  - intros c Hc. destruct Hc as [Hc|Hc]; [destruct (hseg_in _ _ _ _ _ _ _ Hpre Hc)|destruct (hseg_in _ _ _ _ _ _ _ Hpost Hc)]; apply Hkeep; lia.
  - cbn [hseg b_at b_next b_used used_word]. unfold SIZEOF_STRUCT_MEM, MIN_SIZE_ALIGNED. split_and!; [done|cbn; by rewrite lookup_insert_eq|lia|done| |lia|done|done].
    cbn. rewrite lookup_insert_ne by lia. apply lookup_insert_eq.
Qed.

(** The blocks from [b] on after it has been cut to [newsize] bytes. *)
Definition trimmed (newsize : Z) (b : blk) (post : list blk) : list blk :=
  let ptr2 := b_at b + SIZEOF_STRUCT_MEM + newsize in
  let cut := fun n post' => mkBlk (b_at b) ptr2 true :: mkBlk ptr2 n false :: post' in
  let split := if newsize + SIZEOF_STRUCT_MEM + MIN_SIZE_ALIGNED <=? b_next b - b_at b - SIZEOF_STRUCT_MEM
               then cut (b_next b) post else b :: post in
  if newsize =? b_next b - b_at b - SIZEOF_STRUCT_MEM then b :: post
  else match post with c :: post' => if b_used c then split else cut (b_next c) post' | [] => split end.

Lemma cut_rep s s' pre b mid post n ptr2 : heap_rep s (pre ++ b :: mid ++ post) -> b_used b = true -> b_at b < ptr2 -> ptr2 mod 4 = 0 ->
  (forall c, head post = Some c -> b_used c = true) -> heads s' !! END = heads s !! END ->
  (exists pl, hseg (heads s') 0 0 (pre ++ [mkBlk (b_at b) ptr2 true; mkBlk ptr2 n false] ++ post) pl END) ->
  lfree s' = (if decide (Forall (fun c => b_used c = true) pre) then ptr2 else lfree s) ->
  heap_rep s' (pre ++ [mkBlk (b_at b) ptr2 true; mkBlk ptr2 n false] ++ post).
Proof.
  intros HR Hb Hlt Hmod Hh He Hc Hl. split; [done|by rewrite He; apply (hr_end _ _ HR)|..].
  - rewrite Hl, (hr_lfree _ _ HR). case_decide as Hall.
    + by rewrite first_free_app.
    + by apply first_free_pre.
  - pose proof (hr_plugged _ _ HR) as (P1&[P2 _]%plugged_cons&P3)%plugged_app. apply plugged_app in P2 as (_&P2&_).
    apply plugged_app. split; [done|]. split; [|intros a c _ [= <-]; by right].
    cbn [app]. apply plugged_cons. split; [|intros c [= <-]; by left]. apply plugged_cons. split; [done|]. intros c Hx. right. by apply Hh.
  - pose proof (hr_aligned _ _ HR) as (A1&[A2 A3]%Forall_cons)%Forall_app. apply Forall_app in A3 as [_ A3].
    apply Forall_app. split; [done|]. by repeat constructor.
Qed.

(** The three writes of a cut, after [lfree] has been set. *)
Lemma cut_all s pre b mid post q pl n ptr2 : heap_rep s (pre ++ b :: mid ++ post) -> b_used b = true ->
  (exists p1, hseg (heads s) p1 (b_at b) (b :: mid) q n) -> hseg (heads s) q n post pl END ->
  b_at b + 20 <= ptr2 -> ptr2 + 20 <= n -> ptr2 mod 4 = 0 -> (forall c, head post = Some c -> b_used c = true) ->
  let l := if decide (Forall (fun c => b_used c = true) pre) then ptr2 else lfree s in
  exists s', (_ ← put_hdr ptr2 (mkHdr n (b_at b) 0); _ ← set_hdr (b_at b) (with_mem_next ptr2); link_back END n ptr2)
      (mkHeap (heads s) l) = Some (tt, s') /\
    heap_rep s' (pre ++ [mkBlk (b_at b) ptr2 true; mkBlk ptr2 n false] ++ post).
Proof.
  intros HR Hu [p1' Hmid] Hpost H1 H2 Hm Hh l. destruct (rep_split _ _ _ _ HR) as (p1&pl1&Hpre&Hb&H0&Hn&_).
  assert (p1' = p1) as -> by (destruct Hmid as (_&E&_); congruence). rewrite Hu in Hb.
  destruct (cut_run (mkHeap (heads s) l) pre _ post p1 (b_at b) _ n q pl ptr2 Hpre Hb Hmid Hpost H1 H2) as (s'&E&El&Ee&Hc).
  exists s'. split; [exact E|]. apply (cut_rep s s' pre b mid post n ptr2 HR Hu); [lia|done|done|done|done|].
  by rewrite El.
Qed.

Lemma first_free_used s pre b post : heap_rep s (pre ++ b :: post) -> b_used b = true ->
  (Forall (fun c => b_used c = true) pre /\ lfree s = first_free post) \/
  (~ Forall (fun c => b_used c = true) pre /\ lfree s < b_at b).
Proof.
  intros HR Hu. destruct (rep_split _ _ _ _ HR) as (p1&pl&Hpre&_). rewrite (hr_lfree _ _ HR).
  destruct (decide (Forall (fun c => b_used c = true) pre)) as [Hall|Hsome]; [left|right]; split; try done.
  - rewrite first_free_app by done. cbn. by rewrite Hu.
  - rewrite (first_free_pre pre _ [] Hsome), app_nil_r.
    destruct (first_free_in pre) as [(c&Hc&_&->)|[? _]]; [|done]. destruct (hseg_in _ _ _ _ _ _ _ Hpre Hc) as (_&?&_). lia.
Qed.

(** What lies behind a block: a used one (or the end), or a free one. *)
Lemma next_block s p o post pl : hseg (heads s) p o post pl END -> heads s !! END = Some (mkHdr END END 1) ->
  exists nm, heads s !! o = Some nm /\
    ((mem_used nm = 1 /\ forall c, head post = Some c -> b_used c = true) \/
     (exists c post', post = c :: post' /\ b_used c = false /\ b_at c = o /\ o + 20 <= b_next c <= END /\
        nm = mkHdr (b_next c) p 0)).
Proof.
  intros Hs He. destruct post as [|c post]; cbn [hseg] in Hs.
  - destruct Hs as [_ <-]. eexists. split; [exact He|]. by left.
  - destruct Hs as (Hc&Hh&Hn&Hs). pose proof (hseg_le _ _ _ _ _ _ Hs). unfold SIZEOF_STRUCT_MEM, MIN_SIZE_ALIGNED in Hn.
    eexists. split; [exact Hh|]. destruct (b_used c) eqn:Hu; [left|right].
    + split; [done|]. by intros ? [= <-].
    + exists c, post. split_and!; done || lia.
Qed.

Lemma first_free_ge H p o xs pl b : hseg H p o xs pl END -> b <= o -> b <= first_free xs.
Proof.
  intros Hs Hb. destruct (first_free_in xs) as [(c&Hc&_&->)|[_ ->]].
  - destruct (hseg_in _ _ _ _ _ _ _ Hs Hc); lia.
  - pose proof (hseg_le _ _ _ _ _ _ Hs). lia.
Qed.

(** The first free block is set to [ptr2] if none is free before it. *)
Lemma free_after s pre b post ptr2 (cond : bool) : heap_rep s (pre ++ b :: post) -> b_used b = true -> b_at b < ptr2 ->
  (Forall (fun c => b_used c = true) pre -> lfree s = first_free post -> cond = true) ->
  (lfree s < b_at b -> cond = false) ->
  when cond (set_lfree ptr2) s =
    Some (tt, mkHeap (heads s) (if decide (Forall (fun c => b_used c = true) pre) then ptr2 else lfree s)).
Proof.
  intros HR Hu Hlt H1 H2. destruct (first_free_used _ _ _ _ HR Hu) as [[Hall Hl]|[Hsome Hl]].
  - rewrite (H1 Hall Hl), decide_True by done. done.
  - rewrite (H2 Hl), decide_False by done. by destruct s.
Qed.

Lemma mem_trim_run s pre b post n : heap_rep s (pre ++ b :: post) -> b_used b = true -> 0 < n < 2 ^ 16 ->
  let p := ram + b_at b + SIZEOF_STRUCT_MEM in
  let newsize := request_size n in
  if decide (n <= newsize <= b_next b - b_at b - SIZEOF_STRUCT_MEM)
  then exists s', mem_trim ram END p n s = Some (p, s') /\ heap_rep s' (pre ++ trimmed newsize b post)
  else mem_trim ram END p n s = Some (0, s).
Proof.
  intros HR Hu Hn p newsize. destruct (rep_split _ _ _ _ HR) as (p1&pl&Hpre&Hb&H0&Hbn&Hpost).
  pose proof (request_size_spec n Hn) as Hrs. fold newsize in Hrs.
  unfold mem_trim. fold newsize. unfold p, SIZEOF_STRUCT_MEM in *.
  destruct (Z.ltb_spec END newsize) as [E1|E1]; cbn [orb]; [rewrite decide_False by lia; done|].
  destruct (Z.ltb_spec newsize n) as [E2|E2]; [rewrite decide_False by lia; done|].
  specialize (Hrs E2) as [Hr1 Hr2].
  rewrite (proj2 (Z.ltb_ge _ ram)), (proj2 (Z.leb_gt (ram + END) _)) by lia. cbn [orb].
  replace (mem_to_ptr ram (ram + b_at b + 8 - 8)) with (b_at b)
    by (unfold mem_to_ptr, u16; rewrite Z.mod_small; lia).
  rewrite (bind_run _ _ _ _ _ (hdr_run _ _ _ Hb)). cbn [mem_next].
  replace (u16 (u16 (b_next b - b_at b) - 8)) with (b_next b - b_at b - 8)
    by (unfold u16; rewrite !(Z.mod_small _ (2 ^ 16)); rewrite ?Z.mod_small; lia).
  destruct (Z.ltb_spec (b_next b - b_at b - 8) newsize) as [E3|E3]; [rewrite decide_False by lia; done|].
  rewrite decide_True by lia. unfold trimmed, SIZEOF_STRUCT_MEM, MIN_SIZE_ALIGNED.
  destruct (Z.eqb_spec newsize (b_next b - b_at b - 8)) as [E4|E4]; [by exists s|].
  assert (Hptr : u16 (b_at b + 8 + newsize) = b_at b + 8 + newsize) by (unfold u16; apply Z.mod_small; lia).
  assert (Hmod : (b_at b + 8 + newsize) mod 4 = 0).
  { pose proof (hr_aligned _ _ HR) as (_&[A _]%Forall_cons)%Forall_app. dlia. }
  rewrite Hptr. destruct (next_block s (b_at b) (b_next b) post pl Hpost (hr_end _ _ HR)) as (nm&Hnm&Hcase).
  rewrite (bind_run _ _ _ _ _ (hdr_run _ _ _ Hnm)), ask_bind. destruct Hcase as [(Hnu&Hused)|(c&post'&->&Hcu&Hca&Hcn&->)].
  - rewrite (proj2 (Z.eqb_neq (mem_used nm) 0)) by lia.
    replace (match post with [] => _ | c :: post' => _ end) with
      (if newsize + 8 + 12 <=? b_next b - b_at b - 8
       then mkBlk (b_at b) (b_at b + 8 + newsize) true :: mkBlk (b_at b + 8 + newsize) (b_next b) false :: post else b :: post)
      by (destruct post as [|c post']; [done|]; by rewrite (Hused c eq_refl)).
    destruct (Z.leb_spec (newsize + 8 + 12) (b_next b - b_at b - 8)) as [E5|E5]; cbn [when]; [|by exists s].
    pose proof (first_free_ge _ _ _ _ _ (b_next b) Hpost) as Hge.
    rewrite bind_assoc_run, (bind_run _ _ _ _ _ (free_after s pre b post (b_at b + 8 + newsize) (b_at b + 8 + newsize <? lfree s)
      HR Hu ltac:(lia) ltac:(intros; apply Z.ltb_lt; lia) ltac:(intros; apply Z.ltb_ge; lia))).
    destruct (cut_all s pre b [] post (b_at b) pl (b_next b) (b_at b + 8 + newsize) HR Hu) as (s'&E&HR'); try done || lia.
    { exists p1. cbn. unfold SIZEOF_STRUCT_MEM, MIN_SIZE_ALIGNED. split_and!; done || lia. }
    rewrite (bind_run _ _ _ _ _ E). by exists s'.
  - cbn [mem_used Z.eqb mem_next]. rewrite Hcu.
    assert (Hfc : first_free (c :: post') = b_next b) by (cbn; by rewrite Hcu).
    rewrite bind_assoc_run, (bind_run _ _ _ _ _ (free_after s pre b (c :: post') (b_at b + 8 + newsize) (lfree s =? b_next b)
      HR Hu ltac:(lia) ltac:(intros; apply Z.eqb_eq; lia) ltac:(intros; apply Z.eqb_neq; lia))).
    pose proof Hpost as Hpost'. cbn in Hpost'. destruct Hpost' as (_&Hhc&Hcn'&Hpost').
    unfold SIZEOF_STRUCT_MEM, MIN_SIZE_ALIGNED in Hcn'.
    destruct (cut_all s pre b [c] post' (b_next b) pl (b_next c) (b_at b + 8 + newsize) HR Hu) as (s'&E&HR'); try done || lia.
    { exists p1. cbn. unfold SIZEOF_STRUCT_MEM, MIN_SIZE_ALIGNED. split_and!; done || lia. }
    { intros d Hd. pose proof (hr_plugged _ _ HR) as (_&[[_ P]%plugged_cons _]%plugged_cons&_)%plugged_app.
      destruct (P d Hd); [congruence|done]. }
    rewrite (bind_run _ _ _ _ _ E). by exists s'.
Qed.

(** ** Histories *)

(** The blocks that are in use, and how each operation changes them. *)
Definition in_use (bs : list blk) : list blk := filter (fun b => b_used b = true) bs.

Lemma in_use_app xs ys : in_use (xs ++ ys) = in_use xs ++ in_use ys.
Proof. apply filter_app. Qed.

Lemma in_use_carve size pre b post : fits size b -> exists n, b_at b + SIZEOF_STRUCT_MEM + size <= n /\
  in_use (pre ++ b :: post) = in_use pre ++ in_use post /\
  in_use (pre ++ carve size b ++ post) = in_use pre ++ mkBlk (b_at b) n true :: in_use post.
Proof.
  intros [Hu Hf]. unfold carve. rewrite !in_use_app. unfold in_use. rewrite filter_cons_False by congruence.
  destruct (_ <=? _); (eexists; split; [|split; [done|reflexivity]]); lia.
Qed.

Lemma in_use_release pre b post : b_used b = true ->
  in_use (pre ++ b :: post) = in_use pre ++ b :: in_use post /\ in_use (release pre b post) = in_use pre ++ in_use post.
Proof.
  intros Hu. rewrite in_use_app. unfold in_use at 2. rewrite filter_cons_True by done. split; [done|].
  unfold release. assert (Hj : exists b' post', merge_next (freed b) post = (b', post') /\ b_used b' = false /\ in_use post' = in_use post).
  { destruct post as [|c post]; cbn [merge_next]; [by eexists _, _|]. destruct (b_used c) eqn:Hc; [by eexists _, _|].
    eexists _, _. split; [done|]. split; [done|]. unfold in_use. by rewrite filter_cons_False by congruence. }
  destruct Hj as (b'&post'&->&Hb'&<-). rewrite in_use_app. f_equal. unfold join_prev.
  assert (Ha : forall x : blk, b_used x = false -> in_use [x] = []) by (intros x Hx; unfold in_use; by rewrite filter_cons_False by congruence).
  destruct pre as [|a pre _] using rev_ind; [by apply Ha|]. rewrite last_snoc, removelast_last.
  destruct (b_used a) eqn:Ea; rewrite !in_use_app.
  - rewrite (Ha b') by done. by rewrite app_nil_r.
  - by rewrite (Ha a), (Ha (mkBlk _ _ false)) by done.
Qed.

Lemma in_use_trimmed newsize pre b post : b_used b = true -> newsize <= b_next b - b_at b - SIZEOF_STRUCT_MEM ->
  exists n, b_at b + SIZEOF_STRUCT_MEM + newsize <= n /\
    in_use (pre ++ trimmed newsize b post) = in_use pre ++ mkBlk (b_at b) n true :: in_use post.
Proof.
  intros Hu Hn. rewrite in_use_app. unfold trimmed.
  assert (Hb : b = mkBlk (b_at b) (b_next b) true) by (destruct b; cbn in *; by rewrite Hu).
  assert (Hkeep : in_use (b :: post) = mkBlk (b_at b) (b_next b) true :: in_use post)
    by (unfold in_use; rewrite filter_cons_True by done; by rewrite <- Hb).
  assert (Hcut : forall n xs, in_use (mkBlk (b_at b) (b_at b + SIZEOF_STRUCT_MEM + newsize) true ::
    mkBlk (b_at b + SIZEOF_STRUCT_MEM + newsize) n false :: xs) = mkBlk (b_at b) (b_at b + SIZEOF_STRUCT_MEM + newsize) true :: in_use xs) by done.
  destruct (_ =? _); [exists (b_next b); by rewrite Hkeep; split; [lia|]|].
  destruct post as [|c post]; [|destruct (b_used c) eqn:Hc].
  1,2: destruct (_ <=? _); [eexists; rewrite Hcut; split; [|done]; lia|exists (b_next b); rewrite Hkeep; split; [lia|done]].
  assert (Hd : in_use (c :: post) = in_use post) by (unfold in_use; by rewrite filter_cons_False by congruence).
  eexists. rewrite Hcut, Hd. split; [|done]. lia.
Qed.

Definition data_of (b : blk) : Z := ram + b_at b + SIZEOF_STRUCT_MEM.

(** What the users hold, with the sizes they have asked for: exactly the blocks
    in use. *)
Definition holds (bs : list blk) (held : gmap Z Z) : Prop :=
  (forall b, b ∈ in_use bs -> is_Some (held !! data_of b)) /\
  (forall x n, held !! x = Some n -> exists b, b ∈ in_use bs /\ x = data_of b /\ 0 < n /\ b_at b + SIZEOF_STRUCT_MEM + n <= b_next b).

(** The states that the users of the heap can bring about: they return and trim
    only what they hold. *)
Inductive reachable : lheap -> gmap Z Z -> Prop :=
| reach_init s0 s : mem_init END s0 = Some (tt, s) -> reachable s ∅
| reach_malloc s held n x s' : reachable s held -> 0 < n < 2 ^ 16 -> mem_malloc ram END n s = Some (x, s') ->
    reachable s' (if decide (x = 0) then held else <[x := n]> held)
| reach_free s held x n s' : reachable s held -> held !! x = Some n -> mem_free ram END x s = Some (tt, s') ->
    reachable s' (delete x held)
| reach_trim s held x n n' y s' : reachable s held -> held !! x = Some n -> 0 < n' < 2 ^ 16 ->
    mem_trim ram END x n' s = Some (y, s') -> reachable s' (if decide (y = 0) then held else <[x := n']> held).

Lemma in_use_split bs b : b ∈ in_use bs -> exists pre post, bs = pre ++ b :: post /\ b_used b = true.
Proof. unfold in_use. intros [Hu Hb]%list_elem_of_filter. apply list_elem_of_split in Hb as (pre&post&->). by exists pre, post. Qed.

Lemma rep_distinct s pre b post c : heap_rep s (pre ++ b :: post) -> c ∈ pre \/ c ∈ post -> data_of c <> data_of b.
Proof.
  intros HR Hc. destruct (rep_split _ _ _ _ HR) as (p1&pl&Hpre&_&_&Hn&Hpost). unfold data_of.
  destruct Hc as [Hc|Hc]; [destruct (hseg_in _ _ _ _ _ _ _ Hpre Hc)|destruct (hseg_in _ _ _ _ _ _ _ Hpost Hc)]; lia.
Qed.

Lemma in_use_sub xs b : b ∈ in_use xs -> b ∈ xs.
Proof. by intros [_ ?]%list_elem_of_filter. Qed.

(** A block in use that is added or changed. *)
Lemma holds_insert bs bs' held pre post at_ nx n (mine : list blk) : in_use bs = pre ++ mine ++ post ->
  (forall c, c ∈ mine -> b_at c = at_) -> in_use bs' = pre ++ mkBlk at_ nx true :: post ->
  (forall c, c ∈ pre ++ post -> data_of c <> ram + at_ + SIZEOF_STRUCT_MEM) -> 0 < n -> at_ + SIZEOF_STRUCT_MEM + n <= nx ->
  holds bs held -> holds bs' (<[ram + at_ + SIZEOF_STRUCT_MEM := n]> held).
Proof.
  intros E Hmine E' Hd Hn Hfit [H1 H2]. split.
  - intros b Hb. rewrite E' in Hb. apply elem_of_app in Hb as [Hb|[->|Hb]%elem_of_cons].
    1,3: rewrite lookup_insert_ne by (apply not_eq_sym, Hd; set_solver); apply H1; rewrite E; set_solver.
    unfold data_of. cbn [b_at]. rewrite lookup_insert_eq. by eexists.
  - intros x m. rewrite lookup_insert_Some. intros [[<- <-]|[Hne Hx]].
    + exists (mkBlk at_ nx true). split; [rewrite E'; set_solver|]. by split.
    + destruct (H2 x m Hx) as (b&Hb&->&Hm). exists b. split; [|done]. rewrite E in Hb. rewrite E'.
      apply elem_of_app in Hb as [Hb|[Hb|Hb]%elem_of_app]; [set_solver| |set_solver].
      exfalso. apply Hne. unfold data_of. by rewrite (Hmine b Hb).
Qed.

Lemma others_distinct s pre b post : heap_rep s (pre ++ b :: post) ->
  forall c, c ∈ in_use pre ++ in_use post -> data_of c <> ram + b_at b + SIZEOF_STRUCT_MEM.
Proof.
  intros HR c Hc. apply (rep_distinct s pre b post c HR).
  apply elem_of_app in Hc as [Hc|Hc]; apply in_use_sub in Hc; auto.
Qed.

(** What each operation does to what is held. *)
Lemma holds_malloc s bs held n : heap_rep s bs -> holds bs held -> 0 < n < 2 ^ 16 ->
  exists x s', mem_malloc ram END n s = Some (x, s') /\
    (x = 0 /\ s' = s \/
     x <> 0 /\ held !! x = None /\ n <= request_size n /\
       exists bs', heap_rep s' bs' /\ forall k, 0 < k <= request_size n -> holds bs' (<[x := k]> held)).
Proof.
  intros HR HH Hn. destruct (mem_malloc_run s bs n HR Hn) as [[_ E]|(pre&b&post&s1&->&_&Hf&Hge&_&_&E&HR')]; [exists 0, s; split; [done|by left]|].
  eexists _, s1. split; [exact E|]. right. destruct (rep_split _ _ _ _ HR) as (_&_&_&_&H0&_).
  pose proof (others_distinct _ _ _ _ HR) as Hd. split; [unfold SIZEOF_STRUCT_MEM; lia|]. split; [|split; [done|]].
  - destruct (held !! _) as [m|] eqn:Em; [|done]. destruct HH as [_ H2]. destruct (H2 _ _ Em) as (c&Hc&E'&_). exfalso.
    rewrite in_use_app in Hc. unfold in_use at 2 in Hc. rewrite filter_cons_False in Hc by (destruct Hf; congruence). symmetry in E'. by apply (Hd c Hc).
  - exists (pre ++ carve (request_size n) b ++ post). split; [done|]. intros k Hk.
    destruct (in_use_carve _ pre b post Hf) as (nx&Hnx&E1&E2).
    apply (holds_insert (pre ++ b :: post) _ held (in_use pre) (in_use post) (b_at b) nx k []);
      [done|by intros c Hc%elem_of_nil|done|done|lia|lia|done].
Qed.

Lemma holds_free s bs held x n : heap_rep s bs -> holds bs held -> held !! x = Some n ->
  exists s' bs', mem_free ram END x s = Some (tt, s') /\ heap_rep s' bs' /\ holds bs' (delete x held).
Proof.
  intros HR [H1 H2] Hx. destruct (H2 _ _ Hx) as (b&Hb&->&_). destruct (in_use_split _ _ Hb) as (pre&post&->&Hu).
  destruct (mem_free_run s pre b post HR Hu) as (s1&E'&HR'). exists s1, (release pre b post). split; [exact E'|]. split; [done|].
  destruct (in_use_release pre b post Hu) as [E1 E2]. pose proof (others_distinct _ _ _ _ HR) as Hd. split.
  - intros c Hc. rewrite E2 in Hc. rewrite lookup_delete_ne by (apply not_eq_sym, Hd; done). apply H1. rewrite E1. set_solver.
  - intros x m [Hne Hm]%lookup_delete_Some. destruct (H2 _ _ Hm) as (c&Hc&->&?). exists c. split; [|done].
    rewrite E1 in Hc. rewrite E2. apply elem_of_app in Hc as [Hc|[->|Hc]%elem_of_cons]; [set_solver|done|set_solver].
Qed.

Lemma holds_trim s bs held x n n' : heap_rep s bs -> holds bs held -> held !! x = Some n -> 0 < n' < 2 ^ 16 ->
  mem_trim ram END x n' s = Some (0, s) /\ ~ n' <= request_size n' <= n \/
  exists s' bs', mem_trim ram END x n' s = Some (x, s') /\ x <> 0 /\ n' <= request_size n' /\ heap_rep s' bs' /\
    forall k, 0 < k <= request_size n' -> holds bs' (<[x := k]> held).
Proof.
  intros HR HH Hx Hn. pose proof HH as [H1 H2]. destruct (H2 _ _ Hx) as (b&Hb&->&Hfit). destruct (in_use_split _ _ Hb) as (pre&post&->&Hu).
  pose proof (mem_trim_run s pre b post n' HR Hu Hn) as Ht. cbv zeta in Ht. case_decide as Hd.
  - right. destruct Ht as (s1&E'&HR'). destruct (rep_split _ _ _ _ HR) as (_&_&_&_&H0&_).
    exists s1, (pre ++ trimmed (request_size n') b post). split; [exact E'|]. split; [unfold data_of, SIZEOF_STRUCT_MEM; lia|]. split; [lia|].
    split; [done|]. intros k Hk. destruct (in_use_trimmed (request_size n') pre b post Hu ltac:(lia)) as (nx&Hnx&E2).
    destruct (in_use_release pre b post Hu) as [E1 _].
    apply (holds_insert (pre ++ b :: post) _ held (in_use pre) (in_use post) (b_at b) nx k [b]);
      [done|by intros c ->%list_elem_of_singleton|done|by eapply others_distinct|lia|lia|done].
  - left. split; [exact Ht|]. lia.
Qed.

Lemma holds_range s bs held x n : heap_rep s bs -> holds bs held -> held !! x = Some n ->
  x mod 4 = 0 /\ 0 < n /\ ram + SIZEOF_STRUCT_MEM <= x /\ x + n <= ram + END.
Proof.
  intros HR [_ H2] Hx. destruct (H2 _ _ Hx) as (b&Hb&->&Hn&Hf). destruct (in_use_split _ _ Hb) as (pre&post&->&Hu).
  destruct (rep_split _ _ _ _ HR) as (p1&pl&_&_&H0&Hbn&_).
  pose proof (hr_aligned _ _ HR) as (_&[Ha _]%Forall_cons)%Forall_app. unfold data_of, SIZEOF_STRUCT_MEM in *. split; [dlia|lia].
Qed.

Lemma holds_apart s bs held x y n m : heap_rep s bs -> holds bs held -> held !! x = Some n -> held !! y = Some m -> x <> y ->
  x + n <= y \/ y + m <= x.
Proof.
  intros HR [_ H2] Hx Hy Hne. destruct (H2 _ _ Hx) as (b&Hb&->&Hn&Hf). destruct (in_use_split _ _ Hb) as (pre&post&->&Hu).
  destruct (rep_split _ _ _ _ HR) as (p1&pl&Hpre&_&H0&Hbn&Hpost).
  destruct (H2 _ _ Hy) as (c&Hc%in_use_sub&->&_&Hfc). unfold data_of, SIZEOF_STRUCT_MEM in *.
  apply elem_of_app in Hc as [Hc|[->|Hc]%elem_of_cons]; [right|done|left].
  - destruct (hseg_in _ _ _ _ _ _ _ Hpre Hc) as (_&?&_). lia.
  - destruct (hseg_in _ _ _ _ _ _ _ Hpost Hc) as (?&_&_). lia.
Qed.

Lemma heap_reachable_ok s held : reachable s held -> exists bs, heap_rep s bs /\ holds bs held.
Proof.
  induction 1 as [s0 s E|s held n x s' _ [bs [HR HH]] Hn E|s held x n s' _ [bs [HR HH]] Hx E|s held x n n' y s' _ [bs [HR HH]] Hx Hn E].
  - destruct (mem_init_run s0) as (s'&E'&HR). rewrite E in E'. injection E' as <-.
    exists [mkBlk 0 END false]. split; [done|]. split; [|done]. intros b Hb. by apply elem_of_nil in Hb.
  - destruct (holds_malloc s bs held n HR HH Hn) as (x'&s1&E'&[[-> ->]|(Hx&_&Hge&bs'&HR'&HH')]); rewrite E in E'; injection E' as -> ->.
    + exists bs. by rewrite decide_True.
    + exists bs'. rewrite decide_False by done. split; [done|]. apply HH'. lia.
  - destruct (holds_free s bs held x n HR HH Hx) as (s1&bs'&E'&HR'&HH'). rewrite E in E'. injection E' as ->. by exists bs'.
  - destruct (holds_trim s bs held x n n' HR HH Hx Hn) as [[E' _]|(s1&bs'&E'&Hx0&Hge&HR'&HH')]; rewrite E in E'; injection E' as -> ->.
    + exists bs. by rewrite decide_True.
    + exists bs'. rewrite decide_False by done. split; [done|]. apply HH'. lia.
Qed.

(** A heap of which nothing is held is one free block again. *)
Lemma nothing_held s bs held : heap_rep s bs -> holds bs held -> held = ∅ -> bs = [mkBlk 0 END false].
Proof.
  intros HR [H1 _] ->. assert (Hfree : forall b, b ∈ bs -> b_used b = false).
  { intros b Hb. destruct (b_used b) eqn:Hu; [|done]. destruct (H1 b) as [? Hx]; [|by rewrite lookup_empty in Hx].
    unfold in_use. apply list_elem_of_filter. by split. }
  destruct (hr_chain _ _ HR) as [pl Hc]. destruct bs as [|b [|c bs]].
  - cbn in Hc. lia.
  - cbn in Hc. destruct Hc as (Hb&_&_&_&Hn). specialize (Hfree b ltac:(left)). destruct b. cbn in *. by subst.
  - pose proof (hr_plugged _ _ HR) as [[Hx|Hx] _]; rewrite Hfree in Hx; [done|left|done|right; left].
Qed.

(** C24 — However the heap is used, as long as only held blocks are returned or
    trimmed: the held blocks lie inside of the heap, aligned, as large as was
    asked for, and no two of them overlap; returning one succeeds without a wild
    access; and when nothing is held any more the whole heap is available again,
    as one block. *)
Theorem lwip_heap_safe s held : reachable s held ->
  (forall x n, held !! x = Some n -> x mod 4 = 0 /\ ram + SIZEOF_STRUCT_MEM <= x /\ x + n <= ram + END) /\
  (forall x y n m, held !! x = Some n -> held !! y = Some m -> x <> y -> x + n <= y \/ y + m <= x) /\
  (forall x n, held !! x = Some n -> exists s', mem_free ram END x s = Some (tt, s')) /\
  (held = ∅ -> forall n, 0 < n <= END - SIZEOF_STRUCT_MEM -> n mod 4 = 0 -> 12 <= n ->
     exists s', mem_malloc ram END n s = Some (ram + SIZEOF_STRUCT_MEM, s')).
Proof.
  intros (bs&HR&HH)%heap_reachable_ok. split_and!.
  - intros x n Hx. by destruct (holds_range s bs held x n HR HH Hx) as (?&_&?&?).
  - intros x y n m. by apply (holds_apart s bs held).
  - intros x n Hx. destruct (holds_free s bs held x n HR HH Hx) as (s'&_&E&_). by exists s'.
  - intros He n Hn Hn4 Hn12. pose proof (nothing_held s bs held HR HH He) as ->.
    assert (Hreq : request_size n = n).
    { unfold request_size, LWIP_MEM_ALIGN_SIZE, MEM_ALIGNMENT, MIN_SIZE_ALIGNED. rewrite (u32_small (n + 4 - 1)) by (unfold SIZEOF_STRUCT_MEM in *; lia).
      change (4 - 1) with (Z.ones 2). rewrite Z.ldiff_ones_r, Z.shiftl_mul_pow2, Z.shiftr_div_pow2 by lia.
      change (2 ^ 2) with 4. unfold u16, SIZEOF_STRUCT_MEM in *.
      replace ((n + 4 - 1) / 4 * 4) with n by dlia.
      rewrite Z.mod_small by lia. by rewrite (proj2 (Z.ltb_ge n 12)) by lia. }
    assert (Hsz : n < 2 ^ 16) by (unfold SIZEOF_STRUCT_MEM in *; lia).
    destruct (mem_malloc_run s _ n HR ltac:(lia)) as [[Hno _]|(pre&b&post&s'&Eb&_&_&_&_&_&E&_)].
    + exfalso. rewrite Hreq in Hno. unfold SIZEOF_STRUCT_MEM in *. destruct Hno as [?|[?|Hno]]; [lia|lia|].
      apply Forall_cons in Hno as [Hno _]. apply Hno. split; [done|]. cbn. unfold SIZEOF_STRUCT_MEM. lia.
    + exists s'. rewrite E. destruct pre as [|? [|??]]; [|discriminate Eb..]. injection Eb as <- <-. cbn. do 3 f_equal. unfold SIZEOF_STRUCT_MEM. lia.
Qed.

(** [mem_malloc] is first fit: it takes the lowest free block that is large
    enough for the request (rounded up to words and to the smallest size), cuts
    it in two when the rest can hold a block of its own, and returns the address
    of its data; it fails, and changes nothing, only if the rounded size
    overflows or exceeds the heap or no block is large enough. *)
Theorem mem_malloc_first_fit s bs n : heap_rep s bs -> 0 < n < 2 ^ 16 ->
  let size := request_size n in
  ((END < size \/ size < n \/ Forall (fun b => ~ fits size b) bs) /\ mem_malloc ram END n s = Some (0, s)) \/
  (exists pre b post s', bs = pre ++ b :: post /\ Forall (fun b => ~ fits size b) pre /\ fits size b /\ n <= size /\
     mem_malloc ram END n s = Some (data_of b, s') /\ heap_rep s' (pre ++ carve size b ++ post)).
Proof.
  intros HR Hn. destruct (mem_malloc_run s bs n HR Hn) as [H|(pre&b&post&s'&H1&H2&H3&H4&_&_&H5&H6)]; [by left|right].
  by exists pre, b, post, s'.
Qed.

(** Releasing a block merges it with the free blocks on both sides, and
    trimming one gives its tail back, to the free block behind it or as a block of
    its own; afterwards the headers again form one chain without two free
    neighbours whose lowest free block is [lfree]. *)
Theorem mem_free_trim_refine s pre b post : heap_rep s (pre ++ b :: post) -> b_used b = true ->
  (exists s', mem_free ram END (data_of b) s = Some (tt, s') /\ heap_rep s' (release pre b post)) /\
  (forall n, 0 < n < 2 ^ 16 -> let newsize := request_size n in
     if decide (n <= newsize <= b_next b - b_at b - SIZEOF_STRUCT_MEM)
     then exists s', mem_trim ram END (data_of b) n s = Some (data_of b, s') /\ heap_rep s' (pre ++ trimmed newsize b post)
     else mem_trim ram END (data_of b) n s = Some (0, s)).
Proof.
  intros HR Hu. split; [by apply mem_free_run|]. intros n Hn. by apply mem_trim_run.
Qed.
End heap.

(** ** Witnesses

    A heap of 64 bytes of which the first 12 are in use. *)
Definition heap_ex : lheap :=
  mkHeap (<[0 := mkHdr 20 0 1]> (<[20 := mkHdr 64 0 0]> (<[64 := mkHdr 64 64 1]> ∅))) 20.

Definition blocks_ex : list blk := [mkBlk 0 20 true; mkBlk 20 64 false].

Lemma heap_ex_rep : heap_rep 64 heap_ex blocks_ex.
Proof.
  split; [|done|done|by split; [left|]|by repeat constructor].
  exists 20. vm_compute. by split_and!.
Qed.

Lemma end_ex : 20 <= 64 < 2 ^ 16 - 4 /\ 64 mod 4 = 0.
Proof. by vm_compute. Qed.

Lemma ram_ex : 0 < 1000 /\ 1000 mod 4 = 0 /\ 1000 + 64 + 8 < 2 ^ 32.
Proof. by vm_compute. Qed.

Definition started_ex : lheap := default heap_ex (snd <$> mem_init 64 (mkHeap ∅ 0)).
Definition allocated_ex : lheap := default heap_ex (snd <$> mem_malloc 1000 64 10 started_ex).

Lemma started_ex_reachable : reachable 1000 64 started_ex ∅.
Proof. apply (reach_init 1000 64 (mkHeap ∅ 0)). reflexivity. Qed.

Lemma lwip_heap_safe_witness : mem_malloc 1000 64 10 started_ex = Some (1008, allocated_ex) /\
  exists s', mem_free 1000 64 1008 allocated_ex = Some (tt, s').
Proof.
  assert (E : mem_malloc 1000 64 10 started_ex = Some (1008, allocated_ex)) by (vm_compute; reflexivity).
  split; [exact E|].
  pose proof (reach_malloc 1000 64 started_ex ∅ 10 1008 allocated_ex started_ex_reachable ltac:(lia) E) as HR.
  destruct (lwip_heap_safe 1000 64 end_ex ram_ex allocated_ex _ HR) as (_&_&Hfree&_).
  apply (Hfree 1008 10). vm_compute. reflexivity.
Defined.

Lemma mem_malloc_first_fit_witness : exists s', mem_malloc 1000 64 13 heap_ex = Some (1028, s').
Proof.
  destruct (mem_malloc_first_fit 1000 64 end_ex ram_ex heap_ex blocks_ex 13 heap_ex_rep ltac:(lia))
    as [[Hno _]|(pre&b&post&s'&_&_&_&_&E&_)].
  - exfalso. destruct Hno as [Hno|[Hno|Hno]]; [by vm_compute in Hno|by vm_compute in Hno|].
    apply Forall_cons in Hno as [_ [Hno _]%Forall_cons]. apply Hno. by vm_compute.
  - vm_compute. eexists. reflexivity.
Defined.

Lemma mem_free_trim_refine_witness : exists s', mem_free 1000 64 1008 heap_ex = Some (tt, s') /\
  heap_rep 64 s' [mkBlk 0 64 false].
Proof.
  destruct (mem_free_trim_refine 1000 64 end_ex ram_ex heap_ex [] (mkBlk 0 20 true) [mkBlk 20 64 false] heap_ex_rep eq_refl) as [Hf _].
  exact Hf.
Defined.
