(* ===== verification/Pbuf.v ===== *)
(** * Packet buffers (LwIP core/pbuf.c)

    A packet is a chain of buffers, each with a reference count.  The structures
    are records known by their addresses and stand apart from the bytes of the
    payloads; a structure that has been freed is gone, so that an access to it is
    an error.  Where the memory comes from is behind the class [PbufMemory]: the
    pools of memp.c and the heap of mem.c.  Without out-of-sequence queueing, TCP
    segments are never reclaimed when the pool is empty; custom buffers,
    checksumming while copying and the splitting of long queues are off.  The
    reference counts are decremented and incremented atomically, the other
    operations run in the thread that owns the packet. *)
From S2P Require Import Prelude Mem Memp.
Open Scope Z_scope.

Record pbuf := mkPbuf {
  p_next : Z; p_payload : Z; p_tot_len : Z; p_len : Z; p_type_internal : Z; p_flags : Z; p_ref : Z; p_if_idx : Z }.

Definition with_next (v : Z) (b : pbuf) : pbuf :=
  mkPbuf v (p_payload b) (p_tot_len b) (p_len b) (p_type_internal b) (p_flags b) (p_ref b) (p_if_idx b).
Definition with_lens (payload tot len : Z) (b : pbuf) : pbuf :=
  mkPbuf (p_next b) payload tot len (p_type_internal b) (p_flags b) (p_ref b) (p_if_idx b).
Definition with_tot_len (v : Z) (b : pbuf) : pbuf := with_lens (p_payload b) v (p_len b) b.
Definition with_ref (v : Z) (b : pbuf) : pbuf :=
  mkPbuf (p_next b) (p_payload b) (p_tot_len b) (p_len b) (p_type_internal b) (p_flags b) v (p_if_idx b).

Definition SIZEOF_STRUCT_PBUF : Z := 16.
Definition PBUF_POOL_BUFSIZE_ALIGNED : Z := 1600.

Inductive pbuf_layer := PBUF_TRANSPORT | PBUF_IP | PBUF_LINK | PBUF_RAW_TX | PBUF_RAW.

(** The value of the layer: the room for headers (no IPv6, no encapsulation). *)
Definition layer_offset (l : pbuf_layer) : Z :=
  match l with PBUF_TRANSPORT => 14 + 20 + 20 | PBUF_IP => 14 + 20 | PBUF_LINK => 14 | PBUF_RAW_TX | PBUF_RAW => 0 end.

Inductive pbuf_type := PBUF_RAM | PBUF_ROM | PBUF_REF | PBUF_POOL.

#[export] Instance pbuf_type_eq_dec : EqDecision pbuf_type.
Proof. solve_decision. Defined.

Definition PBUF_TYPE_FLAG_STRUCT_DATA_CONTIGUOUS : Z := 0x80.
Definition PBUF_TYPE_FLAG_DATA_VOLATILE : Z := 0x40.
Definition PBUF_TYPE_ALLOC_SRC_MASK : Z := 0x0F.
Definition SRC_STD_HEAP : Z := 0x00.
Definition SRC_STD_MEMP_PBUF : Z := 0x01.
Definition SRC_STD_MEMP_PBUF_POOL : Z := 0x02.

Definition type_value (t : pbuf_type) : Z :=
  match t with
  | PBUF_RAM => 0x0200 + 0x80 + 0x00
  | PBUF_ROM => 0x01
  | PBUF_REF => 0x40 + 0x01
  | PBUF_POOL => 0x0100 + 0x80 + 0x02
  end.

Definition NETIF_NO_INDEX : Z := 0.

Inductive err_t :=
  ERR_OK | ERR_MEM | ERR_BUF | ERR_TIMEOUT | ERR_RTE | ERR_INPROGRESS | ERR_VAL | ERR_WOULDBLOCK | ERR_USE |
  ERR_ALREADY | ERR_ISCONN | ERR_CONN | ERR_IF | ERR_ABRT | ERR_RST | ERR_CLSD | ERR_ARG.

(** The memory of the stack, as the packet buffers use it. *)
Class PbufMemory (A : Type) := {
  pool_malloc : memp_t -> prog A Z;
  pool_free : memp_t -> Z -> prog A unit;
  heap_malloc : Z -> prog A Z;
  heap_free : Z -> prog A unit;
  heap_trim : Z -> Z -> prog A Z
}.

Record pstate (A : Type) := mkP { pbufs : gmap Z pbuf; bytes : mem; alloc : A }.
Arguments mkP {A}.
Arguments pbufs {A}.
Arguments bytes {A}.
Arguments alloc {A}.

Section pbuf.
Context {A : Type} `{!PbufMemory A}.

Abbreviation P := (prog (pstate A)).

Definition pb (p : Z) : P pbuf := try_ask (fun s => pbufs s !! p).
Definition set_pb (p : Z) (f : pbuf -> pbuf) : P unit :=
  try_update (fun s => b ← pbufs s !! p; Some (mkP (<[p := f b]> (pbufs s)) (bytes s) (alloc s))).
Definition new_pb (p : Z) (b : pbuf) : P unit := update (fun s => mkP (<[p := b]> (pbufs s)) (bytes s) (alloc s)).
Definition drop_pb (p : Z) : P unit := update (fun s => mkP (delete p (pbufs s)) (bytes s) (alloc s)).
Definition in_alloc {B} (q : prog A B) : P B :=
  fun s => '(x, a) ← q (alloc s); Some (x, mkP (pbufs s) (bytes s) a).
Definition copy (dst src n : Z) : P unit :=
  try_update (fun s => m ← memcpy dst src (Z.to_nat n) (bytes s); Some (mkP (pbufs s) m (alloc s))).
Definition byte_at (a : Z) : P Z := try_ask (fun s => load8 a (bytes s)).
Definition set_byte (a v : Z) : P unit := try_update (fun s => m ← store8 a v (bytes s); Some (mkP (pbufs s) m (alloc s))).
(** No chain is longer than the number of buffers. *)
Definition chain_fuel : P nat := ask (fun s => S (size (pbufs s))).

(** ** Allocation *)

Definition pbuf_init_alloced_pbuf (p payload tot_len len type flags : Z) : P unit :=
  new_pb p (mkPbuf 0 payload tot_len len (u8 type) flags 1 NETIF_NO_INDEX).

Definition pbuf_alloc_reference (payload length : Z) (type : pbuf_type) : P Z :=
  p ← in_alloc (pool_malloc MEMP_PBUF);
  if p =? 0 then mret 0
  else _ ← pbuf_init_alloced_pbuf p payload length length (type_value type) 0; mret p.

Definition pbuf_get_allocsrc (b : pbuf) : Z := Z.land (p_type_internal b) PBUF_TYPE_ALLOC_SRC_MASK.

(** Give the memory of a buffer back to where it came from. *)
Definition free_memory (p alloc_src : Z) : P unit :=
  if alloc_src =? SRC_STD_MEMP_PBUF_POOL then in_alloc (pool_free MEMP_PBUF_POOL p)
  else if alloc_src =? SRC_STD_MEMP_PBUF then in_alloc (pool_free MEMP_PBUF p)
  else if alloc_src =? SRC_STD_HEAP then in_alloc (heap_free p)
  else mret tt.

Fixpoint free_loop (fuel : nat) (p count : Z) : P Z :=
  match fuel with
  | O => fun _ => None
  | S fuel' =>
      if p =? 0 then mret count
      else
        b ← pb p;
        let ref := u8 (p_ref b - 1) in
        _ ← set_pb p (with_ref ref);
        if ref =? 0 then
          _ ← drop_pb p;
          _ ← free_memory p (pbuf_get_allocsrc b);
          free_loop fuel' (p_next b) (u8 (count + 1))
        else mret count
  end.

Definition pbuf_free (p : Z) : P Z := if p =? 0 then mret 0 else n ← chain_fuel; free_loop n p 0.

(** The loop over the buffers from the pool; at most one per byte. *)
Fixpoint pool_loop (fuel : nat) (p last rem_len offset : Z) : P Z :=
  match fuel with
  | O => fun _ => None
  | S fuel' =>
      q ← in_alloc (pool_malloc MEMP_PBUF_POOL);
      if q =? 0 then _ ← (if negb (p =? 0) then pbuf_free p else mret 0); mret 0
      else
        let qlen := Z.min rem_len (u16 (PBUF_POOL_BUFSIZE_ALIGNED - LWIP_MEM_ALIGN_SIZE offset)) in
        _ ← pbuf_init_alloced_pbuf q (LWIP_MEM_ALIGN (q + SIZEOF_STRUCT_PBUF + offset)) rem_len qlen (type_value PBUF_POOL) 0;
        _ ← when (negb (p =? 0)) (set_pb last (with_next q));
        let p' := if p =? 0 then q else p in
        let rem_len' := u16 (rem_len - qlen) in
        if 0 <? rem_len' then pool_loop fuel' p' q rem_len' 0 else mret p'
  end.

Definition pbuf_alloc (layer : pbuf_layer) (length : Z) (type : pbuf_type) : P Z :=
  let offset := layer_offset layer in
  match type with
  | PBUF_REF | PBUF_ROM => pbuf_alloc_reference 0 length type
  | PBUF_POOL => pool_loop (S (Z.to_nat length)) 0 0 length offset
  | PBUF_RAM =>
      let payload_len := u16 (LWIP_MEM_ALIGN_SIZE offset + LWIP_MEM_ALIGN_SIZE length) in
      let alloc_len := u16 (LWIP_MEM_ALIGN_SIZE SIZEOF_STRUCT_PBUF + payload_len) in
      if (payload_len <? LWIP_MEM_ALIGN_SIZE length) || (alloc_len <? LWIP_MEM_ALIGN_SIZE length) then mret 0
      else
        p ← in_alloc (heap_malloc alloc_len);
        if p =? 0 then mret 0
        else _ ← pbuf_init_alloced_pbuf p (LWIP_MEM_ALIGN (p + SIZEOF_STRUCT_PBUF + offset)) length length (type_value PBUF_RAM) 0;
             mret p
  end.

(** ** References and chains *)

Definition pbuf_ref (p : Z) : P unit := when (negb (p =? 0)) (set_pb p (fun b => with_ref (u8 (p_ref b + 1)) b)).

Fixpoint clen_loop (fuel : nat) (p len : Z) : P Z :=
  match fuel with
  | O => fun _ => None
  | S fuel' => if p =? 0 then mret len else b ← pb p; clen_loop fuel' (p_next b) (u16 (len + 1))
  end.

Definition pbuf_clen (p : Z) : P Z := n ← chain_fuel; clen_loop n p 0.

(** To the last buffer of a chain, adding to the total lengths on the way. *)
Fixpoint cat_loop (fuel : nat) (p add t : Z) : P unit :=
  match fuel with
  | O => fun _ => None
  | S fuel' =>
      b ← pb p;
      _ ← set_pb p (with_tot_len (u16 (p_tot_len b + add)));
      if p_next b =? 0 then set_pb p (with_next t) else cat_loop fuel' (p_next b) add t
  end.

Definition pbuf_cat (h t : Z) : P unit :=
  if (h =? 0) || (t =? 0) then mret tt
  else n ← chain_fuel; b ← pb t; cat_loop n h (p_tot_len b) t.

Definition pbuf_chain (h t : Z) : P unit := _ ← pbuf_cat h t; pbuf_ref t.

Definition pbuf_dechain (p : Z) : P Z :=
  b ← pb p;
  let q := p_next b in
  tail_gone ← (if q =? 0 then mret 1
               else
                 _ ← set_pb q (with_tot_len (u16 (p_tot_len b - p_len b)));
                 _ ← set_pb p (with_next 0);
                 _ ← set_pb p (with_tot_len (p_len b));
                 pbuf_free q);
  mret (if 0 <? tail_gone then 0 else q).

(** ** Sizes and headers *)

(** Step over the buffers that stay as they are. *)
Fixpoint realloc_loop (fuel : nat) (q rem_len shrink : Z) : P (Z * Z) :=
  match fuel with
  | O => fun _ => None
  | S fuel' =>
      b ← pb q;
      if p_len b <? rem_len then
        _ ← set_pb q (with_tot_len (u16 (p_tot_len b - shrink)));
        realloc_loop fuel' (p_next b) (u16 (rem_len - p_len b)) shrink
      else mret (q, rem_len)
  end.

Definition pbuf_realloc (p new_len : Z) : P unit :=
  b ← pb p;
  if p_tot_len b <=? new_len then mret tt
  else
    n ← chain_fuel;
    '(q, rem_len) ← realloc_loop n p new_len (u16 (p_tot_len b - new_len));
    b ← pb q;
    q ← (if (pbuf_get_allocsrc b =? SRC_STD_HEAP) && negb (rem_len =? p_len b)
         then in_alloc (heap_trim q (u16 (p_payload b - q + rem_len))) else mret q);
    b ← pb q;
    _ ← set_pb q (with_lens (p_payload b) rem_len rem_len);
    _ ← (if negb (p_next b =? 0) then pbuf_free (p_next b) else mret 0);
    set_pb q (with_next 0).

Definition pbuf_add_header_impl (p header_size_increment : Z) (force : bool) : P Z :=
  if (p =? 0) || (0xFFFF <? header_size_increment) then mret 1
  else if header_size_increment =? 0 then mret 0
  else
    b ← pb p;
    let increment_magnitude := u16 header_size_increment in
    if u16 (increment_magnitude + p_tot_len b) <? increment_magnitude then mret 1
    else
      let payload := u32 (p_payload b - header_size_increment) in
      let contiguous := negb (Z.land (p_type_internal b) PBUF_TYPE_FLAG_STRUCT_DATA_CONTIGUOUS =? 0) in
      if (if contiguous then payload <? u32 (p + SIZEOF_STRUCT_PBUF) else negb force) then mret 1
      else
        _ ← set_pb p (with_lens payload (u16 (p_tot_len b + increment_magnitude)) (u16 (p_len b + increment_magnitude)));
        mret 0.

Definition pbuf_add_header (p header_size_increment : Z) : P Z := pbuf_add_header_impl p header_size_increment false.
Definition pbuf_add_header_force (p header_size_increment : Z) : P Z := pbuf_add_header_impl p header_size_increment true.

Definition pbuf_remove_header (p header_size_decrement : Z) : P Z :=
  if (p =? 0) || (0xFFFF <? header_size_decrement) then mret 1
  else if header_size_decrement =? 0 then mret 0
  else
    b ← pb p;
    let increment_magnitude := u16 header_size_decrement in
    if p_len b <? increment_magnitude then mret 1
    else
      _ ← set_pb p (with_lens (u32 (p_payload b + header_size_decrement)) (u16 (p_tot_len b - increment_magnitude))
                              (u16 (p_len b - increment_magnitude)));
      mret 0.

Definition pbuf_header_impl (p header_size_increment : Z) (force : bool) : P Z :=
  if header_size_increment <? 0 then pbuf_remove_header p (- header_size_increment)
  else pbuf_add_header_impl p header_size_increment force.

Definition pbuf_header (p header_size_increment : Z) : P Z := pbuf_header_impl p header_size_increment false.
Definition pbuf_header_force (p header_size_increment : Z) : P Z := pbuf_header_impl p header_size_increment true.

Fixpoint free_header_loop (fuel : nat) (p free_left : Z) : P Z :=
  match fuel with
  | O => fun _ => None
  | S fuel' =>
      if (free_left =? 0) || (p =? 0) then mret p
      else
        b ← pb p;
        if p_len b <=? free_left then
          _ ← set_pb p (with_next 0);
          _ ← pbuf_free p;
          free_header_loop fuel' (p_next b) (u16 (free_left - p_len b))
        else _ ← pbuf_remove_header p free_left; mret p
  end.

Definition pbuf_free_header (q size : Z) : P Z := n ← chain_fuel; free_header_loop n q size.

(** ** Contents *)

(** The buffer where an offset falls, and the offset in it. *)
Fixpoint skip_loop (fuel : nat) (q offset_left : Z) : P (Z * Z) :=
  match fuel with
  | O => fun _ => None
  | S fuel' =>
      if q =? 0 then mret (q, offset_left)
      else
        b ← pb q;
        if p_len b <=? offset_left then skip_loop fuel' (p_next b) (u16 (offset_left - p_len b))
        else mret (q, offset_left)
  end.

Definition pbuf_skip (q in_offset : Z) : P (Z * Z) := n ← chain_fuel; skip_loop n q in_offset.

Fixpoint copy_partial_loop (fuel : nat) (p dataptr left len offset copied_total : Z) : P Z :=
  match fuel with
  | O => fun _ => None
  | S fuel' =>
      if (len =? 0) || (p =? 0) then mret copied_total
      else
        b ← pb p;
        if negb (offset =? 0) && (p_len b <=? offset)
        then copy_partial_loop fuel' (p_next b) dataptr left len (u16 (offset - p_len b)) copied_total
        else
          let buf_copy_len := u16 (p_len b - offset) in
          let buf_copy_len := if len <? buf_copy_len then len else buf_copy_len in
          _ ← copy (dataptr + left) (p_payload b + offset) buf_copy_len;
          copy_partial_loop fuel' (p_next b) dataptr (u16 (left + buf_copy_len)) (u16 (len - buf_copy_len)) 0
            (u16 (copied_total + buf_copy_len))
  end.

Definition pbuf_copy_partial (buf dataptr len offset : Z) : P Z :=
  if (buf =? 0) || (dataptr =? 0) then mret 0
  else n ← chain_fuel; copy_partial_loop n buf dataptr 0 len offset 0.

Definition pbuf_get_contiguous (p buffer bufsize len offset : Z) : P Z :=
  if (p =? 0) || (buffer =? 0) || (bufsize <? len) then mret 0
  else
    '(q, out_offset) ← pbuf_skip p offset;
    if q =? 0 then mret 0
    else
      b ← pb q;
      if out_offset + len <=? p_len b then mret (p_payload b + out_offset)
      else n ← pbuf_copy_partial q buffer len out_offset; mret (if negb (n =? len) then 0 else buffer).

(** The loop of [pbuf_take]; a chain that is too short for its total length
    makes it follow a null pointer. *)
Fixpoint take_loop (fuel : nat) (p dataptr total_copy_len copied_total : Z) : P unit :=
  match fuel with
  | O => fun _ => None
  | S fuel' =>
      if total_copy_len =? 0 then mret tt
      else
        b ← pb p;
        let buf_copy_len := Z.min total_copy_len (p_len b) in
        _ ← copy (p_payload b) (dataptr + copied_total) buf_copy_len;
        take_loop fuel' (p_next b) dataptr (total_copy_len - buf_copy_len) (copied_total + buf_copy_len)
  end.

Definition pbuf_take (buf dataptr len : Z) : P err_t :=
  if (buf =? 0) || (dataptr =? 0) then mret ERR_ARG
  else
    b ← pb buf;
    if p_tot_len b <? len then mret ERR_MEM
    else n ← chain_fuel; _ ← take_loop n buf dataptr len 0; mret ERR_OK.

Definition pbuf_take_at (buf dataptr len offset : Z) : P err_t :=
  '(q, target_offset) ← pbuf_skip buf offset;
  if q =? 0 then mret ERR_MEM
  else
    b ← pb q;
    if p_tot_len b <? target_offset + len then mret ERR_MEM
    else
      let first_copy_len := u16 (Z.min (p_len b - target_offset) len) in
      _ ← copy (p_payload b + target_offset) dataptr first_copy_len;
      let remaining_len := u16 (len - first_copy_len) in
      if 0 <? remaining_len then pbuf_take (p_next b) (dataptr + first_copy_len) remaining_len
      else mret ERR_OK.

(** One packet at a time: a buffer that ends a packet has no successor. *)
Definition queue_end (p : Z) : P bool :=
  if p =? 0 then mret false
  else b ← pb p; mret ((p_len b =? p_tot_len b) && negb (p_next b =? 0)).

Fixpoint copy_loop (fuel : nat) (p_to offset_to p_from offset_from : Z) : P err_t :=
  match fuel with
  | O => fun _ => None
  | S fuel' =>
      t ← pb p_to;
      f ← pb p_from;
      let len := if p_len f - offset_from <=? p_len t - offset_to then p_len f - offset_from else p_len t - offset_to in
      _ ← copy (p_payload t + offset_to) (p_payload f + offset_from) len;
      let offset_to := offset_to + len in
      let offset_from := offset_from + len in
      let '(p_from, offset_from) := if p_len f <=? offset_from then (p_next f, 0) else (p_from, offset_from) in
      let to_done := offset_to =? p_len t in
      let '(p_to, offset_to) := if to_done then (p_next t, 0) else (p_to, offset_to) in
      if to_done && (p_to =? 0) && negb (p_from =? 0) then mret ERR_ARG
      else
        qf ← queue_end p_from;
        if (qf : bool) then mret ERR_VAL
        else
          qt ← queue_end p_to;
          if (qt : bool) then mret ERR_VAL
          else if p_from =? 0 then mret ERR_OK
          else copy_loop fuel' p_to offset_to p_from offset_from
  end.

Definition pbuf_copy (p_to p_from : Z) : P err_t :=
  if (p_to =? 0) || (p_from =? 0) then mret ERR_ARG
  else
    t ← pb p_to;
    f ← pb p_from;
    if p_tot_len t <? p_tot_len f then mret ERR_ARG
    else n ← chain_fuel; copy_loop (n + n) p_to 0 p_from 0.

Definition pbuf_clone (layer : pbuf_layer) (type : pbuf_type) (p : Z) : P Z :=
  b ← pb p;
  q ← pbuf_alloc layer (p_tot_len b) type;
  if q =? 0 then mret 0 else _ ← pbuf_copy q p; mret q.

Definition pbuf_coalesce (p : Z) (layer : pbuf_layer) : P Z :=
  b ← pb p;
  if p_next b =? 0 then mret p
  else
    q ← pbuf_clone layer PBUF_RAM p;
    if q =? 0 then mret p else _ ← pbuf_free p; mret q.

Definition pbuf_try_get_at (p offset : Z) : P Z :=
  '(q, q_idx) ← pbuf_skip p offset;
  if q =? 0 then mret (-1)
  else b ← pb q; if q_idx <? p_len b then byte_at (p_payload b + q_idx) else mret (-1).

Definition pbuf_get_at (p offset : Z) : P Z := ret ← pbuf_try_get_at p offset; mret (if 0 <=? ret then u8 ret else 0).

Definition pbuf_put_at (p offset data : Z) : P unit :=
  '(q, q_idx) ← pbuf_skip p offset;
  if q =? 0 then mret tt
  else b ← pb q; if q_idx <? p_len b then set_byte (p_payload b + q_idx) data else mret tt.

Fixpoint memcmp_loop (k : nat) (q start s2 i : Z) : P Z :=
  match k with
  | O => mret 0
  | S k' =>
      a ← pbuf_get_at q (u16 (start + i));
      b ← byte_at (s2 + i);
      if negb (a =? b) then mret (u16 (Z.min (i + 1) 0xFFFF)) else memcmp_loop k' q start s2 (i + 1)
  end.

Definition pbuf_memcmp (p offset s2 n : Z) : P Z :=
  b ← pb p;
  if p_tot_len b <? offset + n then mret 0xFFFF
  else
    '(q, start) ← pbuf_skip p offset;
    memcmp_loop (Z.to_nat n) q start s2 0.

Fixpoint memfind_loop (fuel : nat) (p mem mem_len max_cmp_start i : Z) : P Z :=
  match fuel with
  | O => fun _ => None
  | S fuel' =>
      if i <=? max_cmp_start then
        plus ← pbuf_memcmp p i mem mem_len;
        if plus =? 0 then mret i else memfind_loop fuel' p mem mem_len max_cmp_start (u16 (i + 1))
      else mret 0xFFFF
  end.

Definition pbuf_memfind (p mem mem_len start_offset : Z) : P Z :=
  b ← pb p;
  let max_cmp_start := u16 (p_tot_len b - mem_len) in
  if mem_len + start_offset <=? p_tot_len b
  then memfind_loop (S (S (Z.to_nat (max_cmp_start - start_offset)))) p mem mem_len max_cmp_start start_offset
  else mret 0xFFFF.

(** [strlen], bounded by the size of the memory. *)
Fixpoint strlen_loop (fuel : nat) (a n : Z) : P Z :=
  match fuel with
  | O => fun _ => None
  | S fuel' => c ← byte_at (a + n); if c =? 0 then mret n else strlen_loop fuel' a (n + 1)
  end.

Definition pbuf_strstr (p substr : Z) : P Z :=
  if substr =? 0 then mret 0xFFFF
  else
    c ← byte_at substr;
    if c =? 0 then mret 0xFFFF
    else
      b ← pb p;
      if p_tot_len b =? 0xFFFF then mret 0xFFFF
      else
        fuel ← ask (fun s => S (size (bytes s)));
        substr_len ← strlen_loop fuel substr 0;
        if 0xFFFF <=? substr_len then mret 0xFFFF else pbuf_memfind p substr (u16 substr_len) 0.
End pbuf.
