(* ===== verification/PbufProofs.v ===== *)
(** * The contents of packet buffers

    A packet is a chain of buffers; its contents are the bytes at the addresses
    of the payloads, one after the other.  Copying in and out of packets is
    copying between two lists of addresses. *)
From S2P Require Import Prelude Mem Pbuf.
Open Scope Z_scope.

(** ** Lists of addresses *)

(** The bytes at some addresses, and memory with other bytes there. *)
Definition read (ads : list Z) (m : mem) : option (list Z) := mapM (fun a => m !! a) ads.
Definition blit (ads vs : list Z) (m : mem) : mem := list_to_map (zip ads vs) ∪ m.

Definition bytes_ok (m : mem) : Prop := map_Forall (fun _ b => byte_ok b) m.

Lemma read_app xs ys m : read (xs ++ ys) m = (vs ← read xs m; ws ← read ys m; Some (vs ++ ws)).
Proof.
  unfold read. induction xs as [|x xs IH]; cbn [mapM app]; [by destruct (mapM _ ys)|]. rewrite IH.
  destruct (m !! x); cbn; [|done]. destruct (mapM _ xs); cbn; [|done]. by destruct (mapM _ ys).
Qed.

Lemma read_app_Some xs ys m ds : read (xs ++ ys) m = Some ds <-> exists vs ws, ds = vs ++ ws /\ read xs m = Some vs /\ read ys m = Some ws.
Proof.
  rewrite read_app. split.
  - intros (vs&->&(ws&->&[= <-])%bind_Some_inv)%bind_Some_inv. by exists vs, ws.
  - intros (vs&ws&->&->&->). done.
Qed.

Lemma read_length ads m ds : read ads m = Some ds -> length ds = length ads.
Proof. intros H. symmetry. by eapply length_mapM. Qed.

Lemma read_take n ads m ds : read ads m = Some ds -> read (take n ads) m = Some (take n ds).
Proof. intros H%mapM_Some. apply mapM_Some. by apply Forall2_take. Qed.

Lemma read_drop n ads m ds : read ads m = Some ds -> read (drop n ads) m = Some (drop n ds).
Proof. intros H%mapM_Some. apply mapM_Some. by apply Forall2_drop. Qed.

Lemma read_lookup ads m ds i a : read ads m = Some ds -> ads !! i = Some a -> m !! a = ds !! i.
Proof.
  intros H%mapM_Some Ha. destruct (Forall2_lookup_l _ _ _ _ _ H Ha) as (v&Hv&E). by rewrite Hv.
Qed.

Lemma read_ext ads m m' : (forall a, a ∈ ads -> m' !! a = m !! a) -> read ads m' = read ads m.
Proof. intros H. apply Forall_mapM_ext, Forall_forall. done. Qed.

Lemma read_bytes_ok ads m ds : bytes_ok m -> read ads m = Some ds -> Forall byte_ok ds.
Proof.
  intros Hb H%mapM_Some. induction H as [|a v ads vs Ha _ IH]; constructor; [|done]. by eapply Hb.
Qed.

Lemma blit_other ads vs m a : a ∉ ads -> blit ads vs m !! a = m !! a.
Proof.
  intros Ha. unfold blit. apply lookup_union_r, not_elem_of_list_to_map_1. intros Hx. apply Ha.
  apply list_elem_of_fmap in Hx as ([x y]&->&Hx). by apply elem_of_zip_l in Hx.
Qed.

Lemma blit_at ads vs m i a v : NoDup ads -> ads !! i = Some a -> vs !! i = Some v -> blit ads vs m !! a = Some v.
Proof.
  intros Hn Ha Hv. unfold blit. apply lookup_union_Some_l, elem_of_list_to_map_1'.
  - intros y Hy. apply list_elem_of_lookup in Hy as [j Hj]. apply lookup_zip_Some in Hj as [Hj1 Hj2].
    assert (i = j) as <- by (by eapply NoDup_lookup). congruence.
  - apply list_elem_of_lookup. exists i. by apply lookup_zip_Some.
Qed.

Lemma blit_nil vs m : blit [] vs m = m.
Proof. apply map_eq. intros i. by apply blit_other, not_elem_of_nil. Qed.

Lemma blit_app xs ys vs ws m : length xs = length vs -> length ys = length ws -> NoDup (xs ++ ys) ->
  blit (xs ++ ys) (vs ++ ws) m = blit ys ws (blit xs vs m).
Proof.
  intros Hx Hy (_&Hd&_)%NoDup_app. unfold blit. rewrite zip_with_app by done. rewrite list_to_map_app.
  rewrite (map_union_comm (list_to_map (zip xs vs))); [by rewrite map_union_assoc|].
  apply map_disjoint_list_to_map_zip_l; [done|]. apply Forall_forall. intros a Ha.
  apply not_elem_of_list_to_map_1. intros Hi. apply list_elem_of_fmap in Hi as ([b w]&->&Hb).
  apply elem_of_zip_l in Hb. by apply (Hd b).
Qed.

Lemma read_blit ads vs m : NoDup ads -> length ads = length vs -> read ads (blit ads vs m) = Some vs.
Proof.
  intros Hn Hl. apply mapM_Some, Forall2_same_length_lookup_2; [done|]. intros i a v Ha Hv. by eapply blit_at.
Qed.

Lemma read_blit_other xs ads vs m : (forall a, a ∈ xs -> a ∉ ads) -> read xs (blit ads vs m) = read xs m.
Proof. intros H. apply read_ext. intros a Ha. by apply blit_other, H. Qed.

(** Writing the first of several addresses. *)
Lemma read_blit_take n ads vs m ds : NoDup ads -> length vs = n -> (n <= length ads)%nat -> read ads m = Some ds ->
  read ads (blit (take n ads) vs m) = Some (vs ++ drop n ds).
Proof.
  intros Hn Hl Hle Hr. pose proof Hn as Hn'. rewrite <- (take_drop n ads) in Hn'. apply NoDup_app in Hn' as (Hn1&Hd&_).
  rewrite <- (take_drop n ads) at 1. apply read_app_Some. exists vs, (drop n ds). split; [done|]. split.
  - apply read_blit; [done|]. rewrite length_take. lia.
  - rewrite read_blit_other; [by apply read_drop|]. intros a Ha Hb. by apply (Hd a).
Qed.

(** ** Blocks of memory *)
Lemma load_bytes_read n a m : load_bytes n a m = read (seqZ a (Z.of_nat n)) m.
Proof.
  revert a. induction n as [|n IH]; intros a; [done|]. rewrite seqZ_cons by lia. cbn [load_bytes].
  unfold read in *. cbn [mapM]. unfold load8. rewrite IH. replace (Z.pred (Z.of_nat (S n))) with (Z.of_nat n) by lia.
  by replace (Z.succ a) with (a + 1) by lia.
Qed.

Lemma store_bytes_blit a bs m : mapped m a (Z.of_nat (length bs)) -> Forall byte_ok bs ->
  store_bytes a bs m = Some (blit (seqZ a (Z.of_nat (length bs))) bs m).
Proof.
  intros Hm Hb. destruct (store_bytes_spec a bs m Hm) as (m'&Hs&Hl). rewrite Hs. f_equal. apply map_eq. intros i. rewrite Hl.
  case_decide as Hi.
  - destruct (lookup_lt_is_Some_2 bs (Z.to_nat (i - a)) ltac:(lia)) as [v Hv].
    rewrite (blit_at _ _ _ (Z.to_nat (i - a)) i v); [|apply NoDup_seqZ|apply lookup_seqZ; lia|done].
    rewrite Hv. cbn. pose proof (Forall_lookup_1 _ _ _ _ Hb Hv) as Hv'. unfold byte_ok in Hv'. by rewrite u8_small by lia.
  - symmetry. apply blit_other. rewrite elem_of_seqZ. lia.
Qed.

Lemma read_mapped a n m ds : read (seqZ a n) m = Some ds -> mapped m a n.
Proof.
  intros H i Hi. rewrite (read_lookup _ _ _ (Z.to_nat (i - a)) i H) by (apply lookup_seqZ; lia).
  apply lookup_lt_is_Some. rewrite (read_length _ _ _ H), length_seqZ. lia.
Qed.

Lemma memcpy_blit dst src n m vs ds : 0 <= n -> bytes_ok m -> read (seqZ src n) m = Some vs -> read (seqZ dst n) m = Some ds ->
  memcpy dst src (Z.to_nat n) m = Some (blit (seqZ dst n) vs m).
Proof.
  intros Hn Hok Hs Hd. unfold memcpy. rewrite load_bytes_read, Z2Nat.id by done. rewrite Hs. cbn.
  pose proof (read_length _ _ _ Hs) as Hl. rewrite length_seqZ in Hl.
  rewrite store_bytes_blit; rewrite ?Hl, ?Z2Nat.id by done; [done| |].
  - by eapply read_mapped.
  - by eapply read_bytes_ok.
Qed.

Lemma blit_bytes_ok ads vs m : bytes_ok m -> Forall byte_ok vs -> bytes_ok (blit ads vs m).
Proof.
  intros Hm Hv a b [H|[_ H]]%lookup_union_Some_raw; [|by eapply Hm].
  apply elem_of_list_to_map_2, elem_of_zip_r in H. rewrite Forall_forall in Hv. by apply Hv.
Qed.

Lemma seqZ_sub a n o k : 0 <= o -> 0 <= k -> o + k <= n -> take (Z.to_nat k) (drop (Z.to_nat o) (seqZ a n)) = seqZ (a + o) k.
Proof.
  intros Ho Hk Hn. replace n with (o + (k + (n - o - k))) by lia. rewrite !seqZ_app by lia.
  rewrite drop_app_length' by (rewrite length_seqZ; lia). by rewrite take_app_length' by (rewrite length_seqZ; lia).
Qed.

Lemma read_sub a n o k m ds : read (seqZ a n) m = Some ds -> 0 <= o -> 0 <= k -> o + k <= n ->
  read (seqZ (a + o) k) m = Some (take (Z.to_nat k) (drop (Z.to_nat o) ds)).
Proof. intros H Ho Hk Hn. rewrite <- (seqZ_sub a n o k) by done. by apply read_take, read_drop. Qed.

(** ** Packets *)

Section chains.
Context {A : Type} `{!PbufMemory A}.
Implicit Types (s : pstate A).

(** The chain of buffers that starts at [p]. *)
Fixpoint chain (M : gmap Z pbuf) (p : Z) (bs : list (Z * pbuf)) : Prop :=
  match bs with
  | [] => p = 0
  | (a, b) :: bs' => p = a /\ a <> 0 /\ M !! a = Some b /\ chain M (p_next b) bs'
  end.

Fixpoint total (bs : list (Z * pbuf)) : Z := match bs with [] => 0 | (_, b) :: bs' => p_len b + total bs' end.

(** The addresses of the contents. *)
Definition spots (b : pbuf) : list Z := seqZ (p_payload b) (p_len b).
Fixpoint addrs (bs : list (Z * pbuf)) : list Z := match bs with [] => [] | (_, b) :: bs' => spots b ++ addrs bs' end.

(** The lengths are right: each total length is that of the rest of the chain. *)
Fixpoint lens_ok (bs : list (Z * pbuf)) : Prop :=
  match bs with
  | [] => True
  | (_, b) :: bs' => 0 <= p_len b /\ p_tot_len b = p_len b + total bs' /\ p_tot_len b < 2 ^ 16 /\ lens_ok bs'
  end.

Lemma chain_det M p bs bs' : chain M p bs -> chain M p bs' -> bs = bs'.
Proof.
  revert p bs'. induction bs as [|[a b] bs IH]; intros p [|[a' b'] bs']; cbn; [done|naive_solver..|].
  intros (->&_&E&H) (->&_&E'&H'). assert (b = b') as <- by congruence. f_equal. by eapply IH.
Qed.

Lemma pchain_app M p xs ys : chain M p (xs ++ ys) -> exists q, chain M q ys /\ (ys <> [] -> q <> 0).
Proof.
  revert p. induction xs as [|[a b] xs IH]; intros p; cbn.
  - intros H. exists p. split; [done|]. destruct ys as [|[a b] ys]; [done|]. intros _. by destruct H as (->&?&_).
  - intros (_&_&_&H). by eapply IH.
Qed.

Lemma chain_nodup M p bs : chain M p bs -> NoDup bs.*1.
Proof.
  revert p. induction bs as [|[a b] bs IH]; intros p; cbn; [constructor|]. intros (->&Ha&E&H).
  constructor; [|by eapply IH]. intros Hin. apply list_elem_of_fmap in Hin as ([a' b']&E'&Hin). cbn in E'. subst a'.
  apply list_elem_of_split in Hin as (xs&ys&->). destruct (pchain_app _ _ _ _ H) as (q&Hq&_).
  pose proof Hq as Hq'. cbn in Hq'. destruct Hq' as (->&_&E'&_).
  assert (Hc : chain M a ((a, b) :: xs ++ (a, b') :: ys)) by (by cbn).
  pose proof (chain_det _ _ _ _ Hc Hq) as Heq. apply (f_equal length) in Heq. cbn in Heq. rewrite length_app in Heq. cbn in Heq. lia.
Qed.

Lemma chain_in M p bs a b : chain M p bs -> (a, b) ∈ bs -> M !! a = Some b.
Proof.
  revert p. induction bs as [|[a' b'] bs IH]; intros p; cbn; [by intros _ ?%not_elem_of_nil|].
  intros (_&_&E&H) [[= <- <-]|Hin]%elem_of_cons; [done|by eapply IH].
Qed.

Lemma chain_size M p bs : chain M p bs -> (length bs <= size M)%nat.
Proof.
  intros H. rewrite <- (length_fmap fst), <- size_dom. apply submseteq_length, NoDup_submseteq; [by eapply chain_nodup|].
  intros a ([a' b]&->&Hin)%list_elem_of_fmap. apply elem_of_elements, elem_of_dom. exists b. by eapply chain_in.
Qed.

Lemma total_nneg bs : lens_ok bs -> 0 <= total bs.
Proof. induction bs as [|[a b] bs IH]; cbn; [lia|]. intros (H1&_&_&H2). specialize (IH H2). lia. Qed.

Lemma addrs_length bs : lens_ok bs -> Z.of_nat (length (addrs bs)) = total bs.
Proof.
  induction bs as [|[a b] bs IH]; cbn; [done|]. intros (H1&_&_&H2). rewrite length_app. unfold spots. rewrite length_seqZ.
  specialize (IH H2). lia.
Qed.

Lemma spots_length b : 0 <= p_len b -> Z.of_nat (length (spots b)) = p_len b.
Proof. intros H. unfold spots. rewrite length_seqZ. lia. Qed.

(** ** The basic steps *)

Lemma pb_run s p b : pbufs s !! p = Some b -> pb p s = Some (b, s).
Proof. intros E. unfold pb, try_ask. by rewrite E. Qed.

Definition with_bytes s (m : mem) : pstate A := mkP (pbufs s) m (alloc s).

Lemma copy_run dst src n s vs ds : 0 <= n -> bytes_ok (bytes s) -> read (seqZ src n) (bytes s) = Some vs ->
  read (seqZ dst n) (bytes s) = Some ds -> copy dst src n s = Some (tt, with_bytes s (blit (seqZ dst n) vs (bytes s))).
Proof. intros Hn Hok Hs Hd. unfold copy, try_update. by rewrite (memcpy_blit dst src n _ vs ds). Qed.

Lemma with_bytes_twice s m m' : with_bytes (with_bytes s m) m' = with_bytes s m'.
Proof. done. Qed.

Lemma with_bytes_id s : with_bytes s (bytes s) = s.
Proof. by destruct s. Qed.

(** ** Skipping *)

(** The buffer where an offset falls. *)
Fixpoint skip (bs : list (Z * pbuf)) (off : Z) : list (Z * pbuf) * Z :=
  match bs with
  | [] => ([], off)
  | (a, b) :: bs' => if p_len b <=? off then skip bs' (off - p_len b) else (bs, off)
  end.

Definition head_addr (bs : list (Z * pbuf)) : Z := match bs with [] => 0 | (a, _) :: _ => a end.

Lemma pchain_head M p bs : chain M p bs -> p = head_addr bs.
Proof. destruct bs as [|[a b] bs]; [done|]. by intros (->&_). Qed.

Lemma skip_loop_run fuel s p bs off : chain (pbufs s) p bs -> (length bs < fuel)%nat -> lens_ok bs -> 0 <= off < 2 ^ 16 ->
  skip_loop fuel p off s = Some ((head_addr (fst (skip bs off)), snd (skip bs off)), s) /\
  chain (pbufs s) (head_addr (fst (skip bs off))) (fst (skip bs off)).
Proof.
  revert p bs off. induction fuel as [|fuel IH]; intros p bs off Hc Hf Hl Hoff; [lia|]. cbn [skip_loop].
  destruct bs as [|[a b] bs]; cbn [skip].
  - cbn in Hc. subst p. by cbn.
  - pose proof Hc as Hc0. cbn in Hc, Hl. destruct Hc as (->&Ha&E&Hc). destruct Hl as (Hl0&_&_&Hl).
    rewrite (proj2 (Z.eqb_neq a 0)) by done. rewrite (bind_run _ _ _ _ _ (pb_run _ _ _ E)).
    destruct (Z.leb_spec (p_len b) off); [|by cbn].
    rewrite u16_small by lia. apply IH; [done|cbn in Hf; lia|done|lia].
Qed.

Lemma chain_fuel_bind {B} s (f : nat -> prog (pstate A) B) : (chain_fuel ≫= f) s = f (S (size (pbufs s))) s.
Proof. done. Qed.

Lemma pbuf_skip_run s p bs off : chain (pbufs s) p bs -> lens_ok bs -> 0 <= off < 2 ^ 16 ->
  pbuf_skip p off s = Some ((head_addr (fst (skip bs off)), snd (skip bs off)), s) /\
  chain (pbufs s) (head_addr (fst (skip bs off))) (fst (skip bs off)).
Proof.
  intros Hc Hl Ho. unfold pbuf_skip. rewrite chain_fuel_bind. apply skip_loop_run; [done| |done|done].
  pose proof (chain_size _ _ _ Hc). lia.
Qed.

(** Skipping is dropping: either the offset is behind the end, or it falls into
    the first buffer of what is left. *)
Lemma skip_spec bs off : lens_ok bs -> 0 <= off ->
  lens_ok (fst (skip bs off)) /\ 0 <= snd (skip bs off) <= off /\
  addrs (fst (skip bs off)) = drop (Z.to_nat (off - snd (skip bs off))) (addrs bs) /\
  match fst (skip bs off) with
  | [] => total bs <= off
  | (_, b) :: _ => snd (skip bs off) < p_len b /\ off - snd (skip bs off) + total (fst (skip bs off)) = total bs
  end.
Proof.
  revert off. induction bs as [|[a b] bs IH]; intros off Hl Ho; cbn [skip].
  - cbn. split_and!; try done || lia. by rewrite drop_nil.
  - cbn in Hl. destruct Hl as (H1&H2&H3&H4). destruct (Z.leb_spec (p_len b) off) as [Hle|Hgt].
    + destruct (IH (off - p_len b) H4 ltac:(lia)) as (I1&I2&I3&I4). split; [done|]. split; [lia|]. split.
      * rewrite I3. cbn [addrs]. pose proof (spots_length b H1). rewrite drop_app_ge by lia. f_equal. lia.
      * cbn [total]. destruct (fst (skip bs (off - p_len b))) as [|[a' b'] ?]; lia.
    + cbn [fst snd]. split; [by cbn|]. split; [lia|]. rewrite Z.sub_diag. split; [done|]. lia.
Qed.

(** ** Copying out of a packet *)

Lemma copy_partial_loop_run fuel s p bs dst left len off tot ds old : chain (pbufs s) p bs -> (length bs < fuel)%nat -> lens_ok bs ->
  0 <= off < 2 ^ 16 -> 0 <= len -> 0 <= left -> left + len < 2 ^ 16 -> 0 <= tot -> tot + len < 2 ^ 16 -> bytes_ok (bytes s) ->
  read (addrs bs) (bytes s) = Some ds -> read (seqZ (dst + left) len) (bytes s) = Some old ->
  (forall a, a ∈ addrs bs -> a ∉ seqZ (dst + left) len) ->
  let out := take (Z.to_nat len) (drop (Z.to_nat off) ds) in
  copy_partial_loop fuel p dst left len off tot s =
    Some (tot + Z.of_nat (length out), with_bytes s (blit (seqZ (dst + left) (Z.of_nat (length out))) out (bytes s))).
Proof.
  revert s p bs left len off tot ds old. induction fuel as [|fuel IH];
    intros s p bs left len off tot ds old Hc Hf Hl Hoff Hlen Hleft Hll Htot Htl Hok Hds Hold Hdj out; [lia|].
  assert (Hnil : out = [] -> Some (tot, s) =
    Some (tot + Z.of_nat (length out), with_bytes s (blit (seqZ (dst + left) (Z.of_nat (length out))) out (bytes s)))).
  { intros ->. cbn. rewrite seqZ_nil, blit_nil, with_bytes_id by done. by rewrite Z.add_0_r. }
  cbn [copy_partial_loop]. destruct (Z.eqb_spec len 0) as [->|Hlen0]; [by apply Hnil|]. cbn [orb].
  destruct bs as [|[a b] bs].
  { cbn in Hc. subst p. cbn in Hds. injection Hds as <-. apply Hnil. unfold out. by rewrite drop_nil, take_nil. }
  cbn [chain lens_ok addrs] in *. destruct Hc as (->&Ha&E&Hc). destruct Hl as (Hb0&Hbt&Hb16&Hl).
  pose proof (total_nneg _ Hl) as Htn. rewrite (proj2 (Z.eqb_neq a 0)) by done. rewrite (bind_run _ _ _ _ _ (pb_run _ _ _ E)).
  apply read_app_Some in Hds as (vs&ws&->&Hvs&Hws). pose proof (read_length _ _ _ Hvs) as Hlv. pose proof (spots_length b Hb0) as Hsl.
  cbn in Hf. destruct (negb (off =? 0) && (p_len b <=? off)) eqn:Eskip.
  - apply andb_true_iff in Eskip as [_ Hle%Z.leb_le]. rewrite u16_small by lia.
    rewrite (IH s (p_next b) bs left len (off - p_len b) tot ws old); [|done|lia|done|lia..|done|done|done|intros x Hx; apply Hdj, elem_of_app; by right].
    assert (Eo : out = take (Z.to_nat len) (drop (Z.to_nat (off - p_len b)) ws)).
    { unfold out. rewrite drop_app_ge by lia. do 2 f_equal. lia. }
    by rewrite Eo.
  - assert (Hin : off <= p_len b).
    { apply andb_false_iff in Eskip as [?%negb_false_iff%Z.eqb_eq|?%Z.leb_gt]; lia. }
    rewrite (u16_small (p_len b - off)) by lia. set (k := if len <? p_len b - off then len else p_len b - off).
    assert (Hk : 0 <= k /\ k <= len /\ off + k <= p_len b /\ (k = len \/ k = p_len b - off)).
    { unfold k. destruct (Z.ltb_spec len (p_len b - off)); lia. }
    clearbody k. destruct Hk as (Hk0&Hk1&Hk2&Hk3).
    pose proof (read_sub _ _ off k _ _ Hvs ltac:(lia) Hk0 Hk2) as Hsrc.
    pose proof (read_sub _ _ 0 k _ _ Hold ltac:(lia) Hk0 ltac:(lia)) as Hdst. rewrite Z.add_0_r in Hdst.
    rewrite (bind_run _ _ _ _ _ (copy_run _ _ _ _ _ _ Hk0 Hok Hsrc Hdst)).
    set (out1 := take (Z.to_nat k) (drop (Z.to_nat off) vs)) in *.
    assert (Hl1 : Z.of_nat (length out1) = k) by (unfold out1; rewrite length_take, length_drop; lia).
    assert (Hdj1 : forall x, x ∈ addrs bs -> x ∉ seqZ (dst + left) k).
    { intros x Hx Hx'. apply (Hdj x); [apply elem_of_app; by right|]. apply elem_of_seqZ in Hx'. apply elem_of_seqZ. lia. }
    rewrite !u16_small by lia.
    assert (Hsplit : seqZ (dst + left) len = seqZ (dst + left) k ++ seqZ (dst + (left + k)) (len - k)).
    { replace len with (k + (len - k)) at 1 by lia. rewrite seqZ_app by lia. by rewrite <- Z.add_assoc. }
    rewrite Hsplit in Hold, Hdj. apply read_app_Some in Hold as (o1&o2&->&_&Ho2).
    pose proof (NoDup_seqZ (dst + left) len) as Hnd. rewrite Hsplit in Hnd. apply NoDup_app in Hnd as (_&Hnd&_).
    rewrite (IH (with_bytes s (blit (seqZ (dst + left) k) out1 (bytes s))) (p_next b) bs (left + k) (len - k) 0 (tot + k) ws o2);
      [|done|lia|done|lia..| | | |]; cbn [with_bytes bytes pbufs alloc].
    + set (out2 := take (Z.to_nat (len - k)) (drop (Z.to_nat 0) ws)).
      assert (Eo : out = out1 ++ out2).
      { unfold out, out1, out2. rewrite drop_app_le by lia. rewrite take_app. cbn [Z.to_nat drop].
        rewrite length_drop. destruct Hk3 as [->| ->].
        - f_equal. rewrite Z.sub_diag. replace (Z.to_nat len - _)%nat with 0%nat by lia. done.
        - rewrite (take_ge (drop _ vs) (Z.to_nat len)), (take_ge (drop _ vs)) by (rewrite length_drop; lia). f_equal. f_equal. lia. }
      rewrite Eo, length_app, Nat2Z.inj_add, Hl1. unfold with_bytes. cbn. do 2 f_equal; [lia|].
      rewrite seqZ_app by lia. rewrite blit_app; [by rewrite <- Z.add_assoc|rewrite length_seqZ; lia..|].
      rewrite <- seqZ_app by lia. apply NoDup_seqZ.
    + apply blit_bytes_ok; [done|]. unfold out1. apply Forall_take, Forall_drop. by eapply read_bytes_ok.
    + by rewrite read_blit_other.
    + rewrite read_blit_other; [done|]. intros x Hx Hx'. by apply (Hnd x).
    + intros x Hx Hx'. apply (Hdj x); [apply elem_of_app; by right|]. apply elem_of_app. by right.
Qed.

Lemma pbuf_copy_partial_run s p bs dst len off ds old : chain (pbufs s) p bs -> lens_ok bs -> p <> 0 -> dst <> 0 ->
  0 <= off < 2 ^ 16 -> 0 <= len < 2 ^ 16 -> bytes_ok (bytes s) -> read (addrs bs) (bytes s) = Some ds ->
  read (seqZ dst len) (bytes s) = Some old -> (forall a, a ∈ addrs bs -> a ∉ seqZ dst len) ->
  let out := take (Z.to_nat len) (drop (Z.to_nat off) ds) in
  pbuf_copy_partial p dst len off s =
    Some (Z.of_nat (length out), with_bytes s (blit (seqZ dst (Z.of_nat (length out))) out (bytes s))).
Proof.
  intros Hc Hl Hp Hd Hoff Hlen Hok Hds Hold Hdj out. unfold pbuf_copy_partial.
  rewrite (proj2 (Z.eqb_neq p 0)), (proj2 (Z.eqb_neq dst 0)) by done. cbn [orb]. rewrite chain_fuel_bind.
  pose proof (chain_size _ _ _ Hc). rewrite <- (Z.add_0_r dst) in Hold, Hdj.
  rewrite (copy_partial_loop_run _ s p bs dst 0 len off 0 ds old); [by rewrite Z.add_0_r|done|lia|done|lia..|done|done|done|done].
Qed.

(** ** Copying into a packet *)

Lemma take_loop_run fuel s p bs src len pos old vs : chain (pbufs s) p bs -> (length bs < fuel)%nat -> lens_ok bs ->
  0 <= len <= total bs -> bytes_ok (bytes s) -> NoDup (addrs bs) -> read (addrs bs) (bytes s) = Some old ->
  read (seqZ (src + pos) len) (bytes s) = Some vs -> (forall a, a ∈ addrs bs -> a ∉ seqZ (src + pos) len) ->
  take_loop fuel p src len pos s = Some (tt, with_bytes s (blit (take (Z.to_nat len) (addrs bs)) vs (bytes s))).
Proof.
  revert s p bs len pos old vs. induction fuel as [|fuel IH];
    intros s p bs len pos old vs Hc Hf Hl Hlen Hok Hnd Hold Hvs Hdj; [lia|].
  cbn [take_loop]. destruct (Z.eqb_spec len 0) as [->|Hlen0].
  { cbn [Z.to_nat take]. by rewrite blit_nil, with_bytes_id. }
  destruct bs as [|[a b] bs]; [cbn in Hlen; lia|].
  cbn [chain lens_ok addrs total] in *. destruct Hc as (->&Ha&E&Hc). destruct Hl as (Hb0&Hbt&Hb16&Hl).
  rewrite (bind_run _ _ _ _ _ (pb_run _ _ _ E)). set (k := Z.min len (p_len b)).
  assert (Hk : 0 <= k /\ k <= len /\ k <= p_len b /\ (k = len \/ k = p_len b)) by (unfold k; lia).
  clearbody k. destruct Hk as (Hk0&Hk1&Hk2&Hk3).
  apply read_app_Some in Hold as (o1&o2&->&Ho1&Ho2). pose proof (spots_length b Hb0) as Hsl.
  pose proof (read_length _ _ _ Hvs) as Hlv. rewrite length_seqZ in Hlv.
  pose proof (read_sub _ _ 0 k _ _ Hvs ltac:(lia) Hk0 ltac:(lia)) as Hsrc. rewrite Z.add_0_r in Hsrc.
  pose proof (read_sub _ _ 0 k _ _ Ho1 ltac:(lia) Hk0 ltac:(lia)) as Hdst. rewrite Z.add_0_r in Hdst.
  rewrite (bind_run _ _ _ _ _ (copy_run _ _ _ _ _ _ Hk0 Hok Hsrc Hdst)).
  pose proof (seqZ_sub (p_payload b) (p_len b) 0 k ltac:(lia) Hk0 ltac:(lia)) as Hspots. rewrite Z.add_0_r in Hspots.
  change (Z.to_nat 0) with 0%nat in *. rewrite drop_0 in Hsrc, Hdst, Hspots |- *. pose proof (total_nneg _ Hl) as Htn.
  apply NoDup_app in Hnd as (Hnd1&Hnd2&Hnd3). cbn in Hf.
  assert (Hin : forall x, x ∈ seqZ (p_payload b) k -> x ∈ spots b).
  { intros x Hx. unfold spots. apply elem_of_seqZ in Hx. apply elem_of_seqZ. lia. }
  assert (Hrest : seqZ (src + pos) len = seqZ (src + pos) k ++ seqZ (src + (pos + k)) (len - k)).
  { replace len with (k + (len - k)) at 1 by lia. rewrite seqZ_app by lia. by rewrite <- Z.add_assoc. }
  pose proof (read_sub _ _ k (len - k) _ _ Hvs Hk0 ltac:(lia) ltac:(lia)) as Hvs2. rewrite <- Z.add_assoc in Hvs2.
  rewrite (take_ge (drop _ vs)) in Hvs2 by (rewrite length_drop; lia).
  rewrite (IH _ (p_next b) bs (len - k) (pos + k) o2 (drop (Z.to_nat k) vs)); [|done|lia|done|lia| |done| | |]; cbn [with_bytes bytes pbufs alloc].
  - do 2 f_equal. unfold with_bytes. cbn. f_equal. rewrite <- blit_app.
    + f_equal; [|by rewrite take_drop]. rewrite take_app. fold (spots b) in Hspots. destruct Hk3 as [->| ->].
      * rewrite Z.sub_diag. replace (Z.to_nat len - length (spots b))%nat with 0%nat by lia. by rewrite <- Hspots.
      * rewrite (take_ge (spots b)) by lia. unfold spots at 1. do 2 f_equal. lia.
    + rewrite length_seqZ, length_take. lia.
    + rewrite length_take, length_drop. pose proof (addrs_length bs Hl). lia.
    + apply NoDup_app. split; [apply NoDup_seqZ|]. split; [|by eapply sublist_NoDup, sublist_take].
      intros x Hx Hx2. apply (Hnd2 x); [by apply Hin|]. by apply (subseteq_take (Z.to_nat (len - k))).
  - apply blit_bytes_ok; [done|]. apply Forall_take. by eapply read_bytes_ok.
  - rewrite read_blit_other; [done|]. intros x Hx Hx2. apply (Hnd2 x); [by apply Hin|done].
  - rewrite read_blit_other; [done|]. intros x Hx Hx2. apply (Hdj x); [apply elem_of_app; left; by apply Hin|].
    rewrite Hrest. apply elem_of_app. by right.
  - intros x Hx Hx2. apply (Hdj x); [apply elem_of_app; by right|]. rewrite Hrest. apply elem_of_app. by right.
Qed.

Lemma pbuf_take_run s p bs src len old vs : chain (pbufs s) p bs -> lens_ok bs -> p <> 0 -> src <> 0 -> 0 <= len <= total bs ->
  bytes_ok (bytes s) -> NoDup (addrs bs) -> read (addrs bs) (bytes s) = Some old -> read (seqZ src len) (bytes s) = Some vs ->
  (forall a, a ∈ addrs bs -> a ∉ seqZ src len) ->
  pbuf_take p src len s = Some (ERR_OK, with_bytes s (blit (take (Z.to_nat len) (addrs bs)) vs (bytes s))).
Proof.
  intros Hc Hl Hp Hsrc Hlen Hok Hnd Hold Hvs Hdj. unfold pbuf_take.
  rewrite (proj2 (Z.eqb_neq p 0)), (proj2 (Z.eqb_neq src 0)) by done. cbn [orb].
  destruct bs as [|[a b] bs]; [done|]. pose proof Hc as Hc0. pose proof Hl as Hl0. cbn in Hc0, Hl0.
  destruct Hc0 as (->&_&E&_). destruct Hl0 as (_&Ht&_&_). rewrite (bind_run _ _ _ _ _ (pb_run _ _ _ E)).
  cbn [total] in Hlen. rewrite (proj2 (Z.ltb_ge _ _)) by lia. rewrite chain_fuel_bind.
  pose proof (chain_size _ _ _ Hc). rewrite <- (Z.add_0_r src) in Hvs, Hdj.
  rewrite (bind_run _ _ _ _ _ (take_loop_run (S (size (pbufs s))) s a ((a, b) :: bs) src len 0 old vs Hc ltac:(lia) Hl Hlen Hok Hnd Hold Hvs Hdj)).
  done.
Qed.

Lemma sub_in (n k : nat) (l : list Z) x : x ∈ take n (drop k l) -> x ∈ l.
Proof. intros Hx. by apply (subseteq_drop k), (subseteq_take n). Qed.

(** The contents from an offset on. *)
Lemma skip_addrs bs off : lens_ok bs -> 0 <= off ->
  drop (Z.to_nat off) (addrs bs) = drop (Z.to_nat (snd (skip bs off))) (addrs (fst (skip bs off))).
Proof.
  intros Hl Ho. destruct (skip_spec bs off Hl Ho) as (_&H1&H2&_). rewrite H2, drop_drop. f_equal. lia.
Qed.

Lemma pbuf_take_at_run s p bs src len off old vs : chain (pbufs s) p bs -> lens_ok bs -> 0 < src -> 0 <= off < 2 ^ 16 -> 0 <= len < 2 ^ 16 ->
  bytes_ok (bytes s) -> NoDup (addrs bs) -> read (addrs bs) (bytes s) = Some old -> read (seqZ src len) (bytes s) = Some vs ->
  (forall a, a ∈ addrs bs -> a ∉ seqZ src len) ->
  pbuf_take_at p src len off s =
    if decide (off < total bs /\ off + len <= total bs)
    then Some (ERR_OK, with_bytes s (blit (take (Z.to_nat len) (drop (Z.to_nat off) (addrs bs))) vs (bytes s)))
    else Some (ERR_MEM, s).
Proof.
  intros Hc Hl Hsrc Hoff Hlen Hok Hnd Hold Hvs Hdj. unfold pbuf_take_at.
  destruct (pbuf_skip_run s p bs off Hc Hl Hoff) as [Hrun Hc']. rewrite (bind_run _ _ _ _ _ Hrun).
  destruct (skip_spec bs off Hl ltac:(lia)) as (Hl'&Ht&Ha&Hcase). rewrite (skip_addrs bs off Hl ltac:(lia)).
  destruct (skip bs off) as [bs' t]. cbn [fst snd] in *. destruct bs' as [|[a b] rest].
  { cbn. rewrite decide_False by lia. done. }
  cbn [head_addr chain lens_ok total addrs] in *. destruct Hc' as (_&Hane&E&Hc'). destruct Hl' as (Hb0&Hbt&Hb16&Hl').
  destruct Hcase as [Htb Htot]. rewrite (proj2 (Z.eqb_neq a 0)) by done. rewrite (bind_run _ _ _ _ _ (pb_run _ _ _ E)).
  pose proof (total_nneg _ Hl') as Htn.
  destruct (Z.ltb_spec (p_tot_len b) (t + len)) as [Hshort|Hfit]; [rewrite decide_False by lia; done|]. rewrite decide_True by lia.
  set (k := Z.min (p_len b - t) len). assert (Hk : 0 <= k /\ k <= len /\ t + k <= p_len b /\ (k = len \/ k = p_len b - t)) by (unfold k; lia).
  clearbody k. destruct Hk as (Hk0&Hk1&Hk2&Hk3). rewrite (u16_small k) by lia.
  pose proof (spots_length b Hb0) as Hsl. pose proof (read_length _ _ _ Hvs) as Hlv. rewrite length_seqZ in Hlv.
  assert (Hsub : forall x, x ∈ spots b ++ addrs rest -> x ∈ addrs bs) by (intros x; rewrite Ha; apply subseteq_drop).
  assert (Hnd' : NoDup (spots b ++ addrs rest)) by (rewrite Ha; eapply sublist_NoDup; [exact Hnd|apply sublist_drop]).
  pose proof (read_drop (Z.to_nat (off - t)) _ _ _ Hold) as Hold'. rewrite <- Ha in Hold'.
  apply read_app_Some in Hold' as (o1&o2&_&Ho1&Ho2).
  pose proof (read_sub _ _ t k _ _ Ho1 ltac:(lia) Hk0 Hk2) as Hdst.
  pose proof (read_sub _ _ 0 k _ _ Hvs ltac:(lia) Hk0 ltac:(lia)) as Hs1. rewrite Z.add_0_r in Hs1.
  rewrite (bind_run _ _ _ _ _ (copy_run _ _ _ _ _ _ Hk0 Hok Hs1 Hdst)). change (Z.to_nat 0) with 0%nat. rewrite drop_0.
  pose proof (seqZ_sub (p_payload b) (p_len b) t k ltac:(lia) Hk0 Hk2) as Hspots. fold (spots b) in Hspots.
  assert (Hin : forall x, x ∈ seqZ (p_payload b + t) k -> x ∈ spots b) by (intros x; rewrite <- Hspots; apply sub_in).
  apply NoDup_app in Hnd' as (Hnd1&Hnd2&Hnd3). rewrite drop_app_le by lia. rewrite u16_small by lia.
  destruct (Z.ltb_spec 0 (len - k)) as [Hmore|Hdone].
  - assert (k = p_len b - t) as -> by lia.
    assert (Hrest : take (Z.to_nat len) (drop (Z.to_nat t) (spots b) ++ addrs rest) =
      seqZ (p_payload b + t) (p_len b - t) ++ take (Z.to_nat (len - (p_len b - t))) (addrs rest)).
    { rewrite take_app, length_drop. rewrite take_ge by (rewrite length_drop; lia). f_equal; [|f_equal; lia].
      rewrite <- Hspots. by rewrite take_ge by (rewrite length_drop; lia). }
    rewrite Hrest. pose proof (read_sub _ _ (p_len b - t) (len - (p_len b - t)) _ _ Hvs Hk0 ltac:(lia) ltac:(lia)) as Hvs2.
    rewrite (take_ge (drop _ vs)) in Hvs2 by (rewrite length_drop; lia).
    rewrite (pbuf_take_run _ (p_next b) rest (src + (p_len b - t)) (len - (p_len b - t)) o2 (drop (Z.to_nat (p_len b - t)) vs)); [|done|done| |lia|lia| |done| | |];
      cbn [with_bytes bytes pbufs alloc].
    + do 2 f_equal. unfold with_bytes. cbn. f_equal. rewrite <- blit_app; [by rewrite take_drop|rewrite length_seqZ, length_take; lia| |].
      * rewrite length_take, length_drop. pose proof (addrs_length _ Hl'). lia.
      * apply NoDup_app. split; [apply NoDup_seqZ|]. split; [|by eapply sublist_NoDup, sublist_take].
        intros x Hx Hx2. apply (Hnd2 x); [by apply Hin|]. by apply (subseteq_take (Z.to_nat (len - (p_len b - t)))).
    + destruct rest as [|[a' b'] rest]; [cbn in Hbt; lia|]. by destruct Hc' as (->&?&_).
    + apply blit_bytes_ok; [done|]. apply Forall_take. by eapply read_bytes_ok.
    + rewrite read_blit_other; [done|]. intros x Hx Hx2. apply (Hnd2 x); [by apply Hin|done].
    + rewrite read_blit_other; [done|]. intros x Hx Hx2. apply (Hdj x); [apply Hsub, elem_of_app; left; by apply Hin|].
      apply elem_of_seqZ in Hx. apply elem_of_seqZ. lia.
    + intros x Hx Hx2. apply (Hdj x); [apply Hsub, elem_of_app; by right|]. apply elem_of_seqZ in Hx2. apply elem_of_seqZ. lia.
  - assert (k = len) as -> by lia. rewrite take_app_le by (rewrite length_drop; lia). rewrite Hspots. rewrite (take_ge vs) by lia. done.
Qed.

(** ** Looking into a packet *)

Lemma pbuf_get_at_run s p bs off ds : chain (pbufs s) p bs -> lens_ok bs -> 0 <= off < 2 ^ 16 -> bytes_ok (bytes s) ->
  read (addrs bs) (bytes s) = Some ds -> pbuf_get_at p off s = Some (default 0 (ds !! Z.to_nat off), s).
Proof.
  intros Hc Hl Hoff Hok Hds. unfold pbuf_get_at, pbuf_try_get_at. rewrite bind_assoc_run.
  destruct (pbuf_skip_run s p bs off Hc Hl Hoff) as [Hrun Hc']. rewrite (bind_run _ _ _ _ _ Hrun).
  destruct (skip_spec bs off Hl ltac:(lia)) as (Hl'&Ht&_&Hcase). pose proof (skip_addrs bs off Hl ltac:(lia)) as Ha.
  pose proof (read_length _ _ _ Hds) as Hlen. pose proof (addrs_length bs Hl) as Htl.
  destruct (skip bs off) as [bs' t]. cbn [fst snd] in *. destruct bs' as [|[a b] rest].
  - cbn. rewrite lookup_ge_None_2 by lia. done.
  - cbn [head_addr chain lens_ok total addrs] in *. destruct Hc' as (_&Hane&E&_). destruct Hl' as (Hb0&_&_&_). destruct Hcase as [Htb _].
    rewrite (proj2 (Z.eqb_neq a 0)) by done. rewrite bind_assoc_run, (bind_run _ _ _ _ _ (pb_run _ _ _ E)).
    rewrite (proj2 (Z.ltb_lt _ _)) by lia.
    assert (Hat : addrs bs !! Z.to_nat off = Some (p_payload b + t)).
    { rewrite <- (Nat.add_0_r (Z.to_nat off)), <- lookup_drop, Ha, lookup_drop, Nat.add_0_r.
      pose proof (spots_length b Hb0). rewrite lookup_app_l by lia. unfold spots. rewrite lookup_seqZ. lia. }
    pose proof (read_lookup _ _ _ _ _ Hds Hat) as Hv.
    destruct (lookup_lt_is_Some_2 ds (Z.to_nat off)) as [v Ev]; [rewrite Hlen; by eapply lookup_lt_Some|].
    rewrite Ev in Hv |- *. unfold byte_at. rewrite (try_ask_bind _ _ _ v) by done. pose proof (Hok _ _ Hv) as Hb. unfold byte_ok in Hb.
    rewrite (proj2 (Z.leb_le 0 v)), u8_small by lia. done.
Qed.

(** Where two lists of bytes differ first, counted from 1, and 0 if they agree. *)
Fixpoint mismatch (xs ys : list Z) (i : Z) : Z :=
  match xs, ys with
  | x :: xs', y :: ys' => if x =? y then mismatch xs' ys' (i + 1) else Z.min (i + 1) 0xFFFF
  | _, _ => 0
  end.

Lemma mismatch_0 xs ys i : 0 <= i -> length xs = length ys -> mismatch xs ys i = 0 <-> xs = ys.
Proof.
  revert ys i. induction xs as [|x xs IH]; intros [|y ys] i Hi Hl; cbn in *; [done..|].
  destruct (Z.eqb_spec x y) as [->|Hne].
  - rewrite IH by lia. split; [by intros ->|congruence].
  - split; [lia|congruence].
Qed.

Lemma memcmp_loop_run k s q bs start pt i ds pat : chain (pbufs s) q bs -> lens_ok bs -> 0 <= start -> 0 <= i ->
  start + i + Z.of_nat k <= total bs -> total bs < 2 ^ 16 -> bytes_ok (bytes s) -> read (addrs bs) (bytes s) = Some ds ->
  read (seqZ (pt + i) (Z.of_nat k)) (bytes s) = Some pat ->
  memcmp_loop k q start pt i s = Some (mismatch (take k (drop (Z.to_nat (start + i)) ds)) pat i, s).
Proof.
  intros Hc Hl. revert i pat. induction k as [|k IH]; intros i pat Hst Hi Hfit H16 Hok Hds Hpat; [done|].
  rewrite seqZ_cons in Hpat by lia. unfold read in Hpat. cbn [mapM] in Hpat.
  apply bind_Some_inv in Hpat as (y&Hy&(pat'&Hpat&[= <-])%bind_Some_inv).
  pose proof (read_length _ _ _ Hds) as Hlen. pose proof (addrs_length bs Hl) as Htl.
  destruct (lookup_lt_is_Some_2 ds (Z.to_nat (start + i)) ltac:(lia)) as [x Hx].
  cbn [memcmp_loop]. rewrite (u16_small (start + i)) by lia.
  rewrite (bind_run _ _ _ _ _ (pbuf_get_at_run s q bs (start + i) ds Hc Hl ltac:(lia) Hok Hds)). rewrite Hx. cbn [default]. unfold id.
  unfold byte_at. rewrite (try_ask_bind _ _ _ y) by done.
  rewrite (drop_S _ _ _ Hx). cbn [take mismatch]. destruct (x =? y) eqn:Exy; cbn [negb].
  - rewrite (IH (i + 1) pat'); [|lia|lia|lia|done|done|done|].
    + do 3 f_equal. f_equal. f_equal. lia.
    + replace (pt + (i + 1)) with (Z.succ (pt + i)) by lia. replace (Z.of_nat k) with (Z.pred (Z.of_nat (S k))) by lia. exact Hpat.
  - by rewrite u16_small by lia.
Qed.

Lemma pbuf_memcmp_run s p bs off pt n ds pat : chain (pbufs s) p bs -> lens_ok bs -> bs <> [] -> 0 <= off < 2 ^ 16 -> 0 <= n ->
  bytes_ok (bytes s) -> read (addrs bs) (bytes s) = Some ds -> read (seqZ pt n) (bytes s) = Some pat ->
  pbuf_memcmp p off pt n s =
    Some (if total bs <? off + n then 0xFFFF else mismatch (take (Z.to_nat n) (drop (Z.to_nat off) ds)) pat 0, s).
Proof.
  intros Hc Hl Hne Hoff Hn Hok Hds Hpat. destruct bs as [|[a b] rest]; [done|]. unfold pbuf_memcmp.
  pose proof Hc as Hc0. pose proof Hl as Hl0. cbn in Hc0, Hl0. destruct Hc0 as (->&_&E&_). destruct Hl0 as (_&Ht&H16&_).
  rewrite (bind_run _ _ _ _ _ (pb_run _ _ _ E)), Ht. cbn [total]. destruct (Z.ltb_spec (p_len b + total rest) (off + n)) as [|Hfit]; [done|].
  destruct (pbuf_skip_run s a _ off Hc Hl Hoff) as [Hrun Hc']. rewrite (bind_run _ _ _ _ _ Hrun).
  destruct (skip_spec _ off Hl ltac:(lia)) as (Hl'&Htt&Ha&Hcase).
  set (bs := (a, b) :: rest) in *. assert (Htot : p_len b + total rest = total bs) by done.
  destruct (skip bs off) as [bs' t]. cbn [fst snd] in *.
  pose proof (read_drop (Z.to_nat (off - t)) _ _ _ Hds) as Hds'. rewrite <- Ha in Hds'.
  assert (Hd : drop (Z.to_nat off) ds = drop (Z.to_nat t) (drop (Z.to_nat (off - t)) ds)) by (rewrite drop_drop; f_equal; lia).
  destruct (decide (n = 0)) as [->|Hn0]; [done|].
  assert (Hb' : off - t + total bs' = total bs) by (destruct bs' as [|[a' b'] r]; lia).
  rewrite <- (Z.add_0_r pt) in Hpat. rewrite <- (Z2Nat.id n) in Hpat by lia.
  rewrite (memcmp_loop_run (Z.to_nat n) s _ bs' t pt 0 (drop (Z.to_nat (off - t)) ds) pat Hc' Hl'); [|lia..|done|done|done].
  by rewrite Z.add_0_r, Hd.
Qed.

(** *** Searching *)

Definition occurs (ds pat : list Z) (i : Z) : Prop := take (length pat) (drop (Z.to_nat i) ds) = pat.

(** The result of a search from [start]: the first place where the pattern occurs
    or 0xFFFF. *)
Definition first_occurrence (ds pat : list Z) (start r : Z) : Prop :=
  (start <= r /\ r + Z.of_nat (length pat) <= Z.of_nat (length ds) /\ occurs ds pat r /\ (forall j, start <= j < r -> ~ occurs ds pat j)) \/
  (r = 0xFFFF /\ forall j, start <= j -> j + Z.of_nat (length pat) <= Z.of_nat (length ds) -> ~ occurs ds pat j).

Lemma memfind_loop_run fuel s p bs mem_ start i n ds pat : chain (pbufs s) p bs -> lens_ok bs -> bs <> [] -> bytes_ok (bytes s) ->
  read (addrs bs) (bytes s) = Some ds -> read (seqZ mem_ n) (bytes s) = Some pat -> 0 <= n -> 0 <= start <= i -> i <= total bs - n + 1 ->
  n <= total bs < 2 ^ 16 -> (forall j, start <= j < i -> ~ occurs ds pat j) -> i < 2 ^ 16 ->
  (Z.to_nat (total bs - n + 1 - i) < fuel)%nat ->
  exists r, memfind_loop fuel p mem_ n (total bs - n) i s = Some (r, s) /\ first_occurrence ds pat start r.
Proof.
  revert i. induction fuel as [|fuel IH]; intros i Hc Hl Hne Hok Hds Hpat Hn Hi Hil Htot Hbefore Hi16 Hf; [lia|]. cbn [memfind_loop].
  pose proof (read_length _ _ _ Hpat) as Hlp. rewrite length_seqZ in Hlp.
  pose proof (read_length _ _ _ Hds) as Hld. pose proof (addrs_length bs Hl) as Htl.
  destruct (Z.leb_spec i (total bs - n)) as [Hle|Hgt].
  - rewrite (bind_run _ _ _ _ _ (pbuf_memcmp_run s p bs i mem_ n ds pat Hc Hl Hne ltac:(lia) Hn Hok Hds Hpat)).
    rewrite (proj2 (Z.ltb_ge _ _)) by lia. set (r := mismatch _ _ _).
    assert (Hr : r = 0 <-> occurs ds pat i).
    { unfold r, occurs. rewrite mismatch_0; [by rewrite Hlp|lia|]. rewrite length_take, length_drop. lia. }
    destruct (Z.eqb_spec r 0) as [E|E].
    + exists i. split; [done|]. left. split_and!; [lia|lia|by apply Hr|done].
    + assert (Hno : ~ occurs ds pat i) by (intros Ho; by apply E, Hr).
      assert (n <> 0). { intros ->. apply Hno. unfold occurs. by rewrite (nil_length_inv pat) by lia. }
      rewrite u16_small by lia. apply IH; try done; try lia. intros j Hj. destruct (decide (j = i)) as [->|]; [done|]. apply Hbefore. lia.
  - exists 0xFFFF. split; [done|]. right. split; [done|]. intros j Hj Hjl. apply Hbefore. lia.
Qed.

Lemma pbuf_memfind_run s p bs mem_ start n ds pat : chain (pbufs s) p bs -> lens_ok bs -> bs <> [] -> bytes_ok (bytes s) ->
  read (addrs bs) (bytes s) = Some ds -> read (seqZ mem_ n) (bytes s) = Some pat -> 0 <= n < 2 ^ 16 -> 0 <= start < 2 ^ 16 ->
  exists r, pbuf_memfind p mem_ n start s = Some (r, s) /\ first_occurrence ds pat start r.
Proof.
  intros Hc Hl Hne Hok Hds Hpat Hn Hst. destruct bs as [|[a b] rest]; [done|]. unfold pbuf_memfind.
  pose proof Hc as Hc0. pose proof Hl as Hl0. cbn in Hc0, Hl0. destruct Hc0 as (->&_&E&_). destruct Hl0 as (H0&Ht&H16&Hl0).
  pose proof (total_nneg _ Hl0) as Htn.
  rewrite (bind_run _ _ _ _ _ (pb_run _ _ _ E)), Ht. set (bs := (a, b) :: rest) in *.
  assert (Htot : p_len b + total rest = total bs) by done. rewrite Htot in *.
  pose proof (read_length _ _ _ Hpat) as Hlp. rewrite length_seqZ in Hlp.
  pose proof (read_length _ _ _ Hds) as Hld. pose proof (addrs_length bs Hl) as Htl.
  destruct (Z.leb_spec (n + start) (total bs)) as [Hfit|Hlong].
  - rewrite u16_small by lia.
    apply (memfind_loop_run _ s a bs mem_ start start n ds pat); try done; lia.
  - exists 0xFFFF. split; [done|]. right. split; [done|]. intros j Hj Hjl. lia.
Qed.

Lemma strlen_loop_run fuel s a n str : Forall (fun c => c <> 0) str -> 0 <= n ->
  read (seqZ (a + n) (Z.of_nat (length str) + 1)) (bytes s) = Some (str ++ [0]) -> (length str < fuel)%nat ->
  strlen_loop fuel a n s = Some (n + Z.of_nat (length str), s).
Proof.
  revert n str. induction fuel as [|fuel IH]; intros n str Hnz Hn Hr Hf; [lia|]. cbn [strlen_loop].
  rewrite seqZ_cons in Hr by lia. unfold read in Hr. cbn [mapM] in Hr.
  apply bind_Some_inv in Hr as (c&Hc&(rest&Hr&E)%bind_Some_inv). unfold byte_at. rewrite (try_ask_bind _ _ _ c) by done.
  destruct str as [|d str]; injection E as -> Erest.
  - cbn. by rewrite Z.add_0_r.
  - apply Forall_cons in Hnz as [Hd Hnz]. rewrite (proj2 (Z.eqb_neq d 0)) by done. subst rest.
    rewrite (IH (n + 1) str); [cbn [length]; do 2 f_equal; lia|done|lia| |cbn in Hf; lia].
    replace (a + (n + 1)) with (Z.succ (a + n)) by lia. cbn [length] in Hr.
    replace (Z.of_nat (length str) + 1) with (Z.pred (Z.of_nat (S (length str)) + 1)) by lia. exact Hr.
Qed.

Lemma read_size ads m ds : NoDup ads -> read ads m = Some ds -> (length ads <= size m)%nat.
Proof.
  intros Hn Hr. rewrite <- size_dom. apply submseteq_length, NoDup_submseteq; [done|].
  intros a [i Hi]%list_elem_of_lookup. apply elem_of_elements, elem_of_dom. rewrite (read_lookup _ _ _ _ _ Hr Hi).
  apply lookup_lt_is_Some. rewrite (read_length _ _ _ Hr). by eapply lookup_lt_Some.
Qed.

(** [pbuf_strstr] returns the first place where the string occurs in the
    packet, also across the borders of buffers, and 0xFFFF if it occurs nowhere. *)
Theorem pbuf_strstr_first s p bs substr str ds : chain (pbufs s) p bs -> lens_ok bs -> bs <> [] -> bytes_ok (bytes s) ->
  read (addrs bs) (bytes s) = Some ds -> substr <> 0 -> str <> [] -> Forall (fun c => c <> 0) str ->
  read (seqZ substr (Z.of_nat (length str) + 1)) (bytes s) = Some (str ++ [0]) ->
  Z.of_nat (length ds) < 0xFFFF -> Z.of_nat (length str) < 0xFFFF ->
  exists r, pbuf_strstr p substr s = Some (r, s) /\ first_occurrence ds str 0 r.
Proof.
  intros Hc Hl Hne Hok Hds Hsub Hstr Hnz Hr Hd16 Hs16. unfold pbuf_strstr. rewrite (proj2 (Z.eqb_neq substr 0)) by done.
  assert (Hsz : (length str < S (size (bytes s)))%nat).
  { pose proof (read_size _ _ _ (NoDup_seqZ _ _) Hr) as Hs. rewrite length_seqZ in Hs. lia. }
  assert (Hpat : read (seqZ substr (Z.of_nat (length str))) (bytes s) = Some str).
  { pose proof (read_sub _ _ 0 (Z.of_nat (length str)) _ _ Hr ltac:(lia) ltac:(lia) ltac:(lia)) as Hp. rewrite Z.add_0_r in Hp.
    rewrite Hp, Nat2Z.id. change (Z.to_nat 0) with 0%nat. by rewrite drop_0, take_app_length. }
  destruct str as [|c0 str0] eqn:Estr; [done|]. rewrite <- Estr in *.
  assert (Hfirst : bytes s !! substr = Some c0).
  { rewrite (read_lookup _ _ _ 0 substr Hpat); [by rewrite Estr|]. apply lookup_seqZ. rewrite Estr. cbn. lia. }
  unfold byte_at. rewrite (try_ask_bind _ _ _ c0) by done. assert (Hc0 : c0 <> 0) by (rewrite Estr in Hnz; by apply Forall_cons in Hnz as [? _]).
  rewrite (proj2 (Z.eqb_neq c0 0)) by done. destruct bs as [|[a b] rest]; [done|].
  pose proof Hc as Hc1. pose proof Hl as Hl1. cbn in Hc1, Hl1. destruct Hc1 as (->&_&E&_). destruct Hl1 as (_&Ht&_&_).
  rewrite (bind_run _ _ _ _ _ (pb_run _ _ _ E)). pose proof (read_length _ _ _ Hds) as Hld. pose proof (addrs_length _ Hl) as Htl. cbn [total] in Htl.
  rewrite (proj2 (Z.eqb_neq (p_tot_len b) 0xFFFF)) by lia. rewrite ask_bind.
  rewrite (bind_run _ _ _ _ _ (strlen_loop_run _ s substr 0 str Hnz ltac:(lia) ltac:(by rewrite Z.add_0_r) Hsz)). rewrite Z.add_0_l.
  rewrite (proj2 (Z.leb_gt _ _)) by lia. rewrite u16_small by lia.
  by apply (pbuf_memfind_run s a ((a, b) :: rest)); try lia.
Qed.

(** ** From packet to packet *)

Definition nonempty (bs : list (Z * pbuf)) : Prop := Forall (fun x => 0 < p_len x.2) bs.

Lemma total_pos bs : lens_ok bs -> nonempty bs -> bs <> [] -> 0 < total bs.
Proof. destruct bs as [|[a b] bs]; [done|]. cbn. intros (_&_&_&Hl) [Hp _]%Forall_cons _. cbn in Hp. pose proof (total_nneg _ Hl). lia. Qed.

(** No buffer of a packet of which none is empty is taken for the end of a
    packet in a queue. *)
Lemma queue_end_run s p bs : chain (pbufs s) p bs -> lens_ok bs -> nonempty bs -> queue_end p s = Some (false, s).
Proof.
  intros Hc Hl Hp. unfold queue_end. destruct bs as [|[a b] bs]; [cbn in Hc; by subst p|].
  cbn in Hc, Hl. destruct Hc as (->&Ha&E&Hc). destruct Hl as (_&Ht&_&Hl). apply Forall_cons in Hp as [_ Hp].
  rewrite (proj2 (Z.eqb_neq a 0)) by done. rewrite (bind_run _ _ _ _ _ (pb_run _ _ _ E)).
  destruct bs as [|[a' b'] bs].
  - cbn in Hc. rewrite Hc. cbn. by rewrite andb_false_r.
  - pose proof (total_pos _ Hl Hp ltac:(done)). rewrite (proj2 (Z.eqb_neq (p_len b) _)) by lia. done.
Qed.

(** The next buffer once the present one has been used up. *)
Definition advance (b : pbuf) (p off : Z) : Z * Z := if p_len b <=? off then (p_next b, 0) else (p, off).

Lemma advance_spec M a b bs off k : chain M a ((a, b) :: bs) -> lens_ok ((a, b) :: bs) -> 0 <= off -> 0 <= k -> off + k <= p_len b ->
  exists bs' off', advance b a (off + k) = (head_addr bs', off') /\ chain M (head_addr bs') bs' /\ lens_ok bs' /\ 0 <= off' /\
    drop (Z.to_nat off') (addrs bs') = drop (Z.to_nat (off + k)) (addrs ((a, b) :: bs)) /\
    (bs' = bs /\ off' = 0 /\ off + k = p_len b \/ bs' = (a, b) :: bs /\ off' = off + k /\ off + k < p_len b).
Proof.
  intros Hc Hl Ho Hk Hin. unfold advance. destruct (Z.leb_spec (p_len b) (off + k)).
  - exists bs, 0. cbn in Hc, Hl. destruct Hc as (_&_&_&Hc). destruct Hl as (Hb0&_&_&Hl).
    rewrite <- (pchain_head _ _ _ Hc). split; [done|]. split; [done|]. split; [done|]. split; [done|]. split.
    + cbn [addrs]. pose proof (spots_length b Hb0). rewrite drop_app_length' by lia. done.
    + left. split_and!; [done|done|lia].
  - exists ((a, b) :: bs), (off + k). split; [done|]. split; [done|]. split; [done|]. split; [lia|]. split; [done|].
    right. split_and!; [done|done|lia].
Qed.

Lemma drop_take_app (k : nat) (l : list Z) : l = take k l ++ drop k l.
Proof. by rewrite take_drop. Qed.

Lemma copy_loop_run fuel s pt ot bt pf of_ bf ds old : chain (pbufs s) pt bt -> lens_ok bt -> nonempty bt -> bt <> [] ->
  chain (pbufs s) pf bf -> lens_ok bf -> nonempty bf -> bf <> [] ->
  0 <= ot -> match bt with (_, b) :: _ => ot < p_len b | [] => True end ->
  0 <= of_ -> match bf with (_, b) :: _ => of_ < p_len b | [] => True end -> bytes_ok (bytes s) ->
  total bf - of_ <= total bt - ot -> NoDup (drop (Z.to_nat ot) (addrs bt)) ->
  read (drop (Z.to_nat of_) (addrs bf)) (bytes s) = Some ds -> read (drop (Z.to_nat ot) (addrs bt)) (bytes s) = Some old ->
  (forall a, a ∈ drop (Z.to_nat of_) (addrs bf) -> a ∉ drop (Z.to_nat ot) (addrs bt)) ->
  (length bt + length bf <= fuel)%nat ->
  copy_loop fuel pt ot pf of_ s = Some (ERR_OK, with_bytes s (blit (take (length ds) (drop (Z.to_nat ot) (addrs bt))) ds (bytes s))).
Proof.
  revert s pt ot bt pf of_ bf ds old. induction fuel as [|fuel IH];
    intros s pt ot bt pf of_ bf ds old Hct Hlt Hpt Hnt Hcf Hlf Hpf Hnf Hot0 Hot Hof0 Hof Hok Hfit Hnd Hds Hold Hdj Hfuel.
  { destruct bt; [done|cbn in Hfuel; lia]. }
  destruct bt as [|[at_ t] bt]; [done|]. destruct bf as [|[af f] bf]; [done|].
  assert (pt = at_) as -> by (by destruct Hct). assert (pf = af) as -> by (by destruct Hcf).
  pose proof Hct as Hct0. pose proof Hcf as Hcf0. pose proof Hlt as Hlt0. pose proof Hlf as Hlf0.
  cbn [chain lens_ok] in Hct0, Hcf0, Hlt0, Hlf0. destruct Hct0 as (_&Hat&Et&_), Hcf0 as (_&Haf&Ef&_), Hlt0 as (Ht0&_&Ht16&_), Hlf0 as (Hf0&_&Hf16&_).
  cbn [copy_loop]. rewrite (bind_run _ _ _ _ _ (pb_run _ _ _ Et)), (bind_run _ _ _ _ _ (pb_run _ _ _ Ef)).
  set (k := if p_len f - of_ <=? p_len t - ot then p_len f - of_ else p_len t - ot).
  assert (Hk : 0 < k /\ of_ + k <= p_len f /\ ot + k <= p_len t /\ (of_ + k = p_len f \/ ot + k = p_len t)).
  { unfold k. destruct (Z.leb_spec (p_len f - of_) (p_len t - ot)); lia. }
  clearbody k. destruct Hk as (Hk0&Hkf&Hkt&Hkor).
  pose proof (spots_length t Ht0) as Hst. pose proof (spots_length f Hf0) as Hsf.
  assert (Hsplit : forall (b : pbuf) (rest : list (Z * pbuf)) o, 0 <= o -> 0 <= p_len b -> o + k <= p_len b ->
    drop (Z.to_nat o) (spots b ++ addrs rest) = seqZ (p_payload b + o) k ++ drop (Z.to_nat (o + k)) (spots b ++ addrs rest)).
  { intros b rest o Ho Hb Hbk. rewrite <- (seqZ_sub (p_payload b) (p_len b) o k) by lia. fold (spots b).
    pose proof (spots_length b Hb) as Hsb. rewrite drop_app_le, (drop_app_le _ _ (Z.to_nat (o + k))) by lia.
    rewrite app_assoc. f_equal. rewrite Z2Nat.inj_add by lia. rewrite <- drop_drop. by rewrite take_drop. }
  destruct (advance_spec _ af f bf of_ k Hcf Hlf Hof0 ltac:(lia) Hkf) as (bf'&of'&Eadvf&Hcf'&Hlf'&Hof'&Haf'&Hcasef).
  destruct (advance_spec _ at_ t bt ot k Hct Hlt Hot0 ltac:(lia) Hkt) as (bt'&ot'&Eadvt&Hct'&Hlt'&Hot'&Hat'&Hcaset).
  cbn [addrs] in Hds, Hold, Hdj, Hnd, Haf', Hat' |- *.
  rewrite (Hsplit f) in Hds, Hdj by done. rewrite (Hsplit t) in Hold, Hdj, Hnd |- * by done.
  rewrite <- Haf' in Hds, Hdj. rewrite <- Hat' in Hold, Hdj, Hnd |- *.
  apply read_app_Some in Hds as (d1&d2&->&Hd1&Hd2). apply read_app_Some in Hold as (o1&o2&->&Ho1&Ho2).
  pose proof (read_length _ _ _ Hd1) as Hld1. pose proof (read_length _ _ _ Hd2) as Hld2. rewrite length_seqZ in Hld1.
  rewrite (bind_run _ _ _ _ _ (copy_run _ _ _ _ _ _ (Z.lt_le_incl _ _ Hk0) Hok Hd1 Ho1)).
  apply NoDup_app in Hnd as (Hnd1&Hnd2&Hnd3).
  set (m1 := blit (seqZ (p_payload t + ot) k) d1 (bytes s)).
  assert (Em1 : forall xs, (forall x, x ∈ xs -> x ∉ seqZ (p_payload t + ot) k) -> read xs m1 = read xs (bytes s)) by (intros xs; apply read_blit_other).
  unfold advance in Eadvf, Eadvt. rewrite Eadvf.
  assert (Eto : (if ot + k =? p_len t then (p_next t, 0) else (at_, ot + k)) = (head_addr bt', ot')).
  { rewrite <- Eadvt. destruct (Z.leb_spec (p_len t) (ot + k)); destruct (Z.eqb_spec (ot + k) (p_len t)); done || lia. }
  rewrite Eto.
  assert (Hpf' : nonempty bf') by (destruct Hcasef as [(->&_)|(->&_)]; [by apply Forall_cons in Hpf as [_ ?]|done]).
  assert (Hpt' : nonempty bt') by (destruct Hcaset as [(->&_)|(->&_)]; [by apply Forall_cons in Hpt as [_ ?]|done]).
  assert (Htotf : total bf' - of' = total ((af, f) :: bf) - of_ - k) by (cbn [total]; destruct Hcasef as [(->&->&?)|(->&->&?)]; cbn [total]; lia).
  assert (Htott : total bt' - ot' = total ((at_, t) :: bt) - ot - k) by (cbn [total]; destruct Hcaset as [(->&->&?)|(->&->&?)]; cbn [total]; lia).
  assert (Hrem : bt' = [] -> bf' = []).
  { intros ->. destruct bf' as [|[a b] r]; [done|]. exfalso. pose proof (total_pos _ Hlf' Hpf' ltac:(done)).
    assert (Hofb : of' < p_len b).
    { apply Forall_cons in Hpf' as [Hb _]. cbn in Hb. destruct Hcasef as [(_&->&_)|(Heq&->&?)]; [done|]. by injection Heq as -> -> ->. }
    cbn [total lens_ok] in *. destruct Hlf' as (_&_&_&Hr). pose proof (total_nneg _ Hr). lia. }
  assert (Hto : (ot + k =? p_len t) && (head_addr bt' =? 0) && negb (head_addr bf' =? 0) = false).
  { destruct bt' as [|[a b] r]; [rewrite (Hrem eq_refl); cbn; by rewrite andb_false_r|].
    cbn [head_addr]. assert (a <> 0) by (by destruct Hct' as (_&?&_)). rewrite (proj2 (Z.eqb_neq a 0)) by done. by rewrite andb_false_r. }
  rewrite Hto. set (s1 := with_bytes s m1).
  rewrite (bind_run _ _ _ _ _ (queue_end_run s1 _ bf' Hcf' Hlf' Hpf')), (bind_run _ _ _ _ _ (queue_end_run s1 _ bt' Hct' Hlt' Hpt')).
  destruct bf' as [|[a b] r] eqn:Ebf.
  { cbn [head_addr Z.eqb]. cbn in Hd2. rewrite drop_nil in Hd2. injection Hd2 as <-. rewrite app_nil_r. unfold s1, m1.
    rewrite take_app_length' by (rewrite length_seqZ; lia). done. }
  cbn [head_addr]. rewrite (proj2 (Z.eqb_neq a 0)) by (by destruct Hcf' as (_&?&_)).
  rewrite (IH s1 _ _ bt' _ _ ((a, b) :: r) d2 o2); try done.
  - unfold s1, m1, with_bytes. cbn. do 3 f_equal. rewrite <- blit_app.
    + f_equal. rewrite length_app, take_app, length_seqZ. rewrite (take_ge (seqZ _ _)) by (rewrite length_seqZ; lia). do 2 f_equal. lia.
    + rewrite length_seqZ. lia.
    + rewrite length_take. rewrite Hld2. assert (length d2 <= length (drop (Z.to_nat ot') (addrs bt')))%nat; [|lia].
      rewrite Hld2, !length_drop. pose proof (addrs_length _ Hlf'). pose proof (addrs_length _ Hlt'). cbn [total] in *. lia.
    + apply NoDup_app. split; [done|]. split; [|by eapply sublist_NoDup, sublist_take].
      intros x Hx Hx2. apply (Hnd2 x); [done|]. by apply (subseteq_take (length d2)).
  - intros ->. by discriminate (Hrem eq_refl).
  - destruct Hcaset as [(->&->&?)|(->&->&?)]; [|done]. destruct bt as [|[x y] z]; [done|]. by apply Forall_cons in Hpt' as [? _].
  - destruct Hcasef as [(<-&->&?)|(Heq&->&?)]; [by apply Forall_cons in Hpf' as [? _]|]. by injection Heq as -> -> ->.
  - unfold s1, m1. cbn. apply blit_bytes_ok; [done|]. by eapply read_bytes_ok.
  - lia.
  - unfold s1. cbn [bytes with_bytes]. rewrite Em1; [done|]. intros x Hx Hx2. apply (Hdj x); [apply elem_of_app; by right|]. apply elem_of_app. by left.
  - unfold s1. cbn [bytes with_bytes]. rewrite Em1; [done|]. intros x Hx Hx2. by apply (Hnd2 x).
  - intros x Hx Hx2. apply (Hdj x); apply elem_of_app; by right.
  - cbn [length] in *. destruct Hcaset as [(->&_&?)|(->&_&?)], Hcasef as [(<-&_&?)|(Heq&_&?)]; cbn [length] in *; try lia.
    all: injection Heq as -> -> ->; lia.
Qed.

(** Memory in which only some addresses have changed. *)
Definition same_outside (ads : list Z) (m m' : mem) : Prop := forall a, a ∉ ads -> m' !! a = m !! a.

Lemma blit_same_outside ads vs m : same_outside ads m (blit ads vs m).
Proof. intros a Ha. by apply blit_other. Qed.

(** [pbuf_copy] copies the contents of a packet to the front of another one
    that is large enough, whatever the sizes of the buffers on both sides, and
    changes no other byte; a packet that is too small is refused. *)
Theorem pbuf_copy_copies s pt bt pf bf ds old : chain (pbufs s) pt bt -> lens_ok bt -> nonempty bt -> bt <> [] ->
  chain (pbufs s) pf bf -> lens_ok bf -> nonempty bf -> bf <> [] -> bytes_ok (bytes s) -> NoDup (addrs bt) ->
  read (addrs bf) (bytes s) = Some ds -> read (addrs bt) (bytes s) = Some old -> (forall a, a ∈ addrs bf -> a ∉ addrs bt) ->
  if decide (total bf <= total bt)
  then exists m, pbuf_copy pt pf s = Some (ERR_OK, with_bytes s m) /\ read (addrs bt) m = Some (ds ++ drop (length ds) old) /\
    same_outside (addrs bt) (bytes s) m
  else pbuf_copy pt pf s = Some (ERR_ARG, s).
Proof.
  intros Hct Hlt Hpt Hnt Hcf Hlf Hpf Hnf Hok Hnd Hds Hold Hdj. unfold pbuf_copy.
  destruct bt as [|[at_ t] bt]; [done|]. destruct bf as [|[af f] bf]; [done|].
  pose proof Hct as (->&Hat&Et&_). pose proof Hcf as (->&Haf&Ef&_).
  rewrite (proj2 (Z.eqb_neq at_ 0)), (proj2 (Z.eqb_neq af 0)) by done. cbn [orb].
  rewrite (bind_run _ _ _ _ _ (pb_run _ _ _ Et)), (bind_run _ _ _ _ _ (pb_run _ _ _ Ef)).
  pose proof Hlt as (_&Ett&_). pose proof Hlf as (_&Eft&_). rewrite Ett, Eft.
  change (p_len t + total bt) with (total ((at_, t) :: bt)). change (p_len f + total bf) with (total ((af, f) :: bf)).
  set (xt := (at_, t) :: bt) in *. set (xf := (af, f) :: bf) in *. case_decide as Hfit; [|by rewrite (proj2 (Z.ltb_lt _ _)) by lia].
  rewrite (proj2 (Z.ltb_ge _ _)) by lia. rewrite chain_fuel_bind.
  pose proof (chain_size _ _ _ Hct). pose proof (chain_size _ _ _ Hcf).
  rewrite (copy_loop_run _ s at_ 0 xt af 0 xf ds old); try done; try lia.
  - eexists. split; [done|]. change (Z.to_nat 0) with 0%nat. rewrite drop_0.
    pose proof (read_length _ _ _ Hds). pose proof (addrs_length _ Hlf). pose proof (addrs_length _ Hlt). split.
    + apply read_blit_take; [done|done|lia|done].
    + intros a Ha. apply blit_other. intros Hx. by apply Ha, (subseteq_take (length ds)).
  - unfold xt. by apply Forall_cons in Hpt as [? _].
  - unfold xf. by apply Forall_cons in Hpf as [? _].
Qed.

(** C26 — What [pbuf_take_at] puts into a packet at some offset, [pbuf_copy_partial]
    gets out of it again at the same offset, however the range lies across the
    buffers; [pbuf_take_at] changes no byte outside of the range. *)
Theorem pbuf_take_at_roundtrip s p bs src dst len off old vs room : chain (pbufs s) p bs -> lens_ok bs -> 0 < src -> dst <> 0 ->
  0 <= off < total bs -> 0 <= len -> off + len <= total bs -> bytes_ok (bytes s) -> NoDup (addrs bs) ->
  read (addrs bs) (bytes s) = Some old -> read (seqZ src len) (bytes s) = Some vs -> read (seqZ dst len) (bytes s) = Some room ->
  (forall a, a ∈ addrs bs -> a ∉ seqZ src len /\ a ∉ seqZ dst len) ->
  exists m m', pbuf_take_at p src len off s = Some (ERR_OK, with_bytes s m) /\
    same_outside (take (Z.to_nat len) (drop (Z.to_nat off) (addrs bs))) (bytes s) m /\
    pbuf_copy_partial p dst len off (with_bytes s m) = Some (len, with_bytes s m') /\ read (seqZ dst len) m' = Some vs.
Proof.
  intros Hc Hl Hsrc Hdst Hoff Hlen Hfit Hok Hnd Hold Hvs Hroom Hdj.
  assert (H16 : total bs < 2 ^ 16). { destruct bs as [|[a b] bs]; [done|]. destruct Hl as (_&?&?&_). cbn [total]. lia. }
  rewrite (pbuf_take_at_run s p bs src len off old vs Hc Hl Hsrc ltac:(lia) ltac:(lia) Hok Hnd Hold Hvs (fun a Ha => proj1 (Hdj a Ha))).
  rewrite decide_True by lia. eexists _, _. split; [done|]. set (range := take _ _).
  assert (Hsub : forall x, x ∈ range -> x ∈ addrs bs) by (intros x; apply sub_in).
  assert (Hrn : NoDup range) by (eapply sublist_NoDup; [exact Hnd|]; unfold range; etrans; [apply sublist_take|apply sublist_drop]).
  pose proof (read_length _ _ _ Hvs) as Hlv. rewrite length_seqZ in Hlv. pose proof (addrs_length _ Hl) as Htl.
  assert (Hrl : length range = length vs) by (unfold range; rewrite length_take, length_drop; lia).
  split; [apply blit_same_outside|]. pose proof (pchain_head _ _ _ Hc) as Hp.
  assert (Hne : p <> 0). { destruct bs as [|[a b] bs]; [cbn in *; lia|]. by destruct Hc as (->&?&_). }
  assert (Hds : exists ds, read (addrs bs) (blit range vs (bytes s)) = Some ds /\ take (Z.to_nat len) (drop (Z.to_nat off) ds) = vs).
  { assert (Hm : Forall (is_Some ∘ (fun a => blit range vs (bytes s) !! a)) (addrs bs)).
    { apply Forall_forall. intros a Ha. cbn. unfold blit. apply lookup_union_is_Some. right. apply list_elem_of_lookup in Ha as [i Hi].
      rewrite (read_lookup _ _ _ _ _ Hold Hi). apply lookup_lt_is_Some. rewrite (read_length _ _ _ Hold). by eapply lookup_lt_Some. }
    apply mapM_is_Some in Hm as [ds Eds]. exists ds. split; [exact Eds|]. fold (read (addrs bs) (blit range vs (bytes s))) in Eds.
    pose proof (read_take (Z.to_nat len) _ _ _ (read_drop (Z.to_nat off) _ _ _ Eds)) as Er. fold range in Er.
    rewrite (read_blit range vs) in Er by done. by injection Er. }
  destruct Hds as (ds&Eds&Etake).
  rewrite (pbuf_copy_partial_run (with_bytes s _) p bs dst len off ds room); cbn [with_bytes pbufs bytes]; try done; try lia.
  - rewrite Etake. replace (Z.of_nat (length vs)) with len by lia. split; [done|]. apply read_blit; [apply NoDup_seqZ|]. rewrite length_seqZ. lia.
  - apply blit_bytes_ok; [done|]. by eapply read_bytes_ok.
  - rewrite read_blit_other; [done|]. intros x Hx Hx2. by apply (proj2 (Hdj x (Hsub x Hx2))).
  - intros a Ha. by apply Hdj.
Qed.
End chains.

(** ** Witnesses

    The packet "hello!!" in two buffers, a packet in one buffer, and some room. *)
Import String.
#[local] Open Scope string_scope.
#[local] Open Scope list_scope.
#[local] Open Scope Z_scope.

#[local] Instance no_memory : PbufMemory unit := {
  pool_malloc _ := mret 0; pool_free _ _ := mret tt; heap_malloc _ := mret 0; heap_free _ := mret tt; heap_trim _ _ := mret 0 }.

Definition b1_ex : pbuf := mkPbuf 40 100 7 3 0x82 0 1 0.
Definition b2_ex : pbuf := mkPbuf 0 200 4 4 0x82 0 1 0.
Definition b3_ex : pbuf := mkPbuf 0 300 9 9 0x80 0 1 0.
Definition hello_ex : list (Z * pbuf) := [(20, b1_ex); (40, b2_ex)].
Definition room_ex : list (Z * pbuf) := [(60, b3_ex)].
Definition mem_ex : mem :=
  list_to_map (zip (addrs hello_ex ++ addrs room_ex ++ seqZ 400 4) (bytes_of "hello!!.........lo!" ++ [0])).
Definition packets_ex : pstate unit := mkP {[ 20 := b1_ex; 40 := b2_ex; 60 := b3_ex ]} mem_ex tt.

Lemma hello_chain : chain (pbufs packets_ex) 20 hello_ex /\ lens_ok hello_ex /\ nonempty hello_ex /\ NoDup (addrs hello_ex).
Proof. split_and!; [by vm_compute|by vm_compute|by repeat constructor|]. apply (bool_decide_unpack _). by vm_compute. Qed.

Lemma room_chain : chain (pbufs packets_ex) 60 room_ex /\ lens_ok room_ex /\ nonempty room_ex /\ NoDup (addrs room_ex).
Proof. split_and!; [by vm_compute|by vm_compute|by repeat constructor|]. apply (bool_decide_unpack _). by vm_compute. Qed.

Lemma mem_ex_ok : bytes_ok (bytes packets_ex).
Proof. apply (bool_decide_unpack _). by vm_compute. Qed.

Lemma apart_ex (xs ys : list Z) : bool_decide (Forall (fun x => x ∉ ys) xs) = true -> forall x, x ∈ xs -> x ∉ ys.
Proof. intros H%bool_decide_eq_true x Hx. rewrite Forall_forall in H. by apply H. Qed.

Lemma pbuf_strstr_first_witness : exists r, pbuf_strstr 20 400 packets_ex = Some (r, packets_ex) /\
  first_occurrence (bytes_of "hello!!") (bytes_of "lo!") 0 r.
Proof.
  destruct hello_chain as (Hc&Hl&_&_).
  apply (pbuf_strstr_first packets_ex 20 hello_ex 400 (bytes_of "lo!") (bytes_of "hello!!") Hc Hl ltac:(done) mem_ex_ok).
  - vm_compute. reflexivity.
  - done.
  - discriminate.
  - by repeat constructor.
  - vm_compute. reflexivity.
  - vm_compute. reflexivity.
  - vm_compute. reflexivity.
Defined.

Lemma pbuf_copy_copies_witness : exists m, pbuf_copy 60 20 packets_ex = Some (ERR_OK, with_bytes packets_ex m) /\
  read (addrs room_ex) m = Some (bytes_of "hello!!..").
Proof.
  destruct hello_chain as (Hc&Hl&Hp&_), room_chain as (Hc'&Hl'&Hp'&Hn').
  destruct (pbuf_copy_copies packets_ex 60 room_ex 20 hello_ex (bytes_of "hello!!") (bytes_of ".........") Hc' Hl' Hp' ltac:(done)
    Hc Hl Hp ltac:(done) mem_ex_ok Hn' ltac:(by vm_compute) ltac:(by vm_compute) (apart_ex (addrs hello_ex) (addrs room_ex) ltac:(by vm_compute)))
    as (m&E&Hr&_).
  exists m. split; [exact E|]. rewrite Hr. reflexivity.
Defined.

Lemma pbuf_take_at_roundtrip_witness : exists m m', pbuf_take_at 20 400 3 2 packets_ex = Some (ERR_OK, with_bytes packets_ex m) /\
  pbuf_copy_partial 20 300 3 2 (with_bytes packets_ex m) = Some (3, with_bytes packets_ex m') /\ read (seqZ 300 3) m' = Some (bytes_of "lo!").
Proof.
  destruct hello_chain as (Hc&Hl&_&Hn).
  destruct (pbuf_take_at_roundtrip packets_ex 20 hello_ex 400 300 3 2 (bytes_of "hello!!") (bytes_of "lo!") (bytes_of "...") Hc Hl
    ltac:(lia) ltac:(lia) ltac:(by vm_compute) ltac:(lia) ltac:(by vm_compute) mem_ex_ok Hn ltac:(by vm_compute) ltac:(by vm_compute)
    ltac:(by vm_compute)) as (m&m'&E&_&E'&Hr).
  - intros a Ha. split; revert a Ha; apply apart_ex; by vm_compute.
  - exists m, m'. split; [exact E|]. split; [exact E'|exact Hr].
Defined.
