(* ===== verification/PbufRefs.v ===== *)
(** * Who owns a packet buffer

    The reference count of a buffer is the number of pointers to it: those from
    other buffers and those that the users of the stack hold.  The operations on
    chains keep this, with the memory behind a class of laws that the pools and
    the heap of the stack satisfy. *)
From S2P Require Import Prelude Mem Memp Pbuf PbufProofs.
Open Scope Z_scope.

(** ** What the memory promises *)

Inductive source := FromPool (t : memp_t) | FromHeap.

(** [owns a H]: the blocks in [H], with their sources and sizes, are handed out. *)
Class PbufMemoryOk (A : Type) `{!PbufMemory A} (pool_size : memp_t -> Z) := {
  owns : A -> gmap Z (source * Z) -> Prop;
  owns_pool_malloc a H t : owns a H -> exists x a', pool_malloc t a = Some (x, a') /\
    (x = 0 /\ owns a' H \/ x <> 0 /\ H !! x = None /\ owns a' (<[x := (FromPool t, pool_size t)]> H));
  owns_pool_free a H t x n : owns a H -> H !! x = Some (FromPool t, n) ->
    exists a', pool_free t x a = Some (tt, a') /\ owns a' (delete x H);
  owns_heap_malloc a H n : owns a H -> 0 < n < 2 ^ 16 -> exists x a', heap_malloc n a = Some (x, a') /\
    (x = 0 /\ owns a' H \/ x <> 0 /\ H !! x = None /\ owns a' (<[x := (FromHeap, n)]> H));
  owns_heap_free a H x n : owns a H -> H !! x = Some (FromHeap, n) ->
    exists a', heap_free x a = Some (tt, a') /\ owns a' (delete x H);
  owns_heap_trim a H x n n' : owns a H -> H !! x = Some (FromHeap, n) -> 0 < n' <= n ->
    exists a', heap_trim x n' a = Some (x, a') /\ owns a' (<[x := (FromHeap, n')]> H);
  owns_range a H x u n : owns a H -> H !! x = Some (u, n) -> x mod 4 = 0 /\ 0 < x /\ 0 < n /\ x + n < 2 ^ 32;
  owns_heap_size a H x n : owns a H -> H !! x = Some (FromHeap, n) -> n < 2 ^ 16;
  owns_apart a H x y u v n m : owns a H -> H !! x = Some (u, n) -> H !! y = Some (v, m) -> x <> y -> x + n <= y \/ y + m <= x
}.

(** ** Counting pointers *)

Definition points (b : pbuf) (p : Z) : Z := if decide (p_next b = p) then 1 else 0.
Definition pointers (M : gmap Z pbuf) (p : Z) : Z := Z.of_nat (size (filter (fun kv => p_next kv.2 = p) M)).

Lemma pointers_empty p : pointers ∅ p = 0.
Proof. unfold pointers. by rewrite map_filter_empty, map_size_empty. Qed.

Lemma pointers_nonneg M p : 0 <= pointers M p.
Proof. unfold pointers. lia. Qed.

Lemma pointers_new M a b p : M !! a = None -> pointers (<[a := b]> M) p = pointers M p + points b p.
Proof.
  intros Ha. unfold pointers, points. case_decide as Hp.
  - rewrite map_filter_insert_True by done. rewrite map_size_insert_None; [lia|]. apply map_lookup_filter_None. by left.
  - rewrite map_filter_insert_False by done. rewrite delete_id by done. lia.
Qed.

Lemma pointers_delete M a b p : M !! a = Some b -> pointers (delete a M) p = pointers M p - points b p.
Proof.
  intros Ha. rewrite <- (insert_delete_id M a b Ha) at 2. rewrite pointers_new by apply lookup_delete_eq. lia.
Qed.

Lemma pointers_update M a b b' p : M !! a = Some b -> pointers (<[a := b']> M) p = pointers M p - points b p + points b' p.
Proof.
  intros Ha. rewrite <- insert_delete_eq, pointers_new by apply lookup_delete_eq. rewrite (pointers_delete M a b) by done. lia.
Qed.

Lemma pointers_zero M p a b : pointers M p = 0 -> M !! a = Some b -> p_next b <> p.
Proof.
  unfold pointers. intros Hz Ha Hn. assert (Hs : size (filter (fun kv => p_next kv.2 = p) M) = 0%nat) by lia.
  apply map_size_empty_inv in Hs. apply (f_equal (fun m => m !! a)) in Hs. rewrite lookup_empty in Hs.
  apply map_lookup_filter_None in Hs as [Hs|Hs]; [congruence|]. by apply (Hs b).
Qed.

Lemma pointers_pos M p : 0 < pointers M p -> exists a b, M !! a = Some b /\ p_next b = p.
Proof.
  unfold pointers. intros Hp. destruct (decide (filter (fun kv => p_next kv.2 = p) M = ∅)) as [E|E].
  - rewrite E, map_size_empty in Hp. lia.
  - apply map_choose in E as (a&b&[Ha Hb]%map_lookup_filter_Some). by exists a, b.
Qed.

(** References held by the users; the null pointer is not counted. *)
Definition bump (d p : Z) (refs : Z -> Z) : Z -> Z :=
  fun q => if decide (q = p /\ p <> 0) then refs q + d else refs q.

Lemma bump_0 d refs q : bump d 0 refs q = refs q.
Proof. unfold bump. rewrite decide_False; [done|]. by intros [_ ?]. Qed.

Lemma bump_same d p refs : p <> 0 -> bump d p refs p = refs p + d.
Proof. intros Hp. unfold bump. by rewrite decide_True. Qed.

Lemma bump_other d p refs q : q <> p -> bump d p refs q = refs q.
Proof. intros Hq. unfold bump. rewrite decide_False; [done|]. by intros [? _]. Qed.

(** *** Chains under changes *)

Lemma chain_relink (M M' : gmap Z pbuf) p bs : (forall q b, q ∈ bs.*1 -> M !! q = Some b -> exists b', M' !! q = Some b' /\ p_next b' = p_next b) ->
  chain M p bs -> exists bs', chain M' p bs' /\ bs'.*1 = bs.*1.
Proof.
  revert p. induction bs as [|[a b] bs IH]; intros p HM Hc; [by exists []|]. cbn in Hc. destruct Hc as (->&Ha&E&Hc).
  destruct (HM a b ltac:(left) E) as (b'&E'&En).
  destruct (IH (p_next b) ltac:(intros q c Hq; apply HM; by right) Hc) as (bs'&Hc'&Hbs).
  exists ((a, b') :: bs'). cbn. rewrite En, Hbs. by split_and!.
Qed.

Lemma pchain_frame (M M' : gmap Z pbuf) p bs : (forall q, q ∈ bs.*1 -> M' !! q = M !! q) -> chain M p bs -> chain M' p bs.
Proof.
  revert p. induction bs as [|[a b] bs IH]; intros p HM Hc; [done|]. cbn in *. destruct Hc as (->&Ha&E&Hc).
  split_and!; [done|done|by rewrite HM by left|]. apply IH; [|done]. intros q Hq. apply HM. by right.
Qed.

(** A buffer to which nothing points is in no chain but its own. *)
Lemma chain_avoids (M : gmap Z pbuf) a p bs : chain M a bs -> a <> p -> (forall q b, M !! q = Some b -> p_next b <> p) -> p ∉ bs.*1.
Proof.
  revert a. induction bs as [|[c b] bs IH]; intros a Hc Ha Hn; [by apply not_elem_of_nil|]. cbn in *. destruct Hc as (->&_&E&Hc).
  apply not_elem_of_cons. split; [congruence|]. apply (IH (p_next b)); [done|by eapply Hn|done].
Qed.

Section refs.
Context {A : Type} `{!PbufMemory A} (pool_size : memp_t -> Z) `{!PbufMemoryOk A pool_size}.
Implicit Types (s : pstate A).

(** Where the memory of a buffer comes from, by its type. *)
Definition source_of (b : pbuf) : source :=
  if pbuf_get_allocsrc b =? SRC_STD_MEMP_PBUF_POOL then FromPool MEMP_PBUF_POOL
  else if pbuf_get_allocsrc b =? SRC_STD_MEMP_PBUF then FromPool MEMP_PBUF else FromHeap.

Definition contiguous (b : pbuf) : bool := negb (Z.land (p_type_internal b) PBUF_TYPE_FLAG_STRUCT_DATA_CONTIGUOUS =? 0).

(** The invariant of one buffer in a block of [n] bytes: a type that the stack
    knows, and a payload inside of the block if it belongs there. *)
Record buffer_ok (p : Z) (b : pbuf) (n : Z) : Prop := {
  bo_type : pbuf_get_allocsrc b = SRC_STD_HEAP \/ pbuf_get_allocsrc b = SRC_STD_MEMP_PBUF \/ pbuf_get_allocsrc b = SRC_STD_MEMP_PBUF_POOL;
  bo_len : 0 <= p_len b < 2 ^ 16 /\ 0 <= p_tot_len b < 2 ^ 16;
  bo_heap : pbuf_get_allocsrc b = SRC_STD_HEAP -> contiguous b = true;
  bo_data : contiguous b = true -> p + SIZEOF_STRUCT_PBUF <= p_payload b /\ p_payload b + p_len b <= p + n
}.

Record refs_ok (s : pstate A) (refs : Z -> Z) (H : gmap Z (source * Z)) : Prop := {
  ro_owns : owns (alloc s) H;
  ro_dom : forall p, is_Some (H !! p) -> is_Some (pbufs s !! p);
  ro_block : forall p b, pbufs s !! p = Some b -> exists n, H !! p = Some (source_of b, n) /\ buffer_ok p b n;
  ro_count : forall p b, pbufs s !! p = Some b -> p_ref b = refs p + pointers (pbufs s) p /\ 0 < p_ref b < 256;
  ro_refs : forall p, 0 <= refs p /\ (0 < refs p -> is_Some (pbufs s !! p));
  ro_chain : forall p, is_Some (pbufs s !! p) -> exists bs, chain (pbufs s) p bs
}.

Lemma ro_next s refs H p b : refs_ok s refs H -> pbufs s !! p = Some b ->
  p_next b = 0 \/ is_Some (pbufs s !! p_next b).
Proof.
  intros HR Hp. destruct (ro_chain _ _ _ HR p ltac:(by eexists)) as [[|[a c] bs] Hc].
  - cbn in Hc. subst p. destruct (ro_block _ _ _ HR 0 b Hp) as (n&Hn&_). pose proof (owns_range _ _ _ _ _ (ro_owns _ _ _ HR) Hn). lia.
  - cbn in Hc. destruct Hc as (<-&_&E&Hc). rewrite Hp in E. injection E as <-.
    destruct bs as [|[a d] bs]; [by left|]. destruct Hc as (->&_&E&_). right. by eexists.
Qed.

Lemma live_nonzero s refs H p b : refs_ok s refs H -> pbufs s !! p = Some b -> p <> 0.
Proof.
  intros HR Hp. destruct (ro_block _ _ _ HR p b Hp) as (n&Hn&_). pose proof (owns_range _ _ _ _ _ (ro_owns _ _ _ HR) Hn). lia.
Qed.

Lemma set_pb_run s p f b : pbufs s !! p = Some b -> set_pb p f s = Some (tt, mkP (<[p := f b]> (pbufs s)) (bytes s) (alloc s)).
Proof. intros E. unfold set_pb, try_update. by rewrite E. Qed.

(** What changes in a buffer may not matter for its ownership. *)
Definition same_links (b b' : pbuf) : Prop := p_next b' = p_next b /\ p_ref b' = p_ref b /\ p_type_internal b' = p_type_internal b.

Lemma same_links_source b b' : same_links b b' -> source_of b' = source_of b /\ pbuf_get_allocsrc b' = pbuf_get_allocsrc b /\ contiguous b' = contiguous b.
Proof. intros (_&_&E). unfold source_of, pbuf_get_allocsrc, contiguous. by rewrite E. Qed.

(** Changing the data of one buffer. *)
Lemma refs_ok_data s refs H p b b' m : refs_ok s refs H -> pbufs s !! p = Some b -> same_links b b' ->
  (forall n, H !! p = Some (source_of b, n) -> buffer_ok p b n -> buffer_ok p b' n) ->
  refs_ok (mkP (<[p := b']> (pbufs s)) m (alloc s)) refs H.
Proof.
  intros HR Hp HL Hok. pose proof (same_links_source _ _ HL) as (Hs&_&_). destruct HL as (Hnx&Hrf&Hty).
  assert (Hpt : forall q, pointers (<[p := b']> (pbufs s)) q = pointers (pbufs s) q).
  { intros q. rewrite (pointers_update _ _ b) by done. unfold points. rewrite Hnx. lia. }
  split; cbn [pbufs alloc].
  - apply (ro_owns _ _ _ HR).
  - intros q Hq. rewrite lookup_insert. case_decide; [by eexists|]. by apply (ro_dom _ _ _ HR).
  - intros q c. rewrite lookup_insert. case_decide as E; [intros [= <-]; subst q|apply (ro_block _ _ _ HR)].
    destruct (ro_block _ _ _ HR p b Hp) as (n&Hn&Hbo). exists n. rewrite Hs. split; [done|]. by apply Hok.
  - intros q c. rewrite lookup_insert, Hpt. case_decide as E; [intros [= <-]; subst q; rewrite Hrf|]; by apply (ro_count _ _ _ HR).
  - intros q. destruct (ro_refs _ _ _ HR q) as [H1 H2]. split; [done|]. intros Hq. rewrite lookup_insert. case_decide; [by eexists|]. by apply H2.
  - intros q Hq. apply lookup_insert_is_Some' in Hq. assert (Hq' : is_Some (pbufs s !! q)) by (destruct Hq as [<-|]; [by eexists|done]).
    destruct (ro_chain _ _ _ HR q Hq') as [bs Hbs]. destruct (chain_relink (pbufs s) (<[p := b']> (pbufs s)) q bs) as (bs'&Hc'&_); [|done|by exists bs'].
    intros x c _ Hx. rewrite lookup_insert. case_decide as E; [|by exists c]. subst x. exists b'. split; [done|]. congruence.
Qed.

Lemma refs_ok_ext s refs refs' H : (forall q, refs' q = refs q) -> refs_ok s refs H -> refs_ok s refs' H.
Proof.
  intros E []. split; try done; [|by intros q; rewrite E].
  intros q b Hq. rewrite E. auto.
Qed.

Lemma held_live s refs H p : refs_ok s refs H -> 0 < refs p -> exists b, pbufs s !! p = Some b.
Proof. intros HR Hp. by apply (proj2 (ro_refs _ _ _ HR p)). Qed.

(** A reference changes hands: the count of one buffer. *)
Lemma refs_ok_count s refs H p b d : refs_ok s refs H -> pbufs s !! p = Some b -> 0 <= refs p + d -> 0 < p_ref b + d < 256 ->
  refs_ok (mkP (<[p := with_ref (p_ref b + d) b]> (pbufs s)) (bytes s) (alloc s)) (bump d p refs) H.
Proof.
  intros HR Hp Hd Hr. pose proof (live_nonzero _ _ _ _ _ HR Hp) as Hp0.
  assert (Hpt : forall q, pointers (<[p := with_ref (p_ref b + d) b]> (pbufs s)) q = pointers (pbufs s) q).
  { intros q. rewrite (pointers_update _ _ b) by done. unfold points. cbn [with_ref p_next]. lia. }
  assert (Hlive : forall q, is_Some (pbufs s !! q) -> is_Some (<[p := with_ref (p_ref b + d) b]> (pbufs s) !! q)).
  { intros q Hq. rewrite lookup_insert. case_decide; [by eexists|done]. }
  split; cbn [pbufs alloc].
  - apply (ro_owns _ _ _ HR).
  - intros q Hq. by apply Hlive, (ro_dom _ _ _ HR).
  - intros q c. rewrite lookup_insert. case_decide as E; [intros [= <-]; subst q|apply (ro_block _ _ _ HR)].
    destruct (ro_block _ _ _ HR p b Hp) as (n&Hn&[]). exists n. by split.
  - intros q c. rewrite lookup_insert, Hpt. case_decide as E.
    + intros [= <-]. subst q. cbn [with_ref p_ref]. rewrite bump_same by done. destruct (ro_count _ _ _ HR p b Hp). lia.
    + rewrite bump_other by congruence. apply (ro_count _ _ _ HR).
  - intros q. destruct (ro_refs _ _ _ HR q) as [H1 H2]. destruct (decide (q = p)) as [->|Hq].
    + rewrite bump_same by done. split; [done|]. intros _. by apply Hlive.
    + rewrite bump_other by done. split; [done|]. intros Hx. by apply Hlive, H2.
  - intros q Hq. apply lookup_insert_is_Some' in Hq. assert (Hq' : is_Some (pbufs s !! q)) by (destruct Hq as [<-|]; [by eexists|done]).
    destruct (ro_chain _ _ _ HR q Hq') as [bs Hbs].
    destruct (chain_relink (pbufs s) (<[p := with_ref (p_ref b + d) b]> (pbufs s)) q bs) as (bs'&Hc'&_); [|done|by exists bs'].
    intros x c _ Hx. rewrite lookup_insert. case_decide as E; [|by exists c]. subst x. eexists. split; [done|]. cbn. congruence.
Qed.

Lemma in_alloc_run {B} (q : prog A B) s x a : q (alloc s) = Some (x, a) -> in_alloc q s = Some (x, mkP (pbufs s) (bytes s) a).
Proof. intros E. unfold in_alloc. by rewrite E. Qed.

Lemma free_memory_run s H p b n : owns (alloc s) H -> H !! p = Some (source_of b, n) -> buffer_ok p b n ->
  exists a, free_memory p (pbuf_get_allocsrc b) s = Some (tt, mkP (pbufs s) (bytes s) a) /\ owns a (delete p H).
Proof.
  intros HO Hp HB. unfold free_memory. unfold source_of in Hp. destruct (Z.eqb_spec (pbuf_get_allocsrc b) SRC_STD_MEMP_PBUF_POOL) as [E1|E1].
  - destruct (owns_pool_free _ _ _ _ _ HO Hp) as (a&E&Ha). exists a. split; [|done]. by apply in_alloc_run.
  - destruct (Z.eqb_spec (pbuf_get_allocsrc b) SRC_STD_MEMP_PBUF) as [E2|E2].
    + destruct (owns_pool_free _ _ _ _ _ HO Hp) as (a&E&Ha). exists a. split; [|done]. by apply in_alloc_run.
    + destruct (bo_type _ _ _ HB) as [E|[?|?]]; [|done..]. rewrite E. cbn [Z.eqb SRC_STD_HEAP].
      destruct (owns_heap_free _ _ _ _ HO Hp) as (a&E'&Ha). exists a. split; [|done]. by apply in_alloc_run.
Qed.

(** The last reference to a buffer is dropped: the buffer goes, and its pointer
    to the next one is in the hands of whoever dropped it. *)
Lemma refs_ok_release s refs H p b a : refs_ok s refs H -> pbufs s !! p = Some b -> 0 < refs p -> p_ref b = 1 -> owns a (delete p H) ->
  refs_ok (mkP (delete p (pbufs s)) (bytes s) a) (bump 1 (p_next b) (bump (-1) p refs)) (delete p H).
Proof.
  intros HR Hp Hrp Hr1 HO. pose proof (live_nonzero _ _ _ _ _ HR Hp) as Hp0.
  destruct (ro_count _ _ _ HR p b Hp) as [Hc _]. pose proof (pointers_nonneg (pbufs s) p) as Hpn.
  assert (Hz : pointers (pbufs s) p = 0) by lia. assert (Hr : refs p = 1) by lia.
  assert (Hself : p_next b <> p) by (by eapply pointers_zero).
  assert (Hlive : forall q, q <> p -> is_Some (pbufs s !! q) -> is_Some (delete p (pbufs s) !! q)) by (intros q Hq; by rewrite lookup_delete_ne).
  split; cbn [pbufs alloc].
  - done.
  - intros q. rewrite !lookup_delete. case_decide; [by intros [? ?]|]. apply (ro_dom _ _ _ HR).
  - intros q c [Hq Hc2]%lookup_delete_Some. rewrite lookup_delete_ne by done. by apply (ro_block _ _ _ HR).
  - intros q c [Hq Hc2]%lookup_delete_Some. rewrite (pointers_delete _ _ b) by done. unfold points.
    destruct (ro_count _ _ _ HR q c Hc2) as [H1 H2]. pose proof (live_nonzero _ _ _ _ _ HR Hc2) as Hq0. case_decide as E.
    + subst q. rewrite bump_same by done. rewrite bump_other by done. lia.
    + rewrite !bump_other by congruence. lia.
  - intros q. destruct (ro_refs _ _ _ HR q) as [H1 H2]. destruct (decide (q = p)) as [->|Hq].
    + rewrite bump_other by congruence. rewrite bump_same by done. lia.
    + destruct (decide (q = p_next b /\ p_next b <> 0)) as [[-> Hn0]|Hqn].
      * rewrite bump_same by done. rewrite bump_other by done. split; [lia|]. intros _. apply Hlive; [done|].
        by destruct (ro_next _ _ _ _ _ HR Hp).
      * unfold bump at 1 3. rewrite decide_False by done. rewrite bump_other by done. split; [done|]. intros Hx. by apply Hlive, H2.
  - intros q [c [Hq Hc2]%lookup_delete_Some]. destruct (ro_chain _ _ _ HR q ltac:(by eexists)) as [bs Hbs]. exists bs.
    eapply pchain_frame; [|exact Hbs]. intros x Hx. apply lookup_delete_ne. intros <-. revert Hx.
    eapply chain_avoids; [exact Hbs|done|]. intros y d Hy. by eapply pointers_zero.
Qed.

(** What stays of the buffers: everything but their counts. *)
Definition survivors (s s' : pstate A) : Prop :=
  forall q b', pbufs s' !! q = Some b' -> exists b, pbufs s !! q = Some b /\ b' = with_ref (p_ref b') b.

Lemma survivors_trans s1 s2 s3 : survivors s1 s2 -> survivors s2 s3 -> survivors s1 s3.
Proof.
  intros H1 H2 q b3 H3. destruct (H2 q b3 H3) as (b2&E2&E3). destruct (H1 q b2 E2) as (b1&E1&E2'). exists b1. split; [done|].
  rewrite E3, E2'. done.
Qed.

Lemma free_loop_run fuel s refs H p count : refs_ok s refs H -> p = 0 \/ 0 < refs p -> (size (pbufs s) < fuel)%nat -> 0 <= count < 256 ->
  exists s' H', free_loop fuel p count s = Some (u8 (count + Z.of_nat (size (pbufs s) - size (pbufs s'))), s') /\
    refs_ok s' (bump (-1) p refs) H' /\ survivors s s' /\ bytes s' = bytes s /\ H' ⊆ H /\ (size (pbufs s') <= size (pbufs s))%nat /\
    (is_Some (pbufs s !! p) -> pbufs s' !! p = None -> (size (pbufs s') < size (pbufs s))%nat) /\
    (is_Some (pbufs s' !! p) -> size (pbufs s') = size (pbufs s)).
Proof.
  revert s refs H p count. induction fuel as [|fuel IH]; intros s refs H p count HR Hp Hf Hcount; [lia|]. cbn [free_loop].
  assert (Hrefl : survivors s s) by (intros q b Hq; exists b; split; [done|by destruct b]).
  destruct (Z.eqb_spec p 0) as [->|Hp0].
  { exists s, H. split; [rewrite Nat.sub_diag, Z.add_0_r, u8_small by lia; done|]. split; [eapply refs_ok_ext; [|exact HR]; intros q; apply bump_0|].
    split; [done|]. split; [done|]. split; [done|]. split; [done|]. split; [intros [? ?]; congruence|done]. }
  destruct Hp as [|Hp]; [done|]. destruct (held_live _ _ _ _ HR Hp) as [b Hb]. rewrite (bind_run _ _ _ _ _ (pb_run _ _ _ Hb)).
  destruct (ro_count _ _ _ HR p b Hb) as [Hc Hc256]. rewrite u8_small by lia.
  rewrite (bind_run _ _ _ _ _ (set_pb_run _ _ _ _ Hb)). destruct (Z.eqb_spec (p_ref b - 1) 0) as [E0|E0].
  - unfold drop_pb. rewrite update_bind. cbn [pbufs bytes alloc]. rewrite delete_insert_eq.
    destruct (ro_block _ _ _ HR p b Hb) as (n&Hn&HB).
    destruct (free_memory_run (mkP (delete p (pbufs s)) (bytes s) (alloc s)) H p b n (ro_owns _ _ _ HR) Hn HB) as (a&Ea&HO).
    rewrite (bind_run _ _ _ _ _ Ea). cbn [pbufs bytes].
    pose proof (refs_ok_release s refs H p b a HR Hb Hp ltac:(lia) HO) as HR1. set (s1 := mkP (delete p (pbufs s)) (bytes s) a) in *.
    assert (Hsz : size (pbufs s) = S (size (pbufs s1))).
    { cbn. rewrite map_size_delete, Hb. assert (0 < size (pbufs s))%nat; [|lia]. apply Nat.neq_0_lt_0. intros Hz%map_size_empty_inv. by rewrite Hz, lookup_empty in Hb. }
    assert (Hnext : p_next b = 0 \/ 0 < bump 1 (p_next b) (bump (-1) p refs) (p_next b)).
    { destruct (decide (p_next b = 0)) as [|Hn0]; [by left|right]. rewrite bump_same by done.
      destruct (decide (p_next b = p)) as [E|E]; [rewrite E, bump_same by done|rewrite bump_other by done];
        [lia|]. pose proof (ro_refs _ _ _ HR (p_next b)). lia. }
    destruct (IH s1 _ _ (p_next b) (u8 (count + 1)) HR1 Hnext ltac:(lia) (u8_range _)) as (s'&H'&E&HR'&Hsv&Hby&Hsub&Hle&_&_).
    exists s', H'. rewrite E. split.
    { do 2 f_equal. unfold u8. rewrite Zplus_mod_idemp_l. f_equal. lia. }
    split; [eapply refs_ok_ext; [|exact HR']|].
    { intros q. destruct (decide (p_next b = 0)) as [->|Hn0]; [by rewrite !bump_0|].
      destruct (decide (q = p_next b)) as [->|Hq]; [rewrite !bump_same by done; lia|by rewrite !(bump_other _ (p_next b)) by done]. }
    split; [|split; [done|split; [|split; [lia|split; [lia|]]]]].
    { eapply survivors_trans; [|exact Hsv]. intros q c Hq. cbn in Hq. apply lookup_delete_Some in Hq as [_ Hq]. exists c. split; [done|by destruct c]. }
    { etrans; [exact Hsub|apply delete_subseteq]. }
    intros [c Hx]. destruct (Hsv _ _ Hx) as (c'&Hx'&_). cbn in Hx'. by rewrite lookup_delete_eq in Hx'.
  - pose proof (refs_ok_count s refs H p b (-1) HR Hb ltac:(lia) ltac:(lia)) as HR1.
    assert (Hsz : size (<[p := with_ref (p_ref b - 1) b]> (pbufs s)) = size (pbufs s)) by (apply map_size_insert_Some; by eexists).
    exists (mkP (<[p := with_ref (p_ref b - 1) b]> (pbufs s)) (bytes s) (alloc s)), H.
    split; [cbn [pbufs]; rewrite Hsz, Nat.sub_diag, Z.add_0_r, u8_small by lia; reflexivity|]. split; [exact HR1|]. cbn [pbufs bytes].
    split; [|split; [done|split; [done|split; [lia|split; [|lia]]]]].
    + intros q c. cbn [pbufs]. rewrite lookup_insert. case_decide as E; [intros [= <-]; subst q; by exists b|]. intros Hq. exists c. split; [done|by destruct c].
    + intros _. by rewrite lookup_insert_eq.
Qed.

(** ** The operations *)

Lemma pbuf_free_run s refs H p : refs_ok s refs H -> 0 < refs p ->
  exists s' H', pbuf_free p s = Some (u8 (Z.of_nat (size (pbufs s) - size (pbufs s'))), s') /\
    refs_ok s' (bump (-1) p refs) H' /\ survivors s s' /\ bytes s' = bytes s /\ H' ⊆ H /\ (size (pbufs s') <= size (pbufs s))%nat /\
    (pbufs s' !! p = None -> (size (pbufs s') < size (pbufs s))%nat) /\
    (is_Some (pbufs s' !! p) -> size (pbufs s') = size (pbufs s)).
Proof.
  intros HR Hp. destruct (held_live _ _ _ _ HR Hp) as [b Hb]. pose proof (live_nonzero _ _ _ _ _ HR Hb) as Hp0.
  unfold pbuf_free. rewrite (proj2 (Z.eqb_neq p 0)) by done. rewrite chain_fuel_bind.
  destruct (free_loop_run (S (size (pbufs s))) s refs H p 0 HR ltac:(by right) ltac:(lia) ltac:(lia)) as (s'&H'&E&HR'&Hsv&Hby&Hsub&Hle&Hgone&Hkept).
  exists s', H'. rewrite E. split_and!; try done. intros Hx. apply Hgone; [by eexists|done].
Qed.

Lemma pbuf_ref_run s refs H p b : refs_ok s refs H -> pbufs s !! p = Some b -> p_ref b < 255 ->
  exists s', pbuf_ref p s = Some (tt, s') /\ refs_ok s' (bump 1 p refs) H.
Proof.
  intros HR Hb Hlt. pose proof (live_nonzero _ _ _ _ _ HR Hb) as Hp0. destruct (ro_count _ _ _ HR p b Hb) as [_ H1].
  unfold pbuf_ref. rewrite (proj2 (Z.eqb_neq p 0)) by done. cbn [negb when].
  rewrite (set_pb_run _ _ _ _ Hb). rewrite u8_small by lia. eexists. split; [done|].
  pose proof (ro_refs _ _ _ HR p). apply refs_ok_count; [done|done|lia|lia].
Qed.

Lemma no_pointers s refs H p : refs_ok s refs H -> pbufs s !! p = None -> p <> 0 -> pointers (pbufs s) p = 0.
Proof.
  intros HR Hp Hp0. pose proof (pointers_nonneg (pbufs s) p). destruct (decide (pointers (pbufs s) p = 0)) as [|Hne]; [done|].
  destruct (pointers_pos (pbufs s) p ltac:(lia)) as (a&b&Ha&Hn). destruct (ro_next _ _ _ _ _ HR Ha) as [|[c Hc]]; congruence.
Qed.

Lemma fresh_dead s refs H p : refs_ok s refs H -> H !! p = None -> pbufs s !! p = None.
Proof.
  intros HR Hp. destruct (pbufs s !! p) as [b|] eqn:E; [|done]. destruct (ro_block _ _ _ HR p b E) as (n&Hn&_). congruence.
Qed.

(** A new buffer, held by whoever has allocated it. *)
Lemma refs_ok_new s refs H p b n a m : refs_ok s refs H -> H !! p = None -> p <> 0 -> owns a (<[p := (source_of b, n)]> H) ->
  buffer_ok p b n -> p_next b = 0 -> p_ref b = 1 ->
  refs_ok (mkP (<[p := b]> (pbufs s)) m a) (bump 1 p refs) (<[p := (source_of b, n)]> H).
Proof.
  intros HR Hp Hp0 HO HB Hn Hr. pose proof (fresh_dead _ _ _ _ HR Hp) as Hd.
  assert (Hpt : forall q, q <> 0 -> pointers (<[p := b]> (pbufs s)) q = pointers (pbufs s) q).
  { intros q Hq. rewrite pointers_new by done. unfold points. rewrite Hn, decide_False by done. lia. }
  assert (Hr0 : refs p = 0).
  { destruct (ro_refs _ _ _ HR p) as [H1 H2]. destruct (decide (refs p = 0)) as [|Hne]; [done|]. destruct (H2 ltac:(lia)); congruence. }
  split; cbn [pbufs alloc].
  - done.
  - intros q. rewrite !lookup_insert. case_decide; [by eexists|apply (ro_dom _ _ _ HR)].
  - intros q c. rewrite !lookup_insert. case_decide as E; [|apply (ro_block _ _ _ HR)]. intros [= <-]. subst q. by exists n.
  - intros q c Hq. assert (Hq0 : q <> 0).
    { rewrite lookup_insert in Hq. case_decide; [congruence|]. by eapply live_nonzero. }
    rewrite Hpt by done. rewrite lookup_insert in Hq. case_decide as E.
    + injection Hq as <-. subst q. rewrite bump_same by done. rewrite (no_pointers _ _ _ _ HR Hd Hp0). lia.
    + rewrite bump_other by congruence. by apply (ro_count _ _ _ HR).
  - intros q. destruct (ro_refs _ _ _ HR q) as [H1 H2]. destruct (decide (q = p)) as [->|Hq].
    + rewrite bump_same by done. split; [lia|]. intros _. rewrite lookup_insert_eq. by eexists.
    + rewrite bump_other by done. rewrite lookup_insert_ne by done. by split.
  - intros q Hq. rewrite lookup_insert in Hq. case_decide as E.
    + subst q. exists [(p, b)]. cbn. rewrite lookup_insert_eq. by split_and!.
    + destruct (ro_chain _ _ _ HR q Hq) as [bs Hbs]. exists bs. eapply pchain_frame; [|exact Hbs].
      intros x Hx. apply lookup_insert_ne. intros <-. apply list_elem_of_fmap in Hx as ([y d]&E'&Hx). cbn in E'. subst y.
      pose proof (chain_in _ _ _ _ _ Hbs Hx). congruence.
Qed.

(** A chain that ends in [l] goes on with the chain of [t]. *)
Lemma chain_extend (M : gmap Z pbuf) x xs l b t bst : chain M x (xs ++ [(l, b)]) -> l ∉ xs.*1 -> chain M t bst -> l ∉ bst.*1 ->
  chain (<[l := with_next t b]> M) x (xs ++ (l, with_next t b) :: bst).
Proof.
  intros Hc Hxs Ht Hl. revert x Hc Hxs. induction xs as [|[a c] xs IH]; intros x Hc Hxs.
  - cbn in *. destruct Hc as (->&Hl0&E&_). split_and!; [done|done|apply lookup_insert_eq|]. eapply pchain_frame; [|exact Ht].
    intros q Hq. apply lookup_insert_ne. congruence.
  - cbn in *. destruct Hc as (->&Ha&E&Hc). apply not_elem_of_cons in Hxs as [Hne Hxs]. split_and!; [done|done|by rewrite lookup_insert_ne|].
    by apply IH.
Qed.

(** The user's reference to [t] becomes the pointer of the last buffer [l] of
    another chain. *)
Lemma refs_ok_link s refs H l b t bst : refs_ok s refs H -> pbufs s !! l = Some b -> p_next b = 0 -> 0 < refs t ->
  chain (pbufs s) t bst -> l ∉ bst.*1 ->
  refs_ok (mkP (<[l := with_next t b]> (pbufs s)) (bytes s) (alloc s)) (bump (-1) t refs) H.
Proof.
  intros HR Hl Hn Ht Hct Hlt. destruct (held_live _ _ _ _ HR Ht) as [bt Hbt]. pose proof (live_nonzero _ _ _ _ _ HR Hbt) as Ht0.
  assert (Hlive : forall q, is_Some (pbufs s !! q) -> is_Some (<[l := with_next t b]> (pbufs s) !! q)).
  { intros q Hq. rewrite lookup_insert. case_decide; [by eexists|done]. }
  assert (Hpt : forall q, q <> 0 -> pointers (<[l := with_next t b]> (pbufs s)) q = pointers (pbufs s) q + (if decide (q = t) then 1 else 0)).
  { intros q Hq. rewrite (pointers_update _ _ b) by done. unfold points. rewrite Hn. cbn [with_next p_next].
    rewrite (decide_False (P := 0 = q)) by congruence. repeat case_decide; try congruence; lia. }
  split; cbn [pbufs alloc].
  - apply (ro_owns _ _ _ HR).
  - intros q Hq. by apply Hlive, (ro_dom _ _ _ HR).
  - intros q c. rewrite lookup_insert. case_decide as E; [|apply (ro_block _ _ _ HR)]. intros [= <-]. subst q.
    destruct (ro_block _ _ _ HR l b Hl) as (n&Hx&[]). exists n. by split.
  - intros q c Hq. assert (Hcase : exists c0, pbufs s !! q = Some c0 /\ p_ref c = p_ref c0).
    { rewrite lookup_insert in Hq. case_decide; [injection Hq as <-; subst q; by exists b|by exists c]. }
    destruct Hcase as (c0&Hq0&Hrc). pose proof (live_nonzero _ _ _ _ _ HR Hq0) as Hqn. rewrite Hpt, Hrc by done.
    destruct (ro_count _ _ _ HR q c0 Hq0) as [H1 H2]. case_decide as E; [subst q; rewrite bump_same by done|rewrite bump_other by done]; lia.
  - intros q. destruct (ro_refs _ _ _ HR q) as [H1 H2]. destruct (decide (q = t)) as [->|Hq].
    + rewrite bump_same by done. split; [lia|]. intros _. apply Hlive. by eexists.
    + rewrite bump_other by done. split; [done|]. intros Hx. by apply Hlive, H2.
  - intros q Hq. apply lookup_insert_is_Some' in Hq. assert (Hq' : is_Some (pbufs s !! q)) by (destruct Hq as [<-|]; [by eexists|done]).
    destruct (ro_chain _ _ _ HR q Hq') as [bs Hbs]. destruct (decide (l ∈ bs.*1)) as [Hin|Hin].
    + apply list_elem_of_fmap in Hin as ([l' b']&E&Hin). cbn in E. subst l'. pose proof (chain_in _ _ _ _ _ Hbs Hin) as Eb.
      assert (b' = b) as -> by congruence. apply list_elem_of_split in Hin as (xs&ys&->).
      assert (Hys : ys = []).
      { destruct (pchain_app _ _ _ _ Hbs) as (z&Hz&_). cbn in Hz. destruct Hz as (_&_&_&Hz). rewrite Hn in Hz.
        destruct ys as [|[y c] ys]; [done|]. by destruct Hz as (?&?&_). }
      subst ys. exists (xs ++ (l, with_next t b) :: bst). apply chain_extend; [done| |done|done].
      pose proof (chain_nodup _ _ _ Hbs) as Hnd. rewrite fmap_app in Hnd. apply NoDup_app in Hnd as (_&Hnd&_).
      intros Hx. apply (Hnd l Hx). cbn. left.
    + exists bs. eapply pchain_frame; [|exact Hbs]. intros x Hx. apply lookup_insert_ne. congruence.
Qed.

Lemma chain_truncate (M : gmap Z pbuf) x xs l b ys : chain M x (xs ++ (l, b) :: ys) ->
  l ∉ xs.*1 -> chain (<[l := with_next 0 b]> M) x (xs ++ [(l, with_next 0 b)]).
Proof.
  revert x. induction xs as [|[a c] xs IH]; intros x Hc Hxs; cbn in *.
  - destruct Hc as (->&Hl0&E&_). split_and!; [done|done|apply lookup_insert_eq|done].
  - destruct Hc as (->&Ha&E&Hc). apply not_elem_of_cons in Hxs as [Hne Hxs]. split_and!; [done|done|by rewrite lookup_insert_ne|]. by apply IH.
Qed.

(** The pointer of [p] to its successor passes into the hands of the user. *)
Lemma refs_ok_unlink s refs H p b : refs_ok s refs H -> pbufs s !! p = Some b ->
  refs_ok (mkP (<[p := with_next 0 b]> (pbufs s)) (bytes s) (alloc s)) (bump 1 (p_next b) refs) H.
Proof.
  intros HR Hp.
  assert (Hlive : forall q, is_Some (pbufs s !! q) -> is_Some (<[p := with_next 0 b]> (pbufs s) !! q)).
  { intros q Hq. rewrite lookup_insert. case_decide; [by eexists|done]. }
  assert (Hpt : forall q, q <> 0 -> pointers (<[p := with_next 0 b]> (pbufs s)) q = pointers (pbufs s) q - points b q).
  { intros q Hq. rewrite (pointers_update _ _ b) by done. unfold points at 2. cbn [with_next p_next]. rewrite decide_False by congruence. lia. }
  split; cbn [pbufs alloc].
  - apply (ro_owns _ _ _ HR).
  - intros q Hq. by apply Hlive, (ro_dom _ _ _ HR).
  - intros q c. rewrite lookup_insert. case_decide as E; [|apply (ro_block _ _ _ HR)]. intros [= <-]. subst q.
    destruct (ro_block _ _ _ HR p b Hp) as (n&Hx&[]). exists n. by split.
  - intros q c Hq. assert (Hcase : exists c0, pbufs s !! q = Some c0 /\ p_ref c = p_ref c0).
    { rewrite lookup_insert in Hq. case_decide; [injection Hq as <-; subst q; by exists b|by exists c]. }
    destruct Hcase as (c0&Hq0&Hrc). pose proof (live_nonzero _ _ _ _ _ HR Hq0) as Hqn. rewrite Hpt, Hrc by done. unfold points.
    destruct (ro_count _ _ _ HR q c0 Hq0) as [H1 H2]. case_decide as E; [subst q; rewrite bump_same by done|rewrite bump_other by congruence]; lia.
  - intros q. destruct (ro_refs _ _ _ HR q) as [H1 H2]. unfold bump. case_decide as E.
    + destruct E as [-> Hn0]. split; [lia|]. intros _. apply Hlive. by destruct (ro_next _ _ _ _ _ HR Hp).
    + split; [done|]. intros Hx. by apply Hlive, H2.
  - intros q Hq. apply lookup_insert_is_Some' in Hq. assert (Hq' : is_Some (pbufs s !! q)) by (destruct Hq as [<-|]; [by eexists|done]).
    destruct (ro_chain _ _ _ HR q Hq') as [bs Hbs]. destruct (decide (p ∈ bs.*1)) as [Hin|Hin].
    + apply list_elem_of_fmap in Hin as ([l' b']&E&Hin). cbn in E. subst l'. pose proof (chain_in _ _ _ _ _ Hbs Hin) as Eb.
      assert (b' = b) as -> by congruence. apply list_elem_of_split in Hin as (xs&ys&->). exists (xs ++ [(p, with_next 0 b)]).
      eapply chain_truncate; [exact Hbs|]. pose proof (chain_nodup _ _ _ Hbs) as Hnd. rewrite fmap_app in Hnd.
      apply NoDup_app in Hnd as (_&Hnd&_). intros Hx. apply (Hnd p Hx). cbn. left.
    + exists bs. eapply pchain_frame; [|exact Hbs]. intros x Hx. apply lookup_insert_ne. congruence.
Qed.


(** *** Chaining *)

Lemma buffer_ok_tot p b n v : 0 <= v < 2 ^ 16 -> buffer_ok p b n -> buffer_ok p (with_tot_len v b) n.
Proof. intros Hv [? [? ?] ? ?]. split; done. Qed.

(** A chain of which each total length has grown by [add] and whose last buffer
    points to [t]. *)
Fixpoint catted (add t : Z) (bs : list (Z * pbuf)) : list (Z * pbuf) :=
  match bs with
  | [] => []
  | (a, b) :: bs' =>
      let b' := with_tot_len (u16 (p_tot_len b + add)) b in
      (a, match bs' with [] => with_next t b' | _ => b' end) :: catted add t bs'
  end.

Lemma catted_fst add t bs : (catted add t bs).*1 = bs.*1.
Proof. induction bs as [|[a b] bs IH]; [done|]. cbn. by rewrite IH. Qed.

Lemma addrs_app xs ys : addrs (xs ++ ys) = addrs xs ++ addrs ys.
Proof. induction xs as [|[a b] xs IH]; [done|]. cbn. by rewrite IH, app_assoc. Qed.

Lemma addrs_catted add t bs : addrs (catted add t bs) = addrs bs.
Proof. induction bs as [|[a b] bs IH]; [done|]. cbn. rewrite IH. by destruct bs. Qed.

Lemma lens_catted t bs bst : lens_ok bs -> lens_ok bst -> total bs + total bst < 2 ^ 16 ->
  lens_ok (catted (total bst) t bs ++ bst) /\ total (catted (total bst) t bs ++ bst) = total bs + total bst.
Proof.
  induction bs as [|[a b] bs IH]; [done|]. cbn [lens_ok catted app total]. intros (H1&H2&H3&H4) Ht H16. pose proof (total_nneg _ Ht).
  destruct (IH H4 Ht ltac:(lia)) as [I1 I2].
  assert (Hl : forall c, c = with_tot_len (u16 (p_tot_len b + total bst)) b \/ c = with_next t (with_tot_len (u16 (p_tot_len b + total bst)) b) ->
    p_len c = p_len b /\ p_tot_len c = p_len b + (total bs + total bst)).
  { pose proof (total_nneg _ H4). intros c [->| ->]; cbn; (split; [done|]); rewrite u16_small by lia; lia. }
  destruct bs as [|[a' b'] bs]; cbn [app catted] in *;
    [destruct (Hl _ (or_intror eq_refl)) as [-> ->]|destruct (Hl _ (or_introl eq_refl)) as [-> ->]]; rewrite I2; split_and!; done || lia.
Qed.

Lemma cat_loop_run fuel s refs H x bs add t bst : refs_ok s refs H -> chain (pbufs s) x bs -> bs <> [] -> (length bs <= fuel)%nat ->
  0 < refs t -> chain (pbufs s) t bst -> (forall l, l ∈ bs.*1 -> l ∉ bst.*1) ->
  exists s', cat_loop fuel x add t s = Some (tt, s') /\ refs_ok s' (bump (-1) t refs) H /\ bytes s' = bytes s /\
    chain (pbufs s') x (catted add t bs ++ bst) /\ (forall q, q ∉ bs.*1 -> pbufs s' !! q = pbufs s !! q).
Proof.
  revert s x bs. induction fuel as [|fuel IH]; intros s x bs HR Hc Hne Hf Ht Hct Hdj; [destruct bs; [done|cbn in Hf; lia]|].
  destruct bs as [|[a b] bs]; [done|]. pose proof Hc as Hc0. cbn in Hc. destruct Hc as (->&Ha&E&Hc). cbn [cat_loop].
  rewrite (bind_run _ _ _ _ _ (pb_run _ _ _ E)), (bind_run _ _ _ _ _ (set_pb_run _ _ _ _ E)).
  set (b' := with_tot_len (u16 (p_tot_len b + add)) b). set (s1 := mkP (<[a := b']> (pbufs s)) (bytes s) (alloc s)).
  assert (HR1 : refs_ok s1 refs H).
  { apply (refs_ok_data s refs H a b b' (bytes s) HR E); [done|]. intros n _. apply buffer_ok_tot, u16_range. }
  pose proof (chain_nodup _ _ _ Hc0) as Hnd. cbn in Hnd. apply NoDup_cons in Hnd as [Hnd1 Hnd2].
  assert (Ea : pbufs s1 !! a = Some b') by apply lookup_insert_eq.
  assert (Hkeep : forall q, q <> a -> pbufs s1 !! q = pbufs s !! q) by (intros q Hq; apply lookup_insert_ne; congruence).
  assert (Hct1 : chain (pbufs s1) t bst).
  { eapply pchain_frame; [|exact Hct]. intros q Hq. apply Hkeep. intros ->. apply (Hdj a); [cbn; left|done]. }
  destruct (decide (p_next b = 0)) as [Hn|Hn].
  - rewrite Hn. cbn [Z.eqb]. rewrite Hn in Hc. destruct bs as [|[y c] bs]; [|by destruct Hc as (?&?&_)].
    rewrite (set_pb_run _ _ _ _ Ea). eexists. split; [done|]. cbn [pbufs bytes].
    assert (Hl : a ∉ bst.*1) by (apply Hdj; cbn; left).
    split; [apply (refs_ok_link s1 refs H a b' t bst HR1 Ea Hn Ht Hct1 Hl)|]. split; [done|]. split.
    + apply (chain_extend (pbufs s1) a [] a b' t bst); [|by apply not_elem_of_nil|done|done].
      cbn [app chain]. split_and!; [done|done|done|exact Hn].
    + intros q Hq. rewrite lookup_insert_ne; [apply Hkeep|]; intros ->; apply Hq; cbn; left.
  - rewrite (proj2 (Z.eqb_neq _ 0)) by done. destruct bs as [|[y c] bs]; [done|]. set (rest := (y, c) :: bs) in *.
    destruct (IH s1 (p_next b) rest HR1) as (s'&E'&HR'&Hby&Hc'&Hfr); [|done|cbn [length] in Hf; unfold rest in *; lia|done|done| |].
    + eapply pchain_frame; [|exact Hc]. intros q Hq. apply Hkeep. by intros ->.
    + intros l Hl. apply Hdj. cbn. by right.
    + exists s'. rewrite E'. split; [done|]. split; [done|]. split; [done|]. split.
      * change (catted add t ((a, b) :: rest)) with ((a, b') :: catted add t rest). cbn [app chain]. split_and!; [done|done| |done].
        by rewrite Hfr.
      * intros q Hq. rewrite Hfr by (intros Hx; apply Hq; cbn; by right). apply Hkeep. intros ->. apply Hq. cbn. left.
Qed.

Lemma pbuf_cat_run s refs H h bs t bst : refs_ok s refs H -> 0 < refs h -> 0 < refs t ->
  chain (pbufs s) h bs -> chain (pbufs s) t bst -> lens_ok bst -> (forall l, l ∈ bs.*1 -> l ∉ bst.*1) ->
  exists s', pbuf_cat h t s = Some (tt, s') /\ refs_ok s' (bump (-1) t refs) H /\ bytes s' = bytes s /\
    chain (pbufs s') h (catted (total bst) t bs ++ bst).
Proof.
  intros HR Hh Ht Hch Hct Hl Hdj. destruct (held_live _ _ _ _ HR Hh) as [bh Ebh]. destruct (held_live _ _ _ _ HR Ht) as [bt Ebt].
  pose proof (live_nonzero _ _ _ _ _ HR Ebh) as Hh0. pose proof (live_nonzero _ _ _ _ _ HR Ebt) as Ht0.
  unfold pbuf_cat. rewrite (proj2 (Z.eqb_neq h 0)), (proj2 (Z.eqb_neq t 0)) by done. cbn [orb].
  rewrite chain_fuel_bind, (bind_run _ _ _ _ _ (pb_run _ _ _ Ebt)).
  assert (Htl : p_tot_len bt = total bst).
  { destruct bst as [|[y c] r]; [done|]. cbn in Hct, Hl. destruct Hct as (->&_&E&_). destruct Hl as (_&?&_). cbn. congruence. }
  rewrite Htl. pose proof (chain_size _ _ _ Hch).
  destruct (cat_loop_run (S (size (pbufs s))) s refs H h bs (total bst) t bst HR Hch) as (s'&E&HR'&Hby&Hc'&_); [..|by exists s'].
  - intros ->. cbn in Hch. done.
  - lia.
  - done.
  - done.
  - done.
Qed.

(** Chaining leaves the caller's reference to the tail alone. *)
Lemma pbuf_chain_run s refs H h bs t bst bt : refs_ok s refs H -> 0 < refs h -> 0 < refs t -> pbufs s !! t = Some bt -> p_ref bt < 255 ->
  chain (pbufs s) h bs -> chain (pbufs s) t bst -> lens_ok bst -> (forall l, l ∈ bs.*1 -> l ∉ bst.*1) ->
  exists s', pbuf_chain h t s = Some (tt, s') /\ refs_ok s' refs H.
Proof.
  intros HR Hh Ht Hbt H255 Hch Hct Hl Hdj. destruct (pbuf_cat_run s refs H h bs t bst HR Hh Ht Hch Hct Hl Hdj) as (s1&E&HR1&_&Hc1).
  unfold pbuf_chain. rewrite (bind_run _ _ _ _ _ E).
  assert (Hin : (t, bt) ∈ bst).
  { destruct bst as [|[y c] r]; [cbn in Hct; subst t; by pose proof (live_nonzero _ _ _ _ _ HR Hbt)|].
    destruct Hct as (->&_&E1&_). rewrite Hbt in E1. injection E1 as <-. left. }
  assert (Hbt1 : pbufs s1 !! t = Some bt) by (eapply chain_in; [exact Hc1|]; apply elem_of_app; by right).
  destruct (pbuf_ref_run s1 _ H t bt HR1 Hbt1 H255) as (s2&E2&HR2). exists s2. split; [done|].
  eapply refs_ok_ext; [|exact HR2]. intros q. destruct (decide (q = t)) as [->|Hq]; [|by rewrite !bump_other by done].
  rewrite !bump_same by exact (live_nonzero _ _ _ _ _ HR Hbt). lia.
Qed.

(** The first buffer is separated from the rest of the chain, which stays alive
    if anyone else refers to it. *)
Lemma pbuf_dechain_run s refs H p b : refs_ok s refs H -> 0 < refs p -> pbufs s !! p = Some b -> (size (pbufs s) < 256)%nat ->
  exists q s' H', pbuf_dechain p s = Some (q, s') /\ refs_ok s' refs H' /\ H' ⊆ H /\
    q = (if decide (is_Some (pbufs s' !! p_next b)) then p_next b else 0).
Proof.
  intros HR Hp Hb H256. pose proof (live_nonzero _ _ _ _ _ HR Hb) as Hp0. unfold pbuf_dechain. rewrite (bind_run _ _ _ _ _ (pb_run _ _ _ Hb)).
  destruct (Z.eqb_spec (p_next b) 0) as [Hn|Hn].
  { rewrite ret_bind. exists 0, s, H. cbn. split_and!; [done|done|done|]. rewrite Hn. by case_decide. }
  destruct (ro_next _ _ _ _ _ HR Hb) as [|[c Hc]]; [done|]. set (q := p_next b) in *.
  assert (Hqp : q <> p).
  { destruct (ro_chain _ _ _ HR p ltac:(by eexists)) as [bs Hbs]. pose proof (chain_nodup _ _ _ Hbs) as Hnd.
    destruct bs as [|[x y] bs]; [cbn in Hbs; by subst|]. cbn in Hbs. destruct Hbs as (<-&_&E&Hbs). rewrite Hb in E. injection E as <-.
    fold q in Hbs. destruct bs as [|[x' y'] bs]; [done|]. destruct Hbs as (->&_). cbn in Hnd. apply NoDup_cons in Hnd as [Hnd _].
    intros ->. apply Hnd. left. }
  rewrite !bind_assoc_run, (bind_run _ _ _ _ _ (set_pb_run _ _ _ _ Hc)). set (c' := with_tot_len _ c).
  set (s1 := mkP (<[q := c']> (pbufs s)) (bytes s) (alloc s)).
  assert (HR1 : refs_ok s1 refs H) by (apply (refs_ok_data s refs H q c c' (bytes s) HR Hc); [done|intros n _; apply buffer_ok_tot, u16_range]).
  assert (Eb1 : pbufs s1 !! p = Some b) by (cbn; by rewrite lookup_insert_ne).
  rewrite !bind_assoc_run, (bind_run _ _ _ _ _ (set_pb_run _ _ _ _ Eb1)). set (s2 := mkP (<[p := with_next 0 b]> (pbufs s1)) (bytes s1) (alloc s1)).
  pose proof (refs_ok_unlink s1 refs H p b HR1 Eb1) as HR2. fold s2 q in HR2.
  assert (Eb2 : pbufs s2 !! p = Some (with_next 0 b)) by apply lookup_insert_eq.
  rewrite !bind_assoc_run, (bind_run _ _ _ _ _ (set_pb_run _ _ _ _ Eb2)). set (b3 := with_tot_len _ _).
  set (s3 := mkP (<[p := b3]> (pbufs s2)) (bytes s2) (alloc s2)).
  assert (HR3 : refs_ok s3 (bump 1 q refs) H).
  { apply (refs_ok_data s2 _ H p (with_next 0 b) b3 (bytes s2) HR2 Eb2); [done|]. intros n _ HB. apply buffer_ok_tot; [|done].
    destruct (ro_block _ _ _ HR p b Hb) as (m&_&HB'). apply HB'. }
  assert (Hsz : size (pbufs s3) = size (pbufs s)).
  { cbn [s3 pbufs]. rewrite (map_size_insert_Some _ _ (pbufs s2)) by (by eexists). cbn [s2 pbufs].
    rewrite (map_size_insert_Some _ _ (pbufs s1)) by (by eexists). cbn [s1 pbufs]. by rewrite map_size_insert_Some by (by eexists). }
  assert (Hq3 : 0 < bump 1 q refs q) by (rewrite bump_same by done; pose proof (ro_refs _ _ _ HR q); lia).
  destruct (pbuf_free_run s3 _ H q HR3 Hq3) as (s'&H'&E&HR'&_&_&Hsub&Hle&Hgone&Hkept).
  rewrite (bind_run _ _ _ _ _ E). eexists _, s', H'. split; [reflexivity|]. split.
  { eapply refs_ok_ext; [|exact HR']. intros x. destruct (decide (x = q)) as [->|Hx]; [rewrite !bump_same by done; lia|by rewrite !bump_other by done]. }
  split; [done|]. case_decide as Hlive.
  - rewrite (Hkept Hlive), Nat.sub_diag. done.
  - assert (Hx : pbufs s' !! q = None) by (destruct (pbufs s' !! q) eqn:Ex; [exfalso; apply Hlive; by eexists|done]).
    specialize (Hgone Hx). rewrite u8_small by lia. by rewrite (proj2 (Z.ltb_lt _ _)) by lia.
Qed.

(** *** Allocation *)

Lemma mem_align x : 0 <= x < 2 ^ 32 - 3 -> LWIP_MEM_ALIGN x = (x + 3) / 4 * 4 /\ LWIP_MEM_ALIGN_SIZE x = (x + 3) / 4 * 4.
Proof.
  intros Hx. unfold LWIP_MEM_ALIGN, LWIP_MEM_ALIGN_SIZE, MEM_ALIGNMENT. rewrite !(u32_small (x + 4 - 1)) by lia.
  change (4 - 1) with (Z.ones 2). rewrite Z.ldiff_ones_r, Z.shiftl_mul_pow2, Z.shiftr_div_pow2 by lia. change (2 ^ 2) with 4.
  by replace (x + 4 - 1) with (x + 3) by lia.
Qed.

(** A new buffer of some type. *)
Definition fresh_pbuf (payload tot len : Z) (t : pbuf_type) : pbuf := mkPbuf 0 payload tot len (u8 (type_value t)) 0 1 NETIF_NO_INDEX.

Definition type_source (t : pbuf_type) : source :=
  match t with PBUF_RAM => FromHeap | PBUF_POOL => FromPool MEMP_PBUF_POOL | _ => FromPool MEMP_PBUF end.

Lemma fresh_source payload tot len t : source_of (fresh_pbuf payload tot len t) = type_source t.
Proof. by destruct t. Qed.

Lemma fresh_ok p n payload tot len t : 0 <= len < 2 ^ 16 -> 0 <= tot < 2 ^ 16 ->
  (t = PBUF_RAM \/ t = PBUF_POOL -> p + SIZEOF_STRUCT_PBUF <= payload /\ payload + len <= p + n) ->
  buffer_ok p (fresh_pbuf payload tot len t) n.
Proof.
  intros Hl Ht Hd. split; [| |by destruct t|].
  - destruct t; vm_compute; auto.
  - done.
  - destruct t; intros Hc; [apply Hd; by left|by vm_compute in Hc|by vm_compute in Hc|apply Hd; by right].
Qed.

(** All buffers are of one type. *)
Definition typed (t : pbuf_type) (bs : list (Z * pbuf)) : Prop := Forall (fun ab => p_type_internal ab.2 = u8 (type_value t)) bs.

(** What an allocation brings about: nothing, or a packet of [len] bytes in new
    buffers, held by the caller. *)
Definition allocated s (refs : Z -> Z) (len : Z) (t : pbuf_type) (p : Z) (s' : pstate A) (H' : gmap Z (source * Z)) : Prop :=
  bytes s' = bytes s /\
  (p = 0 /\ refs_ok s' refs H' \/
   p <> 0 /\ refs_ok s' (bump 1 p refs) H' /\
     exists bs, chain (pbufs s') p bs /\ lens_ok bs /\ total bs = len /\ typed t bs /\ forall q, q ∈ bs.*1 -> pbufs s !! q = None).

(** One new buffer in the block that the memory has given out. *)
Lemma new_buffer s refs H p n payload len t a : refs_ok s refs H -> H !! p = None -> p <> 0 -> owns a (<[p := (type_source t, n)]> H) ->
  0 <= len < 2 ^ 16 -> (t = PBUF_RAM \/ t = PBUF_POOL -> p + SIZEOF_STRUCT_PBUF <= payload /\ payload + len <= p + n) ->
  let b := fresh_pbuf payload len len t in
  allocated s refs len t p (mkP (<[p := b]> (pbufs s)) (bytes s) a) (<[p := (type_source t, n)]> H).
Proof.
  intros HR Hp Hp0 HO Hl Hd b. split; [done|]. right. split; [done|]. split.
  - pose proof (fresh_source payload len len t) as Hs. fold b in Hs. rewrite <- Hs in *.
    apply refs_ok_new; try done. by apply fresh_ok.
  - exists [(p, b)]. cbn. rewrite lookup_insert_eq. split_and!; try done; try lia; [by repeat constructor|].
    intros q ->%list_elem_of_singleton. by eapply fresh_dead.
Qed.

Lemma pbuf_alloc_reference_run s refs H payload len t : refs_ok s refs H -> 0 <= len < 2 ^ 16 -> t = PBUF_ROM \/ t = PBUF_REF ->
  exists p s' H', pbuf_alloc_reference payload len t s = Some (p, s') /\ allocated s refs len t p s' H'.
Proof.
  intros HR Hl Ht. unfold pbuf_alloc_reference.
  destruct (owns_pool_malloc _ _ MEMP_PBUF (ro_owns _ _ _ HR)) as (x&a&E&[[-> HO]|(Hx&Hnew&HO)]);
    rewrite (bind_run _ _ _ _ _ (in_alloc_run _ _ _ _ E)).
  - cbn. exists 0. eexists _, H. split; [done|]. split; [done|]. left. split; [done|]. destruct HR; by split.
  - rewrite (proj2 (Z.eqb_neq x 0)) by done. unfold pbuf_init_alloced_pbuf, new_pb. rewrite update_bind. cbn [pbufs bytes alloc].
    assert (Hs : FromPool MEMP_PBUF = type_source t) by (by destruct Ht as [->| ->]). rewrite Hs in HO.
    exists x. eexists _, _. split; [done|]. apply (new_buffer s refs H x (pool_size MEMP_PBUF) payload len t a); try done.
    intros [->| ->]; by destruct Ht.
Qed.

Lemma layer_offset_range l : 0 <= layer_offset l <= 54.
Proof. destruct l; vm_compute; split; discriminate. Qed.

Lemma pbuf_alloc_ram_run s refs H layer len : refs_ok s refs H -> 0 <= len < 2 ^ 16 ->
  exists p s' H', pbuf_alloc layer len PBUF_RAM s = Some (p, s') /\ allocated s refs len PBUF_RAM p s' H'.
Proof.
  intros HR Hl. pose proof (layer_offset_range layer) as Ho. unfold pbuf_alloc. set (off := layer_offset layer) in *. clearbody off.
  rewrite (proj2 (mem_align off ltac:(lia))), (proj2 (mem_align len ltac:(lia))), (proj2 (mem_align SIZEOF_STRUCT_PBUF ltac:(vm_compute; split; congruence))).
  change ((SIZEOF_STRUCT_PBUF + 3) / 4 * 4) with 16. set (ao := (off + 3) / 4 * 4). set (al := (len + 3) / 4 * 4).
  assert (Hao : 0 <= ao <= 56 /\ off <= ao /\ ao mod 4 = 0) by (unfold ao; dlia).
  assert (Hal : 0 <= al <= 65536 /\ len <= al /\ al mod 4 = 0) by (unfold al; dlia).
  destruct (Z.ltb_spec (u16 (ao + al)) al) as [|H1]; cbn [orb].
  { exists 0, s, H. split; [done|]. split; [done|]. by left. }
  destruct (Z.ltb_spec (u16 (16 + u16 (ao + al))) al) as [|H2].
  { exists 0, s, H. split; [done|]. split; [done|]. by left. }
  assert (E1 : u16 (ao + al) = ao + al) by (unfold u16 in *; dlia). rewrite E1 in *.
  assert (E2 : u16 (16 + (ao + al)) = 16 + (ao + al)) by (unfold u16 in *; dlia). rewrite E2 in *.
  pose proof (u16_range (16 + (ao + al))) as Hr. rewrite E2 in Hr.
  destruct (owns_heap_malloc _ _ (16 + (ao + al)) (ro_owns _ _ _ HR) ltac:(lia)) as (x&a&E&[[-> HO]|(Hx&Hnew&HO)]);
    rewrite (bind_run _ _ _ _ _ (in_alloc_run _ _ _ _ E)).
  - cbn. exists 0. eexists _, H. split; [done|]. split; [done|]. left. split; [done|]. destruct HR; by split.
  - rewrite (proj2 (Z.eqb_neq x 0)) by done. unfold pbuf_init_alloced_pbuf, new_pb. rewrite update_bind. cbn [pbufs bytes alloc].
    assert (Hrange : x mod 4 = 0 /\ 0 < x /\ x + (16 + (ao + al)) < 2 ^ 32).
    { destruct (owns_range _ _ x FromHeap (16 + (ao + al)) HO) as (?&?&_&?); [apply lookup_insert_eq|done]. }
    exists x. eexists _, _. split; [done|]. apply (new_buffer s refs H x (16 + (ao + al)) _ len PBUF_RAM a); try done.
    intros _. rewrite (proj1 (mem_align (x + SIZEOF_STRUCT_PBUF + off) ltac:(unfold SIZEOF_STRUCT_PBUF; dlia))). unfold SIZEOF_STRUCT_PBUF, ao in *. dlia.
Qed.

(** A chain under construction: [r] more bytes are to come. *)
Fixpoint lens_upto (r : Z) (bs : list (Z * pbuf)) : Prop :=
  match bs with
  | [] => True
  | (_, b) :: bs' => 0 <= p_len b /\ p_tot_len b = p_len b + total bs' + r /\ p_tot_len b < 2 ^ 16 /\ lens_upto r bs'
  end.

Lemma total_chain_app xs ys : total (xs ++ ys) = total xs + total ys.
Proof. induction xs as [|[a b] xs IH]; cbn; [done|]. lia. Qed.

Lemma lens_upto_snoc r xs q b : lens_upto r xs -> 0 <= p_len b -> p_tot_len b = r -> r < 2 ^ 16 ->
  lens_upto (r - p_len b) (xs ++ [(q, b)]).
Proof.
  intros Hx Hl Ht Hr. induction xs as [|[a c] xs IH]; cbn in *; [split_and!; lia|].
  destruct Hx as (?&?&?&?). rewrite total_chain_app. cbn. split_and!; [done|lia|done|auto].
Qed.

Lemma lens_upto_0 bs : lens_upto 0 bs -> lens_ok bs.
Proof. induction bs as [|[a b] bs IH]; cbn; [done|]. intros (?&?&?&?). split_and!; [done|lia|done|auto]. Qed.

Lemma lens_upto_with_next r xs l b t : lens_upto r (xs ++ [(l, b)]) -> lens_upto r (xs ++ [(l, with_next t b)]).
Proof.
  induction xs as [|[a c] xs IH]; cbn; [done|]. intros (?&E&?&?). rewrite total_chain_app in *. cbn in *. split_and!; auto.
Qed.

(** The packet built so far: none, or [p] with its buffers [xs], the last of them at [last]. *)
Definition built s (refs : Z -> Z) (H : gmap Z (source * Z)) (p last r : Z) (xs : list (Z * pbuf)) : Prop :=
  p = 0 /\ xs = [] /\ refs_ok s refs H \/
  p <> 0 /\ refs_ok s (bump 1 p refs) H /\ chain (pbufs s) p xs /\ lens_upto r xs /\ typed PBUF_POOL xs /\ 0 < bump 1 p refs p /\
    exists ys b, xs = ys ++ [(last, b)].

Lemma bump_cancel p refs q : bump (-1) p (bump 1 p refs) q = refs q.
Proof. unfold bump. case_decide; lia. Qed.

(** A buffer is put behind what has been built. *)
Lemma built_step s refs H p last r xs q n payload qlen a : built s refs H p last r xs -> H !! q = None -> q <> 0 ->
  owns a (<[q := (FromPool MEMP_PBUF_POOL, n)]> H) -> 0 <= qlen <= r -> r < 2 ^ 16 ->
  q + SIZEOF_STRUCT_PBUF <= payload -> payload + qlen <= q + n ->
  let b := fresh_pbuf payload r qlen PBUF_POOL in
  let s1 := mkP (<[q := b]> (pbufs s)) (bytes s) a in
  exists s2 xs', (when (negb (p =? 0)) (set_pb last (with_next q))) s1 = Some (tt, s2) /\
    built s2 refs (<[q := (FromPool MEMP_PBUF_POOL, n)]> H) (if p =? 0 then q else p) q (r - qlen) xs' /\
    bytes s2 = bytes s /\ total xs' = total xs + qlen /\ xs'.*1 = xs.*1 ++ [q].
Proof.
  intros HB Hq Hq0 HO Hl Hr Hd1 Hd2 b s1.
  assert (Hnew : forall refs0, refs_ok s refs0 H -> refs_ok s1 (bump 1 q refs0) (<[q := (FromPool MEMP_PBUF_POOL, n)]> H)).
  { intros refs0 HR. pose proof (fresh_source payload r qlen PBUF_POOL) as Hs. fold b in Hs. cbn in Hs. rewrite <- Hs in *.
    apply refs_ok_new; try done. apply fresh_ok; [lia|lia|]. by intros _. }
  destruct HB as [(->&->&HR)|(Hp&HR&Hc&Hlu&Hty&Hrp&ys&bl&->)].
  - cbn [Z.eqb negb when]. exists s1, [(q, b)]. split; [done|]. split; [|split_and!; [done|cbn; lia|done]].
    right. split; [done|]. split; [by apply Hnew|]. split; [cbn; rewrite lookup_insert_eq; by split_and!|].
    split; [apply (lens_upto_snoc r [] q b); cbn; done || lia|]. split; [by repeat constructor|].
    split; [rewrite bump_same by done; pose proof (ro_refs _ _ _ HR q); lia|]. by exists [], b.
  - rewrite (proj2 (Z.eqb_neq p 0)) by done. cbn [negb when].
    pose proof (fresh_dead _ _ _ _ HR Hq) as Hdead.
    assert (Hfr : chain (pbufs s1) p (ys ++ [(last, bl)])).
    { eapply pchain_frame; [|exact Hc]. intros x Hx. apply lookup_insert_ne. intros <-.
      apply list_elem_of_fmap in Hx as ([y d]&E'&Hx). cbn in E'. subst y. pose proof (chain_in _ _ _ _ _ Hc Hx). congruence. }
    assert (Hlast : pbufs s1 !! last = Some bl) by (eapply chain_in; [exact Hfr|]; apply elem_of_app; right; left).
    assert (Hln : p_next bl = 0).
    { destruct (pchain_app _ _ _ _ Hfr) as (z&Hz&_). cbn in Hz. by destruct Hz as (_&_&_&Hz). }
    assert (Hne : last ∉ [(q, b)].*1).
    { cbn. intros ->%list_elem_of_singleton. assert (pbufs s !! q = Some bl) by (eapply chain_in; [exact Hc|]; apply elem_of_app; right; left). congruence. }
    assert (Hqc : chain (pbufs s1) q [(q, b)]) by (cbn; rewrite lookup_insert_eq; by split_and!).
    pose proof (Hnew _ HR) as HR1. assert (Hrq : 0 < bump 1 q (bump 1 p refs) q).
    { rewrite bump_same by done. pose proof (ro_refs _ _ _ HR q). lia. }
    rewrite (set_pb_run _ _ _ _ Hlast). eexists _, (ys ++ (last, with_next q bl) :: [(q, b)]). split; [done|].
    pose proof (refs_ok_link s1 _ _ last bl q _ HR1 Hlast Hln Hrq Hqc Hne) as HR2.
    split; [|split; [done|split; [rewrite !total_chain_app; cbn; lia|by rewrite !fmap_app, <- app_assoc]]].
    right. split; [done|]. split.
    { eapply refs_ok_ext; [|exact HR2]. intros x. by rewrite bump_cancel. }
    split; [|split; [|split; [|split; [done|]]]].
    + cbn [pbufs]. apply chain_extend; [done| |done|done].
      pose proof (chain_nodup _ _ _ Hfr) as Hnd. rewrite fmap_app in Hnd. apply NoDup_app in Hnd as (_&Hnd&_).
      intros Hx. apply (Hnd last Hx). cbn. left.
    + apply (lens_upto_with_next _ _ _ _ q) in Hlu. change ((last, with_next q bl) :: [(q, b)]) with ([(last, with_next q bl)] ++ [(q, b)]).
      rewrite app_assoc. apply (lens_upto_snoc r _ q b); [done|cbn; lia|done|done].
    + apply Forall_app in Hty as [Hty1 [Hty2 _]%Forall_cons]. apply Forall_app. split; [done|]. constructor; [exact Hty2|]. by repeat constructor.
    + exists (ys ++ [(last, with_next q bl)]), b. by rewrite <- app_assoc.
Qed.

Lemma pool_loop_run fuel s refs H p last r off xs : 16 + 1600 <= pool_size MEMP_PBUF_POOL -> built s refs H p last r xs ->
  0 <= r < 2 ^ 16 -> (Z.to_nat r < fuel)%nat -> 0 <= off <= 54 ->
  exists p' s' H', pool_loop fuel p last r off s = Some (p', s') /\ bytes s' = bytes s /\
    (p' = 0 /\ refs_ok s' refs H' \/
     p' <> 0 /\ refs_ok s' (bump 1 p' refs) H' /\
       exists bs, chain (pbufs s') p' bs /\ lens_ok bs /\ total bs = total xs + r /\ typed PBUF_POOL bs /\
         forall q, q ∈ bs.*1 -> q ∈ xs.*1 \/ pbufs s !! q = None).
Proof.
  intros Hps. revert s H p last r off xs. induction fuel as [|fuel IH]; intros s H p last r off xs HB Hr Hf Ho; [lia|]. cbn [pool_loop].
  assert (HR : exists refs0, refs_ok s refs0 H) by (destruct HB as [(_&_&HR)|(_&HR&_)]; by eexists).
  destruct HR as [refs0 HR].
  destruct (owns_pool_malloc _ _ MEMP_PBUF_POOL (ro_owns _ _ _ HR)) as (x&a&E&[[-> HO]|(Hx&Hnew&HO)]);
    rewrite (bind_run _ _ _ _ _ (in_alloc_run _ _ _ _ E)).
  - cbn [Z.eqb]. set (s1 := mkP (pbufs s) (bytes s) a). destruct HB as [(->&_&HR0)|(Hp&HRp&_&_&_&Hrp&_)].
    + exists 0, s1, H. split; [done|]. split; [done|]. left. split; [done|]. destruct HR0; by split.
    + rewrite (proj2 (Z.eqb_neq p 0)) by done. cbn [negb]. assert (HR1 : refs_ok s1 (bump 1 p refs) H) by (destruct HRp; by split).
      destruct (pbuf_free_run s1 _ H p HR1 Hrp) as (s'&H'&E'&HR'&_&Hby&_). rewrite (bind_run _ _ _ _ _ E').
      exists 0, s', H'. split; [done|]. split; [done|]. left. split; [done|]. eapply refs_ok_ext; [|exact HR']. intros q. by rewrite bump_cancel.
  - rewrite (proj2 (Z.eqb_neq x 0)) by done. unfold pbuf_init_alloced_pbuf, new_pb. rewrite update_bind. cbn [pbufs bytes alloc].
    assert (Hrange : x mod 4 = 0 /\ 0 < x /\ x + pool_size MEMP_PBUF_POOL < 2 ^ 32).
    { destruct (owns_range _ _ x (FromPool MEMP_PBUF_POOL) (pool_size MEMP_PBUF_POOL) HO) as (?&?&_&?); [apply lookup_insert_eq|done]. }
    rewrite (proj2 (mem_align off ltac:(lia))). rewrite (proj1 (mem_align (x + SIZEOF_STRUCT_PBUF + off) ltac:(unfold SIZEOF_STRUCT_PBUF; lia))).
    unfold PBUF_POOL_BUFSIZE_ALIGNED. assert (Hao : 0 <= (off + 3) / 4 * 4 <= 56 /\ off <= (off + 3) / 4 * 4) by dlia.
    rewrite (u16_small (1600 - (off + 3) / 4 * 4)) by lia. set (qlen := Z.min r (1600 - (off + 3) / 4 * 4)).
    assert (Hq : 0 <= qlen <= r /\ (0 < r -> 0 < qlen) /\ qlen <= 1600 - (off + 3) / 4 * 4) by (unfold qlen; lia). clearbody qlen.
    set (payload := (x + SIZEOF_STRUCT_PBUF + off + 3) / 4 * 4).
    assert (Hpay : payload = x + SIZEOF_STRUCT_PBUF + (off + 3) / 4 * 4) by (unfold payload, SIZEOF_STRUCT_PBUF; dlia). clearbody payload.
    destruct (built_step s refs H p last r xs x _ payload qlen a HB Hnew Hx HO ltac:(lia) ltac:(lia) ltac:(lia) ltac:(unfold SIZEOF_STRUCT_PBUF in *; lia))
      as (s2&xs'&E2&HB2&Hby2&Htot&Hfst).
    rewrite (bind_run _ _ _ _ _ E2). rewrite u16_small by lia. pose proof (fresh_dead _ _ _ _ HR Hnew) as Hdead.
    destruct (Z.ltb_spec 0 (r - qlen)) as [Hmore|Hdone].
    + destruct (IH s2 _ _ x (r - qlen) 0 xs' HB2 ltac:(lia) ltac:(lia) ltac:(lia)) as (p'&s'&H'&E'&Hby'&Hcase).
      exists p', s', H'. split; [exact E'|]. split; [congruence|]. destruct Hcase as [Hnone|(Hp'&HR'&bs&Hc&Hl&Ht&Hty&Hfresh)]; [by left|right].
      split; [done|]. split; [done|]. exists bs. split; [done|]. split; [done|]. split; [lia|]. split; [done|]. intros q Hqb.
      destruct (Hfresh q Hqb) as [Hin|Hn].
      * rewrite Hfst in Hin. apply elem_of_app in Hin as [Hin| ->%list_elem_of_singleton]; [by left|by right].
      * right. destruct (pbufs s !! q) as [c|] eqn:Eq; [|done]. exfalso.
        assert (Hs2 : is_Some (pbufs s2 !! q)); [|by rewrite Hn in Hs2; destruct Hs2].
        destruct (p =? 0); cbn [negb when] in E2; [injection E2 as <-; cbn; rewrite lookup_insert; case_decide; by eexists|].
        unfold set_pb, try_update in E2. cbn [pbufs] in E2. destruct (<[x := _]> (pbufs s) !! last); [|done]. injection E2 as <-. cbn [pbufs].
        rewrite lookup_insert. case_decide; [by eexists|]. rewrite lookup_insert. case_decide; by eexists.
    + assert (r - qlen = 0) by lia. eexists _, s2, _. split; [reflexivity|]. split; [done|]. right.
      destruct HB2 as [(Hz&_)|(Hp2&HR2&Hc2&Hl2&Hty2&_)]; [exfalso; destruct (Z.eqb_spec p 0); congruence|].
      split; [done|]. split; [exact HR2|]. exists xs'. split; [exact Hc2|]. split; [apply lens_upto_0; congruence|]. split; [lia|]. split; [done|].
      intros q. rewrite Hfst. intros [Hin| ->%list_elem_of_singleton]%elem_of_app; [by left|by right].
Qed.

(** Every kind of allocation. *)
Lemma pbuf_alloc_run s refs H layer len t : 16 + 1600 <= pool_size MEMP_PBUF_POOL -> refs_ok s refs H -> 0 <= len < 2 ^ 16 ->
  exists p s' H', pbuf_alloc layer len t s = Some (p, s') /\ allocated s refs len t p s' H'.
Proof.
  intros Hps HR Hl. pose proof (layer_offset_range layer). destruct t.
  - by apply (pbuf_alloc_ram_run s refs H).
  - apply (pbuf_alloc_reference_run s refs H); auto.
  - apply (pbuf_alloc_reference_run s refs H); auto.
  - destruct (pool_loop_run (S (Z.to_nat len)) s refs H 0 0 len (layer_offset layer) [] Hps) as (p&s'&H'&E&Hby&Hcase);
      [by left|done|lia|lia|]. exists p, s', H'. split; [exact E|]. split; [done|].
    destruct Hcase as [Hnone|(Hp&HR'&bs&Hc&Hlo&Ht&Hty&Hf)]; [by left|right]. split; [done|]. split; [done|]. exists bs.
    split; [done|]. split; [done|]. split; [done|]. split; [done|]. intros q Hq. destruct (Hf q Hq) as [Hin|]; [by apply not_elem_of_nil in Hin|done].
Qed.
End refs.
