(* ===== verification/PbufHistory.v ===== *)
(** * Packet buffers through their life

    Shrinking packets, moving their headers, and the histories of allocations,
    references, chains and releases that the stack can bring about. *)
From S2P Require Import Prelude Mem Memp Pbuf PbufProofs PbufRefs.
Open Scope Z_scope.

Section history.
Context {A : Type} `{!PbufMemory A} (pool_size : memp_t -> Z) `{!PbufMemoryOk A pool_size}.
Implicit Types (s : pstate A).

(** ** What a release leaves alone *)

Lemma in_alloc_shape {B} (q : prog A B) s r s' : in_alloc q s = Some (r, s') ->
  pbufs s' = pbufs s /\ bytes s' = bytes s /\ forall M, in_alloc q (mkP M (bytes s) (alloc s)) = Some (r, mkP M (bytes s') (alloc s')).
Proof.
  unfold in_alloc. intros E. destruct (q (alloc s)) as [[x a]|] eqn:Eq; [|done]. injection E as <- <-. split_and!; [done|done|].
  intros M. cbn. by rewrite Eq.
Qed.

Lemma free_memory_shape p src s r s' : free_memory p src s = Some (r, s') ->
  pbufs s' = pbufs s /\ bytes s' = bytes s /\
  forall M, free_memory p src (mkP M (bytes s) (alloc s)) = Some (r, mkP M (bytes s') (alloc s')).
Proof.
  unfold free_memory. repeat case_match; try apply in_alloc_shape. intros [= <- <-]. done.
Qed.

(** The buffers that are not in the chain of [p] keep their contents, and what
    they contain does not matter. *)
Lemma free_loop_outside fuel s p bs count n s' : chain (pbufs s) p bs -> free_loop fuel p count s = Some (n, s') ->
  (forall q, q ∉ bs.*1 -> pbufs s' !! q = pbufs s !! q) /\
  (forall q b, q ∉ bs.*1 -> free_loop fuel p count (mkP (<[q := b]> (pbufs s)) (bytes s) (alloc s)) =
     Some (n, mkP (<[q := b]> (pbufs s')) (bytes s') (alloc s'))).
Proof.
  revert s p bs count. induction fuel as [|fuel IH]; intros s p bs count Hc E; [done|]. cbn [free_loop] in E |- *.
  destruct bs as [|[a b] bs].
  { cbn in Hc. subst p. cbn in E |- *. injection E as <- <-. by split. }
  pose proof (chain_nodup _ _ _ Hc) as Hnd. cbn in Hnd. apply NoDup_cons in Hnd as [Hnd _].
  cbn in Hc. destruct Hc as (->&Ha&Eb&Hc). rewrite (proj2 (Z.eqb_neq a 0)) in E |- * by done.
  rewrite (bind_run _ _ _ _ _ (pb_run _ _ _ Eb)), (bind_run _ _ _ _ _ (set_pb_run _ _ _ _ Eb)) in E.
  assert (Hother : forall q c, q ∉ ((a, b) :: bs).*1 -> <[q := c]> (pbufs s) !! a = Some b).
  { intros q c Hq. rewrite lookup_insert_ne; [done|]. intros ->. apply Hq. cbn. left. }
  destruct (u8 (p_ref b - 1) =? 0) eqn:Ez.
  - unfold drop_pb in *. rewrite update_bind in E. cbn [pbufs bytes alloc] in E. rewrite delete_insert_eq in E.
    set (s1 := mkP (delete a (pbufs s)) (bytes s) (alloc s)) in *.
    destruct (free_memory a (pbuf_get_allocsrc b) s1) as [[[] s2]|] eqn:Ef; [|unfold mbind, prog_bind in E; by rewrite Ef in E].
    rewrite (bind_run _ _ _ _ _ Ef) in E. destruct (free_memory_shape _ _ _ _ _ Ef) as (Hp2&Hb2&Hany). change (pbufs s1) with (delete a (pbufs s)) in Hp2.
    assert (Hc2 : chain (pbufs s2) (p_next b) bs).
    { rewrite Hp2. eapply pchain_frame; [|exact Hc]. intros q Hq. apply lookup_delete_ne. by intros <-. }
    destruct (IH s2 (p_next b) bs _ Hc2 E) as [H1 H2]. split.
    + intros q Hq. rewrite H1 by (intros Hx; apply Hq; cbn; by right). rewrite Hp2. apply lookup_delete_ne. intros <-. apply Hq. cbn. left.
    + intros q c Hq. rewrite (bind_run _ _ _ _ _ (pb_run (mkP _ _ _) _ _ (Hother q c Hq))), (bind_run _ _ _ _ _ (set_pb_run (mkP _ _ _) _ _ _ (Hother q c Hq))).
      rewrite Ez, update_bind. cbn [pbufs bytes alloc]. rewrite delete_insert_eq. rewrite (bind_run _ _ _ _ _ (Hany _)).
      rewrite delete_insert_ne by (intros ->; apply Hq; cbn; left). rewrite <- Hp2. apply H2. intros Hx. apply Hq. cbn. by right.
  - cbn in E. injection E as <- <-. split.
    + intros q Hq. cbn. rewrite lookup_insert_ne; [done|]. intros <-. apply Hq. cbn. left.
    + intros q c Hq. rewrite (bind_run _ _ _ _ _ (pb_run (mkP _ _ _) _ _ (Hother q c Hq))), (bind_run _ _ _ _ _ (set_pb_run (mkP _ _ _) _ _ _ (Hother q c Hq))).
      rewrite Ez. cbn. rewrite insert_insert_ne by (intros ->; apply Hq; cbn; left). done.
Qed.

(** ** Shrinking *)

(** A chain of which each total length has shrunk. *)
Definition shrunk (d : Z) (xs : list (Z * pbuf)) : list (Z * pbuf) := (fun '(a, b) => (a, with_tot_len (u16 (p_tot_len b - d)) b)) <$> xs.

Lemma shrunk_fst d xs : (shrunk d xs).*1 = xs.*1.
Proof. induction xs as [|[a b] xs IH]; [done|]. cbn. f_equal. exact IH. Qed.

Lemma addrs_shrunk d xs : addrs (shrunk d xs) = addrs xs.
Proof. induction xs as [|[a b] xs IH]; [done|]. cbn. f_equal. exact IH. Qed.

Lemma total_shrunk d xs : total (shrunk d xs) = total xs.
Proof. induction xs as [|[a b] xs IH]; [done|]. cbn. f_equal. exact IH. Qed.

Lemma realloc_loop_run fuel s refs H q bs rem d : refs_ok pool_size s refs H -> chain (pbufs s) q bs -> lens_ok bs ->
  0 <= rem < total bs -> (length bs <= fuel)%nat ->
  exists xs l b ys rem' s1, bs = xs ++ (l, b) :: ys /\ realloc_loop fuel q rem d s = Some ((l, rem'), s1) /\
    0 <= rem' <= p_len b /\ total xs + rem' = rem /\ refs_ok pool_size s1 refs H /\ bytes s1 = bytes s /\
    chain (pbufs s1) q (shrunk d xs ++ (l, b) :: ys) /\ (forall x, x ∉ xs.*1 -> pbufs s1 !! x = pbufs s !! x).
Proof.
  revert s q bs rem. induction fuel as [|fuel IH]; intros s q bs rem HR Hc Hl Hrem Hf; [destruct bs; [cbn in Hrem; lia|cbn in Hf; lia]|].
  destruct bs as [|[a b] bs]; [cbn in Hrem; lia|]. pose proof (chain_nodup _ _ _ Hc) as Hnd. cbn in Hnd. apply NoDup_cons in Hnd as [Hnd _].
  pose proof Hc as Hc0. cbn in Hc, Hl. destruct Hc as (->&Ha&E&Hc). destruct Hl as (Hb0&Hbt&Hb16&Hl). cbn [total] in Hrem. pose proof (total_nneg _ Hl).
  cbn [realloc_loop]. rewrite (bind_run _ _ _ _ _ (pb_run _ _ _ E)). destruct (Z.ltb_spec (p_len b) rem) as [Hlt|Hge].
  - rewrite (bind_run _ _ _ _ _ (set_pb_run _ _ _ _ E)). set (b' := with_tot_len _ b). set (s1 := mkP _ _ _).
    assert (HR1 : refs_ok pool_size s1 refs H).
    { apply (refs_ok_data pool_size s refs H a b b' (bytes s) HR E); [done|]. intros n _. apply buffer_ok_tot, u16_range. }
    assert (Hc1 : chain (pbufs s1) (p_next b) bs).
    { eapply pchain_frame; [|exact Hc]. intros x Hx. apply lookup_insert_ne. by intros <-. }
    rewrite u16_small by lia.
    destruct (IH s1 (p_next b) bs (rem - p_len b) HR1 Hc1 Hl ltac:(lia) ltac:(cbn in Hf; lia)) as (xs&l&c&ys&rem'&s2&->&E2&Hr&Ht&HR2&Hby&Hc2&Hfr).
    exists ((a, b) :: xs), l, c, ys, rem', s2. split; [done|]. split; [exact E2|]. split; [done|]. split; [cbn; lia|]. split; [done|].
    assert (Hax : a ∉ xs.*1) by (intros Hx; apply Hnd; rewrite fmap_app; apply elem_of_app; by left).
    split; [done|]. split.
    + cbn. split_and!; [done|done| |done]. rewrite Hfr by done. apply lookup_insert_eq.
    + intros x Hx. cbn in Hx. apply not_elem_of_cons in Hx as [Hxa Hx]. rewrite Hfr by done. by apply lookup_insert_ne.
  - exists [], a, b, bs, rem, s. split_and!; try done; cbn; lia.
Qed.

Lemma chain_end_at (M M' : gmap Z pbuf) x xs l b ys b' : chain M x (xs ++ (l, b) :: ys) ->
  (forall q, q ∈ xs.*1 -> M' !! q = M !! q) -> M' !! l = Some b' -> p_next b' = 0 -> chain M' x (xs ++ [(l, b')]).
Proof.
  revert x. induction xs as [|[a c] xs IH]; intros x Hc HM Hl Hn; cbn in *.
  - destruct Hc as (->&?&_). by split_and!.
  - destruct Hc as (->&?&E&Hc). split_and!; [done|done|by rewrite HM by left|]. apply IH; [done| |done|done]. intros q Hq. apply HM. by right.
Qed.

Lemma lens_shrunk xs l b ys rem d b' : lens_ok (xs ++ (l, b) :: ys) -> 0 <= rem <= p_len b -> d = p_len b - rem + total ys ->
  p_len b' = rem -> p_tot_len b' = rem -> lens_ok (shrunk d xs ++ [(l, b')]) /\ total (shrunk d xs ++ [(l, b')]) = total xs + rem.
Proof.
  intros Hl Hr Hd Hb1 Hb2. induction xs as [|[a c] xs IH].
  - cbn in *. destruct Hl as (?&?&?&Hl). pose proof (total_nneg _ Hl). split_and!; lia.
  - cbn in Hl. destruct Hl as (H1&H2&H3&Hl). destruct (IH Hl) as [I1 I2]. cbn. fold (shrunk d xs). rewrite I2. split; [|lia].
    pose proof Hl as Hl0. pose proof (total_nneg _ I1) as Ht. rewrite I2 in Ht. rewrite total_chain_app in H2. cbn [total] in H2.
    pose proof (total_nneg _ Hl0) as Ht0. rewrite total_chain_app in Ht0. cbn [total] in Ht0.
    assert (Hty : 0 <= total ys).
    { clear -Hl0. induction xs as [|[y e] xs IH]; cbn in Hl0; destruct Hl0 as (_&_&_&Hl0); [by apply total_nneg|by apply IH]. }
    rewrite u16_small by lia. split_and!; [done|lia|lia|done].
Qed.

(** A block has shrunk, and its buffer with it. *)
Lemma refs_ok_shrink s refs H H' l b b' n a : refs_ok pool_size s refs H -> pbufs s !! l = Some b -> same_links b b' -> owns a H' ->
  H' !! l = Some (source_of b, n) -> (forall q, q <> l -> H' !! q = H !! q) -> buffer_ok l b' n ->
  refs_ok pool_size (mkP (<[l := b']> (pbufs s)) (bytes s) a) refs H'.
Proof.
  intros HR Hl HL HO Hn Hoth HB. destruct (ro_block _ _ _ _ HR l b Hl) as (n0&Hn0&HB0).
  pose proof (same_links_source _ _ HL) as (Hs&_&_). destruct HL as (Hnx&Hrf&Hty).
  assert (Hpt : forall q, pointers (<[l := b']> (pbufs s)) q = pointers (pbufs s) q).
  { intros q. rewrite (pointers_update _ _ b) by done. unfold points. rewrite Hnx. lia. }
  split; cbn [pbufs alloc].
  - done.
  - intros q Hq. rewrite lookup_insert. case_decide as E; [by eexists|]. apply (ro_dom _ _ _ _ HR). by rewrite <- Hoth by congruence.
  - intros q c. rewrite lookup_insert. case_decide as E; [intros [= <-]; subst q; exists n; by rewrite Hs|].
    rewrite Hoth by congruence. apply (ro_block _ _ _ _ HR).
  - intros q c. rewrite lookup_insert, Hpt. case_decide as E; [intros [= <-]; subst q; rewrite Hrf|]; by apply (ro_count _ _ _ _ HR).
  - intros q. destruct (ro_refs _ _ _ _ HR q) as [H1 H2]. split; [done|]. intros Hq. rewrite lookup_insert. case_decide; [by eexists|]. by apply H2.
  - intros q Hq. apply lookup_insert_is_Some' in Hq. assert (Hq' : is_Some (pbufs s !! q)) by (destruct Hq as [<-|]; [by eexists|done]).
    destruct (ro_chain _ _ _ _ HR q Hq') as [bs Hbs]. destruct (chain_relink (pbufs s) (<[l := b']> (pbufs s)) q bs) as (bs'&Hc'&_); [|done|by exists bs'].
    intros x c _ Hx. rewrite lookup_insert. case_decide as E; [|by exists c]. subst x. exists b'. split; [done|]. congruence.
Qed.

Lemma buffer_ok_shrink l b n n' rem : buffer_ok l b n -> 0 <= rem <= p_len b -> (contiguous b = true -> p_payload b + rem <= l + n') ->
  buffer_ok l (with_lens (p_payload b) rem rem b) n'.
Proof.
  intros [Ht [Hl Htl] Hh Hd] Hr Hn. split; [done| |done|].
  - cbn. lia.
  - intros Hc. destruct (Hd Hc). split; [done|]. cbn. by apply Hn.
Qed.

(** Giving back the end of the block of [l]. *)
Lemma trim_run s refs H l b rem : refs_ok pool_size s refs H -> pbufs s !! l = Some b -> 0 <= rem <= p_len b ->
  exists a H', (if (pbuf_get_allocsrc b =? SRC_STD_HEAP) && negb (rem =? p_len b)
      then in_alloc (heap_trim l (u16 (p_payload b - l + rem))) else mret l) s = Some (l, mkP (pbufs s) (bytes s) a) /\
    refs_ok pool_size (mkP (<[l := with_lens (p_payload b) rem rem b]> (pbufs s)) (bytes s) a) refs H'.
Proof.
  intros HR Hl Hr. destruct (ro_block _ _ _ _ HR l b Hl) as (n&Hn&HB). pose proof (bo_len _ _ _ HB) as [Hlen _].
  assert (HL : same_links b (with_lens (p_payload b) rem rem b)) by done.
  destruct (Z.eqb_spec (pbuf_get_allocsrc b) SRC_STD_HEAP) as [Es|Es]; cbn [andb].
  - assert (Hsrc : source_of b = FromHeap) by (unfold source_of; by rewrite Es). rewrite Hsrc in Hn.
    pose proof (bo_data _ _ _ HB (bo_heap _ _ _ HB Es)) as [Hd1 Hd2]. unfold SIZEOF_STRUCT_PBUF in Hd1.
    destruct (Z.eqb_spec rem (p_len b)) as [Er|Er]; cbn [negb].
    + exists (alloc s), H. split; [by destruct s|]. apply (refs_ok_shrink s refs H H l b _ n); try done; [apply HR|by rewrite Hsrc|].
      apply (buffer_ok_shrink l b n); [done|lia|lia].
    + pose proof (owns_heap_size _ _ _ _ (ro_owns _ _ _ _ HR) Hn). rewrite u16_small by lia.
      destruct (owns_heap_trim _ _ l n (p_payload b - l + rem) (ro_owns _ _ _ _ HR) Hn ltac:(lia)) as (a&E&HO).
      exists a, (<[l := (FromHeap, p_payload b - l + rem)]> H). split; [by rewrite (in_alloc_run _ _ _ _ E)|].
      apply (refs_ok_shrink s refs H _ l b _ (p_payload b - l + rem)); try done.
      * by rewrite lookup_insert_eq, Hsrc.
      * intros q Hq. by rewrite lookup_insert_ne.
      * apply (buffer_ok_shrink l b n); [done|lia|lia].
  - exists (alloc s), H. split; [by destruct s|]. apply (refs_ok_shrink s refs H H l b _ n); try done; [apply HR|].
    apply (buffer_ok_shrink l b n); [done|lia|]. intros Hx. destruct (bo_data _ _ _ HB Hx). lia.
Qed.

(** The end of the chain behind [l] is released while [l] still points to it. *)
Lemma release_rest_run s refs H x xs l b ys : refs_ok pool_size s refs H -> chain (pbufs s) x (xs ++ (l, b) :: ys) ->
  exists s' H', (_ ← (if negb (p_next b =? 0) then pbuf_free (p_next b) else mret 0); set_pb l (with_next 0)) s = Some (tt, s') /\
    refs_ok pool_size s' refs H' /\ bytes s' = bytes s /\ chain (pbufs s') x (xs ++ [(l, with_next 0 b)]).
Proof.
  intros HR Hc. pose proof (chain_nodup _ _ _ Hc) as Hnd. rewrite fmap_app in Hnd. apply NoDup_app in Hnd as (Hnx&Hxy&Hnd).
  cbn in Hnd. apply NoDup_cons in Hnd as [Hly _].
  assert (Hl : pbufs s !! l = Some b) by (eapply chain_in; [exact Hc|]; apply elem_of_app; right; left).
  assert (Hcy : chain (pbufs s) (p_next b) ys) by (destruct (pchain_app _ _ _ _ Hc) as (z&Hz&_); by destruct Hz as (_&_&_&Hz)).
  pose proof (refs_ok_unlink pool_size s refs H l b HR Hl) as HR1. set (s1 := mkP (<[l := with_next 0 b]> (pbufs s)) (bytes s) (alloc s)) in *.
  assert (Hc1 : chain (pbufs s1) (p_next b) ys) by (eapply pchain_frame; [|exact Hcy]; intros q Hq; apply lookup_insert_ne; congruence).
  destruct (Z.eqb_spec (p_next b) 0) as [Hn|Hn]; cbn [negb].
  - rewrite ret_bind, (set_pb_run _ _ _ _ Hl). exists s1, H. split; [done|]. split; [|split; [done|]].
    + eapply refs_ok_ext; [|exact HR1]. intros q. by rewrite Hn, bump_0.
    + eapply chain_end_at; [exact Hc| |apply lookup_insert_eq|done]. intros q Hq. apply lookup_insert_ne. intros <-. apply (Hxy l Hq). cbn. left.
  - assert (Hq : 0 < bump 1 (p_next b) refs (p_next b)) by (rewrite bump_same by done; pose proof (ro_refs _ _ _ _ HR (p_next b)); lia).
    destruct (pbuf_free_run pool_size s1 _ H (p_next b) HR1 Hq) as (s2&H2&E2&HR2&_&Hby&_).
    unfold pbuf_free in E2 |- *. rewrite (proj2 (Z.eqb_neq _ 0)) in E2 |- * by done. rewrite chain_fuel_bind in E2.
    assert (Hsz : size (pbufs s1) = size (pbufs s)) by (apply map_size_insert_Some; by eexists). rewrite Hsz in E2.
    destruct (free_loop_outside _ _ _ _ _ _ _ Hc1 E2) as [Hsame Hwith]. specialize (Hwith l b Hly).
    cbn [s1 pbufs bytes alloc] in Hwith. rewrite insert_insert_eq, insert_id in Hwith by done.
    replace (mkP (pbufs s) (bytes s) (alloc s)) with s in Hwith by by destruct s.
    rewrite bind_assoc_run, chain_fuel_bind, (bind_run _ _ _ _ _ Hwith).
    assert (Hl2 : pbufs s2 !! l = Some (with_next 0 b)) by (rewrite Hsame by done; apply lookup_insert_eq).
    rewrite (set_pb_run (mkP (<[l := b]> (pbufs s2)) (bytes s2) (alloc s2)) l _ b (lookup_insert_eq _ _ _)). cbn [pbufs bytes alloc]. rewrite insert_insert_eq, insert_id by done.
    exists s2, H2. split; [by destruct s2|]. split; [|split; [done|]].
    + eapply refs_ok_ext; [|exact HR2]. intros q. destruct (decide (q = p_next b)) as [->|Hx]; [rewrite !bump_same by done; lia|by rewrite !bump_other by done].
    + eapply chain_end_at; [exact Hc| |exact Hl2|done]. intros q Hx. rewrite Hsame.
      * apply lookup_insert_ne. intros <-. apply (Hxy l Hx). cbn. left.
      * intros Hy. apply (Hxy q Hx). cbn. by right.
Qed.

Lemma lens_app_total xs ys : lens_ok (xs ++ ys) -> 0 <= total xs.
Proof. induction xs as [|[a b] xs IH]; [done|]. cbn. intros (?&_&_&?%IH). lia. Qed.

(** Shrinking a packet keeps the front of its contents and releases the rest. *)
Lemma pbuf_realloc_run s refs H p bs new_len : refs_ok pool_size s refs H -> chain (pbufs s) p bs -> lens_ok bs -> 0 <= new_len < total bs ->
  exists s' H' bs', pbuf_realloc p new_len s = Some (tt, s') /\ refs_ok pool_size s' refs H' /\ bytes s' = bytes s /\
    chain (pbufs s') p bs' /\ lens_ok bs' /\ total bs' = new_len /\ addrs bs' = take (Z.to_nat new_len) (addrs bs) /\
    exists x y ys ys', bs = x :: ys /\ bs' = y :: ys' /\ p_payload y.2 = p_payload x.2 /\ p_len y.2 = Z.min (p_len x.2) new_len.
Proof.
  intros HR Hc Hl Hn. destruct bs as [|[a b0] bs0] eqn:Ebs; [cbn in Hn; lia|]. rewrite <- Ebs in *.
  assert (E0 : pbufs s !! p = Some b0 /\ p_tot_len b0 = total bs /\ p_tot_len b0 < 2 ^ 16).
  { subst bs. cbn in Hc, Hl |- *. destruct Hc as (->&_&E&_). destruct Hl as (?&?&?&_). by split_and!. }
  destruct E0 as (E0&Ht0&Ht16). unfold pbuf_realloc. rewrite (bind_run _ _ _ _ _ (pb_run _ _ _ E0)).
  rewrite (proj2 (Z.leb_gt _ _)) by lia. rewrite chain_fuel_bind, Ht0, u16_small by lia.
  pose proof (chain_size _ _ _ Hc). set (d := total bs - new_len).
  destruct (realloc_loop_run (S (size (pbufs s))) s refs H p bs new_len d HR Hc Hl Hn ltac:(lia)) as (xs&l&b&ys&rem&s1&Exs&E1&Hr&Htx&HR1&Hby1&Hc1&_).
  rewrite (bind_run _ _ _ _ _ E1). clear Ebs bs0 E1.
  assert (Hl1 : pbufs s1 !! l = Some b) by (eapply chain_in; [exact Hc1|]; apply elem_of_app; right; left).
  rewrite (bind_run _ _ _ _ _ (pb_run _ _ _ Hl1)). destruct (trim_run s1 refs H l b rem HR1 Hl1 Hr) as (a2&H2&E2&HR2).
  rewrite (bind_run _ _ _ _ _ E2). rewrite (bind_run _ _ _ _ _ (pb_run (mkP _ _ _) _ _ Hl1)).
  rewrite (bind_run _ _ _ _ _ (set_pb_run (mkP _ _ _) _ _ _ Hl1)). cbn [pbufs bytes alloc].
  set (b3 := with_lens (p_payload b) rem rem b) in *. set (s3 := mkP (<[l := b3]> (pbufs s1)) (bytes s1) a2) in *.
  assert (Hc3 : chain (pbufs s3) p (shrunk d xs ++ (l, b3) :: ys)).
  { pose proof (chain_nodup _ _ _ Hc1) as Hnd. rewrite fmap_app in Hnd. apply NoDup_app in Hnd as (_&Hxy&Hnd).
    cbn in Hnd. apply NoDup_cons in Hnd as [Hly _]. assert (Hlx : l ∉ (shrunk d xs).*1) by (intros Hx; apply (Hxy l Hx); cbn; left).
    clear -Hc1 Hly Hlx. revert p Hc1. induction (shrunk d xs) as [|[y e] zs IH]; intros p Hc1; cbn in *.
    - destruct Hc1 as (->&?&E&Hc1). split_and!; [done|done|apply lookup_insert_eq|]. eapply pchain_frame; [|exact Hc1].
      intros q Hq. apply lookup_insert_ne. congruence.
    - apply not_elem_of_cons in Hlx as [Hne Hlx]. destruct Hc1 as (->&?&E&Hc1). split_and!; [done|done|by rewrite lookup_insert_ne|]. by apply IH. }
  change (p_next b) with (p_next b3). destruct (release_rest_run s3 refs H2 p _ l b3 ys HR2 Hc3) as (s4&H4&E4&HR4&Hby4&Hc4).
  exists s4, H4, (shrunk d xs ++ [(l, with_next 0 b3)]). split; [exact E4|]. split; [done|]. split; [by rewrite Hby4|]. split; [done|].
  pose proof Hl as Hl0. rewrite Exs in Hl. assert (Hd : d = p_len b - rem + total ys) by (unfold d; rewrite Exs, total_chain_app; cbn; lia).
  destruct (lens_shrunk xs l b ys rem d (with_next 0 b3) Hl Hr Hd eq_refl eq_refl) as [HL HT].
  split; [done|]. split; [lia|]. split.
  2:{ destruct xs as [|[x c] xs]; cbn in Exs, Hl, Htx |- *.
      - exists (l, b), (l, with_next 0 b3), ys, []. split_and!; try done. cbn [b3 with_next with_lens p_len snd]. lia.
      - eexists (x, c), _, (xs ++ (l, b) :: ys), _. split_and!; try done. cbn [snd]. change (p_len (with_tot_len _ c)) with (p_len c). destruct Hl as (_&_&_&Hl).
        pose proof (lens_app_total xs _ Hl). lia. }
  rewrite Exs, !addrs_app, addrs_shrunk. cbn [addrs]. rewrite app_nil_r.
  pose proof Hl as Hlx. assert (Hax : Z.of_nat (length (addrs xs)) = total xs).
  { clear -Hlx. induction xs as [|[y e] xs IH]; [done|]. cbn in *. destruct Hlx as (?&_&_&?). rewrite length_app.
    pose proof (spots_length e). pose proof (IH ltac:(done)). lia. }
  assert (Hnl : Z.to_nat new_len = (length (addrs xs) + Z.to_nat rem)%nat) by lia.
  rewrite Hnl, take_app_add. f_equal. rewrite take_app_le by (pose proof (spots_length b); lia).
  pose proof (seqZ_sub (p_payload b) (p_len b) 0 rem ltac:(lia) ltac:(lia) ltac:(lia)) as Hsub.
  change (Z.to_nat 0) with 0%nat in Hsub. rewrite drop_0, Z.add_0_r in Hsub. exact (eq_sym Hsub).
Qed.
(** ** Headers *)

Lemma contiguous_lens x y z b : contiguous (with_lens x y z b) = contiguous b.
Proof. done. Qed.

(** The data of one held buffer change: its window moves inside of the block. *)
Lemma window_ok s refs H p b payload tot len : refs_ok pool_size s refs H -> pbufs s !! p = Some b ->
  0 <= tot < 2 ^ 16 -> 0 <= len < 2 ^ 16 ->
  (forall n, contiguous b = true -> p + n < 2 ^ 32 -> p + SIZEOF_STRUCT_PBUF <= p_payload b /\ p_payload b + p_len b <= p + n ->
     p + SIZEOF_STRUCT_PBUF <= payload /\ payload + len <= p + n) ->
  refs_ok pool_size (mkP (<[p := with_lens payload tot len b]> (pbufs s)) (bytes s) (alloc s)) refs H.
Proof.
  intros HR Hp Ht Hl Hd. apply (refs_ok_data pool_size s refs H p b _ (bytes s) HR Hp); [done|].
  intros n Hn [Hty _ Hh Hc]. pose proof (owns_range _ _ _ _ _ (ro_owns _ _ _ _ HR) Hn). split; [done|done|done|].
  rewrite contiguous_lens. intros E. apply Hd; [done|lia|by apply Hc].
Qed.

(** No packet lies so low that the new payload address wraps around. *)
Lemma pbuf_add_header_run s refs H p bs n force : refs_ok pool_size s refs H -> chain (pbufs s) p bs -> lens_ok bs -> 0 <= n < 2 ^ 32 -> 2 ^ 16 <= p ->
  exists r s', pbuf_add_header_impl p n force s = Some (r, s') /\ refs_ok pool_size s' refs H.
Proof.
  intros HR Hc Hl Hn Hlow. unfold pbuf_add_header_impl. destruct (Z.eqb_spec p 0) as [->|Hp]; [lia|]. cbn [orb].
  destruct (Z.ltb_spec 0xFFFF n) as [|H1]; [by eexists _, s|]. destruct (Z.eqb_spec n 0) as [->|H2]; [by eexists _, s|].
  destruct bs as [|[a b] bs]; [by cbn in Hc|]. cbn in Hc, Hl. destruct Hc as (->&_&E&_). destruct Hl as (Hl0&Htot&H16&Hl).
  pose proof (total_nneg _ Hl). rewrite (bind_run _ _ _ _ _ (pb_run _ _ _ E)). rewrite !(u16_small n) by lia.
  destruct (Z.ltb_spec (u16 (n + p_tot_len b)) n) as [|H3]; [by eexists _, s|].
  assert (Hw : n + p_tot_len b < 2 ^ 16) by (unfold u16 in H3; dlia). rewrite !(u16_small (_ + n)) by lia.
  fold (contiguous b). match goal with |- context [if ?c then mret 1 else _] => destruct c eqn:Ec end; [by eexists _, s|].
  rewrite (bind_run _ _ _ _ _ (set_pb_run _ _ _ _ E)). eexists _, _. split; [reflexivity|].
  apply (window_ok s refs H a b _ _ _ HR E); [lia|lia|]. intros m Hct Hm [Hd1 Hd2]. rewrite Hct in Ec. apply Z.ltb_ge in Ec.
  pose proof (live_nonzero _ _ _ _ _ _ HR E). destruct (ro_block _ _ _ _ HR a b E) as (k&Hk&_).
  pose proof (owns_range _ _ _ _ _ (ro_owns _ _ _ _ HR) Hk). unfold SIZEOF_STRUCT_PBUF in *. rewrite (u32_small (a + 16)), (u32_small (p_payload b - n)) in Ec by lia.
  rewrite u32_small by lia. lia.
Qed.

Lemma pbuf_remove_header_run s refs H p n : refs_ok pool_size s refs H -> p = 0 \/ is_Some (pbufs s !! p) -> 0 <= n < 2 ^ 32 ->
  exists r s', pbuf_remove_header p n s = Some (r, s') /\ refs_ok pool_size s' refs H.
Proof.
  intros HR Hp Hn. unfold pbuf_remove_header. destruct (Z.eqb_spec p 0) as [->|Hp0]; [by eexists _, s|]. cbn [orb].
  destruct (Z.ltb_spec 0xFFFF n) as [|H1]; [by eexists _, s|]. destruct (Z.eqb_spec n 0) as [->|H2]; [by eexists _, s|].
  destruct Hp as [|[b E]]; [done|]. rewrite (bind_run _ _ _ _ _ (pb_run _ _ _ E)). rewrite !(u16_small n) by lia.
  destruct (Z.ltb_spec (p_len b) n) as [|H3]; [by eexists _, s|].
  destruct (ro_block _ _ _ _ HR p b E) as (k&Hk&HB). destruct (bo_len _ _ _ HB) as [Hlen Htot]. rewrite (u16_small (p_len b - n)) by lia.
  rewrite (bind_run _ _ _ _ _ (set_pb_run _ _ _ _ E)). eexists _, _. split; [reflexivity|].
  pose proof (owns_range _ _ _ _ _ (ro_owns _ _ _ _ HR) Hk).
  apply (window_ok s refs H p b _ _ _ HR E); [apply u16_range|lia|]. intros m Hct Hm [Hd1 Hd2].
  unfold SIZEOF_STRUCT_PBUF in *. rewrite (u32_small (_ + n)) by lia. lia.
Qed.

(** Taking a header off a chain: emptied buffers are released, and the reference
    to the chain passes to the buffer where the rest begins. *)
Lemma free_header_loop_run fuel s refs H p bs left : refs_ok pool_size s refs H -> chain (pbufs s) p bs -> p = 0 \/ 0 < refs p ->
  (length bs < fuel)%nat -> 0 <= left < 2 ^ 16 -> Forall (fun ab => 0 <= p_len ab.2) bs ->
  exists r s' H', free_header_loop fuel p left s = Some (r, s') /\ refs_ok pool_size s' (bump 1 r (bump (-1) p refs)) H'.
Proof.
  revert s refs H p bs left. induction fuel as [|fuel IH]; intros s refs H p bs left HR Hc Hp Hf Hl Hpos; [lia|]. cbn [free_header_loop].
  assert (Hstay : forall s', refs_ok pool_size s' refs H -> refs_ok pool_size s' (bump 1 p (bump (-1) p refs)) H).
  { intros s' HR'. eapply refs_ok_ext; [|exact HR']. intros q. unfold bump. case_decide; lia. }
  destruct (Z.eqb_spec p 0) as [->|Hp0]; [rewrite orb_true_r; exists 0, s, H; split; [done|by apply Hstay]|].
  destruct (Z.eqb_spec left 0) as [->|Hl0]; cbn [orb]; [exists p, s, H; split; [done|by apply Hstay]|].
  destruct Hp as [|Hp]; [done|]. destruct bs as [|[a b] bs]; [done|].
  pose proof (chain_nodup _ _ _ Hc) as Hnd. cbn in Hnd. apply NoDup_cons in Hnd as [Hnd _].
  cbn in Hc. destruct Hc as (->&_&E&Hc). apply Forall_cons in Hpos as [Hb Hpos]. cbn in Hb.
  rewrite (bind_run _ _ _ _ _ (pb_run _ _ _ E)). destruct (Z.leb_spec (p_len b) left) as [Hle|Hgt].
  - rewrite (bind_run _ _ _ _ _ (set_pb_run _ _ _ _ E)).
    pose proof (refs_ok_unlink pool_size s refs H a b HR E) as HR1. set (s1 := mkP (<[a := with_next 0 b]> (pbufs s)) (bytes s) (alloc s)) in *.
    assert (Hn : p_next b <> a).
    { intros Hn. destruct bs as [|[y c] bs]; [cbn in Hc; congruence|]. cbn in Hc. destruct Hc as (Hc&_). apply Hnd. cbn. rewrite <- Hn, Hc. left. }
    assert (Ha1 : 0 < bump 1 (p_next b) refs a) by (by rewrite bump_other by done).
    destruct (pbuf_free_run pool_size s1 _ H a HR1 Ha1) as (s2&H2&E2&HR2&_). rewrite (bind_run _ _ _ _ _ E2).
    assert (Hc2 : chain (pbufs s2) (p_next b) bs).
    { unfold pbuf_free in E2. rewrite (proj2 (Z.eqb_neq a 0)), chain_fuel_bind in E2 by done.
      destruct (free_loop_outside _ s1 a [(a, with_next 0 b)] _ _ s2 ltac:(cbn; rewrite lookup_insert_eq; by split_and!) E2) as [Hsame _].
      eapply pchain_frame; [|exact Hc]. intros q Hq. assert (Hqa : q <> a) by congruence. rewrite Hsame; [by apply lookup_insert_ne|].
      cbn. by intros ->%list_elem_of_singleton. }
    destruct (IH s2 _ H2 (p_next b) bs (u16 (left - p_len b)) HR2 Hc2) as (r&s3&H3&E3&HR3); [|cbn in Hf; lia|apply u16_range|done|].
    { destruct (decide (p_next b = 0)) as [|Hn0]; [by left|right]. rewrite bump_other, bump_same by done. pose proof (ro_refs _ _ _ _ HR (p_next b)). lia. }
    exists r, s3, H3. split; [done|]. eapply refs_ok_ext; [|exact HR3]. intros q. unfold bump. repeat case_decide; intuition lia.
  - destruct (pbuf_remove_header_run s refs H a left HR ltac:(right; by eexists) ltac:(lia)) as (r&s1&E1&HR1).
    rewrite (bind_run _ _ _ _ _ E1). exists a, s1, H. split; [done|by apply Hstay].
Qed.
(** ** Histories *)

(** What the stack does to packets. *)
Inductive call :=
  | Alloc (layer : pbuf_layer) (len : Z) (t : pbuf_type) | Ref (p : Z) | Free (p : Z) | Cat (h t : Z) | Chain (h t : Z)
  | Dechain (p : Z) | Realloc (p new_len : Z) | AddHeader (p n : Z) (force : bool) | RemoveHeader (p n : Z) | FreeHeader (p n : Z).

Definition run (c : call) : prog (pstate A) Z :=
  match c with
  | Alloc layer len t => pbuf_alloc layer len t
  | Ref p => _ ← pbuf_ref p; mret 0
  | Free p => pbuf_free p
  | Cat h t => _ ← pbuf_cat h t; mret 0
  | Chain h t => _ ← pbuf_chain h t; mret 0
  | Dechain p => pbuf_dechain p
  | Realloc p new_len => _ ← pbuf_realloc p new_len; mret 0
  | AddHeader p n force => if force then pbuf_add_header_force p n else pbuf_add_header p n
  | RemoveHeader p n => pbuf_remove_header p n
  | FreeHeader p n => pbuf_free_header p n
  end.

(** The references that the users hold after a call that has returned [r]. *)
Definition refs_after (c : call) (r : Z) (refs : Z -> Z) : Z -> Z :=
  match c with
  | Alloc _ _ _ => bump 1 r refs
  | Ref p => bump 1 p refs
  | Free p => bump (-1) p refs
  | Cat _ t => bump (-1) t refs
  | FreeHeader p _ => bump 1 r (bump (-1) p refs)
  | _ => refs
  end.

Definition packet s (p : Z) (bs : list (Z * pbuf)) : Prop := chain (pbufs s) p bs /\ lens_ok bs.

(** The rules of the stack: only packets to which one holds a reference, at most
    255 references to a buffer, no packet behind itself. *)
Definition allowed s (refs : Z -> Z) (c : call) : Prop :=
  let room p := exists b, pbufs s !! p = Some b /\ p_ref b < 255 in
  let apart h t := exists bs bst, chain (pbufs s) h bs /\ packet s t bst /\ (forall l, l ∈ bs.*1 -> l ∉ bst.*1) in
  match c with
  | Alloc _ len _ => 0 <= len < 2 ^ 16
  | Ref p => 0 < refs p /\ room p
  | Free p => 0 < refs p
  | Cat h t => 0 < refs h /\ 0 < refs t /\ apart h t
  | Chain h t => 0 < refs h /\ 0 < refs t /\ apart h t /\ room t
  | Dechain p => 0 < refs p /\ (size (pbufs s) < 256)%nat
  | Realloc p n => 0 < refs p /\ 0 <= n /\ exists bs, packet s p bs
  | AddHeader p n _ => 0 < refs p /\ 0 <= n < 2 ^ 32 /\ 2 ^ 16 <= p /\ exists bs, packet s p bs
  | RemoveHeader p n => 0 < refs p /\ 0 <= n < 2 ^ 32
  | FreeHeader p n => 0 < refs p /\ 0 <= n < 2 ^ 16
  end.

Inductive history : pstate A -> (Z -> Z) -> Prop :=
  | history_start s : pbufs s = ∅ -> owns (alloc s) ∅ -> history s (fun _ => 0)
  | history_call s refs c r s' : history s refs -> allowed s refs c -> run c s = Some (r, s') -> history s' (refs_after c r refs).

Lemma chain_nonneg s refs H p bs : refs_ok pool_size s refs H -> chain (pbufs s) p bs -> Forall (fun ab => 0 <= p_len ab.2) bs.
Proof.
  intros HR Hc. apply Forall_forall. intros [a b] Hin. destruct (ro_block _ _ _ _ HR a b) as (n&_&HB); [by eapply chain_in|]. apply HB.
Qed.

(** Every call that the rules allow returns and keeps the invariant. *)
Lemma run_ok s refs H c : 16 + 1600 <= pool_size MEMP_PBUF_POOL -> refs_ok pool_size s refs H -> allowed s refs c ->
  exists r s' H', run c s = Some (r, s') /\ refs_ok pool_size s' (refs_after c r refs) H'.
Proof.
  intros Hps HR Hal. destruct c; cbn [allowed run refs_after] in *.
  - destruct (pbuf_alloc_run pool_size s refs H layer len t Hps HR Hal) as (r&s'&H'&E&_&[[-> HR']|(_&HR'&_)]);
      eexists _, s', H'; (split; [exact E|]); [|done]. eapply refs_ok_ext; [|exact HR']. intros q. by rewrite bump_0.
  - destruct Hal as (Hp&b&Hb&H255). destruct (pbuf_ref_run pool_size s refs H p b HR Hb H255) as (s'&E&HR').
    rewrite (bind_run _ _ _ _ _ E). by exists 0, s', H.
  - destruct (pbuf_free_run pool_size s refs H p HR Hal) as (s'&H'&E&HR'&_). by eexists _, s', H'.
  - destruct Hal as (Hh&Ht&bs&bst&Hc&[Hct Hl]&Hdj). destruct (pbuf_cat_run pool_size s refs H h bs t bst HR Hh Ht Hc Hct Hl Hdj) as (s'&E&HR'&_).
    rewrite (bind_run _ _ _ _ _ E). by exists 0, s', H.
  - destruct Hal as (Hh&Ht&(bs&bst&Hc&[Hct Hl]&Hdj)&b&Hb&H255).
    destruct (pbuf_chain_run pool_size s refs H h bs t bst b HR Hh Ht Hb H255 Hc Hct Hl Hdj) as (s'&E&HR').
    rewrite (bind_run _ _ _ _ _ E). by exists 0, s', H.
  - destruct Hal as (Hp&H256). destruct (held_live _ _ _ _ _ HR Hp) as [b Hb].
    destruct (pbuf_dechain_run pool_size s refs H p b HR Hp Hb H256) as (q&s'&H'&E&HR'&_). by exists q, s', H'.
  - destruct Hal as (Hp&Hn&bs&Hc&Hl). destruct (Z.le_gt_cases (total bs) new_len) as [Hge|Hlt].
    + exists 0, s, H. split; [|done]. destruct bs as [|[a b] bs].
      { destruct (held_live _ _ _ _ _ HR Hp) as [c E]. pose proof (live_nonzero _ _ _ _ _ _ HR E). cbn in Hc. congruence. }
      cbn in Hc, Hl, Hge. destruct Hc as (->&_&E&_). destruct Hl as (_&Ht&_). unfold pbuf_realloc. rewrite bind_assoc_run.
      rewrite (bind_run _ _ _ _ _ (pb_run _ _ _ E)). by rewrite (proj2 (Z.leb_le _ _)) by lia.
    + destruct (pbuf_realloc_run s refs H p bs new_len HR Hc Hl ltac:(lia)) as (s'&H'&_&E&HR'&_).
      rewrite (bind_run _ _ _ _ _ E). by exists 0, s', H'.
  - destruct Hal as (Hp&Hn&Hlow&bs&Hc&Hl). destruct (pbuf_add_header_run s refs H p bs n force HR Hc Hl Hn Hlow) as (r&s'&E&HR').
    exists r, s', H. split; [by destruct force|done].
  - destruct Hal as (Hp&Hn). destruct (held_live _ _ _ _ _ HR Hp) as [b Hb].
    destruct (pbuf_remove_header_run s refs H p n HR ltac:(right; by eexists) Hn) as (r&s'&E&HR'). by exists r, s', H.
  - destruct Hal as (Hp&Hn). destruct (held_live _ _ _ _ _ HR Hp) as [b Hb]. destruct (ro_chain _ _ _ _ HR p ltac:(by eexists)) as [bs Hc].
    unfold pbuf_free_header. rewrite chain_fuel_bind. pose proof (chain_size _ _ _ Hc).
    destruct (free_header_loop_run (S (size (pbufs s))) s refs H p bs n HR Hc ltac:(by right) ltac:(lia) Hn (chain_nonneg _ _ _ _ _ HR Hc)) as (r&s'&H'&E&HR').
    by exists r, s', H'.
Qed.

Lemma history_ok s refs : 16 + 1600 <= pool_size MEMP_PBUF_POOL -> history s refs -> exists H, refs_ok pool_size s refs H.
Proof.
  intros Hps. induction 1 as [s Hs HO|s refs c r s' _ [H HR] Hal E].
  - exists ∅. split; try (rewrite Hs); try done.
    + intros p [? Hp]. by rewrite lookup_empty in Hp.
    + intros p. rewrite lookup_empty. by intros [? ?].
  - destruct (run_ok s refs H c Hps HR Hal) as (r'&s2&H'&E'&HR'). rewrite E in E'. injection E' as <- <-. by exists H'.
Qed.

(** Without references from outside, no chain ends anywhere: nothing is live. *)
Lemma nothing_left s H : refs_ok pool_size s (fun _ => 0) H -> pbufs s = ∅ /\ H = ∅.
Proof.
  intros HR. assert (Hlong : forall n p, is_Some (pbufs s !! p) -> exists q bs, chain (pbufs s) q bs /\ (n <= length bs)%nat /\ is_Some (pbufs s !! q)).
  { intros n p Hp. induction n as [|n (q&bs&Hc&Hn&b&Hq)]; [destruct (ro_chain _ _ _ _ HR p Hp) as [bs Hc]; exists p, bs; split_and!; [done|lia|done]|].
    destruct (ro_count _ _ _ _ HR q b Hq) as [H1 H2]. destruct (pointers_pos (pbufs s) q ltac:(lia)) as (x&c&Hx&Hn').
    exists x, ((x, c) :: bs). split_and!; [|cbn; lia|by eexists]. cbn. pose proof (live_nonzero _ _ _ _ _ _ HR Hx). rewrite Hn'. by split_and!. }
  assert (Hnone : forall p, pbufs s !! p = None).
  { intros p. destruct (pbufs s !! p) as [b|] eqn:E; [|done].
    destruct (Hlong (S (size (pbufs s))) p ltac:(by eexists)) as (q&bs&Hc&Hn&_). pose proof (chain_size _ _ _ Hc). lia. }
  split; apply map_empty; [done|]. intros p. destruct (H !! p) eqn:E; [|done].
  destruct (ro_dom _ _ _ _ HR p ltac:(by eexists)) as [b Hb]. by rewrite Hnone in Hb.
Qed.

(** C27 — However the users of the stack allocate, reference, release, join, split
    and resize packets, as long as they only touch packets that they hold: every
    call returns; the count of every live buffer is the number of the pointers and
    of the references to it; a packet that someone holds is alive to its end; the
    payloads of two buffers never share a byte; and when nobody holds anything,
    no buffer is left and all memory has been given back. *)
Theorem pbuf_refcount_safe s refs : 16 + 1600 <= pool_size MEMP_PBUF_POOL -> history s refs ->
  (forall c, allowed s refs c -> is_Some (run c s)) /\
  (forall p b, pbufs s !! p = Some b -> p_ref b = refs p + pointers (pbufs s) p /\ 0 < p_ref b < 256) /\
  (forall p, 0 < refs p -> exists b bs, pbufs s !! p = Some b /\ chain (pbufs s) p ((p, b) :: bs)) /\
  (forall p q b c a, p <> q -> pbufs s !! p = Some b -> pbufs s !! q = Some c -> contiguous b = true -> contiguous c = true ->
     a ∈ spots b -> a ∉ spots c) /\
  ((forall p, refs p = 0) -> pbufs s = ∅ /\ owns (alloc s) ∅).
Proof.
  intros Hps HH. destruct (history_ok s refs Hps HH) as [H HR]. split_and!.
  - intros c Hal. destruct (run_ok s refs H c Hps HR Hal) as (r&s'&_&E&_). by eexists.
  - apply (ro_count _ _ _ _ HR).
  - intros p Hp. destruct (held_live _ _ _ _ _ HR Hp) as [b Hb]. destruct (ro_chain _ _ _ _ HR p ltac:(by eexists)) as [[|[a c] bs] Hc].
    { cbn in Hc. subst p. by pose proof (live_nonzero _ _ _ _ _ _ HR Hb). }
    pose proof Hc as (<-&_&E&_). rewrite Hb in E. injection E as <-. by exists b, bs.
  - intros p q b c a Hpq Hb Hc Hcb Hcc Ha Hx. destruct (ro_block _ _ _ _ HR p b Hb) as (n&Hn&HB). destruct (ro_block _ _ _ _ HR q c Hc) as (m&Hm&HC).
    pose proof (bo_data _ _ _ HB Hcb). pose proof (bo_data _ _ _ HC Hcc).
    pose proof (owns_apart _ _ _ _ _ _ _ _ (ro_owns _ _ _ _ HR) Hn Hm Hpq). apply elem_of_seqZ in Ha. apply elem_of_seqZ in Hx.
    unfold SIZEOF_STRUCT_PBUF in *. lia.
  - intros H0. apply (refs_ok_ext _ s refs (fun _ => 0)) in HR; [|done]. destruct (nothing_left s H HR) as [Hs ->]. split; [done|]. apply HR.
Qed.
End history.
