(* ===== verification/PbufAlloc.v ===== *)
(** * The memory behind the packet buffers

    The pools of memp.c and the heap of mem.c keep the promises on which packet
    buffers rely ([PbufMemoryOk]): what they hand out is new, large enough, and
    apart from everything else that is in use. *)
From S2P Require Import Prelude Mem Memp MempProofs LwipHeap LwipHeapProofs Pbuf PbufProofs PbufRefs PbufHistory.
Open Scope Z_scope.

Abbreviation memory := (memp_state * lheap)%type.

Definition on_pools {B} (q : prog memp_state B) : prog memory B := fun s => '(x, m) ← q s.1; Some (x, (m, s.2)).
Definition on_heap {B} (q : prog lheap B) : prog memory B := fun s => '(x, h) ← q s.2; Some (x, (s.1, h)).

Definition stack_memory (ram END : Z) : PbufMemory memory := {|
  pool_malloc t := on_pools (memp_malloc t);
  pool_free t p := on_pools (memp_free t p);
  heap_malloc n := on_heap (mem_malloc ram END n);
  heap_free p := on_heap (mem_free ram END p);
  heap_trim p n := on_heap (mem_trim ram END p n)
|}.

Lemma request_size_mono n n' : 0 < n' <= n -> n < 2 ^ 16 -> n <= request_size n -> n' <= request_size n' <= request_size n.
Proof.
  intros Hn H16. assert (Hal : forall k, 0 < k <= n -> LWIP_MEM_ALIGN_SIZE k = (k + 3) / 4 * 4) by (intros k Hk; apply (mem_align k); lia).
  unfold request_size, MIN_SIZE_ALIGNED. rewrite !Hal by lia.
  assert (Hu : forall k, 0 < k <= n -> k <= 65532 /\ u16 ((k + 3) / 4 * 4) = (k + 3) / 4 * 4 \/ 65532 < k /\ u16 ((k + 3) / 4 * 4) = 0).
  { intros k Hk. destruct (Z.le_gt_cases k 65532); [left; split; [done|apply u16_small; dlia]|right].
    assert ((k + 3) / 4 * 4 = 65536) as -> by dlia. split; [lia|done]. }
  destruct (Hu n ltac:(lia)) as [[? ->]|[? ->]], (Hu n' ltac:(lia)) as [[? ->]|[? ->]];
    repeat match goal with |- context [?a <? 12] => destruct (Z.ltb_spec a 12) end; dlia.
Qed.

Section alloc.
Context (memp_pools : memp_t -> memp_desc) (ram END : Z).
Hypothesis Hlayout : layout_ok memp_pools.
Hypothesis HEND : 20 <= END < 2 ^ 16 - 4 /\ END mod 4 = 0.
Hypothesis Hram : 0 < ram /\ ram mod 4 = 0 /\ ram + END + 8 < 2 ^ 32.
(** Elements are words, and the pools and the heap do not overlap. *)
Hypothesis Hwords : forall t, desc_size (memp_pools t) mod 4 = 0.
Hypothesis Hapart : forall t x, x ∈ elements memp_pools t -> x + desc_size (memp_pools t) <= ram \/ ram + END <= x.

#[local] Set Default Proof Using "All".

Abbreviation size_of t := (desc_size (memp_pools t)).

Lemma element_range t x : x ∈ elements memp_pools t -> x mod 4 = 0 /\ 0 < x /\ 0 < size_of t /\ x + size_of t < 2 ^ 32.
Proof.
  intros (i&Hi&->)%elem_of_elements. pose proof (lo_size _ Hlayout t). pose proof (lo_base _ Hlayout t) as [Hb1 Hb2]. pose proof (Hwords t).
  unfold element. split_and!; [|nia|lia|nia].
  assert (Hal : LWIP_MEM_ALIGN (desc_base (memp_pools t)) mod 4 = 0).
  { unfold LWIP_MEM_ALIGN, MEM_ALIGNMENT. change (4 - 1) with (Z.ones 2). rewrite Z.ldiff_ones_r, Z.shiftl_mul_pow2 by lia.
    change (2 ^ 2) with 4. dlia. }
  rewrite Z.add_mod, Hal, Z.mul_mod, Hwords, Z.mul_0_r by lia. done.
Qed.

(** What is handed out: elements of the pools, and blocks of the heap that are as
    large as the rounded size of the request. *)
Record handed_out (m : memory) (H : gmap Z (source * Z)) (free out : memp_t -> list Z) (bs : list blk) (G : gmap Z Z) : Prop := {
  ho_pools : pools_ok memp_pools m.1 free out;
  ho_heap : heap_rep END m.2 bs;
  ho_holds : holds ram bs G;
  ho_out : forall t x n, H !! x = Some (FromPool t, n) <-> x ∈ out t /\ n = size_of t;
  ho_held : forall x n, H !! x = Some (FromHeap, n) -> 0 < n < 2 ^ 16 /\ n <= request_size n /\ G !! x = Some (request_size n);
  ho_only : forall x, is_Some (G !! x) -> exists n, H !! x = Some (FromHeap, n)
}.

Definition stack_owns (m : memory) (H : gmap Z (source * Z)) : Prop := exists free out bs G, handed_out m H free out bs G.

Lemma pool_fresh m H free out bs G t x : handed_out m H free out bs G -> x ∈ elements memp_pools t -> x ∉ out t -> H !! x = None.
Proof.
  intros HO Hx Hn. destruct (H !! x) as [[[t'|] n]|] eqn:E; [| |done].
  - apply (ho_out _ _ _ _ _ _ HO) in E as [E _]. destruct (decide (t = t')) as [->|Ht]; [done|]. exfalso. apply Ht.
    eapply elements_apart; [exact Hlayout|exact Hx|]. apply (po_in _ Hlayout _ _ _ _ _ (ho_pools _ _ _ _ _ _ HO)). by right.
  - exfalso. destruct (ho_held _ _ _ _ _ _ HO _ _ E) as (Hn0&_&EG). destruct (holds_range _ _ HEND Hram _ _ _ _ _ (ho_heap _ _ _ _ _ _ HO) (ho_holds _ _ _ _ _ _ HO) EG).
    pose proof (element_range t x Hx). unfold SIZEOF_STRUCT_MEM in *. destruct (Hapart t x Hx); lia.
Qed.

(** Pools. *)
Lemma stack_pool_malloc m H t : stack_owns m H -> exists x m', on_pools (memp_malloc t) m = Some (x, m') /\
  (x = 0 /\ stack_owns m' H \/ x <> 0 /\ H !! x = None /\ stack_owns m' (<[x := (FromPool t, size_of t)]> H)).
Proof.
  intros (free&out&bs&G&HO). pose proof (ho_pools _ _ _ _ _ _ HO) as HP. destruct m as [mp h]. unfold on_pools. cbn [fst snd] in *.
  destruct (free t) as [|x f] eqn:Ef.
  - rewrite (malloc_empty _ Hlayout _ _ _ _ HP Ef). exists 0, (mp, h). split; [done|]. left. split; [done|]. by exists free, out, bs, G.
  - destruct (malloc_next _ Hlayout _ _ _ _ _ _ HP Ef) as (mp'&E&HP'). rewrite E. exists x, (mp', h). split; [done|]. right.
    assert (Hx : x ∈ elements memp_pools t) by (apply (po_in _ Hlayout _ _ _ _ _ HP); left; rewrite Ef; left).
    assert (Hxo : x ∉ out t) by (pose proof (po_nodup _ Hlayout _ _ _ t HP) as Hnd; rewrite Ef in Hnd; apply NoDup_app in Hnd as (_&Hnd&_); apply Hnd; left).
    pose proof (pool_fresh _ _ _ _ _ _ _ _ HO Hx Hxo) as Hnew. split; [by eapply element_pos|]. split; [done|].
    exists (at_pool t f free), (at_pool t (x :: out t) out), bs, G. split; [done|apply HO|apply HO| | |].
    + intros t' y n. unfold at_pool. destruct (decide (y = x)) as [->|Hy].
      * rewrite lookup_insert_eq. case_decide as Ht; [subst t'; rewrite elem_of_cons|]; [naive_solver|].
        split; [congruence|]. intros [Hin _]. exfalso. apply Ht. eapply elements_apart; [exact Hlayout| |exact Hx].
        apply (po_in _ Hlayout _ _ _ _ _ HP). by right.
      * rewrite lookup_insert_ne by done. rewrite (ho_out _ _ _ _ _ _ HO). case_decide as Ht; [subst t'; rewrite elem_of_cons; naive_solver|done].
    + intros y n. rewrite lookup_insert_Some. intros [[_ [=]]|[_ Hy]]. by apply (ho_held _ _ _ _ _ _ HO).
    + intros y Hy. destruct (ho_only _ _ _ _ _ _ HO y Hy) as [n E']. exists n. rewrite lookup_insert_ne; [done|]. congruence.
Qed.

Lemma stack_pool_free m H t x n : stack_owns m H -> H !! x = Some (FromPool t, n) ->
  exists m', on_pools (memp_free t x) m = Some (tt, m') /\ stack_owns m' (delete x H).
Proof.
  intros (free&out&bs&G&HO) Hx. pose proof (ho_pools _ _ _ _ _ _ HO) as HP. destruct m as [mp h]. unfold on_pools. cbn [fst snd] in *.
  pose proof Hx as Hx0. apply (ho_out _ _ _ _ _ _ HO) in Hx as [Hx _]. apply elem_of_Permutation in Hx as [ys Hys].
  destruct (free_one _ Hlayout _ _ _ _ _ _ HP Hys) as (mp'&E&HP'). rewrite E. exists (mp', h). split; [done|].
  assert (Hnd : NoDup (x :: ys)) by (rewrite <- Hys; pose proof (po_nodup _ Hlayout _ _ _ t HP) as Hnd; by apply NoDup_app in Hnd as (_&_&?)).
  apply NoDup_cons in Hnd as [Hxy _].
  exists (at_pool t (x :: free t) free), (at_pool t ys out), bs, G. split; [done|apply HO|apply HO| | |].
  - intros t' y k. unfold at_pool. destruct (decide (y = x)) as [->|Hy].
    + rewrite lookup_delete_eq. split; [done|]. case_decide as Ht; [naive_solver|]. intros [Hin _]. exfalso. apply Ht.
      apply (elements_apart _ Hlayout t' t x); apply (po_in _ Hlayout _ _ _ _ _ HP); right; [done|]. rewrite Hys. left.
    + rewrite lookup_delete_ne by done. rewrite (ho_out _ _ _ _ _ _ HO). case_decide as Ht; [subst t'; rewrite Hys, elem_of_cons; naive_solver|done].
  - intros y k [_ Hy]%lookup_delete_Some. by apply (ho_held _ _ _ _ _ _ HO).
  - intros y Hy. destruct (ho_only _ _ _ _ _ _ HO y Hy) as [k E']. exists k. rewrite lookup_delete_ne; [done|]. congruence.
Qed.

(** The heap. *)
Lemma stack_heap_update m H free out bs G h' bs' x n : handed_out m H free out bs G -> heap_rep END h' bs' ->
  holds ram bs' (<[x := request_size n]> G) -> 0 < n < 2 ^ 16 -> n <= request_size n ->
  (forall t k, H !! x <> Some (FromPool t, k)) -> stack_owns (m.1, h') (<[x := (FromHeap, n)]> H).
Proof.
  intros HO HR HH Hn Hge Hx. exists free, out, bs', (<[x := request_size n]> G). split; [apply HO|done|done| | |].
  - intros t y k. rewrite <- (ho_out _ _ _ _ _ _ HO). destruct (decide (y = x)) as [->|Hy]; [|by rewrite lookup_insert_ne].
    rewrite lookup_insert_eq. split; [done|]. intros E. by apply Hx in E.
  - intros y k. rewrite !lookup_insert. case_decide; [intros [= <-]; done|]. apply (ho_held _ _ _ _ _ _ HO).
  - intros y. rewrite !lookup_insert. case_decide; [intros _; by exists n|]. apply (ho_only _ _ _ _ _ _ HO).
Qed.

Lemma stack_heap_malloc m H n : stack_owns m H -> 0 < n < 2 ^ 16 -> exists x m', on_heap (mem_malloc ram END n) m = Some (x, m') /\
  (x = 0 /\ stack_owns m' H \/ x <> 0 /\ H !! x = None /\ stack_owns m' (<[x := (FromHeap, n)]> H)).
Proof.
  intros (free&out&bs&G&HO) Hn. destruct m as [mp h]. unfold on_heap. cbn [fst snd] in *.
  destruct (holds_malloc _ _ HEND Hram h bs G n (ho_heap _ _ _ _ _ _ HO) (ho_holds _ _ _ _ _ _ HO) Hn) as (x&h'&E&Hcase). rewrite E. exists x, (mp, h').
  split; [done|]. destruct Hcase as [[-> ->]|(Hx&HG&Hge&bs'&HR'&HH')]; [left|right].
  - split; [done|]. by exists free, out, bs, G.
  - split; [done|]. assert (Hnew : H !! x = None).
    { destruct (H !! x) as [[[t|] k]|] eqn:Ex; [| |done].
      - exfalso. pose proof Ex as [Hin _]%(ho_out _ _ _ _ _ _ HO).
        assert (Hel : x ∈ elements memp_pools t) by (apply (po_in _ Hlayout _ _ _ _ _ (ho_pools _ _ _ _ _ _ HO)); by right).
        destruct (holds_range _ _ HEND Hram h' bs' _ x (request_size n) HR' (HH' (request_size n) ltac:(lia)) ltac:(apply lookup_insert_eq)).
        pose proof (element_range t x Hel). unfold SIZEOF_STRUCT_MEM in *. destruct (Hapart t x Hel); lia.
      - apply (ho_held _ _ _ _ _ _ HO) in Ex as (_&_&Ex). congruence. }
    split; [done|]. apply (stack_heap_update (mp, h) H free out bs G h' bs' x n HO HR'); try done; [apply HH'; lia|]. intros t k. by rewrite Hnew.
Qed.

Lemma stack_heap_free m H x n : stack_owns m H -> H !! x = Some (FromHeap, n) ->
  exists m', on_heap (mem_free ram END x) m = Some (tt, m') /\ stack_owns m' (delete x H).
Proof.
  intros (free&out&bs&G&HO) Hx. destruct m as [mp h]. unfold on_heap. cbn [fst snd] in *.
  destruct (ho_held _ _ _ _ _ _ HO _ _ Hx) as (_&_&HG).
  destruct (holds_free _ _ HEND Hram h bs G x _ (ho_heap _ _ _ _ _ _ HO) (ho_holds _ _ _ _ _ _ HO) HG) as (h'&bs'&E&HR'&HH'). rewrite E.
  exists (mp, h'). split; [done|]. exists free, out, bs', (delete x G). split; [apply HO|done|done| | |].
  - intros t y k. rewrite <- (ho_out _ _ _ _ _ _ HO). destruct (decide (y = x)) as [->|Hy]; [|by rewrite lookup_delete_ne].
    rewrite lookup_delete_eq, Hx. by split.
  - intros y k [Hy Hk]%lookup_delete_Some. rewrite lookup_delete_ne by done. by apply (ho_held _ _ _ _ _ _ HO).
  - intros y [k [Hy Hk]%lookup_delete_Some]. rewrite lookup_delete_ne by done. apply (ho_only _ _ _ _ _ _ HO). by eexists.
Qed.

Lemma stack_heap_trim m H x n n' : stack_owns m H -> H !! x = Some (FromHeap, n) -> 0 < n' <= n ->
  exists m', on_heap (mem_trim ram END x n') m = Some (x, m') /\ stack_owns m' (<[x := (FromHeap, n')]> H).
Proof.
  intros (free&out&bs&G&HO) Hx Hn'. destruct m as [mp h]. unfold on_heap. cbn [fst snd] in *.
  destruct (ho_held _ _ _ _ _ _ HO _ _ Hx) as (Hn&Hge&HG). pose proof (request_size_mono n n' Hn' ltac:(lia) Hge) as Hmono.
  destruct (holds_trim _ _ HEND Hram h bs G x _ n' (ho_heap _ _ _ _ _ _ HO) (ho_holds _ _ _ _ _ _ HO) HG ltac:(lia))
    as [[_ Hno]|(h'&bs'&E&_&_&HR'&HH')]; [by destruct Hno|]. rewrite E. exists (mp, h'). split; [done|].
  apply (stack_heap_update (mp, h) H free out bs G h' bs' x n' HO HR'); [apply HH'; lia|lia|lia|]. intros t k. by rewrite Hx.
Qed.

(** Where blocks lie. *)
Lemma stack_pool_element m H t x n : stack_owns m H -> H !! x = Some (FromPool t, n) -> x ∈ elements memp_pools t /\ n = size_of t.
Proof.
  intros (free&out&bs&G&HO) [Hin ->]%(ho_out _ _ _ _ _ _ HO). split; [|done]. apply (po_in _ Hlayout _ _ _ _ _ (ho_pools _ _ _ _ _ _ HO)). by right.
Qed.

Lemma stack_heap_block m H x n : stack_owns m H -> H !! x = Some (FromHeap, n) -> ram <= x /\ x + n <= ram + END.
Proof.
  intros (free&out&bs&G&HO) Hx. destruct (ho_held _ _ _ _ _ _ HO _ _ Hx) as (Hn&Hge&HG).
  destruct (holds_range _ _ HEND Hram _ _ _ _ _ (ho_heap _ _ _ _ _ _ HO) (ho_holds _ _ _ _ _ _ HO) HG). unfold SIZEOF_STRUCT_MEM in *. lia.
Qed.

Lemma stack_range m H x u n : stack_owns m H -> H !! x = Some (u, n) -> x mod 4 = 0 /\ 0 < x /\ 0 < n /\ x + n < 2 ^ 32.
Proof.
  intros HS Hx. destruct u as [t|].
  - destruct (stack_pool_element _ _ _ _ _ HS Hx) as [Hin ->]. by apply element_range.
  - destruct HS as (free&out&bs&G&HO). destruct (ho_held _ _ _ _ _ _ HO _ _ Hx) as (Hn&Hge&HG).
    destruct (holds_range _ _ HEND Hram _ _ _ _ _ (ho_heap _ _ _ _ _ _ HO) (ho_holds _ _ _ _ _ _ HO) HG). unfold SIZEOF_STRUCT_MEM in *. lia.
Qed.

Lemma elements_disjoint t t' x y : x ∈ elements memp_pools t -> y ∈ elements memp_pools t' -> x <> y -> x + size_of t <= y \/ y + size_of t' <= x.
Proof.
  intros (i&Hi&->)%elem_of_elements (j&Hj&->)%elem_of_elements Hne. destruct (decide (t = t')) as [<-|Ht]; [|by apply (lo_apart _ Hlayout)].
  unfold element in *. pose proof (lo_size _ Hlayout t). assert (i <> j) by congruence. destruct (decide (i < j)%nat); [left|right]; nia.
Qed.

Lemma stack_apart m H x y u v n k : stack_owns m H -> H !! x = Some (u, n) -> H !! y = Some (v, k) -> x <> y -> x + n <= y \/ y + k <= x.
Proof.
  intros HS Hx Hy Hne. pose proof (fun t z j => stack_pool_element m H t z j HS) as Hpool. destruct HS as (free&out&bs&G&HO).
  assert (Hheap : forall z j, H !! z = Some (FromHeap, j) -> G !! z = Some (request_size j) /\ j <= request_size j /\ ram <= z /\ z + j <= ram + END).
  { intros z j Hz. destruct (ho_held _ _ _ _ _ _ HO _ _ Hz) as (Hn&Hge&HG). split; [done|].
    destruct (holds_range _ _ HEND Hram _ _ _ _ _ (ho_heap _ _ _ _ _ _ HO) (ho_holds _ _ _ _ _ _ HO) HG). unfold SIZEOF_STRUCT_MEM in *. lia. }
  destruct u as [t|], v as [t'|].
  - destruct (Hpool _ _ _ Hx) as [Hx' ->], (Hpool _ _ _ Hy) as [Hy' ->]. by apply elements_disjoint.
  - destruct (Hpool _ _ _ Hx) as [Hx' ->], (Hheap _ _ Hy) as (_&_&?&?). destruct (Hapart t x Hx'); lia.
  - destruct (Hpool _ _ _ Hy) as [Hy' ->], (Hheap _ _ Hx) as (_&_&?&?). destruct (Hapart t' y Hy'); lia.
  - destruct (Hheap _ _ Hx) as (Hgx&?&_), (Hheap _ _ Hy) as (Hgy&?&_).
    destruct (holds_apart _ _ HEND Hram _ _ _ _ _ _ _ (ho_heap _ _ _ _ _ _ HO) (ho_holds _ _ _ _ _ _ HO) Hgx Hgy Hne); lia.
Qed.

(** The memory of the stack keeps its promises to the packet buffers. *)
Definition stack_memory_ok : @PbufMemoryOk memory (stack_memory ram END) (fun t => size_of t).
Proof.
  refine (Build_PbufMemoryOk memory (stack_memory ram END) _ stack_owns stack_pool_malloc stack_pool_free stack_heap_malloc stack_heap_free
    stack_heap_trim stack_range _ stack_apart).
  intros m H x n (free&out&bs&G&HO) Hx. destruct (ho_held _ _ _ _ _ _ HO _ _ Hx) as (Hn&_). lia.
Defined.

Lemma stack_owns_start mp0 h0 mp h : memp_init memp_pools mp0 = Some (tt, mp) -> mem_init END h0 = Some (tt, h) -> stack_owns (mp, h) ∅.
Proof.
  intros E1 E2. destruct (init_ok _ Hlayout mp0) as (mp'&E1'&HP). rewrite E1 in E1'. injection E1' as <-.
  destruct (mem_init_run _ _ HEND Hram h0) as (h'&E2'&HR). rewrite E2 in E2'. injection E2' as <-.
  eexists _, (fun _ => []), _, ∅. split; [exact HP|exact HR| | | |].
  - split; [|done]. intros b Hb. by apply elem_of_nil in Hb.
  - intros t x n. rewrite lookup_empty. split; [done|]. by intros [?%elem_of_nil _].
  - done.
  - intros x. rewrite lookup_empty. by intros [? ?].
Qed.
End alloc.

(** ** Witness

    Two packets, one from the heap and one from the pools, are joined and
    released. *)
Definition stack_pools (t : memp_t) : memp_desc :=
  mkDesc (if decide (t = MEMP_PBUF_POOL) then 1616 else 16) 2 (10000 + 10000 * pool_number t).

Lemma stack_pools_base t : LWIP_MEM_ALIGN (desc_base (stack_pools t)) = 10000 + 10000 * pool_number t.
Proof. by destruct t. Qed.

Lemma stack_pools_element t k : element stack_pools t k = 10000 + 10000 * pool_number t + Z.of_nat k * desc_size (stack_pools t).
Proof. unfold element. by rewrite stack_pools_base. Qed.

Lemma stack_pools_size t : 16 <= desc_size (stack_pools t) <= 1616 /\ desc_size (stack_pools t) mod 4 = 0.
Proof. unfold stack_pools. cbn [desc_size]. case_decide; split; done || lia. Qed.

Lemma pool_number_range t : 0 <= pool_number t < 14.
Proof. by destruct t; vm_compute. Qed.

Lemma stack_pools_ok : layout_ok stack_pools.
Proof.
  split.
  - intros t. pose proof (stack_pools_size t). lia.
  - intros t. cbn. lia.
  - intros t. rewrite stack_pools_base. pose proof (stack_pools_size t). pose proof (pool_number_range t).
    change (desc_num (stack_pools t)) with 2. lia.
  - intros t t' i j Hne Hi Hj. change (desc_num (stack_pools t)) with 2 in Hi. change (desc_num (stack_pools t')) with 2 in Hj.
    unfold element. rewrite !stack_pools_base. pose proof (stack_pools_size t). pose proof (stack_pools_size t').
    assert (pool_number t <> pool_number t') by (by destruct t, t'). nia.
Qed.

Lemma heap_place : (20 <= 512 < 2 ^ 16 - 4 /\ 512 mod 4 = 0) /\ (0 < 1000 /\ 1000 mod 4 = 0 /\ 1000 + 512 + 8 < 2 ^ 32).
Proof. by vm_compute. Qed.

Lemma stack_pools_apart t x : x ∈ elements stack_pools t -> x + desc_size (stack_pools t) <= 1000 \/ 1000 + 512 <= x.
Proof.
  intros (i&Hi&->)%elem_of_elements. unfold element. rewrite stack_pools_base. pose proof (stack_pools_size t). pose proof (pool_number_range t). nia.
Qed.

#[local] Instance memory_ex : PbufMemory memory := stack_memory 1000 512.
#[local] Instance memory_ex_ok : PbufMemoryOk memory (fun t => desc_size (stack_pools t)) :=
  stack_memory_ok stack_pools 1000 512 stack_pools_ok (proj1 heap_place) (proj2 heap_place) (fun t => proj2 (stack_pools_size t)) stack_pools_apart.

Definition stack_start : pstate memory :=
  mkP ∅ ∅ (default (mkMemp (fun _ => 0) ∅) (snd <$> memp_init stack_pools (mkMemp (fun _ => 0) ∅)),
           default (mkHeap ∅ 0) (snd <$> mem_init 512 (mkHeap ∅ 0))).

Definition after (c : call) (s : pstate memory) : pstate memory := default s (snd <$> run c s).
Definition result (c : call) (s : pstate memory) : Z := default 0 (fst <$> run c s).

Definition alloc1 : pstate memory := after (Alloc PBUF_TRANSPORT 10 PBUF_RAM) stack_start.
Definition ram_packet : Z := result (Alloc PBUF_TRANSPORT 10 PBUF_RAM) stack_start.
Definition alloc2 : pstate memory := after (Alloc PBUF_RAW 20 PBUF_POOL) alloc1.
Definition pool_packet : Z := result (Alloc PBUF_RAW 20 PBUF_POOL) alloc1.
Definition joined : pstate memory := after (Cat ram_packet pool_packet) alloc2.
Definition released : pstate memory := after (Free ram_packet) joined.

Definition refs_joined : Z -> Z := bump (-1) pool_packet (bump 1 pool_packet (bump 1 ram_packet (fun _ => 0))).

Lemma joined_history : history (fun t => desc_size (stack_pools t)) joined refs_joined.
Proof.
  assert (H1 : history (fun t => desc_size (stack_pools t)) alloc1 (bump 1 ram_packet (fun _ => 0))).
  { apply (history_call _ stack_start _ (Alloc PBUF_TRANSPORT 10 PBUF_RAM)); [|cbn; lia|vm_compute; reflexivity].
    apply history_start; [done|]. apply (stack_owns_start stack_pools 1000 512 stack_pools_ok (proj1 heap_place) (proj2 heap_place)
      (fun t => proj2 (stack_pools_size t)) stack_pools_apart (mkMemp (fun _ => 0) ∅) (mkHeap ∅ 0)); vm_compute; reflexivity. }
  assert (H2 : history (fun t => desc_size (stack_pools t)) alloc2 (bump 1 pool_packet (bump 1 ram_packet (fun _ => 0)))).
  { apply (history_call _ alloc1 _ (Alloc PBUF_RAW 20 PBUF_POOL)); [done|cbn; lia|vm_compute; reflexivity]. }
  apply (history_call _ alloc2 _ (Cat ram_packet pool_packet) 0); [done| |vm_compute; reflexivity].
  split; [by vm_compute|]. split; [by vm_compute|].
  exists [(ram_packet, default (fresh_pbuf 0 0 0 PBUF_RAM) (pbufs alloc2 !! ram_packet))], [(pool_packet, default (fresh_pbuf 0 0 0 PBUF_RAM) (pbufs alloc2 !! pool_packet))].
  split; [by vm_compute|]. split; [split; by vm_compute|].
  cbn. intros l ->%list_elem_of_singleton Hl%list_elem_of_singleton. by vm_compute in Hl.
Qed.

Lemma pbuf_refcount_safe_witness : run (Free ram_packet) joined = Some (2, released) /\ pbufs released = ∅.
Proof.
  assert (E : run (Free ram_packet) joined = Some (2, released)) by (vm_compute; reflexivity). split; [exact E|].
  pose proof (history_call _ joined refs_joined (Free ram_packet) 2 released joined_history ltac:(by vm_compute) E) as HH.
  destruct (pbuf_refcount_safe (fun t => desc_size (stack_pools t)) released _ ltac:(by vm_compute) HH) as (_&_&_&_&Hend).
  apply Hend. intros p. cbn [refs_after]. unfold refs_joined, bump. repeat case_decide; lia.
Defined.
