(* ===== verification/LwipDef.v ===== *)
(** * Common definitions of LwIP (core/def.c, lwip/def.h)

    The order of the bytes of a word differs between the two boards: the RISC-V
    SoC is little-endian, the PowerPC one big-endian.  It is a parameter of
    everything that depends on it.  C strings are lists of bytes without the
    terminator. *)
From S2P Require Import Prelude Mem.
Open Scope Z_scope.

Inductive byte_order := LITTLE_ENDIAN | BIG_ENDIAN.

#[export] Instance byte_order_eq_dec : EqDecision byte_order.
Proof. solve_decision. Defined.

(** The 16-bit word with the bytes [b0] and [b1] in memory. *)
Definition host16 (order : byte_order) (b0 b1 : Z) : Z :=
  match order with LITTLE_ENDIAN => b0 + 256 * b1 | BIG_ENDIAN => 256 * b0 + b1 end.

Definition load16 (order : byte_order) (a : Z) (m : mem) : option Z :=
  b0 ← load8 a m; b1 ← load8 (a + 1) m; Some (host16 order b0 b1).

(** The 32-bit word with these bytes in memory. *)
Definition host32 (order : byte_order) (b0 b1 b2 b3 : Z) : Z :=
  match order with
  | LITTLE_ENDIAN => b0 + 256 * b1 + 65536 * b2 + 16777216 * b3
  | BIG_ENDIAN => b3 + 256 * b2 + 65536 * b1 + 16777216 * b0
  end.

Definition PP_HTONS (x : Z) : Z := u16 (Z.lor (Z.shiftl (Z.land x 0x00ff) 8) (Z.shiftr (Z.land x 0xff00) 8)).

Definition PP_HTONL (x : Z) : Z :=
  Z.lor (Z.lor (Z.lor (Z.shiftl (Z.land x 0x000000ff) 24) (Z.shiftl (Z.land x 0x0000ff00) 8))
               (Z.shiftr (Z.land x 0x00ff0000) 8))
        (Z.shiftr (Z.land x 0xff000000) 24).

Definition lwip_htons (order : byte_order) (x : Z) : Z := match order with LITTLE_ENDIAN => PP_HTONS x | BIG_ENDIAN => u16 x end.
Definition lwip_htonl (order : byte_order) (x : Z) : Z := match order with LITTLE_ENDIAN => PP_HTONL x | BIG_ENDIAN => u32 x end.
Definition lwip_ntohs := lwip_htons.
Definition lwip_ntohl := lwip_htonl.

Definition LWIP_MAKEU32 (a b c d : Z) : Z :=
  Z.lor (Z.lor (Z.lor (Z.shiftl (Z.land a 0xff) 24) (Z.shiftl (Z.land b 0xff) 16)) (Z.shiftl (Z.land c 0xff) 8)) (Z.land d 0xff).
