(* ===== verification/LwipDefProofs.v ===== *)
(** * Byte order *)
From S2P Require Import Prelude Mem LwipDef.
Open Scope Z_scope.

Lemma land_low_byte x : Z.land x 0xff = x mod 256.
Proof. change 0xff with (Z.ones 8). by rewrite Z.land_ones. Qed.

(** One byte of a word, at bit [k]. *)
Lemma land_byte_at x k : 0 <= k -> Z.land x (Z.shiftl 0xff k) = 2 ^ k * ((x / 2 ^ k) mod 256).
Proof.
  intros Hk. rewrite <- land_low_byte, <- Z.shiftr_div_pow2, Z.mul_comm, <- Z.shiftl_mul_pow2, Z.shiftl_land by lia.
  apply Z.bits_inj'. intros i Hi. rewrite !Z.land_spec. destruct (Z.lt_ge_cases i k) as [Hik|Hik].
  - rewrite !(Z.shiftl_spec_low _ k) by lia. apply andb_false_r.
  - rewrite !(Z.shiftl_spec_high _ k) by lia. rewrite Z.shiftr_spec by lia. by rewrite Z.sub_add.
Qed.

(** A disjoint union of bits is a sum. *)
Lemma lor_sum hi lo k : 0 <= k -> 0 <= lo < 2 ^ k -> Z.lor (2 ^ k * hi) lo = 2 ^ k * hi + lo.
Proof.
  intros Hk Hlo. rewrite <- Z.add_lor_land. assert (Z.land (2 ^ k * hi) lo = 0) as ->; [|lia].
  apply Z.bits_inj_0. intros i. rewrite Z.land_spec, Z.mul_comm, <- Z.shiftl_mul_pow2 by lia.
  destruct (Z.lt_ge_cases i k) as [Hi|Hi].
  - destruct (Z.lt_ge_cases i 0); [by rewrite Z.testbit_neg_r|]. by rewrite Z.shiftl_spec_low.
  - rewrite (Z.testbit_eqb lo), Z.div_small by (pose proof (Z.pow_le_mono_r 2 k i); lia). apply andb_false_r.
Qed.

Lemma PP_HTONS_spec x : 0 <= x < 2 ^ 16 -> PP_HTONS x = 256 * (x mod 256) + x / 256.
Proof.
  intros Hx. unfold PP_HTONS. change 0x00ff with 0xff. change 0xff00 with (Z.shiftl 0xff 8).
  rewrite land_low_byte, land_byte_at, Z.shiftl_mul_pow2, Z.shiftr_div_pow2, (Z.mul_comm _ (2 ^ 8)) by lia.
  rewrite (lor_sum _ _ 8) by (change (2 ^ 8) with 256; dlia). change (2 ^ 8) with 256. rewrite u16_small by dlia. dlia.
Qed.

Lemma PP_HTONL_spec a b c d : byte_ok a -> byte_ok b -> byte_ok c -> byte_ok d ->
  PP_HTONL (a + 256 * b + 65536 * c + 16777216 * d) = d + 256 * c + 65536 * b + 16777216 * a.
Proof.
  unfold byte_ok. intros Ha Hb Hc Hd. unfold PP_HTONL. set (x := a + _ + _ + _).
  change 0x000000ff with 0xff. change 0x0000ff00 with (Z.shiftl 0xff 8). change 0x00ff0000 with (Z.shiftl 0xff 16).
  change 0xff000000 with (Z.shiftl 0xff 24). rewrite land_low_byte, !land_byte_at by lia.
  replace (x mod 256) with a by (unfold x; dlia).
  replace ((x / 2 ^ 8) mod 256) with b by (unfold x; change (2 ^ 8) with 256; dlia).
  replace ((x / 2 ^ 16) mod 256) with c by (unfold x; change (2 ^ 16) with 65536; dlia).
  replace ((x / 2 ^ 24) mod 256) with d by (unfold x; change (2 ^ 24) with 16777216; dlia).
  rewrite !Z.shiftl_mul_pow2, !Z.shiftr_div_pow2 by lia.
  replace (2 ^ 8 * b * 2 ^ 8) with (2 ^ 16 * b) by lia. replace (2 ^ 16 * c / 2 ^ 8) with (2 ^ 8 * c) by (change (2 ^ 16) with (2 ^ 8 * 2 ^ 8); dlia).
  replace (2 ^ 24 * d / 2 ^ 24) with d by dlia. rewrite (Z.mul_comm a).
  rewrite (lor_sum a _ 24) by lia. replace (2 ^ 24 * a + 2 ^ 16 * b) with (2 ^ 16 * (2 ^ 8 * a + b)) by lia.
  rewrite (lor_sum _ _ 16) by lia. replace (2 ^ 16 * (2 ^ 8 * a + b) + 2 ^ 8 * c) with (2 ^ 8 * (2 ^ 16 * a + 2 ^ 8 * b + c)) by lia.
  rewrite (lor_sum _ _ 8) by lia. lia.
Qed.
