(* ===== verification/Chksum.v ===== *)
(** * Internet checksums (LwIP core/inet_chksum.c)

    The sum of the 16-bit words of a message in one's complement, over memory at
    any alignment and over packets of any segmentation, on a machine of either
    byte order.  The algorithm is number 2, the default; IPv6 is off, so that
    ip_chksum_pseudo is inet_chksum_pseudo. *)
From S2P Require Import Prelude Mem Memp LwipDef Pbuf.
Open Scope Z_scope.

Definition SWAP_BYTES_IN_WORD (w : Z) : Z := Z.lor (Z.shiftl (Z.land w 0xff) 8) (Z.shiftr (Z.land w 0xff00) 8).
Definition FOLD_U32T (u : Z) : Z := u32 (Z.shiftr u 16 + Z.land u 0x0000ffff).

Section chksum.
Context (order : byte_order).

(** The bulk of the data, word by word; the byte that is left over. *)
Fixpoint sum_words (fuel : nat) (ps len sum : Z) (m : mem) : option (Z * Z * Z) :=
  match fuel with
  | O => None
  | S fuel' =>
      if 1 <? len then w ← load16 order ps m; sum_words fuel' (ps + 2) (len - 2) (u32 (sum + w)) m
      else Some (ps, len, sum)
  end.

Definition lwip_standard_chksum (dataptr len : Z) (m : mem) : option Z :=
  let odd := negb (Z.land dataptr 1 =? 0) in
  '(pb, len, t1) ← (if odd && (0 <? len) then b ← load8 dataptr m; Some (dataptr + 1, len - 1, b) else Some (dataptr, len, 0));
  '(ps, len, sum) ← sum_words (S (Z.to_nat len)) pb len 0 m;
  t0 ← (if 0 <? len then load8 ps m else Some 0);
  let sum := u32 (sum + host16 order t0 t1) in
  let sum := FOLD_U32T (FOLD_U32T sum) in
  Some (u16 (if odd then SWAP_BYTES_IN_WORD sum else sum)).

Definition inet_chksum (dataptr len : Z) (m : mem) : option Z :=
  c ← lwip_standard_chksum dataptr len m; Some (u16 (Z.lnot c)).

Section packets.
Context {A : Type} `{!PbufMemory A}.

Definition chksum_at (p len : Z) : prog (pstate A) Z := try_ask (fun s => lwip_standard_chksum p len (bytes s)).

(** The loop over the buffers: [swapped] after an odd number of bytes. *)
Fixpoint pseudo_loop (fuel : nat) (q : Z) (swapped : bool) (acc : Z) : prog (pstate A) (bool * Z) :=
  match fuel with
  | O => fun _ => None
  | S fuel' =>
      if q =? 0 then mret (swapped, acc)
      else
        b ← pb q;
        c ← chksum_at (p_payload b) (p_len b);
        let acc := FOLD_U32T (u32 (acc + c)) in
        if negb (p_len b `mod` 2 =? 0) then pseudo_loop fuel' (p_next b) (negb swapped) (SWAP_BYTES_IN_WORD acc)
        else pseudo_loop fuel' (p_next b) swapped acc
  end.

(** The end of a sum with a pseudo header. *)
Definition pseudo_end (proto proto_len : Z) (r : bool * Z) : Z :=
  let acc := if r.1 then SWAP_BYTES_IN_WORD r.2 else r.2 in
  let acc := u32 (acc + lwip_htons order (u16 proto)) in
  let acc := u32 (acc + lwip_htons order proto_len) in
  let acc := FOLD_U32T (FOLD_U32T acc) in
  u16 (Z.lnot (Z.land acc 0xffff)).

Definition inet_cksum_pseudo_base (p proto proto_len acc : Z) : prog (pstate A) Z :=
  n ← chain_fuel; r ← pseudo_loop n p false acc; mret (pseudo_end proto proto_len r).

(** The sum of the two addresses. *)
Definition addr_sum (src dest : Z) : Z :=
  let acc := Z.land src 0xffff in
  let acc := u32 (acc + Z.land (Z.shiftr src 16) 0xffff) in
  let acc := u32 (acc + Z.land dest 0xffff) in
  let acc := u32 (acc + Z.land (Z.shiftr dest 16) 0xffff) in
  FOLD_U32T (FOLD_U32T acc).

Definition inet_chksum_pseudo (p proto proto_len src dest : Z) : prog (pstate A) Z :=
  inet_cksum_pseudo_base p proto proto_len (addr_sum src dest).

Definition ip_chksum_pseudo (p proto proto_len src dest : Z) : prog (pstate A) Z := inet_chksum_pseudo p proto proto_len src dest.

Fixpoint partial_loop (fuel : nat) (q chksum_len : Z) (swapped : bool) (acc : Z) : prog (pstate A) (bool * Z) :=
  match fuel with
  | O => fun _ => None
  | S fuel' =>
      if (q =? 0) || negb (0 <? chksum_len) then mret (swapped, acc)
      else
        b ← pb q;
        let chklen := if chksum_len <? p_len b then chksum_len else p_len b in
        c ← chksum_at (p_payload b) chklen;
        let chksum_len := u16 (chksum_len - chklen) in
        let acc := FOLD_U32T (u32 (acc + c)) in
        if negb (p_len b `mod` 2 =? 0) then partial_loop fuel' (p_next b) chksum_len (negb swapped) (SWAP_BYTES_IN_WORD acc)
        else partial_loop fuel' (p_next b) chksum_len swapped acc
  end.

Definition inet_cksum_pseudo_partial_base (p proto proto_len chksum_len acc : Z) : prog (pstate A) Z :=
  n ← chain_fuel; r ← partial_loop n p chksum_len false acc; mret (pseudo_end proto proto_len r).

Definition inet_chksum_pseudo_partial (p proto proto_len chksum_len src dest : Z) : prog (pstate A) Z :=
  inet_cksum_pseudo_partial_base p proto proto_len chksum_len (addr_sum src dest).

Definition ip_chksum_pseudo_partial (p proto proto_len chksum_len src dest : Z) : prog (pstate A) Z :=
  inet_chksum_pseudo_partial p proto proto_len chksum_len src dest.

Definition inet_chksum_pbuf (p : Z) : prog (pstate A) Z :=
  n ← chain_fuel;
  '(swapped, acc) ← pseudo_loop n p false 0;
  let acc := if swapped : bool then SWAP_BYTES_IN_WORD acc else acc in
  mret (u16 (Z.lnot (Z.land acc 0xffff))).
End packets.
End chksum.
