(* ===== verification/ChksumProofs.v ===== *)
(** * The Internet checksum is the one's complement sum

    The reference is the definition of RFC 1071: the 16-bit big-endian words of a
    message, padded with a zero byte, added in one's complement.  The code adds
    words in host order, folds late, and swaps bytes for odd addresses and odd
    segments; modulo 65535 a swap is a multiplication by 256. *)
From S2P Require Import Prelude Mem Memp LwipDef LwipDefProofs Pbuf PbufProofs Chksum.
Open Scope Z_scope.

(** ** The reference *)

Fixpoint net_sum (ds : list Z) : Z :=
  match ds with
  | [] => 0
  | a :: ds' => match ds' with [] => 256 * a | b :: r => 256 * a + b + net_sum r end
  end.

(** A number added up in one's complement. *)
Definition ones (n : Z) : Z := if n =? 0 then 0 else 1 + (n - 1) mod 65535.

Definition checksum (ds : list Z) : Z := 65535 - ones (net_sum ds).

Lemma pair_ind (P : list Z -> Prop) : P [] -> (forall a, P [a]) -> (forall a b r, P r -> P (a :: b :: r)) -> forall ds, P ds.
Proof.
  intros H0 H1 H2. fix IH 1. intros [|a [|b r]]; [done|apply H1|]. apply H2, IH.
Qed.

Lemma net_sum_nonneg ds : Forall byte_ok ds -> 0 <= net_sum ds.
Proof.
  induction ds as [|a|a b r IH] using pair_ind; intros Hb; cbn; [done|..].
  - apply Forall_cons in Hb as [[? ?] _]. lia.
  - apply Forall_cons in Hb as [[? ?] [[? ?] Hr]%Forall_cons]. specialize (IH Hr). lia.
Qed.

Lemma net_sum_cons a ds : net_sum (a :: ds) = 256 * a + net_sum (0 :: ds).
Proof. destruct ds; cbn; lia. Qed.

Lemma net_sum_app xs ys : net_sum (xs ++ ys) = net_sum xs + net_sum (if Nat.even (length xs) then ys else 0 :: ys).
Proof.
  induction xs as [|a|a b r IH] using pair_ind; cbn [app length Nat.even]; [by cbn|apply net_sum_cons|].
  cbn [net_sum]. rewrite IH. lia.
Qed.

(** ** Representation of a sum, scaled by [k], as a word *)

Definition eq1 (v w : Z) : Prop := v mod 65535 = w mod 65535.

Lemma eq1_iff v w : eq1 v w <-> exists k, v = w + 65535 * k.
Proof.
  unfold eq1. split.
  - intros E. exists (v / 65535 - w / 65535). pose proof (Z.div_mod v 65535). pose proof (Z.div_mod w 65535). lia.
  - intros [k ->]. by rewrite Z.mul_comm, Z.mod_add.
Qed.

Record stands (bound k v n : Z) : Prop := { st_range : 0 <= v <= bound; st_zero : v = 0 <-> n = 0; st_eq : eq1 v (k * n) }.

Lemma stands_eq1 bound k k' v n : (exists j, k = k' + 65535 * j) -> stands bound k v n -> stands bound k' v n.
Proof.
  intros [j ->] [Hr Hz E]. split; [done|done|]. apply eq1_iff in E as [i E]. apply eq1_iff. exists (i + j * n). lia.
Qed.

Lemma stands_weaken bound bound' k v n : bound <= bound' -> stands bound k v n -> stands bound' k v n.
Proof. intros Hb [Hr Hz E]. split; [lia|done|done]. Qed.

Lemma stands_add b b' k v n w m : 0 <= n -> 0 <= m -> stands b k v n -> stands b' k w m -> stands (b + b') k (v + w) (n + m).
Proof.
  intros Hn Hm [Hr Hz E] [Hr' Hz' E']. split; [lia|lia|]. apply eq1_iff in E as [i E]. apply eq1_iff in E' as [j E']. apply eq1_iff.
  exists (i + j). lia.
Qed.

Lemma fold_spec v : 0 <= v < 2 ^ 32 -> FOLD_U32T v = v / 65536 + v mod 65536.
Proof.
  intros Hv. unfold FOLD_U32T. change 0x0000ffff with (Z.ones 16). rewrite Z.land_ones, Z.shiftr_div_pow2 by lia.
  change (2 ^ 16) with 65536. rewrite u32_small by dlia. done.
Qed.

Lemma fold_stands b k v n : b < 2 ^ 32 -> stands b k v n -> stands (b / 65536 + 65535) k (FOLD_U32T v) n.
Proof.
  intros Hb [Hr Hz E]. rewrite fold_spec by lia. split; [dlia|dlia|]. apply eq1_iff in E as [i E]. apply eq1_iff.
  exists (i - v / 65536). pose proof (Z.div_mod v 65536). lia.
Qed.

(** Folding a sum of two words once leaves a word; a 32-bit sum takes two folds. *)
Lemma fold_word k v n : stands (65535 + 65535) k v n -> stands 65535 k (FOLD_U32T v) n.
Proof.
  intros H. pose proof (fold_stands (65535 + 65535) k v n ltac:(lia) H) as [Hr Hz E]. split; [|done|done].
  destruct H as [Hv _ _]. rewrite fold_spec in * by lia. dlia.
Qed.

Lemma fold_twice b k v n : b < 2 ^ 32 -> stands b k v n -> stands 65535 k (FOLD_U32T (FOLD_U32T v)) n.
Proof.
  intros Hb H. apply fold_word. eapply stands_weaken; [|by eapply fold_stands]. dlia.
Qed.

Lemma swap_spec w : 0 <= w <= 65535 -> SWAP_BYTES_IN_WORD w = 256 * (w mod 256) + w / 256.
Proof.
  intros Hw. rewrite <- PP_HTONS_spec by lia. unfold PP_HTONS. change (SWAP_BYTES_IN_WORD w) with (Z.lor (Z.shiftl (Z.land w 0x00ff) 8) (Z.shiftr (Z.land w 0xff00) 8)).
  rewrite u16_small; [done|]. change 0x00ff with 0xff. change 0xff00 with (Z.shiftl 0xff 8).
  rewrite land_low_byte, land_byte_at, Z.shiftl_mul_pow2, Z.shiftr_div_pow2, (Z.mul_comm _ (2 ^ 8)) by lia.
  rewrite (lor_sum _ _ 8) by (change (2 ^ 8) with 256; dlia). change (2 ^ 8) with 256. change (2 ^ 16) with 65536. dlia.
Qed.

Lemma swap_stands k v n : stands 65535 k v n -> stands 65535 (256 * k) (SWAP_BYTES_IN_WORD v) n.
Proof.
  intros [Hr Hz E]. rewrite swap_spec by lia. split; [dlia|dlia|]. apply eq1_iff in E as [i E]. apply eq1_iff.
  exists (256 * i - v / 256). pose proof (Z.div_mod v 256). lia.
Qed.

(** A word is determined by what it stands for. *)
Lemma stands_det k v w n : stands 65535 k v n -> stands 65535 k w n -> v = w.
Proof.
  intros [Hv Hvz Ev] [Hw Hwz Ew]. destruct (decide (n = 0)) as [->|Hn]; [lia|].
  assert (Hvw : eq1 v w) by (unfold eq1 in *; congruence). apply eq1_iff in Hvw as [i Hi]. nia.
Qed.

Lemma ones_stands n : 0 <= n -> stands 65535 1 (ones n) n.
Proof.
  intros Hn. unfold ones. destruct (Z.eqb_spec n 0) as [->|Hz]; [by split|]. split; [dlia|dlia|]. apply eq1_iff.
  exists (- ((n - 1) / 65535)). pose proof (Z.div_mod (n - 1) 65535). lia.
Qed.

(** A byte in front shifts the rest by one byte. *)
Lemma net_shift ds : Forall byte_ok ds -> eq1 (256 * net_sum (0 :: ds)) (net_sum ds) /\ (net_sum (0 :: ds) = 0 <-> net_sum ds = 0).
Proof.
  induction ds as [|a|a b r IH] using pair_ind; intros Hb.
  - by split.
  - cbn [net_sum]. split; [|lia]. apply eq1_iff. exists 0. lia.
  - apply Forall_cons in Hb as [[? ?] [[? ?] Hr]%Forall_cons]. destruct (IH Hr) as [E Hz]. apply eq1_iff in E as [i E].
    pose proof (net_sum_nonneg r Hr). pose proof (net_sum_nonneg (0 :: r) ltac:(constructor; [by split|done])).
    change (net_sum (0 :: a :: b :: r)) with (256 * 0 + a + net_sum (b :: r)). rewrite (net_sum_cons b r).
    change (net_sum (a :: b :: r)) with (256 * a + b + net_sum r). split; [|lia]. apply eq1_iff. exists (i + b). lia.
Qed.

Lemma stands_shift b k v ds : Forall byte_ok ds -> stands b (256 * k) v (net_sum (0 :: ds)) <-> stands b k v (net_sum ds).
Proof.
  intros Hb. destruct (net_shift ds Hb) as [E Hz]. apply eq1_iff in E as [i E].
  split; intros [Hr Hv Ev]; (split; [done|lia|]); apply eq1_iff in Ev as [j Ev]; apply eq1_iff; [exists (j + k * i)|exists (j - k * i)]; lia.
Qed.

(** ** Sums in host order *)

Section order.
Context (order : byte_order).

(** What a word of network order is multiplied by in host order. *)
Definition scale : Z := match order with BIG_ENDIAN => 1 | LITTLE_ENDIAN => 256 end.

Lemma scale_256 : exists j, 256 * (256 * scale) = scale + 65535 * j.
Proof. unfold scale. destruct order; [by exists 256|by exists 1]. Qed.

Lemma host16_word a b : byte_ok a -> byte_ok b -> stands 65535 scale (host16 order a b) (256 * a + b).
Proof.
  unfold byte_ok. intros Ha Hb. unfold host16, scale. destruct order; (split; [lia|lia|]); apply eq1_iff.
  - exists (-a). lia.
  - exists 0. lia.
Qed.

Lemma host16_end a : byte_ok a -> stands 65535 scale (host16 order a 0) (256 * a).
Proof. intros Ha. replace (256 * a) with (256 * a + 0) by lia. by apply host16_word. Qed.

Lemma htons_stands x : 0 <= x < 2 ^ 16 -> stands 65535 scale (lwip_htons order x) x.
Proof.
  intros Hx. unfold lwip_htons, scale. destruct order.
  - rewrite PP_HTONS_spec by done. rewrite <- swap_spec by lia. apply (swap_stands 1).
    split; [lia|done|]. apply eq1_iff. exists 0. lia.
  - rewrite u16_small by done. split; [lia|done|]. apply eq1_iff. exists 0. lia.
Qed.

(** A word that stands for a sum is the folded sum in network order. *)
Lemma word_of_sum v n : 0 <= n -> stands 65535 scale v n -> v = lwip_htons order (ones n).
Proof.
  intros Hn Hv. eapply stands_det; [exact Hv|]. pose proof (ones_stands n Hn) as Ho.
  pose proof (htons_stands (ones n) ltac:(destruct Ho; lia)) as [Hr Hz E]. destruct Ho as [Hor Hoz Eo].
  split; [done|lia|]. apply eq1_iff in E as [i E]. apply eq1_iff in Eo as [j Eo]. apply eq1_iff. exists (i + scale * j).
  rewrite E, Eo. lia.
Qed.

Lemma htons_lnot x : 0 <= x <= 65535 -> u16 (Z.lnot (lwip_htons order x)) = lwip_htons order (65535 - x).
Proof.
  intros Hx. unfold Z.lnot, lwip_htons, u16. change (2 ^ 16) with 65536. destruct order.
  - rewrite !PP_HTONS_spec by lia. dlia.
  - dlia.
Qed.

Lemma land_lnot v : 0 <= v <= 65535 -> Z.land v 0xffff = v.
Proof. intros Hv. change 0xffff with (Z.ones 16). rewrite Z.land_ones by lia. apply Z.mod_small. lia. Qed.

(** *** A portion of memory *)

Lemma seqZ_split a n : 0 < n -> seqZ a n = a :: seqZ (a + 1) (n - 1).
Proof. intros Hn. rewrite seqZ_cons by done. by rewrite <- Z.add_1_r, Z.sub_1_r. Qed.

Lemma read_cons a ads m ds : read (a :: ads) m = Some ds -> exists d ds', ds = d :: ds' /\ m !! a = Some d /\ read ads m = Some ds'.
Proof.
  unfold read. cbn. intros (d&E&(ds'&E'&[= <-])%bind_Some_inv)%bind_Some_inv. by exists d, ds'.
Qed.

Lemma sum_words_run fuel m p len sum ds n : (Z.to_nat len < fuel)%nat -> 0 <= len -> read (seqZ p len) m = Some ds -> Forall byte_ok ds ->
  0 <= n -> stands sum scale sum n -> 2 * sum + 65535 * len < 2 * 2 ^ 32 ->
  exists xs rest ps sum', ds = xs ++ rest /\ Nat.even (length xs) = true /\
    sum_words order fuel p len sum m = Some (ps, Z.of_nat (length rest), sum') /\
    read (seqZ ps (Z.of_nat (length rest))) m = Some rest /\ (length rest <= 1)%nat /\
    stands sum' scale sum' (n + net_sum xs) /\ 2 * sum' <= 2 * sum + 65535 * len.
Proof.
  revert p len sum ds n. induction fuel as [|fuel IH]; intros p len sum ds n Hf Hl Hr Hb Hn Hs Hmax; [lia|]. cbn [sum_words].
  pose proof (read_length _ _ _ Hr) as Hlen. rewrite length_seqZ in Hlen.
  destruct (Z.ltb_spec 1 len) as [H1|H1].
  - rewrite seqZ_split in Hr by lia. apply read_cons in Hr as (a&ds1&->&Ea&Hr). rewrite seqZ_split in Hr by lia.
    apply read_cons in Hr as (b&ds2&->&Eb&Hr). apply Forall_cons in Hb as [Ha [Hb Hb2]%Forall_cons].
    unfold load16, load8. rewrite Ea. cbn [mbind option_bind]. rewrite Eb. cbn [mbind option_bind].
    pose proof (host16_word a b Ha Hb) as Hw. pose proof (st_range _ _ _ _ Hw). pose proof (st_range _ _ _ _ Hs). rewrite u32_small by lia.
    assert (Hn2 : 0 <= 256 * a + b) by (destruct Ha, Hb; lia).
    replace (p + 1 + 1) with (p + 2) in Hr by lia. replace (len - 1 - 1) with (len - 2) in Hr by lia.
    destruct (IH (p + 2) (len - 2) (sum + host16 order a b) ds2 (n + (256 * a + b))) as (xs&rest&ps&sum'&->&He&E&Hrr&Hrl&Hs'&Hm');
      [lia|lia|done|done|lia| |lia|].
    { destruct (stands_add _ _ _ _ _ _ _ Hn Hn2 Hs Hw) as [_ Hz Eq]. split; [lia|done|done]. }
    exists (a :: b :: xs), rest, ps, sum'. split_and!; [done|done|done|done|done| |lia].
    cbn [net_sum]. replace (n + (256 * a + b + net_sum xs)) with (n + (256 * a + b) + net_sum xs) by lia. done.
  - exists [], ds, p, sum. rewrite Hlen, Z2Nat.id by lia. split_and!; [done|done|done|done|lia| |lia]. cbn [net_sum]. by rewrite Z.add_0_r.
Qed.

Lemma odd_spec p : negb (Z.land p 1 =? 0) = Z.odd p.
Proof.
  change 1 with (Z.ones 1) at 1. rewrite Z.land_ones by lia. change (2 ^ 1) with 2. rewrite Zmod_odd. by destruct (Z.odd p).
Qed.

(** The last byte goes in front of the byte [t1] in a word of its own. *)
Lemma tail_run m ps rest sum t1 n : (length rest <= 1)%nat -> read (seqZ ps (Z.of_nat (length rest))) m = Some rest -> Forall byte_ok rest -> byte_ok t1 ->
  0 <= n -> stands sum (scale) sum n -> sum + 65535 < 2 ^ 32 \/ rest = [] /\ t1 = 0 /\ sum < 2 ^ 32 ->
  exists t0, (if 0 <? Z.of_nat (length rest) then load8 ps m else Some 0) = Some t0 /\
    stands 65535 scale (FOLD_U32T (FOLD_U32T (u32 (sum + host16 order t0 t1)))) (n + (net_sum rest + t1)).
Proof.
  intros Hl Hr Hb Ht Hn Hs Hmax.
  assert (Ht0 : exists t0, (if 0 <? Z.of_nat (length rest) then load8 ps m else Some 0) = Some t0 /\ byte_ok t0 /\ net_sum rest = 256 * t0 /\ (rest = [] -> t0 = 0)).
  { destruct rest as [|x [|? ?]]; [exists 0; by split_and!| |cbn in Hl; lia]. change (Z.of_nat (length [x])) with 1 in *.
    rewrite seqZ_split in Hr by lia. apply read_cons in Hr as (d&ds'&[= <- _]&E&_). apply Forall_cons in Hb as [Hx _]. exists x. by split_and!. }
  destruct Ht0 as (t0&E&Hb0&Hn0&Hz). exists t0. split; [exact E|]. rewrite Hn0. pose proof (host16_word t0 t1 Hb0 Ht) as Hw.
  pose proof (st_range _ _ _ _ Hs). pose proof (st_range _ _ _ _ Hw).
  assert (Hm : sum + host16 order t0 t1 < 2 ^ 32).
  { destruct Hmax as [?|(Hr0&->&?)]; [lia|]. rewrite (Hz Hr0) in *. assert (host16 order 0 0 = 0) as -> by by destruct order. lia. }
  rewrite u32_small by lia. apply (fold_twice (sum + host16 order t0 t1)); [lia|].
  assert (Hn2 : 0 <= 256 * t0 + t1) by (destruct Hb0, Ht; lia).
  destruct (stands_add _ _ _ _ _ _ _ Hn Hn2 Hs Hw) as [_ Hz' Eq]. split; [lia|done|done].
Qed.

Lemma lwip_standard_chksum_run p len m ds : 0 <= len <= 0x20000 -> read (seqZ p len) m = Some ds -> Forall byte_ok ds ->
  exists c, lwip_standard_chksum order p len m = Some c /\ stands 65535 scale c (net_sum ds).
Proof.
  intros Hlen Hr Hb. unfold lwip_standard_chksum. rewrite odd_spec. pose proof (read_length _ _ _ Hr) as Hl. rewrite length_seqZ in Hl.
  destruct (Z.odd p && (0 <? len)) eqn:Ho.
  - apply andb_prop in Ho as [Ho H0]. apply Z.ltb_lt in H0. rewrite Ho. rewrite seqZ_split in Hr by lia. apply read_cons in Hr as (d&ds'&->&Ed&Hr).
    apply Forall_cons in Hb as [Hd Hb]. change (load8 p m) with (m !! p). rewrite Ed. cbn [mbind option_bind].
    destruct (sum_words_run (S (Z.to_nat (len - 1))) m (p + 1) (len - 1) 0 ds' 0) as (xs&rest&ps&sum&->&He&E&Hrr&Hrl&Hs&Hm);
      [lia|lia|done|done|lia|by split; [lia|done|apply eq1_iff; exists 0; lia]|lia|].
    rewrite E. cbn [mbind option_bind]. apply Forall_app in Hb as [Hbx Hbr].
    destruct (tail_run m ps rest sum d (0 + net_sum xs) Hrl Hrr Hbr Hd) as (t0&Et&Hst); [pose proof (net_sum_nonneg xs Hbx); lia|done|left; lia|].
    rewrite Et. cbn [mbind option_bind]. apply swap_stands in Hst as Hsw. eexists. split; [reflexivity|].
    pose proof (st_range _ _ _ _ Hsw). rewrite u16_small by lia. apply stands_shift; [by constructor; [|apply Forall_app]|].
    replace (net_sum (0 :: d :: xs ++ rest)) with (0 + net_sum xs + (net_sum rest + d)); [done|].
    cbn [net_sum]. rewrite net_sum_app, He. lia.
  - destruct (sum_words_run (S (Z.to_nat len)) m p len 0 ds 0) as (xs&rest&ps&sum&->&He&E&Hrr&Hrl&Hs&Hm);
      [lia|lia|done|done|lia|by split; [lia|done|apply eq1_iff; exists 0; lia]|lia|].
    cbn [mbind option_bind]. rewrite E. cbn [mbind option_bind]. apply Forall_app in Hb as [Hbx Hbr].
    destruct (tail_run m ps rest sum 0 (0 + net_sum xs) Hrl Hrr Hbr) as (t0&Et&Hst); [by split|pose proof (net_sum_nonneg xs Hbx); lia|done| |].
    { rewrite length_app in Hl. destruct rest; [right; split_and!; [done|done|lia]|left; cbn in Hl; lia]. }
    rewrite Et. cbn [mbind option_bind]. rewrite net_sum_app, He, Z.add_0_l, Z.add_0_r in *.
    destruct (Z.odd p) eqn:Hodd.
    + (* nothing to sum at an odd address *)
      apply andb_false_iff in Ho as [?|H0]; [done|]. apply Z.ltb_ge in H0. rewrite length_app in Hl.
      destruct xs; [|cbn in Hl; lia]. destruct rest; [|cbn in Hl; lia]. eexists. split; [reflexivity|].
      apply swap_stands in Hst. pose proof (st_range _ _ _ _ Hst). rewrite u16_small by lia. cbn in Hst |- *. destruct Hst as [? Hz ?].
      split; [done|done|]. apply eq1_iff. exists 0. lia.
    + eexists. split; [reflexivity|]. pose proof (st_range _ _ _ _ Hst). by rewrite u16_small by lia.
Qed.

(** *** Packets *)

Definition side (swapped : bool) : Z := if swapped then 256 * scale else scale.
Definition settle (r : bool * Z) : Z := if r.1 then SWAP_BYTES_IN_WORD r.2 else r.2.

Lemma side_swap swapped v n : stands 65535 (side swapped) v n -> stands 65535 (side (negb swapped)) (SWAP_BYTES_IN_WORD v) n.
Proof.
  intros H%swap_stands. destruct swapped; cbn [side negb] in *; [|done]. eapply stands_eq1; [|exact H]. apply scale_256.
Qed.

Lemma settle_stands swapped v n : stands 65535 (side swapped) v n -> stands 65535 scale (settle (swapped, v)) n.
Proof. intros H. destruct swapped; [|exact H]. exact (side_swap true v n H). Qed.

(** Either way of leaving the loop settles. *)
Lemma settle_any swapped (b : bool) v n : stands 65535 (side swapped) v n ->
  stands 65535 scale (settle (if b then (negb swapped, SWAP_BYTES_IN_WORD v) else (swapped, v))) n.
Proof. intros H. destruct b; apply settle_stands; [by apply side_swap|done]. Qed.

(** One segment is added. *)
Lemma segment_stands xs ys acc c n : Forall byte_ok xs -> Forall byte_ok ys -> 0 <= n ->
  stands 65535 (side (negb (Nat.even (length xs)))) acc (n + net_sum xs) -> stands 65535 scale c (net_sum ys) ->
  stands 65535 (side (negb (Nat.even (length xs)))) (FOLD_U32T (u32 (acc + c))) (n + net_sum (xs ++ ys)).
Proof.
  intros Hx Hy Hn Ha Hc. pose proof (st_range _ _ _ _ Ha). pose proof (st_range _ _ _ _ Hc). rewrite u32_small by lia. apply fold_word.
  pose proof (net_sum_nonneg xs Hx). rewrite net_sum_app, Z.add_assoc. apply stands_add; [lia| |done|].
  - apply net_sum_nonneg. destruct (Nat.even _); [done|]. by constructor.
  - destruct (Nat.even (length xs)); cbn [side negb]; [done|]. by apply stands_shift.
Qed.

Context {A : Type} `{!PbufMemory A}.
Implicit Types (s : pstate A).

Lemma chksum_at_run s p len ds : 0 <= len < 2 ^ 16 -> read (seqZ p len) (bytes s) = Some ds -> Forall byte_ok ds ->
  exists c, chksum_at order p len s = Some (c, s) /\ stands 65535 scale c (net_sum ds).
Proof.
  intros Hl Hr Hb. destruct (lwip_standard_chksum_run p len (bytes s) ds ltac:(lia) Hr Hb) as (c&E&Hc).
  exists c. split; [|done]. unfold chksum_at, try_ask. by rewrite E.
Qed.

Lemma even_mod2 (xs : list Z) n : Z.of_nat (length xs) = n -> negb (n mod 2 =? 0) = negb (Nat.even (length xs)).
Proof.
  intros <-. rewrite Zmod_even. assert (Z.even (Z.of_nat (length xs)) = Nat.even (length xs)) as ->; [|by destruct (Nat.even _)].
  destruct (Nat.even (length xs)) eqn:E.
  - apply Nat.even_spec in E as [k ->]. rewrite Nat2Z.inj_mul. apply Z.even_spec. by exists (Z.of_nat k).
  - rewrite <- Nat.negb_odd in E. apply negb_false_iff, Nat.odd_spec in E as [k ->].
    rewrite <- Z.negb_odd. apply negb_false_iff, Z.odd_spec. exists (Z.of_nat k). lia.
Qed.

Lemma even_app (xs ys : list Z) : negb (Nat.even (length (xs ++ ys))) = if negb (Nat.even (length ys)) then negb (negb (Nat.even (length xs))) else negb (Nat.even (length xs)).
Proof. rewrite length_app, Nat.even_add. by destruct (Nat.even (length xs)), (Nat.even (length ys)). Qed.

Lemma pseudo_loop_run fuel s q bs xs ds acc n : chain (pbufs s) q bs -> (length bs < fuel)%nat -> lens_ok bs -> bytes_ok (bytes s) ->
  read (addrs bs) (bytes s) = Some ds -> Forall byte_ok xs -> 0 <= n ->
  stands 65535 (side (negb (Nat.even (length xs)))) acc (n + net_sum xs) ->
  exists r, pseudo_loop order fuel q (negb (Nat.even (length xs))) acc s = Some (r, s) /\ stands 65535 scale (settle r) (n + net_sum (xs ++ ds)).
Proof.
  revert q bs xs ds acc. induction fuel as [|fuel IH]; intros q bs xs ds acc Hc Hf Hl Hm Hr Hx Hn Ha; [lia|]. cbn [pseudo_loop].
  destruct bs as [|[a b] bs].
  { cbn in Hc, Hr. subst q. injection Hr as <-. eexists. split; [done|]. rewrite app_nil_r. by apply settle_stands. }
  cbn in Hc, Hl. destruct Hc as (->&Hp&E&Hc). destruct Hl as (Hl0&Htot&H16&Hl). pose proof (total_nneg _ Hl).
  rewrite (proj2 (Z.eqb_neq a 0)), (bind_run _ _ _ _ _ (pb_run _ _ _ E)) by done.
  cbn [addrs] in Hr. apply read_app_Some in Hr as (ys&zs&->&Hry&Hrz). pose proof (read_bytes_ok _ _ _ Hm Hry) as Hy.
  destruct (chksum_at_run s (p_payload b) (p_len b) ys ltac:(lia) Hry Hy) as (c&Ec&Hsc). rewrite (bind_run _ _ _ _ _ Ec).
  pose proof (segment_stands xs ys acc c n Hx Hy Hn Ha Hsc) as Hseg.
  assert (Hlen : Z.of_nat (length ys) = p_len b) by (rewrite (read_length _ _ _ Hry), spots_length; lia).
  rewrite (even_mod2 ys) by done. rewrite app_assoc.
  assert (Hxy : Forall byte_ok (xs ++ ys)) by by apply Forall_app.
  destruct (negb (Nat.even (length ys))) eqn:Ey.
  - destruct (IH (p_next b) bs (xs ++ ys) zs (SWAP_BYTES_IN_WORD (FOLD_U32T (u32 (acc + c))))) as (r&Er&Hst); try done; [cbn in Hf; lia| |].
    + rewrite even_app, Ey. by apply side_swap.
    + exists r. split; [|done]. by rewrite even_app, Ey in Er.
  - destruct (IH (p_next b) bs (xs ++ ys) zs (FOLD_U32T (u32 (acc + c)))) as (r&Er&Hst); try done; [cbn in Hf; lia| |].
    + by rewrite even_app, Ey.
    + exists r. split; [|done]. by rewrite even_app, Ey in Er.
Qed.

Lemma partial_loop_run fuel s q bs xs ds acc n left : chain (pbufs s) q bs -> (length bs < fuel)%nat -> lens_ok bs -> bytes_ok (bytes s) ->
  read (addrs bs) (bytes s) = Some ds -> Forall byte_ok xs -> 0 <= n -> 0 <= left < 2 ^ 16 ->
  stands 65535 (side (negb (Nat.even (length xs)))) acc (n + net_sum xs) ->
  exists r, partial_loop order fuel q left (negb (Nat.even (length xs))) acc s = Some (r, s) /\
    stands 65535 scale (settle r) (n + net_sum (xs ++ take (Z.to_nat left) ds)).
Proof.
  revert q bs xs ds acc left. induction fuel as [|fuel IH]; intros q bs xs ds acc left Hc Hf Hl Hm Hr Hx Hn Hleft Ha; [lia|]. cbn [partial_loop].
  assert (Hstop : stands 65535 scale (settle (negb (Nat.even (length xs)), acc)) (n + net_sum (xs ++ []))) by (rewrite app_nil_r; by apply settle_stands).
  destruct (Z.ltb_spec 0 left) as [Hpos|Hpos]; cbn [negb]; [|rewrite orb_true_r; eexists; split; [done|]; by replace (Z.to_nat left) with 0%nat by lia].
  rewrite orb_false_r. destruct bs as [|[a b] bs].
  { cbn in Hc, Hr. subst q. injection Hr as <-. eexists. split; [done|]. by rewrite take_nil. }
  cbn in Hc, Hl. destruct Hc as (->&Hp&E&Hc). destruct Hl as (Hl0&Htot&H16&Hl). pose proof (total_nneg _ Hl).
  rewrite (proj2 (Z.eqb_neq a 0)), (bind_run _ _ _ _ _ (pb_run _ _ _ E)) by done.
  cbn [addrs] in Hr. apply read_app_Some in Hr as (ys&zs&->&Hry&Hrz). pose proof (read_bytes_ok _ _ _ Hm Hry) as Hy.
  assert (Hlen : Z.of_nat (length ys) = p_len b) by (rewrite (read_length _ _ _ Hry), spots_length; lia).
  destruct (Z.ltb_spec left (p_len b)) as [Hlt|Hge].
  - pose proof (read_sub _ _ 0 left _ _ Hry ltac:(lia) ltac:(lia) ltac:(lia)) as Hsub. change (Z.to_nat 0) with 0%nat in Hsub. rewrite drop_0, Z.add_0_r in Hsub.
    assert (Hyt : Forall byte_ok (take (Z.to_nat left) ys)) by by apply Forall_take.
    destruct (chksum_at_run s (p_payload b) left _ ltac:(lia) Hsub Hyt) as (c&Ec&Hsc). rewrite (bind_run _ _ _ _ _ Ec).
    pose proof (segment_stands xs _ acc c n Hx Hyt Hn Ha Hsc) as Hseg. rewrite take_app_le by lia. rewrite Z.sub_diag.
    assert (Hend : forall sw v, partial_loop order fuel (p_next b) (u16 0) sw v s = Some ((sw, v), s)).
    { intros sw v. destruct fuel; [cbn in Hf; lia|]. cbn [partial_loop]. by rewrite orb_true_r. }
    pose proof (settle_any _ (negb (p_len b mod 2 =? 0)) _ _ Hseg) as Hany.
    destruct (negb (p_len b mod 2 =? 0)); rewrite Hend; by eexists.
  - destruct (chksum_at_run s (p_payload b) (p_len b) ys ltac:(lia) Hry Hy) as (c&Ec&Hsc). rewrite (bind_run _ _ _ _ _ Ec).
    pose proof (segment_stands xs ys acc c n Hx Hy Hn Ha Hsc) as Hseg. rewrite (even_mod2 ys), u16_small by (done || lia).
    rewrite take_app_ge by lia. replace (Z.to_nat left - length ys)%nat with (Z.to_nat (left - p_len b)) by lia. rewrite app_assoc.
    assert (Hxy : Forall byte_ok (xs ++ ys)) by by apply Forall_app.
    destruct (negb (Nat.even (length ys))) eqn:Ey.
    + destruct (IH (p_next b) bs (xs ++ ys) zs (SWAP_BYTES_IN_WORD (FOLD_U32T (u32 (acc + c)))) (left - p_len b)) as (r&Er&Hst); try done; [cbn in Hf; lia|lia| |].
      * rewrite even_app, Ey. by apply side_swap.
      * exists r. split; [|done]. by rewrite even_app, Ey in Er.
    + destruct (IH (p_next b) bs (xs ++ ys) zs (FOLD_U32T (u32 (acc + c))) (left - p_len b)) as (r&Er&Hst); try done; [cbn in Hf; lia|lia| |].
      * by rewrite even_app, Ey.
      * exists r. split; [|done]. by rewrite even_app, Ey in Er.
Qed.

(** The two halves of a word of four bytes. *)
Lemma host32_halves a b c d : byte_ok a -> byte_ok b -> byte_ok c -> byte_ok d -> let w := host32 order a b c d in
  Z.land w 0xffff + Z.land (Z.shiftr w 16) 0xffff = host16 order a b + host16 order c d /\
  0 <= Z.land w 0xffff <= 65535 /\ 0 <= Z.land (Z.shiftr w 16) 0xffff <= 65535.
Proof.
  intros Ha Hb Hc Hd w. unfold byte_ok in *. change 0xffff with (Z.ones 16). rewrite !Z.land_ones, Z.shiftr_div_pow2 by lia. change (2 ^ 16) with 65536. change (Z.ones 16) with 65535.
  assert (Hsplit : forall lo hi, 0 <= lo < 65536 -> 0 <= hi < 65536 -> (lo + 65536 * hi) mod 65536 = lo /\ ((lo + 65536 * hi) / 65536) mod 65536 = hi) by (intros lo hi ? ?; split; dlia).
  unfold w, host32, host16. destruct order.
  - replace (a + 256 * b + 65536 * c + 16777216 * d) with (a + 256 * b + 65536 * (c + 256 * d)) by lia.
    destruct (Hsplit (a + 256 * b) (c + 256 * d)) as [-> ->]; lia.
  - replace (d + 256 * c + 65536 * b + 16777216 * a) with (d + 256 * c + 65536 * (b + 256 * a)) by lia.
    destruct (Hsplit (d + 256 * c) (b + 256 * a)) as [-> ->]; lia.
Qed.

Definition word (ds : list Z) : Z := match ds with [a; b; c; d] => host32 order a b c d | _ => 0 end.

Lemma word_stands ds : length ds = 4%nat -> Forall byte_ok ds -> let w := word ds in
  stands (65535 + 65535) scale (Z.land w 0xffff + Z.land (Z.shiftr w 16) 0xffff) (net_sum ds).
Proof.
  destruct ds as [|a [|b [|c [|d [|? ?]]]]]; intros Hl Hb; try done. apply Forall_cons in Hb as [Ha Hb]. apply Forall_cons in Hb as [Hb Hc].
  apply Forall_cons in Hc as [Hc Hd]. apply Forall_cons in Hd as [Hd _]. cbv zeta. cbn [word].
  destruct (host32_halves a b c d Ha Hb Hc Hd) as (E&_&_). rewrite E. cbn [net_sum]. rewrite Z.add_0_r.
  apply stands_add; [unfold byte_ok in *; lia..|by apply host16_word|by apply host16_word].
Qed.

Lemma half_range w : 0 <= Z.land w 0xffff <= 65535.
Proof. change 0xffff with (Z.ones 16). rewrite Z.land_ones by lia. change (Z.ones 16) with 65535. pose proof (Z.mod_pos_bound w (2 ^ 16)). lia. Qed.

Lemma addr_sum_stands src dest : length src = 4%nat -> length dest = 4%nat -> Forall byte_ok src -> Forall byte_ok dest ->
  stands 65535 scale (addr_sum (word src) (word dest)) (net_sum (src ++ dest)).
Proof.
  intros Hls Hld Hs Hd. unfold addr_sum. set (w1 := word src). set (w2 := word dest).
  pose proof (half_range w1). pose proof (half_range (Z.shiftr w1 16)). pose proof (half_range w2). pose proof (half_range (Z.shiftr w2 16)).
  rewrite !(u32_small (_ + _)) by (rewrite ?(u32_small (_ + _)) by (rewrite ?(u32_small (_ + _)) by lia; lia); lia).
  apply (fold_twice (65535 + 65535 + (65535 + 65535))); [lia|]. rewrite net_sum_app, Hls. cbn [Nat.even].
  rewrite <- (Z.add_assoc (_ + _) (Z.land w2 _)). apply stands_add; [by apply net_sum_nonneg..|by apply word_stands|by apply word_stands].
Qed.

(** The protocol and the length end the pseudo header. *)
Definition pseudo_header (src dest : list Z) (proto proto_len : Z) : list Z := src ++ dest ++ [0; proto; proto_len / 256; proto_len mod 256].

Lemma pseudo_sum src dest proto proto_len ds : length src = 4%nat -> length dest = 4%nat ->
  net_sum (pseudo_header src dest proto proto_len ++ ds) = net_sum (src ++ dest) + net_sum ds + proto + proto_len.
Proof.
  intros Hs Hd. unfold pseudo_header. rewrite net_sum_app, !length_app, Hs, Hd. cbn [Nat.even length Nat.add].
  rewrite app_assoc, net_sum_app, length_app, Hs, Hd. cbn [Nat.even Nat.add net_sum]. pose proof (Z.div_mod proto_len 256). lia.
Qed.

Lemma pseudo_end_run r src dest proto proto_len ds : length src = 4%nat -> length dest = 4%nat -> Forall byte_ok src -> Forall byte_ok dest -> Forall byte_ok ds ->
  byte_ok proto -> 0 <= proto_len < 2 ^ 16 -> stands 65535 scale (settle r) (net_sum (src ++ dest) + net_sum ds) ->
  pseudo_end order proto proto_len r = lwip_htons order (checksum (pseudo_header src dest proto proto_len ++ ds)).
Proof.
  intros Hls Hld Hbs Hbd Hb [Hp0 Hp] Hpl Hr. unfold pseudo_end. fold (settle r). rewrite (u16_small proto) by lia.
  pose proof (htons_stands proto ltac:(lia)) as H1. pose proof (htons_stands proto_len Hpl) as H2.
  pose proof (st_range _ _ _ _ Hr). pose proof (st_range _ _ _ _ H1). pose proof (st_range _ _ _ _ H2).
  rewrite (u32_small (settle r + _)) by lia. rewrite u32_small by lia.
  pose proof (net_sum_nonneg (src ++ dest) ltac:(by apply Forall_app)) as Hn1. pose proof (net_sum_nonneg ds Hb) as Hn2.
  assert (Hall : stands 65535 scale (FOLD_U32T (FOLD_U32T (settle r + lwip_htons order proto + lwip_htons order proto_len)))
    (net_sum (pseudo_header src dest proto proto_len ++ ds))).
  { rewrite pseudo_sum by done. apply (fold_twice (65535 + 65535 + 65535)); [lia|].
    apply stands_add; [lia|lia| |done]. apply stands_add; [lia|lia|done|done]. }
  pose proof (st_range _ _ _ _ Hall) as Hv. rewrite land_lnot by done. unfold checksum.
  assert (HN : 0 <= net_sum (pseudo_header src dest proto proto_len ++ ds)) by (rewrite pseudo_sum by done; lia).
  rewrite (word_of_sum _ _ HN Hall). apply htons_lnot. apply (ones_stands _ HN).
Qed.

Lemma inet_chksum_run p len m ds : 0 <= len <= 0x20000 -> read (seqZ p len) m = Some ds -> Forall byte_ok ds ->
  inet_chksum order p len m = Some (lwip_htons order (checksum ds)).
Proof.
  intros Hl Hr Hb. destruct (lwip_standard_chksum_run p len m ds Hl Hr Hb) as (c&E&Hc). unfold inet_chksum. rewrite E. cbn [mbind option_bind].
  pose proof (net_sum_nonneg ds Hb) as Hn. rewrite (word_of_sum c _ Hn Hc). f_equal. apply htons_lnot, (ones_stands _ Hn).
Qed.

Lemma host16_bytes c : 0 <= c < 2 ^ 16 -> host16 order (c / 256) (c mod 256) = lwip_htons order c.
Proof.
  intros Hc. unfold host16, lwip_htons. destruct order; [rewrite PP_HTONS_spec by done|rewrite u16_small by done]; dlia.
Qed.

(** The sum is zero in one's complement: 0xFFFF after folding. *)
Lemma ones_full n : 0 <= n -> ones n = 65535 <-> n <> 0 /\ n mod 65535 = 0.
Proof. intros Hn. unfold ones. destruct (Z.eqb_spec n 0) as [->|Hz]; dlia. Qed.

Lemma htons_zero x : 0 <= x < 2 ^ 16 -> lwip_htons order x = 0 <-> x = 0.
Proof. intros Hx. pose proof (htons_stands x Hx) as [_ Hz _]. done. Qed.

Lemma checksum_range ds : Forall byte_ok ds -> 0 <= checksum ds < 2 ^ 16.
Proof. intros Hb. pose proof (st_range _ _ _ _ (ones_stands _ (net_sum_nonneg ds Hb))). unfold checksum. lia. Qed.

Lemma inet_chksum_zero p len m ds : 0 <= len <= 0x20000 -> read (seqZ p len) m = Some ds -> Forall byte_ok ds ->
  inet_chksum order p len m = Some 0 <-> net_sum ds <> 0 /\ net_sum ds mod 65535 = 0.
Proof.
  intros Hl Hr Hb. rewrite (inet_chksum_run p len m ds Hl Hr Hb), <- ones_full by by apply net_sum_nonneg.
  pose proof (htons_zero _ (checksum_range ds Hb)) as Hz. unfold checksum in *. split; [intros [= H]; lia|intros H; f_equal; lia].
Qed.

(** The checksum that is computed over a message with an empty field, stored
    into this field in the byte order of the machine, makes the message verify,
    at any address and in either byte order; and a message verifies exactly when
    the sum of its words in network order is zero in one's complement. *)
Theorem inet_chksum_verifies p len m xs ys : 0 <= len <= 0x20000 -> read (seqZ p len) m = Some (xs ++ [0; 0] ++ ys) ->
  Forall byte_ok xs -> Forall byte_ok ys -> Nat.even (length xs) = true ->
  exists c b0 b1, inet_chksum order p len m = Some c /\ byte_ok b0 /\ byte_ok b1 /\ host16 order b0 b1 = c /\
    (forall m', read (seqZ p len) m' = Some (xs ++ [b0; b1] ++ ys) -> inet_chksum order p len m' = Some 0) /\
    (forall m' ds, read (seqZ p len) m' = Some ds -> Forall byte_ok ds ->
       inet_chksum order p len m' = Some 0 <-> net_sum ds <> 0 /\ net_sum ds mod 65535 = 0).
Proof.
  intros Hl Hr Hx Hy He. assert (Hb : forall b0 b1, byte_ok b0 -> byte_ok b1 -> Forall byte_ok (xs ++ [b0; b1] ++ ys)).
  { intros b0 b1 H0 H1. apply Forall_app. split; [done|]. constructor; [done|]. by constructor. }
  assert (Hb00 : byte_ok 0) by done. set (N := net_sum (xs ++ [0; 0] ++ ys)). set (c := checksum (xs ++ [0; 0] ++ ys)).
  pose proof (checksum_range _ (Hb 0 0 Hb00 Hb00)) as Hc. fold c in Hc.
  exists (lwip_htons order c), (c / 256), (c mod 256).
  assert (H0 : byte_ok (c / 256)) by (unfold byte_ok; dlia). assert (H1 : byte_ok (c mod 256)) by (unfold byte_ok; dlia).
  split_and!; [by apply (inet_chksum_run p len m _ Hl Hr), Hb|done|done|by apply host16_bytes| |].
  - intros m' Hm'. apply (inet_chksum_zero p len m' _ Hl Hm' (Hb _ _ H0 H1)).
    assert (E : net_sum (xs ++ [c / 256; c mod 256] ++ ys) = N + c).
    { unfold N. rewrite !net_sum_app, He. cbn [app net_sum]. pose proof (Z.div_mod c 256). lia. }
    pose proof (net_sum_nonneg _ (Hb 0 0 Hb00 Hb00)) as HN. fold N in HN. pose proof (ones_stands N HN) as [Ho Hoz Eo].
    rewrite E. unfold c, checksum. fold N. apply eq1_iff in Eo as [i Eo]. split; [lia|].
    replace (N + (65535 - ones N)) with ((1 - i) * 65535) by lia. apply Z_mod_mult.
  - intros m' ds. by apply inet_chksum_zero.
Qed.

(** C28 — Over a packet of any segmentation, and with its buffers at any addresses,
    the checksum with a pseudo header is the one's complement sum of RFC 1071
    over the pseudo header and the contents, stored in network order; the partial
    checksum is that of the beginning of the contents, and [inet_chksum_pbuf]
    that of the contents alone. *)
Theorem inet_chksum_pseudo_spec s p bs ds src dest proto proto_len : chain (pbufs s) p bs -> lens_ok bs -> bytes_ok (bytes s) ->
  read (addrs bs) (bytes s) = Some ds -> length src = 4%nat -> length dest = 4%nat -> Forall byte_ok src -> Forall byte_ok dest ->
  byte_ok proto -> 0 <= proto_len < 2 ^ 16 ->
  inet_chksum_pseudo order p proto proto_len (word src) (word dest) s =
    Some (lwip_htons order (checksum (pseudo_header src dest proto proto_len ++ ds)), s) /\
  (forall chksum_len, 0 <= chksum_len < 2 ^ 16 ->
     inet_chksum_pseudo_partial order p proto proto_len chksum_len (word src) (word dest) s =
       Some (lwip_htons order (checksum (pseudo_header src dest proto proto_len ++ take (Z.to_nat chksum_len) ds)), s)) /\
  inet_chksum_pbuf order p s = Some (lwip_htons order (checksum ds), s).
Proof.
  intros Hc Hl Hm Hr Hls Hld Hbs Hbd Hp Hpl. pose proof (chain_size _ _ _ Hc). pose proof (read_bytes_ok _ _ _ Hm Hr) as Hb.
  pose proof (addr_sum_stands src dest Hls Hld Hbs Hbd) as Ha. pose proof (net_sum_nonneg (src ++ dest) ltac:(by apply Forall_app)) as Hn.
  split_and!.
  - destruct (pseudo_loop_run (S (size (pbufs s))) s p bs [] ds (addr_sum (word src) (word dest)) (net_sum (src ++ dest)))
      as (r&E&Hst); try done; [lia|by rewrite Z.add_0_r|].
    unfold inet_chksum_pseudo, inet_cksum_pseudo_base. rewrite chain_fuel_bind. cbn [length Nat.even negb] in E. rewrite (bind_run _ _ _ _ _ E).
    transitivity (Some (pseudo_end order proto proto_len r, s)); [done|]. do 2 f_equal. by apply pseudo_end_run.
  - intros k Hk. destruct (partial_loop_run (S (size (pbufs s))) s p bs [] ds (addr_sum (word src) (word dest)) (net_sum (src ++ dest)) k)
      as (r&E&Hst); try done; [lia|by rewrite Z.add_0_r|].
    unfold inet_chksum_pseudo_partial, inet_cksum_pseudo_partial_base. rewrite chain_fuel_bind. cbn [length Nat.even negb] in E. rewrite (bind_run _ _ _ _ _ E).
    transitivity (Some (pseudo_end order proto proto_len r, s)); [done|]. do 2 f_equal. apply pseudo_end_run; try done. by apply Forall_take.
  - destruct (pseudo_loop_run (S (size (pbufs s))) s p bs [] ds 0 0) as (r&E&Hst); try done; [lia|cbn; split; [lia|done|apply eq1_iff; exists 0; lia]|].
    unfold inet_chksum_pbuf. rewrite chain_fuel_bind. cbn [length Nat.even negb] in E. rewrite (bind_run _ _ _ _ _ E).
    destruct r as [sw acc]. transitivity (Some (u16 (Z.lnot (Z.land (settle (sw, acc)) 0xffff)), s)); [done|]. do 2 f_equal.
    cbn [app] in Hst. rewrite Z.add_0_l in Hst. pose proof (st_range _ _ _ _ Hst). rewrite land_lnot by done.
    pose proof (net_sum_nonneg ds Hb) as Hnd. rewrite (word_of_sum _ _ Hnd Hst). apply htons_lnot, (ones_stands _ Hnd).
Qed.
End order.

(** ** Witnesses *)
Import String.
#[local] Open Scope string_scope.
#[local] Open Scope list_scope.
#[local] Open Scope Z_scope.

Lemma inet_chksum_verifies_witness : exists c, inet_chksum LITTLE_ENDIAN 1001 6 (list_to_map (zip (seqZ 1001 6) [0x45; 0x10; 0; 0; 0x12; 0xFF])) = Some c /\ c = 0xF0A7.
Proof.
  destruct (inet_chksum_verifies LITTLE_ENDIAN 1001 6 (list_to_map (zip (seqZ 1001 6) [0x45; 0x10; 0; 0; 0x12; 0xFF])) [0x45; 0x10] [0x12; 0xFF])
    as (c&b0&b1&E&_); [lia|vm_compute; reflexivity|by repeat constructor|by repeat constructor|reflexivity|].
  exists c. split; [exact E|]. vm_compute in E. by injection E as <-.
Defined.

Lemma inet_chksum_pseudo_spec_witness :
  inet_chksum_pbuf LITTLE_ENDIAN 20 packets_ex = Some (lwip_htons LITTLE_ENDIAN (checksum (bytes_of "hello!!")), packets_ex) /\
  checksum (bytes_of "hello!!") = 0x9B0C.
Proof.
  destruct hello_chain as (Hc&Hl&_&_).
  destruct (inet_chksum_pseudo_spec LITTLE_ENDIAN packets_ex 20 hello_ex (bytes_of "hello!!") [192; 168; 1; 2] [10; 0; 0; 1] 17 7 Hc Hl mem_ex_ok)
    as (_&_&E); [vm_compute; reflexivity|reflexivity|reflexivity|by repeat constructor|by repeat constructor|done|lia|].
  split; [exact E|]. vm_compute. reflexivity.
Defined.
