(* ===== verification/Ethernet.v ===== *)
(** * The Ethernet driver (driver/drv_gmac.c, projects/ethernetif.c)

    Two rings of descriptors are shared with the DMA of the controller: the bit
    [owner] says whose turn it is.  The driver keeps a pointer into each ring and
    collects the buffers of a frame that is being received.  The buffers of the
    descriptors lie in the memory of the packets.  A descriptor is the decoded
    structure (the byte order of its words in memory is that of the device on
    both boards, [swap_data]); the two views of its second word stand side by
    side.  Caches are coherent in the model; writes to registers that the driver
    makes while running are logged ([demands]), and what it reads from the status
    register is a value of the state. *)
From S2P Require Import Prelude Mem Memp Pbuf.
Open Scope Z_scope.

Record GmacDes := mkDes {
  d_owner : bool; d_status : Z;
  d_buffer1_size : Z; d_buffer2_size : Z; d_FS : bool; d_LS : bool; d_CIC : Z; d_chained : bool; d_DIC : bool;
  d_buffer1_addr : Z; d_next : Z }.

Definition SIZEOF_DES : Z := 16.
Definition GMAC_DESCRIPTOR_NUM : Z := 32.
Definition GMAC_BUFFER_SIZE : Z := 1600.

Definition GMAC_GET_RX_LENGTH (x : Z) : Z := Z.land (Z.shiftr x 16) 0x3fff.

(** Register writes: the poll demands of the two directions, and the
    acknowledgement of a bit of the status register. *)
Inductive demand := TxPoll (v : Z) | RxPoll (v : Z) | Acknowledge (bit : Z).

Record gmac := mkGmac {
  descs : gmap Z GmacDes; last_tx : Z; last_rx : Z; rx_desc_start : Z;
  rx_buffer_list : list Z; rx_buffer_len : list Z; rx_buffer_total_len : Z; rx_buffer_count : Z;
  reg5 : Z; demands : list demand }.

Definition set_descs (m : gmap Z GmacDes) (g : gmac) : gmac :=
  mkGmac m (last_tx g) (last_rx g) (rx_desc_start g) (rx_buffer_list g) (rx_buffer_len g) (rx_buffer_total_len g) (rx_buffer_count g) (reg5 g) (demands g).
Definition set_last_tx (v : Z) (g : gmac) : gmac :=
  mkGmac (descs g) v (last_rx g) (rx_desc_start g) (rx_buffer_list g) (rx_buffer_len g) (rx_buffer_total_len g) (rx_buffer_count g) (reg5 g) (demands g).
Definition set_last_rx (v : Z) (g : gmac) : gmac :=
  mkGmac (descs g) (last_tx g) v (rx_desc_start g) (rx_buffer_list g) (rx_buffer_len g) (rx_buffer_total_len g) (rx_buffer_count g) (reg5 g) (demands g).
Definition set_collect (start : Z) (bl ln : list Z) (total count : Z) (g : gmac) : gmac :=
  mkGmac (descs g) (last_tx g) (last_rx g) start bl ln total count (reg5 g) (demands g).
Definition log_demand (d : demand) (g : gmac) : gmac :=
  mkGmac (descs g) (last_tx g) (last_rx g) (rx_desc_start g) (rx_buffer_list g) (rx_buffer_len g) (rx_buffer_total_len g) (rx_buffer_count g) (reg5 g)
    (demands g ++ [d]).

Abbreviation G := (prog gmac).

Definition load_desc (p : Z) : G GmacDes := try_ask (fun g => descs g !! p).
Definition push_desc (p : Z) (d : GmacDes) : G unit := try_update (fun g => _ ← descs g !! p; Some (set_descs (<[p := d]> (descs g)) g)).
(** The descriptors are set up before the controller runs. *)
Definition init_desc (p : Z) (d : GmacDes) : G unit := update (fun g => set_descs (<[p := d]> (descs g)) g).

Definition bit (n v : Z) : bool := Z.testbit v n.

(** ** Setting up *)

Definition zero_desc : GmacDes := mkDes false 0 0 0 false false 0 false false 0 0.

Definition tx_desc (addr next : Z) : GmacDes := mkDes false 0 0 0 false false 0 true false addr next.
Definition rx_desc (dic : bool) (len addr next : Z) : GmacDes := mkDes true 0x00400300 len len false false 0 true dic addr next.

Fixpoint ring_loop (make : Z -> Z -> GmacDes) (n : nat) (i : Z) (current pbuf len : Z) : G unit :=
  match n with
  | O => mret tt
  | S n' =>
      _ ← init_desc current (make (u32 (pbuf + i * len)) (u32 (current + SIZEOF_DES)));
      ring_loop make n' (i + 1) (current + SIZEOF_DES) pbuf len
  end.

Definition with_next_desc (v : Z) (d : GmacDes) : GmacDes :=
  mkDes (d_owner d) (d_status d) (d_buffer1_size d) (d_buffer2_size d) (d_FS d) (d_LS d) (d_CIC d) (d_chained d) (d_DIC d) (d_buffer1_addr d) v.

(** The last descriptor points back to the first. *)
Definition close_ring (base num : Z) : G unit :=
  when (0 <? num) (d ← load_desc (base + (num - 1) * SIZEOF_DES); push_desc (base + (num - 1) * SIZEOF_DES) (with_next_desc base d)).

Definition HW_GMAC_InitTxDescriptor (descriptor num pbuf len : Z) : G unit :=
  _ ← ring_loop tx_desc (Z.to_nat num) 0 descriptor pbuf len; close_ring descriptor num.

(** [dic] disables the receive interrupt, without LWIP_FREERTOS_WITH_INTERRUPT. *)
Definition HW_GMAC_InitRxDescriptor (dic : bool) (descriptor num pbuf len : Z) : G unit :=
  _ ← ring_loop (rx_desc dic len) (Z.to_nat num) 0 descriptor pbuf len; close_ring descriptor num.

(** ** Sending *)

(** The result, and the buffer when there is one. *)
Definition HW_GMAC_GetSendPacket : G (Z * Z) :=
  p ← ask last_tx;
  d ← load_desc p;
  if d_owner d then mret (-1, 0) else mret (0, d_buffer1_addr d).

Definition sent_desc (len : Z) (d : GmacDes) : GmacDes :=
  mkDes true (d_status d) (len mod 2 ^ 11) (d_buffer2_size d) true true 3 (d_chained d) (d_DIC d) (d_buffer1_addr d) (d_next d).

Definition HW_GMAC_StartSendPacket (len : Z) : G Z :=
  p ← ask last_tx;
  d ← load_desc p;
  _ ← push_desc p (sent_desc len d);
  _ ← update (set_last_tx (d_next d));
  r ← ask reg5;
  _ ← when (bit 2 r) (_ ← update (log_demand (Acknowledge 2)); update (log_demand (TxPoll 0)));
  mret 0.

(** ** Receiving *)

(** A write beyond the array of the configuration is an error. *)
Definition store_element (i v : Z) (l : list Z) : option (list Z) :=
  if (0 <=? i) && (i <? Z.of_nat (length l)) then Some (<[Z.to_nat i := v]> l) else None.

Definition HW_GMAC_GetRecvPacket : G Z :=
  p ← ask last_rx;
  d ← load_desc p;
  if d_owner d then mret 0
  else
    let st := d_status d in
    _ ← when (bit 9 st) (update (fun g => set_collect p (rx_buffer_list g) (rx_buffer_len g) 0 0 g));
    _ ← try_update (fun g =>
          bl ← store_element (rx_buffer_count g) (d_buffer1_addr d) (rx_buffer_list g);
          ln ← store_element (rx_buffer_count g) (GMAC_GET_RX_LENGTH st) (rx_buffer_len g);
          Some (set_collect (rx_desc_start g) bl ln (u32 (rx_buffer_total_len g + GMAC_GET_RX_LENGTH st)) (u32 (rx_buffer_count g + 1)) g));
    len ← ask (fun g => if bit 8 st then rx_buffer_total_len g else 0);
    _ ← update (set_last_rx (d_next d));
    mret len.

Definition returned_desc (d : GmacDes) : GmacDes :=
  mkDes true 0x00400300 (d_buffer1_size d) (d_buffer2_size d) (d_FS d) (d_LS d) (d_CIC d) (d_chained d) (d_DIC d) (d_buffer1_addr d) (d_next d).

Fixpoint stop_loop (n : nat) (p : Z) : G unit :=
  match n with
  | O => mret tt
  | S n' => d ← load_desc p; _ ← push_desc p (returned_desc d); stop_loop n' (d_next d)
  end.

Definition HW_GMAC_StopRecvPacket : G Z :=
  start ← ask rx_desc_start; count ← ask rx_buffer_count; _ ← stop_loop (Z.to_nat count) start; mret 0.

(** ** The network interface *)

Section netif.
Context {A : Type} `{!PbufMemory A}.

(** [ousem] is the semaphore of [low_level_output], once it exists: a binary one
    (sys_arch.c), given or taken. *)
Record eth := mkEth { packets : pstate A; hw : gmac; ousem : option bool }.

Abbreviation E := (prog eth).

Definition on_packets {B} (q : prog (pstate A) B) : E B := fun e => '(x, s) ← q (packets e); Some (x, mkEth s (hw e) (ousem e)).
Definition on_hw {B} (q : G B) : E B := fun e => '(x, g) ← q (hw e); Some (x, mkEth (packets e) g (ousem e)).

(** A wait on a semaphore that is taken blocks: no result. *)
Definition sem_wait : E unit :=
  try_update (fun e => given ← ousem e; if (given : bool) then Some (mkEth (packets e) (hw e) (Some false)) else None).
(** The signal of a semaphore that is given already leaves it so. *)
Definition sem_signal : E unit := try_update (fun e => _ ← ousem e; Some (mkEth (packets e) (hw e) (Some true))).
Definition sem_create : E unit := update (fun e => mkEth (packets e) (hw e) (Some false)).

(** The loop over the buffers of the packet; the length of the frame so far. *)
Fixpoint send_loop (fuel : nat) (q packet offset : Z) : prog (pstate A) Z :=
  match fuel with
  | O => fun _ => None
  | S fuel' =>
      if q =? 0 then mret offset
      else
        b ← pb q;
        _ ← copy (packet + offset) (p_payload b) (p_len b);
        send_loop fuel' (p_next b) packet (u32 (offset + p_len b))
  end.

(** The end of [low_level_output], also after an error. *)
Definition output_end (errval : err_t) : E err_t :=
  r ← on_hw (ask reg5);
  _ ← when (bit 5 r) (_ ← on_hw (update (log_demand (Acknowledge 5))); on_hw (update (log_demand (TxPoll 0))));
  _ ← sem_signal;
  mret errval.

Definition low_level_output (p : Z) : E err_t :=
  sem ← ask ousem;
  _ ← match sem with None => _ ← sem_create; sem_signal | Some _ => mret tt end;
  r ← on_hw (ask reg5);
  _ ← when (Z.land (Z.shiftr r 20) 0x7 =? 0x6) (on_hw (update (log_demand (TxPoll 1))));
  '(len, packet) ← on_hw HW_GMAC_GetSendPacket;
  if len <? 0 then output_end ERR_USE
  else
    _ ← sem_wait;
    n ← on_packets chain_fuel;
    framelength ← on_packets (send_loop n p packet 0);
    _ ← on_hw (HW_GMAC_StartSendPacket framelength);
    output_end ERR_OK.

Definition elem (i : Z) (l : list Z) : E Z := fun e => if 0 <=? i then v ← l !! Z.to_nat i; Some (v, e) else None.

(** The loop of [low_level_input] that copies from the buffers of the
    descriptors into those of the packet. *)
Fixpoint input_loop (fuel : nat) (q payload_offset buffer_offset buffer_index total_index : Z) : E unit :=
  match fuel with
  | O => fun _ => None
  | S fuel' =>
      g ← ask hw;
      if total_index <? rx_buffer_total_len g then
        len ← elem buffer_index (rx_buffer_len g);
        b ← on_packets (pb q);
        let src_remaining := u32 (len - buffer_offset) in
        let dst_remaining := u32 (p_len b - payload_offset) in
        let copy_size := if src_remaining <? dst_remaining then src_remaining else dst_remaining in
        addr ← elem buffer_index (rx_buffer_list g);
        _ ← on_packets (copy (p_payload b + payload_offset) (addr + buffer_offset) copy_size);
        let payload_offset := u32 (payload_offset + copy_size) in
        let buffer_offset := u32 (buffer_offset + copy_size) in
        let total_index := u32 (total_index + copy_size) in
        let '(buffer_index, buffer_offset) := if buffer_offset =? len then (u32 (buffer_index + 1), 0) else (buffer_index, buffer_offset) in
        let '(q, payload_offset) := if payload_offset =? p_len b then (p_next b, 0) else (q, payload_offset) in
        input_loop fuel' q payload_offset buffer_offset buffer_index total_index
      else mret tt
  end.

(** Every turn copies a byte or leaves a buffer behind. *)
Definition input_fuel : E nat :=
  ask (fun e => S (Z.to_nat (rx_buffer_total_len (hw e)) + Z.to_nat (rx_buffer_count (hw e)) + size (pbufs (packets e)))).

Definition low_level_input : E Z :=
  len ← on_hw HW_GMAC_GetRecvPacket;
  if len =? 0 then mret 0
  else
    p ← on_packets (pbuf_alloc PBUF_RAW (u16 len) PBUF_POOL);
    _ ← when (negb (p =? 0)) (n ← input_fuel; input_loop n p 0 0 0 0);
    _ ← on_hw HW_GMAC_StopRecvPacket;
    r ← on_hw (ask reg5);
    _ ← when (bit 7 r) (_ ← on_hw (update (log_demand (Acknowledge 7))); on_hw (update (log_demand (RxPoll 0))));
    mret p.

(** One turn of the receiving task after its semaphore: frames are passed on
    until there is none, or until the stack refuses one.  [input] is the input
    function of the interface, [tcpip_input]. *)
Fixpoint input_turn (fuel : nat) (input : Z -> E err_t) : E unit :=
  match fuel with
  | O => fun _ => None
  | S fuel' =>
      p ← low_level_input;
      if negb (p =? 0) then
        err ← input p;
        match err with
        | ERR_OK => input_turn fuel' input
        | _ => _ ← on_packets (pbuf_free p); mret tt
        end
      else mret tt
  end.
End netif.
Arguments eth : clear implicits.
Arguments mkEth {A}.
