(* ===== verification/EthernetProofs.v ===== *)
(** * The rings of the Ethernet driver are queues of frames *)
From S2P Require Import Prelude Mem Memp Pbuf PbufProofs PbufRefs Ethernet.
Open Scope Z_scope.

(** ** Copying a frame into a packet *)

(** What is still to be read of some segments of memory, from [off] on in the
    first one; and to be written of a packet. *)
Definition src_rest (segs : list (Z * Z)) (off : Z) : list Z :=
  match segs with [] => [] | (a, l) :: segs' => seqZ (a + off) (l - off) ++ mjoin ((fun '(a, l) => seqZ a l) <$> segs') end.
Definition seg_addrs (segs : list (Z * Z)) : list Z := mjoin ((fun '(a, l) => seqZ a l) <$> segs).
Definition dst_rest (bs : list (Z * pbuf)) (off : Z) : list Z :=
  match bs with [] => [] | (_, b) :: bs' => seqZ (p_payload b + off) (p_len b - off) ++ addrs bs' end.

Lemma src_rest_0 segs : src_rest segs 0 = seg_addrs segs.
Proof. destruct segs as [|[a l] segs]; [done|]. cbn. by rewrite Z.add_0_r, Z.sub_0_r. Qed.

Lemma dst_rest_0 bs : dst_rest bs 0 = addrs bs.
Proof. destruct bs as [|[a b] bs]; [done|]. cbn. by rewrite Z.add_0_r, Z.sub_0_r. Qed.

Lemma src_rest_end a l segs : src_rest ((a, l) :: segs) l = src_rest segs 0.
Proof. rewrite src_rest_0. cbn. by rewrite Z.sub_diag. Qed.

Lemma dst_rest_end a b bs : dst_rest ((a, b) :: bs) (p_len b) = dst_rest bs 0.
Proof. rewrite dst_rest_0. cbn. by rewrite Z.sub_diag. Qed.

(** A piece is read off the first segment. *)
Lemma src_rest_piece a l segs off c : 0 <= c -> off + c <= l -> src_rest ((a, l) :: segs) off = seqZ (a + off) c ++ src_rest ((a, l) :: segs) (off + c).
Proof.
  intros Hc Hl. cbn. rewrite app_assoc. f_equal. replace (l - off) with (c + (l - (off + c))) by lia. rewrite seqZ_app by lia. by rewrite Z.add_assoc.
Qed.

Lemma dst_rest_piece a b bs off c : 0 <= c -> off + c <= p_len b -> dst_rest ((a, b) :: bs) off = seqZ (p_payload b + off) c ++ dst_rest ((a, b) :: bs) (off + c).
Proof.
  intros Hc Hl. cbn. rewrite app_assoc. f_equal. replace (p_len b - off) with (c + (p_len b - (off + c))) by lia. rewrite seqZ_app by lia. by rewrite Z.add_assoc.
Qed.

Section copying.
Context {A : Type} `{!PbufMemory A}.
Implicit Types (e : eth A).

Definition with_packets (s : pstate A) e : eth A := mkEth s (hw e) (ousem e).

Lemma on_packets_run {B} (q : prog (pstate A) B) e x s : q (packets e) = Some (x, s) -> on_packets q e = Some (x, with_packets s e).
Proof. intros E. unfold on_packets. by rewrite E. Qed.

Lemma on_packets_same {B} (q : prog (pstate A) B) e x : q (packets e) = Some (x, packets e) -> on_packets q e = Some (x, e).
Proof. intros E. rewrite (on_packets_run _ _ _ _ E). by destruct e. Qed.

Lemma on_hw_run {B} (q : G B) e x g : q (hw e) = Some (x, g) -> on_hw q e = Some (x, mkEth (packets e) g (ousem e)).
Proof. intros E. unfold on_hw. by rewrite E. Qed.

Lemma elem_run i (l : list Z) v e : 0 <= i -> l !! Z.to_nat i = Some v -> elem i l e = Some (v, e).
Proof. intros Hi E. unfold elem. rewrite (proj2 (Z.leb_le 0 i)) by done. by rewrite E. Qed.

(** The segments that the driver has collected, from index [i] on. *)
Definition collected (g : gmac) (i : Z) (segs : list (Z * Z)) : Prop :=
  forall k a l, segs !! k = Some (a, l) ->
    rx_buffer_list g !! Z.to_nat (i + Z.of_nat k) = Some a /\ rx_buffer_len g !! Z.to_nat (i + Z.of_nat k) = Some l /\ 0 <= l < 2 ^ 32.

Lemma collected_next g i sg segs : 0 <= i -> collected g i (sg :: segs) -> collected g (i + 1) segs.
Proof.
  intros Hi H k a l Hk. specialize (H (S k) a l Hk). by replace (i + Z.of_nat (S k)) with (i + 1 + Z.of_nat k) in H by lia.
Qed.

Lemma input_loop_run fuel e q bs po segs bo bi ti vs old : chain (pbufs (packets e)) q bs -> lens_ok bs -> collected (hw e) bi segs ->
  0 <= bi -> bi + Z.of_nat (length segs) < 2 ^ 32 -> 0 <= bo -> 0 <= po ->
  (forall a l segs', segs = (a, l) :: segs' -> bo <= l) -> (forall a b bs', bs = (a, b) :: bs' -> po <= p_len b) ->
  0 <= ti -> ti + Z.of_nat (length (src_rest segs bo)) = rx_buffer_total_len (hw e) -> rx_buffer_total_len (hw e) < 2 ^ 32 ->
  length (dst_rest bs po) = length (src_rest segs bo) -> bytes_ok (bytes (packets e)) ->
  read (src_rest segs bo) (bytes (packets e)) = Some vs -> read (dst_rest bs po) (bytes (packets e)) = Some old ->
  NoDup (dst_rest bs po) -> (forall a, a ∈ src_rest segs bo -> a ∉ dst_rest bs po) ->
  (length (src_rest segs bo) + length segs + length bs < fuel)%nat ->
  input_loop fuel q po bo bi ti e = Some (tt, with_packets (with_bytes (packets e) (blit (dst_rest bs po) vs (bytes (packets e)))) e).
Proof.
  revert e q bs po segs bo bi ti vs old. induction fuel as [|fuel IH];
    intros e q bs po segs bo bi ti vs old Hc Hl Hco Hbi Hbi2 Hbo Hpo Hbol Hpol Hti Htot H32 Hlen Hok Hrs Hrd Hnd Hdis Hf; [lia|].
  cbn [input_loop]. rewrite ask_bind. destruct (Z.ltb_spec ti (rx_buffer_total_len (hw e))) as [Hmore|Hdone].
  2:{ assert (length (src_rest segs bo) = 0%nat) by lia. destruct (dst_rest bs po); [|cbn in Hlen; lia].
      rewrite blit_nil. unfold with_bytes, with_packets. by destruct e as [[] ? ?]. }
  destruct segs as [|[a l] segs]; [cbn in Htot; lia|]. destruct bs as [|[pa b] bs]; [cbn in Hlen, Htot; rewrite <- Hlen in Htot; cbn in Htot; lia|].
  pose proof (Hbol _ _ _ eq_refl) as Hbl. pose proof (Hpol _ _ _ eq_refl) as Hpl. pose proof (Hco 0%nat a l eq_refl) as (Ea&El&Hl32).
  rewrite Z.add_0_r in Ea, El. pose proof Hc as Hc0. cbn in Hc. destruct Hc as (->&Hpa&Epb&Hc). pose proof Hl as Hl0. cbn in Hl. destruct Hl as (Hb0&Hbt&Hb16&Hl).
  pose proof (total_nneg _ Hl). rewrite (bind_run _ _ _ _ _ (elem_run bi _ l e Hbi El)).
  rewrite (bind_run _ _ _ _ _ (on_packets_same _ _ _ (pb_run _ _ _ Epb))). rewrite (u32_small (l - bo)), (u32_small (p_len b - po)) by lia.
  rewrite (bind_run _ _ _ _ _ (elem_run bi _ a e Hbi Ea)).
  set (c := if l - bo <? p_len b - po then l - bo else p_len b - po).
  assert (Hcc : 0 <= c /\ bo + c <= l /\ po + c <= p_len b /\ (bo + c = l \/ po + c = p_len b)) by (unfold c; destruct (Z.ltb_spec (l - bo) (p_len b - po)); lia).
  destruct Hcc as (Hcp&Hcl&Hcb&Hend). clearbody c.
  rewrite (src_rest_piece a l segs bo c) in * by lia. rewrite (dst_rest_piece pa b bs po c) in * by lia.
  apply read_app_Some in Hrs as (v1&v2&->&Hr1&Hr2). apply read_app_Some in Hrd as (o1&o2&->&Ho1&Ho2).
  pose proof (copy_run (p_payload b + po) (a + bo) c (packets e) v1 o1 Hcp Hok Hr1 Ho1) as Ecp.
  rewrite (bind_run _ _ _ _ _ (on_packets_run _ _ _ _ Ecp)).
  pose proof (read_length _ _ _ Hr1) as Hv1. rewrite length_seqZ in Hv1. rewrite !length_app, !length_seqZ in *.
  rewrite (u32_small (po + c)), (u32_small (bo + c)), (u32_small (ti + c)) by lia.
  assert (Hbi1 : u32 (bi + 1) = bi + 1) by (apply u32_small; cbn in Hbi2; lia).
  pose proof Hnd as Hnd0. apply NoDup_app in Hnd as (Hn1&Hn12&Hn2).
  rewrite (blit_app (seqZ (p_payload b + po) c)) by (rewrite ?length_seqZ; try done; pose proof (read_length _ _ _ Hr2); lia).
  set (m1 := blit (seqZ (p_payload b + po) c) v1 (bytes (packets e))).
  set (e1 := with_packets (with_bytes (packets e) m1) e).
  assert (Hok1 : bytes_ok m1) by (apply blit_bytes_ok; [done|by eapply read_bytes_ok]).
  assert (Hsrc : read (src_rest ((a, l) :: segs) (bo + c)) m1 = Some v2).
  { unfold m1. rewrite read_blit_other; [done|]. intros x Hx Hin. apply (Hdis x); [|apply elem_of_app; by left]. apply elem_of_app. by right. }
  assert (Hdst : read (dst_rest ((pa, b) :: bs) (po + c)) m1 = Some o2).
  { unfold m1. rewrite read_blit_other; [done|]. intros x Hx Hin. by apply (Hn12 x). }
  assert (Hdis1 : forall x, x ∈ src_rest ((a, l) :: segs) (bo + c) -> x ∉ dst_rest ((pa, b) :: bs) (po + c)).
  { intros x Hx Hin. apply (Hdis x); apply elem_of_app; by right. }
  (* the next position of the source and of the target *)
  assert (Hnext : exists segs1 bo1 bi1, (if bo + c =? l then (u32 (bi + 1), 0) else (bi, bo + c)) = (bi1, bo1) /\ src_rest segs1 bo1 = src_rest ((a, l) :: segs) (bo + c) /\
      collected (hw e) bi1 segs1 /\ 0 <= bi1 /\ bi1 + Z.of_nat (length segs1) < 2 ^ 32 /\ 0 <= bo1 /\ (forall a' l' segs', segs1 = (a', l') :: segs' -> bo1 <= l') /\
      (length segs1 <= length ((a, l) :: segs))%nat /\ (bo + c = l -> (length segs1 < length ((a, l) :: segs))%nat)).
  { destruct (Z.eqb_spec (bo + c) l) as [Ebo|Ebo].
    - exists segs, 0, (bi + 1). rewrite Hbi1. split; [done|]. split; [by rewrite Ebo, src_rest_end|]. split; [by eapply collected_next|].
      cbn [length] in *. split_and!; try lia. intros a' l' segs' ->. pose proof (Hco 1%nat a' l' eq_refl). lia.
    - exists ((a, l) :: segs), (bo + c), bi. split_and!; try done; try lia. intros a' l' segs' [= <- <- <-]. lia. }
  destruct Hnext as (segs1&bo1&bi1&Enx&Esrc&Hco1&Hbi1'&Hbi2'&Hbo1&Hbol1&Hle1&Hlt1).
  assert (Hnextp : exists bs1 q1 po1, (if po + c =? p_len b then (p_next b, 0) else (pa, po + c)) = (q1, po1) /\ dst_rest bs1 po1 = dst_rest ((pa, b) :: bs) (po + c) /\
      chain (pbufs (packets e)) q1 bs1 /\ lens_ok bs1 /\ 0 <= po1 /\ (forall a' b' bs', bs1 = (a', b') :: bs' -> po1 <= p_len b') /\
      (length bs1 <= length ((pa, b) :: bs))%nat /\ (po + c = p_len b -> (length bs1 < length ((pa, b) :: bs))%nat)).
  { destruct (Z.eqb_spec (po + c) (p_len b)) as [Epo|Epo].
    - exists bs, (p_next b), 0. split; [done|]. split; [by rewrite Epo, dst_rest_end|]. cbn [length]. split_and!; try done; try lia.
      intros a' b' bs' ->. cbn in Hl. lia.
    - exists ((pa, b) :: bs), pa, (po + c). split_and!; try done; try lia. intros a' b' bs' [= <- <- <-]. lia. }
  destruct Hnextp as (bs1&q1&po1&Enp&Edst&Hc1&Hl1&Hpo1&Hpol1&Hleb&Hltb).
  rewrite Enx. cbv beta iota zeta. rewrite Enp. rewrite <- Esrc, <- Edst in *.
  rewrite (IH e1 q1 bs1 po1 segs1 bo1 bi1 (ti + c) v2 o2); try done; try (change (hw e1) with (hw e); lia).
Qed.

(** The buffers of a packet are copied one behind the other. *)
Lemma send_loop_run fuel (s : pstate A) q bs packet off ds old : chain (pbufs s) q bs -> (length bs < fuel)%nat -> lens_ok bs ->
  0 <= off -> off + total bs < 2 ^ 32 -> bytes_ok (bytes s) -> read (addrs bs) (bytes s) = Some ds ->
  read (seqZ (packet + off) (total bs)) (bytes s) = Some old -> (forall a, a ∈ addrs bs -> a ∉ seqZ (packet + off) (total bs)) ->
  send_loop fuel q packet off s = Some (off + total bs, with_bytes s (blit (seqZ (packet + off) (total bs)) ds (bytes s))).
Proof.
  revert s q bs off ds old. induction fuel as [|fuel IH]; intros s q bs off ds old Hc Hf Hl Ho H32 Hok Hr Hold Hdis; [lia|]. cbn [send_loop].
  destruct bs as [|[a b] bs].
  - cbn in Hc. subst q. cbn [total]. rewrite Z.add_0_r. change (seqZ _ 0) with ([] : list Z). rewrite blit_nil. by destruct s.
  - cbn in Hc, Hl. destruct Hc as (->&Ha&E&Hc). destruct Hl as (Hb&_&_&Hl). pose proof (total_nneg _ Hl) as Ht.
    rewrite (proj2 (Z.eqb_neq a 0)) by done. rewrite (bind_run _ _ _ _ _ (pb_run _ _ _ E)). cbn [total addrs] in *.
    rewrite seqZ_app in Hold, Hdis |- * by lia. apply read_app_Some in Hold as (o1&o2&->&Ho1&Ho2). apply read_app_Some in Hr as (v1&v2&->&Hv1&Hv2).
    rewrite (bind_run _ _ _ _ _ (copy_run (packet + off) (p_payload b) (p_len b) s v1 o1 Hb Hok Hv1 Ho1)).
    rewrite u32_small by lia. pose proof (read_length _ _ _ Hv1) as L1. pose proof (read_length _ _ _ Hv2) as L2.
    assert (Hnd : NoDup (seqZ (packet + off) (p_len b) ++ seqZ (packet + off + p_len b) (total bs))) by (rewrite <- seqZ_app by lia; apply NoDup_seqZ).
    assert (Hpa : length (addrs bs) = Z.to_nat (total bs)) by (pose proof (addrs_length _ Hl); lia).
    rewrite <- Z.add_assoc in *. rewrite (IH _ (p_next b) bs (off + p_len b) v2 o2); cbn [pbufs bytes with_bytes]; rewrite ?Z.add_assoc in *; try done; try lia.
    + unfold spots in L1. rewrite length_seqZ in L1. rewrite blit_app; [done| |by rewrite L2, length_seqZ, Hpa|done]. by rewrite L1, length_seqZ.
    + cbn in Hf. lia.
    + apply blit_bytes_ok; [done|by eapply read_bytes_ok].
    + rewrite read_blit_other; [done|]. intros x Hx Hin. apply (Hdis x); apply elem_of_app; [by right|by left].
    + rewrite read_blit_other; [done|]. intros x Hx Hin. apply NoDup_app in Hnd as (_&Hnd&_). by apply (Hnd x).
    + intros x Hx Hin. apply (Hdis x); apply elem_of_app; by right.
Qed.
End copying.

(** ** A ring of descriptors *)

Section ring.
Context (base num buf len : Z).
Hypothesis Hnum : 0 < num <= GMAC_DESCRIPTOR_NUM.
Hypothesis Hlen : 0 < len.
Hypothesis Hbase : 0 <= base /\ base + num * SIZEOF_DES < 2 ^ 32.
Hypothesis Hbuf : 0 <= buf /\ buf + num * len < 2 ^ 32.

#[local] Set Default Proof Using "All".

(** The places of the ring, counted without end. *)
Definition slot (i : Z) : Z := base + (i mod num) * SIZEOF_DES.
Definition buffer (i : Z) : Z := buf + (i mod num) * len.

Lemma slot_wrap i k : slot (i + k * num) = slot i.
Proof. unfold slot. by rewrite Z.mod_add by lia. Qed.

Lemma slot_wrap1 i : slot (i + num) = slot i.
Proof. rewrite <- (slot_wrap i 1). f_equal. lia. Qed.

Lemma buffer_wrap1 i : buffer (i + num) = buffer i.
Proof. unfold buffer. rewrite <- (Z.mod_add i 1 num) by lia. by rewrite Z.mul_1_l. Qed.

Lemma slot_inj i j : i <= j < i + num -> slot i = slot j -> i = j.
Proof.
  intros Hij. unfold slot, SIZEOF_DES. intros E. assert (Em : i mod num = j mod num) by lia.
  pose proof (Z.div_mod i num ltac:(lia)). pose proof (Z.div_mod j num ltac:(lia)). assert (Hk : j - i = num * (j / num - i / num)) by lia.
  set (k := j / num - i / num) in *. clearbody k. assert (k = 0) by nia. nia.
Qed.

Lemma slot_ne i j : i < j < i + num \/ j < i < j + num -> slot i <> slot j.
Proof. intros [H|H] E; [pose proof (slot_inj i j ltac:(lia) E)|pose proof (slot_inj j i ltac:(lia) (eq_sym E))]; lia. Qed.

Lemma des_next i : 0 <= i < num -> slot (i + 1) = if i =? num - 1 then base else base + (i + 1) * SIZEOF_DES.
Proof.
  intros Hi. unfold slot. destruct (Z.eqb_spec i (num - 1)) as [->|Hne].
  - replace (num - 1 + 1) with num by lia. rewrite Z.mod_same by lia. lia.
  - by rewrite Z.mod_small by lia.
Qed.

Lemma init_desc_loop_run make n i g : 0 <= i -> i + Z.of_nat n <= num -> exists m, ring_loop make n i (base + i * SIZEOF_DES) buf len g = Some (tt, set_descs m g) /\
  (forall j, i <= j < i + Z.of_nat n -> m !! (base + j * SIZEOF_DES) = Some (make (buf + j * len) (base + (j + 1) * SIZEOF_DES))) /\
  (forall x, (forall j, i <= j < i + Z.of_nat n -> x <> base + j * SIZEOF_DES) -> m !! x = descs g !! x).
Proof.
  revert i g. induction n as [|n IH]; intros i g Hi Hn; cbn [ring_loop].
  - exists (descs g). split; [by destruct g|]. split; [intros j Hj; lia|done].
  - unfold init_desc at 1. rewrite update_bind. unfold SIZEOF_DES in *. rewrite !u32_small by nia.
    replace (base + i * 16 + 16) with (base + (i + 1) * 16) by lia.
    destruct (IH (i + 1) (set_descs (<[base + i * 16 := make (buf + i * len) (base + (i + 1) * 16)]> (descs g)) g)) as (m&E&Hm&Hoth); [lia|lia|].
    rewrite E. exists m. split; [done|]. split.
    + intros j Hj. destruct (decide (j = i)) as [->|Hne]; [|apply Hm; lia]. rewrite Hoth; [apply lookup_insert_eq|]. intros k Hk. lia.
    + intros x Hx. rewrite Hoth; [|intros j Hj; apply Hx; lia]. apply lookup_insert_ne. intros <-. apply (Hx i); [lia|done].
Qed.

(** Both rings are set up as rings over all the buffers. *)
Lemma init_ring_run make g : (forall a n1 n2, with_next_desc n2 (make a n1) = make a n2) ->
  exists m, (_ ← ring_loop make (Z.to_nat num) 0 base buf len; close_ring base num) g = Some (tt, set_descs m g) /\
    (forall i, m !! slot i = Some (make (buffer i) (slot (i + 1)))) /\
    (forall x, (forall i, x <> slot i) -> m !! x = descs g !! x).
Proof.
  intros Hmake. destruct (init_desc_loop_run make (Z.to_nat num) 0 g) as (m&E&Hm&Hoth); [lia|lia|]. rewrite Z.mul_0_l, Z.add_0_r in E.
  rewrite (bind_run _ _ _ _ _ E). unfold close_ring. rewrite (proj2 (Z.ltb_lt 0 num)) by lia. cbn [when].
  assert (Hlast : m !! (base + (num - 1) * SIZEOF_DES) = Some (make (buf + (num - 1) * len) (base + (num - 1 + 1) * SIZEOF_DES))) by (apply Hm; lia).
  unfold load_desc. rewrite (try_ask_bind _ _ (set_descs m g) _ Hlast). unfold push_desc, try_update. cbn [descs set_descs]. rewrite Hlast. cbn [mbind option_bind].
  eexists. split; [reflexivity|]. rewrite Hmake.
  assert (Hs : forall i, slot i = base + (i mod num) * SIZEOF_DES) by done.
  split.
  - intros i. pose proof (Z.mod_pos_bound i num ltac:(lia)) as Hi. set (j := i mod num) in *.
    assert (Hj : slot i = base + j * SIZEOF_DES) by done.
    assert (Hn : slot (i + 1) = slot (j + 1)).
    { unfold slot, j. by rewrite Zplus_mod_idemp_l. }
    assert (Hb : buffer i = buf + j * len) by done. rewrite Hj, Hn, Hb, (des_next j Hi). unfold SIZEOF_DES in *.
    destruct (Z.eqb_spec j (num - 1)) as [Ej|Ej].
    + rewrite Ej. apply lookup_insert_eq.
    + rewrite lookup_insert_ne by lia. by apply Hm; lia.
  - intros x Hx. rewrite lookup_insert_ne.
    + apply Hoth. intros j Hj. rewrite <- (Z.mod_small j num) at 1 by lia. apply (Hx j).
    + intros <-. apply (Hx (num - 1)). unfold slot. by rewrite Z.mod_small by lia.
Qed.

Lemma tx_ring_run g : exists m, HW_GMAC_InitTxDescriptor base num buf len g = Some (tt, set_descs m g) /\
  (forall i, m !! slot i = Some (tx_desc (buffer i) (slot (i + 1)))) /\ (forall x, (forall i, x <> slot i) -> m !! x = descs g !! x).
Proof. by apply init_ring_run. Qed.

Lemma rx_ring_run dic g : exists m, HW_GMAC_InitRxDescriptor dic base num buf len g = Some (tt, set_descs m g) /\
  (forall i, m !! slot i = Some (rx_desc dic len (buffer i) (slot (i + 1)))) /\ (forall x, (forall i, x <> slot i) -> m !! x = descs g !! x).
Proof. by apply init_ring_run. Qed.

(** ** Sending *)

(** A frame that waits for the controller, in the descriptor at place [i]. *)
Definition queued (D : gmap Z GmacDes) (m : mem) (i : Z) (f : list Z) : Prop :=
  exists d, D !! slot i = Some d /\ d_owner d = true /\ d_FS d = true /\ d_LS d = true /\ d_buffer1_size d = Z.of_nat (length f) /\
    d_buffer1_addr d = buffer i /\ d_next d = slot (i + 1) /\ read (seqZ (buffer i) (Z.of_nat (length f))) m = Some f /\ Z.of_nat (length f) <= len.
Definition vacant (D : gmap Z GmacDes) (i : Z) : Prop :=
  exists d, D !! slot i = Some d /\ d_owner d = false /\ d_buffer1_addr d = buffer i /\ d_next d = slot (i + 1).

(** The controller is at place [s]; [fs] is what it has still to send. *)
Record tx_ring (g : gmac) (m : mem) (s : Z) (fs : list (list Z)) : Prop := {
  tr_last : last_tx g = slot (s + Z.of_nat (length fs));
  tr_queued : forall k f, fs !! k = Some f -> queued (descs g) m (s + Z.of_nat k) f;
  tr_vacant : forall k, Z.of_nat (length fs) <= k < num -> vacant (descs g) (s + k);
  tr_room : Z.of_nat (length fs) <= num;
  tr_mapped : forall a, buf <= a < buf + num * len -> is_Some (m !! a)
}.

Lemma buffer_range i a : buffer i <= a < buffer i + len -> buf <= a < buf + num * len.
Proof. unfold buffer. pose proof (Z.mod_pos_bound i num ltac:(lia)). nia. Qed.

Lemma buffers_apart i j a : slot i <> slot j -> buffer i <= a < buffer i + len -> ~ buffer j <= a < buffer j + len.
Proof.
  unfold slot, buffer, SIZEOF_DES. intros Hne H1 H2. assert (i mod num <> j mod num) by congruence. nia.
Qed.

Lemma queued_frame D D' m m' i f : D' !! slot i = D !! slot i -> (forall a, buffer i <= a < buffer i + len -> m' !! a = m !! a) ->
  queued D m i f -> queued D' m' i f.
Proof.
  intros E Hm (d&Hd&Ho&HF&HL&Hs&Ha&Hn&Hr&Hl). exists d. rewrite E. split_and!; try done. rewrite <- Hr. apply read_ext.
  intros a Ha'%elem_of_seqZ. apply Hm. lia.
Qed.

(** The ring starts empty, and the controller takes the frames in order. *)
Lemma tx_ring_start g g0 m : HW_GMAC_InitTxDescriptor base num buf len g0 = Some (tt, g) -> (forall a, buf <= a < buf + num * len -> is_Some (m !! a)) ->
  tx_ring (set_last_tx base g) m 0 [].
Proof.
  intros E Hm. destruct (tx_ring_run g0) as (D&E'&HD&_). rewrite E in E'. injection E' as ->. split; cbn; try done; [| |lia].
  - unfold slot. rewrite Z.mod_0_l; lia.
  - intros k Hk. rewrite Z.add_0_l. exists (tx_desc (buffer k) (slot (k + 1))). by split_and!.
Qed.

Definition given_back (d : GmacDes) : GmacDes :=
  mkDes false (d_status d) (d_buffer1_size d) (d_buffer2_size d) (d_FS d) (d_LS d) (d_CIC d) (d_chained d) (d_DIC d) (d_buffer1_addr d) (d_next d).

Lemma tx_ring_taken g m s f fs : tx_ring g m s (f :: fs) -> exists d, descs g !! slot s = Some d /\ d_buffer1_size d = Z.of_nat (length f) /\
  read (seqZ (d_buffer1_addr d) (d_buffer1_size d)) m = Some f /\ tx_ring (set_descs (<[slot s := given_back d]> (descs g)) g) m (s + 1) fs.
Proof.
  intros HT. destruct (tr_queued _ _ _ _ HT 0%nat f eq_refl) as (d&Hd&_&_&_&Hs&Ha&Hn&Hr&_). rewrite Z.add_0_r in *.
  exists d. rewrite Hs, Ha. split_and!; try done. pose proof (tr_room _ _ _ _ HT) as Hroom. cbn [length] in Hroom.
  split; cbn [set_descs last_tx descs].
  - rewrite (tr_last _ _ _ _ HT). f_equal. cbn [length]. lia.
  - intros k x Hk. pose proof (lookup_lt_Some _ _ _ Hk). pose proof (tr_queued _ _ _ _ HT (S k) x Hk) as Hq. replace (s + Z.of_nat (S k)) with (s + 1 + Z.of_nat k) in Hq by lia.
    eapply queued_frame; [|done|exact Hq]. apply lookup_insert_ne, slot_ne. lia.
  - intros k Hk. destruct (Z.eq_dec k (num - 1)) as [->|Hne].
    + exists (given_back d). replace (s + 1 + (num - 1)) with (s + num) by lia. replace (s + num + 1) with (s + 1 + num) by lia.
      rewrite slot_wrap1, buffer_wrap1, slot_wrap1, lookup_insert_eq. by split_and!.
    + destruct (tr_vacant _ _ _ _ HT (k + 1) ltac:(cbn [length]; lia)) as (d'&Hd'&Hd2). exists d'. replace (s + 1 + k) with (s + (k + 1)) by lia.
      rewrite lookup_insert_ne by (apply slot_ne; lia). done.
  - lia.
  - apply (tr_mapped _ _ _ _ HT).
Qed.

Lemma tx_ring_full g m s fs : tx_ring g m s fs -> Z.of_nat (length fs) = num -> HW_GMAC_GetSendPacket g = Some ((-1, 0), g).
Proof.
  intros HT Hfull. destruct (lookup_lt_is_Some_2 fs 0%nat ltac:(lia)) as [f Hf]. destruct (tr_queued _ _ _ _ HT 0%nat f Hf) as (d&Hd&Ho&_).
  unfold HW_GMAC_GetSendPacket. rewrite ask_bind, (tr_last _ _ _ _ HT), Hfull, slot_wrap1. rewrite Z.add_0_r in Hd.
  unfold load_desc. rewrite (try_ask_bind _ _ g _ Hd). by rewrite Ho.
Qed.

Lemma tx_ring_get g m s fs : tx_ring g m s fs -> Z.of_nat (length fs) < num -> HW_GMAC_GetSendPacket g = Some ((0, buffer (s + Z.of_nat (length fs))), g).
Proof.
  intros HT Hlt. destruct (tr_vacant _ _ _ _ HT (Z.of_nat (length fs)) ltac:(lia)) as (d&Hd&Ho&Ha&_).
  unfold HW_GMAC_GetSendPacket. rewrite ask_bind, (tr_last _ _ _ _ HT). unfold load_desc. rewrite (try_ask_bind _ _ g _ Hd), Ho. by rewrite Ha.
Qed.

(** A frame that lies in the next buffer is queued. *)
Lemma tx_ring_put g m m' s fs f : tx_ring g m s fs -> Z.of_nat (length fs) < num -> Z.of_nat (length f) <= len -> len < 2 ^ 11 ->
  let i := s + Z.of_nat (length fs) in
  read (seqZ (buffer i) (Z.of_nat (length f))) m' = Some f -> (forall a, ~ buffer i <= a < buffer i + len -> m' !! a = m !! a) ->
  (forall a, is_Some (m !! a) -> is_Some (m' !! a)) ->
  exists g', HW_GMAC_StartSendPacket (Z.of_nat (length f)) g = Some (0, g') /\ tx_ring g' m' s (fs ++ [f]).
Proof.
  intros HT Hlt Hf H11 i Hr Hm Hdom. destruct (tr_vacant _ _ _ _ HT (Z.of_nat (length fs)) ltac:(lia)) as (d&Hd&Ho&Ha&Hn). fold i in Hd, Ha, Hn.
  unfold HW_GMAC_StartSendPacket. rewrite ask_bind, (tr_last _ _ _ _ HT). fold i. unfold load_desc. rewrite (try_ask_bind _ _ g _ Hd).
  unfold push_desc. rewrite (try_update_bind _ _ g (set_descs (<[slot i := sent_desc (Z.of_nat (length f)) d]> (descs g)) g)) by by rewrite Hd.
  rewrite update_bind, ask_bind. set (g1 := set_last_tx (d_next d) _).
  assert (HT1 : forall g', last_tx g' = last_tx g1 -> descs g' = descs g1 -> tx_ring g' m' s (fs ++ [f])).
  { intros g' El Ed. split.
    - rewrite El, length_app. cbn [g1 set_last_tx last_tx length]. rewrite Hn. f_equal. lia.
    - intros k x Hk. rewrite Ed. cbn [g1 set_last_tx set_descs descs]. apply lookup_app_Some in Hk as [Hk|[Hge Hk]].
      + pose proof (lookup_lt_Some _ _ _ Hk). assert (Hne : slot i <> slot (s + Z.of_nat k)) by (apply slot_ne; lia).
        apply (queued_frame (descs g) _ m); [by apply lookup_insert_ne| |by apply (tr_queued _ _ _ _ HT)].
        intros a Hra. apply Hm. by apply (buffers_apart (s + Z.of_nat k) i).
      + destruct (k - length fs)%nat as [|j] eqn:Ek; [|by destruct j]. injection Hk as <-. replace (s + Z.of_nat k) with i by (unfold i; lia).
        eexists. rewrite lookup_insert_eq. split; [done|]. cbn [sent_desc d_owner d_FS d_LS d_buffer1_size d_buffer1_addr d_next].
        rewrite Z.mod_small by lia. by split_and!.
    - rewrite length_app. cbn [length]. intros k Hk. rewrite Ed. destruct (tr_vacant _ _ _ _ HT k ltac:(lia)) as (d'&Hd'&Hd2). exists d'. split; [|done].
      cbn [g1 set_last_tx set_descs descs]. rewrite lookup_insert_ne; [done|]. apply slot_ne. lia.
    - rewrite length_app. cbn [length]. lia.
    - intros a Hra. by apply Hdom, (tr_mapped _ _ _ _ HT). }
  destruct (bit 2 (reg5 g1)); cbn [when]; eexists; (split; [reflexivity|]); by apply HT1.
Qed.

(** *** From packets *)

Section sending.
Context {A : Type} `{!PbufMemory A}.
Hypothesis Hsize : len < 2 ^ 11.
Implicit Types (e : eth A).

#[local] Set Default Proof Using "All".

(** The state of the sender: the ring, and the semaphore, which is made, and given,
    on the first call. *)
Record sender e (s : Z) (fs : list (list Z)) (n : bool) : Prop := {
  se_ring : tx_ring (hw e) (bytes (packets e)) s fs;
  se_bytes : bytes_ok (bytes (packets e));
  se_sem : ousem e = Some n \/ ousem e = None /\ n = true
}.

Lemma output_end_run r e s fs n : tx_ring (hw e) (bytes (packets e)) s fs -> bytes_ok (bytes (packets e)) -> ousem e = Some n ->
  exists e', output_end r e = Some (r, e') /\ packets e' = packets e /\ sender e' s fs true.
Proof.
  intros HT Hb Hs. unfold output_end. rewrite (bind_run _ _ _ _ _ (on_hw_run (ask reg5) e _ _ eq_refl)).
  assert (Hpoll : exists g', (when (bit 5 (reg5 (hw e))) (_ ← on_hw (update (log_demand (Acknowledge 5))); on_hw (update (log_demand (TxPoll 0)))))
      (mkEth (packets e) (hw e) (ousem e)) = Some (tt, mkEth (packets e) g' (ousem e)) /\ last_tx g' = last_tx (hw e) /\ descs g' = descs (hw e)).
  { destruct (bit 5 (reg5 (hw e))); cbn [when]; eexists; by split_and!. }
  destruct Hpoll as (g'&E&El&Ed). rewrite (bind_run _ _ _ _ _ E). unfold sem_signal.
  rewrite (try_update_bind _ _ _ (mkEth (packets e) g' (Some true))) by (cbn; by rewrite Hs).
  eexists. split; [reflexivity|]. split; [done|]. split; [|done|by left]. destruct HT. split; cbn [hw packets]; rewrite ?El, ?Ed; done.
Qed.

(** C30 — Sending a packet when the ring has room waits until the semaphore is
    given, puts exactly the packet's bytes, as one frame, behind the frames that wait, and
    gives the semaphore back.  When the ring is full, ERR_USE is returned and
    nothing is sent; but the semaphore is given then too, without a wait and also
    when another thread has it, so that two threads may be in the critical
    section.  Nothing outside of the buffers of the ring changes. *)
Theorem low_level_output_refines e s fs n p bs f : sender e s fs n -> chain (pbufs (packets e)) p bs -> lens_ok bs ->
  read (addrs bs) (bytes (packets e)) = Some f -> Z.of_nat (length f) <= len -> (forall a, a ∈ addrs bs -> ~ buf <= a < buf + num * len) ->
  if Z.of_nat (length fs) <? num then
    if n then
      exists e', low_level_output p e = Some (ERR_OK, e') /\ pbufs (packets e') = pbufs (packets e) /\
        (forall a, ~ buf <= a < buf + num * len -> bytes (packets e') !! a = bytes (packets e) !! a) /\
        sender e' s (fs ++ [f]) true
    else low_level_output p e = None
  else exists e', low_level_output p e = Some (ERR_USE, e') /\ packets e' = packets e /\ sender e' s fs true.
Proof.
  intros [HT Hb Hsem] Hc Hl Hr Hf Hdis. unfold low_level_output. rewrite ask_bind.
  set (e1 := mkEth (packets e) (hw e) (Some n)).
  assert (Esem : (match ousem e with None => _ ← sem_create; sem_signal | Some _ => mret tt end) e = Some (tt, e1)).
  { destruct Hsem as [Hs|[Hs ->]]; rewrite Hs; [|done]. unfold e1. rewrite <- Hs. by destruct e. }
  rewrite (bind_run _ _ _ _ _ Esem), (bind_run _ _ _ _ _ (on_hw_run (ask reg5) e1 _ _ eq_refl)).
  assert (Hpoll : forall b, exists g', (when b (on_hw (update (log_demand (TxPoll 1))))) (mkEth (packets e1) (hw e1) (ousem e1)) = Some (tt, mkEth (packets e) g' (Some n)) /\
      tx_ring g' (bytes (packets e)) s fs).
  { intros []; cbn [when]; eexists; (split; [reflexivity|]); [|done]. destruct HT. by split. }
  match goal with |- context [when ?b _] => destruct (Hpoll b) as (g2&E2&HT2) end. rewrite (bind_run _ _ _ _ _ E2).
  destruct (Z.ltb_spec (Z.of_nat (length fs)) num) as [Hlt|Hge].
  - rewrite (bind_run _ _ _ _ _ (on_hw_run HW_GMAC_GetSendPacket (mkEth (packets e) g2 (Some n)) _ _ (tx_ring_get _ _ _ _ HT2 Hlt))). cbv beta iota zeta.
    rewrite (proj2 (Z.ltb_ge 0 0)) by lia. cbn [packets hw ousem]. set (e3 := mkEth (packets e) g2 (Some n)). unfold sem_wait.
    destruct n; [|reflexivity].
    rewrite (try_update_bind _ _ e3 (mkEth (packets e) g2 (Some false))) by done.
    set (i := s + Z.of_nat (length fs)) in *. set (e4 := mkEth (packets e) g2 (Some false)).
    pose proof (read_length _ _ _ Hr) as Hlf. pose proof (addrs_length _ Hl) as Hal. pose proof (chain_size _ _ _ Hc) as Hsz.
    assert (Hold : exists old, read (seqZ (buffer i) (total bs)) (bytes (packets e)) = Some old).
    { destruct (proj2 (mapM_is_Some (fun a => bytes (packets e) !! a) (seqZ (buffer i) (total bs)))) as [old Hold]; [|by exists old].
      apply Forall_forall. intros a Ha%elem_of_seqZ. apply (tr_mapped _ _ _ _ HT), (buffer_range i). lia. }
    destruct Hold as [old Hold]. rewrite (bind_run _ _ _ _ _ (on_packets_same chain_fuel e4 _ eq_refl)).
    assert (Hsend := send_loop_run (S (size (pbufs (packets e)))) (packets e) p bs (buffer i) 0 f old Hc). rewrite Z.add_0_r, Z.add_0_l in Hsend.
    specialize (Hsend ltac:(lia) Hl ltac:(lia) ltac:(lia) Hb Hr Hold ltac:(intros a Ha Hx%elem_of_seqZ; apply (Hdis a Ha), (buffer_range i); lia)).
    rewrite (bind_run _ _ _ _ _ (on_packets_run _ e4 _ _ Hsend)). cbn [hw with_packets e4 ousem].
    assert (Htot : total bs = Z.of_nat (length f)) by lia. rewrite Htot in *. set (m := blit _ _ _).
    destruct (tx_ring_put g2 (bytes (packets e)) m s fs f HT2 Hlt Hf Hsize) as (g5&E5&HT5).
    { apply read_blit; [apply NoDup_seqZ|]. rewrite length_seqZ. lia. }
    { intros a Ha. apply blit_other. intros Hx%elem_of_seqZ. fold i in Ha. lia. }
    { intros a Ha. unfold m, blit. apply lookup_union_is_Some. by right. }
    rewrite (bind_run _ _ _ _ _ (on_hw_run (HW_GMAC_StartSendPacket _) (mkEth (with_bytes (packets e) m) g2 (Some false)) _ _ E5)). cbn [packets hw ousem].
    destruct (output_end_run ERR_OK (mkEth (with_bytes (packets e) m) g5 (Some false)) s (fs ++ [f]) false HT5) as (e6&E6&Hp6&Hs6); [|done|].
    { apply blit_bytes_ok; [done|by eapply read_bytes_ok]. }
    exists e6. split; [exact E6|]. rewrite Hp6. split; [done|]. split; [|exact Hs6].
    intros a Ha. apply blit_other. intros Hx%elem_of_seqZ. apply Ha, (buffer_range i). lia.
  - pose proof (tr_room _ _ _ _ HT).
    rewrite (bind_run _ _ _ _ _ (on_hw_run HW_GMAC_GetSendPacket (mkEth (packets e) g2 (Some n)) _ _ (tx_ring_full _ _ _ _ HT2 ltac:(lia)))). cbv beta iota zeta.
    rewrite (proj2 (Z.ltb_lt (-1) 0)) by lia. cbn [packets hw ousem].
    destruct (output_end_run ERR_USE (mkEth (packets e) g2 (Some n)) s fs n HT2 Hb eq_refl) as (e6&E6&Hp6&Hs6).
    by exists e6.
Qed.
End sending.

(** ** Receiving *)

(** A segment of a frame, in one descriptor. *)
Record item := mkItem { it_bytes : list Z; it_first : bool; it_last : bool }.

Definition filled (D : gmap Z GmacDes) (m : mem) (i : Z) (it : item) : Prop :=
  exists d, D !! slot i = Some d /\ d_owner d = false /\ bit 9 (d_status d) = it_first it /\ bit 8 (d_status d) = it_last it /\
    GMAC_GET_RX_LENGTH (d_status d) = Z.of_nat (length (it_bytes it)) /\ d_buffer1_addr d = buffer i /\ d_next d = slot (i + 1) /\
    read (seqZ (buffer i) (Z.of_nat (length (it_bytes it)))) m = Some (it_bytes it) /\ 0 < Z.of_nat (length (it_bytes it)) <= len.

Definition given (D : gmap Z GmacDes) (i : Z) : Prop :=
  exists d, D !! slot i = Some d /\ d_owner d = true /\ d_buffer1_addr d = buffer i /\ d_next d = slot (i + 1).

Definition seg_of (i : Z) (it : item) : Z * Z := (buffer i, Z.of_nat (length (it_bytes it))).
Fixpoint segs_of (i : Z) (its : list item) : list (Z * Z) :=
  match its with [] => [] | it :: its' => seg_of i it :: segs_of (i + 1) its' end.

Definition frame_of (its : list item) : list Z := mjoin (it_bytes <$> its).
Definition frame_len (its : list item) : Z := Z.of_nat (length (frame_of its)).

(** The segments of frames, the first of them [inside] of a frame or not. *)
Fixpoint wf_items (inside : bool) (its : list item) : Prop :=
  match its with [] => True | it :: its' => it_first it = negb inside /\ wf_items (negb (it_last it)) its' end.

(** The driver has collected the segments [held] of a frame from place [s] on;
    behind them the DMA has put [its]. *)
Record rx_ring (g : gmac) (m : mem) (s : Z) (held its : list item) : Prop := {
  rr_last : last_rx g = slot (s + Z.of_nat (length held));
  rr_filled : forall k it, (held ++ its) !! k = Some it -> filled (descs g) m (s + Z.of_nat k) it;
  rr_given : forall k, Z.of_nat (length (held ++ its)) <= k < num -> given (descs g) (s + k);
  rr_room : Z.of_nat (length (held ++ its)) <= num;
  rr_arrays : length (rx_buffer_list g) = Z.to_nat GMAC_DESCRIPTOR_NUM /\ length (rx_buffer_len g) = Z.to_nat GMAC_DESCRIPTOR_NUM;
  rr_start : held <> [] -> rx_desc_start g = slot s;
  rr_count : held <> [] -> rx_buffer_count g = Z.of_nat (length held) /\ rx_buffer_total_len g = frame_len held;
  rr_collected : collected g 0 (segs_of s held);
  rr_open : forall it, it ∈ held -> it_last it = false;
  rr_wf : wf_items (match held with [] => false | _ => true end) its
}.

Lemma segs_of_app i xs ys : segs_of i (xs ++ ys) = segs_of i xs ++ segs_of (i + Z.of_nat (length xs)) ys.
Proof.
  revert i. induction xs as [|x xs IH]; intros i; cbn [segs_of app length].
  - by rewrite Z.add_0_r.
  - rewrite IH. do 3 f_equal. lia.
Qed.

Lemma segs_of_length i xs : length (segs_of i xs) = length xs.
Proof. revert i. induction xs as [|x xs IH]; intros i; cbn; [done|]. by rewrite IH. Qed.

Lemma segs_of_lookup i xs k : segs_of i xs !! k = (fun it => seg_of (i + Z.of_nat k) it) <$> xs !! k.
Proof.
  revert i k. induction xs as [|x xs IH]; intros i [|k]; cbn [segs_of lookup list_lookup fmap option_fmap option_map]; try done.
  - by rewrite Z.add_0_r.
  - change (segs_of (i + 1) xs !! k = (fun it => seg_of (i + Z.of_nat (S k)) it) <$> xs !! k). rewrite IH.
    destruct (xs !! k); [|done]. cbn. do 2 f_equal. lia.
Qed.

Lemma frame_of_app xs ys : frame_of (xs ++ ys) = frame_of xs ++ frame_of ys.
Proof. unfold frame_of. by rewrite fmap_app, join_app. Qed.

Lemma frame_len_app xs ys : frame_len (xs ++ ys) = frame_len xs + frame_len ys.
Proof. unfold frame_len. rewrite frame_of_app, length_app. lia. Qed.

(** What the memory of the segments holds. *)
Lemma read_segs D m i its : (forall k it, its !! k = Some it -> filled D m (i + Z.of_nat k) it) -> read (seg_addrs (segs_of i its)) m = Some (frame_of its).
Proof.
  revert i. induction its as [|it its IH]; intros i H; [done|]. cbn. apply read_app_Some. exists (it_bytes it), (frame_of its).
  destruct (H 0%nat it eq_refl) as (d&_&_&_&_&_&_&_&Hr&_). rewrite Z.add_0_r in Hr. split_and!; [done|done|].
  apply IH. intros k jt Hk. specialize (H (S k) jt Hk). by replace (i + Z.of_nat (S k)) with (i + 1 + Z.of_nat k) in H by lia.
Qed.

Lemma filled_frame D D' m m' i it : D' !! slot i = D !! slot i -> (forall a, buffer i <= a < buffer i + len -> m' !! a = m !! a) ->
  filled D m i it -> filled D' m' i it.
Proof.
  intros E Hm (d&Hd&Ho&H9&H8&Hl&Ha&Hn&Hr&Hlen'). exists d. rewrite E. split_and!; try done; try lia. rewrite <- Hr. apply read_ext.
  intros a Ha'%elem_of_seqZ. apply Hm. lia.
Qed.

Lemma array_set_run i v (l : list Z) : 0 <= i < Z.of_nat (length l) -> store_element i v l = Some (<[Z.to_nat i := v]> l).
Proof.
  intros Hi. unfold store_element. rewrite (proj2 (Z.leb_le 0 i)), (proj2 (Z.ltb_lt i _)) by lia. done.
Qed.

(** One more segment is collected. *)
Definition take_item (g : gmac) (d : GmacDes) (s count total : Z) : gmac :=
  set_last_rx (d_next d) (set_collect s (<[Z.to_nat count := d_buffer1_addr d]> (rx_buffer_list g)) (<[Z.to_nat count := GMAC_GET_RX_LENGTH (d_status d)]> (rx_buffer_len g))
    (total + GMAC_GET_RX_LENGTH (d_status d)) (count + 1) g).

Lemma frame_len_bound g m s held its : rx_ring g m s held its -> 0 <= frame_len (held ++ its) <= num * len.
Proof.
  intros HR. split; [unfold frame_len; lia|].
  assert (Hb : forall it, it ∈ held ++ its -> Z.of_nat (length (it_bytes it)) <= len).
  { intros it Hin. apply list_elem_of_lookup in Hin as [k Hk]. destruct (rr_filled _ _ _ _ _ HR k it Hk) as (d&_&_&_&_&_&_&_&_&?). lia. }
  pose proof (rr_room _ _ _ _ _ HR) as Hroom. revert Hb Hroom. generalize (held ++ its) as l. intros l Hb Hroom.
  assert (frame_len l <= Z.of_nat (length l) * len); [|nia]. clear Hroom. induction l as [|it l IH]; [done|].
  change (it :: l) with ([it] ++ l). rewrite frame_len_app. pose proof (Hb it ltac:(left)).
  assert (frame_len [it] = Z.of_nat (length (it_bytes it))) as -> by (unfold frame_len, frame_of; cbn; by rewrite app_nil_r).
  specialize (IH ltac:(intros x Hx; apply Hb; by right)). rewrite length_app. cbn [length]. nia.
Qed.

Lemma GetRecvPacket_empty g m s held : rx_ring g m s held [] -> Z.of_nat (length held) < num -> HW_GMAC_GetRecvPacket g = Some (0, g).
Proof.
  intros HR Hlt. destruct (rr_given _ _ _ _ _ HR (Z.of_nat (length held)) ltac:(rewrite app_nil_r; lia)) as (d&Hd&Ho&_).
  unfold HW_GMAC_GetRecvPacket. rewrite ask_bind, (rr_last _ _ _ _ _ HR).
  unfold load_desc. rewrite (try_ask_bind _ _ g _ Hd). by rewrite Ho.
Qed.

Lemma GetRecvPacket_item g m s held it its : rx_ring g m s held (it :: its) ->
  exists g', HW_GMAC_GetRecvPacket g = Some (if it_last it then frame_len (held ++ [it]) else 0, g') /\
    last_rx g' = slot (s + Z.of_nat (length held) + 1) /\ descs g' = descs g /\ reg5 g' = reg5 g /\ demands g' = demands g /\ last_tx g' = last_tx g /\
    length (rx_buffer_list g') = Z.to_nat GMAC_DESCRIPTOR_NUM /\ length (rx_buffer_len g') = Z.to_nat GMAC_DESCRIPTOR_NUM /\
    rx_desc_start g' = slot s /\ rx_buffer_count g' = Z.of_nat (length held) + 1 /\ rx_buffer_total_len g' = frame_len (held ++ [it]) /\
    collected g' 0 (segs_of s (held ++ [it])).
Proof.
  intros HR. assert (Hk : (held ++ it :: its) !! length held = Some it) by by rewrite list_lookup_middle.
  destruct (rr_filled _ _ _ _ _ HR _ it Hk) as (d&Hd&Ho&H9&H8&Hl&Ha&Hn&Hr&Hil).
  pose proof (rr_room _ _ _ _ _ HR) as Hroom. rewrite length_app in Hroom. cbn [length] in Hroom.
  destruct (rr_arrays _ _ _ _ _ HR) as [Ha1 Ha2]. unfold GMAC_DESCRIPTOR_NUM in *.
  pose proof (frame_len_bound _ _ _ _ _ HR) as Hfl. change (it :: its) with ([it] ++ its) in Hfl. rewrite app_assoc, frame_len_app in Hfl.
  assert (Hnn : 0 <= frame_len its /\ 0 <= frame_len held) by (unfold frame_len; lia).
  assert (Hit : frame_len (held ++ [it]) = frame_len held + Z.of_nat (length (it_bytes it))).
  { rewrite frame_len_app. unfold frame_len at 2, frame_of. cbn. by rewrite app_nil_r. }
  unfold HW_GMAC_GetRecvPacket. rewrite ask_bind, (rr_last _ _ _ _ _ HR). unfold load_desc. rewrite (try_ask_bind _ _ g _ Hd). rewrite Ho.
  (* the state when the segment is stored *)
  set (g1 := if it_first it then set_collect (slot (s + Z.of_nat (length held))) (rx_buffer_list g) (rx_buffer_len g) 0 0 g else g).
  assert (E1 : (when (bit 9 (d_status d)) (update (fun g => set_collect (slot (s + Z.of_nat (length held))) (rx_buffer_list g) (rx_buffer_len g) 0 0 g))) g = Some (tt, g1)).
  { rewrite H9. unfold g1. by destruct (it_first it). }
  rewrite (bind_run _ _ _ _ _ E1).
  assert (Hg1 : rx_desc_start g1 = slot s /\ rx_buffer_count g1 = Z.of_nat (length held) /\ rx_buffer_total_len g1 = frame_len held /\
      rx_buffer_list g1 = rx_buffer_list g /\ rx_buffer_len g1 = rx_buffer_len g /\ descs g1 = descs g /\ reg5 g1 = reg5 g /\ demands g1 = demands g /\ last_tx g1 = last_tx g).
  { pose proof (rr_wf _ _ _ _ _ HR) as [Hw _]. unfold g1. destruct held as [|h held].
    - cbn in Hw. rewrite Hw. cbn. by rewrite Z.add_0_r.
    - cbn in Hw. rewrite Hw. destruct (rr_count _ _ _ _ _ HR ltac:(done)). rewrite (rr_start _ _ _ _ _ HR) by done. by split_and!. }
  destruct Hg1 as (Hs&Hc&Ht&Hbl&Hln&Hde&Hr5&Hdm&Htx).
  unfold try_update at 1. unfold mbind at 1, prog_bind at 1. rewrite Hc, Hbl, Hln, Ht, Hl.
  rewrite !array_set_run by lia. cbn [mbind option_bind fmap option_fmap option_map]. rewrite !u32_small by lia. rewrite ask_bind, update_bind.
  eexists. split; [unfold mret, prog_ret; rewrite H8; cbn [set_collect rx_buffer_total_len]; rewrite Hit; reflexivity|]. cbn [set_last_rx set_collect last_rx descs reg5 demands last_tx rx_buffer_list rx_buffer_len rx_desc_start rx_buffer_count rx_buffer_total_len].
  rewrite !length_insert, Hn, Hs, Hde, Hr5, Hdm, Htx. split_and!; try done; try lia.
  rewrite segs_of_app. cbn [segs_of]. intros k a l Hk2. apply lookup_app_Some in Hk2 as [Hk2|[Hge Hk2]]; rewrite Z.add_0_l; cbn [set_last_rx set_collect rx_buffer_list rx_buffer_len].
  - pose proof (lookup_lt_Some _ _ _ Hk2) as Hlt. rewrite segs_of_length in Hlt.
    destruct (rr_collected _ _ _ _ _ HR k a l Hk2) as (?&?&?). rewrite Z.add_0_l in *. rewrite !list_lookup_insert_ne by lia. done.
  - rewrite segs_of_length in *. destruct (k - length held)%nat as [|j] eqn:Ek; [|by destruct j].
      cbn in Hk2. injection Hk2 as <- <-. replace k with (length held) by lia. rewrite !list_lookup_insert_eq by lia. rewrite Ha. by split_and!; [| |lia|lia].
Qed.

(** The descriptors of a frame go back to the DMA. *)
Lemma stop_loop_run n i g : Z.of_nat n <= num -> (forall k, 0 <= k < Z.of_nat n -> exists d, descs g !! slot (i + k) = Some d /\ d_next d = slot (i + k + 1)) ->
  exists D, stop_loop n (slot i) g = Some (tt, set_descs D g) /\
    (forall k, 0 <= k < Z.of_nat n -> exists d, descs g !! slot (i + k) = Some d /\ D !! slot (i + k) = Some (returned_desc d)) /\
    (forall x, (forall k, 0 <= k < Z.of_nat n -> x <> slot (i + k)) -> D !! x = descs g !! x).
Proof.
  revert i g. induction n as [|n IH]; intros i g Hn Hd; cbn [stop_loop].
  - exists (descs g). split; [by destruct g|]. split; [intros k Hk; lia|done].
  - destruct (Hd 0 ltac:(lia)) as (d&E&Hnx). rewrite !Z.add_0_r in *. unfold load_desc at 1. rewrite (try_ask_bind _ _ g _ E).
    unfold push_desc. rewrite (try_update_bind _ _ g (set_descs (<[slot i := returned_desc d]> (descs g)) g)) by (by rewrite E).
    rewrite Hnx. set (g1 := set_descs _ g).
    assert (Hne : forall k, 0 <= k < Z.of_nat n -> slot i <> slot (i + 1 + k)) by (intros k Hk; apply slot_ne; lia).
    destruct (IH (i + 1) g1) as (D&ED&H1&H2); [lia| |].
    { intros k Hk. destruct (Hd (k + 1) ltac:(lia)) as (d'&E'&Hn'). exists d'. unfold g1. cbn [descs set_descs].
      rewrite lookup_insert_ne by by apply Hne. replace (i + 1 + k) with (i + (k + 1)) by lia. done. }
    exists D. split; [exact ED|]. split.
    + intros k Hk. destruct (decide (k = 0)) as [->|Hk0].
      * exists d. rewrite Z.add_0_r. split; [done|]. rewrite H2 by (intros k' Hk'; by apply Hne). apply lookup_insert_eq.
      * destruct (H1 (k - 1) ltac:(lia)) as (d'&E1&E2). replace (i + 1 + (k - 1)) with (i + k) in * by lia. exists d'. split; [|done].
        unfold g1 in E1. cbn [descs set_descs] in E1. rewrite lookup_insert_ne in E1; [done|]. apply slot_ne. lia.
    + intros x Hx. rewrite H2 by (intros k Hk; specialize (Hx (k + 1) ltac:(lia)); by replace (i + 1 + k) with (i + (k + 1)) by lia).
      apply lookup_insert_ne. specialize (Hx 0 ltac:(lia)). by rewrite Z.add_0_r in Hx.
Qed.

Lemma app_cons_assoc {X} (xs : list X) y zs : xs ++ y :: zs = (xs ++ [y]) ++ zs.
Proof. by rewrite <- app_assoc. Qed.

Lemma wf_tail it its (b : bool) : wf_items b (it :: its) -> wf_items (negb (it_last it)) its.
Proof. by intros [_ ?]. Qed.

(** A segment that does not end its frame is kept. *)
Lemma rx_ring_hold g m s held it its g' : rx_ring g m s held (it :: its) -> it_last it = false ->
  last_rx g' = slot (s + Z.of_nat (length held) + 1) -> descs g' = descs g ->
  length (rx_buffer_list g') = Z.to_nat GMAC_DESCRIPTOR_NUM -> length (rx_buffer_len g') = Z.to_nat GMAC_DESCRIPTOR_NUM ->
  rx_desc_start g' = slot s -> rx_buffer_count g' = Z.of_nat (length held) + 1 -> rx_buffer_total_len g' = frame_len (held ++ [it]) ->
  collected g' 0 (segs_of s (held ++ [it])) -> rx_ring g' m s (held ++ [it]) its.
Proof.
  intros HR Hlast E1 E2 L1 L2 E3 E4 E5 Hco. pose proof (app_cons_assoc held it its) as Ea. split.
  - rewrite E1, length_app. f_equal. cbn. lia.
  - rewrite <- Ea, E2. apply (rr_filled _ _ _ _ _ HR).
  - rewrite <- Ea, E2. apply (rr_given _ _ _ _ _ HR).
  - rewrite <- Ea. apply (rr_room _ _ _ _ _ HR).
  - done.
  - done.
  - intros _. rewrite length_app. cbn. split; [lia|done].
  - done.
  - intros x [Hx| ->%list_elem_of_singleton]%elem_of_app; [by apply (rr_open _ _ _ _ _ HR)|done].
  - pose proof (wf_tail it its _ (rr_wf _ _ _ _ _ HR)) as Hw. rewrite Hlast in Hw. destruct held; exact Hw.
Qed.

(** With its last segment a frame is complete, and its descriptors are returned. *)
Lemma rx_ring_done g m m' s held it its g' : rx_ring g m s held (it :: its) -> it_last it = true ->
  last_rx g' = slot (s + Z.of_nat (length held) + 1) -> descs g' = descs g ->
  length (rx_buffer_list g') = Z.to_nat GMAC_DESCRIPTOR_NUM -> length (rx_buffer_len g') = Z.to_nat GMAC_DESCRIPTOR_NUM ->
  rx_desc_start g' = slot s -> rx_buffer_count g' = Z.of_nat (length held) + 1 ->
  (forall a, buf <= a < buf + num * len -> m' !! a = m !! a) ->
  exists D, HW_GMAC_StopRecvPacket g' = Some (0, set_descs D g') /\ rx_ring (set_descs D g') m' (s + Z.of_nat (length held) + 1) [] its /\
    (forall x, (forall i, x <> slot i) -> D !! x = descs g !! x).
Proof.
  intros HR Hlast E1 E2 L1 L2 E3 E4 Hm. pose proof (app_cons_assoc held it its) as Ea. set (n := length (held ++ [it])).
  assert (Hn : Z.of_nat n = Z.of_nat (length held) + 1) by (unfold n; rewrite length_app; cbn; lia).
  assert (Hroom : Z.of_nat n + Z.of_nat (length its) <= num).
  { pose proof (rr_room _ _ _ _ _ HR) as H. rewrite Ea, length_app in H. fold n in H. lia. }
  assert (Hall : forall k, 0 <= k < num -> exists d, descs g !! slot (s + k) = Some d /\ d_buffer1_addr d = buffer (s + k) /\ d_next d = slot (s + k + 1)).
  { intros k Hk. destruct (Z.lt_ge_cases k (Z.of_nat (length (held ++ it :: its)))) as [Hlt|Hge].
    - destruct (lookup_lt_is_Some_2 (held ++ it :: its) (Z.to_nat k) ltac:(lia)) as [x Hx].
      destruct (rr_filled _ _ _ _ _ HR _ x Hx) as (d&?&_&_&_&_&?&?&_). rewrite Z2Nat.id in * by lia. by exists d.
    - destruct (rr_given _ _ _ _ _ HR k ltac:(lia)) as (d&?&_&?&?). by exists d. }
  destruct (stop_loop_run n s g') as (D&ED&H1&H2); [lia| |].
  { intros k Hk. rewrite E2. destruct (Hall k ltac:(lia)) as (d&?&_&?). by exists d. }
  exists D. split; [|split].
  - unfold HW_GMAC_StopRecvPacket. rewrite !ask_bind, E3, E4. replace (Z.to_nat (Z.of_nat (length held) + 1)) with n by lia.
    by rewrite (bind_run _ _ _ _ _ ED).
  - assert (Hk0 : forall k x, its !! k = Some x -> filled (descs g) m (s + Z.of_nat (length held) + 1 + Z.of_nat k) x).
    { intros k x Hk. assert (Hk' : (held ++ it :: its) !! (n + k)%nat = Some x).
      { rewrite Ea, lookup_app_r by (fold n; lia). fold n. by replace (n + k - n)%nat with k by lia. }
      pose proof (rr_filled _ _ _ _ _ HR _ x Hk') as H. by replace (s + Z.of_nat (n + k)) with (s + Z.of_nat (length held) + 1 + Z.of_nat k) in H by lia. }
    assert (Hout : forall k, 0 <= k < num - Z.of_nat n -> D !! slot (s + Z.of_nat (length held) + 1 + k) = descs g !! slot (s + Z.of_nat (length held) + 1 + k)).
    { intros k Hk. rewrite H2, E2; [done|]. intros j Hj. apply slot_ne. lia. }
    split; cbn [set_descs last_rx descs rx_buffer_list rx_buffer_len rx_desc_start length app]; try done.
    + by rewrite Z.add_0_r, E1.
    + intros k x Hk. pose proof (lookup_lt_Some _ _ _ Hk) as Hlt. apply (filled_frame (descs g) D m); [by apply Hout; lia| |by apply Hk0].
      intros a Ha. apply Hm. unfold buffer in Ha. pose proof (Z.mod_pos_bound (s + Z.of_nat (length held) + 1 + Z.of_nat k) num ltac:(lia)). nia.
    + intros k Hk. destruct (Z.lt_ge_cases k (num - Z.of_nat n)) as [Hlt|Hge].
      * unfold given. rewrite Hout by lia. destruct (rr_given _ _ _ _ _ HR (Z.of_nat n + k)) as (d&Hd).
        { rewrite Ea, length_app. fold n. lia. }
        exists d. by replace (s + Z.of_nat (length held) + 1 + k) with (s + (Z.of_nat n + k)) by lia.
      * assert (Hw : s + Z.of_nat (length held) + 1 + k = s + (k - (num - Z.of_nat n)) + num) by lia.
        unfold given. replace (s + Z.of_nat (length held) + 1 + k + 1) with (s + (k - (num - Z.of_nat n)) + 1 + num) by lia.
        rewrite Hw, slot_wrap1, buffer_wrap1, slot_wrap1. destruct (H1 (k - (num - Z.of_nat n)) ltac:(lia)) as (d&Ed&ED').
        exists (returned_desc d). split; [done|]. split; [done|]. rewrite E2 in Ed. destruct (Hall (k - (num - Z.of_nat n)) ltac:(lia)) as (d'&Ed'&?&?).
        rewrite Ed in Ed'. injection Ed' as <-. by split.
    + lia.
    + intros x Hx. by apply elem_of_nil in Hx.
    + pose proof (wf_tail it its _ (rr_wf _ _ _ _ _ HR)) as Hw. by rewrite Hlast in Hw.
  - intros x Hx. rewrite H2, E2; [done|]. intros k _. apply Hx.
Qed.

Lemma rx_ring_same g g' m s held its : last_rx g' = last_rx g -> descs g' = descs g -> rx_buffer_list g' = rx_buffer_list g ->
  rx_buffer_len g' = rx_buffer_len g -> rx_desc_start g' = rx_desc_start g -> rx_buffer_count g' = rx_buffer_count g ->
  rx_buffer_total_len g' = rx_buffer_total_len g -> rx_ring g m s held its -> rx_ring g' m s held its.
Proof.
  intros E1 E2 E3 E4 E5 E6 E7 []. split; rewrite ?E1, ?E2, ?E3, ?E4, ?E5, ?E6, ?E7; try done.
  unfold collected in *. by rewrite E3, E4.
Qed.

(** *** With the packets of the stack *)

Context {A : Type} `{!PbufMemory A} (pool_size : memp_t -> Z) `{!PbufMemoryOk A pool_size}.
Hypothesis Hps : 16 + 1600 <= pool_size MEMP_PBUF_POOL.
Hypothesis Hfit : num * len < 2 ^ 16.
(** The pool of packet buffers is apart from the buffers of the DMA. *)
Context (pool_byte : Z -> Prop).
Hypothesis Hpool : forall a H x n, owns a H -> H !! x = Some (FromPool MEMP_PBUF_POOL, n) -> forall i, x <= i < x + n -> pool_byte i.
Hypothesis Hdma : forall i, pool_byte i -> ~ buf <= i < buf + num * len.
Implicit Types (e : eth A).

#[local] Set Default Proof Using "All".

Definition mem_ok (m : mem) : Prop := bytes_ok m /\ forall i, pool_byte i -> is_Some (m !! i).

(** The payloads of buffers from the pool lie in the pool, apart from each other. *)
Lemma pool_block s refs H a b : refs_ok pool_size s refs H -> pbufs s !! a = Some b -> p_type_internal b = u8 (type_value PBUF_POOL) ->
  exists n, H !! a = Some (FromPool MEMP_PBUF_POOL, n) /\ a <= p_payload b /\ p_payload b + p_len b <= a + n.
Proof.
  intros HR Ha Ht. destruct (ro_block _ _ _ _ HR a b Ha) as (n&Hn&HB). exists n.
  assert (Hs : source_of b = FromPool MEMP_PBUF_POOL) by (unfold source_of, pbuf_get_allocsrc; by rewrite Ht).
  assert (Hc : contiguous b = true) by (unfold contiguous; by rewrite Ht). rewrite Hs in Hn.
  destruct (bo_data _ _ _ HB Hc). unfold SIZEOF_STRUCT_PBUF in *. split; [done|]. lia.
Qed.

Lemma pool_addrs s refs H p bs : refs_ok pool_size s refs H -> chain (pbufs s) p bs -> typed PBUF_POOL bs ->
  NoDup (addrs bs) /\ forall a, a ∈ addrs bs -> pool_byte a.
Proof.
  intros HR Hc Ht. pose proof (chain_nodup _ _ _ Hc) as Hnd.
  assert (Hin : forall x b, (x, b) ∈ bs -> exists n, H !! x = Some (FromPool MEMP_PBUF_POOL, n) /\ x <= p_payload b /\ p_payload b + p_len b <= x + n).
  { intros x b Hx. apply (pool_block s refs H x b HR); [by eapply chain_in|]. unfold typed in Ht. rewrite Forall_forall in Ht. exact (Ht _ Hx). }
  clear Hc Ht. induction bs as [|[x b] bs IH]; [split; [constructor|by intros a ?%elem_of_nil]|]. cbn [addrs].
  cbn in Hnd. apply NoDup_cons in Hnd as [Hx Hnd]. destruct (IH Hnd ltac:(intros y c Hy; apply Hin; by right)) as [I1 I2].
  destruct (Hin x b ltac:(left)) as (n&Hn&H1&H2).
  assert (Hsp : forall a, a ∈ spots b -> x <= a < x + n) by (intros a Ha%elem_of_seqZ; lia). split.
  - apply NoDup_app. split; [apply NoDup_seqZ|]. split; [|done]. intros a Ha Hb. apply Hsp in Ha.
    assert (Hy : exists y c, (y, c) ∈ bs /\ a ∈ spots c).
    { clear -Hb. induction bs as [|[y c] bs IH]; [by apply elem_of_nil in Hb|]. cbn in Hb. apply elem_of_app in Hb as [Hb|Hb]; [exists y, c; split; [left|done]|].
      destruct (IH Hb) as (z&d&?&?). exists z, d. split; [by right|done]. }
    destruct Hy as (y&c&Hyc&Hac). destruct (Hin y c ltac:(by right)) as (k&Hk&H3&H4). apply elem_of_seqZ in Hac.
    assert (Hxy : x <> y) by (intros ->; apply Hx; apply list_elem_of_fmap; by exists (y, c)).
    pose proof (owns_apart _ _ _ _ _ _ _ _ (ro_owns _ _ _ _ HR) Hn Hk Hxy). lia.
  - intros a [Ha|Ha]%elem_of_app; [|by apply I2]. eapply Hpool; [apply HR|exact Hn|]. by apply Hsp.
Qed.

Lemma read_pool m ads : (forall a, a ∈ ads -> is_Some (m !! a)) -> exists old, read ads m = Some old.
Proof. intros Hm. destruct (proj2 (mapM_is_Some (fun a => m !! a) ads)) as [old E]; [by apply Forall_forall|]. by exists old. Qed.

Lemma seg_addrs_range i its a : Forall (fun it => Z.of_nat (length (it_bytes it)) <= len) its -> a ∈ seg_addrs (segs_of i its) -> buf <= a < buf + num * len.
Proof.
  intros Hl. revert i. induction Hl as [|it its Hit _ IH]; intros i; cbn; [by intros ?%elem_of_nil|]. intros [Ha|Ha]%elem_of_app; [|by eapply IH].
  apply elem_of_seqZ in Ha. unfold buffer in Ha. pose proof (Z.mod_pos_bound i num ltac:(lia)). nia.
Qed.

Lemma mem_ok_blit m ads vs : mem_ok m -> Forall byte_ok vs -> mem_ok (blit ads vs m).
Proof.
  intros [Hb Hp] Hv. split; [by apply blit_bytes_ok|]. intros i Hi. unfold blit. apply lookup_union_is_Some. right. by apply Hp.
Qed.

Lemma length_seg_addrs i its : length (seg_addrs (segs_of i its)) = length (frame_of its).
Proof.
  revert i. induction its as [|it its IH]; intros i; [done|]. change (length (seqZ (buffer i) (Z.of_nat (length (it_bytes it))) ++ seg_addrs (segs_of (i + 1) its)) = length (it_bytes it ++ frame_of its)).
  rewrite !length_app, length_seqZ, IH. lia.
Qed.

(** The buffers of a frame are copied into a packet of its length. *)
Lemma collect_run e refs H p bs s fr : refs_ok pool_size (packets e) refs H -> chain (pbufs (packets e)) p bs -> lens_ok bs -> typed PBUF_POOL bs ->
  total bs = frame_len fr -> mem_ok (bytes (packets e)) -> Z.of_nat (length fr) <= num -> frame_len fr < 2 ^ 16 ->
  (forall k it, fr !! k = Some it -> filled (descs (hw e)) (bytes (packets e)) (s + Z.of_nat k) it) ->
  collected (hw e) 0 (segs_of s fr) -> rx_buffer_total_len (hw e) = frame_len fr -> rx_buffer_count (hw e) = Z.of_nat (length fr) ->
  (n ← input_fuel; input_loop n p 0 0 0 0) e = Some (tt, with_packets (with_bytes (packets e) (blit (addrs bs) (frame_of fr) (bytes (packets e)))) e).
Proof.
  intros HR Hc Hl Hty Htot Hm Hnum' Hlen' Hfill Hco Ht Hcnt. destruct (pool_addrs _ _ _ _ _ HR Hc Hty) as [Hnd Hin].
  destruct (read_pool (bytes (packets e)) (addrs bs)) as [old Hold]; [intros a Ha; by apply Hm, Hin|].
  pose proof (read_segs _ _ _ _ Hfill) as Hsrc. unfold input_fuel. rewrite ask_bind, Ht, Hcnt.
  pose proof (chain_size _ _ _ Hc) as Hsz. pose proof (addrs_length _ Hl) as Hal. unfold frame_len in *. unfold GMAC_DESCRIPTOR_NUM in *.
  rewrite <- dst_rest_0 in *. rewrite <- src_rest_0 in Hsrc.
  assert (Hls : length (src_rest (segs_of s fr) 0) = length (frame_of fr)) by (by rewrite src_rest_0, length_seg_addrs).
  apply (input_loop_run _ e p bs 0 (segs_of s fr) 0 0 0 (frame_of fr) old); rewrite ?segs_of_length, ?Hls, ?Ht; try done; try lia.
  - intros a l segs' E. destruct (Hco 0%nat a l ltac:(by rewrite E)). lia.
  - intros a b bs' ->. cbn in Hl. lia.
  - apply Hm.
  - intros a Ha Hb. rewrite src_rest_0 in Ha. apply (Hdma a (Hin a Hb)). eapply seg_addrs_range; [|exact Ha]. apply Forall_forall.
    intros it [k Hk]%list_elem_of_lookup. destruct (Hfill k it Hk) as (d&_&_&_&_&_&_&_&_&?). lia.
Qed.

(** The packet [p] holds a frame. *)
Definition holds_frame (s : pstate A) (p : Z) (f : list Z) : Prop :=
  exists bs, chain (pbufs s) p bs /\ lens_ok bs /\ total bs = Z.of_nat (length f) /\ read (addrs bs) (bytes s) = Some f.

Definition owned (s : pstate A) (refs : Z -> Z) : Prop := exists H, refs_ok pool_size s refs H.

(** How a frame is handed over: in a packet, which the caller holds from then
    on; or not at all, when there is no memory for it. *)
Definition handed_over (refs : Z -> Z) (f : list Z) (p : Z) (s s' : pstate A) : Prop :=
  p = 0 /\ owned s' refs /\ fst <$> pbuf_alloc PBUF_RAW (Z.of_nat (length f)) PBUF_POOL s = Some 0 \/
  p <> 0 /\ owned s' (bump 1 p refs) /\ holds_frame s' p f.

Lemma demand_run bit v e : exists g', (r ← on_hw (ask reg5); when (Z.testbit r bit) (_ ← on_hw (update (log_demand (Acknowledge bit))); on_hw (update (log_demand v)))) e = Some (tt, mkEth (packets e) g' (ousem e)) /\
  descs g' = descs (hw e) /\ last_tx g' = last_tx (hw e) /\ last_rx g' = last_rx (hw e) /\ rx_buffer_list g' = rx_buffer_list (hw e) /\ rx_buffer_len g' = rx_buffer_len (hw e) /\
  rx_desc_start g' = rx_desc_start (hw e) /\ rx_buffer_count g' = rx_buffer_count (hw e) /\ rx_buffer_total_len g' = rx_buffer_total_len (hw e).
Proof.
  rewrite (bind_run _ _ _ _ _ (on_hw_run (ask reg5) e _ _ eq_refl)). destruct (Z.testbit (reg5 (hw e)) bit); cbn [when].
  - eexists. split; [reflexivity|]. cbn. by split_and!.
  - eexists (hw e). split; [by destruct e|]. by split_and!.
Qed.

Lemma low_level_input_empty e s held : rx_ring (hw e) (bytes (packets e)) s held [] -> Z.of_nat (length held) < num -> low_level_input e = Some (0, e).
Proof.
  intros HR Hlt. unfold low_level_input. rewrite (bind_run _ _ _ _ _ (on_hw_run _ _ _ _ (GetRecvPacket_empty _ _ _ _ HR Hlt))). by destruct e.
Qed.

Lemma low_level_input_held e s held it its : rx_ring (hw e) (bytes (packets e)) s held (it :: its) -> it_last it = false ->
  exists g', low_level_input e = Some (0, mkEth (packets e) g' (ousem e)) /\ rx_ring g' (bytes (packets e)) s (held ++ [it]) its /\ last_tx g' = last_tx (hw e).
Proof.
  intros HR Hl. destruct (GetRecvPacket_item _ _ _ _ _ _ HR) as (g'&E&E1&E2&E3&E4&E5&E6&E7&E8&E9&E10&Hco). rewrite Hl in E.
  exists g'. unfold low_level_input. rewrite (bind_run _ _ _ _ _ (on_hw_run _ _ _ _ E)). split; [done|]. split; [|done].
  by eapply rx_ring_hold.
Qed.

Lemma low_level_input_frame e refs s held it its : rx_ring (hw e) (bytes (packets e)) s held (it :: its) -> it_last it = true ->
  owned (packets e) refs -> mem_ok (bytes (packets e)) ->
  exists p e', low_level_input e = Some (p, e') /\ handed_over refs (frame_of (held ++ [it])) p (packets e) (packets e') /\
    rx_ring (hw e') (bytes (packets e')) (s + Z.of_nat (length held) + 1) [] its /\ mem_ok (bytes (packets e')) /\ last_tx (hw e') = last_tx (hw e).
Proof.
  intros HR Hl [H HO] Hm. destruct (GetRecvPacket_item _ _ _ _ _ _ HR) as (g'&E&E1&E2&E3&E4&E5&E6&E7&E8&E9&E10&Hco). rewrite Hl in E.
  unfold low_level_input. rewrite (bind_run _ _ _ _ _ (on_hw_run _ _ _ _ E)).
  pose proof (frame_len_bound _ _ _ _ _ HR) as Hfl. rewrite app_cons_assoc, frame_len_app in Hfl.
  destruct (rr_filled _ _ _ _ _ HR (length held) it ltac:(by rewrite list_lookup_middle)) as (_&_&_&_&_&_&_&_&_&Hit).
  assert (Hpos : 0 < frame_len (held ++ [it]) /\ 0 <= frame_len its).
  { unfold frame_len. rewrite frame_of_app, length_app. unfold frame_of at 2. cbn. rewrite app_nil_r. lia. }
  set (fr := held ++ [it]) in *. rewrite (proj2 (Z.eqb_neq (frame_len fr) 0)), u16_small by lia.
  set (e1 := mkEth (packets e) g' (ousem e)).
  destruct (pbuf_alloc_run pool_size (packets e) refs H PBUF_RAW (frame_len fr) PBUF_POOL Hps HO ltac:(lia)) as (p&s1&H1&Ea&Hby&Hcase).
  rewrite (bind_run _ _ _ _ _ (on_packets_run _ e1 _ _ Ea)). set (e2 := with_packets s1 e1).
  (* the packet, filled or not there *)
  assert (Hcopy : exists s3, (when (negb (p =? 0)) (n ← input_fuel; input_loop n p 0 0 0 0)) e2 = Some (tt, with_packets s3 e2) /\
      handed_over refs (frame_of fr) p (packets e) s3 /\ mem_ok (bytes s3) /\ forall a, buf <= a < buf + num * len -> bytes s3 !! a = bytes (packets e) !! a).
  { destruct Hcase as [(->&HO1)|(Hp&HO1&bs&Hc&Hlo&Htot&Hty&_)].
    - exists s1. split; [done|]. split; [left|]. { split; [done|]. split; [by exists H1|]. unfold frame_len in Ea. by rewrite Ea. }
      rewrite Hby. by split.
    - rewrite (proj2 (Z.eqb_neq p 0)) by done. cbn [negb when].
      destruct (pool_addrs _ _ _ _ _ HO1 Hc Hty) as [Hnd Hin]. pose proof (addrs_length _ Hlo) as Hal.
      pose proof (rr_room _ _ _ _ _ HR) as Hroom. rewrite app_cons_assoc, length_app in Hroom. fold fr in Hroom.
      assert (Hfill : forall k x, fr !! k = Some x -> filled (descs g') (bytes s1) (s + Z.of_nat k) x).
      { intros k x Hk. rewrite E2, Hby. apply (rr_filled _ _ _ _ _ HR). rewrite app_cons_assoc. by apply lookup_app_l_Some. }
      assert (Hvs : Forall byte_ok (frame_of fr)) by (eapply read_bytes_ok; [apply Hm|rewrite <- Hby; by eapply (read_segs _ _ s fr)]).
      rewrite (collect_run e2 _ H1 p bs s fr HO1 Hc Hlo Hty Htot); try done; [|by rewrite <- Hby in Hm|lia|lia|].
      2:{ change (rx_buffer_count g' = Z.of_nat (length fr)). unfold fr. rewrite length_app. cbn. lia. }
      eexists. split; [reflexivity|]. cbn [packets e2 with_packets bytes with_bytes]. split; [right|split].
      + split; [done|]. split; [exists H1; destruct HO1; by split|]. exists bs. unfold frame_len in *. split_and!; try done. cbn [with_bytes bytes]. apply read_blit; [done|]. lia.
      + apply mem_ok_blit; [by rewrite Hby|done].
      + intros a Ha. rewrite blit_other, Hby; [done|]. intros Hx. by apply (Hdma a (Hin a Hx)). }
  destruct Hcopy as (s3&E3'&Hho&Hm3&Hsame). rewrite (bind_run _ _ _ _ _ E3').
  destruct (rx_ring_done _ _ (bytes s3) _ _ _ _ g' HR Hl E1 E2 E6 E7 E8 E9 Hsame) as (D&ED&HR'&_).
  rewrite (bind_run _ _ _ _ _ (on_hw_run HW_GMAC_StopRecvPacket (with_packets s3 e2) _ _ ED)).
  destruct (demand_run 7 (RxPoll 0) (mkEth s3 (set_descs D g') (ousem e))) as (g4&E4'&F1&F2&F3&F4&F5&F6&F7&F8).
  exists p, (mkEth s3 g4 (ousem e)). split; [|split; [done|split; [|split; [done|cbn [hw]; rewrite F2; exact E5]]]].
  - unfold bit. rewrite <- bind_assoc_run. rewrite (bind_run _ _ _ _ _ E4'). done.
  - by eapply rx_ring_same; [..|exact HR'].
Qed.

(** *** The controller *)

(** How many segments the last frame has so far, if its end has not come. *)
Fixpoint open_after (n : nat) (its : list item) : nat :=
  match its with [] => n | it :: its' => open_after (if it_last it then 0%nat else S n) its' end.

Lemma open_after_snoc n its it : open_after n (its ++ [it]) = if it_last it then 0%nat else S (open_after n its).
Proof. revert n. induction its as [|x its IH]; intros n; [done|]. apply IH. Qed.

Lemma wf_items_snoc n its it : wf_items (negb (n =? 0)%nat) its -> it_first it = (open_after n its =? 0)%nat -> wf_items (negb (n =? 0)%nat) (its ++ [it]).
Proof.
  revert n. induction its as [|x its IH]; intros n; cbn [wf_items app open_after].
  - intros _ ->. by rewrite negb_involutive.
  - intros [Hx Hw] Hf. split; [done|]. specialize (IH (if it_last x then 0%nat else S n)). destruct (it_last x); by apply IH.
Qed.

(** A segment is written to the buffer of a descriptor. *)
Definition stored_desc (st : Z) (d : GmacDes) : GmacDes :=
  mkDes false st (d_buffer1_size d) (d_buffer2_size d) (d_FS d) (d_LS d) (d_CIC d) (d_chained d) (d_DIC d) (d_buffer1_addr d) (d_next d).
Definition status_of (st : Z) (it : item) : Prop :=
  bit 9 st = it_first it /\ bit 8 st = it_last it /\ GMAC_GET_RX_LENGTH st = Z.of_nat (length (it_bytes it)).
Definition item_ok (it : item) : Prop := Forall byte_ok (it_bytes it) /\ 0 < Z.of_nat (length (it_bytes it)) <= len.

Definition stored (cur st : Z) (it : item) (d : GmacDes) e : eth A :=
  mkEth (with_bytes (packets e) (blit (seqZ (d_buffer1_addr d) (Z.of_nat (length (it_bytes it)))) (it_bytes it) (bytes (packets e))))
    (set_descs (<[cur := stored_desc st d]> (descs (hw e))) (hw e)) (ousem e).

Lemma rx_ring_put e s held its it st d : rx_ring (hw e) (bytes (packets e)) s held its ->
  let cur := slot (s + Z.of_nat (length (held ++ its))) in
  descs (hw e) !! cur = Some d -> d_owner d = true -> status_of st it -> item_ok it -> it_first it = (open_after (length held) its =? 0)%nat ->
  rx_ring (hw (stored cur st it d e)) (bytes (packets (stored cur st it d e))) s held (its ++ [it]) /\ d_next d = slot (s + Z.of_nat (length (held ++ its ++ [it]))).
Proof.
  intros HR cur Hd Hown (H9&H8&Hln) [Hok Hpos] Hfirst. set (n := length (held ++ its)) in *. rewrite app_assoc, length_app. fold n. cbn [length].
  pose proof (rr_room _ _ _ _ _ HR) as Hroom. fold n in Hroom.
  assert (Hlt : Z.of_nat n < num).
  { destruct (Z.lt_ge_cases (Z.of_nat n) num) as [|Hge]; [done|]. destruct (lookup_lt_is_Some_2 (held ++ its) 0%nat ltac:(fold n; lia)) as [x Hx].
    destruct (rr_filled _ _ _ _ _ HR 0%nat x Hx) as (d'&Hd'&Ho&_). unfold cur in Hd. replace (s + Z.of_nat n) with (s + Z.of_nat 0 + num) in Hd by lia.
    rewrite slot_wrap1 in Hd. congruence. }
  destruct (rr_given _ _ _ _ _ HR (Z.of_nat n) ltac:(fold n; lia)) as (d0&Hd0&_&Ha&Hn). fold cur in Hd0. assert (d0 = d) as -> by congruence.
  split; [|rewrite Hn; f_equal; lia]. unfold stored. cbn [hw packets with_bytes bytes set_descs]. rewrite Ha.
  set (m' := blit _ _ _).
  assert (Hslot : forall k, 0 <= k < num -> k <> Z.of_nat n -> cur <> slot (s + k)) by (intros k Hk Hne; apply slot_ne; lia).
  split; cbn [set_descs last_rx descs rx_buffer_list rx_buffer_len rx_desc_start rx_buffer_count rx_buffer_total_len].
  - apply (rr_last _ _ _ _ _ HR).
  - rewrite app_assoc. intros k x [Hk|[Hk Hx]]%lookup_app_Some.
    + pose proof (lookup_lt_Some _ _ _ Hk) as Hkn. fold n in Hkn. apply (filled_frame (descs (hw e)) _ (bytes (packets e))); [|intros a Ha'|by apply (rr_filled _ _ _ _ _ HR)].
      * apply lookup_insert_ne, Hslot; lia.
      * apply blit_other. intros Hin%elem_of_seqZ. apply (buffers_apart (s + Z.of_nat k) (s + Z.of_nat n) a); [|done|lia].
        apply not_eq_sym, Hslot; lia.
    + fold n in Hk, Hx. destruct (k - n)%nat as [|j] eqn:Ek; [|by destruct j]. injection Hx as <-. replace (Z.of_nat k) with (Z.of_nat n) by lia.
      exists (stored_desc st d). fold cur. rewrite lookup_insert_eq. split_and!; try done; try lia. unfold m'. apply read_blit; [apply NoDup_seqZ|]. rewrite length_seqZ. lia.
  - rewrite app_assoc, length_app. fold n. cbn [length]. intros k Hk. destruct (rr_given _ _ _ _ _ HR k ltac:(fold n; lia)) as (d'&Hd'&?&?&?).
    exists d'. rewrite lookup_insert_ne by (apply Hslot; lia). by split_and!.
  - rewrite app_assoc, length_app. fold n. cbn [length]. lia.
  - apply (rr_arrays _ _ _ _ _ HR).
  - apply (rr_start _ _ _ _ _ HR).
  - apply (rr_count _ _ _ _ _ HR).
  - apply (rr_collected _ _ _ _ _ HR).
  - apply (rr_open _ _ _ _ _ HR).
  - pose proof (rr_wf _ _ _ _ _ HR) as Hw. pose proof (wf_items_snoc (length held) its it) as Hs. destruct held; by apply Hs.
Qed.

(** What happens to the ring: it is set up; the controller stores a segment in
    the next descriptor, when that is its own; the driver is called; the rest of
    the stack works on its packets, away from the buffers of the ring.  [cur] is
    where the controller is, [open] how many segments of an unfinished frame it has
    stored (never a whole ring of them), [held] what the driver has
    collected, [its] what waits for it. *)
Inductive receiving : eth A -> (Z -> Z) -> Z -> nat -> list item -> list item -> Prop :=
  | receiving_start dic g0 g e refs : HW_GMAC_InitRxDescriptor dic base num buf len g0 = Some (tt, g) -> hw e = set_last_rx base g ->
      length (rx_buffer_list g0) = Z.to_nat GMAC_DESCRIPTOR_NUM -> length (rx_buffer_len g0) = Z.to_nat GMAC_DESCRIPTOR_NUM ->
      owned (packets e) refs -> mem_ok (bytes (packets e)) -> receiving e refs base 0 [] []
  | receiving_store e refs cur open held its it st d : receiving e refs cur open held its -> descs (hw e) !! cur = Some d -> d_owner d = true ->
      status_of st it -> item_ok it -> it_first it = (open =? 0)%nat -> (it_last it = false -> Z.of_nat (S open) < num) ->
      receiving (stored cur st it d e) refs (d_next d) (if it_last it then 0%nat else S open) held (its ++ [it])
  | receiving_idle e refs cur open held p e' : receiving e refs cur open held [] -> low_level_input e = Some (p, e') -> receiving e' refs cur open held []
  | receiving_part e refs cur open held it its p e' : receiving e refs cur open held (it :: its) -> low_level_input e = Some (p, e') -> it_last it = false ->
      receiving e' refs cur open (held ++ [it]) its
  | receiving_frame e refs cur open held it its p e' : receiving e refs cur open held (it :: its) -> low_level_input e = Some (p, e') -> it_last it = true ->
      receiving e' (bump 1 p refs) cur open [] its
  | receiving_stack e refs cur open held its s refs' : receiving e refs cur open held its -> owned s refs' -> mem_ok (bytes s) ->
      (forall a, buf <= a < buf + num * len -> bytes s !! a = bytes (packets e) !! a) -> receiving (with_packets s e) refs' cur open held its.

Definition rx_inv e (refs : Z -> Z) (cur : Z) (open : nat) (held its : list item) : Prop :=
  exists s, rx_ring (hw e) (bytes (packets e)) s held its /\ owned (packets e) refs /\ mem_ok (bytes (packets e)) /\
    cur = slot (s + Z.of_nat (length (held ++ its))) /\ open = open_after (length held) its /\ Z.of_nat open < num.

Lemma handed_over_owned refs f p s s' : handed_over refs f p s s' -> owned s' (bump 1 p refs).
Proof.
  intros [(->&[H HO]&_)|(_&HO&_)]; [|done]. exists H. eapply refs_ok_ext; [|exact HO]. intros q. apply bump_0.
Qed.

(** A call of the driver, whatever the state of the ring. *)
Lemma rx_inv_input e refs cur open held its : rx_inv e refs cur open held its ->
  exists p e', low_level_input e = Some (p, e') /\
    match its with
    | [] => p = 0 /\ e' = e
    | it :: its' => if it_last it then handed_over refs (frame_of (held ++ [it])) p (packets e) (packets e') /\ rx_inv e' (bump 1 p refs) cur open [] its'
                   else p = 0 /\ packets e' = packets e /\ rx_inv e' refs cur open (held ++ [it]) its'
    end.
Proof.
  intros (s&HR&HO&Hm&->&->&Hop). destruct its as [|it its].
  - exists 0, e. split; [|done]. eapply low_level_input_empty; [exact HR|]. cbn [open_after] in Hop. lia.
  - cbn [open_after] in *. destruct (it_last it) eqn:El.
    + destruct (low_level_input_frame e refs s held it its HR El HO Hm) as (p&e'&E&Hh&HR'&Hm'&_). exists p, e'. split; [done|]. split; [done|].
      exists (s + Z.of_nat (length held) + 1). split_and!; try done.
      * by eapply handed_over_owned.
      * rewrite length_app. cbn [length app]. f_equal. lia.
    + destruct (low_level_input_held e s held it its HR El) as (g'&E&HR'&_). exists 0. eexists. split; [exact E|]. split; [done|]. split; [done|].
      exists s. split_and!; try done; rewrite ?length_app, ?Nat.add_1_r; try done. do 2 f_equal. cbn. lia.
Qed.

Lemma receiving_inv e refs cur open held its : receiving e refs cur open held its -> rx_inv e refs cur open held its.
Proof.
  induction 1 as [dic g0 g e refs E Ehw Hb1 Hb2 HO Hm|e refs cur open held its it st d _ IH Hd Hown Hst Hit Hf Hl|e refs cur open held p e' _ IH E|
      e refs cur open held it its p e' _ IH E El|e refs cur open held it its p e' _ IH E El|e refs cur open held its s refs' _ IH HO Hm Hs].
  - exists 0. destruct (rx_ring_run dic g0) as (D&E'&HD&_). rewrite E in E'. injection E' as ->. rewrite Ehw.
    assert (Hb : base = slot 0) by (unfold slot; rewrite Z.mod_0_l; lia).
    split_and!; try done; [|cbn; lia]. split; try done; cbn; try lia.
    + intros k Hk. rewrite Z.add_0_l. exists (rx_desc dic len (buffer k) (slot (k + 1))). by split_and!.
    + by intros it ?%elem_of_nil.
  - destruct IH as (s&HR&HO&Hm&->&->&Hop).
    destruct (rx_ring_put e s held its it st d HR Hd Hown Hst Hit Hf) as [HR' Hn]. exists s. rewrite Hn, open_after_snoc.
    split_and!; try done; [|apply mem_ok_blit; [done|apply Hit]|destruct (it_last it); [lia|by apply Hl]].
    destruct HO as [H HO]. exists H. destruct HO; by split.
  - destruct (rx_inv_input _ _ _ _ _ _ IH) as (p'&e2&E'&_&->). rewrite E in E'. by injection E' as _ ->.
  - destruct (rx_inv_input _ _ _ _ _ _ IH) as (p'&e2&E'&Hc). rewrite E in E'. injection E' as <- <-. rewrite El in Hc. apply Hc.
  - destruct (rx_inv_input _ _ _ _ _ _ IH) as (p'&e2&E'&Hc). rewrite E in E'. injection E' as <- <-. rewrite El in Hc. apply Hc.
  - destruct IH as (s0&HR&_&_&->&->&Hop). exists s0. cbn [packets hw with_packets]. split_and!; try done.
    destruct HR as []. split; try done. intros k it Hk. eapply filled_frame; [done| |by apply rr_filled0].
    intros a Ha. apply Hs. unfold buffer in Ha. pose proof (Z.mod_pos_bound (s0 + Z.of_nat k) num ltac:(lia)). nia.
Qed.

(** C29 — The driver hands over exactly the frames that the controller has stored, in
    order and unmodified, however the segments arrive between its calls and however
    the ring wraps around: a call of low_level_input returns; without a new segment
    it returns no packet and changes nothing; a segment in the middle of a frame
    is kept and no packet is returned; with the last segment of a frame it returns a
    packet whose bytes are those of all its segments, held by the caller alone; or no packet,
    only when the pool has no memory for one of that length, and then all
    memory taken on the way has been given back. *)
Theorem low_level_input_refines e refs cur open held its : receiving e refs cur open held its ->
  exists p e', low_level_input e = Some (p, e') /\
    match its with
    | [] => p = 0 /\ e' = e
    | it :: _ =>
        if it_last it then handed_over refs (frame_of (held ++ [it])) p (packets e) (packets e')
        else p = 0 /\ packets e' = packets e
    end.
Proof.
  intros HH. destruct (rx_inv_input _ _ _ _ _ _ (receiving_inv _ _ _ _ _ _ HH)) as (p&e'&E&Hc). exists p, e'. split; [done|].
  destruct its as [|it its]; [done|]. destruct (it_last it); [apply Hc|]. split; apply Hc.
Qed.
End ring.
