(* ===== verification/EthernetExamples.v ===== *)
(** * The Ethernet driver at work

    A ring of three buffers over the pools and the heap of [PbufAlloc]: a frame in
    two segments is received, and a packet is sent. *)
From S2P Require Import Prelude Mem Memp MempProofs LwipHeap Pbuf PbufProofs PbufRefs PbufAlloc Ethernet EthernetProofs.
Open Scope Z_scope.

#[local] Instance memory_ex' : PbufMemory memory := memory_ex.
#[local] Instance memory_ex_ok' : PbufMemoryOk memory (fun t => desc_size (stack_pools t)) := memory_ex_ok.

Definition pool_start : Z := 10000 + 10000 * pool_number MEMP_PBUF_POOL.
Definition pool_byte_ex (a : Z) : Prop := pool_start <= a < pool_start + 3232.

Lemma pool_byte_holds a H x n : owns a H -> H !! x = Some (FromPool MEMP_PBUF_POOL, n) -> forall i, x <= i < x + n -> pool_byte_ex i.
Proof.
  intros HO Hx i Hi. destruct (stack_pool_element stack_pools 1000 512 stack_pools_ok (proj1 heap_place) (proj2 heap_place) (fun t => proj2 (stack_pools_size t)) stack_pools_apart a H _ x n HO Hx) as [(k&Hk&->)%elem_of_elements ->].
  rewrite stack_pools_element in Hi. fold pool_start in Hi. change (desc_num (stack_pools MEMP_PBUF_POOL)) with 2 in Hk.
  change (desc_size (stack_pools MEMP_PBUF_POOL)) with 1616 in Hi. unfold pool_byte_ex. lia.
Qed.

Lemma pool_byte_apart i : pool_byte_ex i -> ~ 5000 <= i < 5000 + 3 * 64.
Proof. unfold pool_byte_ex. change pool_start with (ltac:(let x := eval vm_compute in pool_start in exact x)). lia. Qed.

(** Memory for the pool and for the buffers of the ring of the sender. *)
Definition ex_spots : list Z := seqZ pool_start 3232 ++ seqZ 5200 192.
Definition ex_mem : mem := list_to_map ((fun a => (a, 0)) <$> ex_spots).

Lemma zeroed_lookup (l : list Z) a b : NoDup l -> (list_to_map ((fun a => (a, 0)) <$> l) : mem) !! a = Some b <-> b = 0 /\ a ∈ l.
Proof.
  intros Hnd. assert (Hfst : ((fun a => (a, 0)) <$> l).*1 = l) by (rewrite <- list_fmap_compose; apply list_fmap_id). split.
  - intros Hb%elem_of_list_to_map_2. apply list_elem_of_fmap in Hb as (c&[= -> ->]&Hc). by split.
  - intros [-> Hc]. apply elem_of_list_to_map_1; [by rewrite Hfst|]. apply list_elem_of_fmap. by exists a.
Qed.

Lemma ex_mem_lookup a b : ex_mem !! a = Some b <-> b = 0 /\ (pool_byte_ex a \/ 5200 <= a < 5392).
Proof.
  assert (Hin : a ∈ ex_spots <-> pool_byte_ex a \/ 5200 <= a < 5392).
  { unfold ex_spots, pool_byte_ex. rewrite elem_of_app, !elem_of_seqZ. lia. }
  rewrite <- Hin. apply zeroed_lookup. unfold ex_spots. apply NoDup_app. split_and!; [apply NoDup_seqZ| |apply NoDup_seqZ].
  intros x Hx%elem_of_seqZ Hy%elem_of_seqZ. pose proof (pool_number_range MEMP_PBUF_POOL). unfold pool_start in Hx. lia.
Qed.

Lemma ex_mem_bytes : bytes_ok ex_mem.
Proof. intros a b [-> _]%ex_mem_lookup. unfold byte_ok. lia. Qed.

Lemma ex_mem_ok : mem_ok pool_byte_ex ex_mem.
Proof. split; [apply ex_mem_bytes|]. intros i Hi. exists 0. apply ex_mem_lookup. by split; [|left]. Qed.

Lemma start_owned : owned (fun t => desc_size (stack_pools t)) (mkP ∅ ex_mem (alloc stack_start)) (fun _ => 0).
Proof.
  exists ∅. split; cbn [pbufs alloc]; try done.
  - apply (stack_owns_start stack_pools 1000 512 stack_pools_ok (proj1 heap_place) (proj2 heap_place)
      (fun t => proj2 (stack_pools_size t)) stack_pools_apart (mkMemp (fun _ => 0) ∅) (mkHeap ∅ 0)); vm_compute; reflexivity.
  - intros p [? Hp]. by rewrite lookup_empty in Hp.
  - intros p. rewrite lookup_empty. by intros [? ?].
Qed.

(** ** A frame in two segments *)

Definition idle_hw : gmac := mkGmac ∅ 0 0 0 (replicate 32 0) (replicate 32 0) 0 0 0 [].
Definition rx_hw : gmac := from_option snd idle_hw (HW_GMAC_InitRxDescriptor false 4000 3 5000 64 idle_hw).

Definition he : item := mkItem [72; 101] true false.
Definition llo : item := mkItem [108; 108; 111] false true.

Definition rx0 : eth memory := mkEth (mkP ∅ ex_mem (alloc stack_start)) (set_last_rx 4000 rx_hw) None.
Definition rx1 : eth memory := stored 4000 (Z.lor 512 (Z.shiftl 2 16)) he (rx_desc false 64 5000 4016) rx0.
Definition rx2 : eth memory := from_option snd rx1 (low_level_input rx1).
Definition rx3 : eth memory := stored 4016 (Z.lor 256 (Z.shiftl 3 16)) llo (rx_desc false 64 5064 4032) rx2.
Definition rx4 : eth memory := from_option snd rx3 (low_level_input rx3).
Definition rx_packet : Z := from_option fst 0 (low_level_input rx3).

Abbreviation receiving_ex := (receiving 4000 3 5000 64 (fun t => desc_size (stack_pools t)) pool_byte_ex).

Lemma pool_room : 16 + 1600 <= desc_size (stack_pools MEMP_PBUF_POOL).
Proof. by vm_compute. Qed.

Lemma rx2_run : low_level_input rx1 = Some (0, rx2).
Proof. apply result_known. vm_compute. reflexivity. Qed.

Lemma rx4_run : low_level_input rx3 = Some (rx_packet, rx4) /\ rx_packet <> 0.
Proof. split; [apply result_known; vm_compute; reflexivity|by vm_compute]. Qed.

Lemma rx3_receiving : receiving_ex rx3 (fun _ => 0) 4032 0 [he] [llo].
Proof.
  assert (H0 : receiving_ex rx0 (fun _ => 0) 4000 0 [] []).
  { apply (receiving_start _ _ _ _ _ _ false idle_hw rx_hw rx0); [apply result_known; by vm_compute|reflexivity|reflexivity|reflexivity|apply start_owned|apply ex_mem_ok]. }
  assert (H1 : receiving_ex rx1 (fun _ => 0) 4016 1 [] [he]).
  { apply (receiving_store _ _ _ _ _ _ rx0 _ 4000 0 [] [] he _ (rx_desc false 64 5000 4016) H0); [by vm_compute|done|by split_and!| |done|intros _; lia].
    split; [by repeat constructor|cbn; lia]. }
  pose proof (receiving_part _ _ _ _ _ _ rx1 _ _ _ _ _ _ _ _ H1 rx2_run eq_refl) as H2.
  apply (receiving_store _ _ _ _ _ _ rx2 _ 4016 1 [he] [] llo _ (rx_desc false 64 5064 4032) H2); [by vm_compute|done|by split_and!| |done|done].
  split; [by repeat constructor|cbn; lia].
Qed.

Lemma ring_ex : 0 < 3 <= GMAC_DESCRIPTOR_NUM /\ 0 < 64 /\ (0 <= 4000 /\ 4000 + 3 * SIZEOF_DES < 2 ^ 32) /\ (0 <= 5000 /\ 5000 + 3 * 64 < 2 ^ 32) /\ 3 * 64 < 2 ^ 16.
Proof. by vm_compute. Qed.

Lemma low_level_input_refines_witness :
  low_level_input rx3 = Some (rx_packet, rx4) /\ holds_frame (packets rx4) rx_packet [72; 101; 108; 108; 111].
Proof.
  destruct rx4_run as [E Hp]. split; [exact E|]. destruct ring_ex as (H1&H2&H3&H4&H5).
  pose proof (low_level_input_refines 4000 3 5000 64 H1 H2 H3 H4 (fun t => desc_size (stack_pools t)) pool_room H5
    pool_byte_ex pool_byte_holds pool_byte_apart rx3 _ _ _ _ _ rx3_receiving) as Hr. revert E Hp Hr.
  generalize rx3 rx4 rx_packet. intros e3 e4 p E Hp (p'&e'&E'&Hh). rewrite E in E'. injection E' as <- <-.
  destruct Hh as [(Hz&_)|(_&_&Hh)]; [done|exact Hh].
Defined.

(** ** The packet is sent back *)

Definition tx_hw : gmac := from_option snd idle_hw (HW_GMAC_InitTxDescriptor 4100 3 5200 64 idle_hw).
Definition tx0 : eth memory := mkEth (packets rx4) (set_last_tx 4100 tx_hw) None.
Definition tx1 : eth memory := from_option snd tx0 (low_level_output rx_packet tx0).
Definition hello : list (Z * pbuf) := [(rx_packet, default (fresh_pbuf 0 0 0 PBUF_POOL) (pbufs (packets rx4) !! rx_packet))].

Lemma rx4_bytes : bytes_ok (bytes (packets rx4)).
Proof.
  destruct ring_ex as (H1&H2&H3&H4&H5). destruct rx4_run as [E _].
  pose proof (receiving_frame _ _ _ _ _ _ rx3 _ _ _ _ _ _ _ _ rx3_receiving E eq_refl) as HR.
  apply (receiving_inv 4000 3 5000 64 H1 H2 H3 H4 _ pool_room H5 pool_byte_ex pool_byte_holds pool_byte_apart) in HR.
  destruct HR as (s&_&_&Hm&_). apply Hm.
Qed.

Lemma tx_mapped a : 5200 <= a < 5200 + 3 * 64 -> is_Some (bytes (packets rx4) !! a).
Proof.
  intros Ha. assert (HF : bool_decide (Forall (fun a => is_Some (bytes (packets rx4) !! a)) (seqZ 5200 192)) = true) by (vm_compute; reflexivity).
  apply bool_decide_eq_true_1 in HF.
  rewrite Forall_forall in HF. apply HF, elem_of_seqZ. lia.
Qed.

Lemma hello_packet : chain (pbufs (packets tx0)) rx_packet hello /\ lens_ok hello /\ read (addrs hello) (bytes (packets tx0)) = Some [72; 101; 108; 108; 111] /\
  Forall (fun a => ~ 5200 <= a < 5200 + 3 * 64) (addrs hello).
Proof.
  split; [|split; [|split; [vm_compute; reflexivity|]]].
  - unfold hello. cbn [chain]. split_and!; [done|apply rx4_run|vm_compute; reflexivity|vm_compute; reflexivity].
  - split_and!; by vm_compute.
  - apply (bool_decide_eq_true_1 _). vm_compute. reflexivity.
Qed.

Lemma tx_ring_ex : 0 < 3 <= GMAC_DESCRIPTOR_NUM /\ 0 < 64 /\ (0 <= 4100 /\ 4100 + 3 * SIZEOF_DES < 2 ^ 32) /\ (0 <= 5200 /\ 5200 + 3 * 64 < 2 ^ 32) /\ 64 < 2 ^ 11.
Proof. by vm_compute. Qed.

Lemma tx1_run : low_level_output rx_packet tx0 = Some (ERR_OK, tx1).
Proof. apply result_known. vm_compute. reflexivity. Qed.

Lemma tx_sender (s : pstate memory) : bytes_ok (bytes s) -> (forall a, 5200 <= a < 5200 + 3 * 64 -> is_Some (bytes s !! a)) ->
  sender 4100 3 5200 64 (mkEth s (set_last_tx 4100 tx_hw) None) 0 [] true.
Proof.
  intros Hb Hm. destruct tx_ring_ex as (H1&H2&H3&H4&H5). split; cbn [hw packets ousem]; [|done|right; split; reflexivity].
  apply (tx_ring_start 4100 3 5200 64 H1 H2 H3 H4 tx_hw idle_hw); [apply result_known; by vm_compute|done].
Qed.

Lemma tx0_sender : sender 4100 3 5200 64 tx0 0 [] true.
Proof. exact (tx_sender (packets rx4) rx4_bytes tx_mapped). Qed.

Lemma low_level_output_refines_witness :
  low_level_output rx_packet tx0 = Some (ERR_OK, tx1) /\ sender 4100 3 5200 64 tx1 0 [[72; 101; 108; 108; 111]] true.
Proof.
  pose proof tx1_run as E. split; [exact E|]. destruct tx_ring_ex as (H1&H2&H3&H4&H5). destruct hello_packet as (Hc&Hl&Hr&Hd). rewrite Forall_forall in Hd.
  pose proof (low_level_output_refines 4100 3 5200 64 H1 H2 H3 H4 H5 tx0 0 [] true rx_packet hello _ tx0_sender Hc Hl Hr ltac:(cbn; lia) Hd) as Hx.
  revert E Hx. generalize tx0 tx1. intros e0 e1 E (e'&E'&_&_&Hx). rewrite E in E'. injection E' as <-. exact Hx.
Defined.
