(* ===== verification/IpAddr.v ===== *)
(** * IPv4 addresses (core/ipv4/ip4_addr.c, lwip/ip4_addr.h, lwip/netif.h)

    An address is the word [addr] of the structure, whose bytes in memory are those
    of the dotted notation.  A character is an unsigned byte; a string is a
    list of bytes, and what follows its end is the terminator. *)
From S2P Require Import Prelude LwipDef.
Open Scope Z_scope.

(** ** Characters (lwip/arch.h, ctype.h) *)

Definition in_range (c lo up : Z) : bool := (lo <=? c) && (c <=? up).
Definition lwip_isdigit (c : Z) : bool := in_range c 48 57.
Definition lwip_isxdigit (c : Z) : bool := lwip_isdigit c || in_range c 97 102 || in_range c 65 70.
Definition lwip_islower (c : Z) : bool := in_range c 97 122.
Definition lwip_isspace (c : Z) : bool := (c =? 32) || in_range c 9 13.

(** ** The interface, as far as addresses are concerned *)

Record netif := mkNetif { ip_addr : Z; netmask : Z; gw : Z; hwaddr : list Z; flags : Z }.

Definition NETIF_FLAG_BROADCAST : Z := 0x02.
Definition NETIF_FLAG_ETHARP : Z := 0x08.

(** ** Classes of addresses *)

Definition IPADDR_ANY : Z := 0.
Definition IPADDR_BROADCAST : Z := 0xffffffff.
Definition IPADDR_NONE : Z := 0xffffffff.

Definition not32 (x : Z) : Z := u32 (Z.lnot x).

Definition ip4_addr_netcmp (a1 a2 mask : Z) : bool := Z.land a1 mask =? Z.land a2 mask.
Definition ip4_addr_cmp (a1 a2 : Z) : bool := a1 =? a2.
Definition ip4_addr_isany_val (a : Z) : bool := a =? IPADDR_ANY.

Section order.
Context (order : byte_order).

Definition ip4_addr_ismulticast (a : Z) : bool := Z.land a (lwip_htonl order 0xf0000000) =? lwip_htonl order 0xe0000000.
Definition ip4_addr_islinklocal (a : Z) : bool := Z.land a (lwip_htonl order 0xffff0000) =? lwip_htonl order 0xa9fe0000.
Definition ip4_addr_isloopback (a : Z) : bool := Z.land a (lwip_htonl order 0xff000000) =? lwip_htonl order (Z.shiftl 127 24).

Definition IP4_ADDR (a b c d : Z) : Z := lwip_htonl order (LWIP_MAKEU32 a b c d).

(** The byte number [idx] of the address in memory. *)
Definition ip4_addr_get_byte (a idx : Z) : Z :=
  match order with
  | LITTLE_ENDIAN => Z.shiftr a (8 * idx) mod 256
  | BIG_ENDIAN => Z.shiftr a (8 * (3 - idx)) mod 256
  end.
Definition ip4_addr1 (a : Z) : Z := ip4_addr_get_byte a 0.
Definition ip4_addr2 (a : Z) : Z := ip4_addr_get_byte a 1.
Definition ip4_addr3 (a : Z) : Z := ip4_addr_get_byte a 2.
Definition ip4_addr4 (a : Z) : Z := ip4_addr_get_byte a 3.

(** The macro for values shifts, whatever the byte order. *)
Definition ip4_addr_get_byte_val (a idx : Z) : Z := Z.land (Z.shiftr a (idx * 8)) 0xff.

Definition ip4_addr_isbroadcast_u32 (addr : Z) (nif : netif) : bool :=
  if (not32 addr =? IPADDR_ANY) || (addr =? IPADDR_ANY) then true
  else if Z.land (flags nif) NETIF_FLAG_BROADCAST =? 0 then false
  else if addr =? ip_addr nif then false
  else if ip4_addr_netcmp addr (ip_addr nif) (netmask nif)
          && (Z.land addr (not32 (netmask nif)) =? Z.land IPADDR_BROADCAST (not32 (netmask nif))) then true
  else false.

Fixpoint first_zero (n : nat) (nm mask : Z) : Z :=
  match n with
  | O => mask
  | S n' => if negb (mask =? 0) then if Z.land nm mask =? 0 then mask else first_zero n' nm (Z.shiftr mask 1) else mask
  end.

Fixpoint no_more_ones (n : nat) (nm mask : Z) : bool :=
  match n with
  | O => true
  | S n' => if negb (mask =? 0) then if negb (Z.land nm mask =? 0) then false else no_more_ones n' nm (Z.shiftr mask 1) else true
  end.

(** The mask is shifted out after 32 turns. *)
Definition ip4_addr_netmask_valid (nm : Z) : bool :=
  let h := lwip_htonl order nm in
  no_more_ones 33 h (first_zero 33 h (Z.shiftl 1 31)).

(** ** Reading *)

Definition head0 (cp : list Z) : Z := match cp with c :: _ => c | [] => 0 end.

Fixpoint aton_number (base val : Z) (cp : list Z) : Z * list Z :=
  match cp with
  | [] => (val, [])
  | c :: cp' =>
      if lwip_isdigit c then aton_number base (u32 (u32 (val * base) + (c - 48))) cp'
      else if (base =? 16) && lwip_isxdigit c then
        aton_number base (Z.lor (u32 (Z.shiftl val 4)) (c + 10 - (if lwip_islower c then 97 else 65))) cp'
      else (val, cp)
  end.

(** The numbers before a point, the last number, and the rest of the string;
    [room] more numbers fit into the array. *)
Fixpoint aton_parts (room : nat) (parts : list Z) (cp : list Z) : option (list Z * Z * list Z) :=
  if negb (lwip_isdigit (head0 cp)) then None
  else
    let '(base, cp) :=
      if head0 cp =? 48 then
        let cp := tail cp in
        if (head0 cp =? 120) || (head0 cp =? 88) then (16, tail cp) else (8, cp)
      else (10, cp) in
    let '(val, cp) := aton_number base 0 cp in
    if head0 cp =? 46 then
      match room with
      | O => None
      | S room' => aton_parts room' (parts ++ [val]) (tail cp)
      end
    else Some (parts, val, cp).

Definition aton_value (parts : list Z) (val : Z) : option Z :=
  match parts with
  | [] => Some val
  | [a] => if 0xffffff <? val then None else if 0xff <? a then None else Some (Z.lor val (u32 (Z.shiftl a 24)))
  | [a; b] =>
      if 0xffff <? val then None else if (0xff <? a) || (0xff <? b) then None
      else Some (Z.lor val (Z.lor (u32 (Z.shiftl a 24)) (u32 (Z.shiftl b 16))))
  | [a; b; c] =>
      if 0xff <? val then None else if (0xff <? a) || (0xff <? b) || (0xff <? c) then None
      else Some (Z.lor val (Z.lor (Z.lor (u32 (Z.shiftl a 24)) (u32 (Z.shiftl b 16))) (u32 (Z.shiftl c 8))))
  | _ => Some val
  end.

Definition ip4addr_aton (cp : list Z) : option Z :=
  match aton_parts 3 [] cp with
  | None => None
  | Some (parts, val, rest) =>
      if negb (head0 rest =? 0) && negb (lwip_isspace (head0 rest)) then None
      else match aton_value parts val with None => None | Some v => Some (lwip_htonl order v) end
  end.

Definition ipaddr_addr (cp : list Z) : Z := match ip4addr_aton cp with Some a => a | None => IPADDR_NONE end.

(** ** Writing *)

(** The digits of a byte, the last one first. *)
Fixpoint inv_digits (fuel : nat) (v : Z) : list Z :=
  match fuel with
  | O => []
  | S fuel' => (48 + v mod 10) :: (if v / 10 =? 0 then [] else inv_digits fuel' (v / 10))
  end.

(** One more character, if the buffer has room for it. *)
Definition put_char (buflen : Z) (out : list Z) (c : Z) : option (list Z) :=
  if buflen <=? Z.of_nat (length out) then None else Some (out ++ [c]).

Fixpoint put_chars (buflen : Z) (out cs : list Z) : option (list Z) :=
  match cs with [] => Some out | c :: cs' => out ← put_char buflen out c; put_chars buflen out cs' end.

Fixpoint ntoa_bytes (buflen : Z) (out : list Z) (ap : list Z) : option (list Z) :=
  match ap with
  | [] => Some out
  | b :: ap' =>
      out ← put_chars buflen out (reverse (inv_digits 3 b));
      out ← put_char buflen out 46;
      ntoa_bytes buflen out ap'
  end.

(** The bytes in the buffer, the terminator in the place of the last point. *)
Definition ip4addr_ntoa_r (addr buflen : Z) : option (list Z) :=
  out ← ntoa_bytes buflen [] [ip4_addr1 addr; ip4_addr2 addr; ip4_addr3 addr; ip4_addr4 addr];
  Some (take (length out - 1) out ++ [0]).

Definition IP4ADDR_STRLEN_MAX : Z := 16.
Definition ip4addr_ntoa (addr : Z) : option (list Z) := ip4addr_ntoa_r addr IP4ADDR_STRLEN_MAX.
End order.
