(* ===== verification/IpAddrProofs.v ===== *)
(** * Addresses and their notation *)
From S2P Require Import Prelude LwipDef LwipDefProofs IpAddr.
Open Scope Z_scope.

(** ** The bytes of an address *)

Definition addr_ok (a : Z) : Prop := 0 <= a < 2 ^ 32.

Lemma word_bytes x : addr_ok x -> exists a b c d, byte_ok a /\ byte_ok b /\ byte_ok c /\ byte_ok d /\ x = a + 256 * b + 65536 * c + 16777216 * d.
Proof.
  unfold addr_ok, byte_ok. change (2 ^ 32) with 4294967296. intros Hx.
  exists (x mod 256), (x / 256 mod 256), (x / 65536 mod 256), (x / 16777216). dlia.
Qed.

(** The address with these bytes in memory. *)
Lemma addr_bytes order x : addr_ok x -> exists a b c d, byte_ok a /\ byte_ok b /\ byte_ok c /\ byte_ok d /\ x = host32 order a b c d.
Proof.
  intros (a&b&c&d&Ha&Hb&Hc&Hd&->)%word_bytes. destruct order; cbn [host32]; [by exists a, b, c, d|]. by exists d, c, b, a.
Qed.

Lemma get_bytes order a b c d : byte_ok a -> byte_ok b -> byte_ok c -> byte_ok d ->
  ip4_addr1 order (host32 order a b c d) = a /\ ip4_addr2 order (host32 order a b c d) = b /\
  ip4_addr3 order (host32 order a b c d) = c /\ ip4_addr4 order (host32 order a b c d) = d.
Proof.
  unfold byte_ok, ip4_addr1, ip4_addr2, ip4_addr3, ip4_addr4, ip4_addr_get_byte. intros Ha Hb Hc Hd.
  destruct order; cbn [host32]; rewrite !Z.shiftr_div_pow2 by lia;
    change (2 ^ (8 * 0)) with 1; change (2 ^ (8 * 1)) with 256; change (2 ^ (8 * 2)) with 65536; change (2 ^ (8 * 3)) with 16777216;
    change (2 ^ (8 * (3 - 0))) with 16777216; change (2 ^ (8 * (3 - 1))) with 65536; change (2 ^ (8 * (3 - 2))) with 256; change (2 ^ (8 * (3 - 3))) with 1;
    split_and!; dlia.
Qed.

(** ** Classes of addresses by their bytes *)

Lemma land_shifted x m k : 0 <= k -> Z.land x (Z.shiftl m k) = Z.shiftl (Z.land (Z.shiftr x k) m) k.
Proof.
  intros Hk. apply Z.bits_inj'. intros n Hn. rewrite Z.land_spec. destruct (Z.lt_ge_cases n k) as [Hlt|Hge].
  - rewrite !Z.shiftl_spec_low by done. apply andb_false_r.
  - rewrite !Z.shiftl_spec, Z.land_spec, Z.shiftr_spec by lia. do 2 f_equal. lia.
Qed.

Lemma land_field x m k : 0 <= k -> 0 <= m -> Z.land x (Z.shiftl (Z.ones m) k) = x / 2 ^ k mod 2 ^ m * 2 ^ k.
Proof. intros Hk Hm. by rewrite land_shifted, Z.land_ones, Z.shiftr_div_pow2, Z.shiftl_mul_pow2 by lia. Qed.

Lemma ip4_addr_islinklocal_bytes order ip : addr_ok ip -> ip4_addr_islinklocal order ip = true <-> ip4_addr1 order ip = 169 /\ ip4_addr2 order ip = 254.
Proof.
  intros (a&b&c&d&Ha&Hb&Hc&Hd&->)%(addr_bytes order). destruct (get_bytes order a b c d Ha Hb Hc Hd) as (->&->&_&_).
  unfold ip4_addr_islinklocal, byte_ok in *. rewrite Z.eqb_eq. destruct order; cbn [host32].
  - change (lwip_htonl LITTLE_ENDIAN 0xffff0000) with (Z.shiftl (Z.ones 16) 0). change (lwip_htonl LITTLE_ENDIAN 0xa9fe0000) with 65193.
    rewrite land_field by lia. change (2 ^ 0) with 1. change (2 ^ 16) with 65536. dlia.
  - change (lwip_htonl BIG_ENDIAN 0xffff0000) with (Z.shiftl (Z.ones 16) 16). change (lwip_htonl BIG_ENDIAN 0xa9fe0000) with (43518 * 65536).
    rewrite land_field by lia. change (2 ^ 16) with 65536. dlia.
Qed.

Lemma ip4_addr_ismulticast_bytes order ip : addr_ok ip -> ip4_addr_ismulticast order ip = true <-> 224 <= ip4_addr1 order ip < 240.
Proof.
  intros (a&b&c&d&Ha&Hb&Hc&Hd&->)%(addr_bytes order). destruct (get_bytes order a b c d Ha Hb Hc Hd) as (->&_).
  unfold ip4_addr_ismulticast, byte_ok in *. rewrite Z.eqb_eq. destruct order; cbn [host32].
  - change (lwip_htonl LITTLE_ENDIAN 0xf0000000) with (Z.shiftl (Z.ones 4) 4). change (lwip_htonl LITTLE_ENDIAN 0xe0000000) with (14 * 16).
    rewrite land_field by lia. change (2 ^ 4) with 16. dlia.
  - change (lwip_htonl BIG_ENDIAN 0xf0000000) with (Z.shiftl (Z.ones 4) 28). change (lwip_htonl BIG_ENDIAN 0xe0000000) with (14 * 268435456).
    rewrite land_field by lia. change (2 ^ 4) with 16. change (2 ^ 28) with 268435456. dlia.
Qed.

Lemma ip4_addr_isloopback_bytes order ip : addr_ok ip -> ip4_addr_isloopback order ip = true <-> ip4_addr1 order ip = 127.
Proof.
  intros (a&b&c&d&Ha&Hb&Hc&Hd&->)%(addr_bytes order). destruct (get_bytes order a b c d Ha Hb Hc Hd) as (->&_).
  unfold ip4_addr_isloopback, byte_ok in *. rewrite Z.eqb_eq. change (Z.shiftl 127 24) with 0x7f000000. destruct order; cbn [host32].
  - change (lwip_htonl LITTLE_ENDIAN 0xff000000) with (Z.shiftl (Z.ones 8) 0). change (lwip_htonl LITTLE_ENDIAN 0x7f000000) with 127.
    rewrite land_field by lia. change (2 ^ 0) with 1. change (2 ^ 8) with 256. dlia.
  - change (lwip_htonl BIG_ENDIAN 0xff000000) with (Z.shiftl (Z.ones 8) 24). change (lwip_htonl BIG_ENDIAN 0x7f000000) with (127 * 16777216).
    rewrite land_field by lia. change (2 ^ 8) with 256. change (2 ^ 24) with 16777216. dlia.
Qed.

Lemma makeu32 a b c d : byte_ok a -> byte_ok b -> byte_ok c -> byte_ok d ->
  Z.lor d (Z.lor (Z.lor (u32 (Z.shiftl a 24)) (u32 (Z.shiftl b 16))) (u32 (Z.shiftl c 8))) = d + 256 * c + 65536 * b + 16777216 * a.
Proof.
  unfold byte_ok. intros Ha Hb Hc Hd. rewrite !Z.shiftl_mul_pow2, !u32_small by lia. rewrite (Z.lor_comm d).
  rewrite (Z.mul_comm a). rewrite (lor_sum a _ 24) by lia. replace (2 ^ 24 * a + b * 2 ^ 16) with (2 ^ 16 * (2 ^ 8 * a + b)) by lia.
  rewrite (lor_sum _ _ 16) by lia. replace (2 ^ 16 * (2 ^ 8 * a + b) + c * 2 ^ 8) with (2 ^ 8 * (2 ^ 16 * a + 2 ^ 8 * b + c)) by lia.
  rewrite (lor_sum _ _ 8) by lia. lia.
Qed.

Lemma htonl_makeu32 order a b c d : byte_ok a -> byte_ok b -> byte_ok c -> byte_ok d ->
  lwip_htonl order (d + 256 * c + 65536 * b + 16777216 * a) = host32 order a b c d.
Proof.
  intros Ha Hb Hc Hd. destruct order; cbn [lwip_htonl host32]; [rewrite PP_HTONL_spec by done; lia|]. apply u32_small. unfold byte_ok in *. lia.
Qed.

(** ** Decimal numbers *)

Definition decimal (b : Z) : list Z :=
  if b <? 10 then [48 + b] else if b <? 100 then [48 + b / 10; 48 + b mod 10] else [48 + b / 100; 48 + b / 10 mod 10; 48 + b mod 10].

Lemma inv_digits_decimal b : byte_ok b -> reverse (inv_digits 3 b) = decimal b.
Proof.
  unfold byte_ok, decimal. intros Hb. cbn [inv_digits]. destruct (Z.ltb_spec b 10), (Z.eqb_spec (b / 10) 0); try dlia.
  - by replace (b mod 10) with b by dlia.
  - destruct (Z.ltb_spec b 100), (Z.eqb_spec (b / 10 / 10) 0); try dlia.
    + by replace (b / 10 mod 10) with (b / 10) by dlia.
    + destruct (Z.eqb_spec (b / 10 / 10 / 10) 0); [|dlia]. by replace (b / 10 / 10 mod 10) with (b / 100) by dlia.
Qed.

Lemma decimal_length b : 1 <= Z.of_nat (length (decimal b)) <= 3.
Proof. unfold decimal. repeat case_match; cbn; lia. Qed.

Lemma digit_ok k : 0 <= k < 10 -> lwip_isdigit (48 + k) = true.
Proof. unfold lwip_isdigit, in_range. lia. Qed.

Lemma aton_digit base val k cp : 0 <= k < 10 -> aton_number base val (48 + k :: cp) = aton_number base (u32 (u32 (val * base) + k)) cp.
Proof. intros Hk. cbn [aton_number]. rewrite digit_ok by done. do 3 f_equal. lia. Qed.

(** What may follow a number. *)
Definition stops (cp : list Z) : Prop := head0 cp = 46 \/ head0 cp = 0 \/ lwip_isspace (head0 cp) = true.

Lemma aton_number_end base val cp : stops cp -> aton_number base val cp = (val, cp).
Proof.
  destruct cp as [|c cp]; [done|]. intros Hc. unfold stops in Hc. cbn [head0 aton_number] in *. unfold lwip_isspace, lwip_isxdigit, lwip_isdigit, in_range in *.
  destruct (Z.leb_spec 48 c), (Z.leb_spec c 57); cbn [andb orb]; try lia.
  all: destruct (Z.leb_spec 97 c), (Z.leb_spec c 102), (Z.leb_spec 65 c), (Z.leb_spec c 70); cbn [andb orb]; try lia; by rewrite andb_false_r.
Qed.

(** One number of an address is read. *)
Lemma aton_decimal room parts b cp : byte_ok b -> stops cp ->
  aton_parts room parts (decimal b ++ cp) =
    if head0 cp =? 46 then match room with O => None | S room' => aton_parts room' (parts ++ [b]) (tail cp) end else Some (parts, b, cp).
Proof.
  unfold byte_ok. intros Hb Hcp.
  assert (Hnum : forall d ds, decimal b = 48 + d :: ds -> 0 < d < 10 -> aton_number 10 0 (decimal b ++ cp) = (b, cp) ->
    aton_parts room parts (decimal b ++ cp) =
    if head0 cp =? 46 then match room with O => None | S room' => aton_parts room' (parts ++ [b]) (tail cp) end else Some (parts, b, cp)).
  { intros d ds E Hd Hn. rewrite E in *. cbn [app] in *. destruct room; cbn [aton_parts head0]; rewrite digit_ok by lia; cbn [negb];
      (destruct (Z.eqb_spec (48 + d) 48); [lia|]); by rewrite Hn. }
  destruct (Z.eq_dec b 0) as [->|Hb0].
  { change (decimal 0) with [48]. cbn [app]. assert (Hc : (head0 cp =? 120) || (head0 cp =? 88) = false).
    { unfold stops, lwip_isspace, in_range in Hcp. lia. }
    destruct room; cbn [aton_parts head0 tail]; change (48 =? 48) with true; change (lwip_isdigit 48) with true; cbn [negb]; rewrite Hc; by rewrite aton_number_end. }
  assert (Hd : 0 <= b / 100 <= 2 /\ 0 <= b / 10 mod 10 < 10 /\ 0 <= b mod 10 < 10 /\ 0 <= b / 10 <= 25 /\ b = 10 * (b / 10) + b mod 10 /\ b / 10 = 10 * (b / 100) + b / 10 mod 10) by dlia.
  unfold decimal in *. destruct (Z.ltb_spec b 10); [|destruct (Z.ltb_spec b 100)];
    (eapply Hnum; [reflexivity|lia|]); cbn [app]; rewrite !aton_digit by lia; rewrite aton_number_end by done; f_equal; words; lia.
Qed.

(** ** Writing *)

Lemma put_chars_run buflen out cs : Z.of_nat (length out + length cs) <= buflen -> put_chars buflen out cs = Some (out ++ cs).
Proof.
  revert out. induction cs as [|c cs IH]; intros out Hl; cbn [put_chars]; [by rewrite app_nil_r|]. cbn [length] in Hl.
  unfold put_char. rewrite (proj2 (Z.leb_gt _ _)) by lia. cbn [mbind option_bind]. rewrite IH by (rewrite length_app; cbn; lia). by rewrite <- app_assoc.
Qed.

Lemma ntoa_bytes_run buflen out ap : Forall byte_ok ap -> Z.of_nat (length out + 4 * length ap) <= buflen ->
  ntoa_bytes buflen out ap = Some (out ++ mjoin ((fun b => decimal b ++ [46]) <$> ap)).
Proof.
  intros Hap. revert out. induction Hap as [|b ap Hb _ IH]; intros out Hl; cbn [ntoa_bytes]; [by rewrite app_nil_r|].
  cbn [length] in Hl. rewrite inv_digits_decimal by done. pose proof (decimal_length b). rewrite put_chars_run by lia. cbn [mbind option_bind].
  unfold put_char. rewrite (proj2 (Z.leb_gt _ _)) by (rewrite length_app; lia). cbn [mbind option_bind].
  rewrite IH by (rewrite !length_app; cbn; lia). cbn [fmap list_fmap mjoin list_join]. by rewrite <- !app_assoc.
Qed.

(** C31 — Every address is written, in a buffer of 16 bytes or more, as a string of at most 15
    characters with its terminator, in the dotted notation of the four bytes in
    memory, on either byte order; and the string, alone or before a space, is read back as the same
    address. *)
Theorem ip4addr_ntoa_aton order addr buflen : addr_ok addr -> IP4ADDR_STRLEN_MAX <= buflen ->
  exists s, ip4addr_ntoa_r order addr buflen = Some (s ++ [0]) /\ (length s <= 15)%nat /\
    s = decimal (ip4_addr1 order addr) ++ 46 :: decimal (ip4_addr2 order addr) ++ 46 :: decimal (ip4_addr3 order addr) ++ 46 :: decimal (ip4_addr4 order addr) /\
    forall rest, head0 rest = 0 \/ lwip_isspace (head0 rest) = true -> ip4addr_aton order (s ++ rest) = Some addr.
Proof.
  intros (a&b&c&d&Ha&Hb&Hc&Hd&->)%(addr_bytes order) Hbuf. destruct (get_bytes order a b c d Ha Hb Hc Hd) as (E1&E2&E3&E4). unfold IP4ADDR_STRLEN_MAX in Hbuf.
  unfold ip4addr_ntoa_r. rewrite E1, E2, E3, E4.
  assert (Hall : Forall byte_ok [a; b; c; d]) by (rewrite !Forall_cons; by split_and!).
  rewrite (ntoa_bytes_run buflen [] _ Hall) by (cbn; lia). cbn [mbind option_bind fmap list_fmap mjoin list_join app].
  set (s := decimal a ++ 46 :: decimal b ++ 46 :: decimal c ++ 46 :: decimal d). exists s.
  assert (Es : (decimal a ++ [46]) ++ (decimal b ++ [46]) ++ (decimal c ++ [46]) ++ (decimal d ++ [46]) ++ [] = s ++ [46]).
  { unfold s. rewrite app_nil_r. repeat (rewrite <- app_assoc; cbn [app]). done. }
  rewrite Es. split; [|split; [|split; [done|]]].
  - rewrite length_app. cbn [length]. replace (length s + 1 - 1)%nat with (length s) by lia. by rewrite take_app_length.
  - unfold s. rewrite !length_app. cbn [length]. rewrite !length_app. cbn [length]. rewrite length_app. cbn [length].
    pose proof (decimal_length a). pose proof (decimal_length b). pose proof (decimal_length c). pose proof (decimal_length d). lia.
  - intros rest Hrest. unfold ip4addr_aton, s. repeat (rewrite <- app_assoc; cbn [app]).
    rewrite aton_decimal by (done || by left). cbn [head0 tail app]. rewrite Z.eqb_refl.
    rewrite aton_decimal by (done || by left). cbn [head0 tail app]. rewrite Z.eqb_refl.
    rewrite aton_decimal by (done || by left). cbn [head0 tail app]. rewrite Z.eqb_refl.
    assert (Hst : stops rest) by (destruct Hrest; [right; by left|right; by right]).
    rewrite aton_decimal by done. assert (Hdot : (head0 rest =? 46) = false).
    { apply Z.eqb_neq. intros E. rewrite E in Hrest. destruct Hrest as [|Hs]; [lia|by vm_compute in Hs]. } rewrite Hdot.
    assert (Hend : negb (head0 rest =? 0) && negb (lwip_isspace (head0 rest)) = false) by (destruct Hrest as [->|Hs]; [done|rewrite Hs; by rewrite andb_false_r]).
    rewrite Hend. cbn [aton_value]. unfold byte_ok in Ha, Hb, Hc, Hd. rewrite !(proj2 (Z.ltb_ge 0xff _)) by lia. cbn [orb].
    rewrite makeu32, htonl_makeu32 by (unfold byte_ok; lia). done.
Qed.

Lemma ip4addr_ntoa_aton_witness : exists s, ip4addr_ntoa_r LITTLE_ENDIAN 0x0100a8c0 16 = Some (s ++ [0]) /\ s = [49; 57; 50; 46; 49; 54; 56; 46; 48; 46; 49] /\ ip4addr_aton LITTLE_ENDIAN s = Some 0x0100a8c0.
Proof.
  destruct (ip4addr_ntoa_aton LITTLE_ENDIAN 0x0100a8c0 16 ltac:(unfold addr_ok; lia) ltac:(unfold IP4ADDR_STRLEN_MAX; lia)) as (s&E&_&Es&Hr).
  exists s. split; [exact E|]. split; [rewrite Es; vm_compute; reflexivity|]. rewrite <- (app_nil_r s). apply Hr. by left.
Defined.

(** ** Masks *)

Lemma land_bit h j : 0 <= j -> (Z.land h (2 ^ j) =? 0) = negb (Z.testbit h j).
Proof.
  intros Hj. destruct (Z.testbit h j) eqn:E; cbn [negb].
  - apply Z.eqb_neq. intros H0. apply (f_equal (fun x => Z.testbit x j)) in H0. rewrite Z.land_spec, E, Z.pow2_bits_true, Z.bits_0 in H0 by done. done.
  - apply Z.eqb_eq. apply Z.bits_inj_0. intros i. rewrite Z.land_spec. destruct (Z.eq_dec i j) as [->|Hne]; [by rewrite E|].
    rewrite Z.pow2_bits_false by done. apply andb_false_r.
Qed.

Lemma next_mask j : 0 <= j -> Z.shiftr (2 ^ j) 1 = if j =? 0 then 0 else 2 ^ (j - 1).
Proof.
  intros Hj. rewrite Z.shiftr_div_pow2 by lia. destruct (Z.eqb_spec j 0) as [->|Hne]; [done|].
  replace j with (j - 1 + 1) at 1 by lia. rewrite Z.pow_add_r by lia. by rewrite Z.div_mul.
Qed.

Lemma mod_top_bit h j : 0 <= j -> h mod 2 ^ (j + 1) = 2 ^ j * Z.b2z (Z.testbit h j) + h mod 2 ^ j.
Proof.
  intros Hj. rewrite Z.testbit_spec' by done. rewrite Z.pow_add_r by lia. change (2 ^ 1) with 2.
  assert (0 < 2 ^ j) by lia. rewrite Z.rem_mul_r by lia. lia.
Qed.

Lemma no_more_ones_spec n h j : 0 <= j -> j + 1 < Z.of_nat n -> no_more_ones n h (2 ^ j) = (h mod 2 ^ (j + 1) =? 0).
Proof.
  revert j. induction n as [|n IH]; intros j Hj Hn; [lia|]. cbn [no_more_ones]. assert (0 < 2 ^ j) by lia.
  rewrite (proj2 (Z.eqb_neq (2 ^ j) 0)) by lia. cbn [negb]. rewrite land_bit, negb_involutive, mod_top_bit by done.
  pose proof (Z.mod_pos_bound h (2 ^ j) ltac:(lia)). destruct (Z.testbit h j); cbn [Z.b2z].
  - symmetry. apply Z.eqb_neq. lia.
  - rewrite next_mask, Z.mul_0_r by done. destruct (Z.eqb_spec j 0) as [->|Hj0].
    + destruct n; [lia|]. rewrite Z.pow_0_r, Z.mod_1_r. done.
    + rewrite IH by lia. by replace (j - 1 + 1) with j by lia.
Qed.

(** Below bit [j] there are ones and then zeros. *)
Definition prefix_from (h j : Z) : Prop := exists k, 0 <= k <= j + 1 /\ h mod 2 ^ (j + 1) = 2 ^ (j + 1) - 2 ^ k.

Lemma prefix_from_ones h j : 0 <= j -> Z.testbit h j = true -> prefix_from h j <-> j = 0 \/ prefix_from h (j - 1).
Proof.
  intros Hj E. unfold prefix_from. rewrite mod_top_bit, E by done. cbn [Z.b2z]. replace (j - 1 + 1) with j by lia.
  rewrite Z.pow_add_r by lia. change (2 ^ 1) with 2. assert (0 < 2 ^ j) by lia. pose proof (Z.mod_pos_bound h (2 ^ j) ltac:(lia)). split.
  - intros (k&Hk&Ek). destruct (Z.eq_dec k (j + 1)) as [->|Hne].
    + rewrite Z.pow_add_r in Ek by lia. change (2 ^ 1) with 2 in Ek. lia.
    + right. exists k. split; [lia|lia].
  - intros [->|(k&Hk&Ek)]; [exists 0; rewrite Z.pow_0_r, Z.mod_1_r; lia|]. exists k. lia.
Qed.

Lemma netmask_loops n h j : 0 <= j -> j + 1 < Z.of_nat n <= 33 -> no_more_ones 33 h (first_zero n h (2 ^ j)) = true <-> prefix_from h j.
Proof.
  revert j. induction n as [|n IH]; intros j Hj Hn; [lia|]. cbn [first_zero]. assert (0 < 2 ^ j) by lia.
  rewrite (proj2 (Z.eqb_neq (2 ^ j) 0)) by lia. cbn [negb]. rewrite land_bit by done. destruct (Z.testbit h j) eqn:E; cbn [negb].
  - rewrite prefix_from_ones by done. rewrite next_mask by done. destruct (Z.eqb_spec j 0) as [->|Hj0].
    + destruct n; [lia|]. split; [by left|done].
    + rewrite IH by lia. split; [by right|intros [?|?]; [lia|done]].
  - rewrite no_more_ones_spec by lia. rewrite Z.eqb_eq. unfold prefix_from. split.
    + intros H0. exists (j + 1). rewrite H0. lia.
    + intros (k&Hk&Ek). destruct (Z.eq_dec k (j + 1)) as [->|Hne]; [lia|]. exfalso. rewrite mod_top_bit, E in Ek by done. cbn [Z.b2z] in Ek.
      pose proof (Z.mod_pos_bound h (2 ^ j) ltac:(lia)). rewrite Z.pow_add_r in Ek by lia. change (2 ^ 1) with 2 in Ek.
      pose proof (Z.pow_le_mono_r 2 k j ltac:(lia) ltac:(lia)). lia.
Qed.

(** A mask is valid exactly if, in the order of the notation, it is a number of ones
    and then zeros. *)
Theorem ip4_addr_netmask_valid_spec order nm : addr_ok nm ->
  ip4_addr_netmask_valid order nm = true <-> exists k, 0 <= k <= 32 /\ lwip_htonl order nm = 2 ^ 32 - 2 ^ k.
Proof.
  intros Hnm. unfold ip4_addr_netmask_valid. change (Z.shiftl 1 31) with (2 ^ 31). rewrite (netmask_loops 33 _ 31) by lia. unfold prefix_from.
  assert (Hr : 0 <= lwip_htonl order nm < 2 ^ (31 + 1)).
  { destruct (addr_bytes order nm Hnm) as (a&b&c&d&Ha&Hb&Hc&Hd&->). destruct order; cbn [lwip_htonl host32].
    - rewrite PP_HTONL_spec by done. unfold byte_ok in *. lia.
    - apply u32_range. }
  rewrite Z.mod_small by done. done.
Qed.

(** 255.255.240.0 is a mask. *)
Lemma ip4_addr_netmask_valid_witness : addr_ok 0x00f0ffff /\ ip4_addr_netmask_valid LITTLE_ENDIAN 0x00f0ffff = true.
Proof.
  assert (H : addr_ok 0x00f0ffff) by (unfold addr_ok; lia). split; [exact H|].
  apply (ip4_addr_netmask_valid_spec LITTLE_ENDIAN 0x00f0ffff H). exists 12. split; [lia|by vm_compute].
Defined.
