(* ===== verification/EthFrames.v ===== *)
(** * Frames (netif/ethernet.c, the packets of core/ipv4/etharp.c)

    What the address resolution does with packets: the Ethernet header is put in
    front of a packet, ARP packets are made, a packet is taken over for
    a queue.  Sending a frame is up to the driver of the interface, the class
    [Link]; an interface is known by its number.  Without VLAN and padding. *)
From S2P Require Import Prelude Mem Pbuf LwipDef IpAddr.
Open Scope Z_scope.

(** The driver of an interface sends a packet that starts with the Ethernet header. *)
Class Link (A L : Type) := linkoutput : Z -> Z -> prog (pstate A * L) err_t.

Definition ETH_HWADDR_LEN : Z := 6.
Definition SIZEOF_ETH_HDR : Z := 14.
Definition SIZEOF_ETHARP_HDR : Z := 28.
Definition ETHTYPE_IP : Z := 0x0800.
Definition ETHTYPE_ARP : Z := 0x0806.
Definition LWIP_IANA_HWTYPE_ETHERNET : Z := 1.
Definition ARP_REQUEST : Z := 1.
Definition ARP_REPLY : Z := 2.
Definition ethbroadcast : list Z := [0xff; 0xff; 0xff; 0xff; 0xff; 0xff].
Definition ethzero : list Z := [0; 0; 0; 0; 0; 0].

(** The words of a header in memory. *)
Definition bytes16 (order : byte_order) (v : Z) : list Z :=
  match order with LITTLE_ENDIAN => [v mod 256; v / 256] | BIG_ENDIAN => [v / 256; v mod 256] end.
Definition bytes32 (order : byte_order) (v : Z) : list Z := [ip4_addr1 order v; ip4_addr2 order v; ip4_addr3 order v; ip4_addr4 order v].

Section frames.
Context (order : byte_order) {A L : Type} `{!PbufMemory A} `{!Link A L}.

(** The packets and the driver. *)
Abbreviation W := (prog (pstate A * L)).

Definition on_packets {B} (p : prog (pstate A) B) : W B := fun w => '(x, s) ← p (fst w); Some (x, (s, snd w)).

Definition store_at (a : Z) (bs : list Z) : W unit :=
  on_packets (try_update (fun s => m ← store_bytes a bs (bytes s); Some (mkP (pbufs s) m (alloc s)))).
Definition load_at (a : Z) (n : nat) : W (list Z) := on_packets (try_ask (fun s => load_bytes n a (bytes s))).

Definition ethernet_output (n p : Z) (src dst : list Z) (eth_type : Z) : W err_t :=
  let eth_type_be := lwip_htons order eth_type in
  r ← on_packets (pbuf_add_header p SIZEOF_ETH_HDR);
  if negb (r =? 0) then mret ERR_BUF
  else
    b ← on_packets (pb p);
    let ethhdr := p_payload b in
    _ ← store_at (ethhdr + 12) (bytes16 order eth_type_be);
    _ ← store_at ethhdr dst;
    _ ← store_at (ethhdr + 6) src;
    linkoutput n p.

(** The fields of the header in the order of the assignments: the operation, the
    addresses, the constants. *)
Definition etharp_raw (n : Z) (ethsrc_addr ethdst_addr hwsrc_addr : list Z) (ipsrc_addr : Z) (hwdst_addr : list Z) (ipdst_addr opcode : Z) : W err_t :=
  p ← on_packets (pbuf_alloc PBUF_LINK SIZEOF_ETHARP_HDR PBUF_RAM);
  if p =? 0 then mret ERR_MEM
  else
    b ← on_packets (pb p);
    let hdr := p_payload b in
    _ ← store_at (hdr + 6) (bytes16 order (lwip_htons order opcode));
    _ ← store_at (hdr + 8) hwsrc_addr;
    _ ← store_at (hdr + 18) hwdst_addr;
    _ ← store_at (hdr + 14) (bytes32 order ipsrc_addr);
    _ ← store_at (hdr + 24) (bytes32 order ipdst_addr);
    _ ← store_at hdr (bytes16 order (lwip_htons order LWIP_IANA_HWTYPE_ETHERNET));
    _ ← store_at (hdr + 2) (bytes16 order (lwip_htons order ETHTYPE_IP));
    _ ← store_at (hdr + 4) [ETH_HWADDR_LEN];
    _ ← store_at (hdr + 5) [4];
    _ ← ethernet_output n p ethsrc_addr ethdst_addr ETHTYPE_ARP;
    _ ← on_packets (pbuf_free p);
    mret ERR_OK.

Definition PBUF_NEEDS_COPY (b : pbuf) : bool := negb (Z.land (p_type_internal b) PBUF_TYPE_FLAG_DATA_VOLATILE =? 0).

Fixpoint copy_needed (fuel : nat) (p : Z) : prog (pstate A) bool :=
  match fuel with
  | O => fun _ => None
  | S fuel' => if p =? 0 then mret false else b ← pb p; if PBUF_NEEDS_COPY b then mret true else copy_needed fuel' (p_next b)
  end.

(** A packet for a queue: a copy when its data may change, or a reference. *)
Definition take_over (p : Z) : prog (pstate A) Z :=
  n ← chain_fuel;
  c ← copy_needed n p;
  if (c : bool) then pbuf_clone PBUF_LINK PBUF_RAM p else _ ← pbuf_ref p; mret p.
End frames.
