(* ===== verification/Etharp.v ===== *)
(** * Address resolution (core/ipv4/etharp.c, netif/ethernet.c)

    The table maps addresses of the network to addresses of the hardware; packets
    wait in the queue of an entry until its address is known.  The elements of the queues come from a pool of their own, the class
    [ArpQueue]; a queue is the list of its elements with their packets, since only
    its entry points to it.  With static entries, hints, AUTOIP and DHCP off. *)
From S2P Require Import Prelude Mem Pbuf LwipDef IpAddr EthFrames.
Open Scope Z_scope.

Class ArpQueue (Q : Type) := { arpq_malloc : prog Q Z; arpq_free : Z -> prog Q unit }.

Inductive etharp_state :=
  | ETHARP_STATE_EMPTY | ETHARP_STATE_PENDING | ETHARP_STATE_STABLE | ETHARP_STATE_STABLE_REREQUESTING_1 | ETHARP_STATE_STABLE_REREQUESTING_2.

#[export] Instance etharp_state_eq_dec : EqDecision etharp_state.
Proof. solve_decision. Defined.

(** state >= ETHARP_STATE_STABLE *)
Definition is_stable (st : etharp_state) : bool :=
  match st with ETHARP_STATE_EMPTY | ETHARP_STATE_PENDING => false | _ => true end.

Record etharp_entry := mkEntry { q : list (Z * Z); ipaddr : Z; nif : Z; ethaddr : list Z; ctime : Z; state : etharp_state }.

Definition with_q (v : list (Z * Z)) (e : etharp_entry) : etharp_entry := mkEntry v (ipaddr e) (nif e) (ethaddr e) (ctime e) (state e).
Definition with_ipaddr (v : Z) (e : etharp_entry) : etharp_entry := mkEntry (q e) v (nif e) (ethaddr e) (ctime e) (state e).
Definition with_nif (v : Z) (e : etharp_entry) : etharp_entry := mkEntry (q e) (ipaddr e) v (ethaddr e) (ctime e) (state e).
Definition with_ethaddr (v : list Z) (e : etharp_entry) : etharp_entry := mkEntry (q e) (ipaddr e) (nif e) v (ctime e) (state e).
Definition with_ctime (v : Z) (e : etharp_entry) : etharp_entry := mkEntry (q e) (ipaddr e) (nif e) (ethaddr e) v (state e).
Definition with_arp_state (v : etharp_state) (e : etharp_entry) : etharp_entry := mkEntry (q e) (ipaddr e) (nif e) (ethaddr e) (ctime e) v.

Definition ARP_TABLE_SIZE : Z := 10.
Definition ARP_MAXAGE : Z := 300.
Definition ARP_AGE_REREQUEST_USED_UNICAST : Z := ARP_MAXAGE - 30.
Definition ARP_AGE_REREQUEST_USED_BROADCAST : Z := ARP_MAXAGE - 15.
Definition ARP_MAXPENDING : Z := 5.
Definition ARP_QUEUE_LEN : Z := 3.
Definition ETHARP_FLAG_TRY_HARD : Z := 1.
Definition ETHARP_FLAG_FIND_ONLY : Z := 2.

Definition PBUF_FLAG_LLBCAST : Z := 0x08.
Definition PBUF_FLAG_LLMCAST : Z := 0x10.

(** The result of a search: a place of the table, or an error. *)
Inductive found := At (i : Z) | NotFound (e : err_t).

Section etharp.
Context (order : byte_order) {A L Q : Type} `{!PbufMemory A} `{!Link A L} `{!ArpQueue Q}.

Record arp := mkArp {
  a_table : list etharp_entry; etharp_cached_entry : Z; a_netifs : gmap Z netif; a_frames : pstate A * L; a_pool : Q }.

Abbreviation R := (prog arp).

Definition on_frames {B} (p : prog (pstate A * L) B) : R B := fun s =>
  '(x, w) ← p (a_frames s); Some (x, mkArp (a_table s) (etharp_cached_entry s) (a_netifs s) w (a_pool s)).
Definition on_pool {B} (p : prog Q B) : R B := fun s =>
  '(x, c) ← p (a_pool s); Some (x, mkArp (a_table s) (etharp_cached_entry s) (a_netifs s) (a_frames s) c).

Definition set_table (t : list etharp_entry) (s : arp) : arp := mkArp t (etharp_cached_entry s) (a_netifs s) (a_frames s) (a_pool s).
Definition ETHARP_SET_ADDRHINT (i : Z) : R unit := update (fun s => mkArp (a_table s) i (a_netifs s) (a_frames s) (a_pool s)).

(** Outside of the table, and without an interface, there is nothing to be read. *)
Definition entry (i : Z) : R etharp_entry := try_ask (fun s => if 0 <=? i then a_table s !! Z.to_nat i else None).
Definition set_entry (i : Z) (f : etharp_entry -> etharp_entry) : R unit :=
  try_update (fun s => if 0 <=? i then e ← a_table s !! Z.to_nat i; Some (set_table (<[Z.to_nat i := f e]> (a_table s)) s) else None).
Definition get_netif (n : Z) : R netif := try_ask (fun s => a_netifs s !! n).

Definition no_element : R unit := fun _ => None.

(** ** Requests *)

Definition etharp_request_dst (n ip : Z) (hw_dst_addr : list Z) : R err_t :=
  f ← get_netif n; on_frames (etharp_raw order n (hwaddr f) hw_dst_addr (hwaddr f) (ip_addr f) ethzero ip ARP_REQUEST).

Definition etharp_request (n ip : Z) : R err_t := etharp_request_dst n ip ethbroadcast.

(** ** The table *)

Fixpoint free_etharp_q (l : list (Z * Z)) : R unit :=
  match l with [] => mret tt | (r, p) :: l' => _ ← on_frames (on_packets (pbuf_free p)); _ ← on_pool (arpq_free r); free_etharp_q l' end.

Definition etharp_free_entry (i : Z) : R unit :=
  e ← entry i;
  _ ← when (negb (bool_decide (q e = []))) (_ ← free_etharp_q (q e); set_entry i (with_q []));
  set_entry i (with_arp_state ETHARP_STATE_EMPTY).

Definition tmr_entry (i : Z) : R unit :=
  e ← entry i;
  if bool_decide (state e = ETHARP_STATE_EMPTY) then mret tt
  else
    _ ← set_entry i (with_ctime (u16 (ctime e + 1)));
    e ← entry i;
    if (ARP_MAXAGE <=? ctime e) || (bool_decide (state e = ETHARP_STATE_PENDING) && (ARP_MAXPENDING <=? ctime e)) then etharp_free_entry i
    else
      match state e with
      | ETHARP_STATE_STABLE_REREQUESTING_1 => set_entry i (with_arp_state ETHARP_STATE_STABLE_REREQUESTING_2)
      | ETHARP_STATE_STABLE_REREQUESTING_2 => set_entry i (with_arp_state ETHARP_STATE_STABLE)
      | ETHARP_STATE_PENDING => _ ← etharp_request (nif e) (ipaddr e); mret tt
      | _ => mret tt
      end.

(** A loop over the table, from place [i] on. *)
Fixpoint for_entries (n : nat) (i : Z) (f : Z -> R unit) : R unit :=
  match n with O => mret tt | S n' => _ ← f i; for_entries n' (i + 1) f end.

Definition etharp_tmr : R unit := for_entries (Z.to_nat ARP_TABLE_SIZE) 0 tmr_entry.

(** The candidates of the search: places, or ARP_TABLE_SIZE, and their ages. *)
Record cands := mkC { c_empty : Z; old_pending : Z; old_stable : Z; old_queue : Z; age_queue : Z; age_pending : Z; age_stable : Z }.
Definition no_cands : cands := mkC ARP_TABLE_SIZE ARP_TABLE_SIZE ARP_TABLE_SIZE ARP_TABLE_SIZE 0 0 0.

Definition candidate (i : Z) (e : etharp_entry) (c : cands) : cands :=
  if bool_decide (state e = ETHARP_STATE_PENDING) then
    if negb (bool_decide (q e = [])) then
      if age_queue c <=? ctime e then mkC (c_empty c) (old_pending c) (old_stable c) i (ctime e) (age_pending c) (age_stable c) else c
    else
      if age_pending c <=? ctime e then mkC (c_empty c) i (old_stable c) (old_queue c) (age_queue c) (ctime e) (age_stable c) else c
  else if is_stable (state e) then
    if age_stable c <=? ctime e then mkC (c_empty c) (old_pending c) i (old_queue c) (age_queue c) (age_pending c) (ctime e) else c
  else c.

(** The sweep ends at an entry for the address, or has looked at all. *)
Fixpoint find_loop (i : Z) (es : list etharp_entry) (ip n : Z) (c : cands) : Z + cands :=
  match es with
  | [] => inr c
  | e :: es' =>
      if (c_empty c =? ARP_TABLE_SIZE) && bool_decide (state e = ETHARP_STATE_EMPTY) then
        find_loop (i + 1) es' ip n (mkC i (old_pending c) (old_stable c) (old_queue c) (age_queue c) (age_pending c) (age_stable c))
      else if negb (bool_decide (state e = ETHARP_STATE_EMPTY)) then
        if ip4_addr_cmp ip (ipaddr e) && ((n =? 0) || (n =? nif e)) then inl i
        else find_loop (i + 1) es' ip n (candidate i e c)
      else find_loop (i + 1) es' ip n c
  end.

Definition new_entry (i ip n : Z) : R found :=
  _ ← set_entry i (with_ipaddr ip);
  _ ← set_entry i (with_ctime 0);
  _ ← set_entry i (with_nif n);
  mret (At i).

Definition etharp_find_entry (ip flags n : Z) : R found :=
  t ← ask a_table;
  match find_loop 0 (take (Z.to_nat ARP_TABLE_SIZE) t) ip n no_cands with
  | inl i => mret (At i)
  | inr c =>
      if negb (Z.land flags ETHARP_FLAG_FIND_ONLY =? 0) || ((c_empty c =? ARP_TABLE_SIZE) && (Z.land flags ETHARP_FLAG_TRY_HARD =? 0))
      then mret (NotFound ERR_MEM)
      else if c_empty c <? ARP_TABLE_SIZE then new_entry (c_empty c) ip n
      else
        let i := if old_stable c <? ARP_TABLE_SIZE then old_stable c
                 else if old_pending c <? ARP_TABLE_SIZE then old_pending c
                 else old_queue c in
        if i <? ARP_TABLE_SIZE then _ ← etharp_free_entry i; new_entry i ip n
        else mret (NotFound ERR_MEM)
  end.

(** The packets that wait at entry [i] are sent, one after the other. *)
Fixpoint send_queue (fuel : nat) (i n : Z) (addr : list Z) : R unit :=
  match fuel with
  | O => fun _ => None
  | S fuel' =>
      e ← entry i;
      match q e with
      | [] => mret tt
      | (r, p) :: rest =>
          _ ← set_entry i (with_q rest);
          _ ← on_pool (arpq_free r);
          f ← get_netif n;
          _ ← on_frames (ethernet_output order n p (hwaddr f) addr ETHTYPE_IP);
          _ ← on_frames (on_packets (pbuf_free p));
          send_queue fuel' i n addr
      end
  end.

Definition etharp_update_arp_entry (n ip : Z) (addr : list Z) (flags : Z) : R err_t :=
  f ← get_netif n;
  if ip4_addr_isany_val ip || ip4_addr_isbroadcast_u32 ip f || ip4_addr_ismulticast order ip then mret ERR_ARG
  else
    r ← etharp_find_entry ip flags n;
    match r with
    | NotFound e => mret e
    | At i =>
        _ ← set_entry i (with_arp_state ETHARP_STATE_STABLE);
        _ ← set_entry i (with_nif n);
        _ ← set_entry i (with_ethaddr addr);
        _ ← set_entry i (with_ctime 0);
        e ← entry i;
        _ ← send_queue (S (length (q e))) i n addr;
        mret ERR_OK
    end.

Definition cleanup_entry (n i : Z) : R unit :=
  e ← entry i; when (negb (bool_decide (state e = ETHARP_STATE_EMPTY)) && (nif e =? n)) (etharp_free_entry i).

Definition etharp_cleanup_netif (n : Z) : R unit := for_entries (Z.to_nat ARP_TABLE_SIZE) 0 (cleanup_entry n).

(** The place, and through pointers the two addresses. *)
Definition etharp_find_addr (n ip : Z) : R (Z * option (list Z * Z)) :=
  r ← etharp_find_entry ip ETHARP_FLAG_FIND_ONLY n;
  match r with
  | At i => e ← entry i; if is_stable (state e) then mret (i, Some (ethaddr e, ipaddr e)) else mret (-1, None)
  | NotFound _ => mret (-1, None)
  end.

Definition etharp_get_entry (i : Z) : R (option (Z * Z * list Z)) :=
  if i <? ARP_TABLE_SIZE then e ← entry i; mret (if is_stable (state e) then Some (ipaddr e, nif e, ethaddr e) else None) else mret None.

(** ** Receiving *)

Definition etharp_input (p n : Z) : R unit :=
  b ← on_frames (on_packets (pb p));
  let hdr := p_payload b in
  hwtype ← on_frames (load_at hdr 2); proto ← on_frames (load_at (hdr + 2) 2); hwlen ← on_frames (load_at (hdr + 4) 1); protolen ← on_frames (load_at (hdr + 5) 1);
  if negb (bool_decide (hwtype = bytes16 order (lwip_htons order LWIP_IANA_HWTYPE_ETHERNET))) || negb (bool_decide (hwlen = [ETH_HWADDR_LEN]))
     || negb (bool_decide (protolen = [4])) || negb (bool_decide (proto = bytes16 order (lwip_htons order ETHTYPE_IP)))
  then _ ← on_frames (on_packets (pbuf_free p)); mret tt
  else
    sip ← on_frames (load_at (hdr + 14) 4);
    dip ← on_frames (load_at (hdr + 24) 4);
    let word bs := match bs with [b0; b1; b2; b3] => host32 order b0 b1 b2 b3 | _ => 0 end in
    let sipaddr := word sip in
    let dipaddr := word dip in
    f ← get_netif n;
    let for_us := if ip4_addr_isany_val (ip_addr f) then false else ip4_addr_cmp dipaddr (ip_addr f) in
    shwaddr ← on_frames (load_at (hdr + 8) 6);
    _ ← etharp_update_arp_entry n sipaddr shwaddr (if for_us then ETHARP_FLAG_TRY_HARD else ETHARP_FLAG_FIND_ONLY);
    opcode ← on_frames (load_at (hdr + 6) 2);
    _ ← when (bool_decide (opcode = bytes16 order (lwip_htons order ARP_REQUEST)) && for_us)
          (shwaddr ← on_frames (load_at (hdr + 8) 6);
           _ ← on_frames (etharp_raw order n (hwaddr f) shwaddr (hwaddr f) (ip_addr f) shwaddr sipaddr ARP_REPLY); mret tt);
    _ ← on_frames (on_packets (pbuf_free p));
    mret tt.

(** ** Sending *)

Definition etharp_output_to_arp_index (n p i : Z) : R err_t :=
  e ← entry i;
  _ ← when (bool_decide (state e = ETHARP_STATE_STABLE))
        (if ARP_AGE_REREQUEST_USED_BROADCAST <=? ctime e then
           r ← etharp_request n (ipaddr e);
           when (match r with ERR_OK => true | _ => false end) (set_entry i (with_arp_state ETHARP_STATE_STABLE_REREQUESTING_1))
         else
           when (ARP_AGE_REREQUEST_USED_UNICAST <=? ctime e)
             (r ← etharp_request_dst n (ipaddr e) (ethaddr e);
              when (match r with ERR_OK => true | _ => false end) (set_entry i (with_arp_state ETHARP_STATE_STABLE_REREQUESTING_1))));
  f ← get_netif n;
  e ← entry i;
  on_frames (ethernet_output order n p (hwaddr f) (ethaddr e) ETHTYPE_IP).

(** A packet goes to the end of the queue of entry [i]; beyond ARP_QUEUE_LEN the
    oldest one is dropped. *)
Definition enqueue (i p : Z) : R err_t :=
  r ← on_pool arpq_malloc;
  if negb (r =? 0) then
    e ← entry i;
    let qlen := Z.of_nat (length (q e)) in
    _ ← set_entry i (with_q (q e ++ [(r, p)]));
    _ ← when (ARP_QUEUE_LEN <=? qlen)
          (e ← entry i;
           match q e with
           | (old, oldp) :: rest => _ ← set_entry i (with_q rest); _ ← on_frames (on_packets (pbuf_free oldp)); on_pool (arpq_free old)
           | [] => no_element
           end);
    mret ERR_OK
  else _ ← on_frames (on_packets (pbuf_free p)); mret ERR_MEM.

Definition etharp_query (n ip p : Z) : R err_t :=
  f ← get_netif n;
  if ip4_addr_isbroadcast_u32 ip f || ip4_addr_ismulticast order ip || ip4_addr_isany_val ip then mret ERR_ARG
  else
    r ← etharp_find_entry ip ETHARP_FLAG_TRY_HARD n;
    match r with
    | NotFound e => mret e
    | At i =>
        e ← entry i;
        let is_new := bool_decide (state e = ETHARP_STATE_EMPTY) in
        _ ← when is_new (_ ← set_entry i (with_arp_state ETHARP_STATE_PENDING); set_entry i (with_nif n));
        result ← (if is_new || (p =? 0) then etharp_request n ip else mret ERR_MEM);
        if p =? 0 then mret result
        else
          e ← entry i;
          if is_stable (state e) then
            _ ← ETHARP_SET_ADDRHINT i;
            on_frames (ethernet_output order n p (hwaddr f) (ethaddr e) ETHTYPE_IP)
          else if bool_decide (state e = ETHARP_STATE_PENDING) then
            p' ← on_frames (on_packets (take_over p));
            if negb (p' =? 0) then enqueue i p' else mret ERR_MEM
          else mret result
    end.

(** The first stable entry for an address. *)
Fixpoint stable_loop (i : Z) (es : list etharp_entry) (dst n : Z) : option Z :=
  match es with
  | [] => None
  | e :: es' => if is_stable (state e) && (nif e =? n) && ip4_addr_cmp dst (ipaddr e) then Some i else stable_loop (i + 1) es' dst n
  end.

(** To whom a packet goes on the local network: the address itself, or the gateway. *)
Definition next_hop (f : netif) (ip : Z) : option Z :=
  if negb (ip4_addr_netcmp ip (ip_addr f) (netmask f)) && negb (ip4_addr_islinklocal order ip) then
    if negb (ip4_addr_isany_val (gw f)) then Some (gw f) else None
  else Some ip.

Definition etharp_output (n p ip : Z) : R err_t :=
  f ← get_netif n;
  if ip4_addr_isbroadcast_u32 ip f then on_frames (ethernet_output order n p (hwaddr f) ethbroadcast ETHTYPE_IP)
  else if ip4_addr_ismulticast order ip then
    on_frames (ethernet_output order n p (hwaddr f) [0x01; 0x00; 0x5e; Z.land (ip4_addr2 order ip) 0x7f; ip4_addr3 order ip; ip4_addr4 order ip] ETHTYPE_IP)
  else
    match next_hop f ip with
    | None => mret ERR_RTE
    | Some dst =>
        c ← ask etharp_cached_entry;
        e ← entry c;
        if is_stable (state e) && (nif e =? n) && ip4_addr_cmp dst (ipaddr e) then etharp_output_to_arp_index n p c
        else
          t ← ask a_table;
          match stable_loop 0 (take (Z.to_nat ARP_TABLE_SIZE) t) dst n with
          | Some i => _ ← ETHARP_SET_ADDRHINT i; etharp_output_to_arp_index n p i
          | None => etharp_query n dst p
          end
    end.

(** A frame from the driver; [ip4_input] is the input of the layer above. *)
Definition with_flags_or (v : Z) (b : pbuf) : pbuf :=
  mkPbuf (p_next b) (p_payload b) (p_tot_len b) (p_len b) (p_type_internal b) (Z.lor (p_flags b) v) (p_ref b) (p_if_idx b).
Definition with_if_idx (v : Z) (b : pbuf) : pbuf :=
  mkPbuf (p_next b) (p_payload b) (p_tot_len b) (p_len b) (p_type_internal b) (p_flags b) (p_ref b) v.

Definition mark_packet (p : Z) (dest : list Z) : R unit :=
  match dest with
  | d0 :: d1 :: d2 :: _ =>
      when (negb (Z.land d0 1 =? 0))
        (if d0 =? 0x01 then when ((d1 =? 0x00) && (d2 =? 0x5e)) (on_frames (on_packets (set_pb p (with_flags_or PBUF_FLAG_LLMCAST))))
         else when (bool_decide (dest = ethbroadcast)) (on_frames (on_packets (set_pb p (with_flags_or PBUF_FLAG_LLBCAST)))))
  | _ => mret tt
  end.

Definition ethernet_input (ip4_input : Z -> Z -> R unit) (netif_get_index : Z -> Z) (p n : Z) : R err_t :=
  let free_and_return := _ ← on_frames (on_packets (pbuf_free p)); mret ERR_OK in
  b ← on_frames (on_packets (pb p));
  if p_len b <=? SIZEOF_ETH_HDR then free_and_return
  else
    _ ← when (p_if_idx b =? NETIF_NO_INDEX) (on_frames (on_packets (set_pb p (with_if_idx (netif_get_index n)))));
    let ethhdr := p_payload b in
    type ← on_frames (load_at (ethhdr + 12) 2);
    dest ← on_frames (load_at ethhdr 6);
    _ ← mark_packet p dest;
    f ← get_netif n;
    let accept (input : R unit) :=
      if Z.land (flags f) NETIF_FLAG_ETHARP =? 0 then free_and_return
      else
        r ← on_frames (on_packets (pbuf_remove_header p SIZEOF_ETH_HDR));
        if negb (r =? 0) then free_and_return else _ ← input; mret ERR_OK in
    if bool_decide (type = bytes16 order (lwip_htons order ETHTYPE_IP)) then accept (ip4_input p n)
    else if bool_decide (type = bytes16 order (lwip_htons order ETHTYPE_ARP)) then accept (etharp_input p n)
    else free_and_return.
End etharp.
Arguments arp : clear implicits.
Arguments mkArp {A L Q}.
