(* ===== verification/EtharpTable.v ===== *)
(** * The search in the table of addresses *)
From S2P Require Import Prelude Pbuf IpAddr EthFrames Etharp.
Open Scope Z_scope.

Definition used (e : etharp_entry) : Prop := state e <> ETHARP_STATE_EMPTY.
Definition pending (e : etharp_entry) : Prop := state e = ETHARP_STATE_PENDING.

(** An entry for an address on an interface; no interface means any. *)
Definition matches (ip n : Z) (e : etharp_entry) : Prop := used e /\ ipaddr e = ip /\ (n = 0 \/ nif e = n).

(** What the search may throw away, the least harmful first: an entry that is known,
    one that is waited for without packets, one with packets. *)
Definition recyclable (k : nat) (e : etharp_entry) : Prop :=
  match k with
  | O => is_stable (state e) = true
  | S O => pending e /\ q e = []
  | _ => pending e /\ q e <> []
  end.

#[export] Instance recyclable_dec k e : Decision (recyclable k e).
Proof. unfold recyclable, pending. destruct k as [|[|k]]; apply _. Defined.

(** [j] is the place of an oldest entry with the property, or 10 when there is none. *)
Definition oldest (P : etharp_entry -> Prop) (es : list etharp_entry) (j age : Z) : Prop :=
  j = ARP_TABLE_SIZE /\ age = 0 /\ (forall i e, es !! i = Some e -> ~ P e) \/
  exists e, 0 <= j /\ es !! Z.to_nat j = Some e /\ P e /\ age = ctime e /\ forall i e', es !! i = Some e' -> P e' -> ctime e' <= ctime e.

Definition first_empty (es : list etharp_entry) (j : Z) : Prop :=
  j = ARP_TABLE_SIZE /\ (forall i e, es !! i = Some e -> used e) \/
  exists e, 0 <= j /\ es !! Z.to_nat j = Some e /\ state e = ETHARP_STATE_EMPTY /\ forall i e', (i < Z.to_nat j)%nat -> es !! i = Some e' -> used e'.

Record cands_ok (es : list etharp_entry) (c : cands) : Prop := {
  co_empty : first_empty es (c_empty c);
  co_stable : oldest (recyclable 0) es (old_stable c) (age_stable c);
  co_pending : oldest (recyclable 1) es (old_pending c) (age_pending c);
  co_queue : oldest (recyclable 2) es (old_queue c) (age_queue c)
}.

Lemma lookup_snoc_inv {X} (l : list X) x i y : (l ++ [x]) !! i = Some y -> l !! i = Some y \/ i = length l /\ y = x.
Proof.
  intros [H|[Hge H]]%lookup_app_Some; [by left|right]. destruct (i - length l)%nat as [|k] eqn:E; [|by destruct k].
  cbn in H. injection H as ->. split; [lia|done].
Qed.

Lemma oldest_skip P es e j age : ~ P e -> oldest P es j age -> oldest P (es ++ [e]) j age.
Proof.
  intros Hn [(->&->&H)|(x&Hj&Hx&Hp&Ha&H)]; [left|right].
  - split_and!; [done|done|]. intros i y [Hy|[_ ->]]%lookup_snoc_inv; [by eapply H|done].
  - exists x. split_and!; try done; [by apply lookup_app_l_Some|]. intros i y [Hy|[_ ->]]%lookup_snoc_inv Hpy; [by eapply H|done].
Qed.

Lemma oldest_take P es e j age : 0 <= ctime e -> P e -> oldest P es j age ->
  oldest P (es ++ [e]) (if age <=? ctime e then Z.of_nat (length es) else j) (if age <=? ctime e then ctime e else age).
Proof.
  intros Hc HP H. right. destruct (Z.leb_spec age (ctime e)) as [Hle|Hlt].
  - exists e. rewrite Nat2Z.id. split_and!; [lia|by apply lookup_app_mid|done|done|].
    intros i y [Hy|[_ ->]]%lookup_snoc_inv Hpy; [|lia]. destruct H as [(_&_&H)|(x&_&_&_&->&H)]; [by destruct (H _ _ Hy)|].
    specialize (H _ _ Hy Hpy). lia.
  - destruct H as [(_&->&_)|(x&Hj&Hx&Hp&->&H)]; [lia|]. exists x. split_and!; try done; [by apply lookup_app_l_Some|].
    intros i y [Hy|[_ ->]]%lookup_snoc_inv Hpy; [by eapply H|lia].
Qed.

Lemma first_empty_skip es e j : used e \/ j <> ARP_TABLE_SIZE -> first_empty es j -> first_empty (es ++ [e]) j.
Proof.
  intros He [(->&H)|(x&Hj&Hx&Hs&H)]; [left|right].
  - split; [done|]. intros i y [Hy|[_ ->]]%lookup_snoc_inv; [by eapply H|]. by destruct He.
  - exists x. pose proof (lookup_lt_Some _ _ _ Hx). split_and!; try done; [by apply lookup_app_l_Some|].
    intros i y Hi [Hy|[-> ->]]%lookup_snoc_inv; [by eapply H|lia].
Qed.

Lemma first_empty_here es e : state e = ETHARP_STATE_EMPTY -> first_empty es ARP_TABLE_SIZE -> Z.of_nat (length es) < ARP_TABLE_SIZE -> first_empty (es ++ [e]) (Z.of_nat (length es)).
Proof.
  intros He [(_&H)|(x&_&Hx&_)] Hl; [right|apply lookup_lt_Some in Hx; lia].
  exists e. rewrite Nat2Z.id. split_and!; [lia|by apply lookup_app_mid|done|]. intros i y Hi [Hy|[-> _]]%lookup_snoc_inv; [by eapply H|lia].
Qed.

Lemma candidate_ok es e c : 0 <= ctime e -> used e -> cands_ok es c -> cands_ok (es ++ [e]) (candidate (Z.of_nat (length es)) e c).
Proof.
  intros Hc Hu [H1 H2 H3 H4]. unfold candidate. pose proof (first_empty_skip es e (c_empty c) ltac:(by left) H1) as H1'.
  case_bool_decide as Hp.
  - assert (Hs : ~ recyclable 0 e) by (cbn; by rewrite Hp). case_bool_decide as Hq; cbn [negb].
    + pose proof (oldest_take _ _ _ _ _ Hc (conj Hp Hq : recyclable 1 e) H3) as H3'.
      assert (Hn : ~ recyclable 2 e) by (by intros [_ ?]). destruct (age_pending c <=? ctime e); split; cbn [c_empty old_pending old_stable old_queue age_queue age_pending age_stable];
        first [done|by apply oldest_skip].
    + pose proof (oldest_take _ _ _ _ _ Hc (conj Hp Hq : recyclable 2 e) H4) as H4'.
      assert (Hn : ~ recyclable 1 e) by (by intros [_ ?]). destruct (age_queue c <=? ctime e); split; cbn [c_empty old_pending old_stable old_queue age_queue age_pending age_stable];
        first [done|by apply oldest_skip].
  - assert (Hn1 : ~ recyclable 1 e) by (by intros [? _]). assert (Hn2 : ~ recyclable 2 e) by (by intros [? _]).
    destruct (is_stable (state e)) eqn:Es.
    + pose proof (oldest_take _ _ _ _ _ Hc (Es : recyclable 0 e) H2) as H2'.
      destruct (age_stable c <=? ctime e); split; cbn [c_empty old_pending old_stable old_queue age_queue age_pending age_stable]; first [done|by apply oldest_skip].
    + unfold used in Hu. by destruct (state e).
Qed.

(** The sweep: an entry for the address, or the candidates. *)
Lemma find_loop_spec es : forall pre ip n c, Forall (fun e => 0 <= ctime e) es -> cands_ok pre c ->
  (forall k e, pre !! k = Some e -> ~ matches ip n e) -> Z.of_nat (length pre + length es) = ARP_TABLE_SIZE ->
  match find_loop (Z.of_nat (length pre)) es ip n c with
  | inl j => exists e, 0 <= j /\ (pre ++ es) !! Z.to_nat j = Some e /\ matches ip n e
  | inr c' => cands_ok (pre ++ es) c' /\ (forall k e, (pre ++ es) !! k = Some e -> ~ matches ip n e)
  end.
Proof.
  induction es as [|e es IH]; intros pre ip n c Hct Hc Hnm Hlen; cbn [find_loop]; [by rewrite app_nil_r|].
  apply Forall_cons in Hct as [He Hct]. cbn [length] in Hlen.
  assert (Hstep : forall c', cands_ok (pre ++ [e]) c' -> ~ matches ip n e ->
    match find_loop (Z.of_nat (length pre) + 1) es ip n c' with
    | inl j => exists e0, 0 <= j /\ (pre ++ e :: es) !! Z.to_nat j = Some e0 /\ matches ip n e0
    | inr c' => cands_ok (pre ++ e :: es) c' /\ (forall k e0, (pre ++ e :: es) !! k = Some e0 -> ~ matches ip n e0)
    end).
  { intros c' Hc' Hn. specialize (IH (pre ++ [e]) ip n c' Hct Hc'). rewrite length_app in IH. cbn [length] in IH.
    replace (Z.of_nat (length pre + 1)) with (Z.of_nat (length pre) + 1) in IH by lia. rewrite <- app_assoc in IH. apply IH; [|lia].
    intros k x [Hx|[_ ->]]%lookup_snoc_inv; [by eapply Hnm|done]. }
  case_bool_decide as Es.
  - assert (Hno : ~ matches ip n e) by (intros [Hu _]; done).
    assert (Hskip : forall k, ~ recyclable k e).
    { intros [|[|k]]; cbn; rewrite ?Es; try done; unfold pending; rewrite Es; by intros [? _]. }
    destruct (Z.eqb_spec (c_empty c) ARP_TABLE_SIZE) as [Ee|Ee]; cbn [andb negb].
    + apply Hstep; [|done]. destruct Hc as [H1 H2 H3 H4]. rewrite Ee in H1. split; cbn; try (by apply oldest_skip).
      apply first_empty_here; [done|done|lia].
    + apply Hstep; [|done]. destruct Hc as [H1 H2 H3 H4]. split; try (by apply oldest_skip). apply first_empty_skip; [by right|done].
  - rewrite andb_false_r. cbn [negb].
    destruct (ip4_addr_cmp ip (ipaddr e) && ((n =? 0) || (n =? nif e))) eqn:Em.
    + exists e. rewrite Nat2Z.id. split_and!; [lia|by apply lookup_app_mid|]. apply andb_true_iff in Em as [Em1 Em2]. unfold ip4_addr_cmp in Em1.
      split_and!; [done|lia|lia].
    + apply Hstep; [by apply candidate_ok|]. intros (_&Hip&Hn). unfold ip4_addr_cmp in Em. rewrite Hip, Z.eqb_refl in Em. cbn [andb] in Em. lia.
Qed.

(** The place that a new entry gets, in a full table. *)
Definition victim (es : list etharp_entry) (j : Z) : Prop :=
  exists k e, 0 <= j /\ es !! Z.to_nat j = Some e /\ recyclable k e /\ (k < 3)%nat /\
    (forall i e', es !! i = Some e' -> recyclable k e' -> ctime e' <= ctime e) /\
    (forall k' i e', (k' < k)%nat -> es !! i = Some e' -> ~ recyclable k' e').

Lemma oldest_none P es j age : oldest P es j age -> Z.of_nat (length es) <= ARP_TABLE_SIZE -> (j <? ARP_TABLE_SIZE) = false -> forall i e, es !! i = Some e -> ~ P e.
Proof.
  intros [(_&_&H)|(e&Hj&He&_)] Hl Hlt; [done|]. apply lookup_lt_Some in He. lia.
Qed.

Lemma oldest_some P es j age : oldest P es j age -> (j <? ARP_TABLE_SIZE) = true ->
  exists e, 0 <= j /\ es !! Z.to_nat j = Some e /\ P e /\ forall i e', es !! i = Some e' -> P e' -> ctime e' <= ctime e.
Proof. intros [(->&_)|(e&Hj&He&HP&_&H)] Hlt; [lia|]. by exists e. Qed.

Lemma victim_found es c : cands_ok es c -> Z.of_nat (length es) = ARP_TABLE_SIZE -> c_empty c = ARP_TABLE_SIZE -> 
  let i := if old_stable c <? ARP_TABLE_SIZE then old_stable c else if old_pending c <? ARP_TABLE_SIZE then old_pending c else old_queue c in
  victim es i /\ (i <? ARP_TABLE_SIZE) = true.
Proof.
  intros [H1 H2 H3 H4] Hl He. rewrite He in H1.
  assert (Hused : forall i e, es !! i = Some e -> used e) by (destruct H1 as [(_&H)|(x&_&Hx&_)]; [done|apply lookup_lt_Some in Hx; lia]).
  destruct (old_stable c <? ARP_TABLE_SIZE) eqn:E0; [|destruct (old_pending c <? ARP_TABLE_SIZE) eqn:E1].
  - destruct (oldest_some _ _ _ _ H2 E0) as (e&Hj&Hx&HP&Hmax). split; [|done]. exists 0%nat, e. split_and!; try done; [lia|]. intros; lia.
  - destruct (oldest_some _ _ _ _ H3 E1) as (e&Hj&Hx&HP&Hmax). split; [|done]. exists 1%nat, e. split_and!; try done; [lia|].
    intros k' i e' Hk. assert (k' = 0%nat) as -> by lia. apply (oldest_none _ _ _ _ H2); [lia|done].
  - pose proof (oldest_none _ _ _ _ H2 ltac:(lia) E0) as N0. pose proof (oldest_none _ _ _ _ H3 ltac:(lia) E1) as N1.
    destruct (old_queue c <? ARP_TABLE_SIZE) eqn:E2.
    + destruct (oldest_some _ _ _ _ H4 E2) as (e&Hj&Hx&HP&Hmax). split; [|done]. exists 2%nat, e. split_and!; try done; [lia|].
      intros [|[|k']] i e' Hk; [by apply N0|by apply N1|lia].
    + exfalso. pose proof (oldest_none _ _ _ _ H4 ltac:(lia) E2) as N2. destruct (lookup_lt_is_Some_2 es 0%nat ltac:(unfold ARP_TABLE_SIZE in Hl; lia)) as [e Hx].
      specialize (Hused _ _ Hx). specialize (N0 _ _ Hx). specialize (N1 _ _ Hx). specialize (N2 _ _ Hx). cbn in N0. unfold used in Hused.
      destruct (state e) eqn:Es; try done. destruct (q e) eqn:Eq; [by apply N1|]. apply N2. split; [done|by rewrite Eq].
Qed.
