(* ===== verification/FrameLaws.v ===== *)
(** * What the frames promise to the address resolution

    The references to packets are counted; a packet has contents; what has been
    sent is known.  [EthFrames] keeps these promises over the packet buffers;
    [EtharpProofs] needs nothing else. *)
From S2P Require Import Prelude Pbuf PbufRefs LwipDef IpAddr EthFrames Etharp.
Open Scope Z_scope.

(** The bytes on the wire; words go most significant byte first. *)
Definition word16 (v : Z) : list Z := [v / 256; v mod 256].
Definition eth_frame (dst src : list Z) (type : Z) (f : list Z) : list Z := dst ++ src ++ word16 type ++ f.
Definition arp_packet (order : byte_order) (op : Z) (hwsrc : list Z) (ipsrc : Z) (hwdst : list Z) (ipdst : Z) : list Z :=
  word16 LWIP_IANA_HWTYPE_ETHERNET ++ word16 ETHTYPE_IP ++ [ETH_HWADDR_LEN; 4] ++ word16 op ++ hwsrc ++ bytes32 order ipsrc ++ hwdst ++ bytes32 order ipdst.

Definition hw_ok (a : list Z) : Prop := length a = 6%nat /\ Forall byte_ok a.

(** A packet: is there room for a header in front, where the first buffer begins, how
    much it holds, the bytes. *)
Record pkt := mkPkt { room : bool; start : Z; head_len : nat; data : list Z }.

(** Why a packet is not made or not taken over: no memory for so many bytes behind the
    room for the headers; a packet of changing data that has to be copied and cannot be. *)
Definition no_memory {A L} `{!PbufMemory A} (len : Z) (w : pstate A * L) : Prop := exists w', on_packets (pbuf_alloc PBUF_LINK len PBUF_RAM) w = Some (0, w').
Definition no_copy {A L} `{!PbufMemory A} (p : Z) (w : pstate A * L) : Prop :=
  exists fuel b, copy_needed fuel p (fst w) = Some (true, fst w) /\ pbufs (fst w) !! p = Some b /\ no_memory (p_tot_len b) w.

Class FramesOk (order : byte_order) (A L : Type) `{!PbufMemory A} `{!Link A L} := {
  holds : pstate A * L -> (Z -> Z) -> Prop;
  packet : pstate A * L -> Z -> pkt -> Prop;
  sent : L -> list (Z * list Z);
  keeps (refs : Z -> Z) (w w' : pstate A * L) : Prop := forall p f, 0 < refs p -> packet w p f -> packet w' p f;
  holds_ext w refs refs' : (forall p, refs' p = refs p) -> holds w refs -> holds w refs';
  holds_nonneg w refs p : holds w refs -> 0 <= refs p;
  holds_packet w refs p : holds w refs -> 0 < refs p -> p <> 0 /\ exists f, packet w p f;
  read_ok w refs p f : holds w refs -> 0 < refs p -> packet w p f -> exists b, on_packets (pb p) w = Some (b, w) /\ p_payload b = start f /\ (head_len f <= length (data f))%nat /\ Forall byte_ok (data f) /\
    forall k n, (k + n <= head_len f)%nat -> load_at (start f + Z.of_nat k) n w = Some (take n (drop k (data f)), w);
  free_ok w refs p : holds w refs -> 0 < refs p -> exists r w', on_packets (pbuf_free p) w = Some (r, w') /\
    holds w' (bump (-1) p refs) /\ keeps (bump (-1) p refs) w w' /\ snd w' = snd w;
  take_ok w refs p f : holds w refs -> 0 < refs p < 255 -> packet w p f -> exists p' w', on_packets (take_over p) w = Some (p', w') /\
    snd w' = snd w /\ keeps refs w w' /\
    (p' = 0 /\ holds w' refs /\ no_copy p w \/
     p' <> 0 /\ holds w' (bump 1 p' refs) /\ exists f', packet w' p' f' /\ data f' = data f /\ (room f = true -> room f' = true));
  send_ok w refs n p f src dst type : holds w refs -> 0 < refs p -> packet w p f -> hw_ok src -> hw_ok dst -> 0 <= type < 2 ^ 16 ->
    exists r w', ethernet_output order n p src dst type w = Some (r, w') /\ holds w' refs /\
      (forall p' f', p' <> p -> 0 < refs p' -> packet w p' f' -> packet w' p' f') /\
      (sent (snd w') = sent (snd w) ++ [(n, eth_frame dst src type (data f))] \/ room f = false /\ r = ERR_BUF /\ sent (snd w') = sent (snd w));
  raw_ok w refs n ethsrc ethdst hwsrc ipsrc hwdst ipdst op : holds w refs -> hw_ok ethsrc -> hw_ok ethdst -> hw_ok hwsrc -> hw_ok hwdst ->
    0 <= ipsrc < 2 ^ 32 -> 0 <= ipdst < 2 ^ 32 -> 0 <= op < 2 ^ 16 ->
    exists r w', etharp_raw order n ethsrc ethdst hwsrc ipsrc hwdst ipdst op w = Some (r, w') /\ holds w' refs /\ keeps refs w w' /\
      (r = ERR_MEM /\ snd w' = snd w /\ no_memory SIZEOF_ETHARP_HDR w \/
       r = ERR_OK /\ sent (snd w') = sent (snd w) ++ [(n, eth_frame ethdst ethsrc ETHTYPE_ARP (arp_packet order op hwsrc ipsrc hwdst ipdst))])
}.

(** The pool of the elements of the queues is used up. *)
Definition no_arp_queue {Q} `{!ArpQueue Q} (c : Q) : Prop := exists c', arpq_malloc c = Some (0, c').

(** The pool of the elements of the queues. *)
Class ArpQueueOk (Q : Type) `{!ArpQueue Q} := {
  handed : Q -> gset Z -> Prop;
  arpq_malloc_ok c X : handed c X -> exists r c', arpq_malloc c = Some (r, c') /\
    (r = 0 /\ handed c' X \/ r <> 0 /\ r ∉ X /\ handed c' ({[r]} ∪ X));
  arpq_free_ok c X r : handed c X -> r ∈ X -> exists c', arpq_free r c = Some (tt, c') /\ handed c' (X ∖ {[r]})
}.
