(* ===== verification/EtharpInv.v ===== *)
(** * The invariant of address resolution

    Addresses are unique, packets wait only where an answer is waited for, ages are
    bounded, every waiting packet is held once and every element of a
    queue is in use once. *)
From S2P Require Import Prelude Pbuf PbufRefs LwipDef IpAddr EthFrames Etharp EtharpTable FrameLaws.
Open Scope Z_scope.

Section inv.
Context (order : byte_order) {A L Q : Type} `{!PbufMemory A} `{!Link A L} `{!ArpQueue Q} `{!FramesOk order A L} `{!ArpQueueOk Q}.
Implicit Types (s : arp A L Q).

Definition waiting_in (t : list etharp_entry) : list (Z * Z) := mjoin (q <$> t).
Definition waiting s : list (Z * Z) := waiting_in (a_table s).
Definition count (qs : list (Z * Z)) (p : Z) : Z := Z.of_nat (length (filter (fun x => x.2 = p) qs)).

(** The references of the users, and those of the elements in [qs]. *)
Definition with_queued (refs : Z -> Z) (qs : list (Z * Z)) : Z -> Z := fun p => refs p + count qs p.

Record frames_inv s (refs : Z -> Z) (qs : list (Z * Z)) : Prop := {
  fi_holds : holds (a_frames s) (with_queued refs qs);
  fi_handed : handed (a_pool s) (list_to_set qs.*1);
  fi_nodup : NoDup qs.*1;
  fi_refs : forall p, 0 <= refs p
}.

Record entry_ok (netifs : gmap Z netif) (e : etharp_entry) : Prop := {
  eo_queue : ~ pending e -> q e = [];
  eo_len : Z.of_nat (length (q e)) <= ARP_QUEUE_LEN;
  eo_age : 0 <= ctime e /\ (used e -> ctime e < ARP_MAXAGE) /\ (pending e -> ctime e < ARP_MAXPENDING);
  eo_nif : used e -> is_Some (netifs !! nif e) /\ 0 <= ipaddr e < 2 ^ 32;
  eo_hw : is_stable (state e) = true -> hw_ok (ethaddr e)
}.

Definition netif_ok (n : Z) (f : netif) : Prop :=
  n <> 0 /\ hw_ok (hwaddr f) /\ 0 <= ip_addr f < 2 ^ 32 /\ 0 <= gw f < 2 ^ 32.

Record arp_inv s (refs : Z -> Z) : Prop := {
  ai_len : length (a_table s) = Z.to_nat ARP_TABLE_SIZE;
  ai_entries : forall i e, a_table s !! i = Some e -> entry_ok (a_netifs s) e;
  ai_unique : forall i j e e', a_table s !! i = Some e -> a_table s !! j = Some e' -> used e -> used e' ->
    ipaddr e = ipaddr e' -> nif e = nif e' -> i = j;
  ai_frames : frames_inv s refs (waiting s);
  ai_cached : 0 <= etharp_cached_entry s < ARP_TABLE_SIZE;
  ai_netifs : forall n f, a_netifs s !! n = Some f -> netif_ok n f
}.

(** ** Counting *)

Lemma count_cons x qs p : count (x :: qs) p = (if decide (x.2 = p) then 1 else 0) + count qs p.
Proof. unfold count. rewrite filter_cons. case_decide; cbn [length]; lia. Qed.

Lemma count_nonneg qs p : 0 <= count qs p.
Proof. unfold count. lia. Qed.

Lemma count_app qs qs' p : count (qs ++ qs') p = count qs p + count qs' p.
Proof. unfold count. rewrite filter_app, length_app. lia. Qed.

Lemma count_perm qs qs' p : qs ≡ₚ qs' -> count qs p = count qs' p.
Proof. intros E. unfold count. by rewrite E. Qed.

Lemma frames_inv_perm s refs qs qs' : qs ≡ₚ qs' -> frames_inv s refs qs -> frames_inv s refs qs'.
Proof.
  intros E [H1 H2 H3 H4]. split; [|by rewrite <- E|by rewrite <- E|done].
  eapply holds_ext; [|exact H1]. intros p. unfold with_queued. by rewrite (count_perm _ _ _ E).
Qed.

Lemma frames_inv_frames s s' refs qs : a_frames s' = a_frames s -> a_pool s' = a_pool s -> frames_inv s refs qs -> frames_inv s' refs qs.
Proof. intros E1 E2 []. split; rewrite ?E1, ?E2; done. Qed.

(** The queues but for that of one entry. *)
Lemma waiting_split (t : list etharp_entry) i e : t !! i = Some e ->
  exists rest, waiting_in t ≡ₚ q e ++ rest /\ forall e', waiting_in (<[i := e']> t) ≡ₚ q e' ++ rest.
Proof.
  intros Hi. pose proof (lookup_lt_Some _ _ _ Hi) as Hlt. exists (waiting_in (take i t) ++ waiting_in (drop (S i) t)).
  assert (Hmid : forall x, waiting_in (take i t ++ x :: drop (S i) t) ≡ₚ q x ++ waiting_in (take i t) ++ waiting_in (drop (S i) t)).
  { intros x. unfold waiting_in. rewrite fmap_app, join_app. cbn [fmap list_fmap mjoin list_join]. rewrite !app_assoc. apply Permutation_app_tail, Permutation_app_comm. }
  split.
  - rewrite <- (take_drop_middle t i e Hi) at 1. apply Hmid.
  - intros e'. rewrite insert_take_drop by done. apply Hmid.
Qed.

(** ** Elementary steps *)

Lemma on_frames_run {B} (p : prog (pstate A * L) B) s x w : p (a_frames s) = Some (x, w) ->
  on_frames p s = Some (x, mkArp (a_table s) (etharp_cached_entry s) (a_netifs s) w (a_pool s)).
Proof. intros E. unfold on_frames. by rewrite E. Qed.

Lemma on_pool_run {B} (p : prog Q B) s x c : p (a_pool s) = Some (x, c) ->
  on_pool p s = Some (x, mkArp (a_table s) (etharp_cached_entry s) (a_netifs s) (a_frames s) c).
Proof. intros E. unfold on_pool. by rewrite E. Qed.

Lemma entry_run s i e : a_table s !! i = Some e -> entry (Z.of_nat i) s = Some (e, s).
Proof. intros E. unfold entry, try_ask. rewrite (proj2 (Z.leb_le 0 _)), Nat2Z.id by lia. by rewrite E. Qed.

Lemma set_entry_run s i e f : a_table s !! i = Some e -> set_entry (Z.of_nat i) f s = Some (tt, set_table (<[i := f e]> (a_table s)) s).
Proof. intros E. unfold set_entry, try_update. rewrite (proj2 (Z.leb_le 0 _)), Nat2Z.id by lia. by rewrite E. Qed.

Lemma get_netif_run s n f : a_netifs s !! n = Some f -> get_netif n s = Some (f, s).
Proof. intros E. unfold get_netif, try_ask. by rewrite E. Qed.

Lemma set_table_same s : set_table (a_table s) s = s.
Proof. by destruct s. Qed.

(** Everything but the packets and the pool. *)
Definition same_tables s s' : Prop := a_table s' = a_table s /\ etharp_cached_entry s' = etharp_cached_entry s /\ a_netifs s' = a_netifs s.

(** The contents of the packets that are held, by users or in the queues [qs]. *)
Definition kept s s' (refs : Z -> Z) (qs : list (Z * Z)) : Prop := keeps (with_queued refs qs) (a_frames s) (a_frames s').

Lemma keeps_trans refs refs' (w1 w2 w3 : pstate A * L) : (forall p, 0 < refs' p -> 0 < refs p) -> keeps refs w1 w2 -> keeps refs' w2 w3 -> keeps refs' w1 w3.
Proof. intros Hr H1 H2 p f Hp H. apply H2; [done|]. apply H1; [auto|done]. Qed.

(** What a step leaves alone: the interfaces, and the contents of the packets that
    are held after it; no packet begins to wait. *)
Record calm s s' (refs : Z -> Z) : Prop := {
  ca_netifs : a_netifs s' = a_netifs s;
  ca_fewer : forall p, count (waiting s') p <= count (waiting s) p;
  ca_kept : kept s s' refs (waiting s')
}.

Lemma calm_refl s refs : calm s s refs.
Proof. split; [done|lia|]. by intros p f _. Qed.

Lemma calm_trans s1 s2 s3 refs : calm s1 s2 refs -> calm s2 s3 refs -> calm s1 s3 refs.
Proof.
  intros [N1 F1 K1] [N2 F2 K2]. split; [congruence|intros p; specialize (F1 p); specialize (F2 p); lia|].
  eapply keeps_trans; [|exact K1|exact K2]. intros p Hp. unfold with_queued in *. specialize (F2 p). lia.
Qed.

(** An entry changes, but not its queue. *)
Lemma waiting_same s i e e' : a_table s !! i = Some e -> q e' = q e -> waiting_in (<[i := e']> (a_table s)) ≡ₚ waiting s.
Proof. intros Hi Hq. destruct (waiting_split _ _ _ Hi) as (rest&Hw&Hw'). unfold waiting. rewrite Hw, (Hw' e'), Hq. done. Qed.

Lemma calm_table s refs i e e' : a_table s !! i = Some e -> q e' = q e -> calm s (set_table (<[i := e']> (a_table s)) s) refs.
Proof.
  intros Hi Hq. split; [done| |by intros p f _]. intros p. unfold waiting at 1. cbn [set_table a_table]. rewrite (count_perm _ _ _ (waiting_same _ _ _ _ Hi Hq)). lia.
Qed.

(** The elements of a queue are released with their packets. *)
Lemma free_etharp_q_run l : forall s refs rest, frames_inv s refs (l ++ rest) ->
  exists s', free_etharp_q l s = Some (tt, s') /\ same_tables s s' /\ frames_inv s' refs rest /\ snd (a_frames s') = snd (a_frames s) /\ kept s s' refs rest.
Proof.
  induction l as [|[r p] l IH]; intros s refs rest HI; cbn [free_etharp_q].
  - exists s. split; [done|]. split; [done|]. split; [done|]. split; [done|]. by intros p f _.
  - cbn [app] in HI. destruct HI as [H1 H2 H3 H4]. cbn in H2, H3. apply NoDup_cons in H3 as [Hr H3].
    assert (Hp : 0 < with_queued refs ((r, p) :: l ++ rest) p).
    { unfold with_queued. rewrite count_cons. cbn [snd]. rewrite decide_True by done. pose proof (count_nonneg (l ++ rest) p). specialize (H4 p). lia. }
    destruct (holds_packet _ _ _ H1 Hp) as [Hp0 _]. destruct (free_ok _ _ _ H1 Hp) as (x&w&E&Hh&Hk&Hs).
    rewrite (bind_run _ _ _ _ _ (on_frames_run _ _ _ _ E)).
    destruct (arpq_free_ok _ _ r H2 ltac:(set_solver)) as (c&Ec&Hc).
    rewrite (bind_run _ _ _ _ _ (on_pool_run (arpq_free r) (mkArp _ _ _ _ _) _ _ Ec)). cbn [a_table etharp_cached_entry a_netifs a_frames a_pool].
    set (s1 := mkArp (a_table s) (etharp_cached_entry s) (a_netifs s) w c).
    assert (HI1 : frames_inv s1 refs (l ++ rest)).
    { split; cbn [s1 a_frames a_pool]; [| |done|done].
      - eapply holds_ext; [|exact Hh]. intros y. unfold with_queued, bump. rewrite count_cons. cbn [snd].
        destruct (decide (y = p /\ p <> 0)) as [[-> _]|Hn]; [rewrite decide_True by done; lia|]. rewrite decide_False; [lia|]. intros ->. by apply Hn.
      - replace (list_to_set (l ++ rest).*1 : gset Z) with (({[r]} ∪ list_to_set (l ++ rest).*1) ∖ {[r]} : gset Z); [done|].
        apply set_eq. intros y. rewrite elem_of_difference, elem_of_union, elem_of_singleton, elem_of_list_to_set. split; [tauto|].
        intros Hy. split; [by right|]. intros ->. done. }
    destruct (IH s1 refs rest HI1) as (s'&E'&(T1&T2&T3)&HI'&Hsn&Hk'). rewrite E'. exists s'. split; [done|]. split; [by split|]. split; [done|].
    split; [rewrite Hsn; exact Hs|]. unfold kept in *. eapply keeps_trans; [|exact Hk|exact Hk'].
    intros y Hy. unfold with_queued, bump in *. rewrite count_cons, count_app. cbn [snd]. pose proof (count_nonneg l y). pose proof (count_nonneg rest y). specialize (H4 y).
    destruct (decide (y = p /\ p <> 0)) as [[-> _]|Hn]; [rewrite decide_True by done; lia|]. destruct (decide (p = y)); lia.
Qed.

(** One entry changes. *)
Lemma inv_set s s' refs refs' i e e' : arp_inv s refs -> a_table s !! i = Some e -> a_table s' = <[i := e']> (a_table s) -> a_netifs s' = a_netifs s ->
  0 <= etharp_cached_entry s' < ARP_TABLE_SIZE -> entry_ok (a_netifs s) e' ->
  (used e' -> forall j x, j <> i -> a_table s !! j = Some x -> used x -> ipaddr x = ipaddr e' -> nif x = nif e' -> False) ->
  frames_inv s' refs' (waiting s') -> arp_inv s' refs'.
Proof.
  intros HI Hi Ht Hn Hc He Hu Hf. split; try done.
  - rewrite Ht, length_insert. apply (ai_len _ _ HI).
  - rewrite Ht, Hn. intros j x Hx. rewrite list_lookup_insert in Hx. case_decide as Hj; [|by eapply ai_entries].
    destruct Hj as [<- _]. by injection Hx as <-.
  - rewrite Ht. intros j k x y Hx Hy. rewrite list_lookup_insert in Hx, Hy.
    destruct (decide (i = j /\ (i < length (a_table s))%nat)) as [[<- _]|Hj], (decide (i = k /\ (i < length (a_table s))%nat)) as [[<- _]|Hk].
    + done.
    + injection Hx as <-. intros U1 U2 E1 E2. exfalso. assert (Hki : k <> i) by (intros ->; apply Hk; split; [done|by eapply lookup_lt_Some]).
      by apply (Hu U1 k y Hki Hy U2).
    + injection Hy as <-. intros U1 U2 E1 E2. exfalso. assert (Hji : j <> i) by (intros ->; apply Hj; split; [done|by eapply lookup_lt_Some]).
      by apply (Hu U2 j x Hji Hx U1).
    + by apply (ai_unique _ _ HI).
  - rewrite Hn. apply (ai_netifs _ _ HI).
Qed.

(** An entry that stays at its address. *)
Lemma unique_stays s refs i e e' : arp_inv s refs -> a_table s !! i = Some e -> used e -> ipaddr e' = ipaddr e -> nif e' = nif e ->
  forall j x, j <> i -> a_table s !! j = Some x -> used x -> ipaddr x = ipaddr e' -> nif x = nif e' -> False.
Proof.
  intros HI Hi He E1 E2 j x Hj Hx Hux H1 H2. apply Hj. eapply (ai_unique _ _ HI); try done; congruence.
Qed.

Definition cleared (e : etharp_entry) : etharp_entry := with_arp_state ETHARP_STATE_EMPTY (with_q [] e).

(** The release of an entry, of which all but the queue may have changed before. *)
Lemma etharp_free_entry_run s refs i e x : arp_inv s refs -> a_table s !! i = Some e -> q x = q e -> 0 <= ctime x ->
  exists s', etharp_free_entry (Z.of_nat i) (set_table (<[i := x]> (a_table s)) s) = Some (tt, s') /\ a_table s' = <[i := cleared x]> (a_table s) /\
    etharp_cached_entry s' = etharp_cached_entry s /\ arp_inv s' refs /\ snd (a_frames s') = snd (a_frames s) /\ calm s s' refs.
Proof.
  intros HI Hi Hq Hx. destruct (waiting_split _ _ _ Hi) as (rest&Hw&Hw'). pose proof (lookup_lt_Some _ _ _ Hi) as Hlt.
  set (s0 := set_table _ s). assert (Hi0 : a_table s0 !! i = Some x) by (cbn; by apply list_lookup_insert_eq).
  unfold etharp_free_entry. rewrite (bind_run _ _ _ _ _ (entry_run _ _ _ Hi0)).
  pose proof (frames_inv_perm _ _ _ _ Hw (ai_frames _ _ HI)) as HF. rewrite <- Hq in HF. apply (frames_inv_frames s s0) in HF; [|done..].
  assert (Hstep : exists s1, (when (negb (bool_decide (q x = []))) (_ ← free_etharp_q (q x); set_entry (Z.of_nat i) (with_q []))) s0 = Some (tt, s1) /\
      a_table s1 = <[i := with_q [] x]> (a_table s) /\ etharp_cached_entry s1 = etharp_cached_entry s /\ a_netifs s1 = a_netifs s /\
      frames_inv s1 refs rest /\ snd (a_frames s1) = snd (a_frames s) /\ kept s s1 refs rest).
  { case_bool_decide as Eq; cbn [negb when].
    - exists s0. split; [done|]. assert (with_q [] x = x) as -> by (destruct x; cbn in *; by rewrite Eq).
      rewrite Eq in HF. split_and!; try done. by intros p f _.
    - destruct (free_etharp_q_run _ _ _ _ HF) as (s1&E1&(T1&T2&T3)&HI1&Hs1&Hk1). rewrite (bind_run _ _ _ _ _ E1).
      rewrite <- T1 in Hi0. rewrite (set_entry_run _ _ _ _ Hi0). eexists. split; [reflexivity|]. cbn [set_table a_table etharp_cached_entry a_netifs]. rewrite T1.
      split_and!; try done; [apply list_insert_insert_eq|]. by apply (frames_inv_frames s1). }
  destruct Hstep as (s1&E1&T1&C1&N1&HF1&Hs1&Hk1). rewrite (bind_run _ _ _ _ _ E1).
  assert (Hi1 : a_table s1 !! i = Some (with_q [] x)) by (rewrite T1, list_lookup_insert_eq by done; done).
  rewrite (set_entry_run _ _ _ _ Hi1). rewrite T1, list_insert_insert_eq. eexists. split; [reflexivity|]. cbn [set_table a_table etharp_cached_entry a_netifs a_frames].
  assert (Hwn : waiting_in (<[i := cleared x]> (a_table s)) ≡ₚ rest) by apply (Hw' (cleared x)).
  split; [done|]. split; [done|]. split; [|split; [done|]].
  - apply (inv_set s _ refs refs i e (cleared x) HI Hi); cbn [set_table a_table a_netifs etharp_cached_entry]; try done.
    + rewrite C1. apply HI.
    + unfold waiting. cbn [a_table]. eapply frames_inv_perm; [symmetry; exact Hwn|]. by apply (frames_inv_frames s1).
  - unfold waiting, kept in *. split; [done| |]; cbn [set_table a_table].
    + intros p. unfold waiting. cbn [a_table]. rewrite (count_perm _ _ _ Hwn), (count_perm _ _ _ Hw), count_app. pose proof (count_nonneg (q e) p). lia.
    + intros p f Hp. apply Hk1. unfold with_queued, waiting in *. cbn [a_table] in Hp. rewrite (count_perm _ _ _ Hwn) in Hp. done.
Qed.

(** The packets change, the table does not. *)
Lemma inv_frames s s' refs refs' : arp_inv s refs -> same_tables s s' -> a_pool s' = a_pool s -> (forall p, 0 <= refs' p) ->
  holds (a_frames s') (with_queued refs' (waiting s)) -> arp_inv s' refs'.
Proof.
  intros [H1 H2 H3 H4 H5 H6] (T1&T2&T3) HP Hr HF. split; rewrite ?T1, ?T2, ?T3; try done.
  unfold waiting in *. rewrite T1. destruct H4 as [F1 F2 F3 F4]. split; [done|by rewrite HP|done|done].
Qed.

Lemma calm_frames s s' refs : same_tables s s' -> kept s s' refs (waiting s) -> calm s s' refs.
Proof. intros (T1&_&T3) HK. unfold waiting in *. split; unfold waiting; rewrite ?T1; done. Qed.
End inv.
