(* ===== verification/EtharpOps.v ===== *)
(** * The operations of address resolution keep the invariant *)
From S2P Require Import Prelude Pbuf PbufRefs LwipDef IpAddr EthFrames Etharp EtharpTable FrameLaws EtharpInv.
Open Scope Z_scope.

Section ops.
Context (order : byte_order) {A L Q : Type} `{!PbufMemory A} `{!Link A L} `{!ArpQueue Q} `{!FramesOk order A L} `{!ArpQueueOk Q}.
Implicit Types (s : arp A L Q).

Abbreviation arp_inv := (arp_inv order).
Abbreviation calm := (calm order).

(** ** The search *)

Definition fresh_entry (ip n : Z) (e : etharp_entry) : etharp_entry := mkEntry [] ip n (ethaddr e) 0 ETHARP_STATE_EMPTY.

Lemma sweep s refs ip n : arp_inv s refs ->
  match find_loop 0 (take (Z.to_nat ARP_TABLE_SIZE) (a_table s)) ip n no_cands with
  | inl j => exists e, 0 <= j /\ a_table s !! Z.to_nat j = Some e /\ matches ip n e
  | inr c => cands_ok (a_table s) c /\ (forall k e, a_table s !! k = Some e -> ~ matches ip n e)
  end.
Proof.
  intros HI. rewrite take_ge by (rewrite (ai_len _ _ _ HI); lia).
  apply (find_loop_spec (a_table s) [] ip n no_cands).
  - apply Forall_forall. intros e [i Hi]%list_elem_of_lookup. apply (ai_entries _ _ _ HI) in Hi. apply (eo_age _ _ Hi).
  - split; left; cbn; split_and!; try done; intros i e Hi; by rewrite lookup_nil in Hi.
  - intros k e Hk. by rewrite lookup_nil in Hk.
  - cbn [length]. rewrite (ai_len _ _ _ HI). done.
Qed.

(** An empty entry is made ready. *)
Lemma new_entry_run s refs i e ip n : arp_inv s refs -> a_table s !! i = Some e -> state e = ETHARP_STATE_EMPTY ->
  new_entry (Z.of_nat i) ip n s = Some (At (Z.of_nat i), set_table (<[i := fresh_entry ip n e]> (a_table s)) s) /\
  arp_inv (set_table (<[i := fresh_entry ip n e]> (a_table s)) s) refs /\ calm s (set_table (<[i := fresh_entry ip n e]> (a_table s)) s) refs.
Proof.
  intros HI Hi He. pose proof (lookup_lt_Some _ _ _ Hi) as Hlt. pose proof (ai_entries _ _ _ HI _ _ Hi) as HE.
  assert (Hq : q e = []) by (apply (eo_queue _ _ HE); unfold pending; by rewrite He). unfold new_entry.
  rewrite (bind_run _ _ _ _ _ (set_entry_run _ _ _ _ Hi)).
  set (s1 := set_table _ s). assert (H1 : a_table s1 !! i = Some (with_ipaddr ip e)) by (cbn; by apply list_lookup_insert_eq).
  rewrite (bind_run _ _ _ _ _ (set_entry_run _ _ _ _ H1)). cbn [s1 set_table a_table]. rewrite list_insert_insert_eq.
  set (s2 := set_table _ _). assert (H2 : a_table s2 !! i = Some (with_ctime 0 (with_ipaddr ip e))) by (cbn; by apply list_lookup_insert_eq).
  rewrite (bind_run _ _ _ _ _ (set_entry_run _ _ _ _ H2)). cbn [s2 set_table a_table]. rewrite list_insert_insert_eq.
  assert (Hf : with_nif n (with_ctime 0 (with_ipaddr ip e)) = fresh_entry ip n e) by (unfold fresh_entry; destruct e; cbn in *; by subst).
  rewrite Hf. split; [done|]. split; [|by eapply calm_table].
  destruct (waiting_split _ _ _ Hi) as (rest&Hw&Hw').
  apply (inv_set order s _ refs refs i e (fresh_entry ip n e) HI Hi); cbn [set_table a_table a_netifs etharp_cached_entry]; try done.
  - apply HI.
  - pose proof (ai_frames _ _ _ HI) as HF. unfold waiting in *. cbn [set_table a_table]. apply (frames_inv_frames order s); [done..|].
    eapply frames_inv_perm; [|exact HF]. rewrite Hw, Hq, (Hw' (fresh_entry ip n e)). done.
Qed.

(** What a search finds. *)
Inductive found_by s (ip flags n : Z) : found -> arp A L Q -> Prop :=
  | found_old i e : a_table s !! i = Some e -> matches ip n e -> found_by s ip flags n (At (Z.of_nat i)) s
  | found_none : flags = ETHARP_FLAG_FIND_ONLY -> (forall k e, a_table s !! k = Some e -> ~ matches ip n e) -> found_by s ip flags n (NotFound ERR_MEM) s
  | found_new i e s' : flags = ETHARP_FLAG_TRY_HARD -> (forall k e, a_table s !! k = Some e -> ~ matches ip n e) -> a_table s !! i = Some e ->
      (first_empty (a_table s) (Z.of_nat i) /\ state e = ETHARP_STATE_EMPTY \/ (forall k e, a_table s !! k = Some e -> used e) /\ victim (a_table s) (Z.of_nat i)) ->
      a_table s' = <[i := fresh_entry ip n e]> (a_table s) -> etharp_cached_entry s' = etharp_cached_entry s ->
      found_by s ip flags n (At (Z.of_nat i)) s'.

Lemma etharp_find_entry_run s refs ip flags n : arp_inv s refs -> flags = ETHARP_FLAG_TRY_HARD \/ flags = ETHARP_FLAG_FIND_ONLY ->
  exists r s', etharp_find_entry ip flags n s = Some (r, s') /\ found_by s ip flags n r s' /\ arp_inv s' refs /\ calm s s' refs /\
    snd (a_frames s') = snd (a_frames s).
Proof.
  intros HI Hfl. unfold etharp_find_entry. rewrite ask_bind. pose proof (sweep s refs ip n HI) as Hsw.
  pose proof (calm_refl order s refs) as Hcalm.
  destruct (find_loop 0 _ ip n no_cands) as [j|c].
  { destruct Hsw as (e&Hj&He&Hm). exists (At j), s. split; [done|]. split; [|done]. rewrite <- (Z2Nat.id j) by done. by eapply found_old. }
  destruct Hsw as (Hc&Hno). destruct Hfl as [-> | ->].
  2:{ exists (NotFound ERR_MEM), s. split; [done|]. split; [|done]. by apply found_none. }
  change (negb (Z.land ETHARP_FLAG_TRY_HARD ETHARP_FLAG_FIND_ONLY =? 0)) with false.
  change (Z.land ETHARP_FLAG_TRY_HARD ETHARP_FLAG_TRY_HARD =? 0) with false. rewrite andb_false_r. cbn [orb].
  destruct (Z.ltb_spec (c_empty c) ARP_TABLE_SIZE) as [Hlt|Hge].
  - destruct (co_empty _ _ Hc) as [(E&_)|(e&Hj&He&Hs&Hf)]; [lia|]. destruct (new_entry_run s refs (Z.to_nat (c_empty c)) e ip n HI He Hs) as (E&HI'&HC').
    rewrite Z2Nat.id in E by done. rewrite E. eexists _, _. split; [reflexivity|]. split; [|split; [exact HI'|]].
    + rewrite <- (Z2Nat.id (c_empty c)) at 1 by done. eapply found_new; [done|done|exact He| |done|done]. left. rewrite Z2Nat.id by done. split; [|done]. by apply Hc.
    + done.
  - assert (He : c_empty c = ARP_TABLE_SIZE).
    { destruct (co_empty _ _ Hc) as [(E&_)|(e&Hj&He&_)]; [done|]. apply lookup_lt_Some in He. rewrite (ai_len _ _ _ HI) in He. lia. }
    destruct (victim_found (a_table s) c Hc ltac:(rewrite (ai_len _ _ _ HI); done) He) as [Hv Hi]. rewrite Hi.
    set (i := if old_stable c <? ARP_TABLE_SIZE then _ else _) in *. clearbody i. pose proof Hv as (k&e&Hi0&Hie&_). 
    pose proof (ai_entries _ _ _ HI _ _ Hie) as HEi.
    destruct (etharp_free_entry_run order s refs (Z.to_nat i) e e HI Hie eq_refl ltac:(apply HEi)) as (s1&E1&T1&C1&HI1&Hs1&Hk1). rewrite Z2Nat.id, list_insert_id, set_table_same in E1 by done.
    rewrite (bind_run _ _ _ _ _ E1). assert (Hi1 : a_table s1 !! Z.to_nat i = Some (cleared e)) by (rewrite T1; apply list_lookup_insert_eq; by eapply lookup_lt_Some).
    destruct (new_entry_run s1 refs (Z.to_nat i) (cleared e) ip n HI1 Hi1 eq_refl) as (E2&HI2&HC2). rewrite Z2Nat.id in E2 by done. rewrite E2.
    rewrite T1, list_insert_insert_eq in *. eexists _, _. split; [reflexivity|]. split; [|split; [exact HI2|split; [|exact Hs1]]].
    + rewrite <- (Z2Nat.id i) at 1 by done. eapply (found_new s ip _ n (Z.to_nat i) e); [done|done|exact Hie| |done|exact C1]. right. rewrite Z2Nat.id by done. split; [|done].
      destruct (co_empty _ _ Hc) as [(_&H)|(x&Hx&Hy&_)]; [done|]. apply lookup_lt_Some in Hy. rewrite (ai_len _ _ _ HI) in Hy. lia.
    + eapply calm_trans; [exact Hk1|exact HC2].
Qed.

(** ** Requests *)

Definition request_frame (f : netif) (ip : Z) (dst : list Z) : list Z :=
  eth_frame dst (hwaddr f) ETHTYPE_ARP (arp_packet order ARP_REQUEST (hwaddr f) (ip_addr f) ethzero ip).

Lemma ethzero_ok : hw_ok ethzero.
Proof. split; [done|]. unfold ethzero. repeat (apply Forall_cons; split; [unfold byte_ok; lia|]). done. Qed.

Lemma ethbroadcast_ok : hw_ok ethbroadcast.
Proof. split; [done|]. unfold ethbroadcast. repeat (apply Forall_cons; split; [unfold byte_ok; lia|]). done. Qed.

(** Everything but the packets and the driver. *)
Definition same_rest s s' : Prop := same_tables s s' /\ a_pool s' = a_pool s.

Lemma same_rest_refl s : same_rest s s.
Proof. by split. Qed.

Lemma same_rest_trans s1 s2 s3 : same_rest s1 s2 -> same_rest s2 s3 -> same_rest s1 s3.
Proof. intros ((T1&T2&T3)&P1) ((U1&U2&U3)&P2). repeat split; congruence. Qed.

(** A packet of an ARP is made and sent, or there is no memory for it. *)
Lemma etharp_raw_run s refs n f dst hwdst ipdst op : arp_inv s refs -> a_netifs s !! n = Some f -> hw_ok dst -> hw_ok hwdst ->
  0 <= ipdst < 2 ^ 32 -> 0 <= op < 2 ^ 16 ->
  exists r s', on_frames (etharp_raw order n (hwaddr f) dst (hwaddr f) (ip_addr f) hwdst ipdst op) s = Some (r, s') /\ same_rest s s' /\ arp_inv s' refs /\ calm s s' refs /\
    (r = ERR_MEM /\ snd (a_frames s') = snd (a_frames s) /\ no_memory SIZEOF_ETHARP_HDR (a_frames s) \/
     r = ERR_OK /\ sent (snd (a_frames s')) = sent (snd (a_frames s)) ++ [(n, eth_frame dst (hwaddr f) ETHTYPE_ARP (arp_packet order op (hwaddr f) (ip_addr f) hwdst ipdst))]).
Proof.
  intros HI Hf Hd Hh Hip Hop. destruct (ai_netifs _ _ _ HI _ _ Hf) as (Hn&Hhw&Hipf&Hgw). pose proof (ai_frames _ _ _ HI) as HF.
  destruct (raw_ok _ _ n _ _ _ _ _ _ op (fi_holds _ _ _ _ HF) Hhw Hd Hhw Hh Hipf Hip Hop) as (r&w&E&Hw&Hk&Hr).
  eexists r, _. split; [exact (on_frames_run _ _ _ _ E)|]. split; [done|]. split; [|split].
  - eapply (inv_frames order s); [done|done|done|apply HF|exact Hw].
  - by apply calm_frames.
  - exact Hr.
Qed.

Lemma etharp_request_run s refs n f ip dst : arp_inv s refs -> a_netifs s !! n = Some f -> hw_ok dst -> 0 <= ip < 2 ^ 32 ->
  exists r s', etharp_request_dst order n ip dst s = Some (r, s') /\ same_rest s s' /\ arp_inv s' refs /\ calm s s' refs /\
    (r = ERR_MEM /\ snd (a_frames s') = snd (a_frames s) /\ no_memory SIZEOF_ETHARP_HDR (a_frames s) \/ r = ERR_OK /\ sent (snd (a_frames s')) = sent (snd (a_frames s)) ++ [(n, request_frame f ip dst)]).
Proof.
  intros HI Hf Hd Hip. unfold etharp_request_dst. rewrite (bind_run _ _ _ _ _ (get_netif_run _ _ _ Hf)).
  apply etharp_raw_run; try done. apply ethzero_ok.
Qed.

(** ** Ageing *)

(** The entry after a tick. *)
Definition aged (e : etharp_entry) : etharp_entry :=
  let e1 := with_ctime (ctime e + 1) e in
  match state e with
  | ETHARP_STATE_EMPTY => e
  | ETHARP_STATE_PENDING => if ARP_MAXPENDING <=? ctime e1 then cleared e1 else e1
  | st =>
      if ARP_MAXAGE <=? ctime e1 then cleared e1
      else match st with
           | ETHARP_STATE_STABLE_REREQUESTING_1 => with_arp_state ETHARP_STATE_STABLE_REREQUESTING_2 e1
           | ETHARP_STATE_STABLE_REREQUESTING_2 => with_arp_state ETHARP_STATE_STABLE e1
           | _ => e1
           end
  end.

(** The request for an entry that stays pending. *)
Definition tick_request (netifs : gmap Z netif) (e : etharp_entry) : option (Z * list Z) :=
  if bool_decide (state e = ETHARP_STATE_PENDING) && (ctime e + 1 <? ARP_MAXPENDING) then
    (fun f => (nif e, request_frame f (ipaddr e) ethbroadcast)) <$> netifs !! nif e
  else None.

(** One entry changes, and neither its address nor its queue does. *)
Lemma inv_entry s refs i e e' : arp_inv s refs -> a_table s !! i = Some e -> q e' = q e -> entry_ok (a_netifs s) e' -> used e ->
  ipaddr e' = ipaddr e -> nif e' = nif e ->
  arp_inv (set_table (<[i := e']> (a_table s)) s) refs /\ calm s (set_table (<[i := e']> (a_table s)) s) refs.
Proof.
  intros HI Hi Hq Hok Hu E1 E2. split; [|by eapply calm_table].
  apply (inv_set order s _ refs refs i e e' HI Hi); try done.
  - apply HI.
  - intros _. by eapply unique_stays.
  - pose proof (ai_frames _ _ _ HI) as HF. apply (frames_inv_frames order s); [done..|]. eapply frames_inv_perm; [|exact HF].
    symmetry. by apply (waiting_same s i e).
Qed.

(** A step that changes entry [i] only. *)
Definition entry_step s s' (refs : Z -> Z) (i : nat) (e' : etharp_entry) : Prop :=
  a_table s' = <[i := e']> (a_table s) /\ etharp_cached_entry s' = etharp_cached_entry s /\ arp_inv s' refs /\ calm s s' refs.

Lemma set_entry_step s refs i e f : arp_inv s refs -> a_table s !! i = Some e -> q (f e) = q e -> entry_ok (a_netifs s) (f e) -> used e ->
  ipaddr (f e) = ipaddr e -> nif (f e) = nif e ->
  exists s', set_entry (Z.of_nat i) f s = Some (tt, s') /\ entry_step s s' refs i (f e) /\ a_frames s' = a_frames s.
Proof.
  intros HI Hi Hq Hok Hu E1 E2. destruct (inv_entry s refs i e (f e) HI Hi Hq Hok Hu E1 E2) as [HI' HC].
  eexists. split; [exact (set_entry_run _ _ _ _ Hi)|]. by split.
Qed.

Lemma entry_step_then s s1 s2 refs i e1 e2 : entry_step s s1 refs i e1 -> entry_step s1 s2 refs i e2 -> entry_step s s2 refs i e2.
Proof.
  intros (T1&C1&_&K1) (T2&C2&I2&K2). split_and!; [by rewrite T2, T1, list_insert_insert_eq|congruence|done|by eapply calm_trans].
Qed.

Lemma entry_step_same s s' refs i e : a_table s !! i = Some e -> same_rest s s' -> arp_inv s' refs -> calm s s' refs -> entry_step s s' refs i e.
Proof. intros Hi ((T1&T2&T3)&P) HI HC. split_and!; try done. by rewrite T1, list_insert_id. Qed.

Lemma entry_step_at s s' refs i e : entry_step s s' refs i e -> (i < length (a_table s))%nat -> a_table s' !! i = Some e.
Proof. intros (T&_) Hl. rewrite T. by apply list_lookup_insert_eq. Qed.

Lemma entry_ok_ctime netifs e c : entry_ok netifs e -> 0 <= c < ARP_MAXAGE -> (pending e -> c < ARP_MAXPENDING) -> entry_ok netifs (with_ctime c e).
Proof. intros [] Hc Hp. split; try done. cbn. split_and!; [lia|intros _; lia|done]. Qed.

Lemma stable_used e : is_stable (state e) = true -> used e.
Proof. unfold used. by destruct (state e). Qed.

(** A stable entry goes to another stable state. *)
Lemma set_state_step s refs i e st : arp_inv s refs -> a_table s !! i = Some e -> is_stable (state e) = true -> is_stable st = true ->
  exists s', set_entry (Z.of_nat i) (with_arp_state st) s = Some (tt, s') /\ entry_step s s' refs i (with_arp_state st e) /\ a_frames s' = a_frames s.
Proof.
  intros HI Hi He Hst. apply stable_used in He as Hu. destruct (ai_entries _ _ _ HI _ _ Hi) as [H1 H2 (H3&H4&H5) H6 H7].
  assert (Hn : ~ pending e) by (unfold pending; by destruct (state e)). assert (Hn' : st <> ETHARP_STATE_PENDING) by (by destruct st).
  apply set_entry_step; try done. split; cbn; auto. by split_and!; auto.
Qed.

Lemma tmr_entry_run s refs i e : arp_inv s refs -> a_table s !! i = Some e ->
  exists s', tmr_entry order (Z.of_nat i) s = Some (tt, s') /\ entry_step s s' refs i (aged e) /\
    exists reqs, sent (snd (a_frames s')) = sent (snd (a_frames s)) ++ reqs /\ sublist reqs (option_list (tick_request (a_netifs s) e)).
Proof.
  intros HI Hi. unfold tmr_entry. rewrite (bind_run _ _ _ _ _ (entry_run _ _ _ Hi)). pose proof (ai_entries _ _ _ HI _ _ Hi) as HE.
  pose proof (lookup_lt_Some _ _ _ Hi) as Hlt. destruct (eo_age _ _ HE) as (Hc0&Hcu&Hcp). unfold aged, tick_request.
  case_bool_decide as Es.
  { rewrite Es. exists s. split; [done|]. split; [apply entry_step_same; [done|apply same_rest_refl|done|apply calm_refl]|]. exists []. by rewrite app_nil_r. }
  assert (Hu16 : u16 (ctime e + 1) = ctime e + 1) by (specialize (Hcu Es); unfold ARP_MAXAGE in Hcu; apply u16_small; lia).
  rewrite Hu16. rewrite (bind_run _ _ _ _ _ (set_entry_run _ _ _ _ Hi)).
  set (e1 := with_ctime (ctime e + 1) e). set (s1 := set_table _ s). specialize (Hcu Es).
  assert (H1 : a_table s1 !! i = Some e1) by (cbn; by apply list_lookup_insert_eq).
  rewrite (bind_run _ _ _ _ _ (entry_run _ _ _ H1)). change (ctime e1) with (ctime e + 1). change (state e1) with (state e).
  assert (Hfree : exists s', etharp_free_entry (Z.of_nat i) s1 = Some (tt, s') /\ entry_step s s' refs i (cleared e1) /\ snd (a_frames s') = snd (a_frames s)).
  { destruct (etharp_free_entry_run order s refs i e e1 HI Hi eq_refl ltac:(cbn; lia)) as (s'&E&T&C&HI'&Hs&HC). exists s'. by split_and!. }
  assert (Hkeep : ctime e + 1 < ARP_MAXAGE -> (pending e -> ctime e + 1 < ARP_MAXPENDING) -> entry_step s s1 refs i e1).
  { intros H2 H3. destruct (set_entry_step s refs i e (with_ctime (ctime e + 1)) HI Hi) as (s'&E&Hst&_); [done| |done..|].
    - apply entry_ok_ctime; [done|lia|done].
    - rewrite (set_entry_run _ _ _ _ Hi) in E. injection E as <-. exact Hst. }
  assert (Hfs : a_frames s1 = a_frames s) by done. clearbody s1.
  assert (Hno : forall s' : arp A L Q, snd (a_frames s') = snd (a_frames s) -> exists reqs, sent (snd (a_frames s')) = sent (snd (a_frames s)) ++ reqs /\
    sublist reqs (option_list (if bool_decide (state e = ETHARP_STATE_PENDING) && (ctime e + 1 <? ARP_MAXPENDING) then
      (fun f => (nif e, request_frame f (ipaddr e) ethbroadcast)) <$> a_netifs s !! nif e else None))).
  { intros s' ->. exists []. rewrite app_nil_r. split; [done|]. apply sublist_nil_l. }
  destruct (decide (state e = ETHARP_STATE_PENDING)) as [E|E].
  - rewrite E. rewrite bool_decide_true by done. cbn [andb]. destruct (Z.leb_spec ARP_MAXPENDING (ctime e + 1)) as [Hp|Hp].
    + rewrite orb_true_r. destruct Hfree as (s'&Ef&Hst&Hs). exists s'. split; [done|]. split; [done|]. rewrite (proj2 (Z.ltb_ge _ _)) by lia.
      exists []. rewrite Hs, app_nil_r. split; [done|]. apply sublist_nil_l.
    + rewrite (proj2 (Z.leb_gt ARP_MAXAGE _)) by (unfold ARP_MAXAGE, ARP_MAXPENDING in *; lia). cbn [orb].
      pose proof (Hkeep ltac:(unfold ARP_MAXAGE, ARP_MAXPENDING in *; lia) ltac:(lia)) as Hst. pose proof Hst as (T1&C1&HI1&HC1).
      destruct (eo_nif _ _ HE Es) as [[f Hf] Hip]. rewrite <- (ca_netifs _ _ _ _ HC1) in Hf.
      destruct (etharp_request_run s1 refs (nif e1) f (ipaddr e1) ethbroadcast HI1 Hf ethbroadcast_ok Hip) as (r&s2&E2&Hsr&HI2&HC2&Hr).
      unfold etharp_request. rewrite (bind_run _ _ _ _ _ E2). exists s2. split; [done|].
      split; [eapply entry_step_then; [exact Hst|by apply entry_step_same]|].
      rewrite (proj2 (Z.ltb_lt _ _)) by lia. rewrite <- (ca_netifs _ _ _ _ HC1), Hf. rewrite Hfs in Hr. cbn [fmap option_fmap option_map option_list].
      destruct Hr as [(_&Hr&_)|(_&Hr)]; [exists []|eexists [_]]; rewrite Hr, ?app_nil_r; (split; [reflexivity|]); [apply sublist_nil_l|reflexivity].
  - rewrite bool_decide_false in Hno |- * by done. cbn [andb] in *. rewrite orb_false_r. destruct (Z.leb_spec ARP_MAXAGE (ctime e + 1)) as [Hp|Hp].
    + destruct Hfree as (s'&Ef&Hst&Hs). exists s'. split; [done|]. split; [|by apply Hno]. by destruct (state e).
    + pose proof (Hkeep ltac:(lia) ltac:(done)) as Hst. pose proof Hst as (_&_&HI1&_).
      assert (Hset : forall st, is_stable (state e) = true -> is_stable st = true -> exists s', set_entry (Z.of_nat i) (with_arp_state st) s1 = Some (tt, s') /\
        entry_step s s' refs i (with_arp_state st e1) /\ snd (a_frames s') = snd (a_frames s)).
      { intros st H2 H3. destruct (set_state_step s1 refs i e1 st HI1 H1 H2 H3) as (s'&E'&Hst'&Hs'). exists s'. split; [done|].
        split; [by eapply entry_step_then|by rewrite Hs', Hfs]. }
      destruct (state e) eqn:Ee; try done.
      * exists s1. split; [done|]. split; [done|]. apply Hno. by rewrite Hfs.
      * destruct (Hset ETHARP_STATE_STABLE_REREQUESTING_2) as (s'&E'&Hst'&Hs'); [done..|]. exists s'. by split_and!; auto.
      * destruct (Hset ETHARP_STATE_STABLE) as (s'&E'&Hst'&Hs'); [done..|]. exists s'. by split_and!; auto.
Qed.

(** ** Loops over the table *)

Lemma for_entries_run (P : nat -> arp A L Q -> Prop) (f : Z -> prog (arp A L Q) unit) n : forall i s, P i s ->
  (forall k t, (i <= k < i + n)%nat -> P k t -> exists t', f (Z.of_nat k) t = Some (tt, t') /\ P (S k) t') ->
  exists s', for_entries n (Z.of_nat i) f s = Some (tt, s') /\ P (i + n)%nat s'.
Proof.
  induction n as [|n IH]; intros i s Hs Hf; cbn [for_entries]; [exists s; by rewrite Nat.add_0_r|].
  destruct (Hf i s ltac:(lia) Hs) as (s1&E1&H1). rewrite (bind_run _ _ _ _ _ E1). replace (Z.of_nat i + 1) with (Z.of_nat (S i)) by lia.
  destruct (IH (S i) s1 H1) as (s'&E'&H'); [intros k t Hk; apply Hf; lia|]. exists s'. split; [done|]. by replace (i + S n)%nat with (S i + n)%nat by lia.
Qed.

(** A loop that treats every entry by itself. *)
Definition swept (g : etharp_entry -> etharp_entry) s0 (refs : Z -> Z) (k : nat) s : Prop :=
  a_table s = (g <$> take k (a_table s0)) ++ drop k (a_table s0) /\ etharp_cached_entry s = etharp_cached_entry s0 /\ arp_inv s refs /\ calm s0 s refs.

Lemma swept_at g s0 refs k s e : swept g s0 refs k s -> a_table s0 !! k = Some e -> a_table s !! k = Some e.
Proof.
  intros (T&_) Hk. pose proof (lookup_lt_Some _ _ _ Hk). rewrite T, lookup_app_r by (rewrite length_fmap, length_take; lia).
  rewrite length_fmap, length_take, lookup_drop. replace (k + (k - k `min` length (a_table s0)))%nat with k by lia. done.
Qed.

Lemma swept_step g s0 refs k s s' e : swept g s0 refs k s -> a_table s0 !! k = Some e -> entry_step s s' refs k (g e) -> swept g s0 refs (S k) s'.
Proof.
  intros (T&C&HI&HC) Hk (T'&C'&HI'&HC'). pose proof (lookup_lt_Some _ _ _ Hk) as Hlt. split; [|split; [congruence|split; [done|by eapply calm_trans]]].
  rewrite T', T, (take_S_r _ _ _ Hk), fmap_app. replace k with (length (g <$> take k (a_table s0)) + 0)%nat at 1 by (rewrite length_fmap, length_take; lia).
  rewrite insert_app_r, <- app_assoc. f_equal. by rewrite (drop_S _ _ _ Hk).
Qed.

Lemma swept_start g s refs : arp_inv s refs -> swept g s refs 0 s.
Proof. intros HI. split; [by rewrite drop_0|]. split; [done|]. split; [done|apply calm_refl]. Qed.

Lemma swept_end g s0 refs s : arp_inv s0 refs -> swept g s0 refs (Z.to_nat ARP_TABLE_SIZE) s -> a_table s = g <$> a_table s0.
Proof. intros HI (T&_). rewrite T. by rewrite take_ge, drop_ge, app_nil_r by (by rewrite (ai_len _ _ _ HI)). Qed.

Lemma entry_at s refs k : arp_inv s refs -> (k < Z.to_nat ARP_TABLE_SIZE)%nat -> exists e, a_table s !! k = Some e.
Proof. intros HI Hk. apply lookup_lt_is_Some_2. by rewrite (ai_len _ _ _ HI). Qed.

Lemma etharp_tmr_run s refs : arp_inv s refs -> exists s', etharp_tmr order s = Some (tt, s') /\ a_table s' = aged <$> a_table s /\
  etharp_cached_entry s' = etharp_cached_entry s /\ arp_inv s' refs /\ calm s s' refs /\
  exists reqs, sent (snd (a_frames s')) = sent (snd (a_frames s)) ++ reqs /\ sublist reqs (omap (tick_request (a_netifs s)) (a_table s)).
Proof.
  intros HI. destruct (for_entries_run (fun k t => swept aged s refs k t /\ exists reqs, sent (snd (a_frames t)) = sent (snd (a_frames s)) ++ reqs /\
    sublist reqs (omap (tick_request (a_netifs s)) (take k (a_table s)))) (tmr_entry order) (Z.to_nat ARP_TABLE_SIZE) 0 s) as (s'&E&Hsw&reqs&Hr&Hsub).
  - split; [by apply swept_start|]. exists []. by rewrite app_nil_r.
  - intros k t Hk (Hsw&reqs&Hr&Hsub). destruct (entry_at s refs k HI) as [e He]; [lia|].
    destruct (tmr_entry_run t refs k e ltac:(apply Hsw) (swept_at _ _ _ _ _ _ Hsw He)) as (t'&E'&Hst&rq&Hrq&Hsrq). exists t'. split; [done|].
    split; [by eapply swept_step|]. exists (reqs ++ rq). rewrite Hrq, Hr, <- app_assoc. split; [done|]. rewrite (take_S_r _ _ _ He), omap_app.
    apply sublist_app; [done|]. destruct Hsw as (_&_&_&HC). rewrite (ca_netifs _ _ _ _ HC) in Hsrq. cbn [omap list_omap]. by destruct (tick_request _ e).
  - exists s'. split; [exact E|]. split; [by eapply swept_end|]. cbn [Nat.add] in *. rewrite take_ge in Hsub by (by rewrite (ai_len _ _ _ HI)).
    destruct Hsw as (_&C&HI'&HC). split_and!; try done. by exists reqs.
Qed.

(** The entries of an interface are released. *)
Definition cleaned (n : Z) (e : etharp_entry) : etharp_entry := if decide (used e /\ nif e = n) then cleared e else e.

Lemma cleanup_entry_run s refs n i e : arp_inv s refs -> a_table s !! i = Some e ->
  exists s', cleanup_entry n (Z.of_nat i) s = Some (tt, s') /\ entry_step s s' refs i (cleaned n e) /\ snd (a_frames s') = snd (a_frames s).
Proof.
  intros HI Hi. unfold cleanup_entry, cleaned. rewrite (bind_run _ _ _ _ _ (entry_run _ _ _ Hi)).
  replace (negb (bool_decide (state e = ETHARP_STATE_EMPTY)) && (nif e =? n)) with (bool_decide (used e /\ nif e = n)).
  2:{ unfold used. apply eq_true_iff_eq. rewrite bool_decide_eq_true, andb_true_iff, negb_true_iff, bool_decide_eq_false, Z.eqb_eq. done. }
  case_bool_decide as Hu; [rewrite decide_True by done|rewrite decide_False by done]; cbn [when].
  - pose proof (ai_entries _ _ _ HI _ _ Hi) as HE. destruct (etharp_free_entry_run order s refs i e e HI Hi eq_refl ltac:(apply HE)) as (s'&E&T&C&HI'&Hs&HC).
    rewrite list_insert_id, set_table_same in E by done. exists s'. by split_and!.
  - exists s. split; [done|]. split; [|done]. apply entry_step_same; [done|apply same_rest_refl|done|apply calm_refl].
Qed.

Lemma etharp_cleanup_netif_run s refs n : arp_inv s refs -> exists s', etharp_cleanup_netif n s = Some (tt, s') /\ a_table s' = cleaned n <$> a_table s /\
  etharp_cached_entry s' = etharp_cached_entry s /\ arp_inv s' refs /\ calm s s' refs /\ snd (a_frames s') = snd (a_frames s).
Proof.
  intros HI. destruct (for_entries_run (fun k t => swept (cleaned n) s refs k t /\ snd (a_frames t) = snd (a_frames s)) (cleanup_entry n) (Z.to_nat ARP_TABLE_SIZE) 0 s) as (s'&E&Hsw&Hs).
  - split; [by apply swept_start|done].
  - intros k t Hk (Hsw&Hs). destruct (entry_at s refs k HI) as [e He]; [lia|].
    destruct (cleanup_entry_run t refs n k e ltac:(apply Hsw) (swept_at _ _ _ _ _ _ Hsw He)) as (t'&E'&Hst&Hs'). exists t'. split; [done|].
    split; [by eapply swept_step|congruence].
  - exists s'. split; [exact E|]. split; [by eapply swept_end|]. destruct Hsw as (_&C&HI'&HC). by split_and!.
Qed.
End ops.
