(* ===== verification/EtharpSend.v ===== *)
(** * Sending: the waiting packets, answers, requests *)
From S2P Require Import Prelude Pbuf PbufRefs LwipDef IpAddr EthFrames Etharp EtharpTable FrameLaws EtharpInv EtharpOps.
Open Scope Z_scope.

Section send.
Context (order : byte_order) {A L Q : Type} `{!PbufMemory A} `{!Link A L} `{!ArpQueue Q} `{!FramesOk order A L} `{!ArpQueueOk Q}.
Implicit Types (s : arp A L Q).

Abbreviation arp_inv := (arp_inv order).
Abbreviation calm := (calm order).
Abbreviation frames_inv := (frames_inv order).

(** The frame of an IP packet. *)
Definition ip_frame (n : Z) (f : netif) (addr : list Z) (pk : pkt) : Z * list Z := (n, eth_frame addr (hwaddr f) ETHTYPE_IP (data pk)).

(** The packets outside of [X] that are held before and after keep their contents. *)
Definition kept_but (X : list Z) s s' (refs : Z -> Z) (qs : list (Z * Z)) : Prop :=
  forall p f, p ∉ X -> 0 < with_queued refs qs p -> packet (a_frames s) p f -> packet (a_frames s') p f.

Lemma held_queued refs qs (x : Z * Z) : (forall p, 0 <= refs p) -> x ∈ qs -> 0 < with_queued refs qs x.2.
Proof.
  intros Hr (l1&l2&->)%list_elem_of_split. unfold with_queued. rewrite count_app, count_cons, decide_True by done.
  pose proof (count_nonneg l1 x.2). pose proof (count_nonneg l2 x.2). specialize (Hr x.2). lia.
Qed.

(** A packet whose reference the caller gives up. *)
Lemma release_run s refs p : (forall p, 0 <= refs p) -> forall qs, frames_inv s refs qs -> 0 < refs p ->
  exists r s', on_frames (on_packets (pbuf_free p)) s = Some (r, s') /\ same_rest s s' /\ frames_inv s' (bump (-1) p refs) qs /\
    snd (a_frames s') = snd (a_frames s) /\ kept_but [] s s' (bump (-1) p refs) qs.
Proof.
  intros Hr qs [H1 H2 H3 H4] Hp. assert (Hp' : 0 < with_queued refs qs p) by (unfold with_queued; pose proof (count_nonneg qs p); lia).
  destruct (free_ok _ _ _ H1 Hp') as (r&w&E&Hw&Hk&Hs). eexists r, _. split; [exact (on_frames_run _ _ _ _ E)|]. split; [done|].
  assert (Heq : forall y, bump (-1) p (with_queued refs qs) y = with_queued (bump (-1) p refs) qs y).
  { intros y. unfold bump, with_queued. destruct (decide _); lia. }
  split; [|split; [done|]].
  - split; cbn [a_frames a_pool]; try done; [eapply holds_ext; [|exact Hw]; intros y; by rewrite Heq|].
    intros y. unfold bump. case_decide as Hd; [|done]. destruct Hd as [-> _]. lia.
  - intros y f _ Hy Hf. apply Hk; [by rewrite Heq|done].
Qed.

Lemma frames_inv_refs s refs refs' qs : (forall p, refs' p = refs p) -> frames_inv s refs qs -> frames_inv s refs' qs.
Proof. intros Hr [H1 H2 H3 H4]. split; try done; [|intros p; by rewrite Hr]. eapply holds_ext; [|exact H1]. intros p. unfold with_queued. by rewrite Hr. Qed.

Lemma bump_back p refs y : bump (-1) p (bump 1 p refs) y = refs y.
Proof. unfold bump. case_decide; lia. Qed.

Lemma queued_cons refs r p qs y : p <> 0 -> with_queued refs ((r, p) :: qs) y = with_queued (bump 1 p refs) qs y.
Proof.
  intros Hp. unfold with_queued, bump. rewrite count_cons. cbn [snd]. destruct (decide (y = p /\ p <> 0)) as [[-> _]|Hn]; [rewrite decide_True by done; lia|].
  rewrite decide_False; [lia|]. intros ->. by apply Hn.
Qed.

Lemma queued_bump refs p qs y : with_queued refs qs y <= with_queued (bump 1 p refs) qs y.
Proof. unfold with_queued, bump. case_decide; lia. Qed.

Lemma bump_nonneg p refs : (forall y, 0 <= refs y) -> forall y, 0 <= bump 1 p refs y.
Proof. intros Hr y. unfold bump. specialize (Hr y). case_decide; lia. Qed.

(** The element is given back; its reference is now in the hands of the caller. *)
Lemma take_out_run s refs r p qs : frames_inv s refs ((r, p) :: qs) ->
  exists s', on_pool (arpq_free r) s = Some (tt, s') /\ same_tables s s' /\ a_frames s' = a_frames s /\ frames_inv s' (bump 1 p refs) qs /\ p <> 0 /\ 0 < bump 1 p refs p.
Proof.
  intros [H1 H2 H3 H4]. cbn in H2, H3. apply NoDup_cons in H3 as [Hr H3].
  assert (Hp : 0 < with_queued refs ((r, p) :: qs) p) by (apply (held_queued refs _ (r, p) H4); by left).
  destruct (holds_packet _ _ _ H1 Hp) as [Hp0 _]. destruct (arpq_free_ok _ _ r H2 ltac:(set_solver)) as (c&Ec&Hc).
  eexists. split; [exact (on_pool_run _ _ _ _ Ec)|]. split; [done|]. split; [done|]. split; [|split; [done|]].
  - split; cbn [a_frames a_pool]; [| |done|by apply bump_nonneg].
    + eapply holds_ext; [|exact H1]. intros y. by rewrite queued_cons.
    + replace (list_to_set qs.*1 : gset Z) with (({[r]} ∪ list_to_set qs.*1) ∖ {[r]} : gset Z); [done|].
      apply set_eq. intros y. rewrite elem_of_difference, elem_of_union, elem_of_singleton, elem_of_list_to_set. split; [tauto|].
      intros Hy. split; [by right|]. intros ->. done.
  - unfold bump. rewrite decide_True by done. specialize (H4 p). lia.
Qed.

(** The packets of a queue go out one after the other. *)
Lemma send_queue_run fuel i n f addr : hw_ok (hwaddr f) -> hw_ok addr -> forall s refs e rest,
  a_table s !! i = Some e -> a_netifs s !! n = Some f -> frames_inv s refs (q e ++ rest) -> (length (q e) < fuel)%nat ->
  exists s', send_queue order fuel (Z.of_nat i) n addr s = Some (tt, s') /\ a_table s' = <[i := with_q [] e]> (a_table s) /\
    etharp_cached_entry s' = etharp_cached_entry s /\ a_netifs s' = a_netifs s /\ frames_inv s' refs rest /\
    kept_but (q e).*2 s s' refs rest /\
    (NoDup (q e).*2 -> forall pks, Forall2 (fun x pk => packet (a_frames s) x.2 pk) (q e) pks -> Forall (fun pk => room pk = true) pks ->
      sent (snd (a_frames s')) = sent (snd (a_frames s)) ++ (ip_frame n f addr <$> pks)).
Proof.
  intros Hhw Haddr. induction fuel as [|fuel IH]; intros s refs e rest Hi Hf HF Hfuel; [lia|]. cbn [send_queue].
  rewrite (bind_run _ _ _ _ _ (entry_run _ _ _ Hi)). pose proof (lookup_lt_Some _ _ _ Hi) as Hlt. destruct (q e) as [|[r p] l] eqn:Eq.
  { exists s. assert (with_q [] e = e) as -> by (destruct e; cbn in *; by subst). rewrite list_insert_id by done.
    split_and!; try done; [by intros y g _ _|]. intros _ pks Hp _. inversion Hp. by rewrite app_nil_r. }
  cbn [length app] in *. rewrite (bind_run _ _ _ _ _ (set_entry_run _ _ _ _ Hi)). set (s1 := set_table _ s).
  assert (HF1 : frames_inv s1 refs ((r, p) :: l ++ rest)) by (by apply (frames_inv_frames order s)).
  destruct (take_out_run _ _ _ _ _ HF1) as (s2&E2&(T2&C2&N2)&W2&HF2&Hp0&Hp). rewrite (bind_run _ _ _ _ _ E2).
  assert (Hf2 : a_netifs s2 !! n = Some f) by (by rewrite N2). rewrite (bind_run _ _ _ _ _ (get_netif_run _ _ _ Hf2)).
  assert (Hq2 : 0 < with_queued (bump 1 p refs) (l ++ rest) p) by (unfold with_queued; pose proof (count_nonneg (l ++ rest) p); lia).
  destruct (holds_packet _ _ _ (fi_holds _ _ _ _ HF2) Hq2) as (_&pk&Hpk).
  destruct (send_ok _ _ n p pk (hwaddr f) addr ETHTYPE_IP (fi_holds _ _ _ _ HF2) Hq2 Hpk Hhw Haddr ltac:(unfold ETHTYPE_IP; lia)) as (x&w&E3&Hw&Hkeep&Hsent).
  rewrite (bind_run _ _ _ _ _ (on_frames_run _ _ _ _ E3)). set (s3 := mkArp _ _ _ w _).
  assert (HF3 : frames_inv s3 (bump 1 p refs) (l ++ rest)) by (destruct HF2; by split).
  destruct (release_run s3 (bump 1 p refs) p (fi_refs _ _ _ _ HF2) _ HF3 Hp) as (x'&s4&E4&((T4&C4&N4)&P4)&HF4&S4&K4). rewrite (bind_run _ _ _ _ _ E4).
  apply (frames_inv_refs _ _ refs) in HF4; [|intros y; by rewrite bump_back].
  assert (Ht4 : a_table s4 = <[i := with_q l e]> (a_table s)) by (rewrite T4; cbn; by rewrite T2).
  assert (Hi4 : a_table s4 !! i = Some (with_q l e)) by (rewrite Ht4; by apply list_lookup_insert_eq).
  assert (Hk4 : kept_but [p] s s4 refs (l ++ rest)).
  { intros y g Hy Hhold Hg. apply K4; [set_solver|unfold with_queued in *; by rewrite bump_back|].
    apply Hkeep; [set_solver| |by rewrite W2]. pose proof (queued_bump refs p (l ++ rest) y). lia. }
  destruct (IH s4 refs (with_q l e) rest Hi4 ltac:(rewrite N4; cbn; by rewrite N2) HF4 ltac:(cbn; lia)) as (s'&E'&T'&C'&N'&HF'&K'&S'). rewrite E'. exists s'.
  split; [done|]. split; [by rewrite T', Ht4, list_insert_insert_eq|]. split; [rewrite C', C4; cbn; by rewrite C2|]. split; [rewrite N', N4; cbn; by rewrite N2|].
  split; [done|]. cbn [with_q q] in K', S'. split.
  - intros y g Hy Hhold Hg. cbn in Hy. apply K'; [set_solver|done|]. apply Hk4; [set_solver| |done]. unfold with_queued in *. rewrite count_app. pose proof (count_nonneg l y). lia.
  - cbn. intros [Hnp Hnd]%NoDup_cons pks Hpks Hroom. inversion Hpks as [|? pk' ? pks' Hpk' Hpks' E5 E6]; subst. apply Forall_cons in Hroom as [Hr1 Hr2].
    change (a_frames s) with (a_frames s1) in Hpk'. rewrite <- W2 in Hpk'.
    destruct (send_ok _ _ n p pk' (hwaddr f) addr ETHTYPE_IP (fi_holds _ _ _ _ HF2) Hq2 Hpk' Hhw Haddr ltac:(unfold ETHTYPE_IP; lia)) as (x1&w1&E7&_&_&[Hs1|(Hs1&_)]); [|congruence].
    rewrite E3 in E7. injection E7 as <- <-.
    rewrite (S' Hnd pks'); [| |done].
    + rewrite S4. cbn [s3 a_frames]. rewrite Hs1, W2. cbn [fmap list_fmap]. by rewrite <- app_assoc.
    + apply Forall2_same_length_lookup in Hpks' as [Hlen Hpks']. apply Forall2_same_length_lookup. split; [done|].
      intros k z g Hz Hgk. specialize (Hpks' k z g Hz Hgk). rename Hpks' into Hg. apply list_elem_of_lookup_2 in Hz. apply Hk4; [|apply held_queued; [apply HF|apply elem_of_app; by left]|done].
      intros Hzp%list_elem_of_singleton. apply Hnp. rewrite <- Hzp. by apply list_elem_of_fmap_2.
Qed.

(** The entry that a search has found or made is the only one for the address. *)
Lemma found_at s refs ip flags n i s' : arp_inv s refs -> n <> 0 -> found_by s ip flags n (At i) s' ->
  exists k e, i = Z.of_nat k /\ a_table s' !! k = Some e /\ ipaddr e = ip /\ nif e = n /\
    (forall j x, j <> k -> a_table s' !! j = Some x -> used x -> ipaddr x = ip -> nif x = n -> False) /\
    (a_table s !! k = Some e /\ used e \/ state e = ETHARP_STATE_EMPTY /\ q e = [] /\ ctime e = 0).
Proof.
  intros HI Hn Hf. inversion Hf as [k e Hk (Hu&Hip&Hnif)|?|k e s'' Hfl Hno Hk Hv Ht Hc]; subst.
  - exists k, e. destruct Hnif as [?|Hnif]; [done|]. split_and!; try done; [|by left].
    intros j x Hj Hx Hux E1 E2. apply Hj. eapply (ai_unique _ _ _ HI); try done; congruence.
  - pose proof (lookup_lt_Some _ _ _ Hk). exists k, (fresh_entry ip n e). split; [done|]. split; [rewrite Ht; by apply list_lookup_insert_eq|]. split_and!; try done.
    + intros j x Hj Hx Hux E1 E2. rewrite Ht, list_lookup_insert_ne in Hx by done. eapply Hno; [exact Hx|]. split_and!; auto.
    + right. split; [|done]. cbn. destruct Hv as [(_&Hs)|(Hall&_)]; done.
Qed.

(** ** An address becomes known *)

Definition resolved (n : Z) (addr : list Z) (e : etharp_entry) : etharp_entry := mkEntry [] (ipaddr e) n addr 0 ETHARP_STATE_STABLE.

Definition unicast (ip : Z) (f : netif) : bool := negb (ip4_addr_isany_val ip || ip4_addr_isbroadcast_u32 ip f || ip4_addr_ismulticast order ip).

(** The entry is filled in and its queue is sent. *)
Lemma resolve_run s refs k e n f addr : arp_inv s refs -> a_netifs s !! n = Some f -> hw_ok addr -> a_table s !! k = Some e -> nif e = n -> 0 <= ipaddr e < 2 ^ 32 ->
  (forall j x, j <> k -> a_table s !! j = Some x -> used x -> ipaddr x = ipaddr e -> nif x = n -> False) ->
  exists s', (_ ← set_entry (Z.of_nat k) (with_arp_state ETHARP_STATE_STABLE);
        _ ← set_entry (Z.of_nat k) (with_nif n);
        _ ← set_entry (Z.of_nat k) (with_ethaddr addr);
        _ ← set_entry (Z.of_nat k) (with_ctime 0);
        e ← entry (Z.of_nat k);
        _ ← send_queue order (S (length (q e))) (Z.of_nat k) n addr;
        mret ERR_OK) s = Some (ERR_OK, s') /\ arp_inv s' refs /\ a_table s' = <[k := resolved n addr e]> (a_table s) /\
    etharp_cached_entry s' = etharp_cached_entry s /\ a_netifs s' = a_netifs s /\ kept_but (q e).*2 s s' refs (waiting s') /\
    (forall p, count (waiting s') p <= count (waiting s) p) /\
    (NoDup (q e).*2 -> forall pks, Forall2 (fun x pk => packet (a_frames s) x.2 pk) (q e) pks -> Forall (fun pk => room pk = true) pks ->
      sent (snd (a_frames s')) = sent (snd (a_frames s)) ++ (ip_frame n f addr <$> pks)).
Proof.
  intros HI Hf Haddr Hk Hn Hip Huniq. pose proof (lookup_lt_Some _ _ _ Hk) as Hlt. destruct (ai_netifs _ _ _ HI _ _ Hf) as (Hn0&Hhw&_&_).
  rewrite (bind_run _ _ _ _ _ (set_entry_run _ _ _ _ Hk)). set (s1 := set_table _ s).
  assert (H1 : a_table s1 !! k = Some (with_arp_state ETHARP_STATE_STABLE e)) by (cbn; by apply list_lookup_insert_eq).
  rewrite (bind_run _ _ _ _ _ (set_entry_run _ _ _ _ H1)). cbn [s1 set_table a_table]. rewrite list_insert_insert_eq. set (s2 := set_table _ _).
  assert (H2 : a_table s2 !! k = Some (with_nif n (with_arp_state ETHARP_STATE_STABLE e))) by (cbn; by apply list_lookup_insert_eq).
  rewrite (bind_run _ _ _ _ _ (set_entry_run _ _ _ _ H2)). cbn [s2 set_table a_table]. rewrite list_insert_insert_eq. set (s3 := set_table _ _).
  assert (H3 : a_table s3 !! k = Some (with_ethaddr addr (with_nif n (with_arp_state ETHARP_STATE_STABLE e)))) by (cbn; by apply list_lookup_insert_eq).
  rewrite (bind_run _ _ _ _ _ (set_entry_run _ _ _ _ H3)). cbn [s3 set_table a_table]. rewrite list_insert_insert_eq. set (s4 := set_table _ _). set (e4 := with_ctime 0 _) in s4.
  assert (H4 : a_table s4 !! k = Some e4) by (cbn; by apply list_lookup_insert_eq).
  rewrite (bind_run _ _ _ _ _ (entry_run _ _ _ H4)). destruct (waiting_split _ _ _ Hk) as (rest&Hw&Hw').
  assert (HF4 : frames_inv s4 refs (q e4 ++ rest)).
  { apply (frames_inv_frames order s); [done..|]. eapply (frames_inv_perm order); [exact Hw|]. apply (ai_frames _ _ _ HI). }
  destruct (send_queue_run (S (length (q e4))) k n f addr Hhw Haddr s4 refs e4 rest H4 Hf HF4 ltac:(lia)) as (s'&E&T&C&N&HF&HK&HS).
  rewrite (bind_run _ _ _ _ _ E). exists s'. change (with_q [] e4) with (resolved n addr e) in T. cbn [s4 set_table a_table] in T. rewrite list_insert_insert_eq in T.
  assert (Hwt : waiting s' ≡ₚ rest) by (unfold waiting; rewrite T; apply (Hw' (resolved n addr e))).
  split; [done|]. split; [|split; [done|split; [done|split; [done|split; [|split; [|exact HS]]]]]].
  - apply (inv_set order s s' refs refs k e (resolved n addr e) HI Hk T N).
    + rewrite C. apply HI.
    + by split; cbn.
    + intros _ j x Hj Hx Hux E1 E2. by eapply Huniq.
    + eapply (frames_inv_perm order); [symmetry; exact Hwt|done].
  - intros p g Hp Hh Hg. apply HK; [done| |done]. unfold with_queued in *. by rewrite <- (count_perm _ _ _ Hwt).
  - intros p. rewrite (count_perm _ _ _ Hwt). unfold waiting. rewrite (count_perm _ _ _ Hw), count_app. pose proof (count_nonneg (q e) p). lia.
Qed.

(** What an update does. *)
Inductive updated s (refs : Z -> Z) (n : Z) (f : netif) (ip : Z) (addr : list Z) (flags : Z) : err_t -> arp A L Q -> Prop :=
  | updated_bad : unicast ip f = false -> updated s refs n f ip addr flags ERR_ARG s
  | updated_unknown : unicast ip f = true -> flags = ETHARP_FLAG_FIND_ONLY -> (forall k e, a_table s !! k = Some e -> ~ matches ip n e) ->
      updated s refs n f ip addr flags ERR_MEM s
  | updated_entry s1 k e s' : unicast ip f = true -> found_by s ip flags n (At (Z.of_nat k)) s1 -> a_table s1 !! k = Some e -> ipaddr e = ip ->
      (a_table s !! k = Some e /\ used e \/ state e = ETHARP_STATE_EMPTY /\ q e = [] /\ ctime e = 0) ->
      a_table s' = <[k := resolved n addr e]> (a_table s1) -> etharp_cached_entry s' = etharp_cached_entry s ->
      kept_but (q e).*2 s s' refs (waiting s') ->
      (NoDup (q e).*2 -> forall pks, Forall2 (fun x pk => packet (a_frames s) x.2 pk) (q e) pks -> Forall (fun pk => room pk = true) pks ->
        sent (snd (a_frames s')) = sent (snd (a_frames s)) ++ (ip_frame n f addr <$> pks)) ->
      updated s refs n f ip addr flags ERR_OK s'.

Lemma found_by_cached s ip flags n r s' : found_by s ip flags n r s' -> etharp_cached_entry s' = etharp_cached_entry s.
Proof. by inversion 1. Qed.

Lemma found_by_netif s refs n f : arp_inv s refs -> a_netifs s !! n = Some f -> n <> 0.
Proof. intros HI Hf. by destruct (ai_netifs _ _ _ HI _ _ Hf). Qed.

Lemma calm_kept_but s s1 s' X refs : calm s s1 refs -> kept_but X s1 s' refs (waiting s') -> (forall p, count (waiting s') p <= count (waiting s1) p) ->
  kept_but X s s' refs (waiting s').
Proof.
  intros HC HK HW p g Hp Hh Hg. apply HK; [done|done|]. apply (ca_kept _ _ _ _ HC); [|done]. unfold with_queued in *. specialize (HW p). lia.
Qed.

Lemma etharp_update_arp_entry_run s refs n f ip addr flags : arp_inv s refs -> a_netifs s !! n = Some f -> hw_ok addr -> 0 <= ip < 2 ^ 32 ->
  flags = ETHARP_FLAG_TRY_HARD \/ flags = ETHARP_FLAG_FIND_ONLY ->
  exists r s', etharp_update_arp_entry order n ip addr flags s = Some (r, s') /\ arp_inv s' refs /\ a_netifs s' = a_netifs s /\
    (forall p, count (waiting s') p <= count (waiting s) p) /\ updated s refs n f ip addr flags r s'.
Proof.
  intros HI Hf Haddr Hip Hfl. unfold etharp_update_arp_entry. rewrite (bind_run _ _ _ _ _ (get_netif_run _ _ _ Hf)).
  destruct (ip4_addr_isany_val ip || ip4_addr_isbroadcast_u32 ip f || ip4_addr_ismulticast order ip) eqn:Eu.
  { exists ERR_ARG, s. split_and!; try done. apply updated_bad. unfold unicast. by rewrite Eu. }
  assert (Hu : unicast ip f = true) by (unfold unicast; by rewrite Eu).
  destruct (etharp_find_entry_run order s refs ip flags n HI Hfl) as (r&s1&E1&Hfound&HI1&HC&Hs1). rewrite (bind_run _ _ _ _ _ E1).
  destruct r as [i|err].
  2:{ inversion Hfound; subst. exists ERR_MEM, s1. split_and!; try done. by apply updated_unknown. }
  destruct (found_at _ _ _ _ _ _ _ HI (found_by_netif _ _ _ _ HI Hf) Hfound) as (k&e&->&Hk&Hipe&Hne&Huniq&Hnew).
  assert (Hf1 : a_netifs s1 !! n = Some f) by (by rewrite (ca_netifs _ _ _ _ HC)).
  destruct (resolve_run s1 refs k e n f addr HI1 Hf1 Haddr Hk Hne ltac:(by rewrite Hipe)) as (s'&E'&HI'&T'&C'&N'&HK'&HW'&HS').
  { intros j x Hj Hx Hux Ex1 Ex2. eapply Huniq; [exact Hj|exact Hx|done|congruence|done]. }
  exists ERR_OK, s'. split; [exact E'|]. split; [done|]. split; [rewrite N'; apply HC|]. split; [intros p; pose proof (ca_fewer _ _ _ _ HC p); specialize (HW' p); lia|].
  eapply updated_entry; try done.
  - rewrite C'. by eapply found_by_cached.
  - by eapply calm_kept_but.
  - rewrite <- Hs1. intros Hnd pks Hpks Hroom. apply HS'; [done| |done].
    apply Forall2_same_length_lookup in Hpks as [Hlen Hpks]. apply Forall2_same_length_lookup. split; [done|]. intros j z g Hz Hg.
    apply (ca_kept _ _ _ _ HC); [|by eapply Hpks]. apply held_queued; [apply (ai_frames _ _ _ HI)|].
    destruct (waiting_split _ _ _ Hk) as (rest&Hw&_). unfold waiting. rewrite Hw. apply elem_of_app. left. by eapply list_elem_of_lookup_2.
Qed.
End send.
