(* ===== verification/EtharpQuery.v ===== *)
(** * Queries: a packet is queued, or sent to a known address *)
From S2P Require Import Prelude Pbuf PbufRefs LwipDef IpAddr EthFrames Etharp EtharpTable FrameLaws EtharpInv EtharpOps EtharpSend.
Open Scope Z_scope.

Section query.
Context (order : byte_order) {A L Q : Type} `{!PbufMemory A} `{!Link A L} `{!ArpQueue Q} `{!FramesOk order A L} `{!ArpQueueOk Q}.
Implicit Types (s : arp A L Q).

Abbreviation arp_inv := (arp_inv order).
Abbreviation calm := (calm order).
Abbreviation frames_inv := (frames_inv order).
Abbreviation kept := (kept order).
Abbreviation kept_but := (kept_but order).

(** ** The length of the queues *)

Lemma waiting_bound_in netifs t : (forall i e, t !! i = Some e -> entry_ok netifs e) -> Z.of_nat (length (waiting_in t)) <= ARP_QUEUE_LEN * Z.of_nat (length t).
Proof.
  unfold waiting_in. induction t as [|e t IH]; intros Ht; [done|]. change (mjoin (q <$> e :: t)) with (q e ++ mjoin (q <$> t)). rewrite length_app. cbn [length].
  pose proof (eo_len _ _ (Ht 0%nat e eq_refl)). specialize (IH (fun i x H => Ht (S i) x H)). unfold ARP_QUEUE_LEN in *. lia.
Qed.

Lemma count_le qs p : count qs p <= Z.of_nat (length qs).
Proof. unfold count. pose proof (length_filter (fun x : Z * Z => x.2 = p) qs). lia. Qed.

Lemma waiting_bound s refs p : arp_inv s refs -> count (waiting s) p <= 30.
Proof.
  intros HI. pose proof (count_le (waiting s) p). pose proof (waiting_bound_in _ _ (ai_entries _ _ _ HI)) as H1. rewrite (ai_len _ _ _ HI) in H1.
  unfold waiting, ARP_QUEUE_LEN in *. change (Z.of_nat (Z.to_nat ARP_TABLE_SIZE)) with 10 in H1. lia.
Qed.

(** A packet that its users refer to so many times can be queued. *)
Definition MAX_REFS : Z := 225.

Lemma take_over_run s refs p pk : arp_inv s refs -> 0 < refs p < MAX_REFS -> packet (a_frames s) p pk ->
  exists p' s', on_frames (on_packets (take_over p)) s = Some (p', s') /\ same_rest s s' /\ snd (a_frames s') = snd (a_frames s) /\
    kept s s' refs (waiting s) /\
    (p' = 0 /\ arp_inv s' refs /\ no_copy p (a_frames s) \/
     p' <> 0 /\ arp_inv s' (bump 1 p' refs) /\ exists pk', packet (a_frames s') p' pk' /\ data pk' = data pk /\ (room pk = true -> room pk' = true)).
Proof.
  intros HI Hp Hpk. pose proof (ai_frames _ _ _ HI) as HF. pose proof (waiting_bound s refs p HI) as Hb. pose proof (count_nonneg (waiting s) p).
  destruct (take_ok _ _ p pk (fi_holds _ _ _ _ HF) ltac:(unfold with_queued, MAX_REFS in *; lia) Hpk) as (p'&w&E&Hs&Hk&Hr).
  eexists p', _. split; [exact (on_frames_run _ _ _ _ E)|]. split; [done|]. split; [done|]. split; [exact Hk|].
  destruct Hr as [(->&Hw&Hno)|(Hp'&Hw&Hpk')]; [left|right]; (split; [done|]).
  - split; [|done]. eapply (inv_frames order s); [done|done|done|apply HF|exact Hw].
  - split; [|exact Hpk']. eapply (inv_frames order s); [done|done|done|apply bump_nonneg, HF|].
    eapply holds_ext; [|exact Hw]. intros y. unfold with_queued, bump. cbn [a_frames]. case_decide; lia.
Qed.

(** ** A packet joins a queue *)

Definition queue_after (l : list (Z * Z)) (x : Z * Z) : list (Z * Z) := if ARP_QUEUE_LEN <=? Z.of_nat (length l) then tail (l ++ [x]) else l ++ [x].

Lemma free_first_run s refs r p rest : frames_inv s refs ((r, p) :: rest) ->
  exists s', (_ ← on_frames (on_packets (pbuf_free p)); on_pool (arpq_free r)) s = Some (tt, s') /\ same_tables s s' /\ frames_inv s' refs rest /\
    snd (a_frames s') = snd (a_frames s) /\ kept s s' refs rest.
Proof.
  intros HF. destruct (free_etharp_q_run order [(r, p)] s refs rest HF) as (s'&E&H). exists s'. split; [|exact H].
  cbn [free_etharp_q] in E. unfold mbind, prog_bind in *. destruct (on_frames _ s) as [[x s1]|]; [|done]. cbn in *.
  destruct (on_pool (arpq_free r) s1) as [[[] s2]|]; [|done]. done.
Qed.

(** A new element, with the reference of the caller. *)
Lemma put_in_run s refs p : p <> 0 -> (forall y, 0 <= refs y) -> forall qs, frames_inv s (bump 1 p refs) qs ->
  exists r s', on_pool arpq_malloc s = Some (r, s') /\ same_tables s s' /\ a_frames s' = a_frames s /\
    (r = 0 /\ frames_inv s' (bump 1 p refs) qs /\ no_arp_queue (a_pool s) \/ r <> 0 /\ frames_inv s' refs ((r, p) :: qs)).
Proof.
  intros Hp Hr qs [H1 H2 H3 H4]. destruct (arpq_malloc_ok _ _ H2) as (r&c&E&Hc). eexists r, _. split; [exact (on_pool_run _ _ _ _ E)|].
  split; [done|]. split; [done|]. destruct Hc as [(->&Hc)|(Hr0&Hnot&Hc)]; [left|right]; (split; [done|]); [split; [|by exists c]|]; split; cbn [a_frames a_pool]; try done.
  - eapply holds_ext; [|exact H1]. intros y. by rewrite queued_cons.
  - apply NoDup_cons. split; [|done]. by rewrite elem_of_list_to_set in Hnot.
Qed.

(** An entry whose queue alone changes. *)
Lemma inv_queue s s' refs0 refs k e l : arp_inv s refs0 -> a_table s !! k = Some e -> pending e -> Z.of_nat (length l) <= ARP_QUEUE_LEN ->
  a_table s' = <[k := with_q l e]> (a_table s) -> etharp_cached_entry s' = etharp_cached_entry s -> a_netifs s' = a_netifs s ->
  (forall rest, waiting s ≡ₚ q e ++ rest -> frames_inv s' refs (l ++ rest)) -> arp_inv s' refs.
Proof.
  intros HI Hk Hp Hl T C N HF. destruct (waiting_split _ _ _ Hk) as (rest&Hw&Hw'). pose proof (ai_entries _ _ _ HI _ _ Hk) as HE.
  apply (inv_set order s s' refs0 refs k e (with_q l e) HI Hk T N).
  - rewrite C. apply HI.
  - destruct HE. by split; cbn.
  - intros _. eapply (unique_stays order s refs0 k e); try done. unfold used, pending in *. by rewrite Hp.
  - eapply (frames_inv_perm order); [|by apply (HF rest)]. unfold waiting. rewrite T. symmetry. apply (Hw' (with_q l e)).
Qed.

(** The first packet of a queue is dropped. *)
Definition drop_first (i : Z) : prog (arp A L Q) unit :=
  e ← entry i;
  match q e with
  | (old, oldp) :: rest => _ ← set_entry i (with_q rest); _ ← on_frames (on_packets (pbuf_free oldp)); on_pool (arpq_free old)
  | [] => no_element
  end.

Lemma drop_first_run s refs k e x l rest : a_table s !! k = Some e -> q e = x :: l -> frames_inv s refs (x :: l ++ rest) ->
  exists s', drop_first (Z.of_nat k) s = Some (tt, s') /\ a_table s' = <[k := with_q l e]> (a_table s) /\ etharp_cached_entry s' = etharp_cached_entry s /\
    a_netifs s' = a_netifs s /\ frames_inv s' refs (l ++ rest) /\ snd (a_frames s') = snd (a_frames s) /\ kept s s' refs (l ++ rest).
Proof.
  intros Hk Hq HF. unfold drop_first. rewrite (bind_run _ _ _ _ _ (entry_run _ _ _ Hk)), Hq. destruct x as [old oldp].
  rewrite (bind_run _ _ _ _ _ (set_entry_run _ _ _ _ Hk)). set (s1 := set_table _ s).
  apply (frames_inv_frames order s s1) in HF; [|done..]. destruct (free_first_run _ _ _ _ _ HF) as (s'&E&(T&C&N)&HF'&Hs&HK).
  exists s'. by split_and!.
Qed.

(** What a call of [enqueue] leaves behind. *)
Definition enqueued s s' (refs : Z -> Z) (k : nat) (e : etharp_entry) (p : Z) (r : err_t) : Prop :=
  arp_inv s' refs /\ etharp_cached_entry s' = etharp_cached_entry s /\ a_netifs s' = a_netifs s /\
    snd (a_frames s') = snd (a_frames s) /\ kept_but [] s s' refs (waiting s') /\
    (r = ERR_MEM /\ a_table s' = a_table s /\ no_arp_queue (a_pool s) \/ exists el, r = ERR_OK /\ a_table s' = <[k := with_q (queue_after (q e) (el, p)) e]> (a_table s)).

Lemma not_enqueued_run s s1 refs k e p : p <> 0 -> (forall y, 0 <= refs y) -> arp_inv s (bump 1 p refs) ->
  same_tables s s1 -> a_frames s1 = a_frames s -> frames_inv s1 (bump 1 p refs) (waiting s) -> no_arp_queue (a_pool s) ->
  exists s', (_ ← on_frames (on_packets (pbuf_free p)); mret ERR_MEM) s1 = Some (ERR_MEM, s') /\ enqueued s s' refs k e p ERR_MEM.
Proof.
  intros Hp Hr HI (T1&C1&N1) W1 HF1 Hno. assert (Hpos : 0 < bump 1 p refs p) by (unfold bump; rewrite decide_True by done; specialize (Hr p); lia).
  destruct (release_run order s1 (bump 1 p refs) p (fi_refs _ _ _ _ HF1) _ HF1 Hpos) as (x&s2&E2&((T2&C2&N2)&P2)&HF2&S2&K2). rewrite (bind_run _ _ _ _ _ E2).
  apply (frames_inv_refs order _ _ refs) in HF2; [|intros y; by rewrite bump_back]. rewrite T1 in T2. rewrite C1 in C2. rewrite N1 in N2. rewrite W1 in S2.
  exists s2. split; [done|]. destruct HI as [I1 I2 I3 I4 I5 I6]. split; [|split_and!; try done; [|by left]].
  - split; rewrite ?T2, ?C2, ?N2; try done. unfold waiting in *. by rewrite T2.
  - intros y g Hy Hh Hg. apply K2; [done| |by rewrite W1]. unfold waiting in *. rewrite T2 in Hh. unfold with_queued in *. by rewrite bump_back.
Qed.

Lemma enqueued_ok s s' refs0 refs k e p l rest r : arp_inv s refs0 -> a_table s !! k = Some e -> pending e -> waiting s ≡ₚ q e ++ rest ->
  Z.of_nat (length l) <= ARP_QUEUE_LEN -> a_table s' = <[k := with_q l e]> (a_table s) -> etharp_cached_entry s' = etharp_cached_entry s -> a_netifs s' = a_netifs s ->
  queue_after (q e) (r, p) = l -> frames_inv s' refs (l ++ rest) -> snd (a_frames s') = snd (a_frames s) -> kept s s' refs (l ++ rest) ->
  enqueued s s' refs k e p ERR_OK.
Proof.
  intros HI Hk Hpe Hw Hl T C N Hq HF HS HK. split; [|split_and!; try done].
  - eapply (inv_queue s s' refs0 refs k e l); try done. intros rest' Hw'. rewrite Hw in Hw'. apply Permutation_app_inv_l in Hw'.
    eapply (frames_inv_perm order); [|exact HF]. by rewrite Hw'.
  - intros y g _ Hh Hg. apply HK; [|done]. destruct (waiting_split _ _ _ Hk) as (rest2&Hw2&Hw2'). unfold waiting in *. rewrite T in Hh.
    unfold with_queued in *. rewrite (count_perm _ _ _ (Hw2' (with_q l e))) in Hh. cbn [with_q q] in Hh. rewrite Hw in Hw2. apply Permutation_app_inv_l in Hw2.
    rewrite count_app in *. by rewrite (count_perm _ _ y Hw2).
  - right. exists r. by rewrite Hq.
Qed.

Lemma enqueue_run s refs k e p : p <> 0 -> (forall y, 0 <= refs y) -> arp_inv s (bump 1 p refs) -> a_table s !! k = Some e -> pending e ->
  exists r s', enqueue (Z.of_nat k) p s = Some (r, s') /\ enqueued s s' refs k e p r.
Proof.
  intros Hp Hr HI Hk Hpe. pose proof (ai_entries _ _ _ HI _ _ Hk) as HE. pose proof (lookup_lt_Some _ _ _ Hk) as Hlt.
  destruct (put_in_run s refs p Hp Hr _ (ai_frames _ _ _ HI)) as (r&s1&E1&HT1&W1&Hr1). unfold enqueue. rewrite (bind_run _ _ _ _ _ E1).
  destruct Hr1 as [(->&HF1&Hno)|(Hr0&HF1)]; [exists ERR_MEM; by eapply not_enqueued_run|]. destruct HT1 as (T1&C1&N1).
  rewrite (proj2 (Z.eqb_neq r 0) Hr0). cbn [negb]. pose proof Hk as Hk1. rewrite <- T1 in Hk1. rewrite (bind_run _ _ _ _ _ (entry_run _ _ _ Hk1)).
  rewrite (bind_run _ _ _ _ _ (set_entry_run _ _ _ _ Hk1)). set (l := q e ++ [(r, p)]). set (s2 := set_table _ s1).
  assert (T2 : a_table s2 = <[k := with_q l e]> (a_table s)) by (cbn; by rewrite T1).
  assert (Hk2 : a_table s2 !! k = Some (with_q l e)) by (rewrite T2; by apply list_lookup_insert_eq).
  assert (HF2 : forall rest, waiting s ≡ₚ q e ++ rest -> frames_inv s2 refs (l ++ rest)).
  { intros rest Hw. apply (frames_inv_frames order s1); [done..|]. eapply (frames_inv_perm order); [|exact HF1]. rewrite Hw. unfold l.
    rewrite <- app_assoc. cbn [app]. apply Permutation_middle. }
  assert (C2 : etharp_cached_entry s2 = etharp_cached_entry s) by exact C1. assert (N2 : a_netifs s2 = a_netifs s) by exact N1.
  assert (W2 : a_frames s2 = a_frames s) by exact W1. fold (drop_first (Z.of_nat k)). clearbody s2.
  destruct (waiting_split _ _ _ Hk) as (rest&Hw&Hw'). specialize (HF2 rest Hw). pose proof (eo_len _ _ HE) as Hle.
  destruct (Z.leb_spec ARP_QUEUE_LEN (Z.of_nat (length (q e)))) as [Hlen|Hlen]; cbn [when].
  - destruct l as [|x l'] eqn:El; [by destruct (q e)|]. assert (Hl' : length l' = length (q e)).
    { pose proof (f_equal length El) as Hll. unfold l in Hll. rewrite length_app in Hll. cbn in Hll. lia. }
    destruct (drop_first_run s2 refs k (with_q (x :: l') e) x l' rest Hk2 eq_refl HF2) as (s'&E'&T'&C'&N'&HF'&S'&K').
    rewrite (bind_run _ _ _ _ _ E'). rewrite T2, list_insert_insert_eq in T'. exists ERR_OK, s'. split; [done|].
    apply (enqueued_ok s s' (bump 1 p refs) refs k e p l' rest r); try done; [lia|congruence|congruence| |by rewrite S', W2|].
    + unfold queue_after. rewrite (proj2 (Z.leb_le _ _)) by done. fold l. by rewrite El.
    + intros y g Hy Hg. apply K'; [done|]. by rewrite W2.
  - rewrite ret_bind. exists ERR_OK, s2. split; [done|].
    apply (enqueued_ok s s2 (bump 1 p refs) refs k e p l rest r); try done; [unfold l; rewrite length_app; cbn; unfold ARP_QUEUE_LEN in *; lia| |by rewrite W2|].
    + unfold queue_after. by rewrite (proj2 (Z.leb_gt _ _)).
    + intros y g Hy Hg. by rewrite W2.
Qed.

(** ** The query *)

(** A new entry waits for an answer on the interface. *)
Definition ready (n : Z) (e : etharp_entry) : etharp_entry :=
  if decide (state e = ETHARP_STATE_EMPTY) then with_nif n (with_arp_state ETHARP_STATE_PENDING e) else e.

Lemma ready_run s refs k e n f : arp_inv s refs -> a_netifs s !! n = Some f -> a_table s !! k = Some e -> nif e = n -> 0 <= ipaddr e < 2 ^ 32 ->
  (forall j x, j <> k -> a_table s !! j = Some x -> used x -> ipaddr x = ipaddr e -> nif x = n -> False) ->
  used e \/ state e = ETHARP_STATE_EMPTY /\ q e = [] /\ ctime e = 0 ->
  exists s', when (bool_decide (state e = ETHARP_STATE_EMPTY)) (_ ← set_entry (Z.of_nat k) (with_arp_state ETHARP_STATE_PENDING); set_entry (Z.of_nat k) (with_nif n)) s = Some (tt, s') /\
    entry_step order s s' refs k (ready n e) /\ s' = set_table (<[k := ready n e]> (a_table s)) s.
Proof.
  intros HI Hf Hk Hn Hip Huniq Hnew. pose proof (lookup_lt_Some _ _ _ Hk) as Hlt. unfold ready. case_bool_decide as Es.
  - rewrite decide_True by done. destruct Hnew as [Hu|(_&Hq&Hc)]; [by destruct Hu|]. cbn [when].
    rewrite (bind_run _ _ _ _ _ (set_entry_run _ _ _ _ Hk)). set (s1 := set_table _ s).
    assert (H1 : a_table s1 !! k = Some (with_arp_state ETHARP_STATE_PENDING e)) by (cbn; by apply list_lookup_insert_eq).
    rewrite (set_entry_run _ _ _ _ H1). cbn [s1 set_table a_table]. rewrite list_insert_insert_eq. eexists. split; [reflexivity|]. split; [|done].
    set (e' := with_nif n _). split; [done|]. split; [done|]. split; [|by eapply (calm_table order s refs k e e')].
    apply (inv_set order s _ refs refs k e e' HI Hk); cbn [set_table a_table a_netifs etharp_cached_entry]; try done.
    + apply HI.
    + by split; cbn; rewrite ?Hq, ?Hc.
    + eapply (frames_inv_perm order); [|eapply (frames_inv_frames order s); [done..|apply (ai_frames _ _ _ HI)]]. symmetry. by apply (waiting_same s k e e').
  - rewrite decide_False by done. exists s. split; [done|]. split; [apply entry_step_same; [done|apply same_rest_refl|done|apply calm_refl]|].
    by rewrite list_insert_id, set_table_same by done.
Qed.

(** The answer of a request made with the packets [w], and the frames that it has sent:
    one, unless there is no memory for it. *)
Definition asked (w : pstate A * L) (n : Z) (f : netif) (ip : Z) (r : err_t) (reqs : list (Z * list Z)) : Prop :=
  r = ERR_MEM /\ reqs = [] /\ no_memory SIZEOF_ETHARP_HDR w \/ r = ERR_OK /\ reqs = [(n, request_frame order f ip ethbroadcast)].

Lemma maybe_request_run (b : bool) s refs n f ip : arp_inv s refs -> a_netifs s !! n = Some f -> 0 <= ip < 2 ^ 32 ->
  exists r s', (if b then etharp_request order n ip else mret ERR_MEM) s = Some (r, s') /\ same_rest s s' /\ arp_inv s' refs /\ calm s s' refs /\
    exists reqs, sent (snd (a_frames s')) = sent (snd (a_frames s)) ++ reqs /\
      if b then etharp_request order n ip s = Some (r, s') /\ asked (a_frames s) n f ip r reqs else r = ERR_MEM /\ s' = s /\ reqs = [].
Proof.
  intros HI Hf Hip. destruct b.
  - destruct (etharp_request_run order s refs n f ip ethbroadcast HI Hf ethbroadcast_ok Hip) as (r&s'&E&Hsr&HI'&HC&Hr). exists r, s'.
    split; [exact E|]. split; [done|]. split; [done|]. split; [done|].
    destruct Hr as [(->&Hr&Hno)|(->&Hr)]; [exists []|eexists [_]]; rewrite Hr, ?app_nil_r; (split; [reflexivity|split; [exact E|]]); [by left|by right].
  - exists ERR_MEM, s. split; [done|]. split; [apply same_rest_refl|]. split; [done|]. split; [apply calm_refl|].
    exists []. by rewrite app_nil_r.
Qed.

(** The search has found entry [k] or made a new one. A new entry becomes pending and its
    address is asked for; an entry that is there already is left alone, and its address
    is asked for only when the query [must] ask. The state is then [s3]. *)
Definition queried_entry s s1 (n : Z) (f : netif) (ip : Z) (k : nat) (e : etharp_entry) s3 (reqs : list (Z * list Z)) (r : err_t) (must : bool) : Prop :=
  etharp_find_entry ip ETHARP_FLAG_TRY_HARD n s = Some (At (Z.of_nat k), s1) /\ found_by s ip ETHARP_FLAG_TRY_HARD n (At (Z.of_nat k)) s1 /\
  a_table s1 !! k = Some e /\ ipaddr e = ip /\
  let s2 := set_table (<[k := ready n e]> (a_table s1)) s1 in
  if must || bool_decide (state e = ETHARP_STATE_EMPTY) then etharp_request order n ip s2 = Some (r, s3) /\ asked (a_frames s1) n f ip r reqs
  else s3 = s2 /\ reqs = [].

(** What a query for [ip] does with the packet [p], or without one. *)
Inductive queried s (refs : Z -> Z) (n : Z) (f : netif) (ip p : Z) (pk : pkt) : err_t -> arp A L Q -> Prop :=
  | queried_bad : unicast order ip f = false -> queried s refs n f ip p pk ERR_ARG s
  | queried_probe s1 k e reqs r s' : unicast order ip f = true -> p = 0 -> queried_entry s s1 n f ip k e s' reqs r true ->
      a_table s' = <[k := ready n e]> (a_table s1) -> etharp_cached_entry s' = etharp_cached_entry s ->
      sent (snd (a_frames s')) = sent (snd (a_frames s)) ++ reqs -> queried s refs n f ip p pk r s'
  | queried_sent k e r s' : unicast order ip f = true -> p <> 0 -> a_table s !! k = Some e -> matches ip n e -> is_stable (state e) = true ->
      a_table s' = a_table s -> etharp_cached_entry s' = Z.of_nat k ->
      (sent (snd (a_frames s')) = sent (snd (a_frames s)) ++ [ip_frame n f (ethaddr e) pk] \/ room pk = false /\ r = ERR_BUF /\ sent (snd (a_frames s')) = sent (snd (a_frames s))) ->
      queried s refs n f ip p pk r s'
  | queried_waits s1 k e s3 reqs r r' s' : unicast order ip f = true -> p <> 0 -> queried_entry s s1 n f ip k e s3 reqs r' false ->
      is_stable (state e) = false -> etharp_cached_entry s' = etharp_cached_entry s ->
      sent (snd (a_frames s')) = sent (snd (a_frames s)) ++ reqs ->
      (r = ERR_MEM /\ a_table s' = <[k := ready n e]> (a_table s1) /\ (no_copy p (a_frames s3) \/ no_arp_queue (a_pool s1)) \/
       r = ERR_OK /\ exists el p' pk', a_table s' = <[k := with_q (queue_after (q e) (el, p')) (ready n e)]> (a_table s1) /\
         packet (a_frames s') p' pk' /\ data pk' = data pk /\ (room pk = true -> room pk' = true) /\
         (forall x g, x ∈ q e -> x ∈ queue_after (q e) (el, p') -> packet (a_frames s) x.2 g -> packet (a_frames s') x.2 g)) ->
      queried s refs n f ip p pk r s'.

(** The packets of the users, apart from [p], keep their contents. *)
Definition users_kept (p : Z) s s' (refs : Z -> Z) : Prop := forall y g, y <> p -> 0 < refs y -> packet (a_frames s) y g -> packet (a_frames s') y g.

Lemma calm_users p s s' refs : calm s s' refs -> users_kept p s s' refs.
Proof. intros HC y g _ Hy Hg. apply (ca_kept _ _ _ _ HC); [|done]. unfold with_queued. pose proof (count_nonneg (waiting s') y). lia. Qed.

Lemma users_kept_trans p s1 s2 s3 refs : users_kept p s1 s2 refs -> users_kept p s2 s3 refs -> users_kept p s1 s3 refs.
Proof. intros H1 H2 y g Hy Hr Hg. apply H2; [done|done|]. by apply H1. Qed.

Lemma kept_users p s s' refs qs : kept s s' refs qs -> users_kept p s s' refs.
Proof. intros HK y g _ Hy Hg. apply HK; [|done]. unfold with_queued. pose proof (count_nonneg qs y). lia. Qed.

(** A packet goes out to a known address. *)
Lemma send_packet_run s refs n f p pk dst : arp_inv s refs -> a_netifs s !! n = Some f -> 0 < refs p -> packet (a_frames s) p pk -> hw_ok dst ->
  exists r s', on_frames (ethernet_output order n p (hwaddr f) dst ETHTYPE_IP) s = Some (r, s') /\ same_rest s s' /\ arp_inv s' refs /\ users_kept p s s' refs /\
    (sent (snd (a_frames s')) = sent (snd (a_frames s)) ++ [ip_frame n f dst pk] \/ room pk = false /\ r = ERR_BUF /\ sent (snd (a_frames s')) = sent (snd (a_frames s))).
Proof.
  intros HI Hf Hp Hpk Hd. pose proof (ai_frames _ _ _ HI) as HF. destruct (ai_netifs _ _ _ HI _ _ Hf) as (_&Hhw&_&_).
  destruct (send_ok _ _ n p pk (hwaddr f) dst ETHTYPE_IP (fi_holds _ _ _ _ HF)) as (r&w&E&Hw&Hk&Hs); try done.
  { unfold with_queued. pose proof (count_nonneg (waiting s) p). lia. }
  eexists r, _. split; [exact (on_frames_run _ _ _ _ E)|]. split; [done|]. split; [|split; [|exact Hs]].
  - eapply (inv_frames order s); [done|done|done|apply HF|exact Hw].
  - intros y g Hy Hr Hg. apply Hk; [done| |done]. unfold with_queued. pose proof (count_nonneg (waiting s) y). lia.
Qed.

Lemma ready_stable n e : is_stable (state e) = true -> ready n e = e.
Proof. intros H. unfold ready. rewrite decide_False; [done|]. by intros E; rewrite E in H. Qed.

Lemma ready_pending n e : is_stable (state e) = false -> state (ready n e) = ETHARP_STATE_PENDING /\ q (ready n e) = q e.
Proof. intros H. unfold ready. case_decide; [done|]. by destruct (state e). Qed.

Lemma queue_end l x : x ∈ queue_after l x.
Proof.
  unfold queue_after. unfold ARP_QUEUE_LEN. destruct (Z.leb_spec 3 (Z.of_nat (length l))); [|apply elem_of_app; right; by left].
  destruct l as [|y l]; [cbn in *; lia|]. cbn. apply elem_of_app. right. by left.
Qed.

(** A packet is taken over and joins the queue of a pending entry. *)
Lemma queue_packet_run s refs k e p pk : arp_inv s refs -> a_table s !! k = Some e -> pending e -> 0 < refs p < MAX_REFS -> packet (a_frames s) p pk ->
  exists r s', (p' ← on_frames (on_packets (take_over p)); if negb (p' =? 0) then enqueue (Z.of_nat k) p' else mret ERR_MEM) s = Some (r, s') /\
    arp_inv s' refs /\ etharp_cached_entry s' = etharp_cached_entry s /\ a_netifs s' = a_netifs s /\ snd (a_frames s') = snd (a_frames s) /\ users_kept 0 s s' refs /\
    (r = ERR_MEM /\ a_table s' = a_table s /\ (no_copy p (a_frames s) \/ no_arp_queue (a_pool s)) \/
     r = ERR_OK /\ exists el p' pk', a_table s' = <[k := with_q (queue_after (q e) (el, p')) e]> (a_table s) /\
       packet (a_frames s') p' pk' /\ data pk' = data pk /\ (room pk = true -> room pk' = true) /\
       (forall x g, x ∈ q e -> x ∈ queue_after (q e) (el, p') -> packet (a_frames s) x.2 g -> packet (a_frames s') x.2 g)).
Proof.
  intros HI Hk Hpe Hp Hpk. destruct (take_over_run s refs p pk HI Hp Hpk) as (p'&s1&E1&((T1&C1&N1)&P1)&S1&K1&Hr). rewrite (bind_run _ _ _ _ _ E1).
  pose proof (fi_refs _ _ _ _ (ai_frames _ _ _ HI)) as Hrefs.
  destruct Hr as [(->&HI1&Hno)|(Hp0&HI1&pk'&Hpk'&Hd&Hroom)].
  { exists ERR_MEM, s1. split; [done|]. split_and!; try done; [by eapply kept_users|]. left. split; [done|]. split; [done|by left]. }
  rewrite (proj2 (Z.eqb_neq p' 0) Hp0). cbn [negb]. pose proof Hk as Hk1. rewrite <- T1 in Hk1.
  destruct (enqueue_run s1 refs k e p' Hp0 Hrefs HI1 Hk1 Hpe) as (r&s'&E&HI'&C&N&S&K&Hr). exists r, s'. split; [exact E|]. split; [done|].
  split; [congruence|]. split; [congruence|]. split; [congruence|].
  assert (Hlt : (k < length (a_table s1))%nat) by (by eapply lookup_lt_Some).
  assert (Hin : forall l x, a_table s' = <[k := with_q l e]> (a_table s1) -> x ∈ l -> 0 < with_queued refs (waiting s') x.2).
  { intros l x T Hx. apply held_queued; [done|]. unfold waiting. rewrite T. destruct (waiting_split _ _ _ Hk1) as (rest&_&Hw'). rewrite (Hw' (with_q l e)).
    apply elem_of_app. by left. }
  split.
  - intros y g _ Hy Hg. apply K; [by intros ?%not_elem_of_nil| |].
    + unfold with_queued. pose proof (count_nonneg (waiting s') y). lia.
    + apply K1; [|done]. unfold with_queued. pose proof (count_nonneg (waiting s) y). lia.
  - destruct Hr as [(->&T&Hno)|(el&->&T)]; [left; split; [done|]; split; [congruence|]; right; by rewrite <- P1|right]. split; [done|]. exists el, p', pk'.
    split; [congruence|]. split; [|split; [done|split; [done|]]].
    + apply K; [by intros ?%not_elem_of_nil| |done]. exact (Hin _ _ T (queue_end (q e) (el, p'))).
    + intros x g Hx Hx' Hg. apply K; [by intros ?%not_elem_of_nil|exact (Hin _ _ T Hx')|]. apply K1; [|done].
      apply held_queued; [done|]. unfold waiting. destruct (waiting_split _ _ _ Hk) as (rest&Hw&_). rewrite Hw. apply elem_of_app. by left.
Qed.

Lemma hint_run s refs k e : arp_inv s refs -> a_table s !! k = Some e ->
  exists s', ETHARP_SET_ADDRHINT (Z.of_nat k) s = Some (tt, s') /\ arp_inv s' refs /\ a_table s' = a_table s /\ etharp_cached_entry s' = Z.of_nat k /\
    a_netifs s' = a_netifs s /\ a_frames s' = a_frames s.
Proof.
  intros HI Hk. eexists. split; [reflexivity|]. apply lookup_lt_Some in Hk. rewrite (ai_len _ _ _ HI) in Hk. unfold ARP_TABLE_SIZE in Hk.
  split; [|done]. destruct HI as [H1 H2 H3 H4 H5 H6]. split; try done; [by destruct H4; split|]. cbn. unfold ARP_TABLE_SIZE. lia.
Qed.

Lemma found_used s ip flags n k s1 e : found_by s ip flags n (At (Z.of_nat k)) s1 -> a_table s1 !! k = Some e -> used e -> s1 = s /\ matches ip n e.
Proof.
  intros Hf Hk Hu. inversion Hf as [k' e' Hk' Hm Ek|?|k' e' s'' Hfl Hno Hk' Hv Ht Hc Ek]; subst.
  - apply Nat2Z.inj in Ek. subst. split; [done|]. congruence.
  - apply Nat2Z.inj in Ek. subst. rewrite Ht, list_lookup_insert_eq in Hk by (by eapply lookup_lt_Some). injection Hk as <-. by destruct Hu.
Qed.

Lemma etharp_query_run s refs n f ip p pk : arp_inv s refs -> a_netifs s !! n = Some f -> 0 <= ip < 2 ^ 32 ->
  p = 0 \/ 0 < refs p < MAX_REFS /\ packet (a_frames s) p pk ->
  exists r s', etharp_query order n ip p s = Some (r, s') /\ arp_inv s' refs /\ a_netifs s' = a_netifs s /\ users_kept p s s' refs /\ queried s refs n f ip p pk r s'.
Proof.
  intros HI Hf Hip Hp. unfold etharp_query. rewrite (bind_run _ _ _ _ _ (get_netif_run _ _ _ Hf)).
  replace (ip4_addr_isbroadcast_u32 ip f || ip4_addr_ismulticast order ip || ip4_addr_isany_val ip) with (negb (unicast order ip f)).
  2:{ unfold unicast. rewrite negb_involutive. by destruct (ip4_addr_isany_val ip), (ip4_addr_isbroadcast_u32 ip f), (ip4_addr_ismulticast order ip). }
  destruct (unicast order ip f) eqn:Hu; cbn [negb].
  2:{ exists ERR_ARG, s. do 3 (split; [done|]). split; [by intros y g _ _|]. by apply queried_bad. }
  destruct (etharp_find_entry_run order s refs ip ETHARP_FLAG_TRY_HARD n HI ltac:(by left)) as (r1&s1&E1&Hfound&HI1&HC1&Hs1). rewrite (bind_run _ _ _ _ _ E1).
  destruct r1 as [i|err]; [|by inversion Hfound].
  destruct (found_at _ _ _ _ _ _ _ _ HI (found_by_netif _ _ _ _ _ HI Hf) Hfound) as (k&e&->&Hk&Hipe&Hne&Huniq&Hnew).
  assert (Hf1 : a_netifs s1 !! n = Some f) by (by rewrite (ca_netifs _ _ _ _ HC1)). rewrite (bind_run _ _ _ _ _ (entry_run _ _ _ Hk)).
  assert (Hnew' : used e \/ state e = ETHARP_STATE_EMPTY /\ q e = [] /\ ctime e = 0) by tauto.
  destruct (ready_run s1 refs k e n f HI1 Hf1 Hk Hne ltac:(by rewrite Hipe)) as (s2&E2&Hst2&Es2); [|exact Hnew'|].
  { intros j x Hj Hx Hux Ex1 Ex2. eapply Huniq; [exact Hj|exact Hx|done|congruence|done]. }
  rewrite (bind_run _ _ _ _ _ E2). pose proof Hst2 as (T2&C2&HI2&HC2). pose proof (found_by_cached _ _ _ _ _ _ Hfound) as C1.
  assert (Hf2 : a_netifs s2 !! n = Some f) by (by rewrite (ca_netifs _ _ _ _ HC2)).
  destruct (maybe_request_run (bool_decide (state e = ETHARP_STATE_EMPTY) || (p =? 0)) s2 refs n f ip HI2 Hf2 Hip) as (r3&s3&E3&((T3&C3&N3)&P3)&HI3&HC3&reqs&Hreqs&Hasked).
  assert (W2 : a_frames s2 = a_frames s1) by (by rewrite Es2). assert (P2 : a_pool s2 = a_pool s1) by (by rewrite Es2). rewrite W2 in Hasked.
  rewrite (bind_run _ _ _ _ _ E3). pose proof (entry_step_at _ _ _ _ _ _ Hst2 ltac:(by eapply lookup_lt_Some)) as Hk2. rewrite <- T3 in Hk2.
  rewrite W2, Hs1 in Hreqs. rewrite T2 in T3. rewrite C2, C1 in C3. assert (HCs : calm s s3 refs) by (eapply calm_trans; [exact HC1|by eapply calm_trans]).
  assert (Hf3 : a_netifs s3 !! n = Some f) by (by rewrite N3).
  destruct (Z.eqb_spec p 0) as [->|Hp0].
  { exists r3, s3. split; [done|]. split; [done|]. split; [apply HCs|]. split; [by apply calm_users|].
    rewrite orb_true_r in Hasked. eapply queried_probe; try done. split_and!; try done. cbn [orb]. by rewrite <- Es2. }
  destruct Hp as [?|[Hp Hpk]]; [done|]. rewrite orb_false_r in Hasked. rewrite (bind_run _ _ _ _ _ (entry_run _ _ _ Hk2)).
  assert (Hpk3 : packet (a_frames s3) p pk).
  { apply (ca_kept _ _ _ _ HCs); [|done]. unfold with_queued. pose proof (count_nonneg (waiting s3) p). lia. }
  destruct (is_stable (state e)) eqn:Est.
  - destruct (found_used _ _ _ _ _ _ _ Hfound Hk (stable_used _ Est)) as (->&Hm). rewrite (ready_stable _ _ Est) in *. rewrite Est.
    rewrite list_insert_id in T3 by done. destruct (hint_run s3 refs k e HI3 Hk2) as (s4&E4&HI4&T4&C4&N4&W4). rewrite (bind_run _ _ _ _ _ E4).
    rewrite bool_decide_false in Hasked by (by apply stable_used). destruct Hasked as (_&_&->). rewrite app_nil_r in Hreqs.
    destruct (send_packet_run s4 refs n f p pk (ethaddr e) HI4) as (r&s'&E'&((T'&C'&N')&P')&HI'&HU&Hs); [by rewrite N4|lia|by rewrite W4|by apply (ai_entries _ _ _ HI k e Hk)|].
    exists r, s'. split; [exact E'|]. split; [done|]. split; [rewrite N', N4; apply HCs|]. split.
    + eapply users_kept_trans; [by apply calm_users|]. intros y g Hy Hr Hg. apply HU; [done|done|]. by rewrite W4.
    + rewrite W4, Hreqs in Hs. eapply queried_sent; try done; congruence.
  - destruct (ready_pending n e Est) as [Epend Eq]. rewrite Epend. cbn [is_stable]. rewrite bool_decide_true by done.
    destruct (queue_packet_run s3 refs k _ p pk HI3 Hk2 Epend Hp Hpk3) as (r&s'&E'&HI'&C'&N'&S'&HU&Hr). exists r, s'. split; [exact E'|]. split; [done|].
    split; [rewrite N'; apply HCs|]. split.
    + eapply users_kept_trans; [by apply calm_users|]. intros y g _ Hy Hg. apply HU; [|done|done]. 
      eapply (holds_packet _ _ y (fi_holds _ _ _ _ (ai_frames _ _ _ HI3))). unfold with_queued. pose proof (count_nonneg (waiting s3) y). lia.
    + eapply (queried_waits s refs n f ip p pk s1 k e s3 reqs r r3 s'); try done; [|congruence|congruence|].
      { split_and!; try done. cbn [orb]. rewrite <- Es2. case_bool_decide; [done|]. by destruct Hasked as (_&->&->). }
      rewrite T3, P3, P2 in Hr. destruct Hr as [(->&T'&Hno)|(->&el&p'&pk'&T'&Hpk'&Hd&Hroom&Hold)]; [by left|right]. split; [done|]. exists el, p', pk'.
      rewrite list_insert_insert_eq, Eq in T'. rewrite Eq in Hold. split; [done|]. do 3 (split; [done|]). intros x g Hx Hx' Hg. apply Hold; [done|done|].
      apply (ca_kept _ _ _ _ HCs); [|done]. apply held_queued; [apply (ai_frames _ _ _ HI)|]. unfold waiting.
      destruct (waiting_split _ _ _ Hk2) as (rest&Hw&_). rewrite Hw, Eq. apply elem_of_app. by left.
Qed.
End query.
