(* ===== verification/EtharpOutput.v ===== *)
(** * Sending a packet to an address of the network, and answers to requests *)
From S2P Require Import Prelude Pbuf PbufRefs LwipDef LwipDefProofs IpAddr IpAddrProofs EthFrames Etharp EtharpTable FrameLaws EtharpInv EtharpOps EtharpSend EtharpQuery.
Open Scope Z_scope.

(** The hardware address of a group of the network (RFC 1112). *)
Definition multicast_hw (order : byte_order) (ip : Z) : list Z := [0x01; 0x00; 0x5e; Z.land (ip4_addr2 order ip) 0x7f; ip4_addr3 order ip; ip4_addr4 order ip].

Lemma get_byte_ok order a i : byte_ok (ip4_addr_get_byte order a i).
Proof. unfold byte_ok, ip4_addr_get_byte. destruct order; apply Z.mod_pos_bound; lia. Qed.

Lemma multicast_hw_ok order ip : hw_ok (multicast_hw order ip).
Proof.
  split; [done|]. unfold multicast_hw. do 3 (apply Forall_cons; split; [unfold byte_ok; lia|]).
  repeat (apply Forall_cons; split; [|]); [|apply get_byte_ok..|constructor].
  unfold byte_ok. change 0x7f with (Z.ones 7). rewrite Z.land_ones by lia. pose proof (Z.mod_pos_bound (ip4_addr2 order ip) (2 ^ 7) ltac:(lia)). lia.
Qed.

Section output.
Context (order : byte_order) {A L Q : Type} `{!PbufMemory A} `{!Link A L} `{!ArpQueue Q} `{!FramesOk order A L} `{!ArpQueueOk Q}.
Implicit Types (s : arp A L Q).

Abbreviation arp_inv := (arp_inv order).
Abbreviation users_kept := (users_kept order).

(** To whom a new request for an ageing address goes, if one is due. *)
Definition rerequest (e : etharp_entry) : option (list Z) :=
  if decide (state e = ETHARP_STATE_STABLE) then
    if ARP_AGE_REREQUEST_USED_BROADCAST <=? ctime e then Some ethbroadcast
    else if ARP_AGE_REREQUEST_USED_UNICAST <=? ctime e then Some (ethaddr e) else None
  else None.

(** The frames of a new request made with the packets [w], and the entry after it: none
    when none is due or there is no memory for it. *)
Definition rerequested (w : pstate A * L) (n : Z) (f : netif) (e e' : etharp_entry) (reqs : list (Z * list Z)) : Prop :=
  match rerequest e with
  | None => reqs = [] /\ e' = e
  | Some dst =>
      no_memory SIZEOF_ETHARP_HDR w /\ reqs = [] /\ e' = e \/
      reqs = [(n, request_frame order f (ipaddr e) dst)] /\ e' = with_arp_state ETHARP_STATE_STABLE_REREQUESTING_1 e
  end.

(** A frame has gone out, unless there was no room for its header. *)
Definition frame_sent s s' (reqs : list (Z * list Z)) (fr : Z * list Z) (pk : pkt) (r : err_t) : Prop :=
  sent (snd (a_frames s')) = sent (snd (a_frames s)) ++ reqs ++ [fr] \/ room pk = false /\ r = ERR_BUF /\ sent (snd (a_frames s')) = sent (snd (a_frames s)) ++ reqs.

Lemma rerequest_run s refs n f k e dst : arp_inv s refs -> a_netifs s !! n = Some f -> a_table s !! k = Some e -> rerequest e = Some dst ->
  exists s' e' reqs, (r ← etharp_request_dst order n (ipaddr e) dst; when (match r with ERR_OK => true | _ => false end) (set_entry (Z.of_nat k) (with_arp_state ETHARP_STATE_STABLE_REREQUESTING_1))) s = Some (tt, s') /\
    entry_step order s s' refs k e' /\ rerequested (a_frames s) n f e e' reqs /\ sent (snd (a_frames s')) = sent (snd (a_frames s)) ++ reqs.
Proof.
  intros HI Hf Hk Hre. unfold rerequested. rewrite Hre. pose proof (ai_entries _ _ _ HI _ _ Hk) as HE.
  assert (Hst : is_stable (state e) = true) by (unfold rerequest in Hre; case_decide as Hd; [by rewrite Hd|done]).
  assert (Hdst : hw_ok dst).
  { unfold rerequest in Hre. destruct (decide _); [|done]. destruct (_ <=? _); [injection Hre as <-; apply ethbroadcast_ok|].
    destruct (_ <=? _); [|done]. injection Hre as <-. by apply HE. }
  destruct (etharp_request_run order s refs n f (ipaddr e) dst HI Hf Hdst (proj2 (eo_nif _ _ HE (stable_used _ Hst)))) as (r&s1&E1&Hsr&HI1&HC1&Hr).
  rewrite (bind_run _ _ _ _ _ E1). pose proof (entry_step_same order s s1 refs k e Hk Hsr HI1 HC1) as Hst1.
  destruct Hr as [(->&Hr&Hno)|(->&Hr)]; cbn [when].
  - exists s1, e, []. split; [done|]. split; [done|]. split; [by left|]. by rewrite Hr, app_nil_r.
  - pose proof (entry_step_at _ _ _ _ _ _ Hst1 ltac:(by eapply lookup_lt_Some)) as Hk1.
    destruct (set_state_step order s1 refs k e ETHARP_STATE_STABLE_REREQUESTING_1 HI1 Hk1 Hst eq_refl) as (s2&E2&Hst2&W2).
    eexists s2, _, _. split; [exact E2|]. split; [by eapply entry_step_then|]. split; [by right|]. by rewrite W2.
Qed.

Lemma etharp_output_to_arp_index_run s refs n f k e p pk : arp_inv s refs -> a_netifs s !! n = Some f -> a_table s !! k = Some e -> is_stable (state e) = true ->
  0 < refs p -> packet (a_frames s) p pk ->
  exists r s' e' reqs, etharp_output_to_arp_index order n p (Z.of_nat k) s = Some (r, s') /\ arp_inv s' refs /\ a_netifs s' = a_netifs s /\ users_kept p s s' refs /\
    a_table s' = <[k := e']> (a_table s) /\ etharp_cached_entry s' = etharp_cached_entry s /\
    rerequested (a_frames s) n f e e' reqs /\ frame_sent s s' reqs (ip_frame n f (ethaddr e) pk) pk r.
Proof.
  intros HI Hf Hk Hst Hp Hpk. unfold etharp_output_to_arp_index. rewrite (bind_run _ _ _ _ _ (entry_run _ _ _ Hk)).
  assert (Hreq : exists s1 e1 reqs, when (bool_decide (state e = ETHARP_STATE_STABLE))
        (if ARP_AGE_REREQUEST_USED_BROADCAST <=? ctime e then
           r ← etharp_request order n (ipaddr e);
           when (match r with ERR_OK => true | _ => false end) (set_entry (Z.of_nat k) (with_arp_state ETHARP_STATE_STABLE_REREQUESTING_1))
         else
           when (ARP_AGE_REREQUEST_USED_UNICAST <=? ctime e)
             (r ← etharp_request_dst order n (ipaddr e) (ethaddr e);
              when (match r with ERR_OK => true | _ => false end) (set_entry (Z.of_nat k) (with_arp_state ETHARP_STATE_STABLE_REREQUESTING_1)))) s = Some (tt, s1) /\
    entry_step order s s1 refs k e1 /\ rerequested (a_frames s) n f e e1 reqs /\ sent (snd (a_frames s1)) = sent (snd (a_frames s)) ++ reqs).
  { pose proof (fun dst => rerequest_run s refs n f k e dst HI Hf Hk) as Hrr.
    assert (Hnone : rerequest e = None -> exists s1 e1 reqs, (mret tt : prog (arp A L Q) unit) s = Some (tt, s1) /\ entry_step order s s1 refs k e1 /\ rerequested (a_frames s) n f e e1 reqs /\ sent (snd (a_frames s1)) = sent (snd (a_frames s)) ++ reqs).
    { intros Hre. exists s, e, []. split; [done|]. split; [apply entry_step_same; [done|apply same_rest_refl|done|apply calm_refl]|]. split; [unfold rerequested; by rewrite Hre|]. by rewrite app_nil_r. }
    assert (Hre : rerequest e = if bool_decide (state e = ETHARP_STATE_STABLE) then
      if ARP_AGE_REREQUEST_USED_BROADCAST <=? ctime e then Some ethbroadcast else if ARP_AGE_REREQUEST_USED_UNICAST <=? ctime e then Some (ethaddr e) else None else None).
    { unfold rerequest. case_bool_decide; [by rewrite decide_True|by rewrite decide_False]. }
    destruct (bool_decide _); [|by apply Hnone]. cbn [when].
    destruct (_ <=? _); [by apply Hrr|]. destruct (_ <=? _); cbn [when]; [by apply Hrr|by apply Hnone]. }
  destruct Hreq as (s1&e1&reqs&E1&(T1&C1&HI1&HC1)&Hreqs&Hs1). rewrite (bind_run _ _ _ _ _ E1).
  assert (Hf1 : a_netifs s1 !! n = Some f) by (by rewrite (ca_netifs _ _ _ _ HC1)). rewrite (bind_run _ _ _ _ _ (get_netif_run _ _ _ Hf1)).
  assert (Hk1 : a_table s1 !! k = Some e1) by (rewrite T1; apply list_lookup_insert_eq; by eapply lookup_lt_Some). rewrite (bind_run _ _ _ _ _ (entry_run _ _ _ Hk1)).
  assert (Hhw : ethaddr e1 = ethaddr e) by (unfold rerequested in Hreqs; destruct (rerequest e); [destruct Hreqs as [(_&_&->)|(_&->)]|destruct Hreqs as [_ ->]]; done).
  assert (Hpk1 : packet (a_frames s1) p pk).
  { apply (ca_kept _ _ _ _ HC1); [|done]. unfold with_queued. pose proof (count_nonneg (waiting s1) p). lia. }
  rewrite Hhw. destruct (send_packet_run order s1 refs n f p pk (ethaddr e) HI1 Hf1 Hp Hpk1) as (r&s'&E'&((T'&C'&N')&P')&HI'&HU&Hs).
  { by apply (ai_entries _ _ _ HI _ _ Hk). }
  exists r, s', e1, reqs. split; [exact E'|]. split; [done|]. split; [rewrite N'; apply HC1|]. split.
  - eapply users_kept_trans; [by apply calm_users|done].
  - split; [by rewrite T'|]. split; [by rewrite C'|]. split; [done|]. unfold frame_sent. rewrite Hs1, <- app_assoc in Hs. exact Hs.
Qed.

(** ** Where a packet goes *)

Definition known (n ip : Z) (e : etharp_entry) : Prop := is_stable (state e) = true /\ nif e = n /\ ipaddr e = ip.

(** ** Routes *)

(** An address that a packet for everybody has: none, all ones, or a host of all ones
    on the network of an interface that can broadcast. *)
Definition broadcast (f : netif) (ip : Z) : Prop :=
  ip = 0 \/ ip = 0xffffffff \/
  Z.land (flags f) NETIF_FLAG_BROADCAST <> 0 /\ ip <> ip_addr f /\ Z.land ip (netmask f) = Z.land (ip_addr f) (netmask f) /\
    forall i, 0 <= i < 32 -> Z.testbit (netmask f) i = false -> Z.testbit ip i = true.

Definition multicast (ip : Z) : Prop := 224 <= ip4_addr1 order ip < 240.

(** On the network of the interface, or link-local (169.254). *)
Definition neighbour (f : netif) (ip : Z) : Prop :=
  Z.land ip (netmask f) = Z.land (ip_addr f) (netmask f) \/ ip4_addr1 order ip = 169 /\ ip4_addr2 order ip = 254.

Inductive route (f : netif) (ip : Z) : option Z -> Prop :=
  | route_direct : neighbour f ip -> route f ip (Some ip)
  | route_gateway : ~ neighbour f ip -> gw f <> 0 -> route f ip (Some (gw f))
  | route_none : ~ neighbour f ip -> gw f = 0 -> route f ip None.

Lemma next_hop_route f ip : 0 <= ip < 2 ^ 32 -> route f ip (next_hop order f ip).
Proof.
  intros Hip. unfold next_hop. pose proof (ip4_addr_islinklocal_bytes order ip Hip) as Hl.
  assert (Hn : negb (ip4_addr_netcmp ip (ip_addr f) (netmask f)) && negb (ip4_addr_islinklocal order ip) = true <-> ~ neighbour f ip).
  { unfold neighbour. rewrite andb_true_iff, !negb_true_iff, <- !not_true_iff_false, Hl. unfold ip4_addr_netcmp. rewrite Z.eqb_eq. tauto. }
  destruct (_ && _).
  - unfold ip4_addr_isany_val, IPADDR_ANY. destruct (Z.eqb_spec (gw f) 0) as [E|E]; cbn [negb]; [apply route_none|apply route_gateway]; by try apply Hn.
  - apply route_direct. destruct (decide (Z.land ip (netmask f) = Z.land (ip_addr f) (netmask f))); [by left|].
    destruct (ip4_addr_islinklocal order ip); [right; by apply Hl|]. exfalso. discriminate (proj2 Hn ltac:(intros [?|?%Hl]; done)).
Qed.

Lemma not32_bit x i : 0 <= i < 32 -> Z.testbit (not32 x) i = negb (Z.testbit x i).
Proof. intros Hi. unfold not32, u32. rewrite Z.mod_pow2_bits_low by lia. apply Z.lnot_spec. lia. Qed.

Lemma not32_high x i : 32 <= i -> Z.testbit (not32 x) i = false.
Proof. intros Hi. unfold not32, u32. apply Z.mod_pow2_bits_high. lia. Qed.

Lemma broadcast_test f ip : 0 <= ip < 2 ^ 32 -> ip4_addr_isbroadcast_u32 ip f = true <-> broadcast f ip.
Proof.
  intros Hip. unfold ip4_addr_isbroadcast_u32, broadcast, IPADDR_ANY, ip4_addr_netcmp.
  assert (Hall : not32 ip = 0 <-> ip = 0xffffffff) by (unfold not32, u32, Z.lnot; dlia).
  assert (Hhost : Z.land ip (not32 (netmask f)) = Z.land IPADDR_BROADCAST (not32 (netmask f)) <-> forall i, 0 <= i < 32 -> Z.testbit (netmask f) i = false -> Z.testbit ip i = true).
  { change IPADDR_BROADCAST with (Z.ones 32). split.
    - intros E i Hi Hm. apply (f_equal (fun x => Z.testbit x i)) in E. rewrite !Z.land_spec, not32_bit, Hm, Z.ones_spec_low, !andb_true_r in E by lia. done.
    - intros Hb. apply Z.bits_inj'. intros i Hi. rewrite !Z.land_spec. destruct (Z.lt_ge_cases i 32).
      + rewrite not32_bit, Z.ones_spec_low by lia. destruct (Z.testbit (netmask f) i) eqn:Em; [by rewrite !andb_false_r|]. by rewrite Hb.
      + rewrite not32_high by lia. by rewrite !andb_false_r. }
  destruct (Z.eqb_spec (not32 ip) 0) as [E1|E1]; cbn [orb]; [split; [intros _; right; left; by apply Hall|done]|].
  destruct (Z.eqb_spec ip 0) as [E2|E2]; [split; [by left|done]|].
  destruct (Z.eqb_spec (Z.land (flags f) NETIF_FLAG_BROADCAST) 0) as [E3|E3]; [split; [done|intros [?|[?|[? _]]]; tauto]|].
  destruct (Z.eqb_spec ip (ip_addr f)) as [E4|E4]; [split; [done|intros [?|[?|(_&?&_)]]; tauto]|].
  destruct (_ && _) eqn:E5.
  - apply andb_true_iff in E5 as [E5 E6]. apply Z.eqb_eq in E5, E6. split; [intros _; right; right|done]. rewrite Hhost in E6. by split_and!.
  - split; [done|]. intros [?|[?|(_&_&E6&E7)]]; [tauto|tauto|]. apply andb_false_iff in E5 as [E5|E5]; apply Z.eqb_neq in E5; [done|]. by destruct E5; apply Hhost.
Qed.

(** What becomes of a packet. *)
Inductive delivered s (refs : Z -> Z) (n : Z) (f : netif) (ip p : Z) (pk : pkt) : err_t -> arp A L Q -> Prop :=
  | delivered_broadcast r s' : broadcast f ip -> same_rest s s' -> frame_sent s s' [] (ip_frame n f ethbroadcast pk) pk r ->
      delivered s refs n f ip p pk r s'
  | delivered_multicast r s' : ~ broadcast f ip -> multicast ip -> same_rest s s' ->
      frame_sent s s' [] (ip_frame n f (multicast_hw order ip) pk) pk r -> delivered s refs n f ip p pk r s'
  | delivered_nowhere : ~ broadcast f ip -> ~ multicast ip -> route f ip None -> delivered s refs n f ip p pk ERR_RTE s
  | delivered_known dst k e e' reqs r s' : ~ broadcast f ip -> ~ multicast ip -> route f ip (Some dst) ->
      a_table s !! k = Some e -> known n dst e -> a_table s' = <[k := e']> (a_table s) -> etharp_cached_entry s' = Z.of_nat k ->
      rerequested (a_frames s) n f e e' reqs -> frame_sent s s' reqs (ip_frame n f (ethaddr e) pk) pk r -> delivered s refs n f ip p pk r s'
  | delivered_asked dst r s' : ~ broadcast f ip -> ~ multicast ip -> route f ip (Some dst) ->
      (forall k e, a_table s !! k = Some e -> ~ known n dst e) -> queried order s refs n f dst p pk r s' -> delivered s refs n f ip p pk r s'.

Lemma known_test n ip e : is_stable (state e) && (nif e =? n) && ip4_addr_cmp ip (ipaddr e) = true <-> known n ip e.
Proof. unfold known, ip4_addr_cmp. rewrite !andb_true_iff, !Z.eqb_eq. split; [intros ((H1&H2)&H3)|intros (H1&H2&H3)]; auto. Qed.

Lemma stable_loop_spec n dst es : forall i,
  match stable_loop (Z.of_nat i) es dst n with
  | Some j => exists k e, j = Z.of_nat (i + k) /\ es !! k = Some e /\ known n dst e
  | None => forall k e, es !! k = Some e -> ~ known n dst e
  end.
Proof.
  induction es as [|e es IH]; intros i; cbn [stable_loop]; [by intros k e Hk|].
  destruct (is_stable (state e) && (nif e =? n) && ip4_addr_cmp dst (ipaddr e)) eqn:E.
  - exists 0%nat, e. split; [by rewrite Nat.add_0_r|]. split; [done|]. by apply known_test.
  - assert (Hn : ~ known n dst e) by (rewrite <- known_test; congruence). specialize (IH (S i)).
    replace (Z.of_nat i + 1) with (Z.of_nat (S i)) by lia. destruct (stable_loop (Z.of_nat (S i)) es dst n).
    + destruct IH as (k&x&->&Hk&Hx). exists (S k), x. split; [f_equal; lia|done].
    + intros [|k] x Hk; [by injection Hk as <-|by eapply IH].
Qed.

Lemma frame_sent_direct s s' fr pk r : (sent (snd (a_frames s')) = sent (snd (a_frames s)) ++ [fr] \/ room pk = false /\ r = ERR_BUF /\ sent (snd (a_frames s')) = sent (snd (a_frames s))) -> frame_sent s s' [] fr pk r.
Proof. intros [H|(H1&H2&H3)]; [left; by rewrite H|right]. rewrite H3, app_nil_r. done. Qed.

Lemma etharp_output_run s refs n f ip p pk : arp_inv s refs -> a_netifs s !! n = Some f -> 0 <= ip < 2 ^ 32 -> 0 < refs p < MAX_REFS -> packet (a_frames s) p pk ->
  exists r s', etharp_output order n p ip s = Some (r, s') /\ arp_inv s' refs /\ a_netifs s' = a_netifs s /\ users_kept p s s' refs /\ delivered s refs n f ip p pk r s'.
Proof.
  intros HI Hf Hip Hp Hpk. unfold etharp_output. rewrite (bind_run _ _ _ _ _ (get_netif_run _ _ _ Hf)). destruct (ai_netifs _ _ _ HI _ _ Hf) as (_&_&_&Hgw).
  pose proof (broadcast_test f ip Hip) as Hb. pose proof (ip4_addr_ismulticast_bytes order ip Hip) as Hm. fold (multicast ip) in Hm. pose proof (next_hop_route f ip Hip) as Hroute.
  destruct (ip4_addr_isbroadcast_u32 ip f) eqn:Eb.
  { destruct (send_packet_run order s refs n f p pk ethbroadcast HI Hf (proj1 Hp) Hpk ethbroadcast_ok) as (r&s'&E&Hsr&HI'&HU&Hs). exists r, s'. split; [exact E|].
    split; [done|]. split; [apply Hsr|]. split; [done|]. apply delivered_broadcast; [by apply Hb|done|by apply frame_sent_direct]. }
  destruct (ip4_addr_ismulticast order ip) eqn:Em.
  { destruct (send_packet_run order s refs n f p pk (multicast_hw order ip) HI Hf (proj1 Hp) Hpk (multicast_hw_ok order ip)) as (r&s'&E&Hsr&HI'&HU&Hs). exists r, s'. split; [exact E|].
    split; [done|]. split; [apply Hsr|]. split; [done|]. apply delivered_multicast; [by rewrite <- Hb|by apply Hm|done|by apply frame_sent_direct]. }
  assert (Hnb : ~ broadcast f ip) by (by rewrite <- Hb). assert (Hnm : ~ multicast ip) by (by rewrite <- Hm). clear Hb Hm.
  destruct (next_hop order f ip) as [dst|] eqn:En.
  2:{ exists ERR_RTE, s. do 3 (split; [done|]). split; [by intros y g _ _|]. by apply delivered_nowhere. }
  assert (Hdst : 0 <= dst < 2 ^ 32).
  { unfold next_hop in En. destruct (_ && _); [|by injection En as <-]. destruct (negb _); [|done]. by injection En as <-. }
  rewrite ask_bind. destruct (ai_cached _ _ _ HI) as [Hc0 Hc1]. destruct (entry_at order s refs (Z.to_nat (etharp_cached_entry s)) HI ltac:(lia)) as [ec Hec].
  pose proof (entry_run _ _ _ Hec) as Eec. rewrite Z2Nat.id in Eec by done. rewrite (bind_run _ _ _ _ _ Eec).
  assert (Hindex : forall k e s1, a_table s !! k = Some e -> known n dst e -> arp_inv s1 refs -> a_table s1 = a_table s -> etharp_cached_entry s1 = Z.of_nat k ->
    a_netifs s1 = a_netifs s -> a_frames s1 = a_frames s -> exists r s', etharp_output_to_arp_index order n p (Z.of_nat k) s1 = Some (r, s') /\
      arp_inv s' refs /\ a_netifs s' = a_netifs s /\ users_kept p s s' refs /\ delivered s refs n f ip p pk r s').
  { intros k e s1 Hk Hkn HI1 T1 C1 N1 W1. pose proof Hk as Hk1. rewrite <- T1 in Hk1. pose proof Hf as Hf1. rewrite <- N1 in Hf1. pose proof Hpk as Hpk1. rewrite <- W1 in Hpk1.
    destruct (etharp_output_to_arp_index_run s1 refs n f k e p pk HI1 Hf1 Hk1 (proj1 Hkn) (proj1 Hp) Hpk1) as (r&s'&e'&reqs&E&HI'&N'&HU&T'&C'&Hre&Hfs).
    exists r, s'. split; [done|]. split; [done|]. split; [congruence|]. split; [intros y g Hy Hr Hg; apply HU; [done|done|by rewrite W1]|].
    rewrite T1 in T'. rewrite C1 in C'. rewrite W1 in Hre. apply (delivered_known s refs n f ip p pk dst k e e' reqs r s'); try done. unfold frame_sent in *. by rewrite <- W1. }
  destruct (is_stable (state ec) && (nif ec =? n) && ip4_addr_cmp dst (ipaddr ec)) eqn:Ec.
  { apply known_test in Ec. destruct (Hindex _ ec s Hec Ec HI eq_refl ltac:(by rewrite Z2Nat.id) eq_refl eq_refl) as (r&s'&E&H). rewrite Z2Nat.id in E by done. by exists r, s'. }
  rewrite ask_bind, take_ge by (by rewrite (ai_len _ _ _ HI)). pose proof (stable_loop_spec n dst (a_table s) 0) as Hloop. change (Z.of_nat 0) with 0 in Hloop.
  destruct (stable_loop 0 (a_table s) dst n) as [j|].
  - destruct Hloop as (k&e&->&Hk&Hkn). cbn [Nat.add]. destruct (hint_run order s refs k e HI Hk) as (s1&E1&HI1&T1&C1&N1&W1). rewrite (bind_run _ _ _ _ _ E1).
    by apply (Hindex k e s1).
  - destruct (etharp_query_run order s refs n f dst p pk HI Hf Hdst ltac:(by right)) as (r&s'&E&HI'&N'&HU&Hq). exists r, s'. split; [exact E|].
    split; [done|]. split; [done|]. split; [done|]. by eapply delivered_asked.
Qed.
End output.
