(* ===== verification/EtharpInput.v ===== *)
(** * Receiving a packet of the address resolution *)
From S2P Require Import Prelude Pbuf PbufRefs LwipDef LwipDefProofs IpAddr IpAddrProofs EthFrames Etharp EtharpTable FrameLaws EtharpInv EtharpOps EtharpSend EtharpQuery.
Open Scope Z_scope.

(** The fields of a packet. *)
Definition field (pk : pkt) (k n : nat) : list Z := take n (drop k (data pk)).
Definition word (order : byte_order) (bs : list Z) : Z := match bs with [a; b; c; d] => host32 order a b c d | _ => 0 end.
Definition arp_sender (order : byte_order) (pk : pkt) : Z := word order (field pk 14 4).
Definition arp_target (order : byte_order) (pk : pkt) : Z := word order (field pk 24 4).
Definition arp_hardware (pk : pkt) : list Z := field pk 8 6.

(** The packet is about the addresses of IPv4 on an Ethernet. *)
Definition arp_proper (pk : pkt) : Prop :=
  field pk 0 2 = word16 LWIP_IANA_HWTYPE_ETHERNET /\ field pk 2 2 = word16 ETHTYPE_IP /\ field pk 4 1 = [ETH_HWADDR_LEN] /\ field pk 5 1 = [4].

Definition arp_request_in (pk : pkt) : Prop := field pk 6 2 = word16 ARP_REQUEST.

Lemma bytes16_htons order v : 0 <= v < 2 ^ 16 -> bytes16 order (lwip_htons order v) = word16 v.
Proof.
  intros Hv. unfold bytes16, word16. destruct order; cbn [lwip_htons]; [|by rewrite u16_small]. rewrite PP_HTONS_spec by done. f_equal; [dlia|]. f_equal. dlia.
Qed.

Lemma word_range order bs : Forall byte_ok bs -> 0 <= word order bs < 2 ^ 32.
Proof.
  unfold word. intros Hb. destruct bs as [|a [|b [|c [|d [|]]]]]; try done.
  rewrite !Forall_cons in Hb. destruct Hb as (Ha&Hb&Hc&Hd&_). unfold byte_ok in *. destruct order; cbn [host32]; lia.
Qed.

Section input.
Context (order : byte_order) {A L Q : Type} `{!PbufMemory A} `{!Link A L} `{!ArpQueue Q} `{!FramesOk order A L} `{!ArpQueueOk Q}.
Implicit Types (s : arp A L Q).

Abbreviation arp_inv := (arp_inv order).
Abbreviation calm := (calm order).
Abbreviation users_kept := (users_kept order).

Definition for_us (f : netif) (pk : pkt) : bool := if ip4_addr_isany_val (ip_addr f) then false else ip4_addr_cmp (arp_target order pk) (ip_addr f).

Definition reply_frame (f : netif) (pk : pkt) : list Z :=
  eth_frame (arp_hardware pk) (hwaddr f) ETHTYPE_ARP (arp_packet order ARP_REPLY (hwaddr f) (ip_addr f) (arp_hardware pk) (arp_sender order pk)).

(** The frames that answer a packet, made with the packets [w]: one for a request for
    this host, unless there is no memory for it. *)
Definition replied (w : pstate A * L) (n : Z) (f : netif) (pk : pkt) (reply : list (Z * list Z)) : Prop :=
  (arp_request_in pk /\ for_us f pk = true) /\ (reply = [(n, reply_frame f pk)] \/ reply = [] /\ no_memory SIZEOF_ETHARP_HDR w) \/
  ~ (arp_request_in pk /\ for_us f pk = true) /\ reply = [].

Lemma field_read s refs p pk k n : arp_inv s refs -> 0 < refs p -> packet (a_frames s) p pk -> (k + n <= head_len pk)%nat ->
  on_frames (load_at (start pk + Z.of_nat k) n) s = Some (field pk k n, s).
Proof.
  intros HI Hp Hpk Hk. destruct (read_ok _ _ p pk (fi_holds _ _ _ _ (ai_frames _ _ _ HI))) as (b&_&_&_&_&Hr); [|done|].
  - unfold with_queued. pose proof (count_nonneg (waiting s) p). lia.
  - unfold on_frames. rewrite Hr by done. by destruct s.
Qed.

(** What an ARP packet does. *)
Inductive arp_received s (refs : Z -> Z) (n : Z) (f : netif) (pk : pkt) : arp A L Q -> Prop :=
  | received_other s' : ~ arp_proper pk -> same_rest s s' -> snd (a_frames s') = snd (a_frames s) -> arp_received s refs n f pk s'
  | received_proper err s1 reply s' : arp_proper pk ->
      etharp_update_arp_entry order n (arp_sender order pk) (arp_hardware pk) (if for_us f pk then ETHARP_FLAG_TRY_HARD else ETHARP_FLAG_FIND_ONLY) s = Some (err, s1) ->
      updated order s refs n f (arp_sender order pk) (arp_hardware pk) (if for_us f pk then ETHARP_FLAG_TRY_HARD else ETHARP_FLAG_FIND_ONLY) err s1 ->
      same_rest s1 s' -> sent (snd (a_frames s')) = sent (snd (a_frames s1)) ++ reply -> replied (a_frames s1) n f pk reply -> arp_received s refs n f pk s'.

Lemma give_up_run s refs p : arp_inv s refs -> 0 < refs p -> exists r s', on_frames (on_packets (pbuf_free p)) s = Some (r, s') /\ same_rest s s' /\
  arp_inv s' (bump (-1) p refs) /\ snd (a_frames s') = snd (a_frames s) /\ users_kept p s s' refs.
Proof.
  intros HI Hp. pose proof (ai_frames _ _ _ HI) as HF. destruct (release_run order s refs p (fi_refs _ _ _ _ HF) _ HF Hp) as (r&s'&E&Hsr&HF'&Hs&HK).
  exists r, s'. split; [done|]. split; [done|]. split; [|split; [done|]].
  - destruct Hsr as ((T&C&N)&P). eapply (inv_frames order s); [done|by split|done|apply HF'|]. apply HF'.
  - intros y g Hy Hr Hg. apply HK; [by intros ?%not_elem_of_nil| |done]. unfold with_queued, bump. rewrite decide_False by tauto.
    pose proof (count_nonneg (waiting s) y). lia.
Qed.

Lemma proper_test pk : negb (bool_decide (field pk 0 2 = bytes16 order (lwip_htons order LWIP_IANA_HWTYPE_ETHERNET))) || negb (bool_decide (field pk 4 1 = [ETH_HWADDR_LEN]))
     || negb (bool_decide (field pk 5 1 = [4])) || negb (bool_decide (field pk 2 2 = bytes16 order (lwip_htons order ETHTYPE_IP))) = false <-> arp_proper pk.
Proof.
  rewrite !bytes16_htons by (unfold LWIP_IANA_HWTYPE_ETHERNET, ETHTYPE_IP; lia).
  rewrite !orb_false_iff, !negb_false_iff, !bool_decide_eq_true. unfold arp_proper. tauto.
Qed.

Lemma not_waiting s k e p : a_table s !! k = Some e -> count (waiting s) p = 0 -> p ∉ (q e).*2.
Proof.
  intros Hk Hc Hin. apply list_elem_of_fmap in Hin as (x&->&Hx). destruct (waiting_split _ _ _ Hk) as (rest&Hw&_). unfold waiting in Hc.
  rewrite (count_perm _ _ _ Hw), count_app in Hc. pose proof (count_nonneg rest x.2). pose proof (held_queued (fun _ => 0) (q e) x ltac:(done) Hx) as H0.
  unfold with_queued in H0. lia.
Qed.

Lemma updated_keeps s refs n f ip addr flags err s1 p pk : updated order s refs n f ip addr flags err s1 -> count (waiting s) p = 0 -> 0 < refs p ->
  packet (a_frames s) p pk -> packet (a_frames s1) p pk.
Proof.
  intros Hu Hc Hp Hpk. inversion Hu as [| |s0 k e s' _ _ Hk _ Hnew _ _ HK _]; subst; [done|done|].
  apply HK; [|unfold with_queued; pose proof (count_nonneg (waiting s1) p); lia|done].
  destruct Hnew as [[Hk' _]|(_&->&_)]; [by eapply not_waiting|by intros ?%not_elem_of_nil].
Qed.

(** The answer to a request. *)
Lemma reply_run s refs n f p pk : arp_inv s refs -> a_netifs s !! n = Some f -> 0 < refs p -> packet (a_frames s) p pk -> (28 <= head_len pk)%nat ->
  hw_ok (arp_hardware pk) -> 0 <= arp_sender order pk < 2 ^ 32 ->
  exists s' reply, when (bool_decide (field pk 6 2 = bytes16 order (lwip_htons order ARP_REQUEST)) && for_us f pk)
          (shwaddr ← on_frames (load_at (start pk + 8) 6);
           _ ← on_frames (etharp_raw order n (hwaddr f) shwaddr (hwaddr f) (ip_addr f) shwaddr (arp_sender order pk) ARP_REPLY); mret tt) s = Some (tt, s') /\
    same_rest s s' /\ arp_inv s' refs /\ sent (snd (a_frames s')) = sent (snd (a_frames s)) ++ reply /\ replied (a_frames s) n f pk reply.
Proof.
  intros HI Hf Hp Hpk Hlen Hhw Hsip. rewrite bytes16_htons by (unfold ARP_REQUEST; lia).
  case_bool_decide as Hreq; cbn [andb]; [destruct (for_us f pk) eqn:Hus|]; cbn [when].
  2,3: exists s, []; split; [done|]; split; [apply same_rest_refl|]; rewrite app_nil_r; split_and!; try done; right; (split; [|done]); intros [? ?]; congruence.
  rewrite (bind_run _ _ _ _ _ (field_read s refs p pk 8 6 HI Hp Hpk ltac:(lia))). fold (arp_hardware pk).
  destruct (etharp_raw_run order s refs n f (arp_hardware pk) (arp_hardware pk) (arp_sender order pk) ARP_REPLY HI Hf Hhw Hhw Hsip ltac:(unfold ARP_REPLY; lia)) as (r&s'&E&Hsr&HI'&_&Hr).
  rewrite (bind_run _ _ _ _ _ E). destruct Hr as [(->&Hr&Hno)|(->&Hr)]; [exists s', []|eexists s', [_]]; (split; [done|]); (split; [done|]); (split; [done|]); rewrite Hr, ?app_nil_r; (split; [reflexivity|]).
  - left. split; [done|by right].
  - left. split; [done|by left].
Qed.

Lemma etharp_input_run s refs n f p pk : arp_inv s refs -> a_netifs s !! n = Some f -> 0 < refs p -> count (waiting s) p = 0 ->
  packet (a_frames s) p pk -> (28 <= head_len pk)%nat ->
  exists s', etharp_input order p n s = Some (tt, s') /\ arp_inv s' (bump (-1) p refs) /\ a_netifs s' = a_netifs s /\ arp_received s refs n f pk s'.
Proof.
  intros HI Hf Hp Hcount Hpk Hlen. unfold etharp_input. pose proof (ai_frames _ _ _ HI) as HF.
  assert (Hheld : 0 < with_queued refs (waiting s) p) by (unfold with_queued; lia).
  destruct (read_ok _ _ p pk (fi_holds _ _ _ _ HF) Hheld Hpk) as (b&Eb&Hst&Hhd&Hbytes&_).
  assert (Eb' : on_frames (on_packets (pb p)) s = Some (b, s)) by (unfold on_frames; rewrite Eb; by destruct s).
  rewrite (bind_run _ _ _ _ _ Eb'), Hst. clear Eb Eb'. destruct (ai_netifs _ _ _ HI _ _ Hf) as (Hn0&Hhw&Hipf&_).
  pose proof (fun k n => field_read s refs p pk k n HI Hp Hpk) as Hread.
  assert (Hread0 : on_frames (load_at (start pk) 2) s = Some (field pk 0 2, s)) by (rewrite <- (Z.add_0_r (start pk)); apply (Hread 0%nat); lia).
  rewrite (bind_run _ _ _ _ _ Hread0), (bind_run _ _ _ _ _ (Hread 2%nat 2%nat ltac:(lia))), (bind_run _ _ _ _ _ (Hread 4%nat 1%nat ltac:(lia))), (bind_run _ _ _ _ _ (Hread 5%nat 1%nat ltac:(lia))).
  destruct (_ || _) eqn:Eok.
  { destruct (give_up_run s refs p HI Hp) as (r&s'&E&Hsr&HI'&Hs&_). rewrite (bind_run _ _ _ _ _ E). exists s'. split; [done|]. split; [done|].
    split; [apply Hsr|]. apply received_other; [|done|done]. intros Hpr%proper_test. congruence. }
  apply proper_test in Eok as Hproper. clear Eok.
  rewrite (bind_run _ _ _ _ _ (Hread 14%nat 4%nat ltac:(lia))), (bind_run _ _ _ _ _ (Hread 24%nat 4%nat ltac:(lia))), (bind_run _ _ _ _ _ (get_netif_run _ _ _ Hf)).
  rewrite (bind_run _ _ _ _ _ (Hread 8%nat 6%nat ltac:(lia))).
  change (match field pk 14 4 with [b0; b1; b2; b3] => host32 order b0 b1 b2 b3 | _ => 0 end) with (arp_sender order pk).
  change (match field pk 24 4 with [b0; b1; b2; b3] => host32 order b0 b1 b2 b3 | _ => 0 end) with (arp_target order pk). fold (for_us f pk).
  assert (Hfield : forall k n, Forall byte_ok (field pk k n)) by (intros; by apply Forall_take, Forall_drop).
  assert (Hhwa : hw_ok (arp_hardware pk)) by (split; [unfold arp_hardware, field; rewrite length_take, length_drop; lia|apply Hfield]).
  assert (Hsip : 0 <= arp_sender order pk < 2 ^ 32) by apply word_range, Hfield.
  destruct (etharp_update_arp_entry_run order s refs n f (arp_sender order pk) (arp_hardware pk) (if for_us f pk then ETHARP_FLAG_TRY_HARD else ETHARP_FLAG_FIND_ONLY) HI Hf Hhwa Hsip
    ltac:(destruct (for_us f pk); auto)) as (err&s1&E1&HI1&N1&Hcount1&Hupd).
  change (field pk 8 6) with (arp_hardware pk). rewrite (bind_run _ _ _ _ _ E1).
  pose proof (updated_keeps _ _ _ _ _ _ _ _ _ _ _ Hupd Hcount Hp Hpk) as Hpk1. pose proof Hf as Hf1. rewrite <- N1 in Hf1.
  rewrite (bind_run _ _ _ _ _ (field_read s1 refs p pk 6 2 HI1 Hp Hpk1 ltac:(lia))).
  destruct (reply_run s1 refs n f p pk HI1 Hf1 Hp Hpk1 Hlen Hhwa Hsip) as (s2&reply&E2&Hsr2&HI2&Hs2&Hrep). rewrite (bind_run _ _ _ _ _ E2).
  destruct (give_up_run s2 refs p HI2 Hp) as (r&s'&E&Hsr&HI'&Hs&_). rewrite (bind_run _ _ _ _ _ E). exists s'. split; [done|]. split; [done|].
  split; [rewrite (proj2 (proj2 (proj1 Hsr))), (proj2 (proj2 (proj1 Hsr2))); exact N1|].
  eapply received_proper; [done|exact E1|exact Hupd|by eapply same_rest_trans|rewrite Hs; exact Hs2|done].
Qed.
End input.
