(* ===== verification/PbufFrames.v ===== *)
(** * The packet buffers keep the promises of [FrameLaws]

    The packets that are held lie in blocks of their own, inside of the memory of
    the stack, or outside of it if their data belongs to somebody else; so
    a header that is put in front of one packet, or a new packet, changes no other
    one.  The driver sends what a packet holds. *)
From S2P Require Import Prelude Mem Memp Pbuf PbufProofs PbufRefs LwipDef LwipDefProofs IpAddr IpAddrProofs EthFrames Etharp FrameLaws EtharpInput.
Open Scope Z_scope.

(** A driver that sends the bytes of a packet and leaves the packets alone. *)
Class LinkOk (A L : Type) `{!Link A L} := {
  link_sent : L -> list (Z * list Z);
  link_ok n p (s : pstate A) l bs ds : chain (pbufs s) p bs -> lens_ok bs -> read (addrs bs) (bytes s) = Some ds ->
    exists r l', linkoutput n p (s, l) = Some (r, (s, l')) /\ link_sent l' = link_sent l ++ [(n, ds)]
}.

Section frames.
Context {A L : Type} `{!PbufMemory A} (pool_size : memp_t -> Z) `{!PbufMemoryOk A pool_size} `{!Link A L} `{!LinkOk A L}.
Context (ram : Z -> Prop) (Hram : forall a H x u n i, owns a H -> H !! x = Some (u, n) -> x <= i < x + n -> ram i).
Implicit Types (s : pstate A).

#[local] Set Default Proof Using "All".

#[local] Abbreviation refs_ok := (refs_ok pool_size).

(** Data that belongs to somebody else is readable and not in the memory of the stack. *)
Definition foreign (m : mem) (b : pbuf) : Prop :=
  contiguous b = false -> mapped m (p_payload b) (p_len b) /\ forall i, p_payload b <= i < p_payload b + p_len b -> ~ ram i.

Record packets_ok s (refs : Z -> Z) : Prop := {
  pk_refs : exists H, refs_ok s refs H;
  pk_bytes : bytes_ok (bytes s);
  pk_ram : forall i, ram i -> is_Some (bytes s !! i);
  pk_heads : forall p, 0 < refs p -> pointers (pbufs s) p = 0;
  pk_chains : forall p bs, 0 < refs p -> chain (pbufs s) p bs -> lens_ok bs /\ nonempty bs /\ Forall (fun x => foreign (bytes s) x.2) bs
}.

(** ** Where the bytes of a packet are *)

Lemma held_chain s refs p : packets_ok s refs -> 0 < refs p -> exists b bs, p <> 0 /\ pbufs s !! p = Some b /\ chain (pbufs s) p ((p, b) :: bs).
Proof.
  intros HP Hp. destruct (pk_refs _ _ HP) as [H HR]. destruct (held_live _ _ _ _ _ HR Hp) as [b Hb]. pose proof (live_nonzero _ _ _ _ _ _ HR Hb) as Hp0.
  destruct (ro_chain _ _ _ _ HR p ltac:(by eexists)) as [[|[a c] bs] Hc]; [done|]. cbn in Hc. destruct Hc as (<-&_&E&Hc).
  exists c, bs. split; [done|]. split; [done|]. cbn. done.
Qed.

Lemma in_addrs i bs : i ∈ addrs bs <-> exists x, x ∈ bs /\ i ∈ spots x.2.
Proof.
  induction bs as [|[a b] bs IH]; cbn [addrs].
  - split; [by intros ?%not_elem_of_nil|]. by intros (x&?%not_elem_of_nil&_).
  - rewrite elem_of_app, IH. split.
    + intros [Hi|(x&Hx&Hi)]; [exists (a, b); split; [by left|done]|exists x; split; [by right|done]].
    + intros (x&[->|Hx]%elem_of_cons&Hi); [by left|right; by exists x].
Qed.

Lemma in_spots i b : i ∈ spots b <-> p_payload b <= i < p_payload b + p_len b.
Proof. unfold spots. by rewrite elem_of_seqZ. Qed.

(** The data of a buffer that has its own lies in its block. *)
Lemma spots_in_block s refs H a b i : refs_ok s refs H -> pbufs s !! a = Some b -> contiguous b = true -> i ∈ spots b ->
  exists n, H !! a = Some (source_of b, n) /\ a + SIZEOF_STRUCT_PBUF <= i < a + n.
Proof.
  intros HR Ha Hc Hi%in_spots. destruct (ro_block _ _ _ _ HR _ _ Ha) as (n&Hn&HB). destruct (bo_data _ _ _ HB Hc). exists n. split; [done|lia].
Qed.

Lemma block_ram s refs H a u n i : refs_ok s refs H -> H !! a = Some (u, n) -> a <= i < a + n -> ram i.
Proof. intros HR. apply (Hram _ _ _ _ _ _ (ro_owns _ _ _ _ HR)). Qed.

(** No block of another buffer holds data of a packet. *)
Lemma addrs_avoid_block s refs H bs a u n i : refs_ok s refs H -> (forall x b, (x, b) ∈ bs -> pbufs s !! x = Some b) ->
  Forall (fun x => foreign (bytes s) x.2) bs -> H !! a = Some (u, n) -> a ∉ bs.*1 -> a <= i < a + n -> i ∉ addrs bs.
Proof.
  intros HR Hbs Hf Ha Hnot Hi ([x b]&Hx&Hs)%in_addrs. cbn in Hs. pose proof (Hbs _ _ Hx) as Hxb.
  destruct (contiguous b) eqn:Ec.
  - destruct (spots_in_block _ _ _ _ _ _ HR Hxb Ec Hs) as (k&Hk&Hik).
    assert (Hne : x <> a) by (intros ->; apply Hnot; by apply (list_elem_of_fmap_2 fst _ (a, b))).
    destruct (owns_apart _ _ _ _ _ _ _ _ (ro_owns _ _ _ _ HR) Hk Ha Hne); unfold SIZEOF_STRUCT_PBUF in *; lia.
  - rewrite Forall_forall in Hf. destruct (Hf _ Hx Ec) as [_ Hout]. apply (Hout i); [by apply in_spots|by eapply block_ram].
Qed.

Lemma tail_avoids_block s refs H p b bs u n i : packets_ok s refs -> refs_ok s refs H -> 0 < refs p -> chain (pbufs s) p ((p, b) :: bs) ->
  H !! p = Some (u, n) -> p <= i < p + n -> i ∉ addrs bs.
Proof.
  intros HP HR Hp Hc Hn. destruct (pk_chains _ _ HP p _ Hp Hc) as (_&_&[_ Hf]%Forall_cons).
  apply (addrs_avoid_block s refs H bs p u n i HR); [|done|done|].
  - intros x c Hx. eapply chain_in; [exact Hc|by right].
  - pose proof (chain_nodup _ _ _ Hc) as Hnd. by apply NoDup_cons in Hnd as [? _].
Qed.

Lemma held_reads s refs p bs : packets_ok s refs -> 0 < refs p -> chain (pbufs s) p bs -> exists ds, read (addrs bs) (bytes s) = Some ds.
Proof.
  intros HP Hp Hc. destruct (pk_refs _ _ HP) as [H HR]. destruct (pk_chains _ _ HP p bs Hp Hc) as (_&_&Hf).
  unfold read. apply mapM_is_Some, Forall_forall. intros i ([x b]&Hx&Hs)%in_addrs. cbn in Hs.
  destruct (contiguous b) eqn:Ec.
  - destruct (spots_in_block _ _ _ _ _ _ HR (chain_in _ _ _ _ _ Hc Hx) Ec Hs) as (n&Hn&Hi). apply (pk_ram _ _ HP). unfold SIZEOF_STRUCT_PBUF in *.
    eapply block_ram; [exact HR|exact Hn|lia].
  - rewrite Forall_forall in Hf. destruct (Hf _ Hx Ec) as [Hm _]. apply Hm. by apply in_spots.
Qed.

(** ** The packets *)

Definition HEADER : Z := SIZEOF_ETH_HDR.

(** Does [pbuf_add_header] find room for [k] bytes, for the header of a frame? *)
Definition has_space (k p : Z) (b : pbuf) : bool := contiguous b && (p + SIZEOF_STRUCT_PBUF + k <=? p_payload b) && (p_tot_len b + k <? 2 ^ 16).
Definition has_room (p : Z) (b : pbuf) : bool := has_space HEADER p b.

Definition pbuf_packet (w : pstate A * L) (p : Z) (f : pkt) : Prop :=
  exists b bs, chain (pbufs (fst w)) p ((p, b) :: bs) /\ read (addrs ((p, b) :: bs)) (bytes (fst w)) = Some (data f) /\
    room f = has_room p b /\ start f = p_payload b /\ head_len f = Z.to_nat (p_len b).

Definition pbuf_holds (w : pstate A * L) (refs : Z -> Z) : Prop := packets_ok (fst w) refs.

Lemma pbuf_holds_packet w refs p : pbuf_holds w refs -> 0 < refs p -> p <> 0 /\ exists f, pbuf_packet w p f.
Proof.
  intros HP Hp. destruct (held_chain _ _ _ HP Hp) as (b&bs&Hp0&Hb&Hc). split; [done|]. destruct (held_reads _ _ _ _ HP Hp Hc) as [ds Hds].
  exists (mkPkt (has_room p b) (p_payload b) (Z.to_nat (p_len b)) ds). by exists b, bs.
Qed.

Lemma pbuf_read w refs p f : pbuf_holds w refs -> 0 < refs p -> pbuf_packet w p f -> exists b, on_packets (pb p) w = Some (b, w) /\ p_payload b = start f /\
  (head_len f <= length (data f))%nat /\ Forall byte_ok (data f) /\
  forall k n, (k + n <= head_len f)%nat -> load_at (start f + Z.of_nat k) n w = Some (take n (drop k (data f)), w).
Proof.
  intros HP Hp (b&bs&Hc&Hds&_&Hst&Hhd). destruct w as [s l]. cbn [fst] in *. exists b. pose proof Hc as (_&_&Hb&_).
  unfold on_packets. cbn [fst snd]. rewrite (pb_run _ _ _ Hb). split; [done|]. split; [done|].
  destruct (pk_chains _ _ HP p _ Hp Hc) as (Hl&_&_). pose proof Hl as (Hlen&_).
  pose proof (read_length _ _ _ Hds) as Hlds. cbn [addrs] in Hds, Hlds. rewrite length_app in Hlds. pose proof (spots_length b Hlen) as Hsl.
  split; [lia|]. split; [exact (read_bytes_ok _ _ _ (pk_bytes _ _ HP) Hds)|]. intros k n Hkn.
  apply read_app_Some in Hds as (vs&ws&->&Hvs&_). pose proof (read_length _ _ _ Hvs) as Hlv.
  unfold load_at, on_packets, try_ask. cbn [fst snd]. rewrite load_bytes_read, Hst.
  rewrite (read_sub (p_payload b) (p_len b) (Z.of_nat k) (Z.of_nat n) (bytes s) vs Hvs) by lia. cbn [fmap option_fmap option_map mbind option_bind].
  rewrite !Nat2Z.id. do 2 f_equal. rewrite (drop_app_le _ _ k) by lia. by rewrite take_app_le by (rewrite length_drop; lia).
Qed.

(** ** Changes of the counts *)

Definition twins (x y : Z * pbuf) : Prop := y.1 = x.1 /\ y.2 = with_ref (p_ref y.2) x.2.

Lemma chain_survives s s' q bs bs' : survivors s s' -> chain (pbufs s) q bs -> chain (pbufs s') q bs' -> Forall2 twins bs bs'.
Proof.
  intros HS. revert q bs. induction bs' as [|[a b'] bs' IH]; intros q [|[c b] bs]; cbn; [by constructor|by intros (->&?&_) ?|by intros -> (<-&?&_)|].
  intros (->&_&E&Hc) (->&_&E'&Hc'). destruct (HS a b' E') as (b0&E0&Hb'). assert (b0 = b) as -> by congruence.
  constructor; [done|]. apply (IH (p_next b)); [done|]. by replace (p_next b) with (p_next b') by (by rewrite Hb').
Qed.

Lemma twins_addrs bs bs' : Forall2 twins bs bs' -> addrs bs' = addrs bs /\ total bs' = total bs.
Proof.
  induction 1 as [|[a b] [a' b'] bs bs' [H1 H2] _ [IH1 IH2]]; [done|]. cbn [fst snd] in *. cbn [addrs total]. unfold spots. rewrite IH1, IH2, H2. done.
Qed.

Lemma twins_ok m bs bs' : Forall2 twins bs bs' -> lens_ok bs /\ nonempty bs /\ Forall (fun x => foreign m x.2) bs -> lens_ok bs' /\ nonempty bs' /\ Forall (fun x => foreign m x.2) bs'.
Proof.
  induction 1 as [|[a b] [a' b'] bs bs' [H1 H2] HT IH]; [done|]. cbn [fst snd] in *. destruct (twins_addrs _ _ HT) as [_ Ht]. cbn [lens_ok].
  intros ((L1&L2&L3&L4)&(N1&N2)%Forall_cons&(F1&F2)%Forall_cons). destruct (IH ltac:(done)) as (I1&I2&I3). cbn [snd] in *. rewrite Ht.
  split; [rewrite H2; by split_and!|]. split; [apply Forall_cons; split; [cbn; by rewrite H2|done]|]. apply Forall_cons. split; [|done]. cbn. by rewrite H2.
Qed.

Lemma packets_twin s s' refs refs' H' : packets_ok s refs -> refs_ok s' refs' H' -> survivors s s' -> bytes s' = bytes s -> (forall q, 0 < refs' q -> 0 < refs q) ->
  packets_ok s' refs' /\ forall l l' p f, 0 < refs' p -> pbuf_packet (s, l) p f -> pbuf_packet (s', l') p f.
Proof.
  intros HP HR HS Hb Hr. split.
  - pose proof HP as [_ H2 H3 H4 H5]. rewrite <- Hb in H2, H3. split; [by exists H'|done|done| |].
    + intros p Hp. pose proof (pointers_nonneg (pbufs s') p). destruct (decide (pointers (pbufs s') p = 0)) as [|Hne]; [done|exfalso].
      destruct (pointers_pos (pbufs s') p ltac:(lia)) as (a&b'&Ha&Hn). destruct (HS a b' Ha) as (b&Eb&Etw).
      eapply (pointers_zero (pbufs s) p a b); [by apply H4, Hr|done|]. by rewrite <- Hn, Etw.
    + intros p bs' Hp Hc'. destruct (held_chain s refs p HP (Hr p Hp)) as (b&bs&_&_&Hc). rewrite Hb.
      eapply twins_ok; [by eapply chain_survives|]. apply (H5 p ((p, b) :: bs)); [by apply Hr|done].
  - intros l l' p f Hp (b&bs&Hc&Hds&H1&H2&H3). cbn [fst] in *. destruct (ro_chain _ _ _ _ HR p) as [bs' Hc']; [by apply (ro_refs _ _ _ _ HR)|].
    pose proof (chain_survives _ _ _ _ _ HS Hc Hc') as HT. inversion HT as [|? [a b'] ? bs2 [T1 T2] HT' E1 E2]; subst. cbn [fst snd] in *. subst a.
    exists b', bs2. cbn [fst]. split; [done|]. rewrite Hb, (proj1 (twins_addrs _ _ HT)). split; [done|]. unfold has_room, has_space in *. rewrite T2. by split_and!.
Qed.

Lemma pbuf_free_keeps w refs p : pbuf_holds w refs -> 0 < refs p -> exists r w', on_packets (pbuf_free p) w = Some (r, w') /\
  pbuf_holds w' (bump (-1) p refs) /\ (forall q f, 0 < bump (-1) p refs q -> pbuf_packet w q f -> pbuf_packet w' q f) /\ snd w' = snd w.
Proof.
  intros HP Hp. destruct w as [s l]. unfold pbuf_holds in *. cbn [fst] in *. destruct (pk_refs _ _ HP) as [H HR].
  destruct (pbuf_free_run _ s refs H p HR Hp) as (s'&H'&E&HR'&HS&Hb&_). eexists _, (s', l). unfold on_packets. cbn [fst snd]. rewrite E. split; [done|].
  destruct (packets_twin s s' refs (bump (-1) p refs) H' HP HR' HS Hb) as [HP' HK].
  { intros q. unfold bump. case_decide as Hd; [destruct Hd as [-> _]; done|done]. }
  split; [done|]. split; [|done]. intros q f. apply HK.
Qed.

(** ** Taking a packet over *)

Lemma copy_needed_run fuel s p bs : chain (pbufs s) p bs -> (length bs < fuel)%nat -> exists c, copy_needed fuel p s = Some (c, s).
Proof.
  revert p bs. induction fuel as [|fuel IH]; intros p bs Hc Hf; [lia|]. cbn [copy_needed]. destruct bs as [|[a b] bs]; cbn in Hc.
  - subst p. by exists false.
  - destruct Hc as (->&Ha&E&Hc). rewrite (proj2 (Z.eqb_neq a 0)) by done. rewrite (bind_run _ _ _ _ _ (pb_run _ _ _ E)).
    destruct (PBUF_NEEDS_COPY b); [by exists true|]. apply (IH (p_next b) bs Hc). cbn in Hf. lia.
Qed.

Lemma pbuf_ref_keeps s refs p : packets_ok s refs -> 0 < refs p < 255 -> exists s', pbuf_ref p s = Some (tt, s') /\ packets_ok s' (bump 1 p refs) /\
  forall l l' q f, 0 < refs q -> pbuf_packet (s, l) q f -> pbuf_packet (s', l') q f.
Proof.
  intros HP Hp. destruct (pk_refs _ _ HP) as [H HR]. destruct (held_chain s refs p HP (proj1 Hp)) as (b&bs&Hp0&Hb&Hc).
  destruct (ro_count _ _ _ _ HR p b Hb) as [Hcnt _]. rewrite (pk_heads _ _ HP p (proj1 Hp)) in Hcnt.
  destruct (pbuf_ref_run _ s refs H p b HR Hb ltac:(lia)) as (s'&E&HR'). exists s'. split; [done|].
  assert (Es : s' = mkP (<[p := with_ref (u8 (p_ref b + 1)) b]> (pbufs s)) (bytes s) (alloc s)).
  { unfold pbuf_ref in E. rewrite (proj2 (Z.eqb_neq p 0)) in E by done. cbn [negb when] in E. rewrite (set_pb_run _ _ _ _ Hb) in E. by injection E as <-. }
  destruct (packets_twin s s' refs (bump 1 p refs) H HP HR') as [HP' HK].
  - rewrite Es. intros q b' Hq. cbn [pbufs] in Hq. rewrite lookup_insert in Hq. case_decide as Hd; [injection Hq as <-; subst q; by exists b|].
    exists b'. split; [done|]. by destruct b'.
  - by rewrite Es.
  - intros q. unfold bump. case_decide as Hd; [destruct Hd as [-> _]; lia|done].
  - split; [done|]. intros l l' q f Hq. apply HK. unfold bump. case_decide; lia.
Qed.

(** ** Writing into the first buffer of a packet *)

Lemma refs_ok_bytes s refs H m : refs_ok s refs H -> refs_ok (with_bytes s m) refs H.
Proof. intros []. by split. Qed.

(** Only packet [p] has data in its first block. *)
Lemma packets_store s refs H p u n a k m : packets_ok s refs -> refs_ok s refs H -> 0 < refs p -> H !! p = Some (u, n) -> p <= a -> a + k <= p + n ->
  outside_kept a k (bytes s) m -> bytes_ok m -> (forall i, is_Some (bytes s !! i) -> is_Some (m !! i)) ->
  packets_ok (with_bytes s m) refs /\ forall l x f, x <> p -> 0 < refs x -> pbuf_packet (s, l) x f -> pbuf_packet (with_bytes s m, l) x f.
Proof.
  intros HP HR Hp Hn Ha1 Ha2 Hout Hok Hdom. split.
  - pose proof HP as [H1 H2 H3 H4 H5]. split; cbn [with_bytes pbufs bytes]; [exists H; by apply refs_ok_bytes|done|auto|done|].
    intros x bs Hx Hc. destruct (H5 x bs Hx Hc) as (L1&L2&F). split; [done|]. split; [done|]. eapply Forall_impl; [exact F|].
    intros y Hy Hf. destruct (Hy Hf) as [Hm Hr]. split; [|done]. intros i Hi. by apply Hdom, Hm.
  - intros l x f Hxp Hx (b&bs&Hc&Hds&Hrest). exists b, bs. cbn [fst with_bytes pbufs bytes] in *. split; [done|]. split; [|done].
    rewrite <- Hds. apply read_ext. intros i Hi. apply Hout. intros Hin.
    assert (Hnot : p ∉ ((x, b) :: bs).*1).
    { eapply chain_avoids; [exact Hc|done|]. intros q c Hq. eapply pointers_zero; [|exact Hq]. by apply (pk_heads _ _ HP). }
    revert Hi. destruct (pk_chains _ _ HP x _ Hx Hc) as (_&_&Hf). apply (addrs_avoid_block s refs H _ p u n i HR); [|done|done|done|lia].
    intros y c Hy. by eapply chain_in.
Qed.

(** Bytes are written at some place of a range. *)
Lemma store_inserts a k m ds bs j : read (seqZ a k) m = Some ds -> bytes_ok m -> Forall byte_ok bs -> Z.of_nat (j + length bs) <= k ->
  exists m', store_bytes (a + Z.of_nat j) bs m = Some m' /\ read (seqZ a k) m' = Some (list_inserts j bs ds) /\ outside_kept a k m m' /\
    bytes_ok m' /\ (forall i, is_Some (m !! i) -> is_Some (m' !! i)).
Proof.
  intros Hds Hok Hb Hj. pose proof (read_length _ _ _ Hds) as Hl. rewrite length_seqZ in Hl.
  assert (Hmap : mapped m (a + Z.of_nat j) (Z.of_nat (length bs))) by (eapply mapped_sub; [eapply read_mapped; exact Hds|lia|lia]).
  destruct (store_bytes_spec _ bs m Hmap) as (m'&E&Hv). exists m'. split; [done|]. split; [|split; [|split]].
  - replace k with (Z.of_nat (Z.to_nat k)) by lia. rewrite <- load_bytes_read. apply load_bytes_spec. rewrite length_inserts. split; [done|].
    intros i Hi. rewrite Hv. case_decide as Hd.
    + rewrite list_lookup_inserts by lia. replace (Z.to_nat (a + Z.of_nat i - (a + Z.of_nat j))) with (i - j)%nat by lia.
      destruct (bs !! (i - j)%nat) as [v|] eqn:Ev; [|done]. cbn. rewrite Forall_lookup in Hb. specialize (Hb _ _ Ev). unfold byte_ok in Hb. by rewrite u8_small by lia.
    + rewrite (read_lookup _ _ _ i (a + Z.of_nat i) Hds) by (apply lookup_seqZ; lia).
      destruct (decide (i < j)%nat); [by rewrite list_lookup_inserts_lt|]. by rewrite list_lookup_inserts_ge by lia.
  - intros i Hi. rewrite Hv, decide_False by lia. done.
  - intros i v Hi. rewrite Hv in Hi. case_decide; [|by eapply Hok]. apply fmap_Some in Hi as (x&Hx&->).
    rewrite Forall_lookup in Hb. specialize (Hb _ _ Hx). unfold byte_ok in *. rewrite u8_small by lia. done.
  - intros i Hi. rewrite Hv. case_decide; [|done]. apply fmap_is_Some, lookup_lt_is_Some. lia.
Qed.

(** Stores into a range [a, a + k) that holds [ds], one after the other. *)
Record patched s (a k : Z) (ds : list Z) s' (ds' : list Z) : Prop := {
  pa_bytes : exists m, s' = with_bytes s m /\ outside_kept a k (bytes s) m /\ bytes_ok m /\ (forall i, is_Some (bytes s !! i) -> is_Some (m !! i));
  pa_read : read (seqZ a k) (bytes s') = Some ds'
}.

Lemma patched_start s a k ds : bytes_ok (bytes s) -> read (seqZ a k) (bytes s) = Some ds -> patched s a k ds s ds.
Proof. intros Hok Hr. split; [|done]. exists (bytes s). by rewrite with_bytes_id. Qed.

Lemma store_at_run s a k ds s1 ds1 j bs (l : L) : patched s a k ds s1 ds1 -> Forall byte_ok bs -> Z.of_nat (j + length bs) <= k ->
  exists s2, store_at (a + Z.of_nat j) bs (s1, l) = Some (tt, (s2, l)) /\ patched s a k ds s2 (list_inserts j bs ds1).
Proof.
  intros [(m&->&Ho&Hok&Hd) Hr] Hb Hj. cbn [with_bytes bytes] in Hr. destruct (store_inserts a k m ds1 bs j Hr Hok Hb Hj) as (m'&E&Hr'&Ho'&Hok'&Hd').
  exists (with_bytes s m'). unfold store_at, on_packets, try_update. cbn [fst snd with_bytes bytes]. rewrite E. cbn. split; [done|]. split; [|done].
  exists m'. split; [done|]. split; [|auto]. intros i Hi. by rewrite Ho', Ho.
Qed.

(** ** Putting a header in front *)

Lemma held_block s refs H p b : refs_ok s refs H -> pbufs s !! p = Some b -> exists n, H !! p = Some (source_of b, n) /\ buffer_ok p b n /\ p mod 4 = 0 /\ 0 < p /\ p + n < 2 ^ 32.
Proof.
  intros HR Hb. destruct (ro_block _ _ _ _ HR _ _ Hb) as (n&Hn&HB). exists n. split; [done|]. split; [done|].
  destruct (owns_range _ _ _ _ _ (ro_owns _ _ _ _ HR) Hn) as (?&?&_&?). done.
Qed.

(** The data of the first buffer of a packet begins somewhere else. *)
Lemma packets_head s refs p b bs payload k : packets_ok s refs -> 0 < refs p -> pbufs s !! p = Some b -> chain (pbufs s) p ((p, b) :: bs) ->
  contiguous b = true -> 0 < p_len b + k -> p + SIZEOF_STRUCT_PBUF <= payload -> payload + k = p_payload b -> p_tot_len b + k < 2 ^ 16 ->
  let b' := with_lens payload (p_tot_len b + k) (p_len b + k) b in
  let s' := mkP (<[p := b']> (pbufs s)) (bytes s) (alloc s) in
  packets_ok s' refs /\ chain (pbufs s') p ((p, b') :: bs) /\
  forall l x f, x <> p -> 0 < refs x -> pbuf_packet (s, l) x f -> pbuf_packet (s', l) x f.
Proof.
  intros HP Hp Hb Hc Hct Hk Hpay Hend Htot b' s'. destruct (pk_refs _ _ HP) as [H HR].
  assert (Hother : forall x bs', x <> p -> chain (pbufs s) x bs' -> chain (pbufs s') x bs').
  { intros x bs' Hx Hc'. eapply pchain_frame; [|exact Hc']. intros y Hy. cbn [s' pbufs]. apply lookup_insert_ne. intros <-. revert Hy.
    eapply chain_avoids; [exact Hc'|done|]. intros y c Hy. eapply pointers_zero; [|exact Hy]. by apply (pk_heads _ _ HP). }
  assert (Hself : chain (pbufs s') p ((p, b') :: bs)).
  { cbn in Hc |- *. destruct Hc as (_&Hp0&_&Hc). rewrite lookup_insert_eq. split_and!; [done|done|done|]. destruct bs as [|[y c] bs]; [done|].
    assert (y <> p). { destruct Hc as (Ey&_). rewrite <- Ey. eapply pointers_zero; [by apply (pk_heads _ _ HP)|done]. }
    destruct Hc as (->&Hc). by apply Hother. }
  destruct (pk_chains _ _ HP p _ Hp Hc) as ((L1&L2&L3&L4)&[N1 N2]%Forall_cons&[F1 F2]%Forall_cons). cbn [snd] in N1. pose proof (total_nneg _ L4).
  assert (HR' : refs_ok s' refs H).
  { apply refs_ok_data with (b := b); [done|done|done|]. intros n _ [B1 B2 B3 B4]. split; cbn [b' with_lens p_len p_tot_len p_payload]; [done|lia|done|].
    intros _. destruct (B4 Hct). lia. }
  split; [|split; [done|]].
  - pose proof HP as [H1 H2 H3 H4 H5]. split; cbn [s' bytes]; [by exists H|done|done| |].
    + intros x Hx. cbn [s' pbufs]. rewrite (pointers_update _ _ b) by done. unfold points. cbn [b' with_lens p_next]. rewrite (H4 x Hx). lia.
    + intros x bs' Hx Hc'. destruct (decide (x = p)) as [->|Hxp].
      * rewrite (chain_det _ _ _ _ Hc' Hself). cbn [lens_ok b' with_lens p_len p_tot_len]. split; [split_and!; lia || done|].
        split; apply Forall_cons; (split; [|done]); [cbn; lia|]. intros Hnc. change (contiguous b = false) in Hnc. congruence.
      * destruct (ro_chain _ _ _ _ HR x ltac:(by apply (ro_refs _ _ _ _ HR))) as [bs0 Hc0].
        rewrite (chain_det _ _ _ _ Hc' (Hother _ _ Hxp Hc0)). by apply (H5 x bs0).
  - intros l x f Hxp Hx (c&cs&Hcx&Hrest). exists c, cs. split; [by apply Hother|done].
Qed.

Lemma add_header_run s refs p b bs k : packets_ok s refs -> 0 < refs p -> pbufs s !! p = Some b -> chain (pbufs s) p ((p, b) :: bs) -> 0 < k <= 20 ->
  if has_space k p b
  then exists b', let s' := mkP (<[p := b']> (pbufs s)) (bytes s) (alloc s) in pbuf_add_header p k s = Some (0, s') /\
    b' = with_lens (p_payload b - k) (p_tot_len b + k) (p_len b + k) b /\ packets_ok s' refs /\ chain (pbufs s') p ((p, b') :: bs) /\
    contiguous b' = true /\ forall l x f, x <> p -> 0 < refs x -> pbuf_packet (s, l) x f -> pbuf_packet (s', l) x f
  else pbuf_add_header p k s = Some (1, s).
Proof.
  intros HP Hp Hb Hc Hk. destruct (pk_refs _ _ HP) as [H HR]. destruct (held_block _ _ _ _ _ HR Hb) as (n&Hn&[_ [Bl Bt] _ Bd]&H4&Hp0&H32).
  unfold pbuf_add_header, pbuf_add_header_impl. rewrite (proj2 (Z.eqb_neq p 0)), (proj2 (Z.ltb_ge 0xFFFF k)), (proj2 (Z.eqb_neq k 0)) by lia.
  cbn [orb]. cbv zeta. rewrite (bind_run _ _ _ _ _ (pb_run _ _ _ Hb)). rewrite (u16_small k) by lia. fold (contiguous b). unfold has_space.
  destruct (Z.ltb_spec (p_tot_len b + k) (2 ^ 16)) as [Ht|Ht].
  - rewrite andb_true_r, (u16_small (k + p_tot_len b)) by lia. rewrite (proj2 (Z.ltb_ge _ _)) by lia.
    destruct (contiguous b) eqn:Ec; cbn [andb negb]; [|done]. destruct (Bd eq_refl) as [D1 D2]. unfold SIZEOF_STRUCT_PBUF in *.
    rewrite (u32_small (p + 16)) by lia. destruct (Z.leb_spec (p + 16 + k) (p_payload b)) as [Hr|Hr]; cbn [andb].
    + rewrite (u32_small (p_payload b - k)), (proj2 (Z.ltb_ge _ _)) by lia. rewrite (bind_run _ _ _ _ _ (set_pb_run _ _ _ _ Hb)).
      destruct (pk_chains _ _ HP p _ Hp Hc) as ((L1&L2&L3&L4)&_). pose proof (total_nneg _ L4). rewrite !u16_small by lia.
      destruct (packets_head s refs p b bs (p_payload b - k) k HP Hp Hb Hc Ec ltac:(lia) ltac:(unfold SIZEOF_STRUCT_PBUF; lia) ltac:(lia) ltac:(lia)) as (HP'&Hc'&HK).
      eexists. split; [done|]. by split_and!.
    + by rewrite (u32_small (p_payload b - k)), (proj2 (Z.ltb_lt _ _)) by dlia.
  - rewrite andb_false_r. rewrite (proj2 (Z.ltb_lt _ _)); [done|]. unfold u16. dlia.
Qed.

(** A header is taken off, and something is left in the first buffer. *)
Lemma remove_header_keeps s refs p b bs k : packets_ok s refs -> 0 < refs p -> pbufs s !! p = Some b -> chain (pbufs s) p ((p, b) :: bs) -> contiguous b = true -> 0 < k < p_len b ->
  let b' := with_lens (p_payload b + k) (p_tot_len b - k) (p_len b - k) b in let s' := mkP (<[p := b']> (pbufs s)) (bytes s) (alloc s) in
  pbuf_remove_header p k s = Some (0, s') /\ packets_ok s' refs /\ chain (pbufs s') p ((p, b') :: bs) /\
  forall l x f, x <> p -> 0 < refs x -> pbuf_packet (s, l) x f -> pbuf_packet (s', l) x f.
Proof.
  intros HP Hp Hb Hc Hct Hk b' s'. destruct (pk_refs _ _ HP) as [H HR]. destruct (held_block _ _ _ _ _ HR Hb) as (n&Hn&[_ [Bl Bt] _ Bd]&H4&Hp0&H32).
  destruct (Bd Hct) as [D1 D2]. destruct (pk_chains _ _ HP p _ Hp Hc) as ((L1&L2&L3&L4)&_). pose proof (total_nneg _ L4). unfold SIZEOF_STRUCT_PBUF in *. split.
  - unfold pbuf_remove_header. rewrite (proj2 (Z.eqb_neq p 0)), (proj2 (Z.ltb_ge 0xFFFF k)), (proj2 (Z.eqb_neq k 0)) by lia. cbn [orb].
    rewrite (bind_run _ _ _ _ _ (pb_run _ _ _ Hb)), (u16_small k) by lia. cbv zeta. rewrite (proj2 (Z.ltb_ge _ _)) by lia.
    by rewrite (bind_run _ _ _ _ _ (set_pb_run _ _ _ _ Hb)), u32_small, !u16_small by lia.
  - apply (packets_head s refs p b bs (p_payload b + k) (- k) HP Hp Hb Hc Hct); unfold SIZEOF_STRUCT_PBUF; lia.
Qed.

Lemma header_bytes dst src type h rest : length h = 14%nat -> hw_ok src -> hw_ok dst ->
  list_inserts 6 src (list_inserts 0 dst (list_inserts 12 (word16 type) (h ++ rest))) = eth_frame dst src type rest.
Proof.
  intros Hh [Hs _] [Hd _]. do 14 (destruct h as [|? h]; [done|]). destruct h; [|done].
  do 6 (destruct dst as [|? dst]; [done|]). destruct dst; [|done]. do 6 (destruct src as [|? src]; [done|]). by destruct src.
Qed.

Lemma word16_ok v : 0 <= v < 2 ^ 16 -> Forall byte_ok (word16 v).
Proof. intros Hv. unfold word16, byte_ok. repeat constructor; dlia. Qed.

Lemma packets_run {B} (q : prog (pstate A) B) s x s' (l : L) : q s = Some (x, s') -> on_packets q (s, l) = Some (x, (s', l)).
Proof. intros E. unfold on_packets. cbn [fst snd]. by rewrite E. Qed.

(** The first buffer of a packet is written. *)
Lemma patched_packet s refs p b bs hd tl hd' s' : packets_ok s refs -> 0 < refs p -> chain (pbufs s) p ((p, b) :: bs) -> contiguous b = true ->
  read (spots b) (bytes s) = Some hd -> read (addrs bs) (bytes s) = Some tl -> patched s (p_payload b) (p_len b) hd s' hd' ->
  packets_ok s' refs /\ pbufs s' = pbufs s /\ read (addrs ((p, b) :: bs)) (bytes s') = Some (hd' ++ tl) /\
  forall l x f, x <> p -> 0 < refs x -> pbuf_packet (s, l) x f -> pbuf_packet (s', l) x f.
Proof.
  intros HP Hp Hc Hct Hhd Htl [(m&->&Ho&Hok&Hd) Hr]. cbn [with_bytes pbufs bytes] in *. pose proof Hc as (_&_&Hb&_).
  destruct (pk_refs _ _ HP) as [H HR]. destruct (held_block _ _ _ _ _ HR Hb) as (sz&Hn&[_ _ _ Bd]&_&Hp0&H32). destruct (Bd Hct) as [D1 D2]. unfold SIZEOF_STRUCT_PBUF in *.
  destruct (packets_store s refs H p _ sz (p_payload b) (p_len b) m HP HR Hp Hn ltac:(lia) ltac:(lia) Ho Hok Hd) as [HP' HK].
  split; [done|]. split; [done|]. split; [|done]. apply read_app_Some. exists hd', tl. split; [done|]. split; [done|].
  rewrite <- Htl. apply read_ext. intros i Hi. apply Ho. intros Hin. revert Hi. eapply (tail_avoids_block s refs H p b bs); try done. lia.
Qed.

(** A header is put in front and written by [write]. *)
Lemma front_run s refs p b bs k ds : packets_ok s refs -> 0 < refs p -> pbufs s !! p = Some b -> chain (pbufs s) p ((p, b) :: bs) -> 0 < k <= 20 ->
  has_space k p b = true -> read (addrs ((p, b) :: bs)) (bytes s) = Some ds ->
  let b' := with_lens (p_payload b - k) (p_tot_len b + k) (p_len b + k) b in let s1 := mkP (<[p := b']> (pbufs s)) (bytes s) (alloc s) in
  pbuf_add_header p k s = Some (0, s1) /\ pbufs s1 !! p = Some b' /\ exists hd tl, length hd = Z.to_nat k /\ length (hd ++ tl) = Z.to_nat (p_len b') /\
    patched s1 (p_payload b') (p_len b') (hd ++ tl) s1 (hd ++ tl) /\
    forall hd' s2, patched s1 (p_payload b') (p_len b') (hd ++ tl) s2 (hd' ++ tl) ->
      packets_ok s2 refs /\ chain (pbufs s2) p ((p, b') :: bs) /\ read (addrs ((p, b') :: bs)) (bytes s2) = Some (hd' ++ ds) /\
      forall l x f, x <> p -> 0 < refs x -> pbuf_packet (s, l) x f -> pbuf_packet (s2, l) x f.
Proof.
  intros HP Hp Hb Hc Hk Hs Hds b' s1. pose proof (add_header_run s refs p b bs k HP Hp Hb Hc Hk) as Hadd. rewrite Hs in Hadd.
  destruct Hadd as (b1&Eadd&->&HP1&Hc1&Hct&HK1). fold b' in Eadd, HP1, Hc1, Hct, HK1. fold s1 in Eadd, HP1, Hc1, HK1. split; [done|]. split; [apply Hc1|].
  destruct (pk_chains _ _ HP p _ Hp Hc) as ((L1&_)&_). destruct (held_reads _ _ _ _ HP1 Hp Hc1) as [all Hall].
  pose proof Hall as (h1&tl&->&Hh1&Htl)%read_app_Some. fold (addrs bs) in Htl. pose proof (read_length _ _ _ Hh1) as Hl1. unfold spots in Hl1. rewrite length_seqZ in Hl1.
  cbn [addrs] in Hds. apply read_app_Some in Hds as (d1&d2&->&Hd1&Hd2). cbn [s1 bytes] in Hh1, Htl. assert (d2 = tl) as -> by congruence.
  assert (Ed : drop (Z.to_nat k) h1 = d1).
  { pose proof (read_sub _ _ k (p_len b) _ _ Hh1 ltac:(lia) ltac:(lia) ltac:(cbn; lia)) as Hx. cbn [b' with_lens p_payload] in Hx. replace (p_payload b - k + k) with (p_payload b) in Hx by lia.
    unfold spots in Hd1. rewrite Hd1 in Hx. injection Hx as ->. rewrite take_ge; [done|]. rewrite length_drop. cbn [b' with_lens p_len] in Hl1. lia. }
  exists (take (Z.to_nat k) h1), d1. rewrite <- Ed, take_drop. split; [rewrite length_take; cbn [b' with_lens p_len] in Hl1; lia|]. split; [done|].
  pose proof (patched_start s1 (p_payload b') (p_len b') h1 (pk_bytes _ _ HP1) Hh1) as P0. split; [done|]. intros hd' s2 P2.
  destruct (patched_packet s1 refs p b' bs h1 tl _ s2 HP1 Hp Hc1 Hct Hh1 Htl P2) as (HP2&Eq&Hr&HK2). split; [done|]. rewrite Eq. split; [done|].
  split; [by rewrite Hr, app_assoc|]. intros l x f Hx Hrx Hf. apply HK2; [done|done|]. by apply HK1.
Qed.

Lemma pbuf_send order w refs n p f src dst type : pbuf_holds w refs -> 0 < refs p -> pbuf_packet w p f -> hw_ok src -> hw_ok dst -> 0 <= type < 2 ^ 16 ->
  exists r w', ethernet_output order n p src dst type w = Some (r, w') /\ pbuf_holds w' refs /\
    (forall p' f', p' <> p -> 0 < refs p' -> pbuf_packet w p' f' -> pbuf_packet w' p' f') /\
    (link_sent (snd w') = link_sent (snd w) ++ [(n, eth_frame dst src type (data f))] \/ room f = false /\ r = ERR_BUF /\ link_sent (snd w') = link_sent (snd w)).
Proof.
  intros HP Hp (b&bs&Hc&Hds&Hrm&Hst&Hhd) Hsrc Hdst Hty. destruct w as [s l]. unfold pbuf_holds in *. cbn [fst snd] in *.
  pose proof Hc as (_&_&Hb&_). unfold ethernet_output. rewrite Hrm. unfold has_room. change HEADER with 14. change SIZEOF_ETH_HDR with 14.
  destruct (has_space 14 p b) eqn:Hsp.
  2: { pose proof (add_header_run s refs p b bs 14 HP Hp Hb Hc ltac:(lia)) as Hadd. rewrite Hsp in Hadd.
    rewrite (bind_run _ _ _ _ _ (packets_run _ _ _ _ l Hadd)). eexists _, (s, l). cbn. split; [done|]. split; [done|]. split; [done|]. by right. }
  destruct (front_run s refs p b bs 14 _ HP Hp Hb Hc ltac:(lia) Hsp Hds) as (Eadd&Hb1&hd&tl&Hhdl&Hlen&P0&Hfin).
  rewrite (bind_run _ _ _ _ _ (packets_run _ _ _ _ l Eadd)). cbn [negb Z.eqb]. rewrite (bind_run _ _ _ _ _ (packets_run _ _ _ _ l (pb_run _ _ _ Hb1))).
  rewrite bytes16_htons by done. set (b' := with_lens _ _ _ b) in *. set (s1 := mkP _ _ _) in *. rewrite length_app, Hhdl in Hlen.
  destruct (store_at_run _ _ _ _ _ _ 12 (word16 type) l P0 (word16_ok _ Hty) ltac:(cbn [length word16]; lia)) as (s2&E2&P2).
  destruct (store_at_run _ _ _ _ _ _ 0 dst l P2 (proj2 Hdst) ltac:(rewrite (proj1 Hdst); lia)) as (s3&E3&P3).
  destruct (store_at_run _ _ _ _ _ _ 6 src l P3 (proj2 Hsrc) ltac:(rewrite (proj1 Hsrc); lia)) as (s4&E4&P4). change (Z.of_nat 0) with 0 in E3. rewrite Z.add_0_r in E3.
  rewrite (bind_run _ _ _ _ _ E2), (bind_run _ _ _ _ _ E3), (bind_run _ _ _ _ _ E4). rewrite header_bytes in P4 by done.
  replace (eth_frame dst src type tl) with (eth_frame dst src type [] ++ tl) in P4 by (unfold eth_frame; by rewrite app_nil_r, <- !app_assoc).
  destruct (Hfin _ _ P4) as (HP4&Hc4&Hr4&HK4). replace (eth_frame dst src type [] ++ data f) with (eth_frame dst src type (data f)) in Hr4 by (unfold eth_frame; by rewrite app_nil_r, <- !app_assoc).
  destruct (link_ok n p s4 l ((p, b') :: bs) _ Hc4 (proj1 (pk_chains _ _ HP4 p _ Hp Hc4)) Hr4) as (r&l'&El&Hsent).
  eexists r, (_, l'). split; [exact El|]. split; [done|]. split; [|by left]. intros q g Hq Hrq Hg.
  destruct (HK4 l q g Hq Hrq Hg) as (c&cs&Hg'). by exists c, cs.
Qed.

(** ** New packets *)

Lemma alloc_ram_state s len q s' : pbuf_alloc PBUF_LINK len PBUF_RAM s = Some (q, s') ->
  pbufs s' = if q =? 0 then pbufs s else <[q := fresh_pbuf (LWIP_MEM_ALIGN (q + SIZEOF_STRUCT_PBUF + 14)) len len PBUF_RAM]> (pbufs s).
Proof.
  cbn [pbuf_alloc layer_offset]. cbv zeta. case_match; [by intros [= <- <-]|]. unfold mbind at 1, prog_bind at 1, in_alloc.
  destruct (heap_malloc _ (alloc s)) as [[x a]|]; [|done]. cbn. destruct (Z.eqb_spec x 0) as [->|Hx]; [by intros [= <- <-]|].
  intros [= <- <-]. rewrite (proj2 (Z.eqb_neq x 0)) by done. done.
Qed.

(** A packet of the heap in one buffer, with room for a header. *)
Definition new_packet s (refs : Z -> Z) (len q : Z) s' : Prop :=
  q <> 0 /\ refs q = 0 /\ packets_ok s' (bump 1 q refs) /\
  exists b, chain (pbufs s') q [(q, b)] /\ contiguous b = true /\ p_len b = len /\ p_tot_len b = len /\ q + SIZEOF_STRUCT_PBUF + HEADER <= p_payload b.

Lemma pbuf_alloc_keeps s refs len : packets_ok s refs -> 0 < len < 2 ^ 16 -> exists q s', pbuf_alloc PBUF_LINK len PBUF_RAM s = Some (q, s') /\ bytes s' = bytes s /\
  (forall x b, pbufs s !! x = Some b -> pbufs s' !! x = Some b) /\
  (forall l x f, 0 < refs x -> pbuf_packet (s, l) x f -> pbuf_packet (s', l) x f) /\ (q = 0 /\ packets_ok s' refs \/ new_packet s refs len q s').
Proof.
  intros HP Hlen. destruct (pk_refs _ _ HP) as [H HR]. destruct (pbuf_alloc_ram_run _ s refs H PBUF_LINK len HR ltac:(lia)) as (q&s'&H'&E&Hb&Hcase).
  pose proof (alloc_ram_state _ _ _ _ E) as Hpb. exists q, s'. split; [done|]. split; [done|]. destruct Hcase as [(->&HR')|(Hq&HR'&bs&Hc&Hl&Ht&_&Hnew)].
  { cbn in Hpb. rewrite Hpb. split; [done|]. split; [|left; split; [done|]].
    - intros l x f Hx. unfold pbuf_packet. cbn [fst]. by rewrite Hpb, Hb.
    - pose proof HP as [H1 H2 H3 H4 H5]. split; rewrite ?Hpb, ?Hb; by eauto. }
  rewrite (proj2 (Z.eqb_neq q 0)) in Hpb by done. set (b := fresh_pbuf _ _ _ _) in Hpb.
  assert (Hqb : pbufs s' !! q = Some b) by (by rewrite Hpb, lookup_insert_eq).
  assert (Hdead : pbufs s !! q = None) by (destruct bs as [|[x c] bs]; cbn in Hc; [done|]; destruct Hc as (<-&_); apply Hnew; left).
  assert (Hself : chain (pbufs s') q [(q, b)]) by done.
  assert (Hsame : forall x c, pbufs s !! x = Some c -> pbufs s' !! x = Some c).
  { intros x c Hx. rewrite Hpb. rewrite lookup_insert_ne; [done|]. intros <-. congruence. }
  assert (Hother : forall x cs, chain (pbufs s) x cs -> chain (pbufs s') x cs).
  { intros x cs Hcs. eapply pchain_frame; [|exact Hcs]. intros y ([z c]&->&Hy)%list_elem_of_fmap. cbn.
    pose proof (chain_in _ _ _ _ _ Hcs Hy) as Hz. by rewrite Hz, (Hsame _ _ Hz). }
  assert (Hrq : refs q = 0).
  { destruct (ro_refs _ _ _ _ HR q) as [H0 H1]. destruct (decide (refs q = 0)); [done|]. destruct (H1 ltac:(lia)). congruence. }
  destruct (held_block _ _ _ _ _ HR' Hqb) as (n&_&[_ [Bl _] _ Bd]&Hmod&Hq0&H32). destruct (Bd eq_refl) as [D1 D2]. cbn [b fresh_pbuf p_len p_payload] in D1, D2.
  assert (Hpay : LWIP_MEM_ALIGN (q + SIZEOF_STRUCT_PBUF + 14) = q + 32).
  { assert (Hal : LWIP_MEM_ALIGN (q + SIZEOF_STRUCT_PBUF + 14) <= u32 (q + SIZEOF_STRUCT_PBUF + 14 + 4 - 1)).
    { unfold LWIP_MEM_ALIGN, MEM_ALIGNMENT. change (4 - 1) with (Z.ones 2). rewrite Z.ldiff_ones_r, Z.shiftl_mul_pow2, Z.shiftr_div_pow2 by lia. change (2 ^ 2) with 4. dlia. }
    assert (q + 33 < 2 ^ 32) by (unfold u32, SIZEOF_STRUCT_PBUF in *; clear - Hal D1 D2 H32 Hlen Hmod Hq0; dlia).
    rewrite (proj1 (mem_align (q + SIZEOF_STRUCT_PBUF + 14) ltac:(unfold SIZEOF_STRUCT_PBUF; lia))). unfold SIZEOF_STRUCT_PBUF. dlia. }
  split; [done|]. split; [|right; split; [done|]; split; [done|]; split].
  - intros l x f Hx (c&cs&Hcx&Hrest). exists c, cs. cbn [fst] in *. rewrite Hb. split; [by apply Hother|done].
  - assert (Hold : forall p, p <> q -> 0 < bump 1 q refs p -> 0 < refs p) by (intros p Hp; by rewrite bump_other).
    split; [by exists H'|rewrite Hb; apply HP|rewrite Hb; apply HP| |].
    + intros p Hp. rewrite Hpb, pointers_new by done. destruct (held_live _ _ _ _ _ HR' Hp) as [c Hc']. pose proof (live_nonzero _ _ _ _ _ _ HR' Hc') as Hp0.
      assert (points b p = 0) as -> by (unfold points; by rewrite decide_False). destruct (decide (p = q)) as [->|Hpq].
      * by rewrite (no_pointers _ _ _ _ _ HR Hdead).
      * by rewrite (pk_heads _ _ HP p (Hold p Hpq Hp)).
    + intros p cs Hp Hcs. rewrite Hb. destruct (decide (p = q)) as [->|Hpq].
      * rewrite (chain_det _ _ _ _ Hcs Hself). cbn. split; [lia|]. split; (apply Forall_cons; split; [|done]); [cbn; lia|done].
      * destruct (held_chain _ _ _ HP (Hold p Hpq Hp)) as (c&cs0&_&_&Hc0). rewrite (chain_det _ _ _ _ Hcs (Hother _ _ Hc0)). by apply (pk_chains _ _ HP p), Hc0; apply Hold.
  - exists b. split; [done|]. split; [done|]. split; [done|]. split; [done|]. cbn [b fresh_pbuf p_payload]. rewrite Hpay. unfold SIZEOF_STRUCT_PBUF, HEADER, SIZEOF_ETH_HDR. lia.
Qed.

Lemma packets_ext s refs refs' : (forall p, refs' p = refs p) -> packets_ok s refs -> packets_ok s refs'.
Proof.
  intros E [[H H1] H2 H3 H4 H5]. split; [exists H; by apply (refs_ok_ext _ s refs)|done|done| |]; intros p; rewrite E; [apply H4|apply H5].
Qed.

(** The nine fields of an ARP packet. *)
Lemma arp_bytes order op hwsrc ipsrc hwdst ipdst ds : length ds = 28%nat -> hw_ok hwsrc -> hw_ok hwdst ->
  list_inserts 5 [4] (list_inserts 4 [ETH_HWADDR_LEN] (list_inserts 2 (word16 ETHTYPE_IP) (list_inserts 0 (word16 LWIP_IANA_HWTYPE_ETHERNET)
    (list_inserts 24 (bytes32 order ipdst) (list_inserts 14 (bytes32 order ipsrc) (list_inserts 18 hwdst (list_inserts 8 hwsrc
      (list_inserts 6 (word16 op) ds)))))))) = arp_packet order op hwsrc ipsrc hwdst ipdst.
Proof.
  intros Hh [Hs _] [Hd _]. do 28 (destruct ds as [|? ds]; [done|]). destruct ds; [|done].
  do 6 (destruct hwsrc as [|? hwsrc]; [done|]). destruct hwsrc; [|done]. do 6 (destruct hwdst as [|? hwdst]; [done|]). by destruct hwdst.
Qed.

(** A new packet of one buffer is filled. *)
Lemma new_packet_filled s refs len q s1 b m ds l : packets_ok s1 (bump 1 q refs) -> q <> 0 -> refs q = 0 -> chain (pbufs s1) q [(q, b)] -> contiguous b = true ->
  p_len b = len -> p_tot_len b = len -> q + SIZEOF_STRUCT_PBUF + HEADER <= p_payload b ->
  patched s1 (p_payload b) (p_len b) m s ds ->
  packets_ok s (bump 1 q refs) /\ pbuf_packet (s, l) q (mkPkt (len + HEADER <? 2 ^ 16) (p_payload b) (Z.to_nat len) ds) /\
  forall l x f, 0 < refs x -> pbuf_packet (s1, l) x f -> pbuf_packet (s, l) x f.
Proof.
  intros HP Hq Hrq Hc Hct Hlen Htot Hroom [(mm&->&Ho&Hok&Hd) Hr]. pose proof Hc as (_&_&Hb&_). destruct (pk_refs _ _ HP) as [H HR].
  destruct (held_block _ _ _ _ _ HR Hb) as (n&Hn&[_ _ _ Bd]&_). destruct (Bd Hct) as [D1 D2]. assert (Hrb : 0 < bump 1 q refs q) by (rewrite bump_same by done; lia).
  unfold SIZEOF_STRUCT_PBUF, HEADER, SIZEOF_ETH_HDR in *.
  destruct (packets_store s1 _ H q _ n (p_payload b) (p_len b) mm HP HR Hrb Hn ltac:(lia) ltac:(lia) Ho Hok Hd) as [HP' HK].
  split; [done|]. split.
  - exists b, []. cbn [fst with_bytes pbufs bytes]. split; [done|]. cbn [addrs]. rewrite app_nil_r. split; [done|]. cbn [room start head_len]. rewrite Hlen.
    split; [|done]. unfold has_room, has_space. rewrite Hct, Htot. unfold SIZEOF_STRUCT_PBUF, HEADER, SIZEOF_ETH_HDR. by rewrite (proj2 (Z.leb_le _ _)) by lia.
  - intros l' x f Hx. apply HK; [intros ->; lia|]. rewrite bump_other; [done|]. intros ->. lia.
Qed.

Lemma bytes32_ok order v : 0 <= v < 2 ^ 32 -> Forall byte_ok (bytes32 order v).
Proof.
  intros Hv. destruct (addr_bytes order v Hv) as (a&b&c&d&Ha&Hb&Hc&Hd&->). unfold bytes32. destruct (get_bytes order a b c d Ha Hb Hc Hd) as (->&->&->&->).
  rewrite !Forall_cons. by split_and!.
Qed.

Lemma pbuf_raw order w refs n ethsrc ethdst hwsrc ipsrc hwdst ipdst op : pbuf_holds w refs -> hw_ok ethsrc -> hw_ok ethdst -> hw_ok hwsrc -> hw_ok hwdst ->
  0 <= ipsrc < 2 ^ 32 -> 0 <= ipdst < 2 ^ 32 -> 0 <= op < 2 ^ 16 ->
  exists r w', etharp_raw order n ethsrc ethdst hwsrc ipsrc hwdst ipdst op w = Some (r, w') /\ pbuf_holds w' refs /\
    (forall p f, 0 < refs p -> pbuf_packet w p f -> pbuf_packet w' p f) /\
    (r = ERR_MEM /\ snd w' = snd w /\ no_memory SIZEOF_ETHARP_HDR w \/
     r = ERR_OK /\ link_sent (snd w') = link_sent (snd w) ++ [(n, eth_frame ethdst ethsrc ETHTYPE_ARP (arp_packet order op hwsrc ipsrc hwdst ipdst))]).
Proof.
  intros HP Hes Hed Hhs Hhd Hips Hipd Hop. destruct w as [s l]. unfold pbuf_holds in HP. cbn [fst snd] in *. unfold etharp_raw.
  destruct (pbuf_alloc_keeps s refs SIZEOF_ETHARP_HDR HP ltac:(by (split; vm_compute))) as (q&s1&E&_&_&HK1&[(->&HP1)|(Hq&Hrq&HP1&b&Hc&Hct&Hlen&Htot&Hroom)]);
    rewrite (bind_run _ _ _ _ _ (packets_run _ _ _ _ l E)).
  { eexists _, (s1, l). cbn. split; [done|]. split; [done|]. split; [intros p f; apply HK1|]. left. split; [done|]. split; [done|].
    exists (s1, l). by apply packets_run. }
  rewrite (proj2 (Z.eqb_neq q 0)) by done. pose proof Hc as (_&_&Hb&_). rewrite (bind_run _ _ _ _ _ (packets_run _ _ _ _ l (pb_run _ _ _ Hb))). cbv zeta.
  assert (Hrb : 0 < bump 1 q refs q) by (rewrite bump_same by done; lia).
  destruct (held_reads _ _ _ _ HP1 Hrb Hc) as [ds Hds]. cbn [addrs] in Hds. rewrite app_nil_r in Hds. unfold spots in Hds.
  pose proof (read_length _ _ _ Hds) as Hlds. rewrite length_seqZ, Hlen in Hlds. change (Z.to_nat SIZEOF_ETHARP_HDR) with 28%nat in Hlds.
  change SIZEOF_ETHARP_HDR with 28 in Hlen, Htot. pose proof (patched_start s1 _ _ ds (pk_bytes _ _ HP1) Hds) as P0. rewrite !bytes16_htons by (done || (vm_compute; split; congruence)).
  destruct (store_at_run _ _ _ _ _ _ 6 (word16 op) l P0 (word16_ok _ Hop) ltac:(cbn; lia)) as (t1&E1&P1).
  destruct (store_at_run _ _ _ _ _ _ 8 hwsrc l P1 (proj2 Hhs) ltac:(rewrite (proj1 Hhs); lia)) as (t2&E2&P2).
  destruct (store_at_run _ _ _ _ _ _ 18 hwdst l P2 (proj2 Hhd) ltac:(rewrite (proj1 Hhd); lia)) as (t3&E3&P3).
  destruct (store_at_run _ _ _ _ _ _ 14 (bytes32 order ipsrc) l P3 (bytes32_ok _ _ Hips) ltac:(cbn; lia)) as (t4&E4&P4).
  destruct (store_at_run _ _ _ _ _ _ 24 (bytes32 order ipdst) l P4 (bytes32_ok _ _ Hipd) ltac:(cbn; lia)) as (t5&E5&P5).
  destruct (store_at_run _ _ _ _ _ _ 0 (word16 LWIP_IANA_HWTYPE_ETHERNET) l P5 (word16_ok LWIP_IANA_HWTYPE_ETHERNET ltac:(by (split; vm_compute))) ltac:(cbn; lia)) as (t6&E6&P6).
  destruct (store_at_run _ _ _ _ _ _ 2 (word16 ETHTYPE_IP) l P6 (word16_ok ETHTYPE_IP ltac:(by (split; vm_compute))) ltac:(cbn; lia)) as (t7&E7&P7).
  destruct (store_at_run _ _ _ _ _ _ 4 [ETH_HWADDR_LEN] l P7 ltac:(by apply Forall_singleton) ltac:(cbn; lia)) as (t8&E8&P8).
  destruct (store_at_run _ _ _ _ _ _ 5 [4] l P8 ltac:(by apply Forall_singleton) ltac:(cbn; lia)) as (t9&E9&P9).
  change (Z.of_nat 0) with 0 in E6. rewrite Z.add_0_r in E6. rewrite (arp_bytes order op hwsrc ipsrc hwdst ipdst ds Hlds Hhs Hhd) in P9.
  rewrite (bind_run _ _ _ _ _ E1), (bind_run _ _ _ _ _ E2), (bind_run _ _ _ _ _ E3), (bind_run _ _ _ _ _ E4), (bind_run _ _ _ _ _ E5),
    (bind_run _ _ _ _ _ E6), (bind_run _ _ _ _ _ E7), (bind_run _ _ _ _ _ E8), (bind_run _ _ _ _ _ E9).
  destruct (new_packet_filled t9 refs 28 q s1 b ds _ l HP1 Hq Hrq Hc Hct Hlen Htot Hroom P9) as (HP9&Hpk&HK9).
  destruct (pbuf_send order (t9, l) (bump 1 q refs) n q _ ethsrc ethdst ETHTYPE_ARP HP9 Hrb Hpk Hes Hed ltac:(by (split; vm_compute))) as (r&w1&Es&HPs&HKs&[Hsent|[? _]]); [|done].
  rewrite (bind_run _ _ _ _ _ Es). destruct (pbuf_free_keeps w1 _ q HPs Hrb) as (c&w2&Ef&HPf&HKf&Hl). rewrite (bind_run _ _ _ _ _ Ef).
  exists ERR_OK, w2. split; [done|]. split; [eapply packets_ext; [|exact HPf]; intros x; by rewrite bump_cancel|]. split; [|right; split; [done|by rewrite Hl, Hsent]].
  intros p f Hp Hf. assert (Hpq : p <> q) by (intros ->; lia). apply HKf; [by rewrite bump_cancel|].
  apply HKs; [done|by rewrite bump_other|]. by apply HK9, HK1.
Qed.

(** Copying a packet into a new one of its size. *)
Lemma copy_into_new s refs p b bs q bq ds old : packets_ok s refs -> 0 < refs p -> 0 < refs q -> q <> p -> chain (pbufs s) p ((p, b) :: bs) -> chain (pbufs s) q [(q, bq)] ->
  contiguous bq = true -> p_len bq = p_tot_len b -> p_tot_len bq = p_tot_len b -> read (addrs ((p, b) :: bs)) (bytes s) = Some ds ->
  read (seqZ (p_payload bq) (p_len bq)) (bytes s) = Some old ->
  exists s', pbuf_copy q p s = Some (ERR_OK, s') /\ patched s (p_payload bq) (p_len bq) old s' ds.
Proof.
  intros HP Hp Hq Hqp Hc Hcq Hct Hlen Htot Hds Hold. pose proof Hc as (_&Hp0&Eb&_). pose proof Hcq as (_&Hq0&Ebq&_).
  destruct (pk_chains _ _ HP p _ Hp Hc) as (Hl&Hne&Hf). destruct (pk_chains _ _ HP q _ Hq Hcq) as (Hlq&Hneq&_). pose proof Hl as (_&L2&_&_).
  destruct (pk_refs _ _ HP) as [H HR]. destruct (held_block _ _ _ _ _ HR Ebq) as (n&Hn&[_ [Bl _] _ Bd]&_). destruct (Bd Hct) as [D1 D2].
  pose proof (addrs_length _ Hl) as Hla. change (p_len b + total bs) with (total ((p, b) :: bs)) in L2.
  assert (Hdj : forall a, a ∈ addrs ((p, b) :: bs) -> a ∉ addrs [(q, bq)]).
  { intros a Ha [x [->%list_elem_of_singleton Hs%in_spots]]%in_addrs. cbn [snd] in Hs. revert Ha. apply (addrs_avoid_block s refs H _ q (source_of bq) n a HR); [|done|done| |].
    - intros y c Hy. exact (chain_in _ _ _ _ _ Hc Hy).
    - eapply chain_avoids; [exact Hc|congruence|]. intros y c Hy. eapply pointers_zero; [|exact Hy]. by apply (pk_heads _ _ HP).
    - unfold SIZEOF_STRUCT_PBUF in *. lia. }
  assert (Hnd : NoDup (addrs [(q, bq)])) by (cbn; rewrite app_nil_r; apply NoDup_seqZ).
  assert (Hold' : read (addrs [(q, bq)]) (bytes s) = Some old) by (cbn; by rewrite app_nil_r).
  pose proof (chain_size _ _ _ Hc). pose proof (read_length _ _ _ Hds) as Hlds. pose proof (total_pos _ Hl Hne ltac:(done)) as Htp.
  unfold pbuf_copy. rewrite (proj2 (Z.eqb_neq q 0)), (proj2 (Z.eqb_neq p 0)) by done. cbn [orb].
  rewrite (bind_run _ _ _ _ _ (pb_run _ _ _ Ebq)), (bind_run _ _ _ _ _ (pb_run _ _ _ Eb)). rewrite Htot, Z.ltb_irrefl, chain_fuel_bind.
  rewrite (copy_loop_run _ s q 0 [(q, bq)] p 0 ((p, b) :: bs) ds old Hcq Hlq Hneq ltac:(done) Hc Hl Hne ltac:(done)); try done; try (cbn [total length] in *; lia).
  2: by apply Forall_cons in Hne as [? _]. 2: exact (pk_bytes _ _ HP).
  change (Z.to_nat 0) with 0%nat. rewrite drop_0. cbn [addrs]. rewrite app_nil_r. unfold spots. rewrite take_ge by (rewrite length_seqZ; lia).
  eexists. split; [done|]. split.
  - eexists. split; [done|]. split; [intros i Hi; apply blit_other; rewrite elem_of_seqZ; lia|]. split.
    + apply blit_bytes_ok; [exact (pk_bytes _ _ HP)|]. exact (read_bytes_ok _ _ _ (pk_bytes _ _ HP) Hds).
    + intros i [v Hi]. unfold blit. apply lookup_union_is_Some. right. by exists v.
  - cbn [with_bytes bytes]. apply read_blit; [apply NoDup_seqZ|]. rewrite length_seqZ. lia.
Qed.

Lemma pbuf_clone_keeps s l refs p f : packets_ok s refs -> 0 < refs p -> pbuf_packet (s, l) p f -> exists q s', pbuf_clone PBUF_LINK PBUF_RAM p s = Some (q, s') /\
  (forall x g, 0 < refs x -> pbuf_packet (s, l) x g -> pbuf_packet (s', l) x g) /\
  (q = 0 /\ packets_ok s' refs /\ (exists b, pbufs s !! p = Some b /\ no_memory (p_tot_len b) (s, l)) \/
   q <> 0 /\ packets_ok s' (bump 1 q refs) /\ exists f', pbuf_packet (s', l) q f' /\ data f' = data f /\ (room f = true -> room f' = true)).
Proof.
  intros HP Hp (b&bs&Hc&Hds&Hrm&_). cbn [fst] in *. pose proof Hc as (_&_&Eb&_).
  destruct (pk_chains _ _ HP p _ Hp Hc) as (Hl&Hne&_). pose proof (total_pos _ Hl Hne ltac:(done)) as Htp. pose proof Hl as (_&L2&L3&_).
  unfold pbuf_clone. rewrite (bind_run _ _ _ _ _ (pb_run _ _ _ Eb)).
  destruct (pbuf_alloc_keeps s refs (p_tot_len b) HP) as (q&s1&E&Hb1&Hsame&HK1&[(->&HP1)|(Hq&Hrq&HP1&bq&Hcq&Hct&Hlen&Htot&Hroom)]); [cbn [total] in *; lia|..];
    rewrite (bind_run _ _ _ _ _ E).
  { exists 0, s1. split; [done|]. split; [intros x g; apply HK1|left]. split; [done|]. split; [done|]. exists b. split; [done|].
    exists (s1, l). by apply packets_run. }
  rewrite (proj2 (Z.eqb_neq q 0)) by done. assert (Hqp : q <> p) by (intros ->; lia).
  assert (Hrb : 0 < bump 1 q refs q) by (rewrite bump_same by done; lia).
  assert (Hc1 : chain (pbufs s1) p ((p, b) :: bs)).
  { eapply pchain_frame; [|exact Hc]. intros y ([z c]&->&Hy)%list_elem_of_fmap. cbn. pose proof (chain_in _ _ _ _ _ Hc Hy) as Hz. by rewrite Hz, (Hsame _ _ Hz). }
  destruct (held_reads _ _ _ _ HP1 Hrb Hcq) as [old Hold]. cbn [addrs] in Hold. rewrite app_nil_r in Hold. rewrite <- Hb1 in Hds.
  destruct (copy_into_new s1 (bump 1 q refs) p b bs q bq (data f) old HP1 ltac:(rewrite bump_other by congruence; done) Hrb Hqp Hc1 Hcq Hct Hlen Htot Hds Hold) as (s2&E2&P2).
  rewrite (bind_run _ _ _ _ _ E2). destruct (new_packet_filled s2 refs (p_tot_len b) q s1 bq _ (data f) l HP1 Hq Hrq Hcq Hct Hlen Htot Hroom P2) as (HP2&Hpk&HK2).
  exists q, s2. split; [done|]. split; [intros x g Hx Hg; by apply HK2, HK1|]. right. split; [done|]. split; [done|]. eexists. split; [exact Hpk|]. split; [done|].
  cbn [room]. rewrite Hrm. unfold has_room, has_space. intros Hr. by apply andb_true_iff in Hr as [_ ?].
Qed.

Lemma pbuf_take_over w refs p f : pbuf_holds w refs -> 0 < refs p < 255 -> pbuf_packet w p f -> exists p' w', on_packets (take_over p) w = Some (p', w') /\
  snd w' = snd w /\ (forall x g, 0 < refs x -> pbuf_packet w x g -> pbuf_packet w' x g) /\
  (p' = 0 /\ pbuf_holds w' refs /\ no_copy p w \/
   p' <> 0 /\ pbuf_holds w' (bump 1 p' refs) /\ exists f', pbuf_packet w' p' f' /\ data f' = data f /\ (room f = true -> room f' = true)).
Proof.
  intros HP Hp Hf. destruct w as [s l]. unfold pbuf_holds in *. cbn [fst snd] in *. destruct (held_chain s refs p HP (proj1 Hp)) as (b&bs&Hp0&Hb&Hc).
  destruct (copy_needed_run (S (size (pbufs s))) s p _ Hc) as [c Ecn]; [pose proof (chain_size _ _ _ Hc); lia|].
  assert (E0 : take_over p s = (if c : bool then pbuf_clone PBUF_LINK PBUF_RAM p else _ ← pbuf_ref p; mret p) s).
  { unfold take_over. rewrite chain_fuel_bind. by rewrite (bind_run _ _ _ _ _ Ecn). }
  destruct c.
  - destruct (pbuf_clone_keeps s l refs p f HP (proj1 Hp) Hf) as (q&s'&E&HK&Hcase). rewrite E in E0. exists q, (s', l).
    split; [by apply packets_run|]. split; [done|]. split; [exact HK|].
    destruct Hcase as [(->&HP'&b0&Hb0&Hm)|Hcase]; [left|by right]. split; [done|]. split; [done|]. by exists (S (size (pbufs s))), b0.
  - destruct (pbuf_ref_keeps s refs p HP Hp) as (s'&E&HP'&HK). rewrite (bind_run _ _ _ _ _ E) in E0. exists p, (s', l).
    split; [by apply packets_run|]. split; [done|]. split; [intros x g; exact (HK l l x g)|]. right. split; [done|]. split; [done|].
    exists f. split; [by apply (HK l), Hf; lia|done].
Qed.

(** A user makes a packet of some bytes. *)
Definition make_packet (ds : list Z) : prog (pstate A * L) Z :=
  q ← on_packets (pbuf_alloc PBUF_LINK (Z.of_nat (length ds)) PBUF_RAM);
  if q =? 0 then mret 0 else b ← on_packets (pb q); _ ← store_at (p_payload b) ds; mret q.

Lemma make_packet_run ds w refs : pbuf_holds w refs -> Forall byte_ok ds -> 0 < Z.of_nat (length ds) < 2 ^ 16 -> exists q w', make_packet ds w = Some (q, w') /\
  (forall x g, 0 < refs x -> pbuf_packet w x g -> pbuf_packet w' x g) /\
  (q = 0 /\ pbuf_holds w' refs \/ q <> 0 /\ refs q = 0 /\ pbuf_holds w' (bump 1 q refs) /\ exists f, pbuf_packet w' q f /\ data f = ds).
Proof.
  intros HP Hb Hlen. destruct w as [s l]. unfold pbuf_holds in HP. cbn [fst] in HP. unfold make_packet.
  destruct (pbuf_alloc_keeps s refs (Z.of_nat (length ds)) HP Hlen) as (q&s1&E&_&_&HK1&[(->&HP1)|(Hq&Hrq&HP1&b&Hc&Hct&Hl&Ht&Hroom)]);
    rewrite (bind_run _ _ _ _ _ (packets_run _ _ _ _ l E)).
  { exists 0, (s1, l). split; [done|]. split; [intros x g; apply HK1|]. by left. }
  rewrite (proj2 (Z.eqb_neq q 0)) by done. pose proof Hc as (_&_&Eb&_). rewrite (bind_run _ _ _ _ _ (packets_run _ _ _ _ l (pb_run _ _ _ Eb))).
  assert (Hrb : 0 < bump 1 q refs q) by (rewrite bump_same by done; lia).
  destruct (held_reads _ _ _ _ HP1 Hrb Hc) as [old Hold]. cbn [addrs] in Hold. rewrite app_nil_r in Hold. unfold spots in Hold.
  pose proof (read_length _ _ _ Hold) as Hlo. rewrite length_seqZ, Hl, Nat2Z.id in Hlo.
  destruct (store_at_run _ _ _ _ _ _ 0 ds l (patched_start s1 _ _ old (pk_bytes _ _ HP1) Hold) Hb ltac:(rewrite Hl; lia)) as (s2&E2&P2).
  change (Z.of_nat 0) with 0 in E2. rewrite Z.add_0_r in E2. rewrite (bind_run _ _ _ _ _ E2).
  destruct (new_packet_filled s2 refs (Z.of_nat (length ds)) q s1 b old _ l HP1 Hq Hrq Hc Hct Hl Ht Hroom P2) as (HP2&Hpk&HK2).
  exists q, (s2, l). split; [done|]. split; [intros x g Hx Hg; by apply HK2, HK1|]. right. split; [done|]. split; [done|]. split; [done|].
  eexists. split; [exact Hpk|]. cbn [data]. apply list_eq. intros i. destruct (decide (i < length ds)%nat).
  - rewrite list_lookup_inserts by lia. f_equal. lia.
  - rewrite list_lookup_inserts_ge by lia. by rewrite !lookup_ge_None_2 by lia.
Qed.

(** The promises are kept. *)
#[export] Instance pbuf_frames order : FramesOk order A L.
Proof.
  refine {| holds := pbuf_holds; packet := pbuf_packet; sent := link_sent |}.
  - intros w refs refs' E. by apply packets_ext.
  - intros w refs p HP. destruct (pk_refs _ _ HP) as [H HR]. apply (ro_refs _ _ _ _ HR).
  - exact pbuf_holds_packet.
  - exact pbuf_read.
  - exact pbuf_free_keeps.
  - exact pbuf_take_over.
  - exact (pbuf_send order).
  - exact (pbuf_raw order).
Defined.
End frames.
