(* ===== verification/ArpPool.v ===== *)
(** * The elements of the queues come from a pool of memp.c

    A pool hands out what is not handed out; so MEMP_ARP_QUEUE keeps the promises
    of [ArpQueueOk]; the other pools are not touched. *)
From S2P Require Import Prelude Memp MempProofs Etharp FrameLaws.
Open Scope Z_scope.

Definition arp_queue_pool : ArpQueue memp_state := {| arpq_malloc := memp_malloc MEMP_ARP_QUEUE; arpq_free := memp_free MEMP_ARP_QUEUE |}.
#[local] Existing Instance arp_queue_pool.

Section pool.
Context (memp_pools : memp_t -> memp_desc) (Hlayout : layout_ok memp_pools).

#[local] Set Default Proof Using "All".

Definition pool_handed (t : memp_t) (c : memp_state) (X : gset Z) : Prop := exists free out, pools_ok memp_pools c free out /\ forall x, x ∈ X <-> x ∈ out t.

Lemma pool_handed_malloc t c X : pool_handed t c X -> exists r c', memp_malloc t c = Some (r, c') /\
  (r = 0 /\ pool_handed t c' X /\ desc_num (memp_pools t) <= Z.of_nat (size X) \/ r <> 0 /\ r ∉ X /\ pool_handed t c' ({[r]} ∪ X)).
Proof.
  intros (free&out&HP&HX).  destruct (free t) as [|x f] eqn:Ef.
  - exists 0, c. split; [by eapply malloc_empty|]. left. split; [done|]. split; [by exists free, out|].
    pose proof (po_all _ _ _ _ HP t) as Hall. rewrite Ef in Hall. cbn [app] in Hall.
    assert (Hsub : (list_to_set (elements memp_pools t) : gset Z) ⊆ X) by (intros y Hy%elem_of_list_to_set; apply HX; by rewrite Hall).
    apply subseteq_size in Hsub. rewrite size_list_to_set in Hsub by apply (elements_nodup _ Hlayout). unfold elements in Hsub. rewrite length_fmap, length_seq in Hsub. lia.
  - destruct (malloc_next _ Hlayout _ _ _ _ _ _ HP Ef) as (c'&E&HP'). exists x, c'. split; [done|]. right.
    assert (Hx : x ∈ elements memp_pools t) by (apply (po_in _ Hlayout _ _ _ _ _ HP); left; rewrite Ef; left).
    pose proof (po_nodup _ Hlayout _ _ _ t HP) as Hnd. rewrite Ef in Hnd. apply NoDup_app in Hnd as (_&Hnd&_).
    split; [by eapply element_pos|]. split; [rewrite HX; apply Hnd; left|]. exists (at_pool t f free), (at_pool t (x :: out t) out).
    split; [done|]. intros y. unfold at_pool. rewrite decide_True by done. rewrite elem_of_union, elem_of_singleton, elem_of_cons. by rewrite HX.
Qed.

Lemma pool_handed_free t c X r : pool_handed t c X -> r ∈ X -> exists c', memp_free t r c = Some (tt, c') /\ pool_handed t c' (X ∖ {[r]}).
Proof.
  intros (free&out&HP&HX) Hr.  apply HX, elem_of_Permutation in Hr as [ys Hys].
  destruct (free_one _ Hlayout _ _ _ _ _ _ HP Hys) as (c'&E&HP'). exists c'. split; [done|].
  eexists _, _. split; [exact HP'|]. intros y. unfold at_pool. rewrite decide_True by done. rewrite elem_of_difference, elem_of_singleton, HX, Hys, elem_of_cons.
  pose proof (po_nodup _ Hlayout _ _ _ t HP) as Hnd. apply NoDup_app in Hnd as (_&_&Hnd). rewrite Hys in Hnd. apply NoDup_cons in Hnd as [Hnd _].
  split; [tauto|]. intros Hy. split; [by right|]. intros ->. done.
Qed.

Lemma pool_handed_bound t c X : pool_handed t c X -> Z.of_nat (size X) <= desc_num (memp_pools t).
Proof.
  intros (free&out&HP&HX). assert (Hsub : X ⊆ list_to_set (elements memp_pools t)).
  { intros y Hy%HX. apply elem_of_list_to_set. rewrite <- (po_all _ _ _ _ HP t). apply elem_of_app. by right. }
  apply subseteq_size in Hsub. rewrite size_list_to_set in Hsub by apply (elements_nodup _ Hlayout). unfold elements in Hsub. rewrite length_fmap, length_seq in Hsub.
  pose proof (lo_num _ Hlayout t). lia.
Qed.

Definition arp_queue_pool_ok : ArpQueueOk memp_state.
Proof.
  refine {| handed := pool_handed MEMP_ARP_QUEUE |}; cbn [arpq_malloc arpq_free arp_queue_pool].
  - intros c X HX. destruct (pool_handed_malloc _ c X HX) as (r&c'&E&[(?&?&_)|H]); exists r, c'; (split; [done|]); [by left|by right].
  - apply pool_handed_free.
Defined.

Lemma pool_handed_start t c0 c : memp_init memp_pools c0 = Some (tt, c) -> pool_handed t c ∅.
Proof.
  intros E. destruct (init_ok _ Hlayout c0) as (c'&E'&HP). rewrite E in E'. injection E' as <-. eexists _, (fun _ => []). split; [exact HP|]. intros x. set_solver.
Qed.
End pool.
