(* ===== verification/EtharpProofs.v ===== *)
(** * Address resolution: what it promises

    Through any sequence of calls the table stays well formed and no call fails;
    packets that wait are sent in order when the address becomes known; a packet
    goes to the right address, which is asked for when it is not known; an entry
    that nobody renews ages until it is given up. *)
From S2P Require Import Prelude Pbuf PbufRefs LwipDef IpAddr EthFrames Etharp EtharpTable FrameLaws EtharpInv EtharpOps EtharpSend EtharpQuery EtharpOutput EtharpInput.
Open Scope Z_scope.

Section proofs.
Context (order : byte_order) {A L Q : Type} `{!PbufMemory A} `{!Link A L} `{!ArpQueue Q} `{!FramesOk order A L} `{!ArpQueueOk Q}.
Implicit Types (s : arp A L Q).

Abbreviation arp_inv := (arp_inv order).

(** ** Histories *)

(** The calls of the layers above and of the driver. *)
Inductive arp_call :=
  | Output (n p ip : Z) | Query (n ip p : Z) | Request (n ip : Z) | Input (p n : Z) | Tick | Cleanup (n : Z) | FindAddr (n ip : Z) | GetEntry (i : Z).

Definition arp_run (c : arp_call) : prog (arp A L Q) unit :=
  match c with
  | Output n p ip => _ ← etharp_output order n p ip; mret tt
  | Query n ip p => _ ← etharp_query order n ip p; mret tt
  | Request n ip => _ ← etharp_request order n ip; mret tt
  | Input p n => etharp_input order p n
  | Tick => etharp_tmr order
  | Cleanup n => etharp_cleanup_netif n
  | FindAddr n ip => _ ← etharp_find_addr n ip; mret tt
  | GetEntry i => _ ← etharp_get_entry i; mret tt
  end.

(** Interfaces exist, addresses are words, packets are held and have fewer than
    MAX_REFS references; a packet from the driver does not wait in a queue and its first
    buffer holds the ARP header. *)
Definition arp_allowed s (refs : Z -> Z) (c : arp_call) : Prop :=
  match c with
  | Output n p ip => is_Some (a_netifs s !! n) /\ 0 <= ip < 2 ^ 32 /\ 0 < refs p < MAX_REFS
  | Query n ip p => is_Some (a_netifs s !! n) /\ 0 <= ip < 2 ^ 32 /\ (p = 0 \/ 0 < refs p < MAX_REFS)
  | Request n ip => is_Some (a_netifs s !! n) /\ 0 <= ip < 2 ^ 32
  | Input p n => is_Some (a_netifs s !! n) /\ 0 < refs p /\ count (waiting s) p = 0 /\ exists pk, packet (a_frames s) p pk /\ (28 <= head_len pk)%nat
  | GetEntry i => 0 <= i
  | _ => True
  end.

Definition arp_refs_after (c : arp_call) (refs : Z -> Z) : Z -> Z := match c with Input p n => bump (-1) p refs | _ => refs end.

Definition empty_entry : etharp_entry := mkEntry [] 0 0 [0; 0; 0; 0; 0; 0] 0 ETHARP_STATE_EMPTY.

(** Before, between and after the calls, the other layers do what they like with
    their packets, as long as they leave those alone that wait. *)
Inductive arp_history : arp A L Q -> (Z -> Z) -> Prop :=
  | arp_start s refs : a_table s = replicate (Z.to_nat ARP_TABLE_SIZE) empty_entry -> etharp_cached_entry s = 0 ->
      (forall n f, a_netifs s !! n = Some f -> netif_ok n f) -> (forall p, 0 <= refs p) -> holds (a_frames s) refs -> handed (a_pool s) ∅ -> arp_history s refs
  | arp_step s refs c s' : arp_history s refs -> arp_allowed s refs c -> arp_run c s = Some (tt, s') -> arp_history s' (arp_refs_after c refs)
  | arp_others s refs refs' w : arp_history s refs -> (forall p, 0 <= refs' p) -> holds w (with_queued refs' (waiting s)) ->
      arp_history (mkArp (a_table s) (etharp_cached_entry s) (a_netifs s) w (a_pool s)) refs'.

Lemma find_addr_run s refs n ip : arp_inv s refs -> exists s', (_ ← etharp_find_addr n ip; mret tt) s = Some (tt, s') /\ arp_inv s' refs.
Proof.
  intros HI. unfold etharp_find_addr.
  destruct (etharp_find_entry_run order s refs ip ETHARP_FLAG_FIND_ONLY n HI ltac:(by right)) as (r&s1&E&Hfound&HI1&_). rewrite bind_assoc_run, (bind_run _ _ _ _ _ E).
  destruct r as [i|err]; [|by exists s1]. inversion Hfound as [k e Hk ? | |]; subst; [|done]. rewrite bind_assoc_run, (bind_run _ _ _ _ _ (entry_run _ _ _ Hk)).
  exists s1. by destruct (is_stable (state e)).
Qed.

Lemma get_entry_run s refs i : arp_inv s refs -> 0 <= i -> (_ ← etharp_get_entry i; mret tt) s = Some (tt, s).
Proof.
  intros HI Hi. unfold etharp_get_entry. destruct (Z.ltb_spec i ARP_TABLE_SIZE); [|done].
  destruct (entry_at order s refs (Z.to_nat i) HI) as [e He]; [unfold ARP_TABLE_SIZE in *; lia|].
  pose proof (entry_run _ _ _ He) as E. rewrite Z2Nat.id in E by done. by rewrite bind_assoc_run, (bind_run _ _ _ _ _ E).
Qed.

Lemma arp_run_ok s refs c : arp_inv s refs -> arp_allowed s refs c -> exists s', arp_run c s = Some (tt, s') /\ arp_inv s' (arp_refs_after c refs).
Proof.
  intros HI Hc. pose proof (ai_frames _ _ _ HI) as HF.
  assert (Hpk : forall p, 0 < refs p -> exists pk, packet (a_frames s) p pk).
  { intros p Hp. apply (holds_packet _ _ p (fi_holds _ _ _ _ HF)). unfold with_queued. pose proof (count_nonneg (waiting s) p). lia. }
  destruct c as [n p ip|n ip p|n ip|p n| |n|n ip|i]; cbn [arp_allowed arp_run arp_refs_after] in *.
  - destruct Hc as ([f Hf]&Hip&Hp). destruct (Hpk p (proj1 Hp)) as [pk Hk].
    destruct (etharp_output_run order s refs n f ip p pk HI Hf Hip Hp Hk) as (r&s'&E&HI'&_). exists s'. by rewrite (bind_run _ _ _ _ _ E).
  - destruct Hc as ([f Hf]&Hip&Hp).
    assert (exists pk, p = 0 \/ 0 < refs p < MAX_REFS /\ packet (a_frames s) p pk) as [pk Hk].
    { destruct Hp as [->|Hp]; [exists (mkPkt true 0 0 []); by left|]. destruct (Hpk p (proj1 Hp)) as [pk Hk]. exists pk. by right. }
    destruct (etharp_query_run order s refs n f ip p pk HI Hf Hip Hk) as (r&s'&E&HI'&_). exists s'. by rewrite (bind_run _ _ _ _ _ E).
  - destruct Hc as ([f Hf]&Hip). destruct (etharp_request_run order s refs n f ip ethbroadcast HI Hf ethbroadcast_ok Hip) as (r&s'&E&_&HI'&_). exists s'.
    unfold etharp_request. by rewrite (bind_run _ _ _ _ _ E).
  - destruct Hc as ([f Hf]&Hp&Hn&pk&Hk&Hlen). destruct (etharp_input_run order s refs n f p pk HI Hf Hp Hn Hk Hlen) as (s'&E&HI'&_). by exists s'.
  - destruct (etharp_tmr_run order s refs HI) as (s'&E&_&_&HI'&_). by exists s'.
  - destruct (etharp_cleanup_netif_run order s refs n HI) as (s'&E&_&_&HI'&_). by exists s'.
  - by apply find_addr_run.
  - exists s. split; [by eapply get_entry_run|done].
Qed.

Lemma waiting_start : waiting_in (replicate (Z.to_nat ARP_TABLE_SIZE) empty_entry) = [].
Proof. done. Qed.

Lemma arp_history_ok s refs : arp_history s refs -> arp_inv s refs.
Proof.
  induction 1 as [s refs Ht Hc Hn Hr HF HP|s refs c s' _ HI Hal E|s refs refs' w _ HI Hr HF].
  - assert (Hall : forall i e, a_table s !! i = Some e -> e = empty_entry) by (intros i e; rewrite Ht; intros [? _]%lookup_replicate; done).
    split; try done.
    + by rewrite Ht, length_replicate.
    + intros i e He. rewrite (Hall i e He). by split.
    + intros i j e e' He _ Hu. rewrite (Hall i e He) in Hu. by destruct Hu.
    + unfold waiting. rewrite Ht, waiting_start. split; [|done|constructor|done]. eapply holds_ext; [|exact HF]. intros p. unfold with_queued. change (count [] p) with 0. lia.
    + by rewrite Hc.
  - destruct (arp_run_ok s refs c HI Hal) as (s2&E2&HI2). rewrite E in E2. injection E2 as <-. done.
  - by eapply (inv_frames order s).
Qed.
(** C32 — Whatever calls are made, in whatever order, and whatever the other layers do
    with their packets in between: every call returns; the table keeps its ten
    places and never has two entries for one address of one interface; no more
    than three packets wait at an entry, and only while its address is asked for;
    no entry is older than its time; every packet that waits is alive and every
    element of a queue is used once; what is known of an address is a hardware
    address. *)
Theorem etharp_safe s refs : arp_history s refs ->
  (forall c, arp_allowed s refs c -> exists s', arp_run c s = Some (tt, s')) /\
  length (a_table s) = Z.to_nat ARP_TABLE_SIZE /\
  (forall i j e e', a_table s !! i = Some e -> a_table s !! j = Some e' -> used e -> used e' -> ipaddr e = ipaddr e' -> nif e = nif e' -> i = j) /\
  (forall i e, a_table s !! i = Some e ->
     Z.of_nat (length (q e)) <= ARP_QUEUE_LEN /\ (q e <> [] -> state e = ETHARP_STATE_PENDING) /\
     (state e = ETHARP_STATE_PENDING -> 0 <= ctime e < ARP_MAXPENDING) /\ (is_stable (state e) = true -> 0 <= ctime e < ARP_MAXAGE /\ hw_ok (ethaddr e)) /\
     (used e -> is_Some (a_netifs s !! nif e)) /\
     forall r p, (r, p) ∈ q e -> p <> 0 /\ exists pk, packet (a_frames s) p pk) /\
  NoDup (waiting s).*1.
Proof.
  intros HI%arp_history_ok. pose proof (ai_frames _ _ _ HI) as HF.
  split; [intros c Hc; destruct (arp_run_ok s refs c HI Hc) as (s'&E&_); by exists s'|]. split; [apply HI|]. split; [apply HI|]. split; [|apply HF].
  intros i e Hi. pose proof (ai_entries _ _ _ HI _ _ Hi) as [E1 E2 (E3&E4&E5) E6 E7]. split; [done|]. split; [|split; [|split; [|split]]].
  - intros Hq. destruct (decide (state e = ETHARP_STATE_PENDING)) as [|Hp]; [done|]. by destruct (Hq (E1 Hp)).
  - intros Hp. split; [done|by apply E5].
  - intros Hs. split; [|by apply E7]. split; [done|]. by apply E4, stable_used.
  - intros Hu. by apply E6.
  - intros r p Hrp. apply (holds_packet _ _ p (fi_holds _ _ _ _ HF)). apply (held_queued refs (waiting s) (r, p)); [apply HF|].
    apply list_elem_of_join. exists (q e). split; [done|]. apply list_elem_of_fmap_2. by eapply list_elem_of_lookup_2.
Qed.

(** C33 — When an ARP packet tells the address for which packets wait, they are all sent
    to it, in the order in which they came; the entry knows the address, is new
    again and its queue is empty; the packet of the driver is released. A request
    for the address of this host, and nothing else, is answered after that, unless
    there is no memory for the answer. *)
Theorem etharp_input_resolves s refs n f p pk k e pks : arp_inv s refs -> a_netifs s !! n = Some f -> 0 < refs p -> count (waiting s) p = 0 ->
  packet (a_frames s) p pk -> (28 <= head_len pk)%nat -> arp_proper pk -> unicast order (arp_sender order pk) f = true ->
  a_table s !! k = Some e -> used e -> ipaddr e = arp_sender order pk -> nif e = n ->
  NoDup (q e).*2 -> Forall2 (fun x y => packet (a_frames s) x.2 y) (q e) pks -> Forall (fun y => room y = true) pks ->
  exists s' reply, etharp_input order p n s = Some (tt, s') /\ arp_inv s' (bump (-1) p refs) /\
    a_table s' = <[k := mkEntry [] (ipaddr e) n (arp_hardware pk) 0 ETHARP_STATE_STABLE]> (a_table s) /\
    sent (snd (a_frames s')) = sent (snd (a_frames s)) ++ (ip_frame n f (arp_hardware pk) <$> pks) ++ reply /\
    exists err s1, etharp_update_arp_entry order n (arp_sender order pk) (arp_hardware pk) (if for_us order f pk then ETHARP_FLAG_TRY_HARD else ETHARP_FLAG_FIND_ONLY) s = Some (err, s1) /\
      replied order (a_frames s1) n f pk reply.
Proof.
  intros HI Hf Hp Hcnt Hpk Hlen Hproper Huni Hk Hu Hip Hn Hnd Hpks Hroom. pose proof (found_by_netif _ _ _ _ _ HI Hf) as Hn0.
  destruct (etharp_input_run order s refs n f p pk HI Hf Hp Hcnt Hpk Hlen) as (s'&E&HI'&_&Hrec). inversion Hrec as [|err s1 reply s2 _ Erun Hupd Hsr Hsent Hrep]; subst; [done|].
  assert (Hm : matches (arp_sender order pk) (nif e) e) by (split_and!; auto).
  inversion Hupd as [Hu0|_ _ Hno|s0 j x s3 _ Hfound Hj Hipx Hor Ht Hc _ Hs]; subst; [congruence|by destruct (Hno k e Hk)|].
  inversion Hfound as [j' y Hjy (Huy&Hipy&Hny)|?|? ? ? _ Hno]; subst; [|by destruct (Hno k e Hk)].
  replace j' with j in * by lia. assert (y = x) as -> by congruence. destruct Hny as [?|Hny]; [done|].
  assert (j = k) as -> by (eapply (ai_unique _ _ _ HI); try done; congruence). assert (x = e) as -> by congruence.
  exists s', reply. split; [done|]. split; [done|]. destruct Hsr as ((T&_&_)&_). split; [by rewrite T, Ht|].
  split; [by rewrite Hsent, (Hs Hnd pks Hpks Hroom), <- app_assoc|]. eexists _, s1. split; [exact Erun|exact Hrep].
Qed.

(** C34 — Where a packet goes: a broadcast to all, a multicast to the group's address; any
    other one to its own address if that is on the network of the interface, else
    to the gateway; without a gateway it is refused. A known address is used at
    once, and asked for again when it is about to expire. An unknown one gets an
    entry and is asked for by a broadcast; one that is asked for already is not
    asked for again by this packet (the comment before etharp_query says that each
    packet sends a new request; the code does so only for a new entry). Then a
    reference to the packet or a copy of it waits, the oldest of more than three
    being dropped. A request is left out only when there is no memory for it; the
    packet is refused with ERR_MEM only when it has to be copied and there is no
    memory for that, or when the pool of the elements of the queues is used up. In
    every case the table stays well formed and the contents of the other packets
    are kept. *)
Theorem etharp_output_delivers s refs n f ip p pk : arp_inv s refs -> a_netifs s !! n = Some f -> 0 <= ip < 2 ^ 32 ->
  0 < refs p < MAX_REFS -> packet (a_frames s) p pk ->
  exists r s', etharp_output order n p ip s = Some (r, s') /\ arp_inv s' refs /\ users_kept order p s s' refs /\ delivered order s refs n f ip p pk r s'.
Proof.
  intros HI Hf Hip Hp Hpk. destruct (etharp_output_run order s refs n f ip p pk HI Hf Hip Hp Hpk) as (r&s'&E&HI'&_&HU&HD). by exists r, s'.
Qed.

(** ** Ageing *)

Fixpoint ticks (k : nat) : prog (arp A L Q) unit := match k with O => mret tt | S k' => _ ← etharp_tmr order; ticks k' end.

(** How many ticks an entry that nobody renews is still there. *)
Definition lifetime (e : etharp_entry) : Z :=
  match state e with ETHARP_STATE_EMPTY => 0 | ETHARP_STATE_PENDING => ARP_MAXPENDING - ctime e | _ => ARP_MAXAGE - ctime e end.

(** An entry [k] ticks later. *)
Definition grown (k : nat) (e e' : etharp_entry) : Prop :=
  if decide (Z.of_nat k < lifetime e)
  then ctime e' = ctime e + Z.of_nat k /\ ipaddr e' = ipaddr e /\ nif e' = nif e /\ ethaddr e' = ethaddr e /\ q e' = q e /\
    (state e = ETHARP_STATE_PENDING <-> state e' = ETHARP_STATE_PENDING) /\ is_stable (state e') = is_stable (state e)
  else state e' = ETHARP_STATE_EMPTY /\ q e' = [].

Lemma grown_start netifs e : entry_ok netifs e -> grown 0 e e.
Proof.
  intros [E1 E2 (E3&E4&E5) E6 E7]. unfold grown. case_decide as Hd; [cbn; split_and!; lia || done|].
  assert (Hs : state e = ETHARP_STATE_EMPTY).
  { unfold lifetime, used, pending in *. destruct (state e) eqn:Es; try done; exfalso; apply Hd; cbn;
      (specialize (E5 eq_refl); lia) || (specialize (E4 ltac:(congruence)); lia). }
  split; [done|]. apply E1. unfold pending. congruence.
Qed.

Lemma grown_tick k e e' : grown k e e' -> grown (S k) e (aged e').
Proof.
  unfold grown. intros Hg. destruct (decide (Z.of_nat k < lifetime e)) as [Hk|Hk].
  - destruct Hg as (G1&G2&G3&G4&G5&G6&G7). unfold lifetime in *.
    destruct (state e) eqn:Es, (state e') eqn:Es'; try done; try lia; try (by destruct G6 as [G6 G6']; discriminate G6 || discriminate G6').
    all: unfold aged; rewrite Es'; cbn [with_ctime ctime state]; case_decide as Hd.
    all: match goal with |- context [?a <=? ?b] => destruct (Z.leb_spec a b); try lia end; cbn; rewrite ?Es'; by (split_and!; try done; lia).
  - destruct Hg as [G1 G2]. rewrite decide_False by lia. unfold aged. by rewrite G1.
Qed.

(** C35 — An entry that nobody renews is given up after exactly ARP_MAXAGE = 300 ticks
    from its last confirmation when its address is known, and ARP_MAXPENDING = 5
    ticks from the first request when it is not. Until then ticks change nothing
    but its age, and the state of a request that was made again; then it is empty
    and stays so, and its queue is released. These are the constants of the code:
    with its tick of one second (ARP_TMR_INTERVAL) an entry that waits for an answer
    lives for 5 seconds, where the comment of ARP_MAXPENDING says 10. *)
Theorem etharp_tmr_lifetime k s refs : arp_inv s refs ->
  exists s', ticks k s = Some (tt, s') /\ arp_inv s' refs /\ forall i e, a_table s !! i = Some e -> exists e', a_table s' !! i = Some e' /\ grown k e e'.
Proof.
  intros HI. assert (Hgen : forall m s1, arp_inv s1 refs -> (forall i e, a_table s !! i = Some e -> exists e', a_table s1 !! i = Some e' /\ grown m e e') ->
    exists s', ticks k s1 = Some (tt, s') /\ arp_inv s' refs /\ forall i e, a_table s !! i = Some e -> exists e', a_table s' !! i = Some e' /\ grown (m + k) e e').
  { induction k as [|k IH]; intros m s1 HI1 Hg.
    - exists s1. rewrite Nat.add_0_r. by split_and!.
    - cbn [ticks]. destruct (etharp_tmr_run order s1 refs HI1) as (s2&E&Ht&_&HI2&_). rewrite (bind_run _ _ _ _ _ E).
      destruct (IH (S m) s2 HI2) as (s'&E'&HI'&Hg'); [|exists s'; rewrite <- Nat.add_succ_comm; by split_and!].
      intros i e Hi. destruct (Hg i e Hi) as (e'&Hi'&He'). exists (aged e'). split; [by rewrite Ht, list_lookup_fmap, Hi'|]. by apply grown_tick. }
  apply (Hgen 0%nat s HI). intros i e Hi. exists e. split; [done|]. eapply grown_start, (ai_entries _ _ _ HI), Hi.
Qed.
End proofs.
