(* ===== verification/EtharpExamples.v ===== *)
(** * Address resolution at work

    Over the pools and the heap of [PbufAlloc], on a little-endian machine with one
    interface: two packets wait for an address, and an ARP packet tells it. *)
From S2P Require Import Prelude Mem Memp MempProofs LwipHeap Pbuf PbufProofs PbufRefs PbufAlloc LwipDef IpAddr EthFrames Etharp EtharpTable FrameLaws EtharpInv EtharpOps EtharpSend EtharpQuery EtharpOutput EtharpInput PbufFrames ArpPool EtharpProofs.
Open Scope Z_scope.

#[local] Instance memory_arp : PbufMemory memory := memory_ex.
#[local] Instance memory_arp_ok : PbufMemoryOk memory (fun t => desc_size (stack_pools t)) := memory_ex_ok.
#[local] Instance pool_arp : ArpQueue memp_state := arp_queue_pool.
#[local] Instance pool_arp_ok : ArpQueueOk memp_state := arp_queue_pool_ok stack_pools stack_pools_ok.

(** ** A driver that keeps what it has sent *)

Fixpoint contents (fuel : nat) (p : Z) : prog (pstate memory) (list Z) :=
  match fuel with
  | O => fun _ => None
  | S fuel' =>
      if p =? 0 then mret []
      else
        b ← pb p;
        ds ← try_ask (fun s => load_bytes (Z.to_nat (p_len b)) (p_payload b) (bytes s));
        rest ← contents fuel' (p_next b);
        mret (ds ++ rest)
  end.

Abbreviation wire := (list (Z * list Z)).

#[local] Instance link_arp : Link memory wire := fun n p w =>
  '(ds, s) ← contents (S (size (pbufs (fst w)))) p (fst w); Some (ERR_OK, (s, snd w ++ [(n, ds)])).

Lemma contents_run fuel s p bs ds : chain (pbufs s) p bs -> (length bs < fuel)%nat -> lens_ok bs -> read (addrs bs) (bytes s) = Some ds -> contents fuel p s = Some (ds, s).
Proof.
  revert p bs ds. induction fuel as [|fuel IH]; intros p bs ds Hc Hf Hl Hds; [lia|]. cbn [contents]. destruct bs as [|[a b] bs]; cbn in Hc.
  - subst p. by injection Hds as <-.
  - destruct Hc as (->&Ha&E&Hc). rewrite (proj2 (Z.eqb_neq a 0)) by done. rewrite (bind_run _ _ _ _ _ (pb_run _ _ _ E)). cbn [lens_ok] in Hl. destruct Hl as (Hb&_&_&Hl).
    cbn [addrs] in Hds. apply read_app_Some in Hds as (vs&ws&->&Hvs&Hws). unfold spots in Hvs. rewrite <- (Z2Nat.id (p_len b)), <- load_bytes_read in Hvs by done.
    assert (E1 : try_ask (fun s => load_bytes (Z.to_nat (p_len b)) (p_payload b) (bytes s)) s = Some (vs, s)) by (unfold try_ask; by rewrite Hvs).
    rewrite (bind_run _ _ _ _ _ E1), (bind_run _ _ _ _ _ (IH (p_next b) bs ws Hc ltac:(cbn in Hf; lia) Hl Hws)). done.
Qed.

Lemma link_arp_sends n p (s : pstate memory) (l : wire) bs ds : chain (pbufs s) p bs -> lens_ok bs -> read (addrs bs) (bytes s) = Some ds ->
  exists r l', linkoutput n p (s, l) = Some (r, (s, l')) /\ l' = l ++ [(n, ds)].
Proof.
  intros Hc Hl Hds. exists ERR_OK, (l ++ [(n, ds)]). split; [|done]. unfold linkoutput, link_arp. cbn [fst snd].
  pose proof (chain_size _ _ _ Hc). by rewrite (contents_run _ s p bs ds) by (done || lia).
Qed.

#[local] Instance link_arp_ok : LinkOk memory wire := {| link_sent l := l; link_ok := link_arp_sends |}.

(** ** The memory *)

Definition pool_bytes (t : memp_t) : list Z := seqZ (10000 + 10000 * pool_number t) (2 * desc_size (stack_pools t)).
Definition ram_bytes : list Z := seqZ 1000 512 ++ mjoin (pool_bytes <$> all_pools).
Definition ram_arp (i : Z) : Prop := i ∈ ram_bytes.
Definition patterned (l : list Z) : mem := list_to_map ((fun a => (a, a mod 256)) <$> l).

Lemma patterned_lookup l i v : patterned l !! i = Some v -> v = i mod 256.
Proof. unfold patterned. intros Hv%elem_of_list_to_map_2. by apply list_elem_of_fmap in Hv as (c&[= -> ->]&_). Qed.

Lemma patterned_is_Some l i : i ∈ l -> is_Some (patterned l !! i).
Proof.
  unfold patterned. intros Hi. destruct (_ !! i) eqn:E; [by eexists|]. apply not_elem_of_list_to_map_2 in E. destruct E.
  rewrite <- list_fmap_compose. apply list_elem_of_fmap. by exists i.
Qed.

Lemma in_ram_bytes i : (1000 <= i < 1512) \/ (exists t, i ∈ pool_bytes t) -> ram_arp i.
Proof.
  unfold ram_arp, ram_bytes. generalize pool_bytes. intros pb [Hi|[t Hi]]; apply elem_of_app; [left; apply elem_of_seqZ; lia|right].
  apply list_elem_of_join. exists (pb t). split; [done|]. apply list_elem_of_fmap_2. destruct t; unfold all_pools; repeat (left + right); done.
Qed.

Definition arp_mem : mem := patterned ram_bytes.

Lemma ram_arp_owned (a : memory) H x u n i : owns a H -> H !! x = Some (u, n) -> x <= i < x + n -> ram_arp i.
Proof.
  intros HO Hx Hi. apply in_ram_bytes. destruct u as [t|].
  - right. exists t. destruct (stack_pool_element stack_pools 1000 512 stack_pools_ok (proj1 heap_place) (proj2 heap_place) (fun t => proj2 (stack_pools_size t)) stack_pools_apart a H t x n HO Hx) as [(k&Hk&->)%elem_of_elements ->].
    rewrite stack_pools_element in Hi. unfold pool_bytes. rewrite elem_of_seqZ. change (desc_num (stack_pools t)) with 2 in Hk. pose proof (stack_pools_size t). nia.
  - left. pose proof (stack_heap_block stack_pools 1000 512 stack_pools_ok (proj1 heap_place) (proj2 heap_place) (fun t => proj2 (stack_pools_size t)) stack_pools_apart a H x n HO Hx). lia.
Qed.

#[local] Instance frames_arp : FramesOk LITTLE_ENDIAN memory wire := pbuf_frames (fun t => desc_size (stack_pools t)) ram_arp ram_arp_owned LITTLE_ENDIAN.

Definition no_refs : Z -> Z := fun _ => 0.

Lemma arp_mem_ok : bytes_ok arp_mem /\ forall i, ram_arp i -> is_Some (arp_mem !! i).
Proof.
  unfold arp_mem, ram_arp. generalize ram_bytes. intros l. split; [|apply patterned_is_Some].
  intros i v ->%patterned_lookup. unfold byte_ok. pose proof (Z.mod_pos_bound i 256). lia.
Qed.

Lemma stack_starts : stack_owns stack_pools 1000 512 (alloc stack_start) ∅.
Proof.
  apply (stack_owns_start stack_pools 1000 512 stack_pools_ok (proj1 heap_place) (proj2 heap_place)
    (fun t => proj2 (stack_pools_size t)) stack_pools_apart (mkMemp (fun _ => 0) ∅) (mkHeap ∅ 0)); vm_compute; reflexivity.
Qed.

Lemma no_packets (a : memory) m : owns a ∅ -> bytes_ok m -> (forall i, ram_arp i -> is_Some (m !! i)) ->
  pbuf_holds (L := wire) (fun t => desc_size (stack_pools t)) ram_arp (mkP ∅ m a, []) no_refs.
Proof.
  intros Ha Hm Hr. assert (Hnone : forall p, ~ 0 < no_refs p) by (intros p; unfold no_refs; lia).
  split; cbn [fst pbufs bytes alloc]; [|done|done| |].
  - exists ∅. split; cbn [pbufs alloc]; try (intros p; rewrite lookup_empty; by intros [? ?]); try (intros p b; by rewrite lookup_empty); [done|].
    intros p. split; [unfold no_refs; lia|]. intros Hp. by destruct (Hnone p).
  - intros p Hp. by destruct (Hnone p).
  - intros p bs Hp. by destruct (Hnone p).
Qed.

Lemma frames_start : pbuf_holds (L := wire) (fun t => desc_size (stack_pools t)) ram_arp (mkP ∅ arp_mem (alloc stack_start), []) no_refs.
Proof. exact (no_packets _ _ stack_starts (proj1 arp_mem_ok) (proj2 arp_mem_ok)). Qed.

(** ** The interface, and an empty table *)

Definition own_hw : list Z := [2; 0; 0; 0; 0; 1].
Definition peer_hw : list Z := [2; 0; 0; 0; 0; 7].
Definition addr4 (a b c d : Z) : Z := host32 LITTLE_ENDIAN a b c d.
Definition netif_arp : netif := mkNetif (addr4 192 168 1 2) (addr4 255 255 255 0) (addr4 192 168 1 1) own_hw (Z.lor NETIF_FLAG_BROADCAST NETIF_FLAG_ETHARP).
Definition peer_ip : Z := addr4 192 168 1 7.

Abbreviation arp_ex := (arp memory wire memp_state).

Definition pool_start_arp : memp_state := default (mkMemp (fun _ => 0) ∅) (snd <$> memp_init stack_pools (mkMemp (fun _ => 0) ∅)).
Definition arp0 : arp_ex := mkArp (replicate 10 empty_entry) 0 {[ 1 := netif_arp ]} (mkP ∅ arp_mem (alloc stack_start), []) pool_start_arp.

Definition then_ (c : arp_call) (s : arp_ex) : arp_ex := default s (snd <$> arp_run LITTLE_ENDIAN c s).

Definition make (ds : list Z) (s : arp_ex) : Z * arp_ex :=
  match on_frames (make_packet ds) s with Some (p, s') => (p, s') | None => (0, s) end.

Definition data1 : list Z := seqZ 1 20.
Definition data2 : list Z := seqZ 101 24.
(** The peer answers. *)
Definition data3 : list Z := arp_packet LITTLE_ENDIAN ARP_REPLY peer_hw peer_ip own_hw (ip_addr netif_arp).

Definition with1 : Z * arp_ex := make data1 arp0.
Definition p1 : Z := fst with1.
Definition arp1 : arp_ex := then_ (Output 1 p1 peer_ip) (snd with1).
Definition with2 : Z * arp_ex := make data2 arp1.
Definition p2 : Z := fst with2.
Definition arp2 : arp_ex := then_ (Output 1 p2 peer_ip) (snd with2).
Definition with3 : Z * arp_ex := make data3 arp2.
Definition p3 : Z := fst with3.
Definition arp3 : arp_ex := snd with3.

Abbreviation history_ex := (arp_history (A := memory) (L := wire) (Q := memp_state) LITTLE_ENDIAN).

Lemma then_run c (s : arp_ex) : (match arp_run LITTLE_ENDIAN c s with Some _ => true | None => false end) = true -> arp_run LITTLE_ENDIAN c s = Some (tt, then_ c s).
Proof. unfold then_. by destruct (arp_run LITTLE_ENDIAN c s) as [[[] s']|]. Qed.

Lemma make_history ds (s : arp_ex) refs : history_ex s refs -> Forall byte_ok ds -> 0 < Z.of_nat (length ds) < 2 ^ 16 -> fst (make ds s) <> 0 ->
  history_ex (snd (make ds s)) (bump 1 (fst (make ds s)) refs).
Proof.
  intros HH Hb Hlen. pose proof (ai_frames _ _ _ (arp_history_ok _ _ _ HH)) as HF.
  destruct (make_packet_run (fun t => desc_size (stack_pools t)) ram_arp ram_arp_owned ds (a_frames s) _ (fi_holds _ _ _ _ HF) Hb Hlen) as (p&w&E&_&Hcase).
  assert (Em : make ds s = (p, mkArp (a_table s) (etharp_cached_entry s) (a_netifs s) w (a_pool s))) by (unfold make, on_frames; by rewrite E).
  rewrite Em. cbn [fst snd]. intros Hp. destruct Hcase as [(?&_)|(_&_&HP&_)]; [done|].
  apply (arp_others _ s refs); [done|intros y; pose proof (fi_refs _ _ _ _ HF y); unfold bump; case_decide; lia|].
  eapply holds_ext; [|exact HP]. intros y. unfold with_queued, bump. case_decide; lia.
Qed.

Lemma history0 : history_ex arp0 no_refs.
Proof.
  apply arp_start; [reflexivity|reflexivity| |done|exact frames_start|].
  - intros n f. cbn [arp0 a_netifs]. intros [<- <-]%lookup_singleton_Some. split; [done|]. split; [by split; [|repeat (apply Forall_cons; split; [by vm_compute|])]|]. by vm_compute.
  - apply (pool_handed_start stack_pools stack_pools_ok MEMP_ARP_QUEUE (mkMemp (fun _ => 0) ∅)). vm_compute. reflexivity.
Qed.

Lemma bytes_byte_ok l : forallb (fun b => (0 <=? b) && (b <? 256)) l = true -> Forall byte_ok l.
Proof. induction l as [|b l IH]; cbn; [done|]. intros [[H1 H2]%andb_true_iff H3]%andb_true_iff. apply Forall_cons. split; [unfold byte_ok; lia|auto]. Qed.

Definition refs1 : Z -> Z := bump 1 p1 no_refs.
Definition refs2 : Z -> Z := bump 1 p2 refs1.
Definition refs3 : Z -> Z := bump 1 p3 refs2.

Ltac computed := vm_compute; (reflexivity || (split; congruence) || congruence).

Lemma history_made : history_ex (snd with1) refs1.
Proof. apply make_history; [exact history0|by apply bytes_byte_ok|computed|computed]. Qed.

Lemma history1 : history_ex arp1 refs1.
Proof.
  apply (arp_step _ (snd with1) refs1 (Output 1 p1 peer_ip)); [exact history_made| |apply then_run; vm_compute; reflexivity].
  split; [exists netif_arp; vm_compute; reflexivity|]. split; [computed|computed].
Qed.

Lemma history2 : history_ex arp2 refs2.
Proof.
  assert (H : history_ex (snd with2) refs2) by (apply make_history; [exact history1|by apply bytes_byte_ok|computed|computed]).
  apply (arp_step _ (snd with2) refs2 (Output 1 p2 peer_ip)); [exact H| |apply then_run; vm_compute; reflexivity].
  split; [exists netif_arp; vm_compute; reflexivity|]. split; [computed|computed].
Qed.

Lemma history3 : history_ex arp3 refs3.
Proof. apply make_history; [exact history2|by apply bytes_byte_ok|computed|computed]. Qed.

Definition buffer (payload len refs : Z) : pbuf := mkPbuf 0 payload len len 0x80 0 refs 0.

(** A packet of one buffer. *)
Lemma one_buffer (w : pstate memory * wire) p b f : p <> 0 -> pbufs (fst w) !! p = Some b -> p_next b = 0 ->
  load_bytes (length (data f)) (p_payload b) (bytes (fst w)) = Some (data f) -> Z.of_nat (length (data f)) = p_len b ->
  room f = has_room p b -> start f = p_payload b -> head_len f = length (data f) -> packet w p f.
Proof.
  intros Hp Hb Hn Hds Hl Hr Hs Hh. exists b, []. cbn [chain]. split; [by rewrite Hn|]. cbn [addrs]. rewrite app_nil_r. unfold spots.
  rewrite <- Hl, <- load_bytes_read, Hds, Nat2Z.id. by split_and!.
Qed.

Definition pk1 : pkt := mkPkt true 1040 20 data1.
Definition pk2 : pkt := mkPkt true 1100 24 data2.
Definition pk3 : pkt := mkPkt true 1164 28 data3.

Lemma packet1 : packet (a_frames (snd with1)) p1 pk1.
Proof. apply (one_buffer _ _ (buffer 1040 20 1) pk1); [vm_compute; discriminate|vm_compute; reflexivity..]. Qed.

Lemma packets_waiting : packet (a_frames arp3) p1 pk1 /\ packet (a_frames arp3) p2 pk2 /\ packet (a_frames arp3) p3 pk3.
Proof.
  split; [|split].
  - apply (one_buffer _ _ (buffer 1040 20 2) pk1); [vm_compute; discriminate|vm_compute; reflexivity..].
  - apply (one_buffer _ _ (buffer 1100 24 2) pk2); [vm_compute; discriminate|vm_compute; reflexivity..].
  - apply (one_buffer _ _ (buffer 1164 28 1) pk3); [vm_compute; discriminate|vm_compute; reflexivity..].
Qed.

Definition entry3 : etharp_entry := mkEntry [(100016, p1); (100000, p2)] peer_ip 1 [0; 0; 0; 0; 0; 0] 0 ETHARP_STATE_PENDING.

Lemma table3 : a_table arp3 !! 0%nat = Some entry3 /\ a_netifs arp3 !! 1 = Some netif_arp /\ count (waiting arp3) p3 = 0 /\ 0 < refs3 p3 /\ arp_proper pk3.
Proof. split; [vm_compute; reflexivity|]. split; [vm_compute; reflexivity|]. split; [vm_compute; reflexivity|]. split; [computed|]. by split_and!. Qed.

(** ** Witnesses *)

Lemma etharp_safe_witness : exists s', arp_run LITTLE_ENDIAN (Input p3 1) arp3 = Some (tt, s').
Proof.
  apply (proj1 (etharp_safe LITTLE_ENDIAN arp3 refs3 history3)). destruct table3 as (_&Hn&Hc&Hr&_). split; [by exists netif_arp|]. split; [exact Hr|]. split; [exact Hc|].
  exists pk3. split; [exact (proj2 (proj2 packets_waiting))|apply le_n].
Defined.

Lemma etharp_input_resolves_witness : exists s' reply, etharp_input LITTLE_ENDIAN p3 1 arp3 = Some (tt, s') /\
  sent (snd (a_frames s')) = sent (snd (a_frames arp3)) ++ [(1, eth_frame peer_hw own_hw ETHTYPE_IP data1); (1, eth_frame peer_hw own_hw ETHTYPE_IP data2)] ++ reply.
Proof.
  destruct table3 as (Ht&Hn&Hc&Hr&Hp). destruct packets_waiting as (P1&P2&P3).
  destruct (etharp_input_resolves LITTLE_ENDIAN arp3 refs3 1 netif_arp p3 pk3 0 entry3 [pk1; pk2] (arp_history_ok _ _ _ history3) Hn Hr Hc P3 (le_n 28) Hp eq_refl Ht
    ltac:(discriminate) eq_refl eq_refl ltac:(apply (bool_decide_unpack _); vm_compute; exact I) ltac:(constructor; [exact P1|constructor; [exact P2|constructor]])
    ltac:(repeat constructor)) as (s'&reply&E&_&_&Hs&_).
  exists s', reply. split; [exact E|exact Hs].
Defined.

Lemma etharp_output_delivers_witness : exists r s', etharp_output LITTLE_ENDIAN 1 p1 peer_ip (snd with1) = Some (r, s') /\
  delivered LITTLE_ENDIAN (snd with1) refs1 1 netif_arp peer_ip p1 pk1 r s'.
Proof.
  destruct (etharp_output_delivers LITTLE_ENDIAN (snd with1) refs1 1 netif_arp peer_ip p1 pk1 (arp_history_ok _ _ _ history_made) ltac:(vm_compute; reflexivity) ltac:(computed) ltac:(computed) packet1)
    as (r&s'&E&_&_&HD). exists r, s'. split; [exact E|exact HD].
Defined.

Lemma etharp_tmr_lifetime_witness : exists s' e', ticks LITTLE_ENDIAN 5 arp3 = Some (tt, s') /\ a_table s' !! 0%nat = Some e' /\ state e' = ETHARP_STATE_EMPTY /\ q e' = [].
Proof.
  destruct (etharp_tmr_lifetime LITTLE_ENDIAN 5 arp3 refs3 (arp_history_ok _ _ _ history3)) as (s'&E&_&Hg). destruct (Hg 0%nat entry3 (proj1 table3)) as (e'&He'&Hgr).
  exists s', e'. split; [exact E|]. split; [exact He'|exact Hgr].
Defined.
