(* ===== verification/Ip4.v ===== *)
(** * The network layer (core/ipv4/ip4.c)

    Routing, the header that is put in front of a datagram, and what becomes of
    a datagram that comes in.  The state is that of [Etharp], in which the lists and
    the globals of this layer stand beside the driver; the transport layers and
    the groups of IGMP are behind the class [Upper].  All interfaces are Ethernet, so
    that [netif->output] is [etharp_output].  Checksums are made and checked by the
    controller; no forwarding, fragments, reassembly, loopback and DHCP. *)
From S2P Require Import Prelude Mem Pbuf LwipDef IpAddr EthFrames Etharp.
Open Scope Z_scope.

(** What is known of the datagram that comes in. *)
Record ip_globals := mkGlobals {
  current_netif : Z; current_input_netif : Z; current_ip4_header : Z; current_ip_header_tot_len : Z; current_iphdr_src : Z; current_iphdr_dest : Z }.

Definition no_datagram : ip_globals := mkGlobals 0 0 0 0 IPADDR_ANY IPADDR_ANY.

Record inet (U : Type) := mkInet {
  netif_list : list Z; netif_default : Z; ip4_default_multicast_netif : Z; ip_id : Z; ip_data : ip_globals; transport : U }.
Arguments mkInet {U}.
Arguments netif_list {U}.
Arguments netif_default {U}.
Arguments ip4_default_multicast_netif {U}.
Arguments ip_id {U}.
Arguments ip_data {U}.
Arguments transport {U}.

Definition with_ip_id {U} (v : Z) (i : inet U) : inet U := mkInet (netif_list i) (netif_default i) (ip4_default_multicast_netif i) v (ip_data i) (transport i).
Definition with_ip_data {U} (v : ip_globals) (i : inet U) : inet U := mkInet (netif_list i) (netif_default i) (ip4_default_multicast_netif i) (ip_id i) v (transport i).
Definition with_multicast_netif {U} (v : Z) (i : inet U) : inet U := mkInet (netif_list i) (netif_default i) v (ip_id i) (ip_data i) (transport i).

(** The driver does not see this layer. *)
#[export] Instance link_inet {A L U} `{!Link A L} : Link A (L * inet U) := fun n p w =>
  '(r, (s, l)) ← linkoutput n p (fst w, fst (snd w)); Some (r, (s, (l, snd (snd w)))).

Abbreviation stack A L Q U := (arp A (L * inet U) Q).

Inductive raw_input_state := RAW_INPUT_NONE | RAW_INPUT_EATEN | RAW_INPUT_DELIVERED.

(** The layers above. *)
Class Upper (A L Q U : Type) := {
  igmp_lookfor_group : Z -> Z -> prog (stack A L Q U) bool;
  raw_input : Z -> Z -> prog (stack A L Q U) raw_input_state;
  udp_input : Z -> Z -> prog (stack A L Q U) unit;
  tcp_input : Z -> Z -> prog (stack A L Q U) unit;
  icmp_input : Z -> Z -> prog (stack A L Q U) unit;
  igmp_input : Z -> Z -> Z -> prog (stack A L Q U) unit;
  icmp_dest_unreach : Z -> Z -> prog (stack A L Q U) unit
}.

Definition NETIF_FLAG_UP : Z := 0x01.
Definition NETIF_FLAG_LINK_UP : Z := 0x04.
Definition NETIF_FLAG_IGMP : Z := 0x20.
Definition netif_is_up (f : netif) : bool := negb (Z.land (flags f) NETIF_FLAG_UP =? 0).
Definition netif_is_link_up (f : netif) : bool := negb (Z.land (flags f) NETIF_FLAG_LINK_UP =? 0).

Definition IP_HLEN : Z := 20.
Definition IP_HLEN_MAX : Z := 60.
Definition IP_MF : Z := 0x2000.
Definition IP_OFFMASK : Z := 0x1fff.
Definition IP_PROTO_ICMP : Z := 1.
Definition IP_PROTO_IGMP : Z := 2.
Definition IP_PROTO_TCP : Z := 6.
Definition IP_PROTO_UDP : Z := 17.
Definition IP_PROTO_UDPLITE : Z := 136.
Definition ICMP_DUR_PROTO : Z := 2.

Section ip4.
Context (order : byte_order) {A L Q U : Type} `{!PbufMemory A} `{!Link A L} `{!ArpQueue Q} `{!Upper A L Q U}.

Abbreviation R := (prog (stack A L Q U)).

Definition inet_of (s : stack A L Q U) : inet U := snd (snd (a_frames s)).
Definition set_inet_of (i : inet U) (s : stack A L Q U) : stack A L Q U :=
  mkArp (a_table s) (etharp_cached_entry s) (a_netifs s) (fst (a_frames s), (fst (snd (a_frames s)), i)) (a_pool s).
Definition ask_inet {B} (f : inet U -> B) : R B := ask (fun s => f (inet_of s)).
Definition set_inet (f : inet U -> inet U) : R unit := update (fun s => set_inet_of (f (inet_of s)) s).

(** Fields of a header in memory. *)
Definition load_byte (a : Z) : R Z := bs ← on_frames (load_at a 1); mret (match bs with [b] => b | _ => 0 end).
Definition load_half (a : Z) : R Z := bs ← on_frames (load_at a 2); mret (match bs with [b0; b1] => host16 order b0 b1 | _ => 0 end).
Definition load_word (a : Z) : R Z := bs ← on_frames (load_at a 4); mret (match bs with [b0; b1; b2; b3] => host32 order b0 b1 b2 b3 | _ => 0 end).

Definition release_packet (p : Z) : R Z := on_frames (on_packets (pbuf_free p)).

(** ** Routing *)

Definition ip4_set_default_multicast_netif (n : Z) : R unit := set_inet (with_multicast_netif n).

Fixpoint route_loop (ns : list Z) (dest : Z) : R Z :=
  match ns with
  | [] => mret 0
  | n :: ns' =>
      f ← get_netif n;
      if netif_is_up f && netif_is_link_up f && negb (ip4_addr_isany_val (ip_addr f)) then
        if ip4_addr_netcmp dest (ip_addr f) (netmask f) then mret n
        else if (Z.land (flags f) NETIF_FLAG_BROADCAST =? 0) && ip4_addr_cmp dest (gw f) then mret n
        else route_loop ns' dest
      else route_loop ns' dest
  end.

Definition ip4_route (dest : Z) : R Z :=
  m ← ask_inet ip4_default_multicast_netif;
  if ip4_addr_ismulticast order dest && negb (m =? 0) then mret m
  else
    ns ← ask_inet netif_list;
    n ← route_loop ns dest;
    if negb (n =? 0) then mret n
    else
      d ← ask_inet netif_default;
      if d =? 0 then mret 0
      else
        f ← get_netif d;
        if negb (netif_is_up f) || negb (netif_is_link_up f) || ip4_addr_isany_val (ip_addr f) || ip4_addr_isloopback order dest then mret 0
        else mret d.

(** ** Receiving *)

Definition ip4_input_accept (n : Z) : R bool :=
  f ← get_netif n;
  dest ← ask_inet (fun i => current_iphdr_dest (ip_data i));
  mret (netif_is_up f && negb (ip4_addr_isany_val (ip_addr f)) && (ip4_addr_cmp dest (ip_addr f) || ip4_addr_isbroadcast_u32 dest f)).

(** The first other interface that accepts the datagram. *)
Fixpoint accept_loop (ns : list Z) (inp : Z) : R Z :=
  match ns with
  | [] => mret 0
  | n :: ns' => if n =? inp then accept_loop ns' inp else a ← ip4_input_accept n; if (a : bool) then mret n else accept_loop ns' inp
  end.

(** The interface that the datagram is for, or none; is its source to be checked? *)
Definition match_netif (inp : Z) : R (Z * bool) :=
  dest ← ask_inet (fun i => current_iphdr_dest (ip_data i));
  src ← ask_inet (fun i => current_iphdr_src (ip_data i));
  if ip4_addr_ismulticast order dest then
    f ← get_netif inp;
    member ← (if Z.land (flags f) NETIF_FLAG_IGMP =? 0 then mret false else igmp_lookfor_group inp dest);
    if (member : bool) then mret (inp, negb (ip4_addr_cmp dest (IP4_ADDR order 224 0 0 1) && ip4_addr_isany_val src)) else mret (0, true)
  else
    a ← ip4_input_accept inp;
    if (a : bool) then mret (inp, true)
    else if ip4_addr_isloopback order dest then mret (0, true)
    else ns ← ask_inet netif_list; n ← accept_loop ns inp; mret (n, true).

(** The protocol takes the datagram, which begins at its own header now. *)
Definition dispatch (raw : raw_input_state) (p inp netif iphdr iphdr_hlen : Z) : R unit :=
  _ ← on_frames (on_packets (pbuf_remove_header p iphdr_hlen));
  proto ← load_byte (iphdr + 9);
  if (proto =? IP_PROTO_UDP) || (proto =? IP_PROTO_UDPLITE) then udp_input p inp
  else if proto =? IP_PROTO_TCP then tcp_input p inp
  else if proto =? IP_PROTO_ICMP then icmp_input p inp
  else if proto =? IP_PROTO_IGMP then dest ← ask_inet (fun i => current_iphdr_dest (ip_data i)); igmp_input p inp dest
  else
    _ ← (match raw with
         | RAW_INPUT_DELIVERED => mret tt
         | _ =>
             dest ← ask_inet (fun i => current_iphdr_dest (ip_data i));
             f ← get_netif netif;
             when (negb (ip4_addr_isbroadcast_u32 dest f) && negb (ip4_addr_ismulticast order dest))
               (_ ← on_frames (on_packets (pbuf_header_force p iphdr_hlen)); icmp_dest_unreach p ICMP_DUR_PROTO)
         end);
    _ ← release_packet p; mret tt.

(** The datagram is for us: to the raw sockets and to its protocol. *)
Definition deliver (p inp netif iphdr iphdr_hlen : Z) : R err_t :=
  v_hl ← load_byte iphdr;
  _ ← set_inet (fun i => with_ip_data (mkGlobals netif inp iphdr (u8 (Z.land v_hl 0x0f * 4)) (current_iphdr_src (ip_data i)) (current_iphdr_dest (ip_data i))) i);
  raw ← raw_input p inp;
  _ ← (match raw with RAW_INPUT_EATEN => mret tt | _ => dispatch raw p inp netif iphdr iphdr_hlen end);
  _ ← set_inet (with_ip_data no_datagram);
  mret ERR_OK.

Definition ip4_input (p inp : Z) : R err_t :=
  b ← on_frames (on_packets (pb p));
  let iphdr := p_payload b in
  v_hl ← load_byte iphdr;
  if negb (Z.shiftr v_hl 4 =? 4) then _ ← release_packet p; mret ERR_OK
  else
    let iphdr_hlen := u8 (Z.land v_hl 0x0f * 4) in
    len ← load_half (iphdr + 2);
    let iphdr_len := lwip_ntohs order len in
    _ ← when (iphdr_len <? p_tot_len b) (on_frames (on_packets (pbuf_realloc p iphdr_len)));
    b ← on_frames (on_packets (pb p));
    if (p_len b <? iphdr_hlen) || (p_tot_len b <? iphdr_len) || (iphdr_hlen <? IP_HLEN) then _ ← release_packet p; mret ERR_OK
    else
      dest ← load_word (iphdr + 16);
      src ← load_word (iphdr + 12);
      _ ← set_inet (fun i => with_ip_data (mkGlobals (current_netif (ip_data i)) (current_input_netif (ip_data i)) (current_ip4_header (ip_data i))
                                             (current_ip_header_tot_len (ip_data i)) src dest) i);
      '(netif, check_ip_src) ← match_netif inp;
      f ← get_netif inp;
      if check_ip_src && (ip4_addr_isbroadcast_u32 src f || ip4_addr_ismulticast order src) then _ ← release_packet p; mret ERR_OK
      else if netif =? 0 then _ ← release_packet p; mret ERR_OK
      else
        offset ← load_half (iphdr + 6);
        if negb (Z.land offset (lwip_htons order (Z.lor IP_OFFMASK IP_MF)) =? 0) then _ ← release_packet p; mret ERR_OK
        else deliver p inp netif iphdr iphdr_hlen.

(** ** Sending *)

(** The options, padded to words, go between the header and the data. *)
Definition put_options (p : Z) (ip_options : list Z) : R bool :=
  let optlen := Z.of_nat (length ip_options) in
  let optlen_aligned := u16 (Z.land (optlen + 3) (Z.lnot 3)) in
  r ← on_frames (on_packets (pbuf_add_header p optlen_aligned));
  if negb (r =? 0) then mret false
  else
    b ← on_frames (on_packets (pb p));
    _ ← on_frames (store_at (p_payload b) ip_options);
    _ ← when (optlen <? optlen_aligned) (on_frames (store_at (p_payload b + optlen) (replicate (Z.to_nat (optlen_aligned - optlen)) 0)));
    mret true.

Definition put_ip_header (p : Z) (ip_hlen : Z) (src : option Z) (dest ttl tos proto : Z) : R bool :=
  r ← on_frames (on_packets (pbuf_add_header p IP_HLEN));
  if negb (r =? 0) then mret false
  else
    b ← on_frames (on_packets (pb p));
    let iphdr := p_payload b in
    _ ← on_frames (store_at (iphdr + 8) [u8 ttl]);
    _ ← on_frames (store_at (iphdr + 9) [u8 proto]);
    _ ← on_frames (store_at (iphdr + 16) (bytes32 order dest));
    _ ← on_frames (store_at iphdr [u8 (Z.lor (Z.shiftl 4 4) (ip_hlen / 4))]);
    _ ← on_frames (store_at (iphdr + 1) [u8 tos]);
    _ ← on_frames (store_at (iphdr + 2) (bytes16 order (lwip_htons order (p_tot_len b))));
    _ ← on_frames (store_at (iphdr + 6) (bytes16 order 0));
    id ← ask_inet ip_id;
    _ ← on_frames (store_at (iphdr + 4) (bytes16 order (lwip_htons order id)));
    _ ← set_inet (fun i => with_ip_id (u16 (ip_id i + 1)) i);
    _ ← on_frames (store_at (iphdr + 12) (bytes32 order (default IPADDR_ANY src)));
    _ ← on_frames (store_at (iphdr + 10) (bytes16 order 0));
    mret true.

(** No destination means that the packet has its header already. *)
Definition ip4_output_if_opt_src (p : Z) (src dest : option Z) (ttl tos proto n : Z) (ip_options : list Z) : R err_t :=
  match dest with
  | Some dest =>
      let optlen := Z.of_nat (length ip_options) in
      if IP_HLEN_MAX - IP_HLEN <? optlen then mret ERR_VAL
      else
        let ip_hlen := if optlen =? 0 then IP_HLEN else u16 (IP_HLEN + u16 (Z.land (optlen + 3) (Z.lnot 3))) in
        room ← (if optlen =? 0 then mret true else put_options p ip_options);
        if negb (room : bool) then mret ERR_BUF
        else
          room ← put_ip_header p ip_hlen src dest ttl tos proto;
          if negb (room : bool) then mret ERR_BUF else etharp_output order n p dest
  | None =>
      b ← on_frames (on_packets (pb p));
      if p_len b <? IP_HLEN then mret ERR_BUF
      else dest ← load_word (p_payload b + 16); etharp_output order n p dest
  end.

Definition ip4_output_if_src (p : Z) (src dest : option Z) (ttl tos proto n : Z) : R err_t :=
  ip4_output_if_opt_src p src dest ttl tos proto n [].

Definition ip4_output_if_opt (p : Z) (src dest : option Z) (ttl tos proto n : Z) (ip_options : list Z) : R err_t :=
  match dest with
  | Some _ =>
      f ← get_netif n;
      let src_used := if ip4_addr_isany_val (default IPADDR_ANY src) then Some (ip_addr f) else src in
      ip4_output_if_opt_src p src_used dest ttl tos proto n ip_options
  | None => ip4_output_if_opt_src p src dest ttl tos proto n ip_options
  end.

Definition ip4_output_if (p : Z) (src dest : option Z) (ttl tos proto n : Z) : R err_t := ip4_output_if_opt p src dest ttl tos proto n [].

Definition ip4_output (p : Z) (src : option Z) (dest ttl tos proto : Z) : R err_t :=
  n ← ip4_route dest;
  if n =? 0 then mret ERR_RTE else ip4_output_if p src (Some dest) ttl tos proto n.
End ip4.
