(* ===== verification/Ip4Send.v ===== *)
(** * Sending a datagram: the route, the header, and what becomes of the packet *)
From S2P Require Import Prelude Mem Memp Pbuf PbufProofs PbufRefs LwipDef LwipDefProofs IpAddr IpAddrProofs EthFrames Etharp EtharpTable FrameLaws EtharpInv EtharpOps EtharpSend EtharpQuery EtharpOutput EtharpInput PbufFrames Ip4.
Open Scope Z_scope.

(** The header of a datagram without options, as RFC 791 draws it; the controller fills the checksum in. *)
Definition ip_header (order : byte_order) (tos len id ttl proto src dest : Z) : list Z :=
  [0x45; tos] ++ word16 len ++ word16 id ++ [0; 0; ttl; proto; 0; 0] ++ bytes32 order src ++ bytes32 order dest.

Lemma bytes16_0 order : bytes16 order 0 = [0; 0].
Proof. by destruct order. Qed.

Lemma header_stores order tos len id ttl proto src dest hd rest : length hd = 20%nat ->
  list_inserts 10 [0; 0] (list_inserts 12 (bytes32 order src) (list_inserts 4 (word16 id) (list_inserts 6 [0; 0] (list_inserts 2 (word16 len) (list_inserts 1 [tos]
    (list_inserts 0 [0x45] (list_inserts 16 (bytes32 order dest) (list_inserts 9 [proto] (list_inserts 8 [ttl] (hd ++ rest)))))))))) =
  ip_header order tos len id ttl proto src dest ++ rest.
Proof. intros Hh. do 20 (destruct hd as [|? hd]; [done|]). by destruct hd. Qed.

(** This layer stands beside the driver. *)
Section link.
Context {A L U : Type} `{!PbufMemory A} `{!Link A L} `{!LinkOk A L}.
#[local] Set Default Proof Using "All".

#[export] Instance link_inet_ok : LinkOk A (L * inet U).
Proof.
  refine {| link_sent (w : L * inet U) := link_sent (fst w) |}. intros n p s [l u] bs ds Hc Hl Hr. destruct (link_ok n p s l bs ds Hc Hl Hr) as (r&l'&E&Hs).
  exists r, (l', u). split; [|exact Hs]. unfold linkoutput, link_inet. cbn [fst snd]. by rewrite E.
Defined.

End link.

Section parts.
Context {A L Q U : Type}.
Implicit Types (s : stack A L Q U).

(** ** The parts of the state *)

Definition set_frames (x : pstate A) s : stack A L Q U := mkArp (a_table s) (etharp_cached_entry s) (a_netifs s) (x, snd (a_frames s)) (a_pool s).

Lemma set_frames_id s : set_frames (fst (a_frames s)) s = s.
Proof. destruct s as [? ? ? [? ?] ?]. done. Qed.

Lemma on_packets_stack {B} (q : prog (pstate A) B) s y x' : q (fst (a_frames s)) = Some (y, x') -> on_frames (on_packets q) s = Some (y, set_frames x' s).
Proof. intros E. unfold on_frames, on_packets. by rewrite E. Qed.

Lemma set_inet_bind {B} (f : inet U -> inet U) (g : unit -> prog (stack A L Q U) B) s : (set_inet f ≫= g) s = g tt (set_inet_of (f (inet_of s)) s).
Proof. done. Qed.
End parts.

Section send.
Context (order : byte_order) {A L Q U : Type} `{!PbufMemory A} (pool_size : memp_t -> Z) `{!PbufMemoryOk A pool_size} `{!Link A L} `{!LinkOk A L}.
Context `{!ArpQueue Q} `{!ArpQueueOk Q}.
Context (ram : Z -> Prop) (Hram : forall a H x u n i, owns a H -> H !! x = Some (u, n) -> x <= i < x + n -> ram i).

#[local] Set Default Proof Using "All".

#[local] Instance stack_frames : FramesOk order A (L * inet U) := pbuf_frames pool_size ram Hram order.

Implicit Types (s : stack A L Q U).

Abbreviation arp_inv := (arp_inv order).
Abbreviation packets_ok := (packets_ok pool_size ram).

Lemma store_stack s a k ds x0 x1 ds1 j bs : patched x0 a k ds x1 ds1 -> Forall byte_ok bs -> Z.of_nat (j + length bs) <= k ->
  exists x2, on_frames (store_at (a + Z.of_nat j) bs) (set_frames x1 s) = Some (tt, set_frames x2 s) /\ patched x0 a k ds x2 (list_inserts j bs ds1).
Proof.
  intros HP Hb Hj. destruct (store_at_run pool_size ram Hram x0 a k ds x1 ds1 j bs (snd (a_frames s)) HP Hb Hj) as (x2&E&HP2). exists x2. split; [|done].
  unfold on_frames. cbn [set_frames a_frames]. by rewrite E.
Qed.

(** The packet of a user, with what it holds. *)
Definition user_packet s (refs : Z -> Z) (p : Z) (b : pbuf) (bs : list (Z * pbuf)) (ds : list Z) : Prop :=
  0 < refs p /\ chain (pbufs (fst (a_frames s))) p ((p, b) :: bs) /\ read (addrs ((p, b) :: bs)) (bytes (fst (a_frames s))) = Some ds.

Definition pkt_of (p : Z) (b : pbuf) (ds : list Z) : pkt := mkPkt (has_room p b) (p_payload b) (Z.to_nat (p_len b)) ds.

Lemma user_packet_packet s refs p b bs ds : user_packet s refs p b bs ds -> packet (a_frames s) p (pkt_of p b ds).
Proof. intros (_&Hc&Hds). by exists b, bs. Qed.

Lemma user_packet_len s refs p b bs ds : arp_inv s refs -> user_packet s refs p b bs ds -> p_tot_len b = Z.of_nat (length ds) /\ Z.of_nat (length ds) < 2 ^ 16.
Proof.
  intros HI (Hp&Hc&Hds). pose proof (fi_holds _ _ _ _ (ai_frames _ _ _ HI)) as HP. assert (Hh : 0 < with_queued refs (waiting s) p) by (unfold with_queued; pose proof (count_nonneg (waiting s) p); lia).
  destruct (pk_chains _ _ _ _ HP p _ Hh Hc) as (Hl&_). pose proof (addrs_length _ Hl) as Ha. rewrite (read_length _ _ _ Hds). cbn in Hl, Ha |- *. lia.
Qed.

Lemma put_ip_header_run s refs p b bs ds src dest ttl tos proto : arp_inv s refs -> user_packet s refs p b bs ds ->
  byte_ok ttl -> byte_ok tos -> byte_ok proto -> 0 <= default IPADDR_ANY src < 2 ^ 32 -> 0 <= dest < 2 ^ 32 -> 0 <= ip_id (inet_of s) < 2 ^ 16 ->
  if has_space IP_HLEN p b
  then exists x', let s' := set_inet_of (with_ip_id (u16 (ip_id (inet_of s) + 1)) (inet_of s)) (set_frames x' s) in
    let b' := with_lens (p_payload b - IP_HLEN) (p_tot_len b + IP_HLEN) (p_len b + IP_HLEN) b in
    put_ip_header order p IP_HLEN src dest ttl tos proto s = Some (true, s') /\ arp_inv s' refs /\
    user_packet s' refs p b' bs (ip_header order tos (IP_HLEN + Z.of_nat (length ds)) (ip_id (inet_of s)) ttl proto (default IPADDR_ANY src) dest ++ ds) /\
    users_kept order p s s' refs
  else put_ip_header order p IP_HLEN src dest ttl tos proto s = Some (false, s).
Proof.
  intros HI HU Httl Htos Hproto Hsrc Hdest Hid. destruct (user_packet_len _ _ _ _ _ _ HI HU) as [Htl _]. destruct HU as (Hp&Hc&Hds).
  pose proof (fi_holds _ _ _ _ (ai_frames _ _ _ HI)) as HP. assert (Hh : 0 < with_queued refs (waiting s) p) by (unfold with_queued; pose proof (count_nonneg (waiting s) p); lia).
  pose proof Hc as (_&_&Hb&_). unfold put_ip_header. change IP_HLEN with 20.
  destruct (has_space 20 p b) eqn:Hsp.
  2:{ pose proof (add_header_run pool_size ram Hram _ _ p b bs 20 HP Hh Hb Hc ltac:(lia)) as Hadd. rewrite Hsp in Hadd.
    rewrite (bind_run _ _ _ _ _ (on_packets_stack _ _ _ _ Hadd)). cbn [negb Z.eqb]. by rewrite set_frames_id. }
  destruct (front_run pool_size ram Hram _ _ p b bs 20 ds HP Hh Hb Hc ltac:(lia) Hsp Hds) as (Eadd&Hb1&hd&tl&Hhdl&Hlen&P0&Hfin).
  rewrite (bind_run _ _ _ _ _ (on_packets_stack _ _ _ _ Eadd)). cbn [negb Z.eqb]. set (b' := with_lens _ _ _ b) in *. set (x1 := mkP _ _ _) in *.
  rewrite (bind_run _ _ _ _ _ (on_packets_stack _ (set_frames x1 s) _ _ (pb_run _ _ _ Hb1))). change (set_frames (fst (a_frames (set_frames x1 s))) (set_frames x1 s)) with (set_frames x1 s).
  cbv zeta. rewrite !u8_small by done. change (u8 (Z.lor (Z.shiftl 4 4) (20 / 4))) with 0x45.
  assert (Hl20 : 20 <= p_len b').
  { cbn. destruct (pk_chains _ _ _ _ HP p _ Hh Hc) as ((L1&_)&_). lia. }
  assert (Hb8 : forall v, byte_ok v -> Forall byte_ok [v]) by (intros v Hv; by apply Forall_singleton).
  pose proof (store_stack s _ _ _ _ _ _ 8 [ttl] P0 (Hb8 _ Httl) ltac:(cbn [length bytes32 word16]; lia)) as (x2&E2&P2).
  pose proof (store_stack s _ _ _ _ _ _ 9 [proto] P2 (Hb8 _ Hproto) ltac:(cbn [length bytes32 word16]; lia)) as (x3&E3&P3).
  pose proof (store_stack s _ _ _ _ _ _ 16 _ P3 (bytes32_ok pool_size ram Hram order _ Hdest) ltac:(cbn [length bytes32 word16]; lia)) as (x4&E4&P4).
  pose proof (store_stack s _ _ _ _ _ _ 0 [0x45] P4 (Hb8 0x45 ltac:(by split)) ltac:(cbn [length bytes32 word16]; lia)) as (x5&E5&P5).
  pose proof (store_stack s _ _ _ _ _ _ 1 [tos] P5 (Hb8 _ Htos) ltac:(cbn [length bytes32 word16]; lia)) as (x6&E6&P6).
  assert (Htot : p_tot_len b' = 20 + Z.of_nat (length ds)) by (cbn; lia).
  assert (Ht16 : 20 + Z.of_nat (length ds) < 2 ^ 16).
  { unfold has_space in Hsp. rewrite !andb_true_iff, Z.ltb_lt in Hsp. lia. }
  assert (Hz : Forall byte_ok [0; 0]) by by apply Forall_cons; split; [|apply Forall_singleton].
  pose proof (store_stack s _ _ _ _ _ _ 2 _ P6 (word16_ok pool_size ram Hram (20 + Z.of_nat (length ds)) ltac:(lia)) ltac:(cbn [length bytes32 word16]; lia)) as (x7&E7&P7).
  pose proof (store_stack s _ _ _ _ _ _ 6 _ P7 Hz ltac:(cbn [length bytes32 word16]; lia)) as (x8&E8&P8).
  pose proof (store_stack s _ _ _ _ _ _ 4 _ P8 (word16_ok pool_size ram Hram (ip_id (inet_of s)) Hid) ltac:(cbn [length bytes32 word16]; lia)) as (x9&E9&P9).
  set (s' := set_inet_of (with_ip_id (u16 (ip_id (inet_of s) + 1)) (inet_of s)) s).
  pose proof (store_stack s' _ _ _ _ _ _ 12 _ P9 (bytes32_ok pool_size ram Hram order _ Hsrc) ltac:(cbn [length bytes32 word16]; lia)) as (x10&E10&P10).
  pose proof (store_stack s' _ _ _ _ _ _ 10 _ P10 Hz ltac:(cbn [length bytes32 word16]; lia)) as (x11&E11&P11).
  rewrite (header_stores order) in P11 by done. destruct (Hfin _ _ P11) as (HP11&Hc11&Hr11&HK11).
  change (p_payload b' + 8) with (p_payload b' + Z.of_nat 8).
  rewrite (bind_run _ _ _ _ _ E2), (bind_run _ _ _ _ _ E3), (bind_run _ _ _ _ _ E4). rewrite Z.add_0_r in E5.
  rewrite (bind_run _ _ _ _ _ E5), (bind_run _ _ _ _ _ E6), Htot, bytes16_htons by lia. rewrite (bind_run _ _ _ _ _ E7).
  assert (E8' : on_frames (store_at (p_payload b' + 6) (bytes16 order 0)) (set_frames x7 s) = Some (tt, set_frames x8 s)) by (rewrite (bytes16_0 order); exact E8).
  rewrite (bind_run _ _ _ _ _ E8'). unfold ask_inet. rewrite ask_bind, bytes16_htons by done. change (inet_of (set_frames x8 s)) with (inet_of s).
  rewrite (bind_run _ _ _ _ _ E9). unfold set_inet. rewrite update_bind. change (inet_of (set_frames x9 s)) with (inet_of s).
  change (set_inet_of (with_ip_id (u16 (ip_id (inet_of s) + 1)) (inet_of s)) (set_frames x9 s)) with (set_frames x9 s').
  rewrite (bind_run _ _ _ _ _ E10).
  assert (E11' : on_frames (store_at (p_payload b' + 10) (bytes16 order 0)) (set_frames x10 s') = Some (tt, set_frames x11 s')) by (rewrite (bytes16_0 order); exact E11).
  rewrite (bind_run _ _ _ _ _ E11'). exists x11. split; [done|]. split; [|split; [done|]].
  - eapply (inv_frames order s); [done|done|done|apply (ai_frames _ _ _ HI)|exact HP11].
  - intros y f Hy Hr Hf. apply (HK11 (fst (snd (a_frames s))) y f Hy); [|exact Hf]. unfold with_queued. pose proof (count_nonneg (waiting s) y). lia.
Qed.

(** ** Routes *)

(** The interface is up, it has a carrier and an address. *)
Definition usable (f : netif) : Prop := Z.land (flags f) NETIF_FLAG_UP <> 0 /\ Z.land (flags f) NETIF_FLAG_LINK_UP <> 0 /\ ip_addr f <> 0.

(** The destination is on the network of the interface, or it is the other end of a line. *)
Definition reaches (f : netif) (dest : Z) : Prop :=
  usable f /\ (Z.land dest (netmask f) = Z.land (ip_addr f) (netmask f) \/ Z.land (flags f) NETIF_FLAG_BROADCAST = 0 /\ dest = gw f).

Definition group_route s (dest : Z) : Prop := multicast order dest /\ ip4_default_multicast_netif (inet_of s) <> 0.
Definition reached_by s (dest n : Z) : Prop := exists f, a_netifs s !! n = Some f /\ reaches f dest.
Definition default_usable s (dest : Z) : Prop :=
  netif_default (inet_of s) <> 0 /\ ip4_addr1 order dest <> 127 /\ exists f, a_netifs s !! netif_default (inet_of s) = Some f /\ usable f.

(** The interface for a destination: the one for groups, the first that reaches it, the default one, or none. *)
Inductive ip_routed s (dest : Z) : Z -> Prop :=
  | routed_group : group_route s dest -> ip_routed s dest (ip4_default_multicast_netif (inet_of s))
  | routed_link n ns ns' : ~ group_route s dest -> netif_list (inet_of s) = ns ++ n :: ns' -> reached_by s dest n ->
      (forall m, m ∈ ns -> ~ reached_by s dest m) -> ip_routed s dest n
  | routed_default : ~ group_route s dest -> (forall m, m ∈ netif_list (inet_of s) -> ~ reached_by s dest m) -> default_usable s dest ->
      ip_routed s dest (netif_default (inet_of s))
  | routed_none : ~ group_route s dest -> (forall m, m ∈ netif_list (inet_of s) -> ~ reached_by s dest m) -> ~ default_usable s dest -> ip_routed s dest 0.

Lemma first_unique {T} (P : T -> Prop) (l a b a' b' : list T) x y : l = a ++ x :: b -> l = a' ++ y :: b' -> P x -> P y ->
  (forall z, z ∈ a -> ~ P z) -> (forall z, z ∈ a' -> ~ P z) -> x = y.
Proof using.
  intros ->. revert a'. induction a as [|z a IH]; intros [|z' a'] E Hx Hy Ha Ha'; injection E as -> E; [done| | |].
  - by destruct (Ha' z' ltac:(left)).
  - by destruct (Ha y ltac:(left)).
  - apply (IH a' E Hx Hy); intros w Hw; [apply Ha|apply Ha']; by right.
Qed.

Lemma ip_routed_unique s dest n m : ip_routed s dest n -> ip_routed s dest m -> n = m.
Proof using.
  assert (Hin : forall k ns ns', netif_list (inet_of s) = ns ++ k :: ns' -> k ∈ netif_list (inet_of s)) by (intros k ns ns' ->; apply elem_of_app; right; by left).
  intros [G|k ns ns' G NL R F|G F D|G F D] [G'|k' ms ms' G' NL' R' F'|G' F' D'|G' F' D']; try done.
  - by eapply first_unique.
  - by destruct (F' k ltac:(by eapply Hin)).
  - by destruct (F' k ltac:(by eapply Hin)).
  - by destruct (F k' ltac:(by eapply Hin)).
  - by destruct (F k' ltac:(by eapply Hin)).
Qed.

Record inet_ok s : Prop := {
  io_list : forall n, n ∈ netif_list (inet_of s) -> n <> 0 /\ is_Some (a_netifs s !! n);
  io_default : netif_default (inet_of s) = 0 \/ is_Some (a_netifs s !! netif_default (inet_of s));
  io_group : ip4_default_multicast_netif (inet_of s) = 0 \/ is_Some (a_netifs s !! ip4_default_multicast_netif (inet_of s));
  io_id : 0 <= ip_id (inet_of s) < 2 ^ 16
}.

Lemma usable_test f : netif_is_up f && netif_is_link_up f && negb (ip4_addr_isany_val (ip_addr f)) = true <-> usable f.
Proof. unfold usable, netif_is_up, netif_is_link_up, ip4_addr_isany_val, IPADDR_ANY. rewrite !andb_true_iff, !negb_true_iff, !Z.eqb_neq. tauto. Qed.

Lemma route_loop_run s dest ns : (forall n, n ∈ ns -> n <> 0 /\ is_Some (a_netifs s !! n)) -> exists n, route_loop ns dest s = Some (n, s) /\
  (n = 0 /\ (forall m, m ∈ ns -> ~ reached_by s dest m) \/
   n <> 0 /\ exists ns1 ns2, ns = ns1 ++ n :: ns2 /\ reached_by s dest n /\ forall m, m ∈ ns1 -> ~ reached_by s dest m).
Proof.
  induction ns as [|n ns IH]; intros Hns; cbn [route_loop].
  { exists 0. split; [done|]. left. split; [done|]. by intros m ?%not_elem_of_nil. }
  destruct (Hns n ltac:(left)) as [Hn0 [f Hf]]. rewrite (bind_run _ _ _ _ _ (get_netif_run _ _ _ Hf)). pose proof (usable_test f) as Hu.
  assert (Hre : (netif_is_up f && netif_is_link_up f && negb (ip4_addr_isany_val (ip_addr f))) &&
     (ip4_addr_netcmp dest (ip_addr f) (netmask f) || (Z.land (flags f) NETIF_FLAG_BROADCAST =? 0) && ip4_addr_cmp dest (gw f)) = true <-> reaches f dest).
  { unfold reaches. rewrite andb_true_iff, Hu, orb_true_iff, andb_true_iff. unfold ip4_addr_netcmp, ip4_addr_cmp. rewrite !Z.eqb_eq. tauto. }
  assert (Hthis : reached_by s dest n <-> reaches f dest).
  { unfold reached_by. split; [intros (g&Hg&H); by rewrite Hf in Hg; injection Hg as <-|by exists f]. }
  rewrite <- Hthis in Hre. clear Hu Hthis.
  assert (Hskip : ~ reached_by s dest n -> exists x, route_loop ns dest s = Some (x, s) /\
    (x = 0 /\ (forall m, m ∈ n :: ns -> ~ reached_by s dest m) \/
     x <> 0 /\ exists ns1 ns2, n :: ns = ns1 ++ x :: ns2 /\ reached_by s dest x /\ forall m, m ∈ ns1 -> ~ reached_by s dest m)).
  { intros Hno. destruct (IH ltac:(intros m Hm; apply Hns; by right)) as (x&E&[[-> Hx]|(Hx&ns1&ns2&->&Hr&Hbef)]); [exists 0|exists x]; (split; [exact E|]).
    - left. split; [done|]. intros m [->|Hm]%elem_of_cons; [done|by apply Hx].
    - right. split; [done|]. exists (n :: ns1), ns2. split; [done|]. split; [done|]. intros m [->|Hm]%elem_of_cons; [done|by apply Hbef]. }
  destruct (netif_is_up f && _ && _) eqn:Eu; cbn [andb] in Hre; [|apply Hskip; by rewrite <- Hre].
  assert (Hfound : reached_by s dest n -> exists x, (mret n : prog (stack A L Q U) Z) s = Some (x, s) /\
    (x = 0 /\ (forall m, m ∈ n :: ns -> ~ reached_by s dest m) \/
     x <> 0 /\ exists ns1 ns2, n :: ns = ns1 ++ x :: ns2 /\ reached_by s dest x /\ forall m, m ∈ ns1 -> ~ reached_by s dest m)).
  { intros Hr. exists n. split; [done|]. right. split; [done|]. exists [], ns. split; [done|]. split; [done|]. by intros m ?%not_elem_of_nil. }
  destruct (ip4_addr_netcmp _ _ _); cbn [orb] in Hre; [by apply Hfound, Hre|].
  destruct ((Z.land (flags f) NETIF_FLAG_BROADCAST =? 0) && ip4_addr_cmp dest (gw f)); [by apply Hfound, Hre|]. apply Hskip. by rewrite <- Hre.
Qed.

Lemma ip4_route_run s dest : inet_ok s -> 0 <= dest < 2 ^ 32 -> exists n, ip4_route order dest s = Some (n, s) /\ ip_routed s dest n.
Proof.
  intros HO Hdest. unfold ip4_route, ask_inet. rewrite ask_bind. pose proof (ip4_addr_ismulticast_bytes order dest Hdest) as Hm. fold (multicast order dest) in Hm.
  assert (Hg : ip4_addr_ismulticast order dest && negb (ip4_default_multicast_netif (inet_of s) =? 0) = true <-> group_route s dest).
  { unfold group_route. rewrite andb_true_iff, Hm, negb_true_iff, Z.eqb_neq. tauto. }
  destruct (_ && _); [eexists; split; [done|]; by apply routed_group, Hg|]. assert (Hng : ~ group_route s dest) by (by rewrite <- Hg). clear Hg Hm.
  rewrite ask_bind. destruct (route_loop_run s dest _ (io_list _ HO)) as (n&E&Hn). rewrite (bind_run _ _ _ _ _ E). clear E.
  destruct Hn as [[-> Hn]|(Hn0&ns1&ns2&Hl&Hr&Hb)].
  2:{ rewrite (proj2 (Z.eqb_neq n 0)) by done. exists n. split; [done|]. by eapply routed_link. }
  cbn [negb Z.eqb]. rewrite ask_bind. destruct (io_default _ HO) as [Ed|[f Hf]].
  { rewrite Ed. exists 0. split; [done|]. apply routed_none; [done|done|]. by intros [? _]. }
  destruct (Z.eqb_spec (netif_default (inet_of s)) 0) as [Ed|Ed].
  { exists 0. split; [done|]. apply routed_none; [done|done|]. by intros [? _]. }
  rewrite (bind_run _ _ _ _ _ (get_netif_run _ _ _ Hf)). pose proof (usable_test f) as Hu. pose proof (ip4_addr_isloopback_bytes order dest Hdest) as Hlo.
  assert (Hd : negb (netif_is_up f) || negb (netif_is_link_up f) || ip4_addr_isany_val (ip_addr f) || ip4_addr_isloopback order dest = false <-> default_usable s dest).
  { rewrite !orb_false_iff, !negb_false_iff. rewrite !andb_true_iff, negb_true_iff in Hu. unfold default_usable. split.
    - intros (((H1&H2)&H3)&H4). split; [done|]. split; [intros H; apply Hlo in H; congruence|]. exists f. split; [done|]. by apply Hu.
    - intros (_&H1&g&Hg&H2). rewrite Hf in Hg. injection Hg as <-. apply Hu in H2 as [[H2 H3] H4]. split_and!; [done|done|done|]. apply not_true_is_false. by rewrite Hlo. }
  destruct (_ || _); eexists; (split; [done|]); [apply routed_none|apply routed_default]; try done; [|by apply Hd]. by rewrite <- Hd.
Qed.

(** ** Sending *)

(** The address that stands for the interface is the one of the interface. *)
Definition source_used (src : option Z) (f : netif) : Z := if default 0 src =? 0 then ip_addr f else default 0 src.

(** The packet gets its header and is given to the address resolution. *)
Definition datagram_out s (refs : Z -> Z) (n : Z) (f : netif) (src : option Z) (dest ttl tos proto p : Z) (b : pbuf) (ds : list Z) (r : err_t) s' : Prop :=
  exists s1 pk, same_rest s s1 /\ sent (snd (a_frames s1)) = sent (snd (a_frames s)) /\ ip_id (inet_of s1) = u16 (ip_id (inet_of s) + 1) /\
    room pk = has_space (IP_HLEN + SIZEOF_ETH_HDR) p b /\
    data pk = ip_header order tos (IP_HLEN + Z.of_nat (length ds)) (ip_id (inet_of s)) ttl proto (source_used src f) dest ++ ds /\
    delivered order s1 refs n f dest p pk r s'.

Lemma has_space_more p b : has_room p (with_lens (p_payload b - IP_HLEN) (p_tot_len b + IP_HLEN) (p_len b + IP_HLEN) b) = has_space (IP_HLEN + SIZEOF_ETH_HDR) p b.
Proof.
  unfold has_room, has_space, HEADER, SIZEOF_ETH_HDR, SIZEOF_STRUCT_PBUF, IP_HLEN. change (contiguous (with_lens _ _ _ b)) with (contiguous b). cbn [with_lens p_payload p_tot_len].
  f_equal; [f_equal|]; apply eq_true_iff_eq; rewrite ?Z.leb_le, ?Z.ltb_lt; lia.
Qed.

Lemma ip4_output_if_run s refs n f p b bs ds src dest ttl tos proto : arp_inv s refs -> inet_ok s -> a_netifs s !! n = Some f ->
  user_packet s refs p b bs ds -> refs p < MAX_REFS -> byte_ok ttl -> byte_ok tos -> byte_ok proto -> 0 <= default 0 src < 2 ^ 32 -> 0 <= dest < 2 ^ 32 ->
  exists r s', ip4_output_if order p src (Some dest) ttl tos proto n s = Some (r, s') /\ arp_inv s' refs /\ users_kept order p s s' refs /\
    if has_space IP_HLEN p b then datagram_out s refs n f src dest ttl tos proto p b ds r s' else r = ERR_BUF /\ s' = s.
Proof.
  intros HI HO Hf HU Hmax Httl Htos Hproto Hsrc Hdest. unfold ip4_output_if, ip4_output_if_opt. rewrite (bind_run _ _ _ _ _ (get_netif_run _ _ _ Hf)). cbv zeta.
  destruct (ai_netifs _ _ _ HI _ _ Hf) as (_&_&Hipf&_). change IPADDR_ANY with 0. unfold ip4_addr_isany_val. change IPADDR_ANY with 0.
  set (src' := if default 0 src =? 0 then _ else _). assert (Es : default IPADDR_ANY src' = source_used src f).
  { unfold src', source_used. by destruct (default 0 src =? 0). }
  assert (Hs : 0 <= default IPADDR_ANY src' < 2 ^ 32) by (rewrite Es; unfold source_used; by destruct (default 0 src =? 0)). clearbody src'.
  unfold ip4_output_if_opt_src. cbv zeta. change (Z.of_nat (length [])) with 0. change (IP_HLEN_MAX - IP_HLEN <? 0) with false. change (0 =? 0) with true. cbv iota. rewrite ret_bind. cbn [negb]. cbv iota.
  pose proof (put_ip_header_run s refs p b bs ds src' dest ttl tos proto HI HU Httl Htos Hproto Hs Hdest (io_id _ HO)) as Hput.
  destruct (has_space IP_HLEN p b); [|rewrite (bind_run _ _ _ _ _ Hput); exists ERR_BUF, s; split_and!; try done; by intros y g _ _ Hg].
  destruct Hput as (x'&Eput&HI1&HU1&HK1). rewrite (bind_run _ _ _ _ _ Eput). cbn [negb]. cbv iota. set (s1 := set_inet_of _ _) in *. set (b' := with_lens _ _ _ b) in *.
  destruct (etharp_output_run order s1 refs n f dest p _ HI1 Hf Hdest (conj (proj1 HU) Hmax) (user_packet_packet _ _ _ _ _ _ HU1)) as (r&s'&E&HI'&_&HK&Hd).
  exists r, s'. split; [exact E|]. split; [done|]. split; [by eapply users_kept_trans|]. eexists s1, _. split; [done|]. split; [done|]. split; [done|].
  split; [|split; [|exact Hd]]; [apply has_space_more|]. cbn [data pkt_of]. by rewrite Es.
Qed.

End send.
