(* ===== verification/Ip4Receive.v ===== *)
(** * Receiving a datagram: from the frame to the protocol *)
From S2P Require Import Prelude Mem Memp Pbuf PbufProofs PbufRefs PbufHistory LwipDef LwipDefProofs IpAddr IpAddrProofs EthFrames Etharp FrameLaws EtharpInv EtharpOps EtharpOutput EtharpInput Ip4 Ip4Send.
Open Scope Z_scope.

Section arrived.
Context {A : Type} `{!PbufMemory A} (pool_size : memp_t -> Z) `{!PbufMemoryOk A pool_size}.
Implicit Types (x : pstate A).

(** ** A packet that is on its way up *)

(** It holds [ds]; its first buffer holds [head] bytes of them from [start] on. *)
Record arrived x (refs : Z -> Z) (p : Z) (ds : list Z) (start head : Z) : Prop := {
  ar_refs : exists H, refs_ok pool_size x refs H;
  ar_held : 0 < refs p;
  ar_bytes : bytes_ok (bytes x);
  ar_range : 0 <= start /\ start + head < 2 ^ 32;
  ar_chain : exists b bs, chain (pbufs x) p ((p, b) :: bs) /\ lens_ok ((p, b) :: bs) /\ read (addrs ((p, b) :: bs)) (bytes x) = Some ds /\
    p_payload b = start /\ p_len b = head
}.

Lemma arrived_buffer x refs p ds st hd : arrived x refs p ds st hd -> exists b, pbufs x !! p = Some b /\ p_payload b = st /\ p_len b = hd /\
  p_tot_len b = Z.of_nat (length ds) /\ 0 <= hd <= Z.of_nat (length ds) /\ Z.of_nat (length ds) < 2 ^ 16 /\ Forall byte_ok ds.
Proof.
  intros [[H HR] Hp Hok Hrg (b&bs&Hc&Hl&Hr&<-&<-)]. exists b. pose proof Hc as (_&_&Hb&_). pose proof (read_length _ _ _ Hr) as Hlen.
  pose proof (addrs_length _ Hl) as Ha. pose proof Hl as (L1&L2&L3&L4). pose proof (total_nneg _ L4). cbn [total] in Ha.
  split_and!; try done; try lia. by eapply read_bytes_ok.
Qed.

Lemma arrived_read x refs p ds st hd k n : arrived x refs p ds st hd -> Z.of_nat (k + n) <= hd -> load_bytes n (st + Z.of_nat k) (bytes x) = Some (take n (drop k ds)).
Proof.
  intros [_ _ _ _ (b&bs&Hc&Hl&Hr&<-&<-)] Hk. cbn [addrs] in Hr. apply read_app_Some in Hr as (d1&d2&->&H1&_). pose proof Hl as (L1&_).
  pose proof (read_length _ _ _ H1) as Hl1. unfold spots in Hl1, H1. rewrite length_seqZ in Hl1. rewrite load_bytes_read.
  rewrite (read_sub _ _ (Z.of_nat k) (Z.of_nat n) _ _ H1) by lia. rewrite !Nat2Z.id. f_equal. rewrite (drop_app_le _ _ k) by lia.
  by rewrite take_app_le by (rewrite length_drop; lia).
Qed.

(** A change of the flags. *)
Lemma arrived_flags x refs p ds st hd g b : arrived x refs p ds st hd -> pbufs x !! p = Some b -> same_links b (g b) ->
  p_payload (g b) = p_payload b -> p_len (g b) = p_len b -> p_tot_len (g b) = p_tot_len b ->
  exists x', set_pb p g x = Some (tt, x') /\ arrived x' refs p ds st hd.
Proof.
  intros [[H HR] Hp Hok Hrg (c&bs&Hc&Hl&Hr&<-&<-)] Hb HL E1 E2 E3. rewrite (set_pb_run _ _ _ _ Hb). eexists. split; [done|].
  pose proof Hc as (_&Hp0&Hb'&Hc'). rewrite Hb in Hb'. injection Hb' as <-. pose proof (chain_nodup _ _ _ Hc) as Hnd. cbn in Hnd. apply NoDup_cons in Hnd as [Hnd _].
  split; cbn [pbufs bytes alloc]; [|done|done|done|].
  - exists H. apply (refs_ok_data pool_size x refs H p b (g b) (bytes x) HR Hb HL). intros n _ [B1 B2 B3 B4].
    destruct (same_links_source _ _ HL) as (_&S2&S3). split; rewrite ?S2, ?S3, ?E1, ?E2, ?E3; done.
  - exists (g b), bs. split; [|split; [|split; [|by rewrite E1, E2]]].
    + destruct HL as (Hn&_). cbn. rewrite lookup_insert_eq, Hn. split_and!; [done|done|done|]. eapply pchain_frame; [|exact Hc']. intros y Hy. apply lookup_insert_ne. by intros <-.
    + cbn in Hl |- *. by rewrite E2, E3.
    + cbn [addrs] in Hr |- *. unfold spots in *. by rewrite E1, E2.
Qed.

(** The header is taken off. *)
Lemma arrived_remove x refs p ds st hd k : arrived x refs p ds st hd -> 0 < k <= hd -> exists x', pbuf_remove_header p k x = Some (0, x') /\
  bytes x' = bytes x /\ arrived x' refs p (drop (Z.to_nat k) ds) (st + k) (hd - k).
Proof.
  intros HA Hk. destruct (arrived_buffer _ _ _ _ _ _ HA) as (b&Hb&Hst&Hhd&Htot&Hhl&H16&_). destruct HA as [[H HR] Hp Hok Hrg (c&bs&Hc&Hl&Hr&_&_)].
  pose proof Hc as (_&Hp0&Hb'&Hc'). rewrite Hb in Hb'. injection Hb' as <-. unfold pbuf_remove_header. rewrite (proj2 (Z.eqb_neq p 0)) by done.
  rewrite (proj2 (Z.ltb_ge 0xFFFF k)), (proj2 (Z.eqb_neq k 0)) by lia. cbn [orb]. rewrite (bind_run _ _ _ _ _ (pb_run _ _ _ Hb)), (u16_small k) by lia. cbv zeta.
  rewrite (proj2 (Z.ltb_ge _ _)) by lia. rewrite (bind_run _ _ _ _ _ (set_pb_run _ _ _ _ Hb)), !u16_small by lia. eexists. split; [done|]. split; [done|].
  pose proof (chain_nodup _ _ _ Hc) as Hnd. cbn in Hnd. apply NoDup_cons in Hnd as [Hnd _]. pose proof Hl as (L1&L2&L3&L4). pose proof (total_nneg _ L4).
  rewrite u32_small by lia. split; cbn [pbufs bytes alloc]; [|done|done|lia|].
  - exists H. apply (window_ok pool_size x refs H p b _ _ _ HR Hb); [lia|lia|]. intros n Hct Hn [D1 D2]. unfold SIZEOF_STRUCT_PBUF in *. lia.
  - exists (with_lens (p_payload b + k) (p_tot_len b - k) (p_len b - k) b), bs. split; [|split; [|split; [|cbn [with_lens p_payload p_len]; lia]]].
    + cbn. rewrite lookup_insert_eq. split_and!; [done|done|done|]. eapply pchain_frame; [|exact Hc']. intros y Hy. apply lookup_insert_ne. by intros <-.
    + cbn. split_and!; [lia|lia|lia|done].
    + cbn [addrs] in Hr |- *. apply read_app_Some in Hr as (d1&d2&->&H1&H2). pose proof (read_length _ _ _ H1) as Hl1. unfold spots in Hl1, H1. rewrite length_seqZ in Hl1.
      apply read_app_Some. exists (drop (Z.to_nat k) d1), d2. split; [by rewrite drop_app_le by lia|]. split; [|done]. unfold spots. cbn [with_lens p_payload p_len].
      rewrite (read_sub _ _ k (p_len b - k) _ _ H1) by lia. f_equal. apply take_ge. rewrite length_drop. lia.
Qed.

(** The end is cut off. *)
Lemma arrived_realloc x refs p ds st hd k : arrived x refs p ds st hd -> 0 <= k < Z.of_nat (length ds) -> exists x', pbuf_realloc p k x = Some (tt, x') /\
  arrived x' refs p (take (Z.to_nat k) ds) st (Z.min hd k).
Proof.
  intros HA Hk. destruct (arrived_buffer _ _ _ _ _ _ HA) as (b&_&_&_&_&_&_&_). destruct HA as [[H HR] Hp Hok Hrg (c&bs&Hc&Hl&Hr&E1&E2)].
  pose proof (addrs_length _ Hl) as Ha. rewrite <- (read_length _ _ _ Hr) in Ha.
  destruct (pbuf_realloc_run pool_size x refs H p _ k HR Hc Hl ltac:(lia)) as (x'&H'&bs'&E&HR'&Hby&Hc'&Hl'&Ht&Had&y&[a c']&ys&ys'&Ey&->&E3&E4).
  exists x'. split; [done|]. injection Ey as <- <-. cbn [fst snd] in *. assert (a = p) as -> by by destruct Hc'.
  split; [by exists H'|done|by rewrite Hby|lia|]. exists c', ys'. split; [done|]. split; [done|]. split; [|split; congruence].
  rewrite Had, Hby. by apply read_take.
Qed.

Lemma arrived_free x refs p ds st hd : arrived x refs p ds st hd -> exists r x' H', pbuf_free p x = Some (r, x') /\ refs_ok pool_size x' (bump (-1) p refs) H'.
Proof. intros [[H HR] Hp _ _ _]. destruct (pbuf_free_run pool_size x refs H p HR Hp) as (x'&H'&E&HR'&_). eauto 10. Qed.
End arrived.

(** ** The fields of a datagram, as RFC 791 draws them *)

Definition octet (ds : list Z) (k : nat) : Z := default 0 (ds !! k).
Definition half_at (ds : list Z) (k : nat) : Z := 256 * octet ds k + octet ds (S k).
Definition ip_version (ds : list Z) : Z := octet ds 0 / 16.
Definition ip_hlen (ds : list Z) : Z := 4 * (octet ds 0 mod 16).
Definition ip_len (ds : list Z) : Z := half_at ds 2.
Definition ip_fragment (ds : list Z) : Z := half_at ds 6 mod 2 ^ 14.
Definition ip_proto (ds : list Z) : Z := octet ds 9.
Definition ip_src (order : byte_order) (ds : list Z) : Z := word order (take 4 (drop 12 ds)).
Definition ip_dest (order : byte_order) (ds : list Z) : Z := word order (take 4 (drop 16 ds)).

(** The datagram is whole, its header lies in the first buffer, which holds [head] bytes, and it is no fragment. *)
Record well_formed (ds : list Z) (head : Z) : Prop := {
  wf_version : ip_version ds = 4;
  wf_hlen : IP_HLEN <= ip_hlen ds <= head /\ ip_hlen ds <= ip_len ds;
  wf_len : ip_len ds <= Z.of_nat (length ds);
  wf_fragment : ip_fragment ds = 0
}.

#[export] Instance well_formed_dec ds head : Decision (well_formed ds head).
Proof.
  destruct (decide (ip_version ds = 4 /\ (IP_HLEN <= ip_hlen ds <= head /\ ip_hlen ds <= ip_len ds) /\ ip_len ds <= Z.of_nat (length ds) /\ ip_fragment ds = 0)) as [H|H].
  - left. by destruct H as (?&?&?&?).
  - right. intros []. tauto.
Defined.

Lemma lookup_octet ds k : (k < length ds)%nat -> ds !! k = Some (octet ds k).
Proof. intros Hk. unfold octet. by destruct (lookup_lt_is_Some_2 _ _ Hk) as [v ->]. Qed.

Lemma take_1_drop ds k : (k < length ds)%nat -> take 1 (drop k ds) = [octet ds k].
Proof. intros Hk. by rewrite (drop_S ds (octet ds k) k) by by apply lookup_octet. Qed.

Lemma take_2_drop ds k : (S k < length ds)%nat -> take 2 (drop k ds) = [octet ds k; octet ds (S k)].
Proof. intros Hk. rewrite (drop_S ds (octet ds k) k) by (apply lookup_octet; lia). by rewrite (drop_S ds (octet ds (S k)) (S k)) by by apply lookup_octet. Qed.

Lemma take_4_drop ds k : (k + 4 <= length ds)%nat -> take 4 (drop k ds) = [octet ds k; octet ds (S k); octet ds (S (S k)); octet ds (S (S (S k)))].
Proof. intros Hk. do 4 (rewrite (drop_S ds (octet ds _) _) by (apply lookup_octet; lia)). done. Qed.

Lemma octet_ok ds k : Forall byte_ok ds -> byte_ok (octet ds k).
Proof. intros Hd. unfold octet. destruct (ds !! k) as [v|] eqn:E; [by eapply Forall_lookup_1|]. by split. Qed.

Lemma half_at_range ds k : Forall byte_ok ds -> 0 <= half_at ds k < 2 ^ 16.
Proof. intros Hd. pose proof (octet_ok ds k Hd). pose proof (octet_ok ds (S k) Hd). unfold half_at, byte_ok in *. lia. Qed.

(** What is read of the first byte, and of the halves. *)
Lemma version_bits v : byte_ok v -> Z.shiftr v 4 = v / 16 /\ u8 (Z.land v 0x0f * 4) = 4 * (v mod 16).
Proof.
  intros Hv. unfold byte_ok in Hv. rewrite Z.shiftr_div_pow2 by lia. split; [done|]. change 0x0f with (Z.ones 4). rewrite Z.land_ones by lia. change (2 ^ 4) with 16.
  rewrite u8_small; dlia.
Qed.

Lemma ntohs_host order a b : byte_ok a -> byte_ok b -> lwip_ntohs order (host16 order a b) = 256 * a + b.
Proof.
  unfold byte_ok. intros Ha Hb. unfold lwip_ntohs. destruct order; cbn [host16 lwip_htons]; [rewrite PP_HTONS_spec by lia; dlia|rewrite u16_small; lia].
Qed.

Lemma fragment_bits order a b : byte_ok a -> byte_ok b ->
  Z.land (host16 order a b) (lwip_htons order (Z.lor IP_OFFMASK IP_MF)) = 0 <-> (256 * a + b) mod 2 ^ 14 = 0.
Proof.
  unfold byte_ok. intros Ha Hb. change (Z.lor IP_OFFMASK IP_MF) with (Z.ones 14). destruct order; cbn [host16].
  - change (lwip_htons LITTLE_ENDIAN (Z.ones 14)) with (Z.lor (Z.ones 6) (Z.shiftl (Z.ones 8) 8)). rewrite Z.land_lor_distr_r, Z.lor_eq_0_iff.
    rewrite Z.land_ones, land_field by lia. change (2 ^ 6) with 64. change (2 ^ 8) with 256. change (2 ^ 14) with 16384. dlia.
  - change (lwip_htons BIG_ENDIAN (Z.ones 14)) with (Z.ones 14). rewrite Z.land_ones by lia. done.
Qed.

Section receive.
Context (order : byte_order) {A L Q U : Type} `{!PbufMemory A} (pool_size : memp_t -> Z) `{!PbufMemoryOk A pool_size} `{!Link A L} `{!ArpQueue Q} `{!Upper A L Q U}.
#[local] Set Default Proof Using "All".
Implicit Types (s : stack A L Q U).

Abbreviation arrived := (arrived pool_size).

(** The packet of [s] that is on its way up. *)
Definition holds_up s (refs : Z -> Z) (p : Z) (ds : list Z) (st hd : Z) : Prop := arrived (fst (a_frames s)) refs p ds st hd.

Lemma read_up s refs p ds st hd k n : holds_up s refs p ds st hd -> Z.of_nat (k + n) <= hd ->
  on_frames (load_at (st + Z.of_nat k) n) s = Some (take n (drop k ds), s).
Proof.
  intros HA Hk. unfold on_frames, load_at, on_packets, try_ask. rewrite (arrived_read _ _ _ _ _ _ _ k n HA Hk). by destruct s as [? ? ? [? ?] ?].
Qed.

Lemma buffer_up s refs p ds st hd : holds_up s refs p ds st hd -> exists b, on_frames (on_packets (pb p)) s = Some (b, s) /\ pbufs (fst (a_frames s)) !! p = Some b /\
  p_payload b = st /\ p_len b = hd /\ p_tot_len b = Z.of_nat (length ds).
Proof.
  intros HA. destruct (arrived_buffer _ _ _ _ _ _ _ HA) as (b&Hb&H1&H2&H3&_). exists b. split; [|done].
  by rewrite (on_packets_stack _ s _ _ (pb_run _ _ _ Hb)), set_frames_id.
Qed.

Lemma flags_up s refs p ds st hd g : holds_up s refs p ds st hd ->
  (forall b, same_links b (g b) /\ p_payload (g b) = p_payload b /\ p_len (g b) = p_len b /\ p_tot_len (g b) = p_tot_len b) ->
  exists x, on_frames (on_packets (set_pb p g)) s = Some (tt, set_frames x s) /\ holds_up (set_frames x s) refs p ds st hd.
Proof.
  intros HA Hg. destruct (arrived_buffer _ _ _ _ _ _ _ HA) as (b&Hb&_). destruct (Hg b) as (G1&G2&G3&G4).
  destruct (arrived_flags _ _ _ _ _ _ _ g b HA Hb G1 G2 G3 G4) as (x&E&HA'). exists x. split; [exact (on_packets_stack _ s _ _ E)|exact HA'].
Qed.

Lemma when_flags_up s refs p ds st hd g (c : bool) : holds_up s refs p ds st hd ->
  (forall b, same_links b (g b) /\ p_payload (g b) = p_payload b /\ p_len (g b) = p_len b /\ p_tot_len (g b) = p_tot_len b) ->
  exists x, when c (on_frames (on_packets (set_pb p g))) s = Some (tt, set_frames x s) /\ holds_up (set_frames x s) refs p ds st hd.
Proof.
  intros HA Hg. destruct c; cbn [when]; [by apply flags_up|]. exists (fst (a_frames s)). by rewrite set_frames_id.
Qed.

Lemma mark_packet_run s refs p ds st hd dst : holds_up s refs p ds st hd ->
  exists x, mark_packet p dst s = Some (tt, set_frames x s) /\ holds_up (set_frames x s) refs p ds st hd.
Proof.
  intros HA. assert (Hskip : exists x, (mret tt : prog (stack A L Q U) unit) s = Some (tt, set_frames x s) /\ holds_up (set_frames x s) refs p ds st hd).
  { exists (fst (a_frames s)). by rewrite set_frames_id. }
  unfold mark_packet. destruct dst as [|d0 [|d1 [|d2 dst]]]; try exact Hskip. destruct (Z.land d0 1 =? 0); cbn [negb when]; [exact Hskip|].
  destruct (d0 =? 1); by apply when_flags_up.
Qed.

Lemma remove_up s refs p ds st hd k : holds_up s refs p ds st hd -> 0 < k <= hd ->
  exists x, on_frames (on_packets (pbuf_remove_header p k)) s = Some (0, set_frames x s) /\ bytes x = bytes (fst (a_frames s)) /\
    holds_up (set_frames x s) refs p (drop (Z.to_nat k) ds) (st + k) (hd - k).
Proof. intros HA Hk. destruct (arrived_remove _ _ _ _ _ _ _ k HA Hk) as (x&E&Hb&HA'). exists x. split; [exact (on_packets_stack _ s _ _ E)|by split]. Qed.

(** A frame with a datagram: the layer above gets the packet without the header of the frame. *)
Lemma ethernet_input_run s refs n f p dst src pay st hd input index : a_netifs s !! n = Some f -> Z.land (flags f) NETIF_FLAG_ETHARP <> 0 ->
  holds_up s refs p (eth_frame dst src ETHTYPE_IP pay) st hd -> hw_ok dst -> hw_ok src -> 14 < hd ->
  exists x, holds_up (set_frames x s) refs p pay (st + 14) (hd - 14) /\
    ethernet_input order input index p n s = (_ ← input p n; mret ERR_OK) (set_frames x s).
Proof.
  intros Hf Hfl HA Hdst Hsrc Hhd. unfold ethernet_input. destruct (buffer_up _ _ _ _ _ _ HA) as (b&Eb&_&Hpay&Hlen&_). rewrite (bind_run _ _ _ _ _ Eb). cbv zeta.
  change SIZEOF_ETH_HDR with 14. rewrite Hlen, Hpay, (proj2 (Z.leb_gt hd 14)) by lia.
  destruct (when_flags_up _ _ _ _ _ _ (with_if_idx (index n)) (p_if_idx b =? NETIF_NO_INDEX) HA ltac:(done)) as (x1&E1&HA1). rewrite (bind_run _ _ _ _ _ E1).
  pose proof (read_up _ _ _ _ _ _ 12 2 HA1 ltac:(lia)) as E2. change (Z.of_nat 12) with 12 in E2. rewrite (bind_run _ _ _ _ _ E2).
  pose proof (read_up _ _ _ _ _ _ 0 6 HA1 ltac:(lia)) as E3. change (Z.of_nat 0) with 0 in E3. rewrite Z.add_0_r in E3. rewrite (bind_run _ _ _ _ _ E3).
  destruct (mark_packet_run _ _ _ _ _ _ (take 6 (drop 0 (eth_frame dst src ETHTYPE_IP pay))) HA1) as (x2&E4&HA2). rewrite (bind_run _ _ _ _ _ E4).
  change (set_frames x2 (set_frames x1 s)) with (set_frames x2 s) in *. rewrite (bind_run _ _ _ _ _ (get_netif_run (set_frames x2 s) n f Hf)).
  assert (Et : take 2 (drop 12 (eth_frame dst src ETHTYPE_IP pay)) = word16 ETHTYPE_IP).
  { unfold eth_frame. rewrite app_assoc, drop_app_length' by (rewrite length_app, (proj1 Hdst), (proj1 Hsrc); done). done. }
  rewrite Et, !bytes16_htons by (unfold ETHTYPE_IP, ETHTYPE_ARP; lia). rewrite bool_decide_eq_true_2 by done. rewrite (proj2 (Z.eqb_neq _ 0)) by done.
  destruct (remove_up _ _ _ _ _ _ 14 HA2 ltac:(lia)) as (x3&E5&_&HA3). rewrite (bind_run _ _ _ _ _ E5). change (set_frames x3 (set_frames x2 s)) with (set_frames x3 s) in *.
  exists x3. split; [|done]. unfold eth_frame in HA3. change (Z.to_nat 14) with 14%nat in HA3. rewrite !app_assoc, drop_app_length' in HA3; [done|].
  rewrite !length_app, (proj1 Hdst), (proj1 Hsrc). done.
Qed.

(** ** The checks *)

Lemma load_byte_up s refs p ds st hd k : holds_up s refs p ds st hd -> Z.of_nat k < hd -> load_byte (st + Z.of_nat k) s = Some (octet ds k, s).
Proof.
  intros HA Hk. unfold load_byte. rewrite (bind_run _ _ _ _ _ (read_up _ _ _ _ _ _ k 1 HA ltac:(lia))).
  destruct (arrived_buffer _ _ _ _ _ _ _ HA) as (b&_&_&_&_&Hhd&_). by rewrite take_1_drop by lia.
Qed.

Lemma load_half_up s refs p ds st hd k : holds_up s refs p ds st hd -> Z.of_nat (S k) < hd ->
  load_half order (st + Z.of_nat k) s = Some (host16 order (octet ds k) (octet ds (S k)), s).
Proof.
  intros HA Hk. unfold load_half. rewrite (bind_run _ _ _ _ _ (read_up _ _ _ _ _ _ k 2 HA ltac:(lia))).
  destruct (arrived_buffer _ _ _ _ _ _ _ HA) as (b&_&_&_&_&Hhd&_). by rewrite take_2_drop by lia.
Qed.

Lemma load_word_up s refs p ds st hd k : holds_up s refs p ds st hd -> Z.of_nat (k + 4) <= hd -> load_word order (st + Z.of_nat k) s = Some (word order (take 4 (drop k ds)), s).
Proof.
  intros HA Hk. unfold load_word. rewrite (bind_run _ _ _ _ _ (read_up _ _ _ _ _ _ k 4 HA ltac:(lia))).
  destruct (arrived_buffer _ _ _ _ _ _ _ HA) as (b&_&_&_&_&Hhd&_). by rewrite take_4_drop by lia.
Qed.

(** Only packets, and what is known of the datagram, have changed. *)
Definition same_stack s s' : Prop := same_rest s s' /\ fst (snd (a_frames s')) = fst (snd (a_frames s)) /\ netif_list (inet_of s') = netif_list (inet_of s) /\ transport (inet_of s') = transport (inet_of s).

(** The packet has been given back. *)
Definition dropped s (refs : Z -> Z) (p : Z) s' : Prop := same_stack s s' /\ exists H, refs_ok pool_size (fst (a_frames s')) (bump (-1) p refs) H.

Lemma drop_up s s1 refs p ds st hd : holds_up s1 refs p ds st hd -> same_stack s s1 ->
  exists s', (_ ← release_packet p; mret ERR_OK) s1 = Some (ERR_OK, s') /\ dropped s refs p s'.
Proof.
  intros HA HS. destruct (arrived_free _ _ _ _ _ _ _ HA) as (r&x&H&E&HR). pose proof (on_packets_stack _ s1 _ _ E) as E1.
  unfold release_packet. rewrite (bind_run _ _ _ _ _ E1). exists (set_frames x s1). split; [done|]. split; [exact HS|by exists H].
Qed.

Lemma trim_up s refs p ds st hd k : holds_up s refs p ds st hd -> 0 <= k ->
  exists x, when (k <? Z.of_nat (length ds)) (on_frames (on_packets (pbuf_realloc p k))) s = Some (tt, set_frames x s) /\
    holds_up (set_frames x s) refs p (take (Z.to_nat k) ds) st (Z.min hd k).
Proof.
  intros HA Hk. destruct (Z.ltb_spec k (Z.of_nat (length ds))) as [Hlt|Hge]; cbn [when].
  - destruct (arrived_realloc _ _ _ _ _ _ _ k HA ltac:(lia)) as (x&E&HA'). exists x. split; [exact (on_packets_stack _ s _ _ E)|exact HA'].
  - exists (fst (a_frames s)). rewrite set_frames_id. split; [done|]. destruct (arrived_buffer _ _ _ _ _ _ _ HA) as (b&_&_&_&_&Hhd&_).
    by rewrite take_ge, Z.min_l by lia.
Qed.

(** ** The interface that a datagram is for *)

Definition accepts (f : netif) (dest : Z) : Prop := Z.land (flags f) NETIF_FLAG_UP <> 0 /\ ip_addr f <> 0 /\ (dest = ip_addr f \/ broadcast f dest).
Definition accepted_by s (dest n : Z) : Prop := exists f, a_netifs s !! n = Some f /\ accepts f dest.

(** The one where it came in, the first other one that takes it, or none. *)
Inductive ip_accepted s (inp dest : Z) : Z -> Prop :=
  | accepted_here : accepted_by s dest inp -> ip_accepted s inp dest inp
  | accepted_other n ns ns' : ~ accepted_by s dest inp -> ip4_addr1 order dest <> 127 -> netif_list (inet_of s) = ns ++ n :: ns' -> n <> inp -> accepted_by s dest n ->
      (forall m, m ∈ ns -> m <> inp -> ~ accepted_by s dest m) -> ip_accepted s inp dest n
  | accepted_none : ~ accepted_by s dest inp -> (ip4_addr1 order dest = 127 \/ forall m, m ∈ netif_list (inet_of s) -> m <> inp -> ~ accepted_by s dest m) ->
      ip_accepted s inp dest 0.

Lemma ip4_input_accept_run s n f dest : a_netifs s !! n = Some f -> current_iphdr_dest (ip_data (inet_of s)) = dest -> 0 <= dest < 2 ^ 32 ->
  exists a, ip4_input_accept n s = Some (a, s) /\ (a = true <-> accepted_by s dest n).
Proof.
  intros Hf Hd Hdest. unfold ip4_input_accept, ask_inet. rewrite (bind_run _ _ _ _ _ (get_netif_run _ _ _ Hf)), ask_bind, Hd. eexists. split; [done|].
  pose proof (broadcast_test f dest Hdest) as Hb.
  assert (Ht : netif_is_up f && negb (ip4_addr_isany_val (ip_addr f)) && (ip4_addr_cmp dest (ip_addr f) || ip4_addr_isbroadcast_u32 dest f) = true <-> accepts f dest).
  { rewrite !andb_true_iff, orb_true_iff, Hb. unfold accepts, netif_is_up, ip4_addr_isany_val, IPADDR_ANY, ip4_addr_cmp. rewrite !negb_true_iff, !Z.eqb_neq, Z.eqb_eq. tauto. }
  rewrite Ht. unfold accepted_by. split; [by exists f|]. intros (g&Hg&Ha). rewrite Hf in Hg. by injection Hg as <-.
Qed.

Lemma accept_loop_run s inp dest ns : (forall n, n ∈ ns -> n <> 0 /\ is_Some (a_netifs s !! n)) -> current_iphdr_dest (ip_data (inet_of s)) = dest -> 0 <= dest < 2 ^ 32 ->
  exists n, accept_loop ns inp s = Some (n, s) /\
    (n = 0 /\ (forall m, m ∈ ns -> m <> inp -> ~ accepted_by s dest m) \/
     n <> 0 /\ exists ns1 ns2, ns = ns1 ++ n :: ns2 /\ n <> inp /\ accepted_by s dest n /\ forall m, m ∈ ns1 -> m <> inp -> ~ accepted_by s dest m).
Proof.
  intros Hns Hd Hdest. induction ns as [|n ns IH]; cbn [accept_loop].
  { exists 0. split; [done|]. left. split; [done|]. by intros m ?%not_elem_of_nil. }
  destruct (IH ltac:(intros m Hm; apply Hns; by right)) as (x&E&Hx). clear IH. destruct (Hns n ltac:(left)) as [Hn0 [f Hf]].
  assert (Hskip : (n <> inp -> ~ accepted_by s dest n) -> exists y, accept_loop ns inp s = Some (y, s) /\
    (y = 0 /\ (forall m, m ∈ n :: ns -> m <> inp -> ~ accepted_by s dest m) \/
     y <> 0 /\ exists ns1 ns2, n :: ns = ns1 ++ y :: ns2 /\ y <> inp /\ accepted_by s dest y /\ forall m, m ∈ ns1 -> m <> inp -> ~ accepted_by s dest m)).
  { intros Hno. exists x. split; [exact E|]. destruct Hx as [[-> Hx]|(Hx0&ns1&ns2&->&Hne&Hr&Hbef)]; [left|right]; (split; [done|]).
    - intros m [->|Hm]%elem_of_cons; [done|by apply Hx].
    - exists (n :: ns1), ns2. split; [done|]. split; [done|]. split; [done|]. intros m [->|Hm]%elem_of_cons; [done|by apply Hbef]. }
  destruct (Z.eqb_spec n inp) as [->|Hne]; [by apply Hskip|].
  destruct (ip4_input_accept_run s n f dest Hf Hd Hdest) as (a&Ea&Ha). rewrite (bind_run _ _ _ _ _ Ea). destruct a.
  - exists n. split; [done|]. right. split; [done|]. exists [], ns. split; [done|]. split; [done|]. split; [by apply Ha|]. by intros m ?%not_elem_of_nil.
  - apply Hskip. intros _ H. by apply Ha in H.
Qed.

(** Datagrams for one host or for all. *)
Lemma match_netif_run s inp f dest : a_netifs s !! inp = Some f -> (forall n, n ∈ netif_list (inet_of s) -> n <> 0 /\ is_Some (a_netifs s !! n)) ->
  current_iphdr_dest (ip_data (inet_of s)) = dest -> 0 <= dest < 2 ^ 32 -> ~ multicast order dest ->
  exists n, match_netif order inp s = Some ((n, true), s) /\ ip_accepted s inp dest n.
Proof.
  intros Hf Hns Hd Hdest Hm. unfold match_netif, ask_inet. rewrite !ask_bind, Hd. pose proof (ip4_addr_ismulticast_bytes order dest Hdest) as Hmt. fold (multicast order dest) in Hmt.
  destruct (ip4_addr_ismulticast order dest); [by destruct Hm; apply Hmt|]. clear Hmt.
  destruct (ip4_input_accept_run s inp f dest Hf Hd Hdest) as (a&Ea&Ha). rewrite (bind_run _ _ _ _ _ Ea). destruct a; [exists inp; split; [done|]; by apply accepted_here, Ha|].
  assert (Hno : ~ accepted_by s dest inp) by (by rewrite <- Ha). pose proof (ip4_addr_isloopback_bytes order dest Hdest) as Hlo.
  destruct (ip4_addr_isloopback order dest); [exists 0; split; [done|]; apply accepted_none; [done|left; by apply Hlo]|].
  rewrite ask_bind. destruct (accept_loop_run s inp dest _ Hns Hd Hdest) as (n&E&Hn). rewrite (bind_run _ _ _ _ _ E). exists n. split; [done|].
  destruct Hn as [[-> Hn]|(Hn0&ns1&ns2&Hl&Hne&Hr&Hb)]; [apply accepted_none; [done|by right]|]. eapply accepted_other; try done. by rewrite <- Hlo.
Qed.

(** ** The datagram *)

Definition source_ok (f : netif) (src : Z) : Prop := ~ broadcast f src /\ ~ multicast order src.

(** What the layers above find: the datagram without padding, still with its header, and where it is from. *)
Definition datagram_up s (refs : Z -> Z) (p inp n : Z) (ds : list Z) (st hd : Z) s1 : Prop :=
  same_stack s s1 /\ holds_up s1 refs p (take (Z.to_nat (ip_len ds)) ds) st (Z.min hd (ip_len ds)) /\
  current_iphdr_src (ip_data (inet_of s1)) = ip_src order ds /\ current_iphdr_dest (ip_data (inet_of s1)) = ip_dest order ds.

Lemma accepted_ext s s' inp dest n : a_netifs s' = a_netifs s -> netif_list (inet_of s') = netif_list (inet_of s) -> ip_accepted s' inp dest n -> ip_accepted s inp dest n.
Proof.
  intros EN EL HA. assert (Hby : forall m, accepted_by s' dest m <-> accepted_by s dest m) by (intros m; unfold accepted_by; by rewrite EN).
  destruct HA as [H|n ns ns' H1 H2 H3 H4 H5 H6|H1 H2].
  - by apply accepted_here, Hby.
  - rewrite EL in H3. eapply accepted_other; try done; [by rewrite <- Hby|by apply Hby|]. intros m Hm Hne. rewrite <- Hby. by apply H6.
  - rewrite EL in H2. apply accepted_none; [by rewrite <- Hby|]. destruct H2 as [H2|H2]; [by left|right]. intros m Hm Hne. rewrite <- Hby. by apply H2.
Qed.

(** Which interface is asked does not depend on the packet. *)
Lemma accepted_exists s inp f dest : a_netifs s !! inp = Some f -> (forall n, n ∈ netif_list (inet_of s) -> n <> 0 /\ is_Some (a_netifs s !! n)) ->
  0 <= dest < 2 ^ 32 -> ~ multicast order dest -> exists n, ip_accepted s inp dest n.
Proof.
  intros Hf Hns Hdest Hm. destruct (match_netif_run (set_inet_of (with_ip_data (mkGlobals 0 0 0 0 0 dest) (inet_of s)) s) inp f dest Hf Hns eq_refl Hdest Hm) as (n&_&HA).
  exists n. by apply (accepted_ext s _) in HA.
Qed.

Lemma source_test f src : 0 <= src < 2 ^ 32 -> ip4_addr_isbroadcast_u32 src f || ip4_addr_ismulticast order src = false <-> source_ok f src.
Proof.
  intros Hs. unfold source_ok, multicast. rewrite <- (ip4_addr_ismulticast_bytes order src Hs), <- (broadcast_test f src Hs).
  destruct (ip4_addr_isbroadcast_u32 src f), (ip4_addr_ismulticast order src); cbn; intuition congruence.
Qed.

Lemma ip4_input_run s refs p inp f ds st hd : a_netifs s !! inp = Some f -> (forall n, n ∈ netif_list (inet_of s) -> n <> 0 /\ is_Some (a_netifs s !! n)) ->
  holds_up s refs p ds st hd -> IP_HLEN <= hd -> ~ multicast order (ip_dest order ds) ->
  exists n, ip_accepted s inp (ip_dest order ds) n /\
    ((well_formed ds hd /\ source_ok f (ip_src order ds) /\ n <> 0 /\
        exists s1, datagram_up s refs p inp n ds st hd s1 /\ ip4_input order p inp s = deliver order p inp n st (ip_hlen ds) s1) \/
     (~ (well_formed ds hd /\ source_ok f (ip_src order ds) /\ n <> 0) /\ exists s', ip4_input order p inp s = Some (ERR_OK, s') /\ dropped s refs p s')).
Proof.
  intros Hf Hns HA Hhd Hmc. change IP_HLEN with 20 in *. destruct (buffer_up _ _ _ _ _ _ HA) as (b&Eb&_&Hpay&Hlen&Htot).
  destruct (arrived_buffer _ _ _ _ _ _ _ HA) as (_&_&_&_&_&Hhl&H16&Hbytes). unfold ip4_input. rewrite (bind_run _ _ _ _ _ Eb). cbv zeta. rewrite Hpay, Htot.
  pose proof (load_byte_up _ _ _ _ _ _ 0 HA ltac:(lia)) as E0. change (Z.of_nat 0) with 0 in E0. rewrite Z.add_0_r in E0. rewrite (bind_run _ _ _ _ _ E0).
  destruct (version_bits (octet ds 0) (octet_ok ds 0 Hbytes)) as [-> ->]. fold (ip_version ds) (ip_hlen ds).
  set (len := ip_len ds). pose proof (half_at_range ds 2 Hbytes) as Hlr. fold (ip_len ds) in Hlr. fold len in Hlr.
  assert (Hdr : forall k, 0 <= word order (take 4 (drop k ds)) < 2 ^ 32) by (intros k; by apply word_range, Forall_take, Forall_drop).
  assert (Hearly : forall s1 ds1 st1 hd1, holds_up s1 refs p ds1 st1 hd1 -> same_stack s s1 -> ~ well_formed ds hd ->
    exists n, ip_accepted s inp (ip_dest order ds) n /\
     ((well_formed ds hd /\ source_ok f (ip_src order ds) /\ n <> 0 /\
        exists s2, datagram_up s refs p inp n ds st hd s2 /\ (_ ← release_packet p; mret ERR_OK) s1 = deliver order p inp n st (ip_hlen ds) s2) \/
      (~ (well_formed ds hd /\ source_ok f (ip_src order ds) /\ n <> 0) /\ exists s', (_ ← release_packet p; mret ERR_OK) s1 = Some (ERR_OK, s') /\ dropped s refs p s'))).
  { intros s1 ds1 st1 hd1 HA1 HS1 Hno. destruct (accepted_exists s inp f _ Hf Hns (Hdr 16%nat) Hmc) as [n Hn]. exists n. split; [done|]. right.
    split; [by intros [? _]|]. by eapply drop_up. }
  destruct (Z.eqb_spec (ip_version ds) 4) as [Hv|Hv]; cbn [negb]; [|apply (Hearly s ds st hd HA); [done|by intros []]].
  rewrite (bind_run _ _ _ _ _ (load_half_up _ _ _ _ _ _ 2 HA ltac:(lia))), ntohs_host by by apply octet_ok. fold (half_at ds 2) (ip_len ds). fold len.
  destruct (trim_up s refs p ds st hd len HA ltac:(lia)) as (x&Et&HA1). rewrite (bind_run _ _ _ _ _ Et). set (s1 := set_frames x s) in *.
  destruct (buffer_up _ _ _ _ _ _ HA1) as (b1&Eb1&_&_&Hlen1&Htot1). rewrite (bind_run _ _ _ _ _ Eb1), Hlen1, Htot1. rewrite length_take.
  destruct (_ || _ || _) eqn:Ech.
  { apply (Hearly s1 _ _ _ HA1); [done|]. intros [_ [W1 W2] W3 _]. fold len in W2, W3. unfold IP_HLEN in *. rewrite !orb_true_iff, !Z.ltb_lt in Ech. lia. }
  rewrite !orb_false_iff, !Z.ltb_ge in Ech. destruct Ech as [[C1 C2] C3]. change IP_HLEN with 20 in C3.
  assert (Hsub : forall k m, (k + m <= 20)%nat -> take m (drop k (take (Z.to_nat len) ds)) = take m (drop k ds)).
  { intros k m Hkm. rewrite !take_drop_commute, take_take. do 2 f_equal. lia. }
  rewrite (bind_run _ _ _ _ _ (load_word_up _ _ _ _ _ _ 16 HA1 ltac:(lia))), (bind_run _ _ _ _ _ (load_word_up _ _ _ _ _ _ 12 HA1 ltac:(lia))), !Hsub by lia.
  fold (ip_dest order ds) (ip_src order ds). rewrite set_inet_bind. set (s2 := set_inet_of _ s1).
  destruct (match_netif_run s2 inp f (ip_dest order ds) Hf Hns eq_refl (Hdr 16%nat) Hmc) as (n&Em&Hn). apply (accepted_ext s s2) in Hn; [|done..].
  rewrite (bind_run _ _ _ _ _ Em). cbv beta iota. rewrite (bind_run _ _ _ _ _ (get_netif_run s2 inp f Hf)). cbn [andb]. exists n. split; [done|].
  pose proof (source_test f _ (Hdr 12%nat)) as Hsrc. fold (ip_src order ds) in Hsrc. assert (HA2 : holds_up s2 refs p (take (Z.to_nat len) ds) st (Z.min hd len)) by exact HA1.
  destruct (_ || _); [right; split; [intros (_&H&_); by apply Hsrc in H|by eapply drop_up]|]. pose proof (proj1 Hsrc eq_refl) as Hso. clear Hsrc.
  destruct (Z.eqb_spec n 0) as [->|Hn0]; [right; split; [by intros (_&_&?)|by eapply drop_up]|].
  rewrite (bind_run _ _ _ _ _ (load_half_up _ _ _ _ _ _ 6 HA2 ltac:(lia))).
  assert (Hb6 : forall k, (k < 20)%nat -> octet (take (Z.to_nat len) ds) k = octet ds k) by (intros k Hk; unfold octet; by rewrite lookup_take_lt by lia).
  rewrite !Hb6 by lia. pose proof (fragment_bits order (octet ds 6) (octet ds 7) (octet_ok ds 6 Hbytes) (octet_ok ds 7 Hbytes)) as Hfr.
  fold (half_at ds 6) in Hfr. fold (ip_fragment ds) in Hfr.
  destruct (Z.eqb_spec (Z.land (host16 order (octet ds 6) (octet ds 7)) (lwip_htons order (Z.lor IP_OFFMASK IP_MF))) 0) as [Hz|Hz]; cbn [negb].
  - left. split; [|split; [done|split; [done|exists s2; split; [by split_and!|done]]]]. split; [done|unfold IP_HLEN; fold len; lia|fold len; lia|by apply Hfr].
  - right. split; [intros ([]&_); by apply Hz, Hfr|by eapply drop_up].
Qed.

(** ** The protocol *)

Definition upper_input (proto p inp dest : Z) : option (prog (stack A L Q U) unit) :=
  if (proto =? IP_PROTO_UDP) || (proto =? IP_PROTO_UDPLITE) then Some (udp_input p inp)
  else if proto =? IP_PROTO_TCP then Some (tcp_input p inp)
  else if proto =? IP_PROTO_ICMP then Some (icmp_input p inp)
  else if proto =? IP_PROTO_IGMP then Some (igmp_input p inp dest) else None.

(** The protocol of a datagram finds the data alone in the packet. *)
Definition data_up s (refs : Z -> Z) (p inp n : Z) (ds : list Z) (st hd : Z) s1 : Prop :=
  same_stack s s1 /\
  holds_up s1 refs p (drop (Z.to_nat (ip_hlen ds)) (take (Z.to_nat (ip_len ds)) ds)) (st + ip_hlen ds) (Z.min hd (ip_len ds) - ip_hlen ds) /\
  ip_data (inet_of s1) = mkGlobals n inp st (ip_hlen ds) (ip_src order ds) (ip_dest order ds).

Lemma deliver_run s s1 refs p inp n ds st hd h : datagram_up s refs p inp n ds st hd s1 -> well_formed ds hd ->
  (forall s', raw_input p inp s' = Some (RAW_INPUT_NONE, s')) -> upper_input (ip_proto ds) p inp (ip_dest order ds) = Some h ->
  exists s2, data_up s refs p inp n ds st hd s2 /\ deliver order p inp n st (ip_hlen ds) s1 = (_ ← h; _ ← set_inet (with_ip_data no_datagram); mret ERR_OK) s2.
Proof.
  intros (HS&HA&Hsrc&Hdest) [_ [W1 W2] W3 _] Hraw Hh. set (len := ip_len ds) in *. unfold IP_HLEN in *. destruct (arrived_buffer _ _ _ _ _ _ _ HA) as (_&_&_&_&_&Hhl&_&Hbytes).
  rewrite length_take in Hhl.
  assert (Hb : forall k, (k < 20)%nat -> octet (take (Z.to_nat len) ds) k = octet ds k) by (intros k Hk; unfold octet; by rewrite lookup_take_lt by lia).
  unfold deliver. pose proof (load_byte_up _ _ _ _ _ _ 0 HA ltac:(lia)) as E0. change (Z.of_nat 0) with 0 in E0. rewrite Z.add_0_r in E0. rewrite (bind_run _ _ _ _ _ E0).
  destruct (version_bits (octet (take (Z.to_nat len) ds) 0) (octet_ok _ 0 Hbytes)) as [_ ->]. rewrite Hb by lia. fold (ip_hlen ds).
  rewrite set_inet_bind, Hsrc, Hdest. set (s2 := set_inet_of _ s1). rewrite (bind_run _ _ _ _ _ (Hraw s2)). cbv iota. unfold dispatch. rewrite !bind_assoc_run.
  assert (HA2 : holds_up s2 refs p (take (Z.to_nat len) ds) st (Z.min hd len)) by exact HA.
  destruct (remove_up s2 refs p _ _ _ (ip_hlen ds) HA2 ltac:(lia)) as (x&E&Hby&HA3). rewrite (bind_run _ _ _ _ _ E). set (s3 := set_frames x s2) in *. rewrite bind_assoc_run.
  assert (E9 : load_byte (st + 9) s3 = Some (ip_proto ds, s3)).
  { unfold load_byte, on_frames, load_at, on_packets, try_ask. pose proof (arrived_read _ _ _ _ _ _ _ 9 1 HA2 ltac:(lia)) as Hr.
    change (Z.of_nat 9) with 9 in Hr. change (fst (a_frames s2)) with (fst (a_frames s1)) in *. rewrite <- Hby, take_1_drop, Hb in Hr by (rewrite ?length_take; lia).
    unfold mbind, prog_bind. change (fst (a_frames s3)) with x. rewrite Hr. done. }
  rewrite (bind_run _ _ _ _ _ E9). exists s3. split; [split; [exact HS|]; split; [exact HA3|done]|].
  unfold upper_input in Hh. destruct (_ || _); [by injection Hh as <-|]. do 2 (destruct (_ =? _); [by injection Hh as <-|]).
  destruct (_ =? _); [|done]. injection Hh as <-. unfold ask_inet. rewrite bind_assoc_run, ask_bind. change (current_iphdr_dest (ip_data (inet_of s3))) with (ip_dest order ds). done.
Qed.
End receive.
