(* ===== verification/Ip4Proofs.v ===== *)
(** * The network layer: what it promises

    A datagram goes to the right interface with the right header; what comes in is
    dropped or reaches its protocol; what one host sends, another one receives,
    whatever the byte orders of the two. *)
From S2P Require Import Prelude Mem Memp Pbuf PbufProofs PbufRefs LwipDef LwipDefProofs IpAddr IpAddrProofs EthFrames Etharp FrameLaws EtharpInv EtharpOps EtharpSend EtharpQuery EtharpOutput EtharpInput PbufFrames Ip4 Ip4Send Ip4Receive.
Open Scope Z_scope.

(** ** Headers read back *)

Lemma word_bytes32 order v : 0 <= v < 2 ^ 32 -> word order (bytes32 order v) = v.
Proof.
  intros Hv. destruct (addr_bytes order v Hv) as (a&b&c&d&Ha&Hb&Hc&Hd&->). unfold bytes32. destruct (get_bytes order a b c d Ha Hb Hc Hd) as (->&->&->&->). done.
Qed.

(** The datagram with its padding. *)
Lemma header_fields order tos len id ttl proto src dest ds pad : let h := ip_header order tos len id ttl proto src dest in
  len = IP_HLEN + Z.of_nat (length ds) ->
  ip_version (h ++ ds ++ pad) = 4 /\ ip_hlen (h ++ ds ++ pad) = IP_HLEN /\ ip_len (h ++ ds ++ pad) = len /\ ip_fragment (h ++ ds ++ pad) = 0 /\
  ip_proto (h ++ ds ++ pad) = proto /\ take 4 (drop 12 (h ++ ds ++ pad)) = bytes32 order src /\ take 4 (drop 16 (h ++ ds ++ pad)) = bytes32 order dest /\
  drop (Z.to_nat IP_HLEN) (take (Z.to_nat len) (h ++ ds ++ pad)) = ds.
Proof.
  intros h Hlen. split; [done|]. split; [done|]. split; [|split; [done|split; [done|split; [done|split; [done|]]]]].
  - change (256 * (len / 256) + len mod 256 = len). dlia.
  - rewrite app_assoc, take_app_length'; [|rewrite length_app; change (length h) with 20%nat; unfold IP_HLEN in Hlen; lia]. done.
Qed.

Section proofs.
Context (order : byte_order) {A L Q U : Type} `{!PbufMemory A} (pool_size : memp_t -> Z) `{!PbufMemoryOk A pool_size} `{!Link A L} `{!LinkOk A L}.
Context `{!ArpQueue Q} `{!ArpQueueOk Q}.
Context (ram : Z -> Prop) (Hram : forall a H x u n i, owns a H -> H !! x = Some (u, n) -> x <= i < x + n -> ram i).

#[local] Set Default Proof Using "All".
#[local] Instance proof_frames : FramesOk order A (L * inet U) := pbuf_frames pool_size ram Hram order.

Implicit Types (s : stack A L Q U).

Abbreviation arp_inv := (arp_inv order).
Abbreviation datagram_out := (datagram_out order pool_size ram Hram).

(** ** Sending *)

(** What a call of [ip4_output] does. *)
Inductive ip_sent s (refs : Z -> Z) (src : option Z) (dest ttl tos proto p : Z) (b : pbuf) (ds : list Z) (r : err_t) s' : Prop :=
  | sent_nowhere : ip_routed order s dest 0 -> r = ERR_RTE -> s' = s -> ip_sent s refs src dest ttl tos proto p b ds r s'
  | sent_no_room n : n <> 0 -> ip_routed order s dest n -> has_space IP_HLEN p b = false -> r = ERR_BUF -> s' = s -> ip_sent s refs src dest ttl tos proto p b ds r s'
  | sent_datagram n f : n <> 0 -> ip_routed order s dest n -> a_netifs s !! n = Some f -> has_space IP_HLEN p b = true ->
      datagram_out s refs n f src dest ttl tos proto p b ds r s' -> ip_sent s refs src dest ttl tos proto p b ds r s'.

Lemma routed_netif s refs dest n : arp_inv s refs -> inet_ok s -> ip_routed order s dest n -> n = 0 \/ n <> 0 /\ exists f, a_netifs s !! n = Some f.
Proof.
  intros HI HO Hn. assert (Hsome : is_Some (a_netifs s !! n) -> n <> 0 /\ exists f, a_netifs s !! n = Some f).
  { intros [f Hf]. split; [by destruct (ai_netifs _ _ _ HI _ _ Hf)|by exists f]. }
  destruct Hn as [_|n ns ns' _ Hl _ _|_ _ _|].
  - destruct (io_group _ HO); [by left|right; by apply Hsome].
  - right. apply Hsome, (io_list _ HO). rewrite Hl. apply elem_of_app. right. by left.
  - destruct (io_default _ HO); [by left|right; by apply Hsome].
  - by left.
Qed.

Lemma ip4_output_run s refs p b bs ds src dest ttl tos proto : arp_inv s refs -> inet_ok s -> user_packet s refs p b bs ds -> refs p < MAX_REFS ->
  byte_ok ttl -> byte_ok tos -> byte_ok proto -> 0 <= default 0 src < 2 ^ 32 -> 0 <= dest < 2 ^ 32 ->
  exists r s', ip4_output order p src dest ttl tos proto s = Some (r, s') /\ arp_inv s' refs /\ users_kept order p s s' refs /\
    ip_sent s refs src dest ttl tos proto p b ds r s'.
Proof.
  intros HI HO HU Hmax Httl Htos Hproto Hsrc Hdest. unfold ip4_output.
  destruct (ip4_route_run order pool_size ram Hram s dest HO Hdest) as (n&E&Hn). rewrite (bind_run _ _ _ _ _ E).
  destruct (routed_netif _ _ _ _ HI HO Hn) as [->|(Hn0&f&Hf)].
  - exists ERR_RTE, s. split; [done|]. split; [done|]. split; [by intros y g _ _ Hg|]. by apply sent_nowhere.
  - rewrite (proj2 (Z.eqb_neq n 0)) by done.
    destruct (ip4_output_if_run order pool_size ram Hram s refs n f p b bs ds src dest ttl tos proto HI HO Hf HU Hmax Httl Htos Hproto Hsrc Hdest) as (r&s'&E2&HI'&HK&Hs).
    exists r, s'. split; [exact E2|]. split; [done|]. split; [done|]. destruct (has_space IP_HLEN p b) eqn:Hsp; [by eapply sent_datagram|by destruct Hs; eapply sent_no_room].
Qed.

(** C37 — Sending a datagram: the interface is the one for groups, the first one that
    is up and whose network or whose line the destination is on, or the default one,
    and without any of them the call says so and does nothing; the header is the
    one that RFC 791 draws, with the length of the data, the next identification and the
    address of the interface when no source is given; the packet is then sent to the
    neighbour or to the gateway, or waits for their address, as the address
    resolution promises; without room for the header nothing happens. *)
Theorem ip4_output_sends s refs p b bs ds src dest ttl tos proto : arp_inv s refs -> inet_ok s -> user_packet s refs p b bs ds -> refs p < MAX_REFS ->
  byte_ok ttl -> byte_ok tos -> byte_ok proto -> 0 <= default 0 src < 2 ^ 32 -> 0 <= dest < 2 ^ 32 ->
  exists r s', ip4_output order p src dest ttl tos proto s = Some (r, s') /\ arp_inv s' refs /\ users_kept order p s s' refs /\
    ip_sent s refs src dest ttl tos proto p b ds r s'.
Proof. apply ip4_output_run. Qed.
End proofs.

Section receive.
Context (order : byte_order) {A L Q U : Type} `{!PbufMemory A} (pool_size : memp_t -> Z) `{!PbufMemoryOk A pool_size} `{!Link A L} `{!ArpQueue Q} `{!Upper A L Q U}.
#[local] Set Default Proof Using "All".
Implicit Types (s : stack A L Q U).

(** The interfaces that are listed exist. *)
Definition listed s : Prop := forall n, n ∈ netif_list (inet_of s) -> n <> 0 /\ is_Some (a_netifs s !! n).

(** No raw socket wants a datagram. *)
Definition no_raw : Prop := forall p inp s, raw_input p inp s = Some (RAW_INPUT_NONE, s).

(** The protocol [h] gets its turn in [s2], and then nothing is known of the datagram any more. *)
Definition handed_to (h : prog (stack A L Q U) unit) s2 : option (err_t * stack A L Q U) := (_ ← h; _ ← set_inet (with_ip_data no_datagram); mret ERR_OK) s2.

Lemma accepted_first s inp dest n : accepted_by s dest inp -> ip_accepted order s inp dest n -> n = inp.
Proof. intros Ha Hn. inversion Hn; subst; done. Qed.

Lemma ip4_input_data s refs p inp f ds st hd n h : a_netifs s !! inp = Some f -> listed s -> no_raw -> holds_up pool_size s refs p ds st hd ->
  ~ multicast order (ip_dest order ds) -> well_formed ds hd -> source_ok order f (ip_src order ds) -> accepted_by s (ip_dest order ds) inp -> n = inp -> n <> 0 ->
  upper_input (ip_proto ds) p inp (ip_dest order ds) = Some h ->
  exists s2, data_up order pool_size s refs p inp n ds st hd s2 /\ ip4_input order p inp s = handed_to h s2.
Proof.
  intros Hf Hns Hraw HA Hmc HW Hso Hacc -> Hn0 Hh. pose proof (wf_hlen _ _ HW) as [W1 W2].
  destruct (ip4_input_run order pool_size s refs p inp f ds st hd Hf Hns HA ltac:(lia) Hmc) as (n&Hn&[(_&_&_&s1&HD&E)|(Hno&_)]).
  - pose proof (accepted_first _ _ _ _ Hacc Hn) as ->.
    destruct (deliver_run order pool_size s s1 refs p inp inp ds st hd h HD HW (Hraw p inp) Hh) as (s2&HU&E2). exists s2. split; [done|]. by rewrite E, E2.
  - destruct Hno. split; [done|]. split; [done|]. by rewrite (accepted_first _ _ _ _ Hacc Hn).
Qed.

(** C38 — A datagram that comes in, not for a group: when it is a whole datagram of IP
    version 4, no fragment, from a proper source, and the interface or another one has
    its address, its protocol gets the packet with the data alone, without header and
    padding, and the addresses that the header tells; otherwise the packet is
    given back and nothing else happens. *)
Theorem ip4_input_delivers s refs p inp f ds st hd : a_netifs s !! inp = Some f -> listed s -> no_raw -> holds_up pool_size s refs p ds st hd ->
  IP_HLEN <= hd -> ~ multicast order (ip_dest order ds) ->
  exists n, ip_accepted order s inp (ip_dest order ds) n /\
    ((well_formed ds hd /\ source_ok order f (ip_src order ds) /\ n <> 0 /\
        forall h, upper_input (ip_proto ds) p inp (ip_dest order ds) = Some h ->
          exists s2, data_up order pool_size s refs p inp n ds st hd s2 /\ ip4_input order p inp s = handed_to h s2) \/
     (~ (well_formed ds hd /\ source_ok order f (ip_src order ds) /\ n <> 0) /\ exists s', ip4_input order p inp s = Some (ERR_OK, s') /\ dropped pool_size s refs p s')).
Proof.
  intros Hf Hns Hraw HA Hhd Hmc. destruct (ip4_input_run order pool_size s refs p inp f ds st hd Hf Hns HA Hhd Hmc) as (n&Hn&[(HW&Hso&Hn0&s1&HD&E)|Hno]); exists n; (split; [done|]).
  - left. do 3 (split; [done|]). intros h Hh. destruct (deliver_run order pool_size s s1 refs p inp n ds st hd h HD HW (Hraw p inp) Hh) as (s2&HU&E2). exists s2. by rewrite E, E2.
  - by right.
Qed.
End receive.

(** ** From one host to another *)

Section arrival.
Context (oA oB : byte_order).
Context {A L Q U : Type} `{!PbufMemory A} (poolA : memp_t -> Z) `{!PbufMemoryOk A poolA} `{!Link A L} `{!LinkOk A L} `{!ArpQueue Q} `{!ArpQueueOk Q}.
Context (ram : Z -> Prop) (Hram : forall a H x u n i, owns a H -> H !! x = Some (u, n) -> x <= i < x + n -> ram i).
Context {B M P V : Type} `{!PbufMemory B} (poolB : memp_t -> Z) `{!PbufMemoryOk B poolB} `{!Link B M} `{!ArpQueue P} `{!Upper B M P V}.

#[local] Set Default Proof Using "All".
#[local] Instance arrival_frames : FramesOk oA A (L * inet U) := pbuf_frames poolA ram Hram oA.

(** A packet of a user that can take the headers goes out through interface [f]
    to a neighbour whose hardware address is known. *)
Record ready (s : stack A L Q U) (refs : Z -> Z) (p : Z) (ds : list Z) (dest n : Z) (f : netif) : Prop := {
  rd_inv : arp_inv oA s refs;
  rd_inet : inet_ok s;
  rd_packet : exists b bs, user_packet s refs p b bs ds /\ has_space (IP_HLEN + SIZEOF_ETH_HDR) p b = true;
  rd_refs : refs p < MAX_REFS;
  rd_route : ip_routed oA s dest n;
  rd_netif : a_netifs s !! n = Some f;
  rd_unicast : ~ broadcast f dest /\ ~ multicast oA dest;
  rd_known : exists hop k e, route oA f dest (Some hop) /\ a_table s !! k = Some e /\ known n hop e
}.

(** The datagram that goes out. *)
Definition datagram (s : stack A L Q U) (f : netif) (src : option Z) (dest ttl tos proto : Z) (ds : list Z) : list Z :=
  ip_header oA tos (IP_HLEN + Z.of_nat (length ds)) (ip_id (inet_of s)) ttl proto (source_used src f) dest ++ ds.

Lemma route_unique f dest h h' : route oA f dest h -> route oA f dest h' -> h = h'.
Proof. intros [H|H G|H G] [H'|H' G'|H' G']; done. Qed.

Lemma ready_sent s refs p ds dest n f src ttl tos proto : ready s refs p ds dest n f -> byte_ok ttl -> byte_ok tos -> byte_ok proto ->
  0 <= default 0 src < 2 ^ 32 -> 0 <= dest < 2 ^ 32 ->
  exists r s' reqs hw, ip4_output oA p src dest ttl tos proto s = Some (r, s') /\ hw_ok hw /\
    link_sent (fst (snd (a_frames s'))) = link_sent (fst (snd (a_frames s))) ++ reqs ++ [(n, eth_frame hw (hwaddr f) ETHTYPE_IP (datagram s f src dest ttl tos proto ds))].
Proof.
  intros [HI HO (b&bs&HU&Hsp) Hmax Hrt Hf [Hnb Hnm] (hop&k&e&Hhop&Hk&Hkn)] Httl Htos Hproto Hsrc Hdest. destruct (ai_netifs _ _ _ HI _ _ Hf) as (Hn0&_).
  destruct (ip4_output_run oA poolA ram Hram s refs p b bs ds src dest ttl tos proto HI HO HU Hmax Httl Htos Hproto Hsrc Hdest) as (r&s'&E&_&_&Hs).
  assert (Hsp20 : has_space IP_HLEN p b = true).
  { revert Hsp. unfold has_space, IP_HLEN, SIZEOF_ETH_HDR. rewrite !andb_true_iff, !Z.leb_le, !Z.ltb_lt. intros ((?&?)&?). split_and!; [done|lia|lia]. }
  destruct Hs as [Hr _ _|m Hm0 Hr Hno _ _|m g Hm0 Hr Hg _ HD]; [by pose proof (ip_routed_unique _ _ _ _ _ Hrt Hr)|congruence|]. pose proof (ip_routed_unique _ _ _ _ _ Hrt Hr) as <-. clear Hr. assert (g = f) as -> by congruence.
  destruct HD as (s1&pk&((T1&C1&N1)&P1)&S1&_&Hroom&Hdata&HD). rewrite Hsp in Hroom.
  inversion HD as [? ? Hb|? ? _ Hmu|_ _ Hno|dst j x x' reqs ? ? _ _ Hr Hx Hknx _ _ _ Hfs|dst ? ? _ _ Hr Hnone _]; subst; [done|done|by pose proof (route_unique _ _ _ _ Hhop Hno)|..].
  2:{ pose proof (route_unique _ _ _ _ Hhop Hr) as [= ->]. rewrite T1 in Hnone. by destruct (Hnone k e). }
  exists r, s', reqs, (ethaddr x). split; [exact E|]. split.
  { rewrite T1 in Hx. apply (eo_hw _ _ (ai_entries _ _ _ HI _ _ Hx)), Hknx. }
  destruct Hfs as [Hfs|(Hno&_)]; [|congruence]. etransitivity; [exact Hfs|]. unfold ip_frame. rewrite Hdata. by apply (f_equal (fun z => z ++ reqs ++ _)).
Qed.

(** C36 — What one host sends with [ip4_output] to a neighbour or a gateway that it
    knows leaves it in one frame; when the other host, be its byte order the same or
    not, finds this frame in a packet, with or without padding behind it, and the
    destination is its own address, the protocol of the datagram gets the
    packet with exactly the bytes that the first host sent, and reads the source and the
    destination that the first host wrote. *)
Theorem datagram_arrives s refs p ds dest n f src ttl tos proto : ready s refs p ds dest n f -> byte_ok ttl -> byte_ok tos -> byte_ok proto ->
  0 <= default 0 src < 2 ^ 32 -> 0 <= dest < 2 ^ 32 ->
  exists r s' reqs frame, ip4_output oA p src dest ttl tos proto s = Some (r, s') /\
    link_sent (fst (snd (a_frames s'))) = link_sent (fst (snd (a_frames s))) ++ reqs ++ [(n, frame)] /\
    forall (t : stack B M P V) refs' q inp g pad st hd src' dest' h index,
      a_netifs t !! inp = Some g -> Z.land (flags g) NETIF_FLAG_ETHARP <> 0 -> listed t -> no_raw (A := B) (L := M) (Q := P) (U := V) -> inp <> 0 ->
      holds_up poolB t refs' q (frame ++ pad) st hd -> SIZEOF_ETH_HDR + IP_HLEN <= hd ->
      0 <= src' < 2 ^ 32 -> bytes32 oB src' = bytes32 oA (source_used src f) -> source_ok oB g src' ->
      0 <= dest' < 2 ^ 32 -> bytes32 oB dest' = bytes32 oA dest -> accepts g dest' -> ~ multicast oB dest' ->
      upper_input proto q inp dest' = Some h ->
      exists t', holds_up poolB t' refs' q ds (st + (SIZEOF_ETH_HDR + IP_HLEN)) (Z.min (hd - (SIZEOF_ETH_HDR + IP_HLEN)) (Z.of_nat (length ds))) /\
        same_stack t t' /\ current_iphdr_src (ip_data (inet_of t')) = src' /\ current_iphdr_dest (ip_data (inet_of t')) = dest' /\
        ethernet_input oB (fun p n => _ ← ip4_input oB p n; mret tt) index q inp t = handed_to h t'.
Proof.
  intros HR Httl Htos Hproto Hsrc Hdest. destruct (ready_sent s refs p ds dest n f src ttl tos proto HR Httl Htos Hproto Hsrc Hdest) as (r&s'&reqs&hw&E&Hhw&Hsent).
  destruct (ai_netifs _ _ _ (rd_inv _ _ _ _ _ _ _ HR) _ _ (rd_netif _ _ _ _ _ _ _ HR)) as (_&Hhwf&_).
  do 4 eexists. split; [exact E|]. split; [exact Hsent|]. clear E Hsent HR Hsrc Hdest.
  intros t refs' q inp g pad st hd src' dest' h index Hg Hfl Hls Hraw Hinp HA Hhd Hsrc Es Hso Hdest Ed Hacc Hmc Hh. change (SIZEOF_ETH_HDR + IP_HLEN) with 34 in *.
  set (len := IP_HLEN + Z.of_nat (length ds)). set (dg := datagram s f src dest ttl tos proto ds ++ pad).
  replace (eth_frame hw (hwaddr f) ETHTYPE_IP (datagram s f src dest ttl tos proto ds) ++ pad) with (eth_frame hw (hwaddr f) ETHTYPE_IP dg) in HA
    by (unfold eth_frame, dg; by rewrite <- !app_assoc).
  destruct (ethernet_input_run oB poolB t refs' inp g q hw (hwaddr f) dg st hd (fun p n => _ ← ip4_input oB p n; mret tt) index Hg Hfl HA Hhw Hhwf ltac:(lia)) as (x&HA1&E1).
  destruct (header_fields oA tos len (ip_id (inet_of s)) ttl proto (source_used src f) dest ds pad eq_refl) as (F1&F2&F3&F4&F5&F6&F7&F8).
  unfold dg, datagram in HA1. rewrite <- app_assoc in HA1. fold len in HA1. set (d := ip_header _ _ _ _ _ _ _ _ ++ ds ++ pad) in *.
  assert (Gs : ip_src oB d = src') by (unfold ip_src; rewrite F6, <- Es; by apply word_bytes32).
  assert (Gd : ip_dest oB d = dest') by (unfold ip_dest; rewrite F7, <- Ed; by apply word_bytes32).
  assert (HW : well_formed d (hd - 14)).
  { split; [done|rewrite F2, F3; unfold len, IP_HLEN; lia|rewrite F3; unfold d; rewrite !length_app; change (length (ip_header _ _ _ _ _ _ _ _)) with 20%nat; unfold len, IP_HLEN; lia|done]. }
  rewrite <- F5 in Hh. rewrite <- Gd in Hh, Hmc. rewrite <- Gs in Hso.
  destruct (ip4_input_data oB poolB (set_frames x t) refs' q inp g d (st + 14) (hd - 14) inp h Hg Hls Hraw HA1 Hmc HW Hso ltac:(exists g; by rewrite Gd) eq_refl Hinp Hh) as (t'&(HS&HA2&Hip)&E2).
  rewrite F2, F3, F8 in HA2. exists t'. split; [|split; [exact HS|split; [by rewrite Hip|split; [by rewrite Hip|]]]].
  - change IP_HLEN with 20 in HA2. replace (st + 34) with (st + 14 + 20) by lia. replace (Z.min (hd - 34) (Z.of_nat (length ds))) with (Z.min (hd - 14) len - 20) by (unfold len, IP_HLEN; lia). exact HA2.
  - rewrite E1, bind_assoc_run. unfold handed_to in *. unfold mbind, prog_bind in E2 |- *. rewrite E2. by destruct (h t') as [[[] t2]|].
Qed.
End arrival.
