(* ===== verification/Ip4Examples.v ===== *)
(** * Two hosts at work

    Over the memory of [EtharpExamples]: a little-endian host sends a datagram to a
    big-endian one, which finds the data. *)
From S2P Require Import Prelude Mem Memp MempProofs LwipHeap Pbuf PbufProofs PbufRefs PbufAlloc LwipDef IpAddr IpAddrProofs EthFrames Etharp EtharpTable FrameLaws EtharpInv EtharpOps EtharpSend EtharpQuery EtharpOutput EtharpInput PbufFrames ArpPool EtharpProofs EtharpExamples Ip4 Ip4Send Ip4Receive Ip4Proofs.
Open Scope Z_scope.

#[local] Instance memory_ip : PbufMemory memory := memory_arp.
#[local] Instance memory_ip_ok : PbufMemoryOk memory (fun t => desc_size (stack_pools t)) := memory_arp_ok.
#[local] Instance pool_ip : ArpQueue memp_state := pool_arp.
#[local] Instance pool_ip_ok : ArpQueueOk memp_state := pool_arp_ok.
#[local] Instance link_ip : Link memory wire := link_arp.
#[local] Instance link_ip_ok : LinkOk memory wire := link_arp_ok.

Abbreviation pools_ip := (fun t => desc_size (stack_pools t)).

(** ** A layer above that keeps what it gets *)

Abbreviation received := (list (Z * Z * list Z)).
Abbreviation host := (stack memory wire memp_state received).

Definition keep (p : Z) : prog host unit :=
  ds ← on_frames (on_packets (n ← chain_fuel; contents n p));
  i ← ask_inet (fun i => i);
  set_inet (fun i => mkInet (netif_list i) (netif_default i) (ip4_default_multicast_netif i) (ip_id i) (ip_data i)
                       (transport i ++ [(current_iphdr_src (ip_data i), current_iphdr_dest (ip_data i), ds)])).

#[local] Instance upper_ip : Upper memory wire memp_state received := {|
  igmp_lookfor_group n g := mret false;
  raw_input p inp := mret RAW_INPUT_NONE;
  udp_input p inp := keep p;
  tcp_input p inp := mret tt;
  icmp_input p inp := mret tt;
  igmp_input p inp dest := mret tt;
  icmp_dest_unreach p code := mret tt
|}.

(** ** The hosts *)

Definition flags_ip : Z := Z.lor (Z.lor NETIF_FLAG_BROADCAST NETIF_FLAG_ETHARP) (Z.lor NETIF_FLAG_UP NETIF_FLAG_LINK_UP).
Definition host_netif (order : byte_order) (d : Z) (hw : list Z) : netif := mkNetif (host32 order 192 168 1 d) (host32 order 255 255 255 0) (host32 order 192 168 1 1) hw flags_ip.

(** A host knows the address of one other. *)
Definition host_start (order : byte_order) (d d' : Z) (hw hw' : list Z) : host :=
  mkArp (mkEntry [] (host32 order 192 168 1 d') 1 hw' 0 ETHARP_STATE_STABLE :: replicate 9 empty_entry) 0 {[ 1 := host_netif order d hw ]}
    (mkP ∅ arp_mem (alloc stack_start), ([], mkInet [1] 1 0 7 no_datagram [])) pool_start_arp.

Definition holding (ds : list Z) (s : host) : Z * host := match on_frames (make_packet ds) s with Some (p, s') => (p, s') | None => (0, s) end.
Definition stripped (k : Z) (x : Z * host) : host := match on_frames (on_packets (pbuf_remove_header (fst x) k)) (snd x) with Some (_, s') => s' | None => snd x end.

Definition sender0 : host := host_start LITTLE_ENDIAN 2 7 own_hw peer_hw.
Definition sender1 : Z * host := holding (replicate 20 0 ++ data1) sender0.
Definition sender : host := stripped 20 sender1.
Definition out_p : Z := fst sender1.

Definition frame_ip : list Z := eth_frame peer_hw own_hw ETHTYPE_IP (ip_header LITTLE_ENDIAN 0 40 7 255 17 (host32 LITTLE_ENDIAN 192 168 1 2) (host32 LITTLE_ENDIAN 192 168 1 7) ++ data1).
Definition padding : list Z := replicate 6 0.

Definition receiver0 : host := host_start BIG_ENDIAN 7 2 peer_hw own_hw.
Definition receiver1 : Z * host := holding (frame_ip ++ padding) receiver0.
Definition receiver : host := snd receiver1.
Definition in_p : Z := fst receiver1.

Abbreviation packets_ip := (packets_ok pools_ip ram_arp).
#[local] Instance frames_ip : FramesOk LITTLE_ENDIAN memory (wire * inet received) := pbuf_frames pools_ip ram_arp ram_arp_owned LITTLE_ENDIAN.

Lemma host_packets order d d' hw hw' : packets_ip (fst (a_frames (host_start order d d' hw hw'))) no_refs.
Proof. exact frames_start. Qed.

Lemma holding_ok ds (s : host) refs : packets_ip (fst (a_frames s)) refs -> Forall byte_ok ds -> 0 < Z.of_nat (length ds) < 2 ^ 16 -> fst (holding ds s) <> 0 ->
  packets_ip (fst (a_frames (snd (holding ds s)))) (bump 1 (fst (holding ds s)) refs).
Proof.
  intros HP Hb Hlen. destruct (make_packet_run pools_ip ram_arp ram_arp_owned ds (a_frames s) refs HP Hb Hlen) as (p&w&E&_&Hcase).
  assert (E' : make_packet ds (a_frames s) = Some (p, w)) by exact E.
  assert (Em : holding ds s = (p, mkArp (a_table s) (etharp_cached_entry s) (a_netifs s) w (a_pool s))) by (unfold holding, on_frames; by rewrite E').
  rewrite Em. cbn [fst snd a_frames]. intros Hp. destruct Hcase as [(?&_)|(_&_&HP'&_)]; [done|exact HP'].
Qed.

Definition buffer_ip (payload len : Z) : pbuf := mkPbuf 0 payload len len 0x80 0 1 0.

(** ** The sender *)

Definition sender_refs : Z -> Z := bump 1 out_p no_refs.

Lemma sender1_packets : packets_ip (fst (a_frames (snd sender1))) sender_refs.
Proof. apply holding_ok; [apply host_packets|by apply bytes_byte_ok|computed|computed]. Qed.

Lemma sender_packets : packets_ip (fst (a_frames sender)) sender_refs.
Proof.
  assert (Hb : pbufs (fst (a_frames (snd sender1))) !! out_p = Some (buffer_ip 1040 40)) by (vm_compute; reflexivity).
  assert (Hc : chain (pbufs (fst (a_frames (snd sender1)))) out_p [(out_p, buffer_ip 1040 40)]) by (split; [done|split; [vm_compute; discriminate|split; [exact Hb|done]]]).
  destruct (remove_header_keeps pools_ip ram_arp ram_arp_owned (fst (a_frames (snd sender1))) sender_refs out_p (buffer_ip 1040 40) [] 20 sender1_packets ltac:(computed) Hb Hc eq_refl ltac:(computed)) as (E&HP&_).
  pose proof (on_packets_stack _ (snd sender1) _ _ E) as E1. unfold sender, stripped. fold out_p.
  assert (E2 : on_frames (on_packets (pbuf_remove_header out_p 20)) (snd sender1) = Some (0, _)) by exact E1. rewrite E2. exact HP.
Qed.

Lemma sender_packet : user_packet sender sender_refs out_p (buffer_ip 1060 20) [] data1.
Proof. split; [computed|]. split; [split; [done|split; [vm_compute; discriminate|split; [vm_compute; reflexivity|done]]]|]. vm_compute. reflexivity. Qed.

Lemma host_table : a_table sender = mkEntry [] (host32 LITTLE_ENDIAN 192 168 1 7) 1 peer_hw 0 ETHARP_STATE_STABLE :: replicate 9 empty_entry.
Proof. vm_compute. reflexivity. Qed.

Lemma sender_netifs n f : a_netifs sender !! n = Some f -> n = 1 /\ f = host_netif LITTLE_ENDIAN 2 own_hw.
Proof.
  assert (E : a_netifs sender = {[ 1 := host_netif LITTLE_ENDIAN 2 own_hw ]}) by (vm_compute; reflexivity). rewrite E. intros [<- <-]%lookup_singleton_Some. split; reflexivity.
Qed.

Lemma one_entry (x y : etharp_entry) n i e : (x :: replicate n y) !! i = Some e -> i = 0%nat /\ e = x \/ e = y.
Proof. destruct i as [|i]; cbn; [intros [= <-]; by left|]. intros [-> _]%lookup_replicate. by right. Qed.

Lemma entry_known netifs ip hw : is_Some (netifs !! 1) -> 0 <= ip < 2 ^ 32 -> hw_ok hw -> entry_ok netifs (mkEntry [] ip 1 hw 0 ETHARP_STATE_STABLE).
Proof. intros Hn Hip Hhw. by split. Qed.

Lemma entry_empty netifs : entry_ok netifs empty_entry.
Proof. by split. Qed.

Lemma own_hw_ok : hw_ok own_hw /\ hw_ok peer_hw.
Proof. split; (split; [done|by apply bytes_byte_ok]). Qed.

Lemma sender_inv : arp_inv LITTLE_ENDIAN sender sender_refs.
Proof.
  assert (Hentry : forall i e, a_table sender !! i = Some e -> i = 0%nat /\ e = mkEntry [] (host32 LITTLE_ENDIAN 192 168 1 7) 1 peer_hw 0 ETHARP_STATE_STABLE \/ e = empty_entry).
  { rewrite host_table. intros i e. apply one_entry. }
  assert (Hn : is_Some (a_netifs sender !! 1)) by (exists (host_netif LITTLE_ENDIAN 2 own_hw); vm_compute; reflexivity).
  assert (Hw : waiting sender = []) by (unfold waiting; by rewrite host_table).
  assert (Hpool : handed (a_pool sender) ∅).
  { assert (E : a_pool sender = pool_start_arp) by (vm_compute; reflexivity). rewrite E.
    apply (pool_handed_start stack_pools stack_pools_ok MEMP_ARP_QUEUE (mkMemp (fun _ => 0) ∅)). vm_compute. reflexivity. }
  split.
  - by rewrite host_table.
  - intros i e [[_ ->]| ->]%Hentry; [|apply entry_empty]. apply entry_known; [exact Hn|split; [discriminate|reflexivity]|apply own_hw_ok].
  - intros i j e e' [[-> ->]| ->]%Hentry [[-> ->]| ->]%Hentry; [intros _ _ _ _; reflexivity|intros _ []; reflexivity|intros []; reflexivity|intros []; reflexivity].
  - rewrite Hw. split; [|exact Hpool|constructor|].
    + change (packets_ip (fst (a_frames sender)) (with_queued sender_refs [])). apply (packets_ext pools_ip ram_arp ram_arp_owned _ sender_refs); [|exact sender_packets]. intros p. unfold with_queued. change (count [] p) with 0. lia.
    + intros p. unfold sender_refs, bump, no_refs. case_decide; lia.
  - split; vm_compute; [discriminate|reflexivity].
  - intros n f [-> ->]%sender_netifs. split; [discriminate|]. split; [apply own_hw_ok|]. split; (split; vm_compute; [discriminate|reflexivity]).
Qed.

Lemma sender_inet : inet_ok sender.
Proof.
  assert (E : inet_of sender = mkInet [1] 1 0 7 no_datagram []) by (vm_compute; reflexivity).
  assert (Hn : is_Some (a_netifs sender !! 1)) by (exists (host_netif LITTLE_ENDIAN 2 own_hw); vm_compute; reflexivity).
  split; rewrite E; cbn [netif_list netif_default ip4_default_multicast_netif ip_id].
  - intros n ->%list_elem_of_singleton. split; [discriminate|exact Hn].
  - right. exact Hn.
  - left. reflexivity.
  - split; [discriminate|reflexivity].
Qed.

Definition dest_le : Z := host32 LITTLE_ENDIAN 192 168 1 7.
Definition netif_le : netif := host_netif LITTLE_ENDIAN 2 own_hw.

Lemma dest_range : 0 <= dest_le < 2 ^ 32.
Proof. split; [discriminate|reflexivity]. Qed.

Lemma sender_netif : a_netifs sender !! 1 = Some netif_le.
Proof. vm_compute. reflexivity. Qed.

Lemma sender_list : inet_of sender = mkInet [1] 1 0 7 no_datagram [].
Proof. vm_compute. reflexivity. Qed.

Lemma sender_route : ip_routed LITTLE_ENDIAN sender dest_le 1.
Proof.
  apply (routed_link LITTLE_ENDIAN sender dest_le 1 [] []).
  - intros [_ H]. apply H. by rewrite sender_list.
  - by rewrite sender_list.
  - exists netif_le. split; [exact sender_netif|]. split; [split; [discriminate|split; discriminate]|]. left. reflexivity.
  - by intros m ?%not_elem_of_nil.
Qed.

Lemma not_for_all order (f : netif) ip : 0 <= ip < 2 ^ 32 -> ip4_addr_isbroadcast_u32 ip f = false -> ip4_addr_ismulticast order ip = false -> ~ broadcast f ip /\ ~ multicast order ip.
Proof.
  intros Hip H1 H2. rewrite <- (broadcast_test f ip Hip). unfold multicast. rewrite <- (ip4_addr_ismulticast_bytes order ip Hip), H1, H2. by split.
Qed.

Lemma sender_ready : ready LITTLE_ENDIAN pools_ip ram_arp ram_arp_owned sender sender_refs out_p data1 dest_le 1 netif_le.
Proof.
  split.
  - exact sender_inv.
  - exact sender_inet.
  - exists (buffer_ip 1060 20), []. split; [exact sender_packet|vm_compute; reflexivity].
  - computed.
  - exact sender_route.
  - exact sender_netif.
  - apply not_for_all; [exact dest_range|reflexivity|reflexivity].
  - exists dest_le, 0%nat, (mkEntry [] dest_le 1 peer_hw 0 ETHARP_STATE_STABLE). split; [apply route_direct; left; reflexivity|]. split; [by rewrite host_table|].
    split; [reflexivity|split; reflexivity].
Qed.

Lemma sender_sends r s' reqs frame : ip4_output LITTLE_ENDIAN out_p None dest_le 255 0 17 sender = Some (r, s') ->
  link_sent (fst (snd (a_frames s'))) = link_sent (fst (snd (a_frames sender))) ++ reqs ++ [(1, frame)] -> frame = frame_ip.
Proof.
  intros E Hs. assert (E2 : fmap (M := option) (fun x => fst (snd (a_frames (snd x)))) (ip4_output LITTLE_ENDIAN out_p None dest_le 255 0 17 sender) = Some [(1, frame_ip)]) by (vm_compute; reflexivity).
  rewrite E in E2. injection E2 as E2. assert (E0 : link_sent (fst (snd (a_frames sender))) = []) by (vm_compute; reflexivity). rewrite E0 in Hs.
  change (link_sent (fst (snd (a_frames s')))) with (fst (snd (a_frames s'))) in Hs. rewrite E2 in Hs. cbn [app] in Hs. change [(1, frame_ip)] with ([] ++ [(1, frame_ip)]) in Hs.
  apply app_inj_tail in Hs as [_ Hs]. by injection Hs as <-.
Qed.

(** ** The receiver *)

Definition receiver_refs : Z -> Z := bump 1 in_p no_refs.
Definition netif_be : netif := host_netif BIG_ENDIAN 7 peer_hw.
Definition src_be : Z := host32 BIG_ENDIAN 192 168 1 2.
Definition dest_be : Z := host32 BIG_ENDIAN 192 168 1 7.

Lemma packets_up x refs p b ds : packets_ip x refs -> 0 < refs p -> p <> 0 -> pbufs x !! p = Some b -> p_next b = 0 -> contiguous b = true ->
  load_bytes (length ds) (p_payload b) (bytes x) = Some ds -> Z.of_nat (length ds) = p_len b -> arrived pools_ip x refs p ds (p_payload b) (p_len b).
Proof.
  intros HP Hp Hp0 Hb Hn Hct Hds Hl. assert (Hc : chain (pbufs x) p [(p, b)]) by (split; [done|split; [done|split; [exact Hb|exact Hn]]]).
  destruct (pk_refs _ _ _ _ HP) as [H HR]. destruct (held_block pools_ip ram_arp ram_arp_owned _ _ _ _ _ HR Hb) as (n&_&[_ _ _ Bd]&_&H0&H32). destruct (Bd Hct) as [D1 D2].
  unfold SIZEOF_STRUCT_PBUF in *. split; [by exists H|done|apply (pk_bytes _ _ _ _ HP)|lia|]. exists b, []. split; [done|]. split; [by apply (pk_chains _ _ _ _ HP p)|]. split; [|done].
  cbn [addrs]. rewrite app_nil_r. unfold spots. by rewrite <- Hl, <- load_bytes_read.
Qed.

Lemma receiver_up : holds_up pools_ip receiver receiver_refs in_p (frame_ip ++ padding) 1040 60.
Proof.
  assert (HP : packets_ip (fst (a_frames receiver)) receiver_refs) by (apply holding_ok; [apply host_packets|by apply bytes_byte_ok|computed|computed]).
  apply (packets_up _ _ _ (buffer_ip 1040 60) _ HP); [computed|vm_compute; discriminate|vm_compute; reflexivity..].
Qed.

Lemma receiver_netif : a_netifs receiver !! 1 = Some netif_be.
Proof. vm_compute. reflexivity. Qed.

Lemma receiver_listed : listed receiver.
Proof.
  assert (E : netif_list (inet_of receiver) = [1]) by (vm_compute; reflexivity). intros n Hn. rewrite E in Hn. apply list_elem_of_singleton in Hn as ->.
  split; [discriminate|]. exists netif_be. exact receiver_netif.
Qed.

Lemma src_range : 0 <= src_be < 2 ^ 32 /\ 0 <= dest_be < 2 ^ 32.
Proof. split; (split; [discriminate|reflexivity]). Qed.

Lemma receiver_accepts : accepts netif_be dest_be.
Proof. split; [discriminate|split; [discriminate|left; reflexivity]]. Qed.

Lemma no_raw_ip : no_raw (A := memory) (L := wire) (Q := memp_state) (U := received).
Proof. intros p n s. reflexivity. Qed.

(** ** Witnesses *)

Lemma bytes_ok3 : byte_ok 255 /\ byte_ok 0 /\ byte_ok 17 /\ 0 <= default 0 (None : option Z) < 2 ^ 32.
Proof. by split_and!. Qed.

Lemma ip4_output_sends_witness : exists r s', ip4_output LITTLE_ENDIAN out_p None dest_le 255 0 17 sender = Some (r, s') /\
  ip_sent LITTLE_ENDIAN pools_ip ram_arp ram_arp_owned sender sender_refs None dest_le 255 0 17 out_p (buffer_ip 1060 20) data1 r s'.
Proof.
  destruct bytes_ok3 as (B1&B2&B3&B4).
  destruct (ip4_output_sends LITTLE_ENDIAN pools_ip ram_arp ram_arp_owned sender sender_refs out_p (buffer_ip 1060 20) [] data1 None dest_le 255 0 17
    sender_inv sender_inet sender_packet (rd_refs _ _ _ _ _ _ _ _ _ _ _ sender_ready) B1 B2 B3 B4 dest_range) as (r&s'&E&_&_&HS).
  exists r, s'. split; [exact E|exact HS].
Defined.

Lemma datagram_arrives_witness : exists t', holds_up pools_ip t' receiver_refs in_p data1 (1040 + (SIZEOF_ETH_HDR + IP_HLEN)) 20 /\
  ethernet_input BIG_ENDIAN (fun p n => _ ← ip4_input BIG_ENDIAN p n; mret tt) (fun _ => 1) in_p 1 receiver = handed_to (udp_input in_p 1) t'.
Proof.
  destruct bytes_ok3 as (B1&B2&B3&B4). destruct src_range as [S1 S2].
  destruct (datagram_arrives LITTLE_ENDIAN BIG_ENDIAN pools_ip ram_arp ram_arp_owned pools_ip sender sender_refs out_p data1 dest_le 1 netif_le None 255 0 17
    sender_ready B1 B2 B3 B4 dest_range) as (r&s'&reqs&frame&E&Hs&Harr).
  pose proof (sender_sends r s' reqs frame E Hs) as ->.
  destruct (Harr receiver receiver_refs in_p 1 netif_be padding 1040 60 src_be dest_be (udp_input in_p 1) (fun _ => 1) receiver_netif ltac:(discriminate) receiver_listed
    no_raw_ip ltac:(discriminate) receiver_up ltac:(discriminate) S1 eq_refl (not_for_all BIG_ENDIAN netif_be src_be S1 eq_refl eq_refl) S2 eq_refl receiver_accepts
    (proj2 (not_for_all BIG_ENDIAN netif_be dest_be S2 eq_refl eq_refl)) eq_refl) as (t'&HU&_&_&_&Et).
  exists t'. split; [exact HU|exact Et].
Defined.

Definition datagram_ip : list Z := drop 14 frame_ip ++ padding.
Definition receiver2 : Z * host := holding datagram_ip receiver0.

Lemma datagram_up_ip : holds_up pools_ip (snd receiver2) (bump 1 (fst receiver2) no_refs) (fst receiver2) datagram_ip 1040 46.
Proof.
  assert (HP : packets_ip (fst (a_frames (snd receiver2))) (bump 1 (fst receiver2) no_refs)) by (apply holding_ok; [apply host_packets|by apply bytes_byte_ok|computed|computed]).
  apply (packets_up _ _ _ (buffer_ip 1040 46) _ HP); [computed|vm_compute; discriminate|vm_compute; reflexivity..].
Qed.

Lemma receiver2_facts : a_netifs (snd receiver2) !! 1 = Some netif_be /\ listed (snd receiver2).
Proof.
  assert (Hn : a_netifs (snd receiver2) !! 1 = Some netif_be) by (vm_compute; reflexivity). split; [exact Hn|].
  assert (E : netif_list (inet_of (snd receiver2)) = [1]) by (vm_compute; reflexivity). intros n Hin. rewrite E in Hin. apply list_elem_of_singleton in Hin as ->.
  split; [discriminate|by exists netif_be].
Qed.

Lemma datagram_well_formed : well_formed datagram_ip 46.
Proof. apply (bool_decide_unpack _). vm_compute. exact I. Qed.

Lemma ip4_input_delivers_witness : exists s2, data_up BIG_ENDIAN pools_ip (snd receiver2) (bump 1 (fst receiver2) no_refs) (fst receiver2) 1 1 datagram_ip 1040 46 s2 /\
  ip4_input BIG_ENDIAN (fst receiver2) 1 (snd receiver2) = handed_to (udp_input (fst receiver2) 1) s2.
Proof.
  destruct receiver2_facts as [Hn Hl]. destruct src_range as [S1 S2].
  destruct (ip4_input_delivers BIG_ENDIAN pools_ip (snd receiver2) (bump 1 (fst receiver2) no_refs) (fst receiver2) 1 netif_be datagram_ip 1040 46 Hn Hl
    no_raw_ip datagram_up_ip ltac:(discriminate) (proj2 (not_for_all BIG_ENDIAN netif_be dest_be S2 eq_refl eq_refl))) as (n&Hacc&[(_&_&_&H)|[Hno _]]).
  - destruct (H (udp_input (fst receiver2) 1) eq_refl) as (s2&HU&E).
    pose proof (accepted_first BIG_ENDIAN pools_ip (snd receiver2) 1 dest_be n (ex_intro _ netif_be (conj Hn receiver_accepts)) Hacc) as En. subst n. exists s2. split; [exact HU|exact E].
  - exfalso. apply Hno. split; [exact datagram_well_formed|]. split; [exact (not_for_all BIG_ENDIAN netif_be src_be S1 eq_refl eq_refl)|].
    pose proof (accepted_first BIG_ENDIAN pools_ip (snd receiver2) 1 dest_be n (ex_intro _ netif_be (conj Hn receiver_accepts)) Hacc) as En. subst n. discriminate.
Defined.
