(* ===== verification/Timeouts.v ===== *)
(** * Timeouts of the network stack (core/timeouts.c, api/tcpip.c)

    The list of what is to be done and when, its elements taken from a pool of
    memp.c; the timers of the protocols, which start themselves again; the
    thread that waits for a message no longer than until the next timeout. *)
From S2P Require Import Prelude Memp.
Open Scope Z_scope.

(** A function to call: the two of this file, or another one. *)
Inductive sys_timeout_handler := NULL_HANDLER | tcpip_tcp_timer_handler | lwip_cyclic_timer_handler | other_handler (f : Z).

#[export] Instance sys_timeout_handler_eq_dec : EqDecision sys_timeout_handler.
Proof. solve_decision. Defined.

Record sys_timeo := mkTimeo { t_next : Z; t_time : Z; t_h : sys_timeout_handler; t_arg : Z }.
Definition with_t_next (v : Z) (t : sys_timeo) : sys_timeo := mkTimeo v (t_time t) (t_h t) (t_arg t).
Definition with_t_time (v : Z) (t : sys_timeo) : sys_timeo := mkTimeo (t_next t) v (t_h t) (t_arg t).

(** The pool MEMP_SYS_TIMEOUT. *)
Class TimeoutPool (Q : Type) := { timeo_malloc : prog Q Z; timeo_free : Z -> prog Q unit }.

(** The elements in use, the list, the pool; [clock] is the number of ticks since the
    start, of which xTaskGetTickCount gives the last 32 bits; [client] is the rest of the system. *)
Record timeouts (Q X : Type) := mkTimeouts {
  timeos : gmap Z sys_timeo; next_timeout : Z; current_timeout_due_time : Z; tcpip_tcp_timer_active : bool; t_pool : Q; clock : Z; client : X }.
Arguments mkTimeouts {Q X}.
Arguments timeos {Q X}.
Arguments next_timeout {Q X}.
Arguments current_timeout_due_time {Q X}.
Arguments tcpip_tcp_timer_active {Q X}.
Arguments t_pool {Q X}.
Arguments clock {Q X}.
Arguments client {Q X}.

(** What the timers do, and what they take time for. *)
Class TimerWork (Q X : Type) := {
  work_tcp : prog (timeouts Q X) unit;
  work_etharp : prog (timeouts Q X) unit;
  work_igmp : prog (timeouts Q X) unit;
  work_other : Z -> Z -> prog (timeouts Q X) unit;
  tcp_pcbs_left : X -> bool
}.

(** The thread waits for a message: it gets one, or [msecs] have passed (0: it waits for ever). *)
Class Mailbox (Q X : Type) := mbox_fetch : Z -> prog (timeouts Q X) (option Z).

(** CONFIG_SYSTICK_MS of both boards. *)
Definition portTICK_PERIOD_MS : Z := 1.

Definition LWIP_MAX_TIMEOUT : Z := 0x7fffffff.
Definition SYS_TIMEOUTS_SLEEPTIME_INFINITE : Z := 0xFFFFFFFF.
Definition TCP_TMR_INTERVAL : Z := 250.
Definition ARP_TMR_INTERVAL : Z := 1000.
Definition IGMP_TMR_INTERVAL : Z := 100.

(** [t] comes before [compare_to] on a clock that wraps. *)
Definition TIME_LESS_THAN (t compare_to : Z) : bool := LWIP_MAX_TIMEOUT <? u32 (t - compare_to).

Section timeouts.
Context {Q X : Type} `{!TimeoutPool Q} `{!TimerWork Q X} `{!Mailbox Q X}.

Abbreviation R := (prog (timeouts Q X)).

(** The timers that go on for ever; [arg] is the place in this table. *)
Definition lwip_cyclic_timers : list (Z * R unit) := [(TCP_TMR_INTERVAL, work_tcp); (ARP_TMR_INTERVAL, work_etharp); (IGMP_TMR_INTERVAL, work_igmp)].

Definition with_timeos (m : gmap Z sys_timeo) (s : timeouts Q X) : timeouts Q X :=
  mkTimeouts m (next_timeout s) (current_timeout_due_time s) (tcpip_tcp_timer_active s) (t_pool s) (clock s) (client s).
Definition set_next_timeout (p : Z) : R unit := update (fun s =>
  mkTimeouts (timeos s) p (current_timeout_due_time s) (tcpip_tcp_timer_active s) (t_pool s) (clock s) (client s)).
Definition set_due_time (v : Z) : R unit := update (fun s =>
  mkTimeouts (timeos s) (next_timeout s) v (tcpip_tcp_timer_active s) (t_pool s) (clock s) (client s)).
Definition set_tcp_active (v : bool) : R unit := update (fun s =>
  mkTimeouts (timeos s) (next_timeout s) (current_timeout_due_time s) v (t_pool s) (clock s) (client s)).
Definition on_timeo_pool {A} (p : prog Q A) : R A := fun s =>
  '(x, c) ← p (t_pool s);
  Some (x, mkTimeouts (timeos s) (next_timeout s) (current_timeout_due_time s) (tcpip_tcp_timer_active s) c (clock s) (client s)).

Definition timeo (p : Z) : R sys_timeo := try_ask (fun s => timeos s !! p).
Definition set_timeo (p : Z) (f : sys_timeo -> sys_timeo) : R unit := try_update (fun s => t ← timeos s !! p; Some (with_timeos (<[p := f t]> (timeos s)) s)).
Definition new_timeo (p : Z) (t : sys_timeo) : R unit := update (fun s => with_timeos (<[p := t]> (timeos s)) s).
Definition free_timeo (p : Z) : R unit := _ ← on_timeo_pool (timeo_free p); update (fun s => with_timeos (delete p (timeos s)) s).
Definition timeo_fuel : R nat := ask (fun s => S (size (timeos s))).

Definition sys_now : R Z := ask (fun s => u32 (u32 (clock s) * portTICK_PERIOD_MS)).

(** ** The list *)

(** The new element goes behind the first one [t] that is last or has a later successor. *)
Fixpoint insert_loop (fuel : nat) (timeout t : Z) : R unit :=
  match fuel with
  | O => fun _ => None
  | S fuel' =>
      if t =? 0 then mret tt
      else
        e ← timeo t;
        new ← timeo timeout;
        later ← (if t_next e =? 0 then mret true else n ← timeo (t_next e); mret (TIME_LESS_THAN (t_time new) (t_time n)));
        if (later : bool) then _ ← set_timeo timeout (with_t_next (t_next e)); set_timeo t (with_t_next timeout)
        else insert_loop fuel' timeout (t_next e)
  end.

Definition sys_timeout_abs (abs_time : Z) (handler : sys_timeout_handler) (arg : Z) : R unit :=
  timeout ← on_timeo_pool timeo_malloc;
  if timeout =? 0 then mret tt
  else
    _ ← new_timeo timeout (mkTimeo 0 abs_time handler arg);
    head ← ask next_timeout;
    if head =? 0 then set_next_timeout timeout
    else
      h ← timeo head;
      if TIME_LESS_THAN abs_time (t_time h) then _ ← set_timeo timeout (with_t_next head); set_next_timeout timeout
      else n ← timeo_fuel; insert_loop n timeout head.

Definition sys_timeout (msecs : Z) (handler : sys_timeout_handler) (arg : Z) : R unit :=
  now ← sys_now;
  sys_timeout_abs (u32 (now + msecs)) handler arg.

Fixpoint untimeout_loop (fuel : nat) (handler : sys_timeout_handler) (arg t prev_t : Z) : R unit :=
  match fuel with
  | O => fun _ => None
  | S fuel' =>
      if t =? 0 then mret tt
      else
        e ← timeo t;
        if bool_decide (t_h e = handler) && (t_arg e =? arg) then
          _ ← (if prev_t =? 0 then set_next_timeout (t_next e) else set_timeo prev_t (with_t_next (t_next e)));
          free_timeo t
        else untimeout_loop fuel' handler arg (t_next e) t
  end.

Definition sys_untimeout (handler : sys_timeout_handler) (arg : Z) : R unit :=
  head ← ask next_timeout;
  if head =? 0 then mret tt else n ← timeo_fuel; untimeout_loop n handler arg head 0.

Fixpoint restart_loop (fuel : nat) (base now t : Z) : R unit :=
  match fuel with
  | O => fun _ => None
  | S fuel' =>
      if t =? 0 then mret tt
      else
        e ← timeo t;
        _ ← set_timeo t (with_t_time (u32 (u32 (t_time e - base) + now)));
        restart_loop fuel' base now (t_next e)
  end.

Definition sys_restart_timeouts : R unit :=
  head ← ask next_timeout;
  if head =? 0 then mret tt
  else now ← sys_now; h ← timeo head; n ← timeo_fuel; restart_loop n (t_time h) now head.

Definition sys_timeouts_sleeptime : R Z :=
  head ← ask next_timeout;
  if head =? 0 then mret SYS_TIMEOUTS_SLEEPTIME_INFINITE
  else
    now ← sys_now;
    h ← timeo head;
    if TIME_LESS_THAN (t_time h) now then mret 0 else mret (u32 (t_time h - now)).

(** ** The timers *)

Definition tcpip_tcp_timer : R unit :=
  _ ← work_tcp;
  left ← ask (fun s => tcp_pcbs_left (client s));
  if (left : bool) then sys_timeout TCP_TMR_INTERVAL tcpip_tcp_timer_handler 0 else set_tcp_active false.

Definition tcp_timer_needed : R unit :=
  active ← ask tcpip_tcp_timer_active;
  left ← ask (fun s => tcp_pcbs_left (client s));
  when (negb active && left) (_ ← set_tcp_active true; sys_timeout TCP_TMR_INTERVAL tcpip_tcp_timer_handler 0).

Definition lwip_cyclic_timer (arg : Z) : R unit :=
  '(interval_ms, handler) ← try_ask (fun _ => lwip_cyclic_timers !! Z.to_nat arg);
  _ ← handler;
  now ← sys_now;
  due ← ask current_timeout_due_time;
  let next_timeout_time := u32 (due + interval_ms) in
  if TIME_LESS_THAN next_timeout_time now then sys_timeout_abs (u32 (now + interval_ms)) lwip_cyclic_timer_handler arg
  else sys_timeout_abs next_timeout_time lwip_cyclic_timer_handler arg.

Fixpoint init_loop_from (fuel : nat) (i : Z) : R unit :=
  match fuel with
  | O => mret tt
  | S fuel' =>
      '(interval_ms, _) ← try_ask (fun _ => lwip_cyclic_timers !! Z.to_nat i);
      _ ← sys_timeout interval_ms lwip_cyclic_timer_handler i;
      init_loop_from fuel' (i + 1)
  end.

(** The timer of TCP is started on demand. *)
Definition sys_timeouts_init : R unit := init_loop_from 2 1.

Definition call_handler (h : sys_timeout_handler) (arg : Z) : R unit :=
  match h with
  | NULL_HANDLER => mret tt
  | tcpip_tcp_timer_handler => tcpip_tcp_timer
  | lwip_cyclic_timer_handler => lwip_cyclic_timer arg
  | other_handler f => work_other f arg
  end.

(** [fuel] bounds the number of timeouts that are handled. *)
Fixpoint check_loop (fuel : nat) (now : Z) : R unit :=
  match fuel with
  | O => fun _ => None
  | S fuel' =>
      tmptimeout ← ask next_timeout;
      if tmptimeout =? 0 then mret tt
      else
        t ← timeo tmptimeout;
        if TIME_LESS_THAN now (t_time t) then mret tt
        else
          _ ← set_next_timeout (t_next t);
          _ ← set_due_time (t_time t);
          _ ← free_timeo tmptimeout;
          _ ← call_handler (t_h t) (t_arg t);
          check_loop fuel' now
  end.

Definition sys_check_timeouts (fuel : nat) : R unit := now ← sys_now; check_loop fuel now.

(** ** Waiting for a message *)

Fixpoint tcpip_timeouts_mbox_fetch (fuel : nat) : R (option Z) :=
  match fuel with
  | O => fun _ => None
  | S fuel' =>
      sleeptime ← sys_timeouts_sleeptime;
      if sleeptime =? SYS_TIMEOUTS_SLEEPTIME_INFINITE then mbox_fetch 0
      else if sleeptime =? 0 then _ ← sys_check_timeouts fuel'; tcpip_timeouts_mbox_fetch fuel'
      else
        res ← mbox_fetch sleeptime;
        match res with
        | None => _ ← sys_check_timeouts fuel'; tcpip_timeouts_mbox_fetch fuel'
        | Some msg => mret (Some msg)
        end
  end.
End timeouts.
