(* ===== verification/TimeoutsQueue.v ===== *)
(** * Timeouts: a queue in the order of the due times

    On a clock that wraps, the list of timeouts is the queue of what is to be done,
    earliest first and in the order of the calls among equals, as long as no
    timeout is more than 2^30 milliseconds away; what is due is done once, and
    nothing else. *)
From Stdlib Require Import Sorted.
From S2P Require Import Prelude Memp MempProofs Etharp FrameLaws ArpPool Timeouts.
Open Scope Z_scope.

(** A pool hands out what is not handed out, and fails only when all of it is. *)
Class TimeoutPoolOk (Q : Type) `{!TimeoutPool Q} := {
  t_handed : Q -> gset Z -> Prop;
  t_capacity : Z;
  timeo_malloc_ok c X : t_handed c X -> exists r c', timeo_malloc c = Some (r, c') /\
    (r = 0 /\ t_handed c' X /\ t_capacity <= Z.of_nat (size X) \/ r <> 0 /\ r ∉ X /\ t_handed c' ({[r]} ∪ X));
  timeo_bound c X : t_handed c X -> Z.of_nat (size X) <= t_capacity;
  timeo_free_ok c X r : t_handed c X -> r ∈ X -> exists c', timeo_free r c = Some (tt, c') /\ t_handed c' (X ∖ {[r]})
}.

(** MEMP_SYS_TIMEOUT is such a pool. *)
Definition timeout_pool : TimeoutPool memp_state := {| timeo_malloc := memp_malloc MEMP_SYS_TIMEOUT; timeo_free := memp_free MEMP_SYS_TIMEOUT |}.

Definition timeout_pool_ok (memp_pools : memp_t -> memp_desc) (Hlayout : layout_ok memp_pools) : @TimeoutPoolOk memp_state timeout_pool.
Proof.
  refine (@Build_TimeoutPoolOk memp_state timeout_pool (pool_handed memp_pools MEMP_SYS_TIMEOUT) (desc_num (memp_pools MEMP_SYS_TIMEOUT)) _ _ _).
  - exact (pool_handed_malloc memp_pools Hlayout MEMP_SYS_TIMEOUT).
  - exact (pool_handed_bound memp_pools Hlayout MEMP_SYS_TIMEOUT).
  - exact (pool_handed_free memp_pools Hlayout MEMP_SYS_TIMEOUT).
Defined.

(** ** The clock *)

(** Times that are less than 2^31 apart are compared as on a clock that does not wrap. *)
Lemma time_less_than a b : Z.abs (a - b) < 2 ^ 31 -> TIME_LESS_THAN (u32 a) (u32 b) = (a <? b).
Proof.
  intros Hab. unfold TIME_LESS_THAN, LWIP_MAX_TIMEOUT. replace (u32 (u32 a - u32 b)) with (u32 (a - b)) by (unfold u32; dlia).
  apply eq_true_iff_eq. rewrite !Z.ltb_lt. unfold u32. dlia.
Qed.

(** ** The queue *)

Record item := mkItem { due : Z; what : sys_timeout_handler; arg : Z }.

(** An element of the list with what it says. *)
Abbreviation queued := (Z * item)%type.

Fixpoint insert_item (e : queued) (l : list queued) : list queued :=
  match l with
  | [] => [e]
  | y :: l' => if due e.2 <? due y.2 then e :: l else y :: insert_item e l'
  end.

Fixpoint remove_item (h : sys_timeout_handler) (a : Z) (l : list queued) : list queued :=
  match l with
  | [] => []
  | y :: l' => if decide (what y.2 = h /\ arg y.2 = a) then l' else y :: remove_item h a l'
  end.

Definition in_order (l : list queued) : Prop := StronglySorted (fun x y => due x.2 <= due y.2) l.

Lemma insert_item_perm e l : insert_item e l ≡ₚ e :: l.
Proof. induction l as [|y l IH]; cbn; [done|]. destruct (_ <? _); [done|]. rewrite IH. constructor. Qed.

Lemma insert_item_in_order e l : in_order l -> in_order (insert_item e l).
Proof.
  unfold in_order. induction 1 as [|y l Hs IH Hall]; cbn; [by repeat constructor|]. destruct (Z.ltb_spec (due e.2) (due y.2)).
  - constructor; [by constructor|]. constructor; [lia|]. eapply Forall_impl; [exact Hall|]. cbn. intros z ?. lia.
  - constructor; [done|]. rewrite insert_item_perm. by constructor.
Qed.

Lemma remove_item_sublist h a l : remove_item h a l `sublist_of` l.
Proof. induction l as [|y l IH]; cbn; [done|]. destruct (decide _); [by apply sublist_cons|by apply sublist_skip]. Qed.

(** ** The list in memory *)

Fixpoint tlist (M : gmap Z sys_timeo) (p : Z) (l : list queued) : Prop :=
  match l with
  | [] => p = 0
  | (a, x) :: l' => p = a /\ a <> 0 /\ exists n, M !! a = Some (mkTimeo n (u32 (due x)) (what x) (arg x)) /\ tlist M n l'
  end.

Lemma tlist_frame M M' p l : (forall a, a ∈ l.*1 -> M' !! a = M !! a) -> tlist M p l -> tlist M' p l.
Proof.
  revert p. induction l as [|[a x] l IH]; intros p HM; [done|]. cbn. intros (->&Ha&n&Hn&Hl). split; [done|]. split; [done|]. exists n.
  split; [by rewrite HM by left|]. apply IH; [|done]. intros b Hb. apply HM. by right.
Qed.

Lemma tlist_in M p l a x : tlist M p l -> (a, x) ∈ l -> exists n, M !! a = Some (mkTimeo n (u32 (due x)) (what x) (arg x)).
Proof.
  revert p. induction l as [|[b y] l IH]; intros p; cbn; [by intros _ ?%not_elem_of_nil|]. intros (->&Hb&n&Hn&Hl) [[= -> ->]|Hin]%elem_of_cons; [by exists n|by eapply IH].
Qed.

Section proofs.
Context {Q X : Type} `{!TimeoutPool Q} `{!TimeoutPoolOk Q} `{!TimerWork Q X} `{!Mailbox Q X}.
Implicit Types (s : timeouts Q X) (l : list queued).

Definition RANGE : Z := 2 ^ 30.

(** The queue [l] is what the memory holds. *)
Record rep s l : Prop := {
  rp_list : tlist (timeos s) (next_timeout s) l;
  rp_nodup : NoDup l.*1;
  rp_dom : dom (timeos s) = list_to_set l.*1;
  rp_pool : t_handed (t_pool s) (dom (timeos s));
  rp_sorted : in_order l;
  rp_window : Forall (fun x => clock s - RANGE <= due x.2 < clock s + RANGE) l
}.

Lemma sys_now_run s : sys_now s = Some (u32 (clock s), s).
Proof. unfold sys_now, ask, portTICK_PERIOD_MS, u32. rewrite Z.mul_1_r, Z.mod_mod by done. done. Qed.

Lemma timeo_run s p t : timeos s !! p = Some t -> timeo p s = Some (t, s).
Proof. intros E. unfold timeo, try_ask. by rewrite E. Qed.

Lemma set_timeo_run s p f t : timeos s !! p = Some t -> set_timeo p f s = Some (tt, with_timeos (<[p := f t]> (timeos s)) s).
Proof. intros E. unfold set_timeo, try_update. by rewrite E. Qed.

(** All of these times are close enough to be compared. *)
Definition close (l : list queued) : Prop := forall x y, x ∈ l -> y ∈ l -> Z.abs (due x.2 - due y.2) < 2 ^ 31.

Lemma window_close c l : Forall (fun x => c - RANGE <= due x.2 < c + RANGE) l -> close l.
Proof. rewrite Forall_forall. intros Hw x y Hx%Hw Hy%Hw. unfold RANGE in *. lia. Qed.

Lemma skip_second {A} (x y z : A) (l : list A) : z ∈ x :: l -> z ∈ x :: y :: l.
Proof. rewrite !elem_of_cons. naive_solver. Qed.

Lemma insert_loop_run fuel s p x n0 t y l : timeos s !! p = Some (mkTimeo n0 (u32 (due x)) (what x) (arg x)) -> p <> 0 ->
  tlist (timeos s) t ((t, y) :: l) -> NoDup (p :: t :: l.*1) -> close ((p, x) :: (t, y) :: l) -> due y <= due x -> (length l < fuel)%nat ->
  exists M, insert_loop fuel p t s = Some (tt, with_timeos M s) /\ tlist M t (insert_item (p, x) ((t, y) :: l)) /\ dom M = dom (timeos s) /\
    forall a, a ∉ p :: t :: l.*1 -> M !! a = timeos s !! a.
Proof.
  intros Hp Hp0. revert s t y l Hp. induction fuel as [|fuel IH]; intros s t y l Hp Hl Hnd Hcl Hle Hf; [lia|]. cbn [insert_loop]. cbn [tlist] in Hl. destruct Hl as (_&Ht0&n&Ht&Hl).
  rewrite (proj2 (Z.eqb_neq t 0)) by done. rewrite (bind_run _ _ _ _ _ (timeo_run _ _ _ Ht)), (bind_run _ _ _ _ _ (timeo_run _ _ _ Hp)). cbn [t_next t_time].
  apply NoDup_cons in Hnd as [Hnd1 Hnd2]. pose proof Hnd2 as [Hnd3 Hnd4]%NoDup_cons. assert (Hpt : t <> p) by (intros ->; apply Hnd1; by left).
  cbn [insert_item snd]. rewrite (proj2 (Z.ltb_ge (due x) (due y))) by lia.
  assert (Hput : forall l', l' = (p, x) :: l -> exists M, (_ ← set_timeo p (with_t_next n); set_timeo t (with_t_next p)) s = Some (tt, with_timeos M s) /\ tlist M t ((t, y) :: l') /\ dom M = dom (timeos s) /\
    forall a, a ∉ p :: t :: l.*1 -> M !! a = timeos s !! a).
  { intros l' ->. rewrite (bind_run _ _ _ _ _ (set_timeo_run _ _ _ _ Hp)). set (s1 := with_timeos _ s).
    assert (Ht1 : timeos s1 !! t = Some (mkTimeo n (u32 (due y)) (what y) (arg y))) by (cbn [s1 with_timeos timeos]; by rewrite lookup_insert_ne).
    rewrite (set_timeo_run _ _ _ _ Ht1). eexists. split; [done|]. cbn [s1 with_timeos timeos]. split.
    - cbn [tlist]. split; [done|]. split; [done|]. exists p. split; [by rewrite lookup_insert_eq|]. split; [done|]. split; [done|]. exists n.
      rewrite lookup_insert_ne, lookup_insert_eq by done. split; [done|]. eapply tlist_frame; [|exact Hl]. intros a Ha. rewrite !lookup_insert_ne; [done| |].
      + intros <-. apply Hnd1. by right.
      + intros <-. by apply Hnd3.
    - split; [rewrite !dom_insert_lookup_L; [done|by eexists|]; rewrite lookup_insert_ne by done; by eexists|].
      intros a [Ha1 [Ha2 _]%not_elem_of_cons]%not_elem_of_cons. by rewrite !lookup_insert_ne. }
  destruct l as [|[t2 z] l]; cbn [tlist] in Hl.
  { subst n. rewrite Z.eqb_refl, ret_bind. cbn [insert_item]. by apply Hput. }
  destruct Hl as (->&Ht20&n2&Ht2&Hl). rewrite (proj2 (Z.eqb_neq t2 0)), bind_assoc_run by done. rewrite (bind_run _ _ _ _ _ (timeo_run _ _ _ Ht2)), ret_bind. cbn [t_time].
  rewrite time_less_than by (apply (Hcl (p, x) (t2, z)); [left|do 2 right; left]). cbn [insert_item snd]. destruct (due x <? due z) eqn:E.
  { by apply Hput. }
  apply Z.ltb_ge in E. destruct (IH s t2 z l Hp) as (M&EM&HM&HD&HF).
  - cbn. split; [done|]. split; [done|]. by exists n2.
  - apply NoDup_cons. split; [|done]. intros H. apply Hnd1. by right.
  - intros a b Ha Hb. apply Hcl; by apply skip_second.
  - done.
  - cbn in Hf. lia.
  - exists M. split; [exact EM|]. split; [cbn [tlist]; split; [done|split; [done|exists t2; split]]|].
    + rewrite HF; [done|]. by apply not_elem_of_cons.
    + cbn [insert_item snd] in HM. rewrite (proj2 (Z.ltb_ge (due x) (due z)) E) in HM. exact HM.
    + split; [exact HD|]. intros a [Ha1 [_ Ha2]%not_elem_of_cons]%not_elem_of_cons. apply HF. by apply not_elem_of_cons.
Qed.

Lemma on_timeo_pool_run {B} (q : prog Q B) s y c : q (t_pool s) = Some (y, c) ->
  on_timeo_pool q s = Some (y, mkTimeouts (timeos s) (next_timeout s) (current_timeout_due_time s) (tcpip_tcp_timer_active s) c (clock s) (client s)).
Proof. intros E. unfold on_timeo_pool. by rewrite E. Qed.

Lemma list_size M p l : tlist M p l -> NoDup l.*1 -> dom M = list_to_set l.*1 -> size M = length l.
Proof. intros _ Hnd Hd. by rewrite <- size_dom, Hd, size_list_to_set, length_fmap. Qed.

(** The parts of the state beside the list and the pool. *)
Definition same_rest_t s s' : Prop :=
  current_timeout_due_time s' = current_timeout_due_time s /\ tcpip_tcp_timer_active s' = tcpip_tcp_timer_active s /\ clock s' = clock s /\ client s' = client s.

(** A new timeout, or the pool is used up. *)
Definition armed s l (D : Z) (h : sys_timeout_handler) (a : Z) s' l' : Prop :=
  same_rest_t s s' /\ rep s' l' /\ (l' = l /\ t_capacity <= Z.of_nat (length l) \/ exists p, l' = insert_item (p, mkItem D h a) l).

Lemma sys_timeout_abs_run s l D h a : rep s l -> clock s - RANGE <= D < clock s + RANGE ->
  exists s' l', sys_timeout_abs (u32 D) h a s = Some (tt, s') /\ armed s l D h a s' l'.
Proof.
  intros [Hl Hnd Hd Hp Hs Hw] HD. unfold sys_timeout_abs. pose proof (list_size _ _ _ Hl Hnd Hd) as Hsz.
  destruct (timeo_malloc_ok _ _ Hp) as (p&c&E&[(->&Hc&Hcap)|(Hp0&Hpn&Hc)]); rewrite (bind_run _ _ _ _ _ (on_timeo_pool_run _ _ _ _ E)).
  { eexists _, l. split; [done|]. split; [done|]. split; [by split|]. left. split; [done|]. rewrite size_dom in Hcap. lia. }
  rewrite (proj2 (Z.eqb_neq p 0)) by done. unfold new_timeo. rewrite update_bind. cbn [with_timeos timeos next_timeout]. set (x := mkItem D h a).
  set (s1 := with_timeos _ _). rewrite ask_bind. change (next_timeout s1) with (next_timeout s).
  assert (Hpl : p ∉ l.*1) by (rewrite Hd in Hpn; by rewrite elem_of_list_to_set in Hpn).
  assert (Hp1 : timeos s1 !! p = Some (mkTimeo 0 (u32 D) h a)) by (cbn; apply lookup_insert_eq).
  assert (Hl1 : tlist (timeos s1) (next_timeout s) l).
  { eapply tlist_frame; [|exact Hl]. intros b Hb. cbn. apply lookup_insert_ne. by intros <-. }
  assert (Hdone : forall s2, tlist (timeos s2) (next_timeout s2) (insert_item (p, x) l) -> dom (timeos s2) = {[p]} ∪ dom (timeos s) -> t_pool s2 = c -> clock s2 = clock s -> rep s2 (insert_item (p, x) l)).
  { intros s2 Hl2 Hd2 Hc2 Hk2. pose proof (insert_item_perm (p, x) l) as Hperm. split; [done| | | |by apply insert_item_in_order|].
    - rewrite Hperm. cbn. by constructor.
    - rewrite Hd2, Hd, Hperm. done.
    - by rewrite Hc2, Hd2.
    - rewrite Hperm, Hk2. by constructor. }
  assert (Hfin : forall M nx, tlist M nx (insert_item (p, x) l) -> dom M = {[p]} ∪ dom (timeos s) ->
    armed s l D h a (mkTimeouts M nx (current_timeout_due_time s) (tcpip_tcp_timer_active s) c (clock s) (client s)) (insert_item (p, x) l)).
  { intros M nx HM HdM. split; [done|]. split; [by apply Hdone|]. right. by exists p. }
  destruct l as [|[t y] l]; cbn [tlist] in Hl1.
  { rewrite Hl1, Z.eqb_refl. eexists _, _. split; [done|]. apply Hfin; [|cbn; by rewrite dom_insert_L]. cbn. split; [done|]. split; [done|]. exists 0. split; [apply lookup_insert_eq|done]. }
  destruct Hl1 as (Hnx&Ht0&n&Ht&Hl1). rewrite Hnx, (proj2 (Z.eqb_neq t 0)) by done. rewrite (bind_run _ _ _ _ _ (timeo_run _ _ _ Ht)). cbn [t_time].
  assert (Hcl : close ((p, x) :: (t, y) :: l)) by (apply (window_close (clock s)); by constructor).
  rewrite time_less_than by (apply (Hcl (p, x) (t, y)); [left|right; left]). change (due x) with D. destruct (Z.ltb_spec D (due y)) as [Hlt|Hge].
  - rewrite (bind_run _ _ _ _ _ (set_timeo_run _ _ _ _ Hp1)). eexists _, _. split; [done|]. cbn [with_timeos timeos]. apply Hfin.
    + cbn [insert_item snd due x]. rewrite (proj2 (Z.ltb_lt D (due y)) Hlt). cbn [tlist]. split; [done|]. split; [done|]. exists t. split; [apply lookup_insert_eq|].
      split; [done|]. split; [done|]. exists n. cbn [fmap list_fmap fst] in Hpl. split.
      * rewrite lookup_insert_ne; [done|]. intros <-. apply Hpl. by left.
      * eapply tlist_frame; [|exact Hl1]. intros b Hb. rewrite lookup_insert_ne; [done|]. intros <-. apply Hpl. by right.
    + rewrite dom_insert_lookup_L by (by eexists). cbn. by rewrite dom_insert_L.
  - unfold timeo_fuel. rewrite ask_bind. destruct (insert_loop_run (S (size (timeos s1))) s1 p x 0 t y l Hp1 Hp0) as (M&EM&HM&HdM&_).
    + cbn [tlist]. split; [done|]. split; [done|]. by exists n.
    + by constructor.
    + done.
    + done.
    + cbn [s1 with_timeos timeos]. rewrite map_size_insert_None by (by apply not_elem_of_dom). rewrite Hsz. cbn. lia.
    + rewrite EM. eexists _, _. split; [done|]. apply Hfin; [change (next_timeout s1) with (next_timeout s); rewrite Hnx; exact HM|]. rewrite HdM. cbn. by rewrite dom_insert_L.
Qed.

Lemma sys_timeout_run s l msecs h a : rep s l -> 0 <= msecs < RANGE ->
  exists s' l', sys_timeout msecs h a s = Some (tt, s') /\ armed s l (clock s + msecs) h a s' l'.
Proof.
  intros HR Hm. unfold sys_timeout. rewrite (bind_run _ _ _ _ _ (sys_now_run s)). replace (u32 (u32 (clock s) + msecs)) with (u32 (clock s + msecs)) by (unfold u32; dlia).
  apply sys_timeout_abs_run; [done|]. unfold RANGE in *. lia.
Qed.

(** ** Taking a timeout out *)

Lemma tlist_unlink M p l1 pr y t x l2 e : tlist M p (l1 ++ (pr, y) :: (t, x) :: l2) -> NoDup (l1 ++ (pr, y) :: (t, x) :: l2).*1 -> M !! t = Some e ->
  exists e', M !! pr = Some e' /\ tlist (<[pr := with_t_next (t_next e) e']> M) p (l1 ++ (pr, y) :: l2).
Proof.
  intros Hl Hnd Ht. revert p Hl Hnd. induction l1 as [|[b z] l1 IH]; intros p Hl Hnd; cbn in Hl, Hnd |- *.
  - destruct Hl as (->&Hpr&n&Hn&->&Ht0&n2&Hn2&Hl). rewrite Ht in Hn2. injection Hn2 as ->. apply NoDup_cons in Hnd as [Hnd1 [Hnd2 Hnd3]%NoDup_cons].
    eexists. split; [exact Hn|]. split; [done|]. split; [done|]. exists n2. split; [by rewrite lookup_insert_eq|]. eapply tlist_frame; [|exact Hl].
    intros c Hc. apply lookup_insert_ne. intros <-. apply Hnd1. by right.
  - destruct Hl as (->&Hb&n&Hn&Hl). apply NoDup_cons in Hnd as [Hnd1 Hnd2]. destruct (IH n Hl Hnd2) as (e'&He'&HM). exists e'. split; [done|].
    split; [done|]. split; [done|]. exists n. split; [|done]. rewrite lookup_insert_ne; [done|]. intros <-. apply Hnd1. rewrite fmap_app. apply elem_of_app. right. left.
Qed.

Lemma free_timeo_run s p : p ∈ dom (timeos s) -> t_handed (t_pool s) (dom (timeos s)) -> exists c, t_handed c (dom (timeos s) ∖ {[p]}) /\
  free_timeo p s = Some (tt, mkTimeouts (delete p (timeos s)) (next_timeout s) (current_timeout_due_time s) (tcpip_tcp_timer_active s) c (clock s) (client s)).
Proof.
  intros Hp Hh. destruct (timeo_free_ok _ _ _ Hh Hp) as (c&E&Hc). exists c. split; [done|]. unfold free_timeo. by rewrite (bind_run _ _ _ _ _ (on_timeo_pool_run _ _ _ _ E)).
Qed.

(** The queue without one of its elements. *)
Lemma rep_without s l1 e l2 M nx c due : rep s (l1 ++ e :: l2) -> tlist M nx (l1 ++ l2) -> dom M = dom (timeos s) -> t_handed c (dom (timeos s) ∖ {[e.1]}) ->
  rep (mkTimeouts (delete e.1 M) nx due (tcpip_tcp_timer_active s) c (clock s) (client s)) (l1 ++ l2).
Proof.
  intros [Hl Hnd Hd Hp Hs Hw] HM HD Hc. pose proof (Permutation_middle l1 l2 e) as Hperm. symmetry in Hperm.
  assert (Hnd' : e.1 ∉ (l1 ++ l2).*1 /\ NoDup (l1 ++ l2).*1) by (rewrite Hperm in Hnd; by apply NoDup_cons in Hnd).
  destruct Hnd' as [Hn1 Hn2]. assert (Hdom : dom (timeos s) ∖ {[e.1]} = list_to_set (l1 ++ l2).*1) by (rewrite Hd, Hperm; cbn; apply set_eq; intros z; rewrite elem_of_difference, elem_of_union, elem_of_singleton, !elem_of_list_to_set; naive_solver).
  split; cbn [timeos next_timeout t_pool clock].
  - eapply tlist_frame; [|exact HM]. intros a Ha. apply lookup_delete_ne. by intros <-.
  - done.
  - by rewrite dom_delete_L, HD, Hdom.
  - by rewrite dom_delete_L, HD.
  - clear -Hs. unfold in_order in *. induction l1 as [|y l1 IH]; cbn in *; apply StronglySorted_inv in Hs as [Hs Hall]; [done|]. constructor; [by apply IH|].
    apply Forall_app in Hall as [H1 [_ H2]%Forall_cons]. by apply Forall_app.
  - rewrite Hperm in Hw. by apply Forall_cons in Hw as [_ Hw].
Qed.

Definition last_ptr (l : list queued) : Z := match last l with Some e => e.1 | None => 0 end.

Lemma untimeout_loop_run fuel s h a l1 l2 t : rep s (l1 ++ l2) -> tlist (timeos s) t l2 -> (l1 = [] -> t = next_timeout s) -> (length l2 < fuel)%nat ->
  exists s', untimeout_loop fuel h a t (last_ptr l1) s = Some (tt, s') /\ rep s' (l1 ++ remove_item h a l2) /\ same_rest_t s s'.
Proof.
  revert l1 l2 t. induction fuel as [|fuel IH]; intros l1 l2 t HR Hl Ht Hf; [lia|]. cbn [untimeout_loop]. destruct l2 as [|[b x] l2]; cbn [tlist] in Hl.
  { subst t. rewrite Z.eqb_refl. by exists s. }
  destruct Hl as (->&Hb&n&Hn&Hl). rewrite (proj2 (Z.eqb_neq b 0)) by done. rewrite (bind_run _ _ _ _ _ (timeo_run _ _ _ Hn)). cbn [t_h t_arg t_next remove_item snd].
  assert (Ec : bool_decide (what x = h) && (arg x =? a) = bool_decide (what x = h /\ arg x = a)).
  { apply eq_true_iff_eq. rewrite andb_true_iff, !bool_decide_eq_true, Z.eqb_eq. done. }
  rewrite Ec. clear Ec. destruct (decide (what x = h /\ arg x = a)) as [Hm|Hm].
  - rewrite bool_decide_eq_true_2 by done. pose proof HR as [Hl0 Hnd Hd Hp _ _].
    assert (Hbd : b ∈ dom (timeos s)) by (apply elem_of_dom; by eexists).
    destruct l1 as [|[pr y] l1 _] using rev_ind.
    + change (last_ptr []) with 0. cbn [Z.eqb]. unfold set_next_timeout. rewrite update_bind. set (s1 := mkTimeouts _ _ _ _ _ _ _).
      destruct (free_timeo_run s1 b Hbd Hp) as (c&Hc&E). rewrite E. eexists. split; [done|]. split; [|done]. exact (rep_without s [] (b, x) l2 _ _ c _ HR Hl eq_refl Hc).
    + assert (Hlp : last_ptr (l1 ++ [(pr, y)]) = pr) by (unfold last_ptr; by rewrite last_snoc). rewrite Hlp.
      assert (Hpr0 : pr <> 0).
      { clear -Hl0. revert Hl0. generalize (next_timeout s). rewrite <- !app_assoc. induction l1 as [|[z w] l1 IH]; cbn; intros p; [by intros (_&?&_)|]. intros (_&_&m&_&H). by eapply IH. }
      rewrite (proj2 (Z.eqb_neq pr 0)) by done. rewrite <- app_assoc in Hl0, Hnd. cbn [app] in Hl0, Hnd.
      destruct (tlist_unlink _ _ _ _ _ _ _ _ _ Hl0 Hnd Hn) as (e'&He'&HM). rewrite (bind_run _ _ _ _ _ (set_timeo_run _ _ _ _ He')). set (s1 := with_timeos _ s).
      assert (Hd1 : dom (timeos s1) = dom (timeos s)) by (cbn; apply dom_insert_lookup_L; by eexists).
      destruct (free_timeo_run s1 b) as (c&Hc&E); [by rewrite Hd1|by rewrite Hd1|]. rewrite E. eexists. split; [done|]. split; [|done].
      rewrite Hd1 in Hc. apply (rep_without s (l1 ++ [(pr, y)]) (b, x) l2 _ _ c _ HR); [|exact Hd1|exact Hc]. by rewrite <- app_assoc.
  - rewrite bool_decide_eq_false_2 by done. destruct (IH (l1 ++ [(b, x)]) l2 n) as (s'&E&HR'&Hs').
    + by rewrite <- app_assoc.
    + done.
    + by destruct l1.
    + cbn in Hf. lia.
    + assert (Hlp : last_ptr (l1 ++ [(b, x)]) = b) by (unfold last_ptr; by rewrite last_snoc). rewrite Hlp in E. exists s'. split; [exact E|]. split; [|done].
      by rewrite <- app_assoc in HR'.
Qed.

Lemma sys_untimeout_run s l h a : rep s l -> exists s', sys_untimeout h a s = Some (tt, s') /\ rep s' (remove_item h a l) /\ same_rest_t s s'.
Proof.
  intros HR. unfold sys_untimeout. rewrite ask_bind. pose proof HR as [Hl Hnd Hd _ _ _]. destruct (Z.eqb_spec (next_timeout s) 0) as [E|E].
  - exists s. split; [done|]. split; [|done]. destruct l as [|[b x] l]; [done|]. cbn in Hl. destruct Hl as (H1&H2&_). congruence.
  - unfold timeo_fuel. rewrite ask_bind. apply (untimeout_loop_run _ s h a [] l); [done|done|done|]. rewrite (list_size _ _ _ Hl Hnd Hd). lia.
Qed.
(** ** The time left, and a new start *)

Definition time_left (now : Z) (l : list queued) : Z := match l with [] => SYS_TIMEOUTS_SLEEPTIME_INFINITE | e :: _ => Z.max 0 (due e.2 - now) end.

Lemma sleeptime_run s l : rep s l -> sys_timeouts_sleeptime s = Some (time_left (clock s) l, s).
Proof.
  intros [Hl _ _ _ _ Hw]. unfold sys_timeouts_sleeptime. rewrite ask_bind. destruct l as [|[b x] l]; cbn [tlist] in Hl; [by rewrite Hl, Z.eqb_refl|].
  destruct Hl as (->&Hb&n&Hn&_). rewrite (proj2 (Z.eqb_neq b 0)), (bind_run _ _ _ _ _ (sys_now_run s)), (bind_run _ _ _ _ _ (timeo_run _ _ _ Hn)) by done. cbn [t_time time_left snd].
  apply Forall_cons in Hw as [Hw _]. cbn in Hw. unfold RANGE in Hw. rewrite time_less_than by lia. destruct (Z.ltb_spec (due x) (clock s)) as [Hlt|Hge].
  - rewrite Z.max_l by lia. done.
  - rewrite Z.max_r by lia. replace (u32 (u32 (due x) - u32 (clock s))) with (due x - clock s) by (unfold u32; dlia). done.
Qed.

(** All the times moved by [d]. *)
Definition rebase (d : Z) (l : list queued) : list queued := (fun e => (e.1, mkItem (due e.2 + d) (what e.2) (arg e.2))) <$> l.

Definition time_first s l : Z := match l with [] => clock s | e :: _ => due e.2 end.

Lemma rebase_keys d l : (rebase d l).*1 = l.*1.
Proof. unfold rebase. rewrite <- list_fmap_compose. by apply list_fmap_ext. Qed.

Lemma rebase_in_order d l : in_order l -> in_order (rebase d l).
Proof.
  unfold in_order. induction 1 as [|x l Hs IH Hall]; cbn; [constructor|]. constructor; [done|]. apply Forall_fmap. eapply Forall_impl; [exact Hall|]. cbn. intros y ?. lia.
Qed.

Lemma restart_loop_run fuel s b c t l : tlist (timeos s) t l -> NoDup l.*1 -> (length l < fuel)%nat ->
  exists M, restart_loop fuel (u32 b) (u32 c) t s = Some (tt, with_timeos M s) /\ tlist M t (rebase (c - b) l) /\ dom M = dom (timeos s) /\
    forall a, a ∉ l.*1 -> M !! a = timeos s !! a.
Proof.
  revert s t l. induction fuel as [|fuel IH]; intros s t l Hl Hnd Hf; [lia|]. cbn [restart_loop]. destruct l as [|[a x] l]; cbn [tlist] in Hl.
  { subst t. rewrite Z.eqb_refl. exists (timeos s). split; [by destruct s|done]. }
  destruct Hl as (->&Ha&n&Hn&Hl). apply NoDup_cons in Hnd as [Hn1 Hn2]. rewrite (proj2 (Z.eqb_neq a 0)) by done.
  rewrite (bind_run _ _ _ _ _ (timeo_run _ _ _ Hn)), (bind_run _ _ _ _ _ (set_timeo_run _ _ _ _ Hn)). unfold with_t_time. cbn [t_time t_next t_h t_arg].
  set (e := mkTimeo _ _ _ _). destruct (IH (with_timeos (<[a:=e]> (timeos s)) s) n l) as (M&E&HM&HD&HF).
  - eapply tlist_frame; [|exact Hl]. intros z Hz. apply lookup_insert_ne. by intros <-.
  - done.
  - cbn in Hf. lia.
  - cbn [with_timeos timeos] in HD, HF. exists M. split; [exact E|]. split; [|split].
    + cbn [rebase fmap list_fmap tlist fst snd due what arg]. split; [done|]. split; [done|]. exists n. split; [|exact HM].
      rewrite HF, lookup_insert_eq by done. unfold e. do 2 f_equal. unfold u32. dlia.
    + rewrite HD. apply dom_insert_lookup_L. by eexists.
    + cbn. intros z [Hz1 Hz2]%not_elem_of_cons. rewrite HF by done. by apply lookup_insert_ne.
Qed.

(** The first timeout is due now, the others as much later as they were. *)
Lemma sys_restart_run s l : rep s l -> Forall (fun e => due e.2 < time_first s l + RANGE) l ->
  exists s', sys_restart_timeouts s = Some (tt, s') /\ rep s' (rebase (clock s - time_first s l) l) /\ same_rest_t s s'.
Proof.
  intros [Hl Hnd Hd Hp Hs Hw] Hsp. unfold sys_restart_timeouts. rewrite ask_bind. destruct l as [|[b x] l]; pose proof Hl as Hl0; cbn [tlist] in Hl.
  { rewrite Hl, Z.eqb_refl. exists s. split; [done|]. split; [|done]. by constructor. }
  destruct Hl as (Hb&Hb0&n&Hn&Hl). cbn [time_first snd] in *. rewrite Hb, (proj2 (Z.eqb_neq b 0)), (bind_run _ _ _ _ _ (sys_now_run s)), (bind_run _ _ _ _ _ (timeo_run _ _ _ Hn)) by done. cbn [t_time].
  unfold timeo_fuel. rewrite ask_bind. rewrite Hb in Hl0. destruct (restart_loop_run (S (size (timeos s))) s (due x) (clock s) b ((b, x) :: l) Hl0 Hnd) as (M&E&HM&HD&_).
  { rewrite (list_size _ _ _ Hl0 Hnd Hd). lia. }
  exists (with_timeos M s). split; [exact E|]. split; [|done]. split; cbn [with_timeos timeos next_timeout t_pool clock].
  - by rewrite Hb.
  - by rewrite rebase_keys.
  - by rewrite rebase_keys, HD.
  - by rewrite HD.
  - by apply rebase_in_order.
  - apply Forall_fmap. apply StronglySorted_inv in Hs as [_ Hs]. rewrite Forall_forall in Hsp. apply Forall_forall. intros e He. pose proof (Hsp e He). unfold RANGE in *. cbn.
    apply elem_of_cons in He as [->|He]; cbn; [lia|]. rewrite Forall_forall in Hs. pose proof (Hs e He) as He1. cbn in He1. lia.
Qed.
End proofs.
