(* ===== verification/TimeoutsProofs.v ===== *)
(** * Timeouts: what is due is done

    A check of the timeouts returns, runs what is due in the order of the due times, and
    leaves the timers that start themselves again in the queue. *)
From Stdlib Require Import Sorted.
From S2P Require Import Prelude Memp MempProofs FrameLaws ArpPool Timeouts TimeoutsQueue.
Open Scope Z_scope.

(** What is called leaves the list alone and takes at most [slow] ticks. *)
Definition quiet {Q X} (slow : Z) (p : prog (timeouts Q X) unit) : Prop := forall s, exists k c, clock s <= k <= clock s + slow /\
  p s = Some (tt, mkTimeouts (timeos s) (next_timeout s) (current_timeout_due_time s) (tcpip_tcp_timer_active s) (t_pool s) k c).

Class TimerWorkOk (Q X : Type) `{!TimerWork Q X} := {
  slow : Z;
  slow_nonneg : 0 <= slow;
  work_tcp_ok : quiet slow work_tcp;
  work_etharp_ok : quiet slow work_etharp;
  work_igmp_ok : quiet slow work_igmp;
  work_other_ok f a : quiet slow (work_other f a)
}.

(** ** How much is left to do *)

(** A timer that is late may be due once more, at this very moment. *)
Definition weight (T : Z) (e : queued) : Z := if due e.2 <? T then 2 else if due e.2 =? T then 1 else 0.
Fixpoint load (T : Z) (l : list queued) : Z := match l with [] => 0 | e :: l' => weight T e + load T l' end.

Lemma weight_bounds T e : 0 <= weight T e <= 2.
Proof. unfold weight. repeat case_match; lia. Qed.

Lemma load_insert T e l : load T (insert_item e l) = weight T e + load T l.
Proof. induction l as [|y l IH]; cbn; [lia|]. destruct (_ <? _); cbn; lia. Qed.

Lemma load_bounds T l : 0 <= load T l <= 2 * Z.of_nat (length l).
Proof. induction l as [|e l IH]; cbn [load length]; [lia|]. pose proof (weight_bounds T e). lia. Qed.

Lemma load_none T l : in_order l -> load T l = 0 -> Forall (fun e => T < due e.2) l.
Proof.
  intros _. induction l as [|e l IH]; cbn [load]; [constructor|]. pose proof (weight_bounds T e). pose proof (load_bounds T l). intros Hz. constructor; [|apply IH; lia].
  assert (Hw : weight T e = 0) by lia. unfold weight in Hw. destruct (Z.ltb_spec (due e.2) T), (Z.eqb_spec (due e.2) T); lia.
Qed.

Section check.
Context {Q X : Type} `{!TimeoutPool Q} `{!TimeoutPoolOk Q} `{!TimerWork Q X} `{!TimerWorkOk Q X}.

#[local] Set Default Proof Using "All".

Implicit Types (s : timeouts Q X) (l : list queued) (x : item).

(** The timers of the queue are timers of the table. *)
Definition timers_known l : Prop := Forall (fun e => what e.2 = lwip_cyclic_timer_handler -> is_Some (@lwip_cyclic_timers Q X _ !! Z.to_nat (arg e.2))) l.

(** The next time of a timer: a period after the last one, unless that has already passed. *)
Definition next_round (now interval : Z) x : item := mkItem (if due x + interval <? now then now + interval else due x + interval) (what x) (arg x).

(** The first element is taken out of the queue. *)
Definition popped s x s0 : Prop :=
  current_timeout_due_time s0 = u32 (due x) /\ tcpip_tcp_timer_active s0 = tcpip_tcp_timer_active s /\ clock s0 = clock s /\ client s0 = client s.

(** What the call of [x] leaves in the queue. *)
Inductive handles x l s1 : list queued -> Prop :=
| handles_none : what x = NULL_HANDLER -> handles x l s1 l
| handles_other f : what x = other_handler f -> handles x l s1 l
| handles_cyclic p interval work : what x = lwip_cyclic_timer_handler -> lwip_cyclic_timers !! Z.to_nat (arg x) = Some (interval, work) ->
    handles x l s1 (insert_item (p, next_round (clock s1) interval x) l)
| handles_tcp p : what x = tcpip_tcp_timer_handler -> tcp_pcbs_left (client s1) = true ->
    handles x l s1 (insert_item (p, mkItem (clock s1 + TCP_TMR_INTERVAL) tcpip_tcp_timer_handler 0) l)
| handles_tcp_off : what x = tcpip_tcp_timer_handler -> tcp_pcbs_left (client s1) = false -> tcpip_tcp_timer_active s1 = false -> handles x l s1 l.

(** The calls that a check at time [T] makes, one after the other. *)
Inductive served (T : Z) : timeouts Q X -> list queued -> list item -> timeouts Q X -> list queued -> Prop :=
| served_end s l : Forall (fun e => T < due e.2) l -> served T s l [] s l
| served_due s e l s0 s1 l1 log s2 l2 : due e.2 <= T -> popped s e.2 s0 -> rep s0 l ->
    call_handler (what e.2) (arg e.2) s0 = Some (tt, s1) -> clock s <= clock s1 -> rep s1 l1 -> handles e.2 l s1 l1 ->
    served T s1 l1 log s2 l2 -> served T s (e :: l) (e.2 :: log) s2 l2.

(** ** One call *)

Lemma rep_head s e l : rep s (e :: l) -> exists n, next_timeout s = e.1 /\ e.1 <> 0 /\ timeos s !! e.1 = Some (mkTimeo n (u32 (due e.2)) (what e.2) (arg e.2)) /\
  tlist (timeos s) n l /\ Z.of_nat (length l) < t_capacity.
Proof.
  intros [Hl Hnd Hd Hp _ _]. destruct e as [p x]. pose proof (list_size _ _ _ Hl Hnd Hd) as Hsz. cbn [tlist] in Hl. destruct Hl as (H1&H2&n&H3&H4). exists n.
  split; [exact H1|]. split; [exact H2|]. split; [exact H3|]. split; [exact H4|]. pose proof (timeo_bound _ _ Hp) as Hb. rewrite size_dom, Hsz in Hb. cbn in Hb. lia.
Qed.

Lemma check_step fuel T s e l : rep s (e :: l) -> due e.2 <= T -> T <= clock s ->
  exists s0, check_loop (S fuel) (u32 T) s = (_ ← call_handler (what e.2) (arg e.2); check_loop fuel (u32 T)) s0 /\ popped s e.2 s0 /\ rep s0 l.
Proof.
  intros HR HD HT. destruct (rep_head _ _ _ HR) as (n&Hnx&H0&He&Hl&_). pose proof HR as [_ _ Hd Hp _ Hw]. apply Forall_cons in Hw as [Hw _]. cbn [check_loop].
  rewrite ask_bind, Hnx, (proj2 (Z.eqb_neq e.1 0)), (bind_run _ _ _ _ _ (timeo_run _ _ _ He)) by done. cbn [t_time t_next t_h t_arg].
  rewrite time_less_than by (unfold RANGE in Hw; lia). rewrite (proj2 (Z.ltb_ge T (due e.2))) by done. unfold set_next_timeout at 1, set_due_time at 1. rewrite !update_bind.
  set (s0 := mkTimeouts _ _ _ _ _ _ _). assert (Hin : e.1 ∈ dom (timeos s0)) by (apply elem_of_dom; by eexists).
  destruct (free_timeo_run s0 e.1 Hin Hp) as (c&Hc&E). rewrite (bind_run _ _ _ _ _ E). eexists. split; [done|]. split; [done|].
  exact (rep_without s [] e l _ _ c _ HR Hl eq_refl Hc).
Qed.

Lemma rep_later s l (k : Z) (c : X) : rep s l -> clock s <= k -> Forall (fun e => k - RANGE <= due e.2) l ->
  rep (mkTimeouts (timeos s) (next_timeout s) (current_timeout_due_time s) (tcpip_tcp_timer_active s) (t_pool s) k c) l.
Proof.
  intros [Hl Hnd Hd Hp Hs Hw] Hk Hlow. split; cbn; [done|done|done|done|done|]. apply Forall_forall. intros e He. rewrite Forall_forall in Hw, Hlow.
  pose proof (Hw e He). pose proof (Hlow e He). lia.
Qed.

(** There is room for a timeout, so it is not lost. *)
Lemma armed_room s l D h a s' l' : armed s l D h a s' l' -> Z.of_nat (length l) < t_capacity -> rep s' l' /\ clock s' = clock s /\ client s' = client s /\ exists p, l' = insert_item (p, mkItem D h a) l.
Proof. intros ((_&_&Hk&Hc)&HR&[(_&H)|H]) Hroom; [lia|done]. Qed.

Lemma cyclic_quiet i interval work : @lwip_cyclic_timers Q X _ !! i = Some (interval, work) -> quiet slow work /\ 0 < interval <= 1000.
Proof.
  destruct i as [|[|[|i]]]; cbn; intros [= <- <-]; [split; [apply work_tcp_ok|done]|split; [apply work_etharp_ok|done]|split; [apply work_igmp_ok|done]].
Qed.

Lemma handler_run T s x l s0 : popped s x s0 -> rep s0 l -> Z.of_nat (length l) < t_capacity -> due x <= T -> T <= clock s -> clock s0 + slow - RANGE <= due x -> clock s0 + slow < T + RANGE ->
  Forall (fun e => clock s0 + slow - RANGE <= due e.2) l -> (what x = lwip_cyclic_timer_handler -> is_Some (@lwip_cyclic_timers Q X _ !! Z.to_nat (arg x))) ->
  exists s1 l1, call_handler (what x) (arg x) s0 = Some (tt, s1) /\ clock s <= clock s1 <= clock s + slow /\ rep s1 l1 /\ handles x l s1 l1.
Proof.
  intros (Hdue&_&Hk&_) HR Hroom HD HT Hlow Hhigh Hl Hkn. pose proof slow_nonneg as Hslow.
  assert (Hlate : forall k (c : X), clock s0 <= k <= clock s0 + slow -> rep (mkTimeouts (timeos s0) (next_timeout s0) (current_timeout_due_time s0) (tcpip_tcp_timer_active s0) (t_pool s0) k c) l).
  { intros k c Hkc. apply rep_later; [done|lia|]. eapply Forall_impl; [exact Hl|]. cbn. intros e He. lia. }
  destruct (what x) as [| | |f] eqn:Ew; cbn [call_handler].
  - exists s0, l. split; [done|]. split; [lia|]. split; [done|]. by apply handles_none.
  - unfold tcpip_tcp_timer. destruct (work_tcp_ok s0) as (k&c&Hkc&E). rewrite (bind_run _ _ _ _ _ E), ask_bind. cbn [client]. set (s1 := mkTimeouts _ _ _ _ _ k c).
    destruct (tcp_pcbs_left c) eqn:El.
    + destruct (sys_timeout_run s1 l TCP_TMR_INTERVAL tcpip_tcp_timer_handler 0 (Hlate k c Hkc) ltac:(done)) as (s2&l2&E2&HA).
      destruct (armed_room _ _ _ _ _ _ _ HA Hroom) as (HR2&Hk2&Hc2&p&Hl2). exists s2, l2. split; [exact E2|]. rewrite Hk2. cbn [s1 clock]. split; [lia|]. split; [done|].
      rewrite Hl2. change (clock s1) with k. change (clock s1) with k in Hk2. rewrite <- Hk2. apply handles_tcp; [done|]. by rewrite Hc2.
    + eexists _, l. split; [done|]. split; [cbn; lia|]. split; [|by apply handles_tcp_off]. destruct (Hlate k c Hkc). by constructor.
  - destruct (Hkn eq_refl) as ([interval work]&Ei). destruct (cyclic_quiet _ _ _ Ei) as [Hq Hint]. unfold lwip_cyclic_timer. unfold try_ask at 1.
    destruct (Hq s0) as (k&c&Hkc&E). set (s1 := mkTimeouts _ _ _ _ _ k c) in E.
    assert (Eb : forall (g : Z * prog (timeouts Q X) unit -> prog (timeouts Q X) unit), (p ← try_ask (fun _ => @lwip_cyclic_timers Q X _ !! Z.to_nat (arg x)); g p) s0 = g (interval, work) s0).
    { intros g. apply bind_run. unfold try_ask. by rewrite Ei. }
    rewrite Eb. rewrite (bind_run _ _ _ _ _ E), (bind_run _ _ _ _ _ (sys_now_run s1)), ask_bind. change (current_timeout_due_time s1) with (current_timeout_due_time s0). change (clock s1) with k. rewrite Hdue.
    replace (u32 (u32 (due x) + interval)) with (u32 (due x + interval)) by (unfold u32; dlia). replace (u32 (u32 k + interval)) with (u32 (k + interval)) by (unfold u32; dlia).
    unfold RANGE in *. rewrite time_less_than by lia.
    assert (Hend : forall D, D = (if due x + interval <? k then k + interval else due x + interval) -> clock s1 - RANGE <= D < clock s1 + RANGE ->
      exists s2 l2, sys_timeout_abs (u32 D) lwip_cyclic_timer_handler (arg x) s1 = Some (tt, s2) /\ clock s <= clock s2 <= clock s + slow /\ rep s2 l2 /\ handles x l s2 l2).
    { intros D HeD HrD. destruct (sys_timeout_abs_run s1 l D lwip_cyclic_timer_handler (arg x) (Hlate k c Hkc) HrD) as (s2&l2&E2&HA).
      destruct (armed_room _ _ _ _ _ _ _ HA Hroom) as (HR2&Hk2&_&p&Hl2). change (clock s1) with k in Hk2. exists s2, l2. split; [exact E2|]. rewrite Hk2. split; [lia|]. split; [done|].
      rewrite Hl2, HeD, <- Hk2, <- Ew. exact (handles_cyclic x l s2 p interval work Ew Ei). }
    destruct (Z.ltb_spec (due x + interval) k); apply Hend; try done; change (clock s1) with k; unfold RANGE; lia.
  - destruct (work_other_ok f (arg x) s0) as (k&c&Hkc&E). eexists _, l. split; [exact E|]. split; [cbn; lia|]. split; [by apply Hlate|]. by eapply handles_other.
Qed.
(** A timer that starts again is less of a load than it was. *)
Lemma handles_next T e l s1 l1 : handles e.2 l s1 l1 -> due e.2 <= T -> T <= clock s1 -> (what e.2 = lwip_cyclic_timer_handler -> is_Some (@lwip_cyclic_timers Q X _ !! Z.to_nat (arg e.2))) ->
  l1 = l \/ exists p y, l1 = insert_item (p, y) l /\ clock s1 <= due y /\ weight T (p, y) + 1 <= weight T e /\
    (what y = lwip_cyclic_timer_handler -> is_Some (@lwip_cyclic_timers Q X _ !! Z.to_nat (arg y))).
Proof.
  intros HH HD HT Hkn. destruct HH as [| |p interval work Ew Ei|p Ew _|]; [by left|by left| | |by left]; right; eexists p, _; (split; [done|]); cbn [due what arg next_round].
  - destruct (cyclic_quiet _ _ _ Ei) as [_ Hi]. split; [destruct (Z.ltb_spec (due e.2 + interval) (clock s1)); lia|]. split; [|done].
    unfold weight. cbn [snd due next_round]. destruct (Z.ltb_spec (due e.2 + interval) (clock s1)); repeat case_match; lia.
  - unfold TCP_TMR_INTERVAL. split; [lia|]. split; [|done]. unfold weight. cbn [snd due]. repeat case_match; lia.
Qed.

Lemma handles_queue T e l s1 l1 : handles e.2 l s1 l1 -> due e.2 <= T -> T <= clock s1 -> timers_known (e :: l) ->
  load T l1 + 1 <= load T (e :: l) /\ (forall e', e' ∈ l1 -> e' ∈ l \/ clock s1 <= due e'.2) /\ timers_known l1.
Proof.
  intros HH HD HT [Hkn0 Hkn]%Forall_cons. cbn [load]. destruct (handles_next T e l s1 l1 HH HD HT Hkn0) as [->|(p&y&->&Hy&Hwy&Hky)].
  - split; [|by split; [left|]]. unfold weight. repeat case_match; lia.
  - rewrite load_insert. split; [lia|]. split; [|unfold timers_known; rewrite insert_item_perm; by constructor].
    intros e'. rewrite insert_item_perm. intros [->|He]%elem_of_cons; [by right|by left].
Qed.

(** The time that is left for the calls. *)
Definition budget (T : Z) s l : Prop :=
  T <= clock s /\ clock s + load T l * slow < T + RANGE /\ Forall (fun e => clock s + load T l * slow - RANGE <= due e.2) l /\ timers_known l.

Lemma budget_next T s e l s1 l1 : budget T s (e :: l) -> handles e.2 l s1 l1 -> due e.2 <= T -> clock s <= clock s1 <= clock s + slow -> budget T s1 l1 /\ load T l1 + 1 <= load T (e :: l).
Proof.
  intros (HT&Hhigh&Hlow&Hkn) HH HD Hk. pose proof slow_nonneg as Hslow. destruct (handles_queue T e l s1 l1 HH HD ltac:(lia) Hkn) as (Hload&Hin&Hkn1). assert (Hm : load T l1 * slow + slow <= load T (e :: l) * slow) by nia. split; [|done].
  split; [lia|]. split; [lia|]. split; [|done]. apply Forall_forall. intros e' [He|He]%Hin; [|lia]. apply Forall_cons in Hlow as [_ Hlow]. rewrite Forall_forall in Hlow. pose proof (Hlow e' He). lia.
Qed.

Lemma check_loop_run T fuel s l : rep s l -> budget T s l -> (Z.to_nat (load T l) < fuel)%nat ->
  exists log s' l', check_loop fuel (u32 T) s = Some (tt, s') /\ served T s l log s' l' /\ rep s' l'.
Proof.
  revert s l. induction fuel as [|fuel IH]; intros s l HR HB Hf; [lia|]. pose proof (rp_sorted _ _ HR) as Hs. destruct l as [|e l].
  { pose proof (rp_list _ _ HR) as Hnx. cbn in Hnx. cbn [check_loop]. rewrite ask_bind, Hnx, Z.eqb_refl. exists [], s, []. split; [done|]. split; [by constructor|done]. }
  destruct (decide (due e.2 <= T)) as [HD|HD].
  - pose proof HB as (HT&Hhigh&Hlow&Hkn). apply Forall_cons in Hkn as [Hkn0 _]. pose proof slow_nonneg as Hslow.
    assert (Hm : slow <= load T (e :: l) * slow). { cbn [load]. pose proof (load_bounds T l). assert (1 <= weight T e) by (unfold weight; repeat case_match; lia). nia. }
    destruct (check_step fuel T s e l HR HD HT) as (s0&E0&HP&HR0). destruct (rep_head _ _ _ HR) as (_&_&_&_&_&Hroom). pose proof HP as (_&_&Hk0&_).
    destruct (handler_run T s e.2 l s0 HP HR0 Hroom HD HT) as (s1&l1&E1&Hk1&HR1&HH).
    + apply Forall_cons in Hlow as [Hlow _]. lia.
    + lia.
    + apply Forall_cons in Hlow as [_ Hlow]. eapply Forall_impl; [exact Hlow|]. cbn beta. intros e' ?. lia.
    + done.
    + destruct (budget_next T s e l s1 l1 HB HH HD Hk1) as [HB1 Hload]. destruct (IH s1 l1 HR1 HB1) as (log&s2&l2&E2&HS&HR2).
      { pose proof (load_bounds T l1). lia. }
      exists (e.2 :: log), s2, l2. rewrite E0, (bind_run _ _ _ _ _ E1). split; [exact E2|]. split; [|done]. eapply served_due; try done. lia.
  - destruct (rep_head _ _ _ HR) as (n&Hnx&H0&He&_&_). pose proof (rp_window _ _ HR) as Hw. apply Forall_cons in Hw as [Hw _]. destruct HB as (HT&Hhigh&_). pose proof slow_nonneg as Hslow. pose proof (load_bounds T (e :: l)).
    assert (0 <= load T (e :: l) * slow) by nia. cbn [check_loop]. rewrite ask_bind, Hnx, (proj2 (Z.eqb_neq e.1 0)), (bind_run _ _ _ _ _ (timeo_run _ _ _ He)) by done. cbn [t_time].
    rewrite time_less_than by (unfold RANGE in *; lia). rewrite (proj2 (Z.ltb_lt T (due e.2))) by lia. exists [], s, (e :: l). split; [done|]. split; [|done]. constructor. apply StronglySorted_inv in Hs as [_ Hs].
    constructor; [lia|]. eapply Forall_impl; [exact Hs|]. cbn. intros e' ?. lia.
Qed.
(** ** The calls of a check *)

Lemma handles_keeps x l s1 l1 e : handles x l s1 l1 -> e ∈ l -> e ∈ l1.
Proof. intros [] He; try done; rewrite insert_item_perm; by right. Qed.

Lemma served_low T s l log s' l' b : served T s l log s' l' -> T <= clock s -> timers_known l -> b <= T -> Forall (fun e => b <= due e.2) l -> Forall (fun x => b <= due x <= T) log.
Proof.
  induction 1 as [|s e l s0 s1 l1 log s2 l2 HD _ _ _ Hk _ HH _ IH]; intros HT Hkn Hb Hl; [constructor|]. pose proof Hl as [He Hl']%Forall_cons.
  destruct (handles_queue T e l s1 l1 HH HD ltac:(lia) Hkn) as (_&Hin&Hkn1). constructor; [done|]. apply IH; [lia|done|done|].
  apply Forall_forall. intros e' [He'|He']%Hin; [rewrite Forall_forall in Hl'; by apply Hl'|lia].
Qed.

(** The calls are made in the order of the due times. *)
Lemma served_in_order T s l log s' l' : served T s l log s' l' -> T <= clock s -> timers_known l -> in_order l -> StronglySorted (fun x y => due x <= due y) log.
Proof.
  induction 1 as [|s e l s0 s1 l1 log s2 l2 HD _ _ _ Hk HR HH HS IH]; intros HT Hkn Hs; [constructor|]. apply StronglySorted_inv in Hs as [_ Hall].
  destruct (handles_queue T e l s1 l1 HH HD ltac:(lia) Hkn) as (_&Hin&Hkn1). constructor; [apply IH; [lia|done|apply (rp_sorted _ _ HR)]|].
  eapply Forall_impl; [apply (served_low _ _ _ _ _ _ (due e.2) HS)|cbn; intros x ?; lia]; [lia|done|done|].
  apply Forall_forall. intros e' [He'|He']%Hin; [rewrite Forall_forall in Hall; by apply Hall|lia].
Qed.

Lemma served_none_left T s l log s' l' : served T s l log s' l' -> Forall (fun e => T < due e.2) l'.
Proof. by induction 1. Qed.

Lemma served_all T s l log s' l' e : served T s l log s' l' -> e ∈ l -> if due e.2 <=? T then e.2 ∈ log else e ∈ l'.
Proof.
  induction 1 as [s l Hl|s e0 l s0 s1 l1 log s2 l2 HD _ _ _ _ _ HH _ IH]; intros He.
  - rewrite Forall_forall in Hl. pose proof (Hl e He). by rewrite (proj2 (Z.leb_gt (due e.2) T)).
  - apply elem_of_cons in He as [->|He]; [rewrite (proj2 (Z.leb_le (due e0.2) T)) by done; left|]. pose proof (IH (handles_keeps _ _ _ _ _ HH He)) as Hend.
    destruct (due e.2 <=? T); [by right|done].
Qed.

(** A timer that starts itself again goes on. *)
Lemma served_cyclic T s l log s' l' e : served T s l log s' l' -> e ∈ l -> what e.2 = lwip_cyclic_timer_handler ->
  exists e', e' ∈ l' /\ what e'.2 = lwip_cyclic_timer_handler /\ arg e'.2 = arg e.2.
Proof.
  intros HS. revert e. induction HS as [s l Hl|s e0 l s0 s1 l1 log s2 l2 HD _ _ _ _ _ HH _ IH]; intros e He Ew; [by exists e|].
  apply elem_of_cons in He as [->|He]; [|by apply (IH e (handles_keeps _ _ _ _ _ HH He))].
  destruct HH as [H|f H|p interval work _ _|p H _|H _ _]; try congruence.
  destruct (IH (p, next_round (clock s1) interval e0.2)) as (e'&He'&E1&E2); [rewrite insert_item_perm; left|done|]. by exists e'.
Qed.

(** ** Timeouts that do not start again *)

Definition calls_once x : bool := match what x with other_handler _ => true | _ => false end.
Definition once_due (T : Z) l : list item := List.filter (fun x => calls_once x && (due x <=? T)) l.*2.

Lemma once_due_insert T p y l : calls_once y = false -> once_due T (insert_item (p, y) l) = once_due T l.
Proof. intros Hy. unfold once_due. induction l as [|e l IH]; cbn; [by rewrite Hy|]. destruct (_ <? _); cbn; [by rewrite Hy|]. by rewrite IH. Qed.

Lemma handles_once T x l s1 l1 : handles x l s1 l1 -> once_due T l1 = once_due T l.
Proof. intros [|f|p interval work Ew|p|]; try done; apply once_due_insert; [|done]. unfold calls_once, next_round. cbn. by rewrite Ew. Qed.

Lemma served_once T s l log s' l' : served T s l log s' l' -> List.filter calls_once log = once_due T l.
Proof.
  induction 1 as [s l Hl|s e l s0 s1 l1 log s2 l2 HD _ _ _ _ _ HH _ IH].
  - unfold once_due. induction Hl as [|e l He _ IH]; [done|]. cbn. rewrite (proj2 (Z.leb_gt (due e.2) T)), andb_false_r by done. exact IH.
  - rewrite (handles_once T _ _ _ _ HH) in IH. unfold once_due in *. cbn. rewrite (proj2 (Z.leb_le (due e.2) T)), andb_true_r by done. destruct (calls_once e.2); by rewrite IH.
Qed.
(** ** The timers at the start *)

Lemma sys_timeouts_init_run s : rep s [] -> 2 <= t_capacity -> exists s' p q, sys_timeouts_init s = Some (tt, s') /\ same_rest_t s s' /\
  rep s' [(q, mkItem (clock s + IGMP_TMR_INTERVAL) lwip_cyclic_timer_handler 2); (p, mkItem (clock s + ARP_TMR_INTERVAL) lwip_cyclic_timer_handler 1)].
Proof.
  intros HR Hcap. unfold sys_timeouts_init. cbn [init_loop_from]. change (1 + 1) with 2.
  destruct (sys_timeout_run s [] ARP_TMR_INTERVAL lwip_cyclic_timer_handler 1 HR ltac:(done)) as (s1&l1&E1&HA1).
  assert (Hroom : Z.of_nat (@length queued []) < t_capacity) by (cbn; lia). pose proof HA1 as ((R1&R2&_)&_). destruct (armed_room _ _ _ _ _ _ _ HA1 Hroom) as (HR1&Hk1&Hc1&p&->). cbn [insert_item] in *.
  destruct (sys_timeout_run s1 _ IGMP_TMR_INTERVAL lwip_cyclic_timer_handler 2 HR1 ltac:(done)) as (s2&l2&E2&HA2).
  assert (Hroom2 : Z.of_nat (length [(p, mkItem (clock s + ARP_TMR_INTERVAL) lwip_cyclic_timer_handler 1)]) < t_capacity) by (cbn; lia).
  pose proof HA2 as ((R3&R4&_)&_). destruct (armed_room _ _ _ _ _ _ _ HA2 Hroom2) as (HR2&Hk2&Hc2&q&Hl2). exists s2, p, q. split; [|split].
  - rewrite (bind_run _ _ _ (ARP_TMR_INTERVAL, work_etharp) s eq_refl), (bind_run _ _ _ _ _ E1). rewrite (bind_run _ _ _ (IGMP_TMR_INTERVAL, work_igmp) s1 eq_refl), (bind_run _ _ _ _ _ E2). done.
  - split; [congruence|]. split; [congruence|]. split; congruence.
  - rewrite Hl2, Hk1 in HR2. cbn [insert_item snd due] in HR2. unfold ARP_TMR_INTERVAL, IGMP_TMR_INTERVAL in *. by rewrite (proj2 (Z.ltb_lt (clock s + 100) (clock s + 1000))) in HR2 by lia.
Qed.

(** ** The properties *)

(** C39 — the list of timeouts is a queue in the order of the due times, although the
    clock wraps: as long as no timeout is 2^30 milliseconds or more away, a new timeout
    comes behind all that are due no later, or is dropped when the pool is used up;
    sys_untimeout takes out the first one with this function and argument; the time to
    sleep is the time until the first one is due; and sys_restart_timeouts moves all of
    them so that the first one is due now and the distances stay. *)
Theorem timeouts_queue s l : rep s l ->
  (forall msecs h a, 0 <= msecs < RANGE -> exists s' l', sys_timeout msecs h a s = Some (tt, s') /\ armed s l (clock s + msecs) h a s' l') /\
  (forall h a, exists s', sys_untimeout h a s = Some (tt, s') /\ rep s' (remove_item h a l) /\ same_rest_t s s') /\
  sys_timeouts_sleeptime s = Some (time_left (clock s) l, s) /\
  (Forall (fun e => due e.2 < time_first s l + RANGE) l ->
    exists s', sys_restart_timeouts s = Some (tt, s') /\ rep s' (rebase (clock s - time_first s l) l) /\ same_rest_t s s').
Proof using Q X TimeoutPool0 TimeoutPoolOk0.
  intros HR. split; [|split; [|split]].
  - intros msecs h a Hm. by apply sys_timeout_run.
  - intros h a. by apply sys_untimeout_run.
  - by apply sleeptime_run.
  - by apply sys_restart_run.
Qed.

(** C40 — sys_check_timeouts returns, although the timers start themselves again while it
    runs (each call of a handler takes at most [slow] milliseconds; at most two calls per
    timeout are needed): it calls every timeout that was due when it started, in the order
    of the due times and no other one, those that do not start again exactly once; what
    was not due stays; every timer that starts itself again is still in the queue, for a
    period after it was due or, if that has passed, a period from now; nothing that is due
    is left. *)
Theorem sys_check_timeouts_serves fuel s l : rep s l -> timers_known l -> 2 * Z.of_nat (length l) * slow < RANGE ->
  Forall (fun e => clock s + 2 * Z.of_nat (length l) * slow - RANGE <= due e.2) l -> (2 * length l < fuel)%nat ->
  exists log s' l', sys_check_timeouts fuel s = Some (tt, s') /\ rep s' l' /\ served (clock s) s l log s' l' /\
    Forall (fun e => clock s < due e.2) l' /\
    StronglySorted (fun x y => due x <= due y) log /\ Forall (fun x => due x <= clock s) log /\
    (forall e, e ∈ l -> if due e.2 <=? clock s then e.2 ∈ log else e ∈ l') /\
    List.filter calls_once log = once_due (clock s) l /\
    (forall e, e ∈ l -> what e.2 = lwip_cyclic_timer_handler -> exists e', e' ∈ l' /\ what e'.2 = lwip_cyclic_timer_handler /\ arg e'.2 = arg e.2).
Proof.
  intros HR Hkn Hslow Hlow Hf. pose proof (load_bounds (clock s) l) as Hload. pose proof slow_nonneg as Hs0.
  assert (Hm : load (clock s) l * slow <= 2 * Z.of_nat (length l) * slow) by nia.
  destruct (check_loop_run (clock s) fuel s l HR) as (log&s'&l'&E&HS&HR').
  { split; [lia|]. split; [lia|]. split; [|done]. eapply Forall_impl; [exact Hlow|]. cbn beta. intros e ?. lia. }
  { lia. }
  pose proof (rp_sorted _ _ HR) as Hs. exists log, s', l'. split; [unfold sys_check_timeouts; by rewrite (bind_run _ _ _ _ _ (sys_now_run s))|]. split; [done|]. split; [done|].
  split; [by eapply served_none_left|]. split; [eapply served_in_order; [done|lia|done|done]|]. split; [|split; [|split]].
  - assert (Hb : exists b, b <= clock s /\ Forall (fun e => b <= due e.2) l).
    { exists (clock s - RANGE). split; [unfold RANGE; lia|]. eapply Forall_impl; [exact (rp_window _ _ HR)|]. cbn beta. intros e ?. lia. }
    destruct Hb as (b&Hb1&Hb2). eapply Forall_impl; [eapply (served_low _ _ _ _ _ _ b HS); [lia|done|done|done]|]. cbn beta. intros x ?. lia.
  - intros e. by eapply served_all.
  - by eapply served_once.
  - intros e. by eapply served_cyclic.
Qed.
End check.

(** ** At work

    The pool of the configuration, with six elements, and a clock that is about to wrap. *)

Definition timeout_pools (t : memp_t) : memp_desc := mkDesc 16 6 (1000 + 96 * pool_number t).

Lemma timeout_pools_ok : layout_ok timeout_pools.
Proof.
  split.
  - intros t. cbn. lia.
  - intros t. cbn. lia.
  - intros t. by destruct t; vm_compute.
  - intros t t' i j Hne Hi Hj. unfold element. cbn [timeout_pools desc_size desc_num desc_base] in *.
    assert (Ha : forall t, LWIP_MEM_ALIGN (1000 + 96 * pool_number t) = 1000 + 96 * pool_number t) by (by intros []).
    rewrite !Ha. assert (pool_number t <> pool_number t') by (by destruct t, t').
    lia.
Qed.

#[local] Instance pool_ex : TimeoutPool memp_state := timeout_pool.
#[local] Instance pool_ex_ok : TimeoutPoolOk memp_state := timeout_pool_ok timeout_pools timeout_pools_ok.

(** Each call takes three milliseconds and is noted. *)
Definition note (n : Z) : prog (timeouts memp_state (list Z)) unit := fun s => Some (tt,
  mkTimeouts (timeos s) (next_timeout s) (current_timeout_due_time s) (tcpip_tcp_timer_active s) (t_pool s) (clock s + 3) (client s ++ [n])).

#[local] Instance work_ex : TimerWork memp_state (list Z) :=
  {| work_tcp := note 0; work_etharp := note 1; work_igmp := note 2; work_other f a := note (100 + f); tcp_pcbs_left _ := false |}.

Lemma note_quiet n : quiet 3 (note n).
Proof. intros s. exists (clock s + 3), (client s ++ [n]). split; [lia|done]. Qed.

#[local] Instance work_ex_ok : TimerWorkOk memp_state (list Z).
Proof. refine {| slow := 3 |}; [done|apply note_quiet|apply note_quiet|apply note_quiet|intros; apply note_quiet]. Defined.

Definition start_ex (c : memp_state) : timeouts memp_state (list Z) := mkTimeouts ∅ 0 0 false c (2 ^ 32 - 500) [].

Lemma start_ex_rep : exists c, memp_init timeout_pools (mkMemp (fun _ => 0) ∅) = Some (tt, c) /\ rep (start_ex c) [].
Proof.
  destruct (memp_init timeout_pools (mkMemp (fun _ => 0) ∅)) as [[[] c]|] eqn:E; [|by vm_compute in E]. exists c. split; [done|].
  split; cbn; [done|constructor|done| |constructor|constructor]. rewrite dom_empty_L. exact (pool_handed_start timeout_pools timeout_pools_ok MEMP_SYS_TIMEOUT _ c E).
Qed.

(** The two timers of the start; the second one is due after the clock has wrapped. *)
Lemma timers_ex_rep : exists (s : timeouts memp_state (list Z)) p q, rep s [(q, mkItem (2 ^ 32 - 400) lwip_cyclic_timer_handler 2); (p, mkItem (2 ^ 32 + 500) lwip_cyclic_timer_handler 1)] /\ clock s = 2 ^ 32 - 500.
Proof.
  destruct start_ex_rep as (c&_&HR). destruct (sys_timeouts_init_run _ HR ltac:(done)) as (s&p&q&_&(_&_&Hk&_)&HR'). by exists s, p, q.
Qed.

Lemma timeouts_queue_witness : exists (s : timeouts memp_state (list Z)) l, length l = 2%nat /\ rep s l /\ sys_timeouts_sleeptime s = Some (100, s) /\ exists s', sys_restart_timeouts s = Some (tt, s').
Proof.
  destruct timers_ex_rep as (s&p&q&HR&Hk). exists s, [(q, mkItem (2 ^ 32 - 400) lwip_cyclic_timer_handler 2); (p, mkItem (2 ^ 32 + 500) lwip_cyclic_timer_handler 1)].
  destruct (timeouts_queue s _ HR) as (_&_&Hsleep&Hrestart). rewrite Hk in Hsleep. split; [reflexivity|]. split; [exact HR|]. split; [exact Hsleep|].
  destruct Hrestart as (s'&E&_); [repeat constructor|]. exists s'. exact E.
Defined.

(** A second late: the timer of IGMP runs late, that of ARP at its time. *)
Lemma sys_check_timeouts_serves_witness : exists (s : timeouts memp_state (list Z)) l log s' l', length l = 2%nat /\ sys_check_timeouts 5 s = Some (tt, s') /\ served (clock s) s l log s' l' /\ log <> [].
Proof.
  destruct timers_ex_rep as (s&p&q&HR&Hk). set (l := [_; _]) in HR.
  assert (HR1 : rep (mkTimeouts (timeos s) (next_timeout s) (current_timeout_due_time s) (tcpip_tcp_timer_active s) (t_pool s) (2 ^ 32 + 500) (client s)) l).
  { apply rep_later; [exact HR|rewrite Hk; lia|repeat constructor; unfold RANGE; cbn; lia]. }
  destruct (sys_check_timeouts_serves 5 _ l HR1) as (log&s'&l'&E&_&HS&_&_&_&Hall&_).
  - repeat constructor; cbn; intros _; by eexists.
  - reflexivity.
  - repeat constructor; cbn; unfold RANGE; lia.
  - cbn. lia.
  - eexists _, l, log, s', l'. split; [reflexivity|]. split; [exact E|]. split; [exact HS|]. intros ->. pose proof (Hall _ (list_elem_of_here _ _)) as H. cbn in H. by apply not_elem_of_nil in H.
Defined.
